(* ===== verification/_CoqProject ===== *)
-Q . S2P
Prelude.v
F64.v
CoreIds.v
Workspace.v
LayoutGeometry.v
Lattice.v
ExactAspect.v
Constraints.v
Dwindle.v
Solve.v
Plan.v
Resize.v
Buffering.v
Deadline.v
Scheduler.v
Pipeline.v
RenderJournal.v
AdaptiveBuffering.v
SurfaceCommit.v
SurfaceCache.v
SurfaceQueue.v
SurfaceMerge.v
PresentationModes.v
OutputTransaction.v
Ledger.v
KmsTiming.v
AtomicCommit.v
KmsPayload.v
KmsQueue.v
KmsWorker.v
Swapchain.v
SwapchainHistory.v
Positioner.v
PopupTree.v
PopupForest.v
ConfigureTimeline.v
AssociationJoin.v
AssociationLink.v
WindowRegistry.v
WindowLifecycle.v
XwmRuntime.v
ResizeSync.v
ResizeHistory.v
ResizeConvergence.v
