(* ===== verification/Prelude.v ===== *)
(** * A verified model of the Typhon compositor's core

    Typhon (crate oblivion_one) is a Wayland compositor in Rust. This library
    models the parts of it that decide what is shown where and when, and
    proves that they do it correctly. Everything is a shallow embedding:
    pure functions are functions, code behind a [&mut] reference is a
    function from a state to a state and a result, an error is a value, and
    a panic and a loop that does not end are outcomes of their own ([res]
    below), so that their absence is something to prove.

    ** The program and the files

    Paths are relative to src/src.

    - Prelude.v (this file): machine integers as [Z] with saturating, checked
      and wrapping operations written out; the outcome type [res] and the
      state monad [SM] with their laws; bounded loops; ordered maps; the
      tactics and hint databases of the development.
    - F64.v: IEEE double precision arithmetic as the layout code uses it
      (comparisons, rounding, clamping, conversion to integers) over the
      Standard Library's [spec_float].
    - CoreIds.v (core/window_id.rs, core/output_id.rs,
      core/scene_node_id.rs): identities and their allocators; the class
      [IdAllocator] is what the rest of the compositor relies on.
    - Workspace.v (wm/workspace.rs, wm/special_workspace.rs, wm/window.rs):
      the workspace manager of several outputs, the bit set of visible
      workspaces, the management state of a window.
    - LayoutGeometry.v (wm/layout/geometry.rs), Lattice.v
      (wm/layout/lattice.rs), ExactAspect.v (wm/layout/exact_aspect.rs):
      rectangles and their splits, the lattices of legal client dimensions,
      exact aspect ratios by continued fractions and congruences.
    - Constraints.v (wm/layout/constraints.rs): client size hints, their
      validation and normalisation, and the search for the best client
      rectangle inside a tile.
    - Dwindle.v (wm/layout/dwindle.rs): the tree of tiled windows in a
      generational arena. The abstract view is a binary tree of windows
      ([shape]); [tree_rep] relates the two.
    - Solve.v (wm/layout/solve.rs, the data types of wm/layout/plan.rs): lower
      bounds, exact feasibility with its caches, tiles and client rectangles.
    - Plan.v (wm/layout/plan.rs): one tree per workspace location.
    - Resize.v (wm/layout/resize.rs): the divider that a pointer resize moves.
    - Buffering.v (native/buffering/mod.rs and credit.rs,
      native/presentation_timing.rs): presentation opportunities, the
      frontier of live claims, service estimates, the credit controller.
    - Deadline.v (native/presentation_deadline.rs): presentation targets and
      the planner that chooses refreshes.
    - Scheduler.v (native/scheduler.rs, native/scheduler/pipeline.rs): the
      frame scheduler of one output. The trait [PresentationPipelineView] is
      a class, and the theorems about decisions are proved against it.
    - Pipeline.v (native_output/presentation/pipeline.rs, the reservations of
      native_output/presentation/transaction.rs): the snapshot of the owners
      of future frames, its validation, and its instance of that class.
    - RenderJournal.v and AdaptiveBuffering.v (native/adaptive_buffering.rs):
      the measured render costs with their cached percentiles and the
      predictions made from them, and the policy that chooses between double
      and triple buffering.
    - SurfaceCommit.v (compositor/subsurface.rs and the captured states it
      holds): what a surface commit carries and how two commits merge.
    - SurfaceCache.v (compositor/state/surface_transactions/state.rs): the
      subsurface roles, the commits cached for synchronised surfaces, and the
      accounts that bound them.
    - SurfaceQueue.v and SurfaceMerge.v (queue.rs, model.rs, lineage.rs and
      settlement.rs of the same directory): the content updates that wait for
      publication, their order, their cancellation and their coalescing.
    - PresentationModes.v (compositor/presentation_modes.rs,
      native/vrr_window.rs, native/output_epoch.rs,
      native_output/presentation/async_validation.rs): presentation hints,
      the decision to tear or to vary the refresh, the window of a variable
      refresh.
    - OutputTransaction.v (native_output/presentation/transaction.rs): the
      frames an output presents, as they are built and updated.
    - Ledger.v (native_output/presentation/ledger.rs): the life of those
      transactions and the owners of their obligations. [lifecycle] is the
      abstract machine of a transaction, whose states are its own and, while
      it ends, the state it was taken from; [wp] is the post-condition
      calculus the operations are verified with.
    - KmsTiming.v (native_output/presentation/kms_timing.rs,
      native/kms_worker_dispatch_timing.rs, kms_worker/timing.rs): mode
      timings, submit windows, the guard before the apply deadline, and the
      dispatch models that learn how long a submission takes.
    - AtomicCommit.v (native_output/runtime/atomic_commit.rs): the arbiter
      that matches page-flip events with the commits that wait for them.
      [lane_step] is its abstract machine.
    - KmsPayload.v (payload.rs, bundle.rs and cursor_sidecar.rs of
      native_output/kms_worker, native_output/presentation/plane.rs): commit
      jobs, their validation against a transaction, the sidecar mailbox and
      the presented planes.
    - KmsQueue.v (native_output/kms_worker/queue.rs): admission, the queue of
      the submit worker, its lifecycle and its shutdown.
    - KmsWorker.v (native_output/kms_worker/thread.rs, validation.rs): the
      worker thread and the compositor thread as interleaved sequences of
      critical sections; [mon_step] is what the kernel may see of them.
    - Swapchain.v and SwapchainHistory.v
      (native_output/scanout/output_swapchain.rs): the buffers of an output
      and who owns each of them, and the theory of all histories of it. A
      frame finished with a fixed target carries the claim of that target; the
      parts of the validation that need more of the callers ask for [orderly]
      histories, and the lemmas about the others show what they lose.
    - Positioner.v (compositor/popup.rs, the positioner requests of
      compositor/protocols/xdg.rs): where a popup is placed.
    - PopupTree.v and PopupForest.v (the popups of
      compositor/state/windows.rs and of the code that calls it): the tree of
      popups, its grabs, and the theory of both.
    - ConfigureTimeline.v (xwayland/xwm/configure_timeline.rs): the geometry
      an X11 window was told and the notifications that answer.
    - AssociationJoin.v and AssociationLink.v (xwayland/association.rs,
      xwayland/xwm/association.rs): the pairing of X11 windows with Wayland
      surfaces, and the queue of events between its two ends. An event of a
      generation that is not served is refused as stale.
    - WindowRegistry.v and WindowLifecycle.v (xwayland/xwm/window.rs and the
      handlers in events.rs, commands.rs, api.rs and properties.rs beside it):
      the life of an X11 window, and the theory of its histories.
    - XwmRuntime.v (the entry points of the same directory): windows,
      associations, buffers and timelines as one state.
    - ResizeSync.v, ResizeHistory.v and ResizeConvergence.v
      (xwayland/xwm/resize_sync.rs and its callers in commands.rs,
      resize_runtime.rs and mod.rs): resizes of X11 windows in step with
      their content, and the theory of their histories. Whether the connection
      takes a request is an input; the class [Connection] leaves open which
      destructions of alarms it takes, a failure the code ignores.

    The layout files build on each other in the order above: the manager of
    Plan.v owns trees of Dwindle.v, Solve.v walks a tree and asks
    Constraints.v for client rectangles, which uses Lattice.v and
    ExactAspect.v. The presentation files form a second chain: the planner of
    Deadline.v names opportunities of Buffering.v, the scheduler of
    Scheduler.v compares its targets with the clock, and Pipeline.v says what
    the output owns; AdaptiveBuffering.v drives the credit controller of
    Buffering.v, and the ledger of Ledger.v settles the transactions of
    OutputTransaction.v, which carry targets of Deadline.v and modes of
    PresentationModes.v. A submitted transaction becomes a job of
    KmsPayload.v, goes through the queue of KmsQueue.v to the thread of
    KmsWorker.v, which times it with KmsTiming.v, and its page flip comes back
    through AtomicCommit.v. The surface files form a third: a client commit of
    SurfaceCommit.v is cached (SurfaceCache.v), queued (SurfaceQueue.v) and
    coalesced (SurfaceMerge.v). The worker's frames come from the slots of
    Swapchain.v, which binds them to targets of Deadline.v. The X11 windows of
    WindowRegistry.v take their surfaces from the join of AssociationJoin.v
    and their geometries from ConfigureTimeline.v; XwmRuntime.v puts the three
    together, and ResizeSync.v recognises the commits of a resize by the same
    join. Iteration over a hash map is in an order the
    class [HashOrder] leaves open, so the theorems hold for every order.

    ** What the theorems show

    - Invariants: every sequence of operations on the workspace manager, the
      tree, the planner, the credit controller and the scheduler keeps the
      component's invariant ([workspace_placement_safe],
      [dwindle_invariant], [stale_targets_stay_stale],
      [credit_controller_invariant], [scheduler_invariant]), and so do the
      operations of the surface cache and of the ledger under the conditions
      their callers see to ([cache_invariant], [ledger_invariant]). However
      the two threads of the submit worker interleave, no job is lost or
      duplicated ([jobs_are_conserved]); the presented planes follow the page
      flips ([presented_planes_follow_pageflips]). The slots of a swapchain
      keep one owner each ([swapchain_invariant], [frames_are_conserved]),
      popups form a forest whose grabs are alive ([popup_tree_invariant]), an
      acknowledged X11 geometry is never rolled back
      ([timeline_never_rolls_back]), and X11 windows are consistent and
      announced and withdrawn in turn ([window_lifecycle_invariant],
      [announcements_alternate]), also when all their parts move together
      ([window_manager_consistent]). The alarms of synchronised resizes belong
      to a resize in progress or to one given up, or their destruction failed
      ([resize_sync_invariant]). The identifiers of subsurface roles are never
      given out twice ([cache_invariant]).
    - Refinement: tree insertion and removal implement the operations on the
      abstract tree ([insert_refines], [remove_refines]); what a scheduler
      reports about page flips implements a machine with at most one flip in
      flight ([flip_history_is_sequential]); the ledger implements the life
      cycle of a transaction ([ledger_refines_lifecycle]); latching of
      presentation hints implements a double buffer
      ([latching_refines_double_buffer]); the automatic buffering policy
      implements the credit controller ([auto_policy_refines_credit]); the
      arbiter of atomic commits implements a lane of one submitted and one
      waiting commit ([arbiter_refines_lane]); the swapchain presents frames
      in the order they were rendered ([swapchain_refines_fifo]).
    - Functional behaviour: a layout solution is a tiling of the area with
      legal clients ([solution_is_tiling], [resolved_rect_sound],
      [split_children_tile]); alignment, enumeration and exact ratios are
      optimal ([alignment_nearest_legal], [lattice_enumeration],
      [exact_aspect_pair_largest]); planned refreshes are the first eligible
      ones ([commit_timing_first_eligible], [successors_strictly_later],
      [ready_pull_in_between]); credit is released by hysteresis
      ([credit_released_after_ten_clean]); pipeline validation is exactly the
      ownership discipline ([validate_characterised]); cancellation removes
      exactly the dependents ([cancellation_cascade_exact]), publication
      follows the dependencies ([publication_order_spec]) and coalescing
      loses nothing ([coalesced_transaction_spec]); dropping everything
      leaves nothing ([terminate_all_empties]); dismissing and destroying a
      popup affect exactly its subtree ([dismiss_exact], [destroy_exact]), a
      grab takes the top ([grab_takes_the_top]); a deferred frame gets the
      first feasible target ([deferred_binding_first_feasible]); a configure
      notification is matched with the one configure it can answer
      ([notify_matches_exactly]); coalesced resizes end at the geometry last
      asked for, as long as nothing else configures the window
      ([latest_resize_wins]).
    - Equivalence, bounds and round trips: cached percentiles are recomputed
      ones ([cached_ranks_are_recomputed_ranks]); a decision to tear or to
      vary the refresh is exactly its conditions
      ([presentation_decision_exact]); payload validation is exactly agreement
      with the transaction ([payload_validation_exact]); a flip and the
      acknowledgement of its submission commute ([flip_and_ack_commute]);
      the swapchain validates exactly its ownership rules
      ([swapchain_validation_exact]); a popup is placed as the protocol asks
      ([popup_placement_exact], [popup_contained]); the test for cycles is
      exact ([cycle_check_exact]); completed associations are the join of both
      sides ([completed_is_the_join]); 16 bit sequence numbers compare exactly
      within half their range ([sequence_comparison_exact]);
      predictions and windows stay within
      their limits ([prediction_bounds], [vrr_window_bounds],
      [mode_timing_exact], [apply_guard_history],
      [dispatch_budget_bounds]); a submit window exists, is ordered and leaves
      its budget exactly when the times allow it ([submit_window_bounds]);
      both rollbacks of the ledger restore it ([rollbacks_restore]).
    - Types: [constructed_well_formed] for every transaction the code builds.
    - Safety and liveness of decisions: [pipeline_decision_safe],
      [scheduler_respects_pipeline], [waits_wake_in_the_future],
      [adaptive_buffering_safe], [miss_recovery_takes_twenty]; the worker
      submits one commit at a time and honours its permits
      ([worker_submits_one_at_a_time], [permits_are_honoured]), and a sidecar
      it attaches leaves the commit valid ([attached_commit_validates]);
      positioner requests never overflow ([positioner_never_panics]); the join
      accepts every commit of its generation that is delivered to it
      ([delivered_commits_are_accepted]) and keeps its assertions
      ([join_consistent]); a window held back by a resize is let go by its
      deadline ([held_back_until_deadline]).
    - Termination: [solver_settles], [resolve_terminates],
      [remove_subtree_spec], [subsurface_tree_ids_spec].
    - Errors the model brought to light: [tiny_aspect_panics],
      [two_aspect_bounds_diverge], [minimised_sibling_reserves_space],
      [merge_after_boundary_panics], [refused_insert_orphans_batch],
      [failed_return_loses_job], [quarantine_strands_reservation],
      [failed_worker_drops_frame], [replan_while_rendering_invalid],
      [forgotten_grab_blocks_client], [late_buffer_loses_iconic],
      [superseded_serial_sticks], [forgotten_resize_stays_blocked],
      [stale_geometry_swallows_resize]; as an example run,
      [late_surface_hides_window] (XwmRuntime.v); and, as plain lemmas,
      [smaller_duplicate_claim_accepted] (Buffering.v),
      [abandoned_identity_reused] (Deadline.v),
      [saturated_slide_stays_outside] (Positioner.v) and
      [stale_root_grabs_inert_popup] (PopupForest.v).

    ** Fuel

    Recursion over the tree has fuel [tree_fuel], one more than the number of
    arena slots: a path visits distinct slots. The binary searches have fuel
    64, twice the width of the [u32] interval they halve. Euclid's loops have
    the fuel [euclid_fuel], twice the bit length plus two. The candidate loop
    of the client resolver has 2^32 + 1 steps ([candidate_fuel]), one for
    every [u32] candidate. The walks over subsurface trees and the
    cancellation cascade have one step per role or queued transaction and
    one to stop, and so do the walks over the popup tree and over the
    suspended frames of a swapchain. The search for a deferred target has
    2^64 steps, one for every sequence number. Running out of fuel is the outcome [NoFuel], which
    the termination theorems exclude under the stated conditions.

    ** What is not modelled

    Protocol dispatch through the wayland libraries, rendering through EGL
    and OpenGL, DRM and GBM calls, the X11 connection, process management,
    configuration files, cursors and animations: their behaviour is that of
    code outside this repository or of floating point image effects. Within
    the modelled files only getters, formatting and iterator adaptors are left
    out. Payloads that no modelled code inspects (scanout keys, pageflip
    identities, cursor states) are type parameters. A wall clock reading is an
    argument.

    Notifications of condition variables are left out of the worker: a
    waiting step may be taken at any time. Its metrics counters and the
    executor that issues the ioctls are outside; what an ioctl, a clock or a
    notification answers is an input of the step.

    Of the X11 window manager the transfer of selections and drag and drop,
    focus and the parsing of properties are left out;
    of the compositor the pointer interactions, the scene and the layer shell;
    of native_output the runtime loop, the plane policy and the cursor timing.
    They work on resources of the connection or of the kernel more than on
    state of their own. *)

From stdpp Require Import base gmap sorting list.
From Stdlib Require Import ZArith Lia.

Declare Scope typhon_scope.
Delimit Scope typhon_scope with typhon.
Open Scope Z_scope.

(** ** Machine integers

    A Rust integer is a [Z]; the width is written out where an operation
    can leave the range of the type. *)

Definition u8_max : Z := 2 ^ 8 - 1.
Definition u32_max : Z := 2 ^ 32 - 1.
Definition u64_max : Z := 2 ^ 64 - 1.
Definition u128_max : Z := 2 ^ 128 - 1.
Definition i32_min : Z := - 2 ^ 31.
Definition i32_max : Z := 2 ^ 31 - 1.
Definition i64_min : Z := - 2 ^ 63.
Definition i64_max : Z := 2 ^ 63 - 1.

Definition in_u8 (z : Z) : Prop := 0 <= z <= u8_max.
Definition in_u32 (z : Z) : Prop := 0 <= z <= u32_max.
Definition in_u64 (z : Z) : Prop := 0 <= z <= u64_max.
Definition in_i32 (z : Z) : Prop := i32_min <= z <= i32_max.

#[export] Instance in_u32_dec z : Decision (in_u32 z) := ltac:(unfold in_u32; apply _).
#[export] Instance in_u64_dec z : Decision (in_u64 z) := ltac:(unfold in_u64; apply _).
#[export] Instance in_i32_dec z : Decision (in_i32 z) := ltac:(unfold in_i32; apply _).

(** [clampZ lo hi z] is the value of [z.clamp(lo, hi)] where Rust does not
    panic, that is where [lo <= hi]. *)
Definition clampZ (lo hi z : Z) : Z := Z.max lo (Z.min hi z).

(** Saturating arithmetic: unsigned at a given maximum, and [i32]. *)
Definition sat_add (umax a b : Z) : Z := Z.min umax (a + b).
Definition sat_sub (a b : Z) : Z := Z.max 0 (a - b).
Definition sat_mul (umax a b : Z) : Z := Z.min umax (a * b).
Definition sat_add_i32 (a b : Z) : Z := clampZ i32_min i32_max (a + b).
Definition sat_sub_i32 (a b : Z) : Z := clampZ i32_min i32_max (a - b).
Definition sat_add_i64 (a b : Z) : Z := clampZ i64_min i64_max (a + b).

(** Checked arithmetic and the fallible conversions ([try_from]). *)
Definition checked (lo hi z : Z) : option Z :=
  if (lo <=? z) && (z <=? hi) then Some z else None.
Definition checked_add (umax a b : Z) : option Z := checked 0 umax (a + b).
Definition checked_sub (umax a b : Z) : option Z := checked 0 umax (a - b).
Definition checked_mul (umax a b : Z) : option Z := checked 0 umax (a * b).
Definition checked_sub_i32 (a b : Z) : option Z := checked i32_min i32_max (a - b).
Definition try_u32 (z : Z) : option Z := checked 0 u32_max z.
Definition try_u64 (z : Z) : option Z := checked 0 u64_max z.

(** [i32::try_from(u).unwrap_or(i32::MAX)] for an unsigned [u]. *)
Definition i32_or_max (u : Z) : Z := Z.min u i32_max.

(** [a.div_ceil(b)] on unsigned integers. *)
Definition div_ceil (a b : Z) : Z := a / b + (if a mod b =? 0 then 0 else 1).

Lemma div_ceil_spec a b :
  0 <= a -> 1 <= b -> a <= div_ceil a b * b < a + b /\ 0 <= div_ceil a b.
Proof.
  intros Ha Hb. unfold div_ceil.
  pose proof (Z.div_mod a b ltac:(lia)). pose proof (Z.mod_pos_bound a b ltac:(lia)).
  pose proof (Z.div_pos a b Ha ltac:(lia)).
  destruct (Z.eqb_spec (a mod b) 0); nia.
Qed.

(** ** Outcomes

    [Ret] is a normal return (the [Ok] of a [Result]), [Fail] the error a
    [Result] carries, [Panic] a failed [expect], [assert], index or an
    [unreachable!], and [NoFuel] a loop or recursion that did not finish
    within the fuel it was given. *)
Inductive res (E A : Type) : Type :=
| Ret (a : A)
| Fail (e : E)
| Panic
| NoFuel.
Arguments Ret {E A} _.
Arguments Fail {E A} _.
Arguments Panic {E A}.
Arguments NoFuel {E A}.

#[export] Instance res_ret E : MRet (res E) := fun A a => Ret a.
#[export] Instance res_bind E : MBind (res E) := fun A B k m =>
  match m with Ret a => k a | Fail e => Fail e | Panic => Panic | NoFuel => NoFuel end.
#[export] Instance res_fmap E : FMap (res E) := fun A B f m =>
  match m with Ret a => Ret (f a) | Fail e => Fail e | Panic => Panic | NoFuel => NoFuel end.

(** [ok_or e o] is [o.ok_or(e)]; [expect o] is [o.expect(_)]. *)
Definition ok_or {E A} (e : E) (o : option A) : res E A :=
  match o with Some a => Ret a | None => Fail e end.
Definition expect {E A} (o : option A) : res E A :=
  match o with Some a => Ret a | None => Panic end.
Definition map_err {E F A} (f : E -> F) (m : res E A) : res F A :=
  match m with Ret a => Ret a | Fail e => Fail (f e) | Panic => Panic | NoFuel => NoFuel end.
(** [m.ok()] where a panic and a missing result still propagate. *)
Definition res_ok {E F A} (m : res E A) : res F (option A) :=
  match m with Ret a => Ret (Some a) | Fail _ => Ret None | Panic => Panic | NoFuel => NoFuel end.
(** [Option]'s [?] inside a computation that may also panic. *)
Definition obind {E A B} (m : res E (option A)) (k : A -> res E (option B)) : res E (option B) :=
  match m with
  | Ret (Some a) => k a
  | Ret None => Ret None
  | Fail e => Fail e
  | Panic => Panic
  | NoFuel => NoFuel
  end.
Notation "x ←? m ; k" := (obind m (fun x => k))
  (at level 20, m at level 100, k at level 200, only parsing) : typhon_scope.
Notation "' p ←? m ; k" := (obind m (fun p => k))
  (at level 20, p pattern, m at level 100, k at level 200, only parsing) : typhon_scope.
Definition returns {E A} (m : res E A) : Prop := exists a, m = Ret a.
(** An outcome that is neither a panic nor a loop without end. *)
Definition settles {E A} (m : res E A) : Prop :=
  match m with Ret _ | Fail _ => True | Panic | NoFuel => False end.
Definition is_Ret {E A} (m : res E A) : bool := match m with Ret _ => true | _ => false end.

Lemma bind_Ret {E A B} (m : res E A) (k : A -> res E B) b :
  (m ≫= k) = Ret b <-> exists a, m = Ret a /\ k a = Ret b.
Proof.
  destruct m; cbn; split; try naive_solver.
Qed.

Lemma expect_Ret {E A} (o : option A) (a : A) :
  expect (E := E) o = Ret a <-> o = Some a.
Proof. destruct o; cbn; naive_solver. Qed.

Lemma ok_or_Ret {E A} (e : E) (o : option A) (a : A) :
  ok_or e o = Ret a <-> o = Some a.
Proof. destruct o; cbn; naive_solver. Qed.

(** ** State and outcome

    [SM S E A] is code that mutates a state [S] and may fail or panic; the
    state survives a failure, as it does behind a [&mut] reference. *)
Definition SM (S E A : Type) : Type := S -> S * res E A.

#[export] Instance SM_ret S E : MRet (SM S E) := fun A a s => (s, Ret a).
#[export] Instance SM_bind S E : MBind (SM S E) := fun A B k m s =>
  match m s with
  | (s, Ret a) => k a s
  | (s, Fail e) => (s, Fail e)
  | (s, Panic) => (s, Panic)
  | (s, NoFuel) => (s, NoFuel)
  end.
Definition sm_lift {S E A} (m : res E A) : SM S E A := fun s => (s, m).
Definition sm_modify {S E} (f : S -> S) : SM S E unit := fun s => (f s, Ret tt).
Definition sm_get {S E} : SM S E S := fun s => (s, Ret s).

Lemma SM_bind_Ret {S E A B} (m : SM S E A) (k : A -> SM S E B) s s2 b :
  (m ≫= k) s = (s2, Ret b) <-> exists s1 a, m s = (s1, Ret a) /\ k a s1 = (s2, Ret b).
Proof.
  unfold mbind, SM_bind. destruct (m s) as [s1 [a|e| |]]; naive_solver.
Qed.

(** Running the first step of a computation. *)
Lemma SM_bind_step {S E A B} (m : SM S E A) (k : A -> SM S E B) s s1 a :
  m s = (s1, Ret a) -> (m ≫= k) s = k a s1.
Proof. unfold mbind, SM_bind. by intros ->. Qed.

(** The steps of a stateful computation that always return. *)
Lemma SM_get_step {S E B} (k : S -> SM S E B) s : (sm_get ≫= k) s = k s s.
Proof. done. Qed.
Lemma SM_modify_step {S E B} f (k : unit -> SM S E B) s : (sm_modify f ≫= k) s = k tt (f s).
Proof. done. Qed.
Lemma SM_ret_step {S E A B} (a : A) (k : A -> SM S E B) s : (sm_lift (Ret a) ≫= k) s = k a s.
Proof. done. Qed.

(** *** Invariants of stateful code

    [keeps P m]: a computation, however it ends, takes a state in [P] to a
    state in [P]. *)
Definition keeps {S E A} (P : S -> Prop) (m : SM S E A) : Prop := forall s, P s -> P (m s).1.

Lemma keeps_bind {S E A B} P (m : SM S E A) (k : A -> SM S E B) :
  keeps P m -> (forall a, keeps P (k a)) -> keeps P (m ≫= k).
Proof.
  intros Hm Hk s Hs. specialize (Hm s Hs). unfold mbind, SM_bind.
  destruct (m s) as [s1 [a|e| |]]; cbn in *; try done. by apply Hk.
Qed.
Lemma keeps_get {S E B} (P : S -> Prop) (k : S -> SM S E B) :
  (forall a, keeps P (k a)) -> keeps P (sm_get ≫= k).
Proof. intros Hk s Hs. by apply Hk. Qed.
Lemma keeps_lift {S E A} P (m : res E A) : keeps P (sm_lift (S := S) m).
Proof. by intros s Hs. Qed.
Lemma keeps_ret {S E A} P (a : A) : keeps P (mret a : SM S E A).
Proof. by intros s Hs. Qed.
Lemma keeps_modify {S E} (P : S -> Prop) (f : S -> S) :
  (forall s, P s -> P (f s)) -> keeps P (sm_modify (E := E) f).
Proof. intros H s Hs. by apply H. Qed.

(** ** Bounded loops

    [loop_pos p f s] runs the body [f] at most [p] times; [inl] carries the
    state of a loop that has not finished, [inr] the value it left with. The
    bound is binary, so that it can be as large as a machine integer. *)
Fixpoint loop_pos {S R} (p : positive) (f : S -> S + R) (s : S) : S + R :=
  match p with
  | xH => f s
  | xO p => match loop_pos p f s with inl s => loop_pos p f s | inr r => inr r end
  | xI p =>
      match f s with
      | inl s => match loop_pos p f s with inl s => loop_pos p f s | inr r => inr r end
      | inr r => inr r
      end
  end.

Definition loop_res {S R E} (p : positive) (f : S -> S + R) (s : S) : res E R :=
  match loop_pos p f s with inl _ => NoFuel | inr r => Ret r end.

Section Loops.
Context {St R : Type} (f : St -> St + R).

Fixpoint loop_nat (n : nat) (s : St) : St + R :=
  match n with
  | O => inl s
  | S n => match f s with inl s => loop_nat n s | inr r => inr r end
  end.

Lemma loop_nat_add n m s :
  loop_nat (n + m) s = match loop_nat n s with inl s => loop_nat m s | inr r => inr r end.
Proof.
  revert s. induction n as [|n IH]; intros s; cbn; [done|]. destruct (f s); [apply IH|done].
Qed.

Lemma loop_pos_nat p s : loop_pos p f s = loop_nat (Pos.to_nat p) s.
Proof.
  revert s. induction p as [p IH|p IH|]; intros s; cbn [loop_pos].
  - rewrite Pos2Nat.inj_xI. cbn [loop_nat]. destruct (f s) as [s'|]; [|done].
    replace (2 * Pos.to_nat p)%nat with (Pos.to_nat p + Pos.to_nat p)%nat by lia.
    rewrite loop_nat_add, IH. destruct (loop_nat _ s'); [apply IH|done].
  - rewrite Pos2Nat.inj_xO.
    replace (2 * Pos.to_nat p)%nat with (Pos.to_nat p + Pos.to_nat p)%nat by lia.
    rewrite loop_nat_add, IH. destruct (loop_nat _ s); [apply IH|done].
  - change (Pos.to_nat 1) with 1%nat. cbn. by destruct (f s).
Qed.

(** An invariant the body keeps holds of an unfinished loop and, with the
    body's exit condition, of the value it leaves with. *)
Lemma loop_nat_inv (Inv : St -> Prop) (Q : R -> Prop) n s :
  (forall s, Inv s -> match f s with inl s' => Inv s' | inr r => Q r end) ->
  Inv s -> match loop_nat n s with inl s' => Inv s' | inr r => Q r end.
Proof.
  intros Hf. revert s. induction n as [|n IH]; intros s Hs; cbn; [done|].
  specialize (Hf s Hs). destruct (f s); [by apply IH|done].
Qed.

(** A loop whose measure decreases leaves within the measure. *)
Lemma loop_nat_terminates (Inv : St -> Prop) (mu : St -> Z) n s :
  (forall s s', Inv s -> f s = inl s' -> Inv s' /\ 0 <= mu s' < mu s) ->
  Inv s -> 0 <= mu s < Z.of_nat n -> exists r, loop_nat n s = inr r.
Proof.
  intros Hf. revert s. induction n as [|n IH]; intros s Hs Hm; cbn.
  - lia.
  - destruct (f s) as [s'|r] eqn:E; [|eauto].
    destruct (Hf s s' Hs E) as [Hs' Hm']. apply IH; [done|lia].
Qed.
End Loops.

(** ** Ordered maps

    A [BTreeMap] is a [gmap]; what depends on the key order goes through
    the sorted list of its keys. *)
Section Btree.
Context {V : Type}.
Implicit Types (m : gmap Z V).

Definition btree_keys (m : gmap Z V) : list Z := merge_sort Z.le (elements (dom m)).

Definition btree_first_key (m : gmap Z V) : option Z := head (btree_keys m).

Lemma elem_of_btree_keys m k : k ∈ btree_keys m <-> is_Some (m !! k).
Proof.
  unfold btree_keys.
  rewrite (merge_sort_Permutation Z.le (elements (dom m))), elem_of_elements.
  apply elem_of_dom.
Qed.

Lemma btree_keys_nil m : btree_keys m = [] <-> m = ∅.
Proof.
  split.
  - intros H. apply map_eq. intros k. rewrite lookup_empty.
    destruct (m !! k) eqn:E; [|done].
    assert (k ∈ btree_keys m) by (apply elem_of_btree_keys; eauto).
    rewrite H in *. set_solver.
  - intros ->. reflexivity.
Qed.

Lemma btree_first_key_Some m k :
  btree_first_key m = Some k -> is_Some (m !! k) /\ forall j, is_Some (m !! j) -> k <= j.
Proof.
  unfold btree_first_key. intros H.
  assert (Hs : StronglySorted Z.le (btree_keys m)) by apply (StronglySorted_merge_sort _).
  destruct (btree_keys m) as [|x l] eqn:E; [done|]. cbn in H. inversion H; subst x.
  assert (Hin : forall j, is_Some (m !! j) <-> j ∈ k :: l)
    by (intros j; rewrite <- elem_of_btree_keys, E; done).
  split.
  - apply Hin. left.
  - intros j Hj. apply Hin in Hj. inversion Hs; subst.
    apply elem_of_cons in Hj as [->|Hj]; [lia|].
    rewrite Forall_forall in *. eauto.
Qed.

Lemma btree_first_key_None m : btree_first_key m = None <-> m = ∅.
Proof.
  unfold btree_first_key. rewrite <- btree_keys_nil.
  destruct (btree_keys m); cbn; naive_solver.
Qed.
End Btree.

(** ** Hash maps

    A [HashMap] is a [gmap]; the order in which it is walked is not
    specified, so code that walks one takes an order as a parameter. *)
Class HashOrder : Type := {
  hash_keys : forall V, gmap Z V -> list Z;
  hash_keys_perm : forall V (m : gmap Z V), hash_keys V m ≡ₚ (map_to_list m).*1
}.
Arguments hash_keys {_ V} _.
(** One such order. *)
Definition list_order : HashOrder := {|
  hash_keys V m := (map_to_list m).*1;
  hash_keys_perm V m := reflexivity _
|}.
Lemma elem_of_hash_keys `{HashOrder} {V} (m : gmap Z V) k : k ∈ hash_keys m <-> is_Some (m !! k).
Proof.
  rewrite hash_keys_perm, list_elem_of_fmap. split.
  - intros ([k' v] & -> & Hin%elem_of_map_to_list). by exists v.
  - intros [v Hv]. exists (k, v). split; [done|]. by apply elem_of_map_to_list.
Qed.
Lemma NoDup_hash_keys `{HashOrder} {V} (m : gmap Z V) : base.NoDup (hash_keys m).
Proof. rewrite hash_keys_perm. apply NoDup_fst_map_to_list. Qed.

(** ** Automation *)

Create HintDb typhon.
Create Rewrite HintDb typhon_rw.

(** Case analysis on the integer comparisons of the goal and hypotheses. *)
Ltac zcase_one :=
  match goal with
  | |- context [?a <? ?b] => destruct (Z.ltb_spec a b)
  | |- context [?a <=? ?b] => destruct (Z.leb_spec a b)
  | |- context [?a =? ?b] => destruct (Z.eqb_spec a b)
  | H : context [?a <? ?b] |- _ => destruct (Z.ltb_spec a b)
  | H : context [?a <=? ?b] |- _ => destruct (Z.leb_spec a b)
  | H : context [?a =? ?b] |- _ => destruct (Z.eqb_spec a b)
  end.
Ltac zcase := repeat (zcase_one; cbn [andb orb negb] in *; try discriminate; try lia).

(** Unfold the machine-integer vocabulary and finish by linear arithmetic. *)
Ltac unfold_int :=
  unfold in_u8, in_u32, in_u64, in_i32, sat_add, sat_sub, sat_mul, sat_add_i32,
    sat_sub_i32, sat_add_i64, i32_or_max, clampZ, u8_max, u32_max, u64_max, u128_max,
    i32_min, i32_max, i64_min, i64_max in *.
Ltac int_lia := unfold_int; lia.

(** Split the binds of a computation known to return. *)
Ltac inv_bind :=
  repeat match goal with
  | H : (_ ≫= _) = Ret _ |- _ => apply bind_Ret in H as (? & ? & H)
  | H : expect _ = Ret _ |- _ => apply expect_Ret in H
  | H : ok_or _ _ = Ret _ |- _ => apply ok_or_Ret in H
  | H : Ret _ = Ret _ |- _ => injection H as H
  | H : Fail _ = Ret _ |- _ => discriminate H
  | H : Panic = Ret _ |- _ => discriminate H
  | H : NoFuel = Ret _ |- _ => discriminate H
  end.

Lemma checked_Some lo hi z r : checked lo hi z = Some r <-> r = z /\ lo <= z <= hi.
Proof. unfold checked. zcase; naive_solver lia. Qed.

Lemma checked_in lo hi z : lo <= z <= hi -> checked lo hi z = Some z.
Proof. intros. by apply checked_Some. Qed.

Lemma checked_None lo hi z : checked lo hi z = None <-> ~ (lo <= z <= hi).
Proof. unfold checked. zcase; split; (congruence || lia). Qed.

Lemma clampZ_bounds lo hi z : lo <= hi -> lo <= clampZ lo hi z <= hi.
Proof. unfold clampZ. lia. Qed.

Lemma clampZ_id lo hi z : lo <= z <= hi -> clampZ lo hi z = z.
Proof. unfold clampZ. lia. Qed.

#[export] Hint Resolve clampZ_bounds : typhon.
#[export] Hint Resolve keeps_lift keeps_ret : typhon.
#[export] Hint Rewrite @checked_Some @checked_None @bind_Ret @expect_Ret @ok_or_Ret : typhon_rw.

(** Run the deterministic prefix of a stateful computation. *)
Ltac sm_run := repeat first
  [ rewrite SM_get_step | rewrite SM_modify_step | rewrite SM_ret_step ].

(** ** Lists *)

Lemma list_find_Some_first {A} (P : A -> Prop) `{!forall x, Decision (P x)} (l : list A) x :
  snd <$> list_find P l = Some x ->
  x ∈ l /\ P x.
Proof.
  destruct (list_find P l) as [[i y]|] eqn:E; cbn; [|done].
  intros [= <-]. apply list_find_Some in E as (Hl & HP & _).
  split; [by eapply list_elem_of_lookup_2|done].
Qed.

Lemma NoDup_pair {A} (x y : A) : x <> y -> base.NoDup [x; y].
Proof. intros H. repeat constructor; set_solver. Qed.

Lemma NoDup_triple {A} (x y z : A) : x <> y -> x <> z -> y <> z -> base.NoDup [x; y; z].
Proof. intros H1 H2 H3. repeat constructor; set_solver. Qed.
