(* ===== verification/F64.v ===== *)
(** * F64: Rust's [f64]

    Binary64 arithmetic as the IEEE 754 specification of [SpecFloat]
    computes it (round to nearest, ties to even), with the part of Rust's
    [f64] API the layout code uses: exact conversion from integers,
    [floor]/[ceil]/[round], [min]/[max]/[clamp], the comparisons and the
    saturating casts back to integers. NaN payloads are not represented. *)

From Stdlib Require Import ZArith Lia.
From Stdlib Require Import SpecFloat.
From S2P Require Import Prelude.
From stdpp Require Import base decidable tactics option.

Open Scope Z_scope.

Abbreviation f64 := spec_float.

Definition f64_prec : Z := 53.
Definition f64_emax : Z := 1024.

Definition f64_of_Z (z : Z) : f64 := binary_normalize f64_prec f64_emax z 0 false.
Definition f64_add : f64 -> f64 -> f64 := SFadd f64_prec f64_emax.
Definition f64_sub : f64 -> f64 -> f64 := SFsub f64_prec f64_emax.
Definition f64_mul : f64 -> f64 -> f64 := SFmul f64_prec f64_emax.
Definition f64_div : f64 -> f64 -> f64 := SFdiv f64_prec f64_emax.
Definition f64_abs : f64 -> f64 := SFabs.

(** The comparisons; every one of them is false on NaN. *)
Definition f64_ltb : f64 -> f64 -> bool := SFltb.
Definition f64_leb : f64 -> f64 -> bool := SFleb.
Definition f64_gtb (a b : f64) : bool := SFltb b a.
Definition f64_geb (a b : f64) : bool := SFleb b a.

(** A decimal literal [n / d] with [n] and [d] exactly representable is the
    correctly rounded quotient. *)
Definition f64_lit (n d : Z) : f64 := f64_div (f64_of_Z n) (f64_of_Z d).
Definition f64_zero : f64 := S754_zero false.
Definition f64_epsilon : f64 := S754_finite false 4503599627370496 (-104).

Definition f64_is_nan (x : f64) : bool :=
  match x with S754_nan => true | _ => false end.
Definition f64_is_finite (x : f64) : bool :=
  match x with S754_zero _ | S754_finite _ _ _ => true | _ => false end.

(** [f64::max] and [f64::min]: the other operand when one is NaN. *)
Definition f64_max (a b : f64) : f64 :=
  if f64_is_nan a then b else if f64_is_nan b then a else if f64_ltb a b then b else a.
Definition f64_min (a b : f64) : f64 :=
  if f64_is_nan a then b else if f64_is_nan b then a else if f64_ltb b a then b else a.

(** [f64::clamp] asserts [lo <= hi] and panics otherwise. *)
Definition f64_clamp_value (lo hi x : f64) : f64 :=
  if f64_ltb x lo then lo else if f64_ltb hi x then hi else x.
Definition f64_clamp {E} (lo hi x : f64) : res E f64 :=
  if f64_leb lo hi then Ret (f64_clamp_value lo hi x) else Panic.

(** The signed integer [± m * 2 ^ e], rounded down or up or to the nearest
    integer with ties away from zero, for a negative exponent [e]. *)
Definition signedZ (s : bool) (z : Z) : Z := if s then - z else z.

Definition int_floor (s : bool) (m : positive) (e : Z) : Z :=
  signedZ s (Zpos m) / 2 ^ (- e).
Definition int_ceil (s : bool) (m : positive) (e : Z) : Z :=
  - ((- signedZ s (Zpos m)) / 2 ^ (- e)).
Definition int_round (s : bool) (m : positive) (e : Z) : Z :=
  signedZ s ((2 * Zpos m + 2 ^ (- e)) / 2 ^ (- e + 1)).
Definition int_trunc (s : bool) (m : positive) (e : Z) : Z :=
  signedZ s (if 0 <=? e then Zpos m * 2 ^ e else Zpos m / 2 ^ (- e)).

(** [floor], [ceil] and [round] keep non-finite values, zeros and values
    that are already integers; an integral zero keeps the sign. *)
Definition f64_integral (f : bool -> positive -> Z -> Z) (x : f64) : f64 :=
  match x with
  | S754_finite s m e =>
      if 0 <=? e then x
      else match f s m e with Z0 => S754_zero s | z => f64_of_Z z end
  | _ => x
  end.
Definition f64_floor : f64 -> f64 := f64_integral int_floor.
Definition f64_ceil : f64 -> f64 := f64_integral int_ceil.
Definition f64_round : f64 -> f64 := f64_integral int_round.

(** [x as T] for an integer type with range [lo..=hi]: NaN is 0, the rest is
    truncated towards zero and saturated. *)
Definition f64_as (lo hi : Z) (x : f64) : Z :=
  match x with
  | S754_nan | S754_zero _ => 0
  | S754_infinity s => if s then lo else hi
  | S754_finite s m e => clampZ lo hi (int_trunc s m e)
  end.

(** [a.to_bits() == b.to_bits()] for values that are not NaN. *)
Definition f64_bits_eqb (a b : f64) : bool :=
  match a, b with
  | S754_zero s, S754_zero t | S754_infinity s, S754_infinity t => Bool.eqb s t
  | S754_finite s m e, S754_finite t n g => Bool.eqb s t && (m =? n)%positive && (e =? g)
  | _, _ => false
  end.

#[export] Instance f64_eq_dec : EqDecision f64.
Proof. solve_decision. Defined.

Lemma f64_bits_eqb_eq a b : f64_bits_eqb a b = true -> a = b.
Proof.
  destruct a, b; cbn; try discriminate.
  - intros H. apply Bool.eqb_prop in H. by subst.
  - intros H. apply Bool.eqb_prop in H. by subst.
  - intros H. apply andb_prop in H as [H H3]. apply andb_prop in H as [H1 H2].
    apply Bool.eqb_prop in H1. apply Pos.eqb_eq in H2. apply Z.eqb_eq in H3. by subst.
Qed.

Lemma f64_as_bounds lo hi x : lo <= 0 <= hi -> lo <= f64_as lo hi x <= hi.
Proof.
  intros H. destruct x as [s|s| |s m e]; cbn [f64_as]; try lia.
  - destruct s; lia.
  - unfold clampZ. lia.
Qed.

(** The comparison is a total preorder on values that are not NaN. *)
Lemma f64_leb_refl x : f64_is_nan x = false -> f64_leb x x = true.
Proof.
  destruct x as [s|s| |s m e]; cbn; try done.
  - by destruct s.
  - intros _. unfold f64_leb, SFleb, SFcompare. rewrite Z.compare_refl.
    rewrite Pos.compare_cont_refl. by destruct s.
Qed.

(** Two values are compared by sign, exponent and mantissa. *)
Definition f64_key (x : f64) : option (Z * Z * Z) :=
  match x with
  | S754_nan => None
  | S754_zero _ => Some (0, 0, 0)
  | S754_infinity s => Some (if s then -2 else 2, 0, 0)
  | S754_finite s m e => Some (if s then (-1, - e, - Zpos m) else (1, e, Zpos m))
  end.
Definition key_le (a b : Z * Z * Z) : Prop :=
  let '(s, e, m) := a in let '(t, g, n) := b in
  s < t \/ s = t /\ (e < g \/ e = g /\ m <= n).

Lemma f64_leb_key a b :
  f64_leb a b = true <-> exists x y, f64_key a = Some x /\ f64_key b = Some y /\ key_le x y.
Proof.
  unfold f64_leb, SFleb.
  destruct a as [s|s| |s m e], b as [t|t| |t n g]; cbn [SFcompare f64_key];
    repeat match goal with b : bool |- _ => destruct b end;
    try (split; [discriminate|intros (? & ? & [= <-] & [= <-] & H); cbn in H; lia]);
    try (split; [discriminate|intros (? & ? & ? & ? & H); discriminate]);
    try (split; [intros _; eexists _, _; split; [reflexivity|split; [reflexivity|cbn; lia]]|done]);
    destruct (Z.compare_spec e g); fold (Pos.compare m n);
    try destruct (Pos.compare_spec m n); cbn;
    (split; [first [discriminate|intros _; eexists _, _; split; [reflexivity|split; [reflexivity|cbn; lia]]]
            |intros (? & ? & [= <-] & [= <-] & Hk); cbn in Hk; first [reflexivity|exfalso; lia]]).
Qed.

Lemma f64_leb_trans a b c : f64_leb a b = true -> f64_leb b c = true -> f64_leb a c = true.
Proof.
  rewrite !f64_leb_key. intros (x & y & Ex & Ey & H1) (y' & z & Ey' & Ez & H2).
  rewrite Ey in Ey'. injection Ey' as <-. exists x, z. split; [done|]. split; [done|].
  destruct x as [[? ?] ?], y as [[? ?] ?], z as [[? ?] ?]; unfold key_le in *. lia.
Qed.

(** The strict order is the complement of the reversed order. *)
Lemma f64_ltb_leb a b :
  f64_is_nan a = false -> f64_is_nan b = false -> f64_ltb a b = negb (f64_leb b a).
Proof.
  unfold f64_leb, f64_ltb, SFleb, SFltb.
  destruct a as [s|s| |s m e], b as [t|t| |t n g]; try done; cbn [SFcompare];
    repeat match goal with b : bool |- _ => destruct b end; try done;
    intros _ _; rewrite (Z.compare_antisym e g); destruct (e ?= g); cbn; try done;
    fold (Pos.compare m n); fold (Pos.compare n m); rewrite (Pos.compare_antisym m n);
    by destruct (m ?= n)%positive.
Qed.

Lemma f64_leb_total a b :
  f64_is_nan a = false -> f64_is_nan b = false -> f64_leb a b = false -> f64_ltb b a = true.
Proof. intros Ha Hb H. by rewrite f64_ltb_leb, H. Qed.

Lemma f64_ltb_weaken a b : f64_ltb a b = true -> f64_leb a b = true.
Proof. unfold f64_ltb, f64_leb, SFltb, SFleb. destruct (SFcompare a b) as [[]|]; done. Qed.

(** [max] and [min] of values that are not NaN. *)
Lemma f64_max_spec x y :
  f64_is_nan x = false -> f64_is_nan y = false ->
  f64_leb x (f64_max x y) = true /\ f64_leb y (f64_max x y) = true /\ f64_is_nan (f64_max x y) = false.
Proof.
  intros Hx Hy. unfold f64_max. rewrite Hx, Hy, (f64_ltb_leb x y Hx Hy).
  destruct (f64_leb y x) eqn:E; cbn [negb]; (split; [|split; [|done]]); try done; try (by apply f64_leb_refl).
  by apply f64_ltb_weaken, f64_leb_total.
Qed.

Lemma f64_min_spec x y :
  f64_is_nan x = false -> f64_is_nan y = false ->
  f64_leb (f64_min x y) x = true /\ f64_leb (f64_min x y) y = true /\ f64_is_nan (f64_min x y) = false.
Proof.
  intros Hx Hy. unfold f64_min. rewrite Hx, Hy, (f64_ltb_leb y x Hy Hx).
  destruct (f64_leb x y) eqn:E; cbn [negb]; (split; [|split; [|done]]); try done; try (by apply f64_leb_refl).
  by apply f64_ltb_weaken, f64_leb_total.
Qed.

(** Clamping between ordered bounds stays between them. *)
Lemma f64_clamp_between lo hi x :
  f64_leb lo hi = true -> f64_is_nan x = false ->
  f64_leb lo (f64_clamp_value lo hi x) = true /\ f64_leb (f64_clamp_value lo hi x) hi = true.
Proof.
  intros H Hx. assert (Hn : f64_is_nan lo = false /\ f64_is_nan hi = false).
  { destruct lo, hi; cbn in *; try done; destruct s; done. }
  destruct Hn as [Hlo Hhi]. unfold f64_clamp_value.
  rewrite (f64_ltb_leb x lo Hx Hlo). destruct (f64_leb lo x) eqn:E1; cbn [negb].
  - rewrite (f64_ltb_leb hi x Hhi Hx). destruct (f64_leb x hi) eqn:E2; cbn [negb]; [done|].
    split; [done|by apply f64_leb_refl].
  - split; [by apply f64_leb_refl|done].
Qed.

Lemma f64_leb_not_nan a b : f64_leb a b = true -> f64_is_nan a = false /\ f64_is_nan b = false.
Proof. destruct a, b; cbn; try done; destruct s; done. Qed.

Lemma f64_clamp_Ret {E} lo hi x :
  f64_leb lo hi = true -> exists y, f64_clamp (E := E) lo hi x = Ret y.
Proof. unfold f64_clamp. intros ->. eauto. Qed.

(** ** Exact integers and quotients *)

Lemma digits2_log2 p : Zpos (digits2_pos p) = Z.log2 (Zpos p) + 1.
Proof.
  induction p as [p IH|p IH|]; cbn [digits2_pos]; [..|reflexivity].
  - rewrite Pos2Z.inj_succ, IH, (Pos2Z.inj_xI p), Z.add_1_r, Z.log2_succ_double by lia. lia.
  - rewrite Pos2Z.inj_succ, IH, (Pos2Z.inj_xO p), Z.log2_double by lia. lia.
Qed.

Lemma Zdigits2_log2 z : 0 < z -> Zdigits2 z = Z.log2 z + 1.
Proof. destruct z; intros; [lia| |lia]. cbn [Zdigits2]. apply digits2_log2. Qed.

Lemma iter_xO m k : Zpos (Pos.iter xO m k) = Zpos m * 2 ^ Zpos k.
Proof.
  induction k as [|k IH] using Pos.peano_ind.
  - cbn. lia.
  - rewrite Pos.iter_succ, Pos2Z.inj_xO, IH, Pos2Z.inj_succ, Z.pow_succ_r by lia. lia.
Qed.

(** No shift when the digits already fit the precision. *)
Lemma shr_fexp_exact m e l :
  0 < m -> Z.log2 m + 1 = f64_prec -> emin f64_prec f64_emax <= e ->
  shr_fexp f64_prec f64_emax m e l = (shr_record_of_loc m l, e).
Proof.
  intros Hm Hd He. unfold shr_fexp, fexp. rewrite Zdigits2_log2 by done. rewrite Hd.
  replace (Z.max (f64_prec + e - f64_prec) (emin f64_prec f64_emax) - e) with 0 by lia. done.
Qed.

(** A mantissa of exactly 53 digits is not rounded. *)
Lemma binary_round_aux_exact s m e :
  2 ^ 52 <= Zpos m < 2 ^ 53 -> -1074 <= e <= 971 ->
  binary_round_aux f64_prec f64_emax s (Zpos m) e loc_Exact = S754_finite s m e.
Proof.
  intros Hm He. unfold binary_round_aux.
  assert (Hl : Z.log2 (Zpos m) + 1 = f64_prec).
  { rewrite (Z.log2_unique (Zpos m) 52); [done|lia|]. exact Hm. }
  assert (Hmin : emin f64_prec f64_emax <= e) by (unfold emin, f64_prec, f64_emax; lia).
  rewrite (shr_fexp_exact (Zpos m) e loc_Exact ltac:(lia) Hl Hmin).
  cbn [shr_record_of_loc shr_m loc_of_shr_record round_nearest_even].
  rewrite (shr_fexp_exact (Zpos m) e loc_Exact ltac:(lia) Hl Hmin).
  cbn [shr_record_of_loc shr_m].
  destruct (Z.leb_spec e (f64_emax - f64_prec)) as [_|H]; [done|]. unfold f64_emax, f64_prec in H. lia.
Qed.

(** A non-zero integer below [2 ^ 53] in magnitude converts exactly: its
    mantissa is shifted to 53 digits. *)
Lemma f64_of_Z_signed s z :
  1 <= z < 2 ^ 53 ->
  exists m, f64_of_Z (signedZ s z) = S754_finite s m (Z.log2 z - 52) /\
            Zpos m = z * 2 ^ (52 - Z.log2 z) /\ 2 ^ 52 <= Zpos m < 2 ^ 53.
Proof.
  intros Hz. destruct z as [|p|p]; [lia| |lia].
  pose proof (Z.log2_spec (Zpos p) ltac:(lia)) as Hs.
  pose proof (Z.log2_nonneg (Zpos p)) as H0.
  assert (Hlt : Z.log2 (Zpos p) < 53) by (apply Z.log2_lt_pow2; lia).
  assert (Hb : forall k, 0 <= k -> k = 52 - Z.log2 (Zpos p) ->
            2 ^ 52 <= Zpos p * 2 ^ k < 2 ^ 53).
  { intros k Hk ->. assert (E : 2 ^ 52 = 2 ^ Z.log2 (Zpos p) * 2 ^ (52 - Z.log2 (Zpos p)))
      by (rewrite <- Z.pow_add_r by lia; f_equal; lia).
    assert (E' : 2 ^ 53 = 2 ^ Z.succ (Z.log2 (Zpos p)) * 2 ^ (52 - Z.log2 (Zpos p)))
      by (rewrite <- Z.pow_add_r by lia; f_equal; lia).
    rewrite E, E'. pose proof (Z.pow_pos_nonneg 2 (52 - Z.log2 (Zpos p)) ltac:(lia) Hk). nia. }
  assert (Hsign : f64_of_Z (signedZ s (Zpos p)) = binary_round f64_prec f64_emax s p 0)
    by (destruct s; done).
  rewrite Hsign. unfold binary_round, shl_align, fexp. rewrite digits2_log2.
  replace (Z.max (Z.log2 (Zpos p) + 1 + 0 - f64_prec) (emin f64_prec f64_emax) - 0)
    with (Z.log2 (Zpos p) - 52) by (unfold emin, f64_prec, f64_emax; lia).
  destruct (Z.log2 (Zpos p) - 52) as [|k|k] eqn:Ek; [|lia|].
  - exists p. specialize (Hb 0 ltac:(lia) ltac:(lia)). rewrite Z.pow_0_r, Z.mul_1_r in Hb.
    rewrite binary_round_aux_exact by (lia || done). split; [done|].
    replace (52 - Z.log2 (Zpos p)) with 0 by lia. lia.
  - exists (Pos.iter xO p k). specialize (Hb (Zpos k) ltac:(lia) ltac:(lia)).
    rewrite <- iter_xO in Hb.
    replace (Z.max (Z.log2 (Zpos p) + 1 + 0 - f64_prec) (emin f64_prec f64_emax))
      with (Zneg k) by (unfold emin, f64_prec, f64_emax; lia).
    rewrite binary_round_aux_exact by (lia || done). split; [done|].
    rewrite iter_xO. split; [f_equal; f_equal; lia|]. rewrite <- iter_xO. done.
Qed.

(** ** Rounding a quotient *)

(** A mantissa of exactly 53 binary digits. *)
Definition normal_mantissa (m : Z) : Prop := 2 ^ 52 <= m < 2 ^ 53.

Lemma normal_log2 m : normal_mantissa m -> Z.log2 m + 1 = f64_prec.
Proof. intros Hm. rewrite (Z.log2_unique m 52); [done|lia|exact Hm]. Qed.

Lemma shr_1_div2 x : 0 <= shr_m x -> shr_m (shr_1 x) = shr_m x / 2.
Proof.
  destruct x as [m r s]. cbn [shr_m]. intros Hm. rewrite <- Z.div2_div.
  destruct m as [|[p|p|]|p]; cbn; try done; lia.
Qed.

(** 54 digits are shifted by one. *)
Lemma shr_fexp_one m e l :
  2 ^ 53 <= m < 2 ^ 54 -> emin f64_prec f64_emax <= e ->
  shr_fexp f64_prec f64_emax m e l = (shr_1 (shr_record_of_loc m l), e + 1).
Proof.
  intros Hm He. unfold shr_fexp, fexp. rewrite Zdigits2_log2 by lia.
  rewrite (Z.log2_unique m 53) by (lia || exact Hm).
  replace (Z.max (53 + 1 + e - f64_prec) (emin f64_prec f64_emax) - e) with 1
    by (unfold f64_prec in *; lia).
  done.
Qed.

(** Renormalization after rounding: only [2 ^ 53] moves. *)
Lemma renormalize q e :
  2 ^ 52 <= q <= 2 ^ 53 -> emin f64_prec f64_emax <= e ->
  exists r k, shr_fexp f64_prec f64_emax q e loc_Exact = (r, e + k) /\ 0 <= k <= 1 /\
    normal_mantissa (shr_m r) /\ shr_m r * 2 ^ k = q.
Proof.
  intros Hq He. destruct (Z.eq_dec q (2 ^ 53)) as [->|Hne].
  - rewrite shr_fexp_one by lia. eexists _, 1. split; [reflexivity|].
    rewrite shr_1_div2 by (cbn; lia). cbn [shr_record_of_loc shr_m].
    split; [lia|]. unfold normal_mantissa. split; [split; vm_compute; congruence|reflexivity].
  - rewrite shr_fexp_exact; [|lia|apply normal_log2; unfold normal_mantissa; lia|done].
    eexists _, 0. rewrite Z.add_0_r. split; [reflexivity|]. cbn. unfold normal_mantissa. lia.
Qed.

Lemma round_nearest_even_bounds m l : m <= round_nearest_even m l <= m + 1.
Proof. destruct l as [|[]]; cbn; try lia. destruct (Z.even m); lia. Qed.

(** Rounding a quotient of 53 or 54 digits gives a normal value within two
    units of the truncated quotient. *)
Lemma round_quotient s q e l :
  2 ^ 52 <= q < 2 ^ 54 -> -1074 <= e <= 969 ->
  exists m k, binary_round_aux f64_prec f64_emax s q e l = S754_finite s m (e + k) /\
    0 <= k <= 2 /\ normal_mantissa (Zpos m) /\ q - 2 <= Zpos m * 2 ^ k <= q + 2.
Proof.
  intros Hq He. unfold binary_round_aux.
  assert (Hmin : forall i, 0 <= i -> emin f64_prec f64_emax <= e + i)
    by (intros; unfold emin, f64_prec, f64_emax; lia).
  assert (Hfirst : exists r j, shr_fexp f64_prec f64_emax q e l = (r, e + j) /\ 0 <= j <= 1 /\
            normal_mantissa (shr_m r) /\ shr_m r * 2 ^ j <= q < shr_m r * 2 ^ j + 2 ^ j).
  { destruct (Z.lt_ge_cases q (2 ^ 53)).
    - rewrite shr_fexp_exact; [|lia|apply normal_log2; unfold normal_mantissa; lia|
        rewrite <- (Z.add_0_r e); apply Hmin; lia].
      eexists _, 0. rewrite Z.add_0_r. split; [reflexivity|]. unfold normal_mantissa.
      destruct l as [|[]]; cbn; lia.
    - rewrite shr_fexp_one by (lia || (rewrite <- (Z.add_0_r e); apply Hmin; lia)).
      eexists _, 1. split; [reflexivity|].
      assert (Hm : shr_m (shr_record_of_loc q l) = q) by (destruct l as [|[]]; done).
      rewrite shr_1_div2, Hm by lia. unfold normal_mantissa.
      pose proof (Z.div_mod q 2 ltac:(lia)). pose proof (Z.mod_pos_bound q 2 ltac:(lia)).
      change (2 ^ 1) with 2. lia. }
  destruct Hfirst as (r & j & -> & Hj & Hr & Hb).
  pose proof (round_nearest_even_bounds (shr_m r) (loc_of_shr_record r)) as Hrnd.
  unfold normal_mantissa in Hr.
  destruct (renormalize (round_nearest_even (shr_m r) (loc_of_shr_record r)) (e + j))
    as (r2 & k & -> & Hk & Hr2 & Heq); [lia|apply Hmin; lia|].
  unfold normal_mantissa in Hr2. destruct (shr_m r2) as [|m|m] eqn:Em; [lia| |lia].
  destruct (Z.leb_spec (e + j + k) (f64_emax - f64_prec)) as [_|H];
    [|unfold f64_emax, f64_prec in H; lia].
  exists m, (j + k). rewrite Z.add_assoc. split; [done|]. split; [lia|]. split; [done|].
  rewrite Z.pow_add_r by lia.
  replace (Zpos m * (2 ^ j * 2 ^ k)) with (2 ^ j * (Zpos m * 2 ^ k)) by ring. rewrite Heq.
  assert (Hj' : j = 0 \/ j = 1) by lia.
  destruct Hj' as [-> | ->]; [rewrite Z.pow_0_r in *|rewrite Z.pow_1_r in *]; lia.
Qed.

(** A normal positive value, and its size as a multiple of [2 ^ (- 1200)]. *)
Definition scaled (m e : Z) : Z := m * 2 ^ (e + 1200).

Lemma exponent_gap m1 m2 P Q :
  0 < P -> 2 <= Q -> m1 < 2 ^ 53 -> 2 ^ 52 <= m2 -> m1 * P < m2 * (P * Q).
Proof.
  intros HP HQ H1 H2.
  apply Z.lt_le_trans with (2 ^ 53 * P); [by apply Z.mul_lt_mono_pos_r|].
  replace (2 ^ 53 * P) with (2 ^ 52 * (P * 2)) by lia.
  apply Z.mul_le_mono_nonneg; try lia. apply Z.mul_le_mono_nonneg_l; lia.
Qed.

Lemma normal_ltb m1 e1 m2 e2 :
  normal_mantissa (Zpos m1) -> normal_mantissa (Zpos m2) -> -1200 <= e1 -> -1200 <= e2 ->
  f64_ltb (S754_finite false m1 e1) (S754_finite false m2 e2) = true <->
  scaled (Zpos m1) e1 < scaled (Zpos m2) e2.
Proof.
  intros H1 H2 He1 He2. unfold normal_mantissa in *. unfold f64_ltb, SFltb, SFcompare, scaled.
  destruct (Z.compare_spec e1 e2) as [->|Hlt|Hgt].
  - fold (Pos.compare m1 m2). pose proof (Z.pow_pos_nonneg 2 (e2 + 1200) ltac:(lia) ltac:(lia)).
    destruct (Pos.compare_spec m1 m2) as [->|Hm|Hm]; (split; [intros|intros]; try done; try nia).
  - split; [intros _|done].
    replace (e2 + 1200) with ((e1 + 1200) + (e2 - e1)) by lia. rewrite (Z.pow_add_r 2 (e1 + 1200)) by lia.
    pose proof (Z.pow_pos_nonneg 2 (e1 + 1200) ltac:(lia) ltac:(lia)).
    assert (2 ^ 1 <= 2 ^ (e2 - e1)) by (apply Z.pow_le_mono_r; lia).
    apply exponent_gap; lia.
  - split; [done|]. intros H.
    replace (e1 + 1200) with ((e2 + 1200) + (e1 - e2)) in H by lia. rewrite (Z.pow_add_r 2 (e2 + 1200)) in H by lia.
    pose proof (Z.pow_pos_nonneg 2 (e2 + 1200) ltac:(lia) ltac:(lia)).
    assert (2 ^ 1 <= 2 ^ (e1 - e2)) by (apply Z.pow_le_mono_r; lia).
    pose proof (exponent_gap (Zpos m2) (Zpos m1) (2 ^ (e2 + 1200)) (2 ^ (e1 - e2))). lia.
Qed.

(** The quotient of two integers below [2 ^ 53] is a normal value (signed
    as the numerator) whose relative error is below [2 ^ (- 50)]. *)
Lemma f64_div_signed s a b :
  1 <= a < 2 ^ 53 -> 1 <= b < 2 ^ 53 ->
  exists m e, f64_div (f64_of_Z (signedZ s a)) (f64_of_Z b) = S754_finite s m e /\
    normal_mantissa (Zpos m) /\ -200 <= e <= 200 /\
    Z.abs (scaled (Zpos m) e * b - a * 2 ^ 1200) * 2 ^ 50 <= a * 2 ^ 1200.
Proof.
  intros Ha Hb.
  destruct (f64_of_Z_signed s a Ha) as (ma & -> & Ema & Hma).
  destruct (f64_of_Z_signed false b Hb) as (mb & Eb & Emb & Hmb). cbn [signedZ] in Eb. rewrite Eb. clear Eb.
  assert (La : 0 <= Z.log2 a < 53) by (split; [apply Z.log2_nonneg|apply Z.log2_lt_pow2; lia]).
  assert (Lb : 0 <= Z.log2 b < 53) by (split; [apply Z.log2_nonneg|apply Z.log2_lt_pow2; lia]).
  unfold f64_div, SFdiv, SFdiv_core_binary.
  rewrite !Zdigits2_log2 by lia. rewrite (Z.log2_unique (Zpos ma) 52), (Z.log2_unique (Zpos mb) 52)
    by (lia || (unfold normal_mantissa in *; assumption)).
  set (ea := Z.log2 a - 52) in *. set (eb := Z.log2 b - 52) in *.
  assert (He : Z.min (fexp f64_prec f64_emax (52 + 1 + ea - (52 + 1 + eb))) (ea - eb) = ea - eb - 53)
    by (unfold fexp, emin, f64_prec, f64_emax; lia).
  rewrite He. replace (ea - eb - (ea - eb - 53)) with 53 by lia. cbv match.
  rewrite Z.shiftl_mul_pow2 by lia.
  pose proof (Z_div_mod (Zpos ma * 2 ^ 53) (Zpos mb) ltac:(lia)) as Hq.
  destruct (Z.div_eucl (Zpos ma * 2 ^ 53) (Zpos mb)) as [q r]. destruct Hq as [Hq Hr].
  assert (Hqb : 2 ^ 52 <= q < 2 ^ 54) by nia.
  destruct (round_quotient (xorb s false) q (ea - eb - 53) (new_location (Zpos mb) r)) as (m & k & -> & Hk & Hm & Hbd);
    [done|lia|].
  exists m, (ea - eb - 53 + k). rewrite xorb_false_r. split; [done|]. split; [done|]. split; [lia|].
  assert (E1 : scaled (Zpos m) (ea - eb - 53 + k) * b = (Zpos m * 2 ^ k) * Zpos mb * 2 ^ (ea + 1147)).
  { unfold scaled. rewrite Emb.
    replace (ea - eb - 53 + k + 1200) with (k + (ea + 1147) + (52 - Z.log2 b)) by lia.
    rewrite !Z.pow_add_r by lia. ring. }
  assert (E2 : a * 2 ^ 1200 = Zpos ma * 2 ^ 53 * 2 ^ (ea + 1147)).
  { rewrite Ema. replace 1200 with ((52 - Z.log2 a) + 53 + (ea + 1147)) at 1 by lia.
    rewrite !Z.pow_add_r by lia. ring. }
  rewrite E1, E2. pose proof (Z.pow_pos_nonneg 2 (ea + 1147) ltac:(lia) ltac:(lia)) as HP.
  set (P := 2 ^ (ea + 1147)) in *. set (v := Zpos m * 2 ^ k) in *.
  assert (Hd : Z.abs (v * Zpos mb - Zpos ma * 2 ^ 53) <= 3 * Zpos mb) by nia.
  rewrite <- Z.mul_sub_distr_r, Z.abs_mul, (Z.abs_eq P) by lia.
  apply Z.le_trans with (3 * Zpos mb * P * 2 ^ 50); nia.
Qed.

(** Dividing by a common denominator is strictly increasing on integers up
    to [2 ^ 33], whatever the signs of the numerators. *)
Lemma f64_div_strict a1 a2 b :
  - 2 ^ 33 <= a1 -> a1 < a2 <= 2 ^ 33 -> 1 <= a2 -> 1 <= b <= 2 ^ 33 ->
  f64_ltb (f64_div (f64_of_Z a1) (f64_of_Z b)) (f64_div (f64_of_Z a2) (f64_of_Z b)) = true.
Proof.
  intros H1 H12 H2 Hb.
  destruct (f64_div_signed false a2 b) as (m2 & e2 & E2 & N2 & B2 & R2); [lia|lia|].
  cbn [signedZ] in E2. rewrite E2.
  destruct (Z.lt_trichotomy a1 0) as [Hneg|[->|Hpos]].
  - destruct (f64_div_signed true (- a1) b) as (m1 & e1 & E1 & _); [lia|lia|].
    cbn [signedZ] in E1. rewrite Z.opp_involutive in E1. by rewrite E1.
  - destruct (f64_of_Z_signed false b) as (mb & Eb & _); [lia|]. cbn [signedZ] in Eb.
    rewrite Eb. done.
  - destruct (f64_div_signed false a1 b) as (m1 & e1 & E1 & N1 & B1 & R1); [lia|lia|].
    cbn [signedZ] in E1. rewrite E1. apply normal_ltb; try done; try lia.
    set (S := 2 ^ 1200) in *. assert (HS : 0 < S) by (unfold S; lia).
    clearbody S. set (x1 := scaled (Zpos m1) e1) in *. set (x2 := scaled (Zpos m2) e2) in *.
    clearbody x1 x2. enough (x1 * b < x2 * b) by nia.
    assert (x1 * b * 2 ^ 50 <= a1 * S * (2 ^ 50 + 1)) by lia.
    assert (a2 * S * (2 ^ 50 - 1) <= x2 * b * 2 ^ 50) by lia.
    assert (a1 * S * (2 ^ 50 + 1) < a2 * S * (2 ^ 50 - 1)) by nia. lia.
Qed.
