(* ===== verification/CoreIds.v ===== *)
(** * CoreIds: identities and their allocators (src/core)

    [WindowId], [OutputId] and [SceneNodeId] wrap a [NonZeroU64]; the output
    and scene node identities come from allocators that never reuse a value
    and stop at [u64::MAX]. [IdAllocator] states what the compositor relies
    on, and the theorem on allocation sequences is proved against it. *)

From stdpp Require Import base list.
From Stdlib Require Import ZArith Lia.
From S2P Require Import Prelude.

(** ** Identity types *)

(** [WindowId(NonZeroU64)] and its siblings: the raw value. *)
Definition nonzero_u64 (z : Z) : Prop := 1 <= z <= u64_max.

(** [NonZeroU64::new] *)
Definition NonZero_new (value : Z) : option Z := if value =? 0 then None else Some value.

Abbreviation WindowId := Z.
Definition WindowId_from_raw (value : Z) : option WindowId := NonZero_new value.

Abbreviation OutputId := Z.
Definition OutputId_from_raw (value : Z) : option OutputId := NonZero_new value.

Abbreviation SceneNodeId := Z.
Definition SceneNodeId_from_raw (value : Z) : option SceneNodeId := NonZero_new value.

(** ** Allocators *)

Inductive OutputIdAllocationError : Type := OutputIdExhausted.
Inductive SceneNodeIdAllocationError : Type := SceneNodeIdExhausted.

Record OutputIdAllocator : Type := mkOutputIdAllocator {
  oa_next : Z;
  oa_exhausted : bool
}.

Definition OutputIdAllocator_default : OutputIdAllocator := mkOutputIdAllocator 1 false.

Definition OutputIdAllocator_allocate (a : OutputIdAllocator)
  : OutputIdAllocator * res OutputIdAllocationError OutputId :=
  if oa_exhausted a then (a, Fail OutputIdExhausted)
  else
    let id := oa_next a in
    if id =? u64_max then (mkOutputIdAllocator (oa_next a) true, Ret id)
    else match NonZero_new (id + 1) with
         | Some next => (mkOutputIdAllocator next (oa_exhausted a), Ret id)
         | None => (a, Panic)
         end.

Record SceneNodeIdAllocator : Type := mkSceneNodeIdAllocator {
  sa_next : Z;
  sa_exhausted : bool
}.

Definition SceneNodeIdAllocator_default : SceneNodeIdAllocator := mkSceneNodeIdAllocator 1 false.

Definition SceneNodeIdAllocator_allocate (a : SceneNodeIdAllocator)
  : SceneNodeIdAllocator * res SceneNodeIdAllocationError SceneNodeId :=
  if sa_exhausted a then (a, Fail SceneNodeIdExhausted)
  else
    let id := sa_next a in
    if id =? u64_max then (mkSceneNodeIdAllocator (sa_next a) true, Ret id)
    else match NonZero_new (id + 1) with
         | Some next => (mkSceneNodeIdAllocator next (sa_exhausted a), Ret id)
         | None => (a, Panic)
         end.

(** ** The interface: monotone allocation without reuse

    [ia_floor a] is the least value that [a] may still hand out. *)
Class IdAllocator (A E : Type) := {
  ia_default : A;
  ia_allocate : A -> A * res E Z;
  ia_inv : A -> Prop;
  ia_floor : A -> Z;
  ia_default_ok : ia_inv ia_default /\ ia_floor ia_default = 1;
  ia_step : forall a a' r, ia_inv a -> ia_allocate a = (a', r) ->
    ia_inv a' /\
    match r with
    | Ret id => id = ia_floor a /\ nonzero_u64 id /\ ia_floor a' = id + 1
    | Fail _ => a' = a /\ ia_floor a = u64_max + 1
    | _ => False
    end
}.

#[export, refine] Instance OutputId_allocator : IdAllocator OutputIdAllocator OutputIdAllocationError := {|
  ia_default := OutputIdAllocator_default;
  ia_allocate := OutputIdAllocator_allocate;
  ia_inv := fun a => nonzero_u64 (oa_next a) /\ (oa_exhausted a = true -> oa_next a = u64_max);
  ia_floor := fun a => if oa_exhausted a then u64_max + 1 else oa_next a
|}.
Proof.
  - cbn. unfold nonzero_u64. int_lia.
  - intros [n ex] a' r [Hn Hx] Hs. unfold OutputIdAllocator_allocate, NonZero_new in Hs.
    cbn in *. unfold nonzero_u64 in *.
    destruct ex; [injection Hs as <- <-; cbn; naive_solver|].
    destruct (Z.eqb_spec n u64_max); [injection Hs as <- <-; cbn; naive_solver lia|].
    destruct (Z.eqb_spec (n + 1) 0); [lia|]. injection Hs as <- <-; cbn. naive_solver lia.
Defined.

#[export, refine] Instance SceneNodeId_allocator : IdAllocator SceneNodeIdAllocator SceneNodeIdAllocationError := {|
  ia_default := SceneNodeIdAllocator_default;
  ia_allocate := SceneNodeIdAllocator_allocate;
  ia_inv := fun a => nonzero_u64 (sa_next a) /\ (sa_exhausted a = true -> sa_next a = u64_max);
  ia_floor := fun a => if sa_exhausted a then u64_max + 1 else sa_next a
|}.
Proof.
  - cbn. unfold nonzero_u64. int_lia.
  - intros [n ex] a' r [Hn Hx] Hs. unfold SceneNodeIdAllocator_allocate, NonZero_new in Hs.
    cbn in *. unfold nonzero_u64 in *.
    destruct ex; [injection Hs as <- <-; cbn; naive_solver|].
    destruct (Z.eqb_spec n u64_max); [injection Hs as <- <-; cbn; naive_solver lia|].
    destruct (Z.eqb_spec (n + 1) 0); [lia|]. injection Hs as <- <-; cbn. naive_solver lia.
Defined.

(** ** Sequences of allocations *)

Section Allocation.
Context {A E : Type} `{!IdAllocator A E}.

(** The identities handed out by [n] calls, skipping the failed ones. *)
Fixpoint allocate_n (n : nat) (a : A) : A * list Z :=
  match n with
  | O => (a, [])
  | S n =>
      let '(a1, r) := ia_allocate a in
      let '(a2, ids) := allocate_n n a1 in
      (a2, match r with Ret id => id :: ids | _ => ids end)
  end.

Lemma allocate_n_spec n a :
  ia_inv a ->
  ia_inv (allocate_n n a).1 /\
  (allocate_n n a).2 = seqZ (ia_floor a) (Z.min (Z.of_nat n) (u64_max + 1 - ia_floor a)) /\
  Forall nonzero_u64 (allocate_n n a).2.
Proof.
  revert a. induction n as [|n IH]; intros a Ha.
  - cbn [allocate_n fst snd]. split; [done|]. split; [|constructor].
    rewrite seqZ_nil; [done|lia].
  - cbn [allocate_n]. destruct (ia_allocate a) as [a1 r] eqn:Hstep.
    destruct (ia_step a a1 r Ha Hstep) as [Ha1 Hr].
    specialize (IH a1 Ha1). destruct (allocate_n n a1) as [a2 ids]. cbn [fst snd] in *.
    destruct IH as (Ha2 & -> & Hall). destruct r as [id|e| |]; try done.
    + destruct Hr as (-> & Hnz & Hfl). unfold nonzero_u64 in Hnz.
      split; [done|]. split; [|by constructor].
      rewrite Hfl. rewrite (seqZ_cons (ia_floor a)) by lia.
      f_equal. unfold Z.succ. f_equal. lia.
    + destruct Hr as [-> Hfl]. split; [done|]. split; [|done].
      rewrite !seqZ_nil by lia. done.
Qed.
End Allocation.

(** Whatever number of identities the compositor asks of a fresh
    output or scene node allocator, the values handed out are exactly
    [1, 2, 3, ...] in order: non-zero, never wrapping past [u64::MAX] and
    never repeated; once the last value is used every call fails. *)
Theorem allocated_ids_fresh (n : nat) :
  let out := (allocate_n (A := OutputIdAllocator) n ia_default).2 in
  let scene := (allocate_n (A := SceneNodeIdAllocator) n ia_default).2 in
  out = seqZ 1 (Z.min (Z.of_nat n) u64_max) /\ scene = out /\
  NoDup out /\ Forall nonzero_u64 out.
Proof.
  pose proof (ia_default_ok (A := OutputIdAllocator)) as [Ho Hof].
  pose proof (ia_default_ok (A := SceneNodeIdAllocator)) as [Hs Hsf].
  destruct (allocate_n_spec n _ Ho) as (_ & Eo & Fo).
  destruct (allocate_n_spec n _ Hs) as (_ & Es & Fs).
  cbv zeta. rewrite Es, Eo in *. rewrite Hof, Hsf in *.
  replace (u64_max + 1 - 1) with u64_max by lia.
  repeat split; auto. apply NoDup_seqZ.
Qed.
