(* ===== verification/Workspace.v ===== *)
(** * Workspace: workspaces and their placement on outputs (src/wm)

    [wm/workspace.rs], [wm/special_workspace.rs] and [wm/window.rs]: the
    workspace identities, the bit set of visible workspaces, the manager
    that places regular workspaces on outputs and toggles special ones, and
    the per-window management state. *)

From stdpp Require Import base gmap list strings.
From Stdlib Require Import ZArith Lia.
From S2P Require Import Prelude CoreIds.
Open Scope Z_scope.

(** ** Identities *)

Abbreviation WorkspaceId := Z.
Abbreviation SpecialWorkspaceId := Z.


Definition WorkspaceId_new (value : Z) : option WorkspaceId := NonZero_new value.
Definition SpecialWorkspaceId_new (value : Z) : option SpecialWorkspaceId := NonZero_new value.

Definition from_ewmh (index : Z) : option WorkspaceId :=
  match checked_add u32_max index 1 with
  | Some value => WorkspaceId_new value
  | None => None
  end.
Definition to_ewmh (w : WorkspaceId) : Z := w - 1.

Definition SPECIAL_WORKSPACE_COUNT : Z := 4.
Definition DEFAULT_WORKSPACE_COUNT : Z := 10.

Inductive WorkspaceLocation : Type :=
| Regular (workspace : WorkspaceId)
| Special (special : SpecialWorkspaceId).

#[export] Instance WorkspaceLocation_eq_dec : EqDecision WorkspaceLocation.
Proof. solve_decision. Defined.

(** ** Window management state (wm/window.rs) *)

Inductive LayoutMembership : Type := Floating | Tiled.
Inductive WindowChromePolicy : Type := Full | Minimal.
Inductive WindowDecorationPolicy : Type := ClientPreference | Server.

Definition chrome_from_layout (layout : LayoutMembership) : WindowChromePolicy :=
  match layout with Floating => Full | Tiled => Minimal end.

Definition decoration_as_str (p : WindowDecorationPolicy) : string :=
  match p with ClientPreference => "client_preference" | Server => "server" end.

Definition decoration_parse (value : string) : option WindowDecorationPolicy :=
  if String.eqb value "client_preference" then Some ClientPreference
  else if String.eqb value "server" then Some Server
  else None.

Record WindowManagementState : Type := mkWindowManagementState {
  wms_location : WorkspaceLocation;
  wms_layout : LayoutMembership
}.

Definition WindowManagementState_new (location : WorkspaceLocation) : WindowManagementState :=
  mkWindowManagementState location Floating.
Definition regular_workspace (s : WindowManagementState) : option WorkspaceId :=
  match wms_location s with Regular w => Some w | Special _ => None end.
Definition special_workspace (s : WindowManagementState) : option SpecialWorkspaceId :=
  match wms_location s with Regular _ => None | Special w => Some w end.
Definition with_location (s : WindowManagementState) (location : WorkspaceLocation) :=
  mkWindowManagementState location (wms_layout s).
Definition with_layout (s : WindowManagementState) (layout : LayoutMembership) :=
  mkWindowManagementState (wms_location s) layout.
Definition chrome_policy (s : WindowManagementState) : WindowChromePolicy :=
  chrome_from_layout (wms_layout s).

(** ** The visible set *)

(** A [u64] bit set over workspace ids [1..=64]. *)
Definition VisibleWorkspaces : Type := Z.

(** [workspace.get().checked_sub(1).filter(|bit| *bit < 64)] *)
Definition visible_bit (workspace : WorkspaceId) : option Z :=
  match checked_sub u32_max workspace 1 with
  | Some bit => if bit <? 64 then Some bit else None
  | None => None
  end.

Definition visible_insert (visible : VisibleWorkspaces) (workspace : WorkspaceId) : VisibleWorkspaces :=
  match visible_bit workspace with
  | Some bit => Z.lor visible (Z.shiftl 1 bit)
  | None => visible
  end.

Definition visible_single (workspace : WorkspaceId) : VisibleWorkspaces := visible_insert 0 workspace.

Definition visible_contains (visible : VisibleWorkspaces) (workspace : WorkspaceId) : bool :=
  match visible_bit workspace with
  | Some bit => negb (Z.land visible (Z.shiftl 1 bit) =? 0)
  | None => false
  end.

(** ** The manager *)

Record WorkspaceManager : Type := mkWorkspaceManager {
  active_workspace : WorkspaceId;
  workspaces : list WorkspaceId;
  special_workspaces : list SpecialWorkspaceId;
  visible_special_workspace : option SpecialWorkspaceId;
  focused_output : option OutputId;
  output_workspaces : gmap Z WorkspaceId;
  workspace_outputs : gmap Z OutputId
}.

Inductive WorkspaceSwitchOutcome : Type :=
| Changed (previous current : WorkspaceId)
| FocusedOutput (previous current : WorkspaceId)
| NoChange
| UnknownWorkspace.

Inductive SpecialWorkspaceToggleOutcome : Type :=
| Opened (id : SpecialWorkspaceId)
| Closed (id : SpecialWorkspaceId)
| Switched (previous current : SpecialWorkspaceId)
| UnknownSpecial (id : SpecialWorkspaceId).

Definition with_active (m : WorkspaceManager) (w : WorkspaceId) : WorkspaceManager :=
  mkWorkspaceManager w (workspaces m) (special_workspaces m) (visible_special_workspace m)
    (focused_output m) (output_workspaces m) (workspace_outputs m).
Definition with_focus (m : WorkspaceManager) (o : option OutputId) : WorkspaceManager :=
  mkWorkspaceManager (active_workspace m) (workspaces m) (special_workspaces m)
    (visible_special_workspace m) o (output_workspaces m) (workspace_outputs m).
Definition with_maps (m : WorkspaceManager) (ow : gmap Z WorkspaceId) (wo : gmap Z OutputId) :=
  mkWorkspaceManager (active_workspace m) (workspaces m) (special_workspaces m)
    (visible_special_workspace m) (focused_output m) ow wo.
Definition with_special (m : WorkspaceManager) (s : option SpecialWorkspaceId) : WorkspaceManager :=
  mkWorkspaceManager (active_workspace m) (workspaces m) (special_workspaces m) s
    (focused_output m) (output_workspaces m) (workspace_outputs m).

Definition WorkspaceManager_new (workspace_count : Z) : option WorkspaceManager :=
  ws ← mapM WorkspaceId_new (seqZ 1 workspace_count);
  active ← head ws;
  specials ← mapM SpecialWorkspaceId_new (seqZ 1 SPECIAL_WORKSPACE_COUNT);
  Some (mkWorkspaceManager active ws specials None None ∅ ∅).

(** [impl Default]: ten workspaces. *)
Definition WorkspaceManager_default : res Empty_set WorkspaceManager :=
  expect (WorkspaceManager_new DEFAULT_WORKSPACE_COUNT).

(** The values of [output_workspaces] in key order. *)
Definition shown_workspaces (m : WorkspaceManager) : list WorkspaceId :=
  omap (fun o => output_workspaces m !! o) (btree_keys (output_workspaces m)).

Definition visible_workspaces (m : WorkspaceManager) : VisibleWorkspaces :=
  fold_left visible_insert (shown_workspaces m) (visible_single (active_workspace m)).

Definition is_visible (m : WorkspaceManager) (w : WorkspaceId) : bool :=
  visible_contains (visible_workspaces m) w.

(** [workspaces.binary_search(&workspace).is_ok()]: membership, the vector
    being sorted. *)
Definition contains (m : WorkspaceManager) (w : WorkspaceId) : bool :=
  bool_decide (w ∈ workspaces m).

Definition contains_special_workspace (m : WorkspaceManager) (id : SpecialWorkspaceId) : bool :=
  bool_decide (id ∈ special_workspaces m).

Definition workspace_output (m : WorkspaceManager) (w : WorkspaceId) : option OutputId :=
  workspace_outputs m !! w.
Definition output_workspace (m : WorkspaceManager) (o : OutputId) : option WorkspaceId :=
  output_workspaces m !! o.

(** [for workspace in &self.workspaces { self.workspace_outputs.insert(..) }] *)
Definition own_all (ws : list WorkspaceId) (output : OutputId) (wo : gmap Z OutputId) : gmap Z OutputId :=
  fold_left (fun wo w => <[w := output]> wo) ws wo.

(** The [debug_assert!] on the focused output is a panic here, as in a debug
    build; [attach_placement] shows that it never fails. *)
Definition attach_output (m : WorkspaceManager) (output : OutputId)
  : res Empty_set (WorkspaceManager * option WorkspaceId) :=
  match output_workspaces m !! output with
  | Some shown => Ret (m, Some shown)
  | None =>
      match focused_output m with
      | None =>
          let ow := <[output := active_workspace m]> (output_workspaces m) in
          let wo := own_all (workspaces m) output (workspace_outputs m) in
          Ret (with_maps (with_focus m (Some output)) ow wo, Some (active_workspace m))
      | Some focused =>
          let visible := visible_workspaces m in
          match list_find (fun w => visible_contains visible w = false) (workspaces m) with
          | None => Ret (m, None)
          | Some (_, w) =>
              if bool_decide (is_Some (output_workspaces m !! focused))
              then Ret (with_maps m (<[output := w]> (output_workspaces m))
                          (<[w := output]> (workspace_outputs m)), Some w)
              else Panic
          end
      end
  end.

Definition detach_output (m : WorkspaceManager) (output : OutputId) : res Empty_set WorkspaceManager :=
  match output_workspaces m !! output with
  | None => Ret m
  | Some _ =>
      let ow := delete output (output_workspaces m) in
      let fallback :=
        match focused_output m with
        | Some focused => if focused =? output then btree_first_key ow else Some focused
        | None => btree_first_key ow
        end in
      match fallback with
      | None => Ret (with_maps (with_focus m None) ow ∅)
      | Some fallback =>
          let wo := (fun owner => if owner =? output then fallback else owner) <$> workspace_outputs m in
          let m1 := with_maps m ow wo in
          if bool_decide (focused_output m = Some output) then
            shown ← expect (ow !! fallback);
            Ret (with_active (with_focus m1 (Some fallback)) shown)
          else Ret m1
      end
  end.

Definition focus_output (m : WorkspaceManager) (output : OutputId) : WorkspaceManager * bool :=
  match output_workspaces m !! output with
  | None => (m, false)
  | Some shown =>
      if bool_decide (focused_output m = Some output) then (m, false)
      else (with_active (with_focus m (Some output)) shown, true)
  end.

Definition toggle_special_workspace (m : WorkspaceManager) (id : SpecialWorkspaceId)
  : WorkspaceManager * SpecialWorkspaceToggleOutcome :=
  if contains_special_workspace m id then
    match visible_special_workspace m with
    | Some visible =>
        if visible =? id then (with_special m None, Closed id)
        else (with_special m (Some id), Switched visible id)
    | None => (with_special m (Some id), Opened id)
    end
  else (m, UnknownSpecial id).

Definition set_visible_special_workspace (m : WorkspaceManager) (id : option SpecialWorkspaceId)
  : WorkspaceManager * bool :=
  match id with
  | Some i => if contains_special_workspace m i then (with_special m id, true) else (m, false)
  | None => (with_special m id, true)
  end.

Definition activate (m : WorkspaceManager) (w : WorkspaceId)
  : res Empty_set (WorkspaceManager * WorkspaceSwitchOutcome) :=
  if contains m w then
    if active_workspace m =? w then Ret (m, NoChange)
    else
      match workspace_output m w with
      | None => Ret (with_active m w, Changed (active_workspace m) w)
      | Some output =>
          let focused_previous := active_workspace m in
          shown ← expect (output_workspaces m !! output);
          let m1 := with_active (with_focus m (Some output)) w in
          if shown =? w then Ret (m1, FocusedOutput focused_previous w)
          else Ret (with_maps m1 (<[output := w]> (output_workspaces m)) (workspace_outputs m),
                    Changed shown w)
      end
  else Ret (m, UnknownWorkspace).

Definition workspace_count (m : WorkspaceManager) : Z := Z.of_nat (length (workspaces m)).

Definition is_changed (o : WorkspaceSwitchOutcome) : bool :=
  match o with Changed _ _ => true | _ => false end.

(** ** The bit set *)

Lemma visible_bit_spec w b : visible_bit w = Some b <-> b = w - 1 /\ 1 <= w <= 64.
Proof.
  unfold visible_bit, checked_sub. destruct (checked _ _ _) as [x|] eqn:E.
  - apply checked_Some in E as [-> E]. zcase; split; try naive_solver lia.
  - apply checked_None in E. split; [done|]. unfold u32_max in E. lia.
Qed.

Lemma visible_bit_None w : visible_bit w = None <-> ~ (1 <= w <= 64).
Proof.
  destruct (visible_bit w) eqn:E.
  - apply visible_bit_spec in E. split; [done|lia].
  - split; [|done]. intros _ H.
    assert (E' : visible_bit w = Some (w - 1)) by (apply visible_bit_spec; lia). congruence.
Qed.

(** Masking with a single bit tests that bit. *)
Lemma land_bit v b : 0 <= b -> negb (Z.land v (Z.shiftl 1 b) =? 0) = Z.testbit v b.
Proof.
  intros Hb. rewrite Z.shiftl_1_l.
  destruct (Z.testbit v b) eqn:E.
  - destruct (Z.eqb_spec (Z.land v (2 ^ b)) 0) as [H|]; [|done].
    apply (f_equal (fun z => Z.testbit z b)) in H.
    rewrite Z.land_spec, E, Z.pow2_bits_true, Z.bits_0 in H by done. done.
  - apply negb_false_iff, Z.eqb_eq, Z.bits_inj'. intros n Hn.
    rewrite Z.land_spec, Z.bits_0, Z.pow2_bits_eqb by done.
    destruct (Z.eqb_spec b n) as [<-|]; [by rewrite E|apply andb_false_r].
Qed.

Lemma visible_contains_testbit v w :
  visible_contains v w = true <-> 1 <= w <= 64 /\ Z.testbit v (w - 1) = true.
Proof.
  unfold visible_contains. destruct (visible_bit w) eqn:E.
  - apply visible_bit_spec in E as [-> Hw]. rewrite land_bit by lia. naive_solver.
  - apply visible_bit_None in E. naive_solver.
Qed.

Lemma visible_contains_insert v w w' :
  visible_contains (visible_insert v w) w' = true <->
  visible_contains v w' = true \/ (w' = w /\ 1 <= w <= 64).
Proof.
  rewrite !visible_contains_testbit. unfold visible_insert.
  destruct (visible_bit w) eqn:E.
  - apply visible_bit_spec in E as [-> Hw].
    destruct (decide (1 <= w' <= 64)); [|naive_solver lia].
    rewrite Z.lor_spec, Z.shiftl_1_l, Z.pow2_bits_eqb, orb_true_iff, Z.eqb_eq by lia.
    split; [intros [_ [?|?]]; [left; done|right; lia]|].
    intros [[? ?]|[-> _]]; auto.
  - apply visible_bit_None in E. naive_solver.
Qed.

Lemma visible_contains_fold ws v w :
  visible_contains (fold_left visible_insert ws v) w = true <->
  visible_contains v w = true \/ (w ∈ ws /\ 1 <= w <= 64).
Proof.
  revert v. induction ws as [|x ws IH]; intros v; cbn.
  - rewrite elem_of_nil. naive_solver.
  - rewrite IH, visible_contains_insert, elem_of_cons. naive_solver.
Qed.

Lemma elem_of_shown m w : w ∈ shown_workspaces m <-> exists o, output_workspaces m !! o = Some w.
Proof.
  unfold shown_workspaces. rewrite list_elem_of_omap. split.
  - intros (o & _ & Ho). eauto.
  - intros (o & Ho). exists o. split; [|done]. apply elem_of_btree_keys. eauto.
Qed.

(** The [u64] bit set of visible workspaces holds exactly
    the active workspace and the workspaces shown on some output, restricted
    to the ids [1..=64] it can represent. *)
Theorem visible_workspaces_spec m w :
  is_visible m w = true <->
  1 <= w <= 64 /\ (w = active_workspace m \/ exists o, output_workspace m o = Some w).
Proof.
  unfold is_visible, visible_workspaces, visible_single, output_workspace.
  rewrite visible_contains_fold, visible_contains_insert, visible_contains_testbit, elem_of_shown.
  rewrite Z.bits_0. naive_solver lia.
Qed.

(** ** The placement invariant *)

(** The manager's workspaces are [1..=n]; every output shows a workspace it
    owns; every owner is attached; the focused output shows the active
    workspace; without a focused output nothing is placed. *)
Record placement_ok (n : Z) (m : WorkspaceManager) : Prop := {
  po_workspaces : workspaces m = seqZ 1 n;
  po_active : 1 <= active_workspace m <= n;
  po_specials : special_workspaces m = seqZ 1 SPECIAL_WORKSPACE_COUNT;
  po_special : forall s, visible_special_workspace m = Some s -> s ∈ special_workspaces m;
  po_unfocused : focused_output m = None -> output_workspaces m = ∅ /\ workspace_outputs m = ∅;
  po_focused : forall o, focused_output m = Some o -> output_workspaces m !! o = Some (active_workspace m);
  po_shown_owned : forall o w, output_workspaces m !! o = Some w -> workspace_outputs m !! w = Some o;
  po_owner_attached : forall w o, workspace_outputs m !! w = Some o -> is_Some (output_workspaces m !! o);
  po_owned : forall w o, focused_output m = Some o -> is_Some (workspace_outputs m !! w) <-> 1 <= w <= n
}.

Lemma own_all_lookup ws o wo w :
  own_all ws o wo !! w = if decide (w ∈ ws) then Some o else wo !! w.
Proof.
  unfold own_all. revert wo. induction ws as [|x ws IH]; intros wo; cbn.
  - by rewrite decide_False by set_solver.
  - rewrite IH. destruct (decide (w ∈ ws)).
    + by rewrite decide_True by set_solver.
    + rewrite lookup_insert. destruct (decide (x = w)) as [->|].
      * by rewrite decide_True by set_solver.
      * by rewrite decide_False by set_solver.
Qed.

Lemma placement_visible n m w :
  placement_ok n m -> n <= 64 -> 1 <= w <= n ->
  is_visible m w = true <-> w = active_workspace m \/ exists o, output_workspaces m !! o = Some w.
Proof.
  intros Hm Hn Hw. unfold is_visible, visible_workspaces, visible_single.
  rewrite visible_contains_fold, visible_contains_insert, visible_contains_testbit, elem_of_shown.
  rewrite Z.bits_0. naive_solver lia.
Qed.

Lemma mapM_NonZero ws : Forall (fun w => w <> 0) ws -> mapM NonZero_new ws = Some ws.
Proof.
  intros H. apply mapM_Some. induction H as [|w ws Hw _ IH]; constructor; [|done].
  unfold NonZero_new. by destruct (Z.eqb_spec w 0).
Qed.

Lemma seqZ_nonzero n : Forall (fun w => w <> 0) (seqZ 1 n).
Proof. apply Forall_forall. intros w Hw. apply elem_of_seqZ in Hw. lia. Qed.

Lemma new_placement n :
  1 <= n -> exists m, WorkspaceManager_new n = Some m /\ placement_ok n m /\ active_workspace m = 1.
Proof.
  intros Hn. unfold WorkspaceManager_new, WorkspaceId_new, SpecialWorkspaceId_new.
  rewrite !mapM_NonZero by apply seqZ_nonzero.
  rewrite (seqZ_cons 1 n) by lia. cbn [mbind option_bind head hd_error].
  eexists. split; [reflexivity|]. split; [|reflexivity].
  constructor; cbn [workspaces active_workspace special_workspaces
      visible_special_workspace focused_output output_workspaces workspace_outputs]; try done.
  by rewrite (seqZ_cons 1 n) by lia.
Qed.

Section Preservation.
Context (n : Z) (Hn : n <= 64).
Implicit Types m : WorkspaceManager.

Lemma attach_placement m o :
  placement_ok n m ->
  exists m' shown, attach_output m o = Ret (m', shown) /\ placement_ok n m'.
Proof.
  intros Hm. unfold attach_output.
  destruct (output_workspaces m !! o) as [s|] eqn:Ho; [eauto|].
  destruct (focused_output m) as [f|] eqn:Hf.
  - destruct (list_find _ _) as [[i w]|] eqn:Hfind; [|eauto].
    rewrite bool_decide_true by (rewrite (po_focused _ _ Hm f Hf); eauto). eexists _, _. split; [done|].
    apply list_find_Some in Hfind as (Hi & Hvis & _).
    apply list_elem_of_lookup_2 in Hi. rewrite (po_workspaces _ _ Hm), elem_of_seqZ in Hi.
    assert (Hhid : ~ (w = active_workspace m \/ exists o', output_workspaces m !! o' = Some w)).
    { intros H. apply (placement_visible n m w) in H; [|done|lia|lia].
      unfold is_visible in H. congruence. }
    pose proof (po_focused _ _ Hm f Hf) as Hfoc.
    constructor; cbn [with_maps workspaces active_workspace special_workspaces
      visible_special_workspace focused_output output_workspaces workspace_outputs];
      try apply Hm; rewrite ?Hf.
    + congruence.
    + intros o' [= <-]. rewrite lookup_insert_ne; [done|congruence].
    + intros o' w'. rewrite !lookup_insert. repeat case_decide; subst; try congruence.
      * intros Ho'. destruct Hhid. eauto.
      * intros Ho'. by apply (po_shown_owned _ _ Hm).
    + intros w' o'. rewrite !lookup_insert. repeat case_decide; subst; try congruence; eauto.
      intros Ho'. by eapply po_owner_attached.
    + intros w' o' _. rewrite lookup_insert. case_decide; subst.
      * split; [lia|eauto].
      * by apply (po_owned _ _ Hm w' f).
  - destruct (po_unfocused _ _ Hm Hf) as [Eow Ewo]. eexists _, _. split; [done|].
    constructor; cbn [with_maps with_focus workspaces active_workspace special_workspaces
      visible_special_workspace focused_output output_workspaces workspace_outputs];
      try apply Hm; rewrite ?Eow, ?Ewo.
    + congruence.
    + intros o' [= <-]. apply lookup_insert_eq.
    + intros o' w' Ho'. rewrite lookup_insert in Ho'. case_decide; [|done]. subst o'.
      injection Ho' as <-. rewrite own_all_lookup, decide_True; [done|].
      rewrite (po_workspaces _ _ Hm), elem_of_seqZ. pose proof (po_active _ _ Hm). lia.
    + intros w' o'. rewrite own_all_lookup, lookup_empty. case_decide; [|done].
      intros [= <-]. rewrite lookup_insert_eq. eauto.
    + intros w' o' _. rewrite own_all_lookup, lookup_empty.
      case_decide as Hd; rewrite (po_workspaces _ _ Hm), elem_of_seqZ in Hd; split; try lia; eauto.
      by intros [? ?].
Qed.

(** Rewriting the owner of the leaving output to the fallback. *)
Lemma reassigned_lookup (wo : gmap Z OutputId) leaving fallback w o :
  ((fun owner => if owner =? leaving then fallback else owner) <$> wo) !! w = Some o <->
  exists o', wo !! w = Some o' /\ o = (if o' =? leaving then fallback else o').
Proof. rewrite lookup_fmap, fmap_Some. naive_solver. Qed.

Lemma detached_placement m o fb sh f :
  placement_ok n m -> focused_output m = Some f -> fb <> o -> output_workspaces m !! fb = Some sh ->
  placement_ok n (mkWorkspaceManager sh (workspaces m) (special_workspaces m)
    (visible_special_workspace m) (Some fb) (delete o (output_workspaces m))
    ((fun owner => if owner =? o then fb else owner) <$> workspace_outputs m)).
Proof.
  intros Hm Hf Hne Hsh.
  constructor; cbn [workspaces active_workspace special_workspaces
      visible_special_workspace focused_output output_workspaces workspace_outputs];
      try apply Hm; try congruence.
  - apply (po_owned _ _ Hm sh f Hf). rewrite (po_shown_owned _ _ Hm fb sh Hsh). eauto.
  - intros o' [= <-]. by rewrite lookup_delete_ne.
  - intros o' w'. rewrite lookup_delete_Some, reassigned_lookup. intros [Ho' Hw'].
    exists o'. split; [by apply (po_shown_owned _ _ Hm)|]. destruct (Z.eqb_spec o' o); congruence.
  - intros w' o'. rewrite reassigned_lookup. intros (o1 & Hw' & ->).
    destruct (Z.eqb_spec o1 o).
    + rewrite lookup_delete_ne by done. eauto.
    + rewrite lookup_delete_ne by done. by eapply po_owner_attached.
  - intros w' o' _. rewrite lookup_fmap, fmap_is_Some. by apply (po_owned _ _ Hm w' f).
Qed.

Lemma detach_placement m o :
  placement_ok n m -> exists m', detach_output m o = Ret m' /\ placement_ok n m'.
Proof.
  intros Hm. unfold detach_output.
  destruct (output_workspaces m !! o) as [s|] eqn:Ho; [|eauto].
  destruct (focused_output m) as [f|] eqn:Hf; cycle 1.
  { destruct (po_unfocused _ _ Hm Hf) as [E _]. rewrite E in Ho. done. }
  pose proof (po_focused _ _ Hm f Hf) as Hfoc.
  destruct (Z.eqb_spec f o) as [->|Hne].
  - rewrite bool_decide_true by done.
    destruct (btree_first_key _) as [fb|] eqn:Hfb; cycle 1.
    { apply btree_first_key_None in Hfb. rewrite Hfb. eexists. split; [reflexivity|].
      constructor; cbn; try apply Hm; try done; try set_solver. }
    apply btree_first_key_Some in Hfb as [[sh Hsh] _].
    rewrite Hsh. cbn. eexists. split; [reflexivity|].
    rewrite lookup_delete_Some in Hsh. destruct Hsh as [Hofb Hsh].
    apply (detached_placement m o fb sh o); auto.
  - rewrite bool_decide_false by congruence. eexists. split; [reflexivity|].
    unfold with_maps. rewrite Hf. by apply (detached_placement m o f (active_workspace m) f).
Qed.

Lemma focus_placement m o : placement_ok n m -> placement_ok n (focus_output m o).1.
Proof.
  intros Hm. unfold focus_output.
  destruct (output_workspaces m !! o) as [sh|] eqn:Ho; [|done].
  case_bool_decide as Hf; [done|].
  destruct (focused_output m) as [f|] eqn:Hff; cycle 1.
  { destruct (po_unfocused _ _ Hm Hff) as [E _]. rewrite E in Ho. done. }
  pose proof (po_shown_owned _ _ Hm o sh Ho) as Hown.
  constructor; cbn; try apply Hm; try congruence.
  - apply (po_owned _ _ Hm sh f Hff). rewrite Hown. eauto.
  - intros w' o' _. by apply (po_owned _ _ Hm w' f).
Qed.

Lemma contains_spec m w : placement_ok n m -> contains m w = true <-> 1 <= w <= n.
Proof.
  intros Hm. unfold contains.
  rewrite bool_decide_eq_true, (po_workspaces _ _ Hm), elem_of_seqZ. lia.
Qed.

Lemma activate_placement m w :
  placement_ok n m -> exists m' out, activate m w = Ret (m', out) /\ placement_ok n m'.
Proof.
  intros Hm. unfold activate.
  destruct (contains m w) eqn:Hc; [|eauto].
  apply (contains_spec m w Hm) in Hc.
  destruct (Z.eqb_spec (active_workspace m) w) as [|Hne]; [eauto|].
  unfold workspace_output. destruct (workspace_outputs m !! w) as [o|] eqn:Hw; cycle 1.
  - eexists _, _. split; [reflexivity|].
    destruct (focused_output m) as [f|] eqn:Hf.
    { apply (po_owned _ _ Hm w f Hf) in Hc. rewrite Hw in Hc. by destruct Hc. }
    constructor; cbn; try apply Hm; try congruence; lia.
  - destruct (po_owner_attached _ _ Hm w o Hw) as [sh Hsh]. rewrite Hsh. cbn [expect mbind res_bind].
    destruct (focused_output m) as [f|] eqn:Hf; cycle 1.
    { destruct (po_unfocused _ _ Hm Hf) as [_ E]. rewrite E in Hw. done. }
    destruct (Z.eqb_spec sh w) as [->|Hshw]; (eexists _, _; split; [reflexivity|]);
      constructor; cbn; try apply Hm; try congruence; try lia.
    + intros w' o' _. by apply (po_owned _ _ Hm w' f).
    + intros o' [= <-]. apply lookup_insert_eq.
    + intros o' w'. rewrite lookup_insert. case_decide; [congruence|]. apply (po_shown_owned _ _ Hm).
    + intros w' o' Hw'. rewrite lookup_insert. case_decide; [eauto|]. by eapply po_owner_attached.
    + intros w' o' _. by apply (po_owned _ _ Hm w' f).
Qed.

Lemma special_placement m s :
  placement_ok n m -> (forall x, s = Some x -> x ∈ special_workspaces m) ->
  placement_ok n (with_special m s).
Proof. intros Hm Hs. constructor; cbn; try apply Hm. naive_solver. Qed.

Lemma toggle_placement m id : placement_ok n m -> placement_ok n (toggle_special_workspace m id).1.
Proof.
  intros Hm. unfold toggle_special_workspace, contains_special_workspace.
  case_bool_decide; [|done].
  destruct (visible_special_workspace m) as [v|]; [destruct (v =? id)|];
    apply special_placement; naive_solver.
Qed.

Lemma set_special_placement m s :
  placement_ok n m -> placement_ok n (set_visible_special_workspace m s).1.
Proof.
  intros Hm. unfold set_visible_special_workspace, contains_special_workspace.
  destruct s; [case_bool_decide|]; cbn; auto; apply special_placement; naive_solver.
Qed.
End Preservation.

(** ** Sequences of operations *)

Inductive WmOp : Type :=
| OpAttach (o : OutputId)
| OpDetach (o : OutputId)
| OpFocus (o : OutputId)
| OpActivate (w : WorkspaceId)
| OpToggleSpecial (id : SpecialWorkspaceId)
| OpSetSpecial (id : option SpecialWorkspaceId).

Definition wm_step (m : WorkspaceManager) (op : WmOp) : res Empty_set WorkspaceManager :=
  match op with
  | OpAttach o => fst <$> attach_output m o
  | OpDetach o => detach_output m o
  | OpFocus o => Ret (focus_output m o).1
  | OpActivate w => fst <$> activate m w
  | OpToggleSpecial id => Ret (toggle_special_workspace m id).1
  | OpSetSpecial id => Ret (set_visible_special_workspace m id).1
  end.

Fixpoint wm_run (ops : list WmOp) (m : WorkspaceManager) : res Empty_set WorkspaceManager :=
  match ops with
  | [] => Ret m
  | op :: ops => m1 ← wm_step m op; wm_run ops m1
  end.

Lemma wm_step_placement n m op :
  n <= 64 -> placement_ok n m -> exists m', wm_step m op = Ret m' /\ placement_ok n m'.
Proof.
  intros Hn Hm. destruct op; cbn [wm_step].
  - destruct (attach_placement n Hn m o Hm) as (m' & out & -> & Hm'). cbn. eauto.
  - by apply detach_placement.
  - eauto using focus_placement.
  - destruct (activate_placement n m w Hm) as (m' & out & -> & Hm'). cbn. eauto.
  - eauto using toggle_placement.
  - eauto using set_special_placement.
Qed.

Lemma wm_run_placement n ops m :
  n <= 64 -> placement_ok n m -> exists m', wm_run ops m = Ret m' /\ placement_ok n m'.
Proof.
  intros Hn. revert m. induction ops as [|op ops IH]; intros m Hm; cbn [wm_run]; [eauto|].
  destruct (wm_step_placement n m op Hn Hm) as (m1 & -> & Hm1). cbn. by apply IH.
Qed.

(** C13 (invariant): a manager created with between 1 and 64 workspaces (the
    visible set is a [u64], so that beyond 64 the statement fails) never
    panics, whatever sequence of attach, detach, focus, activate and special
    workspace operations it serves, and the placement stays consistent: two
    outputs never show the same workspace, the focused output shows the
    active workspace, every shown workspace is owned by the output that
    shows it, every owner is an attached output, and as long as an output has
    the focus exactly the manager's workspaces have an owner. *)
Theorem workspace_placement_safe (n : Z) (ops : list WmOp) :
  1 <= n <= 64 ->
  exists m0 m, WorkspaceManager_new n = Some m0 /\ wm_run ops m0 = Ret m /\
    (forall o1 o2 w, output_workspace m o1 = Some w -> output_workspace m o2 = Some w -> o1 = o2) /\
    (forall o, focused_output m = Some o -> output_workspace m o = Some (active_workspace m)) /\
    (forall o w, output_workspace m o = Some w -> workspace_output m w = Some o) /\
    (forall w o, workspace_output m w = Some o -> is_Some (output_workspace m o)) /\
    (forall o, focused_output m = Some o ->
       forall w, contains m w = true <-> is_Some (workspace_output m w)) /\
    contains m (active_workspace m) = true.
Proof.
  intros Hn. destruct (new_placement n) as (m0 & E0 & H0 & _); [lia|].
  destruct (wm_run_placement n ops m0) as (m & E & Hm); [lia|done|].
  exists m0, m. split; [done|]. split; [done|]. unfold output_workspace, workspace_output.
  split_and!; [|apply Hm|apply Hm|apply Hm| |].
  - intros o1 o2 w H1 H2. apply (po_shown_owned _ _ Hm) in H1, H2. congruence.
  - intros o Ho w. rewrite (contains_spec n) by done. symmetry. by apply (po_owned _ _ Hm w o).
  - apply (contains_spec n); [done|]. apply Hm.
Qed.

Lemma workspace_placement_safe_witness :
  1 <= 4 <= 64 /\
  exists m0 m, WorkspaceManager_new 4 = Some m0 /\
    wm_run [OpAttach 7; OpAttach 9; OpActivate 2; OpDetach 9] m0 = Ret m /\
    (forall o1 o2 w, output_workspace m o1 = Some w -> output_workspace m o2 = Some w -> o1 = o2) /\
    (forall o, focused_output m = Some o -> output_workspace m o = Some (active_workspace m)) /\
    (forall o w, output_workspace m o = Some w -> workspace_output m w = Some o) /\
    (forall w o, workspace_output m w = Some o -> is_Some (output_workspace m o)) /\
    (forall o, focused_output m = Some o ->
       forall w, contains m w = true <-> is_Some (workspace_output m w)) /\
    contains m (active_workspace m) = true.
Proof.
  split; [lia|].
  apply (workspace_placement_safe 4 [OpAttach 7; OpAttach 9; OpActivate 2; OpDetach 9]). lia.
Defined.

(** Attaching a new output. The first output takes every
    workspace and shows the active one; a later output shows the lowest
    workspace no output shows, becomes its owner and leaves the placement of
    the other outputs and the focus alone; it is refused only when every
    workspace is already visible. *)
Theorem attach_output_spec (n : Z) m o :
  placement_ok n m -> n <= 64 -> output_workspace m o = None ->
  exists m' r, attach_output m o = Ret (m', r) /\
  match focused_output m with
  | None =>
      r = Some (active_workspace m) /\ focused_output m' = Some o /\
      output_workspace m' o = r /\
      forall w, 1 <= w <= n -> workspace_output m' w = Some o
  | Some f =>
      focused_output m' = Some f /\ active_workspace m' = active_workspace m /\
      (forall o', o' <> o -> output_workspace m' o' = output_workspace m o') /\
      output_workspace m' o = r /\
      match r with
      | Some w =>
          1 <= w <= n /\ is_visible m w = false /\
          (forall w', 1 <= w' < w -> is_visible m w' = true) /\ workspace_output m' w = Some o
      | None => m' = m /\ forall w, 1 <= w <= n -> is_visible m w = true
      end
  end.
Proof.
  intros Hm Hn Ho. unfold attach_output, output_workspace, workspace_output in *. rewrite Ho.
  pose proof (po_workspaces _ _ Hm) as Hws. pose proof (po_active _ _ Hm) as Hact.
  destruct (focused_output m) as [f|] eqn:Hf.
  - destruct (list_find _ _) as [[i w]|] eqn:Hfind.
    + rewrite bool_decide_true by (rewrite (po_focused _ _ Hm f Hf); eauto). eexists _, _. split; [done|]. apply list_find_Some in Hfind as (Hi & Hvis & Hmin). rewrite Hws in Hi, Hmin.
      pose proof Hi as Hwi. apply lookup_seqZ in Hwi as [-> Hwi].
      cbn. repeat split; try done; try lia.
      * intros o' Hne. by rewrite lookup_insert_ne.
      * apply lookup_insert_eq.
      * intros w' Hw'. destruct (is_visible m w') eqn:E; [done|].
        exfalso. apply (Hmin (Z.to_nat (w' - 1)) w'); [|lia|done].
        apply lookup_seqZ. lia.
      * apply lookup_insert_eq.
    + eexists _, _. split; [done|].
      apply list_find_None in Hfind. rewrite Hws, Forall_forall in Hfind.
      repeat split; try done. intros w Hw. destruct (is_visible m w) eqn:E; [done|].
      exfalso. apply (Hfind w); [apply elem_of_seqZ; lia|done].
  - eexists _, _. split; [done|]. cbn. repeat split; try done; [apply lookup_insert_eq|].
    intros w Hw. rewrite own_all_lookup, decide_True; [done|].
    rewrite Hws, elem_of_seqZ. lia.
Qed.

(** Four workspaces and one output, 7, showing the first of them. *)
Definition demo_manager : WorkspaceManager :=
  mkWorkspaceManager 1 [1; 2; 3; 4] [1; 2; 3; 4] None (Some 7) {[7 := 1]}
    (own_all [1; 2; 3; 4] 7 ∅).

Lemma demo_placement : placement_ok 4 demo_manager.
Proof.
  destruct (new_placement 4) as (m0 & E & H & _); [lia|].
  destruct (attach_placement 4 ltac:(lia) m0 7 H) as (m' & out & E' & H').
  vm_compute in E. injection E as <-. vm_compute in E'. injection E' as <- _. exact H'.
Qed.

Lemma attach_output_spec_witness :
  exists m' r, attach_output demo_manager 9 = Ret (m', r) /\
  focused_output m' = Some 7 /\ active_workspace m' = 1 /\
  (forall o', o' <> 9 -> output_workspace m' o' = output_workspace demo_manager o') /\
  output_workspace m' 9 = r /\
  match r with
  | Some w =>
      1 <= w <= 4 /\ is_visible demo_manager w = false /\
      (forall w', 1 <= w' < w -> is_visible demo_manager w' = true) /\ workspace_output m' w = Some 9
  | None => m' = demo_manager /\ forall w, 1 <= w <= 4 -> is_visible demo_manager w = true
  end.
Proof.
  exact (attach_output_spec 4 demo_manager 9 demo_placement ltac:(lia) eq_refl).
Defined.

(** Activating a workspace, on every branch. An unknown or
    already active workspace changes nothing. Otherwise the workspace becomes
    active and visible; when it is placed, focus moves to the output that
    owns it, the outcome is [FocusedOutput] exactly when that output already
    showed it, [Changed] names the workspace that output stopped showing, and
    no other output changes what it shows. *)
Theorem activate_spec (n : Z) m w :
  placement_ok n m ->
  exists m' out, activate m w = Ret (m', out) /\
  workspace_outputs m' = workspace_outputs m /\
  match out with
  | UnknownWorkspace => m' = m /\ ~ (1 <= w <= n)
  | NoChange => m' = m /\ active_workspace m = w
  | FocusedOutput previous current =>
      current = w /\ previous = active_workspace m /\ active_workspace m' = w /\
      output_workspaces m' = output_workspaces m /\
      exists o, focused_output m' = Some o /\ workspace_output m w = Some o /\
        output_workspace m o = Some w
  | Changed previous current =>
      current = w /\ active_workspace m' = w /\ previous <> w /\
      match workspace_output m w with
      | None => focused_output m' = None /\ previous = active_workspace m
      | Some o =>
          focused_output m' = Some o /\ output_workspace m o = Some previous /\
          output_workspace m' o = Some w /\
          forall o', o' <> o -> output_workspace m' o' = output_workspace m o'
      end
  end.
Proof.
  intros Hm. unfold activate, workspace_output, output_workspace.
  destruct (contains m w) eqn:Hc; cycle 1.
  { eexists _, _. split; [reflexivity|]. split; [done|]. split; [done|].
    intros H. apply (contains_spec n m w Hm) in H. congruence. }
  apply (contains_spec n m w Hm) in Hc.
  destruct (Z.eqb_spec (active_workspace m) w) as [|Hne]; [eexists _, _; eauto|].
  destruct (workspace_outputs m !! w) as [o|] eqn:Hw; cycle 1.
  { eexists _, _. split; [reflexivity|]. cbn. rewrite ?Hw. repeat split; try done.
    destruct (focused_output m) as [f|] eqn:Hf; [|done].
    apply (po_owned _ _ Hm w f Hf) in Hc. rewrite Hw in Hc. by destruct Hc. }
  destruct (po_owner_attached _ _ Hm w o Hw) as [sh Hsh]. rewrite Hsh. cbn [expect mbind res_bind].
  destruct (Z.eqb_spec sh w) as [->|Hshw]; (eexists _, _; split; [reflexivity|]); cbn; rewrite ?Hw.
  - repeat split; try done. eauto.
  - repeat split; try done; [apply lookup_insert_eq|].
    intros o' Hne'. by rewrite lookup_insert_ne.
Qed.

Lemma activate_spec_witness :
  placement_ok 4 demo_manager /\
  exists m' out, activate demo_manager 3 = Ret (m', out) /\ out = Changed 1 3 /\
    output_workspace m' 7 = Some 3.
Proof.
  split; [exact demo_placement|].
  destruct (activate_spec 4 demo_manager 3 demo_placement) as (m' & out & H & _).
  exists m', out. split; [exact H|]. vm_compute in H. injection H as <- <-. split; reflexivity.
Defined.

(** Detaching an attached output never panics; its
    workspaces move to one surviving output, every other owner and every
    other shown workspace stay, focus survives unless the focused output
    left (then the active workspace is what the new focus shows), and
    detaching the last output clears the placement. *)
Theorem detach_output_spec (n : Z) m o s :
  placement_ok n m -> output_workspace m o = Some s ->
  exists m', detach_output m o = Ret m' /\
  output_workspaces m' = delete o (output_workspaces m) /\
  match focused_output m' with
  | None => output_workspaces m' = ∅ /\ workspace_outputs m' = ∅ /\ active_workspace m' = active_workspace m
  | Some f =>
      f <> o /\ output_workspace m' f = Some (active_workspace m') /\
      (focused_output m <> Some o -> focused_output m' = focused_output m /\
                                     active_workspace m' = active_workspace m) /\
      forall w, workspace_output m' w =
        (if decide (workspace_output m w = Some o) then Some f else workspace_output m w)
  end.
Proof.
  intros Hm Ho. destruct (detach_placement n m o Hm) as (m' & E & Hm'). exists m'.
  split; [done|]. unfold output_workspace, workspace_output in *.
  assert (Hmap : forall fb w, ((fun owner => if owner =? o then fb else owner) <$> workspace_outputs m) !! w =
            (if decide (workspace_outputs m !! w = Some o) then Some fb else workspace_outputs m !! w)).
  { intros fb w. rewrite lookup_fmap. destruct (workspace_outputs m !! w) as [x|]; cbn; [|done].
    destruct (Z.eqb_spec x o) as [->|]; case_decide; congruence. }
  unfold detach_output in E. rewrite Ho in E.
  destruct (focused_output m) as [f|] eqn:Hf; cycle 1.
  { destruct (po_unfocused _ _ Hm Hf) as [E' _]. rewrite E' in Ho. done. }
  destruct (Z.eqb_spec f o) as [->|Hne].
  - rewrite bool_decide_true in E by done. destruct (btree_first_key _) as [fb|] eqn:Hfb.
    + apply btree_first_key_Some in Hfb as [[sh Hsh] _]. rewrite Hsh in E. cbn in E.
      injection E as <-. cbn. rewrite lookup_delete_Some in Hsh.
      repeat split; try done; try naive_solver. rewrite lookup_delete_ne; naive_solver.
    + apply btree_first_key_None in Hfb. injection E as <-. cbn. rewrite Hfb. done.
  - rewrite bool_decide_false in E by congruence. injection E as <-. cbn. rewrite Hf.
    repeat split; try done. rewrite lookup_delete_ne by done. by apply (po_focused _ _ Hm).
Qed.

Lemma detach_output_spec_witness :
  placement_ok 4 demo_manager /\ output_workspace demo_manager 7 = Some 1 /\
  exists m', detach_output demo_manager 7 = Ret m' /\ focused_output m' = None.
Proof.
  split; [exact demo_placement|]. split; [reflexivity|].
  destruct (detach_output_spec 4 demo_manager 7 1 demo_placement eq_refl) as (m' & H & _).
  exists m'. split; [exact H|]. vm_compute in H. injection H as <-. reflexivity.
Defined.

(** The EWMH index and the workspace id convert into each
    other without loss over the whole [u32] range (the index [u32::MAX] has
    no workspace), and the decoration policy survives its textual form. *)
Theorem workspace_codecs_roundtrip :
  (forall w, 1 <= w <= u32_max -> from_ewmh (to_ewmh w) = Some w) /\
  (forall i w, in_u32 i -> from_ewmh i = Some w <-> i < u32_max /\ to_ewmh w = i) /\
  (forall p, decoration_parse (decoration_as_str p) = Some p) /\
  (forall s p, decoration_parse s = Some p -> decoration_as_str p = s).
Proof.
  unfold from_ewmh, to_ewmh, checked_add, WorkspaceId_new, NonZero_new, in_u32.
  split; [|split; [|split]].
  - intros w Hw. destruct (checked _ _ _) eqn:E.
    + apply checked_Some in E as [-> _]. zcase. f_equal. lia.
    + apply checked_None in E. lia.
  - intros i w Hi. destruct (checked _ _ _) eqn:E.
    + apply checked_Some in E as [-> E]. zcase. split; [intros [= <-]; lia|intros [? ?]; f_equal; lia].
    + apply checked_None in E. split; [done|lia].
  - intros []; reflexivity.
  - intros s p. unfold decoration_parse.
    destruct (String.eqb_spec s "client_preference") as [->|]; [intros [= <-]; done|].
    destruct (String.eqb_spec s "server") as [->|]; [intros [= <-]; done|done].
Qed.
