(* ===== verification/LayoutGeometry.v ===== *)
(** * LayoutGeometry: logical rectangles and splits (src/wm/layout/geometry.rs)

    The rectangles of the tiling algorithm, the pixel boundary a ratio
    selects and the two children a boundary cuts a rectangle into. *)

From stdpp Require Import base decidable option tactics.
From Stdlib Require Import ZArith Lia.
From S2P Require Import Prelude F64.
Open Scope Z_scope.

Record LayoutRect : Type := mkLayoutRect {
  rx : Z;
  ry : Z;
  rwidth : Z;
  rheight : Z
}.

#[export] Instance LayoutRect_eq_dec : EqDecision LayoutRect.
Proof. solve_decision. Defined.

Definition LayoutRect_new (x y width height : Z) : option LayoutRect :=
  if (width =? 0) || (height =? 0) then None else Some (mkLayoutRect x y width height).

Definition rect_right (r : LayoutRect) : Z := sat_add_i32 (rx r) (Z.min (rwidth r) i32_max).
Definition rect_bottom (r : LayoutRect) : Z := sat_add_i32 (ry r) (Z.min (rheight r) i32_max).

Record LayoutPoint : Type := mkLayoutPoint { px : Z; py : Z }.

Inductive SplitAxis : Type :=
| Horizontal (** a left/right split *)
| Vertical (** a top/bottom split *).

#[export] Instance SplitAxis_eq_dec : EqDecision SplitAxis.
Proof. solve_decision. Defined.

Record SplitRatio : Type := mkSplitRatio { ratio_value : f64 }.

#[export] Instance SplitRatio_eq_dec : EqDecision SplitRatio.
Proof. solve_decision. Defined.

Definition SplitRatio_MIN : f64 := Eval vm_compute in f64_lit 5 100.
Definition SplitRatio_MAX : f64 := Eval vm_compute in f64_lit 95 100.
Definition SplitRatio_DEFAULT : SplitRatio := Eval vm_compute in mkSplitRatio (f64_lit 50 100).

Definition SplitRatio_new (value : f64) : option SplitRatio :=
  if f64_is_finite value && (f64_leb SplitRatio_MIN value && f64_leb value SplitRatio_MAX)
  then Some (mkSplitRatio value) else None.

(** The origin and the extent of a rectangle along an axis. *)
Definition axis_origin (axis : SplitAxis) (r : LayoutRect) : Z :=
  match axis with Horizontal => rx r | Vertical => ry r end.
Definition axis_extent (axis : SplitAxis) (r : LayoutRect) : Z :=
  match axis with Horizontal => rwidth r | Vertical => rheight r end.
Definition axis_end (axis : SplitAxis) (r : LayoutRect) : Z :=
  match axis with Horizontal => rect_right r | Vertical => rect_bottom r end.

Definition split_boundary (r : LayoutRect) (axis : SplitAxis) (ratio : SplitRatio) : Z :=
  let origin := axis_origin axis r in
  let extent := axis_extent axis r in
  let offset := f64_round (f64_mul (f64_of_Z extent) (ratio_value ratio)) in
  clampZ i32_min i32_max (sat_add_i64 origin (f64_as i64_min i64_max offset)).

Definition first_child (r : LayoutRect) (axis : SplitAxis) (boundary : Z) : option LayoutRect :=
  match axis with
  | Horizontal =>
      width ← checked_sub_i32 boundary (rx r) ≫= try_u32;
      LayoutRect_new (rx r) (ry r) width (rheight r)
  | Vertical =>
      height ← checked_sub_i32 boundary (ry r) ≫= try_u32;
      LayoutRect_new (rx r) (ry r) (rwidth r) height
  end.

Definition second_child (r : LayoutRect) (axis : SplitAxis) (boundary : Z) : option LayoutRect :=
  match axis with
  | Horizontal =>
      width ← checked_sub_i32 (rect_right r) boundary ≫= try_u32;
      LayoutRect_new boundary (ry r) width (rheight r)
  | Vertical =>
      height ← checked_sub_i32 (rect_bottom r) boundary ≫= try_u32;
      LayoutRect_new (rx r) boundary (rwidth r) height
  end.

(** ** Well-formed rectangles *)

(** A rectangle whose far edges are representable, so that [right] and
    [bottom] do not saturate: every work area of a real output. *)
Definition rect_fits (r : LayoutRect) : Prop :=
  in_i32 (rx r) /\ in_i32 (ry r) /\ 1 <= rwidth r /\ 1 <= rheight r /\
  rx r + rwidth r <= i32_max /\ ry r + rheight r <= i32_max /\
  rwidth r <= i32_max /\ rheight r <= i32_max.

Definition in_rect (r : LayoutRect) (x y : Z) : Prop :=
  rx r <= x < rx r + rwidth r /\ ry r <= y < ry r + rheight r.

(** [inner] lies inside [outer]. *)
Definition rect_within (inner outer : LayoutRect) : Prop :=
  rx outer <= rx inner /\ ry outer <= ry inner /\
  rx inner + rwidth inner <= rx outer + rwidth outer /\
  ry inner + rheight inner <= ry outer + rheight outer.

Definition rect_area (r : LayoutRect) : Z := rwidth r * rheight r.

Lemma rect_within_refl r : rect_within r r.
Proof. unfold rect_within. lia. Qed.

Lemma rect_within_trans a b c : rect_within a b -> rect_within b c -> rect_within a c.
Proof. unfold rect_within. lia. Qed.

Lemma rect_within_in a b x y : rect_within a b -> in_rect a x y -> in_rect b x y.
Proof. unfold rect_within, in_rect. lia. Qed.

Lemma rect_right_fits r : rect_fits r -> rect_right r = rx r + rwidth r.
Proof. unfold rect_fits, rect_right. int_lia. Qed.

Lemma rect_bottom_fits r : rect_fits r -> rect_bottom r = ry r + rheight r.
Proof. unfold rect_fits, rect_bottom. int_lia. Qed.

Lemma axis_end_fits axis r : rect_fits r -> axis_end axis r = axis_origin axis r + axis_extent axis r.
Proof. destruct axis; [apply rect_right_fits|apply rect_bottom_fits]. Qed.

Lemma LayoutRect_new_Some x y w h r :
  LayoutRect_new x y w h = Some r <-> w <> 0 /\ h <> 0 /\ r = mkLayoutRect x y w h.
Proof. unfold LayoutRect_new. zcase; naive_solver. Qed.

Lemma checked_extent_Some (a b e : Z) :
  checked_sub_i32 a b ≫= try_u32 = Some e <-> e = a - b /\ 0 <= e <= i32_max.
Proof.
  unfold checked_sub_i32, try_u32. destruct (checked i32_min i32_max (a - b)) as [v|] eqn:E; cbn.
  - apply checked_Some in E as [-> E]. rewrite checked_Some. unfold_int. lia.
  - apply checked_None in E. split; [done|]. unfold_int. lia.
Qed.

(** The children of a boundary strictly inside a rectangle. *)
Lemma children_spec r axis boundary f s :
  rect_fits r ->
  first_child r axis boundary = Some f -> second_child r axis boundary = Some s ->
  axis_origin axis r < boundary < axis_origin axis r + axis_extent axis r /\
  match axis with
  | Horizontal =>
      f = mkLayoutRect (rx r) (ry r) (boundary - rx r) (rheight r) /\
      s = mkLayoutRect boundary (ry r) (rx r + rwidth r - boundary) (rheight r)
  | Vertical =>
      f = mkLayoutRect (rx r) (ry r) (rwidth r) (boundary - ry r) /\
      s = mkLayoutRect (rx r) boundary (rwidth r) (ry r + rheight r - boundary)
  end.
Proof.
  intros Hr. unfold first_child, second_child.
  rewrite (rect_right_fits r Hr), (rect_bottom_fits r Hr).
  destruct axis; cbn [axis_origin axis_extent]; intros H1 H2;
    apply bind_Some in H1 as (w1 & E1 & H1); apply bind_Some in H2 as (w2 & E2 & H2);
    apply checked_extent_Some in E1, E2; apply LayoutRect_new_Some in H1, H2;
    destruct E1 as [-> ?], E2 as [-> ?], H1 as (? & ? & ->), H2 as (? & ? & ->);
    (split; [lia|done]).
Qed.

Lemma children_defined r axis boundary :
  rect_fits r -> axis_origin axis r < boundary < axis_origin axis r + axis_extent axis r ->
  exists f s, first_child r axis boundary = Some f /\ second_child r axis boundary = Some s.
Proof.
  intros Hr Hb. pose proof Hr as Hr'. unfold rect_fits in Hr'.
  assert (Hpos : forall x y w h, w <> 0 -> h <> 0 -> LayoutRect_new x y w h = Some (mkLayoutRect x y w h)).
  { intros. by apply LayoutRect_new_Some. }
  unfold first_child, second_child. rewrite (rect_right_fits r Hr), (rect_bottom_fits r Hr).
  destruct axis; cbn [axis_origin axis_extent] in Hb; eexists _, _; split;
    (eapply bind_Some; eexists; split;
     [apply checked_extent_Some; split; [reflexivity|unfold_int; lia]|apply Hpos; lia]).
Qed.

Lemma children_fit r axis boundary f s :
  rect_fits r ->
  first_child r axis boundary = Some f -> second_child r axis boundary = Some s ->
  rect_fits f /\ rect_fits s /\ rect_within f r /\ rect_within s r.
Proof.
  intros Hr H1 H2. destruct (children_spec r axis boundary f s Hr H1 H2) as [Hb Hc].
  unfold rect_fits, rect_within in *.
  destruct axis; destruct Hc as [-> ->]; cbn [axis_origin axis_extent rx ry rwidth rheight] in *;
    unfold_int; lia.
Qed.

(** Cutting a rectangle at a boundary. Both children exist
    exactly when the boundary is strictly inside, and they tile the parent:
    every pixel of the parent is in exactly one child, every pixel of a
    child is in the parent, and both children are again well formed. *)
Theorem split_children_tile r axis boundary :
  rect_fits r ->
  (axis_origin axis r < boundary < axis_end axis r <->
   exists f s, first_child r axis boundary = Some f /\ second_child r axis boundary = Some s) /\
  forall f s, first_child r axis boundary = Some f -> second_child r axis boundary = Some s ->
    rect_fits f /\ rect_fits s /\ rect_area f + rect_area s = rect_area r /\
    forall x y, (in_rect r x y <-> in_rect f x y \/ in_rect s x y) /\
                ~ (in_rect f x y /\ in_rect s x y).
Proof.
  intros Hr. rewrite (axis_end_fits axis r Hr). split.
  - split; [by apply children_defined|].
    intros (f & s & H1 & H2). by apply (children_spec r axis boundary f s).
  - intros f s H1 H2. destruct (children_spec r axis boundary f s Hr H1 H2) as [Hb Hc].
    destruct (children_fit r axis boundary f s Hr H1 H2) as (Hf & Hs & _).
    split; [done|]. split; [done|].
    unfold rect_area, in_rect.
    destruct axis; destruct Hc as [-> ->]; cbn [axis_origin axis_extent rx ry rwidth rheight] in *;
      (split; [lia|intros x y; lia]).
Qed.

Lemma split_children_tile_witness :
  rect_fits (mkLayoutRect 10 20 101 80) /\
  first_child (mkLayoutRect 10 20 101 80) Horizontal
    (split_boundary (mkLayoutRect 10 20 101 80) Horizontal SplitRatio_DEFAULT)
    = Some (mkLayoutRect 10 20 51 80) /\
  rect_area (mkLayoutRect 10 20 51 80) + rect_area (mkLayoutRect 61 20 50 80)
    = rect_area (mkLayoutRect 10 20 101 80).
Proof.
  assert (H : rect_fits (mkLayoutRect 10 20 101 80)) by (unfold rect_fits; cbn; int_lia).
  split; [exact H|]. split; [vm_compute; reflexivity|].
  apply (split_children_tile (mkLayoutRect 10 20 101 80) Horizontal 61 H);
    vm_compute; reflexivity.
Defined.
