(* ===== verification/Lattice.v ===== *)
(** * Lattice: legal window dimensions (src/wm/layout/lattice.rs)

    The ICCCM size hints allow the widths (and the heights)
    [anchor + k * step] inside [lower ..= upper]. The code answers alignment,
    membership and enumeration queries arithmetically; the theorems compare
    it with the set of legal values itself. *)

From stdpp Require Import base decidable option tactics.
From Stdlib Require Import ZArith Lia.
From S2P Require Import Prelude.
Open Scope Z_scope.

Record LegalDimensionLattice : Type := mkLattice {
  lower : Z;
  upper : Z;
  anchor : Z;
  step : Z
}.

Definition lattice_new (min max base increment : option Z) : option LegalDimensionLattice :=
  let lo := Z.max (default 1 min) (default 0 base) in
  let up := default u32_max max in
  if up <? lo then None
  else
    let l := mkLattice lo up (default lo base)
               (match increment with Some s => if 0 <? s then s else 1 | None => 1 end) in
    if anchor l <=? upper l then Some l else None.

Definition align_up (l : LegalDimensionLattice) (value : Z) : option Z :=
  let value := Z.max (Z.max value (lower l)) (anchor l) in
  let delta := sat_sub value (anchor l) in
  let steps := div_ceil delta (step l) in
  let aligned := sat_add u64_max (anchor l) (sat_mul u64_max steps (step l)) in
  if aligned <=? upper l then Some aligned else None.

Definition align_down (l : LegalDimensionLattice) (value : Z) : option Z :=
  let value := Z.min value (upper l) in
  if value <? anchor l then None
  else
    let steps := (value - anchor l) / step l in
    let aligned := sat_add u64_max (anchor l) (sat_mul u64_max steps (step l)) in
    if lower l <=? aligned then Some aligned else None.

Definition lattice_contains (l : LegalDimensionLattice) (value : Z) : bool :=
  (lower l <=? value) && (value <=? upper l) && (anchor l <=? value) &&
  ((value - anchor l) mod step l =? 0).

Definition lattice_first (l : LegalDimensionLattice) : option Z := align_up l (lower l).

Definition cardinality (l : LegalDimensionLattice) : Z :=
  match lattice_first l with
  | None => 0
  | Some first => (upper l - first) / step l + 1
  end.

Definition value_at (l : LegalDimensionLattice) (index : Z) : option Z :=
  first ← lattice_first l;
  offset ← checked_mul u64_max index (step l);
  value ← checked_add u64_max first offset;
  if value <=? upper l then Some value else None.

(** ** The legal values *)

(** What [lattice_new] establishes: [u32] bounds, an anchor at or below the
    lower one and a positive step. *)
Definition lattice_ok (l : LegalDimensionLattice) : Prop :=
  0 <= lower l <= upper l /\ upper l <= u32_max /\ 0 <= anchor l <= lower l /\ 1 <= step l <= u32_max.

(** The set the lattice denotes. *)
Definition legal (l : LegalDimensionLattice) (v : Z) : Prop :=
  lower l <= v <= upper l /\ exists k, 0 <= k /\ v = anchor l + k * step l.

Definition opt_in_u32 (o : option Z) : Prop := forall v, o = Some v -> in_u32 v.

Lemma lattice_new_ok min max base increment l :
  opt_in_u32 min -> opt_in_u32 max -> opt_in_u32 base -> opt_in_u32 increment ->
  lattice_new min max base increment = Some l ->
  lattice_ok l /\
  lower l = Z.max (default 1 min) (default 0 base) /\ upper l = default u32_max max /\
  anchor l = default (lower l) base /\ step l = match increment with Some s => Z.max 1 s | None => 1 end.
Proof.
  unfold opt_in_u32, in_u32. intros H1 H2 H3 H4 H. unfold lattice_new in H.
  destruct (Z.ltb_spec (default u32_max max) (Z.max (default 1 min) (default 0 base))); [done|].
  cbn [anchor upper] in H. destruct (Z.leb_spec (default (Z.max (default 1 min) (default 0 base)) base) (default u32_max max)); [|done].
  injection H as <-. unfold lattice_ok. cbn [lower upper anchor step].
  assert (Hmax : 0 <= default u32_max max <= u32_max)
    by (destruct max; cbn; [by apply H2|unfold u32_max; lia]).
  destruct min as [mi|], base as [ba|], increment as [inc|]; cbn [from_option id] in *;
    repeat match goal with H : forall v, Some _ = Some v -> _ |- _ => specialize (H _ eq_refl) end;
    try destruct (Z.ltb_spec 0 inc); unfold u32_max in *; repeat split; lia.
Qed.

Lemma legal_contains l v : lattice_ok l -> lattice_contains l v = true <-> legal l v.
Proof.
  unfold lattice_ok, legal, lattice_contains. intros Hl.
  rewrite !andb_true_iff, !Z.leb_le, Z.eqb_eq. split.
  - intros [[[? ?] ?] Hm]. split; [lia|].
    exists ((v - anchor l) / step l). split; [apply Z.div_pos; lia|].
    pose proof (Z.div_mod (v - anchor l) (step l) ltac:(lia)). lia.
  - intros [? (k & Hk & ->)]. repeat split; try nia.
    replace (anchor l + k * step l - anchor l) with (k * step l) by lia.
    apply Z.mod_mul. lia.
Qed.

Lemma align_up_spec l value :
  lattice_ok l -> in_u32 value ->
  match align_up l value with
  | Some v => legal l v /\ value <= v /\ forall v', legal l v' -> value <= v' -> v <= v'
  | None => forall v', legal l v' -> v' < value
  end.
Proof.
  intros Hl Hv. unfold lattice_ok, in_u32 in *. unfold align_up, sat_add, sat_mul, sat_sub.
  set (v0 := Z.max (Z.max value (lower l)) (anchor l)).
  assert (Hv0 : value <= v0 /\ lower l <= v0 /\ anchor l <= v0 <= u32_max) by (unfold u32_max in *; lia).
  replace (Z.max 0 (v0 - anchor l)) with (v0 - anchor l) by lia.
  destruct (div_ceil_spec (v0 - anchor l) (step l)) as [Hc Hc0]; [lia|lia|].
  set (k := div_ceil (v0 - anchor l) (step l)) in *.
  unfold u32_max, u64_max in *.
  rewrite (Z.min_r (2 ^ 64 - 1) (k * step l)) by lia.
  rewrite (Z.min_r (2 ^ 64 - 1)) by lia.
  assert (Hmin : forall v', legal l v' -> value <= v' -> anchor l + k * step l <= v').
  { intros v' [? (j & Hj & ->)] Hle. enough (k <= j) by nia.
    assert (v0 <= anchor l + j * step l) by (unfold v0; nia).
    destruct (Z.le_gt_cases k j); [done|]. nia. }
  destruct (Z.leb_spec (anchor l + k * step l) (upper l)).
  - split; [|split; [lia|done]]. split; [lia|]. exists k. lia.
  - intros v' Hv'. destruct (Z.le_gt_cases value v') as [Hle|]; [|done].
    specialize (Hmin v' Hv' Hle). destruct Hv' as [? _]. lia.
Qed.

Lemma align_down_spec l value :
  lattice_ok l -> in_u32 value ->
  match align_down l value with
  | Some v => legal l v /\ v <= value /\ forall v', legal l v' -> v' <= value -> v' <= v
  | None => forall v', legal l v' -> value < v'
  end.
Proof.
  intros Hl Hv. unfold lattice_ok, in_u32 in *. unfold align_down, sat_add, sat_mul.
  set (v0 := Z.min value (upper l)).
  destruct (Z.ltb_spec v0 (anchor l)) as [Hlt|Hge].
  { intros v' [? (k & Hk & ->)]. unfold v0 in Hlt. nia. }
  pose proof (Z.div_mod (v0 - anchor l) (step l) ltac:(lia)).
  pose proof (Z.mod_pos_bound (v0 - anchor l) (step l) ltac:(lia)).
  pose proof (Z.div_pos (v0 - anchor l) (step l) ltac:(lia) ltac:(lia)).
  set (k := (v0 - anchor l) / step l) in *.
  assert (Hv0 : v0 <= value /\ v0 <= upper l) by lia.
  unfold u32_max, u64_max in *.
  rewrite (Z.min_r (2 ^ 64 - 1) (k * step l)) by lia.
  rewrite (Z.min_r (2 ^ 64 - 1)) by lia.
  assert (Hmax : forall v', legal l v' -> v' <= value -> v' <= anchor l + k * step l).
  { intros v' [? (j & Hj & ->)] Hle. enough (j <= k) by nia.
    assert (anchor l + j * step l <= v0) by (unfold v0; lia).
    destruct (Z.le_gt_cases j k); [done|]. nia. }
  destruct (Z.leb_spec (lower l) (anchor l + k * step l)).
  - split; [|split; [lia|done]]. split; [lia|]. exists k. lia.
  - intros v' Hv'. destruct (Z.le_gt_cases v' value) as [Hle|]; [|lia].
    specialize (Hmax v' Hv' Hle). destruct Hv' as [? _]. lia.
Qed.

(** Two legal values differ by a whole number of steps. *)
Lemma legal_step l v w : lattice_ok l -> legal l v -> legal l w -> exists j, w = v + j * step l.
Proof.
  intros _ [_ (k & _ & ->)] [_ (j & _ & ->)]. exists (j - k). lia.
Qed.

Lemma first_spec l :
  lattice_ok l ->
  match lattice_first l with
  | Some v => legal l v /\ forall v', legal l v' -> v <= v'
  | None => forall v', ~ legal l v'
  end.
Proof.
  intros Hl. unfold lattice_first.
  assert (Hu : in_u32 (lower l)) by (unfold lattice_ok, in_u32 in *; lia).
  pose proof (align_up_spec l (lower l) Hl Hu) as H. destruct (align_up l (lower l)) as [v|].
  - destruct H as (Hv & _ & Hmin). split; [done|]. intros v' Hv'. apply Hmin; [done|]. apply Hv'.
  - intros v' Hv'. specialize (H v' Hv'). destruct Hv' as [? _]. lia.
Qed.

Lemma value_at_spec l i v :
  lattice_ok l -> 0 <= i ->
  value_at l i = Some v <->
  exists first, lattice_first l = Some first /\ v = first + i * step l /\ v <= upper l.
Proof.
  intros Hl Hi. unfold value_at, checked_mul, checked_add.
  pose proof (first_spec l Hl) as Hf. destruct (lattice_first l) as [f|] eqn:Ef; cbn [mbind option_bind];
    [|naive_solver].
  destruct Hf as [Hf _]. destruct Hf as [Hf _]. unfold lattice_ok, u32_max, u64_max in *.
  destruct (checked 0 _ (i * step l)) as [o|] eqn:E1; cbn [mbind option_bind].
  - apply checked_Some in E1 as [-> E1].
    destruct (checked 0 _ (f + i * step l)) as [o|] eqn:E2; cbn [mbind option_bind].
    + apply checked_Some in E2 as [-> E2]. destruct (Z.leb_spec (f + i * step l) (upper l)); naive_solver lia.
    + apply checked_None in E2. split; [done|]. intros (f' & [= <-] & ? & ?). lia.
  - apply checked_None in E1. split; [done|]. intros (f' & [= <-] & ? & ?). nia.
Qed.

Lemma cardinality_index l i first :
  lattice_ok l -> lattice_first l = Some first -> 0 <= i ->
  i < cardinality l <-> first + i * step l <= upper l.
Proof.
  intros Hl Hf Hi. unfold cardinality. rewrite Hf. unfold lattice_ok in Hl.
  pose proof (Z.div_mod (upper l - first) (step l) ltac:(lia)).
  pose proof (Z.mod_pos_bound (upper l - first) (step l) ltac:(lia)).
  split; intros; nia.
Qed.

Lemma value_at_legal l i v : lattice_ok l -> 0 <= i -> value_at l i = Some v -> legal l v.
Proof.
  intros Hl Hi H. apply (value_at_spec l i v Hl Hi) in H as (f & Hf & -> & Hu).
  pose proof (first_spec l Hl) as Hs. rewrite Hf in Hs. destruct Hs as [[Hb (k & Hk & E)] _].
  unfold lattice_ok in Hl. split; [nia|]. exists (k + i). nia.
Qed.

Lemma value_at_defined l i : lattice_ok l -> 0 <= i -> i < cardinality l <-> is_Some (value_at l i).
Proof.
  intros Hl Hi. destruct (lattice_first l) as [f|] eqn:Hf.
  - rewrite (cardinality_index l i f Hl Hf Hi). split.
    + intros Hu. exists (f + i * step l). apply value_at_spec; eauto.
    + intros [v Hv]. apply (value_at_spec l i v Hl Hi) in Hv as (f' & Hf' & -> & Hu). congruence.
  - unfold cardinality. rewrite Hf. split; [lia|].
    intros [v Hv]. apply (value_at_spec l i v Hl Hi) in Hv as (f' & Hf' & _). congruence.
Qed.

Lemma value_at_mono l i j v w :
  lattice_ok l -> 0 <= i -> i < j -> value_at l i = Some v -> value_at l j = Some w -> v < w.
Proof.
  intros Hl Hi Hij Hv Hw. apply value_at_spec in Hv as (f & Hf & -> & _); [|done|lia].
  apply value_at_spec in Hw as (f' & Hf' & -> & _); [|done|lia].
  assert (f' = f) by congruence. subst. unfold lattice_ok in Hl. nia.
Qed.

Lemma legal_value_at l v :
  lattice_ok l -> legal l v -> exists i, 0 <= i < cardinality l /\ value_at l i = Some v.
Proof.
  intros Hl Hv. pose proof (first_spec l Hl) as Hs.
  destruct (lattice_first l) as [f|] eqn:Hf; [|by destruct (Hs v)].
  destruct Hs as [Hlf Hmin]. specialize (Hmin v Hv).
  destruct (legal_step l f v Hl Hlf Hv) as [j ->].
  assert (0 <= j) by (unfold lattice_ok in Hl; nia). exists j.
  destruct Hv as [Hb _]. rewrite (cardinality_index l j f Hl Hf) by lia.
  split; [lia|]. apply value_at_spec; eauto with lia.
Qed.

(** Alignment finds the nearest legal dimension. For every
    request, [align_up] is the least legal value at or above it and
    [align_down] the greatest at or below it, each returning [None] exactly
    when there is none, and [contains] decides legality. *)
Theorem alignment_nearest_legal l value :
  lattice_ok l -> in_u32 value ->
  (forall v, lattice_contains l v = true <-> legal l v) /\
  match align_up l value with
  | Some v => legal l v /\ value <= v /\ forall v', legal l v' -> value <= v' -> v <= v'
  | None => forall v', legal l v' -> v' < value
  end /\
  match align_down l value with
  | Some v => legal l v /\ v <= value /\ forall v', legal l v' -> v' <= value -> v' <= v
  | None => forall v', legal l v' -> value < v'
  end.
Proof.
  intros Hl Hv. split; [intros v; by apply legal_contains|].
  split; [by apply align_up_spec|by apply align_down_spec].
Qed.

Lemma alignment_nearest_legal_witness :
  let l := mkLattice 33 116 8 3 in
  lattice_ok l /\ in_u32 33 /\ align_up l 33 = Some 35 /\ legal l 35 /\
  forall v', legal l v' -> 33 <= v' -> 35 <= v'.
Proof.
  assert (Hl : lattice_ok (mkLattice 33 116 8 3)) by (unfold lattice_ok; cbn; int_lia).
  assert (Hv : in_u32 33) by int_lia.
  destruct (alignment_nearest_legal (mkLattice 33 116 8 3) 33 Hl Hv) as (_ & H & _).
  split; [exact Hl|]. split; [exact Hv|]. split; [reflexivity|].
  vm_compute align_up in H. destruct H as (H1 & _ & H2). split; [exact H1|exact H2].
Defined.

(** Indexing a lattice enumerates its legal dimensions.
    [value_at] is defined exactly on the indices below [cardinality], is
    strictly increasing, and its values are exactly the legal dimensions. *)
Theorem lattice_enumeration l :
  lattice_ok l ->
  (forall i, 0 <= i -> i < cardinality l <-> is_Some (value_at l i)) /\
  (forall i j v w, 0 <= i -> i < j -> value_at l i = Some v -> value_at l j = Some w -> v < w) /\
  (forall v, legal l v <-> exists i, 0 <= i < cardinality l /\ value_at l i = Some v).
Proof.
  intros Hl. split; [intros i Hi; by apply value_at_defined|].
  split; [intros; by eapply value_at_mono|].
  intros v. split; [by apply legal_value_at|].
  intros (i & Hi & Hv). apply (value_at_legal l i); [done|lia|done].
Qed.

Lemma lattice_enumeration_witness :
  let l := mkLattice 8 20 8 3 in
  lattice_ok l /\ cardinality l = 5 /\ (exists v, value_at l 4 = Some v) /\
  (legal l 20 <-> exists i, 0 <= i < cardinality l /\ value_at l i = Some 20).
Proof.
  assert (Hl : lattice_ok (mkLattice 8 20 8 3)) by (unfold lattice_ok; cbn; int_lia).
  destruct (lattice_enumeration (mkLattice 8 20 8 3) Hl) as (H1 & _ & H2).
  split; [exact Hl|]. split; [reflexivity|]. split; [|exact (H2 20)].
  destruct (proj1 (H1 4 ltac:(lia)) ltac:(reflexivity)) as [v Hv]. exists v. exact Hv.
Defined.
