(* ===== verification/ExactAspect.v ===== *)
(** * ExactAspect: dimensions with an exact aspect ratio (src/wm/layout/exact_aspect.rs)

    A fixed aspect ratio [p / q] turns the two size lattices into two linear
    congruences in one multiplier, solved with a generalized Chinese
    remainder theorem; [from_f64] recovers [p / q] by continued fractions. *)

From stdpp Require Import base decidable option tactics.
From Stdlib Require Import ZArith Lia.
From S2P Require Import Prelude F64 Lattice.
Open Scope Z_scope.
Open Scope typhon_scope.

Record ExactAspectRatio : Type := mkAspect { numerator : Z; denominator : Z }.

(** ** Recovering the ratio from an [f64] *)

(** One convergent per iteration; [None] is both the [break] and the early
    [return None] of the loop, the code returning [None] after either. *)
Fixpoint convergents (fuel : nat) (value remainder : f64)
    (previous_numerator numerator previous_denominator denominator : Z) : option ExactAspectRatio :=
  match fuel with
  | O => None
  | S fuel =>
      let floor := f64_floor remainder in
      if f64_gtb floor (f64_of_Z u32_max) then None
      else
        let integer := f64_as 0 u128_max floor in
        m1 ← checked_mul u128_max integer numerator;
        next_numerator ← checked_add u128_max m1 previous_numerator;
        m2 ← checked_mul u128_max integer denominator;
        next_denominator ← checked_add u128_max m2 previous_denominator;
        if (u32_max <? next_numerator) || (u32_max <? next_denominator) then None
        else
          let error := f64_abs (f64_sub value
                         (f64_div (f64_of_Z next_numerator) (f64_of_Z next_denominator))) in
          let tolerance := f64_mul (f64_lit 1 (10 ^ 14)) (f64_max (f64_abs value) (f64_of_Z 1)) in
          if f64_leb error tolerance then
            n ← try_u32 next_numerator;
            d ← try_u32 next_denominator;
            Some (mkAspect n d)
          else
            let fractional := f64_sub remainder (f64_of_Z integer) in
            if f64_leb (f64_abs fractional) f64_epsilon then None
            else convergents fuel value (f64_div (f64_of_Z 1) fractional)
                   numerator next_numerator denominator next_denominator
  end.

Definition from_f64 (value : f64) : option ExactAspectRatio :=
  if negb (f64_is_finite value) || f64_leb value f64_zero then None
  else convergents 64 value value 0 1 1 0.

(** ** Arithmetic *)

Definition ceil_div (value divisor : Z) : Z :=
  value / divisor + (if value mod divisor =? 0 then 0 else 1).

(** Euclid's loop; 130 iterations exhaust any pair of [u64] values. *)
Fixpoint gcd_loop (fuel : nat) (left right : Z) : res Empty_set Z :=
  match fuel with
  | O => NoFuel
  | S fuel => if right =? 0 then Ret left else gcd_loop fuel right (left mod right)
  end.
Definition euclid_fuel : nat := 130.
Definition gcd (left right : Z) : res Empty_set Z := gcd_loop euclid_fuel left right.

(** The extended loop of [mod_inverse]; on [i128] the quotient truncates. *)
Fixpoint inverse_loop (fuel : nat) (old_r r old_s s : Z) : res Empty_set (Z * Z) :=
  match fuel with
  | O => NoFuel
  | S fuel =>
      if r =? 0 then Ret (old_r, old_s)
      else
        let quotient := Z.quot old_r r in
        inverse_loop fuel r (old_r - quotient * r) s (old_s - quotient * s)
  end.

Definition mod_inverse (value modulus : Z) : res Empty_set (option Z) :=
  if modulus =? 1 then Ret (Some 0)
  else
    '(old_r, old_s) ← inverse_loop euclid_fuel value modulus 1 0;
    Ret (if old_r =? 1 then Some (old_s mod modulus) else None).

Definition linear_congruence (coefficient residue modulus : Z) : res Empty_set (option (Z * Z)) :=
  if modulus =? 1 then Ret (Some (0, 1))
  else
    divisor ← gcd coefficient modulus;
    if negb (residue mod divisor =? 0) then Ret None
    else
      let coefficient := coefficient / divisor in
      let residue := residue / divisor in
      let modulus := modulus / divisor in
      inverse ←? mod_inverse (coefficient mod modulus) modulus;
      Ret (Some (residue * inverse mod modulus, modulus)).

Definition combine_congruences (left right : Z * Z) : res Empty_set (option (Z * Z)) :=
  let '(left_residue, left_modulus) := left in
  let '(right_residue, right_modulus) := right in
  if left_modulus =? 1 then Ret (Some (right_residue mod right_modulus, right_modulus))
  else if right_modulus =? 1 then Ret (Some (left_residue mod left_modulus, left_modulus))
  else
    divisor ← gcd left_modulus right_modulus;
    let difference := right_residue - left_residue in
    if negb (Z.rem difference divisor =? 0) then Ret None
    else
      let reduced_modulus := right_modulus / divisor in
      step ←? (if reduced_modulus =? 1 then Ret (Some 0)
               else
                 inverse ←? mod_inverse ((left_modulus / divisor) mod reduced_modulus) reduced_modulus;
                 let difference := Z.quot difference divisor in
                 let difference := difference mod reduced_modulus in
                 Ret (Some (difference * inverse mod reduced_modulus)));
      let modulus := left_modulus / divisor * right_modulus in
      let residue := (left_residue + left_modulus * step) mod modulus in
      Ret (residue ← try_u64 residue; modulus ← try_u64 modulus; Some (residue, modulus)).

Definition largest_congruent_at_or_below (lower upper residue modulus : Z) : option Z :=
  if upper <? lower then None
  else
    let residue := residue mod modulus in
    if upper <? residue then None
    else
      let candidate := residue + (upper - residue) / modulus * modulus in
      if lower <=? candidate then Some candidate else None.

(** The probe counter is threaded as in the code; a zero numerator or
    denominator divides by zero, which panics. *)
Definition largest_exact_aspect_pair (widths heights : LegalDimensionLattice) (ratio : ExactAspectRatio)
    (probes : Z) : Z * res Empty_set (option (Z * Z)) :=
  let probes := sat_add u64_max probes 1 in
  let p := numerator ratio in
  let q := denominator ratio in
  if (p =? 0) || (q =? 0) then (probes, Panic)
  else
    let low := Z.max (Z.max (ceil_div (lower widths) p) (ceil_div (lower heights) q)) 1 in
    let up := Z.min (upper widths / p) (upper heights / q) in
    if up <? low then (probes, Ret None)
    else
      match linear_congruence p (anchor widths mod step widths) (step widths) with
      | Ret (Some width_congruence) =>
          let probes := sat_add u64_max probes 1 in
          match linear_congruence q (anchor heights mod step heights) (step heights) with
          | Ret (Some height_congruence) =>
              let probes := sat_add u64_max probes 1 in
              match combine_congruences width_congruence height_congruence with
              | Ret (Some (residue, modulus)) =>
                  let probes := sat_add u64_max probes 1 in
                  (probes,
                   Ret (k ← largest_congruent_at_or_below low up residue modulus;
                        width ← try_u32 (k * p);
                        height ← try_u32 (k * q);
                        Some (width, height)))
              | Ret None => (probes, Ret None)
              | Fail e => (probes, Fail e)
              | Panic => (probes, Panic)
              | NoFuel => (probes, NoFuel)
              end
          | Ret None => (probes, Ret None)
          | Fail e => (probes, Fail e)
          | Panic => (probes, Panic)
          | NoFuel => (probes, NoFuel)
          end
      | Ret None => (probes, Ret None)
      | Fail e => (probes, Fail e)
      | Panic => (probes, Panic)
      | NoFuel => (probes, NoFuel)
      end.

Example aspect_16_9 : from_f64 (f64_lit 16 9) = Some (mkAspect 16 9).
Proof. vm_compute. reflexivity. Qed.

Example aspect_pair_9 :
  (largest_exact_aspect_pair (mkLattice 1 20 1 4) (mkLattice 3 20 3 6) (mkAspect 1 1) 0).2
  = Ret (Some (9, 9)).
Proof. vm_compute. reflexivity. Qed.

(** ** The Euclidean loops *)

(** Both loops decrease [log2 left + log2 right] once [right <= left]. *)
Lemma euclid_measure a b :
  0 < b <= a -> 0 < a mod b -> Z.log2 b + Z.log2 (a mod b) < Z.log2 a + Z.log2 b.
Proof.
  intros Hb Hm. enough (Z.log2 (a mod b) < Z.log2 a) by lia.
  pose proof (Z.div_mod a b ltac:(lia)). pose proof (Z.mod_pos_bound a b ltac:(lia)).
  assert (1 <= a / b) by (apply Z.div_le_lower_bound; lia).
  assert (a mod b * 2 <= a) by nia.
  pose proof (Z.log2_le_mono (a mod b * 2) a ltac:(lia)).
  rewrite Z.mul_comm, Z.log2_double in H3 by lia. lia.
Qed.

Lemma gcd_loop_spec fuel a b :
  0 <= a -> 0 <= b ->
  (0 < b -> b <= a -> Z.log2 a + Z.log2 b + 2 <= Z.of_nat fuel) ->
  (a < b -> Z.log2 a + Z.log2 b + 3 <= Z.of_nat fuel) -> (1 <= fuel)%nat ->
  gcd_loop fuel a b = Ret (Z.gcd a b).
Proof.
  revert a b. induction fuel as [|fuel IH]; intros a b Ha Hb H1 H2 H3; [lia|].
  cbn [gcd_loop]. destruct (Z.eqb_spec b 0) as [->|Hb0].
  { rewrite Z.gcd_0_r, Z.abs_eq by lia. done. }
  pose proof (Z.mod_pos_bound a b ltac:(lia)) as Hm.
  pose proof (Z.log2_nonneg a). pose proof (Z.log2_nonneg b). pose proof (Z.log2_nonneg (a mod b)).
  rewrite IH.
  - f_equal. rewrite (Z.gcd_comm b), Z.gcd_mod by lia. apply Z.gcd_comm.
  - lia.
  - lia.
  - intros Hp Hle. destruct (Z.le_gt_cases b a) as [Hba|Hba].
    + pose proof (euclid_measure a b ltac:(lia) Hp). lia.
    + rewrite Z.mod_small in * by lia. lia.
  - lia.
  - destruct (Z.le_gt_cases b a); lia.
Qed.

Lemma log2_u64 a : 0 <= a <= u64_max -> Z.log2 a <= 63.
Proof.
  intros Ha. destruct (Z.eq_dec a 0) as [->|]; [cbn; lia|].
  assert (Z.log2 a < 64); [|lia]. apply Z.log2_lt_pow2; unfold u64_max in Ha; lia.
Qed.

Lemma gcd_spec a b : 0 <= a <= u64_max -> 0 <= b <= u64_max -> gcd a b = Ret (Z.gcd a b).
Proof.
  intros Ha Hb. pose proof (log2_u64 a Ha). pose proof (log2_u64 b Hb).
  unfold gcd. apply gcd_loop_spec; unfold euclid_fuel; lia.
Qed.

(** The extended loop keeps [old_r = old_s * value] and [r = s * value]
    modulo [m], and ends with the gcd. *)
Lemma inverse_loop_spec fuel value m old_r r old_s s :
  0 <= old_r -> 0 <= r ->
  (0 < r -> r <= old_r -> Z.log2 old_r + Z.log2 r + 2 <= Z.of_nat fuel) ->
  (old_r < r -> Z.log2 old_r + Z.log2 r + 3 <= Z.of_nat fuel) -> (1 <= fuel)%nat ->
  (m | old_s * value - old_r) -> (m | s * value - r) ->
  exists x, inverse_loop fuel old_r r old_s s = Ret (Z.gcd old_r r, x) /\
            (m | x * value - Z.gcd old_r r).
Proof.
  revert old_r r old_s s. induction fuel as [|fuel IH]; intros a b sa sb Ha Hb H1 H2 H3 Da Db; [lia|].
  cbn [inverse_loop]. destruct (Z.eqb_spec b 0) as [->|Hb0].
  { rewrite Z.gcd_0_r, Z.abs_eq by lia. eauto. }
  pose proof (Z.mod_pos_bound a b ltac:(lia)) as Hm.
  pose proof (Z.log2_nonneg a). pose proof (Z.log2_nonneg b). pose proof (Z.log2_nonneg (a mod b)).
  rewrite Z.quot_div_nonneg by lia.
  replace (a - a / b * b) with (a mod b) by (pose proof (Z.div_mod a b ltac:(lia)); lia).
  destruct (IH b (a mod b) sb (sa - a / b * sb)) as (x & Hx & Dx).
  - lia.
  - lia.
  - intros Hp Hle. destruct (Z.le_gt_cases b a) as [Hba|Hba].
    + pose proof (euclid_measure a b ltac:(lia) Hp). lia.
    + rewrite Z.mod_small in * by lia. lia.
  - lia.
  - destruct (Z.le_gt_cases b a); lia.
  - done.
  - replace ((sa - a / b * sb) * value - a mod b)
      with ((sa * value - a) - a / b * (sb * value - b))
      by (pose proof (Z.div_mod a b ltac:(lia)); lia).
    apply Z.divide_sub_r; [done|]. by apply Z.divide_mul_r.
  - exists x. assert (E : Z.gcd b (a mod b) = Z.gcd a b).
    { rewrite (Z.gcd_comm b), Z.gcd_mod by lia. apply Z.gcd_comm. }
    rewrite E in *. done.
Qed.

Lemma mod_inverse_spec value modulus :
  0 <= value < modulus -> modulus <= u64_max -> Z.gcd value modulus = 1 ->
  exists x, mod_inverse value modulus = Ret (Some x) /\ 0 <= x < modulus /\
            (modulus | value * x - 1).
Proof.
  intros Hv Hm Hg. unfold mod_inverse.
  destruct (Z.eqb_spec modulus 1) as [->|Hm1].
  { exists 0. repeat split; try lia. apply Z.divide_1_l. }
  pose proof (log2_u64 value ltac:(lia)). pose proof (log2_u64 modulus ltac:(lia)).
  destruct (inverse_loop_spec euclid_fuel value modulus value modulus 1 0) as (x & Hx & Dx).
  - lia.
  - lia.
  - unfold euclid_fuel. lia.
  - unfold euclid_fuel. lia.
  - unfold euclid_fuel. lia.
  - replace (1 * value - value) with 0 by lia. apply Z.divide_0_r.
  - exists (-1). lia.
  - rewrite Hg in *. rewrite Hx. cbn. exists (x mod modulus). split; [done|].
    split; [apply Z.mod_pos_bound; lia|].
    destruct Dx as [j Hj]. exists (j - x / modulus * value).
    pose proof (Z.div_mod x modulus ltac:(lia)). nia.
Qed.

(** ** Congruences *)

Lemma mod_eq_divide a r m : 0 <= r < m -> a mod m = r <-> (m | a - r).
Proof.
  intros Hr. split.
  - intros <-. exists (a / m). pose proof (Z.div_mod a m ltac:(lia)). lia.
  - intros [k Hk]. replace a with (r + k * m) by lia.
    rewrite Z.mod_add by lia. apply Z.mod_small. lia.
Qed.

(** A solved congruence: [k] satisfies [P] exactly when [k mod m = r]. *)
Definition solved (o : option (Z * Z)) (bound : Z) (P : Z -> Prop) : Prop :=
  match o with
  | Some (r, m) => 1 <= m <= bound /\ 0 <= r < m /\ forall k, P k <-> k mod m = r
  | None => forall k, ~ P k
  end.

(** Dividing a congruence by the gcd and multiplying by an inverse. *)
Lemma divide_inverse c r m x k :
  1 <= m -> (m | c * x - 1) -> (m | c * k - r) <-> (m | k - r * x).
Proof.
  intros Hm [j Hj]. split; intros [i Hi].
  - exists (x * i - k * j).
    assert (k * (c * x - 1) = k * (j * m)) by (by rewrite Hj).
    assert (x * (c * k - r) = x * (i * m)) by (by rewrite Hi). lia.
  - exists (c * i + r * j).
    assert (r * (c * x - 1) = r * (j * m)) by (by rewrite Hj).
    assert (c * (k - r * x) = c * (i * m)) by (by rewrite Hi). lia.
Qed.

Lemma gcd_factor a b :
  1 <= a -> 1 <= b ->
  exists d a' b', Z.gcd a b = d /\ 1 <= d /\ a = a' * d /\ b = b' * d /\ Z.gcd a' b' = 1 /\
    1 <= a' <= a /\ 1 <= b' <= b.
Proof.
  intros Ha Hb. exists (Z.gcd a b).
  assert (Hd : 1 <= Z.gcd a b).
  { pose proof (Z.gcd_nonneg a b). destruct (Z.eq_dec (Z.gcd a b) 0) as [E|]; [|lia].
    apply Z.gcd_eq_0_l in E. lia. }
  destruct (Z.gcd_divide_l a b) as [a' Ha']. destruct (Z.gcd_divide_r a b) as [b' Hb'].
  exists a', b'. repeat split; try done; try nia.
  rewrite <- (Z.div_mul a' (Z.gcd a b)), <- (Z.div_mul b' (Z.gcd a b)), <- Ha', <- Hb' by lia.
  apply Z.gcd_div_gcd; lia.
Qed.

Lemma linear_congruence_spec c r m :
  1 <= c <= u64_max -> 0 <= r < m -> m <= u64_max ->
  exists o, linear_congruence c r m = Ret o /\ solved o m (fun k => (c * k) mod m = r).
Proof.
  intros Hc Hr Hm. unfold linear_congruence.
  destruct (Z.eqb_spec m 1) as [->|Hm1].
  { eexists. split; [reflexivity|]. cbn. repeat split; try lia; rewrite !Z.mod_1_r; lia. }
  rewrite gcd_spec by lia. cbn [mbind res_bind].
  destruct (gcd_factor c m ltac:(lia) ltac:(lia)) as (d & c' & m' & Ed & Hd & Ec & Em & Hg & Hc1 & Hm'1).
  rewrite Ed.
  destruct (Z.eqb_spec (r mod d) 0) as [Hrd|Hrd]; cbn [negb].
  - apply Z.mod_divide in Hrd as [r' Hr']; [|lia].
    rewrite Ec, Em, Hr', !Z.div_mul by lia. rewrite <- Em, <- Hr'.
    destruct (mod_inverse_spec (c' mod m') m') as (x & -> & Hx & Dx).
    + apply Z.mod_pos_bound. lia.
    + lia.
    + rewrite Z.gcd_mod by lia. by rewrite Z.gcd_comm.
    + cbn [obind]. eexists. split; [reflexivity|]. cbn.
      split; [lia|]. split; [apply Z.mod_pos_bound; lia|].
      assert (Dx' : (m' | c' * x - 1)).
      { destruct Dx as [j Hj]. exists (j + c' / m' * x).
        pose proof (Z.div_mod c' m' ltac:(lia)). nia. }
      intros k. rewrite (mod_eq_divide _ r m Hr).
      rewrite (mod_eq_divide k _ m') by (apply Z.mod_pos_bound; lia).
      transitivity (m' | c' * k - r').
      { replace (c' * d * k - r) with ((c' * k - r') * d) by nia. rewrite Em at 1.
        apply Z.mul_divide_cancel_r. lia. }
      rewrite (divide_inverse c' r' m' x k) by (lia || done).
      pose proof (Z.div_mod (r' * x) m' ltac:(lia)) as Hdm.
      split; intros [i Hi]; [exists (i + r' * x / m')|exists (i - r' * x / m')]; nia.
  - eexists. split; [reflexivity|]. cbn. intros k Hk. apply Hrd.
    apply Z.mod_divide; [lia|]. apply (mod_eq_divide _ r m Hr) in Hk as [j Hj].
    exists (c' * k - j * m'). nia.
Qed.

(** The multiplier of the left modulus that reaches the right residue. *)
Definition crt_step (l' r' t : Z) : res Empty_set (option Z) :=
  if r' =? 1 then Ret (Some 0)
  else obind (mod_inverse (l' mod r') r') (fun inverse => Ret (Some (t mod r' * inverse mod r'))).

Lemma crt_step_spec l' r' t :
  1 <= l' -> 1 <= r' <= u64_max -> Z.gcd l' r' = 1 ->
  exists s, crt_step l' r' t = Ret (Some s) /\ 0 <= s < r' /\ (r' | l' * s - t).
Proof.
  intros Hl Hr Hg. unfold crt_step. destruct (Z.eqb_spec r' 1) as [E1|E1].
  { exists 0. repeat split; try lia. rewrite E1. apply Z.divide_1_l. }
  destruct (mod_inverse_spec (l' mod r') r') as (x & -> & Hx & Dx).
  - apply Z.mod_pos_bound. lia.
  - lia.
  - rewrite Z.gcd_mod, Z.gcd_comm by lia. done.
  - cbn [obind]. eexists. split; [reflexivity|]. split; [apply Z.mod_pos_bound; lia|].
    destruct Dx as [j Hj].
    pose proof (Z.div_mod l' r' ltac:(lia)) as H1. pose proof (Z.div_mod t r' ltac:(lia)) as H2.
    pose proof (Z.div_mod (t mod r' * x) r' ltac:(lia)) as H3.
    set (lq := l' / r') in *. set (lm' := l' mod r') in *. set (tq := t / r') in *.
    set (tm := t mod r') in *. set (y := (tm * x) mod r') in *. set (yq := tm * x / r') in *.
    exists (lq * y + tm * j - lm' * yq - tq).
    assert (tm * (lm' * x - 1) = tm * (j * r')) by (by rewrite Hj).
    replace l' with (r' * lq + lm') at 1 by lia. replace t with (r' * tq + tm) at 1 by lia.
    replace y with (tm * x - r' * yq) by lia. lia.
Qed.

(** One common solution [x0] and the lcm describe all the solutions. *)
Lemma common_solutions lr lm rr rm x0 k :
  0 <= lr < lm -> 0 <= rr < rm -> (lm | x0 - lr) -> (rm | x0 - rr) ->
  (k mod lm = lr /\ k mod rm = rr) <-> k mod Z.lcm lm rm = x0 mod Z.lcm lm rm.
Proof.
  intros Hlr Hrr Dl Dr.
  assert (HL : 0 < Z.lcm lm rm).
  { pose proof (Z.lcm_nonneg lm rm). destruct (Z.eq_dec (Z.lcm lm rm) 0) as [E|]; [|lia].
    apply Z.lcm_eq_0 in E. lia. }
  rewrite (mod_eq_divide k lr lm Hlr), (mod_eq_divide k rr rm Hrr).
  rewrite (mod_eq_divide k (x0 mod _)) by (apply Z.mod_pos_bound; lia).
  transitivity (Z.lcm lm rm | k - x0).
  - rewrite Z.lcm_divide_iff.
    split; intros [D1 D2]; split.
    + replace (k - x0) with ((k - lr) - (x0 - lr)) by lia. by apply Z.divide_sub_r.
    + replace (k - x0) with ((k - rr) - (x0 - rr)) by lia. by apply Z.divide_sub_r.
    + replace (k - lr) with ((k - x0) + (x0 - lr)) by lia. by apply Z.divide_add_r.
    + replace (k - rr) with ((k - x0) + (x0 - rr)) by lia. by apply Z.divide_add_r.
  - pose proof (Z.div_mod x0 (Z.lcm lm rm) ltac:(lia)) as Hdm.
    split; intros [i Hi]; [exists (i + x0 / Z.lcm lm rm)|exists (i - x0 / Z.lcm lm rm)]; lia.
Qed.

Lemma combine_congruences_spec lr lm rr rm :
  1 <= lm <= u32_max -> 0 <= lr < lm -> 1 <= rm <= u32_max -> 0 <= rr < rm ->
  exists o, combine_congruences (lr, lm) (rr, rm) = Ret o /\
            solved o u64_max (fun k => k mod lm = lr /\ k mod rm = rr).
Proof.
  intros Hlm Hlr Hrm Hrr. unfold combine_congruences.
  assert (Hu : u32_max * u32_max <= u64_max) by (unfold u32_max, u64_max; lia).
  destruct (Z.eqb_spec lm 1) as [->|Hlm1].
  { eexists. split; [reflexivity|]. cbn. rewrite (Z.mod_small rr) by lia.
    split; [nia|]. split; [lia|]. intros k. rewrite Z.mod_1_r. split; [tauto|]. intros; split; [lia|done]. }
  destruct (Z.eqb_spec rm 1) as [->|Hrm1].
  { eexists. split; [reflexivity|]. cbn. rewrite (Z.mod_small lr) by lia.
    split; [nia|]. split; [lia|]. intros k. rewrite Z.mod_1_r. split; [tauto|]. intros; split; [done|lia]. }
  rewrite gcd_spec by nia. cbn [mbind res_bind].
  destruct (gcd_factor lm rm ltac:(lia) ltac:(lia)) as (d & l' & r' & Ed & Hd & El & Er & Hg & Hl1 & Hr1).
  assert (Ql : lm / d = l') by (rewrite El; apply Z.div_mul; lia).
  assert (Qr : rm / d = r') by (rewrite Er; apply Z.div_mul; lia).
  rewrite Ed, Ql, Qr.
  destruct (Z.eqb_spec (Z.rem (rr - lr) d) 0) as [Hdd|Hdd]; cbn [negb].
  - apply Z.rem_divide in Hdd as [t Ht]; [|lia].
    rewrite Ht, Z.quot_mul by lia. fold (crt_step l' r' t).
    destruct (crt_step_spec l' r' t) as (s & -> & Hs & [j Hj]); [lia|nia|done|]. cbn [obind].
    assert (Hlcm : Z.lcm lm rm = l' * rm).
    { unfold Z.lcm. rewrite Ed, Qr, Z.abs_eq by nia. nia. }
    rewrite <- Hlcm.
    assert (Hmod : 1 <= Z.lcm lm rm <= u64_max) by nia.
    pose proof (Z.mod_pos_bound (lr + lm * s) (Z.lcm lm rm) ltac:(lia)) as Hx0.
    eexists. split; [reflexivity|]. unfold try_u64.
    rewrite !checked_in by lia.
    cbn. split; [lia|]. split; [lia|]. intros k. apply common_solutions; try done.
    + exists s. lia.
    + exists j. rewrite El, Er.
      assert (d * (l' * s - t) = d * (j * r')) by (by rewrite Hj). lia.
  - eexists. split; [reflexivity|]. cbn. intros k [H1 H2]. apply Hdd.
    apply Z.rem_divide; [lia|].
    apply (mod_eq_divide k lr lm Hlr) in H1 as [a Ha]. apply (mod_eq_divide k rr rm Hrr) in H2 as [b Hb].
    exists (a * l' - b * r'). nia.
Qed.

Lemma largest_congruent_spec lo up r m :
  0 <= lo -> 1 <= m -> 0 <= r < m ->
  match largest_congruent_at_or_below lo up r m with
  | Some k => lo <= k <= up /\ k mod m = r /\ forall k', lo <= k' <= up -> k' mod m = r -> k' <= k
  | None => forall k', lo <= k' <= up -> k' mod m <> r
  end.
Proof.
  intros Hlo Hm Hr. unfold largest_congruent_at_or_below.
  rewrite (Z.mod_small r) by lia.
  destruct (Z.ltb_spec up lo); [intros; lia|].
  destruct (Z.ltb_spec up r).
  { intros k' Hk'. rewrite Z.mod_small by lia. lia. }
  pose proof (Z.div_mod (up - r) m ltac:(lia)). pose proof (Z.mod_pos_bound (up - r) m ltac:(lia)).
  set (j := (up - r) / m) in *.
  assert (Hmax : forall k', lo <= k' <= up -> k' mod m = r -> k' <= r + j * m).
  { intros k' Hk' Hmk. pose proof (Z.div_mod k' m ltac:(lia)).
    assert (k' / m <= j) by (apply Z.div_le_lower_bound; lia). nia. }
  destruct (Z.leb_spec lo (r + j * m)).
  - split; [lia|]. split; [|done]. rewrite Z.mod_add by lia. apply Z.mod_small. lia.
  - intros k' Hk' Hmk. specialize (Hmax k' Hk' Hmk). lia.
Qed.

(** ** The exact aspect pair *)

Lemma ceil_div_le v d k : 1 <= d -> ceil_div v d <= k <-> v <= k * d.
Proof.
  intros Hd. unfold ceil_div. pose proof (Z.div_mod v d ltac:(lia)).
  pose proof (Z.mod_pos_bound v d ltac:(lia)).
  destruct (Z.eqb_spec (v mod d) 0); nia.
Qed.

Lemma div_ge v d k : 1 <= d -> k <= v / d <-> k * d <= v.
Proof.
  intros Hd. pose proof (Z.div_mod v d ltac:(lia)). pose proof (Z.mod_pos_bound v d ltac:(lia)). nia.
Qed.

(** A dimension in range is legal exactly when it has the anchor's residue. *)
Lemma legal_residue l v :
  lattice_ok l -> legal l v <-> lower l <= v <= upper l /\ v mod step l = anchor l mod step l.
Proof.
  unfold lattice_ok, legal. intros Hl. split.
  - intros [Hb (k & Hk & ->)]. split; [done|]. apply Z.mod_add. lia.
  - intros [Hb Hm]. split; [done|]. exists (v / step l - anchor l / step l).
    pose proof (Z.div_mod v (step l) ltac:(lia)). pose proof (Z.div_mod (anchor l) (step l) ltac:(lia)).
    split; [|nia]. enough (anchor l / step l <= v / step l) by lia. apply Z.div_le_mono; lia.
Qed.

Section ExactPair.
Context (W H : LegalDimensionLattice) (p q : Z).
Context (HW : lattice_ok W) (HH : lattice_ok H).
Context (Hp : 1 <= p <= u32_max) (Hq : 1 <= q <= u32_max) (Hpq : Z.gcd p q = 1).

(** The legal pairs with the exact ratio. *)
Definition exact_pair (w h : Z) : Prop := legal W w /\ legal H h /\ w * q = h * p /\ 1 <= w.

(** They are the multiples [(k * p, k * q)] of the reduced ratio. *)
Lemma exact_pair_multiple w h :
  exact_pair w h <-> exists k, w = k * p /\ h = k * q /\
    Z.max (Z.max (ceil_div (lower W) p) (ceil_div (lower H) q)) 1 <= k <=
      Z.min (upper W / p) (upper H / q) /\
    (p * k) mod step W = anchor W mod step W /\ (q * k) mod step H = anchor H mod step H.
Proof.
  assert (Hiff : forall k, (Z.max (Z.max (ceil_div (lower W) p) (ceil_div (lower H) q)) 1 <= k <=
      Z.min (upper W / p) (upper H / q)) <->
      lower W <= k * p <= upper W /\ lower H <= k * q <= upper H /\ 1 <= k).
  { intros k. pose proof (ceil_div_le (lower W) p k). pose proof (ceil_div_le (lower H) q k).
    pose proof (div_ge (upper W) p k). pose proof (div_ge (upper H) q k). lia. }
  unfold exact_pair. rewrite !legal_residue by done. split.
  - intros ([Hw Mw] & [Hh Mh] & E & Hpos).
    destruct (Z.gauss p q w) as [k Hk]; [exists h; lia|done|].
    assert (Hh' : h = k * q). { apply (Z.mul_cancel_r _ _ p); [lia|]. rewrite <- E, Hk. lia. }
    exists k. rewrite Hiff. subst w h. rewrite (Z.mul_comm p), (Z.mul_comm q).
    repeat split; try done; try lia; nia.
  - intros (k & -> & -> & Hk & Mw & Mh). apply Hiff in Hk.
    rewrite (Z.mul_comm p) in Mw. rewrite (Z.mul_comm q) in Mh.
    repeat split; try done; try lia; nia.
Qed.

Lemma largest_exact_aspect_pair_spec probes :
  exists o, (largest_exact_aspect_pair W H (mkAspect p q) probes).2 = Ret o /\
  match o with
  | Some (w, h) => exact_pair w h /\ forall w' h', exact_pair w' h' -> w' <= w /\ h' <= h
  | None => forall w' h', ~ exact_pair w' h'
  end.
Proof.
  unfold largest_exact_aspect_pair. cbn [numerator denominator].
  destruct (Z.eqb_spec p 0); [lia|]. destruct (Z.eqb_spec q 0); [lia|]. cbn [orb].
  set (low := Z.max (Z.max (ceil_div (lower W) p) (ceil_div (lower H) q)) 1).
  set (up := Z.min (upper W / p) (upper H / q)).
  pose proof exact_pair_multiple as Hmul. fold low up in Hmul.
  destruct (Z.ltb_spec up low) as [Hlt|Hle].
  { eexists. split; [reflexivity|]. intros w' h' Hwh. apply Hmul in Hwh as (k & _ & _ & Hk & _). lia. }
  pose proof HW as HW'. pose proof HH as HH'. unfold lattice_ok in HW', HH'.
  assert (Hu : u32_max <= u64_max) by (unfold u32_max, u64_max; lia).
  destruct (linear_congruence_spec p (anchor W mod step W) (step W)) as (ow & -> & Sw);
    [lia|apply Z.mod_pos_bound; lia|lia|].
  destruct ow as [[rw mw]|]; cbn [solved] in Sw; cycle 1.
  { eexists. split; [reflexivity|]. intros w' h' Hwh. apply Hmul in Hwh as (k & _ & _ & _ & E & _). by eapply Sw. }
  destruct (linear_congruence_spec q (anchor H mod step H) (step H)) as (oh & -> & Sh);
    [lia|apply Z.mod_pos_bound; lia|lia|].
  destruct oh as [[rh mh]|]; cbn [solved] in Sh; cycle 1.
  { eexists. split; [reflexivity|]. intros w' h' Hwh. apply Hmul in Hwh as (k & _ & _ & _ & _ & E). by eapply Sh. }
  destruct Sw as (Hmw & Hrw & Sw), Sh as (Hmh & Hrh & Sh).
  destruct (combine_congruences_spec rw mw rh mh) as (oc & -> & Sc); try lia.
  destruct oc as [[rc mc]|]; cbn [solved] in Sc; cycle 1.
  { eexists. split; [reflexivity|]. intros w' h' Hwh. apply Hmul in Hwh as (k & _ & _ & _ & E1 & E2).
    apply (Sc k). by rewrite <- Sw, <- Sh. }
  destruct Sc as (Hmc & Hrc & Sc).
  eexists. split; [reflexivity|]. cbn [snd].
  pose proof (largest_congruent_spec low up rc mc ltac:(lia) ltac:(lia) Hrc) as Hk.
  destruct (largest_congruent_at_or_below low up rc mc) as [k|]; cbn [mbind option_bind]; cycle 1.
  { intros w' h' Hwh. apply Hmul in Hwh as (k & _ & _ & Hb & E1 & E2).
    apply (Hk k Hb). apply Sc. by rewrite <- Sw, <- Sh. }
  destruct Hk as (Hb & Hmk & Hmax). apply Sc in Hmk as [E1 E2]. apply Sw in E1. apply Sh in E2.
  assert (Hpair : exact_pair (k * p) (k * q)) by (apply Hmul; exists k; auto).
  pose proof Hpair as ([Hwb _] & [Hhb _] & _).
  unfold try_u32. rewrite !checked_in by lia. cbn. split; [done|].
  intros w' h' Hwh. apply Hmul in Hwh as (k' & -> & -> & Hb' & F1 & F2).
  enough (k' <= k) by nia. apply Hmax; [done|]. apply Sc. by rewrite <- Sw, <- Sh.
Qed.
End ExactPair.

Lemma unimodular_gcd a b c d : Z.abs (a * d - c * b) = 1 -> Z.gcd a b = 1.
Proof.
  intros H. apply Z.bezout_1_gcd. unfold Z.Bezout.
  destruct (Z.abs_spec (a * d - c * b)) as [[_ E]|[_ E]].
  - exists d, (- c). lia.
  - exists (- d), c. lia.
Qed.

(** Consecutive convergents stay unimodular, whatever the quotients. *)
Lemma convergents_reduced fuel value remainder pn n pd d r :
  0 <= pn -> 0 <= n -> 0 <= pd -> 0 <= d -> Z.abs (n * pd - pn * d) = 1 ->
  convergents fuel value remainder pn n pd d = Some r ->
  0 <= numerator r <= u32_max /\ 0 <= denominator r <= u32_max /\
  Z.gcd (numerator r) (denominator r) = 1.
Proof.
  revert remainder pn n pd d. induction fuel as [|fuel IH]; intros remainder pn n pd d Hpn Hn Hpd Hd Hu H; [done|].
  cbn [convergents] in H.
  destruct (f64_gtb _ _); [done|].
  pose proof (f64_as_bounds 0 u128_max (f64_floor remainder) ltac:(unfold u128_max; lia)) as Hi.
  set (i := f64_as 0 u128_max (f64_floor remainder)) in *.
  apply bind_Some in H as (m1 & E1 & H). apply bind_Some in H as (nn & E2 & H).
  apply bind_Some in H as (m2 & E3 & H). apply bind_Some in H as (nd & E4 & H).
  apply checked_Some in E1 as [-> _], E2 as [-> ?], E3 as [-> _], E4 as [-> ?].
  assert (Hu' : Z.abs ((i * n + pn) * d - n * (i * d + pd)) = 1)
    by (replace ((i * n + pn) * d - n * (i * d + pd)) with (- (n * pd - pn * d)) by lia;
        rewrite Z.abs_opp; done).
  destruct (_ || _); [done|].
  destruct (f64_leb _ _).
  - apply bind_Some in H as (a & Ea & H). apply bind_Some in H as (b & Eb & H).
    apply checked_Some in Ea as [-> ?], Eb as [-> ?]. injection H as <-. cbn.
    split; [lia|]. split; [lia|]. by apply unimodular_gcd with (c := n) (d := d).
  - destruct (f64_leb (f64_abs _) _); [done|].
    apply IH in H; [done|lia..].
Qed.

(** For every reduced ratio [p / q] and every pair of legal
    size lattices, the solver always returns, and what it returns is the
    largest legal pair of dimensions whose aspect ratio is exactly [p / q];
    it returns nothing exactly when no legal pair has that ratio. *)
Theorem exact_aspect_pair_largest (widths heights : LegalDimensionLattice) (p q probes : Z) :
  lattice_ok widths -> lattice_ok heights ->
  1 <= p <= u32_max -> 1 <= q <= u32_max -> Z.gcd p q = 1 ->
  exists o, (largest_exact_aspect_pair widths heights (mkAspect p q) probes).2 = Ret o /\
  match o with
  | Some (w, h) =>
      exact_pair widths heights p q w h /\
      forall w' h', exact_pair widths heights p q w' h' -> w' <= w /\ h' <= h
  | None => forall w' h', ~ exact_pair widths heights p q w' h'
  end.
Proof. intros. by apply largest_exact_aspect_pair_spec. Qed.

Lemma exact_aspect_pair_largest_witness :
  let W := mkLattice 1 20 1 4 in
  let H := mkLattice 3 20 3 6 in
  lattice_ok W /\ lattice_ok H /\
  (forall w' h', exact_pair W H 1 1 w' h' -> w' <= 9 /\ h' <= 9).
Proof.
  assert (HW : lattice_ok (mkLattice 1 20 1 4)) by (unfold lattice_ok; cbn; int_lia).
  assert (HH : lattice_ok (mkLattice 3 20 3 6)) by (unfold lattice_ok; cbn; int_lia).
  split; [exact HW|]. split; [exact HH|].
  destruct (exact_aspect_pair_largest _ _ 1 1 0 HW HH ltac:(int_lia) ltac:(int_lia) eq_refl) as (o & E & Ho).
  vm_compute in E. injection E as <-. exact (proj2 Ho).
Defined.

(** The ratio recovered from an [f64] is in lowest terms and
    both parts fit [u32]. *)
Theorem from_f64_reduced (value : f64) (r : ExactAspectRatio) :
  from_f64 value = Some r ->
  0 <= numerator r <= u32_max /\ 0 <= denominator r <= u32_max /\
  Z.gcd (numerator r) (denominator r) = 1.
Proof.
  unfold from_f64. destruct (_ || _); [done|].
  apply convergents_reduced; cbn; lia.
Qed.

Lemma from_f64_reduced_witness :
  from_f64 (f64_lit 16 9) = Some (mkAspect 16 9) /\ Z.gcd 16 9 = 1.
Proof.
  assert (E : from_f64 (f64_lit 16 9) = Some (mkAspect 16 9)) by (vm_compute; reflexivity).
  split; [exact E|]. exact (proj2 (proj2 (from_f64_reduced _ _ E))).
Defined.

(** An aspect ratio of [1e-15] is recovered as [0 / 1] rather
    than rejected, and solving for it divides by zero: the resolver panics on
    a constraint that validation accepts. *)
Theorem tiny_aspect_panics :
  from_f64 (f64_lit 1 (10 ^ 15)) = Some (mkAspect 0 1) /\
  forall widths heights probes,
    (largest_exact_aspect_pair widths heights (mkAspect 0 1) probes).2 = Panic.
Proof. split; [vm_compute; reflexivity|reflexivity]. Qed.
