(* ===== verification/Constraints.v ===== *)
(** * Constraints: size hints and the client rectangle (src/wm/layout/constraints.rs)

    A tiled window gets the largest client rectangle inside its tile that
    its size hints allow: dimensions on two lattices, and an aspect ratio
    between two [f64] bounds. *)

From stdpp Require Import base decidable option list tactics.
From Stdlib Require Import ZArith Lia SpecFloat.
From S2P Require Import Prelude F64 LayoutGeometry Lattice ExactAspect.
Open Scope Z_scope.
Open Scope typhon_scope.

Record LayoutConstraints : Type := mkConstraints {
  min_width : option Z;
  min_height : option Z;
  max_width : option Z;
  max_height : option Z;
  base_width : option Z;
  base_height : option Z;
  width_increment : option Z;
  height_increment : option Z;
  min_aspect : option f64;
  max_aspect : option f64
}.

Definition no_constraints : LayoutConstraints :=
  mkConstraints None None None None None None None None None None.

Inductive ConstraintValidationError : Type :=
| WidthBounds
| HeightBounds
| ZeroWidthIncrement
| ZeroHeightIncrement
| InvalidMinAspect
| InvalidMaxAspect
| ReversedAspectRange.

Inductive ClientRectError : Type :=
| InvalidConstraints (e : ConstraintValidationError)
| Infeasible.

(** [min.zip(max).is_some_and(|(min, max)| min > max)] *)
Definition reversed (min max : option Z) : bool :=
  match min, max with Some a, Some b => b <? a | _, _ => false end.
Definition reversed_aspect (min max : option f64) : bool :=
  match min, max with Some a, Some b => f64_gtb a b | _, _ => false end.
(** [aspect.is_some_and(|aspect| !aspect.is_finite() || aspect <= 0.0)] *)
Definition bad_aspect (aspect : option f64) : bool :=
  match aspect with Some a => negb (f64_is_finite a) || f64_leb a f64_zero | None => false end.

Definition is_some_zero (o : option Z) : bool :=
  match o with Some v => v =? 0 | None => false end.

(** The seven guarded assignments, in the order of the code. *)
Definition normalized (c : LayoutConstraints) : LayoutConstraints :=
  let max_w := if reversed (min_width c) (max_width c) then None else max_width c in
  let max_h := if reversed (min_height c) (max_height c) then None else max_height c in
  let inc_w := if is_some_zero (width_increment c) then None else width_increment c in
  let inc_h := if is_some_zero (height_increment c) then None else height_increment c in
  let min_a := if bad_aspect (min_aspect c) then None else min_aspect c in
  let max_a := if bad_aspect (max_aspect c) then None else max_aspect c in
  let '(min_a, max_a) := if reversed_aspect min_a max_a then (None, None) else (min_a, max_a) in
  mkConstraints (min_width c) (min_height c) max_w max_h (base_width c) (base_height c)
    inc_w inc_h min_a max_a.

Definition validate (c : LayoutConstraints) : res ConstraintValidationError LayoutConstraints :=
  if reversed (min_width c) (max_width c) then Fail WidthBounds
  else if reversed (min_height c) (max_height c) then Fail HeightBounds
  else if is_some_zero (width_increment c) then Fail ZeroWidthIncrement
  else if is_some_zero (height_increment c) then Fail ZeroHeightIncrement
  else if bad_aspect (min_aspect c) then Fail InvalidMinAspect
  else if bad_aspect (max_aspect c) then Fail InvalidMaxAspect
  else if reversed_aspect (min_aspect c) (max_aspect c) then Fail ReversedAspectRange
  else Ret c.

Definition minimum_dimension (min max base increment : option Z) : option Z :=
  lattice ← lattice_new min max base increment;
  align_up lattice (lower lattice).

Definition maximum_dimension (limit : Z) (min max base increment : option Z) : option Z :=
  lattice ← lattice_new min max base increment;
  align_down lattice limit.

Definition independent_lower_bounds (c : LayoutConstraints) : res ClientRectError (Z * Z) :=
  _ ← map_err InvalidConstraints (validate c);
  width ← ok_or Infeasible
            (minimum_dimension (min_width c) (max_width c) (base_width c) (width_increment c));
  height ← ok_or Infeasible
            (minimum_dimension (min_height c) (max_height c) (base_height c) (height_increment c));
  Ret (width, height).

(** ** The aspect search *)

Record ClientResolutionStats : Type := mkStats {
  dimension_candidates : Z;
  interval_nodes : Z;
  exact_aspect_probes : Z
}.
Definition stats_default : ClientResolutionStats := mkStats 0 0 0.

Definition bump_candidates (s : ClientResolutionStats) : ClientResolutionStats :=
  mkStats (sat_add u64_max (dimension_candidates s) 1) (interval_nodes s) (exact_aspect_probes s).
Definition bump_nodes (s : ClientResolutionStats) : ClientResolutionStats :=
  mkStats (dimension_candidates s) (sat_add u64_max (interval_nodes s) 1) (exact_aspect_probes s).

(** Searches update the counters and return an [Option]. *)
Abbreviation Probe A := (SM ClientResolutionStats Empty_set (option A)).

Definition aspect_of (width height : Z) : f64 := f64_div (f64_of_Z width) (f64_of_Z height).

Definition aspect_is_legal (width height : Z) (c : LayoutConstraints) : bool :=
  let aspect := aspect_of width height in
  (match min_aspect c with Some min => f64_geb aspect min | None => true end) &&
  (match max_aspect c with Some max => f64_leb aspect max | None => true end).

(** [x.clamp(1.0, f64::from(u32::MAX)) as u32] *)
Definition clamp_to_u32 (x : f64) : Z :=
  f64_as 0 u32_max (f64_clamp_value (f64_of_Z 1) (f64_of_Z u32_max) x).
Definition ceil_aspect_ratio (value : Z) (aspect : f64) : Z :=
  clamp_to_u32 (f64_ceil (f64_div (f64_of_Z value) aspect)).
Definition floor_aspect_ratio (value : Z) (aspect : f64) : Z :=
  clamp_to_u32 (f64_floor (f64_div (f64_of_Z value) aspect)).
Definition ceil_aspect_product (value : Z) (aspect : f64) : Z :=
  clamp_to_u32 (f64_ceil (f64_mul (f64_of_Z value) aspect)).
Definition floor_aspect_product (value : Z) (aspect : f64) : Z :=
  clamp_to_u32 (f64_floor (f64_mul (f64_of_Z value) aspect)).

Definition continuous_width_interval_can_intersect (low high : Z) (other : LegalDimensionLattice)
    (c : LayoutConstraints) : bool :=
  negb (match max_aspect c with
        | Some max => f64_gtb (aspect_of low (upper other)) max | None => false end) &&
  negb (match min_aspect c with
        | Some min => f64_ltb (aspect_of high (lower other)) min | None => false end).

Definition continuous_height_interval_can_intersect (low high : Z) (widths : LegalDimensionLattice)
    (c : LayoutConstraints) : bool :=
  negb (match max_aspect c with
        | Some max => f64_gtb (aspect_of (lower widths) high) max | None => false end) &&
  negb (match min_aspect c with
        | Some min => f64_ltb (aspect_of (upper widths) low) min | None => false end).

(** The body of the [loop] of [largest_height_for_width]: [inr] is its
    [return], [inl] the next candidate. *)
Definition height_step (width : Z) (heights : LegalDimensionLattice) (c : LayoutConstraints)
    (lo up candidate : Z) : Z + option Z :=
  if candidate <? lo then inr None
  else if aspect_is_legal width candidate c then inr (Some candidate)
  else
    let aspect := aspect_of width candidate in
    let next :=
      if match max_aspect c with Some max => f64_gtb aspect max | None => false end
      then align_up heights (sat_add u32_max candidate 1)
      else align_down heights (sat_sub candidate 1) in
    match next with
    | None => inr None
    | Some next => if (next <? lo) || (up <? next) then inr None else inl next
    end.

(** The candidates are [u32] values: a loop that visits none twice ends
    within [2 ^ 32] steps. *)
Definition candidate_fuel : positive := 4294967297.

Definition largest_height_for_width (width : Z) (heights : LegalDimensionLattice)
    (c : LayoutConstraints) : Probe Z :=
  _ ← sm_modify bump_candidates;
  let lo := match max_aspect c with
            | Some max => Z.max (lower heights) (ceil_aspect_ratio width max)
            | None => lower heights end in
  let up := match min_aspect c with
            | Some min => Z.min (upper heights) (floor_aspect_ratio width min)
            | None => upper heights end in
  match align_down heights up with
  | None => mret None
  | Some candidate => sm_lift (loop_res candidate_fuel (height_step width heights c lo up) candidate)
  end.

Definition width_step (height : Z) (widths : LegalDimensionLattice) (c : LayoutConstraints)
    (lo up candidate : Z) : Z + option Z :=
  if candidate <? lo then inr None
  else if aspect_is_legal candidate height c then inr (Some candidate)
  else
    let aspect := aspect_of candidate height in
    let next :=
      if match min_aspect c with Some min => f64_ltb aspect min | None => false end
      then align_up widths (sat_add u32_max candidate 1)
      else align_down widths (sat_sub candidate 1) in
    match next with
    | None => inr None
    | Some next => if (next <? lo) || (up <? next) then inr None else inl next
    end.

Definition largest_width_for_height (height : Z) (widths : LegalDimensionLattice)
    (c : LayoutConstraints) : Probe Z :=
  _ ← sm_modify bump_candidates;
  let lo := match min_aspect c with
            | Some min => Z.max (lower widths) (ceil_aspect_product height min)
            | None => lower widths end in
  let up := match max_aspect c with
            | Some max => Z.min (upper widths) (floor_aspect_product height max)
            | None => upper widths end in
  match align_down widths up with
  | None => mret None
  | Some candidate => sm_lift (loop_res candidate_fuel (width_step height widths c lo up) candidate)
  end.

Definition DIRECT_LATTICE_CANDIDATES : Z := 100000.

(** [for index in (first..=last).rev()]: [n] indices remain, from
    [first + n - 1] down to [first]. *)
Fixpoint scan_down (values : LegalDimensionLattice) (query : Z -> Probe Z) (first : Z) (n : nat)
    : Probe (Z * Z) :=
  match n with
  | O => mret None
  | S n =>
      match value_at values (first + Z.of_nat n) with
      | None => mret None
      | Some v =>
          o ← query v;
          match o with
          | Some other => mret (Some (v, other))
          | None => scan_down values query first n
          end
      end
  end.

(** The interval search the two directions share: [values] is searched from
    the top, [query v] asks for the largest partner of [v]. The recursion
    halves an interval of at most [2 ^ 32] indices. *)
Fixpoint search_interval (fuel : nat) (values : LegalDimensionLattice) (query : Z -> Probe Z)
    (can_intersect : Z -> Z -> bool) (first last : Z) : Probe (Z * Z) :=
  match fuel with
  | O => sm_lift NoFuel
  | S fuel =>
      if last <? first then mret None
      else
        _ ← sm_modify bump_nodes;
        match value_at values last, value_at values first with
        | Some high, Some low =>
            if negb (can_intersect low high) then mret None
            else
              o ← query high;
              match o with
              | Some other => mret (Some (high, other))
              | None =>
                  if first =? last then mret None
                  else if sat_add u64_max (sat_sub last first) 1 <=? DIRECT_LATTICE_CANDIDATES
                  then scan_down values query first (Z.to_nat (last - first + 1))
                  else
                    let middle := first + (last - first) / 2 in
                    r ← search_interval fuel values query can_intersect
                          (sat_add u64_max middle 1) last;
                    match r with
                    | Some _ => mret r
                    | None => search_interval fuel values query can_intersect first middle
                    end
              end
        | _, _ => mret None
        end
  end.

Definition search_fuel : nat := 64.

Definition search_widths (widths heights : LegalDimensionLattice) (c : LayoutConstraints)
    (first last : Z) : Probe (Z * Z) :=
  search_interval search_fuel widths (fun w => largest_height_for_width w heights c)
    (fun low high => continuous_width_interval_can_intersect low high heights c) first last.

Definition swap_pair (o : option (Z * Z)) : option (Z * Z) :=
  match o with Some (a, b) => Some (b, a) | None => None end.

Definition search_heights (heights widths : LegalDimensionLattice) (c : LayoutConstraints)
    (first last : Z) : Probe (Z * Z) :=
  r ← search_interval search_fuel heights (fun h => largest_width_for_height h widths c)
        (fun low high => continuous_height_interval_can_intersect low high widths c) first last;
  mret (swap_pair r).

Definition find_best_lattice_pair_with_stats (widths heights : LegalDimensionLattice)
    (c : LayoutConstraints) : Probe (Z * Z) :=
  if cardinality widths <=? cardinality heights
  then search_widths widths heights c 0 (sat_sub (cardinality widths) 1)
  else search_heights heights widths c 0 (sat_sub (cardinality heights) 1).

(** The exact path runs when both bounds are the same [f64] and it is
    recognised as a rational. *)
Definition find_best_lattice_pair (widths heights : LegalDimensionLattice) (c : LayoutConstraints)
    : Probe (Z * Z) :=
  let exact :=
    match min_aspect c, max_aspect c with
    | Some min, Some max => if f64_bits_eqb min max then from_f64 min else None
    | _, _ => None
    end in
  match exact with
  | Some ratio => fun s =>
      let '(probes, r) := largest_exact_aspect_pair widths heights ratio (exact_aspect_probes s) in
      (mkStats (dimension_candidates s) (interval_nodes s) probes, r)
  | None => find_best_lattice_pair_with_stats widths heights c
  end.

(** A search panics or diverges the same way inside the resolver. *)
Definition widen {S A} (m : SM S Empty_set A) : SM S ClientRectError A := fun s =>
  let '(s, r) := m s in
  (s, match r with Ret a => Ret a | Fail e => match e with end | Panic => Panic | NoFuel => NoFuel end).

Definition resolve_client_rect_within_tile_with_stats (tile : LayoutRect) (c : LayoutConstraints)
    : SM ClientResolutionStats ClientRectError LayoutRect :=
  _ ← sm_lift (map_err InvalidConstraints (validate c));
  width_min ← sm_lift (ok_or Infeasible
    (minimum_dimension (min_width c) (max_width c) (base_width c) (width_increment c)));
  height_min ← sm_lift (ok_or Infeasible
    (minimum_dimension (min_height c) (max_height c) (base_height c) (height_increment c)));
  width_max ← sm_lift (ok_or Infeasible
    (maximum_dimension (rwidth tile) (min_width c) (max_width c) (base_width c) (width_increment c)));
  height_max ← sm_lift (ok_or Infeasible
    (maximum_dimension (rheight tile) (min_height c) (max_height c) (base_height c) (height_increment c)));
  width_lattice ← sm_lift (ok_or Infeasible
    (lattice_new (Some width_min) (Some width_max) (base_width c) (width_increment c)));
  height_lattice ← sm_lift (ok_or Infeasible
    (lattice_new (Some height_min) (Some height_max) (base_height c) (height_increment c)));
  best ← widen (find_best_lattice_pair width_lattice height_lattice c);
  '(width, height) ← sm_lift (ok_or Infeasible best);
  let x_offset := (rwidth tile - width) / 2 in
  let y_offset := (rheight tile - height) / 2 in
  sm_lift (ok_or Infeasible
    (LayoutRect_new (sat_add_i32 (rx tile) (i32_or_max x_offset))
       (sat_add_i32 (ry tile) (i32_or_max y_offset)) width height)).

Definition resolve_client_rect_within_tile (tile : LayoutRect) (c : LayoutConstraints)
    : res ClientRectError LayoutRect :=
  (resolve_client_rect_within_tile_with_stats tile c stats_default).2.

Example resolve_unconstrained :
  resolve_client_rect_within_tile (mkLayoutRect 100 50 640 480) no_constraints
  = Ret (mkLayoutRect 100 50 640 480).
Proof. vm_compute. reflexivity. Qed.

Example resolve_16_9 :
  resolve_client_rect_within_tile (mkLayoutRect 0 0 1000 1000)
    (mkConstraints None None None None None None None None (Some (f64_lit 16 9)) (Some (f64_lit 16 9)))
  = Ret (mkLayoutRect 4 221 992 558).
Proof. vm_compute. reflexivity. Qed.

Lemma candidate_fuel_value : Zpos candidate_fuel = u32_max + 2.
Proof. reflexivity. Qed.

#[global] Opaque candidate_fuel search_fuel.

(** ** Well-formed constraints *)

(** The integer hints are [u32] values. *)
Definition constraints_ok (c : LayoutConstraints) : Prop :=
  opt_in_u32 (min_width c) /\ opt_in_u32 (max_width c) /\
  opt_in_u32 (base_width c) /\ opt_in_u32 (width_increment c) /\
  opt_in_u32 (min_height c) /\ opt_in_u32 (max_height c) /\
  opt_in_u32 (base_height c) /\ opt_in_u32 (height_increment c).

(** The widths and heights the hints allow, without the aspect bounds. *)
Definition width_lattice (c : LayoutConstraints) : option LegalDimensionLattice :=
  lattice_new (min_width c) (max_width c) (base_width c) (width_increment c).
Definition height_lattice (c : LayoutConstraints) : option LegalDimensionLattice :=
  lattice_new (min_height c) (max_height c) (base_height c) (height_increment c).

(** A legal dimension of an optional lattice. *)
Definition legal_in (o : option LegalDimensionLattice) (v : Z) : Prop :=
  exists l, o = Some l /\ legal l v.

(** Restricting a lattice to the values that fit a limit: what the resolver
    does with the smallest and largest dimension it has found. *)
Lemma restricted_lattice min max base increment limit lo hi :
  opt_in_u32 min -> opt_in_u32 max -> opt_in_u32 base -> opt_in_u32 increment -> in_u32 limit ->
  minimum_dimension min max base increment = Some lo ->
  maximum_dimension limit min max base increment = Some hi ->
  exists l, lattice_new (Some lo) (Some hi) base increment = Some l /\ lattice_ok l /\
    lower l = lo /\ upper l = hi /\ legal l lo /\ legal l hi /\
    forall v, legal l v <-> legal_in (lattice_new min max base increment) v /\ v <= limit.
Proof.
  intros H1 H2 H3 H4 Hlim Hlo Hhi. unfold minimum_dimension, maximum_dimension, legal_in in *.
  destruct (lattice_new min max base increment) as [l0|] eqn:E0; [|done]. cbn in Hlo, Hhi.
  destruct (lattice_new_ok _ _ _ _ _ H1 H2 H3 H4 E0) as (Hl0 & El & Eu & Ea & Es).
  pose proof (first_spec l0 Hl0) as Hf. unfold lattice_first in Hf. rewrite Hlo in Hf.
  destruct Hf as [Llo Mlo].
  pose proof (align_down_spec l0 limit Hl0 Hlim) as Hd. rewrite Hhi in Hd. destruct Hd as (Lhi & Hle & Mhi).
  pose proof (Mlo hi Lhi) as Hlohi.
  assert (Hb0 : default 0 base <= lo).
  { destruct Llo as [Hb _]. lia. }
  assert (Ean : default lo base = anchor l0).
  { rewrite Ea. destruct base as [b|]; cbn in *; [done|].
    apply Z.le_antisymm; [|apply Llo].
    apply Mlo. split; [unfold lattice_ok in Hl0; lia|]. exists 0. lia. }
  pose proof Hl0 as Hok. unfold lattice_ok in Hok. destruct Llo as [Blo Klo]. pose proof Lhi as [Bhi _].
  assert (Enew : lattice_new (Some lo) (Some hi) base increment
                 = Some (mkLattice lo hi (anchor l0) (step l0))).
  { unfold lattice_new. cbn [from_option id]. replace (Z.max lo (default 0 base)) with lo by lia.
    destruct (Z.ltb_spec hi lo); [lia|]. rewrite Ean. cbn [anchor upper].
    destruct (Z.leb_spec (anchor l0) hi); [|lia]. do 2 f_equal. rewrite Es.
    destruct increment as [i|]; [|done]. destruct (Z.ltb_spec 0 i); lia. }
  exists (mkLattice lo hi (anchor l0) (step l0)).
  split; [done|]. unfold lattice_ok, legal in *. cbn [lower upper anchor step].
  split; [lia|]. split; [done|]. split; [done|].
  split; [split; [lia|exact Klo]|].
  split; [destruct Lhi as [_ Hk]; split; [lia|exact Hk]|].
  intros v. split.
  - intros [Hv Hk]. split; [|lia]. exists l0. split; [done|]. split; [lia|done].
  - intros [(l & [= <-] & Hv & Hk) Hvl]. split; [|done].
    split; [apply Mlo; done|]. apply Mhi; [done|lia].
Qed.

(** ** Soundness of the search *)

Section Candidates.
Context (c : LayoutConstraints).

Lemma clamp_to_u32_range x : in_u32 (clamp_to_u32 x).
Proof. unfold in_u32, clamp_to_u32. apply f64_as_bounds. unfold u32_max. lia. Qed.

(** A candidate found by either loop is legal and within the aspect bounds. *)
Lemma height_loop_sound p width heights lo up candidate o :
  lattice_ok heights -> legal heights candidate ->
  loop_res (E := Empty_set) p (height_step width heights c lo up) candidate = Ret (Some o) ->
  legal heights o /\ aspect_is_legal width o c = true.
Proof.
  intros Hl Hc H. unfold loop_res in H. rewrite loop_pos_nat in H.
  pose proof (loop_nat_inv (height_step width heights c lo up) (legal heights)
    (fun r => match r with Some h => legal heights h /\ aspect_is_legal width h c = true | None => True end)
    (Pos.to_nat p) candidate) as Hinv.
  destruct (loop_nat _ _ _) as [s|r]; [done|]. injection H as ->.
  apply Hinv; [|done]. clear Hinv candidate Hc. intros x Hx. unfold height_step.
  destruct (x <? lo); [done|]. destruct (aspect_is_legal width x c) eqn:Ea; [done|].
  assert (Hxr : in_u32 x) by (destruct Hx as [Hx _]; unfold lattice_ok, in_u32 in *; lia).
  destruct (match max_aspect c with Some _ => _ | None => _ end).
  - pose proof (align_up_spec heights (sat_add u32_max x 1) Hl ltac:(int_lia)) as Hs.
    destruct (align_up _ _); [|done]. destruct (_ || _); [done|]. naive_solver.
  - pose proof (align_down_spec heights (sat_sub x 1) Hl ltac:(int_lia)) as Hs.
    destruct (align_down _ _); [|done]. destruct (_ || _); [done|]. naive_solver.
Qed.

Lemma width_loop_sound p height widths lo up candidate o :
  lattice_ok widths -> legal widths candidate ->
  loop_res (E := Empty_set) p (width_step height widths c lo up) candidate = Ret (Some o) ->
  legal widths o /\ aspect_is_legal o height c = true.
Proof.
  intros Hl Hc H. unfold loop_res in H. rewrite loop_pos_nat in H.
  pose proof (loop_nat_inv (width_step height widths c lo up) (legal widths)
    (fun r => match r with Some w => legal widths w /\ aspect_is_legal w height c = true | None => True end)
    (Pos.to_nat p) candidate) as Hinv.
  destruct (loop_nat _ _ _) as [s|r]; [done|]. injection H as ->.
  apply Hinv; [|done]. clear Hinv candidate Hc. intros x Hx. unfold width_step.
  destruct (x <? lo); [done|]. destruct (aspect_is_legal x height c) eqn:Ea; [done|].
  assert (Hxr : in_u32 x) by (destruct Hx as [Hx _]; unfold lattice_ok, in_u32 in *; lia).
  destruct (match min_aspect c with Some _ => _ | None => _ end).
  - pose proof (align_up_spec widths (sat_add u32_max x 1) Hl ltac:(int_lia)) as Hs.
    destruct (align_up _ _); [|done]. destruct (_ || _); [done|]. naive_solver.
  - pose proof (align_down_spec widths (sat_sub x 1) Hl ltac:(int_lia)) as Hs.
    destruct (align_down _ _); [|done]. destruct (_ || _); [done|]. naive_solver.
Qed.

Lemma largest_height_sound width heights s s' h :
  lattice_ok heights -> largest_height_for_width width heights c s = (s', Ret (Some h)) ->
  legal heights h /\ aspect_is_legal width h c = true.
Proof.
  intros Hl H. unfold largest_height_for_width in H. cbn in H.
  set (up := match min_aspect c with Some _ => _ | None => _ end) in H.
  assert (Hup : in_u32 up).
  { unfold up, lattice_ok, in_u32 in *. destruct (min_aspect c); [|lia].
    pose proof (clamp_to_u32_range (f64_floor (f64_div (f64_of_Z width) s0))) as Hc.
    unfold floor_aspect_ratio, in_u32 in *. lia. }
  pose proof (align_down_spec heights up Hl Hup) as Hd.
  destruct (align_down heights up) as [x|]; [|done]. destruct Hd as [Hx _].
  unfold sm_lift in H. apply pair_equal_spec in H as [_ H]. by apply height_loop_sound in H.
Qed.

Lemma largest_width_sound height widths s s' w :
  lattice_ok widths -> largest_width_for_height height widths c s = (s', Ret (Some w)) ->
  legal widths w /\ aspect_is_legal w height c = true.
Proof.
  intros Hl H. unfold largest_width_for_height in H. cbn in H.
  set (up := match max_aspect c with Some _ => _ | None => _ end) in H.
  assert (Hup : in_u32 up).
  { unfold up, lattice_ok, in_u32 in *. destruct (max_aspect c); [|lia].
    pose proof (clamp_to_u32_range (f64_floor (f64_mul (f64_of_Z height) s0))) as Hc.
    unfold floor_aspect_product, in_u32 in *. lia. }
  pose proof (align_down_spec widths up Hl Hup) as Hd.
  destruct (align_down widths up) as [x|]; [|done]. destruct Hd as [Hx _].
  unfold sm_lift in H. apply pair_equal_spec in H as [_ H]. by apply width_loop_sound in H.
Qed.
End Candidates.

Section Interval.
Context (values : LegalDimensionLattice) (Hvalues : lattice_ok values).
Context (query : Z -> Probe Z) (Q : Z -> Z -> Prop).
Context (Hquery : forall v o s s', query v s = (s', Ret (Some o)) -> Q v o).

Lemma scan_down_sound first n s s' v o :
  0 <= first -> scan_down values query first n s = (s', Ret (Some (v, o))) -> legal values v /\ Q v o.
Proof.
  intros Hf. revert s. induction n as [|n IH]; intros s H; [done|]. cbn [scan_down] in H.
  destruct (value_at values (first + Z.of_nat n)) as [w|] eqn:Ev; [|done].
  apply SM_bind_Ret in H as (s1 & [x|] & Eq & H); [|by apply IH in H].
  apply pair_equal_spec in H as [_ H]. injection H as <- <-.
  split; [apply (value_at_legal values (first + Z.of_nat n)); [done|lia|done]|by eapply Hquery].
Qed.

Lemma search_interval_sound fuel can first last s s' v o :
  0 <= first -> search_interval fuel values query can first last s = (s', Ret (Some (v, o))) ->
  legal values v /\ Q v o.
Proof.
  revert first last s s'. induction fuel as [|fuel IH]; intros first last s s' Hf H; [done|].
  cbn [search_interval] in H. destruct (Z.ltb_spec last first); [done|].
  apply SM_bind_Ret in H as (s1 & [] & _ & H).
  destruct (value_at values last) as [high|] eqn:Eh; [|done].
  destruct (value_at values first) as [low|] eqn:El; [|done].
  destruct (negb _); [done|].
  apply SM_bind_Ret in H as (s2 & [x|] & Eq & H).
  { apply pair_equal_spec in H as [_ H]. injection H as <- <-.
    split; [apply (value_at_legal values last); [done|lia|done]|by eapply Hquery]. }
  destruct (first =? last); [done|].
  destruct (_ <=? _); [by apply scan_down_sound in H|].
  assert (Hmid : 0 <= (last - first) / 2) by (apply Z.div_pos; lia).
  apply SM_bind_Ret in H as (s3 & [[v' o']|] & Er & H).
  - apply pair_equal_spec in H as [_ H]. injection H as -> ->.
    apply IH in Er; [done|]. unfold sat_add, u64_max. lia.
  - by apply IH in H.
Qed.
End Interval.

(** A pair of legal dimensions inside the aspect bounds, where an exact
    ratio recovered from equal bounds is met exactly. *)
Definition aspect_ok (c : LayoutConstraints) (w h : Z) : Prop :=
  match min_aspect c, max_aspect c with
  | Some min, Some max =>
      if f64_bits_eqb min max then
        match from_f64 min with
        | Some ratio => w * denominator ratio = h * numerator ratio
        | None => aspect_is_legal w h c = true
        end
      else aspect_is_legal w h c = true
  | _, _ => aspect_is_legal w h c = true
  end.

Lemma find_best_with_stats_sound c W H s s' w h :
  lattice_ok W -> lattice_ok H ->
  find_best_lattice_pair_with_stats W H c s = (s', Ret (Some (w, h))) ->
  legal W w /\ legal H h /\ aspect_is_legal w h c = true.
Proof.
  intros HW HH E. unfold find_best_lattice_pair_with_stats in E.
  destruct (_ <=? _).
  - unfold search_widths in E.
    apply (search_interval_sound W HW _ (fun w h => legal H h /\ aspect_is_legal w h c = true)) in E;
      [done| |lia]. intros v o s1 s2 Hq. by apply largest_height_sound in Hq.
  - unfold search_heights in E. apply SM_bind_Ret in E as (s1 & [[a b]|] & Es & E);
      apply pair_equal_spec in E as [_ E]; [|done]. injection E as <- <-.
    apply (search_interval_sound H HH _ (fun h w => legal W w /\ aspect_is_legal w h c = true)) in Es;
      [tauto| |lia]. intros v o s2 s3 Hq. by apply largest_width_sound in Hq.
Qed.

Lemma find_best_sound c W H s s' w h :
  lattice_ok W -> lattice_ok H ->
  find_best_lattice_pair W H c s = (s', Ret (Some (w, h))) ->
  legal W w /\ legal H h /\ aspect_ok c w h.
Proof.
  intros HW HH E. unfold find_best_lattice_pair in E. unfold aspect_ok.
  destruct (min_aspect c) as [mn|] eqn:Emn; [|by apply find_best_with_stats_sound in E].
  destruct (max_aspect c) as [mx|] eqn:Emx; [|by apply find_best_with_stats_sound in E].
  destruct (f64_bits_eqb mn mx); [|by apply find_best_with_stats_sound in E].
  destruct (from_f64 mn) as [[p q]|] eqn:Er; [|by apply find_best_with_stats_sound in E].
  assert (Hr : 0 <= p <= u32_max /\ 0 <= q <= u32_max /\ Z.gcd p q = 1).
  { unfold from_f64 in Er. destruct (_ || _); [done|]. apply convergents_reduced in Er; cbn; lia || done. }
  destruct (largest_exact_aspect_pair W H (mkAspect p q) (exact_aspect_probes s)) as [pr r] eqn:El.
  apply pair_equal_spec in E as [_ ->]. cbn [numerator denominator].
  destruct (Z.eq_dec p 0) as [->|Hp0].
  { unfold largest_exact_aspect_pair in El. cbn in El. congruence. }
  destruct (Z.eq_dec q 0) as [->|Hq0].
  { unfold largest_exact_aspect_pair in El. cbn in El. destruct (p =? 0); cbn in El; congruence. }
  destruct (largest_exact_aspect_pair_spec W H p q HW HH ltac:(lia) ltac:(lia) ltac:(tauto)
              (exact_aspect_probes s)) as (o & Eo & Ho).
  rewrite El in Eo. cbn in Eo. injection Eo as <-. destruct Ho as [(Lw & Lh & Heq & _) _]. done.
Qed.

(** ** The client rectangle *)

(** The margins left and right, and above and below, are equal, or the
    second is one pixel wider. *)
Definition centred (inner outer : LayoutRect) : Prop :=
  let margins start size start' size' := (start' - start, start + size - (start' + size')) in
  let even '(before, after) := before <= after <= before + 1 in
  even (margins (rx outer) (rwidth outer) (rx inner) (rwidth inner)) /\
  even (margins (ry outer) (rheight outer) (ry inner) (rheight inner)).

(** Centering a smaller rectangle inside a tile keeps it inside. *)
Lemma centered_within tile w h :
  rect_fits tile -> 1 <= w <= rwidth tile -> 1 <= h <= rheight tile ->
  let r := mkLayoutRect (sat_add_i32 (rx tile) (i32_or_max ((rwidth tile - w) / 2)))
             (sat_add_i32 (ry tile) (i32_or_max ((rheight tile - h) / 2))) w h in
  rect_within r tile /\ centred r tile.
Proof.
  intros Ht Hw Hh r. unfold rect_fits, rect_within, centred in *. subst r. cbn [rx ry rwidth rheight].
  pose proof (Z.div_mod (rwidth tile - w) 2 ltac:(lia)).
  pose proof (Z.mod_pos_bound (rwidth tile - w) 2 ltac:(lia)).
  pose proof (Z.div_mod (rheight tile - h) 2 ltac:(lia)).
  pose proof (Z.mod_pos_bound (rheight tile - h) 2 ltac:(lia)).
  unfold_int. lia.
Qed.

Lemma legal_in_lattice_ok c v :
  constraints_ok c ->
  (legal_in (width_lattice c) v -> 0 <= v) /\ (legal_in (height_lattice c) v -> 0 <= v).
Proof.
  intros (H1 & H2 & H3 & H4 & H5 & H6 & H7 & H8). unfold legal_in, width_lattice, height_lattice.
  split; intros (l & E & [Hb _]); apply lattice_new_ok in E as (Hok & _); try done;
    unfold lattice_ok in Hok; lia.
Qed.

(** The lattice of the values of [o] that fit a limit. *)
Definition restricts (o : option LegalDimensionLattice) (limit : Z) (l : LegalDimensionLattice) : Prop :=
  lattice_ok l /\ legal l (upper l) /\ legal l (lower l) /\
  forall v, legal l v <-> legal_in o v /\ v <= limit.

Definition fits_none (o : option LegalDimensionLattice) (limit : Z) : Prop :=
  forall v, legal_in o v -> limit < v.

Lemma restricted_or_none min max base increment limit :
  opt_in_u32 min -> opt_in_u32 max -> opt_in_u32 base -> opt_in_u32 increment -> in_u32 limit ->
  match minimum_dimension min max base increment, maximum_dimension limit min max base increment with
  | Some lo, Some hi => exists l, lattice_new (Some lo) (Some hi) base increment = Some l /\
                          restricts (lattice_new min max base increment) limit l
  | _, _ => fits_none (lattice_new min max base increment) limit
  end.
Proof.
  intros H1 H2 H3 H4 Hlim.
  destruct (minimum_dimension min max base increment) as [lo|] eqn:Elo,
    (maximum_dimension limit min max base increment) as [hi|] eqn:Ehi.
  - destruct (restricted_lattice _ _ _ _ _ _ _ H1 H2 H3 H4 Hlim Elo Ehi)
      as (l & El & Hok & Elo' & Eu & Hlo & Hh & Hv). exists l. unfold restricts. by subst lo hi.
  - intros v (l & El & Hv). unfold maximum_dimension in Ehi. rewrite El in Ehi. cbn in Ehi.
    pose proof (align_down_spec l limit) as Hs. rewrite Ehi in Hs.
    apply Hs; [exact (proj1 (lattice_new_ok _ _ _ _ _ H1 H2 H3 H4 El))|done|done].
  - intros v (l & El & Hv). unfold minimum_dimension in Elo. rewrite El in Elo. cbn in Elo.
    pose proof (first_spec l) as Hs. unfold lattice_first in Hs. rewrite Elo in Hs.
    destruct (Hs ltac:(exact (proj1 (lattice_new_ok _ _ _ _ _ H1 H2 H3 H4 El))) v Hv).
  - intros v (l & El & Hv). unfold minimum_dimension in Elo. rewrite El in Elo. cbn in Elo.
    pose proof (first_spec l) as Hs. unfold lattice_first in Hs. rewrite Elo in Hs.
    destruct (Hs ltac:(exact (proj1 (lattice_new_ok _ _ _ _ _ H1 H2 H3 H4 El))) v Hv).
Qed.

(** Placing a pair in the middle of the tile. *)
Definition place (tile : LayoutRect) (r : res Empty_set (option (Z * Z))) : res ClientRectError LayoutRect :=
  match r with
  | Ret (Some (w, h)) => ok_or Infeasible
      (LayoutRect_new (sat_add_i32 (rx tile) (i32_or_max ((rwidth tile - w) / 2)))
         (sat_add_i32 (ry tile) (i32_or_max ((rheight tile - h) / 2))) w h)
  | Ret None => Fail Infeasible
  | Fail e => match e with end
  | Panic => Panic
  | NoFuel => NoFuel
  end.

Lemma validate_cases c : validate c = Ret c \/ exists e, validate c = Fail e.
Proof. unfold validate. repeat case_match; eauto. Qed.

(** The resolver is validation, restriction to the tile, search, placement. *)
Lemma resolve_cases tile c :
  rect_fits tile -> constraints_ok c ->
  (exists e, validate c = Fail e /\ resolve_client_rect_within_tile tile c = Fail (InvalidConstraints e)) \/
  (validate c = Ret c /\ resolve_client_rect_within_tile tile c = Fail Infeasible /\
   (fits_none (width_lattice c) (rwidth tile) \/ fits_none (height_lattice c) (rheight tile))) \/
  (validate c = Ret c /\ exists W H, restricts (width_lattice c) (rwidth tile) W /\
   restricts (height_lattice c) (rheight tile) H /\
   resolve_client_rect_within_tile tile c = place tile (find_best_lattice_pair W H c stats_default).2).
Proof.
  intros Ht Hc. pose proof Hc as (C1 & C2 & C3 & C4 & C5 & C6 & C7 & C8).
  assert (Hw : in_u32 (rwidth tile) /\ in_u32 (rheight tile)) by (unfold rect_fits in Ht; int_lia).
  unfold resolve_client_rect_within_tile, resolve_client_rect_within_tile_with_stats.
  destruct (validate_cases c) as [Ev|[e Ev]]; rewrite Ev;
    [right|left; exists e; split; [done|reflexivity]].
  pose proof (restricted_or_none _ _ _ _ _ C1 C2 C3 C4 (proj1 Hw)) as RW.
  pose proof (restricted_or_none _ _ _ _ _ C5 C6 C7 C8 (proj2 Hw)) as RH.
  unfold width_lattice, height_lattice.
  unfold mbind, SM_bind, sm_lift, ok_or, map_err.
  destruct (minimum_dimension (min_width c) _ _ _) as [wlo|]; [|left; eauto].
  destruct (minimum_dimension (min_height c) _ _ _) as [hlo|]; [|left; eauto].
  destruct (maximum_dimension (rwidth tile) _ _ _ _) as [whi|]; [|left; eauto].
  destruct (maximum_dimension (rheight tile) _ _ _ _) as [hhi|]; [|left; eauto].
  destruct RW as (W & -> & RW), RH as (H & -> & RH).
  right. split; [done|]. exists W, H. split; [done|]. split; [done|]. unfold widen.
  destruct (find_best_lattice_pair W H c stats_default) as [s [[[w h]|]|[]| |]]; reflexivity.
Qed.

Lemma place_Ret tile r rect :
  place tile r = Ret rect ->
  exists w h, r = Ret (Some (w, h)) /\ w <> 0 /\ h <> 0 /\
  rect = mkLayoutRect (sat_add_i32 (rx tile) (i32_or_max ((rwidth tile - w) / 2)))
    (sat_add_i32 (ry tile) (i32_or_max ((rheight tile - h) / 2))) w h.
Proof.
  destruct r as [[[w h]|]|[]| |]; cbn; try done. intros H. exists w, h.
  unfold LayoutRect_new in H. destruct (Z.eqb_spec w 0), (Z.eqb_spec h 0); cbn in H; try done.
  by injection H as <-.
Qed.

Lemma restricts_bounds o limit l v : restricts o limit l -> legal l v -> 0 <= v <= limit.
Proof.
  intros (Hok & _ & _ & Hv) Hl. pose proof (proj1 (Hv v) Hl). destruct Hl as [Hb _].
  unfold lattice_ok in Hok. lia.
Qed.

Lemma resolve_sound tile c r :
  rect_fits tile -> constraints_ok c ->
  resolve_client_rect_within_tile tile c = Ret r ->
  validate c = Ret c /\ rect_within r tile /\ 1 <= rwidth r /\ 1 <= rheight r /\
  legal_in (width_lattice c) (rwidth r) /\ legal_in (height_lattice c) (rheight r) /\
  aspect_ok c (rwidth r) (rheight r) /\ centred r tile.
Proof.
  intros Ht Hc E.
  destruct (resolve_cases tile c Ht Hc) as [(e & _ & E')|[(_ & E' & _)|(Ev & W & H & RW & RH & E')]];
    rewrite E' in E; try done.
  apply place_Ret in E as (w & h & Ef & Hw0 & Hh0 & ->). cbn [rwidth rheight].
  destruct (find_best_lattice_pair W H c stats_default) as [s' r'] eqn:Eb. cbn in Ef. subst r'.
  apply find_best_sound in Eb as (Lw & Lh & Ha); [|apply RW|apply RH].
  pose proof (restricts_bounds _ _ _ _ RW Lw). pose proof (restricts_bounds _ _ _ _ RH Lh).
  apply RW in Lw as [Lw _]. apply RH in Lh as [Lh _].
  destruct (centered_within tile w h Ht ltac:(lia) ltac:(lia)) as [Hin Hce].
  split_and!; (lia || done).
Qed.

(** C25: a client rectangle the resolver returns lies inside the tile (a
    non-empty one within the [i32] range) and is centred in it up to one
    pixel, is not empty, has a width and a height the size hints allow, and
    keeps the aspect bounds (an exact ratio exactly); the hints were valid. *)
Theorem resolved_rect_sound tile c r :
  rect_fits tile -> constraints_ok c ->
  resolve_client_rect_within_tile tile c = Ret r ->
  validate c = Ret c /\ rect_within r tile /\ 1 <= rwidth r /\ 1 <= rheight r /\
  legal_in (width_lattice c) (rwidth r) /\ legal_in (height_lattice c) (rheight r) /\
  aspect_ok c (rwidth r) (rheight r) /\ centred r tile.
Proof. exact (resolve_sound tile c r). Qed.

Lemma resolved_rect_sound_witness :
  let c := mkConstraints (Some 100) None (Some 900) None (Some 8) None (Some 3) None
             (Some (f64_lit 2 1)) None in
  rect_fits (mkLayoutRect 0 0 1000 1000) /\ constraints_ok c /\
  resolve_client_rect_within_tile (mkLayoutRect 0 0 1000 1000) c = Ret (mkLayoutRect 50 275 899 449) /\
  rect_within (mkLayoutRect 50 275 899 449) (mkLayoutRect 0 0 1000 1000) /\
  legal_in (width_lattice c) 899 /\ centred (mkLayoutRect 50 275 899 449) (mkLayoutRect 0 0 1000 1000).
Proof.
  intros c.
  assert (Ht : rect_fits (mkLayoutRect 0 0 1000 1000)) by (unfold rect_fits; cbn; int_lia).
  assert (Hc : constraints_ok c).
  { unfold constraints_ok, opt_in_u32; cbn. split_and!; intros v [= <-] || (intros v Hv; discriminate Hv); int_lia. }
  assert (E : resolve_client_rect_within_tile (mkLayoutRect 0 0 1000 1000) c
              = Ret (mkLayoutRect 50 275 899 449)) by (vm_compute; reflexivity).
  destruct (resolved_rect_sound _ c _ Ht Hc E) as (_ & Hw & _ & _ & Hl & _ & _ & Hce).
  exact (conj Ht (conj Hc (conj E (conj Hw (conj Hl Hce))))).
Defined.

(** ** Without aspect bounds *)

Section NoAspect.
Context (c : LayoutConstraints) (Hmin : min_aspect c = None) (Hmax : max_aspect c = None).

Lemma no_aspect_legal w h : aspect_is_legal w h c = true.
Proof. unfold aspect_is_legal. by rewrite Hmin, Hmax. Qed.

Lemma loop_pos_first {St R} p (f : St -> St + R) s r : f s = inr r -> loop_pos p f s = inr r.
Proof.
  intros H. rewrite loop_pos_nat. destruct (Pos.to_nat p) eqn:E; [lia|]. cbn. by rewrite H.
Qed.

Lemma align_down_upper l : lattice_ok l -> legal l (upper l) -> align_down l (upper l) = Some (upper l).
Proof.
  intros Hl Hu. pose proof (align_down_spec l (upper l) Hl) as H.
  destruct (align_down l (upper l)) as [v|].
  - destruct H as ((Hb & _) & Hv & Hm); [unfold lattice_ok in Hl; int_lia|].
    specialize (Hm _ Hu). f_equal. lia.
  - specialize (H ltac:(unfold lattice_ok in Hl; int_lia) _ Hu). lia.
Qed.

Lemma value_at_last l :
  lattice_ok l -> legal l (upper l) ->
  0 < cardinality l /\ value_at l (sat_sub (cardinality l) 1) = Some (upper l) /\
  is_Some (value_at l 0).
Proof.
  intros Hl Hu. destruct (legal_value_at l (upper l) Hl Hu) as (i & Hi & Ei).
  split; [lia|]. split; [|apply value_at_defined; [done|lia|lia]].
  replace (sat_sub (cardinality l) 1) with i; [done|]. unfold sat_sub.
  destruct (Z.eq_dec i (cardinality l - 1)) as [|Hne]; [lia|exfalso].
  assert (is_Some (value_at l (cardinality l - 1))) as [w Hw] by (apply value_at_defined; [done|lia|lia]).
  pose proof (value_at_mono l i (cardinality l - 1) _ _ Hl ltac:(lia) ltac:(lia) Ei Hw).
  apply value_at_legal in Hw as [Hb _]; [lia|done|lia].
Qed.

Lemma no_aspect_query l v s :
  lattice_ok l -> legal l (upper l) ->
  largest_height_for_width v l c s = (bump_candidates s, Ret (Some (upper l))) /\
  largest_width_for_height v l c s = (bump_candidates s, Ret (Some (upper l))).
Proof.
  intros Hl Hu. unfold largest_height_for_width, largest_width_for_height.
  rewrite Hmin, Hmax, (align_down_upper l Hl Hu). unfold mbind, SM_bind, sm_modify, sm_lift, loop_res.
  pose proof Hu as [Hb _].
  rewrite !(loop_pos_first _ _ _ (Some (upper l))); [done| |].
  - unfold width_step. rewrite no_aspect_legal. by destruct (Z.ltb_spec (upper l) (lower l)); [lia|].
  - unfold height_step. rewrite no_aspect_legal. by destruct (Z.ltb_spec (upper l) (lower l)); [lia|].
Qed.

Lemma search_interval_top fuel l query can o s s1 s2 :
  lattice_ok l -> legal l (upper l) ->
  (forall low high, can low high = true) ->
  (forall s, query (upper l) s = (s1 s, Ret (Some o))) ->
  s2 = s1 (bump_nodes s) ->
  search_interval (S fuel) l query can 0 (sat_sub (cardinality l) 1) s = (s2, Ret (Some (upper l, o))).
Proof.
  intros Hl Hu Hcan Hq ->. destruct (value_at_last l Hl Hu) as (Hc & E1 & [v0 E0]).
  cbn [search_interval]. rewrite E1, E0, Hcan.
  destruct (Z.ltb_spec (sat_sub (cardinality l) 1) 0); [unfold sat_sub in *; lia|].
  cbn [negb]. unfold mbind, SM_bind, sm_modify. by rewrite Hq.
Qed.

Lemma no_aspect_best W H s :
  lattice_ok W -> lattice_ok H -> legal W (upper W) -> legal H (upper H) ->
  (find_best_lattice_pair W H c s).2 = Ret (Some (upper W, upper H)).
Proof.
  intros HW HH LW LH. unfold find_best_lattice_pair. rewrite Hmin.
  unfold find_best_lattice_pair_with_stats, search_widths, search_heights.
  change search_fuel with (S 63). destruct (_ <=? _).
  - erewrite (search_interval_top 63 W _ _ (upper H) s bump_candidates); [reflexivity|done|done| | |reflexivity].
    + intros. unfold continuous_width_interval_can_intersect. by rewrite Hmin, Hmax.
    + intros s'. exact (proj1 (no_aspect_query H _ s' HH LH)).
  - unfold mbind, SM_bind.
    erewrite (search_interval_top 63 H _ _ (upper W) s bump_candidates); [reflexivity|done|done| | |reflexivity].
    + intros. unfold continuous_height_interval_can_intersect. by rewrite Hmin, Hmax.
    + intros s'. exact (proj2 (no_aspect_query W _ s' HW LW)).
Qed.
End NoAspect.

(** The largest positive value of a lattice within a limit. *)
Definition largest_within (o : option LegalDimensionLattice) (limit v : Z) : Prop :=
  1 <= v <= limit /\ legal_in o v /\ forall v', legal_in o v' -> v' <= limit -> v' <= v.

Lemma restricts_largest o limit l :
  restricts o limit l -> upper l <> 0 -> largest_within o limit (upper l).
Proof.
  intros (Hok & Hu & _ & Hv) Hne. pose proof (proj1 (Hv _) Hu) as [Hl Hle].
  split; [unfold lattice_ok in Hok; lia|]. split; [done|].
  intros v' H1 H2. apply (conj H1), Hv in H2 as [Hb _]. lia.
Qed.

Lemma largest_within_upper o limit l v : restricts o limit l -> largest_within o limit v -> v <= upper l.
Proof.
  intros (_ & _ & _ & Hv) (Hb & Hl & _). destruct (proj2 (Hv v) (conj Hl (proj2 Hb))) as [Hl' _]. lia.
Qed.

Lemma resolve_no_aspect tile c :
  rect_fits tile -> constraints_ok c -> min_aspect c = None -> max_aspect c = None ->
  match resolve_client_rect_within_tile tile c with
  | Ret r => validate c = Ret c /\ largest_within (width_lattice c) (rwidth tile) (rwidth r) /\
             largest_within (height_lattice c) (rheight tile) (rheight r)
  | Fail (InvalidConstraints e) => validate c = Fail e
  | Fail Infeasible => validate c = Ret c /\
      ((forall v, ~ largest_within (width_lattice c) (rwidth tile) v) \/
       (forall v, ~ largest_within (height_lattice c) (rheight tile) v))
  | Panic | NoFuel => False
  end.
Proof.
  intros Ht Hc Hmin Hmax.
  destruct (resolve_cases tile c Ht Hc) as [(e & Ev & E)|[(Ev & E & Hn)|(Ev & W & H & RW & RH & E)]]; rewrite E.
  - done.
  - split; [done|]. destruct Hn as [Hn|Hn]; [left|right]; intros v (Hb & Hl & _);
      specialize (Hn v Hl); lia.
  - pose proof RW as (OW & LW & _). pose proof RH as (OH & LH & _).
    rewrite (no_aspect_best c Hmin Hmax W H _ OW OH LW LH). cbn [place]. unfold LayoutRect_new.
    destruct (Z.eqb_spec (upper W) 0) as [E0|E0]; [|destruct (Z.eqb_spec (upper H) 0) as [E1|E1]];
      cbn [orb ok_or rwidth rheight]; (split; [done|]).
    + left. intros v Hv. pose proof (largest_within_upper _ _ _ _ RW Hv). destruct Hv as [Hv _]. lia.
    + right. intros v Hv. pose proof (largest_within_upper _ _ _ _ RH Hv). destruct Hv as [Hv _]. lia.
    + split; by apply restricts_largest.
Qed.

(** Without aspect bounds the resolver is exact: it succeeds exactly
    when valid hints allow a positive width and a positive height that fit
    the tile, the rectangle has the largest such width and the largest such
    height, invalid hints are reported as such, and everything else is
    [Infeasible]. *)
Theorem resolve_without_aspect tile c :
  rect_fits tile -> constraints_ok c -> min_aspect c = None -> max_aspect c = None ->
  match resolve_client_rect_within_tile tile c with
  | Ret r => validate c = Ret c /\ largest_within (width_lattice c) (rwidth tile) (rwidth r) /\
             largest_within (height_lattice c) (rheight tile) (rheight r)
  | Fail (InvalidConstraints e) => validate c = Fail e
  | Fail Infeasible => validate c = Ret c /\
      ((forall v, ~ largest_within (width_lattice c) (rwidth tile) v) \/
       (forall v, ~ largest_within (height_lattice c) (rheight tile) v))
  | Panic | NoFuel => False
  end.
Proof. exact (resolve_no_aspect tile c). Qed.

Lemma resolve_without_aspect_witness :
  let c := mkConstraints (Some 33) None (Some 900) None (Some 8) None (Some 3) None None None in
  rect_fits (mkLayoutRect 0 0 500 400) /\ constraints_ok c /\
  resolve_client_rect_within_tile (mkLayoutRect 0 0 500 400) c = Ret (mkLayoutRect 0 0 500 400) /\
  largest_within (width_lattice c) 500 500.
Proof.
  intros c.
  assert (Ht : rect_fits (mkLayoutRect 0 0 500 400)) by (unfold rect_fits; cbn; int_lia).
  assert (Hc : constraints_ok c).
  { unfold constraints_ok, opt_in_u32; cbn. split_and!; intros v [= <-] || (intros v Hv; discriminate Hv); int_lia. }
  assert (E : resolve_client_rect_within_tile (mkLayoutRect 0 0 500 400) c
              = Ret (mkLayoutRect 0 0 500 400)) by (vm_compute; reflexivity).
  pose proof (resolve_without_aspect _ c Ht Hc eq_refl eq_refl) as H. rewrite E in H.
  exact (conj Ht (conj Hc (conj E (proj1 (proj2 H))))).
Defined.

(** ** Termination with one aspect bound *)

Lemma aspect_of_not_nan w h :
  1 <= w <= u32_max -> 1 <= h <= u32_max -> f64_is_nan (aspect_of w h) = false.
Proof.
  intros Hw Hh. unfold aspect_of.
  destruct (f64_div_signed false w h) as (m & e & E & _); [int_lia|int_lia|].
  cbn [signedZ] in E. by rewrite E.
Qed.

(** A candidate loop that only moves one way ends. *)
Lemma monotone_loop_returns l (f : Z -> Z + option Z) x :
  lattice_ok l -> legal l x ->
  (forall x x', legal l x -> f x = inl x' -> legal l x' /\ x < x') \/
  (forall x x', legal l x -> f x = inl x' -> legal l x' /\ x' < x) ->
  exists o, loop_res (E := Empty_set) candidate_fuel f x = Ret o.
Proof.
  intros Hl Hx Hf. unfold loop_res. rewrite loop_pos_nat.
  assert (Hr : exists r, loop_nat f (Pos.to_nat candidate_fuel) x = inr r);
    [|destruct Hr as [r ->]; eauto].
  assert (Hb : forall y, legal l y -> 0 <= y <= upper l /\ upper l <= u32_max)
    by (intros y [Hy _]; unfold lattice_ok in Hl; lia).
  destruct Hf as [Hf|Hf].
  - apply (loop_nat_terminates f (legal l) (fun y => upper l - y)); [|done|].
    + intros y y' Hy E. destruct (Hf y y' Hy E) as [Hy' Hlt]. split; [done|].
      pose proof (Hb y Hy). pose proof (Hb y' Hy'). lia.
    + pose proof (Hb x Hx). rewrite positive_nat_Z, candidate_fuel_value. lia.
  - apply (loop_nat_terminates f (legal l) (fun y => y)); [|done|].
    + intros y y' Hy E. destruct (Hf y y' Hy E) as [Hy' Hlt]. split; [done|].
      pose proof (Hb y Hy). pose proof (Hb y' Hy'). lia.
    + pose proof (Hb x Hx). rewrite positive_nat_Z, candidate_fuel_value. lia.
Qed.

Definition aspect_not_nan (o : option f64) : Prop := forall a, o = Some a -> f64_is_nan a = false.

Section OneBound.
Context (c : LayoutConstraints).
Context (Hone : min_aspect c = None \/ max_aspect c = None).
Context (Hmin : aspect_not_nan (min_aspect c)) (Hmax : aspect_not_nan (max_aspect c)).

(** The two directions of a step, shared by both loops. *)
Lemma step_up l x lo up y :
  lattice_ok l -> upper l < u32_max -> legal l x ->
  match align_up l (sat_add u32_max x 1) with
  | None => inr None
  | Some next => if (next <? lo) || (up <? next) then inr (A := Z) (@None Z) else inl next
  end = inl y -> legal l y /\ x < y.
Proof.
  intros Hl Hu Hx. assert (Hb : 0 <= x < u32_max) by (destruct Hx; unfold lattice_ok in Hl; lia).
  pose proof (align_up_spec l (sat_add u32_max x 1) Hl ltac:(int_lia)) as Hs.
  destruct (align_up _ _) as [z|]; [|done]. destruct (_ || _); [done|].
  intros [= <-]. destruct Hs as (Hz & Hge & _). split; [done|]. unfold sat_add in Hge. lia.
Qed.

Lemma step_down l x lo up y :
  lattice_ok l -> 1 <= lower l -> legal l x ->
  match align_down l (sat_sub x 1) with
  | None => inr None
  | Some next => if (next <? lo) || (up <? next) then inr (A := Z) (@None Z) else inl next
  end = inl y -> legal l y /\ y < x.
Proof.
  intros Hl Hu Hx. assert (Hb : 1 <= x <= u32_max) by (destruct Hx; unfold lattice_ok in Hl; lia).
  pose proof (align_down_spec l (sat_sub x 1) Hl ltac:(int_lia)) as Hs.
  destruct (align_down _ _) as [z|]; [|done]. destruct (_ || _); [done|].
  intros [= <-]. destruct Hs as (Hz & Hge & _). split; [done|]. unfold sat_sub in Hge. lia.
Qed.

Definition bounded_lattice (l : LegalDimensionLattice) : Prop :=
  lattice_ok l /\ 1 <= lower l /\ upper l < u32_max.

Lemma bounded_legal l x : bounded_lattice l -> legal l x -> 1 <= x <= u32_max.
Proof. intros (Hl & H1 & H2) [Hx _]. unfold lattice_ok in Hl. lia. Qed.

Lemma height_loop_returns width l lo up x :
  bounded_lattice l -> 1 <= width <= u32_max -> legal l x ->
  exists o, loop_res (E := Empty_set) candidate_fuel (height_step width l c lo up) x = Ret o.
Proof.
  intros Hb Hw Hx. pose proof Hb as (Hl & H1 & H2).
  apply (monotone_loop_returns l); [done|done|].
  destruct Hone as [En|En]; [left|right]; intros y y' Hy; unfold height_step, aspect_is_legal;
    rewrite En; (destruct (y <? lo); [done|]);
    pose proof (aspect_of_not_nan width y Hw (bounded_legal l y Hb Hy)) as Hn.
  - destruct (max_aspect c) as [mx|] eqn:Em; [|done]. cbn [andb].
    destruct (f64_leb (aspect_of width y) mx) eqn:El; [done|].
    rewrite (f64_leb_total _ _ Hn (Hmax mx eq_refl) El : f64_gtb _ _ = true). by apply step_up.
  - rewrite andb_true_r. destruct (match min_aspect c with Some _ => _ | None => _ end); [done|].
    by apply step_down.
Qed.

Lemma width_loop_returns height l lo up x :
  bounded_lattice l -> 1 <= height <= u32_max -> legal l x ->
  exists o, loop_res (E := Empty_set) candidate_fuel (width_step height l c lo up) x = Ret o.
Proof.
  intros Hb Hw Hx. pose proof Hb as (Hl & H1 & H2).
  apply (monotone_loop_returns l); [done|done|].
  destruct Hone as [En|En]; [right|left]; intros y y' Hy; unfold width_step, aspect_is_legal;
    rewrite En; (destruct (y <? lo); [done|]);
    pose proof (aspect_of_not_nan y height (bounded_legal l y Hb Hy) Hw) as Hn.
  - cbn [andb]. destruct (match max_aspect c with Some _ => _ | None => _ end); [done|].
    by apply step_down.
  - rewrite andb_true_r. destruct (min_aspect c) as [mn|] eqn:Em; [|done].
    destruct (f64_geb (aspect_of y height) mn) eqn:El; [done|].
    rewrite (f64_leb_total _ _ (Hmin mn eq_refl) Hn El : f64_ltb _ _ = true). by apply step_up.
Qed.

(** [m] comes back with a value whatever the counters are. *)
Definition always_returns {A} (m : SM ClientResolutionStats Empty_set A) : Prop :=
  forall s, exists s' a, m s = (s', Ret a).

Lemma largest_height_returns width l :
  bounded_lattice l -> 1 <= width <= u32_max -> always_returns (largest_height_for_width width l c).
Proof.
  intros Hb Hw s. unfold largest_height_for_width, mbind, SM_bind, sm_modify.
  set (up := match min_aspect c with Some _ => _ | None => _ end).
  assert (Hup : in_u32 up).
  { destruct Hb as [Hb _]. unfold up, lattice_ok, in_u32 in *. destruct (min_aspect c) as [a|]; [|lia].
    pose proof (clamp_to_u32_range (f64_floor (f64_div (f64_of_Z width) a))) as Hc.
    unfold floor_aspect_ratio, in_u32 in *. lia. }
  pose proof (align_down_spec l up (proj1 Hb) Hup) as Hd.
  destruct (align_down l up) as [x|]; [|by eexists _, _]. unfold sm_lift.
  edestruct height_loop_returns as [o ->]; [done|done|apply Hd|]. by eexists _, _.
Qed.

Lemma largest_width_returns height l :
  bounded_lattice l -> 1 <= height <= u32_max -> always_returns (largest_width_for_height height l c).
Proof.
  intros Hb Hw s. unfold largest_width_for_height, mbind, SM_bind, sm_modify.
  set (up := match max_aspect c with Some _ => _ | None => _ end).
  assert (Hup : in_u32 up).
  { destruct Hb as [Hb _]. unfold up, lattice_ok, in_u32 in *. destruct (max_aspect c) as [a|]; [|lia].
    pose proof (clamp_to_u32_range (f64_floor (f64_mul (f64_of_Z height) a))) as Hc.
    unfold floor_aspect_product, in_u32 in *. lia. }
  pose proof (align_down_spec l up (proj1 Hb) Hup) as Hd.
  destruct (align_down l up) as [x|]; [|by eexists _, _]. unfold sm_lift.
  edestruct width_loop_returns as [o ->]; [done|done|apply Hd|]. by eexists _, _.
Qed.
End OneBound.

Section IntervalReturns.
Context (values : LegalDimensionLattice) (Hvalues : lattice_ok values).
Context (query : Z -> Probe Z) (Hquery : forall v, legal values v -> always_returns (query v)).

Lemma scan_down_returns first n : 0 <= first -> always_returns (scan_down values query first n).
Proof.
  intros Hf. induction n as [|n IH]; intros s; cbn [scan_down]; [by eexists _, _|].
  destruct (value_at values (first + Z.of_nat n)) as [v|] eqn:Ev; [|by eexists _, _].
  apply value_at_legal in Ev; [|done|lia]. unfold mbind, SM_bind.
  destruct (Hquery v Ev s) as (s1 & o & ->). destruct o; [by eexists _, _|apply IH].
Qed.

(** The recursion halves the interval: [k + 1] units of fuel cover [2 ^ k]
    indices. *)
Lemma search_interval_returns k can first last :
  0 <= first -> last <= u32_max -> last - first < 2 ^ Z.of_nat k ->
  always_returns (search_interval (S k) values query can first last).
Proof.
  revert first last. induction k as [|k IH]; intros first last Hf Hl Hk s;
    [set (fuel := O)|set (fuel := S k) in *]; cbn [search_interval];
    (destruct (Z.ltb_spec last first); [by eexists _, _|]);
    unfold mbind at 1, SM_bind at 1, sm_modify;
    (destruct (value_at values last) as [high|] eqn:Eh; [|by eexists _, _]);
    (destruct (value_at values first) as [low|] eqn:El; [|by eexists _, _]);
    (destruct (negb _); [by eexists _, _|]);
    apply value_at_legal in Eh; try done; try lia;
    unfold mbind at 1, SM_bind at 1;
    destruct (Hquery high Eh (bump_nodes s)) as (s1 & [o|] & ->); try by eexists _, _.
  - destruct (Z.eqb_spec first last); [by eexists _, _|]. cbn in Hk. lia.
  - destruct (Z.eqb_spec first last); [by eexists _, _|].
    destruct (_ <=? _); [by apply scan_down_returns|].
    unfold fuel in Hk. rewrite Nat2Z.inj_succ, Z.pow_succ_r in Hk by lia.
    pose proof (Z.div_mod (last - first) 2 ltac:(lia)).
    pose proof (Z.mod_pos_bound (last - first) 2 ltac:(lia)).
    unfold mbind, SM_bind.
    destruct (IH (sat_add u64_max (first + (last - first) / 2) 1) last
                ltac:(int_lia) Hl ltac:(int_lia) s1) as (s2 & r & ->).
    destruct r; [by eexists _, _|]. apply IH; lia.
Qed.
End IntervalReturns.

Lemma cardinality_bound l : lattice_ok l -> 0 <= cardinality l <= u32_max + 1.
Proof.
  intros Hl. unfold cardinality. pose proof (first_spec l Hl) as Hf.
  destruct (lattice_first l) as [f|]; [|int_lia]. destruct Hf as [[Hb _] _]. unfold lattice_ok in Hl.
  assert (0 <= (upper l - f) / step l <= upper l - f); [|lia].
  split; [apply Z.div_pos; lia|]. apply Z.div_le_upper_bound; nia.
Qed.

Lemma find_best_returns c W H :
  min_aspect c = None \/ max_aspect c = None ->
  aspect_not_nan (min_aspect c) -> aspect_not_nan (max_aspect c) ->
  bounded_lattice W -> bounded_lattice H -> always_returns (find_best_lattice_pair W H c).
Proof.
  intros Hone Hmin Hmax HW HH s.
  assert (E : find_best_lattice_pair W H c s = find_best_lattice_pair_with_stats W H c s).
  { unfold find_best_lattice_pair.
    destruct Hone as [->| ->]; [done|]. by destruct (min_aspect c). }
  rewrite E. unfold find_best_lattice_pair_with_stats, search_widths, search_heights.
  pose proof (cardinality_bound W (proj1 HW)). pose proof (cardinality_bound H (proj1 HH)).
  change search_fuel with (S 63). destruct (_ <=? _).
  - apply search_interval_returns; [apply HW| |lia|int_lia|int_lia].
    intros v Hv. apply largest_height_returns; try done. exact (bounded_legal W v HW Hv).
  - unfold mbind, SM_bind.
    edestruct (search_interval_returns H (proj1 HH) (fun h => largest_width_for_height h W c))
      as (s1 & r & ->); [| | | |by eexists _, _]; [|lia|int_lia|int_lia].
    intros v Hv. apply largest_width_returns; try done. exact (bounded_legal H v HH Hv).
Qed.

Lemma validate_not_nan c :
  validate c = Ret c -> aspect_not_nan (min_aspect c) /\ aspect_not_nan (max_aspect c).
Proof.
  intros H. unfold validate in H. repeat case_match; try done.
  unfold aspect_not_nan, bad_aspect in *.
  split; intros a Ea; rewrite Ea in *; by destruct a.
Qed.

Lemma positive_restricted min max base increment limit l :
  opt_in_u32 min -> opt_in_u32 max -> opt_in_u32 base -> opt_in_u32 increment ->
  min <> Some 0 -> limit < u32_max ->
  restricts (lattice_new min max base increment) limit l -> bounded_lattice l.
Proof.
  intros H1 H2 H3 H4 Hm Hlim (Hok & Hu & Hl & Hv). split; [done|].
  apply Hv in Hl as [(l0 & E & [Hb _]) _]. apply Hv in Hu as [_ Hu]. split; [|lia].
  destruct (lattice_new_ok _ _ _ _ _ H1 H2 H3 H4 E) as (_ & El & _).
  destruct min as [m|]; cbn in El; [|lia]. specialize (H1 m eq_refl). unfold in_u32 in H1.
  destruct (Z.eq_dec m 0); [congruence|lia].
Qed.

(** With at most one aspect bound, and no explicit minimum size of
    zero, the resolver always comes back with a rectangle or an error: no
    candidate loop runs for ever and nothing panics. *)
Theorem resolve_terminates tile c :
  rect_fits tile -> constraints_ok c ->
  min_width c <> Some 0 -> min_height c <> Some 0 ->
  min_aspect c = None \/ max_aspect c = None ->
  settles (resolve_client_rect_within_tile tile c).
Proof.
  intros Ht Hc Hw Hh Hone. pose proof Hc as (C1 & C2 & C3 & C4 & C5 & C6 & C7 & C8).
  destruct (resolve_cases tile c Ht Hc) as [(e & _ & ->)|[(_ & -> & _)|(Ev & W & H & RW & RH & ->)]];
    [done|done|].
  destruct (validate_not_nan c Ev) as [Nmin Nmax].
  apply positive_restricted in RW, RH; try done; try (unfold rect_fits in Ht; int_lia).
  destruct (find_best_returns c W H Hone Nmin Nmax RW RH stats_default) as (s & r & ->).
  cbn [snd]. destruct r as [[w h]|]; cbn [place]; [|done].
  by destruct (LayoutRect_new _ _ _ _).
Qed.

Lemma resolve_terminates_witness :
  let c := mkConstraints None None None None None None None None (Some (f64_lit 2 1)) None in
  constraints_ok c /\ settles (resolve_client_rect_within_tile (mkLayoutRect 0 0 1000 1000) c).
Proof.
  intros c.
  assert (Hc : constraints_ok c).
  { unfold constraints_ok, opt_in_u32; cbn. split_and!; intros v Hv; discriminate Hv. }
  split; [exact Hc|].
  apply (resolve_terminates (mkLayoutRect 0 0 1000 1000) c);
    [unfold rect_fits; cbn; int_lia|exact Hc|discriminate|discriminate|right; reflexivity].
Defined.

(** ** Two aspect bounds *)

(** Two nearby bounds between the ratios 461:553 and 461:552, for a window
    with the fixed width 461. *)
Definition cycling_constraints : LayoutConstraints :=
  mkConstraints (Some 461) None (Some 461) None None None None None
    (Some (S754_finite false 0x1aad22b83ef55b (-53)))
    (Some (S754_finite false 0x1ab981dae6076b (-53))).
Definition cycling_heights : LegalDimensionLattice := mkLattice 1 1000 1 1.

Lemma cycling_step :
  height_step 461 cycling_heights cycling_constraints 552 553 553 = inl 552 /\
  height_step 461 cycling_heights cycling_constraints 552 553 552 = inl 553.
Proof. split; vm_compute; reflexivity. Qed.

Lemma cycling_loop p E :
  loop_res (E := E) p (height_step 461 cycling_heights cycling_constraints 552 553) 553 = NoFuel.
Proof.
  unfold loop_res. rewrite loop_pos_nat.
  pose proof (loop_nat_inv (height_step 461 cycling_heights cycling_constraints 552 553)
    (fun h => h = 552 \/ h = 553) (fun _ => False) (Pos.to_nat p) 553) as H.
  destruct (loop_nat _ _ _); [done|]. destruct H; [|by right].
  intros h [->| ->]; [rewrite (proj2 cycling_step)|rewrite (proj1 cycling_step)]; eauto.
Qed.

Lemma cycling_query s :
  largest_height_for_width 461 cycling_heights cycling_constraints s = (bump_candidates s, NoFuel).
Proof.
  unfold largest_height_for_width, mbind, SM_bind, sm_modify, sm_lift.
  change (match max_aspect cycling_constraints with
          | Some max => Z.max (lower cycling_heights) (ceil_aspect_ratio 461 max)
          | None => lower cycling_heights end)
    with (Z.max 1 (ceil_aspect_ratio 461 (S754_finite false 0x1ab981dae6076b (-53)))).
  change (match min_aspect cycling_constraints with
          | Some min => Z.min (upper cycling_heights) (floor_aspect_ratio 461 min)
          | None => upper cycling_heights end)
    with (Z.min 1000 (floor_aspect_ratio 461 (S754_finite false 0x1aad22b83ef55b (-53)))).
  replace (ceil_aspect_ratio _ _) with 552 by (vm_compute; reflexivity).
  replace (floor_aspect_ratio _ _) with 553 by (vm_compute; reflexivity).
  change (Z.max 1 552) with 552. change (Z.min 1000 553) with 553.
  replace (align_down cycling_heights 553) with (Some 553) by (vm_compute; reflexivity).
  by rewrite cycling_loop.
Qed.

(** A search over one value is that value's query. *)
Lemma search_interval_diverges fuel values query can v s s' :
  value_at values 0 = Some v -> can v v = true -> query v (bump_nodes s) = (s', NoFuel) ->
  search_interval (S fuel) values query can 0 0 s = (s', NoFuel).
Proof.
  intros Ev Hc Hq. cbn [search_interval]. rewrite Ev, Hc. cbn [negb].
  change (0 <? 0) with false. cbv beta iota. unfold mbind, SM_bind, sm_modify. by rewrite Hq.
Qed.

Lemma find_best_inexact c W H s mn mx :
  min_aspect c = Some mn -> max_aspect c = Some mx -> f64_bits_eqb mn mx = false ->
  find_best_lattice_pair W H c s = find_best_lattice_pair_with_stats W H c s.
Proof. intros E1 E2 Eb. unfold find_best_lattice_pair. by rewrite E1, E2, Eb. Qed.

(** C40: two aspect bounds can make the candidate loop of
    [largest_height_for_width] run for ever: for a window of fixed width
    461, the height 553 is rejected downwards to 552, which is rejected
    upwards to 553 again, whatever the fuel; the whole resolver hangs on a
    tile that holds the window. *)
Theorem two_aspect_bounds_diverge :
  validate cycling_constraints = Ret cycling_constraints /\
  (forall p, loop_res (E := Empty_set) p
     (height_step 461 cycling_heights cycling_constraints 552 553) 553 = NoFuel) /\
  resolve_client_rect_within_tile (mkLayoutRect 0 0 461 1000) cycling_constraints = NoFuel.
Proof.
  split; [vm_compute; reflexivity|]. split; [intros p; apply cycling_loop|].
  assert (E : find_best_lattice_pair (mkLattice 461 461 461 1) cycling_heights cycling_constraints
                stats_default = (mkStats 1 1 0, NoFuel)).
  { erewrite (find_best_inexact cycling_constraints); [|reflexivity|reflexivity|reflexivity].
    unfold find_best_lattice_pair_with_stats.
    assert (Ec : cardinality (mkLattice 461 461 461 1) = 1) by reflexivity.
    assert (Eh : cardinality cycling_heights = 1000) by reflexivity. rewrite Ec, Eh.
    change (1 <=? 1000) with true. change (sat_sub 1 1) with 0. cbv beta iota.
    unfold search_widths. change search_fuel with (S 63).
    apply (search_interval_diverges 63 _ _ _ 461);
      [vm_compute; reflexivity|vm_compute; reflexivity|].
    apply cycling_query. }
  unfold resolve_client_rect_within_tile, resolve_client_rect_within_tile_with_stats.
  unfold mbind, SM_bind, sm_lift, widen.
  replace (validate cycling_constraints)
    with (Ret (E := ConstraintValidationError) cycling_constraints) by (vm_compute; reflexivity).
  cbn [map_err].
  repeat match goal with
  | |- context [ok_or Infeasible (minimum_dimension ?a ?b ?c ?d)] =>
      let v := eval vm_compute in (minimum_dimension a b c d) in
      change (minimum_dimension a b c d) with v; cbn [ok_or]
  | |- context [ok_or Infeasible (maximum_dimension ?l ?a ?b ?c ?d)] =>
      let v := eval vm_compute in (maximum_dimension l a b c d) in
      change (maximum_dimension l a b c d) with v; cbn [ok_or]
  | |- context [ok_or Infeasible (lattice_new ?a ?b ?c ?d)] =>
      let v := eval vm_compute in (lattice_new a b c d) in
      change (lattice_new a b c d) with v; cbn [ok_or]
  end.
  change (mkLattice 1 1000 1 1) with cycling_heights. by rewrite E.
Qed.

(** ** Normalisation *)

Lemma reversed_None a : reversed a None = false /\ reversed_aspect None None = false.
Proof. by destruct a. Qed.

(** [normalized] repairs every set of hints: the result always
    validates, valid hints are left alone, and normalising twice is
    normalising once. *)
Theorem normalized_validates c :
  validate (normalized c) = Ret (normalized c) /\
  (validate c = Ret c <-> normalized c = c) /\
  normalized (normalized c) = normalized c.
Proof.
  assert (Hid : forall d, validate d = Ret d -> normalized d = d).
  { intros [w h mw mh bw bh iw ih na xa]. unfold validate, normalized. cbn.
    repeat (case_match; [done|]). done. }
  assert (Hv : validate (normalized c) = Ret (normalized c)).
  { destruct c as [w h mw mh bw bh iw ih na xa]. unfold normalized. cbn.
    destruct (reversed w mw) eqn:E1, (reversed h mh) eqn:E2, (is_some_zero iw) eqn:E3,
      (is_some_zero ih) eqn:E4; unfold validate; cbn;
      destruct (bad_aspect na) eqn:E5, (bad_aspect xa) eqn:E6; cbn;
      (destruct na, xa; cbn [reversed_aspect] in *; try (destruct (f64_gtb _ _) eqn:E7)); cbn;
      rewrite ?E1, ?E2, ?E3, ?E4; cbn in *; rewrite ?E5, ?E6, ?E7;
      try rewrite (proj1 (reversed_None w)); try rewrite (proj1 (reversed_None h)); done. }
  split; [done|]. split; [|by apply Hid].
  split; [by apply Hid|]. intros E. by rewrite E in Hv.
Qed.
