(* ===== verification/Dwindle.v ===== *)
(** * Dwindle: the tiling tree (src/wm/layout/dwindle.rs)

    A binary space partition stored in a generational arena: slots that are
    reused under a new generation, parent links, a window index and the
    insertion order. The first part is the code; the second part relates
    the arena to the binary tree it stores and shows that every operation
    is the obvious operation on that tree. *)

From Stdlib Require Import ZArith Lia.
From stdpp Require Import base gmap list decidable option tactics.
From S2P Require Import Prelude F64 CoreIds LayoutGeometry.
Open Scope Z_scope.

(** ** Nodes *)

(** The index is a [u32] that addresses the slot vector. *)
Record DwindleNodeId : Type := mkNodeId { index : nat; generation : Z }.

#[export] Instance DwindleNodeId_eq_dec : EqDecision DwindleNodeId.
Proof. solve_decision. Defined.
#[export] Instance DwindleNodeId_countable : Countable DwindleNodeId.
Proof.
  refine (inj_countable' (fun i => (index i, generation i)) (fun p => mkNodeId p.1 p.2) _).
  by intros [].
Defined.

Inductive DwindleNodeKind : Type :=
| Leaf (window : Z)
| Split (axis : SplitAxis) (ratio : SplitRatio) (first second : DwindleNodeId).

Record InsertHint : Type := mkHint {
  focused : option Z;
  fallback : option Z;
  pointer : option LayoutPoint;
  anchor_rect : option LayoutRect
}.
Definition InsertHint_default : InsertHint := mkHint None None None None.

Inductive DwindleTreeError : Type :=
| DuplicateWindow (window : Z)
| UnknownWindow (window : Z)
| UnknownNode
| NodeIsNotSplit
| InvalidRatio.

Record DwindleNode : Type := mkNode { parent : option DwindleNodeId; kind : DwindleNodeKind }.

(** ** The arena *)

Record ArenaSlot : Type := mkSlot { slot_generation : Z; node : option DwindleNode }.

(** The head of [free] is the end of the vector, where [push] and [pop]
    work. *)
Record DwindleArena : Type := mkArena { slots : list ArenaSlot; free : list nat }.
Definition DwindleArena_default : DwindleArena := mkArena [] [].

Definition arena_insert {E} (n : DwindleNode) (a : DwindleArena)
    : res E (DwindleArena * DwindleNodeId) :=
  match free a with
  | i :: rest =>
      match slots a !! i with
      | None => Panic
      | Some slot => Ret (mkArena (<[i := mkSlot (slot_generation slot) (Some n)]> (slots a)) rest,
                          mkNodeId i (slot_generation slot))
      end
  | [] =>
      let i := length (slots a) in
      if Z.of_nat i <=? u32_max
      then Ret (mkArena (slots a ++ [mkSlot 1 (Some n)]) [], mkNodeId i 1)
      else Panic
  end.

Definition arena_get (a : DwindleArena) (id : DwindleNodeId) : option DwindleNode :=
  slot ← slots a !! index id;
  if slot_generation slot =? generation id then node slot else None.

(** A write through [get_mut]. *)
Definition arena_update (f : DwindleNode -> DwindleNode) (id : DwindleNodeId) (a : DwindleArena)
    : option DwindleArena :=
  n ← arena_get a id;
  Some (mkArena (<[index id := mkSlot (generation id) (Some (f n))]> (slots a)) (free a)).

Definition arena_remove (id : DwindleNodeId) (a : DwindleArena) : option (DwindleArena * DwindleNode) :=
  n ← arena_get a id;
  Some (if generation id <? u32_max
        then mkArena (<[index id := mkSlot (generation id + 1) None]> (slots a)) (index id :: free a)
        else mkArena (<[index id := mkSlot (generation id) None]> (slots a)) (free a), n).

Definition live_count (a : DwindleArena) : nat := length (filter (fun s => is_Some (node s)) (slots a)).

(** ** The tree *)

Record DwindleTree : Type := mkTree {
  root : option DwindleNodeId;
  nodes : DwindleArena;
  by_window : gmap Z DwindleNodeId;
  insertion_order : list Z;
  topology_generation : Z
}.
Definition DwindleTree_default : DwindleTree := mkTree None DwindleArena_default ∅ [] 0.

Definition tree_len (t : DwindleTree) : nat := size (by_window t).
Definition tree_is_empty (t : DwindleTree) : bool := bool_decide (by_window t = ∅).
Definition contains_window (t : DwindleTree) (w : Z) : bool := bool_decide (is_Some (by_window t !! w)).
Definition leaf_for_window (t : DwindleTree) (w : Z) : option DwindleNodeId := by_window t !! w.
Definition node_kind (t : DwindleTree) (id : DwindleNodeId) : option DwindleNodeKind :=
  kind <$> arena_get (nodes t) id.
Definition parent_of (t : DwindleTree) (id : DwindleNodeId) : option (option DwindleNodeId) :=
  parent <$> arena_get (nodes t) id.
Definition leaves (t : DwindleTree) : list (Z * DwindleNodeId) :=
  omap (fun w => pair w <$> by_window t !! w) (insertion_order t).

(** Field updates. *)
Definition set_root (r : option DwindleNodeId) (t : DwindleTree) : DwindleTree :=
  mkTree r (nodes t) (by_window t) (insertion_order t) (topology_generation t).
Definition set_nodes (a : DwindleArena) (t : DwindleTree) : DwindleTree :=
  mkTree (root t) a (by_window t) (insertion_order t) (topology_generation t).
Definition set_index (m : gmap Z DwindleNodeId) (order : list Z) (t : DwindleTree) : DwindleTree :=
  mkTree (root t) (nodes t) m order (topology_generation t).
Definition bump_topology (t : DwindleTree) : DwindleTree :=
  mkTree (root t) (nodes t) (by_window t) (insertion_order t)
    (sat_add u64_max (topology_generation t) 1).

Abbreviation TreeM A := (SM DwindleTree DwindleTreeError A).

(** The arena operations on the [nodes] field. *)
Definition nodes_insert (n : DwindleNode) : TreeM DwindleNodeId := fun t =>
  match arena_insert n (nodes t) with
  | Ret (a, id) => (set_nodes a t, Ret id)
  | Fail e => (t, Fail e)
  | Panic => (t, Panic)
  | NoFuel => (t, NoFuel)
  end.
Definition nodes_get (id : DwindleNodeId) : TreeM (option DwindleNode) := fun t =>
  (t, Ret (arena_get (nodes t) id)).
(** [self.nodes.get_mut(id).expect(_)] with a write to the node. *)
Definition nodes_update (f : DwindleNode -> DwindleNode) (id : DwindleNodeId) : TreeM unit := fun t =>
  match arena_update f id (nodes t) with
  | Some a => (set_nodes a t, Ret tt)
  | None => (t, Panic)
  end.
(** [self.nodes.remove(id).expect(_)] *)
Definition nodes_remove (id : DwindleNodeId) : TreeM unit := fun t =>
  match arena_remove id (nodes t) with
  | Some (a, _) => (set_nodes a t, Ret tt)
  | None => (t, Panic)
  end.

Definition with_parent (p : option DwindleNodeId) (n : DwindleNode) : DwindleNode := mkNode p (kind n).
Definition with_kind (k : DwindleNodeKind) (n : DwindleNode) : DwindleNode := mkNode (parent n) k.

Definition set_split_ratio (id : DwindleNodeId) (value : f64) : TreeM unit :=
  ratio ← sm_lift (ok_or InvalidRatio (SplitRatio_new value));
  o ← nodes_get id;
  n ← sm_lift (ok_or UnknownNode o);
  match kind n with
  | Leaf _ => sm_lift (Fail NodeIsNotSplit)
  | Split axis _ first second => nodes_update (with_kind (Split axis ratio first second)) id
  end.

Definition replace_child (par old new : DwindleNodeId) : TreeM unit :=
  o ← nodes_get par;
  n ← sm_lift (expect o);
  match kind n with
  | Leaf _ => sm_lift Panic
  | Split axis ratio first second =>
      if decide (first = old) then nodes_update (with_kind (Split axis ratio new second)) par
      else if decide (second = old) then nodes_update (with_kind (Split axis ratio first new)) par
      else sm_lift Panic
  end.

(** The loop of [first_leaf_window]: each step goes down one level, so the
    number of slots bounds it. *)
Fixpoint first_leaf_loop (fuel : nat) (a : DwindleArena) (current : DwindleNodeId)
    : res DwindleTreeError (option Z) :=
  match fuel with
  | O => NoFuel
  | S fuel =>
      match arena_get a current with
      | None => Ret None
      | Some n =>
          match kind n with
          | Leaf window => Ret (Some window)
          | Split _ _ first _ => first_leaf_loop fuel a first
          end
      end
  end.

Definition first_leaf_window (t : DwindleTree) : res DwindleTreeError (option Z) :=
  match root t with
  | None => Ret None
  | Some r => first_leaf_loop (S (length (slots (nodes t)))) (nodes t) r
  end.

Definition pointer_prefers_first (pointer : option LayoutPoint) (rect : LayoutRect) (axis : SplitAxis)
    : option bool :=
  p ← pointer;
  if (px p <? rx rect) || (rect_right rect <=? px p) || (py p <? ry rect) || (rect_bottom rect <=? py p)
  then None
  else Some match axis with
            | Horizontal => px p <? sat_add_i32 (rx rect) (rwidth rect / 2)
            | Vertical => py p <? sat_add_i32 (ry rect) (rheight rect / 2)
            end.

Definition filter_contained (t : DwindleTree) (candidate : option Z) : option Z :=
  w ← candidate; if contains_window t w then Some w else None.

(** The anchor: the focused window, else the fallback, else the first leaf. *)
Definition anchor_window (hint : InsertHint) (t : DwindleTree) : res DwindleTreeError (option Z) :=
  match filter_contained t (focused hint) with
  | Some w => Ret (Some w)
  | None =>
      match filter_contained t (fallback hint) with
      | Some w => Ret (Some w)
      | None => first_leaf_window t
      end
  end.

Definition hint_rect (hint : InsertHint) : LayoutRect :=
  default (mkLayoutRect 0 0 1 1) (anchor_rect hint).
Definition hint_axis (hint : InsertHint) : SplitAxis :=
  if rheight (hint_rect hint) <=? rwidth (hint_rect hint) then Horizontal else Vertical.
Definition hint_new_first (hint : InsertHint) : bool :=
  default false (pointer_prefers_first (pointer hint) (hint_rect hint) (hint_axis hint)).

(** The bookkeeping at the end of [insert]. *)
Definition register_leaf (window : Z) (leaf : DwindleNodeId) : TreeM unit :=
  sm_modify (fun t => bump_topology
    (set_index (<[window := leaf]> (by_window t)) (insertion_order t ++ [window]) t)).

Definition insert (window : Z) (hint : InsertHint) : TreeM DwindleNodeId :=
  t ← sm_get;
  if contains_window t window then sm_lift (Fail (DuplicateWindow window))
  else
    leaf ← nodes_insert (mkNode None (Leaf window));
    match root t with
    | None =>
        _ ← sm_modify (set_root (Some leaf));
        _ ← register_leaf window leaf;
        mret leaf
    | Some _ =>
        t1 ← sm_get;
        o ← sm_lift (anchor_window hint t1);
        anchor_w ← sm_lift (expect o);
        anchor ← sm_lift (expect (by_window t1 !! anchor_w));
        o ← nodes_get anchor;
        n ← sm_lift (expect o);
        let axis := hint_axis hint in
        let '(first, second) := if hint_new_first hint then (leaf, anchor) else (anchor, leaf) in
        split ← nodes_insert (mkNode (parent n) (Split axis SplitRatio_DEFAULT first second));
        _ ← nodes_update (with_parent (Some split)) first;
        _ ← nodes_update (with_parent (Some split)) second;
        _ ← match parent n with
            | Some p => replace_child p anchor split
            | None => sm_modify (set_root (Some split))
            end;
        _ ← register_leaf window leaf;
        mret leaf
    end.

Definition unregister (window : Z) : TreeM unit :=
  sm_modify (fun t => set_index (delete window (by_window t))
    (filter (fun w => w <> window) (insertion_order t)) t).

Definition remove (window : Z) : TreeM unit :=
  t ← sm_get;
  leaf ← sm_lift (ok_or (UnknownWindow window) (by_window t !! window));
  o ← nodes_get leaf;
  n ← sm_lift (expect o);
  _ ← unregister window;
  match parent n with
  | None =>
      _ ← nodes_remove leaf;
      _ ← sm_modify (set_root None);
      sm_modify bump_topology
  | Some par =>
      o ← nodes_get par;
      pn ← sm_lift (expect o);
      '(first, second) ← sm_lift (match kind pn with
                                  | Split _ _ first second => Ret (first, second)
                                  | Leaf _ => Panic
                                  end);
      let sibling := if decide (first = leaf) then second else first in
      let grandparent := parent pn in
      _ ← nodes_remove leaf;
      _ ← nodes_remove par;
      _ ← nodes_update (with_parent grandparent) sibling;
      _ ← match grandparent with
          | Some g => replace_child g par sibling
          | None => sm_modify (set_root (Some sibling))
          end;
      sm_modify bump_topology
  end.

(** ** [debug_validate] *)

(** The messages of [debug_validate] and [validate_node]. *)
Inductive ValidateError : Type :=
| EmptyTreeRetains
| RootIsStale
| RootHasParent
| OrphanLiveNode
| IndexMismatch
| OrderMismatch
| CycleOrDuplicate
| StaleChild
| ParentMismatch
| DuplicateLeaf
| InvalidSplitNode.

Record ValidateState : Type := mkVisit {
  visited : gset DwindleNodeId;
  seen_leaves : gmap Z DwindleNodeId
}.

(** Each call marks a new node, so the recursion is no deeper than the
    number of slots plus one. *)
Fixpoint validate_node (fuel : nat) (a : DwindleArena) (id : DwindleNodeId)
    (expected_parent : option DwindleNodeId) : SM ValidateState ValidateError unit :=
  match fuel with
  | O => sm_lift NoFuel
  | S fuel =>
      v ← sm_get;
      if decide (id ∈ visited v) then sm_lift (Fail CycleOrDuplicate)
      else
        _ ← sm_modify (fun v => mkVisit ({[id]} ∪ visited v) (seen_leaves v));
        n ← sm_lift (ok_or StaleChild (arena_get a id));
        if decide (parent n = expected_parent) then
          match kind n with
          | Leaf window =>
              v ← sm_get;
              _ ← sm_modify (fun v => mkVisit (visited v) (<[window := id]> (seen_leaves v)));
              if decide (is_Some (seen_leaves v !! window)) then sm_lift (Fail DuplicateLeaf)
              else mret tt
          | Split _ ratio first second =>
              if decide (first = second) then sm_lift (Fail InvalidSplitNode)
              else if SplitRatio_new (ratio_value ratio) is Some _ then
                _ ← validate_node fuel a first (Some id);
                validate_node fuel a second (Some id)
              else sm_lift (Fail InvalidSplitNode)
          end
        else sm_lift (Fail ParentMismatch)
  end.

Definition debug_validate (t : DwindleTree) : res ValidateError unit :=
  match root t with
  | None =>
      if decide (live_count (nodes t) <> 0%nat \/ by_window t <> ∅ \/ insertion_order t <> [])
      then Fail EmptyTreeRetains else Ret tt
  | Some r =>
      match arena_get (nodes t) r with
      | None => Fail RootIsStale
      | Some n =>
          if decide (is_Some (parent n)) then Fail RootHasParent
          else
            let '(v, m) := validate_node (S (S (length (slots (nodes t))))) (nodes t) r None
                             (mkVisit ∅ ∅) in
            _ ← m;
            if decide (size (visited v) <> live_count (nodes t)) then Fail OrphanLiveNode
            else if decide (seen_leaves v <> by_window t) then Fail IndexMismatch
            else if decide (length (insertion_order t) <> size (seen_leaves v) \/
                            size (list_to_set (insertion_order t) : gset Z) <> length (insertion_order t) \/
                            Exists (fun w => seen_leaves v !! w = None) (insertion_order t))
            then Fail OrderMismatch
            else Ret tt
      end
  end.

(** ** The arena as a finite map *)

(** Free slots are empty, generations are positive [u32] values. *)
Definition arena_ok (a : DwindleArena) : Prop :=
  NoDup (free a) /\
  (forall i, i ∈ free a -> exists s, slots a !! i = Some s /\ node s = None) /\
  (forall i s, slots a !! i = Some s -> 1 <= slot_generation s <= u32_max).

Lemma arena_get_Some a id n :
  arena_get a id = Some n <-> slots a !! index id = Some (mkSlot (generation id) (Some n)).
Proof.
  unfold arena_get. destruct (slots a !! index id) as [[g o]|]; cbn; [|naive_solver].
  destruct (Z.eqb_spec g (generation id)); naive_solver.
Qed.

(** Two live nodes with the same index are the same node. *)
Lemma arena_get_index a id id' n n' :
  arena_get a id = Some n -> arena_get a id' = Some n' -> index id = index id' -> id = id'.
Proof.
  rewrite !arena_get_Some. destruct id, id'; cbn. intros H1 H2 ->. congruence.
Qed.

Lemma arena_get_frame a b i id :
  (forall j, j <> i -> slots b !! j = slots a !! j) -> index id <> i -> arena_get b id = arena_get a id.
Proof. intros H Hi. unfold arena_get. by rewrite H. Qed.

Lemma arena_insert_spec n a :
  arena_ok a -> (free a = [] -> Z.of_nat (length (slots a)) <= u32_max) ->
  exists b id, (forall E, arena_insert (E := E) n a = Ret (b, id)) /\ arena_ok b /\
    arena_get a id = None /\ arena_get b id = Some n /\
    (length (slots b) <= S (length (slots a)))%nat /\
    forall id', id' <> id -> arena_get b id' = arena_get a id'.
Proof.
  intros (Hnd & Hfree & Hgen) Hlen. unfold arena_insert.
  destruct (free a) as [|i rest] eqn:Ef.
  - specialize (Hlen eq_refl). destruct (Z.leb_spec (Z.of_nat (length (slots a))) u32_max); [|lia].
    eexists _, _. split; [done|]. split; [|split; [|split; [|split]]].
    + split; [apply NoDup_nil_2|]. split; [set_solver|]. cbn. intros j s Hj.
      apply lookup_app_Some in Hj as [Hj|[_ Hj]]; [by eapply Hgen|].
      apply list_lookup_singleton_Some in Hj as [_ <-]. cbn. int_lia.
    + unfold arena_get. cbn. by rewrite lookup_ge_None_2.
    + unfold arena_get. cbn. by rewrite list_lookup_middle.
    + cbn. rewrite length_app. cbn. lia.
    + intros id' Hne. unfold arena_get. cbn.
      destruct (decide (index id' < length (slots a))%nat) as [Hlt|Hge].
      { by rewrite lookup_app_l. }
      rewrite (lookup_ge_None_2 (slots a)) by lia. cbn.
      destruct (decide (index id' = length (slots a))) as [E|E].
      * rewrite E, list_lookup_middle by done. cbn [mbind option_bind slot_generation node].
        destruct (Z.eqb_spec 1 (generation id')) as [Eg|]; [|done].
        destruct Hne. destruct id'; cbn in *. by subst.
      * by rewrite lookup_ge_None_2 by (rewrite length_app; cbn; lia).
  - destruct (Hfree i) as ([g o] & Ei & Eo); [set_solver|]. cbn in Eo. subst o. rewrite Ei.
    pose proof (lookup_lt_Some _ _ _ Ei) as Hlt. apply list.NoDup_cons in Hnd as [Hni Hnd].
    eexists _, _. split; [done|]. split; [|split; [|split; [|split]]].
    + split; [done|]. cbn. split.
      * intros j Hj. destruct (Hfree j) as (s & Es & Hs); [set_solver|].
        exists s. by rewrite list_lookup_insert_ne by set_solver.
      * intros j s Hj. apply list_lookup_insert_Some in Hj as [(<- & <- & _)|[_ Hj]]; cbn; eauto.
        apply (Hgen i _ Ei).
    + unfold arena_get. cbn. rewrite Ei. cbn. by destruct (_ =? _).
    + unfold arena_get. cbn. rewrite list_lookup_insert_eq by done. cbn. by rewrite Z.eqb_refl.
    + cbn. rewrite length_insert. lia.
    + intros id' Hne. unfold arena_get. cbn.
      destruct (decide (index id' = i)) as [<-|E]; [|by rewrite list_lookup_insert_ne by congruence].
      rewrite Ei, list_lookup_insert_eq by done. cbn.
      destruct (Z.eqb_spec g (generation id')) as [Eg|]; [|done].
      destruct Hne. destruct id'; cbn in *. by subst.
Qed.

Lemma arena_update_spec f id a n :
  arena_ok a -> arena_get a id = Some n ->
  exists b, arena_update f id a = Some b /\ arena_ok b /\ length (slots b) = length (slots a) /\
    arena_get b id = Some (f n) /\ forall id', id' <> id -> arena_get b id' = arena_get a id'.
Proof.
  intros (Hnd & Hfree & Hgen) Hn. unfold arena_update. rewrite Hn. cbn.
  pose proof Hn as Hn'. apply arena_get_Some in Hn'. pose proof (lookup_lt_Some _ _ _ Hn') as Hlt.
  eexists. split; [done|]. split; [|split; [|split]].
  - split; [done|]. cbn. split.
    + intros j Hj. destruct (Hfree j Hj) as (s & Es & Hs). exists s. split; [|done].
      rewrite list_lookup_insert_ne; [done|]. intros <-. rewrite Hn' in Es. by injection Es as <-.
    + intros j s Hj. apply list_lookup_insert_Some in Hj as [(<- & <- & _)|[_ Hj]]; cbn; eauto.
      apply (Hgen _ _ Hn').
  - cbn. by rewrite length_insert.
  - unfold arena_get. cbn. rewrite list_lookup_insert_eq by done. cbn. by rewrite Z.eqb_refl.
  - intros id' Hne. unfold arena_get. cbn.
    destruct (decide (index id' = index id)) as [E|E]; [|by rewrite list_lookup_insert_ne by congruence].
    rewrite E, Hn', list_lookup_insert_eq by done. cbn.
    destruct (Z.eqb_spec (generation id) (generation id')) as [Eg|]; [|done].
    destruct Hne. destruct id', id; cbn in *. by subst.
Qed.

Lemma arena_remove_spec id a n :
  arena_ok a -> arena_get a id = Some n ->
  exists b, arena_remove id a = Some (b, n) /\ arena_ok b /\ length (slots b) = length (slots a) /\
    arena_get b id = None /\ forall id', id' <> id -> arena_get b id' = arena_get a id'.
Proof.
  intros (Hnd & Hfree & Hgen) Hn. unfold arena_remove. rewrite Hn. cbn.
  pose proof Hn as Hn'. apply arena_get_Some in Hn'. pose proof (lookup_lt_Some _ _ _ Hn') as Hlt.
  assert (Hnf : index id ∉ free a).
  { intros Hin. destruct (Hfree _ Hin) as (s & Es & Hs). rewrite Hn' in Es. by injection Es as <-. }
  pose proof (Hgen _ _ Hn') as Hg. cbn in Hg.
  set (g' := if generation id <? u32_max then generation id + 1 else generation id).
  set (sl := <[index id := mkSlot g' None]> (slots a)).
  assert (Hget : forall fr id', arena_get (mkArena sl fr) id'
                 = if decide (id' = id) then None else arena_get a id').
  { intros fr id'. unfold arena_get, sl. cbn.
    destruct (decide (index id' = index id)) as [E|E].
    - rewrite E, Hn', list_lookup_insert_eq by done. cbn. destruct (decide (id' = id)); [by destruct (_ =? _)|].
      destruct (Z.eqb_spec (generation id) (generation id')) as [Eg|]; [|by destruct (_ =? _)].
      destruct id', id; cbn in *; congruence.
    - rewrite list_lookup_insert_ne by congruence. destruct (decide (id' = id)); [congruence|done]. }
  assert (Hgen' : forall i s, sl !! i = Some s -> 1 <= slot_generation s <= u32_max).
  { intros j s Hj. apply list_lookup_insert_Some in Hj as [(<- & <- & _)|[_ Hj]]; cbn; eauto.
    unfold g'. destruct (Z.ltb_spec (generation id) u32_max); lia. }
  assert (Hsl : forall i, i ∈ free a \/ i = index id -> exists s, sl !! i = Some s /\ node s = None).
  { intros j [Hj| ->]; unfold sl.
    - destruct (Hfree j Hj) as (s & Es & Hs). exists s. split; [|done].
      rewrite list_lookup_insert_ne by congruence. done.
    - rewrite list_lookup_insert_eq by done. eauto. }
  set (fr := if generation id <? u32_max then index id :: free a else free a).
  exists (mkArena sl fr).
  split; [unfold sl, fr, g'; by destruct (generation id <? u32_max)|].
  split; [|split; [|split]].
  - split_and!; cbn; [|intros j Hj; apply Hsl|done].
    + unfold fr. destruct (_ <? _); [by constructor|done].
    + unfold fr in Hj. destruct (_ <? _); [set_solver|by left].
  - cbn. unfold sl. by rewrite length_insert.
  - rewrite Hget. by rewrite decide_True.
  - intros id' Hne. rewrite Hget. by rewrite decide_False.
Qed.

(** ** The binary tree an arena stores *)

Inductive btree : Type :=
| BLeaf (id : DwindleNodeId) (window : Z)
| BSplit (id : DwindleNodeId) (axis : SplitAxis) (ratio : SplitRatio) (l r : btree).

Definition broot (b : btree) : DwindleNodeId :=
  match b with BLeaf id _ => id | BSplit id _ _ _ _ => id end.
Fixpoint bids (b : btree) : list DwindleNodeId :=
  match b with BLeaf id _ => [id] | BSplit id _ _ l r => id :: bids l ++ bids r end.
Fixpoint bleaves (b : btree) : list (Z * DwindleNodeId) :=
  match b with BLeaf id w => [(w, id)] | BSplit _ _ _ l r => bleaves l ++ bleaves r end.
Definition bwindows (b : btree) : list Z := (bleaves b).*1.
Fixpoint bratios_ok (b : btree) : Prop :=
  match b with
  | BLeaf _ _ => True
  | BSplit _ _ ratio l r => is_Some (SplitRatio_new (ratio_value ratio)) /\ bratios_ok l /\ bratios_ok r
  end.

(** [rep get p b]: the nodes [get] returns are those of [b], whose root has
    the parent [p]. *)
Fixpoint rep (get : DwindleNodeId -> option DwindleNode) (p : option DwindleNodeId) (b : btree) : Prop :=
  match b with
  | BLeaf id w => get id = Some (mkNode p (Leaf w))
  | BSplit id axis ratio l r =>
      get id = Some (mkNode p (Split axis ratio (broot l) (broot r))) /\
      rep get (Some id) l /\ rep get (Some id) r
  end.

Lemma broot_in b : broot b ∈ bids b.
Proof. destruct b; cbn; set_solver. Qed.

Lemma rep_live get p b id : rep get p b -> id ∈ bids b -> is_Some (get id).
Proof.
  revert p. induction b as [i w|i ax ra l IHl r IHr]; cbn; intros p H Hin.
  - apply list_elem_of_singleton in Hin as ->. by rewrite H.
  - destruct H as (H & Hl & Hr). apply elem_of_cons in Hin as [->|Hin]; [by rewrite H|].
    apply elem_of_app in Hin as [Hin|Hin]; eauto.
Qed.

Lemma rep_frame get get' p b :
  rep get p b -> (forall id, id ∈ bids b -> get' id = get id) -> rep get' p b.
Proof.
  revert p. induction b as [i w|i ax ra l IHl r IHr]; cbn; intros p H Heq.
  - rewrite Heq; set_solver.
  - destruct H as (H & Hl & Hr). split; [rewrite Heq; set_solver|].
    split; [apply IHl|apply IHr]; set_solver.
Qed.

(** Changing the parent of the root. *)
Lemma rep_reparent get get' p p' b n :
  rep get p b -> NoDup (bids b) ->
  get (broot b) = Some n -> get' (broot b) = Some (with_parent p' n) ->
  (forall id, id ∈ bids b -> id <> broot b -> get' id = get id) -> rep get' p' b.
Proof.
  destruct b as [i w|i ax ra l r]; cbn; intros H Hnd Hn Hn' Heq.
  - rewrite H in Hn. injection Hn as <-. done.
  - destruct H as (H & Hl & Hr). rewrite H in Hn. injection Hn as <-.
    apply list.NoDup_cons in Hnd as [Hi Hnd]. split; [done|].
    split; (eapply rep_frame; [done|]); intros id Hid; apply Heq; set_solver.
Qed.

Lemma rep_root get p b : rep get p b -> exists k, get (broot b) = Some (mkNode p k).
Proof. destruct b; cbn; naive_solver. Qed.

Lemma bleaves_bids b w id : (w, id) ∈ bleaves b -> id ∈ bids b.
Proof. induction b; cbn; set_solver. Qed.

Lemma rep_leaf get p b w id :
  rep get p b -> (w, id) ∈ bleaves b -> exists q, get id = Some (mkNode q (Leaf w)).
Proof.
  revert p. induction b as [i v|i ax ra l IHl r IHr]; cbn; intros p H Hin.
  - apply list_elem_of_singleton in Hin as [= -> ->]. eauto.
  - destruct H as (H & Hl & Hr). apply elem_of_app in Hin as [Hin|Hin]; eauto.
Qed.

(** ** Replacing a subtree *)

Fixpoint bfind (old : DwindleNodeId) (b : btree) : option btree :=
  if decide (broot b = old) then Some b
  else match b with
       | BLeaf _ _ => None
       | BSplit _ _ _ l r => match bfind old l with Some s => Some s | None => bfind old r end
       end.

Fixpoint breplace (old : DwindleNodeId) (s b : btree) : btree :=
  if decide (broot b = old) then s
  else match b with
       | BLeaf _ _ => b
       | BSplit i axis ratio l r => BSplit i axis ratio (breplace old s l) (breplace old s r)
       end.

(** What [replace_child] does to the parent's kind. *)
Definition redirect (old new : DwindleNodeId) (k : DwindleNodeKind) : DwindleNodeKind :=
  match k with
  | Leaf _ => k
  | Split axis ratio first second =>
      if decide (first = old) then Split axis ratio new second
      else if decide (second = old) then Split axis ratio first new
      else k
  end.

Lemma breplace_notin old s b : old ∉ bids b -> breplace old s b = b.
Proof.
  induction b as [i w|i ax ra l IHl r IHr]; cbn; intros H.
  - destruct (decide (i = old)) as [->|]; [set_solver|done].
  - destruct (decide (i = old)) as [->|]; [set_solver|].
    rewrite IHl, IHr by set_solver. done.
Qed.

Lemma broot_breplace old s b :
  broot (breplace old s b) = if decide (broot b = old) then broot s else broot b.
Proof. destruct b; cbn; by destruct (decide _). Qed.

Lemma bfind_notin old b : old ∉ bids b -> bfind old b = None.
Proof.
  induction b as [i w|i ax ra l IHl r IHr]; cbn; intros H.
  - destruct (decide (i = old)) as [->|]; [set_solver|done].
  - destruct (decide (i = old)) as [->|]; [set_solver|].
    rewrite IHl, IHr by set_solver. done.
Qed.

(** The subtree found, and how its nodes and leaves sit in the tree. *)
Lemma bfind_spec old b s :
  old ∈ bids b -> NoDup (bids b) ->
  exists sub ids lvs, bfind old b = Some sub /\ broot sub = old /\
    bids b ≡ₚ bids sub ++ ids /\ bids (breplace old s b) ≡ₚ bids s ++ ids /\
    bleaves b ≡ₚ bleaves sub ++ lvs /\ bleaves (breplace old s b) ≡ₚ bleaves s ++ lvs.
Proof.
  induction b as [i w|i ax ra l IHl r IHr]; cbn; intros Hin Hnd.
  - apply list_elem_of_singleton in Hin as ->. rewrite !decide_True by done.
    exists (BLeaf i w), [], []. rewrite !app_nil_r. done.
  - destruct (decide (i = old)) as [->|Hne].
    { exists (BSplit old ax ra l r), [], []. rewrite !app_nil_r. done. }
    apply list.NoDup_cons in Hnd as [Hi Hnd]. apply list.NoDup_app in Hnd as (Hl & Hlr & Hr).
    apply elem_of_cons in Hin as [->|Hin]; [done|]. apply elem_of_app in Hin as [Hin|Hin].
    + destruct (IHl Hin Hl) as (sub & ids & lvs & E & Er & P1 & P2 & P3 & P4). rewrite E.
      exists sub, (i :: ids ++ bids r), (lvs ++ bleaves r). cbn.
      rewrite (breplace_notin old s r) by (by apply Hlr).
      split; [done|]. split; [done|]. rewrite P1, P2, P3, P4, <- !app_assoc.
      split; [by rewrite Permutation_middle|]. split; [by rewrite Permutation_middle|done].
    + assert (Hnl : old ∉ bids l) by (intros Hol; by apply (Hlr old)).
      destruct (IHr Hin Hr) as (sub & ids & lvs & E & Er & P1 & P2 & P3 & P4).
      rewrite (bfind_notin old l Hnl), (breplace_notin old s l Hnl).
      exists sub, (i :: bids l ++ ids), (bleaves l ++ lvs). cbn.
      split; [done|]. split; [done|]. rewrite P1, P2, P3, P4.
      split; [rewrite (app_assoc (bids l)), (Permutation_app_comm (bids l) (bids sub)), <- app_assoc;
              by rewrite Permutation_middle|].
      split; [rewrite (app_assoc (bids l)), (Permutation_app_comm (bids l) (bids s)), <- app_assoc;
              by rewrite Permutation_middle|].
      split; rewrite (app_assoc (bleaves l)), (app_assoc _ (bleaves l)); f_equiv;
        apply Permutation_app_comm.
Qed.

Lemma bfind_subset old b sub : bfind old b = Some sub -> forall j, j ∈ bids sub -> j ∈ bids b.
Proof.
  revert sub. induction b as [i w|i ax ra l IHl r IHr]; cbn; intros sub.
  - destruct (decide _); [|done]. intros [= <-]. done.
  - destruct (decide _); [intros [= <-]; done|]. destruct (bfind old l) eqn:E.
    + intros [= <-]. set_solver.
    + intros. set_solver.
Qed.

Lemma bfind_rep get p b old sub :
  rep get p b -> NoDup (bids b) -> bfind old b = Some sub ->
  exists q, rep get q sub /\
    ((broot b = old /\ q = p) \/ (broot b <> old /\ exists pid, q = Some pid /\ pid ∈ bids b /\ pid ∉ bids sub)).
Proof.
  revert p. induction b as [i w|i ax ra l IHl r IHr]; cbn; intros p H Hnd.
  - destruct (decide (i = old)) as [->|]; [|done]. intros [= <-]. eauto.
  - destruct (decide (i = old)) as [->|Hne]; [intros [= <-]; exists p; cbn; eauto|].
    destruct H as (H & Hl & Hr). apply list.NoDup_cons in Hnd as [Hi Hnd].
    apply list.NoDup_app in Hnd as (Nl & Nlr & Nr).
    destruct (bfind old l) as [sl|] eqn:El; [intros [= <-]|intros Er].
    + destruct (IHl _ Hl Nl eq_refl) as (q & Hq & Hcase). exists q. split; [done|]. right.
      split; [done|]. destruct Hcase as [[_ ->]|(_ & pid & -> & Hp & Hps)].
      * exists i. split; [done|]. split; [set_solver|]. intros Hin. apply (bfind_subset _ _ _ El) in Hin. set_solver.
      * exists pid. set_solver.
    + destruct (IHr _ Hr Nr Er) as (q & Hq & Hcase). exists q. split; [done|]. right.
      split; [done|]. destruct Hcase as [[_ ->]|(_ & pid & -> & Hp & Hps)].
      * exists i. split; [done|]. split; [set_solver|]. intros Hin. apply (bfind_subset _ _ _ Er) in Hin. set_solver.
      * exists pid. set_solver.
Qed.

(** Replacing the subtree at [old] by [s]: it is enough that the parent of
    [old] is redirected to the root of [s], that [s] is stored under that
    parent, and that the nodes outside the subtree are kept. *)
Lemma rep_replace get get' p b old sub s q :
  rep get p b -> NoDup (bids b) -> bfind old b = Some sub -> rep get q sub ->
  rep get' q s ->
  (forall id, id ∈ bids b -> id ∉ bids sub -> q <> Some id -> get' id = get id) ->
  (forall pid n, q = Some pid -> pid ∈ bids b -> get pid = Some n ->
     get' pid = Some (with_kind (redirect old (broot s) (kind n)) n)) ->
  rep get' p (breplace old s b).
Proof.
  intros Hb Hnd Hf Hq Hs. revert p Hb. induction b as [i w|i ax ra l IHl r IHr].
  { cbn in Hf |- *. intros p Hb _ _. destruct (decide (i = old)) as [->|]; [|done].
    injection Hf as <-. cbn in *. rewrite Hb in Hq. by injection Hq as ->. }
  intros p Hb Hother Hpar. cbn [bfind breplace broot] in *.
  destruct (decide (i = old)) as [->|Hne].
  { injection Hf as <-. apply rep_root in Hb as [k Hk]. apply rep_root in Hq as [k' Hk'].
    cbn in Hk, Hk'. rewrite Hk in Hk'. by injection Hk' as ->. }
  cbn in Hb, Hnd. destruct Hb as (Hi & Hl & Hr). apply list.NoDup_cons in Hnd as [Ni Hnd].
  apply list.NoDup_app in Hnd as (Nl & Nlr & Nr). cbn [rep]. rewrite !broot_breplace.
  assert (Hroot : forall x, broot x = old -> bfind old x = Some x)
    by (intros [|] Hx; cbn in *; by rewrite decide_True).
  assert (Hqq : forall x, rep get (Some i) x -> NoDup (bids x) -> i ∉ bids x -> bfind old x = Some sub ->
            (broot x = old /\ q = Some i) \/ (broot x <> old /\ exists pid, q = Some pid /\ pid ∈ bids x)).
  { intros x Hx Nx Hix Hfx. destruct (bfind_rep _ _ _ _ _ Hx Nx Hfx) as (q' & Hq' & Hc).
    assert (q' = q) as ->; [|naive_solver].
    apply rep_root in Hq as [k Hk]. apply rep_root in Hq' as [k' Hk']. congruence. }
  destruct (bfind old l) as [sl|] eqn:El.
  - injection Hf as ->. pose proof (bfind_subset _ _ _ El) as Hsub.
    assert (Hor : old ∉ bids r).
    { intros Hor. destruct (bfind_spec old l s) as (sub' & _ & _ & E & Er & _); [|done|].
      - destruct (decide (old ∈ bids l)) as [|Hn]; [done|]. by rewrite (bfind_notin _ _ Hn) in El.
      - rewrite El in E. injection E as <-. apply (Nlr old); [apply Hsub; rewrite <- Er; apply broot_in|done]. }
    rewrite (breplace_notin old s r Hor).
    destruct (Hqq l Hl Nl ltac:(set_solver) El) as [[E ->]|(E & pid & -> & Hpid)].
    + rewrite (decide_True _ _ E), decide_False by (intros <-; apply Hor, broot_in).
      split; [|split].
      * rewrite (Hpar i _ eq_refl ltac:(set_solver) Hi). cbn. by rewrite decide_True.
      * apply IHl; try done; intros; [apply Hother|eapply Hpar]; cbn in *; set_solver.
      * eapply rep_frame; [exact Hr|]. intros id Hid. apply Hother; cbn; [set_solver| |].
        -- intros Hin. apply (Nlr id); [by apply Hsub|done].
        -- intros [= ->]. set_solver.
    + rewrite (decide_False _ _ E), decide_False by (intros <-; apply Hor, broot_in).
      split; [|split].
      * rewrite Hother; [done|cbn; set_solver| |]; [|intros [= ->]; set_solver].
        intros Hin. apply Hsub in Hin. set_solver.
      * apply IHl; try done; intros; [apply Hother|eapply Hpar]; cbn in *; set_solver.
      * eapply rep_frame; [exact Hr|]. intros id Hid. apply Hother; cbn; [set_solver| |].
        -- intros Hin. apply (Nlr id); [by apply Hsub|done].
        -- intros [= ->]. by apply (Nlr id).
  - pose proof (bfind_subset _ _ _ Hf) as Hsub.
    assert (Hor : old ∉ bids l).
    { intros Hol. destruct (bfind_spec old l s Hol Nl) as (sub' & _ & _ & E & _). congruence. }
    rewrite (breplace_notin old s l Hor).
    destruct (Hqq r Hr Nr ltac:(set_solver) Hf) as [[E ->]|(E & pid & -> & Hpid)].
    + rewrite (decide_True _ _ E), decide_False by (intros <-; apply Hor, broot_in).
      split; [|split].
      * rewrite (Hpar i _ eq_refl ltac:(set_solver) Hi). cbn.
        rewrite decide_False by (intros <-; apply Hor, broot_in). by rewrite decide_True.
      * eapply rep_frame; [exact Hl|]. intros id Hid. apply Hother; cbn; [set_solver| |].
        -- intros Hin. apply (Nlr id); [done|by apply Hsub].
        -- intros [= ->]. set_solver.
      * apply IHr; try done; intros; [apply Hother|eapply Hpar]; cbn in *; set_solver.
    + rewrite (decide_False _ _ E), decide_False by (intros <-; apply Hor, broot_in).
      split; [|split].
      * rewrite Hother; [done|cbn; set_solver| |]; [|intros [= ->]; set_solver].
        intros Hin. apply Hsub in Hin. set_solver.
      * eapply rep_frame; [exact Hl|]. intros id Hid. apply Hother; cbn; [set_solver| |].
        -- intros Hin. apply (Nlr id); [done|by apply Hsub].
        -- intros [= ->]. by apply (Nlr id).
      * apply IHr; try done; intros; [apply Hother|eapply Hpar]; cbn in *; set_solver.
Qed.

(** ** The abstract tree *)

(** A binary space partition without identifiers: the specification of the
    component. *)
Inductive shape : Type :=
| SLeaf (window : Z)
| SSplit (axis : SplitAxis) (ratio : SplitRatio) (l r : shape).

Fixpoint erase (b : btree) : shape :=
  match b with
  | BLeaf _ w => SLeaf w
  | BSplit _ axis ratio l r => SSplit axis ratio (erase l) (erase r)
  end.

Fixpoint shape_windows (s : shape) : list Z :=
  match s with SLeaf w => [w] | SSplit _ _ l r => shape_windows l ++ shape_windows r end.

(** Insertion splits the anchor's leaf. *)
Definition split_leaf (axis : SplitAxis) (new_first : bool) (anchor w : Z) : shape :=
  if new_first then SSplit axis SplitRatio_DEFAULT (SLeaf w) (SLeaf anchor)
  else SSplit axis SplitRatio_DEFAULT (SLeaf anchor) (SLeaf w).
Fixpoint shape_insert (axis : SplitAxis) (new_first : bool) (anchor w : Z) (s : shape) : shape :=
  match s with
  | SLeaf v => if decide (v = anchor) then split_leaf axis new_first anchor w else s
  | SSplit a ratio l r =>
      SSplit a ratio (shape_insert axis new_first anchor w l) (shape_insert axis new_first anchor w r)
  end.

(** Removal puts the sibling in the place of the split. *)
Fixpoint shape_remove (w : Z) (s : shape) : option shape :=
  match s with
  | SLeaf v => if decide (v = w) then None else Some s
  | SSplit a ratio l r =>
      match shape_remove w l, shape_remove w r with
      | Some l', Some r' => Some (SSplit a ratio l' r')
      | None, r' => r'
      | l', None => l'
      end
  end.

(** The leftmost leaf, the anchor of last resort. *)
Fixpoint shape_first (s : shape) : Z :=
  match s with SLeaf w => w | SSplit _ _ l _ => shape_first l end.

(** [tree_rep t o]: [t] stores the tree [o] and its indexes agree with it. *)
Definition tree_rep (t : DwindleTree) (o : option btree) : Prop :=
  arena_ok (nodes t) /\
  match root t, o with
  | None, None => (forall id, arena_get (nodes t) id = None) /\ by_window t = ∅ /\ insertion_order t = []
  | Some r, Some b =>
      r = broot b /\ rep (arena_get (nodes t)) None b /\ NoDup (bids b) /\
      (forall id, is_Some (arena_get (nodes t) id) -> id ∈ bids b) /\
      NoDup (bwindows b) /\
      (forall w id, by_window t !! w = Some id <-> (w, id) ∈ bleaves b) /\
      insertion_order t ≡ₚ bwindows b /\ bratios_ok b
  | _, _ => False
  end.

Lemma bwindows_erase b : bwindows b = shape_windows (erase b).
Proof.
  unfold bwindows. induction b; cbn; [done|]. rewrite fmap_app. congruence.
Qed.

Lemma tree_rep_default : tree_rep DwindleTree_default None.
Proof.
  split; [|done]. split; [apply NoDup_nil_2|]. split; [set_solver|]. intros i s Hs. done.
Qed.

(** The part of [tree_rep] that reading the tree relies on. *)
Definition stores (t : DwindleTree) (b : btree) : Prop :=
  root t = Some (broot b) /\ rep (arena_get (nodes t)) None b /\ NoDup (bids b) /\
  (forall w id, by_window t !! w = Some id <-> (w, id) ∈ bleaves b).

Lemma tree_rep_stores t b : tree_rep t (Some b) -> stores t b.
Proof.
  intros (_ & H). unfold stores. destruct (root t) as [r|]; [|done]. naive_solver.
Qed.

(** The index of a stored tree knows exactly its windows. *)
Lemma stores_contains t b w :
  stores t b -> contains_window t w = true <-> w ∈ bwindows b.
Proof.
  intros (_ & _ & _ & Hix).
  unfold contains_window, bwindows. rewrite bool_decide_eq_true, list_elem_of_fmap. split.
  - intros [id Hid]. apply Hix in Hid. by exists (w, id).
  - intros ([v id] & -> & Hin). apply Hix in Hin. by exists id.
Qed.

(** *** Descending to the first leaf *)

Fixpoint bfirst (b : btree) : Z := match b with BLeaf _ w => w | BSplit _ _ _ l _ => bfirst l end.

Lemma bfirst_in b : bfirst b ∈ bwindows b.
Proof. rewrite bwindows_erase. induction b; cbn; set_solver. Qed.

Lemma bfirst_erase b : bfirst b = shape_first (erase b).
Proof. induction b; cbn; auto. Qed.

Fixpoint bdepth (b : btree) : nat :=
  match b with BLeaf _ _ => 1%nat | BSplit _ _ _ l r => S (Nat.max (bdepth l) (bdepth r)) end.

Lemma bdepth_bids b : (bdepth b <= length (bids b))%nat.
Proof. induction b; cbn; [lia|]. rewrite length_app. lia. Qed.

Lemma first_leaf_loop_spec fuel a p b :
  rep (arena_get a) p b -> (bdepth b <= fuel)%nat -> first_leaf_loop fuel a (broot b) = Ret (Some (bfirst b)).
Proof.
  revert fuel p. induction b as [i w|i ax ra l IHl r IHr]; cbn [bdepth]; intros [|fuel] p H Hf; try lia;
    cbn [first_leaf_loop broot]; cbn [rep] in H.
  - by rewrite H.
  - destruct H as (H & Hl & Hr). rewrite H. cbn. apply (IHl fuel _ Hl). lia.
Qed.

(** Live nodes sit in distinct slots. *)
Lemma bids_bound a p b :
  rep (arena_get a) p b -> NoDup (bids b) -> (length (bids b) <= length (slots a))%nat.
Proof.
  intros Hb Hnd. rewrite <- (length_seq (length (slots a)) 0), <- (length_fmap index).
  apply submseteq_length, NoDup_submseteq.
  - apply NoDup_fmap_2_strong; [|done]. intros x y Hx Hy Exy.
    destruct (rep_live _ _ _ _ Hb Hx) as [nx Ex]. destruct (rep_live _ _ _ _ Hb Hy) as [ny Ey].
    by eapply arena_get_index.
  - intros i Hi. apply list_elem_of_fmap in Hi as (id & -> & Hid).
    destruct (rep_live _ _ _ _ Hb Hid) as [n Hn]. apply arena_get_Some, lookup_lt_Some in Hn.
    apply elem_of_seq. lia.
Qed.

Lemma first_leaf_window_spec t b :
  stores t b -> first_leaf_window t = Ret (Some (bfirst b)).
Proof.
  intros (Hr & Hb & Hnd & _). unfold first_leaf_window. rewrite Hr. eapply first_leaf_loop_spec; [done|].
  pose proof (bids_bound _ _ _ Hb Hnd). pose proof (bdepth_bids b). lia.
Qed.

(** ** Links above a subtree *)

Lemma nodes_get_step {B} id (k : option DwindleNode -> TreeM B) t :
  (nodes_get id ≫= k) t = k (arena_get (nodes t) id) t.
Proof. done. Qed.

Lemma nodes_insert_step {B} n (k : DwindleNodeId -> TreeM B) t a id :
  arena_insert (E := DwindleTreeError) n (nodes t) = Ret (a, id) -> (nodes_insert n ≫= k) t = k id (set_nodes a t).
Proof. intros H. unfold nodes_insert, mbind, SM_bind. by rewrite H. Qed.

Lemma nodes_remove_step {B} id (k : unit -> TreeM B) t a n :
  arena_remove id (nodes t) = Some (a, n) -> (nodes_remove id ≫= k) t = k tt (set_nodes a t).
Proof. intros H. unfold nodes_remove, mbind, SM_bind. by rewrite H. Qed.

Lemma nodes_update_step {B} f id (k : unit -> TreeM B) t a :
  arena_update f id (nodes t) = Some a -> (nodes_update f id ≫= k) t = k tt (set_nodes a t).
Proof. intros H. unfold nodes_update, mbind, SM_bind. by rewrite H. Qed.

(** The parent of a subtree that is not the whole tree. *)
Lemma bfind_parent get p b old sub :
  rep get p b -> NoDup (bids b) -> bfind old b = Some sub -> broot b <> old ->
  exists pid pp ax ra f s, rep get (Some pid) sub /\ pid ∈ bids b /\ (pid ∉ bids sub) /\
    get pid = Some (mkNode pp (Split ax ra f s)) /\ (f = old \/ s = old).
Proof.
  revert p. induction b as [i w|i ax ra l IHl r IHr]; cbn [bfind broot]; intros p H Hnd Hf Hne;
    rewrite decide_False in Hf by done; [done|].
  cbn [rep bids] in *. destruct H as (H & Hl & Hr). apply list.NoDup_cons in Hnd as [Ni Hnd].
  apply list.NoDup_app in Hnd as (Nl & _ & Nr).
  assert (Hside : forall x, rep get (Some i) x -> NoDup (bids x) -> i ∉ bids x -> bfind old x = Some sub ->
            x = l \/ x = r -> (forall p, rep get p x -> NoDup (bids x) -> bfind old x = Some sub ->
              broot x <> old -> exists pid pp ax ra f s, rep get (Some pid) sub /\ pid ∈ bids x /\
              (pid ∉ bids sub) /\ get pid = Some (mkNode pp (Split ax ra f s)) /\ (f = old \/ s = old)) ->
            exists pid pp ax ra f s, rep get (Some pid) sub /\ pid ∈ (i :: bids l ++ bids r) /\
              (pid ∉ bids sub) /\ get pid = Some (mkNode pp (Split ax ra f s)) /\ (f = old \/ s = old)).
  { intros x Hx Nx Hix Hfx Hlr IH. destruct (decide (broot x = old)) as [E|E].
    - assert (sub = x) as ->.
      { destruct x; cbn in Hfx, E; rewrite decide_True in Hfx by done; congruence. }
      exists i, p, ax, ra, (broot l), (broot r). split; [done|]. split; [set_solver|]. split; [done|].
      split; [done|]. destruct Hlr as [-> | ->]; tauto.
    - destruct (IH _ Hx Nx Hfx E) as (pid & pp & ax' & ra' & f & s & H1 & H2 & H3).
      exists pid, pp, ax', ra', f, s. split; [done|]. split; [|done]. destruct Hlr as [-> | ->]; set_solver. }
  destruct (bfind old l) as [sl|] eqn:El.
  - injection Hf as ->. apply (Hside l); [done|done|set_solver|done|by left|].
    intros p' H1 H2 _ H3. by eapply IHl.
  - apply (Hside r); [done|done|set_solver|done|by right|].
    intros p' H1 H2 _ H3. by eapply IHr.
Qed.

(** Which tree fields an operation on nodes leaves alone. *)
Definition same_index (t t' : DwindleTree) : Prop :=
  by_window t' = by_window t /\ insertion_order t' = insertion_order t /\
  topology_generation t' = topology_generation t.

(** Pointing the parent of [old], or the root, to [new]: the end of both
    [insert] and [remove]. *)
Lemma attach_spec (q : option DwindleNodeId) old new t :
  arena_ok (nodes t) ->
  (forall pid, q = Some pid -> exists pp ax ra f s,
     arena_get (nodes t) pid = Some (mkNode pp (Split ax ra f s)) /\ (f = old \/ s = old)) ->
  exists t', (match q with
              | Some p => replace_child p old new
              | None => sm_modify (set_root (Some new))
              end) t = (t', Ret tt) /\
    arena_ok (nodes t') /\ length (slots (nodes t')) = length (slots (nodes t)) /\ same_index t t' /\
    root t' = (match q with Some _ => root t | None => Some new end) /\
    (forall pid n, q = Some pid -> arena_get (nodes t) pid = Some n ->
       arena_get (nodes t') pid = Some (with_kind (redirect old new (kind n)) n)) /\
    (forall id, q <> Some id -> arena_get (nodes t') id = arena_get (nodes t) id).
Proof.
  intros Hok Hq. destruct q as [pid|].
  - destruct (Hq pid eq_refl) as (pp & ax & ra & f & s & Hn & Hc).
    destruct (arena_update_spec (with_kind (redirect old new (Split ax ra f s))) pid (nodes t) _ Hok Hn)
      as (a' & Ea & Hok' & Hlen & Hget & Hother).
    exists (set_nodes a' t). split.
    { unfold replace_child. rewrite nodes_get_step, Hn. cbn [expect]. sm_run.
      cbn [kind redirect] in *. unfold nodes_update.
      destruct (decide (f = old)); [by rewrite Ea|].
      destruct (decide (s = old)); [by rewrite Ea|naive_solver]. }
    split; [done|]. split; [done|]. split; [done|]. split; [done|]. cbn [nodes set_nodes]. split.
    + intros ? n [= <-] En. rewrite Hn in En. injection En as <-. done.
    + intros id Hne. apply Hother. congruence.
  - exists (set_root (Some new) t). split; [done|]. split; [done|]. done.
Qed.

Lemma bratios_breplace old s b : bratios_ok b -> bratios_ok s -> bratios_ok (breplace old s b).
Proof.
  induction b as [i w|i ax ra l IHl r IHr]; cbn; intros Hb Hs; destruct (decide _); try done.
  cbn. naive_solver.
Qed.

Lemma bfind_root x old : broot x = old -> bfind old x = Some x.
Proof. intros Hx. destruct x; cbn in *; by rewrite decide_True. Qed.

(** *** Erasing *)

Lemma shape_insert_notin ax nf a w s : a ∉ shape_windows s -> shape_insert ax nf a w s = s.
Proof.
  induction s; cbn; intros H.
  - destruct (decide _); [set_solver|done].
  - f_equal; set_solver.
Qed.

Lemma shape_remove_notin w s : w ∉ shape_windows s -> shape_remove w s = Some s.
Proof.
  induction s as [v|a ra l IHl r IHr]; cbn; intros H.
  - destruct (decide _); [set_solver|done].
  - rewrite IHl, IHr by set_solver. done.
Qed.

Lemma bfind_leaves old b sub : bfind old b = Some sub -> bleaves sub ⊆ bleaves b.
Proof.
  revert sub. induction b as [i w|i ax ra l IHl r IHr]; cbn; intros sub.
  - destruct (decide _); [|done]. by intros [= <-].
  - destruct (decide _); [by intros [= <-]|]. destruct (bfind old l) eqn:E.
    + intros [= <-]. set_solver.
    + intros. set_solver.
Qed.

Lemma bwindows_disjoint i ax ra l r :
  NoDup (bwindows (BSplit i ax ra l r)) ->
  NoDup (bwindows l) /\ NoDup (bwindows r) /\ forall w, w ∈ bwindows l -> w ∉ bwindows r.
Proof.
  unfold bwindows. cbn. rewrite fmap_app. intros H. apply list.NoDup_app in H as (? & ? & ?). eauto.
Qed.

Lemma elem_of_bwindows b w : w ∈ bwindows b <-> exists id, (w, id) ∈ bleaves b.
Proof.
  unfold bwindows. rewrite list_elem_of_fmap. split; [intros ([v id] & -> & H)|intros [id H]]; eauto.
  by exists (w, id).
Qed.

Lemma bfind_None_notin old b : NoDup (bids b) -> bfind old b = None -> old ∉ bids b.
Proof. intros Hnd E Hin. destruct (bfind_spec old b b Hin Hnd) as (? & ? & ? & E' & _). congruence. Qed.

Lemma bfind_Some_in old b sub : bfind old b = Some sub -> old ∈ bids b.
Proof.
  intros E. destruct (decide (old ∈ bids b)) as [|Hn]; [done|]. by rewrite (bfind_notin _ _ Hn) in E.
Qed.

Lemma erase_breplace_leaf ax nf w anchor aw b s :
  NoDup (bids b) -> NoDup (bwindows b) -> bfind anchor b = Some (BLeaf anchor aw) ->
  erase s = split_leaf ax nf aw w ->
  erase (breplace anchor s b) = shape_insert ax nf aw w (erase b).
Proof.
  intros Hnd Hw Hf Hs. induction b as [i v|i a ra l IHl r IHr]; cbn [bfind breplace broot] in *;
    destruct (decide (i = anchor)) as [->|Hne]; try done.
  - injection Hf as ->. cbn. by rewrite decide_True.
  - cbn [bids] in *. apply list.NoDup_cons in Hnd as [Ni Hnd].
    apply list.NoDup_app in Hnd as (Nl & Nlr & Nr).
    apply bwindows_disjoint in Hw as (Wl & Wr & Wlr). cbn [erase shape_insert].
    destruct (bfind anchor l) as [sl|] eqn:El.
    + injection Hf as ->. pose proof (bfind_Some_in _ _ _ El).
      rewrite (breplace_notin anchor s r) by (intros Hr; by apply (Nlr anchor)).
      rewrite IHl by (done || set_solver). f_equal. symmetry. apply shape_insert_notin.
      rewrite <- bwindows_erase. apply Wlr, elem_of_bwindows. exists anchor.
      eapply (bfind_leaves _ _ _ El). cbn. set_solver.
    + pose proof (bfind_None_notin _ _ Nl El) as Hnl. rewrite (breplace_notin anchor s l) by done.
      rewrite IHr by (done || set_solver). f_equal. symmetry. apply shape_insert_notin.
      rewrite <- bwindows_erase. intros Hin. apply (Wlr aw); [done|].
      apply elem_of_bwindows. exists anchor. eapply (bfind_leaves _ _ _ Hf). cbn. set_solver.
Qed.

(** The window [insert] splits. *)
Definition chosen_anchor (hint : InsertHint) (s : shape) : Z :=
  match focused hint with
  | Some w => if decide (w ∈ shape_windows s) then w else
      match fallback hint with
      | Some v => if decide (v ∈ shape_windows s) then v else shape_first s
      | None => shape_first s
      end
  | None =>
      match fallback hint with
      | Some v => if decide (v ∈ shape_windows s) then v else shape_first s
      | None => shape_first s
      end
  end.

Lemma shape_first_in s : shape_first s ∈ shape_windows s.
Proof. induction s; cbn; set_solver. Qed.

Lemma chosen_anchor_in hint s : chosen_anchor hint s ∈ shape_windows s.
Proof.
  pose proof (shape_first_in s). unfold chosen_anchor. repeat case_match; done.
Qed.

Lemma filter_contained_spec t b o :
  stores t b ->
  filter_contained t o = (w ← o; if decide (w ∈ shape_windows (erase b)) then Some w else None).
Proof.
  intros Ht. unfold filter_contained. destruct o as [w|]; [|done]. cbn.
  pose proof (stores_contains t b w Ht) as Hc. rewrite bwindows_erase in Hc.
  destruct (contains_window t w), (decide _); naive_solver.
Qed.

Lemma anchor_window_spec t b hint :
  stores t b -> anchor_window hint t = Ret (Some (chosen_anchor hint (erase b))).
Proof.
  intros Ht. unfold anchor_window, chosen_anchor.
  rewrite !(filter_contained_spec t b), (first_leaf_window_spec t b), bfirst_erase by done.
  destruct (focused hint) as [w|]; cbn; [destruct (decide _); [done|]|];
    (destruct (fallback hint) as [v|]; cbn; [by destruct (decide _)|done]).
Qed.

(** Two parent links set one after the other, in either order. *)
Lemma set_two_parents split x y nx ny t :
  arena_ok (nodes t) -> x <> y ->
  arena_get (nodes t) x = Some nx -> arena_get (nodes t) y = Some ny ->
  exists t', (forall (B : Type) (k : TreeM B),
      (_ ← nodes_update (with_parent (Some split)) x;
       _ ← nodes_update (with_parent (Some split)) y; k) t = k t') /\
    arena_ok (nodes t') /\ length (slots (nodes t')) = length (slots (nodes t)) /\
    same_index t t' /\ root t' = root t /\
    arena_get (nodes t') x = Some (with_parent (Some split) nx) /\
    arena_get (nodes t') y = Some (with_parent (Some split) ny) /\
    forall id, id <> x -> id <> y -> arena_get (nodes t') id = arena_get (nodes t) id.
Proof.
  intros Hok Hxy Hx Hy.
  destruct (arena_update_spec (with_parent (Some split)) x (nodes t) nx Hok Hx)
    as (a1 & E1 & Hok1 & L1 & G1 & F1).
  destruct (arena_update_spec (with_parent (Some split)) y a1 ny Hok1) as (a2 & E2 & Hok2 & L2 & G2 & F2).
  { by rewrite F1. }
  exists (set_nodes a2 t). split.
  { intros B k. unfold nodes_update, mbind, SM_bind. rewrite E1. cbn [nodes set_nodes]. by rewrite E2. }
  cbn [nodes set_nodes root]. split; [done|]. split; [lia|]. split; [done|]. split; [done|].
  split; [by rewrite F2|]. split; [done|]. intros id H1 H2. by rewrite F2, F1.
Qed.

(** ** Insertion *)

(** The children of the new split, in the order the pointer selects. *)
Definition ordered (new_first : bool) (leaf anchor : DwindleNodeId) : DwindleNodeId * DwindleNodeId :=
  if new_first then (leaf, anchor) else (anchor, leaf).

Lemma link_children nf split leaf anchor nl na t :
  arena_ok (nodes t) -> leaf <> anchor ->
  arena_get (nodes t) leaf = Some nl -> arena_get (nodes t) anchor = Some na ->
  exists t', (forall (B : Type) (k : TreeM B),
      (_ ← nodes_update (with_parent (Some split)) (ordered nf leaf anchor).1;
       _ ← nodes_update (with_parent (Some split)) (ordered nf leaf anchor).2; k) t = k t') /\
    arena_ok (nodes t') /\ length (slots (nodes t')) = length (slots (nodes t)) /\
    same_index t t' /\ root t' = root t /\
    arena_get (nodes t') leaf = Some (with_parent (Some split) nl) /\
    arena_get (nodes t') anchor = Some (with_parent (Some split) na) /\
    forall id, id <> leaf -> id <> anchor -> arena_get (nodes t') id = arena_get (nodes t) id.
Proof.
  intros Hok Hne Hl Ha. unfold ordered. destruct nf.
  - edestruct (set_two_parents split leaf anchor _ _ t Hok Hne Hl Ha) as (t3 & H).
    exists t3. naive_solver.
  - edestruct (set_two_parents split anchor leaf _ _ t Hok (not_eq_sym Hne) Ha Hl) as (t3 & H).
    exists t3. naive_solver.
Qed.

(** The first window of an empty tree. *)
Lemma insert_first t w hint :
  tree_rep t None -> Z.of_nat (length (slots (nodes t))) <= u32_max ->
  exists t' leaf, insert w hint t = (t', Ret leaf) /\ tree_rep t' (Some (BLeaf leaf w)) /\
    by_window t' = {[w := leaf]} /\ insertion_order t' = [w] /\
    topology_generation t' = sat_add u64_max (topology_generation t) 1 /\
    (length (slots (nodes t')) <= S (length (slots (nodes t))))%nat.
Proof.
  intros (Hok & H) Hlen. destruct (root t) as [r|] eqn:Er; [done|].
  destruct H as (Hnone & Hix & Hord).
  destruct (arena_insert_spec (mkNode None (Leaf w)) (nodes t) Hok ltac:(done))
    as (a1 & leaf & Ea & Hok1 & _ & Hget & Hl & Hother).
  eexists _, leaf. split.
  { unfold insert. sm_run.
    assert (contains_window t w = false) as ->.
    { unfold contains_window. by rewrite Hix, lookup_empty. }
    rewrite (nodes_insert_step _ _ _ _ _ (Ea _)), Er. sm_run.
    unfold register_leaf. sm_run. reflexivity. }
  cbn [nodes by_window insertion_order topology_generation bump_topology set_index set_root set_nodes].
  rewrite Hix, Hord, insert_empty. split; [|done].
  split; [done|]. cbn. split; [done|]. split; [done|]. split; [apply NoDup_singleton|].
  split; [|split; [apply NoDup_singleton|split; [|done]]].
  - intros id Hid. destruct (decide (id = leaf)) as [->|Hne]; [set_solver|].
    rewrite Hother, Hnone in Hid by done. by destruct Hid.
  - intros v id. rewrite lookup_singleton_Some, list_elem_of_singleton. naive_solver.
Qed.

(** What the code does when the tree has an anchor: the nodes it creates
    and the links it changes. *)
Lemma insert_run t b w hint aw anchor q :
  stores t b -> arena_ok (nodes t) -> w ∉ bwindows b ->
  Z.of_nat (length (slots (nodes t))) < u32_max ->
  aw = chosen_anchor hint (erase b) -> (aw, anchor) ∈ bleaves b ->
  arena_get (nodes t) anchor = Some (mkNode q (Leaf aw)) ->
  (forall pid, q = Some pid -> exists pp ax ra f s,
     arena_get (nodes t) pid = Some (mkNode pp (Split ax ra f s)) /\ (f = anchor \/ s = anchor)) ->
  exists t' leaf split, insert w hint t = (t', Ret leaf) /\
    arena_ok (nodes t') /\ (length (slots (nodes t')) <= S (S (length (slots (nodes t)))))%nat /\
    leaf <> split /\ arena_get (nodes t) leaf = None /\ arena_get (nodes t) split = None /\
    by_window t' = <[w := leaf]> (by_window t) /\ insertion_order t' = insertion_order t ++ [w] /\
    topology_generation t' = sat_add u64_max (topology_generation t) 1 /\
    root t' = (match q with Some _ => root t | None => Some split end) /\
    arena_get (nodes t') leaf = Some (mkNode (Some split) (Leaf w)) /\
    arena_get (nodes t') anchor = Some (mkNode (Some split) (Leaf aw)) /\
    arena_get (nodes t') split = Some (mkNode q
      (Split (hint_axis hint) SplitRatio_DEFAULT
         (ordered (hint_new_first hint) leaf anchor).1 (ordered (hint_new_first hint) leaf anchor).2)) /\
    (forall pid n, q = Some pid -> arena_get (nodes t) pid = Some n ->
       arena_get (nodes t') pid = Some (with_kind (redirect anchor split (kind n)) n)) /\
    (forall id, id <> leaf -> id <> split -> id <> anchor -> q <> Some id ->
       arena_get (nodes t') id = arena_get (nodes t) id).
Proof.
  intros Hst Hok Hw Hlen -> Hanchor Hga Hq.
  pose proof Hst as (Hr & Hrep & Hnd & Hix).
  destruct (arena_insert_spec (mkNode None (Leaf w)) (nodes t) Hok ltac:(lia))
    as (a1 & leaf & Ea & Hok1 & Hfresh & Hget & Hl & Hother).
  assert (Hst1 : stores (set_nodes a1 t) b).
  { split; [done|]. split; [|done]. eapply rep_frame; [exact Hrep|]. intros id Hid. cbn.
    apply Hother. intros ->. destruct (rep_live _ _ _ _ Hrep Hid). congruence. }
  set (fs := ordered (hint_new_first hint) leaf anchor).
  set (sn := mkNode q (Split (hint_axis hint) SplitRatio_DEFAULT fs.1 fs.2)).
  destruct (arena_insert_spec sn a1 Hok1 ltac:(lia))
    as (a2 & split & Ea2 & Hok2 & Hfresh2 & Hget2 & Hl2 & Hother2).
  assert (Hla : leaf <> anchor) by congruence.
  assert (Hls : leaf <> split) by congruence.
  assert (Hfs : arena_get (nodes t) split = None) by (by rewrite <- Hother by done).
  assert (Has : anchor <> split) by congruence.
  assert (Hgl2 : arena_get a2 leaf = Some (mkNode None (Leaf w))) by (by rewrite Hother2).
  assert (Hga2 : arena_get a2 anchor = Some (mkNode q (Leaf (chosen_anchor hint (erase b)))))
    by (rewrite Hother2, Hother; done).
  set (t2 := set_nodes a2 t).
  destruct (link_children (hint_new_first hint) split leaf anchor _ _ t2 Hok2 Hla Hgl2 Hga2)
    as (t3 & Hrun3 & Hok3 & Hl3 & (Ib & Io & It) & Hr3 & G3l & G3a & F3).
  assert (Hout : forall id, id <> leaf -> id <> split -> id <> anchor ->
                 arena_get (nodes t3) id = arena_get (nodes t) id).
  { intros id H1 H2 H3. rewrite F3 by done. cbn [t2 nodes set_nodes]. by rewrite Hother2, Hother. }
  destruct (attach_spec q anchor split t3 Hok3) as (t4 & Hrun4 & Hok4 & Hl4 & (Jb & Jo & Jt) & Hr4 & Gp & Gq).
  { intros pid Hp. destruct (Hq pid Hp) as (pp & ax & ra & f & s & Hpid & Hc).
    exists pp, ax, ra, f, s. split; [|done]. rewrite Hout; [done|congruence..]. }
  eexists _, leaf, split. split.
  { unfold insert. sm_run.
    assert (contains_window t w = false) as ->.
    { destruct (contains_window t w) eqn:E; [|done]. by apply (stores_contains t b w Hst) in E. }
    rewrite (nodes_insert_step _ _ _ _ _ (Ea _)), Hr. sm_run.
    rewrite (anchor_window_spec _ b hint Hst1). sm_run. cbn [expect]. sm_run.
    cbn [by_window set_nodes]. rewrite (proj2 (Hix _ _) Hanchor). cbn [expect]. sm_run.
    rewrite nodes_get_step. cbn [nodes set_nodes]. rewrite Hother, Hga by done. cbn [expect]. sm_run.
    cbn [parent]. fold (ordered (hint_new_first hint) leaf anchor). fold fs. rewrite (surjective_pairing fs). cbv beta iota.
    fold sn. rewrite (nodes_insert_step sn _ (set_nodes a1 t) _ _ (Ea2 _)).
    change (set_nodes a2 (set_nodes a1 t)) with t2. rewrite Hrun3.
    rewrite (SM_bind_step _ _ _ _ _ Hrun4). unfold register_leaf. sm_run. reflexivity. }
  cbn [nodes root by_window insertion_order topology_generation bump_topology set_index].
  split; [done|]. split; [cbn in Hl3; lia|]. split; [done|]. split; [done|].
  split; [done|].
  rewrite Jb, Jo, Jt, Ib, Io, It, Hr4, Hr3.
  assert (Hqn : forall id n, arena_get (nodes t) id = n -> (forall k, n = Some k -> exists v, kind k = Leaf v) ->
                  q <> Some id).
  { intros id n En Hn Eq. destruct (Hq id Eq) as (pp & ax & ra & f & s & Hpid & _).
    rewrite Hpid in En. destruct (Hn _ (eq_sym En)) as [v Hv]. done. }
  split; [done|]. split; [done|]. split; [done|]. split; [by destruct q|].
  split; [rewrite Gq; [done|by eapply Hqn]|].
  split; [rewrite Gq; [done|eapply Hqn; [exact Hga|intros k [= <-]; eauto]]|].
  split; [rewrite Gq, F3; [exact Hget2|congruence|congruence|by eapply Hqn]|]. split.
  - intros pid n Hp Hn. apply Gp; [done|]. rewrite Hout; [done|..]; try congruence.
    intros ->. by eapply (Hqn anchor); [exact Hga|intros k [= <-]; eauto|].
  - intros id H1 H2 H3 H4. rewrite Gq by done. by apply Hout.
Qed.

(** The subtree [insert] puts in the place of the anchor. *)
Definition split_subtree (ax : SplitAxis) (nf : bool) (split leaf anchor : DwindleNodeId) (w aw : Z) : btree :=
  if nf then BSplit split ax SplitRatio_DEFAULT (BLeaf leaf w) (BLeaf anchor aw)
  else BSplit split ax SplitRatio_DEFAULT (BLeaf anchor aw) (BLeaf leaf w).

Lemma split_subtree_spec ax nf split leaf anchor w aw :
  broot (split_subtree ax nf split leaf anchor w aw) = split /\
  bids (split_subtree ax nf split leaf anchor w aw) ≡ₚ split :: leaf :: [anchor] /\
  bleaves (split_subtree ax nf split leaf anchor w aw) ≡ₚ (w, leaf) :: [(aw, anchor)] /\
  erase (split_subtree ax nf split leaf anchor w aw) = split_leaf ax nf aw w /\
  bratios_ok (split_subtree ax nf split leaf anchor w aw).
Proof.
  assert (Hr : is_Some (SplitRatio_new (ratio_value SplitRatio_DEFAULT))) by (vm_compute; eauto).
  unfold split_subtree, split_leaf. destruct nf; cbn [broot bids bleaves erase bratios_ok app];
    (split; [done|]; split; [|split; [|done]]); try done; repeat constructor.
Qed.

(** Closing an operation: a tree whose subtree at [old] was replaced by [s]
    is stored again when the links, the slots and the indexes follow. *)
Section Graft.
Context (t t' : DwindleTree) (b sub s : btree) (old : DwindleNodeId) (q : option DwindleNodeId).
Context (Ht : tree_rep t (Some b)) (Hsub : bfind old b = Some sub).
Context (Hq : rep (arena_get (nodes t)) q sub) (Hs : rep (arena_get (nodes t')) q s).
Context (Hok : arena_ok (nodes t')).
Context (Hroot : root t' = match q with Some _ => root t | None => Some (broot s) end).
Context (Hframe : forall id, id ∈ bids b -> id ∉ bids sub -> q <> Some id ->
           arena_get (nodes t') id = arena_get (nodes t) id).
Context (Hredirect : forall pid n, q = Some pid -> pid ∈ bids b -> arena_get (nodes t) pid = Some n ->
           arena_get (nodes t') pid = Some (with_kind (redirect old (broot s) (kind n)) n)).
Context (Hids : NoDup (bids s)) (Hnew : forall id, id ∈ bids s -> id ∈ bids b -> id ∈ bids sub).
Context (Hlive : forall id, is_Some (arena_get (nodes t') id) -> id ∈ bids s \/ (id ∈ bids b /\ (id ∉ bids sub))).
Context (Hwin : NoDup (bwindows s)) (Hneww : forall w, w ∈ bwindows s -> w ∈ bwindows b -> w ∈ bwindows sub).
Context (Hindex : forall w id, by_window t' !! w = Some id <->
           (w, id) ∈ bleaves s \/ ((w, id) ∈ bleaves b /\ (w ∉ bwindows sub))).
Context (Horder : insertion_order t' ≡ₚ bwindows (breplace old s b)).
Context (Hratios : bratios_ok s).

Lemma graft_root : Some (broot (breplace old s b)) = root t'.
Proof.
  destruct (tree_rep_stores t b Ht) as (Hr & Hrep & Hnd & _).
  rewrite Hroot, broot_breplace.
  destruct (bfind_rep _ _ _ _ _ Hrep Hnd Hsub) as (q' & Hq' & Hc).
  assert (q' = q) as ->.
  { apply rep_root in Hq as [k Hk]. apply rep_root in Hq' as [k' Hk']. congruence. }
  destruct Hc as [[E ->]|(E & pid & -> & _)]; [by rewrite decide_True|by rewrite decide_False].
Qed.

Lemma tree_rep_graft : tree_rep t' (Some (breplace old s b)).
Proof.
  destruct (tree_rep_stores t b Ht) as (Hr & Hrep & Hnd & _).
  destruct Ht as (_ & Ht'). rewrite Hr in Ht'. destruct Ht' as (_ & _ & _ & _ & Hnw & _ & _ & Hrat).
  destruct (bfind_spec old b s (bfind_Some_in _ _ _ Hsub) Hnd) as (sub' & ids & lvs & E & _ & P1 & P2 & P3 & P4).
  rewrite Hsub in E. injection E as <-.
  assert (W3 : bwindows b ≡ₚ bwindows sub ++ lvs.*1) by (unfold bwindows; by rewrite P3, fmap_app).
  assert (W4 : bwindows (breplace old s b) ≡ₚ bwindows s ++ lvs.*1) by (unfold bwindows; by rewrite P4, fmap_app).
  rewrite P1 in Hnd. apply list.NoDup_app in Hnd as (N1 & N12 & N2).
  rewrite W3 in Hnw. apply list.NoDup_app in Hnw as (M1 & M12 & M2).
  split; [done|]. rewrite <- graft_root. split; [done|].
  split; [eapply rep_replace; try done; rewrite P1; by apply list.NoDup_app|].
  split; [rewrite P2; apply list.NoDup_app; split_and!; try done; intros x Hx Hx'|].
  { apply (N12 x); [|done]. apply Hnew; [done|]. rewrite P1. set_solver. }
  split; [intros id Hid; rewrite P2; apply Hlive in Hid as [Hid|[Hid Hid']]; [set_solver|]|].
  { rewrite P1 in Hid. set_solver. }
  split; [rewrite W4; apply list.NoDup_app; split_and!; try done; intros x Hx Hx'|].
  { apply (M12 x); [|done]. apply Hneww; [done|]. rewrite W3. set_solver. }
  split; [|split; [done|by apply bratios_breplace]].
  intros w id. rewrite Hindex, P4, P3, !elem_of_app. split; [intros [H|[[H|H] Hn]]|intros [H|H]]; auto.
  - destruct Hn. apply elem_of_bwindows. by exists id.
  - right. split; [by right|]. intros Hn. apply (M12 w); [done|].
    apply list_elem_of_fmap. by exists (w, id).
Qed.
End Graft.

(** The leaf of a window, and what is above it. *)
Lemma leaf_context t b w :
  tree_rep t (Some b) -> w ∈ bwindows b ->
  exists id q, by_window t !! w = Some id /\ (w, id) ∈ bleaves b /\
    arena_get (nodes t) id = Some (mkNode q (Leaf w)) /\ bfind id b = Some (BLeaf id w) /\
    (q = None -> b = BLeaf id w) /\
    forall pid, q = Some pid -> pid ∈ bids b /\ pid <> id /\ exists pp ax ra f s,
      arena_get (nodes t) pid = Some (mkNode pp (Split ax ra f s)) /\ (f = id \/ s = id).
Proof.
  intros Ht Hw. destruct (tree_rep_stores t b Ht) as (Hr & Hrep & Hnd & Hix).
  apply elem_of_bwindows in Hw as [id Hid]. pose proof (bleaves_bids _ _ _ Hid) as Hin.
  destruct (rep_leaf _ _ _ _ _ Hrep Hid) as [q Hga].
  destruct (bfind_spec id b b Hin Hnd) as (sub & _ & _ & Hsub & Hsr & _).
  destruct (bfind_rep _ _ _ _ _ Hrep Hnd Hsub) as (q' & Hq' & Hcase).
  assert (sub = BLeaf id w /\ q' = q) as [-> ->].
  { destruct sub as [i v|i ax ra l r]; cbn in Hsr, Hq'; subst i; [|destruct Hq'; congruence].
    rewrite Hga in Hq'. by injection Hq' as -> ->. }
  exists id, q. split; [by apply Hix|]. split; [done|]. split; [done|]. split; [done|].
  destruct (decide (broot b = id)) as [E|E].
  - rewrite (bfind_root b id E) in Hsub. injection Hsub as ->. split; [done|].
    destruct Hcase as [[_ ->]|[]]; done.
  - destruct (bfind_parent _ _ _ _ _ Hrep Hnd Hsub E)
      as (pid & pp & ax & ra & f & s & Hps & Hpb & Hpn & Hpg & Hfs).
    cbn in Hps. rewrite Hga in Hps. injection Hps as ->. split; [done|].
    intros ? [= <-]. split; [done|]. split; [set_solver|]. eauto 10.
Qed.

Lemma insert_refines_some t b w hint :
  tree_rep t (Some b) -> w ∉ bwindows b -> Z.of_nat (length (slots (nodes t))) < u32_max ->
  exists t' leaf b', insert w hint t = (t', Ret leaf) /\ tree_rep t' (Some b') /\
    erase b' = shape_insert (hint_axis hint) (hint_new_first hint) (chosen_anchor hint (erase b)) w (erase b) /\
    by_window t' = <[w := leaf]> (by_window t) /\ insertion_order t' = insertion_order t ++ [w] /\
    topology_generation t' = sat_add u64_max (topology_generation t) 1 /\
    (length (slots (nodes t')) <= S (S (length (slots (nodes t)))))%nat.
Proof.
  intros Ht Hw Hlen. pose proof (tree_rep_stores t b Ht) as Hst. pose proof Hst as (Hr & Hrep & Hnd & Hix).
  pose proof Ht as (Hok & Ht'). rewrite Hr in Ht'. destruct Ht' as (_ & _ & _ & Hlive & Hnw & _ & Hord & _).
  pose proof (chosen_anchor_in hint (erase b)) as Haw. set (aw := chosen_anchor hint (erase b)) in *.
  rewrite <- bwindows_erase in Haw.
  destruct (leaf_context t b aw Ht Haw) as (anchor & q & _ & Hanchor & Hga & Hsub & _ & Hpar).
  destruct (insert_run t b w hint aw anchor q Hst Hok Hw Hlen eq_refl Hanchor Hga)
    as (t' & leaf & split & Hrun & Hok' & Hlen' & Hls & Hl0 & Hs0 & Eix & Eord & Egen & Eroot & Gl & Ga & Gs & Gp & Go).
  { intros pid Hp. by destruct (Hpar pid Hp) as (_ & _ & H). }
  set (s := split_subtree (hint_axis hint) (hint_new_first hint) split leaf anchor w aw).
  destruct (split_subtree_spec (hint_axis hint) (hint_new_first hint) split leaf anchor w aw)
    as (Sr & Sids & Slv & Ser & Srat). fold s in Sr, Sids, Slv, Ser, Srat.
  assert (Hnl : leaf ∉ bids b) by (intros Hx; destruct (rep_live _ _ _ _ Hrep Hx); congruence).
  assert (Hns : split ∉ bids b) by (intros Hx; destruct (rep_live _ _ _ _ Hrep Hx); congruence).
  pose proof (bleaves_bids _ _ _ Hanchor) as Hin.
  assert (Sw : bwindows s ≡ₚ [w; aw]) by (unfold bwindows; by rewrite Slv).
  exists t', leaf, (breplace anchor s b). split; [done|]. split; [|split; [by apply erase_breplace_leaf|done]].
  apply (tree_rep_graft t t' b (BLeaf anchor aw) s anchor q); rewrite ?Sr, ?Sids, ?Sw; try done.
  - unfold s, split_subtree, ordered in *. destruct (hint_new_first hint); cbn; done.
  - intros id H1 H2 H3. apply Go; [congruence|congruence|by intros ->; apply H2; left|done].
  - intros pid n Hp _ Hn. by apply Gp.
  - apply NoDup_triple; [done|intros ->; done|intros ->; done].
  - intros id Hid Hb. rewrite Sids, !elem_of_cons, elem_of_nil in Hid. cbn.
    destruct Hid as [->|[->|[->|[]]]]; [done|done|by left].
  - intros id Hid. rewrite Sids, !elem_of_cons. cbn. rewrite elem_of_cons, elem_of_nil.
    destruct (decide (id = leaf)); [tauto|]. destruct (decide (id = split)); [tauto|].
    destruct (decide (id = anchor)); [tauto|]. right. split; [|tauto]. apply Hlive.
    destruct (decide (q = Some id)) as [E|E]; [|by rewrite Go in Hid].
    destruct (Hpar id E) as (_ & _ & pp & ax & ra & f & s' & Hg & _). eauto.
  - apply NoDup_pair. intros ->. done.
  - intros v Hv Hb. rewrite Sw, !elem_of_cons, elem_of_nil in Hv. unfold bwindows. cbn.
    destruct Hv as [->|[->|[]]]; [done|by left].
  - intros v id. rewrite Eix, lookup_insert_Some, Hix, Slv. cbn. rewrite !elem_of_cons. unfold bwindows. cbn.
    rewrite ?elem_of_cons, ?elem_of_nil. split.
    + intros [[-> ->]|[Hne Hv]]; [by left; left|].
      destruct (decide (v = aw)) as [->|]; [|tauto].
      left. right. left. f_equal. apply Hix in Hv, Hanchor. congruence.
    + intros [[[= -> ->]|[[= -> ->]|Hv]]|[Hv Hn]]; [tauto| |done|].
      * right. split; [intros ->; apply Hw, elem_of_bwindows; eauto|done].
      * right. split; [intros ->; apply Hw, elem_of_bwindows; eauto|done].
  - destruct (bfind_spec anchor b s Hin Hnd) as (sub & ids & lvs & E & _ & _ & _ & P3 & P4).
    rewrite Hsub in E. injection E as <-. rewrite Eord, Hord. unfold bwindows. rewrite P3, P4, Slv. cbn.
    symmetry. apply (Permutation_cons_append (aw :: lvs.*1) w).
Qed.

(** ** Removal *)

Lemma bratios_bfind old b sub : bratios_ok b -> bfind old b = Some sub -> bratios_ok sub.
Proof.
  induction b as [i w|i ax ra l IHl r IHr]; cbn [bfind broot]; intros Hb.
  - destruct (decide _); [|done]. by intros [= <-].
  - destruct (decide _); [by intros [= <-]|]. destruct Hb as (_ & Hl & Hr).
    destruct (bfind old l); naive_solver.
Qed.

(** The split above a leaf, and the sibling that will replace it. *)
Lemma sibling_context t b w id par :
  tree_rep t (Some b) -> (w, id) ∈ bleaves b ->
  arena_get (nodes t) id = Some (mkNode (Some par) (Leaf w)) ->
  par ∈ bids b -> (exists pp ax ra f s,
      arena_get (nodes t) par = Some (mkNode pp (Split ax ra f s)) /\ (f = id \/ s = id)) ->
  exists sub sib pp ax ra f s, bfind par b = Some sub /\ rep (arena_get (nodes t)) pp sub /\
    arena_get (nodes t) par = Some (mkNode pp (Split ax ra f s)) /\
    (if decide (f = id) then s else f) = broot sib /\ rep (arena_get (nodes t)) (Some par) sib /\
    bids sub ≡ₚ par :: id :: bids sib /\ bratios_ok sib /\
    (sub = BSplit par ax ra (BLeaf id w) sib \/ sub = BSplit par ax ra sib (BLeaf id w)).
Proof.
  intros Ht Hid Hg Hpar (pp & ax & ra & f & s & Hpg & Hfs).
  destruct (tree_rep_stores t b Ht) as (Hr & Hrep & Hnd & Hix).
  pose proof Ht as (_ & Ht'). rewrite Hr in Ht'. destruct Ht' as (_ & _ & _ & _ & _ & _ & _ & Hrat).
  destruct (bfind_spec par b b Hpar Hnd) as (sub & ids & _ & Hsub & Hsr & P1 & _).
  destruct (bfind_rep _ _ _ _ _ Hrep Hnd Hsub) as (q' & Hq' & _).
  pose proof (bratios_bfind _ _ _ Hrat Hsub) as Hsrat.
  destruct sub as [i v|i ax' ra' l r]; cbn in Hsr; subst i; [cbn in Hq'; congruence|].
  destruct Hq' as (Hp & Hl & Hr'). rewrite Hpg in Hp. injection Hp as -> -> -> -> ->.
  assert (Hleaf : forall x, rep (arena_get (nodes t)) (Some par) x -> broot x = id -> x = BLeaf id w).
  { intros [j v|j ? ? ? ?] Hx Ej; cbn in Hx, Ej; subst j; [congruence|destruct Hx; congruence]. }
  rewrite P1 in Hnd. apply list.NoDup_app in Hnd as (Hnd & _). cbn [bids] in Hnd.
  apply list.NoDup_cons in Hnd as [_ Hnd]. apply list.NoDup_app in Hnd as (_ & Hlr & _).
  cbn [bratios_ok] in Hsrat.
  destruct (decide (broot l = id)) as [E|E].
  - pose proof (Hleaf l Hl E) as ->.
    exists (BSplit par ax' ra' (BLeaf id w) r), r, q', ax', ra', id, (broot r).
    rewrite decide_True by done. cbn. split_and!; (done || tauto).
  - destruct Hfs as [Hf|Hs]; [done|]. pose proof (Hleaf r Hr' Hs) as ->.
    exists (BSplit par ax' ra' l (BLeaf id w)), l, q', ax', ra', (broot l), id.
    rewrite decide_False by done. cbn [rep broot bids bratios_ok]. split_and!; try (done || tauto).
    rewrite (Permutation_app_comm (bids l)). done.
Qed.

Lemma erase_breplace_sibling par b sub sib ax ra id w :
  NoDup (bids b) -> NoDup (bwindows b) -> bfind par b = Some sub ->
  sub = BSplit par ax ra (BLeaf id w) sib \/ sub = BSplit par ax ra sib (BLeaf id w) ->
  shape_remove w (erase b) = Some (erase (breplace par sib b)).
Proof.
  intros Hnd Hw Hf Hsub.
  assert (Hin : w ∈ bwindows sub).
  { destruct Hsub as [-> | ->]; apply elem_of_bwindows; exists id; cbn; set_solver. }
  assert (Hsib : NoDup (bwindows sub) -> shape_remove w (erase sub) = Some (erase sib)).
  { destruct Hsub as [-> | ->]; intros Hn; apply bwindows_disjoint in Hn as (_ & _ & Hd); cbn;
      rewrite (decide_True _ _ eq_refl), shape_remove_notin; try done; rewrite <- bwindows_erase.
    - apply Hd. by left.
    - intros Hs. apply (Hd w Hs). by left. }
  clear Hsub. induction b as [i v|i a ra' l IHl r IHr]; cbn [bfind breplace broot] in *;
    (destruct (decide (i = par)) as [->|Hne]; [injection Hf as <-; by apply Hsib|]); [done|].
  cbn [bids] in Hnd. apply list.NoDup_cons in Hnd as [Ni Hnd].
  apply list.NoDup_app in Hnd as (Nl & Nlr & Nr).
  apply bwindows_disjoint in Hw as (Wl & Wr & Wlr). cbn [erase shape_remove].
  assert (Hsubw : forall x, bfind par x = Some sub -> w ∈ bwindows x).
  { intros x Hx. apply elem_of_bwindows in Hin as [j Hj]. apply elem_of_bwindows. exists j.
    by eapply (bfind_leaves _ _ _ Hx). }
  destruct (bfind par l) as [sl|] eqn:El.
  - injection Hf as ->. pose proof (bfind_Some_in _ _ _ El) as Hl.
    rewrite (IHl Nl Wl eq_refl), (breplace_notin par sib r) by (intros Hr; by apply (Nlr par)).
    rewrite shape_remove_notin; [done|]. rewrite <- bwindows_erase. by apply Wlr, Hsubw.
  - rewrite (breplace_notin par sib l) by (by apply bfind_None_notin). rewrite (IHr Nr Wr Hf).
    rewrite shape_remove_notin; [done|]. rewrite <- bwindows_erase. intros Hl. by apply (Wlr w Hl), Hsubw.
Qed.

(** What the code does when the leaf has a parent. *)
Lemma remove_run t w id par pp ax ra f s sib ns :
  arena_ok (nodes t) -> by_window t !! w = Some id ->
  arena_get (nodes t) id = Some (mkNode (Some par) (Leaf w)) ->
  arena_get (nodes t) par = Some (mkNode pp (Split ax ra f s)) ->
  (if decide (f = id) then s else f) = sib ->
  id <> par -> id <> sib -> par <> sib -> arena_get (nodes t) sib = Some ns ->
  (forall g, pp = Some g -> g <> id /\ g <> par /\ g <> sib /\ exists gp ax' ra' f' s',
     arena_get (nodes t) g = Some (mkNode gp (Split ax' ra' f' s')) /\ (f' = par \/ s' = par)) ->
  exists t', remove w t = (t', Ret tt) /\ arena_ok (nodes t') /\
    length (slots (nodes t')) = length (slots (nodes t)) /\
    by_window t' = delete w (by_window t) /\
    insertion_order t' = filter (fun v => v <> w) (insertion_order t) /\
    topology_generation t' = sat_add u64_max (topology_generation t) 1 /\
    root t' = (match pp with Some _ => root t | None => Some sib end) /\
    arena_get (nodes t') id = None /\ arena_get (nodes t') par = None /\
    arena_get (nodes t') sib = Some (with_parent pp ns) /\
    (forall g n, pp = Some g -> arena_get (nodes t) g = Some n ->
       arena_get (nodes t') g = Some (with_kind (redirect par sib (kind n)) n)) /\
    (forall i, i <> id -> i <> par -> i <> sib -> pp <> Some i ->
       arena_get (nodes t') i = arena_get (nodes t) i).
Proof.
  intros Hok Hix Hg Hpg Esib H1 H2 H3 Hsib Hpp.
  set (t0 := set_index (delete w (by_window t)) (filter (fun v => v <> w) (insertion_order t)) t).
  destruct (arena_remove_spec id (nodes t) _ Hok Hg) as (a1 & E1 & Hok1 & L1 & G1 & F1).
  destruct (arena_remove_spec par a1 (mkNode pp (Split ax ra f s)) Hok1) as (a2 & E2 & Hok2 & L2 & G2 & F2).
  { by rewrite F1. }
  destruct (arena_update_spec (with_parent pp) sib a2 ns Hok2) as (a3 & E3 & Hok3 & L3 & G3 & F3).
  { by rewrite F2, F1. }
  assert (Hout : forall i, i <> id -> i <> par -> i <> sib -> arena_get a3 i = arena_get (nodes t) i)
    by (intros; by rewrite F3, F2, F1).
  destruct (attach_spec pp par sib (set_nodes a3 t0) Hok3)
    as (t4 & Hrun & Hok4 & L4 & (Jb & Jo & Jt) & Hr4 & Gp & Gq).
  { intros g Hgp. destruct (Hpp g Hgp) as (K1 & K2 & K3 & gp & ax' & ra' & f' & s' & Hgg & Hc).
    exists gp, ax', ra', f', s'. split; [|done]. cbn. by rewrite Hout. }
  assert (Hne : forall i, i = id \/ i = par \/ i = sib -> pp <> Some i).
  { intros i Hi E. destruct (Hpp i E) as (? & ? & ? & _). naive_solver. }
  exists (bump_topology t4). split.
  { unfold remove. sm_run. rewrite Hix. cbn [ok_or]. sm_run. rewrite nodes_get_step, Hg. cbn [expect]. sm_run.
    unfold unregister. sm_run. fold t0. cbn [parent]. rewrite nodes_get_step. cbn [nodes t0 set_index].
    rewrite Hpg. cbn [expect]. sm_run. cbn [kind parent]. sm_run. rewrite Esib.
    rewrite (nodes_remove_step id _ t0 _ _ E1), (nodes_remove_step par _ (set_nodes a1 t0) _ _ E2).
    rewrite (nodes_update_step _ sib _ (set_nodes a2 (set_nodes a1 t0)) _ E3).
    change (set_nodes a3 (set_nodes a2 (set_nodes a1 t0))) with (set_nodes a3 t0).
    by rewrite (SM_bind_step _ _ _ _ _ Hrun). }
  cbn [nodes root by_window insertion_order topology_generation bump_topology].
  cbn [nodes set_nodes] in *. rewrite Jb, Jo, Jt, Hr4.
  split; [done|]. split; [lia|]. split; [done|]. split; [done|]. split; [done|]. split; [by destruct pp|].
  split; [rewrite Gq, F3, F2 by auto; done|]. split; [rewrite Gq, F3 by auto; done|].
  split; [rewrite Gq by auto; done|]. split.
  - intros g n Hgp Hn. apply Gp; [done|]. destruct (Hpp g Hgp) as (K1 & K2 & K3 & _). by rewrite Hout.
  - intros i K1 K2 K3 K4. rewrite Gq by done. by apply Hout.
Qed.

(** The last window. *)
Lemma remove_last t id w :
  tree_rep t (Some (BLeaf id w)) ->
  exists t', remove w t = (t', Ret tt) /\ tree_rep t' None /\
    topology_generation t' = sat_add u64_max (topology_generation t) 1 /\
    length (slots (nodes t')) = length (slots (nodes t)).
Proof.
  intros Ht. destruct (tree_rep_stores t _ Ht) as (Hr & Hrep & _ & Hix). cbn in Hrep.
  destruct Ht as (Hok & Ht). rewrite Hr in Ht. destruct Ht as (_ & _ & _ & Hlive & _ & _ & Hord & _).
  destruct (arena_remove_spec id (nodes t) _ Hok Hrep) as (a1 & E1 & Hok1 & L1 & G1 & F1).
  eexists. split.
  { unfold remove. sm_run. rewrite (proj2 (Hix w id) ltac:(by left)). cbn [ok_or]. sm_run.
    rewrite nodes_get_step, Hrep. cbn [expect]. sm_run. unfold unregister. sm_run. cbn [parent].
    erewrite nodes_remove_step; [|exact E1]. sm_run. reflexivity. }
  split; [|done]. split; [done|]. cbn. split; [|split].
  - intros i. destruct (decide (i = id)) as [->|Hne]; [done|]. rewrite F1 by done.
    destruct (arena_get (nodes t) i) eqn:E; [|done].
    assert (i ∈ [id]) by (apply Hlive; eauto). set_solver.
  - apply map_eq. intros v. rewrite lookup_empty. apply eq_None_not_Some. intros [i Hi].
    apply lookup_delete_Some in Hi as [Hne Hi]. apply Hix in Hi. cbn in Hi. set_solver.
  - cbn in Hord. apply Permutation_singleton_r in Hord as ->. rewrite filter_cons, decide_False; [done|tauto].
Qed.

(** The parent of a subtree, in a stored tree. *)
Lemma subtree_parent t b old sub q g :
  tree_rep t (Some b) -> bfind old b = Some sub -> broot sub = old ->
  rep (arena_get (nodes t)) q sub -> q = Some g ->
  g ∈ bids b /\ (g ∉ bids sub) /\ exists gp ax ra f s,
    arena_get (nodes t) g = Some (mkNode gp (Split ax ra f s)) /\ (f = old \/ s = old).
Proof.
  intros Ht Hsub Hsr Hq ->. destruct (tree_rep_stores t b Ht) as (_ & Hrep & Hnd & _).
  apply rep_root in Hq as [k Hk]. rewrite Hsr in Hk. destruct (decide (broot b = old)) as [E|E].
  { destruct (rep_root _ _ _ Hrep) as [k' Hk']. rewrite E in Hk'. congruence. }
  destruct (bfind_parent _ _ _ _ _ Hrep Hnd Hsub E)
    as (pid & gp & ax & ra & f & s & Hps & Hpb & Hpn & Hpg & Hfs).
  apply rep_root in Hps as [k' Hk']. rewrite Hsr, Hk in Hk'. injection Hk' as -> _. eauto 10.
Qed.

Lemma filter_out_one (w : Z) (l l' : list Z) :
  NoDup (w :: l') -> l ≡ₚ w :: l' -> filter (fun v => v <> w) l ≡ₚ l'.
Proof.
  intros Hnd ->. apply list.NoDup_cons in Hnd as [Hw _]. rewrite filter_cons, decide_False by tauto.
  induction l' as [|x l' IH]; [done|]. rewrite filter_cons, decide_True by set_solver. f_equiv. set_solver.
Qed.

(** The windows and the index of a tree that loses one leaf. *)
Section WithoutLeaf.
Context (b sub sib : btree) (w : Z) (id : DwindleNodeId) (lvs : list (Z * DwindleNodeId)).
Context (Hnw : NoDup (bwindows b)) (Hsub : bleaves sub ≡ₚ (w, id) :: bleaves sib).
Context (Hb : bleaves b ≡ₚ bleaves sub ++ lvs).

Lemma without_leaf_windows : NoDup (w :: bwindows sib ++ lvs.*1) /\ bwindows b ≡ₚ w :: bwindows sib ++ lvs.*1.
Proof.
  assert (H : bwindows b ≡ₚ w :: bwindows sib ++ lvs.*1).
  { unfold bwindows. rewrite Hb, Hsub. cbn. by rewrite fmap_app. }
  split; [|done]. by rewrite <- H.
Qed.

Lemma without_leaf_index v i :
  v <> w /\ (v, i) ∈ bleaves b <-> (v, i) ∈ bleaves sib \/ ((v, i) ∈ bleaves b /\ (v ∉ bwindows sub)).
Proof.
  destruct without_leaf_windows as [Hnd _]. apply list.NoDup_cons in Hnd as [Hw Hnd].
  apply list.NoDup_app in Hnd as (_ & Hd & _).
  assert (Hs : bwindows sub ≡ₚ w :: bwindows sib) by (unfold bwindows; by rewrite Hsub).
  assert (Hin : forall l, (v, i) ∈ l -> v ∈ l.*1)
    by (intros l Hl; apply list_elem_of_fmap; by exists (v, i)).
  rewrite Hs, Hb, Hsub, elem_of_app, !elem_of_cons. split.
  - intros [Hv [[[= -> ->]|Hi]|Hi]]; [done|by left|]. right. split; [by right|].
    intros [->|Hvs]; [done|]. by apply (Hd v Hvs), Hin.
  - intros [Hi|[[[[= -> ->]|Hi]|Hi] Hn]]; [|tauto|tauto|tauto].
    split; [|by left; right]. intros ->. apply Hw, elem_of_app. left. by apply Hin.
Qed.
End WithoutLeaf.

Lemma remove_refines_some t b w :
  tree_rep t (Some b) -> w ∈ bwindows b -> (forall id, b <> BLeaf id w) ->
  exists t' b', remove w t = (t', Ret tt) /\ tree_rep t' (Some b') /\
    shape_remove w (erase b) = Some (erase b') /\
    by_window t' = delete w (by_window t) /\
    insertion_order t' = filter (fun v => v <> w) (insertion_order t) /\
    topology_generation t' = sat_add u64_max (topology_generation t) 1 /\
    length (slots (nodes t')) = length (slots (nodes t)).
Proof.
  intros Ht Hw Hne. pose proof (tree_rep_stores t b Ht) as (Hr & Hrep & Hnd & Hix).
  pose proof Ht as (Hok & Ht'). rewrite Hr in Ht'. destruct Ht' as (_ & _ & _ & Hlive & Hnw & _ & Hord & _).
  destruct (leaf_context t b w Ht Hw) as (id & q & Hiw & Hid & Hga & _ & Hqn & Hpar).
  destruct q as [par|]; [|by destruct (Hne id); apply Hqn].
  destruct (Hpar par eq_refl) as (Hpb & Hpi & Hpk).
  destruct (sibling_context t b w id par Ht Hid Hga Hpb Hpk)
    as (sub & sib & pp & ax & ra & f & s & Hsub & Hsubr & Hpg & Esib & Hsibr & Hids & Hrat & Hshape).
  destruct (bfind_spec par b sib Hpb Hnd) as (sub' & ids & lvs & E & Hsr & P1 & P2 & P3 & P4).
  rewrite Hsub in E. injection E as <-. pose proof Hnd as Hnd'. rewrite P1, Hids in Hnd'.
  apply list.NoDup_cons in Hnd' as [N1 Hnd']. apply list.NoDup_cons in Hnd' as [N2 Hnd'].
  apply list.NoDup_app in Hnd' as (N3 & _). rewrite elem_of_cons, elem_of_app in N1. rewrite elem_of_app in N2.
  pose proof (broot_in sib) as Hsin. destruct (rep_root _ _ _ Hsibr) as [ks Hks].
  assert (Hsubids : forall i, i ∈ bids sub <-> i = par \/ i = id \/ i ∈ bids sib)
    by (intros i; rewrite Hids, !elem_of_cons; done).
  assert (Hout : forall i, i ∉ bids sub -> i <> id /\ i <> par /\ i <> broot sib)
    by (intros i Hi; rewrite Hsubids in Hi; split_and!; [tauto|tauto|intros ->; tauto]).
  pose proof (fun g => subtree_parent t b par sub pp g Ht Hsub Hsr Hsubr) as Hgrand.
  destruct (remove_run t w id par pp ax ra f s (broot sib) (mkNode (Some par) ks) Hok Hiw Hga Hpg Esib)
    as (t' & Hrun & Hok' & L' & Eix & Eord & Egen & Eroot & Gi & Gpar & Gs & Gp & Go);
    [done|intros ->; tauto|intros ->; tauto|exact Hks| |].
  { intros g Eg. destruct (Hgrand g Eg) as (_ & Hgn & Hgk). by destruct (Hout g Hgn) as (? & ? & ?). }
  assert (Hlsub : bleaves sub ≡ₚ (w, id) :: bleaves sib)
    by (destruct Hshape as [-> | ->]; cbn; [done|symmetry; apply Permutation_cons_append]).
  destruct (without_leaf_windows b sub sib w id lvs Hnw Hlsub P3) as [Hwnd Hwb].
  exists t', (breplace par sib b). split; [done|].
  split; [|split; [by eapply erase_breplace_sibling|done]].
  apply (tree_rep_graft t t' b sub sib par pp); try done.
  - eapply (rep_reparent (arena_get (nodes t)) _ (Some par)); [done|done|exact Hks|exact Gs|].
    intros i Hi Hir. apply Go; [intros ->; tauto|intros ->; tauto|done|].
    intros E. destruct (Hgrand i E) as (_ & Hn & _). by apply Hn, Hsubids; auto.
  - intros i H1 H2 H3. destruct (Hout i H2) as (? & ? & ?). by apply Go.
  - intros g n Eg _ Hg. by apply Gp.
  - intros i Hi _. apply Hsubids. auto.
  - intros i Hi. destruct (decide (i ∈ bids sib)); [by left|right].
    destruct (decide (i = id)) as [->|]; [by rewrite Gi in Hi; destruct Hi|].
    destruct (decide (i = par)) as [->|]; [by rewrite Gpar in Hi; destruct Hi|].
    assert (Hns : i ∉ bids sub) by (rewrite Hsubids; tauto). split; [|done].
    destruct (decide (pp = Some i)) as [E|E]; [by apply (Hgrand i E)|].
    destruct (Hout i Hns) as (? & ? & ?). apply Hlive. by rewrite Go in Hi.
  - apply list.NoDup_cons in Hwnd as [_ Hwnd]. by apply list.NoDup_app in Hwnd as [? _].
  - intros v Hv _. unfold bwindows. rewrite Hlsub. by right.
  - intros v i. rewrite Eix, lookup_delete_Some, Hix.
    rewrite <- (without_leaf_index b sub sib w id lvs Hnw Hlsub P3 v i). naive_solver.
  - rewrite Eord, Hord. rewrite (filter_out_one w _ (bwindows sib ++ lvs.*1) Hwnd Hwb).
    unfold bwindows. by rewrite P4, fmap_app.
Qed.

(** ** Changing a ratio *)

Fixpoint bset_ratio (id : DwindleNodeId) (ratio : SplitRatio) (b : btree) : btree :=
  match b with
  | BLeaf _ _ => b
  | BSplit i ax ra l r =>
      BSplit i ax (if decide (i = id) then ratio else ra) (bset_ratio id ratio l) (bset_ratio id ratio r)
  end.

Lemma bset_ratio_same id ra b :
  broot (bset_ratio id ra b) = broot b /\ bids (bset_ratio id ra b) = bids b /\
  bleaves (bset_ratio id ra b) = bleaves b.
Proof.
  induction b as [i w|i ax ra' l IHl r IHr]; cbn; [done|].
  destruct IHl as (_ & -> & ->), IHr as (_ & -> & ->). done.
Qed.

Lemma bset_ratio_notin id ra b : id ∉ bids b -> bset_ratio id ra b = b.
Proof.
  induction b as [i w|i ax ra' l IHl r IHr]; cbn; intros H; [done|].
  rewrite decide_False by set_solver. rewrite IHl, IHr by set_solver. done.
Qed.

Lemma bset_ratio_ok id ra b :
  is_Some (SplitRatio_new (ratio_value ra)) -> bratios_ok b -> bratios_ok (bset_ratio id ra b).
Proof.
  intros Hr. induction b as [i w|i ax ra' l IHl r IHr]; cbn; [done|].
  intros (H & Hl & Hr'). split; [by destruct (decide _)|]. auto.
Qed.

Lemma rep_set_ratio get get' p b id ra pp ax ra0 f s :
  rep get p b -> NoDup (bids b) -> get id = Some (mkNode pp (Split ax ra0 f s)) ->
  get' id = Some (mkNode pp (Split ax ra f s)) ->
  (forall i, i <> id -> get' i = get i) -> rep get' p (bset_ratio id ra b).
Proof.
  intros Hb Hnd Hg Hg' Ho. revert p Hb. induction b as [i w|i ax' ra' l IHl r IHr]; cbn; intros p Hb.
  - rewrite Ho; [done|]. intros ->. congruence.
  - destruct Hb as (H & Hl & Hr). cbn in Hnd. apply list.NoDup_cons in Hnd as [Ni Hnd].
    apply list.NoDup_app in Hnd as (Nl & _ & Nr).
    destruct (bset_ratio_same id ra l) as (-> & _). destruct (bset_ratio_same id ra r) as (-> & _).
    split; [|auto]. destruct (decide (i = id)) as [->|Hne]; [congruence|by rewrite Ho].
Qed.

Lemma SplitRatio_new_valid v ra : SplitRatio_new v = Some ra -> is_Some (SplitRatio_new (ratio_value ra)).
Proof.
  unfold SplitRatio_new. destruct (f64_is_finite v && _) eqn:E; [|done]. intros [= <-]. cbn. rewrite E. eauto.
Qed.

(** [set_split_ratio] on every branch. *)
Lemma set_split_ratio_spec t b id v :
  tree_rep t (Some b) ->
  match SplitRatio_new v, node_kind t id with
  | None, _ => set_split_ratio id v t = (t, Fail InvalidRatio)
  | Some _, None => set_split_ratio id v t = (t, Fail UnknownNode)
  | Some _, Some (Leaf _) => set_split_ratio id v t = (t, Fail NodeIsNotSplit)
  | Some ra, Some (Split _ _ _ _) =>
      exists t', set_split_ratio id v t = (t', Ret tt) /\ tree_rep t' (Some (bset_ratio id ra b)) /\
        topology_generation t' = topology_generation t /\
        length (slots (nodes t')) = length (slots (nodes t))
  end.
Proof.
  intros Ht. destruct (tree_rep_stores t b Ht) as (Hr & Hrep & Hnd & Hix).
  unfold set_split_ratio. destruct (SplitRatio_new v) as [ra|] eqn:Ev; [|done]. cbn [ok_or]. sm_run.
  rewrite nodes_get_step. unfold node_kind.
  destruct (arena_get (nodes t) id) as [[pp [w|ax ra0 f s]]|] eqn:Eg; [done| |done].
  cbn [fmap option_fmap option_map ok_or kind]. sm_run. cbn [kind].
  destruct Ht as (Hok & Ht). rewrite Hr in Ht. destruct Ht as (_ & _ & _ & Hlive & Hnw & _ & Hord & Hrat).
  destruct (arena_update_spec (with_kind (Split ax ra f s)) id (nodes t) _ Hok Eg)
    as (a' & Ea & Hok' & L & G & F).
  exists (set_nodes a' t). unfold nodes_update. rewrite Ea. split; [done|]. split; [|done].
  destruct (bset_ratio_same id ra b) as (B1 & B2 & B3).
  split; [done|]. cbn [root set_nodes]. rewrite Hr. unfold bwindows. rewrite B1, B2, B3.
  split; [done|]. split; [eapply rep_set_ratio; [done|done|exact Eg|exact G|done]|].
  split; [done|]. split; [|split; [done|split; [done|split; [done|]]]].
  - intros i Hi. apply Hlive. destruct (decide (i = id)) as [->|Hne]; [by rewrite Eg|].
    by rewrite <- F.
  - apply bset_ratio_ok; [by eapply SplitRatio_new_valid|done].
Qed.

(** ** [debug_validate] accepts every stored tree *)

Lemma validate_node_rep a b p fuel v :
  rep (arena_get a) p b -> NoDup (bids b) -> NoDup (bwindows b) -> bratios_ok b ->
  (bdepth b <= fuel)%nat ->
  (forall id, id ∈ bids b -> id ∉ visited v) ->
  (forall w, w ∈ bwindows b -> seen_leaves v !! w = None) ->
  validate_node fuel a (broot b) p v =
    (mkVisit (list_to_set (bids b) ∪ visited v) (list_to_map (bleaves b) ∪ seen_leaves v), Ret tt).
Proof.
  revert p fuel v. induction b as [i w|i ax ra l IHl r IHr]; intros p [|fuel] v; cbn [bdepth]; try lia;
    intros Hb Hnd Hw Hrat Hf Hv Hs; cbn [validate_node broot]; sm_run;
    (rewrite decide_False by (apply Hv; cbn; left)); cbn [rep] in Hb.
  - rewrite Hb. cbn [ok_or]. sm_run. rewrite decide_True by done. cbn [kind]. sm_run.
    rewrite decide_False by (cbn; rewrite Hs; [by intros []|by left]).
    unfold mret, SM_ret. f_equal. f_equal; [cbn; set_solver|].
    cbn [seen_leaves bleaves]. by rewrite insert_union_singleton_l.
  - destruct Hb as (Hg & Hl & Hr). rewrite Hg. cbn [ok_or]. sm_run. rewrite decide_True by done. cbn [kind].
    cbn [bids] in Hnd, Hv. apply list.NoDup_cons in Hnd as [Ni Hnd].
    apply list.NoDup_app in Hnd as (Nl & Nlr & Nr).
    assert (Hwsplit : bwindows (BSplit i ax ra l r) = bwindows l ++ bwindows r)
      by (unfold bwindows; cbn; by rewrite fmap_app).
    destruct (bwindows_disjoint _ _ _ _ _ Hw) as (Wl & Wr & Wlr). rewrite Hwsplit in Hs.
    destruct Hrat as ([? Hra] & Ral & Rar).
    rewrite decide_False by (intros E; apply (Nlr (broot l)); [apply broot_in|rewrite E; apply broot_in]).
    rewrite Hra. erewrite SM_bind_step.
    2:{ apply IHl; [done|done|done|done|lia|..]; cbn [visited seen_leaves].
        - intros id Hid. assert (id <> i) by (intros ->; set_solver). specialize (Hv id). set_solver.
        - intros w' Hw'. apply Hs. set_solver. }
    rewrite IHr; [|done|done|done|done|lia|..]; cbn [visited seen_leaves].
    + f_equal. f_equal; [cbn; rewrite list_to_set_app_L; set_solver|]. cbn [bleaves].
      rewrite list_to_map_app, !(assoc_L (∪)). f_equal. apply map_union_comm.
      apply map_disjoint_dom. rewrite !dom_list_to_map_L. set_solver.
    + intros id Hid. assert (id <> i) by (intros ->; set_solver).
      assert (id ∉ bids l) by (intros Hl'; by apply (Nlr id)). specialize (Hv id). set_solver.
    + intros w' Hw'. apply lookup_union_None. split; [|apply Hs; set_solver].
      apply not_elem_of_list_to_map_1. intros Hl'. by apply (Wlr w').
Qed.

(** The identifiers of the live slots, from index [i] on. *)
Fixpoint live_ids (i : nat) (l : list ArenaSlot) : list DwindleNodeId :=
  match l with
  | [] => []
  | s :: l => match node s with
              | Some _ => mkNodeId i (slot_generation s) :: live_ids (S i) l
              | None => live_ids (S i) l
              end
  end.

Lemma live_ids_length i l : length (live_ids i l) = length (filter (fun s => is_Some (node s)) l).
Proof.
  revert i. induction l as [|[g [n|]] l IH]; intros i; cbn [live_ids node]; [done| |].
  - rewrite filter_cons, decide_True by eauto. cbn [length]. by rewrite IH.
  - rewrite filter_cons, decide_False by (by intros []). apply IH.
Qed.

Lemma elem_of_live_ids i l id :
  id ∈ live_ids i l <->
  (i <= index id)%nat /\ exists n, l !! (index id - i)%nat = Some (mkSlot (generation id) (Some n)).
Proof.
  revert i. induction l as [|[g [n|]] l IH]; intros i; cbn.
  - rewrite elem_of_nil. split; [done|]. by intros [_ [n Hn]].
  - rewrite elem_of_cons, IH. split.
    + intros [->|[Hi [m Hm]]]; cbn; [split; [lia|]; rewrite Nat.sub_diag; eauto|].
      split; [lia|]. exists m. by replace (index id - i)%nat with (S (index id - S i))%nat by lia.
    + intros [Hi [m Hm]]. destruct (decide (index id = i)) as [E|E].
      * left. subst i. rewrite Nat.sub_diag in Hm. injection Hm as ->. by destruct id.
      * right. split; [lia|]. replace (index id - i)%nat with (S (index id - S i))%nat in Hm by lia. eauto.
  - rewrite IH. split.
    + intros [Hi [m Hm]]. split; [lia|]. exists m.
      by replace (index id - i)%nat with (S (index id - S i))%nat by lia.
    + intros [Hi [m Hm]]. destruct (decide (index id = i)) as [E|E].
      * subst i. by rewrite Nat.sub_diag in Hm.
      * split; [lia|]. replace (index id - i)%nat with (S (index id - S i))%nat in Hm by lia. eauto.
Qed.

Lemma live_ids_NoDup i l : NoDup (live_ids i l).
Proof.
  revert i. induction l as [|[g [n|]] l IH]; intros i; cbn; [apply NoDup_nil_2| |apply IH].
  apply list.NoDup_cons. split; [|apply IH]. rewrite elem_of_live_ids. cbn. lia.
Qed.

Lemma live_count_bids t b : tree_rep t (Some b) -> live_count (nodes t) = length (bids b).
Proof.
  intros Ht. destruct (tree_rep_stores t b Ht) as (Hr & Hrep & Hnd & _).
  destruct Ht as (_ & Ht). rewrite Hr in Ht. destruct Ht as (_ & _ & _ & Hlive & _).
  unfold live_count. rewrite <- (live_ids_length 0). apply Permutation_length, NoDup_Permutation;
    [apply live_ids_NoDup|done|].
  intros id. rewrite elem_of_live_ids, Nat.sub_0_r. setoid_rewrite <- arena_get_Some. split.
  - intros [_ [n Hn]]. apply Hlive. eauto.
  - intros Hid. split; [lia|]. exact (rep_live _ _ _ _ Hrep Hid).
Qed.

Lemma live_count_empty a : (forall id, arena_get a id = None) -> live_count a = 0%nat.
Proof.
  intros H. unfold live_count. rewrite <- (live_ids_length 0). apply length_zero_iff_nil.
  destruct (live_ids 0 (slots a)) as [|id l] eqn:E; [done|].
  assert (Hid : id ∈ live_ids 0 (slots a)) by (rewrite E; left).
  rewrite elem_of_live_ids, Nat.sub_0_r in Hid. destruct Hid as [_ [n Hn]].
  apply arena_get_Some in Hn. congruence.
Qed.

Lemma debug_validate_rep t o : tree_rep t o -> debug_validate t = Ret tt.
Proof.
  intros Ht. unfold debug_validate. destruct o as [b|].
  - destruct (tree_rep_stores t b Ht) as (Hr & Hrep & Hnd & Hix).
    pose proof (live_count_bids t b Ht) as Hlc.
    destruct Ht as (_ & Ht). rewrite Hr in Ht. destruct Ht as (_ & _ & _ & _ & Hnw & _ & Hord & Hrat).
    rewrite Hr. destruct (rep_root _ _ _ Hrep) as [k Hk]. rewrite Hk.
    rewrite decide_False by (cbn; by intros []).
    rewrite (validate_node_rep (nodes t) b None); [|done|done|done|done| |set_solver|done].
    2:{ pose proof (bids_bound _ _ _ Hrep Hnd). pose proof (bdepth_bids b). lia. }
    cbn [visited seen_leaves]. rewrite (right_id_L ∅ (∪)), (right_id_L ∅ (∪)).
    assert (Hmap : list_to_map (bleaves b) = by_window t).
    { apply map_eq. intros w. apply option_eq. intros id. rewrite Hix. symmetry.
      by apply elem_of_list_to_map. }
    assert (Hsize : size (by_window t) = length (bwindows b)).
    { rewrite <- Hmap, <- size_dom, dom_list_to_map_L, size_list_to_set by done. done. }
    cbn [mbind res_bind].
    rewrite decide_False by (rewrite size_list_to_set, Hlc by done; tauto).
    rewrite decide_False by tauto. rewrite decide_False; [done|].
    rewrite Hmap, Hsize, Hord, size_list_to_set by done. intros [H|[H|H]]; [done|done|].
    apply list.Exists_exists in H as (w & Hw & Hn).
    apply elem_of_bwindows in Hw as [id Hid]. apply Hix in Hid. congruence.
  - destruct Ht as (_ & Ht). destruct (root t); [done|]. destruct Ht as (Hnone & Hix & Hord).
    rewrite decide_False; [done|]. rewrite (live_count_empty _ Hnone), Hix, Hord. tauto.
Qed.

(** ** Stale identifiers *)

(** An identifier of a slot that has moved on: it can never be live again. *)
Definition retired (a : DwindleArena) (id : DwindleNodeId) : Prop :=
  exists s, slots a !! index id = Some s /\
    (generation id < slot_generation s \/
     generation id = slot_generation s /\ node s = None /\ (index id ∉ free a)).

Lemma retired_get a id : retired a id -> arena_get a id = None.
Proof.
  intros ([g o] & Hs & H). unfold arena_get. rewrite Hs. cbn in *.
  destruct (Z.eqb_spec g (generation id)); [|done]. destruct H as [H|(_ & H & _)]; [lia|done].
Qed.

Lemma arena_insert_retired {E} n a b new id :
  arena_insert (E := E) n a = Ret (b, new) -> retired a id -> retired b id.
Proof.
  unfold arena_insert, retired. intros H (s & Hs & Hc). destruct (free a) as [|i rest] eqn:Ef.
  - destruct (_ <=? _); [|done]. injection H as <- <-. exists s. cbn.
    rewrite lookup_app_l by (by eapply lookup_lt_Some). split; [done|].
    destruct Hc as [Hc|(Hc & Hn & _)]; [by left|]. right. set_solver.
  - destruct (slots a !! i) as [[g o]|] eqn:Ei; [|done]. injection H as <- <-. cbn.
    destruct (decide (i = index id)) as [->|Hne].
    + rewrite Hs in Ei. injection Ei as ->. eexists. rewrite list_lookup_insert_eq by (by eapply lookup_lt_Some).
      split; [done|]. cbn in *. destruct Hc as [Hc|(_ & _ & Hc)]; [by left|set_solver].
    + exists s. rewrite list_lookup_insert_ne by done. split; [done|].
      destruct Hc as [Hc|(Hc & Hn & Hf)]; [by left|]. right. set_solver.
Qed.

Lemma arena_update_retired f i a b id :
  arena_update f i a = Some b -> retired a id -> retired b id.
Proof.
  unfold arena_update. intros H Hr. destruct (arena_get a i) as [n|] eqn:Eg; [|done].
  injection H as <-. pose proof (retired_get _ _ Hr) as Hn. destruct Hr as (s & Hs & Hc).
  apply arena_get_Some in Eg. unfold retired. cbn. destruct (decide (index i = index id)) as [E|Hne].
  - rewrite <- E in Hs |- *. rewrite Hs in Eg. injection Eg as ->.
    rewrite list_lookup_insert_eq by (by eapply lookup_lt_Some). eexists. split; [done|].
    cbn in *. destruct Hc as [Hc|(_ & Hc & _)]; [by left|done].
  - rewrite list_lookup_insert_ne by done. exists s. done.
Qed.

Lemma arena_remove_retired i a b n id :
  arena_remove i a = Some (b, n) -> retired a id -> retired b id.
Proof.
  unfold arena_remove. intros H (s & Hs & Hc). destruct (arena_get a i) as [m|] eqn:Eg; [|done].
  injection H as Hb _. apply arena_get_Some in Eg. unfold retired.
  destruct (decide (index i = index id)) as [E|Hne].
  - rewrite <- E in Hs |- *. rewrite Hs in Eg. injection Eg as ->. cbn in Hc.
    destruct Hc as [Hc|(_ & Hc & _)]; [|done].
    destruct (generation i <? u32_max); subst b; cbn;
      rewrite list_lookup_insert_eq by (by eapply lookup_lt_Some); eexists; (split; [done|]); cbn; lia.
  - destruct (generation i <? u32_max); subst b; cbn; rewrite list_lookup_insert_ne by done; exists s;
      (split; [done|]); [|done]. destruct Hc as [Hc|(H1 & H2 & H3)]; [by left|]. right.
    split; [done|]. split; [done|]. rewrite elem_of_cons. naive_solver.
Qed.

(** The node [remove] takes out is retired at once. *)
Lemma arena_remove_retires i a b n :
  arena_ok a -> arena_remove i a = Some (b, n) -> retired b i.
Proof.
  intros (_ & Hfree & Hgen). unfold arena_remove. intros H.
  destruct (arena_get a i) as [m|] eqn:Eg; [|done]. injection H as Hb _. apply arena_get_Some in Eg.
  assert (Hnf : index i ∉ free a).
  { intros Hin. destruct (Hfree _ Hin) as (s & Es & Hs). rewrite Eg in Es. by injection Es as <-. }
  unfold retired. destruct (Z.ltb_spec (generation i) u32_max); subst b; cbn;
    rewrite list_lookup_insert_eq by (by eapply lookup_lt_Some); eexists; (split; [done|]); cbn; [lia|].
  by right.
Qed.

Definition known (id : DwindleNodeId) (t : DwindleTree) : Prop :=
  arena_ok (nodes t) /\ (is_Some (arena_get (nodes t) id) \/ retired (nodes t) id).

Lemma nodes_insert_known id n : keeps (known id) (nodes_insert n).
Proof.
  intros t [Hok Hk]. unfold nodes_insert.
  destruct (arena_insert n (nodes t)) as [[b new]|e| |] eqn:E; try done.
  destruct (arena_insert_spec n (nodes t) Hok) as (b' & new' & E' & Hok' & Hn & _ & _ & Ho).
  { intros Hf. unfold arena_insert in E. rewrite Hf in E.
    destruct (Z.leb_spec (Z.of_nat (length (slots (nodes t)))) u32_max); [lia|done]. }
  rewrite E' in E. injection E as -> ->. split; [done|]. cbn.
  destruct Hk as [Hk|Hk];
    [left|right; exact (arena_insert_retired (E := DwindleTreeError) _ _ _ _ _ (E' _) Hk)].
  rewrite Ho; [done|]. intros ->. rewrite Hn in Hk. by destruct Hk.
Qed.

Lemma nodes_update_known id f i : keeps (known id) (nodes_update f i).
Proof.
  intros t [Hok Hk]. unfold nodes_update. destruct (arena_update f i (nodes t)) as [b|] eqn:E; [|done].
  destruct (arena_get (nodes t) i) as [n|] eqn:Eg; [|unfold arena_update in E; by rewrite Eg in E].
  destruct (arena_update_spec f i (nodes t) n Hok Eg) as (b' & E' & Hok' & _ & G & F).
  rewrite E' in E. injection E as ->. split; [done|]. cbn.
  destruct Hk as [Hk|Hk]; [left|right; exact (arena_update_retired _ _ _ _ _ E' Hk)].
  destruct (decide (id = i)) as [->|Hne]; [rewrite G; eauto|by rewrite F].
Qed.

Lemma nodes_remove_known id i : keeps (known id) (nodes_remove i).
Proof.
  intros t [Hok Hk]. unfold nodes_remove. destruct (arena_remove i (nodes t)) as [[b m]|] eqn:E; [|done].
  destruct (arena_get (nodes t) i) as [n|] eqn:Eg; [|unfold arena_remove in E; by rewrite Eg in E].
  destruct (arena_remove_spec i (nodes t) n Hok Eg) as (b' & E' & Hok' & _ & G & F).
  rewrite E' in E. injection E as -> ->. split; [done|]. cbn.
  destruct (decide (id = i)) as [->|Hne]; [right; exact (arena_remove_retires _ _ _ _ Hok E')|].
  destruct Hk as [Hk|Hk]; [left; by rewrite F|right; exact (arena_remove_retired _ _ _ _ _ E' Hk)].
Qed.

Lemma nodes_retired id :
  (forall n, keeps (fun t => retired (nodes t) id) (nodes_insert n)) /\
  (forall f i, keeps (fun t => retired (nodes t) id) (nodes_update f i)) /\
  (forall i, keeps (fun t => retired (nodes t) id) (nodes_remove i)).
Proof.
  split_and!; intros; intros t Ht; unfold nodes_insert, nodes_update, nodes_remove.
  - destruct (arena_insert n (nodes t)) as [[b new]|e| |] eqn:E; try done.
    by eapply (arena_insert_retired (E := DwindleTreeError)).
  - destruct (arena_update f i (nodes t)) eqn:E; [|done]. by eapply arena_update_retired.
  - destruct (arena_remove i (nodes t)) as [[b m]|] eqn:E; [|done]. by eapply arena_remove_retired.
Qed.

(** Everything a tree operation does to the arena goes through these three. *)
Section OperationInvariant.
Context (P : DwindleTree -> Prop).
Context (Hins : forall n, keeps P (nodes_insert n)) (Hupd : forall f i, keeps P (nodes_update f i))
        (Hrem : forall i, keeps P (nodes_remove i)).
Context (Hnodes : forall t t', nodes t' = nodes t -> P t -> P t').

Ltac keeps_tac :=
  repeat match goal with
  | |- keeps _ (sm_get ≫= _) => apply keeps_get; intros
  | |- keeps _ (_ ≫= _) => apply keeps_bind; intros
  | |- keeps _ (sm_lift _) => apply keeps_lift
  | |- keeps _ (mret _) => apply keeps_ret
  | |- keeps _ (nodes_insert _) => apply Hins
  | |- keeps _ (nodes_update _ _) => apply Hupd
  | |- keeps _ (nodes_remove _) => apply Hrem
  | |- keeps _ (nodes_get _) => intros ? ?; assumption
  | |- keeps _ (sm_modify _) => apply keeps_modify; intros s Hs; apply (Hnodes s); [reflexivity|exact Hs]
  | |- keeps _ (register_leaf _ _) => unfold register_leaf
  | |- keeps _ (unregister _) => unfold unregister
  | |- keeps _ (match ?x with _ => _ end) => destruct x
  end.

Lemma replace_child_keeps p old new : keeps P (replace_child p old new).
Proof. unfold replace_child. keeps_tac. Qed.
Lemma insert_keeps w hint : keeps P (insert w hint).
Proof. unfold insert. pose proof replace_child_keeps. keeps_tac; auto. Qed.
Lemma remove_keeps w : keeps P (remove w).
Proof. unfold remove. pose proof replace_child_keeps. keeps_tac; auto. Qed.
Lemma set_split_ratio_keeps id v : keeps P (set_split_ratio id v).
Proof. unfold set_split_ratio. keeps_tac. Qed.
End OperationInvariant.

(** ** The tree as a state machine *)

Inductive tree_op : Type :=
| OpInsert (window : Z) (hint : InsertHint)
| OpRemove (window : Z)
| OpSetRatio (id : DwindleNodeId) (value : f64).

Definition run_op (op : tree_op) : TreeM unit :=
  match op with
  | OpInsert w hint => _ ← insert w hint; mret tt
  | OpRemove w => remove w
  | OpSetRatio id v => set_split_ratio id v
  end.

(** [tree_steps n t t']: [n] operations, whatever their outcome. *)
Inductive tree_steps : nat -> DwindleTree -> DwindleTree -> Prop :=
| steps_refl t : tree_steps 0 t t
| steps_step n t t1 op : tree_steps n t t1 -> tree_steps (S n) t (run_op op t1).1.

Lemma run_op_keeps P op :
  (forall n, keeps P (nodes_insert n)) -> (forall f i, keeps P (nodes_update f i)) ->
  (forall i, keeps P (nodes_remove i)) ->
  (forall t t', nodes t' = nodes t -> P t -> P t') -> keeps P (run_op op).
Proof.
  intros H1 H2 H3 H4. destruct op; cbn [run_op].
  - apply keeps_bind; [by apply insert_keeps|intros; apply keeps_ret].
  - by apply remove_keeps.
  - by apply set_split_ratio_keeps.
Qed.

Lemma run_op_known id op : keeps (known id) (run_op op).
Proof.
  apply run_op_keeps; [apply nodes_insert_known|apply nodes_update_known|apply nodes_remove_known|].
  intros t t' E. unfold known. by rewrite E.
Qed.

Lemma run_op_retired id op : keeps (fun t => retired (nodes t) id) (run_op op).
Proof.
  destruct (nodes_retired id) as (H1 & H2 & H3). apply run_op_keeps; try done.
  intros t t' E. by rewrite E.
Qed.

(** The outcome of every operation on a stored tree. *)
Lemma insert_duplicate t w hint : contains_window t w = true -> insert w hint t = (t, Fail (DuplicateWindow w)).
Proof. intros H. unfold insert. sm_run. by rewrite H. Qed.

Lemma remove_unknown t w : by_window t !! w = None -> remove w t = (t, Fail (UnknownWindow w)).
Proof. intros H. unfold remove. sm_run. by rewrite H. Qed.

Lemma run_op_rep t o op :
  tree_rep t o -> Z.of_nat (length (slots (nodes t))) < u32_max ->
  settles (run_op op t).2 /\ (exists o', tree_rep (run_op op t).1 o') /\
  (length (slots (nodes (run_op op t).1)) <= S (S (length (slots (nodes t)))))%nat.
Proof.
  intros Ht Hlen. destruct op as [w hint|w|id v]; cbn [run_op].
  - destruct (contains_window t w) eqn:Ec.
    { unfold mbind, SM_bind. rewrite (insert_duplicate t w hint Ec). cbn. split_and!; [done|eauto|lia]. }
    destruct o as [b|].
    + assert (Hw : w ∉ bwindows b).
      { intros Hw. apply (stores_contains t b w (tree_rep_stores t b Ht)) in Hw. congruence. }
      destruct (insert_refines_some t b w hint Ht Hw Hlen) as (t' & leaf & b' & E & Ht' & _ & _ & _ & _ & L).
      rewrite (SM_bind_step _ _ _ _ _ E). cbn. split_and!; [done|eauto|lia].
    + destruct (insert_first t w hint Ht ltac:(lia)) as (t' & leaf & E & Ht' & _ & _ & _ & L).
      rewrite (SM_bind_step _ _ _ _ _ E). cbn. split_and!; [done|eauto|lia].
  - destruct (by_window t !! w) as [id|] eqn:Ew.
    2:{ rewrite (remove_unknown t w Ew). cbn. split_and!; [done|eauto|lia]. }
    destruct o as [b|].
    2:{ destruct Ht as (_ & Ht). destruct (root t); [done|]. destruct Ht as (_ & Hix & _).
        by rewrite Hix, lookup_empty in Ew. }
    assert (Hw : w ∈ bwindows b).
    { apply elem_of_bwindows. exists id. by apply (tree_rep_stores t b Ht). }
    assert (Hcase : (exists i, b = BLeaf i w) \/ (forall i, b <> BLeaf i w)).
    { destruct b as [i v|]; [|by right]. destruct (decide (v = w)) as [->|]; [eauto|right; congruence]. }
    destruct Hcase as [[i ->]|Hne].
    + destruct (remove_last t i w Ht) as (t' & E & Ht' & _ & L). rewrite E. cbn. split_and!; [done|eauto|lia].
    + destruct (remove_refines_some t b w Ht Hw Hne) as (t' & b' & E & Ht' & _ & _ & _ & _ & L).
      rewrite E. cbn. split_and!; [done|eauto|lia].
  - destruct o as [b|].
    + pose proof (set_split_ratio_spec t b id v Ht) as H.
      destruct (SplitRatio_new v) as [ra|]; [|rewrite H; cbn; split_and!; [done|eauto|lia]].
      destruct (node_kind t id) as [[w|ax ra0 f s]|];
        [rewrite H; cbn; split_and!; [done|eauto|lia]| |rewrite H; cbn; split_and!; [done|eauto|lia]].
      destruct H as (t' & E & Ht' & _ & L). rewrite E. cbn. split_and!; [done|eauto|lia].
    + pose proof Ht as (_ & Hn). destruct (root t); [done|]. destruct Hn as (Hnone & _).
      unfold set_split_ratio. destruct (SplitRatio_new v); cbn [ok_or].
      * sm_run. rewrite nodes_get_step, Hnone. unfold ok_or, mbind, SM_bind, sm_lift.
        cbn [fst snd]. split_and!; [done|eauto|lia].
      * unfold mbind, SM_bind, sm_lift. cbn [fst snd]. split_and!; [done|eauto|lia].
Qed.

Lemma tree_steps_rep n t :
  tree_steps n DwindleTree_default t -> Z.of_nat (2 * n) < u32_max ->
  (exists o, tree_rep t o) /\ (length (slots (nodes t)) <= 2 * n)%nat.
Proof.
  remember DwindleTree_default as t0 eqn:E0. induction 1 as [t|n t t1 op H IH]; intros Hn.
  - subst t. split; [exists None; apply tree_rep_default|]. cbn. lia.
  - destruct (IH E0 ltac:(lia)) as [[o Ho] Hl].
    destruct (run_op_rep t1 o op Ho ltac:(lia)) as (_ & Hrep & Hl'). split; [done|lia].
Qed.

(** C5: the invariant of the tiling tree. After any sequence of
    insertions, removals and ratio changes from the empty tree, successful
    or not, the arena stores a binary tree whose links, window index and
    insertion order agree; [debug_validate] accepts it; and the next
    operation neither panics nor loops. The bound on the number of
    operations keeps the arena within its [u32] indices. *)
Theorem dwindle_invariant n t :
  tree_steps n DwindleTree_default t -> Z.of_nat (2 * n) < u32_max ->
  (exists o, tree_rep t o) /\ debug_validate t = Ret tt /\ forall op, settles (run_op op t).2.
Proof.
  intros Hs Hn. destruct (tree_steps_rep n t Hs Hn) as [[o Ho] Hl].
  split; [eauto|]. split; [by eapply debug_validate_rep|].
  intros op. apply (run_op_rep t o op Ho). lia.
Qed.

Definition demo_tree : DwindleTree :=
  (run_op (OpRemove 2) (run_op (OpInsert 3 (mkHint (Some 1) None None None))
    (run_op (OpInsert 2 InsertHint_default) (run_op (OpInsert 1 InsertHint_default) DwindleTree_default).1).1).1).1.

Lemma dwindle_invariant_witness :
  tree_steps 4 DwindleTree_default demo_tree /\ debug_validate demo_tree = Ret tt.
Proof.
  assert (H : tree_steps 4 DwindleTree_default demo_tree) by (repeat apply steps_step; apply steps_refl).
  split; [exact H|]. apply (dwindle_invariant 4 demo_tree H). vm_compute. reflexivity.
Defined.

(** Reading the abstract tree back from the arena. *)
Fixpoint read_shape (fuel : nat) (a : DwindleArena) (id : DwindleNodeId) : option shape :=
  match fuel with
  | O => None
  | S fuel =>
      n ← arena_get a id;
      match kind n with
      | Leaf w => Some (SLeaf w)
      | Split axis ratio first second =>
          l ← read_shape fuel a first; r ← read_shape fuel a second; Some (SSplit axis ratio l r)
      end
  end.
Definition abs (t : DwindleTree) : option shape :=
  r ← root t; read_shape (length (slots (nodes t))) (nodes t) r.
Definition abs_windows (t : DwindleTree) : list Z := from_option shape_windows [] (abs t).

Definition tree_ok (t : DwindleTree) : Prop := exists o, tree_rep t o.

Lemma read_shape_rep fuel a p b :
  rep (arena_get a) p b -> (bdepth b <= fuel)%nat -> read_shape fuel a (broot b) = Some (erase b).
Proof.
  revert fuel p. induction b as [i w|i ax ra l IHl r IHr]; cbn [bdepth]; intros [|fuel] p H Hf; try lia;
    cbn [read_shape broot]; cbn [rep] in H.
  - by rewrite H.
  - destruct H as (H & Hl & Hr). rewrite H. cbn.
    rewrite (IHl fuel _ Hl), (IHr fuel _ Hr) by lia. done.
Qed.

Lemma abs_rep t o : tree_rep t o -> abs t = erase <$> o.
Proof.
  intros Ht. unfold abs. destruct o as [b|]; cbn.
  - destruct (tree_rep_stores t b Ht) as (Hr & Hrep & Hnd & _). rewrite Hr. cbn.
    eapply read_shape_rep; [done|].
    pose proof (bids_bound _ _ _ Hrep Hnd). pose proof (bdepth_bids b). lia.
  - destruct Ht as (_ & Ht). by destruct (root t).
Qed.

Lemma abs_windows_rep t o : tree_rep t o -> abs_windows t = from_option bwindows [] o.
Proof.
  intros Ht. unfold abs_windows. rewrite (abs_rep t o Ht). destruct o; cbn; [|done].
  by rewrite bwindows_erase.
Qed.

Lemma abs_contains t w : tree_ok t -> contains_window t w = true <-> w ∈ abs_windows t.
Proof.
  intros [[b|] Ht]; rewrite (abs_windows_rep _ _ Ht); cbn.
  - apply stores_contains, tree_rep_stores, Ht.
  - destruct Ht as (_ & Ht). destruct (root t); [done|]. destruct Ht as (_ & Hix & _).
    unfold contains_window. rewrite Hix, lookup_empty, bool_decide_eq_true, elem_of_nil.
    split; [by intros []|done].
Qed.

Lemma insert_abs t w hint :
  tree_ok t -> Z.of_nat (length (slots (nodes t))) < u32_max -> w ∉ abs_windows t ->
  exists t' leaf, insert w hint t = (t', Ret leaf) /\ tree_ok t' /\
    abs t' = Some match abs t with
                  | None => SLeaf w
                  | Some s => shape_insert (hint_axis hint) (hint_new_first hint) (chosen_anchor hint s) w s
                  end /\
    by_window t' = <[w := leaf]> (by_window t) /\ insertion_order t' = insertion_order t ++ [w] /\
    topology_generation t' = sat_add u64_max (topology_generation t) 1.
Proof.
  intros [[b|] Ht] Hlen; rewrite (abs_windows_rep _ _ Ht), (abs_rep _ _ Ht); cbn; intros Hw.
  - destruct (insert_refines_some t b w hint Ht Hw Hlen) as (t' & leaf & b' & E & Ht' & Es & H1 & H2 & H3 & _).
    exists t', leaf. split; [done|]. split; [by exists (Some b')|]. split; [|done].
    rewrite (abs_rep _ _ Ht'). cbn. by rewrite Es.
  - destruct (insert_first t w hint Ht ltac:(lia)) as (t' & leaf & E & Ht' & H1 & H2 & H3 & _).
    destruct Ht as (_ & Ht). destruct (root t); [done|]. destruct Ht as (_ & Hix & Hord).
    exists t', leaf. split; [done|]. rewrite Hix, Hord. split; [by exists (Some (BLeaf leaf w))|].
    split; [|done]. by rewrite (abs_rep _ _ Ht').
Qed.

(** C26: insertion refines the abstract tree. A known window is refused and
    nothing changes; otherwise the new window becomes the only leaf of an
    empty tree, or shares the leaf of the anchor (the focused window, else
    the fallback, else the first leaf) in a new split whose axis and order
    the hint decides; the other windows, splits and ratios keep their
    places. *)
Theorem insert_refines t w hint :
  tree_ok t -> Z.of_nat (length (slots (nodes t))) < u32_max ->
  if decide (w ∈ abs_windows t) then insert w hint t = (t, Fail (DuplicateWindow w))
  else exists t' leaf, insert w hint t = (t', Ret leaf) /\ tree_ok t' /\
    abs t' = Some match abs t with
                  | None => SLeaf w
                  | Some s => shape_insert (hint_axis hint) (hint_new_first hint) (chosen_anchor hint s) w s
                  end /\
    by_window t' = <[w := leaf]> (by_window t) /\ insertion_order t' = insertion_order t ++ [w] /\
    topology_generation t' = sat_add u64_max (topology_generation t) 1.
Proof.
  intros Ha Hlen. destruct (decide _) as [Hw|Hw]; [|by apply insert_abs].
  apply insert_duplicate. by apply abs_contains.
Qed.

Lemma insert_refines_witness :
  tree_ok demo_tree /\
  exists t' leaf, insert 7 (mkHint (Some 3) None (Some (mkLayoutPoint 1 1)) (Some (mkLayoutRect 0 0 10 20))) demo_tree
                  = (t', Ret leaf) /\
  abs t' = Some (SSplit Horizontal SplitRatio_DEFAULT (SLeaf 1)
    (SSplit Vertical SplitRatio_DEFAULT (SLeaf 7) (SLeaf 3))).
Proof.
  assert (H : tree_ok demo_tree).
  { apply (tree_steps_rep 4); [repeat apply steps_step; apply steps_refl|vm_compute; reflexivity]. }
  split; [exact H|].
  assert (Hw : 7 ∉ abs_windows demo_tree).
  { assert (abs_windows demo_tree = [1; 3]) as -> by (vm_compute; reflexivity). clear H. set_solver. }
  pose proof (insert_refines demo_tree 7
    (mkHint (Some 3) None (Some (mkLayoutPoint 1 1)) (Some (mkLayoutRect 0 0 10 20))) H
    ltac:(vm_compute; reflexivity)) as Hi.
  destruct (decide (7 ∈ abs_windows demo_tree)) as [Hin|_]; [destruct (Hw Hin)|].
  destruct Hi as (t' & leaf & E & _ & Ha & _).
  exists t', leaf. split; [exact E|]. rewrite Ha. vm_compute. reflexivity.
Defined.

Lemma remove_last_index t i w :
  tree_rep t (Some (BLeaf i w)) ->
  filter (fun v => v <> w) (insertion_order t) = [] /\ delete w (by_window t) = ∅.
Proof.
  intros Ht. destruct (tree_rep_stores t _ Ht) as (Hr & _ & _ & Hix).
  destruct Ht as (_ & Ht). rewrite Hr in Ht. destruct Ht as (_ & _ & _ & _ & _ & _ & Hord & _).
  cbn in Hord. apply Permutation_singleton_r in Hord as ->. split.
  - by rewrite filter_cons, decide_False by tauto.
  - apply map_eq. intros v. rewrite lookup_empty. apply eq_None_not_Some. intros [j Hj].
    apply lookup_delete_Some in Hj as [Hv Hj]. apply Hix in Hj. cbn in Hj. set_solver.
Qed.

Lemma remove_abs t w :
  tree_ok t -> w ∈ abs_windows t ->
  exists t', remove w t = (t', Ret tt) /\ tree_ok t' /\ abs t' = (abs t ≫= shape_remove w) /\
    insertion_order t' = filter (fun v => v <> w) (insertion_order t) /\
    by_window t' = delete w (by_window t) /\
    topology_generation t' = sat_add u64_max (topology_generation t) 1.
Proof.
  intros [[b|] Ht]; rewrite (abs_windows_rep _ _ Ht), (abs_rep _ _ Ht); cbn; intros Hw; [|set_solver].
  assert (Hcase : (exists i, b = BLeaf i w) \/ (forall i, b <> BLeaf i w)).
  { destruct b as [i v|]; [|by right]. destruct (decide (v = w)) as [->|]; [eauto|right; congruence]. }
  destruct Hcase as [[i ->]|Hne].
  - destruct (remove_last t i w Ht) as (t' & E & Ht' & H3 & _). exists t'. split; [done|].
    split; [by exists None|]. rewrite (abs_rep _ _ Ht'). cbn. rewrite decide_True by done. split; [done|].
    destruct (remove_last_index t i w Ht) as [-> ->].
    destruct Ht' as (_ & Ht'). destruct (root t'); [done|]. by destruct Ht' as (_ & -> & ->).
  - destruct (remove_refines_some t b w Ht Hw Hne) as (t' & b' & E & Ht' & Es & H1 & H2 & H3 & _).
    exists t'. split; [done|]. split; [by exists (Some b')|]. rewrite (abs_rep _ _ Ht'), Es. done.
Qed.

(** Removal refines the abstract tree. An unknown window is refused
    and nothing changes; otherwise the sibling of the window takes the place
    of their split (the last window leaves the empty tree), and the window
    disappears from the index and the insertion order. *)
Theorem remove_refines t w :
  tree_ok t ->
  if decide (w ∈ abs_windows t) then
    exists t', remove w t = (t', Ret tt) /\ tree_ok t' /\ abs t' = (abs t ≫= shape_remove w) /\
      insertion_order t' = filter (fun v => v <> w) (insertion_order t) /\
      by_window t' = delete w (by_window t) /\
      topology_generation t' = sat_add u64_max (topology_generation t) 1
  else remove w t = (t, Fail (UnknownWindow w)).
Proof.
  intros Ha. destruct (decide _) as [Hw|Hw]; [by apply remove_abs|].
  apply remove_unknown. destruct (by_window t !! w) eqn:E; [|done]. destruct Hw. apply (abs_contains t w Ha).
  unfold contains_window. rewrite E. apply bool_decide_eq_true. eauto.
Qed.

Lemma remove_refines_witness :
  tree_ok demo_tree /\ exists t', remove 1 demo_tree = (t', Ret tt) /\ abs t' = Some (SLeaf 3) /\
  insertion_order t' = [3].
Proof.
  assert (H : tree_ok demo_tree).
  { apply (tree_steps_rep 4); [repeat apply steps_step; apply steps_refl|vm_compute; reflexivity]. }
  split; [exact H|]. assert (Hw : 1 ∈ abs_windows demo_tree).
  { assert (abs_windows demo_tree = [1; 3]) as -> by (vm_compute; reflexivity). left. }
  pose proof (remove_refines demo_tree 1 H) as Hi.
  destruct (decide (1 ∈ abs_windows demo_tree)) as [_|Hn]; [|destruct (Hn Hw)]. destruct Hi as (t' & E & _ & Ha & Ho & _).
  exists t'. split; [exact E|]. rewrite Ha, Ho. split; vm_compute; reflexivity.
Defined.

(** Stale identifiers. Once an operation has taken a node out of the
    tree, its identifier resolves to nothing for ever, however often its
    slot is reused: the generation has moved on, or the slot is retired. *)
Theorem stale_ids_never_resolve t op id n t2 :
  tree_ok t -> is_Some (node_kind t id) -> node_kind (run_op op t).1 id = None ->
  tree_steps n (run_op op t).1 t2 -> node_kind t2 id = None.
Proof.
  intros [o [Hok _]] Hlive Hdead Hsteps. unfold node_kind in *.
  assert (Hk : known id (run_op op t).1).
  { apply run_op_known. split; [done|]. left. by apply fmap_is_Some in Hlive. }
  apply fmap_None in Hdead. destruct Hk as [_ [Hk|Hk]]; [rewrite Hdead in Hk; by destruct Hk|].
  assert (Hr : retired (nodes t2) id).
  { clear Hdead. induction Hsteps as [|m t1 t3 op' _ IH]; [done|]. by apply run_op_retired, IH. }
  by rewrite (retired_get _ _ Hr).
Qed.

Lemma stale_ids_never_resolve_witness :
  let t := (run_op (OpInsert 1 InsertHint_default) DwindleTree_default).1 in
  let t2 := (run_op (OpInsert 9 InsertHint_default) (run_op (OpRemove 1) t).1).1 in
  leaf_for_window t 1 = Some (mkNodeId 0 1) /\ leaf_for_window t2 9 = Some (mkNodeId 0 2) /\
  node_kind t2 (mkNodeId 0 1) = None.
Proof.
  intros t t2. split; [vm_compute; reflexivity|]. split; [vm_compute; reflexivity|].
  apply (stale_ids_never_resolve t (OpRemove 1) (mkNodeId 0 1) 1).
  - apply (tree_steps_rep 1); [apply steps_step, steps_refl|vm_compute; reflexivity].
  - vm_compute. eauto.
  - vm_compute. reflexivity.
  - apply steps_step, steps_refl.
Defined.

Lemma shape_insert_windows ax nf a w s :
  a ∈ shape_windows s -> NoDup (shape_windows s) ->
  shape_windows (shape_insert ax nf a w s) ≡ₚ w :: shape_windows s.
Proof.
  induction s as [v|ax' ra l IHl r IHr]; cbn; intros Ha Hnd.
  - rewrite decide_True by set_solver. apply list_elem_of_singleton in Ha as ->.
    unfold split_leaf. destruct nf; cbn; [done|apply perm_swap].
  - apply list.NoDup_app in Hnd as (Nl & Nlr & Nr). apply elem_of_app in Ha as [Ha|Ha].
    + rewrite (shape_insert_notin _ _ _ _ r) by (by apply Nlr). by rewrite IHl.
    + rewrite (shape_insert_notin _ _ _ _ l) by (intros Hl; by apply (Nlr a)).
      rewrite IHr by done. by rewrite Permutation_middle.
Qed.

(** Removing what was inserted gives the tree back. *)
Lemma shape_remove_insert ax nf a w s :
  a ∈ shape_windows s -> NoDup (shape_windows s) -> w ∉ shape_windows s ->
  shape_remove w (shape_insert ax nf a w s) = Some s.
Proof.
  induction s as [v|ax' ra l IHl r IHr]; cbn; intros Ha Hnd Hw.
  - apply list_elem_of_singleton in Ha as ->. rewrite decide_True by done.
    assert (v <> w) by set_solver. unfold split_leaf.
    destruct nf; cbn; rewrite (decide_True (P := w = w)) by done; by rewrite decide_False.
  - apply list.NoDup_app in Hnd as (Nl & Nlr & Nr). apply elem_of_app in Ha as [Ha|Ha].
    + rewrite (shape_insert_notin _ _ _ _ r) by (by apply Nlr).
      rewrite IHl, shape_remove_notin by (done || set_solver). done.
    + rewrite (shape_insert_notin _ _ _ _ l) by (intros Hl; by apply (Nlr a)).
      rewrite IHr, shape_remove_notin by (done || set_solver). done.
Qed.

Lemma abs_NoDup t s : tree_ok t -> abs t = Some s -> NoDup (shape_windows s) /\ shape_windows s = abs_windows t.
Proof.
  intros [[b|] Ht] E; unfold abs_windows; rewrite E; rewrite (abs_rep _ _ Ht) in E; [|done].
  injection E as <-. split; [|done]. rewrite <- bwindows_erase.
  destruct (tree_rep_stores t b Ht) as (Hr & _). destruct Ht as (_ & Ht). rewrite Hr in Ht. apply Ht.
Qed.

(** Insertion and removal round trip: removing a window right after
    it was inserted succeeds and gives back the same abstract tree, the same
    window index and the same insertion order. *)
Theorem insert_remove_roundtrip t w hint t' leaf :
  tree_ok t -> Z.of_nat (length (slots (nodes t))) < u32_max ->
  insert w hint t = (t', Ret leaf) ->
  exists t'', remove w t' = (t'', Ret tt) /\ abs t'' = abs t /\
    by_window t'' = by_window t /\ insertion_order t'' = insertion_order t.
Proof.
  intros Ha Hlen E.
  assert (Hw : w ∉ abs_windows t).
  { intros Hw. apply (abs_contains t w Ha) in Hw. rewrite (insert_duplicate _ _ _ Hw) in E. done. }
  destruct (insert_abs t w hint Ha Hlen Hw) as (t1 & l1 & E1 & Ha1 & Es & Eix & Eord & _).
  rewrite E in E1. injection E1 as <- <-.
  assert (Hback : w ∈ abs_windows t' /\ (abs t' ≫= shape_remove w) = abs t).
  { unfold abs_windows. rewrite Es. cbn. destruct (abs t) as [s|] eqn:Ea; cbn.
    - destruct (abs_NoDup t s Ha Ea) as [Hn Hws]. rewrite <- Hws in Hw.
      rewrite shape_insert_windows by (apply chosen_anchor_in || done).
      rewrite shape_remove_insert by (apply chosen_anchor_in || done). split; [left|done].
    - rewrite decide_True by done. split; [left|done]. }
  destruct Hback as [Hin Hback].
  destruct (remove_abs t' w Ha1 Hin) as (t'' & E2 & _ & Es2 & Eo2 & Ei2 & _).
  exists t''. split; [done|]. rewrite Es2, Eo2, Ei2, Eix, Eord.
  pose proof (abs_contains t w Ha) as Hc. unfold contains_window in Hc. rewrite bool_decide_eq_true in Hc.
  split; [done|]. split.
  - apply delete_insert_id. apply eq_None_not_Some. naive_solver.
  - assert (Hno : w ∉ insertion_order t).
    { destruct Ha as [[b|] Ht]; rewrite (abs_windows_rep _ _ Ht) in Hw; cbn in Hw;
        destruct Ht as (_ & Ht); destruct (root t) as [r|]; try done.
      - destruct Ht as (_ & _ & _ & _ & _ & _ & -> & _). done.
      - destruct Ht as (_ & _ & ->). set_solver. }
    rewrite list.filter_app, filter_cons, decide_False, filter_nil, app_nil_r by tauto.
    clear -Hno. induction (insertion_order t) as [|x l IH]; [done|].
    rewrite filter_cons, decide_True by set_solver. f_equal. set_solver.
Qed.

Lemma insert_remove_roundtrip_witness :
  tree_ok demo_tree /\
  exists t', (insert 7 InsertHint_default demo_tree).1 = t' /\
  exists t'', remove 7 t' = (t'', Ret tt) /\ abs t'' = abs demo_tree.
Proof.
  assert (H : tree_ok demo_tree).
  { apply (tree_steps_rep 4); [repeat apply steps_step; apply steps_refl|vm_compute; reflexivity]. }
  split; [exact H|]. eexists. split; [reflexivity|].
  assert (E : insert 7 InsertHint_default demo_tree
              = ((insert 7 InsertHint_default demo_tree).1, Ret (mkNodeId 2 2))) by (vm_compute; reflexivity).
  destruct (insert_remove_roundtrip demo_tree 7 InsertHint_default _ _ H ltac:(vm_compute; reflexivity) E)
    as (t'' & Er & Ea & _).
  exists t''. split; [exact Er|exact Ea].
Defined.
