(* ===== verification/Solve.v ===== *)
(** * Solve: from a tiling tree to rectangles (src/wm/layout/solve.rs)

    The solver walks the tree twice: bottom-up for the lower bounds of each
    subtree, top-down to cut the root rectangle at pixel boundaries. When a
    window has an aspect bound, feasibility of a subtree is decided by
    binary searches over widths and heights, memoised per node. The types of
    plan.rs the solver shares with the layout manager are here too. *)

From Stdlib Require Import ZArith Lia SpecFloat.
From stdpp Require Import base gmap list decidable option tactics.
From S2P Require Import Prelude F64 CoreIds Workspace LayoutGeometry Lattice ExactAspect Constraints Dwindle.
Open Scope Z_scope.

(** ** Types of plan.rs *)

Record LayoutWindowSnapshot : Type := mkSnapshot {
  snap_window : Z;
  minimized : bool;
  constraints : LayoutConstraints
}.
Definition Snapshot_new (w : Z) : LayoutWindowSnapshot := mkSnapshot w false no_constraints.

Record TiledWindowTarget : Type := mkTarget {
  target_window : Z;
  tile : LayoutRect;
  client : LayoutRect
}.

Record TiledLayoutPlan : Type := mkPlan {
  plan_location : WorkspaceLocation;
  updates : list TiledWindowTarget
}.

Definition target_for_window (p : TiledLayoutPlan) (w : Z) : option TiledWindowTarget :=
  snd <$> list_find (fun t => target_window t = w) (updates p).

Record ConstraintInfeasibility : Type := mkInfeasibility {
  inf_node : option DwindleNodeId;
  inf_axis : option SplitAxis;
  required_width : Z;
  required_height : Z;
  available_width : Z;
  available_height : Z;
  inf_windows : list Z
}.

Inductive LayoutError : Type :=
| MissingTree (location : WorkspaceLocation)
| MissingSnapshot (window : Z)
| DuplicateSnapshot (window : Z)
| InvalidTree
| InvalidWindowConstraints (window : Z)
| ConstraintViolation (window : Z) (rect : LayoutRect) (c : LayoutConstraints)
| ConstraintInfeasible (i : ConstraintInfeasibility)
| InvalidSplit (axis : SplitAxis)
| TreeError (e : DwindleTreeError).

(** ** Types of solve.rs *)

Record SubtreeLowerBounds : Type := mkBounds { sub_min_width : Z; sub_min_height : Z }.

Record SplitRatioRange : Type := mkRange { range_min : SplitRatio; range_max : SplitRatio }.

(** [None] is an empty range; a panic is a failed [expect]. *)
Definition SplitRatioRange_new {E} (min max : f64) : res E (option SplitRatioRange) :=
  let min := f64_max min SplitRatio_MIN in
  let max := f64_min max SplitRatio_MAX in
  if f64_leb min max then
    a ← expect (SplitRatio_new min);
    b ← expect (SplitRatio_new max);
    Ret (Some (mkRange a b))
  else Ret None.

Definition range_clamp {E} (r : SplitRatioRange) (ratio : SplitRatio) : res E SplitRatio :=
  v ← f64_clamp (ratio_value (range_min r)) (ratio_value (range_max r)) (ratio_value ratio);
  expect (SplitRatio_new v).

Record RatioOverride : Type := mkOverride { override_split : DwindleNodeId; override_ratio : SplitRatio }.

Record ResolvedSplit : Type := mkResolved {
  split_node : DwindleNodeId;
  split_parent_rect : LayoutRect;
  preferred_ratio : SplitRatio;
  effective_ratio : SplitRatio;
  feasible_range : SplitRatioRange;
  split_boundary_at : Z
}.

Record TiledLayoutSolution : Type := mkSolution {
  sol_plan : TiledLayoutPlan;
  splits : list ResolvedSplit;
  requirements : gmap DwindleNodeId SubtreeLowerBounds;
  node_visits : Z
}.
Definition solution_empty (location : WorkspaceLocation) : TiledLayoutSolution :=
  mkSolution (mkPlan location []) [] ∅ 0.

Abbreviation Snapshots := (gmap Z LayoutWindowSnapshot).

(** [usize] is 64 bits wide. *)
Definition bump_visits (n : Z) : Z := sat_add u64_max n 1.

Fixpoint snapshot_map_from (l : list LayoutWindowSnapshot) (m : Snapshots) : res LayoutError Snapshots :=
  match l with
  | [] => Ret m
  | s :: l =>
      _ ← map_err (fun _ => InvalidWindowConstraints (snap_window s)) (validate (constraints s));
      if decide (is_Some (m !! snap_window s)) then Fail (DuplicateSnapshot (snap_window s))
      else snapshot_map_from l (<[snap_window s := s]> m)
  end.
Definition snapshot_map (l : list LayoutWindowSnapshot) : res LayoutError Snapshots := snapshot_map_from l ∅.

(** ** Lower bounds *)

Record BoundsState : Type := mkBoundsState {
  bs_requirements : gmap DwindleNodeId SubtreeLowerBounds;
  bs_visits : Z
}.

Definition combine_bounds (axis : SplitAxis) (first second : option SubtreeLowerBounds)
    : option SubtreeLowerBounds :=
  match first, second with
  | None, None => None
  | Some v, None | None, Some v => Some v
  | Some a, Some b => Some
      match axis with
      | Horizontal => mkBounds (sat_add u32_max (sub_min_width a) (sub_min_width b))
                               (Z.max (sub_min_height a) (sub_min_height b))
      | Vertical => mkBounds (Z.max (sub_min_width a) (sub_min_width b))
                             (sat_add u32_max (sub_min_height a) (sub_min_height b))
      end
  end.

Definition leaf_bounds (id : DwindleNodeId) (window : Z) (s : LayoutWindowSnapshot)
    : res LayoutError (option SubtreeLowerBounds) :=
  if minimized s then Ret None
  else
    '(w, h) ← map_err (fun _ => ConstraintInfeasible (mkInfeasibility (Some id) None
                (default 1 (min_width (constraints s))) (default 1 (min_height (constraints s))) 0 0 [window]))
              (independent_lower_bounds (constraints s));
    Ret (Some (mkBounds w h)).

(** The recursion is over the depth of the tree. *)
Fixpoint aggregate_lower_bounds (fuel : nat) (tree : DwindleTree) (snaps : Snapshots) (id : DwindleNodeId)
    : SM BoundsState LayoutError (option SubtreeLowerBounds) :=
  match fuel with
  | O => sm_lift NoFuel
  | S fuel =>
      _ ← sm_modify (fun s => mkBoundsState (bs_requirements s) (bump_visits (bs_visits s)));
      kind ← sm_lift (ok_or InvalidTree (node_kind tree id));
      result ← match kind with
               | Leaf window =>
                   snapshot ← sm_lift (ok_or (MissingSnapshot window) (snaps !! window));
                   sm_lift (leaf_bounds id window snapshot)
               | Split axis _ first second =>
                   a ← aggregate_lower_bounds fuel tree snaps first;
                   b ← aggregate_lower_bounds fuel tree snaps second;
                   mret (combine_bounds axis a b)
               end;
      _ ← match result with
          | Some v => sm_modify (fun s => mkBoundsState (<[id := v]> (bs_requirements s)) (bs_visits s))
          | None => mret tt
          end;
      mret result
  end.

(** ** Exact feasibility *)

Record FeasibilityContext : Type := mkContext {
  width_cache : gmap (DwindleNodeId * Z) (option Z);
  height_cache : gmap (DwindleNodeId * Z) (option Z);
  fc_visits : Z
}.
Definition FeasibilityContext_new : FeasibilityContext := mkContext ∅ ∅ 0.

Abbreviation Feas A := (SM FeasibilityContext LayoutError A).

Definition rect_with_size (width height : Z) : LayoutRect :=
  mkLayoutRect 0 0 (Z.max width 1) (Z.max height 1).

(** The [while low < high] loop of the two searches. The interval of [u32]
    values is halved at every step. *)
Definition bisect_fuel : nat := 64.
Fixpoint bisect (fuel : nat) (probe : Z -> Feas bool) (low high : Z) : Feas Z :=
  match fuel with
  | O => sm_lift NoFuel
  | S fuel =>
      if low <? high then
        let middle := low + (high - low) / 2 in
        fits ← probe middle;
        if (fits : bool) then bisect fuel probe low middle
        else bisect fuel probe (sat_add u32_max middle 1) high
      else mret low
  end.

Definition filter_cap (cap : Z) (o : option Z) : option Z :=
  v ← o; if v <=? cap then Some v else None.

Section Feasibility.
Context (can_fit : DwindleNodeId -> LayoutRect -> Feas bool).

Definition minimum_width_for_height_with (id : DwindleNodeId) (height cap : Z) : Feas (option Z) :=
  ctx ← sm_get;
  match width_cache ctx !! (id, height) with
  | Some value => mret (filter_cap cap value)
  | None =>
      low ← bisect bisect_fuel (fun middle => can_fit id (rect_with_size middle height)) 1 (Z.max cap 1);
      fits ← can_fit id (rect_with_size low height);
      if (fits : bool) then
        _ ← sm_modify (fun c => mkContext (<[(id, height) := Some low]> (width_cache c)) (height_cache c) (fc_visits c));
        mret (Some low)
      else mret None
  end.

Definition minimum_height_for_width_with (id : DwindleNodeId) (width cap : Z) : Feas (option Z) :=
  ctx ← sm_get;
  match height_cache ctx !! (id, width) with
  | Some value => mret (filter_cap cap value)
  | None =>
      low ← bisect bisect_fuel (fun middle => can_fit id (rect_with_size width middle)) 1 (Z.max cap 1);
      fits ← can_fit id (rect_with_size width low);
      if (fits : bool) then
        _ ← sm_modify (fun c => mkContext (width_cache c) (<[(id, width) := Some low]> (height_cache c)) (fc_visits c));
        mret (Some low)
      else mret None
  end.

(** The safety limits of a boundary, and the range left by the two minimum
    extents. *)
Definition boundary_range (axis : SplitAxis) (rect : LayoutRect) (first second : Z) : option (Z * Z) :=
  let origin := axis_origin axis rect in
  let minimum := sat_add_i32 origin (i32_or_max first) in
  let maximum := sat_sub_i32 (axis_end axis rect) (i32_or_max second) in
  let safety_min := Z.max (split_boundary rect axis (mkSplitRatio SplitRatio_MIN)) (sat_add_i32 origin 1) in
  let safety_max := Z.min (split_boundary rect axis (mkSplitRatio SplitRatio_MAX))
                      (sat_add_i32 origin (sat_sub_i32 (i32_or_max (axis_extent axis rect)) 1)) in
  let minimum := Z.max minimum safety_min in
  let maximum := Z.min maximum safety_max in
  if minimum <=? maximum then Some (minimum, maximum) else None.

Definition feasible_boundary_range_with (axis : SplitAxis) (first second : DwindleNodeId) (rect : LayoutRect)
    : Feas (option (Z * Z)) :=
  a ← match axis with
      | Horizontal => minimum_width_for_height_with first (rheight rect) (rwidth rect)
      | Vertical => minimum_height_for_width_with first (rwidth rect) (rheight rect)
      end;
  b ← match axis with
      | Horizontal => minimum_width_for_height_with second (rheight rect) (rwidth rect)
      | Vertical => minimum_height_for_width_with second (rwidth rect) (rheight rect)
      end;
  mret match a, b with
       | Some a, Some b => boundary_range axis rect a b
       | _, _ => None
       end.
End Feasibility.

(** [resolve_client_rect_within_tile(..).is_ok()], where a panic of the
    resolver is a panic of the query. *)
Definition fits_client (rect : LayoutRect) (c : LayoutConstraints) : res LayoutError bool :=
  match resolve_client_rect_within_tile rect c with
  | Ret _ => Ret true
  | Fail _ => Ret false
  | Panic => Panic
  | NoFuel => NoFuel
  end.
Definition fits_lower_bounds (rect : LayoutRect) (c : LayoutConstraints) : bool :=
  match independent_lower_bounds c with
  | Ret (w, h) => (w <=? rwidth rect) && (h <=? rheight rect)
  | _ => false
  end.

Fixpoint can_fit (fuel : nat) (tree : DwindleTree) (snaps : Snapshots) (exact : bool)
    (id : DwindleNodeId) (rect : LayoutRect) : Feas bool :=
  match fuel with
  | O => sm_lift NoFuel
  | S fuel =>
      _ ← sm_modify (fun c => mkContext (width_cache c) (height_cache c) (bump_visits (fc_visits c)));
      kind ← sm_lift (ok_or InvalidTree (node_kind tree id));
      match kind with
      | Leaf window =>
          snapshot ← sm_lift (ok_or (MissingSnapshot window) (snaps !! window));
          if minimized snapshot then mret true
          else if negb exact then mret (fits_lower_bounds rect (constraints snapshot))
          else sm_lift (fits_client rect (constraints snapshot))
      | Split axis _ first second =>
          if negb exact then mret true
          else
            r ← feasible_boundary_range_with (can_fit fuel tree snaps exact) axis first second rect;
            mret (bool_decide (is_Some r))
      end
  end.

Definition tree_fuel (tree : DwindleTree) : nat := S (length (slots (nodes tree))).

(** The methods of [FeasibilityContext] on a whole tree. *)
Section Methods.
Context (tree : DwindleTree) (snaps : Snapshots) (exact : bool).
Definition minimum_width_for_height (id : DwindleNodeId) (height cap : Z) : Feas (option Z) :=
  minimum_width_for_height_with (can_fit (tree_fuel tree) tree snaps exact) id height cap.
Definition minimum_height_for_width (id : DwindleNodeId) (width cap : Z) : Feas (option Z) :=
  minimum_height_for_width_with (can_fit (tree_fuel tree) tree snaps exact) id width cap.
Definition feasible_boundary_range (axis : SplitAxis) (first second : DwindleNodeId) (rect : LayoutRect)
    : Feas (option (Z * Z)) :=
  feasible_boundary_range_with (can_fit (tree_fuel tree) tree snaps exact) axis first second rect.

Fixpoint collect_active_windows (fuel : nat) (id : DwindleNodeId) : res LayoutError (list Z) :=
  match fuel with
  | O => NoFuel
  | S fuel =>
      kind ← ok_or InvalidTree (node_kind tree id);
      match kind with
      | Leaf window =>
          s ← ok_or (MissingSnapshot window) (snaps !! window);
          Ret (if minimized s then [] else [window])
      | Split _ _ first second =>
          a ← collect_active_windows fuel first;
          b ← collect_active_windows fuel second;
          Ret (a ++ b)
      end
  end.
Definition active_windows (id : DwindleNodeId) : res LayoutError (list Z) :=
  collect_active_windows (tree_fuel tree) id.

(** [m.unwrap_or_default()] *)
Definition unwrap_or_default {A} (m : res LayoutError (list A)) : res LayoutError (list A) :=
  match m with Fail _ => Ret [] | m => m end.

(** [m.ok().flatten().unwrap_or(d)] *)
Definition sm_ok_or {S A} (d : A) (m : SM S LayoutError (option A)) : SM S LayoutError A := fun s =>
  match m s with
  | (s, Ret (Some a)) => (s, Ret a)
  | (s, Ret None) | (s, Fail _) => (s, Ret d)
  | (s, Panic) => (s, Panic)
  | (s, NoFuel) => (s, NoFuel)
  end.

Definition infeasible (root : DwindleNodeId) (rect : LayoutRect) : Feas LayoutError :=
  width ← sm_ok_or (sat_add u32_max (rwidth rect) 1)
            (minimum_width_for_height root (rheight rect) (rwidth rect));
  height ← sm_ok_or (sat_add u32_max (rheight rect) 1)
            (minimum_height_for_width root (rwidth rect) (rheight rect));
  windows ← sm_lift (unwrap_or_default (active_windows root));
  mret (ConstraintInfeasible (mkInfeasibility (Some root)
    (match node_kind tree root with Some (Split axis _ _ _) => Some axis | _ => None end)
    width height (rwidth rect) (rheight rect) windows)).

Definition infeasible_split (node : DwindleNodeId) (axis : SplitAxis) (rect : LayoutRect)
    : res LayoutError LayoutError :=
  windows ← unwrap_or_default (active_windows node);
  Ret (ConstraintInfeasible (mkInfeasibility (Some node) (Some axis) 0 0 (rwidth rect) (rheight rect) windows)).
End Methods.

(** ** Resolving the rectangles *)

Record SolveState : Type := mkSolve {
  ss_feasibility : FeasibilityContext;
  ss_updates : list TiledWindowTarget;
  ss_splits : list ResolvedSplit;
  ss_visits : Z
}.
Abbreviation SolveM A := (SM SolveState LayoutError A).

Definition with_feasibility {A} (m : Feas A) : SolveM A := fun s =>
  let '(f, r) := m (ss_feasibility s) in
  (mkSolve f (ss_updates s) (ss_splits s) (ss_visits s), r).
Definition push_update (u : TiledWindowTarget) : SolveM unit :=
  sm_modify (fun s => mkSolve (ss_feasibility s) (ss_updates s ++ [u]) (ss_splits s) (ss_visits s)).
Definition push_split (r : ResolvedSplit) : SolveM unit :=
  sm_modify (fun s => mkSolve (ss_feasibility s) (ss_updates s) (ss_splits s ++ [r]) (ss_visits s)).

(** [i32::clamp] panics when its bounds are reversed. *)
Definition i32_clamp {E} (lo hi z : Z) : res E Z := if lo <=? hi then Ret (clampZ lo hi z) else Panic.

Definition client_error (id : DwindleNodeId) (window : Z) (rect : LayoutRect)
    (reqs : gmap DwindleNodeId SubtreeLowerBounds) (e : ClientRectError) : LayoutError :=
  match e with
  | InvalidConstraints _ => InvalidWindowConstraints window
  | Infeasible => ConstraintInfeasible (mkInfeasibility (Some id) None
      (match reqs !! id with Some r => sub_min_width r | None => 0 end)
      (match reqs !! id with Some r => sub_min_height r | None => 0 end)
      (rwidth rect) (rheight rect) [window])
  end.

(** The boundaries the children's lower bounds allow, without a search. *)
Definition bounds_boundaries (axis : SplitAxis) (rect : LayoutRect) (a b : SubtreeLowerBounds) : Z * Z :=
  let need r := match axis with Horizontal => sub_min_width r | Vertical => sub_min_height r end in
  (sat_add_i32 (axis_origin axis rect) (i32_or_max (need a)),
   sat_sub_i32 (axis_end axis rect) (i32_or_max (need b))).

Definition boundary_ratio (boundary : Z) (axis : SplitAxis) (rect : LayoutRect) : f64 :=
  f64_div (f64_of_Z (sat_sub_i32 boundary (axis_origin axis rect))) (f64_of_Z (axis_extent axis rect)).

Section Resolve.
Context (tree : DwindleTree) (snaps : Snapshots) (exact : bool)
        (reqs : gmap DwindleNodeId SubtreeLowerBounds) (overrides : gmap DwindleNodeId SplitRatio).

(** The minimum and maximum boundary of a split whose children are both
    active. *)
Definition split_boundaries (id : DwindleNodeId) (axis : SplitAxis) (first second : DwindleNodeId)
    (a b : SubtreeLowerBounds) (rect : LayoutRect) : SolveM (Z * Z) :=
  if exact then
    o ← with_feasibility (feasible_boundary_range tree snaps exact axis first second rect);
    match o with
    | Some bounds => mret bounds
    | None =>
        e ← with_feasibility (infeasible tree snaps exact id rect);
        sm_lift (Fail e)
    end
  else mret (bounds_boundaries axis rect a b).

(** The feasible ratios between two boundaries, the ratio clamped into them
    and the pixel boundary it selects. *)
Definition choose_boundary (id : DwindleNodeId) (axis : SplitAxis) (ratio : SplitRatio) (rect : LayoutRect)
    (minimum maximum : Z) : res LayoutError (SplitRatioRange * SplitRatio * SplitRatio * Z) :=
  o ← SplitRatioRange_new (boundary_ratio minimum axis rect) (boundary_ratio maximum axis rect);
  range ← match o with
          | Some r => Ret r
          | None => e ← infeasible_split tree snaps id axis rect; Fail e
          end;
  let preferred := default ratio (overrides !! id) in
  effective ← range_clamp range preferred;
  boundary ← i32_clamp minimum maximum (split_boundary rect axis effective);
  Ret (range, preferred, effective, boundary).

Fixpoint resolve_node (fuel : nat) (id : DwindleNodeId) (rect : LayoutRect) : SolveM bool :=
  match fuel with
  | O => sm_lift NoFuel
  | S fuel =>
      _ ← sm_modify (fun s => mkSolve (ss_feasibility s) (ss_updates s) (ss_splits s) (bump_visits (ss_visits s)));
      kind ← sm_lift (ok_or InvalidTree (node_kind tree id));
      match kind with
      | Leaf window =>
          snapshot ← sm_lift (ok_or (MissingSnapshot window) (snaps !! window));
          if minimized snapshot then mret false
          else
            client ← sm_lift (map_err (client_error id window rect reqs)
                       (resolve_client_rect_within_tile rect (constraints snapshot)));
            _ ← push_update (mkTarget window rect client);
            mret true
      | Split axis ratio first second =>
          match reqs !! first, reqs !! second with
          | None, None => mret false
          | Some _, None => resolve_node fuel first rect
          | None, Some _ => resolve_node fuel second rect
          | Some a, Some b =>
              '(minimum, maximum) ← split_boundaries id axis first second a b rect;
              '(range, preferred, effective, boundary) ←
                sm_lift (choose_boundary id axis ratio rect minimum maximum);
              first_rect ← sm_lift (ok_or (InvalidSplit axis) (first_child rect axis boundary));
              second_rect ← sm_lift (ok_or (InvalidSplit axis) (second_child rect axis boundary));
              _ ← push_split (mkResolved id rect preferred effective range boundary);
              _ ← resolve_node fuel first first_rect;
              _ ← resolve_node fuel second second_rect;
              mret true
          end
      end
  end.
End Resolve.

(** Whether some visible window has an aspect bound. *)
Definition needs_exact (snaps : Snapshots) : bool :=
  existsb (fun p => negb (minimized p.2) &&
    (bool_decide (is_Some (min_aspect (constraints p.2))) || bool_decide (is_Some (max_aspect (constraints p.2)))))
    (map_to_list snaps).

(** Collecting the overrides: a later entry for the same split wins. *)
Definition override_map (l : list RatioOverride) : gmap DwindleNodeId SplitRatio :=
  fold_left (fun m o => <[override_split o := override_ratio o]> m) l ∅.

Definition solve_tree_with_ratio_overrides (tree : DwindleTree) (location : WorkspaceLocation)
    (area : LayoutRect) (snapshots : list LayoutWindowSnapshot) (overrides : list RatioOverride)
    : res LayoutError TiledLayoutSolution :=
  snaps ← snapshot_map snapshots;
  match root tree with
  | None => Ret (solution_empty location)
  | Some root_id =>
      let '(bs, r) := aggregate_lower_bounds (tree_fuel tree) tree snaps root_id (mkBoundsState ∅ 0) in
      bounds ← r;
      match bounds with
      | None => Ret (mkSolution (mkPlan location []) [] (bs_requirements bs) (bs_visits bs))
      | Some _ =>
          let exact := needs_exact snaps in
          let '(ctx, fits) :=
            if exact then can_fit (tree_fuel tree) tree snaps exact root_id area FeasibilityContext_new
            else (FeasibilityContext_new, Ret true) in
          fits ← fits;
          if (fits : bool) then
            let '(s, r) := resolve_node tree snaps exact (bs_requirements bs) (override_map overrides)
                             (tree_fuel tree) root_id area (mkSolve ctx [] [] (bs_visits bs)) in
            _ ← r;
            Ret (mkSolution (mkPlan location (ss_updates s)) (ss_splits s) (bs_requirements bs)
                   (sat_add u64_max (ss_visits s) (fc_visits (ss_feasibility s))))
          else
            e ← (infeasible tree snaps exact root_id area ctx).2;
            Fail e
      end
  end.

Definition solve_tree (tree : DwindleTree) (location : WorkspaceLocation) (area : LayoutRect)
    (snapshots : list LayoutWindowSnapshot) : res LayoutError TiledLayoutSolution :=
  solve_tree_with_ratio_overrides tree location area snapshots [].

(** The public queries. *)
Definition subtree_fits (tree : DwindleTree) (node : DwindleNodeId) (rect : LayoutRect)
    (snapshots : list LayoutWindowSnapshot) : res LayoutError bool :=
  snaps ← snapshot_map snapshots;
  (can_fit (tree_fuel tree) tree snaps true node rect FeasibilityContext_new).2.
Definition query_minimum_width (tree : DwindleTree) (node : DwindleNodeId) (height width_cap : Z)
    (snapshots : list LayoutWindowSnapshot) : res LayoutError (option Z) :=
  snaps ← snapshot_map snapshots;
  (minimum_width_for_height tree snaps true node height width_cap FeasibilityContext_new).2.
Definition query_minimum_height (tree : DwindleTree) (node : DwindleNodeId) (width height_cap : Z)
    (snapshots : list LayoutWindowSnapshot) : res LayoutError (option Z) :=
  snaps ← snapshot_map snapshots;
  (minimum_height_for_width tree snaps true node width height_cap FeasibilityContext_new).2.

(** ** Active windows *)

Definition is_active (snaps : Snapshots) (w : Z) : bool :=
  match snaps !! w with Some s => negb (minimized s) | None => false end.
Definition bactive (snaps : Snapshots) (b : btree) : list Z := filter (fun w => is_active snaps w = true) (bwindows b).

Lemma bactive_split snaps i ax ra l r :
  bactive snaps (BSplit i ax ra l r) = bactive snaps l ++ bactive snaps r.
Proof. unfold bactive, bwindows. cbn. by rewrite fmap_app, list.filter_app. Qed.

Lemma bactive_leaf snaps i w :
  bactive snaps (BLeaf i w) = if is_active snaps w then [w] else [].
Proof.
  unfold bactive, bwindows. cbn [bleaves fmap list_fmap fst]. rewrite filter_cons.
  destruct (is_active snaps w); cbn; done.
Qed.

(** The recorded lower bounds tell which subtrees have a visible window. *)
Fixpoint reqs_ok (snaps : Snapshots) (reqs : gmap DwindleNodeId SubtreeLowerBounds) (b : btree) : Prop :=
  (is_Some (reqs !! broot b) <-> bactive snaps b <> []) /\
  match b with
  | BLeaf _ _ => True
  | BSplit _ _ _ l r => reqs_ok snaps reqs l /\ reqs_ok snaps reqs r
  end.

Lemma reqs_ok_root snaps reqs b : reqs_ok snaps reqs b -> is_Some (reqs !! broot b) <-> bactive snaps b <> [].
Proof. destruct b; cbn; tauto. Qed.

Lemma reqs_ok_frame snaps reqs reqs' b :
  reqs_ok snaps reqs b -> (forall id, id ∈ bids b -> reqs' !! id = reqs !! id) -> reqs_ok snaps reqs' b.
Proof.
  induction b as [i w|i ax ra l IHl r IHr]; cbn [reqs_ok bids broot]; intros H Heq.
  - rewrite Heq; set_solver.
  - destruct H as (H & Hl & Hr). split; [rewrite Heq; set_solver|]. split; [apply IHl|apply IHr]; set_solver.
Qed.

Lemma node_kind_rep t p b :
  rep (arena_get (nodes t)) p b ->
  node_kind t (broot b) = Some (match b with
                                | BLeaf _ w => Leaf w
                                | BSplit _ ax ra l r => Split ax ra (broot l) (broot r)
                                end).
Proof. unfold node_kind. destruct b; cbn; intros H; [by rewrite H|by destruct H as [-> _]]. Qed.

Lemma lift_Ret {S E A} (m : res E A) (s s' : S) a : sm_lift m s = (s', Ret a) <-> s' = s /\ m = Ret a.
Proof. unfold sm_lift. naive_solver. Qed.
Lemma modify_Ret {S E} (f : S -> S) (s s' : S) u : sm_modify (E := E) f s = (s', Ret u) <-> s' = f s.
Proof. unfold sm_modify. destruct u. naive_solver. Qed.
Lemma mret_Ret {S E A} (a b : A) (s s' : S) : (mret a : SM S E A) s = (s', Ret b) <-> s' = s /\ b = a.
Proof. unfold mret, SM_ret. naive_solver. Qed.

Lemma app_nonempty {A} (x y : list A) : x ++ y <> [] <-> x <> [] \/ y <> [].
Proof. destruct x; cbn; [split; [by right|intros [?|?]; done]|split; [by left|done]]. Qed.

Lemma combine_bounds_some ax oa ob : is_Some (combine_bounds ax oa ob) <-> is_Some oa \/ is_Some ob.
Proof. destruct oa, ob; cbn; split; intros H; eauto; by destruct H as [[]|[]]. Qed.

Lemma leaf_bounds_some id w snap o : leaf_bounds id w snap = Ret o -> is_Some o <-> minimized snap = false.
Proof.
  unfold leaf_bounds. destruct (minimized snap); intros H.
  - injection H as <-. split; [by intros []|done].
  - apply bind_Ret in H as ([? ?] & _ & H). injection H as <-. split; eauto.
Qed.

Lemma aggregate_spec fuel tree snaps p b s s' o :
  rep (arena_get (nodes tree)) p b -> NoDup (bids b) ->
  (forall id, id ∈ bids b -> bs_requirements s !! id = None) ->
  aggregate_lower_bounds fuel tree snaps (broot b) s = (s', Ret o) ->
  reqs_ok snaps (bs_requirements s') b /\ (is_Some o <-> bactive snaps b <> []) /\
  forall id, id ∉ bids b -> bs_requirements s' !! id = bs_requirements s !! id.
Proof.
  revert fuel p s s' o. induction b as [i w|i ax ra l IHl r IHr]; intros [|fuel] p s s' o Hrep Hnd Hnone H;
    try done; cbn [aggregate_lower_bounds] in H; rewrite (node_kind_rep _ _ _ Hrep) in H;
    apply SM_bind_Ret in H as (s1 & [] & H1 & H); apply modify_Ret in H1; cbn [ok_or] in H;
    rewrite SM_ret_step in H; cbn [broot] in *.
  - apply SM_bind_Ret in H as (s2 & o' & H2 & H). apply SM_bind_Ret in H2 as (s3 & snap & H3 & H2).
    apply lift_Ret in H3 as [-> H3]. apply ok_or_Ret in H3. apply lift_Ret in H2 as [-> H2].
    apply SM_bind_Ret in H as (s4 & [] & H4 & H). apply mret_Ret in H as [-> ->].
    rewrite bactive_leaf. unfold is_active. rewrite H3.
    pose proof (leaf_bounds_some _ _ _ _ H2) as Ho.
    cbn [reqs_ok broot bids] in *. rewrite bactive_leaf. unfold is_active. rewrite H3.
    subst s1. destruct o' as [v|].
    + apply modify_Ret in H4 as ->. cbn. rewrite lookup_insert_eq, (proj1 Ho) by eauto. cbn.
      split; [split; [split; [done|eauto]|done]|]. split; [split; [done|eauto]|].
      intros id Hid. rewrite lookup_insert_ne; set_solver.
    + apply mret_Ret in H4 as [-> _]. cbn. rewrite Hnone by (by left).
      destruct (minimized snap); cbn; [|by destruct (proj2 Ho eq_refl)].
      split; [split; [|done]|split; [|done]]; (split; [by intros []|done]).
  - destruct Hrep as (_ & Hl & Hr). cbn [bids] in Hnd, Hnone. apply list.NoDup_cons in Hnd as [Ni Hnd].
    apply list.NoDup_app in Hnd as (Nl & Nlr & Nr).
    apply SM_bind_Ret in H as (s2 & o' & H2 & H). apply SM_bind_Ret in H as (s5 & [] & H5 & H).
    apply mret_Ret in H as [-> ->].
    apply SM_bind_Ret in H2 as (s3 & oa & Ha & H2). apply SM_bind_Ret in H2 as (s4 & ob & Hb & H2).
    apply mret_Ret in H2 as [-> ->]. subst s1.
    apply (IHl _ _ _ _ _ Hl Nl) in Ha as (Rl & Ol & Fl); [|cbn; set_solver].
    apply (IHr _ _ _ _ _ Hr Nr) in Hb as (Rr & Or & Fr).
    2:{ intros id Hid. rewrite Fl; [cbn; set_solver|]. intros Hin. by apply (Nlr id). }
    assert (Hcomb : is_Some (combine_bounds ax oa ob) <-> bactive snaps (BSplit i ax ra l r) <> []).
    { rewrite bactive_split, app_nonempty, <- Ol, <- Or. apply combine_bounds_some. }
    assert (Hreq : forall id, bs_requirements s5 !! id =
              if decide (id = i) then combine_bounds ax oa ob else bs_requirements s4 !! id).
    { intros id. destruct (combine_bounds ax oa ob) as [v|].
      - apply modify_Ret in H5 as ->. cbn. destruct (decide (id = i)) as [->|]; [apply lookup_insert_eq|].
        by rewrite lookup_insert_ne.
      - apply mret_Ret in H5 as [-> _]. destruct (decide (id = i)) as [->|]; [|done].
        rewrite Fr, Fl; [cbn; apply Hnone; by left|set_solver|set_solver]. }
    cbn [reqs_ok broot]. rewrite Hreq, decide_True by done. split; [split; [done|]|].
    + split; (eapply reqs_ok_frame; [eassumption|]); intros id Hid; rewrite Hreq, decide_False by (intros ->; set_solver).
      * by rewrite Fr; [|intros Hin; apply (Nlr id)].
      * done.
    + split; [done|]. intros id Hid. cbn [bids] in Hid. rewrite Hreq, decide_False by set_solver.
      rewrite Fr, Fl by set_solver. done.
Qed.

(** ** Tilings *)

#[export] Instance in_rect_dec r x y : Decision (in_rect r x y) := ltac:(unfold in_rect; apply _).

(** How many of the rectangles contain a pixel. *)
Definition hits (rects : list LayoutRect) (x y : Z) : nat := length (filter (fun r => in_rect r x y) rects).

(** [partition area rects]: every pixel of [area] is in exactly one of the
    rectangles and no other pixel is in any. *)
Definition partition (area : LayoutRect) (rects : list LayoutRect) : Prop :=
  forall x y, hits rects x y = if decide (in_rect area x y) then 1%nat else 0%nat.

Lemma hits_app a b x y : hits (a ++ b) x y = (hits a x y + hits b x y)%nat.
Proof. unfold hits. by rewrite list.filter_app, length_app. Qed.

Lemma partition_single r : partition r [r].
Proof.
  intros x y. unfold hits. rewrite filter_cons. destruct (decide (in_rect r x y)); done.
Qed.

(** A split of a tiled rectangle. *)
Lemma partition_split rect axis boundary f s a b :
  rect_fits rect -> first_child rect axis boundary = Some f -> second_child rect axis boundary = Some s ->
  partition f a -> partition s b -> partition rect (a ++ b).
Proof.
  intros Hr Hf Hs Ha Hb x y. rewrite hits_app, Ha, Hb.
  destruct (children_spec rect axis boundary f s Hr Hf Hs) as [Hbd Hc].
  unfold in_rect. destruct axis; destruct Hc as [-> ->]; cbn [axis_origin axis_extent rx ry rwidth rheight] in *;
    repeat case_decide; lia.
Qed.

(** What each entry of the plan promises. *)
Definition target_ok (snaps : Snapshots) (area : LayoutRect) (u : TiledWindowTarget) : Prop :=
  rect_fits (tile u) /\ rect_within (tile u) area /\
  exists snap, snaps !! target_window u = Some snap /\ minimized snap = false /\
    resolve_client_rect_within_tile (tile u) (constraints snap) = Ret (client u).

Lemma target_ok_within snaps area area' u :
  rect_within area area' -> target_ok snaps area u -> target_ok snaps area' u.
Proof. intros Hw (H1 & H2 & H3). split; [done|]. split; [by eapply rect_within_trans|done]. Qed.

(** [adds snaps b rect old new]: what resolving [b] inside [rect] appends to
    the updates. *)
Definition adds (snaps : Snapshots) (ws : list Z) (rect : LayoutRect) (old new : list TiledWindowTarget) : Prop :=
  exists us, new = old ++ us /\ target_window <$> us = ws /\
    (ws <> [] -> partition rect (tile <$> us)) /\ Forall (target_ok snaps rect) us.

Lemma adds_nil snaps rect old : adds snaps [] rect old old.
Proof. exists []. rewrite app_nil_r. done. Qed.

Section ResolveSpec.
Context (tree : DwindleTree) (snaps : Snapshots) (exact : bool)
        (reqs : gmap DwindleNodeId SubtreeLowerBounds) (overrides : gmap DwindleNodeId SplitRatio).

Lemma with_feasibility_updates {A} (m : Feas A) s s' r :
  with_feasibility m s = (s', r) -> ss_updates s' = ss_updates s.
Proof. unfold with_feasibility. destruct (m (ss_feasibility s)). intros [= <- _]. done. Qed.

Lemma split_boundaries_updates id axis first second a b rect s s' r :
  split_boundaries tree snaps exact id axis first second a b rect s = (s', Ret r) ->
  ss_updates s' = ss_updates s.
Proof.
  unfold split_boundaries. destruct exact; intros H.
  - apply SM_bind_Ret in H as (s1 & o & H1 & H). apply with_feasibility_updates in H1.
    destruct o as [bounds|]; [apply mret_Ret in H as [-> _]; done|].
    apply SM_bind_Ret in H as (s2 & e & _ & H). by apply lift_Ret in H as [_ ?].
  - by apply mret_Ret in H as [-> _].
Qed.

(** The split case, reduced to the calls on the children. *)
Lemma resolve_split_inv fuel id axis ratio first second a b rect s s' r :
  node_kind tree id = Some (Split axis ratio first second) ->
  reqs !! first = Some a -> reqs !! second = Some b ->
  resolve_node tree snaps exact reqs overrides (S fuel) id rect s = (s', Ret r) ->
  exists boundary f g s1 s2 r1 r2, ss_updates s1 = ss_updates s /\
    first_child rect axis boundary = Some f /\ second_child rect axis boundary = Some g /\
    resolve_node tree snaps exact reqs overrides fuel first f s1 = (s2, Ret r1) /\
    resolve_node tree snaps exact reqs overrides fuel second g s2 = (s', Ret r2).
Proof.
  intros Hk Ha Hb H. cbn [resolve_node] in H. rewrite Hk, SM_modify_step in H. cbn [ok_or] in H.
  rewrite SM_ret_step, Ha, Hb in H. set (s0 := mkSolve _ _ _ _) in H.
  apply SM_bind_Ret in H as (s1 & [lo hi] & H1 & H). apply split_boundaries_updates in H1.
  apply SM_bind_Ret in H as (s2 & [[[rg pref] eff] boundary] & H2 & H). apply lift_Ret in H2 as [-> _].
  apply SM_bind_Ret in H as (s2 & f & H3 & H). apply lift_Ret in H3 as [-> Hf]. apply ok_or_Ret in Hf.
  apply SM_bind_Ret in H as (s2 & g & H3 & H). apply lift_Ret in H3 as [-> Hg]. apply ok_or_Ret in Hg.
  apply SM_bind_Ret in H as (s2 & [] & H3 & H). apply modify_Ret in H3.
  apply SM_bind_Ret in H as (s3 & r1 & Hr1 & H). apply SM_bind_Ret in H as (s4 & r2 & Hr2 & H).
  apply mret_Ret in H as [-> _]. exists boundary, f, g, s2, s3, r1, r2.
  split; [by rewrite H3; cbn; rewrite H1|]. done.
Qed.

Lemma resolve_node_adds fuel p b rect s s' r :
  rep (arena_get (nodes tree)) p b -> reqs_ok snaps reqs b -> rect_fits rect ->
  resolve_node tree snaps exact reqs overrides fuel (broot b) rect s = (s', Ret r) ->
  adds snaps (bactive snaps b) rect (ss_updates s) (ss_updates s').
Proof.
  revert fuel p rect s s' r. induction b as [i w|i ax ra l IHl r' IHr]; intros [|fuel] p rect s s' r Hrep Hreq Hfit H;
    try done; pose proof (node_kind_rep _ _ _ Hrep) as Hk; cbn [broot] in *.
  - cbn [resolve_node] in H. rewrite Hk, SM_modify_step in H. cbn [ok_or] in H. rewrite SM_ret_step in H.
    apply SM_bind_Ret in H as (s1 & snap & H1 & H). apply lift_Ret in H1 as [-> Hs]. apply ok_or_Ret in Hs.
    rewrite bactive_leaf. unfold is_active. rewrite Hs. destruct (minimized snap) eqn:Em.
    { apply mret_Ret in H as [-> _]. apply adds_nil. }
    apply SM_bind_Ret in H as (s1 & cl & H1 & H). apply lift_Ret in H1 as [-> Hc].
    apply SM_bind_Ret in H as (s1 & [] & H1 & H). apply modify_Ret in H1 as ->.
    apply mret_Ret in H as [-> _]. exists [mkTarget w rect cl]. cbn [ss_updates].
    split; [done|]. split; [done|]. split; [intros _; apply partition_single|]. constructor; [|constructor].
    split; [done|]. split; [apply rect_within_refl|]. exists snap. split; [done|]. split; [done|].
    cbn. unfold map_err in Hc. by destruct (resolve_client_rect_within_tile rect (constraints snap)); simplify_eq.
  - destruct Hrep as (_ & Hl & Hr). cbn [reqs_ok broot] in Hreq. destruct Hreq as (_ & Ql & Qr).
    rewrite bactive_split. pose proof (reqs_ok_root _ _ _ Ql) as Al. pose proof (reqs_ok_root _ _ _ Qr) as Ar.
    destruct (reqs !! broot l) as [ba|] eqn:El, (reqs !! broot r') as [bb|] eqn:Er.
    + destruct (resolve_split_inv _ _ _ _ _ _ _ _ _ _ _ _ Hk El Er H)
        as (bd & f & g & s1 & s2 & r1 & r2 & Eu & Hf & Hg & H1 & H2).
      destruct (children_fit rect ax bd f g Hfit Hf Hg) as (Ff & Fg & Wf & Wg).
      apply (IHl _ _ _ _ _ _ Hl Ql Ff) in H1 as (u1 & E1 & N1 & P1 & T1).
      apply (IHr _ _ _ _ _ _ Hr Qr Fg) in H2 as (u2 & E2 & N2 & P2 & T2).
      exists (u1 ++ u2). split; [rewrite E2, E1, Eu; by rewrite app_assoc|].
      rewrite fmap_app, N1, N2. split; [done|]. split.
      * intros _. rewrite fmap_app. eapply partition_split; [done|done|done|apply P1, Al; eauto|apply P2, Ar; eauto].
      * apply Forall_app. split; eapply Forall_impl; try eassumption; intros u; by apply target_ok_within.
    + cbn [resolve_node] in H. rewrite Hk, SM_modify_step in H. cbn [ok_or] in H.
      rewrite SM_ret_step, El, Er in H. apply (IHl _ _ _ _ _ _ Hl Ql Hfit) in H.
      assert (bactive snaps r' = []) as -> by (destruct (bactive snaps r'); [done|by destruct (proj2 Ar)]).
      by rewrite app_nil_r.
    + cbn [resolve_node] in H. rewrite Hk, SM_modify_step in H. cbn [ok_or] in H.
      rewrite SM_ret_step, El, Er in H. apply (IHr _ _ _ _ _ _ Hr Qr Hfit) in H.
      assert (bactive snaps l = []) as -> by (destruct (bactive snaps l); [done|by destruct (proj2 Al)]).
      done.
    + cbn [resolve_node] in H. rewrite Hk, SM_modify_step in H. cbn [ok_or] in H.
      rewrite SM_ret_step, El, Er in H. apply mret_Ret in H as [-> _].
      assert (bactive snaps l = []) as -> by (destruct (bactive snaps l); [done|by destruct (proj2 Al)]).
      assert (bactive snaps r' = []) as -> by (destruct (bactive snaps r'); [done|by destruct (proj2 Ar)]).
      apply adds_nil.
Qed.
End ResolveSpec.

(** ** The solution *)

Lemma snapshot_map_from_spec l m snaps :
  snapshot_map_from l m = Ret snaps ->
  (forall w s, m !! w = Some s -> snap_window s = w) ->
  forall w s, snaps !! w = Some s -> snap_window s = w /\ (s ∈ l \/ m !! w = Some s).
Proof.
  revert m. induction l as [|x l IH]; intros m H Hm w s Hs; cbn in H.
  - injection H as ->. split; [by apply Hm|by right].
  - apply bind_Ret in H as (v & _ & H). destruct (decide _) as [|Hn]; [done|].
    edestruct (IH _ H) as [Hw Hin]; [|exact Hs|].
    { intros w' s' Hs'. apply lookup_insert_Some in Hs' as [[<- <-]|[_ Hs']]; [done|by apply Hm]. }
    split; [done|]. destruct Hin as [Hin|Hin]; [left; by right|].
    apply lookup_insert_Some in Hin as [[_ <-]|[_ Hin]]; [left; by left|by right].
Qed.

Lemma snapshot_map_elem l snaps w s :
  snapshot_map l = Ret snaps -> snaps !! w = Some s -> snap_window s = w /\ s ∈ l.
Proof.
  intros H Hs. destruct (snapshot_map_from_spec l ∅ snaps H) with (w := w) (s := s) as [Hw Hin]; [done|done|].
  split; [done|]. destruct Hin as [Hin|Hin]; [done|]. by rewrite lookup_empty in Hin.
Qed.

Lemma solve_plan tree location area snapshots overrides sol snaps :
  tree_ok tree -> rect_fits area -> snapshot_map snapshots = Ret snaps ->
  solve_tree_with_ratio_overrides tree location area snapshots overrides = Ret sol ->
  adds snaps (filter (fun w => is_active snaps w = true) (abs_windows tree)) area []
    (updates (sol_plan sol)) /\ plan_location (sol_plan sol) = location.
Proof.
  intros [o Ht] Hfit Hsn H. unfold solve_tree_with_ratio_overrides in H. rewrite Hsn in H. cbn [mbind res_bind] in H.
  rewrite (abs_windows_rep _ _ Ht). destruct o as [b|].
  - destruct (tree_rep_stores tree b Ht) as (Hr & Hrep & Hnd & _). rewrite Hr in H.
    destruct (aggregate_lower_bounds _ tree snaps (broot b) _) as [bs r] eqn:Ea.
    apply bind_Ret in H as (bounds & -> & H).
    apply (aggregate_spec _ _ _ None) in Ea as (Hq & Hb & _); [|done|done|done].
    cbn [from_option]. fold (bactive snaps b). destruct bounds as [bd|].
    + destruct (if needs_exact snaps then _ else _) as [ctx fits].
      apply bind_Ret in H as (ok & -> & H). destruct ok.
      2:{ by apply bind_Ret in H as (e & _ & H). }
      destruct (resolve_node _ _ _ _ _ _ _ _ _) as [s r] eqn:Er.
      apply bind_Ret in H as (v & -> & H). injection H as <-. cbn.
      by apply (resolve_node_adds _ _ _ _ _ _ None) in Er.
    + injection H as <-. cbn. split; [|done].
      assert (bactive snaps b = []) as -> by (destruct (bactive snaps b); [done|by destruct (proj2 Hb)]).
      apply adds_nil.
  - destruct Ht as (_ & Ht). destruct (root tree); [done|]. injection H as <-. split; [apply adds_nil|done].
Qed.

(** C1: a layout solution is a tiling. Whatever ratio overrides are in
    force, the windows of the plan are exactly the windows of the tree that
    are not minimised, in tree order; when there is one, their tiles cover
    every pixel of the work area exactly once and nothing outside it; and
    the client rectangle of each window is the one its size hints give it,
    inside its tile. *)
Theorem solution_is_tiling tree location area snapshots overrides sol :
  tree_ok tree -> rect_fits area -> Forall (fun s => constraints_ok (constraints s)) snapshots ->
  solve_tree_with_ratio_overrides tree location area snapshots overrides = Ret sol ->
  exists snaps, snapshot_map snapshots = Ret snaps /\ plan_location (sol_plan sol) = location /\
  let us := updates (sol_plan sol) in
  target_window <$> us = filter (fun w => is_active snaps w = true) (abs_windows tree) /\
  (us <> [] -> partition area (tile <$> us)) /\
  Forall (fun u => rect_fits (tile u) /\ rect_within (tile u) area /\ rect_within (client u) (tile u) /\
    exists snap, snaps !! target_window u = Some snap /\ snap ∈ snapshots /\
      resolve_client_rect_within_tile (tile u) (constraints snap) = Ret (client u)) us.
Proof.
  intros Ht Hfit Hc H.
  destruct (snapshot_map snapshots) as [snaps|e| |] eqn:Hsn;
    try (unfold solve_tree_with_ratio_overrides in H; rewrite Hsn in H; done).
  destruct (solve_plan _ _ _ _ _ _ _ Ht Hfit Hsn H) as [(us & E & Hw & Hp & Hok) Hl].
  exists snaps. split; [done|]. split; [done|]. rewrite E. cbn. split; [done|]. split.
  - intros Hne. apply Hp. rewrite <- Hw. by destruct us.
  - eapply list.Forall_impl; [exact Hok|]. intros u (Hf & Hin & snap & Hs & Hm & Hr).
    destruct (snapshot_map_elem _ _ _ _ Hsn Hs) as [_ Hel].
    split; [done|]. split; [done|]. split; [|eauto].
    rewrite list.Forall_forall in Hc. by apply (resolve_sound _ _ _ Hf (Hc snap Hel) Hr).
Qed.

Definition demo_area : LayoutRect := mkLayoutRect 0 0 1920 1080.
Lemma solution_is_tiling_witness :
  exists sol, solve_tree_with_ratio_overrides demo_tree (Regular 1) demo_area
    [Snapshot_new 1; Snapshot_new 3] [] = Ret sol /\
  tile <$> updates (sol_plan sol) = [mkLayoutRect 0 0 960 1080; mkLayoutRect 960 0 960 1080] /\
  partition demo_area (tile <$> updates (sol_plan sol)).
Proof.
  eexists. split; [vm_compute; reflexivity|]. split; [reflexivity|].
  edestruct (solution_is_tiling demo_tree (Regular 1) demo_area [Snapshot_new 1; Snapshot_new 3] [])
    as (snaps & _ & _ & _ & Hp & _).
  - apply (tree_steps_rep 4); [repeat apply steps_step; apply steps_refl|vm_compute; reflexivity].
  - unfold rect_fits, demo_area. cbn. int_lia.
  - assert (Hn : constraints_ok no_constraints)
      by (unfold constraints_ok, opt_in_u32; cbn; split_and!; intros v Hv; discriminate Hv).
    apply Forall_cons; [exact Hn|]. apply Forall_cons; [exact Hn|]. apply Forall_nil.
  - vm_compute. reflexivity.
  - apply Hp. discriminate.
Defined.

(** ** The solver does not panic *)

Definition valid_ratio (r : SplitRatio) : Prop :=
  f64_leb SplitRatio_MIN (ratio_value r) = true /\ f64_leb (ratio_value r) SplitRatio_MAX = true.

Lemma between_finite v :
  f64_leb SplitRatio_MIN v = true -> f64_leb v SplitRatio_MAX = true -> SplitRatio_new v = Some (mkSplitRatio v).
Proof.
  intros H1 H2. unfold SplitRatio_new. rewrite H1, H2.
  destruct v as [s|[]| |s m e]; try done; vm_compute in H1, H2; discriminate.
Qed.

Lemma SplitRatio_new_between v r : SplitRatio_new v = Some r -> valid_ratio r.
Proof.
  unfold SplitRatio_new, valid_ratio.
  destruct (f64_is_finite v && _) eqn:E; [|done]. intros [= <-].
  apply andb_prop in E as [_ E]. by apply andb_prop in E.
Qed.

(** [a / b] for a machine integer [a] and a positive extent [b]. *)
Lemma quotient_not_nan a b : - 2 ^ 31 <= a <= 2 ^ 31 -> 1 <= b <= u32_max ->
  f64_is_nan (f64_div (f64_of_Z a) (f64_of_Z b)) = false /\
  (a < 0 -> f64_leb SplitRatio_MIN (f64_div (f64_of_Z a) (f64_of_Z b)) = false).
Proof.
  intros Ha Hb. destruct (Z.lt_trichotomy a 0) as [H|[->|H]].
  - destruct (f64_div_signed true (- a) b) as (m & e & E & _); [lia|unfold_int; lia|].
    cbn [signedZ] in E. rewrite Z.opp_involutive in E. rewrite E. done.
  - change (f64_of_Z 0) with (S754_zero false). split; [|lia].
    destruct (f64_of_Z_signed false b) as (m & E & _); [unfold_int; lia|]. cbn [signedZ] in E. by rewrite E.
  - destruct (f64_div_signed false a b) as (m & e & E & _); [lia|unfold_int; lia|].
    cbn [signedZ] in E. rewrite E. split; [done|lia].
Qed.

(** A range of ratios cut out by two boundaries: construction never fails an
    [expect], and a range that exists is made of ordered boundaries and valid
    ratios. *)
Lemma ratio_range_spec {E} a b ext :
  - 2 ^ 31 <= a <= 2 ^ 31 -> - 2 ^ 31 <= b <= 2 ^ 31 -> 1 <= ext <= u32_max ->
  match SplitRatioRange_new (E := E) (f64_div (f64_of_Z a) (f64_of_Z ext)) (f64_div (f64_of_Z b) (f64_of_Z ext)) with
  | Ret None => True
  | Ret (Some r) => a <= b /\ valid_ratio (range_min r) /\ valid_ratio (range_max r) /\
      f64_leb (ratio_value (range_min r)) (ratio_value (range_max r)) = true
  | _ => False
  end.
Proof.
  intros Ha Hb He. destruct (quotient_not_nan a ext Ha He) as [Nx _].
  destruct (quotient_not_nan b ext Hb He) as [Ny Hneg].
  set (x := f64_div (f64_of_Z a) _) in *. set (y := f64_div (f64_of_Z b) _) in *.
  unfold SplitRatioRange_new.
  destruct (f64_max_spec x SplitRatio_MIN Nx eq_refl) as (X1 & X2 & X3).
  destruct (f64_min_spec y SplitRatio_MAX Ny eq_refl) as (Y1 & Y2 & Y3).
  destruct (f64_leb (f64_max x SplitRatio_MIN) (f64_min y SplitRatio_MAX)) eqn:El; [|done].
  pose proof (f64_leb_trans _ _ _ El Y2) as Z1. pose proof (f64_leb_trans _ _ _ X2 El) as Z2.
  rewrite (between_finite _ X2 Z1), (between_finite _ Z2 Y2).
  cbn. split; [|unfold valid_ratio; cbn; done].
  destruct (Z.le_gt_cases a b) as [|Hlt]; [done|exfalso].
  pose proof (f64_leb_trans _ _ _ X1 (f64_leb_trans _ _ _ El Y1)) as Hyx.
  destruct (Z.lt_ge_cases b 0) as [Hb0|Hb0].
  - specialize (Hneg Hb0). assert (f64_leb SplitRatio_MIN y = true); [|congruence].
    exact (f64_leb_trans _ _ _ Z2 Y1).
  - pose proof (f64_div_strict b a ext ltac:(lia) ltac:(lia) ltac:(lia) ltac:(unfold_int; lia)) as Hs.
    fold x y in Hs. rewrite (f64_ltb_leb y x Ny Nx), Hyx in Hs. done.
Qed.

Lemma range_clamp_spec {E} r ratio :
  valid_ratio (range_min r) -> valid_ratio (range_max r) ->
  f64_leb (ratio_value (range_min r)) (ratio_value (range_max r)) = true -> valid_ratio ratio ->
  exists v, range_clamp (E := E) r ratio = Ret v /\ valid_ratio v.
Proof.
  intros [L1 L2] [H1 H2] Hle [R1 R2]. unfold range_clamp, f64_clamp. rewrite Hle. cbn [mbind res_bind].
  destruct (f64_clamp_between _ _ (ratio_value ratio) Hle) as [C1 C2]; [by apply f64_leb_not_nan in R1 as [_ ?]|].
  pose proof (f64_leb_trans _ _ _ L1 C1) as Z1. pose proof (f64_leb_trans _ _ _ C2 H2) as Z2.
  rewrite (between_finite _ Z1 Z2). by eexists.
Qed.

(** No visible window has an aspect bound. *)
Definition no_aspects (snaps : Snapshots) : Prop :=
  forall w s, snaps !! w = Some s -> min_aspect (constraints s) = None /\ max_aspect (constraints s) = None.

Lemma no_aspects_inexact snaps : no_aspects snaps -> needs_exact snaps = false.
Proof.
  intros H. unfold needs_exact. apply not_true_is_false. intros He. apply existsb_exists in He as ([w s] & Hin & He).
  apply list_elem_of_In, elem_of_map_to_list in Hin. destruct (H w s Hin) as [E1 E2]. cbn in He.
  rewrite E1, E2 in He. by rewrite andb_comm in He.
Qed.

Lemma SM_bind_settles {S E A B} (m : SM S E A) (k : A -> SM S E B) s :
  settles (m s).2 -> (forall s1 a, m s = (s1, Ret a) -> settles (k a s1).2) -> settles ((m ≫= k) s).2.
Proof.
  unfold mbind, SM_bind. destruct (m s) as [s1 [a|e| |]]; cbn; intros H1 H2; try done. by apply H2.
Qed.

Lemma bind_settles {E A B} (m : res E A) (k : A -> res E B) :
  settles m -> (forall a, m = Ret a -> settles (k a)) -> settles (m ≫= k).
Proof. destruct m; cbn; naive_solver. Qed.

Lemma map_err_settles {E F A} (f : E -> F) (m : res E A) : settles m -> settles (map_err f m).
Proof. by destruct m. Qed.
Lemma ok_or_settles {E A} (e : E) (o : option A) : settles (ok_or e o).
Proof. by destruct o. Qed.

Lemma independent_lower_bounds_settles c : settles (independent_lower_bounds c).
Proof.
  unfold independent_lower_bounds. apply bind_settles.
  { apply map_err_settles. by destruct (validate_cases c) as [->|[e ->]]. }
  intros. apply bind_settles; [apply ok_or_settles|]. intros. apply bind_settles; [apply ok_or_settles|done].
Qed.

Lemma snapshot_map_settles l : settles (snapshot_map l).
Proof.
  unfold snapshot_map. generalize (∅ : Snapshots). induction l as [|s l IH]; intros m; cbn; [done|].
  apply bind_settles; [apply map_err_settles; by destruct (validate_cases (constraints s)) as [->|[e ->]]|].
  intros _ _. destruct (decide _); [done|apply IH].
Qed.

Section Settles.
Context (tree : DwindleTree) (snaps : Snapshots).

Lemma aggregate_settles fuel p b s :
  rep (arena_get (nodes tree)) p b -> (bdepth b <= fuel)%nat ->
  settles (aggregate_lower_bounds fuel tree snaps (broot b) s).2.
Proof.
  revert fuel p s. induction b as [i w|i ax ra l IHl r IHr]; intros [|fuel] p s Hrep Hf; cbn [bdepth] in Hf; try lia;
    cbn [aggregate_lower_bounds]; rewrite (node_kind_rep _ _ _ Hrep), SM_modify_step; cbn [ok_or];
    rewrite SM_ret_step; apply SM_bind_settles.
  - apply SM_bind_settles; [apply ok_or_settles|]. intros s1 snap _. unfold leaf_bounds, sm_lift. cbn [snd].
    destruct (minimized snap); [done|]. apply bind_settles; [|by intros []].
    apply map_err_settles, independent_lower_bounds_settles.
  - intros s1 [v|] _; done.
  - destruct Hrep as (_ & Hl & Hr).
    apply SM_bind_settles; [apply (IHl _ _ _ Hl); lia|]. intros s1 o1 _.
    apply SM_bind_settles; [apply (IHr _ _ _ Hr); lia|]. done.
  - intros s1 [v|] _; done.
Qed.

Lemma collect_settles fuel p b :
  rep (arena_get (nodes tree)) p b -> (bdepth b <= fuel)%nat ->
  settles (collect_active_windows tree snaps fuel (broot b)).
Proof.
  revert fuel p. induction b as [i w|i ax ra l IHl r IHr]; intros [|fuel] p Hrep Hf; cbn [bdepth] in Hf; try lia;
    cbn [collect_active_windows]; rewrite (node_kind_rep _ _ _ Hrep); cbn [ok_or mbind res_bind].
  - by apply bind_settles; [apply ok_or_settles|].
  - destruct Hrep as (_ & Hl & Hr). apply bind_settles; [apply (IHl _ _ Hl); lia|]. intros.
    apply bind_settles; [apply (IHr _ _ Hr); lia|done].
Qed.

Context (Hsnaps : forall w s, snaps !! w = Some s -> constraints_ok (constraints s)) (Hno : no_aspects snaps).
Context (reqs : gmap DwindleNodeId SubtreeLowerBounds) (overrides : gmap DwindleNodeId SplitRatio).
Context (Hover : forall id r, overrides !! id = Some r -> valid_ratio r).

Lemma resolver_settles rect snap w :
  rect_fits rect -> snaps !! w = Some snap -> settles (resolve_client_rect_within_tile rect (constraints snap)).
Proof.
  intros Hfit Hs. destruct (Hno w snap Hs) as [E1 E2].
  pose proof (resolve_no_aspect rect _ Hfit (Hsnaps w snap Hs) E1 E2) as H.
  by destruct (resolve_client_rect_within_tile rect (constraints snap)).
Qed.

(** The boundary of an inexact split: whatever the lower bounds are, the
    computation ends in a boundary or in an error. *)
Lemma boundary_ratio_bounds axis rect bd :
  rect_fits rect -> - 2 ^ 31 <= sat_sub_i32 bd (axis_origin axis rect) <= 2 ^ 31 /\
  1 <= axis_extent axis rect <= u32_max.
Proof. intros Hfit. unfold rect_fits in Hfit. destruct axis; cbn; unfold_int; lia. Qed.

Lemma bounds_boundaries_ordered axis rect a b :
  rect_fits rect ->
  let '(lo, hi) := bounds_boundaries axis rect a b in
  sat_sub_i32 lo (axis_origin axis rect) <= sat_sub_i32 hi (axis_origin axis rect) -> lo <= hi.
Proof.
  intros Hfit. pose proof (axis_end_fits axis rect Hfit) as He. unfold rect_fits in Hfit.
  unfold bounds_boundaries. rewrite He. destruct axis; cbn [axis_origin axis_extent]; unfold_int; lia.
Qed.

Lemma stored_ratio_valid ra : is_Some (SplitRatio_new (ratio_value ra)) -> valid_ratio ra.
Proof.
  intros [r Hr]. apply SplitRatio_new_between in Hr as Hv. unfold SplitRatio_new in Hr.
  destruct (f64_is_finite _ && _); [|done]. injection Hr as <-. by destruct ra.
Qed.

Lemma choose_boundary_settles p b id axis ra rect a c :
  rep (arena_get (nodes tree)) p b -> broot b = id -> (bdepth b <= tree_fuel tree)%nat ->
  valid_ratio ra -> rect_fits rect ->
  settles (choose_boundary tree snaps overrides id axis ra rect (bounds_boundaries axis rect a c).1
             (bounds_boundaries axis rect a c).2).
Proof.
  intros Hrep <- Hd Hra Hfit. pose proof (bounds_boundaries_ordered axis rect a c Hfit) as Hord.
  destruct (bounds_boundaries axis rect a c) as [lo hi]. cbn [fst snd]. unfold choose_boundary, boundary_ratio.
  destruct (boundary_ratio_bounds axis rect lo Hfit) as [B1 Be]. destruct (boundary_ratio_bounds axis rect hi Hfit) as [B2 _].
  pose proof (ratio_range_spec (E := LayoutError) _ _ _ B1 B2 Be) as Hr0.
  destruct (SplitRatioRange_new _ _) as [[rg|]|e| |]; try done; cbn [mbind res_bind].
  - destruct Hr0 as (Hle & V1 & V2 & V3).
    destruct (range_clamp_spec (E := LayoutError) rg (default ra (overrides !! broot b)) V1 V2 V3) as (v & -> & _).
    { destruct (overrides !! broot b) as [ro|] eqn:Eo; [by eapply Hover|done]. }
    cbn [mbind res_bind]. unfold i32_clamp. by destruct (Z.leb_spec lo hi); [|specialize (Hord Hle); lia].
  - pose proof (collect_settles (tree_fuel tree) p b Hrep Hd) as Hcs.
    unfold infeasible_split, active_windows, unwrap_or_default.
    by destruct (collect_active_windows tree snaps (tree_fuel tree) (broot b)).
Qed.

Lemma resolve_node_settles fuel p b rect s :
  rep (arena_get (nodes tree)) p b -> bratios_ok b -> (bdepth b <= tree_fuel tree)%nat ->
  (bdepth b <= fuel)%nat -> rect_fits rect ->
  settles (resolve_node tree snaps false reqs overrides fuel (broot b) rect s).2.
Proof.
  revert fuel p rect s. induction b as [i w|i ax ra l IHl r IHr];
    intros [|fuel] p rect s Hrep Hrat Hdep Hf Hfit; cbn [bdepth] in Hf; try lia;
    cbn [resolve_node]; rewrite (node_kind_rep _ _ _ Hrep), SM_modify_step; cbn [ok_or]; rewrite SM_ret_step.
  - apply SM_bind_settles; [apply ok_or_settles|]. intros s1 snap Hs. apply lift_Ret in Hs as [_ Hs].
    apply ok_or_Ret in Hs. destruct (minimized snap); [done|].
    apply SM_bind_settles; [by eapply map_err_settles, resolver_settles|done].
  - pose proof Hrep as (_ & Hl & Hr). cbn [bratios_ok] in Hrat. destruct Hrat as (Hra & Ral & Rar).
    cbn [bdepth] in Hdep.
    destruct (reqs !! broot l) as [ba|] eqn:El, (reqs !! broot r) as [bb|] eqn:Er; [| | |done];
      [|apply (IHl _ _ _ _ Hl); (done || lia)|apply (IHr _ _ _ _ Hr); (done || lia)].
    apply SM_bind_settles; [done|]. intros s1 [lo hi] Hb. apply mret_Ret in Hb as [-> Hb].
    apply SM_bind_settles.
    { unfold sm_lift. cbn [snd]. replace lo with (bounds_boundaries ax rect ba bb).1 by (by rewrite <- Hb).
      replace hi with (bounds_boundaries ax rect ba bb).2 by (by rewrite <- Hb).
      eapply choose_boundary_settles; [exact Hrep|done|cbn [bdepth]; lia|by apply stored_ratio_valid|done]. }
    intros s1 [[[rg pref] eff] bd] Hc. apply lift_Ret in Hc as [-> _].
    apply SM_bind_settles; [apply ok_or_settles|]. intros s1 f Hfc. apply lift_Ret in Hfc as [-> Hfc].
    apply ok_or_Ret in Hfc.
    apply SM_bind_settles; [apply ok_or_settles|]. intros s1 g Hgc. apply lift_Ret in Hgc as [-> Hgc].
    apply ok_or_Ret in Hgc. destruct (children_fit _ _ _ _ _ Hfit Hfc Hgc) as (Ff & Fg & _).
    apply SM_bind_settles; [done|]. intros s1 u _.
    apply SM_bind_settles; [apply (IHl _ _ _ _ Hl); (done || lia)|]. intros s2 u2 _.
    apply SM_bind_settles; [apply (IHr _ _ _ _ Hr); (done || lia)|]. done.
Qed.
End Settles.

Lemma override_map_valid l :
  Forall (fun o => valid_ratio (override_ratio o)) l ->
  forall id r, override_map l !! id = Some r -> valid_ratio r.
Proof.
  unfold override_map. intros Hl.
  assert (Hgen : forall l (m : gmap DwindleNodeId SplitRatio), Forall (fun o => valid_ratio (override_ratio o)) l ->
    (forall id r, m !! id = Some r -> valid_ratio r) ->
    forall id r, fold_left (fun m o => <[override_split o := override_ratio o]> m) l m !! id = Some r -> valid_ratio r).
  { clear. induction l as [|o l IH]; intros m Hf Hm; cbn; [done|]. inversion Hf; subst.
    apply IH; [done|]. intros id r Hr. apply lookup_insert_Some in Hr as [[_ <-]|[_ Hr]]; eauto. }
  apply Hgen; [done|]. intros id r Hr. by rewrite lookup_empty in Hr.
Qed.

(** C31: without aspect bounds the solver never panics and never runs for
    ever: for every stored tree, work area, set of snapshots and overrides
    it returns a solution or one of its errors. In particular the boundary
    [clamp] of a split never sees reversed bounds, although the check that
    guards it is made on rounded [f64] ratios. *)
Theorem solver_settles tree location area snapshots overrides :
  tree_ok tree -> rect_fits area ->
  Forall (fun s => constraints_ok (constraints s) /\ min_aspect (constraints s) = None /\
                   max_aspect (constraints s) = None) snapshots ->
  Forall (fun o => valid_ratio (override_ratio o)) overrides ->
  settles (solve_tree_with_ratio_overrides tree location area snapshots overrides).
Proof.
  intros [o Ht] Hfit Hsn Hov. unfold solve_tree_with_ratio_overrides.
  apply bind_settles; [apply snapshot_map_settles|]. intros snaps Hs.
  assert (Hel : forall w s, snaps !! w = Some s -> constraints_ok (constraints s) /\
            min_aspect (constraints s) = None /\ max_aspect (constraints s) = None).
  { intros w s Hw. destruct (snapshot_map_elem _ _ _ _ Hs Hw) as [_ Hin].
    rewrite list.Forall_forall in Hsn. by apply Hsn. }
  assert (Hno : no_aspects snaps) by (intros w s Hw; by destruct (Hel w s Hw) as (_ & ? & ?)).
  destruct (root tree) as [rid|] eqn:Hroot; [|done].
  destruct o as [b|]; [|destruct Ht as (_ & Ht); by rewrite Hroot in Ht].
  destruct (tree_rep_stores tree b Ht) as (Hr & Hrep & Hnd & _). rewrite Hroot in Hr. injection Hr as ->.
  assert (Hdep : (bdepth b <= tree_fuel tree)%nat).
  { pose proof (bids_bound _ _ _ Hrep Hnd). pose proof (bdepth_bids b). unfold tree_fuel. lia. }
  pose proof (aggregate_settles tree snaps (tree_fuel tree) None b (mkBoundsState ∅ 0) Hrep Hdep) as Hag.
  destruct (aggregate_lower_bounds _ _ _ _ _) as [bs rb]. apply bind_settles; [done|].
  intros [bd|] _; [|done]. rewrite (no_aspects_inexact snaps Hno). cbn [mbind res_bind].
  destruct Ht as (_ & Ht). rewrite Hroot in Ht. destruct Ht as (_ & _ & _ & _ & _ & _ & _ & Hrat).
  pose proof (resolve_node_settles tree snaps (fun w s Hw => proj1 (Hel w s Hw)) Hno (bs_requirements bs)
    (override_map overrides) (override_map_valid overrides Hov) (tree_fuel tree) None b area
    (mkSolve FeasibilityContext_new [] [] (bs_visits bs)) Hrep Hrat Hdep Hdep Hfit) as Hres.
  destruct (resolve_node _ _ _ _ _ _ _ _ _) as [s r]. by apply bind_settles.
Qed.

Lemma solver_settles_witness :
  tree_ok demo_tree /\ rect_fits demo_area /\
  settles (solve_tree_with_ratio_overrides demo_tree (Regular 1) demo_area
    [Snapshot_new 1; Snapshot_new 3] [mkOverride (mkNodeId 4 1) SplitRatio_DEFAULT]).
Proof.
  assert (Ht : tree_ok demo_tree).
  { apply (tree_steps_rep 4); [repeat apply steps_step; apply steps_refl|vm_compute; reflexivity]. }
  assert (Ha : rect_fits demo_area) by (unfold rect_fits, demo_area; cbn; int_lia).
  split; [exact Ht|]. split; [exact Ha|].
  assert (Hn : constraints_ok no_constraints)
    by (unfold constraints_ok, opt_in_u32; cbn; split_and!; intros v Hv; discriminate Hv).
  apply solver_settles; [exact Ht|exact Ha| |].
  - apply Forall_cons; [exact (conj Hn (conj eq_refl eq_refl))|].
    apply Forall_cons; [exact (conj Hn (conj eq_refl eq_refl))|]. apply Forall_nil.
  - apply Forall_cons; [split; vm_compute; reflexivity|]. apply Forall_nil.
Defined.

(** Two windows side by side; the first needs the whole work area and has
    an aspect bound. *)
Definition two_windows : DwindleTree :=
  (run_op (OpInsert 2 InsertHint_default) (run_op (OpInsert 1 InsertHint_default) DwindleTree_default).1).1.
Definition square_100 : LayoutConstraints :=
  mkConstraints (Some 100) None None None None None None None (Some (f64_lit 1 1)) (Some (f64_lit 1 1)).
Definition area_100 : LayoutRect := mkLayoutRect 0 0 100 100.

(** Exact feasibility counts minimised windows. With the second window
    minimised, the first one alone fits the work area exactly, and the
    solver places it there when it has no aspect bound; with the aspect
    bound the solver reports the layout as infeasible, because the
    feasibility check reserves room for the minimised sibling. *)
Theorem minimised_sibling_reserves_space :
  resolve_client_rect_within_tile area_100 square_100 = Ret area_100 /\
  solve_tree two_windows (Regular 1) area_100
    [mkSnapshot 1 false square_100; mkSnapshot 2 true no_constraints]
  = Fail (ConstraintInfeasible (mkInfeasibility (Some (mkNodeId 2 1)) (Some Horizontal) 101 101 100 100 [1])) /\
  tile <$> match solve_tree two_windows (Regular 1) area_100
           [mkSnapshot 1 false (mkConstraints (Some 100) None None None None None None None None None);
            mkSnapshot 2 true no_constraints] with
           | Ret sol => updates (sol_plan sol)
           | _ => []
           end = [area_100].
Proof. vm_compute. split; [reflexivity|]. split; reflexivity. Qed.
