(* ===== verification/Plan.v ===== *)
(** * Plan: the layout manager (src/wm/layout/plan.rs)

    One Dwindle tree per workspace location, created on the first insertion
    and dropped with its last window, and the entry points that run the
    solver on a location. *)

From Stdlib Require Import ZArith Lia.
From stdpp Require Import base gmap list decidable option tactics.
From S2P Require Import Prelude F64 CoreIds Workspace LayoutGeometry Constraints Dwindle Solve.
Open Scope Z_scope.

(** Locations as map keys. *)
#[export] Instance WorkspaceLocation_countable : Countable WorkspaceLocation.
Proof.
  refine (inj_countable'
    (fun l => match l with Regular w => inl w | Special s => inr s end)
    (fun x => match x with inl w => Regular w | inr s => Special s end) _).
  by intros [].
Defined.

Record TiledLayoutManager : Type := mkManager { spaces : gmap WorkspaceLocation DwindleTree }.
Definition Manager_default : TiledLayoutManager := mkManager ∅.

Definition manager_tree (m : TiledLayoutManager) (location : WorkspaceLocation) : option DwindleTree :=
  spaces m !! location.

Definition set_tree (location : WorkspaceLocation) (t : DwindleTree) (m : TiledLayoutManager) : TiledLayoutManager :=
  mkManager (<[location := t]> (spaces m)).

Abbreviation ManagerM A := (SM TiledLayoutManager LayoutError A).

(** Running a tree operation on the tree behind a mutable reference. *)
Definition on_tree {A} (location : WorkspaceLocation) (t : DwindleTree) (op : TreeM A) : ManagerM A := fun m =>
  let '(t', r) := op t in (set_tree location t' m, map_err TreeError r).

(** [tree_mut]: the entry is created when it is missing. *)
Definition with_tree_mut {A} (location : WorkspaceLocation) (op : TreeM A) : ManagerM A := fun m =>
  on_tree location (default DwindleTree_default (spaces m !! location)) op m.

Definition elsewhere (m : TiledLayoutManager) (location : WorkspaceLocation) (w : Z) : bool :=
  existsb (fun p => negb (bool_decide (p.1 = location)) && contains_window p.2 w) (map_to_list (spaces m)).

Definition manager_insert (location : WorkspaceLocation) (w : Z) (hint : InsertHint) : ManagerM unit :=
  m ← sm_get;
  if elsewhere m location w then sm_lift (Fail (TreeError (DuplicateWindow w)))
  else
    _ ← with_tree_mut location (insert w hint);
    mret tt.

Definition drop_if_empty (location : WorkspaceLocation) : ManagerM unit :=
  sm_modify (fun m => match spaces m !! location with
                      | Some t => if tree_is_empty t then mkManager (delete location (spaces m)) else m
                      | None => m
                      end).

Definition manager_remove (location : WorkspaceLocation) (w : Z) : ManagerM unit :=
  m ← sm_get;
  t ← sm_lift (ok_or (MissingTree location) (spaces m !! location));
  _ ← on_tree location t (remove w);
  drop_if_empty location.

Definition replace_tree (location : WorkspaceLocation) (t : DwindleTree) (m : TiledLayoutManager)
    : TiledLayoutManager :=
  if tree_is_empty t then mkManager (delete location (spaces m)) else set_tree location t m.

Definition calculate_tree (tree : DwindleTree) (location : WorkspaceLocation) (area : LayoutRect)
    (snapshots : list LayoutWindowSnapshot) : res LayoutError TiledLayoutSolution :=
  solve_tree tree location area snapshots.
Definition calculate_tree_with_ratio_overrides (tree : DwindleTree) (location : WorkspaceLocation)
    (area : LayoutRect) (snapshots : list LayoutWindowSnapshot) (overrides : list RatioOverride)
    : res LayoutError TiledLayoutSolution :=
  solve_tree_with_ratio_overrides tree location area snapshots overrides.

Definition calculate (m : TiledLayoutManager) (location : WorkspaceLocation) (area : LayoutRect)
    (snapshots : list LayoutWindowSnapshot) : res LayoutError TiledLayoutSolution :=
  match manager_tree m location with
  | None => Ret (solution_empty location)
  | Some t => calculate_tree t location area snapshots
  end.

Definition LayoutGeneration_INITIAL : Z := 1.
Definition LayoutGeneration_next (g : Z) : Z := Z.max (sat_add u64_max g 1) 1.

(** ** The manager's invariant *)

(** Every stored tree is well formed and has a window, and no window is in
    two locations. *)
Definition manager_ok (m : TiledLayoutManager) : Prop :=
  (forall l t, spaces m !! l = Some t -> tree_ok t /\ abs_windows t <> []) /\
  (forall l1 l2 t1 t2 w, spaces m !! l1 = Some t1 -> spaces m !! l2 = Some t2 ->
     w ∈ abs_windows t1 -> w ∈ abs_windows t2 -> l1 = l2).

(** Room for two more nodes in the arena of a location. *)
Definition has_room (m : TiledLayoutManager) (l : WorkspaceLocation) : Prop :=
  forall t, spaces m !! l = Some t -> Z.of_nat (length (slots (nodes t))) < u32_max.

Definition manager_windows (m : TiledLayoutManager) (l : WorkspaceLocation) : list Z :=
  from_option abs_windows [] (spaces m !! l).

Lemma elsewhere_spec m l w :
  manager_ok m -> elsewhere m l w = true <-> exists l', l' <> l /\ w ∈ manager_windows m l'.
Proof.
  intros [Hok _]. unfold elsewhere. rewrite existsb_exists. split.
  - intros ([l' t] & Hin & H). apply list_elem_of_In, elem_of_map_to_list in Hin.
    apply andb_prop in H as [Hne Hc]. cbn in *. exists l'. split.
    + intros ->. by rewrite bool_decide_eq_true_2 in Hne.
    + unfold manager_windows. rewrite Hin. cbn. apply abs_contains; [by apply (Hok l')|done].
  - intros (l' & Hne & Hw). unfold manager_windows in Hw. destruct (spaces m !! l') as [t|] eqn:E; [|set_solver].
    exists (l', t). split; [by apply list_elem_of_In, elem_of_map_to_list|]. cbn.
    rewrite bool_decide_eq_false_2 by done. cbn. apply abs_contains; [by apply (Hok l')|done].
Qed.

Lemma tree_is_empty_spec t : tree_ok t -> tree_is_empty t = true <-> abs_windows t = [].
Proof.
  intros Ht. unfold tree_is_empty. rewrite bool_decide_eq_true. split.
  - intros E. destruct (abs_windows t) as [|w l] eqn:Ew; [done|].
    assert (H : contains_window t w = true) by (apply abs_contains; [done|]; rewrite Ew; left).
    unfold contains_window in H. rewrite E, lookup_empty, bool_decide_eq_true in H. by destruct H.
  - intros E. apply map_eq. intros w. rewrite lookup_empty. apply eq_None_not_Some. intros Hs.
    assert (H : contains_window t w = true) by (by apply bool_decide_eq_true).
    apply abs_contains in H; [|done]. rewrite E in H. set_solver.
Qed.

(** Replacing the tree of one location by one whose windows are new. *)
Lemma manager_ok_set m l t :
  manager_ok m -> tree_ok t -> abs_windows t <> [] ->
  (forall l' w, w ∈ abs_windows t -> w ∈ manager_windows m l' -> l' = l) ->
  manager_ok (set_tree l t m).
Proof.
  intros [H1 H2] Ht Hne Hnew. split; cbn.
  - intros l' t' Hl. apply lookup_insert_Some in Hl as [[_ <-]|[_ Hl]]; eauto.
  - intros l1 l2 t1 t2 w E1 E2 Hw1 Hw2.
    apply lookup_insert_Some in E1 as [[<- <-]|[N1 E1]], E2 as [[<- <-]|[N2 E2]]; try done.
    + symmetry. apply (Hnew l2 w); [done|]. unfold manager_windows. by rewrite E2.
    + apply (Hnew l1 w); [done|]. unfold manager_windows. by rewrite E1.
    + by apply (H2 l1 l2 t1 t2 w).
Qed.

Lemma manager_ok_delete m l : manager_ok m -> manager_ok (mkManager (delete l (spaces m))).
Proof.
  intros [H1 H2]. split; cbn.
  - intros l' t Hl. apply lookup_delete_Some in Hl as [_ Hl]. eauto.
  - intros l1 l2 t1 t2 w E1 E2. apply lookup_delete_Some in E1 as [_ E1], E2 as [_ E2]. eauto.
Qed.

Lemma set_tree_id m l t : spaces m !! l = Some t -> set_tree l t m = m.
Proof. intros H. destruct m as [sp]. unfold set_tree. cbn in *. by rewrite insert_id. Qed.

Lemma tree_ok_default : tree_ok DwindleTree_default /\ abs_windows DwindleTree_default = [].
Proof. split; [exists None; apply tree_rep_default|reflexivity]. Qed.

Lemma insert_windows t w hint t' leaf :
  tree_ok t -> insert w hint t = (t', Ret leaf) -> Z.of_nat (length (slots (nodes t))) < u32_max ->
  w ∉ abs_windows t -> tree_ok t' /\ abs_windows t' ≡ₚ w :: abs_windows t.
Proof.
  intros Ht E Hlen Hw. destruct (insert_abs t w hint Ht Hlen Hw) as (t1 & l1 & E1 & Ht1 & Ea & _).
  rewrite E in E1. injection E1 as <- <-. split; [done|]. unfold abs_windows in *. rewrite Ea. cbn.
  destruct (abs t) as [s|] eqn:Es; cbn; [|done].
  apply shape_insert_windows; [apply chosen_anchor_in|]. by destruct (abs_NoDup t s Ht Es).
Qed.

(** The tree [insert] works on. *)
Definition tree_at (m : TiledLayoutManager) (l : WorkspaceLocation) : DwindleTree :=
  default DwindleTree_default (spaces m !! l).

Lemma tree_at_ok m l :
  manager_ok m -> has_room m l ->
  tree_ok (tree_at m l) /\ abs_windows (tree_at m l) = manager_windows m l /\
  Z.of_nat (length (slots (nodes (tree_at m l)))) < u32_max.
Proof.
  intros [Hok _] Hroom. unfold tree_at, manager_windows. destruct (spaces m !! l) as [t|] eqn:E; cbn.
  - split; [by apply (Hok l)|]. split; [done|by apply Hroom].
  - split; [apply tree_ok_default|]. split; [done|]. vm_compute. done.
Qed.

(** Inserting into a location. A window that is already in some
    location is refused and nothing changes; any other window is added to
    the tree of the location (created when it is missing), the other
    locations are left alone, and every window still has one location. *)
Theorem manager_insert_spec m l w hint :
  manager_ok m -> has_room m l ->
  ((exists l', w ∈ manager_windows m l') ->
     manager_insert l w hint m = (m, Fail (TreeError (DuplicateWindow w)))) /\
  ((forall l', w ∉ manager_windows m l') ->
     exists m', manager_insert l w hint m = (m', Ret tt) /\ manager_ok m' /\
       manager_windows m' l ≡ₚ w :: manager_windows m l /\
       forall l', l' <> l -> spaces m' !! l' = spaces m !! l').
Proof.
  intros Hok Hroom. destruct (tree_at_ok m l Hok Hroom) as (Ht & Hwin & Hlen).
  pose proof (elsewhere_spec m l w Hok) as He. split.
  - intros [l' Hw]. unfold manager_insert. sm_run. destruct (elsewhere m l w) eqn:Ee; [done|].
    assert (l' = l) as ->.
    { destruct (decide (l' = l)) as [|Hne]; [done|].
      by assert (false = true) by (apply He; eauto). }
    unfold mbind, SM_bind, with_tree_mut, on_tree. fold (tree_at m l).
    rewrite insert_duplicate by (apply abs_contains; [done|by rewrite Hwin]). cbn.
    unfold manager_windows in Hw. destruct (spaces m !! l) as [t|] eqn:E; [|set_solver].
    unfold tree_at. rewrite E. cbn. by rewrite set_tree_id.
  - intros Hw. unfold manager_insert. sm_run. destruct (elsewhere m l w) eqn:Ee.
    { destruct (proj1 He eq_refl) as (l' & _ & Hl'). by destruct (Hw l'). }
    specialize (Hw l) as Hwl. rewrite <- Hwin in Hwl.
    destruct (insert_abs _ w hint Ht Hlen Hwl) as (t' & leaf & E & _).
    destruct (insert_windows _ _ _ _ _ Ht E Hlen Hwl) as [Ht' Hp].
    exists (set_tree l t' m). split.
    { unfold mbind, SM_bind, with_tree_mut, on_tree. fold (tree_at m l). by rewrite E. }
    split; [|split].
    + apply manager_ok_set; [done|done| |].
      * intros En. rewrite En in Hp. by apply Permutation_nil_cons in Hp.
      * intros l' v Hv Hl'. rewrite Hp, elem_of_cons, Hwin in Hv. destruct Hv as [->|Hv]; [by destruct (Hw l')|].
        unfold manager_windows in *. destruct (spaces m !! l') eqn:E1; [|set_solver].
        destruct (spaces m !! l) eqn:E2; [|set_solver]. by eapply (proj2 Hok).
    + unfold manager_windows at 1. cbn. rewrite lookup_insert_eq. cbn. by rewrite Hp, Hwin.
    + intros l' Hne. cbn. by rewrite lookup_insert_ne.
Qed.

Lemma manager_insert_spec_witness :
  manager_ok Manager_default /\
  exists m', manager_insert (Regular 1) 7 InsertHint_default Manager_default = (m', Ret tt) /\
    manager_windows m' (Regular 1) ≡ₚ [7].
Proof.
  assert (H : manager_ok Manager_default) by (split; intros; cbn in *; by simplify_map_eq).
  split; [exact H|].
  destruct (manager_insert_spec Manager_default (Regular 1) 7 InsertHint_default H) as [_ Hi].
  - intros t Ht. cbn in Ht. by simplify_map_eq.
  - destruct Hi as (m' & E & _ & Hp & _).
    + intros l'. unfold manager_windows. cbn. rewrite lookup_empty. cbn. apply not_elem_of_nil.
    + exists m'. split; [exact E|exact Hp].
Defined.

Lemma shape_remove_windows w s :
  NoDup (shape_windows s) -> from_option shape_windows [] (shape_remove w s) = filter (fun v => v <> w) (shape_windows s).
Proof.
  induction s as [v|ax ra l IHl r IHr]; intros Hnd; cbn [shape_windows shape_remove] in *.
  - rewrite filter_cons, filter_nil. destruct (decide (v = w)) as [->|Hne]; [by rewrite decide_False by tauto|].
    by rewrite decide_True.
  - apply list.NoDup_app in Hnd as (Nl & _ & Nr). rewrite list.filter_app, <- (IHl Nl), <- (IHr Nr).
    destruct (shape_remove w l), (shape_remove w r); cbn; try done. by rewrite app_nil_r.
Qed.

(** Removing from a location. A missing location and an unknown window
    are errors that change nothing; otherwise the window leaves the
    location, a location without windows is dropped, and the other
    locations are left alone. *)
Theorem manager_remove_spec m l w :
  manager_ok m ->
  match spaces m !! l with
  | None => manager_remove l w m = (m, Fail (MissingTree l))
  | Some t =>
      if decide (w ∈ abs_windows t) then
        exists m', manager_remove l w m = (m', Ret tt) /\ manager_ok m' /\
          manager_windows m' l = filter (fun v => v <> w) (abs_windows t) /\
          (spaces m' !! l = None <-> abs_windows t = [w]) /\
          forall l', l' <> l -> spaces m' !! l' = spaces m !! l'
      else manager_remove l w m = (m, Fail (TreeError (UnknownWindow w)))
  end.
Proof.
  intros Hok. unfold manager_remove. sm_run. destruct (spaces m !! l) as [t|] eqn:El; [|done].
  cbn [ok_or]. sm_run. destruct (proj1 Hok l t El) as [Ht Hne]. unfold mbind, SM_bind, on_tree.
  destruct (decide (w ∈ abs_windows t)) as [Hw|Hw].
  2:{ rewrite remove_unknown; [cbn; by rewrite set_tree_id|].
      destruct (by_window t !! w) eqn:E; [|done]. destruct Hw. apply abs_contains; [done|].
      unfold contains_window. rewrite E. by apply bool_decide_eq_true. }
  destruct (remove_abs t w Ht Hw) as (t' & -> & Ht' & Ea & _). cbn [map_err].
  assert (Hwin : abs_windows t' = filter (fun v => v <> w) (abs_windows t)).
  { unfold abs_windows in *. rewrite Ea. destruct (abs t) as [s|] eqn:Es; [|done]. cbn.
    apply shape_remove_windows. by destruct (abs_NoDup t s Ht Es). }
  assert (Hlast : abs_windows t' = [] <-> abs_windows t = [w]).
  { rewrite Hwin. unfold abs_windows in *. destruct (abs t) as [s|] eqn:Es; [|done]. cbn in *.
    destruct (abs_NoDup t s Ht Es) as [Hnd _]. split.
    - intros Ef. destruct (shape_windows s) as [|x [|y rest]] eqn:Ess; [done| |].
      + by apply list_elem_of_singleton in Hw as ->.
      + exfalso. apply list.NoDup_cons in Hnd as [Hx _].
        assert (Hall : forall v, v ∈ x :: y :: rest -> v = w).
        { intros v Hv. destruct (decide (v = w)) as [|Hvw]; [done|].
          assert (Hin : v ∈ filter (fun v => v <> w) (x :: y :: rest)) by (by apply list_elem_of_filter).
          rewrite Ef in Hin. set_solver. }
        apply Hx. rewrite (Hall x), (Hall y) by set_solver. left.
    - intros ->. by rewrite filter_cons, decide_False, filter_nil by tauto. }
  unfold drop_if_empty, sm_modify. cbn [spaces set_tree]. rewrite lookup_insert_eq.
  pose proof (tree_is_empty_spec t' Ht') as Hemp. destruct (tree_is_empty t').
  - eexists. split; [done|]. pose proof (proj1 Hemp eq_refl) as H0.
    rewrite delete_insert_eq. split; [by apply manager_ok_delete|]. unfold manager_windows. cbn.
    rewrite lookup_delete_eq. cbn. split; [congruence|]. split; [by rewrite <- Hlast|].
    intros l' Hl'. by rewrite lookup_delete_ne.
  - exists (set_tree l t' m). split; [done|]. assert (Hn : abs_windows t' <> []) by (intros E; by apply Hemp in E).
    split; [|split; [|split]].
    + apply manager_ok_set; [done|done|done|]. intros l' v Hv Hl'. rewrite Hwin in Hv.
      apply list_elem_of_filter in Hv as [_ Hv]. unfold manager_windows in Hl'.
      destruct (spaces m !! l') eqn:E'; [|set_solver]. by eapply (proj2 Hok).
    + unfold manager_windows. cbn. by rewrite lookup_insert_eq.
    + cbn. rewrite lookup_insert_eq. split; [done|]. intros E. by destruct (Hn (proj2 Hlast E)).
    + intros l' Hl'. cbn. by rewrite lookup_insert_ne.
Qed.

Lemma manager_remove_spec_witness :
  let m := (manager_insert (Regular 1) 7 InsertHint_default Manager_default).1 in
  manager_ok m /\ exists m', manager_remove (Regular 1) 7 m = (m', Ret tt) /\ spaces m' !! Regular 1 = None.
Proof.
  intros m.
  assert (H : manager_ok m).
  { assert (H0 : manager_ok Manager_default) by (split; intros; cbn in *; by simplify_map_eq).
    change m with (set_tree (Regular 1) (insert 7 InsertHint_default DwindleTree_default).1 Manager_default).
    apply manager_ok_set; [exact H0| | |].
    - apply (tree_steps_rep 1 (run_op (OpInsert 7 InsertHint_default) DwindleTree_default).1);
        [apply steps_step, steps_refl|vm_compute; reflexivity].
    - vm_compute. discriminate.
    - intros l' w _ Hw. unfold manager_windows in Hw. cbn in Hw. rewrite lookup_empty in Hw.
      by apply elem_of_nil in Hw. }
  split; [exact H|]. pose proof (manager_remove_spec m (Regular 1) 7 H) as Hr.
  change (spaces m !! Regular 1) with (Some (insert 7 InsertHint_default DwindleTree_default).1) in Hr.
  cbv iota beta in Hr.
  destruct (decide _) as [_|Hn] in Hr; [|destruct Hn; vm_compute; left].
  destruct Hr as (m' & E & _ & _ & Hd & _). exists m'. split; [exact E|]. apply Hd. vm_compute. reflexivity.
Defined.
