(* ===== verification/Resize.v ===== *)
(** * Resize: which dividers a pointer resize moves (src/wm/layout/resize.rs)

    Grabbing a window by an edge moves the nearest split, on each axis,
    whose divider lies on that edge. The handle remembers the split, its
    rectangle and the boundary at the start of the interaction. *)

From Stdlib Require Import ZArith Lia.
From stdpp Require Import base gmap list decidable option tactics.
From S2P Require Import Prelude F64 CoreIds Workspace LayoutGeometry Constraints Dwindle Solve.
Open Scope Z_scope.

Record ResizeEdges : Type := mkEdges { top : bool; bottom : bool; left : bool; right : bool }.
Definition ResizeEdges_NONE : ResizeEdges := mkEdges false false false false.
Definition ResizeEdges_RIGHT : ResizeEdges := mkEdges false false false true.

Record TiledResizeAxis : Type := mkAxis {
  axis_split : DwindleNodeId;
  axis_axis : SplitAxis;
  start_ratio : SplitRatio;
  axis_parent_rect : LayoutRect;
  start_boundary : Z
}.

Definition with_start_boundary (a : TiledResizeAxis) (boundary : Z) : TiledResizeAxis :=
  mkAxis (axis_split a) (axis_axis a) (start_ratio a) (axis_parent_rect a) boundary.

Definition requested_ratio (a : TiledResizeAxis) (displacement : Z) : f64 :=
  let extent := axis_extent (axis_axis a) (axis_parent_rect a) in
  if extent =? 0 then ratio_value (start_ratio a)
  else
    let boundary := sat_add_i32 (start_boundary a) displacement in
    let origin := axis_origin (axis_axis a) (axis_parent_rect a) in
    f64_div (f64_of_Z (sat_sub_i32 boundary origin)) (f64_of_Z extent).

Record TiledResizeHandle : Type := mkHandle {
  horizontal : option TiledResizeAxis;
  vertical : option TiledResizeAxis
}.

Definition rebase_boundaries (h : TiledResizeHandle) (horizontal_delta vertical_delta : Z) : TiledResizeHandle :=
  let shift delta a := with_start_boundary a (sat_add_i32 (start_boundary a) delta) in
  mkHandle (shift horizontal_delta <$> horizontal h) (shift vertical_delta <$> vertical h).

(** Whether the divider of a split lies on a grabbed edge of the window: on
    the right or bottom of a window in the first child, on the left or top
    of one in the second. *)
Definition divider_grabbed (edges : ResizeEdges) (axis : SplitAxis) (in_first : bool) : bool :=
  match axis with
  | Horizontal => (right edges && in_first) || (left edges && negb in_first)
  | Vertical => (bottom edges && in_first) || (top edges && negb in_first)
  end.

Definition handle_slot (axis : SplitAxis) (h : TiledResizeHandle) : option TiledResizeAxis :=
  match axis with Horizontal => horizontal h | Vertical => vertical h end.
Definition set_slot (axis : SplitAxis) (a : TiledResizeAxis) (h : TiledResizeHandle) : TiledResizeHandle :=
  match axis with Horizontal => mkHandle (Some a) (vertical h) | Vertical => mkHandle (horizontal h) (Some a) end.

(** The walk both constructors share: [start] describes a divider when it
    is first met and may give up. Each step goes up one level. *)
Fixpoint walk_up (fuel : nat) (tree : DwindleTree) (edges : ResizeEdges)
    (start : DwindleNodeId -> SplitAxis -> SplitRatio -> option TiledResizeAxis)
    (current : DwindleNodeId) (h : TiledResizeHandle) : res Empty_set (option TiledResizeHandle) :=
  match fuel with
  | O => NoFuel
  | S fuel =>
      match parent_of tree current with
      | None => Ret None
      | Some None => Ret (Some h)
      | Some (Some par) =>
          match node_kind tree par with
          | Some (Split axis ratio first _) =>
              if divider_grabbed edges axis (bool_decide (first = current)) then
                match handle_slot axis h with
                | Some _ => walk_up fuel tree edges start par h
                | None =>
                    match start par axis ratio with
                    | Some a => walk_up fuel tree edges start par (set_slot axis a h)
                    | None => Ret None
                    end
                end
              else walk_up fuel tree edges start par h
          | _ => Ret None
          end
      end
  end.

Definition finish (o : option TiledResizeHandle) : option TiledResizeHandle :=
  h ← o; if decide (is_Some (horizontal h) \/ is_Some (vertical h)) then Some h else None.

Definition for_window (tree : DwindleTree) (window : Z) (edges : ResizeEdges) (area : LayoutRect)
    : res Empty_set (option TiledResizeHandle) :=
  match leaf_for_window tree window with
  | None => Ret None
  | Some leaf =>
      o ← walk_up (tree_fuel tree) tree edges
            (fun par axis ratio => Some (mkAxis par axis ratio area (split_boundary area axis ratio)))
            leaf (mkHandle None None);
      Ret (finish o)
  end.

Definition from_solution (tree : DwindleTree) (solution : TiledLayoutSolution) (window : Z) (edges : ResizeEdges)
    : res Empty_set (option TiledResizeHandle) :=
  match leaf_for_window tree window with
  | None => Ret None
  | Some leaf =>
      o ← walk_up (tree_fuel tree) tree edges
            (fun par axis ratio =>
               resolved ← snd <$> list_find (fun s => split_node s = par) (splits solution);
               Some (mkAxis par axis ratio (split_parent_rect resolved) (split_boundary_at resolved)))
            leaf (mkHandle None None);
      Ret (finish o)
  end.

(** ** The dividers above a window *)

Record ancestor : Type := mkAncestor {
  anc_id : DwindleNodeId;
  anc_axis : SplitAxis;
  anc_ratio : SplitRatio;
  anc_first : bool (** the window is in the first child *)
}.

(** The splits above a leaf, nearest first. *)
Fixpoint ancestors (id : DwindleNodeId) (b : btree) : option (list ancestor) :=
  match b with
  | BLeaf i _ => if decide (i = id) then Some [] else None
  | BSplit i ax ra l r =>
      match ancestors id l with
      | Some p => Some (p ++ [mkAncestor i ax ra true])
      | None => p ← ancestors id r; Some (p ++ [mkAncestor i ax ra false])
      end
  end.

Definition grabbed (edges : ResizeEdges) (axis : SplitAxis) (a : ancestor) : Prop :=
  anc_axis a = axis /\ divider_grabbed edges (anc_axis a) (anc_first a) = true.
#[export] Instance grabbed_dec edges axis a : Decision (grabbed edges axis a) := ltac:(unfold grabbed; apply _).

(** The nearest grabbed divider of an axis. *)
Definition nearest (edges : ResizeEdges) (axis : SplitAxis) (path : list ancestor) : option ancestor :=
  snd <$> list_find (grabbed edges axis) path.

Section Walk.
Context (tree : DwindleTree) (edges : ResizeEdges).
Context (start : DwindleNodeId -> SplitAxis -> SplitRatio -> option TiledResizeAxis).

(** The walk as a fold over the ancestors. *)
Fixpoint collect (path : list ancestor) (h : TiledResizeHandle) : option TiledResizeHandle :=
  match path with
  | [] => Some h
  | a :: path =>
      if divider_grabbed edges (anc_axis a) (anc_first a) then
        match handle_slot (anc_axis a) h with
        | Some _ => collect path h
        | None => s ← start (anc_id a) (anc_axis a) (anc_ratio a); collect path (set_slot (anc_axis a) s h)
        end
      else collect path h
  end.

Lemma collect_app p q h : collect (p ++ q) h = (collect p h ≫= collect q).
Proof.
  revert h. induction p as [|a p IH]; intros h; cbn; [done|].
  destruct (divider_grabbed _ _ _); [|apply IH]. destruct (handle_slot _ h); [apply IH|].
  destruct (start _ _ _); [apply IH|done].
Qed.

Lemma parent_of_rep p b :
  rep (arena_get (nodes tree)) p b -> parent_of tree (broot b) = Some p.
Proof. intros H. unfold parent_of. apply rep_root in H as [k ->]. done. Qed.

(** One step of the walk, from the root of a child to the split. *)
Lemma walk_up_step fuel p i ax ra l r (side : bool) h :
  rep (arena_get (nodes tree)) p (BSplit i ax ra l r) -> broot l <> broot r ->
  walk_up (S fuel) tree edges start (if side then broot l else broot r) h =
  match collect [mkAncestor i ax ra side] h with
  | Some h' => walk_up fuel tree edges start i h'
  | None => Ret None
  end.
Proof.
  intros Hrep Hne. pose proof (node_kind_rep _ _ _ Hrep) as Hk. destruct Hrep as (_ & Hl & Hr).
  cbn [walk_up broot] in *.
  assert (parent_of tree (if side then broot l else broot r) = Some (Some i)) as ->
    by (destruct side; by eapply parent_of_rep).
  rewrite Hk. assert (bool_decide (broot l = (if side then broot l else broot r)) = side) as ->.
  { destruct side; [by apply bool_decide_eq_true|by apply bool_decide_eq_false]. }
  cbn [collect anc_axis anc_first anc_id anc_ratio]. destruct (divider_grabbed edges ax side); [|done].
  destruct (handle_slot ax h); [done|]. by destruct (start i ax ra).
Qed.

Lemma walk_up_subtree p b id path fuel h :
  rep (arena_get (nodes tree)) p b -> NoDup (bids b) -> ancestors id b = Some path ->
  walk_up (length path + fuel) tree edges start id h =
  match collect path h with Some h' => walk_up fuel tree edges start (broot b) h' | None => Ret None end.
Proof.
  revert p path fuel h. induction b as [i w|i ax ra l IHl r IHr]; intros p path fuel h Hrep Hnd Hp; cbn [ancestors] in Hp.
  - destruct (decide (i = id)) as [->|]; [|done]. by injection Hp as <-.
  - pose proof Hrep as (_ & Hl & Hr). cbn [bids] in Hnd. apply list.NoDup_cons in Hnd as [_ Hnd].
    apply list.NoDup_app in Hnd as (Nl & Nlr & Nr).
    assert (Hne : broot l <> broot r) by (intros E; apply (Nlr (broot l)); [apply broot_in|rewrite E; apply broot_in]).
    destruct (ancestors id l) as [q|] eqn:El.
    + injection Hp as <-. rewrite length_app, collect_app. cbn [length].
      replace (length q + 1 + fuel)%nat with (length q + S fuel)%nat by lia.
      rewrite (IHl _ _ (S fuel) h Hl Nl eq_refl). destruct (collect q h) as [h1|]; [|done].
      exact (walk_up_step fuel p i ax ra l r true h1 Hrep Hne).
    + destruct (ancestors id r) as [q|] eqn:Er; [|done]. cbn in Hp. injection Hp as <-.
      rewrite length_app, collect_app. cbn [length].
      replace (length q + 1 + fuel)%nat with (length q + S fuel)%nat by lia.
      rewrite (IHr _ _ (S fuel) h Hr Nr eq_refl). destruct (collect q h) as [h1|]; [|done].
      exact (walk_up_step fuel p i ax ra l r false h1 Hrep Hne).
Qed.

Lemma ancestors_leaf id w b : (w, id) ∈ bleaves b -> exists path, ancestors id b = Some path.
Proof.
  induction b as [i v|i ax ra l IHl r IHr]; cbn; intros H.
  - apply list_elem_of_singleton in H as [= -> ->]. rewrite decide_True by done. eauto.
  - destruct (ancestors id l); [eauto|]. apply elem_of_app in H as [H|H]; [by destruct (IHl H)|].
    destruct (IHr H) as [q ->]. cbn. eauto.
Qed.

Lemma ancestors_length id b path : ancestors id b = Some path -> (length path < bdepth b)%nat.
Proof.
  revert path. induction b as [i v|i ax ra l IHl r IHr]; intros path; cbn.
  - destruct (decide _); [|done]. intros [= <-]. cbn. lia.
  - destruct (ancestors id l) as [q|].
    + intros [= <-]. rewrite length_app. cbn. specialize (IHl q eq_refl). lia.
    + destruct (ancestors id r) as [q|]; [|done]. intros [= <-]. rewrite length_app. cbn.
      specialize (IHr q eq_refl). lia.
Qed.

(** The walk from a window to the root. *)
Lemma walk_up_spec b id w h :
  tree_rep tree (Some b) -> (w, id) ∈ bleaves b ->
  exists path, ancestors id b = Some path /\ walk_up (tree_fuel tree) tree edges start id h = Ret (collect path h).
Proof.
  intros Ht Hin. destruct (tree_rep_stores tree b Ht) as (Hr & Hrep & Hnd & _).
  destruct (ancestors_leaf id w b Hin) as [path Hp]. exists path. split; [done|].
  pose proof (ancestors_length _ _ _ Hp). pose proof (bids_bound _ _ _ Hrep Hnd). pose proof (bdepth_bids b).
  assert (Hf : exists fuel, tree_fuel tree = (length path + S fuel)%nat).
  { exists (tree_fuel tree - length path - 1)%nat. unfold tree_fuel. lia. }
  destruct Hf as [fuel ->]. rewrite (walk_up_subtree None b id path (S fuel) h Hrep Hnd Hp).
  destruct (collect path h) as [h'|]; [|done]. cbn [walk_up]. by rewrite (parent_of_rep None b Hrep).
Qed.
End Walk.

Lemma nearest_cons edges axis a path :
  nearest edges axis (a :: path) = if decide (grabbed edges axis a) then Some a else nearest edges axis path.
Proof.
  unfold nearest. cbn [list_find]. destruct (decide _); [done|]. by destruct (list_find _ path) as [[]|].
Qed.

Lemma handle_slot_set axis axis' s h :
  handle_slot axis (set_slot axis' s h) = if decide (axis' = axis) then Some s else handle_slot axis h.
Proof. by destruct axis, axis'. Qed.

(** With a description that never gives up, the fold finds the nearest
    divider of each axis. *)
Lemma collect_nearest edges f path h :
  exists h', collect edges (fun i ax ra => Some (f i ax ra)) path h = Some h' /\
  forall axis, handle_slot axis h' =
    match handle_slot axis h with
    | Some a => Some a
    | None => (fun a => f (anc_id a) (anc_axis a) (anc_ratio a)) <$> nearest edges axis path
    end.
Proof.
  revert h. induction path as [|a path IH]; intros h; cbn [collect].
  - exists h. split; [done|]. intros axis. by destruct (handle_slot axis h).
  - destruct (divider_grabbed edges (anc_axis a) (anc_first a)) eqn:Eg.
    + destruct (handle_slot (anc_axis a) h) as [s|] eqn:Es; cbn [mbind option_bind].
      * destruct (IH h) as (h' & E & Hh). exists h'. split; [done|]. intros axis. rewrite Hh, nearest_cons.
        destruct (decide (anc_axis a = axis)) as [<-|Hne]; [by rewrite Es|].
        rewrite (decide_False (P := grabbed _ _ _)); [done|]. by intros [? _].
      * destruct (IH (set_slot (anc_axis a) (f (anc_id a) (anc_axis a) (anc_ratio a)) h)) as (h' & E & Hh).
        exists h'. split; [done|]. intros axis. rewrite Hh, nearest_cons, handle_slot_set.
        destruct (decide (anc_axis a = axis)) as [<-|Hne].
        -- by rewrite Es, (decide_True (P := grabbed _ _ _)) by done.
        -- rewrite (decide_False (P := grabbed _ _ _)); [done|]. by intros [? _].
    + destruct (IH h) as (h' & E & Hh). exists h'. split; [done|]. intros axis. rewrite Hh, nearest_cons.
      rewrite (decide_False (P := grabbed _ _ _)); [done|]. intros [_ Hg]. congruence.
Qed.

(** The divider an edge grabs. For a window of a stored tree,
    [for_window] ends and finds, on each axis, the nearest split above the
    window whose divider lies on a grabbed edge, with its ratio and the
    boundary it has in the work area; no such split on either axis is
    [None], as is an unknown window. *)
Theorem for_window_nearest tree b w edges area :
  tree_rep tree (Some b) ->
  match leaf_for_window tree w with
  | None => for_window tree w edges area = Ret None
  | Some leaf => exists path, ancestors leaf b = Some path /\
      let divider axis := (fun a => mkAxis (anc_id a) (anc_axis a) (anc_ratio a) area
                             (split_boundary area (anc_axis a) (anc_ratio a))) <$> nearest edges axis path in
      for_window tree w edges area = Ret (finish (Some (mkHandle (divider Horizontal) (divider Vertical))))
  end.
Proof.
  intros Ht. unfold for_window. destruct (leaf_for_window tree w) as [leaf|] eqn:El; [|done].
  assert (Hin : (w, leaf) ∈ bleaves b) by (by apply (tree_rep_stores tree b Ht)).
  destruct (walk_up_spec tree edges
    (fun par axis ratio => Some (mkAxis par axis ratio area (split_boundary area axis ratio)))
    b leaf w (mkHandle None None) Ht Hin) as (path & Hp & E).
  exists path. split; [done|]. cbn zeta. rewrite E. cbn [mbind res_bind].
  destruct (collect_nearest edges (fun i ax ra => mkAxis i ax ra area (split_boundary area ax ra)) path
    (mkHandle None None)) as ([hh hv] & Ec & Hs).
  rewrite Ec. pose proof (Hs Horizontal) as H1. pose proof (Hs Vertical) as H2. cbn in H1, H2.
  by rewrite <- H1, <- H2.
Qed.

Lemma for_window_nearest_witness :
  exists b, tree_rep demo_tree (Some b) /\
  for_window demo_tree 1 ResizeEdges_RIGHT demo_area = Ret (Some (mkHandle
    (Some (mkAxis (mkNodeId 4 1) Horizontal SplitRatio_DEFAULT demo_area 960)) None)) /\
  exists path, ancestors (mkNodeId 0 1) b = Some path.
Proof.
  destruct (tree_steps_rep 4 demo_tree) as [[[b|] Hb] _];
    [repeat apply steps_step; apply steps_refl|vm_compute; reflexivity| |].
  - exists b. split; [exact Hb|]. split; [vm_compute; reflexivity|].
    pose proof (for_window_nearest demo_tree b 1 ResizeEdges_RIGHT demo_area Hb) as H.
    change (leaf_for_window demo_tree 1) with (Some (mkNodeId 0 1)) in H. cbv iota in H.
    destruct H as (path & Hp & _). exists path. exact Hp.
  - apply abs_rep in Hb. vm_compute in Hb. discriminate Hb.
Defined.
