(* ===== verification/Buffering.v ===== *)
(** * Buffering: presentation opportunities and future-frame credit

    Models src/native/buffering/{mod,credit}.rs, src/native/presentation_timing.rs
    and the timestamp type of src/native/presentation_deadline.rs. A
    presentation opportunity is one refresh of one clock generation; the
    credit controller decides whether the output may own one or two future
    frames, with hysteresis on the way down. *)

From stdpp Require Import base list.
From Stdlib Require Import ZArith Lia.
From S2P Require Import Prelude.

(** ** Time

    A [MonotonicTimestampNs] is a [u64] of nanoseconds; a [Duration] is its
    number of nanoseconds, which may exceed a [u64]. *)
Abbreviation MonotonicTimestampNs := Z.
Abbreviation Duration := Z.

Definition duration_ns (duration : Duration) : Z := Z.min duration u64_max.
Definition ts_checked_add (t : MonotonicTimestampNs) (d : Duration) : option MonotonicTimestampNs :=
  checked_add u64_max t (duration_ns d).
Definition ts_saturating_sub_duration (t : MonotonicTimestampNs) (d : Duration)
  : MonotonicTimestampNs := sat_sub t (duration_ns d).

Inductive PresentationDomain : Type := DomainFixedVsync | DomainVrrWindow | DomainAsyncImmediate.

Inductive PresentationTiming : Type :=
| FixedVsync (target_time : MonotonicTimestampNs) (refresh_interval : Duration)
| VrrWindow (anchor earliest_present : MonotonicTimestampNs)
    (presentation_not_before : option MonotonicTimestampNs)
    (preferred_present : MonotonicTimestampNs)
    (service_deadline : option MonotonicTimestampNs)
    (shortest_interval : Duration) (longest_interval : option Duration)
| AsyncImmediate (not_before : MonotonicTimestampNs).

Definition timing_domain (t : PresentationTiming) : PresentationDomain :=
  match t with
  | FixedVsync _ _ => DomainFixedVsync
  | VrrWindow _ _ _ _ _ _ _ => DomainVrrWindow
  | AsyncImmediate _ => DomainAsyncImmediate
  end.

(** ** Opportunities *)

Record PresentationOpportunityId : Type := mkOpportunityId {
  clock_generation : Z;
  sequence : Z
}.
#[export] Instance PresentationOpportunityId_eq_dec : EqDecision PresentationOpportunityId.
Proof. solve_decision. Defined.

(** The derived [Ord]: lexicographic, generation first. *)
Definition id_ltb (a b : PresentationOpportunityId) : bool :=
  (clock_generation a <? clock_generation b)
  || ((clock_generation a =? clock_generation b) && (sequence a <? sequence b)).
(** [a.max(b)]: [b] unless [a] is greater. *)
Definition id_max (a b : PresentationOpportunityId) : PresentationOpportunityId :=
  if id_ltb b a then a else b.

Record PresentationOpportunity : Type := mkOpportunity {
  opp_id : PresentationOpportunityId;
  opp_timing : PresentationTiming
}.

Definition fixed_vsync (id : PresentationOpportunityId) (target_time : MonotonicTimestampNs)
  (refresh_interval : Duration) : PresentationOpportunity :=
  mkOpportunity id (FixedVsync target_time refresh_interval).

Definition opportunity_domain (o : PresentationOpportunity) : PresentationDomain :=
  timing_domain (opp_timing o).

Definition fixed_vsync_successor (o : PresentationOpportunity) : option PresentationOpportunity :=
  match opp_timing o with
  | FixedVsync target_time refresh_interval =>
      next ← checked_add u64_max (sequence (opp_id o)) 1;
      let id := mkOpportunityId (clock_generation (opp_id o)) next in
      target_time ← ts_checked_add target_time refresh_interval;
      Some (mkOpportunity id (FixedVsync target_time refresh_interval))
  | _ => None
  end.

Inductive OpportunityLeaseReason : Type :=
  LeaseVisualWork | LeaseRenderAhead | LeaseCommitTiming | LeaseRecovery | LeaseForcedValidation.
Inductive OpportunityLeaseTermination : Type :=
  UnreachableBeforeRender | ConstraintAdvanced | OutputGenerationChanged
| PresentationDomainChanged | RenderFailed.

Record OpportunityLease : Type := mkLease {
  lease_opportunity : PresentationOpportunity;
  lease_reason : OpportunityLeaseReason;
  lease_terminal : option OpportunityLeaseTermination
}.

Definition lease_arm (o : PresentationOpportunity) (r : OpportunityLeaseReason) : OpportunityLease :=
  mkLease o r None.
Definition lease_is_terminal (l : OpportunityLease) : bool :=
  match lease_terminal l with Some _ => true | None => false end.
Definition lease_abandon (r : OpportunityLeaseTermination) (l : OpportunityLease)
  : OpportunityLease := mkLease (lease_opportunity l) (lease_reason l) (Some r).

(** ** The frontier of live claims *)

Inductive FrontierError : Type :=
| DuplicateLiveClaim (claim : PresentationOpportunityId)
| MixedClockGeneration.

(** One iteration of [from_claims]'s loop on [frontier.latest]. *)
Definition frontier_step (latest : option PresentationOpportunityId)
  (claim : PresentationOpportunityId)
  : res FrontierError (option PresentationOpportunityId) :=
  match latest with
  | Some l =>
      if negb (clock_generation l =? clock_generation claim) then Fail MixedClockGeneration
      else if decide (l = claim) then Fail (DuplicateLiveClaim claim)
      else Ret (Some (id_max l claim))
  | None => Ret (Some claim)
  end.

Fixpoint frontier_loop (latest : option PresentationOpportunityId)
  (claims : list PresentationOpportunityId)
  : res FrontierError (option PresentationOpportunityId) :=
  match claims with
  | [] => Ret latest
  | claim :: claims => latest ← frontier_step latest claim; frontier_loop latest claims
  end.
Definition from_claims (claims : list PresentationOpportunityId)
  : res FrontierError (option PresentationOpportunityId) := frontier_loop None claims.

(** ** Service estimates *)

Record PipelineServiceEstimate : Type := mkServiceEstimate {
  main_wake_guard_ns : Z;
  render_risk_ns : Z;
  kms_dispatch_budget_ns : Z;
  kms_apply_guard_ns : Z;
  selected_end_to_end_service_ns : Z
}.

Definition PipelineServiceEstimate_new (wake risk dispatch apply : Z) : PipelineServiceEstimate :=
  mkServiceEstimate wake risk dispatch apply
    (sat_add u64_max (sat_add u64_max (sat_add u64_max wake risk) dispatch) apply).

Definition with_selected_end_to_end_service_ns (selected : Z) (e : PipelineServiceEstimate)
  : PipelineServiceEstimate :=
  mkServiceEstimate (main_wake_guard_ns e) (render_risk_ns e) (kms_dispatch_budget_ns e)
    (kms_apply_guard_ns e) selected.

Definition render_ready_service_ns (e : PipelineServiceEstimate) : Z :=
  sat_add u64_max (main_wake_guard_ns e) (render_risk_ns e).
Definition kms_lead_ns (e : PipelineServiceEstimate) : Z :=
  sat_add u64_max (kms_dispatch_budget_ns e) (kms_apply_guard_ns e).
Definition latest_successor_render_start (e : PipelineServiceEstimate)
  (successor_presentation : MonotonicTimestampNs) : MonotonicTimestampNs :=
  sat_sub successor_presentation (selected_end_to_end_service_ns e).
Definition overlap_required_ns (e : PipelineServiceEstimate)
  (predecessor_presentation successor_presentation : MonotonicTimestampNs) : Z :=
  sat_sub predecessor_presentation (latest_successor_render_start e successor_presentation).
Definition successor_slack_ns (e : PipelineServiceEstimate)
  (predecessor_presentation successor_presentation : MonotonicTimestampNs) : Z :=
  sat_sub (latest_successor_render_start e successor_presentation) predecessor_presentation.

(** ** The credit controller *)

Definition CLEAN_RELEASE_OPPORTUNITIES : Z := 10.

Inductive O1CreditDemandReason : Type :=
  PredictedOverlap | ProvenRenderReadinessMiss | ForcedValidationDemand.

Record O1CreditDemandController : Type := mkCredit {
  desired_credit : Z;
  ceiling : Z;
  clean_release_streak : Z;
  demand_reason : option O1CreditDemandReason;
  last_observed_opportunity : option PresentationOpportunityId;
  grants : Z;
  revokes : Z
}.

Definition clamp_credit_ceiling (c : Z) : Z := if c <? 1 then 1 else if 2 <? c then 2 else c.

Definition with_ceiling (c : Z) : O1CreditDemandController :=
  mkCredit 1 (clamp_credit_ceiling c) 0 None None 0 0.
Definition credit_new : O1CreditDemandController := with_ceiling 2.

Definition reset_streak (c : O1CreditDemandController) : O1CreditDemandController :=
  mkCredit (desired_credit c) (ceiling c) 0 (demand_reason c) (last_observed_opportunity c)
    (grants c) (revokes c).
(** The four assignments that take the second credit back. *)
Definition revoke_to (credit : Z) (c : O1CreditDemandController) : O1CreditDemandController :=
  mkCredit credit (ceiling c) 0 None (last_observed_opportunity c) (grants c)
    (sat_add u64_max (revokes c) 1).

Definition grant (reason : O1CreditDemandReason) (c : O1CreditDemandController)
  : O1CreditDemandController :=
  let c := reset_streak c in
  let c :=
    if desired_credit c <? ceiling c
    then mkCredit (ceiling c) (ceiling c) (clean_release_streak c) (demand_reason c)
           (last_observed_opportunity c) (sat_add u64_max (grants c) 1) (revokes c)
    else c in
  if desired_credit c =? 2
  then mkCredit (desired_credit c) (ceiling c) (clean_release_streak c) (Some reason)
         (last_observed_opportunity c) (grants c) (revokes c)
  else c.

Definition observe_slack (overlap : Z) (positive_reason : option O1CreditDemandReason)
  (c : O1CreditDemandController) : O1CreditDemandController :=
  if 0 <? overlap then
    let c := reset_streak c in
    match positive_reason with Some reason => grant reason c | None => c end
  else if desired_credit c =? 1 then reset_streak c
  else
    let streak :=
      Z.min (sat_add u8_max (clean_release_streak c) 1) CLEAN_RELEASE_OPPORTUNITIES in
    let c := mkCredit (desired_credit c) (ceiling c) streak (demand_reason c)
               (last_observed_opportunity c) (grants c) (revokes c) in
    if CLEAN_RELEASE_OPPORTUNITIES <=? streak then revoke_to 1 c else c.

Definition observe_opportunity_with_slack (opportunity : PresentationOpportunityId)
  (overlap slack release_band : Z) (c : O1CreditDemandController) : O1CreditDemandController :=
  if decide (last_observed_opportunity c = Some opportunity) then c
  else
    let c := mkCredit (desired_credit c) (ceiling c) (clean_release_streak c) (demand_reason c)
               (Some opportunity) (grants c) (revokes c) in
    if (overlap =? 0) && (desired_credit c =? 2) && (slack <? release_band)
    then reset_streak c
    else observe_slack overlap (Some PredictedOverlap) c.

Definition observe_opportunity (opportunity : PresentationOpportunityId) (overlap : Z)
  : O1CreditDemandController -> O1CreditDemandController :=
  observe_opportunity_with_slack opportunity overlap u64_max 0.
Definition observe_overlap (overlap : Z) : O1CreditDemandController -> O1CreditDemandController :=
  observe_slack overlap (Some PredictedOverlap).
Definition observe_render_readiness_miss (c : O1CreditDemandController)
  : O1CreditDemandController := grant ProvenRenderReadinessMiss (reset_streak c).
Definition force (c : O1CreditDemandController) : O1CreditDemandController :=
  grant ForcedValidationDemand (reset_streak c).
Definition set_ceiling (ceil : Z) (c : O1CreditDemandController) : O1CreditDemandController :=
  let c := mkCredit (desired_credit c) (clamp_credit_ceiling ceil) (clean_release_streak c)
             (demand_reason c) (last_observed_opportunity c) (grants c) (revokes c) in
  if ceiling c <? desired_credit c then revoke_to (ceiling c) c else c.

(** Any call on the controller. *)
Inductive CreditOp : Type :=
| OpObserve (opportunity : PresentationOpportunityId) (overlap slack band : Z)
| OpOverlap (overlap : Z)
| OpMiss
| OpForce
| OpSetCeiling (ceil : Z).

Definition credit_step (c : O1CreditDemandController) (op : CreditOp) : O1CreditDemandController :=
  match op with
  | OpObserve o overlap slack band => observe_opportunity_with_slack o overlap slack band c
  | OpOverlap overlap => observe_overlap overlap c
  | OpMiss => observe_render_readiness_miss c
  | OpForce => force c
  | OpSetCeiling ceil => set_ceiling ceil c
  end.
Definition credit_run (c : O1CreditDemandController) (ops : list CreditOp)
  : O1CreditDemandController := foldl credit_step c ops.

(** ** Invariant *)

Record credit_ok (c : O1CreditDemandController) : Prop := {
  credit_range : 1 <= desired_credit c <= ceiling c /\ ceiling c <= 2;
  streak_range : 0 <= clean_release_streak c < CLEAN_RELEASE_OPPORTUNITIES;
  streak_held : desired_credit c = 1 -> clean_release_streak c = 0;
  reason_held : is_Some (demand_reason c) <-> desired_credit c = 2
}.

(** The counters after [n] calls: nothing saturated, and every grant but the
    one still held was revoked. *)
Definition credit_balance (n : Z) (c : O1CreditDemandController) : Prop :=
  0 <= revokes c /\ grants c <= n /\ grants c = revokes c + (desired_credit c - 1).

Ltac credit_unfold := unfold credit_step, observe_opportunity_with_slack, observe_overlap,
  observe_render_readiness_miss, force, set_ceiling, observe_slack, grant, revoke_to,
  reset_streak, clamp_credit_ceiling, CLEAN_RELEASE_OPPORTUNITIES, sat_add, u8_max, u64_max in *.

(** Decide the branches of one controller call. *)
Ltac credit_branches :=
  repeat (first [progress cbn in * | case_decide
    | match goal with
      | |- context [if ?b then _ else _] => let E := fresh "E" in destruct b eqn:E
      end]).

Ltac bool_facts :=
  repeat match goal with
  | H : (_ && _) = true |- _ => apply andb_prop in H as [? ?]
  | H : (_ <? _) = true |- _ => apply Z.ltb_lt in H
  | H : (_ <? _) = false |- _ => apply Z.ltb_ge in H
  | H : (_ <=? _) = true |- _ => apply Z.leb_le in H
  | H : (_ <=? _) = false |- _ => apply Z.leb_gt in H
  | H : (_ =? _) = true |- _ => apply Z.eqb_eq in H
  | H : (_ =? _) = false |- _ => apply Z.eqb_neq in H
  end.

Lemma credit_step_ok c op : credit_ok c -> credit_ok (credit_step c op).
Proof.
  intros [[H1 H2] H3 H4 H5]. destruct c as [d ce st re la g r]; cbn in *.
  assert (Hre : d = 1 -> re = None).
  { intros ->. destruct re; [|done]. destruct H5 as [H5 _]. specialize (H5 ltac:(eauto)). lia. }
  destruct op; credit_unfold; credit_branches; bool_facts; split; cbn;
    unfold CLEAN_RELEASE_OPPORTUNITIES;
    first [lia | tauto | split; [intros [? ?]; first [discriminate | lia] | intros; eauto; lia]
          | split; [intros _; lia | intros; eauto]
          | rewrite Hre by lia; split; [intros [? ?]; discriminate | lia] | idtac].
Qed.

Lemma credit_step_balance c op n :
  credit_ok c -> 0 <= n < u64_max -> credit_balance n c -> credit_balance (n + 1) (credit_step c op).
Proof.
  intros [[H1 H2] H3 H4 H5] Hn (H6 & H7 & H8). destruct c as [d ce st re la g r]; cbn in *.
  unfold credit_balance.
  destruct op; credit_unfold; credit_branches; bool_facts; lia.
Qed.

Lemma credit_run_ok c ops n :
  credit_ok c -> 0 <= n -> n + Z.of_nat (length ops) <= u64_max -> credit_balance n c ->
  credit_ok (credit_run c ops) /\ credit_balance (n + Z.of_nat (length ops)) (credit_run c ops).
Proof.
  revert c n. induction ops as [|op ops IH]; intros c n Hc Hn Hl Hb; cbn [length] in *.
  - cbn. rewrite Z.add_0_r. done.
  - change (credit_run c (op :: ops)) with (credit_run (credit_step c op) ops).
    replace (n + Z.of_nat (S (length ops))) with (n + 1 + Z.of_nat (length ops)) in * by lia.
    apply IH; [by apply credit_step_ok|lia|lia|apply credit_step_balance; (done || lia)].
Qed.

Lemma with_ceiling_ok c : credit_ok (with_ceiling c) /\ credit_balance 0 (with_ceiling c).
Proof.
  unfold with_ceiling, clamp_credit_ceiling, credit_balance.
  split; [split; cbn; unfold CLEAN_RELEASE_OPPORTUNITIES; zcase; try done; try lia|cbn; lia].
  all: split; [intros [? ?]; discriminate | lia].
Qed.

(** ** Hysteresis *)

(** An observation of one opportunity. *)
Record Observation : Type := mkObservation {
  obs_id : PresentationOpportunityId;
  obs_overlap : Z;
  obs_slack : Z;
  obs_band : Z
}.
Definition obs_clean (o : Observation) : bool :=
  (obs_overlap o =? 0) && negb (obs_slack o <? obs_band o).
Definition observe (c : O1CreditDemandController) (o : Observation) : O1CreditDemandController :=
  credit_step c (OpObserve (obs_id o) (obs_overlap o) (obs_slack o) (obs_band o)).

(** The number of clean opportunities in a row at the end of a history that
    starts with [run] of them; a repeated report of the opportunity seen last
    does not count. *)
Fixpoint clean_run (last : option PresentationOpportunityId) (run : Z) (h : list Observation) : Z :=
  match h with
  | [] => run
  | o :: h =>
      if decide (last = Some (obs_id o)) then clean_run last run h
      else clean_run (Some (obs_id o)) (if obs_clean o then run + 1 else 0) h
  end.

(** What one observation does to a held credit. *)
Lemma observe_held c o :
  credit_ok c -> desired_credit c = 2 -> 0 <= obs_overlap o ->
  let c' := observe c o in
  if decide (last_observed_opportunity c = Some (obs_id o)) then c' = c
  else
    last_observed_opportunity c' = Some (obs_id o) /\
    let run := if obs_clean o then clean_release_streak c + 1 else 0 in
    if run <? 10 then desired_credit c' = 2 /\ clean_release_streak c' = run /\
                      revokes c' = revokes c
    else desired_credit c' = 1 /\ demand_reason c' = None /\
         revokes c' = sat_add u64_max (revokes c) 1.
Proof.
  intros [[H1 H2] H3 H4 H5] Hd Ho. destruct c as [d ce st re la g r]; cbn in *. subst d.
  unfold observe, obs_clean. credit_unfold. credit_branches; bool_facts; cbn in *; try done;
    zcase; split; try done; try lia.
Qed.

Lemma observe_app c h o : foldl observe c (h ++ [o]) = observe (foldl observe c h) o.
Proof. by rewrite foldl_app. Qed.

Lemma observe_all_held c h :
  credit_ok c -> desired_credit c = 2 -> Forall (fun o => 0 <= obs_overlap o) h ->
  (forall k, (k <= length h)%nat ->
     clean_run (last_observed_opportunity c) (clean_release_streak c) (take k h) < 10) ->
  let c' := foldl observe c h in
  credit_ok c' /\ desired_credit c' = 2 /\ revokes c' = revokes c /\
  (forall h', clean_run (last_observed_opportunity c) (clean_release_streak c) (h ++ h') =
              clean_run (last_observed_opportunity c') (clean_release_streak c') h').
Proof.
  revert c. induction h as [|o h IH]; intros c Hc Hd Hh Hk; cbn [foldl app]; [done|].
  apply list.Forall_cons in Hh as [Ho Hh].
  pose proof (observe_held c o Hc Hd Ho) as Hs. cbn zeta in Hs.
  pose proof (Hk 1%nat ltac:(cbn; lia)) as H1. cbn in H1.
  assert (Hk' : forall k, (k <= length h)%nat -> _) by (intros k Hk'; exact (Hk (S k) ltac:(cbn; lia))).
  cbn in Hk'. cbn [clean_run].
  destruct (decide (last_observed_opportunity c = Some (obs_id o))) as [E|E].
  - rewrite Hs. by apply IH.
  - destruct Hs as [Hl Hs]. rewrite take_0 in H1. cbn in H1.
    destruct (Z.ltb_spec (if obs_clean o then clean_release_streak c + 1 else 0) 10); [|lia].
    destruct Hs as (Hd' & Hst & Hr). rewrite <- Hl, <- Hst, <- Hr in *.
    apply IH; [by apply credit_step_ok|done|done|done].
Qed.

(** ** The frontier *)

Lemma id_max_cases a b :
  clock_generation a = clock_generation b ->
  clock_generation (id_max a b) = clock_generation b /\
  sequence (id_max a b) = Z.max (sequence a) (sequence b) /\
  (id_max a b = a \/ id_max a b = b).
Proof.
  intros H. unfold id_max, id_ltb. rewrite H, Z.ltb_irrefl, Z.eqb_refl. cbn.
  zcase; repeat split; auto; lia.
Qed.

Lemma frontier_loop_spec claims : forall latest l,
  frontier_loop latest claims = Ret (Some l) ->
  (latest = Some l \/ l ∈ claims) /\
  (forall c, latest = Some c \/ c ∈ claims ->
     clock_generation c = clock_generation l /\ sequence c <= sequence l).
Proof.
  induction claims as [|x claims IH]; intros latest l; cbn [frontier_loop].
  - intros [= ->]. split; [by left|]. intros c [[= ->]|Hc]; [lia|by apply elem_of_nil in Hc].
  - intros [y [H Hl]]%bind_Ret. apply IH in Hl as [Hin Hle].
    unfold frontier_step in H. destruct latest as [m|].
    + destruct (Z.eqb_spec (clock_generation m) (clock_generation x)) as [Eg|]; [|done].
      cbn in H. case_decide; [done|]. injection H as <-.
      destruct (id_max_cases m x Eg) as (Hg & Hs & Hm).
      destruct (Hle _ (or_introl eq_refl)) as [Hg' Hs'].
      split.
      * destruct Hin as [[= <-]|]; [|right; by constructor].
        destruct Hm as [->| ->]; [by left|right; by left].
      * intros c [[= <-]|Hc]; [split; [congruence|lia]|].
        apply elem_of_cons in Hc as [->|Hc]; [split; [congruence|lia]|by apply Hle; right].
    + injection H as <-. split.
      * destruct Hin as [[= ->]|]; right; [by left|by right].
      * intros c [|Hc]; [done|]. apply elem_of_cons in Hc as [->|Hc]; apply Hle; auto.
Qed.

(** An accepted set of live claims is of one clock generation, and the
    frontier is its greatest member. *)
Lemma from_claims_greatest claims l :
  from_claims claims = Ret (Some l) ->
  l ∈ claims /\ forall c, c ∈ claims ->
    clock_generation c = clock_generation l /\ sequence c <= sequence l.
Proof.
  intros H. apply frontier_loop_spec in H as [[|Hin] Hle]; [done|]. split; auto.
Qed.

(** A duplicate that is not the greatest claim so far passes, although a
    duplicate of the greatest one is reported. *)
Lemma smaller_duplicate_claim_accepted :
  from_claims [mkOpportunityId 1 5; mkOpportunityId 1 7; mkOpportunityId 1 5]
    = Ret (Some (mkOpportunityId 1 7)) /\
  from_claims [mkOpportunityId 1 7; mkOpportunityId 1 5; mkOpportunityId 1 7]
    = Fail (DuplicateLiveClaim (mkOpportunityId 1 7)).
Proof. by vm_compute. Qed.

(** ** Properties *)

(** Whatever calls the credit controller receives, the credit stays
    between 1 and its ceiling of at most 2, a reason is recorded exactly while
    the second credit is held, the release streak stays below its horizon and
    is zero without a second credit, and (for fewer calls than a [u64] counts)
    the grants exceed the revocations by exactly the credit held. *)
Theorem credit_controller_invariant (ceil : Z) (ops : list CreditOp)
  (Hlen : Z.of_nat (length ops) <= u64_max) :
  let c := credit_run (with_ceiling ceil) ops in
  credit_ok c /\ grants c = revokes c + (desired_credit c - 1).
Proof.
  destruct (with_ceiling_ok ceil) as [Hok Hb].
  destruct (credit_run_ok (with_ceiling ceil) ops 0) as [H1 (_ & _ & H2)]; (done || lia).
Qed.

Definition demo_ops : list CreditOp :=
  [OpOverlap 5; OpObserve (mkOpportunityId 1 1) 0 100 10; OpSetCeiling 1; OpMiss;
   OpSetCeiling 2; OpForce].
Lemma credit_controller_invariant_witness :
  let c := credit_run (with_ceiling 7) demo_ops in
  (credit_ok c /\ grants c = revokes c + (desired_credit c - 1)) /\ grants c = 2.
Proof. split; [apply credit_controller_invariant; vm_compute; discriminate|reflexivity]. Defined.

(** Hysteresis. A held second credit survives every history of
    observations without ten clean opportunities in a row, where repeated
    reports of one opportunity count once and a clean opportunity whose slack
    is inside the release band counts as not clean; the observation that
    completes ten in a row releases it, clears its reason and counts one
    revocation. *)
Theorem credit_released_after_ten_clean (c : O1CreditDemandController) (h : list Observation)
  (o : Observation) (Hok : credit_ok c) (Hd : desired_credit c = 2)
  (Hh : Forall (fun o => 0 <= obs_overlap o) (h ++ [o]))
  (Hrun : forall k, (k <= length h)%nat ->
     clean_run (last_observed_opportunity c) (clean_release_streak c) (take k h) < 10) :
  desired_credit (foldl observe c h) = 2 /\
  let c' := foldl observe c (h ++ [o]) in
  if clean_run (last_observed_opportunity c) (clean_release_streak c) (h ++ [o]) <? 10
  then desired_credit c' = 2 /\ revokes c' = revokes c
  else desired_credit c' = 1 /\ demand_reason c' = None /\
       revokes c' = sat_add u64_max (revokes c) 1.
Proof.
  apply list.Forall_app in Hh as [Hh Ho]. apply list.Forall_cons in Ho as [Ho _].
  destruct (observe_all_held c h Hok Hd Hh Hrun) as (Hok' & Hd' & Hr & Happ).
  split; [done|]. cbn zeta. rewrite observe_app, Happ, <- Hr.
  pose proof (observe_held _ o Hok' Hd' Ho) as Hs. cbn zeta in Hs. cbn [clean_run].
  destruct (decide _) as [E|E].
  - rewrite Hs. destruct Hok' as [_ Hst _ _]. unfold CLEAN_RELEASE_OPPORTUNITIES in Hst.
    destruct (Z.ltb_spec (clean_release_streak (foldl observe c h)) 10); [done|lia].
  - destruct Hs as [_ Hs]. destruct (_ <? 10); [|exact Hs]. destruct Hs as (? & _ & ?). done.
Qed.

Definition clean_obs (n : Z) : Observation := mkObservation (mkOpportunityId 1 n) 0 u64_max 0.
Lemma credit_released_after_ten_clean_witness :
  let c := observe_overlap 1 credit_new in
  let h := clean_obs <$> [1; 2; 2; 3; 4; 5; 6; 7; 8; 9] in
  desired_credit (foldl observe c h) = 2 /\
  desired_credit (foldl observe c (h ++ [clean_obs 10])) = 1.
Proof.
  destruct (credit_released_after_ten_clean (observe_overlap 1 credit_new)
    (clean_obs <$> [1; 2; 2; 3; 4; 5; 6; 7; 8; 9]) (clean_obs 10)) as [H1 H2].
  - apply (credit_step_ok credit_new (OpOverlap 1)), with_ceiling_ok.
  - reflexivity.
  - cbn. repeat constructor; cbn; lia.
  - cbn [length fmap list_fmap]. intros k Hk. do 11 (destruct k as [|k]; [vm_compute; reflexivity|]). lia.
  - split; [exact H1|]. exact (proj1 H2).
Defined.

(** Overlap and slack. When the successor can be served at all, overlap
    is required exactly when a successor started at the predecessor's
    presentation would finish after its own, the two measures are never both
    positive, and a start delayed by at most the slack still finishes in
    time. *)
Theorem overlap_slack_complementary (e : PipelineServiceEstimate) (pred succ : Z)
  (Hpred : 0 <= pred) (Hsvc : 0 <= selected_end_to_end_service_ns e <= succ) :
  let svc := selected_end_to_end_service_ns e in
  let overlap := overlap_required_ns e pred succ in
  let slack := successor_slack_ns e pred succ in
  (0 < overlap <-> succ < pred + svc) /\
  (overlap = 0 \/ slack = 0) /\
  (overlap = 0 -> forall delay, 0 <= delay -> (delay <= slack <-> pred + delay + svc <= succ)) /\
  (slack = 0 -> latest_successor_render_start e succ + overlap = pred).
Proof.
  unfold overlap_required_ns, successor_slack_ns, latest_successor_render_start, sat_sub.
  cbn zeta. repeat split; intros; lia.
Qed.
Lemma overlap_slack_complementary_witness :
  let e := PipelineServiceEstimate_new 1 20 3 4 in
  overlap_required_ns e 100 116 = 12 /\ (overlap_required_ns e 100 140 = 0 \/ successor_slack_ns e 100 140 = 0).
Proof.
  split; [reflexivity|].
  destruct (overlap_slack_complementary (PipelineServiceEstimate_new 1 20 3 4) 100 140) as (_ & H & _);
    [lia|vm_compute; split; discriminate|exact H].
Defined.
