(* ===== verification/Deadline.v ===== *)
(** * Deadline: presentation targets and their planner

    Models src/native/presentation_deadline.rs. A [PresentationTarget] names
    one refresh of one clock generation together with the times at which
    rendering and submission may start; [PresentationDeadlinePlanner] chooses
    targets on the refresh grid anchored at the last presentation. *)

From stdpp Require Import base list option.
From Stdlib Require Import ZArith Lia.
From S2P Require Import Prelude Buffering.

(** ** Claims and targets *)

Inductive PresentationTargetReason : Type :=
  ReactiveDouble | Normal | PredictedPressure | ProvenReadinessMiss | ForcedValidation
| CommitTiming.
Inductive PresentationTargetAuthority : Type := Advisory | Reserved.

Record TargetSelectionEvidence : Type := mkEvidence {
  earliest_feasible_sequence : Z;
  binding : bool
}.

Record PrimaryRefreshClaim : Type := mkClaim {
  cl_sequence : Z;
  cl_presentation_time : MonotonicTimestampNs;
  cl_clock_generation : Z
}.

Definition claim_identity (c : PrimaryRefreshClaim) : Z * Z :=
  (cl_clock_generation c, cl_sequence c).
Definition claim_opportunity_id (c : PrimaryRefreshClaim) : PresentationOpportunityId :=
  mkOpportunityId (cl_clock_generation c) (cl_sequence c).
Definition claim_successor (refresh_interval : Duration) (c : PrimaryRefreshClaim)
  : option PrimaryRefreshClaim :=
  s ← checked_add u64_max (cl_sequence c) 1;
  t ← ts_checked_add (cl_presentation_time c) refresh_interval;
  Some (mkClaim s t (cl_clock_generation c)).

Record PresentationTarget : Type := mkTarget {
  pt_sequence : Z;
  pt_presentation_time : MonotonicTimestampNs;
  pt_submit_not_before : MonotonicTimestampNs;
  pt_render_start_deadline : MonotonicTimestampNs;
  pt_refresh_interval : Duration;
  pt_reason : PresentationTargetReason;
  pt_clock_generation : Z;
  pt_estimated : bool;
  pt_predicted_unreachable : bool;
  pt_physical_claim : PrimaryRefreshClaim;
  pt_selection_evidence : TargetSelectionEvidence
}.
#[export] Instance PresentationTargetReason_eq_dec : EqDecision PresentationTargetReason.
Proof. solve_decision. Defined.
#[export] Instance TargetSelectionEvidence_eq_dec : EqDecision TargetSelectionEvidence.
Proof. solve_decision. Defined.
#[export] Instance PrimaryRefreshClaim_eq_dec : EqDecision PrimaryRefreshClaim.
Proof. solve_decision. Defined.
#[export] Instance PresentationTarget_eq_dec : EqDecision PresentationTarget.
Proof. solve_decision. Defined.

Definition target_identity (t : PresentationTarget) : Z * Z :=
  (pt_clock_generation t, pt_sequence t).
Definition target_authority (t : PresentationTarget) : PresentationTargetAuthority :=
  match pt_reason t with ReactiveDouble => Advisory | _ => Reserved end.
Definition is_binding (t : PresentationTarget) : bool :=
  match target_authority t with Reserved => true | Advisory => false end.
Definition target_opportunity (t : PresentationTarget) : PresentationOpportunity :=
  fixed_vsync (mkOpportunityId (pt_clock_generation t) (pt_sequence t))
    (pt_presentation_time t) (pt_refresh_interval t).
Definition physical_opportunity (t : PresentationTarget) : PresentationOpportunity :=
  fixed_vsync (claim_opportunity_id (pt_physical_claim t))
    (cl_presentation_time (pt_physical_claim t)) (pt_refresh_interval t).
Definition opportunity_lease (t : PresentationTarget) : OpportunityLease :=
  let reason := match pt_reason t with
    | ReactiveDouble => LeaseVisualWork
    | Normal => LeaseVisualWork
    | PredictedPressure => LeaseRenderAhead
    | ProvenReadinessMiss => LeaseRecovery
    | ForcedValidation => LeaseForcedValidation
    | CommitTiming => LeaseCommitTiming
    end in
  lease_arm (physical_opportunity t) reason.

(** [ReadyPresentationServiceEstimate] and its total. *)
Record ReadyPresentationServiceEstimate : Type := mkReadyService {
  ready_dispatch_budget_ns : Z;
  ready_apply_guard_ns : Z
}.
Definition ready_total_ns (e : ReadyPresentationServiceEstimate) : Z :=
  sat_add u64_max (ready_dispatch_budget_ns e) (ready_apply_guard_ns e).

Record ReadyTargetPullIn : Type := mkPullIn {
  abandoned_target : PresentationTarget;
  replacement_target : PresentationTarget
}.

Definition claim_is_strictly_later (candidate frontier : PrimaryRefreshClaim) : bool :=
  (cl_sequence frontier <? cl_sequence candidate)
  && (cl_presentation_time frontier <? cl_presentation_time candidate)
  && (cl_clock_generation candidate =? cl_clock_generation frontier).
Definition claim_is_strictly_earlier (candidate upper_bound : PrimaryRefreshClaim) : bool :=
  (cl_sequence candidate <? cl_sequence upper_bound)
  && (cl_presentation_time candidate <? cl_presentation_time upper_bound)
  && (cl_clock_generation candidate =? cl_clock_generation upper_bound).

(** ** Physical presentations

    [PreparedPhysicalPresentation] wraps the claim of an observed pageflip. *)
Definition strictly_after_primary (self previous : PrimaryRefreshClaim)
  : option PrimaryRefreshClaim :=
  if negb (cl_clock_generation previous =? cl_clock_generation self) then None
  else
    next ← checked_add u64_max (cl_sequence previous) 1;
    let s := Z.max (cl_sequence self) next in
    after ← checked_add u64_max (cl_presentation_time previous) 1;
    let t := Z.max (cl_presentation_time self) after in
    if (s =? cl_sequence self) && (t =? cl_presentation_time self) then None
    else Some (mkClaim s t (cl_clock_generation self)).

Definition no_earlier_than (self claim : PrimaryRefreshClaim) : PrimaryRefreshClaim :=
  if negb (cl_clock_generation claim =? cl_clock_generation self) then self
  else mkClaim (Z.max (cl_sequence self) (cl_sequence claim))
         (Z.max (cl_presentation_time self) (cl_presentation_time claim))
         (cl_clock_generation self).

(** ** The planner *)

Record PresentationDeadlinePlanner : Type := mkPlanner {
  pl_clock_generation : Z;
  last_presented_sequence : Z;
  last_presented_at : option MonotonicTimestampNs;
  pl_refresh_interval : Duration;
  scheduled : option PresentationTarget;
  pre_render_abandoned : Z;
  target_identity_reuse_after_abandonment : Z;
  last_abandoned_target_identity : option (Z * Z)
}.

Definition SUBMIT_NOT_BEFORE_GUARD : Duration := 100 * 1000.

Definition nonzero_refresh (refresh_interval : Duration) : Duration :=
  if refresh_interval =? 0 then 1 else refresh_interval.

Definition submit_not_before (presentation_time : MonotonicTimestampNs)
  (refresh_interval : Duration) : MonotonicTimestampNs :=
  default presentation_time
    (ts_checked_add (ts_saturating_sub_duration presentation_time refresh_interval)
       SUBMIT_NOT_BEFORE_GUARD).

Definition planner_new (refresh_interval : Duration) : PresentationDeadlinePlanner :=
  mkPlanner 1 0 None (nonzero_refresh refresh_interval) None 0 0 None.

Definition is_current (p : PresentationDeadlinePlanner) (t : PresentationTarget) : bool :=
  pt_clock_generation t =? pl_clock_generation p.

Definition refresh_ns (p : PresentationDeadlinePlanner) : Z :=
  Z.max (duration_ns (pl_refresh_interval p)) 1.

Definition prepare_presented (p : PresentationDeadlinePlanner)
  (presented_at : MonotonicTimestampNs) : PrimaryRefreshClaim :=
  let logical_sequence :=
    match last_presented_at p with
    | Some previous =>
        let elapsed := sat_sub presented_at previous in
        let intervals := sat_add u64_max elapsed (refresh_ns p / 2) / refresh_ns p in
        sat_add u64_max (last_presented_sequence p) intervals
    | None => sat_add u64_max (last_presented_sequence p) 1
    end in
  mkClaim logical_sequence presented_at (pl_clock_generation p).

Definition prepare_variable_presented (p : PresentationDeadlinePlanner)
  (presented_at : MonotonicTimestampNs) : option PrimaryRefreshClaim :=
  s ← checked_add u64_max (last_presented_sequence p) 1;
  Some (mkClaim s presented_at (pl_clock_generation p)).

Definition next_variable_opportunity_id (p : PresentationDeadlinePlanner)
  : option PresentationOpportunityId :=
  s ← checked_add u64_max (last_presented_sequence p) 1;
  Some (mkOpportunityId (pl_clock_generation p) s).

Definition set_scheduled (t : option PresentationTarget) (p : PresentationDeadlinePlanner)
  : PresentationDeadlinePlanner :=
  mkPlanner (pl_clock_generation p) (last_presented_sequence p) (last_presented_at p)
    (pl_refresh_interval p) t (pre_render_abandoned p)
    (target_identity_reuse_after_abandonment p) (last_abandoned_target_identity p).

(** The assignments that record an abandoned target, with its identity. *)
Definition note_abandoned (t : PresentationTarget) (p : PresentationDeadlinePlanner)
  : PresentationDeadlinePlanner :=
  mkPlanner (pl_clock_generation p) (last_presented_sequence p) (last_presented_at p)
    (pl_refresh_interval p) None (sat_add u64_max (pre_render_abandoned p) 1)
    (target_identity_reuse_after_abandonment p) (Some (claim_identity (pt_physical_claim t))).

Definition commit_presented (prepared : PrimaryRefreshClaim) (p : PresentationDeadlinePlanner)
  : PresentationDeadlinePlanner * Z :=
  let p := mkPlanner (pl_clock_generation p) (cl_sequence prepared)
             (Some (cl_presentation_time prepared)) (pl_refresh_interval p) (scheduled p)
             (pre_render_abandoned p) (target_identity_reuse_after_abandonment p)
             (last_abandoned_target_identity p) in
  let p := match scheduled p with Some t => note_abandoned t p | None => p end in
  (p, cl_sequence prepared).

Definition note_presented (presented_at : MonotonicTimestampNs) (p : PresentationDeadlinePlanner)
  : PresentationDeadlinePlanner * Z :=
  commit_presented (prepare_presented p presented_at) p.

(** *** Choosing a refresh

    A choice is a sequence number, its presentation time and whether the
    time is an estimate without an anchor. *)

Definition first_future_refresh (p : PresentationDeadlinePlanner) (now : MonotonicTimestampNs)
  : option (Z * MonotonicTimestampNs * bool) :=
  match last_presented_at p with
  | None =>
      s ← checked_add u64_max (last_presented_sequence p) 1;
      t ← ts_checked_add now (pl_refresh_interval p);
      Some (s, t, true)
  | Some anchor =>
      intervals ← checked_add u64_max (sat_sub now anchor / refresh_ns p) 1;
      s ← checked_add u64_max (last_presented_sequence p) intervals;
      span ← checked_mul u64_max intervals (refresh_ns p);
      t ← checked_add u64_max anchor span;
      Some (s, t, false)
  end.

Definition first_future_refresh_after (p : PresentationDeadlinePlanner)
  (now : MonotonicTimestampNs) (lower_bound : PrimaryRefreshClaim)
  : option (Z * MonotonicTimestampNs * bool) :=
  if negb (cl_clock_generation lower_bound =? pl_clock_generation p)
  then first_future_refresh p now
  else
    let threshold := Z.max now (cl_presentation_time lower_bound) in
    match last_presented_at p with
    | None =>
        intervals ← checked_add u64_max
          (sat_sub threshold (cl_presentation_time lower_bound) / refresh_ns p) 1;
        s ← checked_add u64_max (cl_sequence lower_bound) intervals;
        span ← checked_mul u64_max intervals (refresh_ns p);
        t ← checked_add u64_max (cl_presentation_time lower_bound) span;
        Some (s, t, true)
    | Some _ =>
        '(s, t, estimated) ← first_future_refresh p threshold;
        sequence_steps ←
          (if s <=? cl_sequence lower_bound
           then d ← checked_sub u64_max (cl_sequence lower_bound) s; checked_add u64_max d 1
           else Some 0);
        time_steps ←
          (if t <=? cl_presentation_time lower_bound
           then d ← checked_sub u64_max (cl_presentation_time lower_bound) t;
                checked_add u64_max (d / refresh_ns p) 1
           else Some 0);
        let steps := Z.max sequence_steps time_steps in
        if 0 <? steps then
          s ← checked_add u64_max s steps;
          span ← checked_mul u64_max steps (refresh_ns p);
          t ← checked_add u64_max t span;
          Some (s, t, estimated)
        else Some (s, t, estimated)
    end.

Definition prediction_feasible_opportunity (p : PresentationDeadlinePlanner)
  (selected : Z * MonotonicTimestampNs * bool) (ready_at : MonotonicTimestampNs)
  : option (Z * MonotonicTimestampNs * bool) :=
  let '(s, t, estimated) := selected in
  if ready_at <=? t then Some selected
  else
    let intervals := div_ceil (ready_at - t) (refresh_ns p) in
    s ← checked_add u64_max s intervals;
    span ← checked_mul u64_max intervals (refresh_ns p);
    t ← checked_add u64_max t span;
    Some (s, t, estimated).

(** The division has no [max(1)] here: [nonzero_refresh] makes the divisor
    positive (part of [planner_ok] below). *)
Definition earliest_reachable (p : PresentationDeadlinePlanner) (ready_at : MonotonicTimestampNs)
  : option (Z * MonotonicTimestampNs * bool) :=
  let refresh := duration_ns (pl_refresh_interval p) in
  match last_presented_at p with
  | None =>
      t ← ts_checked_add ready_at (pl_refresh_interval p);
      Some (sat_add u64_max (last_presented_sequence p) 1, t, true)
  | Some anchor =>
      let delta := sat_sub ready_at anchor in
      let intervals := Z.max (div_ceil delta refresh) 1 in
      s ← checked_add u64_max (last_presented_sequence p) intervals;
      span ← checked_mul u64_max intervals refresh;
      t ← checked_add u64_max anchor span;
      Some (s, t, false)
  end.

Definition earliest_reachable_after_claim (p : PresentationDeadlinePlanner)
  (ready_at : MonotonicTimestampNs) (frontier : PrimaryRefreshClaim)
  : option PrimaryRefreshClaim :=
  s ← checked_add u64_max (cl_sequence frontier) 1;
  t ← ts_checked_add (cl_presentation_time frontier) (pl_refresh_interval p);
  if t <? ready_at then
    let intervals := div_ceil (ready_at - t) (refresh_ns p) in
    s ← checked_add u64_max s intervals;
    span ← checked_mul u64_max intervals (refresh_ns p);
    t ← checked_add u64_max t span;
    Some (mkClaim s t (cl_clock_generation frontier))
  else Some (mkClaim s t (cl_clock_generation frontier)).

(** *** Making targets *)

Definition make_target (s : Z) (t : MonotonicTimestampNs) (predicted_total_cost : Duration)
  (reason : PresentationTargetReason) (estimated predicted_unreachable : bool)
  (submit_nb : MonotonicTimestampNs) (p : PresentationDeadlinePlanner)
  : PresentationDeadlinePlanner * PresentationTarget :=
  let claim := mkClaim s t (pl_clock_generation p) in
  let target := mkTarget s t submit_nb (ts_saturating_sub_duration t predicted_total_cost)
    (pl_refresh_interval p) reason (pl_clock_generation p) estimated predicted_unreachable claim
    (mkEvidence s (bool_decide (reason <> ReactiveDouble))) in
  let reuse :=
    match last_abandoned_target_identity p with
    | Some identity => bool_decide (identity = claim_identity claim)
    | None => false
    end in
  (mkPlanner (pl_clock_generation p) (last_presented_sequence p) (last_presented_at p)
     (pl_refresh_interval p) (scheduled p) (pre_render_abandoned p)
     (if reuse then sat_add u64_max (target_identity_reuse_after_abandonment p) 1
      else target_identity_reuse_after_abandonment p)
     None,
   target).

(** [PresentationTarget { selection_evidence, ..target }] *)
Definition with_evidence (e : TargetSelectionEvidence) (t : PresentationTarget)
  : PresentationTarget :=
  mkTarget (pt_sequence t) (pt_presentation_time t) (pt_submit_not_before t)
    (pt_render_start_deadline t) (pt_refresh_interval t) (pt_reason t) (pt_clock_generation t)
    (pt_estimated t) (pt_predicted_unreachable t) (pt_physical_claim t) e.

Definition plan_normal (now : MonotonicTimestampNs) (predicted_total_cost : Duration)
  (p : PresentationDeadlinePlanner) : PresentationDeadlinePlanner * option PresentationTarget :=
  match (ready_at ← ts_checked_add now predicted_total_cost; earliest_reachable p ready_at) with
  | None => (p, None)
  | Some (s, t, estimated) =>
      let '(p, target) := make_target s t predicted_total_cost Normal estimated false
        (if estimated then 0 else submit_not_before t (pl_refresh_interval p)) p in
      (set_scheduled (Some target) p, Some target)
  end.

Definition plan_not_before (now requested_target : MonotonicTimestampNs)
  (predicted_total_cost : Duration) (p : PresentationDeadlinePlanner)
  : PresentationDeadlinePlanner * option PresentationTarget :=
  let choice :=
    ready_at ← ts_checked_add now predicted_total_cost;
    let eligible_at := Z.max ready_at requested_target in
    feasible ← earliest_reachable p ready_at;
    selected ← earliest_reachable p eligible_at;
    Some (feasible.1.1, selected) in
  match choice with
  | None => (p, None)
  | Some (earliest_feasible, (s, t, estimated)) =>
      let '(p, target) := make_target s t predicted_total_cost CommitTiming estimated false
        (if estimated then now else submit_not_before t (pl_refresh_interval p)) p in
      let target :=
        with_evidence (mkEvidence earliest_feasible (binding (pt_selection_evidence target)))
          target in
      (set_scheduled (Some target) p, Some target)
  end.

Definition primary_refresh_frontier (p : PresentationDeadlinePlanner)
  (future_primary : PresentationTarget) : option PrimaryRefreshClaim :=
  if negb (is_current p future_primary) then None else Some (pt_physical_claim future_primary).

Definition physical_predecessor_for (p : PresentationDeadlinePlanner)
  (target : PresentationTarget) : PresentationTarget :=
  match primary_refresh_frontier p target with
  | None => target
  | Some frontier =>
      mkTarget (cl_sequence frontier) (cl_presentation_time frontier)
        (cl_presentation_time frontier) (cl_presentation_time frontier) (pl_refresh_interval p)
        Normal (cl_clock_generation frontier) false false frontier
        (mkEvidence (cl_sequence frontier) false)
  end.

(** The target both reactive functions build from a selected refresh. *)
Definition reactive_of (p : PresentationDeadlinePlanner) (now ready_at : MonotonicTimestampNs)
  (selected : Z * MonotonicTimestampNs * bool) : option PresentationTarget :=
  feasible ← prediction_feasible_opportunity p selected ready_at;
  let '(s, t, estimated) := selected in
  Some (mkTarget s t now now (pl_refresh_interval p) ReactiveDouble (pl_clock_generation p)
          estimated (t <? ready_at) (mkClaim s t (pl_clock_generation p))
          (mkEvidence feasible.1.1 false)).

Definition reactive_target (p : PresentationDeadlinePlanner) (now : MonotonicTimestampNs)
  (predicted_total_cost : Duration) : option PresentationTarget :=
  ready_at ← ts_checked_add now predicted_total_cost;
  selected ← first_future_refresh p now;
  reactive_of p now ready_at selected.

Definition reactive_target_after (p : PresentationDeadlinePlanner) (now : MonotonicTimestampNs)
  (predicted_total_cost : Duration) (lower_bound : PresentationTarget)
  : option PresentationTarget :=
  ready_at ← ts_checked_add now predicted_total_cost;
  selected ←
    (if is_current p lower_bound
     then first_future_refresh_after p now
            (pt_physical_claim (physical_predecessor_for p lower_bound))
     else first_future_refresh p now);
  reactive_of p now ready_at selected.

(** Replace the evidence, schedule and return a target made for [reason]. *)
Definition schedule_with_evidence (earliest_feasible : Z) (reason : PresentationTargetReason)
  (made : PresentationDeadlinePlanner * PresentationTarget)
  : PresentationDeadlinePlanner * option PresentationTarget :=
  let '(p, target) := made in
  let target :=
    with_evidence (mkEvidence earliest_feasible (bool_decide (reason <> ReactiveDouble))) target in
  (set_scheduled (Some target) p, Some target).

Definition plan_successor_after (lower_bound : PresentationTarget) (now : MonotonicTimestampNs)
  (predicted_total_cost : Duration) (reason : PresentationTargetReason)
  (p : PresentationDeadlinePlanner) : PresentationDeadlinePlanner * option PresentationTarget :=
  if negb (is_current p lower_bound) then (p, None)
  else
    let lower_bound := physical_predecessor_for p lower_bound in
    let choice :=
      ready_at ← ts_checked_add now predicted_total_cost;
      selected ← first_future_refresh_after p now (pt_physical_claim lower_bound);
      feasible ← prediction_feasible_opportunity p selected ready_at;
      Some (ready_at, selected, feasible.1.1) in
    match choice with
    | None => (p, None)
    | Some (ready_at, (s, t, estimated), earliest_feasible) =>
        let submit_nb :=
          if estimated || bool_decide (reason = ReactiveDouble) then now
          else submit_not_before t (pl_refresh_interval p) in
        schedule_with_evidence earliest_feasible reason
          (make_target s t predicted_total_cost reason estimated (t <? ready_at) submit_nb p)
    end.

Definition plan_render_ahead (pending : PresentationTarget) (now : MonotonicTimestampNs)
  (predicted_total_cost : Duration) (reason : PresentationTargetReason)
  (p : PresentationDeadlinePlanner) : PresentationDeadlinePlanner * option PresentationTarget :=
  if negb (is_current p pending) then (p, None)
  else
    let predecessor := physical_predecessor_for p pending in
    let choice :=
      s ← checked_add u64_max (pt_sequence predecessor) 1;
      t ← ts_checked_add (pt_presentation_time predecessor) (pt_refresh_interval predecessor);
      ready_at ← ts_checked_add now predicted_total_cost;
      let unreachable := t <? ready_at in
      if unreachable && negb match reason with
           | PredictedPressure | ProvenReadinessMiss | ForcedValidation => true
           | _ => false
           end
      then None
      else
        feasible ← prediction_feasible_opportunity p (s, t, pt_estimated predecessor) ready_at;
        Some (s, t, unreachable, feasible.1.1) in
    match choice with
    | None => (p, None)
    | Some (s, t, unreachable, earliest_feasible) =>
        schedule_with_evidence earliest_feasible reason
          (make_target s t predicted_total_cost reason (pt_estimated predecessor) unreachable
             (default (pt_presentation_time predecessor)
                (ts_checked_add (pt_presentation_time predecessor) SUBMIT_NOT_BEFORE_GUARD)) p)
    end.

Definition clear_scheduled_target (p : PresentationDeadlinePlanner)
  : PresentationDeadlinePlanner := set_scheduled None p.

Definition abandon_scheduled_target (p : PresentationDeadlinePlanner)
  : PresentationDeadlinePlanner * option PresentationTarget :=
  match scheduled p with
  | None => (p, None)
  | Some target => (note_abandoned target p, Some target)
  end.

Definition reschedule_earlier (target : PresentationTarget) (predicted_total_cost : Duration)
  (p : PresentationDeadlinePlanner) : PresentationDeadlinePlanner * PresentationTarget :=
  if negb (is_current p target) then (p, target)
  else
    let candidate := ts_saturating_sub_duration (pt_presentation_time target) predicted_total_cost in
    let updated :=
      mkTarget (pt_sequence target) (pt_presentation_time target) (pt_submit_not_before target)
        (Z.min candidate (pt_render_start_deadline target)) (pt_refresh_interval target)
        (pt_reason target) (pt_clock_generation target) (pt_estimated target)
        (pt_predicted_unreachable target) (pt_physical_claim target)
        (pt_selection_evidence target) in
    (set_scheduled (Some updated) p, updated).

Definition ready_target_pull_in (p : PresentationDeadlinePlanner) (now : MonotonicTimestampNs)
  (remaining_service : ReadyPresentationServiceEstimate) (physical_frontier : PrimaryRefreshClaim)
  (current_target : PresentationTarget) : option ReadyTargetPullIn :=
  if negb (is_current p current_target)
     || negb (is_binding current_target)
     || negb (pt_sequence current_target =? cl_sequence (pt_physical_claim current_target))
     || negb (pt_presentation_time current_target
              =? cl_presentation_time (pt_physical_claim current_target))
     || negb (cl_clock_generation physical_frontier =? pl_clock_generation p)
     || negb (cl_clock_generation (pt_physical_claim current_target) =? pl_clock_generation p)
     || negb (claim_is_strictly_later (pt_physical_claim current_target) physical_frontier)
  then None
  else
    ready_at ← ts_checked_add now (ready_total_ns remaining_service);
    candidate ← earliest_reachable_after_claim p ready_at physical_frontier;
    if negb (claim_is_strictly_earlier candidate (pt_physical_claim current_target)) then None
    else
      Some (mkPullIn current_target
        (mkTarget (cl_sequence candidate) (cl_presentation_time candidate) now now
           (pl_refresh_interval p) (pt_reason current_target) (pl_clock_generation p) false false
           candidate (mkEvidence (cl_sequence candidate) true))).

Definition invalidate (refresh_interval : Duration) (p : PresentationDeadlinePlanner)
  : PresentationDeadlinePlanner :=
  mkPlanner (default 1 (checked_add u64_max (pl_clock_generation p) 1)) 0 None
    (nonzero_refresh refresh_interval) None
    (match scheduled p with
     | Some _ => sat_add u64_max (pre_render_abandoned p) 1
     | None => pre_render_abandoned p
     end)
    (target_identity_reuse_after_abandonment p) (last_abandoned_target_identity p).

(** ** Operations and invariant *)

Inductive PlannerOp : Type :=
| OpCommitPresented (prepared : PrimaryRefreshClaim)
| OpNotePresented (presented_at : MonotonicTimestampNs)
| OpPlanNormal (now : MonotonicTimestampNs) (cost : Duration)
| OpPlanNotBefore (now requested : MonotonicTimestampNs) (cost : Duration)
| OpPlanSuccessor (lower_bound : PresentationTarget) (now : MonotonicTimestampNs)
    (cost : Duration) (reason : PresentationTargetReason)
| OpPlanRenderAhead (pending : PresentationTarget) (now : MonotonicTimestampNs)
    (cost : Duration) (reason : PresentationTargetReason)
| OpReschedule (target : PresentationTarget) (cost : Duration)
| OpClear
| OpAbandon
| OpInvalidate (refresh_interval : Duration).

Definition planner_step (p : PresentationDeadlinePlanner) (op : PlannerOp)
  : PresentationDeadlinePlanner :=
  match op with
  | OpCommitPresented c => (commit_presented c p).1
  | OpNotePresented t => (note_presented t p).1
  | OpPlanNormal now cost => (plan_normal now cost p).1
  | OpPlanNotBefore now requested cost => (plan_not_before now requested cost p).1
  | OpPlanSuccessor lb now cost reason => (plan_successor_after lb now cost reason p).1
  | OpPlanRenderAhead t now cost reason => (plan_render_ahead t now cost reason p).1
  | OpReschedule t cost => (reschedule_earlier t cost p).1
  | OpClear => clear_scheduled_target p
  | OpAbandon => (abandon_scheduled_target p).1
  | OpInvalidate d => invalidate d p
  end.
Definition planner_run (p : PresentationDeadlinePlanner) (ops : list PlannerOp)
  : PresentationDeadlinePlanner := foldl planner_step p ops.

(** The arguments an operation may have: machine integers. *)
Definition planner_op_ok (op : PlannerOp) : Prop :=
  match op with
  | OpCommitPresented c => in_u64 (cl_sequence c) /\ in_u64 (cl_presentation_time c)
  | OpNotePresented t => in_u64 t
  | OpInvalidate d => 0 <= d
  | _ => True
  end.

Definition is_invalidate (op : PlannerOp) : bool :=
  match op with OpInvalidate _ => true | _ => false end.
Definition invalidations (ops : list PlannerOp) : Z :=
  Z.of_nat (length (filter (fun op => is_invalidate op = true) ops)).

Record planner_ok (p : PresentationDeadlinePlanner) : Prop := {
  generation_range : 1 <= pl_clock_generation p <= u64_max;
  sequence_range : in_u64 (last_presented_sequence p);
  anchor_range : forall a, last_presented_at p = Some a -> in_u64 a;
  refresh_positive : 0 < pl_refresh_interval p;
  scheduled_current : forall t, scheduled p = Some t -> is_current p t = true
}.

(** The operations other than [invalidate] keep the generation. *)
Lemma make_target_fields s t cost reason est unr snb p p' target :
  make_target s t cost reason est unr snb p = (p', target) ->
  pl_clock_generation p' = pl_clock_generation p /\
  last_presented_sequence p' = last_presented_sequence p /\
  last_presented_at p' = last_presented_at p /\
  pl_refresh_interval p' = pl_refresh_interval p /\
  is_current p' target = true /\ pt_sequence target = s /\ pt_presentation_time target = t /\
  pt_physical_claim target = mkClaim s t (pl_clock_generation p) /\
  pt_submit_not_before target = snb /\
  pt_render_start_deadline target = ts_saturating_sub_duration t cost.
Proof. intros [= <- <-]. unfold is_current. cbn. rewrite Z.eqb_refl. done. Qed.

(** [p'] is [p] with another schedule, counters apart. *)
Definition replanned (p p' : PresentationDeadlinePlanner) : Prop :=
  pl_clock_generation p' = pl_clock_generation p /\
  last_presented_sequence p' = last_presented_sequence p /\
  last_presented_at p' = last_presented_at p /\
  pl_refresh_interval p' = pl_refresh_interval p /\
  (scheduled p' = scheduled p \/ forall t, scheduled p' = Some t -> is_current p' t = true).

Lemma replanned_ok p p' : replanned p p' -> planner_ok p -> planner_ok p'.
Proof.
  intros (H1 & H2 & H3 & H4 & H5) [A B C D E]. split; rewrite ?H1, ?H2, ?H3, ?H4; try done.
  intros t Ht. destruct H5 as [H5|H5]; [|by apply H5].
  unfold is_current in *. rewrite H1. apply E. congruence.
Qed.

Lemma replanned_refl p : replanned p p.
Proof. repeat split; auto. Qed.

Lemma replanned_make s t cost reason est unr snb f p :
  (forall x, pt_clock_generation (f x) = pt_clock_generation x) ->
  let '(p', target) := make_target s t cost reason est unr snb p in
  replanned p (set_scheduled (Some (f target)) p').
Proof.
  intros Hf. cbn. repeat split; auto. right. cbn. intros t' [= <-].
  unfold is_current. rewrite Hf. cbn. apply Z.eqb_refl.
Qed.

Lemma planner_step_replanned p op :
  match op with
  | OpCommitPresented _ | OpNotePresented _ | OpInvalidate _ => True
  | _ => replanned p (planner_step p op)
  end.
Proof.
  destruct op; cbn [planner_step]; try done.
  - unfold plan_normal. destruct (_ ≫= _) as [[[s t] est]|]; [|apply replanned_refl].
    by apply (replanned_make s t cost Normal est false _ (fun x => x) p).
  - unfold plan_not_before. destruct (_ ≫= _) as [[f [[s t] est]]|]; [|apply replanned_refl].
    by apply (replanned_make s t cost CommitTiming est false _
      (fun x => with_evidence (mkEvidence f (binding (pt_selection_evidence x))) x) p).
  - unfold plan_successor_after. destruct (negb _); [apply replanned_refl|].
    destruct (_ ≫= _) as [[[r [[s t] est]] f]|]; [|apply replanned_refl].
    by apply (replanned_make s t cost reason est _ _ (with_evidence _) p).
  - unfold plan_render_ahead. destruct (negb _); [apply replanned_refl|].
    destruct (_ ≫= _) as [[[[s t] unr] f]|]; [|apply replanned_refl].
    by apply (replanned_make s t cost reason _ unr _ (with_evidence _) p).
  - unfold reschedule_earlier. destruct (is_current p target) eqn:E; cbn; [|apply replanned_refl].
    repeat split; auto. right. cbn. intros t' [= <-]. exact E.
  - repeat split; auto. right. done.
  - unfold abandon_scheduled_target. destruct (scheduled p); [|apply replanned_refl].
    repeat split; auto. right. done.
Qed.

Lemma planner_step_ok p op : planner_op_ok op -> planner_ok p -> planner_ok (planner_step p op).
Proof.
  intros Hop Hp. pose proof (planner_step_replanned p op) as Hr. pose proof Hp as [A B C D E].
  destruct op; try (exact (replanned_ok _ _ Hr Hp)); cbn [planner_step planner_op_ok] in *.
  - unfold commit_presented. cbn. destruct (scheduled p) eqn:Es; split; cbn; try tauto;
      intros a [= <-]; tauto.
  - unfold note_presented, commit_presented, prepare_presented.
    assert (in_u64 (cl_sequence (prepare_presented p presented_at))).
    { unfold prepare_presented, sat_add, sat_sub, refresh_ns, in_u64, duration_ns in *.
      destruct (last_presented_at p); cbn; [|int_lia].
      match goal with |- context [Z.min u64_max (_ + ?q)] => assert (0 <= q) end; [|int_lia].
      apply Z.div_pos; [|lia]. assert (0 <= Z.max (Z.min (pl_refresh_interval p) u64_max) 1 / 2)
        by (apply Z.div_pos; lia). int_lia. }
    cbn. destruct (scheduled p) eqn:Es; split; cbn; try tauto;
      intros a [= <-]; tauto.
  - unfold invalidate. split; cbn; try done; try int_lia.
    + unfold checked_add, checked. zcase; cbn; int_lia.
    + unfold nonzero_refresh. zcase.
Qed.

Lemma planner_run_ok p ops :
  Forall planner_op_ok ops -> planner_ok p -> planner_ok (planner_run p ops).
Proof.
  revert p. induction ops as [|op ops IH]; intros p Ho Hp; [done|].
  apply list.Forall_cons in Ho as [Ho Hos]. apply IH; [done|]. by apply planner_step_ok.
Qed.

Lemma planner_new_ok d : 0 <= d -> planner_ok (planner_new d).
Proof.
  intros Hd. split; cbn; try done; try int_lia. unfold nonzero_refresh. zcase.
Qed.

Lemma planner_step_generation p op :
  planner_ok p -> pl_clock_generation p < u64_max ->
  pl_clock_generation (planner_step p op) =
    pl_clock_generation p + (if is_invalidate op then 1 else 0).
Proof.
  intros [A _ _ _ _] Hlt. pose proof (planner_step_replanned p op) as Hr.
  destruct op; cbn [is_invalidate]; rewrite ?Z.add_0_r; try exact (proj1 Hr); cbn.
  - by destruct (scheduled p).
  - by destruct (scheduled p).
  - unfold checked_add. rewrite checked_in by lia. done.
Qed.

Lemma planner_run_generation p ops :
  Forall planner_op_ok ops -> planner_ok p ->
  pl_clock_generation p + invalidations ops < u64_max ->
  pl_clock_generation (planner_run p ops) = pl_clock_generation p + invalidations ops.
Proof.
  revert p. induction ops as [|op ops IH]; intros p Ho Hp Hlt; [cbn; unfold invalidations; cbn; lia|].
  apply list.Forall_cons in Ho as [Ho Hos].
  change (planner_run p (op :: ops)) with (planner_run (planner_step p op) ops).
  assert (Hi : invalidations (op :: ops) = (if is_invalidate op then 1 else 0) + invalidations ops).
  { unfold invalidations. rewrite filter_cons.
    destruct (is_invalidate op); case_decide; try done; cbn [length]; lia. }
  assert (0 <= invalidations ops) by (unfold invalidations; lia).
  rewrite Hi in *. assert (pl_clock_generation p < u64_max) by (destruct (is_invalidate op); lia).
  pose proof (planner_step_generation p op Hp ltac:(done)) as Hg.
  rewrite IH; [lia|done|by apply planner_step_ok|lia].
Qed.

(** ** The refresh grid *)

(** [on_grid p a s t k]: refresh [k] after the anchor [a]. *)
Definition on_grid (p : PresentationDeadlinePlanner) (a s t k : Z) : Prop :=
  s = last_presented_sequence p + k /\ t = a + k * pl_refresh_interval p.

(** Refreshes are ordered by their index. *)
Lemma grid_time_lt p a s t k j :
  planner_ok p -> on_grid p a s t k -> j < k -> a + j * pl_refresh_interval p < t.
Proof. intros [_ _ _ H _] [_ ->] Hj. nia. Qed.

Section Grid.
Context (p : PresentationDeadlinePlanner) (a : Z).
Hypothesis Hok : planner_ok p.
Hypothesis Ha : last_presented_at p = Some a.
Hypothesis Hfit : pl_refresh_interval p <= u64_max.

Lemma refresh_ns_eq : refresh_ns p = pl_refresh_interval p.
Proof.
  destruct Hok as [_ _ _ H _]. unfold refresh_ns, duration_ns. lia.
Qed.

(** The least refresh not before [ready]. *)
Lemma earliest_reachable_spec ready s t est :
  0 <= ready -> earliest_reachable p ready = Some (s, t, est) ->
  est = false /\ exists k, 1 <= k /\ on_grid p a s t k /\ ready <= t /\
    (forall j, 1 <= j < k -> a + j * pl_refresh_interval p < ready).
Proof.
  intros Hr. unfold earliest_reachable. rewrite Ha. pose proof refresh_ns_eq as Hn.
  destruct Hok as [_ _ Han Hp _]. specialize (Han a Ha).
  replace (duration_ns (pl_refresh_interval p)) with (pl_refresh_interval p)
    by (unfold duration_ns; lia).
  set (r := pl_refresh_interval p) in *.
  intros (x & Hx & (y & Hy & (z & Hz & [= <- <- <-])%bind_Some)%bind_Some)%bind_Some.
  unfold checked_add, checked_mul in *.
  apply checked_Some in Hx as [-> _]. apply checked_Some in Hy as [-> _].
  apply checked_Some in Hz as [-> _]. split; [done|].
  destruct (div_ceil_spec (sat_sub ready a) r ltac:(unfold sat_sub; lia) ltac:(lia)) as [H2 H1].
  exists (Z.max (div_ceil (sat_sub ready a) r) 1). split; [lia|]. split; [done|].
  unfold sat_sub in *. split; [nia|]. intros j Hj. nia.
Qed.

Lemma earliest_reachable_total ready :
  0 <= ready -> Z.max ready a + pl_refresh_interval p <= u64_max ->
  last_presented_sequence p + ready / pl_refresh_interval p + 1 <= u64_max ->
  exists s t, earliest_reachable p ready = Some (s, t, false).
Proof.
  intros Hr Hm Hs. unfold earliest_reachable. rewrite Ha.
  destruct Hok as [_ Hsq Han Hp _]. specialize (Han a Ha).
  replace (duration_ns (pl_refresh_interval p)) with (pl_refresh_interval p)
    by (unfold duration_ns; lia).
  set (r := pl_refresh_interval p) in *.
  destruct (div_ceil_spec (sat_sub ready a) r ltac:(unfold sat_sub; lia) ltac:(lia)) as [H2 H1].
  set (k := Z.max (div_ceil (sat_sub ready a) r) 1).
  assert (Hkr : k * r <= Z.max (ready - a) 0 + r) by (unfold k, sat_sub in *; nia).
  assert (Hk : k <= ready / r + 1).
  { unfold k. assert (div_ceil (sat_sub ready a) r <= ready / r + 1).
    { enough (div_ceil (sat_sub ready a) r - 1 <= ready / r) by lia.
      apply Z.div_le_lower_bound; [lia|]. unfold in_u64, sat_sub in *. nia. }
    assert (0 <= ready / r) by (apply Z.div_pos; lia). lia. }
  assert (1 <= k) by lia. unfold checked_add, checked_mul, in_u64 in *.
  rewrite checked_in by lia. cbn [mbind option_bind].
  rewrite checked_in by nia. cbn [mbind option_bind]. rewrite checked_in by nia. cbn. eauto.
Qed.

(** The least refresh strictly after [now]. *)
Lemma first_future_refresh_spec now s t est :
  0 <= now -> first_future_refresh p now = Some (s, t, est) ->
  est = false /\ exists k, 1 <= k /\ on_grid p a s t k /\ now < t /\
    (forall j, 1 <= j < k -> a + j * pl_refresh_interval p <= now).
Proof.
  intros Hn0. unfold first_future_refresh. rewrite Ha. rewrite refresh_ns_eq.
  destruct Hok as [_ _ Han Hp _]. specialize (Han a Ha).
  set (r := pl_refresh_interval p) in *.
  intros (w & Hw & (x & Hx & (y & Hy & (z & Hz & [= <- <- <-])%bind_Some)%bind_Some)%bind_Some)%bind_Some.
  unfold checked_add, checked_mul in *.
  apply checked_Some in Hw as [-> _]. apply checked_Some in Hx as [-> _].
  apply checked_Some in Hy as [-> _]. apply checked_Some in Hz as [-> _]. split; [done|].
  pose proof (Z.div_mod (sat_sub now a) r ltac:(lia)).
  pose proof (Z.mod_pos_bound (sat_sub now a) r ltac:(lia)).
  assert (0 <= sat_sub now a / r) by (apply Z.div_pos; unfold sat_sub; lia).
  exists (sat_sub now a / r + 1). split; [lia|]. split; [done|].
  unfold sat_sub in *. split; [nia|]. intros j Hj. nia.
Qed.
End Grid.

Lemma refresh_ns_pos p : 1 <= refresh_ns p.
Proof. unfold refresh_ns. lia. Qed.

(** Rounding up to the next multiple past [x]. *)
Lemma next_multiple_gt x r : 0 < r -> 0 <= x -> 1 <= x / r + 1 /\ x < (x / r + 1) * r.
Proof.
  intros Hr Hx. pose proof (Z.div_mod x r ltac:(lia)). pose proof (Z.mod_pos_bound x r Hr).
  pose proof (Z.div_pos x r Hx Hr). nia.
Qed.

Lemma first_future_refresh_gt p a now s t est :
  last_presented_at p = Some a -> first_future_refresh p now = Some (s, t, est) ->
  now < t /\ last_presented_sequence p < s.
Proof.
  intros Ha. unfold first_future_refresh. rewrite Ha.
  intros (w & Hw & (x & Hx & (y & Hy & (z & Hz & [= <- <- <-])%bind_Some)%bind_Some)%bind_Some)%bind_Some.
  unfold checked_add, checked_mul in *.
  apply checked_Some in Hw as [-> _]. apply checked_Some in Hx as [-> _].
  apply checked_Some in Hy as [-> _]. apply checked_Some in Hz as [-> _].
  destruct (next_multiple_gt (sat_sub now a) (refresh_ns p)) as [H1 H2];
    [pose proof (refresh_ns_pos p); lia|unfold sat_sub; lia|].
  unfold sat_sub in *. nia.
Qed.

Lemma first_future_refresh_after_gt p now lb s t est :
  cl_clock_generation lb = pl_clock_generation p ->
  first_future_refresh_after p now lb = Some (s, t, est) ->
  cl_sequence lb < s /\ cl_presentation_time lb < t /\ now < t.
Proof.
  intros Hg. unfold first_future_refresh_after. rewrite Hg, Z.eqb_refl. cbn [negb].
  pose proof (refresh_ns_pos p) as Hr. unfold checked_add, checked_sub, checked_mul.
  set (T := Z.max now (cl_presentation_time lb)).
  destruct (last_presented_at p) as [a|] eqn:Ha.
  - intros ([[s0 t0] e0] & H0 & H1)%bind_Some.
    destruct (first_future_refresh_gt _ _ _ _ _ _ Ha H0) as [Ht _].
    apply bind_Some in H1 as (ss & Hss & H1). apply bind_Some in H1 as (ts & Hts & H1).
    destruct (Z.leb_spec t0 (cl_presentation_time lb)); [lia|]. injection Hts as <-.
    assert (Hs : cl_sequence lb < s0 + ss /\ 0 <= ss).
    { destruct (Z.leb_spec s0 (cl_sequence lb)).
      - apply bind_Some in Hss as (d & Hd & Hss).
        apply checked_Some in Hd as [-> _]. apply checked_Some in Hss as [-> _]. lia.
      - injection Hss as <-. lia. }
    destruct (Z.ltb_spec 0 (Z.max ss 0)).
    + apply bind_Some in H1 as (s1 & Hs1 & H1). apply bind_Some in H1 as (sp & Hsp & H1).
      apply bind_Some in H1 as (t1 & Ht1 & [= <- <- <-]).
      apply checked_Some in Hs1 as [-> _]. apply checked_Some in Hsp as [-> _].
      apply checked_Some in Ht1 as [-> _]. nia.
    + injection H1 as <- <- <-. lia.
  - intros (w & Hw & (x & Hx & (y & Hy & (z & Hz & [= <- <- <-])%bind_Some)%bind_Some)%bind_Some)%bind_Some.
    apply checked_Some in Hw as [-> _]. apply checked_Some in Hx as [-> _].
    apply checked_Some in Hy as [-> _]. apply checked_Some in Hz as [-> _].
    destruct (next_multiple_gt (sat_sub T (cl_presentation_time lb)) (refresh_ns p)) as [H1 H2];
      [lia|unfold sat_sub; lia|]. unfold sat_sub in *. nia.
Qed.

(** From a claim on the grid, the least later refresh after [now]. *)
Lemma first_future_refresh_after_grid p a now lb j s t est :
  planner_ok p -> last_presented_at p = Some a -> pl_refresh_interval p <= u64_max -> 0 <= now ->
  cl_clock_generation lb = pl_clock_generation p ->
  on_grid p a (cl_sequence lb) (cl_presentation_time lb) j ->
  first_future_refresh_after p now lb = Some (s, t, est) ->
  est = false /\ exists k, on_grid p a s t k /\
    (forall i, 1 <= i < k -> i <= j \/ a + i * pl_refresh_interval p <= now).
Proof.
  intros Hok Ha Hfit Hn Hg [Hj1 Hj2]. unfold first_future_refresh_after.
  rewrite Hg, Z.eqb_refl, Ha. cbn [negb]. set (T := Z.max now (cl_presentation_time lb)).
  intros ([[s0 t0] e0] & H0 & H1)%bind_Some.
  destruct (first_future_refresh_spec p a Hok Ha Hfit T s0 t0 e0 ltac:(lia) H0)
    as (-> & k & Hk & [Hs0 Ht0] & Hlt & Hmin).
  assert (Hp : 0 < pl_refresh_interval p) by apply Hok.
  assert (Hjk : j < k) by nia.
  destruct (Z.leb_spec s0 (cl_sequence lb)); [lia|]. cbn [mbind option_bind] in H1.
  destruct (Z.leb_spec t0 (cl_presentation_time lb)); [lia|]. cbn in H1.
  injection H1 as <- <- <-. split; [done|]. exists k. split; [done|].
  intros i Hi. specialize (Hmin i Hi). destruct (Z.le_gt_cases i j); [by left|right].
  unfold T in *. nia.
Qed.

(** A target whose claim belongs to the planner's clock. *)
Definition target_ok (p : PresentationDeadlinePlanner) (t : PresentationTarget) : Prop :=
  is_current p t = true /\ cl_clock_generation (pt_physical_claim t) = pl_clock_generation p.

Lemma predecessor_claim p t :
  is_current p t = true -> pt_physical_claim (physical_predecessor_for p t) = pt_physical_claim t.
Proof.
  unfold physical_predecessor_for, primary_refresh_frontier. by intros ->.
Qed.

Lemma claim_is_strictly_later_intro c f :
  cl_sequence f < cl_sequence c -> cl_presentation_time f < cl_presentation_time c ->
  cl_clock_generation c = cl_clock_generation f -> claim_is_strictly_later c f = true.
Proof.
  intros H1 H2 H3. unfold claim_is_strictly_later. rewrite H3, Z.eqb_refl. zcase; done.
Qed.

(** What the three ways to plan behind a target give, as lemmas. *)
Lemma reactive_after_later p now cost lb t :
  target_ok p lb -> reactive_target_after p now cost lb = Some t ->
  claim_is_strictly_later (pt_physical_claim t) (pt_physical_claim lb) = true /\
  pt_presentation_time t = cl_presentation_time (pt_physical_claim t) /\
  now < pt_presentation_time t.
Proof.
  intros [Hc Hg]. unfold reactive_target_after, reactive_of. rewrite Hc, predecessor_claim by done.
  intros (r & Hr & ([[s0 t0] e0] & Hs & (f & Hf & [= <-])%bind_Some)%bind_Some)%bind_Some. cbn.
  apply first_future_refresh_after_gt in Hs as (H1 & H2 & H3); [|done].
  split; [|done]. by apply claim_is_strictly_later_intro.
Qed.

Lemma successor_after_later p p' now cost reason lb t :
  target_ok p lb -> plan_successor_after lb now cost reason p = (p', Some t) ->
  claim_is_strictly_later (pt_physical_claim t) (pt_physical_claim lb) = true /\
  now < pt_presentation_time t /\ scheduled p' = Some t /\ pt_reason t = reason /\
  exists est, first_future_refresh_after p now (pt_physical_claim lb)
              = Some (pt_sequence t, pt_presentation_time t, est).
Proof.
  intros [Hc Hg]. unfold plan_successor_after. rewrite Hc, predecessor_claim by done. cbn [negb].
  destruct (_ ≫= _) as [[[r [[s0 t0] e0]] f]|] eqn:E; [|done].
  apply bind_Some in E as (r' & Hr & (sel & Hs & (g & Hf & [= -> -> _])%bind_Some)%bind_Some).
  intros H. pose proof (first_future_refresh_after_gt _ _ _ _ _ _ Hg Hs) as (H1 & H2 & H3).
  injection H as <- <-. cbn. repeat split; eauto. by apply claim_is_strictly_later_intro.
Qed.

Lemma render_ahead_next p p' now cost reason lb t :
  target_ok p lb -> 0 < pl_refresh_interval p ->
  plan_render_ahead lb now cost reason p = (p', Some t) ->
  pt_sequence t = cl_sequence (pt_physical_claim lb) + 1 /\
  pt_presentation_time t =
    cl_presentation_time (pt_physical_claim lb) + duration_ns (pl_refresh_interval p) /\
  claim_is_strictly_later (pt_physical_claim t) (pt_physical_claim lb) = true /\
  scheduled p' = Some t /\
  (pt_predicted_unreachable t = true ->
     reason = PredictedPressure \/ reason = ProvenReadinessMiss \/ reason = ForcedValidation).
Proof.
  intros [Hc Hg] Hp. unfold plan_render_ahead, physical_predecessor_for, primary_refresh_frontier.
  rewrite Hc. cbn [negb pt_sequence pt_presentation_time pt_refresh_interval pt_estimated].
  destruct (_ ≫= _) as [[[[s0 t0] u] f]|] eqn:E; [|done].
  apply bind_Some in E as (s & Hs & E). apply bind_Some in E as (t1 & Ht & E).
  apply bind_Some in E as (r & Hr & E).
  unfold ts_checked_add, checked_add in Hs, Ht.
  apply checked_Some in Hs as [-> _]. apply checked_Some in Ht as [-> _].
  destruct (_ && _) eqn:Hb in E; [done|]. apply bind_Some in E as (g & _ & [= <- <- <- _]).
  intros H. injection H as <- <-. cbn.
  assert (0 < duration_ns (pl_refresh_interval p)) by (unfold duration_ns, u64_max; lia).
  repeat split; try done; [apply claim_is_strictly_later_intro; cbn; (done || lia)|].
  intros Hu. rewrite Hu in Hb. destruct reason; try discriminate; auto.
Qed.

(** The first refresh after a claim that is not before [ready]. *)
Lemma earliest_reachable_after_claim_spec p ready f c :
  0 < pl_refresh_interval p <= u64_max ->
  earliest_reachable_after_claim p ready f = Some c ->
  cl_clock_generation c = cl_clock_generation f /\
  exists k, 1 <= k /\ cl_sequence c = cl_sequence f + k /\
    cl_presentation_time c = cl_presentation_time f + k * pl_refresh_interval p /\
    ready <= cl_presentation_time c /\
    (forall j, 1 <= j < k -> cl_presentation_time f + j * pl_refresh_interval p < ready).
Proof.
  intros Hp. unfold earliest_reachable_after_claim, ts_checked_add, checked_add, checked_mul.
  replace (refresh_ns p) with (pl_refresh_interval p) by (unfold refresh_ns, duration_ns; lia).
  replace (duration_ns (pl_refresh_interval p)) with (pl_refresh_interval p)
    by (unfold duration_ns; lia).
  set (r := pl_refresh_interval p) in *.
  intros (s & Hs & (t & Ht & H)%bind_Some)%bind_Some.
  apply checked_Some in Hs as [-> _]. apply checked_Some in Ht as [-> _].
  destruct (Z.ltb_spec (cl_presentation_time f + r) ready).
  - apply bind_Some in H as (x & Hx & (y & Hy & (z & Hz & [= <-])%bind_Some)%bind_Some).
    apply checked_Some in Hx as [-> _]. apply checked_Some in Hy as [-> _].
    apply checked_Some in Hz as [-> _]. cbn. split; [done|].
    destruct (div_ceil_spec (ready - (cl_presentation_time f + r)) r) as [H2 H1]; [lia|lia|].
    exists (1 + div_ceil (ready - (cl_presentation_time f + r)) r).
    repeat split; [lia|lia|lia|lia|]. intros j Hj. nia.
  - injection H as <-. cbn. split; [done|]. exists 1. repeat split; [lia|lia|lia|]. lia.
Qed.

(** The guards a pull-in passed. *)
Lemma ready_target_pull_in_inv p now svc f cur r :
  ready_target_pull_in p now svc f cur = Some r ->
  is_current p cur = true /\ is_binding cur = true /\
  cl_clock_generation f = pl_clock_generation p /\
  claim_is_strictly_later (pt_physical_claim cur) f = true /\
  abandoned_target r = cur /\
  let new := replacement_target r in
  let c := pt_physical_claim new in
  claim_is_strictly_earlier c (pt_physical_claim cur) = true /\
  pt_sequence new = cl_sequence c /\ pt_presentation_time new = cl_presentation_time c /\
  pt_reason new = pt_reason cur /\ is_current p new = true /\
  exists ready, ts_checked_add now (ready_total_ns svc) = Some ready /\
    earliest_reachable_after_claim p ready f = Some c.
Proof.
  unfold ready_target_pull_in. destruct (_ || _) eqn:G; [done|].
  repeat (apply orb_false_elim in G as [G ?]).
  intros (ready & Hr & (c & Hc & Hres)%bind_Some)%bind_Some.
  destruct (claim_is_strictly_earlier c (pt_physical_claim cur)) eqn:He; [|done].
  injection Hres as <-. cbn. unfold is_current in *. cbn. rewrite Z.eqb_refl.
  repeat match goal with H : negb _ = false |- _ => apply negb_false_iff in H end.
  repeat split; try done; [by apply Z.eqb_eq|]. eauto.
Qed.

(** ** Claims of observed pageflips *)

(** The claim recorded for a pageflip observed after [previous]. *)
Definition recorded_claim (prepared previous : PrimaryRefreshClaim) : PrimaryRefreshClaim :=
  default prepared (strictly_after_primary prepared previous).

(** Recorded primary claims of one clock strictly increase, and a claim that
    already does is kept. *)
Lemma recorded_claim_later prepared previous :
  cl_clock_generation previous = cl_clock_generation prepared ->
  0 <= cl_sequence previous < u64_max -> 0 <= cl_presentation_time previous < u64_max ->
  claim_is_strictly_later (recorded_claim prepared previous) previous = true /\
  (claim_is_strictly_later prepared previous = true -> recorded_claim prepared previous = prepared).
Proof.
  intros Hg Hs Ht. unfold recorded_claim, strictly_after_primary.
  rewrite Hg, Z.eqb_refl. cbn [negb]. unfold checked_add.
  rewrite checked_in by lia. cbn [mbind option_bind]. rewrite checked_in by lia.
  cbn [mbind option_bind].
  destruct (_ && _) eqn:E; cbn [default].
  - apply andb_prop in E as [E1%Z.eqb_eq E2%Z.eqb_eq]. split; [|done].
    apply claim_is_strictly_later_intro; [lia|lia|done].
  - split; [apply claim_is_strictly_later_intro; cbn; (done || lia)|].
    unfold claim_is_strictly_later. intros [[H1%Z.ltb_lt H2%Z.ltb_lt]%andb_prop _]%andb_prop.
    exfalso. apply andb_false_iff in E as [E%Z.eqb_neq|E%Z.eqb_neq]; lia.
Qed.

(** An observed pageflip after the anchor is given the nearest refresh. *)
Lemma prepare_presented_nearest p a t :
  planner_ok p -> last_presented_at p = Some a -> pl_refresh_interval p <= u64_max ->
  a <= t -> t - a + pl_refresh_interval p / 2 <= u64_max ->
  last_presented_sequence p + (t - a) / pl_refresh_interval p + 1 <= u64_max ->
  exists k, 0 <= k /\ cl_sequence (prepare_presented p t) = last_presented_sequence p + k /\
    2 * Z.abs (t - (a + k * pl_refresh_interval p)) <= pl_refresh_interval p.
Proof.
  intros Hok Ha Hfit Hat H1 H2. unfold prepare_presented. rewrite Ha, (refresh_ns_eq p Hok Hfit).
  destruct Hok as [_ Hs _ Hp _]. set (r := pl_refresh_interval p) in *. cbn [cl_sequence].
  unfold sat_add, sat_sub. rewrite (Z.max_r 0 (t - a)), (Z.min_r u64_max (t - a + r / 2)) by lia.
  pose proof (Z.div_mod r 2 ltac:(lia)). pose proof (Z.mod_pos_bound r 2 ltac:(lia)).
  pose proof (Z.div_mod (t - a + r / 2) r ltac:(lia)).
  pose proof (Z.mod_pos_bound (t - a + r / 2) r ltac:(lia)).
  pose proof (Z.div_mod (t - a) r ltac:(lia)). pose proof (Z.mod_pos_bound (t - a) r ltac:(lia)).
  set (k := (t - a + r / 2) / r) in *.
  assert (0 <= k) by (apply Z.div_pos; lia).
  assert (k <= (t - a) / r + 1) by nia.
  exists k. split; [done|]. split; [lia|]. nia.
Qed.

(** A target identity can be planned again right after it was abandoned: the
    counter of such reuses reaches 1. *)
Definition demo_planner : PresentationDeadlinePlanner :=
  planner_run (planner_new 10000000) [OpNotePresented 1000000000].
Lemma abandoned_identity_reused :
  target_identity_reuse_after_abandonment
    (planner_run demo_planner
       [OpPlanNormal 1000000000 2000000; OpAbandon; OpPlanNormal 1000000000 2000000]) = 1.
Proof. reflexivity. Qed.

(** ** Properties *)

(** A planner that starts at [new] and receives any calls keeps its
    invariant: the clock generation is a nonzero [u64], the refresh interval is
    positive, and the scheduled target belongs to the current clock. A target
    that was current at some point is never current again once the output was
    invalidated, whatever is called in between, until the generation counter
    is exhausted. *)
Theorem stale_targets_stay_stale (d : Duration) (before after : list PlannerOp)
  (t : PresentationTarget)
  (Hd : 0 <= d) (Hb : Forall planner_op_ok before) (Ha : Forall planner_op_ok after)
  (Hn : 1 + invalidations before + invalidations after < u64_max)
  (Hcur : is_current (planner_run (planner_new d) before) t = true)
  (Hinv : 1 <= invalidations after) :
  let p := planner_run (planner_run (planner_new d) before) after in
  planner_ok p /\ is_current p t = false /\ scheduled p <> Some t.
Proof.
  assert (Hp0 := planner_new_ok d Hd). assert (Hp1 := planner_run_ok _ _ Hb Hp0).
  assert (Hp2 := planner_run_ok _ _ Ha Hp1). cbn zeta.
  assert (0 <= invalidations before) by (unfold invalidations; lia).
  assert (Hg1 := planner_run_generation _ _ Hb Hp0 ltac:(cbn; lia)).
  assert (Hg2 := planner_run_generation _ _ Ha Hp1 ltac:(rewrite Hg1; cbn; lia)).
  assert (Hs : is_current (planner_run (planner_run (planner_new d) before) after) t = false).
  { unfold is_current in *. apply Z.eqb_eq in Hcur. apply Z.eqb_neq. lia. }
  split; [done|]. split; [done|]. intros Hsch. apply Hp2 in Hsch. congruence.
Qed.

Lemma stale_targets_stay_stale_witness :
  let before := [OpNotePresented 1000000000; OpPlanNormal 1000000000 2000000] in
  let after := [OpAbandon; OpInvalidate 8000000; OpPlanNormal 1000000001 2000000] in
  exists t, scheduled (planner_run (planner_new 10000000) before) = Some t /\
  is_current (planner_run (planner_run (planner_new 10000000) before) after) t = false.
Proof.
  eexists. split; [reflexivity|].
  eapply (stale_targets_stay_stale 10000000
    [OpNotePresented 1000000000; OpPlanNormal 1000000000 2000000]
    [OpAbandon; OpInvalidate 8000000; OpPlanNormal 1000000001 2000000]).
  - lia.
  - repeat constructor; int_lia.
  - repeat constructor; cbn; int_lia.
  - reflexivity.
  - reflexivity.
  - vm_compute. discriminate.
Defined.

Lemma plan_not_before_run p now requested cost ready s t est s' t' est' :
  ts_checked_add now cost = Some ready -> earliest_reachable p ready = Some (s', t', est') ->
  earliest_reachable p (Z.max ready requested) = Some (s, t, est) ->
  exists p' target, plan_not_before now requested cost p = (p', Some target) /\
    scheduled p' = Some target /\ pt_sequence target = s /\ pt_presentation_time target = t /\
    pt_render_start_deadline target = ts_saturating_sub_duration t cost /\
    pt_reason target = CommitTiming /\
    earliest_feasible_sequence (pt_selection_evidence target) = s'.
Proof.
  intros H1 H2 H3. unfold plan_not_before. rewrite H1. cbn [mbind option_bind].
  rewrite H2. cbn [mbind option_bind]. rewrite H3. cbn. eauto 10.
Qed.

(** Commit timing. With an anchored clock and no overflow, planning
    returns a target: the first refresh that is neither before the time the
    frame can be ready nor before the client's requested time. The target is
    scheduled, it leaves room for the predicted cost after now, and its
    recorded evidence names the first refresh that the cost alone allows,
    never a later one than the target. *)
Theorem commit_timing_first_eligible (p : PresentationDeadlinePlanner)
  (a now requested : MonotonicTimestampNs) (cost : Duration)
  (Hok : planner_ok p) (Ha : last_presented_at p = Some a)
  (Hr : pl_refresh_interval p <= u64_max) (Hnow : 0 <= now) (Hreq : 0 <= requested)
  (Hcost : 0 <= cost)
  (Htime : Z.max (Z.max (now + cost) requested) a + pl_refresh_interval p <= u64_max)
  (Hseq : last_presented_sequence p
          + Z.max (now + cost) requested / pl_refresh_interval p + 1 <= u64_max) :
  exists p' t k, plan_not_before now requested cost p = (p', Some t) /\
    scheduled p' = Some t /\ 1 <= k /\
    on_grid p a (pt_sequence t) (pt_presentation_time t) k /\
    now + cost <= pt_presentation_time t /\ requested <= pt_presentation_time t /\
    (forall j, 1 <= j < k -> a + j * pl_refresh_interval p < Z.max (now + cost) requested) /\
    now <= pt_render_start_deadline t /\
    pt_render_start_deadline t + cost = pt_presentation_time t /\
    earliest_feasible_sequence (pt_selection_evidence t) <= pt_sequence t.
Proof.
  assert (Hp : 0 < pl_refresh_interval p) by apply Hok.
  assert (Hready : ts_checked_add now cost = Some (now + cost)).
  { unfold ts_checked_add, checked_add, duration_ns. rewrite Z.min_l by lia.
    apply checked_in. lia. }
  assert (Hdiv : (now + cost) / pl_refresh_interval p
                 <= Z.max (now + cost) requested / pl_refresh_interval p)
    by (apply Z.div_le_mono; lia).
  destruct (earliest_reachable_total p a Hok Ha Hr (now + cost)) as (s0 & t0 & H0); [lia..|].
  destruct (earliest_reachable_total p a Hok Ha Hr (Z.max (now + cost) requested))
    as (s1 & t1 & H1); [lia..|].
  destruct (earliest_reachable_spec p a Hok Ha Hr (now + cost) _ _ _ ltac:(lia) H0)
    as (_ & k0 & Hk0 & [Hs0 Ht0] & Hle0 & Hmin0).
  destruct (earliest_reachable_spec p a Hok Ha Hr (Z.max (now + cost) requested)
              _ _ _ ltac:(lia) H1)
    as (_ & k1 & Hk1 & [Hs1 Ht1] & Hle1 & Hmin1).
  destruct (plan_not_before_run p now requested cost _ _ _ _ _ _ _ Hready H0 H1)
    as (p' & t & Hplan & Hsch & E1 & E2 & E3 & _ & E5).
  assert (k0 <= k1) by (destruct (Z.le_gt_cases k0 k1); [done|]; specialize (Hmin0 k1); nia).
  exists p', t, k1. rewrite E1, E2, E3, E5. unfold ts_saturating_sub_duration, sat_sub, duration_ns.
  rewrite Z.min_l by lia. repeat split; try done; lia.
Qed.

Lemma commit_timing_first_eligible_witness :
  exists p' t k,
    plan_not_before 1001000000 1034000000 3000000 demo_planner = (p', Some t) /\
    on_grid demo_planner 1000000000 (pt_sequence t) (pt_presentation_time t) k /\
    1034000000 <= pt_presentation_time t.
Proof.
  destruct (commit_timing_first_eligible demo_planner 1000000000 1001000000 1034000000 3000000)
    as (p' & t & k & H1 & _ & _ & H2 & _ & H3 & _);
    [|reflexivity|vm_compute; discriminate..|].
  - apply planner_run_ok; [repeat constructor; int_lia|apply planner_new_ok; lia].
  - exists p', t, k. split; [exact H1|]. split; [exact H2|exact H3].
Defined.

(** Ordering of successors. Planning behind a target of the current
    clock always gives a refresh strictly later, in sequence and in time, than
    that target's physical claim: the reactive and replanned choices are also
    strictly in the future, rendering ahead takes exactly the next refresh, and
    is refused for an unreachable one unless pressure, a proven miss or
    validation demands it. From a claim on the refresh grid the replanned
    target is the first later refresh after now. *)
Theorem successors_strictly_later (p : PresentationDeadlinePlanner) (lb : PresentationTarget)
  (now : MonotonicTimestampNs) (cost : Duration) (reason : PresentationTargetReason)
  (Hok : planner_ok p) (Hlb : target_ok p lb) (Hnow : 0 <= now) :
  let later t := claim_is_strictly_later (pt_physical_claim t) (pt_physical_claim lb) = true in
  (forall t, reactive_target_after p now cost lb = Some t ->
     later t /\ now < pt_presentation_time t) /\
  (forall p' t, plan_successor_after lb now cost reason p = (p', Some t) ->
     later t /\ now < pt_presentation_time t /\ scheduled p' = Some t /\
     forall a j, last_presented_at p = Some a -> pl_refresh_interval p <= u64_max ->
       on_grid p a (cl_sequence (pt_physical_claim lb))
         (cl_presentation_time (pt_physical_claim lb)) j ->
       exists k, on_grid p a (pt_sequence t) (pt_presentation_time t) k /\
         forall i, 1 <= i < k -> i <= j \/ a + i * pl_refresh_interval p <= now) /\
  (forall p' t, plan_render_ahead lb now cost reason p = (p', Some t) ->
     later t /\ pt_sequence t = cl_sequence (pt_physical_claim lb) + 1 /\
     scheduled p' = Some t /\
     (pt_predicted_unreachable t = true ->
        reason = PredictedPressure \/ reason = ProvenReadinessMiss \/ reason = ForcedValidation)).
Proof.
  cbn zeta. split; [|split].
  - intros t Ht. apply reactive_after_later in Ht as (H1 & _ & H2); done.
  - intros p' t Ht. apply successor_after_later in Ht as (H1 & H2 & H3 & _ & est & H4); [|done].
    do 3 (split; [done|]). intros a j Ha Hr Hj.
    destruct (first_future_refresh_after_grid _ _ _ _ _ _ _ _ Hok Ha Hr Hnow (proj2 Hlb) Hj H4)
      as (_ & k & Hk). eauto.
  - intros p' t Ht. apply render_ahead_next in Ht as (H1 & _ & H2 & H3 & H4); [done..|apply Hok].
Qed.

Definition demo_ready : PresentationTarget :=
  (make_target 5 1050000000 3000000 CommitTiming false false 0 demo_planner).2.
Lemma successors_strictly_later_witness :
  exists p' t, plan_successor_after demo_ready 1011000000 3000000 CommitTiming demo_planner
      = (p', Some t) /\
    claim_is_strictly_later (pt_physical_claim t) (pt_physical_claim demo_ready) = true.
Proof.
  destruct (plan_successor_after demo_ready 1011000000 3000000 CommitTiming demo_planner)
    as [p' [t|]] eqn:E; [|vm_compute in E; discriminate].
  exists p', t. split; [reflexivity|].
  destruct (successors_strictly_later demo_planner demo_ready 1011000000 3000000 CommitTiming)
    as (_ & H & _); [| |lia|exact (proj1 (H _ _ E))].
  - apply planner_run_ok; [repeat constructor; int_lia|apply planner_new_ok; lia].
  - split; reflexivity.
Defined.

(** Pulling a READY frame in. A replacement is only made for a binding
    target of the current clock; it lies strictly between the physical
    frontier and the abandoned target, is the first refresh after the frontier
    that the remaining service can still meet, and keeps the reason. *)
Theorem ready_pull_in_between (p : PresentationDeadlinePlanner) (now : MonotonicTimestampNs)
  (svc : ReadyPresentationServiceEstimate) (frontier : PrimaryRefreshClaim)
  (cur : PresentationTarget) (r : ReadyTargetPullIn)
  (Hp : 0 < pl_refresh_interval p <= u64_max)
  (Hpull : ready_target_pull_in p now svc frontier cur = Some r) :
  let new := replacement_target r in
  abandoned_target r = cur /\ is_binding cur = true /\ is_current p new = true /\
  pt_reason new = pt_reason cur /\
  claim_is_strictly_later (pt_physical_claim new) frontier = true /\
  claim_is_strictly_earlier (pt_physical_claim new) (pt_physical_claim cur) = true /\
  pt_sequence new = cl_sequence (pt_physical_claim new) /\
  exists ready k, ts_checked_add now (ready_total_ns svc) = Some ready /\
    ready <= pt_presentation_time new /\ pt_sequence new = cl_sequence frontier + k /\
    forall j, 1 <= j < k ->
      cl_presentation_time frontier + j * pl_refresh_interval p < ready.
Proof.
  apply ready_target_pull_in_inv in Hpull as
    (H1 & H2 & H3 & H4 & H5 & H6 & H7 & H8 & H9 & H10 & ready & Hr & Hc). cbn zeta.
  apply earliest_reachable_after_claim_spec in Hc as (Hg & k & Hk & Es & Et & Hle & Hmin); [|done].
  do 4 (split; [done|]). split; [apply claim_is_strictly_later_intro; [lia|nia|done]|].
  do 2 (split; [done|]). exists ready, k. rewrite H7, H8. done.
Qed.

Lemma ready_pull_in_between_witness :
  exists r, ready_target_pull_in demo_planner 1015000000 (mkReadyService 1000000 500000)
      (mkClaim 2 1010000000 1) demo_ready = Some r /\
    claim_is_strictly_earlier (pt_physical_claim (replacement_target r))
      (pt_physical_claim demo_ready) = true.
Proof.
  eexists. split; [reflexivity|].
  refine (proj1 (proj2 (proj2 (proj2 (proj2 (proj2 (ready_pull_in_between demo_planner
    1015000000 (mkReadyService 1000000 500000) (mkClaim 2 1010000000 1) demo_ready _ _ _))))))).
  - vm_compute. split; [reflexivity|discriminate].
  - reflexivity.
Defined.
