(* ===== verification/Scheduler.v ===== *)
(** * Scheduler: absolute-deadline frame scheduling

    Models src/native/scheduler.rs and src/native/scheduler/pipeline.rs: the
    frame scheduler of one output with its queued work, the READY frame, the
    worker reservation and the pending page flip; the decision procedures for
    the legacy and the explicit Atomic path; and the cadence metrics. What a
    decision needs from the output's presentation pipeline is the class
    [PresentationPipelineView]. *)

From stdpp Require Import base list option.
From Stdlib Require Import ZArith Lia.
From S2P Require Import Prelude Buffering Deadline.

(** ** Vocabulary *)

Inductive SchedulerDecision : Type :=
  DIdle | DRender | DRenderAhead | DSubmitReady | DSubmitReadyLate | DReadyTargetInvalidated
| DCompleteProtocolOnly | DWaitForRefresh | DWaitForBuffer | DWaitForPageFlip
| DWaitForWorkerQueue | DPageFlipWatchdogExpired.

Inductive SchedulerState : Type :=
  SIdle | SVisualWorkQueued | SProtocolWorkQueued | SRefreshDeadlineArmed | SPageFlipPending
| SWorkerQueued | SReadyFrameQueued.

Inductive NativeOutputPacingMode : Type := PacingReactiveDouble | PacingPredictiveTriple.
Inductive KmsBackendKind : Type := KmsAtomic | KmsLegacy.

Record SchedulerCapabilities : Type := mkCapabilities {
  kms_backend : KmsBackendKind;
  primary_plane_in_fence : bool;
  explicit_output_swapchain : bool
}.
Definition for_backend (k : KmsBackendKind) : SchedulerCapabilities := mkCapabilities k false false.
Definition with_primary_plane_in_fence (available : bool) (c : SchedulerCapabilities)
  : SchedulerCapabilities := mkCapabilities (kms_backend c) available (explicit_output_swapchain c).
Definition with_explicit_output_swapchain (available : bool) (c : SchedulerCapabilities)
  : SchedulerCapabilities := mkCapabilities (kms_backend c) (primary_plane_in_fence c) available.
Definition explicit_atomic (in_fence swapchain : bool) : SchedulerCapabilities :=
  with_explicit_output_swapchain swapchain
    (with_primary_plane_in_fence in_fence (for_backend KmsAtomic)).
Definition legacy : SchedulerCapabilities := for_backend KmsLegacy.
Definition caps_render_ahead_allowed (c : SchedulerCapabilities) : bool :=
  match kms_backend c with KmsAtomic => true | KmsLegacy => false end
  && primary_plane_in_fence c && explicit_output_swapchain c.

Record SchedulerFrameContext : Type := mkFrameContext {
  fc_pacing_mode : NativeOutputPacingMode;
  fc_capabilities : SchedulerCapabilities;
  fc_presentation_target : option PresentationTarget;
  fc_predicted_total_cost : Duration;
  fc_now : MonotonicTimestampNs;
  fc_render_target_available : bool;
  fc_render_ahead_allowed : bool;
  fc_ready_frame_present : bool;
  fc_ready_target_current : bool;
  fc_worker_queue_available : bool
}.

Inductive PageFlipCompletionResult : Type :=
| Completed (submitted_at_ns : Z)
| Mismatched (expected : Z)
| Stale.

Record WorkerSubmissionReservation : Type := mkReservation {
  res_token : Z;
  res_transaction_id : Z
}.

Record PreparedReadyTargetMetadataRebase : Type := mkRebase {
  expected_target : option PresentationTarget;
  rebase_replacement : option PresentationTarget
}.

Inductive SubmissionReservationState : Type :=
| NoReservation
| WorkerQueuedState (token transaction_id : Z)
| KernelSubmitted (token transaction_id : Z).

(** The error messages of the fallible operations. *)
Inductive SchedulerError : Type :=
  PageFlipTokenZero | PageFlipAlreadyPending | NoReadyOwner | ReadyTargetMismatch
| WorkerIdentityZero | WorkerAlreadyQueued | NoWorkerQueued | WorkerTokenMismatch
| KernelFlipAlreadyPending | ReservationNotQueued | ReservationMismatch.

(** ** The scheduler *)

Record NativeFrameScheduler : Type := mkScheduler {
  refresh_interval_ns : Z;
  anchor_ns : Z;
  visual_work_queued : bool;
  protocol_work_queued : bool;
  pending_page_flip_token : option Z;
  pending_page_flip_submitted_at_ns : option Z;
  pending_page_flip_transaction_id : option Z;
  worker_queued : option WorkerSubmissionReservation;
  ready_frame_queued : bool;
  ready_target : option PresentationTarget;
  ready_untimed : bool;
  refresh_deadline_ns : option Z;
  watchdog_deadline_ns : option Z;
  watchdog_interval_ns : Z;
  watchdog_timeout_count : Z;
  watchdog_reported : bool
}.

Definition DEFAULT_PAGE_FLIP_WATCHDOG_NS : Z := 1000000000.

Definition with_refresh_interval_and_watchdog (refresh anchor watchdog : Z) : NativeFrameScheduler :=
  mkScheduler (Z.max refresh 1) anchor false false None None None None false None false None None
    (Z.max watchdog 1) 0 false.
Definition with_watchdog (refresh_hz anchor watchdog : Z) : NativeFrameScheduler :=
  let refresh_hz := if refresh_hz =? 0 then 60 else clampZ 30 360 refresh_hz in
  with_refresh_interval_and_watchdog (1000000000 / refresh_hz) anchor watchdog.
Definition scheduler_new (refresh_hz anchor : Z) : NativeFrameScheduler :=
  with_watchdog refresh_hz anchor DEFAULT_PAGE_FLIP_WATCHDOG_NS.
Definition new_with_refresh_interval_ns (refresh anchor : Z) : NativeFrameScheduler :=
  with_refresh_interval_and_watchdog refresh anchor DEFAULT_PAGE_FLIP_WATCHDOG_NS.

(** Field assignments, grouped as the operations make them. *)
Definition set_work (visual protocol : bool) (deadline : option Z) (s : NativeFrameScheduler)
  : NativeFrameScheduler :=
  mkScheduler (refresh_interval_ns s) (anchor_ns s) visual protocol (pending_page_flip_token s)
    (pending_page_flip_submitted_at_ns s) (pending_page_flip_transaction_id s) (worker_queued s)
    (ready_frame_queued s) (ready_target s) (ready_untimed s) deadline (watchdog_deadline_ns s)
    (watchdog_interval_ns s) (watchdog_timeout_count s) (watchdog_reported s).
Definition set_pending (token submitted transaction : option Z) (s : NativeFrameScheduler)
  : NativeFrameScheduler :=
  mkScheduler (refresh_interval_ns s) (anchor_ns s) (visual_work_queued s) (protocol_work_queued s)
    token submitted transaction (worker_queued s)
    (ready_frame_queued s) (ready_target s) (ready_untimed s) (refresh_deadline_ns s)
    (watchdog_deadline_ns s) (watchdog_interval_ns s) (watchdog_timeout_count s)
    (watchdog_reported s).
Definition set_worker (w : option WorkerSubmissionReservation) (s : NativeFrameScheduler)
  : NativeFrameScheduler :=
  mkScheduler (refresh_interval_ns s) (anchor_ns s) (visual_work_queued s) (protocol_work_queued s)
    (pending_page_flip_token s) (pending_page_flip_submitted_at_ns s)
    (pending_page_flip_transaction_id s) w
    (ready_frame_queued s) (ready_target s) (ready_untimed s) (refresh_deadline_ns s)
    (watchdog_deadline_ns s) (watchdog_interval_ns s) (watchdog_timeout_count s)
    (watchdog_reported s).
Definition set_ready (queued : bool) (target : option PresentationTarget) (untimed : bool)
  (s : NativeFrameScheduler) : NativeFrameScheduler :=
  mkScheduler (refresh_interval_ns s) (anchor_ns s) (visual_work_queued s) (protocol_work_queued s)
    (pending_page_flip_token s) (pending_page_flip_submitted_at_ns s)
    (pending_page_flip_transaction_id s) (worker_queued s)
    queued target untimed (refresh_deadline_ns s)
    (watchdog_deadline_ns s) (watchdog_interval_ns s) (watchdog_timeout_count s)
    (watchdog_reported s).
Definition set_watchdog (deadline : option Z) (count : Z) (reported : bool)
  (s : NativeFrameScheduler) : NativeFrameScheduler :=
  mkScheduler (refresh_interval_ns s) (anchor_ns s) (visual_work_queued s) (protocol_work_queued s)
    (pending_page_flip_token s) (pending_page_flip_submitted_at_ns s)
    (pending_page_flip_transaction_id s) (worker_queued s)
    (ready_frame_queued s) (ready_target s) (ready_untimed s) (refresh_deadline_ns s)
    deadline (watchdog_interval_ns s) count reported.
Definition set_anchor (anchor : Z) (s : NativeFrameScheduler) : NativeFrameScheduler :=
  mkScheduler (refresh_interval_ns s) anchor (visual_work_queued s) (protocol_work_queued s)
    (pending_page_flip_token s) (pending_page_flip_submitted_at_ns s)
    (pending_page_flip_transaction_id s) (worker_queued s)
    (ready_frame_queued s) (ready_target s) (ready_untimed s) (refresh_deadline_ns s)
    (watchdog_deadline_ns s) (watchdog_interval_ns s) (watchdog_timeout_count s)
    (watchdog_reported s).

(** The addition is unchecked in the source: it wraps around in a release
    build, which takes an interval of one nanosecond and the largest [u64]. *)
Definition first_boundary_after (s : NativeFrameScheduler) (now_ns : Z) : Z :=
  let elapsed := sat_sub now_ns (anchor_ns s) in
  let intervals := (elapsed / refresh_interval_ns s + 1) mod 2 ^ 64 in
  sat_add u64_max (anchor_ns s) (sat_mul u64_max intervals (refresh_interval_ns s)).
Definition next_refresh_deadline_ns : NativeFrameScheduler -> Z -> Z := first_boundary_after.

Definition queue_visual_work (s : NativeFrameScheduler) : NativeFrameScheduler :=
  set_work true false None s.
Definition consume_visual_work (s : NativeFrameScheduler) : NativeFrameScheduler :=
  set_work false false None s.

Definition queue_protocol_work (now_ns : Z) (s : NativeFrameScheduler) : NativeFrameScheduler :=
  if visual_work_queued s then s
  else
    let deadline :=
      match pending_page_flip_token s, refresh_deadline_ns s with
      | None, None => Some (first_boundary_after s now_ns)
      | _, d => d
      end in
    set_work (visual_work_queued s) true deadline s.

(** [target.is_some_and(|t| now < f(t))] and its counterpart. *)
Definition before_time (now_ns : Z) (f : PresentationTarget -> Z) (t : option PresentationTarget)
  : bool := match t with Some t => now_ns <? f t | None => false end.
Definition at_or_after_time (now_ns : Z) (f : PresentationTarget -> Z)
  (t : option PresentationTarget) : bool :=
  match t with Some t => f t <=? now_ns | None => false end.

(** The watchdog check shared by the decision procedures: expired, and
    counted on the first report. *)
Definition page_flip_watchdog_expired (now_ns : Z) (s : NativeFrameScheduler)
  : NativeFrameScheduler * bool :=
  match watchdog_deadline_ns s with
  | None => (s, false)
  | Some deadline =>
      if now_ns <? deadline then (s, false)
      else if negb (watchdog_reported s)
      then (set_watchdog (watchdog_deadline_ns s)
              (sat_add u64_max (watchdog_timeout_count s) 1) true s, true)
      else (s, true)
  end.

(** The protocol-only tail shared by both decision procedures. *)
Definition protocol_decision (now_ns : Z) (s : NativeFrameScheduler)
  : NativeFrameScheduler * SchedulerDecision :=
  let '(s, deadline) :=
    match refresh_deadline_ns s with
    | Some deadline => (s, deadline)
    | None =>
        let deadline := first_boundary_after s now_ns in
        (set_work (visual_work_queued s) (protocol_work_queued s) (Some deadline) s, deadline)
    end in
  (s, if deadline <=? now_ns then DCompleteProtocolOnly else DWaitForRefresh).

Definition decision_with_context (context : SchedulerFrameContext) (s : NativeFrameScheduler)
  : NativeFrameScheduler * SchedulerDecision :=
  let now_ns := fc_now context in
  let target := fc_presentation_target context in
  let flip_pending := bool_decide (is_Some (pending_page_flip_token s)) in
  let watchdog_or_wait :=
    let '(s, expired) := page_flip_watchdog_expired now_ns s in
    (s, if expired then DPageFlipWatchdogExpired else DWaitForPageFlip) in
  (* the part both pacing modes reach *)
  let common :=
    if flip_pending then
      if visual_work_queued s then
        if (fc_ready_frame_present context || ready_frame_queued s)
           && fc_worker_queue_available context && fc_render_ahead_allowed context
           && caps_render_ahead_allowed (fc_capabilities context)
        then
          (s, if before_time now_ns pt_submit_not_before target then DWaitForRefresh
              else if at_or_after_time now_ns pt_presentation_time target then DSubmitReadyLate
              else DSubmitReady)
        else if fc_ready_frame_present context || ready_frame_queued s then (s, DWaitForPageFlip)
        else if negb (fc_render_target_available context) then (s, DWaitForBuffer)
        else if negb (fc_render_ahead_allowed context)
                || negb (caps_render_ahead_allowed (fc_capabilities context))
                || negb (bool_decide (is_Some target))
        then (s, DWaitForPageFlip)
        else if before_time now_ns pt_render_start_deadline target then (s, DWaitForRefresh)
        else (s, DRenderAhead)
      else watchdog_or_wait
    else if ready_frame_queued s then
      (s, if bool_decide (is_Some (ready_target s)) && negb (fc_ready_target_current context)
          then DReadyTargetInvalidated
          else if before_time now_ns pt_submit_not_before (ready_target s) then DWaitForRefresh
          else if at_or_after_time now_ns pt_presentation_time (ready_target s)
          then DSubmitReadyLate
          else DSubmitReady)
    else if visual_work_queued s then
      (s, if before_time now_ns pt_render_start_deadline target then DWaitForRefresh else DRender)
    else if protocol_work_queued s then protocol_decision now_ns s
    else (s, DIdle) in
  if bool_decide (is_Some (worker_queued s)) then (s, DWaitForWorkerQueue)
  else
    match fc_pacing_mode context with
    | PacingReactiveDouble =>
        if flip_pending then
          if visual_work_queued s then (s, DWaitForBuffer) else watchdog_or_wait
        else if ready_frame_queued s || fc_ready_frame_present context
        then (s, DReadyTargetInvalidated)
        else if visual_work_queued s then (s, DRender)
        else common
    | PacingPredictiveTriple => common
    end.

Definition decision_with_render_target (now_ns : Z) (render_target_available : bool)
  (s : NativeFrameScheduler) : NativeFrameScheduler * SchedulerDecision :=
  decision_with_context
    (mkFrameContext PacingPredictiveTriple legacy None 0 now_ns render_target_available false
       (ready_frame_queued s) true false) s.
Definition decision (now_ns : Z) : NativeFrameScheduler -> NativeFrameScheduler * SchedulerDecision :=
  decision_with_render_target now_ns true.

(** *** Submissions *)

Definition note_async_submission (token now_ns : Z) (s : NativeFrameScheduler)
  : NativeFrameScheduler * res SchedulerError unit :=
  if token =? 0 then (s, Fail PageFlipTokenZero)
  else if bool_decide (is_Some (pending_page_flip_token s))
          || bool_decide (is_Some (worker_queued s))
  then (s, Fail PageFlipAlreadyPending)
  else
    (set_watchdog (Some (sat_add u64_max now_ns (watchdog_interval_ns s)))
       (watchdog_timeout_count s) false
       (set_pending (Some token) (Some now_ns) (Some 0) (set_work false false None s)),
     Ret tt).

Definition note_ready_frame (target : option PresentationTarget) (s : NativeFrameScheduler)
  : NativeFrameScheduler := set_ready true target false (set_work false false None s).
Definition note_render_ahead_ready : NativeFrameScheduler -> NativeFrameScheduler :=
  note_ready_frame None.
Definition note_untimed_ready_frame (s : NativeFrameScheduler) : NativeFrameScheduler :=
  let s := note_ready_frame None s in
  set_ready (ready_frame_queued s) (ready_target s) true s.

Definition prepare_ready_target_metadata_rebase (s : NativeFrameScheduler)
  (expected replacement : option PresentationTarget)
  : res SchedulerError PreparedReadyTargetMetadataRebase :=
  if negb (ready_frame_queued s) then Fail NoReadyOwner
  else if negb (bool_decide (ready_target s = expected)) then Fail ReadyTargetMismatch
  else Ret (mkRebase expected replacement).

(** The two [debug_assert]s panic in a debug build only. *)
Definition commit_ready_target_metadata_rebase (debug_assertions : bool)
  (prepared : PreparedReadyTargetMetadataRebase) (s : NativeFrameScheduler)
  : NativeFrameScheduler * res SchedulerError unit :=
  if debug_assertions
     && negb (ready_frame_queued s && bool_decide (ready_target s = expected_target prepared))
  then (s, Panic)
  else (set_ready (ready_frame_queued s) (rebase_replacement prepared) false s, Ret tt).

Definition consume_ready_frame (s : NativeFrameScheduler) : NativeFrameScheduler :=
  set_ready false None (ready_untimed s) s.
Definition discard_ready_frame : NativeFrameScheduler -> NativeFrameScheduler := consume_ready_frame.

Definition note_ready_submission (token now_ns : Z) (s : NativeFrameScheduler)
  : NativeFrameScheduler * res SchedulerError unit :=
  match note_async_submission token now_ns s with
  | (s, Ret _) => (set_ready false None (ready_untimed s) s, Ret tt)
  | r => r
  end.

Definition reserve_worker_submission (token transaction_id : Z) (s : NativeFrameScheduler)
  : NativeFrameScheduler * res SchedulerError unit :=
  if (token =? 0) || (transaction_id =? 0) then (s, Fail WorkerIdentityZero)
  else if bool_decide (is_Some (worker_queued s)) then (s, Fail WorkerAlreadyQueued)
  else
    (set_ready false None (ready_untimed s)
       (set_work false false None (set_worker (Some (mkReservation token transaction_id)) s)),
     Ret tt).

Definition confirm_kernel_submission (token submitted_at_ns : Z) (s : NativeFrameScheduler)
  : NativeFrameScheduler * res SchedulerError unit :=
  match worker_queued s with
  | None => (s, Fail NoWorkerQueued)
  | Some reservation =>
      if negb (res_token reservation =? token) then (s, Fail WorkerTokenMismatch)
      else if bool_decide (is_Some (pending_page_flip_token s))
      then (s, Fail KernelFlipAlreadyPending)
      else
        (set_watchdog (Some (sat_add u64_max submitted_at_ns (watchdog_interval_ns s)))
           (watchdog_timeout_count s) false
           (set_pending (Some token) (Some submitted_at_ns) (Some (res_transaction_id reservation))
              (set_worker None s)),
         Ret tt)
  end.

Definition cancel_worker_submission_with_requeue (token transaction_id : Z)
  (requeue_visual_work : bool) (s : NativeFrameScheduler)
  : NativeFrameScheduler * res SchedulerError unit :=
  match worker_queued s with
  | None => (s, Fail ReservationNotQueued)
  | Some reservation =>
      if negb (res_token reservation =? token)
         || negb (res_transaction_id reservation =? transaction_id)
      then (s, Fail ReservationMismatch)
      else (set_work requeue_visual_work false None (set_worker None s), Ret tt)
  end.
Definition cancel_worker_submission (token transaction_id : Z)
  : NativeFrameScheduler -> NativeFrameScheduler * res SchedulerError unit :=
  cancel_worker_submission_with_requeue token transaction_id true.
Definition abandon_worker_submission (token transaction_id : Z)
  : NativeFrameScheduler -> NativeFrameScheduler * res SchedulerError unit :=
  cancel_worker_submission_with_requeue token transaction_id false.

Definition note_page_flip_completion (token observed_ns : Z) (s : NativeFrameScheduler)
  : NativeFrameScheduler * PageFlipCompletionResult :=
  match pending_page_flip_token s with
  | None => (s, Stale)
  | Some expected =>
      if negb (token =? expected) then (s, Mismatched expected)
      else
        let submitted_at_ns := default observed_ns (pending_page_flip_submitted_at_ns s) in
        let s := set_anchor observed_ns
                   (set_watchdog None (watchdog_timeout_count s) false
                      (set_pending None None None s)) in
        let s :=
          if protocol_work_queued s && negb (visual_work_queued s)
          then set_work (visual_work_queued s) (protocol_work_queued s)
                 (Some (first_boundary_after s observed_ns)) s
          else s in
        (s, Completed submitted_at_ns)
  end.
Definition complete_kernel_pageflip (token observed_ns : Z)
  : NativeFrameScheduler -> NativeFrameScheduler * PageFlipCompletionResult :=
  note_page_flip_completion token observed_ns.

Definition complete_protocol_only (s : NativeFrameScheduler) : NativeFrameScheduler :=
  set_work (visual_work_queued s) false None s.
Definition note_immediate_completion (s : NativeFrameScheduler) : NativeFrameScheduler :=
  set_ready false None (ready_untimed s) (set_work false false None s).

Definition abandon_for_session_suspend (s : NativeFrameScheduler) : NativeFrameScheduler :=
  set_watchdog None (watchdog_timeout_count s) false
    (set_work (visual_work_queued s) (protocol_work_queued s) None
       (set_ready false None (ready_untimed s)
          (set_worker None (set_pending None None None s)))).

Definition defer_page_flip_watchdog_to_atomic_arbiter (s : NativeFrameScheduler)
  : NativeFrameScheduler := set_watchdog None (watchdog_timeout_count s) false s.

(** *** Queries *)

Definition next_deadline_ns (s : NativeFrameScheduler) : option Z :=
  if bool_decide (is_Some (pending_page_flip_token s)) then watchdog_deadline_ns s
  else if ready_frame_queued s
  then Some (match ready_target s with Some t => pt_submit_not_before t | None => anchor_ns s end)
  else refresh_deadline_ns s.

Definition page_flip_watchdog_deadline_ns (s : NativeFrameScheduler) : option Z :=
  match pending_page_flip_token s with Some _ => watchdog_deadline_ns s | None => None end.

Definition submission_reservation_state (s : NativeFrameScheduler) : SubmissionReservationState :=
  match worker_queued s, pending_page_flip_token s with
  | Some r, _ => WorkerQueuedState (res_token r) (res_transaction_id r)
  | None, Some token => KernelSubmitted token (default 0 (pending_page_flip_transaction_id s))
  | None, None => NoReservation
  end.

Definition ready_frame_untimed (s : NativeFrameScheduler) : bool :=
  ready_frame_queued s && ready_untimed s.

Definition scheduler_state (s : NativeFrameScheduler) : SchedulerState :=
  if bool_decide (is_Some (pending_page_flip_token s)) then SPageFlipPending
  else if bool_decide (is_Some (worker_queued s)) then SWorkerQueued
  else if ready_frame_queued s then SReadyFrameQueued
  else if visual_work_queued s then SVisualWorkQueued
  else if bool_decide (is_Some (refresh_deadline_ns s)) then SRefreshDeadlineArmed
  else if protocol_work_queued s then SProtocolWorkQueued
  else SIdle.

(** *** Cadence metrics *)

Record PresentationCadenceMetrics : Type := mkCadence {
  cm_presentations : Z;
  cm_sequence_gaps : Z;
  cm_last_sequence : option Z;
  cm_last_timestamp_us : option Z;
  cm_last_interval_us : option Z;
  cm_last_sequence_delta : option Z;
  cm_logical_sequence : Z;
  cm_last_logical_sequence_delta : option Z;
  cm_timestamp_fallback_active : bool
}.
Definition cadence_default : PresentationCadenceMetrics :=
  mkCadence 0 0 None None None None 0 None false.

Record PresentationCadenceSample : Type := mkSample {
  sm_presentations : Z;
  sm_interval_us : option Z;
  sm_sequence_delta : option Z;
  sm_sequence_gap : bool;
  sm_logical_sequence : Z;
  sm_logical_sequence_delta : option Z;
  sm_timestamp_sequence_fallback : bool;
  sm_estimated_hz_millihz : option Z;
  sm_sequence_gaps : Z
}.

Definition record_with_refresh (seq timestamp_us refresh_interval_us : Z)
  (m : PresentationCadenceMetrics) : PresentationCadenceMetrics * PresentationCadenceSample :=
  let presentations := sat_add u64_max (cm_presentations m) 1 in
  let interval_us := (fun last => sat_sub timestamp_us last) <$> cm_last_timestamp_us m in
  let sequence_delta := (fun last => (seq - last) mod 2 ^ 32) <$> cm_last_sequence m in
  let logical_sequence_delta :=
    (fun interval =>
       if refresh_interval_us =? 0 then 1
       else Z.max (sat_add u64_max interval (refresh_interval_us / 2) / refresh_interval_us) 1)
    <$> interval_us in
  let logical_sequence :=
    match logical_sequence_delta with
    | Some delta => sat_add u64_max (cm_logical_sequence m) delta
    | None => 1
    end in
  let sequence_gap := match logical_sequence_delta with Some delta => 1 <? delta | None => false end in
  let gaps := if sequence_gap then sat_add u64_max (cm_sequence_gaps m) 1 else cm_sequence_gaps m in
  let hz :=
    match interval_us with
    | Some interval => if 0 <? interval then Some (1000000000 / interval) else None
    | None => None
    end in
  (mkCadence presentations gaps (Some seq) (Some timestamp_us) interval_us sequence_delta
     logical_sequence logical_sequence_delta (seq =? 0),
   mkSample presentations interval_us sequence_delta sequence_gap logical_sequence
     logical_sequence_delta (seq =? 0) hz gaps).

(** ** The explicit Atomic path (scheduler/pipeline.rs) *)

Record ExplicitAtomicSchedulerContext : Type := mkAtomicContext {
  ac_now : MonotonicTimestampNs;
  ac_predicted_total_cost : Duration;
  ac_presentation_target : option PresentationTarget;
  ac_render_ahead_allowed : bool;
  ac_worker_queue_available : bool
}.

Inductive SchedulerPreparedPrimary : Type :=
| PreparedNone
| PreparedRendering
| PreparedReadyUnbound
| PreparedReady (target : PresentationTarget)
| PreparedReadyVariable.

(** What the scheduler asks of a presentation pipeline. *)
Class PresentationPipelineView (P : Type) : Type := {
  future_primary_limit : P -> Z;
  kernel_commit_occupied : P -> bool;
  kernel_primary_submitted : P -> bool;
  worker_commit_occupied : P -> bool;
  worker_primary_queued : P -> bool;
  prepared_primary : P -> SchedulerPreparedPrimary;
  free_compositor_slots : P -> Z;
  future_primary_depth : P -> Z;
  direct_active : P -> bool;
  triple_capable : P -> bool
}.

Inductive PipelineWaitReason : Type :=
  WRefreshDeadline | WNoFreeSlot | WPreparedFrameExists | WFuturePrimaryDepthFull
| WWorkerQueueOccupied | WKernelCommitPending | WRenderFence | WDirectSteadyState
| WCompatibilityPath | WTripleCapabilityUnavailable.

Inductive SchedulerWakeDeadlineKind : Type :=
  WakeRenderStart | WakeSubmitNotBefore | WakeProtocolRefresh | WakePageFlipWatchdog.
Record SchedulerWakeDeadline : Type := mkWake {
  wake_kind : SchedulerWakeDeadlineKind;
  at_ns : Z
}.
Record ExplicitAtomicSchedulerDecision : Type := mkAtomicDecision {
  action : SchedulerDecision;
  wait_reason : option PipelineWaitReason;
  wake_deadline : option SchedulerWakeDeadline
}.

Definition ready_submit_decision (now_ns : Z) (target : option PresentationTarget)
  : SchedulerDecision :=
  if before_time now_ns pt_submit_not_before target then DWaitForRefresh
  else if at_or_after_time now_ns pt_presentation_time target then DSubmitReadyLate
  else DSubmitReady.

Definition ready_worker_admission_decision (now_ns : Z) (target : option PresentationTarget)
  : SchedulerDecision :=
  if at_or_after_time now_ns pt_presentation_time target then DSubmitReadyLate else DSubmitReady.

Definition is_submit (d : SchedulerDecision) : bool :=
  match d with DSubmitReady | DSubmitReadyLate => true | _ => false end.

Definition apply_atomic_commit_lane_guard (d : SchedulerDecision)
  (atomic_commit_pending can_queue_worker_next : bool) : SchedulerDecision :=
  if atomic_commit_pending && negb can_queue_worker_next && is_submit d
  then DWaitForPageFlip else d.

Definition rendered_primary_must_wait_for_lane
  (render_ahead atomic_commit_pending can_queue_worker_next : bool) : bool :=
  render_ahead || (atomic_commit_pending && negb can_queue_worker_next).

Definition is_prepared_none (p : SchedulerPreparedPrimary) : bool :=
  match p with PreparedNone => true | _ => false end.
(** [Ready { target }] gives its target, every other state none. *)
Definition ready_target_of (p : SchedulerPreparedPrimary) : option PresentationTarget :=
  match p with PreparedReady target => Some target | _ => None end.

Section PipelineDecision.
Context {P : Type} `{PresentationPipelineView P}.

Definition ready_target_for_pipeline (pipeline : P) : option PresentationTarget :=
  ready_target_of (prepared_primary pipeline).

Definition decision_with_pipeline (context : ExplicitAtomicSchedulerContext) (pipeline : P)
  (s : NativeFrameScheduler) : NativeFrameScheduler * SchedulerDecision :=
  let now_ns := ac_now context in
  let prepared := prepared_primary pipeline in
  let target := ac_presentation_target context in
  if worker_primary_queued pipeline then
    if visual_work_queued s && is_prepared_none prepared && ac_render_ahead_allowed context
       && triple_capable pipeline && bool_decide (is_Some target)
       && (future_primary_depth pipeline <? future_primary_limit pipeline)
       && (0 <? free_compositor_slots pipeline) && negb (direct_active pipeline)
    then (s, if before_time now_ns pt_render_start_deadline target then DWaitForRefresh
             else DRenderAhead)
    else (s, DWaitForWorkerQueue)
  else if kernel_primary_submitted pipeline then
    let '(s, expired) :=
      if negb (visual_work_queued s) then page_flip_watchdog_expired now_ns s else (s, false) in
    if expired then (s, DPageFlipWatchdogExpired)
    else if match prepared with PreparedReady _ => true | _ => false end
            && ac_worker_queue_available context && ac_render_ahead_allowed context
            && triple_capable pipeline
    then (s, ready_worker_admission_decision now_ns (ready_target_of prepared))
    else if negb (is_prepared_none prepared) then (s, DWaitForPageFlip)
    else if negb (visual_work_queued s) then (s, DWaitForPageFlip)
    else if free_compositor_slots pipeline =? 0 then (s, DWaitForBuffer)
    else if negb (ac_render_ahead_allowed context) then (s, DWaitForBuffer)
    else if negb (triple_capable pipeline) || negb (bool_decide (is_Some target))
            || (future_primary_limit pipeline <=? future_primary_depth pipeline)
            || direct_active pipeline
    then (s, DWaitForPageFlip)
    else if before_time now_ns pt_render_start_deadline target then (s, DWaitForRefresh)
    else (s, DRenderAhead)
  else
    match prepared with
    | PreparedReady _ | PreparedReadyVariable =>
        if kernel_commit_occupied pipeline then (s, DWaitForPageFlip)
        else (s, ready_submit_decision now_ns (ready_target_of prepared))
    | PreparedRendering => (s, DWaitForBuffer)
    | PreparedReadyUnbound => (s, DWaitForPageFlip)
    | PreparedNone =>
        if visual_work_queued s then
          if free_compositor_slots pipeline =? 0 then (s, DWaitForBuffer)
          else if before_time now_ns pt_render_start_deadline target then (s, DWaitForRefresh)
          else (s, DRender)
        else if protocol_work_queued s then protocol_decision now_ns s
        else if worker_commit_occupied pipeline then (s, DWaitForWorkerQueue)
        else (s, DIdle)
    end.

Definition pipeline_wait_reason (pipeline : P) (d : SchedulerDecision)
  : option PipelineWaitReason :=
  match d with
  | DWaitForRefresh => Some WRefreshDeadline
  | DWaitForWorkerQueue => Some WWorkerQueueOccupied
  | DWaitForBuffer =>
      if kernel_primary_submitted pipeline then Some WKernelCommitPending
      else if negb (is_prepared_none (prepared_primary pipeline)) then Some WPreparedFrameExists
      else Some WNoFreeSlot
  | DWaitForPageFlip =>
      if future_primary_limit pipeline <=? future_primary_depth pipeline
      then Some WFuturePrimaryDepthFull
      else if direct_active pipeline then Some WDirectSteadyState
      else if negb (triple_capable pipeline) then Some WTripleCapabilityUnavailable
      else if negb (is_prepared_none (prepared_primary pipeline)) then Some WPreparedFrameExists
      else Some WKernelCommitPending
  | _ => None
  end.

Definition pipeline_wake_deadline (context : ExplicitAtomicSchedulerContext) (pipeline : P)
  (s : NativeFrameScheduler) (d : SchedulerDecision) : option SchedulerWakeDeadline :=
  match d with
  | DWaitForRefresh =>
      match ready_target_for_pipeline pipeline with
      | Some target => Some (mkWake WakeSubmitNotBefore (pt_submit_not_before target))
      | None =>
          if visual_work_queued s
          then (fun t => mkWake WakeRenderStart (pt_render_start_deadline t))
                 <$> ac_presentation_target context
          else if protocol_work_queued s
          then mkWake WakeProtocolRefresh <$> refresh_deadline_ns s
          else None
      end
  | DWaitForBuffer | DWaitForPageFlip =>
      match pending_page_flip_token s with
      | Some _ => mkWake WakePageFlipWatchdog <$> watchdog_deadline_ns s
      | None => None
      end
  | _ => None
  end.

Definition decision_with_pipeline_diagnostics (context : ExplicitAtomicSchedulerContext)
  (pipeline : P) (s : NativeFrameScheduler)
  : NativeFrameScheduler * ExplicitAtomicSchedulerDecision :=
  let '(s, d) := decision_with_pipeline context pipeline s in
  (s, mkAtomicDecision d (pipeline_wait_reason pipeline d)
        (pipeline_wake_deadline context pipeline s d)).
End PipelineDecision.

(** ** Operations, outcomes and the invariant *)

Section SchedulerRuns.
Context {P : Type} `{PresentationPipelineView P}.

Inductive SchedulerOp : Type :=
| OpQueueVisual
| OpConsumeVisual
| OpQueueProtocol (now_ns : Z)
| OpDecide (context : SchedulerFrameContext)
| OpDecidePipeline (context : ExplicitAtomicSchedulerContext) (pipeline : P)
| OpAsyncSubmission (token now_ns : Z)
| OpReadyFrame (target : option PresentationTarget)
| OpUntimedReadyFrame
| OpCommitRebase (debug_assertions : bool) (prepared : PreparedReadyTargetMetadataRebase)
| OpConsumeReady
| OpReadySubmission (token now_ns : Z)
| OpReserveWorker (token transaction_id : Z)
| OpConfirmKernel (token submitted_at_ns : Z)
| OpCancelWorker (token transaction_id : Z) (requeue : bool)
| OpPageFlip (token observed_ns : Z)
| OpCompleteProtocol
| OpImmediateCompletion
| OpSessionSuspend
| OpDeferWatchdog.

Inductive SchedulerOutcome : Type :=
| ODone
| ODecision (d : SchedulerDecision)
| OResult (r : res SchedulerError unit)
| OFlip (r : PageFlipCompletionResult).

Definition scheduler_step (s : NativeFrameScheduler) (op : SchedulerOp)
  : NativeFrameScheduler * SchedulerOutcome :=
  match op with
  | OpQueueVisual => (queue_visual_work s, ODone)
  | OpConsumeVisual => (consume_visual_work s, ODone)
  | OpQueueProtocol now => (queue_protocol_work now s, ODone)
  | OpDecide context => prod_map id ODecision (decision_with_context context s)
  | OpDecidePipeline context pipeline =>
      prod_map id ODecision (decision_with_pipeline context pipeline s)
  | OpAsyncSubmission token now => prod_map id OResult (note_async_submission token now s)
  | OpReadyFrame target => (note_ready_frame target s, ODone)
  | OpUntimedReadyFrame => (note_untimed_ready_frame s, ODone)
  | OpCommitRebase debug prepared =>
      prod_map id OResult (commit_ready_target_metadata_rebase debug prepared s)
  | OpConsumeReady => (consume_ready_frame s, ODone)
  | OpReadySubmission token now => prod_map id OResult (note_ready_submission token now s)
  | OpReserveWorker token tx => prod_map id OResult (reserve_worker_submission token tx s)
  | OpConfirmKernel token at_ns => prod_map id OResult (confirm_kernel_submission token at_ns s)
  | OpCancelWorker token tx requeue =>
      prod_map id OResult (cancel_worker_submission_with_requeue token tx requeue s)
  | OpPageFlip token observed => prod_map id OFlip (note_page_flip_completion token observed s)
  | OpCompleteProtocol => (complete_protocol_only s, ODone)
  | OpImmediateCompletion => (note_immediate_completion s, ODone)
  | OpSessionSuspend => (abandon_for_session_suspend s, ODone)
  | OpDeferWatchdog => (defer_page_flip_watchdog_to_atomic_arbiter s, ODone)
  end.
Definition scheduler_run (s : NativeFrameScheduler) (ops : list SchedulerOp)
  : NativeFrameScheduler := foldl (fun s op => (scheduler_step s op).1) s ops.
End SchedulerRuns.
Arguments SchedulerOp : clear implicits.

(** The pending flip: its token with the time and transaction recorded for
    it. *)
Definition pending_shape (s : NativeFrameScheduler) : Prop :=
  match pending_page_flip_token s, pending_page_flip_submitted_at_ns s,
        pending_page_flip_transaction_id s with
  | None, None, None => True
  | Some token, Some _, Some _ => token <> 0
  | _, _, _ => False
  end.

Record scheduler_ok (s : NativeFrameScheduler) : Prop := {
  intervals_positive : 1 <= refresh_interval_ns s /\ 1 <= watchdog_interval_ns s;
  pending_recorded : pending_shape s;
  reservation_identified :
    match worker_queued s with
    | Some r => res_token r <> 0 /\ res_transaction_id r <> 0
    | None => True
    end;
  one_kind_of_work : visual_work_queued s = true -> protocol_work_queued s = false;
  deadline_for_protocol :
    is_Some (refresh_deadline_ns s) -> protocol_work_queued s = true;
  watchdog_for_flip : is_Some (watchdog_deadline_ns s) -> is_Some (pending_page_flip_token s);
  report_for_watchdog : watchdog_reported s = true -> is_Some (watchdog_deadline_ns s)
}.

Lemma watchdog_expired_ok now s :
  scheduler_ok s -> scheduler_ok (page_flip_watchdog_expired now s).1.
Proof.
  intros Hs. unfold page_flip_watchdog_expired.
  destruct (watchdog_deadline_ns s) as [w|] eqn:E; [|done].
  destruct (now <? w); [done|]. destruct (watchdog_reported s); [done|]. cbn.
  destruct Hs as [A B C D F G I]. split; cbn; try done. intros _. eauto.
Qed.

Lemma watchdog_expired_visual now s s' e :
  page_flip_watchdog_expired now s = (s', e) -> visual_work_queued s' = visual_work_queued s.
Proof.
  unfold page_flip_watchdog_expired. destruct (watchdog_deadline_ns s); [|by intros [= <- <-]].
  destruct (_ <? _); [by intros [= <- <-]|]. destruct (negb _); by intros [= <- <-].
Qed.

Lemma protocol_decision_ok now s :
  scheduler_ok s -> protocol_work_queued s = true -> scheduler_ok (protocol_decision now s).1.
Proof.
  intros Hs Hp. unfold protocol_decision. destruct (refresh_deadline_ns s); [done|].
  destruct Hs as [A B C D F G I]. split; cbn; done.
Qed.

(** A decision changes at most the watchdog report or the protocol deadline. *)
Definition decided_from (now : Z) (s s' : NativeFrameScheduler) : Prop :=
  s' = s \/ s' = (page_flip_watchdog_expired now s).1 \/
  (protocol_work_queued s = true /\ s' = (protocol_decision now s).1).

Lemma decided_from_ok now s s' : decided_from now s s' -> scheduler_ok s -> scheduler_ok s'.
Proof.
  intros [->|[->|[Hp ->]]] Hs;
    [done|by apply watchdog_expired_ok|by apply protocol_decision_ok].
Qed.

(** Split the branches of a decision. *)
Ltac decision_branches :=
  repeat match goal with
  | |- context [if ?b then _ else _] => let E := fresh "E" in destruct b eqn:E
  | |- context [match ?x with PreparedNone => _ | _ => _ end] => destruct x eqn:?
  | |- context [let '(_, _) := ?x in _] => let E := fresh "E" in destruct x eqn:E
  end.

Lemma decision_with_context_state context s :
  decided_from (fc_now context) s (decision_with_context context s).1.
Proof.
  unfold decision_with_context, decided_from.
  destruct (page_flip_watchdog_expired (fc_now context) s) as [w e] eqn:Ew.
  destruct (fc_pacing_mode context); decision_branches; cbn; auto.
Qed.

Section DecisionState.
Context {P : Type} `{PresentationPipelineView P}.

Lemma decision_with_pipeline_state context (pipeline : P) s :
  decided_from (ac_now context) s (decision_with_pipeline context pipeline s).1.
Proof.
  unfold decision_with_pipeline, decided_from.
  destruct (page_flip_watchdog_expired (ac_now context) s) as [w e] eqn:Ew.
  destruct (prepared_primary pipeline); cbn [is_prepared_none negb];
  decision_branches; cbn in *; simplify_eq; auto.
Qed.

(** Case analysis for the plain operations; the invariant field by field. *)
Ltac op_cases s :=
  destruct s as [ri an vi pr tok sub tx wk rq rt ru rd wd wi wc wr];
  cbn in *; unfold pending_shape in *; cbn in *.
Ltac ok_fields :=
  split; cbn; unfold pending_shape; cbn;
  first [done | tauto | by intros [? [=]] | by intros _; eauto | by auto | by subst; tauto].

Lemma scheduler_step_ok s (op : SchedulerOp P) :
  scheduler_ok s -> scheduler_ok (scheduler_step s op).1.
Proof.
  intros Hs. destruct op; cbn [scheduler_step fst prod_map].
  4: by apply (decided_from_ok _ _ _ (decision_with_context_state context s)).
  4: by apply (decided_from_ok _ _ _ (decision_with_pipeline_state context pipeline s)).
  all: destruct Hs as [[A A'] B C D F G I]; op_cases s.
  all: unfold queue_protocol_work, note_ready_submission, note_async_submission,
    commit_ready_target_metadata_rebase, reserve_worker_submission, confirm_kernel_submission,
    cancel_worker_submission_with_requeue, note_page_flip_completion; cbn.
  all: try (by ok_fields).
  - destruct vi; cbn; ok_fields.
  - destruct (Z.eqb_spec token 0); cbn; [ok_fields|]. destruct (_ || _); cbn; ok_fields.
  - destruct (_ && _); cbn; ok_fields.
  - destruct (Z.eqb_spec token 0); cbn; [ok_fields|]. destruct (_ || _); cbn; ok_fields.
  - destruct (Z.eqb_spec token 0), (Z.eqb_spec transaction_id 0); cbn; try ok_fields.
    destruct wk; cbn; ok_fields.
  - destruct wk as [r|]; cbn; [|ok_fields].
    destruct (Z.eqb_spec (res_token r) token); cbn; [|ok_fields]. destruct tok; cbn; ok_fields.
  - destruct wk as [r|]; cbn; [|ok_fields]. destruct (_ || _); cbn; ok_fields.
  - destruct tok as [t|]; cbn; [|ok_fields]. destruct (negb _); cbn; [ok_fields|].
    destruct pr, vi; cbn; ok_fields.
Qed.

Lemma scheduler_run_ok s (ops : list (SchedulerOp P)) :
  scheduler_ok s -> scheduler_ok (scheduler_run s ops).
Proof.
  revert s. induction ops as [|op ops IH]; intros s Hs; [done|].
  apply IH. by apply scheduler_step_ok.
Qed.
End DecisionState.

(** ** Refresh boundaries *)

(** The least boundary [anchor + k * interval], [k >= 1], after [now], where
    it fits a [u64]. *)
Lemma first_boundary_after_least s now :
  1 <= refresh_interval_ns s -> 0 <= anchor_ns s -> 0 <= now ->
  Z.max now (anchor_ns s) + refresh_interval_ns s <= u64_max ->
  exists k, 1 <= k /\ first_boundary_after s now = anchor_ns s + k * refresh_interval_ns s /\
    now < first_boundary_after s now /\
    forall j, 1 <= j < k -> anchor_ns s + j * refresh_interval_ns s <= now.
Proof.
  intros Hr Ha Hn Hf. unfold first_boundary_after.
  set (r := refresh_interval_ns s) in *. set (a := anchor_ns s) in *.
  destruct (next_multiple_gt (sat_sub now a) r ltac:(lia) ltac:(unfold sat_sub; lia)) as [H1 H2].
  set (q := sat_sub now a / r) in *.
  assert (Hq : q * r <= sat_sub now a).
  { unfold q. pose proof (Z.mul_div_le (sat_sub now a) r ltac:(lia)). lia. }
  assert (q <= q * r) by nia. assert (u64_max + 1 = 2 ^ 64) by reflexivity.
  rewrite Z.mod_small by (unfold sat_sub in *; lia).
  exists (q + 1). unfold sat_add, sat_mul, sat_sub in *.
  rewrite !Z.min_r by lia. split; [lia|]. split; [lia|]. split; [lia|].
  intros j Hj. nia.
Qed.

(** ** The life of a page flip

    What the kernel and the scheduler agree on: at most one flip is in
    flight; a completion belongs to the flip in flight and carries its
    submission time; a session suspension drops it. *)

Inductive FlipEvent : Type :=
| EvSubmit (token at_ns : Z)
| EvComplete (token submitted_at_ns : Z)
| EvDrop.

Definition flip_step (inflight : option (Z * Z)) (e : FlipEvent) : option (option (Z * Z)) :=
  match e, inflight with
  | EvSubmit token at_ns, None => Some (Some (token, at_ns))
  | EvSubmit _ _, Some _ => None
  | EvComplete token at_ns, Some (token', at_ns') =>
      if (token =? token') && (at_ns =? at_ns') then Some None else None
  | EvComplete _ _, None => None
  | EvDrop, _ => Some None
  end.
Fixpoint flip_replay (inflight : option (Z * Z)) (es : list FlipEvent)
  : option (option (Z * Z)) :=
  match es with
  | [] => Some inflight
  | e :: es => inflight ← flip_step inflight e; flip_replay inflight es
  end.

(** The flip in flight according to the scheduler. *)
Definition inflight (s : NativeFrameScheduler) : option (Z * Z) :=
  match pending_page_flip_token s, pending_page_flip_submitted_at_ns s with
  | Some token, Some at_ns => Some (token, at_ns)
  | _, _ => None
  end.

Section FlipHistory.
Context {P : Type} `{PresentationPipelineView P}.

(** The event an operation reports through its outcome. *)
Definition flip_event (op : SchedulerOp P) (o : SchedulerOutcome) : list FlipEvent :=
  match op, o with
  | OpAsyncSubmission token now, OResult (Ret _) => [EvSubmit token now]
  | OpReadySubmission token now, OResult (Ret _) => [EvSubmit token now]
  | OpConfirmKernel token at_ns, OResult (Ret _) => [EvSubmit token at_ns]
  | OpPageFlip token _, OFlip (Completed at_ns) => [EvComplete token at_ns]
  | OpSessionSuspend, _ => [EvDrop]
  | _, _ => []
  end.

Fixpoint flip_history (s : NativeFrameScheduler) (ops : list (SchedulerOp P)) : list FlipEvent :=
  match ops with
  | [] => []
  | op :: ops =>
      let '(s', o) := scheduler_step s op in flip_event op o ++ flip_history s' ops
  end.

Lemma decided_from_inflight now s s' : decided_from now s s' -> inflight s' = inflight s.
Proof.
  intros [->|[->|[_ ->]]]; [done| |].
  - unfold page_flip_watchdog_expired. destruct (watchdog_deadline_ns s); [|done].
    by destruct (_ <? _), (watchdog_reported s).
  - unfold protocol_decision. by destruct (refresh_deadline_ns s).
Qed.

Lemma flip_replay_app i es es' :
  flip_replay i (es ++ es') = flip_replay i es ≫= fun i => flip_replay i es'.
Proof.
  revert i. induction es as [|e es IH]; intros i; [done|]. cbn.
  destruct (flip_step i e); cbn; [apply IH|done].
Qed.

Lemma scheduler_step_flip s (op : SchedulerOp P) :
  scheduler_ok s ->
  let '(s', o) := scheduler_step s op in
  flip_replay (inflight s) (flip_event op o) = Some (inflight s').
Proof.
  intros Hs. destruct (scheduler_step s op) as [s' o] eqn:E.
  pose proof (pending_recorded s Hs) as B. unfold pending_shape in B.
  destruct op; cbn [scheduler_step prod_map] in E.
  4: { injection E as <- <-. unfold id.
       by rewrite (decided_from_inflight _ _ _ (decision_with_context_state context s)). }
  4: { injection E as <- <-. unfold id.
       by rewrite (decided_from_inflight _ _ _ (decision_with_pipeline_state context pipeline s)). }
  all: destruct s as [ri an vi pr tok sub tx wk rq rt ru rd wd wi wc wr]; cbn in *.
  all: unfold queue_protocol_work, note_ready_submission, note_async_submission,
    commit_ready_target_metadata_rebase, reserve_worker_submission, confirm_kernel_submission,
    cancel_worker_submission_with_requeue, note_page_flip_completion in E; cbn in E.
  all: try (injection E as <- <-; try done; unfold inflight; cbn; by destruct tok, sub).
  - destruct vi; injection E as <- <-; done.
  - destruct (_ =? 0); [by injection E as <- <-|]. destruct tok, sub, wk; try done;
      by injection E as <- <-.
  - destruct (_ && _); by injection E as <- <-.
  - destruct (_ =? 0); [by injection E as <- <-|]. destruct tok, sub, wk; try done;
      by injection E as <- <-.
  - destruct (_ || _); [by injection E as <- <-|]. destruct wk; by injection E as <- <-.
  - destruct wk as [r|]; [|by injection E as <- <-].
    destruct (negb _); [by injection E as <- <-|].
    destruct tok, sub; try done; by injection E as <- <-.
  - destruct wk as [r|]; [|by injection E as <- <-].
    destruct (_ || _); by injection E as <- <-.
  - destruct tok as [t|]; [|by injection E as <- <-].
    destruct (Z.eqb_spec token t); cbn in E; [|by injection E as <- <-].
    destruct sub as [at0|]; [|done]. subst t.
    destruct (pr && negb vi); injection E as <- <-; cbn; rewrite !Z.eqb_refl; done.
Qed.

Lemma flip_history_replays s (ops : list (SchedulerOp P)) :
  scheduler_ok s ->
  flip_replay (inflight s) (flip_history s ops) = Some (inflight (scheduler_run s ops)).
Proof.
  revert s. induction ops as [|op ops IH]; intros s Hs; [done|].
  pose proof (scheduler_step_flip s op Hs) as Hf. pose proof (scheduler_step_ok s op Hs) as Hok.
  cbn [flip_history]. change (scheduler_run s (op :: ops)) with
    (scheduler_run (scheduler_step s op).1 ops).
  destruct (scheduler_step s op) as [s' o]. rewrite flip_replay_app, Hf. by apply IH.
Qed.
End FlipHistory.

(** Turn the guards of a branch into facts. *)
Ltac guard_facts :=
  repeat match goal with
  | H : (_ && _) = true |- _ => apply andb_prop in H as [? ?]
  | H : (_ || _) = false |- _ => apply orb_false_elim in H as [? ?]
  | H : negb _ = true |- _ => apply negb_true_iff in H
  | H : negb _ = false |- _ => apply negb_false_iff in H
  | H : bool_decide _ = true |- _ => apply bool_decide_eq_true in H
  | H : bool_decide _ = false |- _ => apply bool_decide_eq_false in H
  | H : is_Some _ |- _ => destruct H as [? H]
  | H : ac_presentation_target _ = Some _, H' : context [ac_presentation_target _] |- _ =>
      rewrite H in H'
  end; bool_facts.

(** ** What each decision requires *)

Section DecisionGuards.
Context {P : Type} `{PresentationPipelineView P}.
Implicit Types (pipeline : P).

Ltac decide_pipeline pipeline s :=
  unfold decision_with_pipeline, ready_submit_decision, ready_worker_admission_decision,
    protocol_decision, before_time, at_or_after_time;
  destruct (prepared_primary pipeline) eqn:?; destruct (visual_work_queued s) eqn:?;
  cbn [is_prepared_none negb ready_target_of andb];
  repeat (decision_branches; cbn in *; simplify_eq; try done).

Lemma submit_decision_inv context pipeline s :
  is_submit (decision_with_pipeline context pipeline s).2 = true ->
  worker_primary_queued pipeline = false /\
  (prepared_primary pipeline = PreparedReadyVariable \/
   exists t, prepared_primary pipeline = PreparedReady t) /\
  if kernel_primary_submitted pipeline
  then ac_worker_queue_available context = true /\ ac_render_ahead_allowed context = true /\
       triple_capable pipeline = true
  else kernel_commit_occupied pipeline = false /\
       forall t, prepared_primary pipeline = PreparedReady t ->
         pt_submit_not_before t <= ac_now context.
Proof.
  decide_pipeline pipeline s.
  all: guard_facts; repeat split; eauto; intros; simplify_eq; lia.
Qed.

Lemma late_decision_inv context pipeline s :
  (decision_with_pipeline context pipeline s).2 = DSubmitReadyLate ->
  exists t, prepared_primary pipeline = PreparedReady t /\ pt_presentation_time t <= ac_now context.
Proof. decide_pipeline pipeline s. all: guard_facts; eauto. Qed.

Lemma render_decision_inv context pipeline s :
  let d := (decision_with_pipeline context pipeline s).2 in
  d = DRender \/ d = DRenderAhead ->
  visual_work_queued s = true /\ prepared_primary pipeline = PreparedNone /\
  free_compositor_slots pipeline <> 0 /\
  (forall t, ac_presentation_target context = Some t ->
     pt_render_start_deadline t <= ac_now context) /\
  (d = DRenderAhead <->
     kernel_primary_submitted pipeline || worker_primary_queued pipeline = true).
Proof.
  cbn zeta. decide_pipeline pipeline s.
  all: try (by intros [?|?]).
  all: intros _; guard_facts; repeat split; try done; try lia;
    try (by rewrite ?orb_true_r); try (intros t Ht; rewrite Ht in *; bool_facts; simplify_eq; lia).
  match goal with H : page_flip_watchdog_expired _ _ = _ |- _ =>
    apply watchdog_expired_visual in H; congruence end.
Qed.

Lemma render_ahead_inv context pipeline s :
  (decision_with_pipeline context pipeline s).2 = DRenderAhead ->
  ac_render_ahead_allowed context = true /\ triple_capable pipeline = true /\
  direct_active pipeline = false /\ is_Some (ac_presentation_target context) /\
  future_primary_depth pipeline < future_primary_limit pipeline.
Proof. decide_pipeline pipeline s. all: guard_facts; repeat split; eauto. Qed.

(** The three reasons to wait for a refresh. *)
Lemma refresh_wait_inv context pipeline s s' :
  decision_with_pipeline context pipeline s = (s', DWaitForRefresh) ->
  (exists t, prepared_primary pipeline = PreparedReady t /\
     ac_now context < pt_submit_not_before t) \/
  (prepared_primary pipeline = PreparedNone /\ visual_work_queued s' = true /\
   exists t, ac_presentation_target context = Some t /\
     ac_now context < pt_render_start_deadline t) \/
  (prepared_primary pipeline = PreparedNone /\ visual_work_queued s' = false /\
   protocol_work_queued s' = true /\
   exists at_ns, refresh_deadline_ns s' = Some at_ns /\ ac_now context < at_ns).
Proof.
  intros Hd. assert (Hv : visual_work_queued s' = visual_work_queued s).
  { pose proof (decision_with_pipeline_state context pipeline s) as Hf. rewrite Hd in Hf. cbn [fst] in Hf. clear Hd.
    destruct Hf as [->|[->|[_ ->]]]; [done| |].
    - destruct (page_flip_watchdog_expired (ac_now context) s) eqn:E.
      by apply watchdog_expired_visual in E.
    - unfold protocol_decision. by destruct (refresh_deadline_ns s). }
  rewrite Hv. clear Hv. revert Hd. decide_pipeline pipeline s.
  all: intros [= <-]; guard_facts.
  all: try match goal with
    | H : page_flip_watchdog_expired _ _ = _ |- _ => apply watchdog_expired_visual in H; congruence
    end.
  all: try (left; by eauto).
  all: try (right; left; destruct (ac_presentation_target context); [|done]; guard_facts; by eauto).
  all: right; right; destruct (refresh_deadline_ns s) eqn:Er; simplify_eq; cbn; eauto 6.
Qed.

(** With no visual work, a wait behind a submitted primary has an unexpired
    watchdog. *)
Lemma page_flip_wait_watchdog context pipeline s s' w :
  decision_with_pipeline context pipeline s = (s', DWaitForPageFlip) ->
  worker_primary_queued pipeline = false -> kernel_primary_submitted pipeline = true ->
  visual_work_queued s = false -> watchdog_deadline_ns s' = Some w -> ac_now context < w.
Proof.
  intros Hd Hw Hk Hv Hdl. unfold decision_with_pipeline in Hd. rewrite Hw, Hk, Hv in Hd.
  cbn [negb] in Hd.
  destruct (page_flip_watchdog_expired (ac_now context) s) as [n e] eqn:E.
  destruct e; [done|].
  assert (Hn : s' = n).
  { rewrite (watchdog_expired_visual _ _ _ _ E), Hv in Hd. cbn [negb] in Hd.
    repeat case_match; congruence. }
  subst n. unfold page_flip_watchdog_expired in E.
  destruct (watchdog_deadline_ns s) as [w0|] eqn:Ew; [|injection E as <-; congruence].
  destruct (Z.ltb_spec (ac_now context) w0); [injection E as <-; congruence|].
  destruct (watchdog_reported s); cbn in E; congruence.
Qed.
End DecisionGuards.

(** ** The watchdog counter *)

Definition is_EvSubmit (e : FlipEvent) : bool := match e with EvSubmit _ _ => true | _ => false end.
Definition submissions (es : list FlipEvent) : Z :=
  Z.of_nat (length (List.filter is_EvSubmit es)).

(** Timeouts counted, plus one that can still be. *)
Definition timeouts_bound (s : NativeFrameScheduler) : Z :=
  watchdog_timeout_count s +
  match watchdog_deadline_ns s with
  | Some _ => if watchdog_reported s then 0 else 1
  | None => 0
  end.

Section Timeouts.
Context {P : Type} `{PresentationPipelineView P}.

Lemma decided_from_timeouts now s s' :
  decided_from now s s' -> timeouts_bound s' <= timeouts_bound s.
Proof.
  intros [->|[->|[_ ->]]]; [lia| |].
  - destruct s as [ri an vi pr tok sub tx wk rq rt ru rd wd wi wc wr].
    unfold page_flip_watchdog_expired, timeouts_bound. cbn. destruct wd as [w|]; cbn; [|reflexivity].
    destruct (_ <? _); [reflexivity|]. destruct wr; cbn; [reflexivity|].
    unfold sat_add. lia.
  - unfold protocol_decision. destruct (refresh_deadline_ns s); reflexivity.
Qed.

Lemma scheduler_step_timeouts s (op : SchedulerOp P) :
  let '(s', o) := scheduler_step s op in
  timeouts_bound s' <= timeouts_bound s + submissions (flip_event op o).
Proof.
  destruct (scheduler_step s op) as [s' o] eqn:E.
  assert (Hnn : forall es, 0 <= submissions es) by (intros es; unfold submissions; lia).
  specialize (Hnn (flip_event op o)).
  destruct op; cbn [scheduler_step prod_map] in E.
  4: { injection E as <- <-.
       pose proof (decided_from_timeouts _ _ _ (decision_with_context_state context s)).
       unfold id. lia. }
  4: { injection E as <- <-.
       pose proof (decided_from_timeouts _ _ _ (decision_with_pipeline_state context pipeline s)).
       unfold id. lia. }
  all: destruct s as [ri an vi pr tok sub tx wk rq rt ru rd wd wi wc wr]; cbn in *.
  all: unfold queue_protocol_work, note_ready_submission, note_async_submission,
    commit_ready_target_metadata_rebase, reserve_worker_submission, confirm_kernel_submission,
    cancel_worker_submission_with_requeue, note_page_flip_completion in E; cbn in E.
  all: repeat match type of E with
    | context [if ?b then _ else _] => destruct b
    | context [match ?x with Some _ => _ | None => _ end] => destruct x
    end.
  all: injection E as <- <-; unfold timeouts_bound, submissions in *; cbn in *;
    destruct wd, wr; cbn; lia.
Qed.

Lemma submissions_app es es' : submissions (es ++ es') = submissions es + submissions es'.
Proof. unfold submissions. rewrite List.filter_app, length_app. lia. Qed.

Lemma scheduler_run_timeouts s (ops : list (SchedulerOp P)) :
  timeouts_bound (scheduler_run s ops) <= timeouts_bound s + submissions (flip_history s ops).
Proof.
  revert s. induction ops as [|op ops IH]; intros s; [cbn; unfold submissions; cbn; lia|].
  pose proof (scheduler_step_timeouts s op) as Hf. cbn [flip_history].
  change (scheduler_run s (op :: ops)) with (scheduler_run (scheduler_step s op).1 ops).
  destruct (scheduler_step s op) as [s' o]. specialize (IH s'). rewrite submissions_app. cbn in *. lia.
Qed.

(** ** Properties *)

(** From a fresh scheduler, any sequence of operations keeps the
    invariant: a pending flip has a nonzero token with its submission time and
    transaction recorded, a worker reservation is identified, visual and
    protocol work are never queued together, a refresh deadline is armed only
    for protocol work, the watchdog is armed only for a pending flip and
    reports only while armed. The watchdog counts at most one timeout per
    accepted submission. *)
Theorem scheduler_invariant (refresh anchor watchdog : Z) (ops : list (SchedulerOp P)) :
  let s0 := with_refresh_interval_and_watchdog refresh anchor watchdog in
  let s := scheduler_run s0 ops in
  scheduler_ok s /\ watchdog_timeout_count s <= submissions (flip_history s0 ops).
Proof.
  cbn zeta. set (s0 := with_refresh_interval_and_watchdog refresh anchor watchdog). split.
  - apply scheduler_run_ok. split; cbn; try done; try lia; by intros [? [=]].
  - pose proof (scheduler_run_timeouts s0 ops) as Ht. cbn in Ht.
    unfold timeouts_bound in Ht at 1.
    change (timeouts_bound s0) with 0 in Ht.
    destruct (watchdog_deadline_ns _); [destruct (watchdog_reported _)|]; lia.
Qed.

(** C14: the life of page flips. Replaying the submissions, completions and
    suspensions that a fresh scheduler reports, in order, never submits a
    second flip while one is in flight and never completes anything but the
    flip in flight with the time it was submitted at; the replay ends in
    exactly the flip the scheduler still holds. *)
Theorem flip_history_is_sequential (refresh anchor watchdog : Z) (ops : list (SchedulerOp P)) :
  let s0 := with_refresh_interval_and_watchdog refresh anchor watchdog in
  flip_replay None (flip_history s0 ops) = Some (inflight (scheduler_run s0 ops)).
Proof.
  cbn zeta. set (s0 := with_refresh_interval_and_watchdog refresh anchor watchdog).
  change None with (inflight s0). apply flip_history_replays.
  split; cbn; try done; try lia; by intros [? [=]].
Qed.

(** C28: safety of the explicit Atomic decisions. A READY frame is submitted
    only if one is prepared and no primary waits in the worker, past its
    submit time on an idle lane, and behind a submitted primary only with
    a free worker queue on a triple-capable output; it is late only at or after
    its presentation time. Rendering starts only for queued visual work with
    nothing prepared, a free slot, and past the target's render start; ahead of
    another primary only within the future depth limit on a triple-capable
    output without direct scanout. After the lane guard nothing is submitted
    while an Atomic commit is pending, unless the worker can take it. *)
Theorem pipeline_decision_safe (context : ExplicitAtomicSchedulerContext) (pipeline : P)
  (s : NativeFrameScheduler) :
  let d := (decision_with_pipeline context pipeline s).2 in
  let now := ac_now context in
  let busy := kernel_primary_submitted pipeline || worker_primary_queued pipeline in
  (is_submit d = true ->
     worker_primary_queued pipeline = false /\
     (prepared_primary pipeline = PreparedReadyVariable \/
      exists t, prepared_primary pipeline = PreparedReady t) /\
     if kernel_primary_submitted pipeline
     then ac_worker_queue_available context = true /\ ac_render_ahead_allowed context = true /\
          triple_capable pipeline = true
     else kernel_commit_occupied pipeline = false /\
          forall t, prepared_primary pipeline = PreparedReady t -> pt_submit_not_before t <= now) /\
  (d = DSubmitReadyLate ->
     exists t, prepared_primary pipeline = PreparedReady t /\ pt_presentation_time t <= now) /\
  (d = DRender \/ d = DRenderAhead ->
     visual_work_queued s = true /\ prepared_primary pipeline = PreparedNone /\
     free_compositor_slots pipeline <> 0 /\
     (forall t, ac_presentation_target context = Some t -> pt_render_start_deadline t <= now) /\
     (d = DRenderAhead <-> busy = true)) /\
  (d = DRenderAhead ->
     ac_render_ahead_allowed context = true /\ triple_capable pipeline = true /\
     direct_active pipeline = false /\ is_Some (ac_presentation_target context) /\
     future_primary_depth pipeline < future_primary_limit pipeline) /\
  (forall pending can_queue,
     is_submit (apply_atomic_commit_lane_guard d pending can_queue) = true ->
     pending = false \/ can_queue = true).
Proof.
  cbn zeta. set (d := (decision_with_pipeline context pipeline s).2).
  split; [apply submit_decision_inv|]. split; [apply late_decision_inv|].
  split; [apply render_decision_inv|]. split; [apply render_ahead_inv|].
  intros pending can_queue. unfold apply_atomic_commit_lane_guard.
  destruct pending, can_queue; cbn; auto. destruct (is_submit d) eqn:E; cbn; congruence.
Qed.

(** A decision that waits. *)
Definition is_wait (d : SchedulerDecision) : bool :=
  match d with
  | DWaitForRefresh | DWaitForBuffer | DWaitForPageFlip | DWaitForWorkerQueue => true
  | _ => false
  end.

(** No lost wake-up. A decision to wait for a refresh always carries a
    wake deadline, and it lies strictly after now; a reason is reported exactly
    for the decisions that wait; and without visual work a wait behind a
    submitted primary never carries a watchdog deadline that already passed
    (an expired one is reported instead). *)
Theorem waits_wake_in_the_future (context : ExplicitAtomicSchedulerContext) (pipeline : P)
  (s : NativeFrameScheduler) :
  let r := (decision_with_pipeline_diagnostics context pipeline s).2 in
  (action r = DWaitForRefresh ->
     exists w, wake_deadline r = Some w /\ ac_now context < at_ns w) /\
  (is_Some (wait_reason r) <-> is_wait (action r) = true) /\
  (action r = DWaitForPageFlip -> worker_primary_queued pipeline = false ->
     kernel_primary_submitted pipeline = true -> visual_work_queued s = false ->
     forall w, wake_deadline r = Some w ->
       wake_kind w = WakePageFlipWatchdog /\ ac_now context < at_ns w).
Proof.
  unfold decision_with_pipeline_diagnostics.
  destruct (decision_with_pipeline context pipeline s) as [s' d] eqn:Hd. cbn.
  split; [|split].
  - intros ->. unfold pipeline_wake_deadline, ready_target_for_pipeline.
    apply refresh_wait_inv in Hd as [(t & -> & Ht)|[(-> & -> & t & -> & Ht)|(-> & -> & -> & t & -> & Ht)]];
      cbn; eauto.
  - unfold pipeline_wait_reason. destruct d; cbn; try (split; [by intros [? [=]]|done]);
      (split; [done|intros _]); repeat case_match; eauto.
  - intros -> Hw Hk Hv w. cbn. destruct (pending_page_flip_token s'); [|done].
    destruct (watchdog_deadline_ns s') eqn:Ew; cbn; [|done]. intros [= <-]. split; [done|].
    by eapply page_flip_wait_watchdog.
Qed.
End Timeouts.
