(* ===== verification/Pipeline.v ===== *)
(** * Pipeline: the owners of future output frames

    Models src/native_output/presentation/pipeline.rs and the presentation
    reservations of src/native_output/presentation/transaction.rs: a snapshot
    of which commits the kernel and the worker own and which frame is
    prepared, its validation, and the view of it the frame scheduler decides
    on. The direct scanout key, the pageflip identity and the cursor state are
    payloads that none of this code inspects: they are type parameters. *)

From stdpp Require Import base list option.
From Stdlib Require Import ZArith Lia.
From S2P Require Import Prelude Buffering Deadline Scheduler.

(** ** Reservations (transaction.rs) *)

Record O1PredecessorAnchor : Type := mkAnchor {
  o1a_frame_id : Z;
  o1a_transaction_id : Z;
  o1a_token : Z;
  o1a_pool_generation : Z
}.

Record O1PrepareIntent : Type := mkIntent {
  o1_output_generation : Z;
  o1_predecessor : O1PredecessorAnchor;
  o1_predicted_sequence : Z;
  o1_predicted_presentation_time : MonotonicTimestampNs;
  o1_render_start_deadline : MonotonicTimestampNs;
  o1_refresh_interval : Duration;
  o1_reason : PresentationTargetReason;
  o1_clock_generation : Z;
  o1_estimated : bool;
  o1_predicted_unreachable : bool;
  o1_selection_evidence : TargetSelectionEvidence
}.

Definition intent_from_target (target : PresentationTarget) (output_generation : Z)
  (predecessor : O1PredecessorAnchor) : O1PrepareIntent :=
  mkIntent output_generation predecessor (pt_sequence target) (pt_presentation_time target)
    (pt_render_start_deadline target) (pt_refresh_interval target) (pt_reason target)
    (pt_clock_generation target) (pt_estimated target) (pt_predicted_unreachable target)
    (pt_selection_evidence target).

Definition intent_reason (i : O1PrepareIntent) : option PresentationTargetReason :=
  match o1_reason i with ReactiveDouble => None | reason => Some reason end.

Definition bind_target (i : O1PrepareIntent) (claim : PrimaryRefreshClaim)
  (submit_nb : MonotonicTimestampNs) : PresentationTarget :=
  mkTarget (cl_sequence claim) (cl_presentation_time claim) submit_nb submit_nb
    (o1_refresh_interval i) (o1_reason i) (cl_clock_generation claim) false false claim
    (mkEvidence (cl_sequence claim) true).

Record VariablePresentationReservation : Type := mkVariable {
  var_opportunity : PresentationOpportunity;
  var_reason : PresentationTargetReason
}.
Definition variable_try_new (opportunity : PresentationOpportunity)
  (reason : PresentationTargetReason) : option VariablePresentationReservation :=
  match opp_timing opportunity with
  | VrrWindow _ _ _ _ _ _ _ => Some (mkVariable opportunity reason)
  | FixedVsync _ _ | AsyncImmediate _ => None
  end.

Inductive FramePresentationReservation : Type :=
| Fixed (target : PresentationTarget)
| Variable_ (reservation : VariablePresentationReservation)
| DeferredO1 (intent : O1PrepareIntent).

Definition reservation_reason (r : FramePresentationReservation)
  : option PresentationTargetReason :=
  match r with
  | Fixed target => Some (pt_reason target)
  | Variable_ reservation => Some (var_reason reservation)
  | DeferredO1 intent => intent_reason intent
  end.
Definition fixed_target (r : FramePresentationReservation) : option PresentationTarget :=
  match r with Fixed target => Some target | Variable_ _ | DeferredO1 _ => None end.
Definition reservation_physical_opportunity (r : FramePresentationReservation)
  : option PresentationOpportunity :=
  match r with
  | Fixed target => Some (physical_opportunity target)
  | Variable_ reservation => Some (var_opportunity reservation)
  | DeferredO1 _ => None
  end.
Definition physical_opportunity_id (r : FramePresentationReservation)
  : option PresentationOpportunityId := opp_id <$> reservation_physical_opportunity r.

(** ** Capabilities *)

Inductive TripleCapabilityBlocker : Type :=
  NonAtomicKms | ExplicitSwapchainUnavailable | SlotCapacityMismatch | PrimaryInFenceUnavailable
| RenderFenceExportUnavailable | SubmissionTransportUnhealthy | SessionInactive
| OutputGenerationUnstable | UnsupportedPresentationMode | SwapchainPoisoned
| SoftwareCursorVisible.
Inductive TripleCapability : Type :=
| Capable
| Unavailable (blocker : TripleCapabilityBlocker).

Record TripleCapabilityInputs : Type := mkTripleInputs {
  atomic_kms : bool;
  explicit_swapchain : bool;
  slot_capacity : Z;
  primary_in_fence : bool;
  render_fence_export : bool;
  submission_transport_healthy : bool;
  session_active : bool;
  pool_generation_stable : bool;
  ordinary_vsync : bool;
  swapchain_poisoned : bool;
  software_cursor_visible : bool
}.

Definition derive_triple_capability (i : TripleCapabilityInputs) : TripleCapability :=
  if negb (atomic_kms i) then Unavailable NonAtomicKms
  else if negb (explicit_swapchain i) then Unavailable ExplicitSwapchainUnavailable
  else if negb (slot_capacity i =? 3) then Unavailable SlotCapacityMismatch
  else if negb (primary_in_fence i) then Unavailable PrimaryInFenceUnavailable
  else if negb (render_fence_export i) then Unavailable RenderFenceExportUnavailable
  else if negb (submission_transport_healthy i) then Unavailable SubmissionTransportUnhealthy
  else if negb (session_active i) then Unavailable SessionInactive
  else if negb (pool_generation_stable i) then Unavailable OutputGenerationUnstable
  else if negb (ordinary_vsync i) then Unavailable UnsupportedPresentationMode
  else if swapchain_poisoned i then Unavailable SwapchainPoisoned
  else if software_cursor_visible i then Unavailable SoftwareCursorVisible
  else Capable.

(** ** Snapshots *)

Inductive PreparedFenceState : Type := SubmitWithInFence | WaitingForGpu | GpuComplete.

Inductive PreparedCompositedState : Type :=
| PCNone
| PCRendering (slot : Z) (reservation : FramePresentationReservation)
| PCReady (transaction_id slot : Z) (reservation : FramePresentationReservation)
    (fence_state : PreparedFenceState)
| PCReadyUnbound (transaction_id slot : Z) (fence_state : PreparedFenceState).

Definition is_present (p : PreparedCompositedState) : bool :=
  match p with PCNone => false | _ => true end.
Definition prepared_slot (p : PreparedCompositedState) : option Z :=
  match p with
  | PCNone => None
  | PCRendering slot _ | PCReady _ slot _ _ | PCReadyUnbound _ slot _ => Some slot
  end.
Definition prepared_reservation (p : PreparedCompositedState)
  : option FramePresentationReservation :=
  match p with
  | PCNone | PCReadyUnbound _ _ _ => None
  | PCRendering _ reservation | PCReady _ _ reservation _ => Some reservation
  end.

Inductive PipelineValidationError : Type :=
| ZeroOutputGeneration
| OutputGenerationMismatch (transaction_id expected actual : Z)
| DuplicateCommitToken
| SlotAliasing (slot : Z)
| FuturePrimaryDepthExceeded (depth : Z)
| NonMonotonicTargetOrder (earlier_sequence later_sequence : Z)
| TargetGenerationMismatch (earlier_generation later_generation : Z)
| KernelSubmittedCapacityExceeded (count : Z)
| WorkerQueuedCapacityExceeded (count : Z)
| PreparedCapacityExceeded (count : Z).

Definition validate_pipeline_owner_counts (kernel worker prepared : Z)
  : res PipelineValidationError unit :=
  if 1 <? kernel then Fail (KernelSubmittedCapacityExceeded kernel)
  else if 1 <? worker then Fail (WorkerQueuedCapacityExceeded worker)
  else if 1 <? prepared then Fail (PreparedCapacityExceeded prepared)
  else Ret tt.

Definition validate_reservation_order (earlier later : FramePresentationReservation)
  : res PipelineValidationError unit :=
  match earlier, later with
  | Fixed e, Fixed l =>
      let ec := pt_physical_claim e in
      let lc := pt_physical_claim l in
      if negb (pt_clock_generation e =? pt_clock_generation l)
         || negb (cl_clock_generation ec =? pt_clock_generation e)
         || negb (cl_clock_generation lc =? pt_clock_generation l)
      then Fail (TargetGenerationMismatch (pt_clock_generation e) (pt_clock_generation l))
      else if (cl_sequence lc <=? cl_sequence ec)
              || (cl_presentation_time lc <=? cl_presentation_time ec)
      then Fail (NonMonotonicTargetOrder (cl_sequence ec) (cl_sequence lc))
      else Ret tt
  | _, _ =>
      match physical_opportunity_id earlier, physical_opportunity_id later with
      | Some e, Some l =>
          if negb (clock_generation e =? clock_generation l)
          then Fail (TargetGenerationMismatch (clock_generation e) (clock_generation l))
          else if sequence l <=? sequence e
          then Fail (NonMonotonicTargetOrder (sequence e) (sequence l))
          else Ret tt
      | _, _ => Ret tt
      end
  end.

(** The loop over adjacent owners ([zip] with [skip(1)]). *)
Fixpoint validate_order_loop (rs : list FramePresentationReservation)
  : res PipelineValidationError unit :=
  match rs with
  | [] => Ret tt
  | earlier :: rest =>
      match rest with
      | [] => Ret tt
      | later :: _ => _ ← validate_reservation_order earlier later; validate_order_loop rest
      end
  end.

(** The loop over occupied slots: an earlier slot must not occur later. *)
Fixpoint validate_slots (occupied : list (option Z)) : res PipelineValidationError unit :=
  match occupied with
  | [] => Ret tt
  | None :: rest => validate_slots rest
  | Some slot :: rest =>
      if decide (Some slot ∈ rest) then Fail (SlotAliasing slot) else validate_slots rest
  end.

Section Snapshot.
(** Direct scanout key, pageflip identity, cursor state with its revision. *)
Context {K I C : Type}.

Inductive PresentedPrimaryState : Type :=
| Composed (transaction_id token : Z) (pageflip : I) (slot framebuffer_id pool_generation
    presentation_serial : Z)
| Direct (transaction_id token : Z) (pageflip : I) (surface_id : Z) (key : K)
    (framebuffer_id : Z).

Inductive PipelineCommitKind : Type :=
| CompositedPrimary (transaction_id frame_id slot framebuffer_id : Z)
| DirectPrimary (transaction_id : Z) (key : K) (framebuffer_id : Z)
| PlaneDelta (transaction_id cursor_epoch : Z) (framebuffer_id : option Z).

Definition commit_transaction_id (k : PipelineCommitKind) : Z :=
  match k with
  | CompositedPrimary transaction_id _ _ _ | DirectPrimary transaction_id _ _
  | PlaneDelta transaction_id _ _ => transaction_id
  end.
Definition is_primary (k : PipelineCommitKind) : bool :=
  match k with PlaneDelta _ _ _ => false | _ => true end.
Definition compositor_slot (k : PipelineCommitKind) : option Z :=
  match k with CompositedPrimary _ _ slot _ => Some slot | _ => None end.

Record QueuedCommitSnapshot : Type := mkQueuedCommit {
  qc_token : Z;
  qc_output_generation : Z;
  qc_crtc_id : Z;
  qc_reservation : FramePresentationReservation;
  qc_kind : PipelineCommitKind
}.

Record OutputPipelineSnapshot : Type := mkSnapshot {
  ps_output_generation : Z;
  ps_future_primary_limit : Z;
  ps_pacing_mode : NativeOutputPacingMode;
  ps_presented_primary : option PresentedPrimaryState;
  ps_presented_cursor : C;
  ps_kernel_submitted : option QueuedCommitSnapshot;
  ps_worker_queued_next : option QueuedCommitSnapshot;
  ps_prepared : PreparedCompositedState;
  ps_free_compositor_slots : Z;
  ps_triple_capability : TripleCapability
}.

Definition primary_of (c : option QueuedCommitSnapshot) : option QueuedCommitSnapshot :=
  match c with
  | Some commit => if is_primary (qc_kind commit) then Some commit else None
  | None => None
  end.
Definition is_primary_commit (c : option QueuedCommitSnapshot) : bool :=
  match c with Some commit => is_primary (qc_kind commit) | None => false end.
Definition b2z (b : bool) : Z := if b then 1 else 0.

Definition snapshot_future_primary_depth (p : OutputPipelineSnapshot) : Z :=
  let queued := b2z (is_primary_commit (ps_kernel_submitted p))
                + b2z (is_primary_commit (ps_worker_queued_next p)) in
  sat_add u8_max queued (b2z (match ps_prepared p with PCReady _ _ _ _ => true | _ => false end)).

Definition kernel_plane_delta (p : OutputPipelineSnapshot) : bool :=
  match ps_kernel_submitted p with
  | Some commit => negb (is_primary (qc_kind commit))
  | None => false
  end.
Definition snapshot_direct_active (p : OutputPipelineSnapshot) : bool :=
  match ps_presented_primary p with Some (Direct _ _ _ _ _ _) => true | _ => false end.

Definition can_render_composed (p : OutputPipelineSnapshot) : bool :=
  negb (snapshot_direct_active p) && negb (is_present (ps_prepared p))
  && (snapshot_future_primary_depth p <? ps_future_primary_limit p)
  && (0 <? ps_free_compositor_slots p).

Definition can_pre_admit_primary (p : OutputPipelineSnapshot) : bool :=
  match ps_prepared p with PCReady _ _ (Fixed _) _ => true | _ => false end
  && negb (bool_decide (is_Some (ps_worker_queued_next p)))
  && (snapshot_future_primary_depth p <=? ps_future_primary_limit p)
  && negb (kernel_plane_delta p).

(** The check of one commit's generation. *)
Definition validate_generation (p : OutputPipelineSnapshot) (c : option QueuedCommitSnapshot)
  : res PipelineValidationError unit :=
  match c with
  | Some commit =>
      if negb (qc_output_generation commit =? ps_output_generation p)
      then Fail (OutputGenerationMismatch (commit_transaction_id (qc_kind commit))
             (ps_output_generation p) (qc_output_generation commit))
      else Ret tt
  | None => Ret tt
  end.

(** [kernel.zip(worker)] with equal tokens. *)
Definition duplicate_token (p : OutputPipelineSnapshot) : bool :=
  match ps_kernel_submitted p, ps_worker_queued_next p with
  | Some kernel, Some worker => qc_token kernel =? qc_token worker
  | _, _ => false
  end.

Definition occupied_slots (p : OutputPipelineSnapshot) : list (option Z) :=
  [ match ps_presented_primary p with
    | Some (Composed _ _ _ slot _ _ _) => Some slot
    | _ => None
    end;
    ps_kernel_submitted p ≫= (fun commit => compositor_slot (qc_kind commit));
    ps_worker_queued_next p ≫= (fun commit => compositor_slot (qc_kind commit));
    prepared_slot (ps_prepared p) ].

Definition pipeline_reservations (p : OutputPipelineSnapshot) : list FramePresentationReservation :=
  omap id [ qc_reservation <$> primary_of (ps_kernel_submitted p);
            qc_reservation <$> primary_of (ps_worker_queued_next p);
            prepared_reservation (ps_prepared p) ].

Definition validate (p : OutputPipelineSnapshot) : res PipelineValidationError unit :=
  _ ← validate_pipeline_owner_counts
        (b2z (bool_decide (is_Some (ps_kernel_submitted p))))
        (b2z (bool_decide (is_Some (ps_worker_queued_next p))))
        (b2z (is_present (ps_prepared p)));
  if ps_output_generation p =? 0 then Fail ZeroOutputGeneration
  else
    _ ← validate_generation p (ps_kernel_submitted p);
    _ ← validate_generation p (ps_worker_queued_next p);
    if duplicate_token p then Fail DuplicateCommitToken
    else
      _ ← validate_slots (occupied_slots p);
      let depth := snapshot_future_primary_depth p in
      if 2 <? depth then Fail (FuturePrimaryDepthExceeded depth)
      else validate_order_loop (pipeline_reservations p).

(** ** The scheduler's view *)

Definition snapshot_prepared_primary (p : OutputPipelineSnapshot) : SchedulerPreparedPrimary :=
  match ps_prepared p with
  | PCNone => PreparedNone
  | PCRendering _ _ => PreparedRendering
  | PCReady _ _ (Fixed target) _ => PreparedReady target
  | PCReady _ _ (Variable_ _) _ => PreparedReadyVariable
  | PCReady _ _ (DeferredO1 _) _ => PreparedReadyUnbound
  | PCReadyUnbound _ _ _ => PreparedReadyUnbound
  end.

#[export] Instance snapshot_view : PresentationPipelineView OutputPipelineSnapshot := {
  future_primary_limit := ps_future_primary_limit;
  kernel_commit_occupied := fun p => bool_decide (is_Some (ps_kernel_submitted p));
  kernel_primary_submitted := fun p => is_primary_commit (ps_kernel_submitted p);
  worker_commit_occupied := fun p => bool_decide (is_Some (ps_worker_queued_next p));
  worker_primary_queued := fun p => is_primary_commit (ps_worker_queued_next p);
  prepared_primary := snapshot_prepared_primary;
  free_compositor_slots := ps_free_compositor_slots;
  future_primary_depth := snapshot_future_primary_depth;
  direct_active := snapshot_direct_active;
  triple_capable := fun p =>
    match ps_triple_capability p with Capable => true | Unavailable _ => false end
}.

(** ** What validation means *)

Definition ordered_pair (earlier later : FramePresentationReservation) : Prop :=
  match earlier, later with
  | Fixed e, Fixed l =>
      pt_clock_generation e = pt_clock_generation l /\
      cl_clock_generation (pt_physical_claim e) = pt_clock_generation e /\
      claim_is_strictly_later (pt_physical_claim l) (pt_physical_claim e) = true
  | _, _ =>
      forall e l, physical_opportunity_id earlier = Some e -> physical_opportunity_id later = Some l ->
        clock_generation e = clock_generation l /\ sequence e < sequence l
  end.

(** Adjacent elements of a list are related. *)
Definition adjacent {A} (R : A -> A -> Prop) (l : list A) : Prop :=
  forall i a b, l !! i = Some a -> l !! S i = Some b -> R a b.

Record pipeline_valid (p : OutputPipelineSnapshot) : Prop := {
  generation_nonzero : ps_output_generation p <> 0;
  commits_of_generation : forall c,
    ps_kernel_submitted p = Some c \/ ps_worker_queued_next p = Some c ->
    qc_output_generation c = ps_output_generation p;
  tokens_distinct : forall k w,
    ps_kernel_submitted p = Some k -> ps_worker_queued_next p = Some w -> qc_token k <> qc_token w;
  slots_distinct : base.NoDup (omap id (occupied_slots p));
  depth_bounded : snapshot_future_primary_depth p <= 2;
  owners_ordered : adjacent ordered_pair (pipeline_reservations p)
}.
End Snapshot.
Arguments OutputPipelineSnapshot : clear implicits.

(** Order by opportunity identity. *)
Lemma id_order_spec (earlier later : option PresentationOpportunityId) :
  match earlier, later with
  | Some e, Some l =>
      if negb (clock_generation e =? clock_generation l)
      then Fail (TargetGenerationMismatch (clock_generation e) (clock_generation l))
      else if sequence l <=? sequence e
      then Fail (NonMonotonicTargetOrder (sequence e) (sequence l))
      else Ret tt
  | _, _ => Ret tt
  end = Ret tt <->
  forall e l, earlier = Some e -> later = Some l ->
    clock_generation e = clock_generation l /\ sequence e < sequence l.
Proof.
  destruct earlier as [e|], later as [l|]; try (by split).
  destruct (Z.eqb_spec (clock_generation e) (clock_generation l)); cbn;
    [destruct (Z.leb_spec (sequence l) (sequence e))|]; split; try done.
  - intros Ho. destruct (Ho e l); [done..|lia].
  - intros _ ? ? [= <-] [= <-]. done.
  - intros Ho. destruct (Ho e l); done.
Qed.

Lemma validate_reservation_order_spec e l :
  validate_reservation_order e l = Ret tt <-> ordered_pair e l.
Proof.
  destruct e as [e|e|e], l as [l|l|l]; try apply id_order_spec.
  unfold validate_reservation_order, ordered_pair, claim_is_strictly_later.
  destruct (Z.eqb_spec (pt_clock_generation e) (pt_clock_generation l)); cbn; [|intuition congruence].
  destruct (Z.eqb_spec (cl_clock_generation (pt_physical_claim e)) (pt_clock_generation e)); cbn;
    [|intuition congruence].
  destruct (Z.eqb_spec (cl_clock_generation (pt_physical_claim l)) (pt_clock_generation l)); cbn.
  - zcase; intuition congruence.
  - split; [done|]. intros (_ & _ & [_ H%Z.eqb_eq]%andb_prop). congruence.
Qed.

Lemma adjacent_cons2 {A} (R : A -> A -> Prop) a b l :
  adjacent R (a :: b :: l) <-> R a b /\ adjacent R (b :: l).
Proof.
  split.
  - intros H. split; [by apply (H 0%nat)|]. intros i x y Hx Hy. by apply (H (S i)).
  - intros [H1 H2] [|i] x y; cbn; [by intros [= <-] [= <-]|apply H2].
Qed.

Lemma validate_order_loop_spec rs :
  validate_order_loop rs = Ret tt <-> adjacent ordered_pair rs.
Proof.
  induction rs as [|a rs IH]; [split; [by intros _ [|i] x y|done]|].
  destruct rs as [|b rs]; [split; [by intros _ [|i] x y|done]|].
  rewrite adjacent_cons2, <- IH, <- validate_reservation_order_spec. cbn [validate_order_loop].
  rewrite bind_Ret. split; [by intros ([] & ? & ?)|by intros [? ?]; exists tt].
Qed.

Lemma validate_slots_spec occupied :
  validate_slots occupied = Ret tt <-> base.NoDup (omap id occupied).
Proof.
  induction occupied as [|[slot|] rest IH]; cbn; [split; [constructor|done]| |done].
  rewrite list.NoDup_cons, <- IH, list_elem_of_omap. case_decide as Hin.
  - split; [done|]. intros [Hn _]. exfalso. apply Hn. exists (Some slot). done.
  - split; [|by intros []]. intros Hv. split; [|done]. intros (o & Ho & Hs). cbn in Hs. by subst o.
Qed.

Section Validation.
Context {K I C : Type}.
Implicit Types (p : OutputPipelineSnapshot K I C).

Lemma validate_generation_spec p c :
  validate_generation p c = Ret tt <->
  forall q, c = Some q -> qc_output_generation q = ps_output_generation p.
Proof.
  unfold validate_generation. destruct c as [q|]; [|by split].
  destruct (Z.eqb_spec (qc_output_generation q) (ps_output_generation p)); cbn; split; try done.
  - by intros _ ? [= <-].
  - intros Hq. by specialize (Hq q eq_refl).
Qed.

Lemma owner_counts_ok (a b c : bool) :
  validate_pipeline_owner_counts (b2z a) (b2z b) (b2z c) = Ret tt.
Proof. by destruct a, b, c. Qed.

Lemma duplicate_token_spec p :
  duplicate_token p = false <->
  forall k w, ps_kernel_submitted p = Some k -> ps_worker_queued_next p = Some w ->
    qc_token k <> qc_token w.
Proof.
  unfold duplicate_token. destruct (ps_kernel_submitted p) as [k|], (ps_worker_queued_next p) as [w|];
    try (by split). rewrite Z.eqb_neq. split; [by intros ? ? ? [= <-] [= <-]|by intros Ht; apply Ht].
Qed.

(** The view of a snapshot is coherent. *)
Lemma snapshot_depth p :
  snapshot_future_primary_depth p =
    b2z (is_primary_commit (ps_kernel_submitted p))
    + b2z (is_primary_commit (ps_worker_queued_next p))
    + b2z (match ps_prepared p with PCReady _ _ _ _ => true | _ => false end).
Proof.
  unfold snapshot_future_primary_depth, sat_add, u8_max, b2z.
  destruct (is_primary_commit (ps_kernel_submitted p)),
    (is_primary_commit (ps_worker_queued_next p)); destruct (ps_prepared p); reflexivity.
Qed.

(** Validation decides exactly the ownership discipline of the output
    pipeline. A snapshot is accepted if and only if its generation is nonzero
    and shared by the commits in flight, the kernel's and the worker's tokens
    differ, no compositor slot has two owners (presented, kernel, worker,
    prepared), at most two future primaries exist, and adjacent owners target
    strictly later refreshes of one clock. *)
Theorem validate_characterised (p : OutputPipelineSnapshot K I C) :
  validate p = Ret tt <-> pipeline_valid p.
Proof.
  unfold validate. rewrite owner_counts_ok. cbn [mbind res_bind].
  destruct (Z.eqb_spec (ps_output_generation p) 0) as [H0|H0]; [by split; [|intros []]|].
  rewrite bind_Ret. setoid_rewrite bind_Ret.
  split.
  - intros ([] & Hk & [] & Hw & H).
    rewrite validate_generation_spec in Hk, Hw.
    destruct (duplicate_token p) eqn:Et; [done|]. rewrite duplicate_token_spec in Et.
    apply bind_Ret in H as ([] & Hs%validate_slots_spec & H).
    destruct (Z.ltb_spec 2 (snapshot_future_primary_depth p)); [done|].
    apply validate_order_loop_spec in H. split; try done.
    intros c [Hc|Hc]; [by apply Hk|by apply Hw].
  - intros [_ Hg Ht Hs Hd Ho]. exists tt.
    split; [rewrite validate_generation_spec; auto|]. exists tt.
    split; [rewrite validate_generation_spec; auto|].
    rewrite (proj2 (duplicate_token_spec p) Ht).
    apply bind_Ret. exists tt. split; [by apply validate_slots_spec|].
    destruct (Z.ltb_spec 2 (snapshot_future_primary_depth p)); [lia|].
    by apply validate_order_loop_spec.
Qed.

(** The scheduler keeps the pipeline within its depth. On a snapshot,
    a decision to render ahead implies that the pipeline may render a composed
    frame and stays within its limit with one more future primary; a plain
    render decision implies that there is no future primary at all; and a
    decision to submit implies that the worker slot holds no primary and that a
    composed frame bound to a refresh is ready. *)
Theorem scheduler_respects_pipeline (context : ExplicitAtomicSchedulerContext)
  (p : OutputPipelineSnapshot K I C) (s : NativeFrameScheduler)
  (Hslots : 0 <= ps_free_compositor_slots p) :
  let d := (decision_with_pipeline context p s).2 in
  (d = DRenderAhead ->
     can_render_composed p = true /\
     snapshot_future_primary_depth p + 1 <= ps_future_primary_limit p) /\
  (d = DRender -> snapshot_future_primary_depth p = 0 /\ ps_prepared p = PCNone) /\
  (is_submit d = true ->
     is_primary_commit (ps_worker_queued_next p) = false /\
     exists transaction slot reservation fence,
       ps_prepared p = PCReady transaction slot reservation fence /\
       is_Some (reservation_physical_opportunity reservation)).
Proof.
  assert (Hnone : snapshot_prepared_primary p = PreparedNone -> ps_prepared p = PCNone).
  { unfold snapshot_prepared_primary. destruct (ps_prepared p) as [| |? ? []|]; done. }
  cbn zeta. split; [|split].
  - intros Hd. pose proof (render_ahead_inv context p s Hd) as (_ & _ & Hdir & _ & Hlt).
    destruct (render_decision_inv context p s (or_intror Hd)) as (_ & Hp & Hf & _).
    cbn in Hdir, Hlt, Hp, Hf. split; [|lia]. unfold can_render_composed.
    rewrite Hdir, (Hnone Hp). cbn. zcase; done.
  - intros Hd. destruct (render_decision_inv context p s (or_introl Hd)) as (_ & Hp & _ & _ & Hb).
    cbn in Hp, Hb. rewrite Hd in Hb. split; [|auto]. rewrite snapshot_depth, (Hnone Hp).
    destruct (is_primary_commit (ps_kernel_submitted p)); [by destruct Hb as [_ Hb]; specialize (Hb eq_refl)|].
    destruct (is_primary_commit (ps_worker_queued_next p)); [|done].
    destruct Hb as [_ Hb]. by specialize (Hb eq_refl).
  - intros Hd. apply submit_decision_inv in Hd as (Hw & Hp & _). split; [exact Hw|].
    cbn in Hp. unfold snapshot_prepared_primary in Hp.
    destruct (ps_prepared p) as [| |tx slot r f|] eqn:E; [by destruct Hp as [|[? ?]]..| |
      by destruct Hp as [|[? ?]]].
    exists tx, slot, r, f. split; [done|].
    destruct r; cbn; [by eauto|by eauto|by destruct Hp as [|[? ?]]].
Qed.
End Validation.

(** ** Concrete runs *)

Definition demo_snapshot : OutputPipelineSnapshot unit unit unit :=
  mkSnapshot 1 2 PacingPredictiveTriple None tt
    (Some (mkQueuedCommit 7 1 40 (Fixed demo_ready) (CompositedPrimary 3 9 0 100)))
    None PCNone 2 Capable.
Definition demo_visual : NativeFrameScheduler :=
  queue_visual_work (new_with_refresh_interval_ns 10000000 0).

Lemma scheduler_respects_pipeline_witness :
  let context := mkAtomicContext 1060000000 0 (Some demo_ready) true true in
  (decision_with_pipeline context demo_snapshot demo_visual).2 = DRenderAhead /\
  can_render_composed demo_snapshot = true.
Proof.
  assert (H : (decision_with_pipeline (mkAtomicContext 1060000000 0 (Some demo_ready) true true)
    demo_snapshot demo_visual).2 = DRenderAhead) by (vm_compute; reflexivity).
  split; [exact H|].
  refine (proj1 (proj1 (scheduler_respects_pipeline _ demo_snapshot demo_visual _) H)).
  vm_compute. discriminate.
Defined.

Example demo_snapshot_validates : validate demo_snapshot = Ret tt.
Proof. vm_compute. reflexivity. Qed.

(** A worker submission that reaches the kernel and completes. *)
Definition demo_submission : list (SchedulerOp (OutputPipelineSnapshot unit unit unit)) :=
  [OpReserveWorker 7 3; OpConfirmKernel 7 1000; OpPageFlip 8 1500; OpPageFlip 7 2000;
   OpPageFlip 7 2500].
Example demo_submission_history :
  flip_history (scheduler_new 60 0) demo_submission = [EvSubmit 7 1000; EvComplete 7 1000].
Proof. vm_compute. reflexivity. Qed.
