(* ===== verification/RenderJournal.v ===== *)
(** * RenderJournal: bounded sample histories and cost prediction

    Models the estimator half of src/native/adaptive_buffering.rs: the
    bounded sample windows with their cached percentiles ([RankedHistory]),
    the branch risk histories, the exact-parallel journal and
    [AdaptiveRenderJournal] with its predictions, and the diagnostic records
    of src/control_snapshots.rs they fill. A [VecDeque] is a list, front
    first; a percentile cache is the [Cell] it is in the code, so a
    prediction also returns the journal whose caches it filled. [None] is a
    panic (an index or a [clamp] out of range). *)

From stdpp Require Import base list option sorting.
From Stdlib Require Import ZArith Lia.
From S2P Require Import Prelude Buffering Deadline.

Definition SAMPLE_CAPACITY : Z := 120.
Definition WARM_PARALLEL_MIN_SAMPLES : Z := 20.
Definition MISS_RECOVERY_EXACT_SUCCESSES : Z := 20.
Definition COLD_WAKE_REFRESH_INTERVALS : Z := 100.
Definition MAX_TOTAL_COST_REFRESH_INTERVALS : Z := 2.

Inductive PredictionEstimatorMode : Type := ColdStart | WarmParallel | MissRecovery.
Inductive FenceTimestampQuality : Type := ExactSyncFile | ObservedApproximate.
Inductive DeferredO1BindingOrigin : Type := RenderCompletion | PredecessorPageflip.
Inductive EstimatorRecoveryDisposition : Type := ResetIndependentHorizon | PreserveEstimatorState.
Inductive BranchRiskSource : Type :=
  SourceNone | RecentP95 | PositiveDeviation | EvidenceCeiling.

#[export] Instance PredictionEstimatorMode_eq_dec : EqDecision PredictionEstimatorMode.
Proof. solve_decision. Defined.
#[export] Instance EstimatorRecoveryDisposition_eq_dec : EqDecision EstimatorRecoveryDisposition.
Proof. solve_decision. Defined.

(** ** Sample windows *)

Definition zlen {A} (l : list A) : Z := Z.of_nat (length l).

Definition push_bounded (samples : list Z) (value : Z) : list Z :=
  (if zlen samples =? SAMPLE_CAPACITY then tail samples else samples) ++ [value].

(** The one-based nearest rank among [count] values. *)
Definition rank_index (percent count : Z) : Z := Z.max (div_ceil (percent * count) 100) 1.

(** [select_nth_unstable(rank - 1)] leaves at its index the value a sort
    would put there. The scratch array holds [SAMPLE_CAPACITY] values. *)
Definition nearest_rank (samples : list Z) (percentile : Z) : option Z :=
  if zlen samples =? 0 then Some 0
  else if SAMPLE_CAPACITY <? zlen samples then None
  else merge_sort Z.le samples !! Z.to_nat (rank_index percentile (zlen samples) - 1).

Record RankedHistory : Type := mkRanked {
  rh_samples : list Z;
  rh_rank : option Z
}.
Definition ranked_new : RankedHistory := mkRanked [] None.
Definition ranked_push (value : Z) (h : RankedHistory) : RankedHistory :=
  mkRanked (push_bounded (rh_samples h) value) None.
(** The value [rank()] returns, and the history whose cell it filled. *)
Definition rank (percentile : Z) (h : RankedHistory) : option Z :=
  match rh_rank h with
  | Some r => Some r
  | None => nearest_rank (rh_samples h) percentile
  end.
Definition rank_fill (percentile : Z) (h : RankedHistory) : RankedHistory :=
  mkRanked (rh_samples h) (rank percentile h).

(** [iter().copied().max().unwrap_or(0)] on unsigned samples. *)
Definition window_max (samples : list Z) : Z := foldr Z.max 0 samples.

(** ** Exponential averages *)

Definition mean_alpha (dt_ns : Z) : Z * Z :=
  if dt_ns <=? 5000000 then (1, 100)
  else if 500000000 <=? dt_ns then (1, 1)
  else (dt_ns, 500000000).

Definition deviation_alpha (dt_ns : Z) : Z * Z :=
  if dt_ns <=? 6000000 then (1, 1000)
  else if 600000000 <=? dt_ns then (1, 10)
  else (dt_ns, 6000000000).

(** Computed in [u128], which the products of two [u64] do not leave
    ([mix_rounded_fits]). *)
Definition mix_rounded (new old alpha_num alpha_den : Z) : Z :=
  let new_weighted := new * alpha_num in
  let old_weighted := old * sat_sub alpha_den alpha_num in
  let rounded := (new_weighted + old_weighted + alpha_den / 2) / alpha_den in
  Z.min rounded u64_max.

(** ** Window diagnostics *)

Record SampleWindowDiagnostics : Type := mkWindow {
  sw_count : Z;
  sw_latest_ns : Z;
  sw_p50_ns : Z;
  sw_p90_ns : Z;
  sw_p95_ns : Z;
  sw_p99_ns : Z;
  sw_max_ns : Z;
  sw_over_refresh_samples : Z;
  sw_over_two_refresh_samples : Z
}.
Definition window_default : SampleWindowDiagnostics := mkWindow 0 0 0 0 0 0 0 0 0.

Definition count_over (limit : Z) (samples : list Z) : Z :=
  zlen (List.filter (fun sample => limit <? sample) samples).

Definition sample_window_diagnostics (samples : list Z) (refresh_interval_ns : Z)
  : option SampleWindowDiagnostics :=
  if zlen samples =? 0 then Some window_default
  else
    let count := Z.min (zlen samples) SAMPLE_CAPACITY in
    let values := merge_sort Z.le (take (Z.to_nat count) samples) in
    let percentile percent := values !! Z.to_nat (rank_index percent count - 1) in
    p50 ← percentile 50;
    p90 ← percentile 90;
    p95 ← percentile 95;
    p99 ← percentile 99;
    max ← values !! Z.to_nat (count - 1);
    Some (mkWindow count (default 0 (last samples)) p50 p90 p95 p99 max
            (count_over refresh_interval_ns samples)
            (count_over (sat_mul u64_max refresh_interval_ns 2) samples)).

(** ** Branch risk *)

Record BranchRiskHistory : Type := mkBranch {
  br_samples : RankedHistory;
  br_ewma_ns : Z;
  br_upper_positive_deviation_ns : Z;
  br_last_sample_at : option MonotonicTimestampNs
}.
Definition branch_default : BranchRiskHistory := mkBranch ranked_new 0 0 None.

Record BranchRiskSelection : Type := mkSelection {
  sel_central_risk_ns : Z;
  sel_selected_risk_ns : Z;
  sel_selected_source : BranchRiskSource
}.

(** The mean and deviation a sample leaves: the update [record] and
    [record_render_sample] share. *)
Definition ewma_update (sample_ns : Z) (at_ns : MonotonicTimestampNs) (ewma deviation : Z)
  (last_sample_at : option MonotonicTimestampNs) : Z * Z :=
  match last_sample_at with
  | Some previous_at =>
      let dt_ns := sat_sub at_ns previous_at in
      let positive_error := sat_sub sample_ns ewma in
      let '(deviation_num, deviation_den) := deviation_alpha dt_ns in
      let deviation' :=
        Z.max (mix_rounded positive_error deviation deviation_num deviation_den)
          positive_error in
      let '(mean_num, mean_den) := mean_alpha dt_ns in
      (mix_rounded sample_ns ewma mean_num mean_den, deviation')
  | None => (sample_ns, 0)
  end.

Definition branch_record (sample_ns : Z) (at_ns : MonotonicTimestampNs) (b : BranchRiskHistory)
  : BranchRiskHistory :=
  let '(ewma, deviation) :=
    ewma_update sample_ns at_ns (br_ewma_ns b) (br_upper_positive_deviation_ns b)
      (br_last_sample_at b) in
  mkBranch (ranked_push sample_ns (br_samples b)) ewma deviation (Some at_ns).

Definition branch_selection (b : BranchRiskHistory) : option BranchRiskSelection :=
  recent_p95_ns ← rank 95 (br_samples b);
  let samples := rh_samples (br_samples b) in
  let recent_max_ns := window_max samples in
  let central_risk_ns :=
    sat_add u64_max (br_ewma_ns b) (sat_mul u64_max (br_upper_positive_deviation_ns b) 2) in
  let selected_risk_ns := Z.max recent_p95_ns (Z.min central_risk_ns recent_max_ns) in
  let selected_source :=
    if zlen samples =? 0 then SourceNone
    else if recent_max_ns <? central_risk_ns then EvidenceCeiling
    else if central_risk_ns <=? recent_p95_ns then RecentP95
    else PositiveDeviation in
  Some (mkSelection central_risk_ns selected_risk_ns selected_source).
Definition branch_risk_ns (b : BranchRiskHistory) : option Z :=
  sel_selected_risk_ns <$> branch_selection b.
Definition sustained_risk_ns (b : BranchRiskHistory) : option Z := rank 95 (br_samples b).
(** The cell [selection] fills. *)
Definition branch_fill (b : BranchRiskHistory) : BranchRiskHistory :=
  mkBranch (rank_fill 95 (br_samples b)) (br_ewma_ns b) (br_upper_positive_deviation_ns b)
    (br_last_sample_at b).

Record BranchRiskDiagnostics : Type := mkBranchDiagnostics {
  bd_window : SampleWindowDiagnostics;
  bd_ewma_ns : Z;
  bd_upper_positive_deviation_ns : Z;
  bd_central_risk_ns : Z;
  bd_selected_risk_ns : Z;
  bd_selected_source : BranchRiskSource
}.
Definition branch_diagnostics (b : BranchRiskHistory) (refresh_interval_ns : Z)
  : option BranchRiskDiagnostics :=
  window ← sample_window_diagnostics (rh_samples (br_samples b)) refresh_interval_ns;
  selection ← branch_selection b;
  Some (mkBranchDiagnostics window (br_ewma_ns b) (br_upper_positive_deviation_ns b)
          (sel_central_risk_ns selection) (sel_selected_risk_ns selection)
          (sel_selected_source selection)).

(** ** Frame observations *)

Record DeferredO1BindingTimingEvidence : Type := mkBindingEvidence {
  ev_origin : DeferredO1BindingOrigin;
  ev_authority_observed_at : MonotonicTimestampNs;
  ev_bound_committed_at : option MonotonicTimestampNs
}.

Record FrameTimingObservation : Type := mkObservation {
  fo_frame_id : Z;
  fo_target : PresentationTarget;
  fo_composite_started_at : MonotonicTimestampNs;
  fo_worker_queued_at : option MonotonicTimestampNs;
  fo_fence_signaled_at : option (MonotonicTimestampNs * FenceTimestampQuality)
}.

Definition exact_parallel_branch_samples_ns (o : FrameTimingObservation) : option (Z * Z) :=
  match fo_fence_signaled_at o with
  | Some (fence_signaled_ns, ExactSyncFile) =>
      worker_queued_ns ← fo_worker_queued_at o;
      let composite_started_ns := fo_composite_started_at o in
      if (fence_signaled_ns <? composite_started_ns) || (worker_queued_ns <? composite_started_ns)
      then None
      else Some (fence_signaled_ns - composite_started_ns, worker_queued_ns - composite_started_ns)
  | _ => None
  end.

Definition predecessor_lane_wait_ns (o : FrameTimingObservation)
  (rendered_observed_at : option MonotonicTimestampNs)
  (evidence : option DeferredO1BindingTimingEvidence) : Z :=
  match rendered_observed_at, evidence, fo_worker_queued_at o with
  | Some rendered_ns, Some evidence, Some worker_queued_at =>
      match ev_origin evidence with
      | RenderCompletion => 0
      | PredecessorPageflip =>
          let authority_ns := ev_authority_observed_at evidence in
          if (rendered_ns <? fo_composite_started_at o) || (authority_ns <? rendered_ns)
             || (worker_queued_at <? authority_ns)
          then 0
          else authority_ns - rendered_ns
      end
  | _, _, _ => 0
  end.

Definition render_sample_duration_ns (composite_started_at fence_signaled_at : MonotonicTimestampNs)
  : Z := sat_sub fence_signaled_at composite_started_at.

(** ** The exact-parallel journal *)

Record ExactParallelRiskJournal : Type := mkExact {
  ep_render_ready : BranchRiskHistory;
  ep_queue_ready : BranchRiskHistory;
  ep_composite_to_rendered_observed : list Z;
  ep_post_render_handoff : list Z;
  ep_fence_after_rendered_observed : list Z;
  ep_rendered_observed_after_fence : list Z;
  ep_decomposition_invalid_samples : Z;
  ep_deferred_ready_to_authority_observed : list Z;
  ep_deferred_authority_to_bind_committed : list Z;
  ep_deferred_bind_committed_to_worker_queue : list Z;
  ep_deferred_o1_decomposition_samples : Z;
  ep_deferred_o1_predecessor_pageflip_bind_samples : Z;
  ep_deferred_o1_render_completion_bind_samples : Z;
  ep_deferred_o1_decomposition_invalid_samples : Z;
  ep_deferred_o1_binding_timestamp_unavailable_samples : Z
}.
Definition exact_default : ExactParallelRiskJournal :=
  mkExact branch_default branch_default [] [] [] [] 0 [] [] [] 0 0 0 0 0.

Definition bump (counter : Z) : Z := sat_add u64_max counter 1.

(** Field assignments, grouped by the code that makes them. *)
Definition set_branches (r q : BranchRiskHistory) (e : ExactParallelRiskJournal)
  : ExactParallelRiskJournal :=
  mkExact r q (ep_composite_to_rendered_observed e) (ep_post_render_handoff e)
    (ep_fence_after_rendered_observed e) (ep_rendered_observed_after_fence e)
    (ep_decomposition_invalid_samples e) (ep_deferred_ready_to_authority_observed e)
    (ep_deferred_authority_to_bind_committed e) (ep_deferred_bind_committed_to_worker_queue e)
    (ep_deferred_o1_decomposition_samples e)
    (ep_deferred_o1_predecessor_pageflip_bind_samples e)
    (ep_deferred_o1_render_completion_bind_samples e)
    (ep_deferred_o1_decomposition_invalid_samples e)
    (ep_deferred_o1_binding_timestamp_unavailable_samples e).
Definition set_decomposition (composite handoff fence_after after_fence : list Z) (invalid : Z)
  (e : ExactParallelRiskJournal) : ExactParallelRiskJournal :=
  mkExact (ep_render_ready e) (ep_queue_ready e) composite handoff fence_after after_fence invalid
    (ep_deferred_ready_to_authority_observed e) (ep_deferred_authority_to_bind_committed e)
    (ep_deferred_bind_committed_to_worker_queue e) (ep_deferred_o1_decomposition_samples e)
    (ep_deferred_o1_predecessor_pageflip_bind_samples e)
    (ep_deferred_o1_render_completion_bind_samples e)
    (ep_deferred_o1_decomposition_invalid_samples e)
    (ep_deferred_o1_binding_timestamp_unavailable_samples e).
Definition set_deferred_counters (decomposed pageflip completion invalid unavailable : Z)
  (e : ExactParallelRiskJournal) : ExactParallelRiskJournal :=
  mkExact (ep_render_ready e) (ep_queue_ready e) (ep_composite_to_rendered_observed e)
    (ep_post_render_handoff e) (ep_fence_after_rendered_observed e)
    (ep_rendered_observed_after_fence e) (ep_decomposition_invalid_samples e)
    (ep_deferred_ready_to_authority_observed e) (ep_deferred_authority_to_bind_committed e)
    (ep_deferred_bind_committed_to_worker_queue e) decomposed pageflip completion invalid
    unavailable.
Definition push_deferred (wait bind admission : Z) (e : ExactParallelRiskJournal)
  : ExactParallelRiskJournal :=
  mkExact (ep_render_ready e) (ep_queue_ready e) (ep_composite_to_rendered_observed e)
    (ep_post_render_handoff e) (ep_fence_after_rendered_observed e)
    (ep_rendered_observed_after_fence e) (ep_decomposition_invalid_samples e)
    (push_bounded (ep_deferred_ready_to_authority_observed e) wait)
    (push_bounded (ep_deferred_authority_to_bind_committed e) bind)
    (push_bounded (ep_deferred_bind_committed_to_worker_queue e) admission)
    (ep_deferred_o1_decomposition_samples e)
    (ep_deferred_o1_predecessor_pageflip_bind_samples e)
    (ep_deferred_o1_render_completion_bind_samples e)
    (ep_deferred_o1_decomposition_invalid_samples e)
    (ep_deferred_o1_binding_timestamp_unavailable_samples e).

Definition exact_record (render_ready_ns queue_ready_ns : Z) (at_ns : MonotonicTimestampNs)
  (e : ExactParallelRiskJournal) : ExactParallelRiskJournal :=
  set_branches (branch_record render_ready_ns at_ns (ep_render_ready e))
    (branch_record queue_ready_ns at_ns (ep_queue_ready e)) e.

Definition exact_samples (e : ExactParallelRiskJournal) : Z :=
  Z.min (zlen (rh_samples (br_samples (ep_render_ready e))))
    (zlen (rh_samples (br_samples (ep_queue_ready e)))).

Definition record_decomposition (o : FrameTimingObservation)
  (rendered_observed_at : option MonotonicTimestampNs) (e : ExactParallelRiskJournal)
  : ExactParallelRiskJournal :=
  match rendered_observed_at, fo_worker_queued_at o, fo_fence_signaled_at o with
  | Some rendered_ns, Some worker_handoff_ns, Some (fence_ns, ExactSyncFile) =>
      let composite_ns := fo_composite_started_at o in
      let composite := ep_composite_to_rendered_observed e in
      let handoff := ep_post_render_handoff e in
      let fence_after := ep_fence_after_rendered_observed e in
      let after_fence := ep_rendered_observed_after_fence e in
      let invalid := ep_decomposition_invalid_samples e in
      if rendered_ns <? composite_ns
      then set_decomposition composite handoff fence_after after_fence (bump invalid) e
      else
        let composite := push_bounded composite (rendered_ns - composite_ns) in
        let '(handoff, invalid) :=
          if worker_handoff_ns <? rendered_ns then (handoff, bump invalid)
          else (push_bounded handoff (worker_handoff_ns - rendered_ns), invalid) in
        let '(fence_after, after_fence) :=
          if rendered_ns <? fence_ns
          then (push_bounded fence_after (fence_ns - rendered_ns), after_fence)
          else if fence_ns <? rendered_ns
          then (fence_after, push_bounded after_fence (rendered_ns - fence_ns))
          else (fence_after, after_fence) in
        set_decomposition composite handoff fence_after after_fence invalid e
  | _, _, _ => e
  end.

(** The two counters [record_deferred_o1_decomposition] bumps by origin. *)
Definition bump_origin (origin : DeferredO1BindingOrigin) (e : ExactParallelRiskJournal)
  : ExactParallelRiskJournal :=
  set_deferred_counters (ep_deferred_o1_decomposition_samples e)
    (match origin with
     | PredecessorPageflip => bump (ep_deferred_o1_predecessor_pageflip_bind_samples e)
     | RenderCompletion => ep_deferred_o1_predecessor_pageflip_bind_samples e
     end)
    (match origin with
     | PredecessorPageflip => ep_deferred_o1_render_completion_bind_samples e
     | RenderCompletion => bump (ep_deferred_o1_render_completion_bind_samples e)
     end)
    (ep_deferred_o1_decomposition_invalid_samples e)
    (ep_deferred_o1_binding_timestamp_unavailable_samples e) e.
Definition bump_unavailable (e : ExactParallelRiskJournal) : ExactParallelRiskJournal :=
  set_deferred_counters (ep_deferred_o1_decomposition_samples e)
    (ep_deferred_o1_predecessor_pageflip_bind_samples e)
    (ep_deferred_o1_render_completion_bind_samples e)
    (ep_deferred_o1_decomposition_invalid_samples e)
    (bump (ep_deferred_o1_binding_timestamp_unavailable_samples e)) e.
Definition bump_deferred_invalid (e : ExactParallelRiskJournal) : ExactParallelRiskJournal :=
  set_deferred_counters (ep_deferred_o1_decomposition_samples e)
    (ep_deferred_o1_predecessor_pageflip_bind_samples e)
    (ep_deferred_o1_render_completion_bind_samples e)
    (bump (ep_deferred_o1_decomposition_invalid_samples e))
    (ep_deferred_o1_binding_timestamp_unavailable_samples e) e.
Definition bump_decomposed (e : ExactParallelRiskJournal) : ExactParallelRiskJournal :=
  set_deferred_counters (bump (ep_deferred_o1_decomposition_samples e))
    (ep_deferred_o1_predecessor_pageflip_bind_samples e)
    (ep_deferred_o1_render_completion_bind_samples e)
    (ep_deferred_o1_decomposition_invalid_samples e)
    (ep_deferred_o1_binding_timestamp_unavailable_samples e) e.

Definition record_deferred_o1_decomposition (o : FrameTimingObservation)
  (rendered_observed_at : option MonotonicTimestampNs)
  (evidence : option DeferredO1BindingTimingEvidence) (e : ExactParallelRiskJournal)
  : ExactParallelRiskJournal :=
  match evidence, rendered_observed_at, fo_worker_queued_at o with
  | Some evidence, Some rendered_ns, Some worker_queued_ns =>
      let e := bump_origin (ev_origin evidence) e in
      match ev_bound_committed_at evidence with
      | None => bump_unavailable e
      | Some bound_ns =>
          let authority_ns := ev_authority_observed_at evidence in
          if (authority_ns <? rendered_ns) || (bound_ns <? authority_ns)
             || (worker_queued_ns <? bound_ns)
          then bump_deferred_invalid e
          else
            let h_total := worker_queued_ns - rendered_ns in
            let h_wait := authority_ns - rendered_ns in
            let h_bind := bound_ns - authority_ns in
            let h_admission := worker_queued_ns - bound_ns in
            if negb (bool_decide
                 ((sum ← checked_add u64_max h_wait h_bind; checked_add u64_max sum h_admission)
                  = Some h_total))
            then bump_deferred_invalid e
            else bump_decomposed (push_deferred h_wait h_bind h_admission e)
      end
  | _, _, _ => e
  end.

Record ExactParallelDiagnostics : Type := mkExactDiagnostics {
  ed_render_ready : BranchRiskDiagnostics;
  ed_queue_ready : BranchRiskDiagnostics;
  ed_composite_to_rendered_observed : SampleWindowDiagnostics;
  ed_post_render_handoff : SampleWindowDiagnostics;
  ed_fence_after_rendered_observed : SampleWindowDiagnostics;
  ed_rendered_observed_after_fence : SampleWindowDiagnostics;
  ed_queue_before_fence_samples : Z;
  ed_fence_before_queue_samples : Z;
  ed_equal_samples : Z;
  ed_decomposition_invalid_samples : Z;
  ed_deferred_ready_to_authority_observed : SampleWindowDiagnostics;
  ed_deferred_authority_to_bind_committed : SampleWindowDiagnostics;
  ed_deferred_bind_committed_to_worker_queue : SampleWindowDiagnostics;
  ed_deferred_o1_decomposition_samples : Z;
  ed_deferred_o1_predecessor_pageflip_bind_samples : Z;
  ed_deferred_o1_render_completion_bind_samples : Z;
  ed_deferred_o1_decomposition_invalid_samples : Z;
  ed_deferred_o1_binding_timestamp_unavailable_samples : Z
}.

(** The three counters of the loop over the zipped branch samples. *)
Fixpoint count_orders (pairs : list (Z * Z)) (acc : Z * Z * Z) : Z * Z * Z :=
  match pairs with
  | [] => acc
  | (render_ready_ns, queue_ready_ns) :: pairs =>
      let '(queue_before, fence_before, equal) := acc in
      count_orders pairs
        (if queue_ready_ns <? render_ready_ns then (queue_before + 1, fence_before, equal)
         else if render_ready_ns <? queue_ready_ns then (queue_before, fence_before + 1, equal)
         else (queue_before, fence_before, equal + 1))
  end.

Definition exact_diagnostics (e : ExactParallelRiskJournal) (refresh_interval_ns : Z)
  : option ExactParallelDiagnostics :=
  let '(queue_before, fence_before, equal) :=
    count_orders
      (zip (rh_samples (br_samples (ep_render_ready e)))
         (rh_samples (br_samples (ep_queue_ready e)))) (0, 0, 0) in
  let window samples := sample_window_diagnostics samples refresh_interval_ns in
  render_ready ← branch_diagnostics (ep_render_ready e) refresh_interval_ns;
  queue_ready ← branch_diagnostics (ep_queue_ready e) refresh_interval_ns;
  composite ← window (ep_composite_to_rendered_observed e);
  handoff ← window (ep_post_render_handoff e);
  fence_after ← window (ep_fence_after_rendered_observed e);
  after_fence ← window (ep_rendered_observed_after_fence e);
  wait ← window (ep_deferred_ready_to_authority_observed e);
  bind ← window (ep_deferred_authority_to_bind_committed e);
  admission ← window (ep_deferred_bind_committed_to_worker_queue e);
  Some (mkExactDiagnostics render_ready queue_ready composite handoff fence_after after_fence
          queue_before fence_before equal (ep_decomposition_invalid_samples e) wait bind admission
          (ep_deferred_o1_decomposition_samples e)
          (ep_deferred_o1_predecessor_pageflip_bind_samples e)
          (ep_deferred_o1_render_completion_bind_samples e)
          (ep_deferred_o1_decomposition_invalid_samples e)
          (ep_deferred_o1_binding_timestamp_unavailable_samples e)).
Definition exact_fill (e : ExactParallelRiskJournal) : ExactParallelRiskJournal :=
  set_branches (branch_fill (ep_render_ready e)) (branch_fill (ep_queue_ready e)) e.

(** ** Predictions *)

Record RenderPrediction : Type := mkPrediction {
  rp_ewma_render_ns : Z;
  rp_upper_render_deviation_ns : Z;
  rp_p90_recent_render_ns : Z;
  rp_render_risk_ns : Z;
  rp_p95_wake_lateness_ns : Z;
  rp_p95_worker_submit_wake_lateness_ns : Z;
  rp_p95_atomic_submit_ns : Z;
  rp_p95_worker_queue_residency_ns : Z;
  rp_p95_worker_pre_submit_ns : Z;
  rp_p95_worker_dispatch_ns : Z;
  rp_p95_atomic_ioctl_ns : Z;
  rp_main_event_loop_wake_guard_ns : Z;
  rp_kms_dispatch_budget_ns : Z;
  rp_kms_apply_guard_ns : Z;
  rp_kms_total_lead_ns : Z;
  rp_p95_target_slip_ns : Z;
  rp_exact_render_ready_risk_ns : Z;
  rp_exact_queue_ready_risk_ns : Z;
  rp_parallel_service_ns : Z;
  rp_parallel_samples : Z;
  rp_estimator_mode : PredictionEstimatorMode;
  rp_independent_total_cost_ns : Z;
  rp_warm_parallel_total_cost_ns : Z;
  rp_independent_p90_floor_ns : Z;
  rp_worker_non_ioctl_lead_ns : Z;
  rp_miss_recovery_remaining : Z;
  rp_total_cost_ns : Z;
  rp_sustained_total_cost_ns : Z;
  rp_cold_wake_guard : bool
}.

Definition parallel_service_ns (render_ready_risk_ns queue_ready_risk_ns kms_budget_ns : Z) : Z :=
  Z.max render_ready_risk_ns (sat_add u64_max queue_ready_risk_ns kms_budget_ns).
Definition warm_parallel_total_cost_ns (main_wake_guard_ns kms_apply_guard_ns render_ready_risk_ns
  queue_ready_risk_ns kms_dispatch_budget_ns : Z) : Z :=
  sat_add u64_max (sat_add u64_max main_wake_guard_ns kms_apply_guard_ns)
    (parallel_service_ns render_ready_risk_ns queue_ready_risk_ns kms_dispatch_budget_ns).

(** ** The journal *)

Record AdaptiveRenderJournal : Type := mkJournal {
  rj_render_samples : RankedHistory;
  rj_wake_lateness_samples : RankedHistory;
  rj_atomic_submit_samples : RankedHistory;
  rj_worker_queue_residency_samples : RankedHistory;
  rj_worker_submit_wake_lateness_samples : RankedHistory;
  rj_worker_pre_submit_samples : RankedHistory;
  rj_worker_dispatch_samples : RankedHistory;
  rj_fixed_submission_budget_samples : list Z;
  rj_target_slip_samples : RankedHistory;
  rj_exact_parallel : ExactParallelRiskJournal;
  rj_ewma_render_ns : Z;
  rj_upper_render_deviation_ns : Z;
  rj_last_sample_at : option MonotonicTimestampNs;
  rj_missed_deadlines : Z;
  rj_miss_recovery_remaining : Z
}.
Definition journal_default : AdaptiveRenderJournal :=
  mkJournal ranked_new ranked_new ranked_new ranked_new ranked_new ranked_new ranked_new []
    ranked_new exact_default 0 0 None 0 0.

(** Assignments to the sample windows, to the render model and to the rest. *)
Definition map_windows (render wake atomic residency submit_wake pre dispatch : RankedHistory ->
  RankedHistory) (budget : list Z -> list Z) (slip : RankedHistory -> RankedHistory)
  (j : AdaptiveRenderJournal) : AdaptiveRenderJournal :=
  mkJournal (render (rj_render_samples j)) (wake (rj_wake_lateness_samples j))
    (atomic (rj_atomic_submit_samples j)) (residency (rj_worker_queue_residency_samples j))
    (submit_wake (rj_worker_submit_wake_lateness_samples j))
    (pre (rj_worker_pre_submit_samples j)) (dispatch (rj_worker_dispatch_samples j))
    (budget (rj_fixed_submission_budget_samples j)) (slip (rj_target_slip_samples j))
    (rj_exact_parallel j) (rj_ewma_render_ns j) (rj_upper_render_deviation_ns j)
    (rj_last_sample_at j) (rj_missed_deadlines j) (rj_miss_recovery_remaining j).
Definition set_model (ewma deviation : Z) (last : option MonotonicTimestampNs)
  (j : AdaptiveRenderJournal) : AdaptiveRenderJournal :=
  mkJournal (rj_render_samples j) (rj_wake_lateness_samples j) (rj_atomic_submit_samples j)
    (rj_worker_queue_residency_samples j) (rj_worker_submit_wake_lateness_samples j)
    (rj_worker_pre_submit_samples j) (rj_worker_dispatch_samples j)
    (rj_fixed_submission_budget_samples j) (rj_target_slip_samples j) (rj_exact_parallel j)
    ewma deviation last (rj_missed_deadlines j) (rj_miss_recovery_remaining j).
Definition set_exact (e : ExactParallelRiskJournal) (missed remaining : Z)
  (j : AdaptiveRenderJournal) : AdaptiveRenderJournal :=
  mkJournal (rj_render_samples j) (rj_wake_lateness_samples j) (rj_atomic_submit_samples j)
    (rj_worker_queue_residency_samples j) (rj_worker_submit_wake_lateness_samples j)
    (rj_worker_pre_submit_samples j) (rj_worker_dispatch_samples j)
    (rj_fixed_submission_budget_samples j) (rj_target_slip_samples j) e
    (rj_ewma_render_ns j) (rj_upper_render_deviation_ns j) (rj_last_sample_at j) missed remaining.

Definition record_render_sample (sample_ns : Z) (at_ns : MonotonicTimestampNs)
  (j : AdaptiveRenderJournal) : AdaptiveRenderJournal :=
  let '(ewma, deviation) :=
    ewma_update sample_ns at_ns (rj_ewma_render_ns j) (rj_upper_render_deviation_ns j)
      (rj_last_sample_at j) in
  set_model ewma deviation (Some at_ns)
    (map_windows (ranked_push sample_ns) id id id id id id id id j).
Definition record_wake_lateness (sample_ns : Z) : AdaptiveRenderJournal -> AdaptiveRenderJournal :=
  map_windows id (ranked_push sample_ns) id id id id id id id.
Definition record_atomic_submit (sample_ns : Z) : AdaptiveRenderJournal -> AdaptiveRenderJournal :=
  map_windows id id (ranked_push sample_ns) id id id id id id.
Definition record_worker_queue_residency (sample_ns : Z)
  : AdaptiveRenderJournal -> AdaptiveRenderJournal :=
  map_windows id id id (ranked_push sample_ns) id id id id id.
Definition record_fixed_timed_wake (sample_ns : Z)
  : AdaptiveRenderJournal -> AdaptiveRenderJournal :=
  map_windows id id id id (ranked_push sample_ns) id id id id.
Definition record_worker_service (pre_submit_ns dispatch_ns : Z)
  : AdaptiveRenderJournal -> AdaptiveRenderJournal :=
  map_windows id id id id id (ranked_push pre_submit_ns) (ranked_push dispatch_ns) id id.
Definition record_fixed_submission_budget (sample_ns : Z) (j : AdaptiveRenderJournal)
  : AdaptiveRenderJournal :=
  if 0 <? sample_ns
  then map_windows id id id id id id id (fun l => push_bounded l sample_ns) id j
  else j.
Definition record_target_slip (sample_ns : Z) : AdaptiveRenderJournal -> AdaptiveRenderJournal :=
  map_windows id id id id id id id id (ranked_push sample_ns).

Definition record_frame_service_observation_with_deferred_timing (o : FrameTimingObservation)
  (rendered_observed_at : option MonotonicTimestampNs)
  (evidence : option DeferredO1BindingTimingEvidence) (j : AdaptiveRenderJournal)
  : AdaptiveRenderJournal * option (Z * Z) :=
  let exact_branch_samples := exact_parallel_branch_samples_ns o in
  let j :=
    match exact_branch_samples with
    | Some (render_ready_ns, queue_ready_ns) =>
        let lane_wait_ns := predecessor_lane_wait_ns o rendered_observed_at evidence in
        let e := exact_record render_ready_ns (sat_sub queue_ready_ns lane_wait_ns)
                   (fo_composite_started_at o) (rj_exact_parallel j) in
        let e := record_decomposition o rendered_observed_at e in
        set_exact e (rj_missed_deadlines j) (sat_sub (rj_miss_recovery_remaining j) 1) j
    | None => j
    end in
  let e := record_deferred_o1_decomposition o rendered_observed_at evidence
             (rj_exact_parallel j) in
  (set_exact e (rj_missed_deadlines j) (rj_miss_recovery_remaining j) j, exact_branch_samples).
Definition record_frame_service_observation_with_rendered (o : FrameTimingObservation)
  (rendered_observed_at : option MonotonicTimestampNs)
  : AdaptiveRenderJournal -> AdaptiveRenderJournal * option (Z * Z) :=
  record_frame_service_observation_with_deferred_timing o rendered_observed_at None.
Definition record_frame_service_observation (o : FrameTimingObservation)
  (j : AdaptiveRenderJournal) : AdaptiveRenderJournal :=
  fst (record_frame_service_observation_with_rendered o None j).

Definition exact_parallel_diagnostics (refresh_interval_ns : Z) (j : AdaptiveRenderJournal)
  : option (AdaptiveRenderJournal * ExactParallelDiagnostics) :=
  d ← exact_diagnostics (rj_exact_parallel j) (Z.max refresh_interval_ns 1);
  Some (set_exact (exact_fill (rj_exact_parallel j)) (rj_missed_deadlines j)
          (rj_miss_recovery_remaining j) j, d).

Definition note_proven_deadline_miss (disposition : EstimatorRecoveryDisposition)
  (j : AdaptiveRenderJournal) : AdaptiveRenderJournal :=
  set_exact (rj_exact_parallel j) (bump (rj_missed_deadlines j))
    (if decide (disposition = ResetIndependentHorizon) then MISS_RECOVERY_EXACT_SUCCESSES
     else rj_miss_recovery_remaining j) j.

Definition prediction_estimator_mode (j : AdaptiveRenderJournal) : PredictionEstimatorMode :=
  if 0 <? rj_miss_recovery_remaining j then MissRecovery
  else if (WARM_PARALLEL_MIN_SAMPLES <=? exact_samples (rj_exact_parallel j))
          && (WARM_PARALLEL_MIN_SAMPLES <=? zlen (rj_fixed_submission_budget_samples j))
  then WarmParallel
  else ColdStart.

Definition is_cold (now : MonotonicTimestampNs) (refresh_interval : Duration)
  (j : AdaptiveRenderJournal) : bool :=
  let cold_threshold_ns :=
    sat_mul u64_max (Z.max (duration_ns refresh_interval) 1) COLD_WAKE_REFRESH_INTERVALS in
  match rj_last_sample_at j with
  | None => true
  | Some last_sample_at =>
      match checked_sub u64_max now last_sample_at with
      | None => true
      | Some elapsed_ns => cold_threshold_ns <=? elapsed_ns
      end
  end.

Definition p90_recent_render_ns (j : AdaptiveRenderJournal) : option Z :=
  rank 90 (rj_render_samples j).

(** Every percentile cell of the journal, filled: what a prediction does to
    the journal it reads. *)
Definition journal_fill (j : AdaptiveRenderJournal) : AdaptiveRenderJournal :=
  set_exact (exact_fill (rj_exact_parallel j)) (rj_missed_deadlines j)
    (rj_miss_recovery_remaining j)
    (map_windows (rank_fill 90) (rank_fill 95) (rank_fill 95) (rank_fill 95) (rank_fill 95)
       (rank_fill 95) (rank_fill 95) id (rank_fill 95) j).

(** [z.clamp(lo, hi)], which panics when [hi < lo]. *)
Definition rust_clamp (lo hi z : Z) : option Z := if lo <=? hi then Some (clampZ lo hi z) else None.

(** The pieces of [base_prediction], in its order. *)
Definition render_risk_of (refresh p90 : Z) (j : AdaptiveRenderJournal) : Z :=
  let central_risk :=
    sat_add u64_max (rj_ewma_render_ns j) (sat_mul u64_max (rj_upper_render_deviation_ns j) 2) in
  let startup := Z.min (refresh / 2) 4000000 in
  let samples := rh_samples (rj_render_samples j) in
  let render_risk := if zlen samples =? 0 then startup else Z.max central_risk p90 in
  if (1 <=? zlen samples) && (zlen samples <? WARM_PARALLEL_MIN_SAMPLES)
  then Z.max render_risk (window_max samples)
  else render_risk.
Definition kms_dispatch_budget_of (j : AdaptiveRenderJournal) : Z :=
  default 250000 (last (rj_fixed_submission_budget_samples j)).
Definition wake_guard_of (refresh p95_wake : Z) (j : AdaptiveRenderJournal) : option Z :=
  let ceiling := Z.max (Z.min 2000000 (refresh / 4)) 500000 in
  dynamic_margin ← rust_clamp 500000 ceiling (sat_add u64_max p95_wake 250000);
  Some (if (zlen (rh_samples (rj_wake_lateness_samples j)) <? WARM_PARALLEL_MIN_SAMPLES)
           || (zlen (rj_fixed_submission_budget_samples j) <? WARM_PARALLEL_MIN_SAMPLES)
        then Z.max dynamic_margin 1000000
        else dynamic_margin).

Definition base_prediction (refresh_interval : Duration) (cold_wake : bool)
  (kms_apply_guard : Z) (j : AdaptiveRenderJournal)
  : option (AdaptiveRenderJournal * RenderPrediction) :=
  let refresh := Z.max (duration_ns refresh_interval) 1 in
  p90 ← p90_recent_render_ns j;
  let render_risk := render_risk_of refresh p90 j in
  p95_wake ← rank 95 (rj_wake_lateness_samples j);
  p95_worker_submit_wake ← rank 95 (rj_worker_submit_wake_lateness_samples j);
  p95_ioctl ← rank 95 (rj_atomic_submit_samples j);
  p95_worker_pre_submit ← rank 95 (rj_worker_pre_submit_samples j);
  p95_worker_dispatch ← rank 95 (rj_worker_dispatch_samples j);
  p95_queue_residency ← rank 95 (rj_worker_queue_residency_samples j);
  let kms_dispatch_budget := kms_dispatch_budget_of j in
  wake_guard ← wake_guard_of refresh p95_wake j;
  let kms_total_lead := sat_add u64_max kms_dispatch_budget kms_apply_guard in
  render_ready_risk ← branch_risk_ns (ep_render_ready (rj_exact_parallel j));
  queue_ready_risk ← branch_risk_ns (ep_queue_ready (rj_exact_parallel j));
  let parallel_service :=
    parallel_service_ns render_ready_risk queue_ready_risk kms_dispatch_budget in
  let independent_total_cost :=
    sat_add u64_max (sat_add u64_max render_risk wake_guard) kms_total_lead in
  let worker_non_ioctl_lead := sat_sub kms_dispatch_budget p95_ioctl in
  let warm_parallel_total_cost :=
    warm_parallel_total_cost_ns wake_guard kms_apply_guard render_ready_risk queue_ready_risk
      kms_dispatch_budget in
  let independent_p90_floor :=
    sat_add u64_max (sat_add u64_max (sat_add u64_max p90 wake_guard) kms_dispatch_budget)
      kms_apply_guard in
  let estimator_mode := prediction_estimator_mode j in
  sustained_cost ←
    match estimator_mode with
    | ColdStart | MissRecovery => Some independent_p90_floor
    | WarmParallel =>
        r ← sustained_risk_ns (ep_render_ready (rj_exact_parallel j));
        q ← sustained_risk_ns (ep_queue_ready (rj_exact_parallel j));
        Some (warm_parallel_total_cost_ns wake_guard kms_apply_guard r q kms_dispatch_budget)
    end;
  let limit := sat_mul u64_max refresh MAX_TOTAL_COST_REFRESH_INTERVALS in
  let sustained_total_cost := Z.min sustained_cost limit in
  let total :=
    match estimator_mode with
    | ColdStart | MissRecovery => independent_total_cost
    | WarmParallel => warm_parallel_total_cost
    end in
  let total := if cold_wake then Z.max total (sat_sub refresh 100000) else total in
  let total := Z.min total limit in
  p95_slip ← rank 95 (rj_target_slip_samples j);
  Some (journal_fill j,
    mkPrediction (rj_ewma_render_ns j) (rj_upper_render_deviation_ns j) p90 render_risk p95_wake
      p95_worker_submit_wake p95_ioctl p95_queue_residency p95_worker_pre_submit
      p95_worker_dispatch p95_ioctl wake_guard kms_dispatch_budget kms_apply_guard kms_total_lead
      p95_slip render_ready_risk queue_ready_risk parallel_service
      (exact_samples (rj_exact_parallel j)) estimator_mode independent_total_cost
      warm_parallel_total_cost independent_p90_floor worker_non_ioctl_lead
      (rj_miss_recovery_remaining j) total sustained_total_cost cold_wake).

Definition prediction (refresh_interval : Duration)
  : AdaptiveRenderJournal -> option (AdaptiveRenderJournal * RenderPrediction) :=
  base_prediction refresh_interval false 0.
Definition prediction_with_kms_guard (refresh_interval : Duration) (guard : Z)
  : AdaptiveRenderJournal -> option (AdaptiveRenderJournal * RenderPrediction) :=
  base_prediction refresh_interval false guard.
Definition prediction_at (now : MonotonicTimestampNs) (refresh_interval : Duration)
  (j : AdaptiveRenderJournal) : option (AdaptiveRenderJournal * RenderPrediction) :=
  base_prediction refresh_interval (is_cold now refresh_interval j) 0 j.
Definition prediction_at_with_kms_guard (now : MonotonicTimestampNs) (refresh_interval : Duration)
  (guard : Z) (j : AdaptiveRenderJournal)
  : option (AdaptiveRenderJournal * RenderPrediction) :=
  base_prediction refresh_interval (is_cold now refresh_interval j) guard j.
Definition journal_reset (j : AdaptiveRenderJournal) : AdaptiveRenderJournal := journal_default.

Definition approximate_observation_is_late (observed_ns target_ns p95_wake_lateness_ns : Z)
  : bool := sat_add u64_max target_ns (Z.max p95_wake_lateness_ns 500000) <? observed_ns.

(** ** Histories of calls *)

Inductive JournalOp : Type :=
| JRenderSample (sample_ns : Z) (at_ns : MonotonicTimestampNs)
| JWakeLateness (sample_ns : Z)
| JAtomicSubmit (sample_ns : Z)
| JQueueResidency (sample_ns : Z)
| JTimedWake (sample_ns : Z)
| JWorkerService (pre_submit_ns dispatch_ns : Z)
| JSubmissionBudget (sample_ns : Z)
| JTargetSlip (sample_ns : Z)
| JObservation (o : FrameTimingObservation) (rendered : option MonotonicTimestampNs)
    (evidence : option DeferredO1BindingTimingEvidence)
| JMiss (disposition : EstimatorRecoveryDisposition)
| JPredict (refresh_interval : Duration) (guard : Z)
| JPredictAt (now : MonotonicTimestampNs) (refresh_interval : Duration) (guard : Z)
| JDiagnostics (refresh_interval_ns : Z)
| JReset.

Inductive JournalOutput : Type :=
| JNone
| JSamples (s : option (Z * Z))
| JPrediction (p : RenderPrediction)
| JExact (d : ExactParallelDiagnostics).

Definition journal_step (j : AdaptiveRenderJournal) (op : JournalOp)
  : option (AdaptiveRenderJournal * JournalOutput) :=
  match op with
  | JRenderSample s t => Some (record_render_sample s t j, JNone)
  | JWakeLateness s => Some (record_wake_lateness s j, JNone)
  | JAtomicSubmit s => Some (record_atomic_submit s j, JNone)
  | JQueueResidency s => Some (record_worker_queue_residency s j, JNone)
  | JTimedWake s => Some (record_fixed_timed_wake s j, JNone)
  | JWorkerService a b => Some (record_worker_service a b j, JNone)
  | JSubmissionBudget s => Some (record_fixed_submission_budget s j, JNone)
  | JTargetSlip s => Some (record_target_slip s j, JNone)
  | JObservation o r e =>
      let '(j, out) := record_frame_service_observation_with_deferred_timing o r e j in
      Some (j, JSamples out)
  | JMiss d => Some (note_proven_deadline_miss d j, JNone)
  | JPredict refresh guard =>
      '(j, p) ← prediction_with_kms_guard refresh guard j; Some (j, JPrediction p)
  | JPredictAt now refresh guard =>
      '(j, p) ← prediction_at_with_kms_guard now refresh guard j; Some (j, JPrediction p)
  | JDiagnostics refresh => '(j, d) ← exact_parallel_diagnostics refresh j; Some (j, JExact d)
  | JReset => Some (journal_reset j, JNone)
  end.

(** A run, with what each call returned; [before] is applied to the journal
    ahead of every call. *)
Fixpoint journal_run (before : AdaptiveRenderJournal -> AdaptiveRenderJournal)
  (j : AdaptiveRenderJournal) (ops : list JournalOp)
  : option (AdaptiveRenderJournal * list JournalOutput) :=
  match ops with
  | [] => Some (j, [])
  | op :: ops =>
      '(j, out) ← journal_step (before j) op;
      '(j, outs) ← journal_run before j ops;
      Some (j, out :: outs)
  end.

(** Forgetting every cached percentile: the journal that always recomputes. *)
Definition rank_drop (h : RankedHistory) : RankedHistory := mkRanked (rh_samples h) None.
Definition branch_drop (b : BranchRiskHistory) : BranchRiskHistory :=
  mkBranch (rank_drop (br_samples b)) (br_ewma_ns b) (br_upper_positive_deviation_ns b)
    (br_last_sample_at b).
Definition exact_drop (e : ExactParallelRiskJournal) : ExactParallelRiskJournal :=
  set_branches (branch_drop (ep_render_ready e)) (branch_drop (ep_queue_ready e)) e.
Definition journal_drop (j : AdaptiveRenderJournal) : AdaptiveRenderJournal :=
  set_exact (exact_drop (rj_exact_parallel j)) (rj_missed_deadlines j)
    (rj_miss_recovery_remaining j)
    (map_windows rank_drop rank_drop rank_drop rank_drop rank_drop rank_drop rank_drop id
       rank_drop j).

(** ** Percentiles *)

Definition count_le (v : Z) (l : list Z) : Z := zlen (List.filter (fun x => x <=? v) l).

Lemma zlen_app {A} (l k : list A) : zlen (l ++ k) = zlen l + zlen k.
Proof. unfold zlen. rewrite length_app. lia. Qed.

Lemma count_le_app v l k : count_le v (l ++ k) = count_le v l + count_le v k.
Proof. unfold count_le. rewrite List.filter_app. apply zlen_app. Qed.

Lemma count_le_perm v l k : l ≡ₚ k -> count_le v l = count_le v k.
Proof.
  induction 1; unfold count_le in *; cbn; repeat case_match; cbn in *; unfold zlen in *;
    cbn [length] in *; lia.
Qed.

Lemma count_le_all v l : Forall (fun x => x <= v) l -> count_le v l = zlen l.
Proof.
  induction 1 as [|x l H HF IH]; [done|]. unfold count_le in *; cbn.
  destruct (Z.leb_spec x v); [|lia]. unfold zlen in *. cbn [length]. lia.
Qed.

Lemma count_le_none v l : Forall (fun x => v < x) l -> count_le v l = 0.
Proof.
  induction 1 as [|x l H HF IH]; [done|]. unfold count_le in *; cbn.
  destruct (Z.leb_spec x v); [lia|]. done.
Qed.

Lemma sorted_split l k v :
  StronglySorted Z.le l -> l !! k = Some v ->
  Forall (fun x => x <= v) (take (S k) l) /\ Forall (fun x => v <= x) (drop k l).
Proof.
  intros Hs. revert k. induction Hs as [|x l Hs IH Hx]; intros [|k] Hk; try discriminate; cbn in *.
  - injection Hk as ->. split; [repeat constructor; lia|].
    constructor; [lia|done].
  - destruct (IH k Hk) as [H1 H2]. split; [|done]. constructor; [|done].
    rewrite Forall_forall in Hx. apply Hx. by eapply list_elem_of_lookup_2.
Qed.

Lemma sorted_count l k v :
  StronglySorted Z.le l -> l !! k = Some v ->
  Z.of_nat k + 1 <= count_le v l /\ forall w, w < v -> count_le w l <= Z.of_nat k.
Proof.
  intros Hs Hk. destruct (sorted_split l k v Hs Hk) as [H1 H2].
  pose proof (lookup_lt_Some _ _ _ Hk) as Hlen. split.
  - rewrite <- (take_drop (S k) l), count_le_app, (count_le_all _ _ H1).
    unfold zlen. rewrite length_take. unfold count_le, zlen. lia.
  - intros w Hw. rewrite <- (take_drop k l), count_le_app.
    rewrite (count_le_none w (drop k l)) by (eapply Forall_impl; [exact H2|cbn; lia]).
    unfold count_le, zlen. pose proof (List.filter_length_le (fun x => x <=? w) (take k l)).
    rewrite length_take in *. lia.
Qed.

Lemma rank_index_bounds percent count :
  0 <= percent <= 100 -> 1 <= count -> 1 <= rank_index percent count <= count.
Proof.
  intros Hp Hc. unfold rank_index.
  destruct (div_ceil_spec (percent * count) 100) as [[H1 H2] H3]; nia.
Qed.

Lemma sorted_rank_Some percent samples :
  0 <= percent <= 100 -> samples <> [] ->
  exists v, merge_sort Z.le samples !! Z.to_nat (rank_index percent (zlen samples) - 1) = Some v
            /\ v ∈ samples.
Proof.
  intros Hp Hne.
  assert (1 <= zlen samples) by (destruct samples; [done|unfold zlen; cbn [length]; lia]).
  pose proof (rank_index_bounds percent (zlen samples) Hp ltac:(lia)).
  destruct (lookup_lt_is_Some_2 (merge_sort Z.le samples)
              (Z.to_nat (rank_index percent (zlen samples) - 1))) as [v Hv].
  { rewrite (Permutation_length (merge_sort_Permutation Z.le samples)). unfold zlen in *. lia. }
  exists v. split; [done|].
  rewrite <- (merge_sort_Permutation Z.le samples). by eapply list_elem_of_lookup_2.
Qed.

Lemma zlen_0 {A} (l : list A) : zlen l = 0 <-> l = [].
Proof. destruct l; unfold zlen; cbn [length]; split; (done || lia). Qed.

Lemma nearest_rank_Some samples percent :
  0 <= percent <= 100 -> zlen samples <= SAMPLE_CAPACITY ->
  exists v, nearest_rank samples percent = Some v /\ (samples = [] /\ v = 0 \/ v ∈ samples).
Proof.
  intros Hp Hl. unfold nearest_rank. destruct (Z.eqb_spec (zlen samples) 0) as [E|E].
  - apply zlen_0 in E. eauto.
  - destruct (Z.ltb_spec SAMPLE_CAPACITY (zlen samples)); [lia|].
    destruct (sorted_rank_Some percent samples Hp) as (v & Hv & Hin); [by rewrite <- zlen_0|eauto].
Qed.

(** [nearest_rank] is the nearest-rank percentile: on a window of one to
    120 samples it returns a sample, at least the wanted percentage of the
    samples are not above it, and for every smaller value fewer are. *)
Theorem nearest_rank_characterised samples percent :
  1 <= percent <= 100 -> samples <> [] -> zlen samples <= SAMPLE_CAPACITY ->
  exists v, nearest_rank samples percent = Some v /\ v ∈ samples /\
    percent * zlen samples <= 100 * count_le v samples /\
    (forall w, w < v -> 100 * count_le w samples < percent * zlen samples).
Proof.
  intros Hp Hne Hl.
  assert (Hpos : 1 <= zlen samples)
    by (destruct samples; [done|unfold zlen; cbn [length]; lia]).
  destruct (sorted_rank_Some percent samples ltac:(lia) Hne) as (v & Hv & Hin).
  exists v. split_and!; [|done|..].
  - unfold nearest_rank. zcase. done.
  - rewrite <- (count_le_perm v _ _ (merge_sort_Permutation Z.le samples)).
    destruct (sorted_count _ _ _ (StronglySorted_merge_sort Z.le samples) Hv) as [H _].
    destruct (div_ceil_spec (percent * zlen samples) 100) as [[H1 H2] H3]; [lia|lia|].
    unfold rank_index in *. lia.
  - intros w Hw. rewrite <- (count_le_perm w _ _ (merge_sort_Permutation Z.le samples)).
    destruct (sorted_count _ _ _ (StronglySorted_merge_sort Z.le samples) Hv) as [_ H].
    specialize (H w Hw).
    destruct (div_ceil_spec (percent * zlen samples) 100) as [[H1 H2] H3]; [lia|lia|].
    unfold rank_index in *. lia.
Qed.

Lemma nearest_rank_characterised_witness :
  exists v, nearest_rank [40; 10; 30; 20] 50 = Some v /\ v ∈ [40; 10; 30; 20] /\
    50 * zlen [40; 10; 30; 20] <= 100 * count_le v [40; 10; 30; 20] /\
    (forall w, w < v -> 100 * count_le w [40; 10; 30; 20] < 50 * zlen [40; 10; 30; 20]).
Proof. apply (nearest_rank_characterised [40; 10; 30; 20] 50); [lia|done|by vm_compute]. Defined.

(** ** Averages *)

Definition alpha_ok (a : Z * Z) : Prop := 1 <= fst a <= snd a /\ snd a <= 6000000000.

Lemma mean_alpha_ok dt : alpha_ok (mean_alpha dt).
Proof. unfold mean_alpha, alpha_ok. zcase; cbn; lia. Qed.
Lemma deviation_alpha_ok dt : alpha_ok (deviation_alpha dt).
Proof. unfold deviation_alpha, alpha_ok. zcase; cbn; lia. Qed.

(** The intermediate sum fits the [u128] it is computed in. *)
Lemma mix_rounded_fits new old num den :
  in_u64 new -> in_u64 old -> alpha_ok (num, den) ->
  new * num + old * sat_sub den num + den / 2 <= u128_max.
Proof.
  intros Hn Ho [[H1 H2] H3]; cbn in *. unfold in_u64, u64_max, u128_max, sat_sub in *.
  rewrite Z.max_r by lia.
  pose proof (Z.div_le_upper_bound den 2 6000000000 ltac:(lia) ltac:(lia)).
  assert (new * num <= (2 ^ 64 - 1) * 6000000000) by nia.
  assert (old * (den - num) <= (2 ^ 64 - 1) * 6000000000) by nia. lia.
Qed.

(** A mix is between its two sides. *)
Lemma mix_rounded_between lo hi new old num den :
  alpha_ok (num, den) -> 0 <= lo -> hi <= u64_max ->
  lo <= new <= hi -> lo <= old <= hi -> lo <= mix_rounded new old num den <= hi.
Proof.
  intros [[H1 H2] H3] Hlo Hhi Hn Ho; cbn in *. unfold mix_rounded, sat_sub.
  rewrite (Z.max_r 0 (den - num)) by lia.
  assert (Hb : lo * den <= new * num + old * (den - num) <= hi * den) by nia.
  pose proof (Z.div_mod den 2 ltac:(lia)). pose proof (Z.mod_pos_bound den 2 ltac:(lia)).
  assert (lo <= (new * num + old * (den - num) + den / 2) / den)
    by (apply Z.div_le_lower_bound; lia).
  assert ((new * num + old * (den - num) + den / 2) / den < hi + 1)
    by (apply Z.div_lt_upper_bound; lia).
  lia.
Qed.

(** The mean stays inside every interval that holds it and the samples, and
    the deviation covers the last excess over the mean. *)
Lemma ewma_update_between lo hi s t ewma dev last :
  0 <= lo -> hi <= u64_max -> lo <= s <= hi -> (last <> None -> lo <= ewma <= hi) ->
  lo <= fst (ewma_update s t ewma dev last) <= hi.
Proof.
  intros Hlo Hhi Hs He. destruct last as [p|]; cbn; [|done].
  pose proof (mean_alpha_ok (sat_sub t p)) as Hm.
  destruct (deviation_alpha _), (mean_alpha _) as [mn md]. cbn.
  apply mix_rounded_between; auto.
Qed.

Lemma ewma_update_deviation s t ewma dev last :
  in_u64 s -> in_u64 ewma -> in_u64 dev -> in_u64 (snd (ewma_update s t ewma dev last)) /\
  (last <> None -> s <= ewma + snd (ewma_update s t ewma dev last)).
Proof.
  intros Hs He Hd. destruct last as [p|]; cbn; [|split; [int_lia|done]].
  pose proof (deviation_alpha_ok (sat_sub t p)) as Hm.
  destruct (deviation_alpha _) as [dn dd], (mean_alpha _). cbn.
  assert (He2 : 0 <= sat_sub s ewma <= u64_max) by int_lia.
  pose proof (mix_rounded_between 0 u64_max (sat_sub s ewma) dev dn dd Hm ltac:(lia)
    ltac:(lia) He2 Hd). split; int_lia.
Qed.

(** ** Cached and recomputed percentiles *)

Record cache_ok (percent : Z) (h : RankedHistory) : Prop := {
  cache_bounded : zlen (rh_samples h) <= SAMPLE_CAPACITY;
  cache_coherent : rh_rank h = None \/ rh_rank h = nearest_rank (rh_samples h) percent
}.
Definition exact_ok (e : ExactParallelRiskJournal) : Prop :=
  cache_ok 95 (br_samples (ep_render_ready e)) /\ cache_ok 95 (br_samples (ep_queue_ready e)).
Record journal_ok (j : AdaptiveRenderJournal) : Prop := {
  jo_render : cache_ok 90 (rj_render_samples j);
  jo_wake : cache_ok 95 (rj_wake_lateness_samples j);
  jo_atomic : cache_ok 95 (rj_atomic_submit_samples j);
  jo_residency : cache_ok 95 (rj_worker_queue_residency_samples j);
  jo_submit_wake : cache_ok 95 (rj_worker_submit_wake_lateness_samples j);
  jo_pre : cache_ok 95 (rj_worker_pre_submit_samples j);
  jo_dispatch : cache_ok 95 (rj_worker_dispatch_samples j);
  jo_slip : cache_ok 95 (rj_target_slip_samples j);
  jo_exact : exact_ok (rj_exact_parallel j)
}.

Lemma push_bounded_len l v : zlen l <= SAMPLE_CAPACITY -> zlen (push_bounded l v) <= SAMPLE_CAPACITY.
Proof.
  unfold push_bounded, SAMPLE_CAPACITY. intros H. rewrite zlen_app. unfold zlen in *. cbn [length].
  destruct (Z.eqb_spec (Z.of_nat (length l)) 120); destruct l; cbn [tail length] in *; lia.
Qed.

Lemma rank_coherent p h : cache_ok p h -> rank p h = nearest_rank (rh_samples h) p.
Proof.
  intros [_ [H|H]]; unfold rank; rewrite H; [done|]. by destruct (nearest_rank _ _).
Qed.
Lemma rank_rank_drop p h : rank p (rank_drop h) = nearest_rank (rh_samples h) p.
Proof. done. Qed.
Lemma rank_total p h : 0 <= p <= 100 -> cache_ok p h -> exists v, rank p h = Some v.
Proof.
  intros Hp H. rewrite (rank_coherent p h H).
  destruct (nearest_rank_Some (rh_samples h) p Hp (cache_bounded _ _ H)) as (v & -> & _). eauto.
Qed.

Lemma cache_ok_new p : cache_ok p ranked_new.
Proof. split; [done|by left]. Qed.
Lemma cache_ok_push p v h : cache_ok p h -> cache_ok p (ranked_push v h).
Proof. intros [H _]. split; [by apply push_bounded_len|by left]. Qed.
Lemma cache_ok_fill p h : cache_ok p h -> cache_ok p (rank_fill p h).
Proof. intros H. split; [apply H|right; exact (rank_coherent p h H)]. Qed.
Lemma cache_ok_drop p h : cache_ok p h -> cache_ok p (rank_drop h).
Proof. intros H. split; [apply H|by left]. Qed.
#[export] Hint Resolve cache_ok_new cache_ok_push cache_ok_fill cache_ok_drop : typhon.

Lemma branch_record_samples s t b :
  br_samples (branch_record s t b) = ranked_push s (br_samples b).
Proof. unfold branch_record. by destruct (ewma_update _ _ _ _ _). Qed.
Lemma branch_record_drop s t b :
  branch_drop (branch_record s t (branch_drop b)) = branch_drop (branch_record s t b).
Proof. unfold branch_record, branch_drop; cbn. by destruct (ewma_update _ _ _ _ _). Qed.

(** The decompositions do not touch the branch histories, and do not read
    them either. *)
Lemma record_decomposition_branches o r e :
  record_decomposition o r e
  = set_branches (ep_render_ready e) (ep_queue_ready e) (record_decomposition o r e)
  /\ forall b q, record_decomposition o r (set_branches b q e)
                 = set_branches b q (record_decomposition o r e).
Proof.
  unfold record_decomposition. destruct e, r as [r|], (fo_worker_queued_at o) as [w|],
    (fo_fence_signaled_at o) as [[f []]|]; cbn; split; try done; intros;
    repeat case_match; simplify_eq; done.
Qed.
Lemma record_deferred_branches o r v e :
  record_deferred_o1_decomposition o r v e
  = set_branches (ep_render_ready e) (ep_queue_ready e) (record_deferred_o1_decomposition o r v e)
  /\ forall b q, record_deferred_o1_decomposition o r v (set_branches b q e)
                 = set_branches b q (record_deferred_o1_decomposition o r v e).
Proof.
  unfold record_deferred_o1_decomposition. destruct e, v as [v|], r as [r|],
    (fo_worker_queued_at o) as [w|]; try done.
  destruct (ev_bound_committed_at v); [|done].
  destruct (_ || _); [done|]. by destruct (negb _).
Qed.

Lemma branches_of_decomposition o r e :
  ep_render_ready (record_decomposition o r e) = ep_render_ready e
  /\ ep_queue_ready (record_decomposition o r e) = ep_queue_ready e.
Proof. by rewrite (proj1 (record_decomposition_branches o r e)). Qed.
Lemma branches_of_deferred o r v e :
  ep_render_ready (record_deferred_o1_decomposition o r v e) = ep_render_ready e
  /\ ep_queue_ready (record_deferred_o1_decomposition o r v e) = ep_queue_ready e.
Proof. by rewrite (proj1 (record_deferred_branches o r v e)). Qed.

Lemma exact_ok_iff e e' :
  ep_render_ready e' = ep_render_ready e /\ ep_queue_ready e' = ep_queue_ready e ->
  exact_ok e -> exact_ok e'.
Proof. unfold exact_ok. by intros [-> ->]. Qed.

Lemma exact_ok_record r q t e : exact_ok e -> exact_ok (exact_record r q t e).
Proof. intros [H1 H2]. split; cbn; rewrite branch_record_samples; auto with typhon. Qed.

(** What one observation leaves of the exact-parallel journal. *)
Definition observe_exact (o : FrameTimingObservation) (r : option MonotonicTimestampNs)
  (v : option DeferredO1BindingTimingEvidence) (e : ExactParallelRiskJournal)
  : ExactParallelRiskJournal :=
  record_deferred_o1_decomposition o r v
    (match exact_parallel_branch_samples_ns o with
     | Some (a, b) =>
         record_decomposition o r
           (exact_record a (sat_sub b (predecessor_lane_wait_ns o r v))
              (fo_composite_started_at o) e)
     | None => e
     end).

Lemma observation_unfold o r v j :
  record_frame_service_observation_with_deferred_timing o r v j
  = (set_exact (observe_exact o r v (rj_exact_parallel j)) (rj_missed_deadlines j)
       (match exact_parallel_branch_samples_ns o with
        | Some _ => sat_sub (rj_miss_recovery_remaining j) 1
        | None => rj_miss_recovery_remaining j
        end) j, exact_parallel_branch_samples_ns o).
Proof.
  unfold record_frame_service_observation_with_deferred_timing, observe_exact.
  by destruct (exact_parallel_branch_samples_ns o) as [[]|].
Qed.

Lemma observe_exact_ok o r v e : exact_ok e -> exact_ok (observe_exact o r v e).
Proof.
  intros H. unfold observe_exact. eapply exact_ok_iff; [apply branches_of_deferred|].
  destruct (exact_parallel_branch_samples_ns o) as [[a b]|]; [|done].
  eapply exact_ok_iff; [apply branches_of_decomposition|]. by apply exact_ok_record.
Qed.

Lemma exact_drop_set b q e :
  exact_drop (set_branches b q e) = set_branches (branch_drop b) (branch_drop q) e.
Proof. by destruct e. Qed.
Lemma exact_record_drop r q t e :
  exact_record r q t (exact_drop e)
  = set_branches (branch_record r t (branch_drop (ep_render_ready e)))
      (branch_record q t (branch_drop (ep_queue_ready e))) e.
Proof. done. Qed.

Lemma observe_exact_drop o r v e :
  exact_drop (observe_exact o r v (exact_drop e)) = exact_drop (observe_exact o r v e).
Proof.
  unfold observe_exact. destruct (exact_parallel_branch_samples_ns o) as [[a b]|].
  - rewrite exact_record_drop. unfold exact_record.
    rewrite !(proj2 (record_decomposition_branches _ _ _)),
      !(proj2 (record_deferred_branches _ _ _ _)), !exact_drop_set.
    by rewrite !branch_record_drop.
  - unfold exact_drop at 2. rewrite (proj2 (record_deferred_branches _ _ _ _)), exact_drop_set.
    rewrite (proj1 (record_deferred_branches o r v e)) at 2. by rewrite exact_drop_set.
Qed.

Lemma branch_selection_drop b :
  cache_ok 95 (br_samples b) -> branch_selection (branch_drop b) = branch_selection b.
Proof.
  intros H. unfold branch_selection. cbn [br_samples branch_drop].
  by rewrite rank_rank_drop, (rank_coherent _ _ H).
Qed.
Lemma branch_risk_drop b :
  cache_ok 95 (br_samples b) -> branch_risk_ns (branch_drop b) = branch_risk_ns b.
Proof. intros H. unfold branch_risk_ns. by rewrite branch_selection_drop. Qed.
Lemma sustained_risk_drop b :
  cache_ok 95 (br_samples b) -> sustained_risk_ns (branch_drop b) = sustained_risk_ns b.
Proof. intros H. unfold sustained_risk_ns. cbn [br_samples branch_drop]. by rewrite rank_rank_drop, (rank_coherent _ _ H). Qed.
Lemma branch_diagnostics_drop b r :
  cache_ok 95 (br_samples b) -> branch_diagnostics (branch_drop b) r = branch_diagnostics b r.
Proof. intros H. unfold branch_diagnostics. by rewrite branch_selection_drop. Qed.

Lemma branch_selection_Some b :
  cache_ok 95 (br_samples b) -> exists s, branch_selection b = Some s.
Proof.
  intros H. unfold branch_selection. destruct (rank_total 95 _ ltac:(lia) H) as [v ->]. cbn. eauto.
Qed.
Lemma branch_risk_Some b :
  cache_ok 95 (br_samples b) -> exists v, branch_risk_ns b = Some v.
Proof.
  intros H. unfold branch_risk_ns. destruct (branch_selection_Some b H) as [s ->]. cbn. eauto.
Qed.

Lemma wake_guard_Some refresh p95 j :
  exists g, wake_guard_of refresh p95 j = Some g /\ 500000 <= g <= 2000000.
Proof.
  unfold wake_guard_of, rust_clamp.
  destruct (Z.leb_spec 500000 (Z.max (Z.min 2000000 (refresh / 4)) 500000)); [|lia]. cbn.
  eexists. split; [done|]. unfold clampZ. destruct (_ || _); lia.
Qed.

(** Every percentile a prediction reads is there, and is the same for the
    journal without its caches. *)
Lemma base_prediction_drop refresh cold guard j :
  journal_ok j ->
  exists p, base_prediction refresh cold guard j = Some (journal_fill j, p) /\
    base_prediction refresh cold guard (journal_drop j) = Some (journal_fill (journal_drop j), p).
Proof.
  intros [H1 H2 H3 H4 H5 H6 H7 H8 [H9 H10]]. unfold base_prediction, p90_recent_render_ns.
  cbn [journal_drop map_windows set_exact exact_drop set_branches rj_render_samples
    rj_wake_lateness_samples rj_atomic_submit_samples rj_worker_queue_residency_samples
    rj_worker_submit_wake_lateness_samples rj_worker_pre_submit_samples rj_worker_dispatch_samples
    rj_target_slip_samples rj_exact_parallel ep_render_ready ep_queue_ready].
  rewrite !rank_rank_drop, !branch_risk_drop, !sustained_risk_drop by done.
  repeat match goal with
  | H : cache_ok ?p ?h |- context [rank ?p ?h] =>
      let E := fresh in destruct (rank_total p h ltac:(lia) H) as [? E]; rewrite E;
      rewrite (rank_coherent p h H) in E; rewrite E; clear E
  end. cbn [mbind option_bind].
  change (wake_guard_of ?a ?b (journal_drop j)) with (wake_guard_of a b j).
  match goal with |- context [wake_guard_of ?a ?b j] =>
    destruct (wake_guard_Some a b j) as (g & -> & _) end.
  destruct (branch_risk_Some _ H9) as [r9 ->]. destruct (branch_risk_Some _ H10) as [r10 ->].
  cbn [mbind option_bind].
  change (prediction_estimator_mode (journal_drop j)) with (prediction_estimator_mode j).
  destruct (rank_total 95 _ ltac:(lia) H9) as [s9 E9].
  destruct (rank_total 95 _ ltac:(lia) H10) as [s10 E10].
  unfold sustained_risk_ns. rewrite E9, E10.
  destruct (prediction_estimator_mode j); cbn [mbind option_bind]; eauto.
Qed.

Lemma sample_window_diagnostics_Some l r :
  exists d, sample_window_diagnostics l r = Some d.
Proof.
  unfold sample_window_diagnostics. destruct (Z.eqb_spec (zlen l) 0) as [E|E]; [eauto|].
  set (count := Z.min (zlen l) SAMPLE_CAPACITY). set (window := take (Z.to_nat count) l).
  assert (Hc : 1 <= count) by (subst count; unfold SAMPLE_CAPACITY, zlen in *; lia).
  assert (Hl : zlen window = count).
  { subst window. unfold zlen. rewrite length_take. subst count. unfold zlen. lia. }
  assert (Hne : window <> []) by (intros E'; rewrite E' in Hl; change (zlen (@nil Z)) with 0 in Hl; lia).
  assert (Hp : forall p, 0 <= p <= 100 ->
    exists v, merge_sort Z.le window !! Z.to_nat (rank_index p count - 1) = Some v).
  { intros p Hp. destruct (sorted_rank_Some p window Hp Hne) as (v & Hv & _).
    rewrite Hl in Hv. eauto. }
  destruct (Hp 50 ltac:(lia)) as [? ->], (Hp 90 ltac:(lia)) as [? ->], (Hp 95 ltac:(lia)) as [? ->],
    (Hp 99 ltac:(lia)) as [? ->]. cbn [mbind option_bind].
  destruct (lookup_lt_is_Some_2 (merge_sort Z.le window) (Z.to_nat (count - 1))) as [m ->].
  { rewrite (Permutation_length (merge_sort_Permutation Z.le window)). unfold zlen in Hl. lia. }
  cbn. eauto.
Qed.

Lemma branch_diagnostics_Some b r :
  cache_ok 95 (br_samples b) -> exists d, branch_diagnostics b r = Some d.
Proof.
  intros H. unfold branch_diagnostics.
  destruct (sample_window_diagnostics_Some (rh_samples (br_samples b)) r) as [w ->]. cbn.
  destruct (branch_selection_Some b H) as [s ->]. cbn. eauto.
Qed.

Lemma exact_diagnostics_drop e r :
  exact_ok e ->
  exists d, exact_diagnostics e r = Some d /\ exact_diagnostics (exact_drop e) r = Some d.
Proof.
  intros [H1 H2]. unfold exact_diagnostics, exact_drop.
  cbn [set_branches ep_render_ready ep_queue_ready]. rewrite !branch_diagnostics_drop by done.
  cbn [branch_drop rank_drop br_samples rh_samples]. destruct (count_orders _ _) as [[a b] c].
  destruct (branch_diagnostics_Some _ r H1) as [? ->], (branch_diagnostics_Some _ r H2) as [? ->].
  cbn [mbind option_bind set_branches ep_composite_to_rendered_observed ep_post_render_handoff
    ep_fence_after_rendered_observed ep_rendered_observed_after_fence
    ep_deferred_ready_to_authority_observed ep_deferred_authority_to_bind_committed
    ep_deferred_bind_committed_to_worker_queue].
  repeat match goal with |- context [sample_window_diagnostics ?l r] =>
    destruct (sample_window_diagnostics_Some l r) as [? ->]; cbn [mbind option_bind] end.
  by eexists.
Qed.

Lemma journal_ok_default : journal_ok journal_default.
Proof. split; cbn; auto with typhon. split; cbn; auto with typhon. Qed.

Lemma journal_ok_exact e m r j : journal_ok j -> exact_ok e -> journal_ok (set_exact e m r j).
Proof. intros [] He. by split. Qed.

Lemma exact_ok_fill e : exact_ok e -> exact_ok (exact_fill e).
Proof. intros [H1 H2]. split; cbn; auto with typhon. Qed.

Lemma journal_ok_fill j : journal_ok j -> journal_ok (journal_fill j).
Proof.
  intros H. apply journal_ok_exact; [|apply exact_ok_fill, H].
  destruct H; split; cbn; auto with typhon.
Qed.

Lemma journal_drop_set_exact e m r j :
  journal_drop (set_exact e m r j) = set_exact (exact_drop e) m r (journal_drop j).
Proof. done. Qed.

Lemma journal_step_ok j op :
  journal_ok j ->
  exists j1 out, journal_step j op = Some (j1, out) /\ journal_ok j1 /\
    exists j2, journal_step (journal_drop j) op = Some (j2, out) /\
      journal_drop j2 = journal_drop j1.
Proof.
  intros H.
  assert (Hp : forall refresh cold guard, exists p,
    base_prediction refresh cold guard j = Some (journal_fill j, p) /\
    base_prediction refresh cold guard (journal_drop j)
    = Some (journal_fill (journal_drop j), p)) by (intros; by apply base_prediction_drop).
  destruct op; cbn [journal_step].
  1-8: eexists _, _; split; [done|]; split;
    [|eexists; split; [done|unfold record_render_sample, record_fixed_submission_budget;
       cbn; first [by destruct (ewma_update _ _ _ _ _) | done | by destruct (_ <? _)]]].
  1: unfold record_render_sample; destruct (ewma_update _ _ _ _ _).
  7: unfold record_fixed_submission_budget; destruct (_ <? _).
  1-9: destruct H; split; cbn; auto with typhon.
  - rewrite !observation_unfold. eexists _, _. split; [done|]. split.
    + apply journal_ok_exact; [done|]. apply observe_exact_ok, H.
    + eexists. split; [done|]. rewrite !journal_drop_set_exact.
      change (rj_exact_parallel (journal_drop j)) with (exact_drop (rj_exact_parallel j)).
      by rewrite observe_exact_drop.
  - eexists _, _. split; [done|]. split; [|eexists; split; done].
    apply journal_ok_exact; [done|apply H].
  - destruct (Hp refresh_interval false guard) as (p & E1 & E2).
    unfold prediction_with_kms_guard. rewrite E1, E2.
    eexists _, _. split; [done|]. split; [by apply journal_ok_fill|]. by eexists.
  - unfold prediction_at_with_kms_guard.
    change (is_cold now refresh_interval (journal_drop j)) with (is_cold now refresh_interval j).
    destruct (Hp refresh_interval (is_cold now refresh_interval j) guard) as (p & E1 & E2).
    rewrite E1, E2.
    eexists _, _. split; [done|]. split; [by apply journal_ok_fill|]. by eexists.
  - unfold exact_parallel_diagnostics.
    destruct (exact_diagnostics_drop (rj_exact_parallel j) (Z.max refresh_interval_ns 1))
      as (d & E1 & E2); [apply H|].
    rewrite E1. change (rj_exact_parallel (journal_drop j)) with (exact_drop (rj_exact_parallel j)).
    rewrite E2. eexists _, _. split; [done|]. split; [|by eexists].
    apply journal_ok_exact; [done|]. apply exact_ok_fill, H.
  - eexists _, _. split; [done|]. split; [apply journal_ok_default|]. by eexists.
Qed.

Lemma journal_run_ok j j' ops :
  journal_ok j -> journal_drop j' = journal_drop j ->
  exists j1 outs, journal_run id j ops = Some (j1, outs) /\ journal_ok j1 /\
    exists j2, journal_run journal_drop j' ops = Some (j2, outs) /\
      journal_drop j2 = journal_drop j1.
Proof.
  revert j j'. induction ops as [|op ops IH]; intros j j' Hj E; cbn [journal_run].
  - eexists _, _. eauto.
  - rewrite E. destruct (journal_step_ok j op Hj) as (j1 & out & E1 & Hj1 & j2 & E2 & Ed).
    change (id j) with j. rewrite E1, E2. cbn [mbind option_bind].
    destruct (IH j1 j2 Hj1 Ed) as (k1 & outs & R1 & Hk1 & k2 & R2 & Rd).
    rewrite R1, R2. cbn. eauto 10.
Qed.

(** Caching percentiles is invisible: any history of calls on a fresh
    journal runs without a panic and returns exactly what a journal that
    forgets its cached percentiles before every call returns. *)
Theorem cached_ranks_are_recomputed_ranks ops :
  exists j outs, journal_run id journal_default ops = Some (j, outs) /\
    exists j', journal_run journal_drop journal_default ops = Some (j', outs) /\
      journal_drop j' = journal_drop j.
Proof.
  destruct (journal_run_ok journal_default journal_default ops journal_ok_default eq_refl)
    as (j & outs & H1 & _ & H2). eauto.
Qed.

(** ** Values *)

Definition ranked_u64 (h : RankedHistory) : Prop := Forall in_u64 (rh_samples h).
Record branch_u64 (b : BranchRiskHistory) : Prop := {
  bu_samples : ranked_u64 (br_samples b);
  bu_ewma : in_u64 (br_ewma_ns b);
  bu_deviation : in_u64 (br_upper_positive_deviation_ns b)
}.
Record journal_u64 (j : AdaptiveRenderJournal) : Prop := {
  ju_render : ranked_u64 (rj_render_samples j);
  ju_wake : ranked_u64 (rj_wake_lateness_samples j);
  ju_budget : Forall in_u64 (rj_fixed_submission_budget_samples j);
  ju_ewma : in_u64 (rj_ewma_render_ns j);
  ju_deviation : in_u64 (rj_upper_render_deviation_ns j);
  ju_render_ready : branch_u64 (ep_render_ready (rj_exact_parallel j));
  ju_queue_ready : branch_u64 (ep_queue_ready (rj_exact_parallel j))
}.

(** The arguments of the calls that reach a prediction are [u64] values. *)
Definition op_u64 (op : JournalOp) : Prop :=
  match op with
  | JRenderSample s _ | JWakeLateness s | JSubmissionBudget s => in_u64 s
  | JObservation o _ _ =>
      in_u64 (fo_composite_started_at o)
      /\ (forall f q, fo_fence_signaled_at o = Some (f, q) -> in_u64 f)
      /\ (forall w, fo_worker_queued_at o = Some w -> in_u64 w)
  | _ => True
  end.

Lemma push_bounded_Forall (P : Z -> Prop) l v :
  Forall P l -> P v -> Forall P (push_bounded l v).
Proof.
  intros Hl Hv. unfold push_bounded. apply list.Forall_app. split; [|by repeat constructor].
  destruct (_ =? _); [|done]. destruct Hl; [constructor|done].
Qed.

Lemma ewma_update_u64 s t ewma dev last :
  in_u64 s -> in_u64 ewma -> in_u64 dev ->
  in_u64 (fst (ewma_update s t ewma dev last)) /\ in_u64 (snd (ewma_update s t ewma dev last)).
Proof.
  intros Hs He Hd. split; [|by apply ewma_update_deviation].
  apply ewma_update_between; unfold in_u64 in *; try lia.
Qed.

Lemma branch_record_u64 s t b : in_u64 s -> branch_u64 b -> branch_u64 (branch_record s t b).
Proof.
  intros Hs [H1 H2 H3]. unfold branch_record.
  pose proof (ewma_update_u64 s t _ _ (br_last_sample_at b) Hs H2 H3) as [H4 H5].
  destruct (ewma_update _ _ _ _ _). split; [|done|done]. by apply push_bounded_Forall.
Qed.

Lemma branch_samples_u64 o a b :
  op_u64 (JObservation o None None) -> exact_parallel_branch_samples_ns o = Some (a, b) ->
  in_u64 a /\ in_u64 b.
Proof.
  intros (H1 & H2 & H3). unfold exact_parallel_branch_samples_ns.
  destruct (fo_fence_signaled_at o) as [[f []]|]; try discriminate.
  destruct (fo_worker_queued_at o) as [w|]; cbn; [|discriminate].
  destruct (Z.ltb_spec f (fo_composite_started_at o)),
    (Z.ltb_spec w (fo_composite_started_at o)); try discriminate; cbn. intros [= <- <-].
  specialize (H2 f _ eq_refl). specialize (H3 w eq_refl). split; int_lia.
Qed.

Lemma observe_exact_u64 o r v e :
  op_u64 (JObservation o r v) -> branch_u64 (ep_render_ready e) -> branch_u64 (ep_queue_ready e) ->
  branch_u64 (ep_render_ready (observe_exact o r v e))
  /\ branch_u64 (ep_queue_ready (observe_exact o r v e)).
Proof.
  intros Ho Hr Hq. unfold observe_exact.
  destruct (branches_of_deferred o r v
    (match exact_parallel_branch_samples_ns o with
     | Some (a, b) => record_decomposition o r
         (exact_record a (sat_sub b (predecessor_lane_wait_ns o r v))
            (fo_composite_started_at o) e)
     | None => e end)) as [-> ->].
  destruct (exact_parallel_branch_samples_ns o) as [[a b]|] eqn:E; [|done].
  destruct (branches_of_decomposition o r
    (exact_record a (sat_sub b (predecessor_lane_wait_ns o r v)) (fo_composite_started_at o) e))
    as [-> ->].
  destruct (branch_samples_u64 o a b Ho E) as [Ha Hb]. cbn.
  split; apply branch_record_u64; try done.
  assert (0 <= predecessor_lane_wait_ns o r v); [|int_lia].
  unfold predecessor_lane_wait_ns. repeat case_match; try lia.
Qed.

Lemma journal_u64_exact e m r j :
  journal_u64 j -> branch_u64 (ep_render_ready e) -> branch_u64 (ep_queue_ready e) ->
  journal_u64 (set_exact e m r j).
Proof. intros [] H1 H2. by split. Qed.

Lemma journal_u64_default : journal_u64 journal_default.
Proof. split; cbn; try (by constructor); try int_lia; split; (by constructor) || int_lia. Qed.

Lemma branch_u64_fill b : branch_u64 b -> branch_u64 (branch_fill b).
Proof. intros []. by split. Qed.

Lemma journal_u64_fill j : journal_u64 j -> journal_u64 (journal_fill j).
Proof. intros []. split; try done; by apply branch_u64_fill. Qed.

Lemma journal_step_u64 j op j' out :
  op_u64 op -> journal_u64 j -> journal_step j op = Some (j', out) -> journal_u64 j'.
Proof.
  intros Ho Hj.
  assert (Hp : forall refresh cold guard k p,
    base_prediction refresh cold guard j = Some (k, p) -> journal_u64 k).
  { intros refresh cold guard k p E. unfold base_prediction in E.
    repeat (apply bind_Some in E as (? & _ & E)). injection E as <- _. by apply journal_u64_fill. }
  destruct op; cbn [journal_step]; intros E;
    try (injection E as <- <-; destruct Hj; split; by auto).
  - injection E as <- <-. unfold record_render_sample.
    pose proof (ewma_update_u64 sample_ns at_ns _ _ (rj_last_sample_at j) Ho
      (ju_ewma j Hj) (ju_deviation j Hj)) as [H1 H2].
    destruct (ewma_update _ _ _ _ _), Hj. split; try done. by apply push_bounded_Forall.
  - injection E as <- <-. destruct Hj; split; try done. by apply push_bounded_Forall.
  - injection E as <- <-. unfold record_fixed_submission_budget. destruct (_ <? _); [|done].
    destruct Hj; split; try done. by apply push_bounded_Forall.
  - rewrite observation_unfold in E. injection E as <- <-.
    destruct (observe_exact_u64 o rendered evidence (rj_exact_parallel j) Ho
      (ju_render_ready j Hj) (ju_queue_ready j Hj)). by apply journal_u64_exact.
  - apply bind_Some in E as ([k p] & E & [= <- _]). eauto.
  - apply bind_Some in E as ([k p] & E & [= <- _]). eauto.
  - apply bind_Some in E as ([k p] & E & [= <- _]). unfold exact_parallel_diagnostics in E.
    apply bind_Some in E as (d & _ & [= <- _]). apply journal_u64_exact; [done|..];
      apply branch_u64_fill, Hj.
  - injection E as <- <-. apply journal_u64_default.
Qed.

Lemma journal_run_u64 j ops j' outs :
  Forall op_u64 ops -> journal_u64 j -> journal_run id j ops = Some (j', outs) -> journal_u64 j'.
Proof.
  intros Hops. revert j outs. induction Hops as [|op ops Ho Hops IH]; intros j outs Hj E; cbn in E.
  - by injection E as <- <-.
  - apply bind_Some in E as ([k out] & E1 & E). apply bind_Some in E as ([k2 out2] & E2 & [= <- <-]).
    eapply IH; [|exact E2]. by eapply journal_step_u64.
Qed.

(** ** Prediction bounds *)

Lemma window_max_ge l x : x ∈ l -> x <= window_max l.
Proof.
  induction l as [|y l IH]; [by intros ?%elem_of_nil|]. intros [->|H]%elem_of_cons; unfold window_max in *; cbn; [lia|].
  specialize (IH H). lia.
Qed.
Lemma window_max_le l hi : 0 <= hi -> Forall (fun x => x <= hi) l -> window_max l <= hi.
Proof. intros H0. unfold window_max. induction 1; cbn; lia. Qed.

Lemma rank_u64 p h v :
  0 <= p <= 100 -> cache_ok p h -> ranked_u64 h -> rank p h = Some v -> in_u64 v.
Proof.
  intros Hp H Hu. rewrite (rank_coherent p h H).
  destruct (nearest_rank_Some (rh_samples h) p Hp (cache_bounded _ _ H)) as (w & -> & Hw).
  intros [= ->]. destruct Hw as [[_ ->]|Hw]; [int_lia|].
  unfold ranked_u64 in Hu. rewrite Forall_forall in Hu. auto.
Qed.

Lemma branch_selection_bounds b sel :
  cache_ok 95 (br_samples b) -> branch_u64 b -> branch_selection b = Some sel ->
  exists p95, rank 95 (br_samples b) = Some p95 /\
    0 <= p95 <= sel_selected_risk_ns sel /\
    sel_selected_risk_ns sel <= window_max (rh_samples (br_samples b)) /\
    in_u64 (sel_selected_risk_ns sel).
Proof.
  intros Hc [Hu He Hd] E. unfold branch_selection in E.
  apply bind_Some in E as (p95 & Ep & [= <-]). exists p95. split; [done|]. cbn.
  pose proof (rank_u64 95 _ _ ltac:(lia) Hc Hu Ep) as Hp.
  assert (p95 <= window_max (rh_samples (br_samples b))).
  { rewrite (rank_coherent _ _ Hc) in Ep.
    destruct (nearest_rank_Some (rh_samples (br_samples b)) 95 ltac:(lia) (cache_bounded _ _ Hc))
      as (w & E & [[El ->]|Hw]); rewrite Ep in E; injection E as ->; [rewrite El; cbn; lia|].
    by apply window_max_ge. }
  assert (window_max (rh_samples (br_samples b)) <= u64_max).
  { apply window_max_le; [int_lia|]. eapply Forall_impl; [exact Hu|]. unfold in_u64. cbn. lia. }
  unfold in_u64 in *. lia.
Qed.

Lemma render_risk_ge_p90 refresh p90 j :
  1 <= refresh -> 0 <= p90 -> rank 90 (rj_render_samples j) = Some p90 ->
  cache_ok 90 (rj_render_samples j) -> p90 <= render_risk_of refresh p90 j.
Proof.
  intros Hr Hp E Hc. unfold render_risk_of.
  assert (0 <= refresh / 2) by (apply Z.div_pos; lia).
  destruct (Z.eqb_spec (zlen (rh_samples (rj_render_samples j))) 0) as [E0|E0].
  - rewrite (rank_coherent _ _ Hc) in E. unfold nearest_rank in E.
    rewrite E0 in *. cbn in E. injection E as <-. cbn. lia.
  - destruct (_ && _); lia.
Qed.

Lemma kms_dispatch_budget_u64 j : journal_u64 j -> in_u64 (kms_dispatch_budget_of j).
Proof.
  intros Hj. unfold kms_dispatch_budget_of.
  destruct (last _) as [x|] eqn:E; cbn; [|int_lia].
  pose proof (ju_budget j Hj) as Hb. rewrite Forall_forall in Hb. apply Hb.
  by apply last_Some_elem_of.
Qed.

(** The cut at two refreshes, on any pair of costs above the lead. *)
Lemma limited_costs (cold : bool) r sustained total lead :
  1 <= r <= u64_max -> 0 <= sustained <= total -> Z.min u64_max lead <= total ->
  let limit := sat_mul u64_max r MAX_TOTAL_COST_REFRESH_INTERVALS in
  let s := Z.min sustained limit in
  let t := Z.min (if cold then Z.max total (sat_sub r 100000) else total) limit in
  0 <= s <= t /\ t <= Z.min (2 * r) u64_max /\ (cold = true -> r - 100000 <= t) /\
  (t < Z.min (2 * r) u64_max -> lead <= t).
Proof.
  unfold sat_mul, sat_sub, MAX_TOTAL_COST_REFRESH_INTERVALS. intros Hr Hs Hl. cbn zeta.
  generalize dependent u64_max. intros U Hr Hl. destruct cold; lia.
Qed.

Lemma independent_cost_above risk p90 g b a :
  0 <= p90 <= risk -> 0 <= g -> 0 <= b -> 0 <= a ->
  0 <= sat_add u64_max (sat_add u64_max (sat_add u64_max p90 g) b) a
    <= sat_add u64_max (sat_add u64_max risk g) (sat_add u64_max b a)
  /\ Z.min u64_max (g + b + a) <= sat_add u64_max (sat_add u64_max risk g) (sat_add u64_max b a).
Proof.
  assert (0 <= u64_max) by int_lia. unfold sat_add. generalize dependent u64_max. intros. lia.
Qed.

Lemma warm_cost_above r q r' q' g b a :
  0 <= r <= r' -> 0 <= q <= q' -> 0 <= g -> 0 <= b -> 0 <= a ->
  0 <= warm_parallel_total_cost_ns g a r q b <= warm_parallel_total_cost_ns g a r' q' b
  /\ Z.min u64_max (g + b + a) <= warm_parallel_total_cost_ns g a r' q' b.
Proof.
  assert (0 <= u64_max) by int_lia. unfold warm_parallel_total_cost_ns, parallel_service_ns, sat_add.
  generalize dependent u64_max. intros. lia.
Qed.

Lemma base_prediction_bounds refresh cold guard j :
  journal_ok j -> journal_u64 j -> 0 <= refresh -> in_u64 guard ->
  exists p, base_prediction refresh cold guard j = Some (journal_fill j, p) /\
    let r := Z.max (duration_ns refresh) 1 in
    let lead := rp_main_event_loop_wake_guard_ns p + rp_kms_dispatch_budget_ns p + guard in
    0 <= rp_sustained_total_cost_ns p <= rp_total_cost_ns p /\
    rp_total_cost_ns p <= Z.min (2 * r) u64_max /\
    500000 <= rp_main_event_loop_wake_guard_ns p <= 2000000 /\
    (cold = true -> r - 100000 <= rp_total_cost_ns p) /\
    (rp_total_cost_ns p < Z.min (2 * r) u64_max -> lead <= rp_total_cost_ns p).
Proof.
  intros Hj Hu Hr Hg.
  destruct (base_prediction_drop refresh cold guard j Hj) as (p & E & _). exists p.
  split; [done|]. unfold base_prediction, p90_recent_render_ns in E.
  apply bind_Some in E as (p90 & Ep90 & E). apply bind_Some in E as (wake & Ewake & E).
  do 5 apply bind_Some in E as (? & _ & E).
  apply bind_Some in E as (g & Eg & E). apply bind_Some in E as (rr & Err & E).
  apply bind_Some in E as (qr & Eqr & E). apply bind_Some in E as (sus & Esus & E).
  apply bind_Some in E as (slip & _ & E). injection E as <-.
  pose proof (rank_u64 90 _ _ ltac:(lia) (jo_render j Hj) (ju_render j Hu) Ep90) as Hp90.
  assert (Hr1 : 1 <= Z.max (duration_ns refresh) 1 <= u64_max) by (unfold duration_ns; int_lia).
  pose proof (render_risk_ge_p90 _ _ j (proj1 Hr1) (proj1 Hp90) Ep90 (jo_render j Hj)) as Hrisk.
  destruct (wake_guard_Some (Z.max (duration_ns refresh) 1) wake j) as (g' & Eg' & Hgb).
  rewrite Eg in Eg'. injection Eg' as <-.
  unfold branch_risk_ns in *.
  destruct (branch_selection (ep_render_ready _)) as [sr|] eqn:Esr; [|discriminate].
  destruct (branch_selection (ep_queue_ready _)) as [sq|] eqn:Esq; [|discriminate].
  destruct (jo_exact j Hj) as [Hc1 Hc2].
  destruct (branch_selection_bounds _ _ Hc1 (ju_render_ready j Hu) Esr) as (pr & Epr & Hpr & _ & _).
  destruct (branch_selection_bounds _ _ Hc2 (ju_queue_ready j Hu) Esq) as (pq & Epq & Hpq & _ & _).
  injection Err as <-. injection Eqr as <-.
  pose proof (kms_dispatch_budget_u64 j Hu) as Hb. cbn [rp_sustained_total_cost_ns rp_total_cost_ns
    rp_main_event_loop_wake_guard_ns rp_kms_dispatch_budget_ns].
  set (r := Z.max (duration_ns refresh) 1) in *. set (b := kms_dispatch_budget_of j) in *.
  set (risk := render_risk_of r p90 j) in *.
  unfold sustained_risk_ns in Esus. rewrite Epr, Epq in Esus.
  pose proof (independent_cost_above risk p90 g b guard ltac:(unfold in_u64 in *; lia) ltac:(lia)
    (proj1 Hb) (proj1 Hg)) as [HI1 HI2].
  pose proof (warm_cost_above pr pq (sel_selected_risk_ns sr) (sel_selected_risk_ns sq) g b guard
    Hpr Hpq ltac:(lia) (proj1 Hb) (proj1 Hg)) as [HW1 HW2].
  destruct (prediction_estimator_mode j); injection Esus as <-.
  1,3: destruct (limited_costs cold r _ _ _ Hr1 HI1 HI2) as (H1 & H2 & H3 & H4);
    split_and!; (done || apply H1 || apply Hgb).
  destruct (limited_costs cold r _ _ _ Hr1 HW1 HW2) as (H1 & H2 & H3 & H4).
  split_and!; (done || apply H1 || apply Hgb).
Qed.

(** Whatever was recorded, a prediction returns; its planning cost is at
    most two refreshes and at least the sustained cost, its wake guard is
    between 0.5 and 2 ms, a cold wake reserves the refresh but 0.1 ms, and
    unless the two-refresh limit cut it the cost covers the wake guard and
    the KMS lead. *)
Theorem prediction_bounds ops refresh cold guard :
  Forall op_u64 ops -> 0 <= refresh -> in_u64 guard ->
  exists j outs p, journal_run id journal_default ops = Some (j, outs) /\
    base_prediction refresh cold guard j = Some (journal_fill j, p) /\
    let r := Z.max (duration_ns refresh) 1 in
    let lead := rp_main_event_loop_wake_guard_ns p + rp_kms_dispatch_budget_ns p + guard in
    0 <= rp_sustained_total_cost_ns p <= rp_total_cost_ns p /\
    rp_total_cost_ns p <= Z.min (2 * r) u64_max /\
    500000 <= rp_main_event_loop_wake_guard_ns p <= 2000000 /\
    (cold = true -> r - 100000 <= rp_total_cost_ns p) /\
    (rp_total_cost_ns p < Z.min (2 * r) u64_max -> lead <= rp_total_cost_ns p).
Proof.
  intros Hops Hr Hg.
  destruct (journal_run_ok journal_default journal_default ops journal_ok_default eq_refl)
    as (j & outs & E & Hj & _).
  pose proof (journal_run_u64 _ _ _ _ Hops journal_u64_default E) as Hu.
  destruct (base_prediction_bounds refresh cold guard j Hj Hu Hr Hg) as (p & Hp). eauto.
Qed.

Lemma prediction_bounds_witness :
  exists j outs p, journal_run id journal_default [JRenderSample 3000000 10; JWakeLateness 700000]
                   = Some (j, outs) /\
    base_prediction 16666666 true 100000 j = Some (journal_fill j, p) /\
    let r := Z.max (duration_ns 16666666) 1 in
    let lead := rp_main_event_loop_wake_guard_ns p + rp_kms_dispatch_budget_ns p + 100000 in
    0 <= rp_sustained_total_cost_ns p <= rp_total_cost_ns p /\
    rp_total_cost_ns p <= Z.min (2 * r) u64_max /\
    500000 <= rp_main_event_loop_wake_guard_ns p <= 2000000 /\
    (true = true -> r - 100000 <= rp_total_cost_ns p) /\
    (rp_total_cost_ns p < Z.min (2 * r) u64_max -> lead <= rp_total_cost_ns p).
Proof.
  apply (prediction_bounds [JRenderSample 3000000 10; JWakeLateness 700000] 16666666 true 100000).
  - repeat constructor; cbn; int_lia.
  - lia.
  - int_lia.
Defined.

(** ** Branch histories *)

Definition branch_run (records : list (Z * MonotonicTimestampNs)) : BranchRiskHistory :=
  foldl (fun b '(s, t) => branch_record s t b) branch_default records.

(** The last [SAMPLE_CAPACITY] values of a list. *)
Definition recent (l : list Z) : list Z := drop (length l - Z.to_nat SAMPLE_CAPACITY) l.

Lemma tail_of_drop {A} n (l : list A) : tail (drop n l) = drop (S n) l.
Proof. revert l. induction n as [|n IH]; intros [|x l]; try done. apply IH. Qed.

Lemma push_bounded_recent l v : push_bounded (recent l) v = recent (l ++ [v]).
Proof.
  unfold push_bounded, recent, zlen, SAMPLE_CAPACITY. rewrite length_drop, length_app. cbn [length].
  destruct (Z.eqb_spec (Z.of_nat (length l - (length l - Z.to_nat 120))) 120).
  - rewrite drop_app_le by lia. f_equal.
    replace (length l + 1 - Z.to_nat 120)%nat with (S (length l - Z.to_nat 120)) by lia.
    apply tail_of_drop.
  - replace (length l - Z.to_nat 120)%nat with 0%nat by lia.
    by replace (length l + 1 - Z.to_nat 120)%nat with 0%nat by lia.
Qed.

Lemma branch_run_snoc records s t :
  branch_run (records ++ [(s, t)]) = branch_record s t (branch_run records).
Proof. unfold branch_run. by rewrite foldl_app. Qed.

Lemma branch_run_samples records :
  br_samples (branch_run records) = mkRanked (recent (map fst records)) None.
Proof.
  induction records as [|[s t] records IH] using rev_ind; [done|].
  rewrite branch_run_snoc, branch_record_samples, IH. unfold ranked_push. cbn.
  by rewrite push_bounded_recent, map_app.
Qed.

Lemma branch_run_ewma records lo hi :
  0 <= lo -> hi <= u64_max -> Forall (fun '(s, _) => lo <= s <= hi) records ->
  (records <> [] -> lo <= br_ewma_ns (branch_run records) <= hi) /\
  (br_last_sample_at (branch_run records) <> None -> records <> []).
Proof.
  intros Hlo Hhi. induction records as [|[s t] records IH] using rev_ind; [done|].
  intros [HF Hs]%list.Forall_app. apply Forall_inv in Hs. destruct (IH HF) as [H1 H2].
  rewrite branch_run_snoc. split; [|intros _; by destruct records].
  intros _. unfold branch_record.
  pose proof (ewma_update_between lo hi s t (br_ewma_ns (branch_run records))
    (br_upper_positive_deviation_ns (branch_run records))
    (br_last_sample_at (branch_run records)) Hlo Hhi Hs ltac:(auto)) as H.
  by destruct (ewma_update _ _ _ _ _).
Qed.

Lemma recent_Forall (P : Z -> Prop) l : Forall P l -> Forall P (recent l).
Proof. apply Forall_drop. Qed.

Lemma recent_len l : zlen (recent l) <= SAMPLE_CAPACITY.
Proof. unfold zlen, recent, SAMPLE_CAPACITY. rewrite length_drop. lia. Qed.

Lemma branch_run_u64 records :
  Forall (fun '(s, _) => in_u64 s) records -> branch_u64 (branch_run records).
Proof.
  induction records as [|[s t] records IH] using rev_ind; intros HF.
  - split; cbn; (by constructor) || int_lia.
  - apply list.Forall_app in HF as [HF Hs]. apply Forall_inv in Hs. rewrite branch_run_snoc.
    apply branch_record_u64; auto.
Qed.

(** A branch history keeps exactly its last 120 samples, its average
    stays within the range of the samples seen, and the risk it selects is
    at least the 95th percentile of the window and never above the largest
    sample of the window. *)
Theorem branch_history_within_evidence records lo hi :
  0 <= lo -> hi <= u64_max -> records <> [] -> Forall (fun '(s, _) => lo <= s <= hi) records ->
  exists sel p95, branch_selection (branch_run records) = Some sel /\
    rh_samples (br_samples (branch_run records)) = recent (map fst records) /\
    nearest_rank (recent (map fst records)) 95 = Some p95 /\
    p95 <= sel_selected_risk_ns sel <= window_max (recent (map fst records)) /\
    lo <= sel_selected_risk_ns sel <= hi /\
    lo <= br_ewma_ns (branch_run records) <= hi.
Proof.
  intros Hlo Hhi Hne HF.
  assert (Hc : cache_ok 95 (br_samples (branch_run records)))
    by (rewrite branch_run_samples; split; [apply recent_len|by left]).
  assert (Hu : branch_u64 (branch_run records)).
  { apply branch_run_u64. eapply Forall_impl; [exact HF|]. intros [] ?. unfold in_u64. lia. }
  destruct (branch_selection_Some _ Hc) as [sel Es].
  destruct (branch_selection_bounds _ _ Hc Hu Es) as (p95 & Ep & H1 & H2 & _).
  rewrite branch_run_samples in *. unfold rank in Ep. cbn [rh_samples rh_rank] in Ep, H2.
  destruct (branch_run_ewma records lo hi Hlo Hhi HF) as [He _]. specialize (He Hne).
  assert (Hw : Forall (fun x => lo <= x <= hi) (recent (map fst records))).
  { apply recent_Forall, Forall_map. eapply Forall_impl; [exact HF|]. by intros [] ?. }
  assert (window_max (recent (map fst records)) <= hi).
  { apply window_max_le; [|eapply Forall_impl; [exact Hw|cbn; lia]]. lia. }
  assert (lo <= p95).
  { destruct (nearest_rank_Some _ 95 ltac:(lia) (recent_len (map fst records)))
      as (v & Ev & [[El _]|Hin]); rewrite Ep in Ev; injection Ev as ->.
    - exfalso. apply Hne. unfold recent in El.
      apply (f_equal length) in El. rewrite length_drop, length_map in El.
      destruct records; [done|]. unfold SAMPLE_CAPACITY in El. cbn [length] in El. lia.
    - rewrite Forall_forall in Hw. by apply Hw. }
  exists sel, p95. split_and!; (done || lia).
Qed.

Lemma branch_history_within_evidence_witness :
  exists sel p95, branch_selection (branch_run [(100, 0); (300, 50000000)]) = Some sel /\
    rh_samples (br_samples (branch_run [(100, 0); (300, 50000000)]))
    = recent (map fst [(100, 0); (300, 50000000)]) /\
    nearest_rank (recent (map fst [(100, 0); (300, 50000000)])) 95 = Some p95 /\
    p95 <= sel_selected_risk_ns sel
    <= window_max (recent (map fst [(100, 0); (300, 50000000)])) /\
    100 <= sel_selected_risk_ns sel <= 300 /\
    100 <= br_ewma_ns (branch_run [(100, 0); (300, 50000000)]) <= 300.
Proof.
  apply (branch_history_within_evidence [(100, 0); (300, 50000000)] 100 300);
    [lia|by vm_compute|done|].
  constructor; [lia|]. constructor; [lia|]. constructor.
Defined.

(** ** Recovery after a proven miss *)

Definition is_exact_observation (op : JournalOp) : bool :=
  match op with
  | JObservation o _ _ =>
      match exact_parallel_branch_samples_ns o with Some _ => true | None => false end
  | _ => false
  end.
(** Calls that leave a recovery alone: no new resetting miss, no reset. *)
Definition keeps_recovery (op : JournalOp) : bool :=
  match op with JMiss ResetIndependentHorizon | JReset => false | _ => true end.
Definition exact_observations (ops : list JournalOp) : Z :=
  zlen (List.filter is_exact_observation ops).

Lemma base_prediction_state refresh cold guard j j' p :
  base_prediction refresh cold guard j = Some (j', p) -> j' = journal_fill j.
Proof.
  unfold base_prediction. intros E.
  repeat (apply bind_Some in E as (? & _ & E)). by injection E.
Qed.

Lemma journal_step_recovery j op j' out :
  keeps_recovery op = true -> journal_step j op = Some (j', out) ->
  rj_miss_recovery_remaining j'
  = if is_exact_observation op then sat_sub (rj_miss_recovery_remaining j) 1
    else rj_miss_recovery_remaining j.
Proof.
  intros Hk. destruct op; cbn [journal_step is_exact_observation]; intros E;
    try (by injection E as <- <-).
  - injection E as <- <-. unfold record_render_sample. by destruct (ewma_update _ _ _ _ _).
  - injection E as <- <-. unfold record_fixed_submission_budget. by destruct (_ <? _).
  - rewrite observation_unfold in E. injection E as <- <-. cbn.
    by destruct (exact_parallel_branch_samples_ns o).
  - injection E as <- <-. by destruct disposition.
  - apply bind_Some in E as ([k p] & E & [= <- _]).
    unfold prediction_with_kms_guard in E. by rewrite (base_prediction_state _ _ _ _ _ _ E).
  - apply bind_Some in E as ([k p] & E & [= <- _]).
    unfold prediction_at_with_kms_guard in E. by rewrite (base_prediction_state _ _ _ _ _ _ E).
  - apply bind_Some in E as ([k p] & E & [= <- _]). unfold exact_parallel_diagnostics in E.
    by apply bind_Some in E as (d & _ & [= <- _]).
Qed.

Lemma journal_run_recovery j ops j' outs :
  forallb keeps_recovery ops = true -> 0 <= rj_miss_recovery_remaining j ->
  journal_run id j ops = Some (j', outs) ->
  rj_miss_recovery_remaining j'
  = Z.max 0 (rj_miss_recovery_remaining j - exact_observations ops).
Proof.
  revert j outs. induction ops as [|op ops IH]; intros j outs Hk Hj E; cbn in E.
  - injection E as <- _. unfold exact_observations, zlen. cbn. lia.
  - apply bind_Some in E as ([k out] & E1 & E). apply bind_Some in E as ([k2 out2] & E2 & [= <- <-]).
    cbn in Hk. apply andb_prop in Hk as [Hk1 Hk2].
    pose proof (journal_step_recovery _ _ _ _ Hk1 E1) as Hr. unfold id in Hr.
    assert (Hk : 0 <= rj_miss_recovery_remaining k)
      by (rewrite Hr; destruct (is_exact_observation op); unfold sat_sub; lia).
    rewrite (IH k out2 Hk2 Hk E2), Hr. unfold exact_observations, zlen, sat_sub. cbn [List.filter].
    destruct (is_exact_observation op); cbn [length]; lia.
Qed.

(** After a proven miss that resets the horizon, the estimator is in
    [MissRecovery] until exactly twenty frames with exact evidence have been
    recorded, whatever else is recorded or predicted in between. *)
Theorem miss_recovery_takes_twenty j ops :
  journal_ok j -> forallb keeps_recovery ops = true ->
  exists j' outs,
    journal_run id (note_proven_deadline_miss ResetIndependentHorizon j) ops = Some (j', outs) /\
    (prediction_estimator_mode j' = MissRecovery <-> exact_observations ops < 20).
Proof.
  intros Hj Hk. set (j0 := note_proven_deadline_miss ResetIndependentHorizon j).
  assert (Hj0 : journal_ok j0) by (apply journal_ok_exact; [done|apply Hj]).
  destruct (journal_run_ok j0 j0 ops Hj0 eq_refl) as (j' & outs & E & _ & _).
  exists j', outs. split; [done|].
  pose proof (journal_run_recovery j0 ops j' outs Hk
    ltac:(by vm_compute) E) as Hr.
  change (rj_miss_recovery_remaining j0) with 20 in Hr.
  unfold prediction_estimator_mode. destruct (Z.ltb_spec 0 (rj_miss_recovery_remaining j')).
  - split; [lia|done].
  - split; [|lia]. by destruct (_ && _).
Qed.

Lemma miss_recovery_takes_twenty_witness :
  exists j' outs,
    journal_run id (note_proven_deadline_miss ResetIndependentHorizon journal_default)
      [JWakeLateness 5; JPredict 16666666 0] = Some (j', outs) /\
    (prediction_estimator_mode j' = MissRecovery
     <-> exact_observations [JWakeLateness 5; JPredict 16666666 0] < 20).
Proof.
  apply (miss_recovery_takes_twenty journal_default [JWakeLateness 5; JPredict 16666666 0]).
  - exact journal_ok_default.
  - reflexivity.
Defined.

(** ** The deferred-binding accounts *)

Definition deferred_bound (n : Z) (e : ExactParallelRiskJournal) : Prop :=
  0 <= ep_deferred_o1_decomposition_samples e /\
  0 <= ep_deferred_o1_decomposition_invalid_samples e /\
  0 <= ep_deferred_o1_binding_timestamp_unavailable_samples e /\
  0 <= ep_deferred_o1_predecessor_pageflip_bind_samples e /\
  0 <= ep_deferred_o1_render_completion_bind_samples e /\
  ep_deferred_o1_predecessor_pageflip_bind_samples e
  + ep_deferred_o1_render_completion_bind_samples e <= n /\
  ep_deferred_o1_predecessor_pageflip_bind_samples e
  + ep_deferred_o1_render_completion_bind_samples e
  = ep_deferred_o1_decomposition_samples e + ep_deferred_o1_decomposition_invalid_samples e
    + ep_deferred_o1_binding_timestamp_unavailable_samples e.

Lemma deferred_counters_of o r v e n :
  deferred_bound n e -> n < u64_max ->
  deferred_bound (n + 1) (record_deferred_o1_decomposition o r v e).
Proof.
  unfold deferred_bound, record_deferred_o1_decomposition. intros H Hn.
  destruct v as [v|], r as [r|], (fo_worker_queued_at o) as [w|]; try lia.
  destruct (ev_bound_committed_at v); [destruct (_ || _); [|destruct (negb _)]|];
    destruct (ev_origin v); cbn; unfold bump, sat_add; lia.
Qed.

Lemma deferred_bound_decomposition o r e n :
  deferred_bound n e -> deferred_bound n (record_decomposition o r e).
Proof.
  unfold deferred_bound, record_decomposition. intros H.
  destruct r as [r|], (fo_worker_queued_at o) as [w|], (fo_fence_signaled_at o) as [[f []]|];
    try done. repeat case_match; done.
Qed.

(** Ordered timestamps always decompose: the checked sum cannot fail. *)
Lemma deferred_sum_exact rendered authority bound queued :
  0 <= rendered <= authority -> authority <= bound <= queued -> queued <= u64_max ->
  (sum ← checked_add u64_max (authority - rendered) (bound - authority);
   checked_add u64_max sum (queued - bound)) = Some (queued - rendered).
Proof.
  intros. unfold checked_add. rewrite (checked_in _ _ (authority - rendered + _)) by lia.
  cbn. rewrite checked_in by lia. f_equal. lia.
Qed.

Lemma journal_step_deferred j op j' out n :
  deferred_bound n (rj_exact_parallel j) -> 0 <= n < u64_max ->
  journal_step j op = Some (j', out) -> deferred_bound (n + 1) (rj_exact_parallel j').
Proof.
  intros H Hn.
  assert (Hw : deferred_bound (n + 1) (rj_exact_parallel j)) by (unfold deferred_bound in *; lia).
  destruct op; cbn [journal_step]; intros E; try (by injection E as <- <-).
  - injection E as <- <-. unfold record_render_sample. by destruct (ewma_update _ _ _ _ _).
  - injection E as <- <-. unfold record_fixed_submission_budget. by destruct (_ <? _).
  - rewrite observation_unfold in E. injection E as <- <-. apply deferred_counters_of; [|lia].
    destruct (exact_parallel_branch_samples_ns o) as [[a b]|]; [|done].
    by apply deferred_bound_decomposition.
  - apply bind_Some in E as ([k p] & E & [= <- _]).
    unfold prediction_with_kms_guard in E. by rewrite (base_prediction_state _ _ _ _ _ _ E).
  - apply bind_Some in E as ([k p] & E & [= <- _]).
    unfold prediction_at_with_kms_guard in E. by rewrite (base_prediction_state _ _ _ _ _ _ E).
  - apply bind_Some in E as ([k p] & E & [= <- _]). unfold exact_parallel_diagnostics in E.
    by apply bind_Some in E as (d & _ & [= <- _]).
  - injection E as <- _. unfold deferred_bound. cbn. lia.
Qed.

(** Every deferred binding counted by its origin is counted exactly once by
    its outcome, in any history of fewer than [u64::MAX] calls. *)
Theorem deferred_bindings_accounted ops j outs :
  zlen ops <= u64_max -> journal_run id journal_default ops = Some (j, outs) ->
  deferred_bound (zlen ops) (rj_exact_parallel j).
Proof.
  assert (G : forall j0 n, 0 <= n -> n + zlen ops <= u64_max ->
    deferred_bound n (rj_exact_parallel j0) -> journal_run id j0 ops = Some (j, outs) ->
    deferred_bound (n + zlen ops) (rj_exact_parallel j)).
  { revert outs. induction ops as [|op ops IH]; intros outs j0 n Hn Hl Hb E; cbn in E.
    - injection E as <- _. unfold zlen. cbn. by rewrite Z.add_0_r.
    - apply bind_Some in E as ([k out] & E1 & E).
      apply bind_Some in E as ([k2 out2] & E2 & [= <- <-]).
      unfold zlen in *. cbn [length] in *.
      replace (n + Z.of_nat (S (length ops))) with (n + 1 + Z.of_nat (length ops)) by lia.
      eapply IH; [lia|lia| |exact E2]. eapply journal_step_deferred; [exact Hb|lia|exact E1]. }
  intros Hl E. change (zlen ops) with (0 + zlen ops). apply (G journal_default); [lia|lia| |done].
  unfold deferred_bound. cbn. lia.
Qed.
