(* ===== verification/AdaptiveBuffering.v ===== *)
(** * AdaptiveBuffering: the policy that grants a third buffer

    Models the controller half of src/native/adaptive_buffering.rs:
    [AdaptiveBufferingController] combines the user's policy, what the
    hardware can do and the credit controller of [Buffering] into the mode
    the scheduler paces with; with it the policy's parser and the small
    classifiers around it. *)

From stdpp Require Import base list option.
From Stdlib Require Import ZArith Lia String.
From S2P Require Import Prelude Buffering Deadline Scheduler Pipeline RenderJournal.

Inductive AdaptiveTripleBufferPolicy : Type := Auto | Off | Force.
Inductive AdaptiveBufferingMode : Type := Double | Triple.
Inductive TripleEntryReason : Type :=
  PredictedDeadlinePressure | EntryReadinessMiss | EntrySubmitMiss | EntryPresentationMiss
| EntryForcedValidation.
Inductive ProvenDeadlineMiss : Type :=
  ExactRender | GuardedApproximateRender | KmsDispatch | KmsApplyGuard.
Inductive DoctorSeverity : Type := SeverityOk | SeverityWarning | SeverityError.

#[export] Instance AdaptiveTripleBufferPolicy_eq_dec : EqDecision AdaptiveTripleBufferPolicy.
Proof. solve_decision. Defined.
#[export] Instance AdaptiveBufferingMode_eq_dec : EqDecision AdaptiveBufferingMode.
Proof. solve_decision. Defined.
#[export] Instance TripleCapabilityBlocker_eq_dec : EqDecision TripleCapabilityBlocker.
Proof. solve_decision. Defined.
#[export] Instance TripleCapability_eq_dec : EqDecision TripleCapability.
Proof. solve_decision. Defined.

(** ** Names *)

Definition policy_as_str (p : AdaptiveTripleBufferPolicy) : string :=
  match p with Auto => "auto" | Off => "off" | Force => "force" end.
Definition parse_error (other : string) : string :=
  String.append "invalid OBLIVION_ONE_TRIPLE_BUFFERING value '"
    (String.append other "'; accepted values: auto, off, force").
Definition policy_parse (value : string) : res string AdaptiveTripleBufferPolicy :=
  if String.eqb value "auto" then Ret Auto
  else if String.eqb value "off" then Ret Off
  else if String.eqb value "force" then Ret Force
  else Fail (parse_error value).

Definition capability_blocker (c : TripleCapability) : option TripleCapabilityBlocker :=
  match c with Capable => None | Unavailable blocker => Some blocker end.

Definition merge_presentation_miss (existing : option ProvenDeadlineMiss)
  (planned_sequence actual_sequence : Z) : option ProvenDeadlineMiss :=
  match existing with
  | Some m => Some m
  | None => if planned_sequence <? actual_sequence then Some KmsApplyGuard else None
  end.

(** ** The controller *)

Record AdaptiveBufferingController : Type := mkController {
  ab_policy : AdaptiveTripleBufferPolicy;
  ab_mode : AdaptiveBufferingMode;
  ab_o1_credit : O1CreditDemandController;
  ab_last_overlap_target : option PresentationOpportunityId;
  ab_last_overlap_required_ns : Z;
  ab_positive_overlap_observations : Z;
  ab_nonpositive_overlap_observations : Z;
  ab_entry_reason : option TripleEntryReason;
  ab_capability : TripleCapability;
  ab_force_unavailable_blocker : option TripleCapabilityBlocker;
  ab_sustained_overlap_grants : bool
}.

(** [O1CreditDemandController::effective] returns the desired credit. *)
Definition future_primary_credit (a : AdaptiveBufferingController) : Z :=
  desired_credit (ab_o1_credit a).

Definition controller_new (policy : AdaptiveTripleBufferPolicy) : AdaptiveBufferingController :=
  mkController policy Double
    (with_ceiling (match policy with Force => 2 | Off | Auto => 1 end))
    None 0 0 0 None (Unavailable ExplicitSwapchainUnavailable) None true.

(** Field assignments. *)
Definition set_credit (c : O1CreditDemandController) (a : AdaptiveBufferingController)
  : AdaptiveBufferingController :=
  mkController (ab_policy a) (ab_mode a) c (ab_last_overlap_target a)
    (ab_last_overlap_required_ns a) (ab_positive_overlap_observations a)
    (ab_nonpositive_overlap_observations a) (ab_entry_reason a) (ab_capability a)
    (ab_force_unavailable_blocker a) (ab_sustained_overlap_grants a).
Definition set_mode (m : AdaptiveBufferingMode) (a : AdaptiveBufferingController)
  : AdaptiveBufferingController :=
  mkController (ab_policy a) m (ab_o1_credit a) (ab_last_overlap_target a)
    (ab_last_overlap_required_ns a) (ab_positive_overlap_observations a)
    (ab_nonpositive_overlap_observations a) (ab_entry_reason a) (ab_capability a)
    (ab_force_unavailable_blocker a) (ab_sustained_overlap_grants a).
Definition set_entry (r : option TripleEntryReason) (a : AdaptiveBufferingController)
  : AdaptiveBufferingController :=
  mkController (ab_policy a) (ab_mode a) (ab_o1_credit a) (ab_last_overlap_target a)
    (ab_last_overlap_required_ns a) (ab_positive_overlap_observations a)
    (ab_nonpositive_overlap_observations a) r (ab_capability a)
    (ab_force_unavailable_blocker a) (ab_sustained_overlap_grants a).
Definition set_capability (c : TripleCapability) (blocker : option TripleCapabilityBlocker)
  (a : AdaptiveBufferingController) : AdaptiveBufferingController :=
  mkController (ab_policy a) (ab_mode a) (ab_o1_credit a) (ab_last_overlap_target a)
    (ab_last_overlap_required_ns a) (ab_positive_overlap_observations a)
    (ab_nonpositive_overlap_observations a) (ab_entry_reason a) c blocker
    (ab_sustained_overlap_grants a).
Definition set_sustained_overlap_grants (sustained : bool) (a : AdaptiveBufferingController)
  : AdaptiveBufferingController :=
  mkController (ab_policy a) (ab_mode a) (ab_o1_credit a) (ab_last_overlap_target a)
    (ab_last_overlap_required_ns a) (ab_positive_overlap_observations a)
    (ab_nonpositive_overlap_observations a) (ab_entry_reason a) (ab_capability a)
    (ab_force_unavailable_blocker a) sustained.
(** The evidence [observe_overlap_for_target_with_slack] notes. *)
Definition note_overlap (target : option PresentationOpportunityId) (overlap : Z)
  (a : AdaptiveBufferingController) : AdaptiveBufferingController :=
  mkController (ab_policy a) (ab_mode a) (ab_o1_credit a) target overlap
    (if 0 <? overlap then bump (ab_positive_overlap_observations a)
     else ab_positive_overlap_observations a)
    (if 0 <? overlap then ab_nonpositive_overlap_observations a
     else bump (ab_nonpositive_overlap_observations a))
    (ab_entry_reason a) (ab_capability a) (ab_force_unavailable_blocker a)
    (ab_sustained_overlap_grants a).

Definition overlap_grant_cost_ns (prediction : RenderPrediction) (a : AdaptiveBufferingController)
  : Z :=
  if ab_sustained_overlap_grants a then rp_sustained_total_cost_ns prediction
  else rp_total_cost_ns prediction.

Definition apply_capability (capability : TripleCapability) (a : AdaptiveBufferingController)
  : AdaptiveBufferingController :=
  let blocker := ab_force_unavailable_blocker a in
  let ceil n a := set_credit (set_ceiling n (ab_o1_credit a)) a in
  let unless_triple a :=
    if decide (ab_mode a = Triple) then a else set_entry None (set_mode Double a) in
  match ab_policy a, capability with
  | Off, _ => set_mode Double (ceil 1 (set_capability capability None a))
  | Force, Unavailable b => unless_triple (ceil 1 (set_capability capability (Some b) a))
  | Force, Capable =>
      let a := ceil 2 (set_capability capability None a) in
      let a := set_entry (Some EntryForcedValidation) (set_mode Triple a) in
      set_credit (force (ab_o1_credit a)) a
  | Auto, Unavailable _ => unless_triple (ceil 1 (set_capability capability None a))
  | Auto, Capable => ceil 2 (set_capability capability None a)
  end.

Definition note_overlap_transition (before : Z) (a : AdaptiveBufferingController)
  : AdaptiveBufferingController :=
  if (before =? 1) && (future_primary_credit a =? 2)
  then set_entry (Some PredictedDeadlinePressure) a
  else if future_primary_credit a =? 1 then set_entry None a
  else a.

Definition sync_o1_mode (a : AdaptiveBufferingController) : AdaptiveBufferingController :=
  set_mode
    (if (future_primary_credit a =? 2) && bool_decide (ab_capability a = Capable)
        && negb (bool_decide (ab_policy a = Off))
     then Triple else Double) a.

Definition observe_overlap_required (overlap : Z) (a : AdaptiveBufferingController)
  : AdaptiveBufferingController :=
  let c := ab_o1_credit a in
  sync_o1_mode
    (match ab_policy a with
     | Off => set_credit (set_ceiling 1 c) a
     | Force =>
         if decide (ab_capability a = Capable) then set_credit (force (set_ceiling 2 c)) a
         else set_credit (set_ceiling 1 c) a
     | Auto =>
         if decide (ab_capability a = Capable)
         then note_overlap_transition (future_primary_credit a)
                (set_credit (observe_overlap overlap c) a)
         else set_credit (set_ceiling 1 c) a
     end).

Definition observe_overlap_for_target_with_slack (predecessor : option PresentationTarget)
  (overlap slack release_band : Z) (a : AdaptiveBufferingController)
  : AdaptiveBufferingController :=
  let target := (fun t => claim_opportunity_id (pt_physical_claim t)) <$> predecessor in
  if decide (ab_last_overlap_target a = target) then a
  else
    let a := note_overlap target overlap a in
    let c := ab_o1_credit a in
    sync_o1_mode
      (match ab_policy a with
       | Off => set_credit (set_ceiling 1 c) a
       | Force =>
           if decide (ab_capability a = Capable) then set_credit (force (set_ceiling 2 c)) a
           else set_credit (set_ceiling 1 c) a
       | Auto =>
           if decide (ab_capability a = Capable)
           then
             let c' :=
               match target with
               | Some id => observe_opportunity_with_slack id overlap slack release_band c
               | None => observe_overlap overlap c
               end in
             note_overlap_transition (future_primary_credit a) (set_credit c' a)
           else set_entry None (set_credit (set_ceiling 1 c) a)
       end).

Definition observe_overlap_for_target (predecessor : option PresentationTarget) (overlap : Z)
  : AdaptiveBufferingController -> AdaptiveBufferingController :=
  observe_overlap_for_target_with_slack predecessor overlap u64_max 0.

Definition is_render_miss (m : option ProvenDeadlineMiss) : bool :=
  match m with Some ExactRender | Some GuardedApproximateRender => true | _ => false end.

Definition observe_o1_outcome (proven_miss : option ProvenDeadlineMiss)
  (a : AdaptiveBufferingController) : AdaptiveBufferingController :=
  let granting :=
    bool_decide (ab_policy a = Auto) && bool_decide (ab_capability a = Capable)
    && is_render_miss proven_miss in
  sync_o1_mode
    (if granting then
       let before := future_primary_credit a in
       let a := set_credit (observe_render_readiness_miss (ab_o1_credit a)) a in
       if (before =? 1) && (future_primary_credit a =? 2)
       then set_entry (Some EntryReadinessMiss) a else a
     else a).

Definition admission_allows_future_primary (owned_depth : Z) (a : AdaptiveBufferingController)
  : bool := owned_depth <? desired_credit (ab_o1_credit a).

Definition pacing_mode (a : AdaptiveBufferingController) : NativeOutputPacingMode :=
  match ab_mode a with Double => PacingReactiveDouble | Triple => PacingPredictiveTriple end.

Definition controller_reset (a : AdaptiveBufferingController) : AdaptiveBufferingController :=
  set_sustained_overlap_grants (ab_sustained_overlap_grants a) (controller_new (ab_policy a)).

Definition set_policy (policy : AdaptiveTripleBufferPolicy) (a : AdaptiveBufferingController)
  : AdaptiveBufferingController :=
  apply_capability (ab_capability a)
    (set_sustained_overlap_grants (ab_sustained_overlap_grants a) (controller_new policy)).

Definition triple_buffering_doctor_severity (policy : AdaptiveTripleBufferPolicy)
  (mode : AdaptiveBufferingMode) (forced_requirement_failed : bool) : DoctorSeverity :=
  match policy, mode, forced_requirement_failed with
  | Force, Double, true => SeverityWarning
  | _, _, _ => SeverityOk
  end.

(** ** Any sequence of calls *)

Inductive BufferingOp : Type :=
| BSustained (sustained : bool)
| BCapability (capability : TripleCapability)
| BOverlap (overlap : Z)
| BTarget (predecessor : option PresentationTarget) (overlap slack release_band : Z)
| BOutcome (miss : option ProvenDeadlineMiss)
| BReset
| BPolicy (policy : AdaptiveTripleBufferPolicy).

Definition buffering_step (a : AdaptiveBufferingController) (op : BufferingOp)
  : AdaptiveBufferingController :=
  match op with
  | BSustained s => set_sustained_overlap_grants s a
  | BCapability c => apply_capability c a
  | BOverlap overlap => observe_overlap_required overlap a
  | BTarget p overlap slack band => observe_overlap_for_target_with_slack p overlap slack band a
  | BOutcome m => observe_o1_outcome m a
  | BReset => controller_reset a
  | BPolicy p => set_policy p a
  end.
Definition buffering_run (a : AdaptiveBufferingController) (ops : list BufferingOp)
  : AdaptiveBufferingController := foldl buffering_step a ops.

(** ** The parser *)

Lemma policy_parse_Ret value p : policy_parse value = Ret p <-> value = policy_as_str p.
Proof.
  unfold policy_parse.
  destruct (String.eqb_spec value "auto") as [->|H1]; [destruct p; cbn; split; done|].
  destruct (String.eqb_spec value "off") as [->|H2]; [destruct p; cbn; split; done|].
  destruct (String.eqb_spec value "force") as [->|H3]; [destruct p; cbn; split; done|].
  split; [done|]. by destruct p; intros ->.
Qed.

(** ** Invariant *)

Record controller_ok (a : AdaptiveBufferingController) : Prop := {
  ao_credit : credit_ok (ab_o1_credit a);
  (** two future frames only on capable hardware under a policy that allows it *)
  ao_two : future_primary_credit a = 2 -> ab_capability a = Capable /\ ab_policy a <> Off;
  ao_off : ab_policy a = Off -> ab_mode a = Double;
  ao_force : ab_policy a = Force -> ab_capability a = Capable ->
    future_primary_credit a = 2 /\ ab_mode a = Triple;
  (** an automatic grant needs room under the ceiling *)
  ao_room : ab_policy a = Auto -> ab_capability a = Capable -> ceiling (ab_o1_credit a) = 2
}.

Lemma ceiling_one_credit c : credit_ok c -> desired_credit (set_ceiling 1 c) = 1.
Proof.
  intros H. destruct (credit_step_ok c (OpSetCeiling 1) H) as [[H1 H2] _ _ _]. cbn [credit_step] in *.
  assert (ceiling (set_ceiling 1 c) = 1); [|lia].
  unfold set_ceiling. cbn. by destruct (_ <? _).
Qed.
Lemma ceiling_two c : ceiling (set_ceiling 2 c) = 2.
Proof. unfold set_ceiling. cbn. by destruct (_ <? _). Qed.
Lemma grant_ceiling r c : ceiling (grant r c) = ceiling c.
Proof. unfold grant. cbn. by do 2 destruct (Z.ltb _ _) || destruct (Z.eqb _ _). Qed.
Lemma force_credit c : credit_ok c -> ceiling c = 2 -> desired_credit (force c) = 2.
Proof.
  intros [[H1 H2] _ _ _] Hc. unfold force, grant, reset_streak. cbn.
  destruct (Z.ltb_spec (desired_credit c) (ceiling c)); cbn.
  - rewrite Hc. done.
  - destruct (Z.eqb_spec (desired_credit c) 2); cbn; lia.
Qed.
Lemma observe_overlap_ceiling n c : ceiling (observe_overlap n c) = ceiling c.
Proof.
  unfold observe_overlap, observe_slack. destruct (0 <? n); [by rewrite grant_ceiling|].
  destruct (_ =? 1); [done|]. cbn zeta. by destruct (_ <=? _).
Qed.
Lemma observe_opportunity_ceiling o n s b c :
  ceiling (observe_opportunity_with_slack o n s b c) = ceiling c.
Proof.
  unfold observe_opportunity_with_slack. case_decide; [done|]. cbn zeta.
  destruct (_ && _); [done|]. by etransitivity; [apply observe_overlap_ceiling|].
Qed.

Ltac credit_of H op := exact (credit_step_ok _ op H).

Lemma new_ok p s : controller_ok (set_sustained_overlap_grants s (controller_new p)).
Proof.
  split; cbn; try discriminate; [|done..]. apply with_ceiling_ok.
Qed.

Lemma apply_capability_ok c a : controller_ok a -> controller_ok (apply_capability c a).
Proof.
  intros [H1 H2 H3 H4 H5].
  pose proof (credit_step_ok _ (OpSetCeiling 1) H1) as K1. cbn [credit_step] in K1.
  pose proof (credit_step_ok _ (OpSetCeiling 2) H1) as K2. cbn [credit_step] in K2.
  pose proof (credit_step_ok _ OpForce K2) as K3. cbn [credit_step] in K3.
  pose proof (ceiling_one_credit _ H1) as E1.
  pose proof (force_credit _ K2 (ceiling_two _)) as E3.
  pose proof (ceiling_two (ab_o1_credit a)) as E2.
  unfold apply_capability. destruct (ab_policy a) eqn:Ep, c as [|b]; try (case_decide);
    split; cbn; unfold future_primary_credit; cbn; rewrite ?Ep, ?E1, ?E3; try done.
Qed.

Lemma sync_ok a :
  credit_ok (ab_o1_credit a) ->
  (future_primary_credit a = 2 -> ab_capability a = Capable /\ ab_policy a <> Off) ->
  (ab_policy a = Force -> ab_capability a = Capable -> future_primary_credit a = 2) ->
  (ab_policy a = Auto -> ab_capability a = Capable -> ceiling (ab_o1_credit a) = 2) ->
  controller_ok (sync_o1_mode a) /\
  (ab_mode (sync_o1_mode a) = Triple <-> future_primary_credit (sync_o1_mode a) = 2).
Proof.
  intros H1 H2 H3 H4. unfold sync_o1_mode.
  destruct (Z.eqb_spec (future_primary_credit a) 2) as [E|E].
  - destruct (H2 E) as [E1 E2]. rewrite (bool_decide_eq_true_2 _ E1), (bool_decide_eq_false_2 _ E2).
    split; [split|]; cbn; try done.
  - split; [split|]; cbn; try done. intros Hp Hc. exfalso. by apply E, H3.
Qed.

Lemma note_overlap_transition_credit n a :
  ab_o1_credit (note_overlap_transition n a) = ab_o1_credit a /\
  ab_policy (note_overlap_transition n a) = ab_policy a /\
  ab_capability (note_overlap_transition n a) = ab_capability a.
Proof. unfold note_overlap_transition. by do 2 destruct (_ =? 1); try destruct (_ =? 2). Qed.

(** The credit a policy leaves after an observation [f] of the automatic
    policy, the choice the three observers share. *)
Definition policy_credit (a : AdaptiveBufferingController)
  (f : O1CreditDemandController -> O1CreditDemandController) : O1CreditDemandController :=
  let c := ab_o1_credit a in
  match ab_policy a with
  | Off => set_ceiling 1 c
  | Force => if decide (ab_capability a = Capable) then force (set_ceiling 2 c)
             else set_ceiling 1 c
  | Auto => if decide (ab_capability a = Capable) then f c else set_ceiling 1 c
  end.

Lemma observed_ok a a' (op : CreditOp) :
  controller_ok a ->
  (match op with OpObserve _ _ _ _ | OpOverlap _ => True | _ => False end) ->
  ab_policy a' = ab_policy a -> ab_capability a' = ab_capability a ->
  ab_o1_credit a' = policy_credit a (fun c => credit_step c op) ->
  controller_ok (sync_o1_mode a') /\
  (ab_mode (sync_o1_mode a') = Triple <-> future_primary_credit (sync_o1_mode a') = 2).
Proof.
  intros [H1 H2 H3 H4 H5] Hop Ep Ec Ecr.
  pose proof (credit_step_ok _ (OpSetCeiling 1) H1) as K1. cbn [credit_step] in K1.
  pose proof (credit_step_ok _ (OpSetCeiling 2) H1) as K2. cbn [credit_step] in K2.
  pose proof (credit_step_ok _ OpForce K2) as K3. cbn [credit_step] in K3.
  pose proof (ceiling_one_credit _ H1) as E1.
  pose proof (force_credit _ K2 (ceiling_two _)) as E3.
  pose proof (credit_step_ok _ op H1) as K4.
  assert (E4 : ceiling (credit_step (ab_o1_credit a) op) = ceiling (ab_o1_credit a)).
  { destruct op; try done; cbn; [apply observe_opportunity_ceiling|apply observe_overlap_ceiling]. }
  apply sync_ok; unfold future_primary_credit; rewrite ?Ep, ?Ec, Ecr; unfold policy_credit;
    destruct (ab_policy a) eqn:P; try case_decide; rewrite ?E1, ?E3, ?E4; done.
Qed.

(** What an observer's match on the policy leaves of a field. *)
Ltac policy_cases a :=
  first [done | unfold policy_credit; destruct (ab_policy a) eqn:?; try case_decide;
    first [done | etransitivity; [apply note_overlap_transition_credit|done]]].

Lemma buffering_step_ok a op : controller_ok a -> controller_ok (buffering_step a op).
Proof.
  intros H. destruct op as [s|c|n|p n s b|m| |p]; cbn [buffering_step].
  - destruct H. by split.
  - by apply apply_capability_ok.
  - unfold observe_overlap_required.
    apply (observed_ok a _ (OpOverlap n)); policy_cases a.
  - unfold observe_overlap_for_target_with_slack.
    set (target := _ <$> p). case_decide; [done|]. cbn zeta.
    change (ab_policy (note_overlap target n a)) with (ab_policy a).
    change (ab_capability (note_overlap target n a)) with (ab_capability a).
    apply (observed_ok a _ (match target with Some id => OpObserve id n s b
                                              | None => OpOverlap n end));
      destruct target; policy_cases a.
  - unfold observe_o1_outcome. destruct H as [H1 H2 H3 H4 H5].
    destruct (bool_decide_reflect (ab_policy a = Auto)) as [P|P];
      destruct (bool_decide_reflect (ab_capability a = Capable)) as [C|C]; cbn [andb];
      try (apply sync_ok; [done|done| |done]; intros; by apply H4).
    destruct (is_render_miss m); [|apply sync_ok; [done|done| |done]; intros; by apply H4].
    pose proof (credit_step_ok _ OpMiss H1) as K. cbn [credit_step] in K.
    cbn zeta. destruct (_ && _); apply sync_ok; cbn; try done.
    all: try (intros; congruence); try (intros; split; congruence).
    all: intros; by etransitivity; [apply grant_ceiling|apply H5].
  - apply new_ok.
  - apply apply_capability_ok, new_ok.
Qed.

Lemma buffering_run_ok a ops : controller_ok a -> controller_ok (buffering_run a ops).
Proof. revert a. induction ops as [|op ops IH]; intros a H; [done|]. by apply IH, buffering_step_ok. Qed.

(** The buffering policy is safe under any sequence of calls: the
    credit invariant holds, a second future frame is admitted only while the
    hardware is capable and the policy is not [Off], [Off] is always double
    buffered, and [Force] on capable hardware is always triple buffered with
    both credits. *)
Theorem adaptive_buffering_safe policy ops :
  let a := buffering_run (controller_new policy) ops in
  credit_ok (ab_o1_credit a) /\
  (forall depth, 1 <= depth -> admission_allows_future_primary depth a = true ->
     depth = 1 /\ ab_capability a = Capable /\ ab_policy a <> Off) /\
  (ab_policy a = Off -> pacing_mode a = PacingReactiveDouble /\ future_primary_credit a = 1) /\
  (ab_policy a = Force -> ab_capability a = Capable ->
     pacing_mode a = PacingPredictiveTriple /\ future_primary_credit a = 2).
Proof.
  cbn zeta. pose proof (buffering_run_ok (controller_new policy) ops
    (new_ok policy true)) as [H1 H2 H3 H4 _].
  set (a := buffering_run _ _) in *. pose proof (credit_range _ H1) as Hr.
  unfold future_primary_credit in *. split_and!.
  - done.
  - unfold admission_allows_future_primary. intros depth Hd E. apply Z.ltb_lt in E.
    destruct H2; [lia|]. split_and!; [lia|done|done].
  - intros Hp. unfold pacing_mode. rewrite (H3 Hp). split; [done|].
    destruct (decide (desired_credit (ab_o1_credit a) = 2)) as [E|E]; [|lia].
    by destruct (H2 E).
  - intros Hp Hc. destruct (H4 Hp Hc) as [E1 E2]. unfold pacing_mode. by rewrite E2.
Qed.

(** ** Refinement of the credit controller *)

(** One scheduling observation of a predecessor target. *)
Record TargetObservation : Type := mkTargetObservation {
  to_target : PresentationTarget;
  to_overlap : Z;
  to_slack : Z;
  to_band : Z
}.
Definition target_op (t : TargetObservation) : BufferingOp :=
  BTarget (Some (to_target t)) (to_overlap t) (to_slack t) (to_band t).
Definition target_observation (t : TargetObservation) : Observation :=
  Buffering.mkObservation (claim_opportunity_id (pt_physical_claim (to_target t)))
    (to_overlap t) (to_slack t) (to_band t).

(** An automatic controller on capable hardware whose mode and last target
    agree with its credit controller. *)
Definition aligned (a : AdaptiveBufferingController) : Prop :=
  ab_policy a = Auto /\ ab_capability a = Capable /\
  ab_last_overlap_target a = last_observed_opportunity (ab_o1_credit a) /\
  (ab_mode a = Triple <-> future_primary_credit a = 2).

Lemma observe_last o n s b c :
  last_observed_opportunity (observe_opportunity_with_slack o n s b c) = Some o.
Proof.
  unfold observe_opportunity_with_slack. case_decide as E; [done|]. cbn zeta.
  destruct (_ && _); [done|]. unfold observe_slack, grant. cbn zeta.
  destruct (0 <? n); [cbn; repeat case_match; done|]. repeat case_match; done.
Qed.

Lemma target_step_aligned a t :
  aligned a ->
  aligned (buffering_step a (target_op t)) /\
  ab_o1_credit (buffering_step a (target_op t)) = observe (ab_o1_credit a) (target_observation t).
Proof.
  intros (Hp & Hc & Hl & Hm). destruct t as [t n s b].
  cbn [buffering_step target_op to_target to_overlap to_slack to_band].
  unfold observe_overlap_for_target_with_slack. cbn [fmap option_fmap option_map].
  set (id := claim_opportunity_id (pt_physical_claim t)).
  unfold observe, target_observation.
  cbn [credit_step obs_id obs_overlap obs_slack obs_band to_target to_overlap to_slack to_band].
  fold id. case_decide as E.
  - split; [done|]. unfold observe_opportunity_with_slack.
    rewrite decide_True; [done|]. by rewrite <- Hl.
  - cbn zeta. change (ab_policy (note_overlap (Some id) n a)) with (ab_policy a).
    change (ab_capability (note_overlap (Some id) n a)) with (ab_capability a).
    change (ab_o1_credit (note_overlap (Some id) n a)) with (ab_o1_credit a).
    rewrite Hp, decide_True by exact Hc.
    set (c := observe_opportunity_with_slack id n s b (ab_o1_credit a)).
    set (a1 := note_overlap (Some id) n a). set (a2 := set_credit c a1).
    assert (Hproj : forall k, ab_o1_credit (note_overlap_transition k a2) = c /\
      ab_policy (note_overlap_transition k a2) = Auto /\
      ab_capability (note_overlap_transition k a2) = Capable /\
      ab_last_overlap_target (note_overlap_transition k a2) = Some id).
    { intros k. destruct (note_overlap_transition_credit k a2) as (-> & -> & ->).
      split_and!; try done. unfold note_overlap_transition. by repeat case_match. }
    unfold future_primary_credit at 1.
    destruct (Hproj (desired_credit (ab_o1_credit a1))) as (P1 & P2 & P3 & P4).
    split; [|exact P1]. unfold aligned, sync_o1_mode, future_primary_credit.
    cbn [set_mode ab_policy ab_capability ab_last_overlap_target ab_o1_credit ab_mode].
        rewrite P1, P2, P3, P4. split_and!; try done; [symmetry; apply observe_last|].
    rewrite bool_decide_eq_true_2, bool_decide_eq_false_2 by done.
    destruct (Z.eqb_spec (desired_credit c) 2); cbn; split; congruence.
Qed.

(** On capable hardware the automatic policy is the credit controller:
    over any sequence of predecessor observations, wake retries included,
    its credit is the one the credit controller computes from the same
    observations, and it is triple buffered exactly while that credit is 2. *)
Theorem auto_policy_refines_credit a ts :
  aligned a ->
  let a' := buffering_run a (map target_op ts) in
  let c' := foldl observe (ab_o1_credit a) (map target_observation ts) in
  ab_o1_credit a' = c' /\ (ab_mode a' = Triple <-> desired_credit c' = 2).
Proof.
  revert a. induction ts as [|t ts IH]; intros a Ha; cbn zeta.
  - cbn. split; [done|]. apply Ha.
  - destruct (target_step_aligned a t Ha) as [Ha' E].
    specialize (IH _ Ha'). cbn zeta in IH. rewrite E in IH. exact IH.
Qed.

Definition auto_capable : AdaptiveBufferingController := apply_capability Capable (controller_new Auto).
Definition sample_target (n : Z) : PresentationTarget :=
  mkTarget n (n * 100) 0 0 100 Normal 1 false false (mkClaim n (n * 100) 1) (mkEvidence n true).

Lemma auto_policy_refines_credit_witness :
  let ts := [mkTargetObservation (sample_target 1) 5 0 0; mkTargetObservation (sample_target 1) 5 0 0;
             mkTargetObservation (sample_target 2) 0 100 10] in
  aligned auto_capable /\
  (ab_o1_credit (buffering_run auto_capable (map target_op ts))
   = foldl observe (ab_o1_credit auto_capable) (map target_observation ts) /\
   (ab_mode (buffering_run auto_capable (map target_op ts)) = Triple
    <-> desired_credit (foldl observe (ab_o1_credit auto_capable) (map target_observation ts)) = 2)).
Proof.
  intros ts. assert (H : aligned auto_capable) by (split_and!; try done; split; discriminate).
  split; [exact H|]. exact (auto_policy_refines_credit auto_capable ts H).
Defined.

(** A wake retry of the target evaluated last changes nothing, whatever it
    reports. *)
Lemma overlap_retry_ignored t n s b n' s' b' a :
  let a1 := observe_overlap_for_target_with_slack t n s b a in
  observe_overlap_for_target_with_slack t n' s' b' a1 = a1.
Proof.
  cbn zeta. unfold observe_overlap_for_target_with_slack at 1.
  set (target := _ <$> t). rewrite decide_True; [done|].
  unfold observe_overlap_for_target_with_slack. fold target. case_decide; [done|].
  unfold sync_o1_mode, note_overlap_transition. cbn zeta. repeat case_match; done.
Qed.

(** An outcome grants the second credit only for a proven render miss under
    the automatic policy on capable hardware, and does grant it then. *)
Theorem render_miss_grants m a :
  controller_ok a -> future_primary_credit a = 1 ->
  let a' := observe_o1_outcome m a in
  if bool_decide (ab_policy a = Auto) && bool_decide (ab_capability a = Capable)
     && is_render_miss m
  then future_primary_credit a' = 2 /\ ab_mode a' = Triple /\
       ab_entry_reason a' = Some EntryReadinessMiss
  else ab_o1_credit a' = ab_o1_credit a /\ ab_mode a' = Double.
Proof.
  intros H Hc. cbn zeta. unfold observe_o1_outcome.
  destruct (bool_decide_reflect (ab_policy a = Auto)) as [P|P]; cbn [andb].
  2: { split; [done|]. unfold sync_o1_mode. by rewrite Hc. }
  destruct (bool_decide_reflect (ab_capability a = Capable)) as [C|C]; cbn [andb].
  2: { split; [done|]. unfold sync_o1_mode. by rewrite Hc. }
  destruct (is_render_miss m).
  2: { split; [done|]. unfold sync_o1_mode. by rewrite Hc. }
  unfold future_primary_credit in *. pose proof (ao_room a H P C) as Hr.
  assert (E : desired_credit (observe_render_readiness_miss (ab_o1_credit a)) = 2).
  { unfold observe_render_readiness_miss, grant, reset_streak. cbn. rewrite Hc, Hr. done. }
  cbn [set_credit ab_o1_credit]. rewrite Hc, E. cbn.
  unfold sync_o1_mode, future_primary_credit. cbn. rewrite E, P, C. done.
Qed.
