(* ===== verification/SurfaceCommit.v ===== *)
(** * SurfaceCommit: captured surface commits and how they merge

    Models src/compositor/subsurface.rs: one [CachedSubsurfaceCommit] is a
    content update of a surface that waits for its parent, and [merge]
    folds a newer update into the one it replaces, field by field; with it
    the pacing record of src/compositor/state/surface_pacing.rs, the viewport
    change of src/compositor/state_data.rs and the surface identifiers.
    Protocol objects and GPU resources (callbacks, buffers, sync points,
    regions, transforms) are identifiers in [Z]: the code only stores,
    counts and forwards them. *)

From stdpp Require Import base list option.
From Stdlib Require Import ZArith Lia.
From S2P Require Import Prelude.

Abbreviation SurfaceCommitId := Z.
Abbreviation SurfaceCommitSequence := Z.
Abbreviation SubsurfaceRelationshipId := Z.
(** An opaque protocol object, GPU handle or value only carried along. *)
Abbreviation Token := Z.
Definition usize_max : Z := u64_max.

(** ** Lineage *)

Record ContentUpdateRef : Type := mkRef {
  ref_surface_id : Z;
  ref_commit_id : SurfaceCommitId;
  ref_commit_sequence : SurfaceCommitSequence
}.
#[export] Instance ContentUpdateRef_eq_dec : EqDecision ContentUpdateRef.
Proof. solve_decision. Defined.

Record CapturedContentUpdateLineage : Type := mkLineage {
  predecessor : option ContentUpdateRef;
  child_dependencies : list ContentUpdateRef;
  merge_frozen : bool
}.

Record CapturedSubsurfaceRelationship : Type := mkRelationship {
  rel_surface_id : Z;
  rel_parent_id : Z;
  rel_relationship_id : SubsurfaceRelationshipId
}.
#[export] Instance CapturedSubsurfaceRelationship_eq_dec : EqDecision CapturedSubsurfaceRelationship.
Proof. solve_decision. Defined.

Record CapturedSubsurfacePosition : Type := mkPosition {
  pos_relationship : CapturedSubsurfaceRelationship;
  pos_x : Z;
  pos_y : Z
}.
Inductive CapturedSubsurfaceStackEntry : Type :=
| StackParent
| StackChild (r : CapturedSubsurfaceRelationship).

(** [if !v.contains(&x) { v.push(x) }] over a sequence of values. *)
Definition push_unique {A} `{!EqDecision A} (l : list A) (x : A) : list A :=
  if decide (x ∈ l) then l else l ++ [x].
Definition extend_unique {A} `{!EqDecision A} (l new : list A) : list A := foldl push_unique l new.

(** ** Pacing *)

Record CommitTimingConstraint : Type := mkTiming {
  ct_seconds : Z;
  ct_nanoseconds : Z
}.
Definition from_protocol (seconds nanoseconds : Z) : option CommitTimingConstraint :=
  if 1000000000 <=? nanoseconds then None else Some (mkTiming seconds nanoseconds).
(** [ordering_key] compares lexicographically. *)
Definition timing_ltb (a b : CommitTimingConstraint) : bool :=
  (ct_seconds a <? ct_seconds b)
  || ((ct_seconds a =? ct_seconds b) && (ct_nanoseconds a <? ct_nanoseconds b)).
Definition timing_as_nanos (t : CommitTimingConstraint) : Z :=
  sat_add u128_max (sat_mul u128_max (ct_seconds t) 1000000000) (ct_nanoseconds t).

Record PendingSurfacePacingState : Type := mkPendingPacing {
  pp_fifo_set_barrier : bool;
  pp_fifo_wait_barrier : bool;
  pp_commit_timing : option CommitTimingConstraint
}.
Record CapturedSurfacePacing : Type := mkPacing {
  fifo_set_barrier : bool;
  fifo_wait_barrier : bool;
  fifo_wait_ignored_for_synchronized_subsurface : bool;
  commit_timing : option CommitTimingConstraint;
  pacing_readiness : option Token
}.
Definition from_pending (p : PendingSurfacePacingState) : CapturedSurfacePacing :=
  mkPacing (pp_fifo_set_barrier p) (pp_fifo_wait_barrier p) false (pp_commit_timing p) None.
Definition is_some {A} (o : option A) : bool := match o with Some _ => true | None => false end.
Definition is_boundary (p : CapturedSurfacePacing) : bool :=
  fifo_set_barrier p
  || (fifo_wait_barrier p && negb (fifo_wait_ignored_for_synchronized_subsurface p))
  || is_some (commit_timing p).
Definition fifo_wait_blocks (p : CapturedSurfacePacing) (barrier_active : bool) : bool :=
  fifo_wait_barrier p && negb (fifo_wait_ignored_for_synchronized_subsurface p) && barrier_active.

(** ** Pointer constraints *)

Inductive PointerConstraintLifecycleCommit : Type := LcNoChange | LcInstall | LcRemove | LcCancel.
#[export] Instance PointerConstraintLifecycleCommit_eq_dec
  : EqDecision PointerConstraintLifecycleCommit.
Proof. solve_decision. Defined.
Inductive PointerConstraintRegionCommit : Type := RegionNoChange | RegionSet (r : Token).
Inductive PointerConstraintHintCommit : Type := HintNoChange | HintSet (x y : Token).

Record CapturedPointerConstraintCommit : Type := mkConstraint {
  pc_constraint_id : Z;
  pc_lifecycle : PointerConstraintLifecycleCommit;
  pc_region : PointerConstraintRegionCommit;
  pc_cursor_position_hint : PointerConstraintHintCommit
}.
Record CapturedPointerConstraintSurfaceTransition : Type := mkTransition {
  retire : option CapturedPointerConstraintCommit;
  install_or_update : option CapturedPointerConstraintCommit
}.
Inductive CapturedPointerConstraintSurfaceState : Type :=
| PcNoChange
| PcMutation (m : CapturedPointerConstraintCommit)
| PcTransition (t : CapturedPointerConstraintSurfaceTransition).

Definition merge_pointer_constraint_lifecycle (older newer : PointerConstraintLifecycleCommit)
  : PointerConstraintLifecycleCommit :=
  match older, newer with
  | LcInstall, (LcRemove | LcCancel) => LcCancel
  | LcCancel, _ => LcCancel
  | _, LcCancel => LcCancel
  | older, LcNoChange => older
  | _, newer => newer
  end.
Definition merge_pointer_constraint_region (older newer : PointerConstraintRegionCommit)
  : PointerConstraintRegionCommit :=
  match newer with RegionNoChange => older | newer => newer end.
Definition merge_pointer_constraint_hint (older newer : PointerConstraintHintCommit)
  : PointerConstraintHintCommit :=
  match newer with HintNoChange => older | newer => newer end.

Definition merge_pointer_constraint_mutation (older newer : CapturedPointerConstraintCommit)
  : CapturedPointerConstraintCommit :=
  let lifecycle := merge_pointer_constraint_lifecycle (pc_lifecycle older) (pc_lifecycle newer) in
  if decide (lifecycle = LcCancel)
  then mkConstraint (pc_constraint_id newer) lifecycle RegionNoChange HintNoChange
  else mkConstraint (pc_constraint_id newer) lifecycle
         (merge_pointer_constraint_region (pc_region older) (pc_region newer))
         (merge_pointer_constraint_hint (pc_cursor_position_hint older)
            (pc_cursor_position_hint newer)).

(** A retirement joins the one already captured for the same constraint;
    one for a different constraint is dropped. *)
Definition join_retire (existing : option CapturedPointerConstraintCommit)
  (retirement : CapturedPointerConstraintCommit) : option CapturedPointerConstraintCommit :=
  match existing with
  | Some existing =>
      if pc_constraint_id existing =? pc_constraint_id retirement
      then Some (merge_pointer_constraint_mutation existing retirement)
      else Some existing
  | None => Some retirement
  end.

(** The first half of [merge_pointer_constraint_transition]: a newer
    retirement meets the older transition. *)
Definition merge_retire (older : CapturedPointerConstraintSurfaceTransition)
  (newer_retire : CapturedPointerConstraintCommit) : CapturedPointerConstraintSurfaceTransition :=
  let same_identity_install :=
    match install_or_update older with
    | Some install =>
        if pc_constraint_id install =? pc_constraint_id newer_retire then Some install else None
    | None => None
    end in
  match same_identity_install with
  | Some install =>
      match pc_lifecycle install with
      | LcInstall => mkTransition (retire older) None
      | LcNoChange =>
          mkTransition
            (join_retire (retire older) (merge_pointer_constraint_mutation install newer_retire))
            None
      | LcCancel => mkTransition (retire older) None
      | LcRemove => mkTransition (join_retire (retire older) newer_retire) (install_or_update older)
      end
  | None => mkTransition (join_retire (retire older) newer_retire) (install_or_update older)
  end.

(** The second half: a newer installation or update. *)
Definition merge_install (older : CapturedPointerConstraintSurfaceTransition)
  (newer_install : CapturedPointerConstraintCommit) : CapturedPointerConstraintSurfaceTransition :=
  let same :=
    match install_or_update older with
    | Some install => pc_constraint_id install =? pc_constraint_id newer_install
    | None => false
    end in
  if bool_decide (pc_lifecycle newer_install = LcCancel) && same
  then mkTransition (retire older) None
  else
    mkTransition (retire older)
      (Some (match install_or_update older with
             | Some older_install =>
                 if pc_constraint_id older_install =? pc_constraint_id newer_install
                 then merge_pointer_constraint_mutation older_install newer_install
                 else newer_install
             | None => newer_install
             end)).

Definition merge_pointer_constraint_transition
  (older newer : CapturedPointerConstraintSurfaceTransition)
  : CapturedPointerConstraintSurfaceTransition :=
  let older := match retire newer with Some r => merge_retire older r | None => older end in
  match install_or_update newer with Some i => merge_install older i | None => older end.

Definition from_transition (t : CapturedPointerConstraintSurfaceTransition)
  : CapturedPointerConstraintSurfaceState :=
  match retire t, install_or_update t with
  | None, None => PcNoChange
  | Some retire, None => PcMutation retire
  | None, Some install => PcMutation install
  | Some retire, Some install => PcTransition (mkTransition (Some retire) (Some install))
  end.
Definition into_transition (s : CapturedPointerConstraintSurfaceState)
  : option CapturedPointerConstraintSurfaceTransition :=
  match s with
  | PcNoChange => None
  | PcMutation m =>
      Some (match pc_lifecycle m with
            | LcRemove => mkTransition (Some m) None
            | LcInstall | LcNoChange | LcCancel => mkTransition None (Some m)
            end)
  | PcTransition t => Some t
  end.
Definition pointer_state_merge (older newer : CapturedPointerConstraintSurfaceState)
  : CapturedPointerConstraintSurfaceState :=
  match into_transition older with
  | None => newer
  | Some older =>
      match into_transition newer with
      | None => from_transition older
      | Some newer => from_transition (merge_pointer_constraint_transition older newer)
      end
  end.

(** ** Damage, attachments, viewport *)

Inductive RenderableSurfaceDamage : Type :=
| DamageEmpty
| DamageFull
| DamagePartial (rects : list Token)
| DamageHistoryLost.

Definition merge_damage (older newer : option RenderableSurfaceDamage)
  : option RenderableSurfaceDamage :=
  match older, newer with
  | Some DamageHistoryLost, _ | _, Some DamageHistoryLost => Some DamageHistoryLost
  | Some DamageFull, _ | _, Some DamageFull => Some DamageFull
  | Some (DamagePartial older), Some (DamagePartial newer) => Some (DamagePartial (older ++ newer))
  | Some DamageEmpty, Some damage | Some damage, Some DamageEmpty => Some damage
  | Some damage, None | None, Some damage => Some damage
  | None, None => None
  end.

(** A pending buffer: its resource, the number of DMA-BUF planes of its data
    (none for shared memory) and its resize snapshot. *)
Record PendingSurfaceBuffer : Type := mkBuffer {
  buf_resource : Token;
  buf_dmabuf_planes : option nat;
  buf_resize_commit : option Token
}.
Inductive PendingSurfaceAttachment : Type :=
| AttachBuffer (b : PendingSurfaceBuffer)
| RemoveContent.

Record CapturedExplicitSyncState : Type := mkSync {
  sync_state : Token;
  sync_acquire : option Token;
  sync_release : option Token
}.

Record PendingViewportChange : Type := mkViewport {
  vp_source : option (option Token);
  vp_destination : option (option Token)
}.
Definition or_newer {A} (older newer : option A) : option A :=
  match newer with Some _ => newer | None => older end.
Definition viewport_merge (older newer : PendingViewportChange) : PendingViewportChange :=
  mkViewport (or_newer (vp_source older) (vp_source newer))
    (or_newer (vp_destination older) (vp_destination newer)).

(** ** The commit context *)

Record CapturedSubsurfaceParentState : Type := mkParentState {
  activations : list CapturedSubsurfaceRelationship;
  positions : list CapturedSubsurfacePosition;
  stack : option (list CapturedSubsurfaceStackEntry)
}.
Record CapturedLayerSurfaceCommitState : Type := mkLayer {
  layer_state : Token;
  acknowledged_configure : option Token;
  initial_configure_acknowledged : bool
}.
Record CapturedSurfaceCommitContext : Type := mkContext {
  subsurface_parent : CapturedSubsurfaceParentState;
  layer_surface : option CapturedLayerSurfaceCommitState;
  xdg_decoration : option Token
}.

(** [find(same relationship)] then assign, or push. *)
Fixpoint merge_position (l : list CapturedSubsurfacePosition) (p : CapturedSubsurfacePosition)
  : list CapturedSubsurfacePosition :=
  match l with
  | [] => [p]
  | current :: l =>
      if decide (pos_relationship current = pos_relationship p) then p :: l
      else current :: merge_position l p
  end.

Definition context_merge (older newer : CapturedSurfaceCommitContext)
  : CapturedSurfaceCommitContext :=
  mkContext
    (mkParentState
       (extend_unique (activations (subsurface_parent older))
          (activations (subsurface_parent newer)))
       (foldl merge_position (positions (subsurface_parent older))
          (positions (subsurface_parent newer)))
       (or_newer (stack (subsurface_parent older)) (stack (subsurface_parent newer))))
    (match layer_surface older, layer_surface newer with
     | Some older, Some newer =>
         Some (mkLayer (layer_state newer)
                 (match acknowledged_configure newer with
                  | None => acknowledged_configure older
                  | acknowledged => acknowledged
                  end) (initial_configure_acknowledged newer))
     | None, Some newer => Some newer
     | Some older, None => Some older
     | None, None => None
     end)
    (or_newer (xdg_decoration older) (xdg_decoration newer)).

(** ** The cached commit *)

Record CachedSubsurfaceCommit : Type := mkCommit {
  commit_id : SurfaceCommitId;
  commit_sequence : SurfaceCommitSequence;
  lineage : CapturedContentUpdateLineage;
  attachment : option PendingSurfaceAttachment;
  damage : option RenderableSurfaceDamage;
  frame_callbacks : list Token;
  explicit_sync : option CapturedExplicitSyncState;
  offset : option (Z * Z);
  viewport_destination : PendingViewportChange;
  viewport_error_owner : option Token;
  buffer_scale : option Z;
  buffer_transform : option Token;
  opaque_region : option Token;
  input_region : option Token;
  background_effect : option Token;
  background_effect_coverage : option (option Token);
  presentation_feedbacks : list Token;
  resize_commit : option Token;
  resize_capture_finalized : bool;
  window_geometry : option Token;
  cached_at : Token;
  pacing : CapturedSurfacePacing;
  presentation : Token;
  pointer_constraint_state : CapturedPointerConstraintSurfaceState;
  commit_context : CapturedSurfaceCommitContext
}.

Definition content_update_ref (c : CachedSubsurfaceCommit) (surface_id : Z) : ContentUpdateRef :=
  mkRef surface_id (commit_id c) (commit_sequence c).

Definition cached_attachment_obligation_count (a : option PendingSurfaceAttachment)
  : res unit Z :=
  match a with
  | Some (AttachBuffer b) =>
      expect (checked_add usize_max 1 (Z.of_nat (default 0%nat (buf_dmabuf_planes b))))
  | Some RemoveContent | None => Ret 0
  end.
Definition cached_explicit_sync_obligation_count (s : option CapturedExplicitSyncState) : Z :=
  match s with
  | Some s => Z.b2z (is_some (sync_acquire s)) + Z.b2z (is_some (sync_release s))
  | None => 0
  end.

Definition cached_obligation_count (c : CachedSubsurfaceCommit) : res unit Z :=
  attachments ← cached_attachment_obligation_count (attachment c);
  expect
    (count ← checked_add usize_max (Z.of_nat (length (frame_callbacks c)))
               (Z.of_nat (length (presentation_feedbacks c)));
     count ← checked_add usize_max count attachments;
     checked_add usize_max count (cached_explicit_sync_obligation_count (explicit_sync c))).

Definition merged_cached_obligation_count (c newer : CachedSubsurfaceCommit) : res unit Z :=
  let merged_attachment := match attachment newer with Some a => Some a | None => attachment c end in
  let merged_sync :=
    if is_some (attachment newer) || is_some (explicit_sync newer) then explicit_sync newer
    else explicit_sync c in
  attachments ← cached_attachment_obligation_count merged_attachment;
  expect
    (count ← checked_add usize_max (Z.of_nat (length (frame_callbacks newer)))
               (Z.of_nat (length (frame_callbacks c)));
     count ← checked_add usize_max count (Z.of_nat (length (presentation_feedbacks newer)));
     count ← checked_add usize_max count attachments;
     checked_add usize_max count (cached_explicit_sync_obligation_count merged_sync)).

(** [merge]: the merged commit, the buffer it supersedes and the presentation
    feedbacks it discards. *)
Definition merge (c newer : CachedSubsurfaceCommit)
  : CachedSubsurfaceCommit * option PendingSurfaceBuffer * list Token :=
  let lin :=
    mkLineage (predecessor (lineage c))
      (extend_unique (child_dependencies (lineage c)) (child_dependencies (lineage newer)))
      (merge_frozen (lineage c) || merge_frozen (lineage newer)) in
  let superseded :=
    match attachment newer, attachment c with
    | Some _, Some (AttachBuffer b) => Some b
    | _, _ => None
    end in
  (mkCommit (commit_id newer) (commit_sequence newer) lin
     (or_newer (attachment c) (attachment newer))
     (merge_damage (damage c) (damage newer))
     (frame_callbacks c ++ frame_callbacks newer)
     (if is_some (attachment newer) || is_some (explicit_sync newer) then explicit_sync newer
      else explicit_sync c)
     (or_newer (offset c) (offset newer))
     (viewport_merge (viewport_destination c) (viewport_destination newer))
     (if is_some (vp_source (viewport_destination newer)) then viewport_error_owner newer
      else viewport_error_owner c)
     (or_newer (buffer_scale c) (buffer_scale newer))
     (or_newer (buffer_transform c) (buffer_transform newer))
     (or_newer (opaque_region c) (opaque_region newer))
     (or_newer (input_region c) (input_region newer))
     (or_newer (background_effect c) (background_effect newer))
     (or_newer (background_effect_coverage c) (background_effect_coverage newer))
     (presentation_feedbacks newer)
     (if resize_capture_finalized newer then resize_commit newer else resize_commit c)
     (if resize_capture_finalized newer then true else resize_capture_finalized c)
     (or_newer (window_geometry c) (window_geometry newer))
     (cached_at c) (pacing c) (presentation newer)
     (pointer_state_merge (pointer_constraint_state c) (pointer_constraint_state newer))
     (context_merge (commit_context c) (commit_context newer)),
   superseded, presentation_feedbacks c).

(** ** Obligations *)

(** The number of obligations, as an unbounded sum. *)
Definition attachment_obligations (a : option PendingSurfaceAttachment) : Z :=
  match a with
  | Some (AttachBuffer b) => 1 + Z.of_nat (default 0%nat (buf_dmabuf_planes b))
  | _ => 0
  end.
Definition obligations (c : CachedSubsurfaceCommit) : Z :=
  Z.of_nat (length (frame_callbacks c)) + Z.of_nat (length (presentation_feedbacks c))
  + attachment_obligations (attachment c)
  + cached_explicit_sync_obligation_count (explicit_sync c).

Lemma sync_obligations_range s : 0 <= cached_explicit_sync_obligation_count s <= 2.
Proof. destruct s as [[? [] []]|]; cbn; lia. Qed.
Lemma attachment_obligations_nonneg a : 0 <= attachment_obligations a.
Proof. destruct a as [[]|]; cbn; lia. Qed.
Lemma obligations_nonneg c : 0 <= obligations c.
Proof.
  unfold obligations. pose proof (sync_obligations_range (explicit_sync c)).
  pose proof (attachment_obligations_nonneg (attachment c)). lia.
Qed.

(** A chain of checked additions of counts returns the sum when it fits and
    panics otherwise. *)
Lemma checked_chain3 a b c d :
  0 <= a -> 0 <= b -> 0 <= c -> 0 <= d ->
  expect (E := unit)
    (count ← checked_add usize_max a b; count ← checked_add usize_max count c;
     checked_add usize_max count d)
  = if a + b + c + d <=? usize_max then Ret (a + b + c + d) else Panic.
Proof.
  intros. unfold checked_add, checked. zcase; cbn; zcase; cbn; zcase; done || lia.
Qed.

Lemma attachment_count_eq a :
  cached_attachment_obligation_count a
  = if attachment_obligations a <=? usize_max then Ret (attachment_obligations a) else Panic.
Proof.
  destruct a as [[b|]|]; cbn; unfold checked_add, checked; zcase; try done; int_lia.
Qed.

Lemma cached_obligation_count_eq c :
  cached_obligation_count c = if obligations c <=? usize_max then Ret (obligations c) else Panic.
Proof.
  unfold cached_obligation_count, obligations. rewrite attachment_count_eq.
  pose proof (sync_obligations_range (explicit_sync c)).
  pose proof (attachment_obligations_nonneg (attachment c)).
  destruct (Z.leb_spec (attachment_obligations (attachment c)) usize_max); cbn.
  - rewrite checked_chain3 by lia. done.
  - zcase. done.
Qed.

Lemma checked_chain4 a b c d e :
  0 <= a -> 0 <= b -> 0 <= c -> 0 <= d -> 0 <= e ->
  expect (E := unit)
    (count ← checked_add usize_max a b; count ← checked_add usize_max count c;
     count ← checked_add usize_max count d; checked_add usize_max count e)
  = if a + b + c + d + e <=? usize_max then Ret (a + b + c + d + e) else Panic.
Proof.
  intros. destruct (Z.leb_spec (a + b) usize_max).
  - assert (E : checked_add usize_max a b = Some (a + b)) by (apply checked_in; lia).
    rewrite E. cbn [mbind option_bind]. by rewrite checked_chain3 by lia.
  - assert (E : checked_add usize_max a b = None) by (apply checked_None; lia).
    rewrite E. cbn. zcase. done.
Qed.

Definition merged (c newer : CachedSubsurfaceCommit) : CachedSubsurfaceCommit :=
  fst (fst (merge c newer)).

Lemma merged_obligations c newer :
  obligations (merged c newer)
  = Z.of_nat (length (frame_callbacks newer)) + Z.of_nat (length (frame_callbacks c))
    + Z.of_nat (length (presentation_feedbacks newer))
    + attachment_obligations (or_newer (attachment c) (attachment newer))
    + cached_explicit_sync_obligation_count
        (if is_some (attachment newer) || is_some (explicit_sync newer) then explicit_sync newer
         else explicit_sync c).
Proof. unfold obligations. cbn. rewrite length_app. lia. Qed.

(** The admission check counts what merging will retain: the obligation
    count computed before two commits are merged is the count of the merged
    commit. *)
Lemma merged_count_is_count_of_merge c newer :
  merged_cached_obligation_count c newer = cached_obligation_count (merged c newer).
Proof.
  rewrite cached_obligation_count_eq, merged_obligations. unfold merged_cached_obligation_count.
  rewrite attachment_count_eq.
  replace (match attachment newer with Some a => Some a | None => attachment c end)
    with (or_newer (attachment c) (attachment newer)) by by destruct (attachment newer).
  set (s := if is_some (attachment newer) || is_some (explicit_sync newer)
            then explicit_sync newer else explicit_sync c).
  pose proof (sync_obligations_range s).
  pose proof (attachment_obligations_nonneg (or_newer (attachment c) (attachment newer))).
  destruct (Z.leb_spec (attachment_obligations (or_newer (attachment c) (attachment newer)))
              usize_max); cbn.
  - rewrite checked_chain4 by lia. done.
  - zcase. done.
Qed.

(** ** Merging in sequence *)

Lemma merge_damage_assoc a b c :
  merge_damage (merge_damage a b) c = merge_damage a (merge_damage b c).
Proof.
  destruct a as [[| |?|]|], b as [[| |?|]|], c as [[| |?|]|]; cbn; try done.
  by rewrite <- app_assoc.
Qed.

Lemma or_newer_assoc {A} (a b c : option A) :
  or_newer (or_newer a b) c = or_newer a (or_newer b c).
Proof. by destruct c. Qed.

Lemma elem_of_push_unique {A} `{!EqDecision A} (l : list A) x y :
  y ∈ push_unique l x <-> y ∈ l \/ y = x.
Proof.
  unfold push_unique. case_decide.
  - split; [by left|]. intros [?| ->]; done.
  - by rewrite elem_of_app, list_elem_of_singleton.
Qed.
Lemma elem_of_extend_unique {A} `{!EqDecision A} (l new : list A) y :
  y ∈ extend_unique l new <-> y ∈ l \/ y ∈ new.
Proof.
  revert l. induction new as [|x new IH]; intros l.
  - cbn. split; [by left|]. intros [?|H]; [done|]. by apply elem_of_nil in H.
  - change (extend_unique l (x :: new)) with (extend_unique (push_unique l x) new).
    rewrite IH, elem_of_push_unique, elem_of_cons. tauto.
Qed.
Lemma NoDup_push_unique {A} `{!EqDecision A} (l : list A) x :
  base.NoDup l -> base.NoDup (push_unique l x).
Proof.
  intros H. unfold push_unique. case_decide as E; [done|].
  apply list.NoDup_app. split_and!; [done| |apply list.NoDup_singleton].
  intros y Hy ->%list_elem_of_singleton. done.
Qed.
Lemma NoDup_extend_unique {A} `{!EqDecision A} (l new : list A) :
  base.NoDup l -> base.NoDup (extend_unique l new).
Proof.
  revert l. induction new as [|x new IH]; intros l H; [done|]. by apply IH, NoDup_push_unique.
Qed.

(** Positions: the last one written for a relationship, one each. *)
Definition position_of (r : CapturedSubsurfaceRelationship) (l : list CapturedSubsurfacePosition)
  : option CapturedSubsurfacePosition :=
  List.find (fun p => bool_decide (pos_relationship p = r)) l.

Lemma position_of_merge r l p :
  position_of r (merge_position l p)
  = if decide (pos_relationship p = r) then Some p else position_of r l.
Proof.
  unfold position_of. induction l as [|q l IH]; cbn [merge_position List.find].
  - case_bool_decide; case_decide; done.
  - destruct (decide (pos_relationship q = pos_relationship p)) as [E|E]; cbn [List.find].
    + rewrite E. case_bool_decide; case_decide; done.
    + rewrite IH. case_bool_decide as E2; [|done]. rewrite decide_False; [done|congruence].
Qed.
