(* ===== verification/SurfaceCache.v ===== *)
(** * SurfaceCache: subsurface roles and the synchronized commit cache

    Models the role and cache half of
    src/compositor/state/surface_transactions/state.rs: which surface is a
    subsurface of which, the phase of that relationship, the commits cached
    for a synchronized subsurface and the admission accounts over them.
    [CacheState] holds the fields of [SurfaceTransactionState] this half
    uses; the queue of pending trees is in [SurfaceQueue]. The maps are
    [gmap]s; where the code walks a [HashMap] in its unspecified order the
    model takes the order from the class [HashOrder]. [Panic] is a failed
    [expect], and walks of the role tree carry the number of roles as fuel.
    Debug assertions are compiled out of release builds and are not part of the
    model: [cache_commit] opens with three of them (state.rs:410-419), of
    which the first, [debug_accounting_is_consistent], is the invariant
    [accounts_consistent] proved below. *)

From stdpp Require Import base gmap list option sorting fin_maps.
From Stdlib Require Import ZArith Lia.
From S2P Require Import Prelude SurfaceCommit.

Definition MAX_SYNCHRONIZED_CACHED_COMMITS_PER_SURFACE : Z := 8.
Definition MAX_SYNCHRONIZED_CACHED_COMMITS_PER_CLIENT : Z := 256.
Definition MAX_SYNCHRONIZED_CACHED_COMMITS_TOTAL : Z := 4096.
Definition MAX_SYNCHRONIZED_CACHED_OBLIGATIONS_PER_SURFACE : Z := 1024.
Definition MAX_SYNCHRONIZED_CACHED_OBLIGATIONS_PER_CLIENT : Z := 8192.
Definition MAX_SYNCHRONIZED_CACHED_OBLIGATIONS_TOTAL : Z := 65536.

Inductive SubsurfaceSyncMode : Type := Synchronized | Desynchronized.
Inductive SubsurfaceRelationshipPhase : Type := PendingParentCommit | Latched | Applied.
#[export] Instance SubsurfaceSyncMode_eq_dec : EqDecision SubsurfaceSyncMode.
Proof. solve_decision. Defined.
#[export] Instance SubsurfaceRelationshipPhase_eq_dec : EqDecision SubsurfaceRelationshipPhase.
Proof. solve_decision. Defined.

Record SubsurfaceRoleState : Type := mkRole {
  relationship_id : SubsurfaceRelationshipId;
  parent_id : Z;
  client_id : option Z;
  requested_mode : SubsurfaceSyncMode;
  relationship_phase : SubsurfaceRelationshipPhase;
  cached_commits : list CachedSubsurfaceCommit;
  pending_position : option (Z * Z)
}.
Record DetachedSubsurfaceRole : Type := mkDetached {
  det_relationship : CapturedSubsurfaceRelationship;
  det_client_id : option Z;
  det_cached_commits : list CachedSubsurfaceCommit
}.

(** The accounts over the cache, and their high-water marks. *)
Record CacheAccounts : Type := mkAccounts {
  entries_per_surface : gmap Z Z;
  obligations_per_surface : gmap Z Z;
  entries_per_client : gmap Z Z;
  obligations_per_client : gmap Z Z;
  entries_total : Z;
  obligations_total : Z;
  cached_nodes : Z;
  maximum_entries : Z;
  maximum_entries_per_surface : Z;
  maximum_entries_per_client : Z;
  maximum_obligations : Z;
  maximum_obligations_per_surface : Z;
  maximum_obligations_per_client : Z
}.
Record CacheState : Type := mkCache {
  roles : gmap Z SubsurfaceRoleState;
  next_relationship_id : Z;
  accounts : CacheAccounts
}.
Definition accounts_default : CacheAccounts := mkAccounts ∅ ∅ ∅ ∅ 0 0 0 0 0 0 0 0 0.
Definition cache_default : CacheState := mkCache ∅ 0 accounts_default.

Definition set_roles (m : gmap Z SubsurfaceRoleState) (s : CacheState) : CacheState :=
  mkCache m (next_relationship_id s) (accounts s).
Definition set_accounts (a : CacheAccounts) (s : CacheState) : CacheState :=
  mkCache (roles s) (next_relationship_id s) a.
Definition set_phase (p : SubsurfaceRelationshipPhase) (r : SubsurfaceRoleState)
  : SubsurfaceRoleState :=
  mkRole (relationship_id r) (parent_id r) (client_id r) (requested_mode r) p (cached_commits r)
    (pending_position r).
Definition set_requested_mode (m : SubsurfaceSyncMode) (r : SubsurfaceRoleState)
  : SubsurfaceRoleState :=
  mkRole (relationship_id r) (parent_id r) (client_id r) m (relationship_phase r)
    (cached_commits r) (pending_position r).
Definition set_commits (l : list CachedSubsurfaceCommit) (r : SubsurfaceRoleState)
  : SubsurfaceRoleState :=
  mkRole (relationship_id r) (parent_id r) (client_id r) (requested_mode r)
    (relationship_phase r) l (pending_position r).
Definition set_position (p : option (Z * Z)) (r : SubsurfaceRoleState) : SubsurfaceRoleState :=
  mkRole (relationship_id r) (parent_id r) (client_id r) (requested_mode r)
    (relationship_phase r) (cached_commits r) p.

(** ** Roles *)

Definition role_parent (m : gmap Z SubsurfaceRoleState) (id : Z) : option Z := parent_id <$> m !! id.

(** The ancestor walk of [register_with_client]. *)
Fixpoint ancestor_hits (fuel : nat) (m : gmap Z SubsurfaceRoleState) (surface_id : Z)
  (ancestor : option Z) : res unit bool :=
  match ancestor with
  | None => Ret false
  | Some id =>
      if id =? surface_id then Ret true
      else match fuel with
           | O => NoFuel
           | S fuel => ancestor_hits fuel m surface_id (role_parent m id)
           end
  end.

Definition register_with_client (surface_id parent : Z) (client : option Z) (s : CacheState)
  : res unit (CacheState * bool) :=
  if (surface_id =? parent) || is_some (roles s !! surface_id) then Ret (s, false)
  else
    hit ← ancestor_hits (S (size (roles s))) (roles s) surface_id (Some parent);
    if (hit : bool) then Ret (s, false)
    else match checked_add u64_max (next_relationship_id s) 1 with
         | None => Ret (s, false)
         | Some next =>
             let role := mkRole next parent client Synchronized PendingParentCommit [] None in
             Ret (mkCache (<[surface_id := role]> (roles s)) next (accounts s), true)
         end.

(** The lineage without the promoted dependencies, and how many it lost. *)
Definition prune_dependencies (child_id : Z) (promoted : list ContentUpdateRef)
  (c : CachedSubsurfaceCommit) : CachedSubsurfaceCommit * Z :=
  let removed d := (ref_surface_id d =? child_id) && bool_decide (d ∈ promoted) in
  let kept := List.filter (fun d => negb (removed d)) (child_dependencies (lineage c)) in
  (mkCommit (commit_id c) (commit_sequence c)
     (mkLineage (predecessor (lineage c)) kept (merge_frozen (lineage c)))
     (attachment c) (damage c) (frame_callbacks c) (explicit_sync c) (offset c)
     (viewport_destination c) (viewport_error_owner c) (buffer_scale c) (buffer_transform c)
     (opaque_region c) (input_region c) (background_effect c) (background_effect_coverage c)
     (presentation_feedbacks c) (resize_commit c) (resize_capture_finalized c) (window_geometry c)
     (cached_at c) (pacing c) (presentation c) (pointer_constraint_state c) (commit_context c),
   Z.of_nat (length (List.filter removed (child_dependencies (lineage c))))).
Definition remove_cached_parent_dependencies_to_child_commits (parent child_id : Z)
  (promoted : list ContentUpdateRef) (s : CacheState) : CacheState * Z :=
  match roles s !! parent with
  | None => (s, 0)
  | Some role =>
      let pruned := map (prune_dependencies child_id promoted) (cached_commits role) in
      (set_roles (<[parent := set_commits (map fst pruned) role]> (roles s)) s,
       foldl (fun acc p => sat_add usize_max acc (snd p)) 0 pruned)
  end.

Definition parent_of (surface_id : Z) (s : CacheState) : option Z := role_parent (roles s) surface_id.
Definition captured_of (surface_id : Z) (r : SubsurfaceRoleState) : CapturedSubsurfaceRelationship :=
  mkRelationship surface_id (parent_id r) (relationship_id r).
Definition captured_relationship (surface_id : Z) (s : CacheState)
  : option CapturedSubsurfaceRelationship := captured_of surface_id <$> roles s !! surface_id.
Definition relationship_matches (r : CapturedSubsurfaceRelationship) (s : CacheState) : bool :=
  match roles s !! rel_surface_id r with
  | Some role => (parent_id role =? rel_parent_id r)
                 && (relationship_id role =? rel_relationship_id r)
  | None => false
  end.
Definition relationship_is_applied (r : CapturedSubsurfaceRelationship) (s : CacheState) : bool :=
  relationship_matches r s
  && bool_decide (relationship_phase <$> roles s !! rel_surface_id r = Some Applied).
Definition relationship_is_registered_child_of (surface_id parent : Z) (s : CacheState) : bool :=
  match roles s !! surface_id with Some role => parent_id role =? parent | None => false end.
Definition relationship_is_applied_child_of (surface_id parent : Z) (s : CacheState) : bool :=
  match roles s !! surface_id with
  | Some role => (parent_id role =? parent) && bool_decide (relationship_phase role = Applied)
  | None => false
  end.

Definition apply_captured_relationship (r : CapturedSubsurfaceRelationship) (s : CacheState)
  : CacheState * bool :=
  match roles s !! rel_surface_id r with
  | None => (s, false)
  | Some role =>
      if negb (parent_id role =? rel_parent_id r)
         || negb (relationship_id role =? rel_relationship_id r)
         || negb (bool_decide (relationship_phase role = Latched))
      then (s, false)
      else (set_roles (<[rel_surface_id r := set_phase Applied role]> (roles s)) s, true)
  end.

Definition set_mode (surface_id : Z) (mode : SubsurfaceSyncMode) (s : CacheState)
  : CacheState * bool :=
  match roles s !! surface_id with
  | None => (s, false)
  | Some role => (set_roles (<[surface_id := set_requested_mode mode role]> (roles s)) s, true)
  end.
Definition set_pending_position (surface_id x y : Z) (s : CacheState) : CacheState * bool :=
  match roles s !! surface_id with
  | None => (s, false)
  | Some role => (set_roles (<[surface_id := set_position (Some (x, y)) role]> (roles s)) s, true)
  end.

(** The walk of [is_effectively_synchronized]. *)
Fixpoint effectively_synchronized (fuel : nat) (m : gmap Z SubsurfaceRoleState)
  (current : option Z) : res unit bool :=
  match current with
  | None => Ret false
  | Some id =>
      match m !! id with
      | None => Ret false
      | Some role =>
          if decide (requested_mode role = Synchronized) then Ret true
          else match fuel with
               | O => NoFuel
               | S fuel =>
                   effectively_synchronized fuel m
                     (if is_some (m !! parent_id role) then Some (parent_id role) else None)
               end
      end
  end.
Definition is_effectively_synchronized (surface_id : Z) (s : CacheState) : res unit bool :=
  effectively_synchronized (size (roles s)) (roles s) (Some surface_id).

(** The depth loop of [maximum_depth] for one surface. *)
Fixpoint depth_from (fuel : nat) (m : gmap Z SubsurfaceRoleState) (depth current : Z) : res unit Z :=
  match m !! current with
  | None => Ret depth
  | Some role =>
      if negb (is_some (m !! parent_id role)) then Ret depth
      else match fuel with
           | O => NoFuel
           | S fuel => depth_from fuel m (depth + 1) (parent_id role)
           end
  end.

(** ** Accounts *)

Definition replace_cached_count (current old new : Z) : res unit Z :=
  expect (count ← checked_sub usize_max current old; checked_add usize_max count new).
Definition checked_replace_cached_count (current old new : Z) : option Z :=
  count ← checked_sub usize_max current old; checked_add usize_max count new.
Definition replace_cached_map_count (counts : gmap Z Z) (key old new : Z) : res unit (gmap Z Z) :=
  updated ← replace_cached_count (default 0 (counts !! key)) old new;
  Ret (if updated =? 0 then delete key counts else <[key := updated]> counts).

Definition replace_cached_accounting (surface_id : Z) (client : option Z)
  (old_entries new_entries old_obligations new_obligations : Z) (a : CacheAccounts)
  : res unit CacheAccounts :=
  et ← replace_cached_count (entries_total a) old_entries new_entries;
  ot ← replace_cached_count (obligations_total a) old_obligations new_obligations;
  es ← replace_cached_map_count (entries_per_surface a) surface_id old_entries new_entries;
  os ← replace_cached_map_count (obligations_per_surface a) surface_id old_obligations
         new_obligations;
  ec ← match client with
       | Some c => replace_cached_map_count (entries_per_client a) c old_entries new_entries
       | None => Ret (entries_per_client a)
       end;
  oc ← match client with
       | Some c => replace_cached_map_count (obligations_per_client a) c old_obligations
                     new_obligations
       | None => Ret (obligations_per_client a)
       end;
  nodes ← match old_entries =? 0, new_entries =? 0 with
          | true, false => expect (checked_add usize_max (cached_nodes a) 1)
          | false, true => expect (checked_sub usize_max (cached_nodes a) 1)
          | _, _ => Ret (cached_nodes a)
          end;
  Ret (mkAccounts es os ec oc et ot nodes
         (Z.max (maximum_entries a) et)
         (Z.max (maximum_entries_per_surface a) new_entries)
         (match client with
          | Some c => Z.max (maximum_entries_per_client a) (default 0 (ec !! c))
          | None => maximum_entries_per_client a
          end)
         (Z.max (maximum_obligations a) ot)
         (Z.max (maximum_obligations_per_surface a) new_obligations)
         (match client with
          | Some c => Z.max (maximum_obligations_per_client a) (default 0 (oc !! c))
          | None => maximum_obligations_per_client a
          end)).

(** [map(cached_obligation_count).sum()]: the counts may panic, the sum is of
    [usize]. *)
Fixpoint sum_obligations (l : list CachedSubsurfaceCommit) : res unit Z :=
  match l with
  | [] => Ret 0
  | c :: l =>
      n ← cached_obligation_count c;
      total ← sum_obligations l;
      expect (checked_add usize_max n total)
  end.

(** Replace the commits cached for one surface, and the accounts with them. *)
Definition recount (surface_id : Z) (client : option Z)
  (old_entries new_entries old_obligations new_obligations : Z) (s : CacheState)
  : res unit CacheState :=
  a ← replace_cached_accounting surface_id client old_entries new_entries old_obligations
        new_obligations (accounts s);
  Ret (set_accounts a s).

Definition zlength {A} (l : list A) : Z := Z.of_nat (length l).

Definition detach_role (surface_id : Z) (s : CacheState)
  : res unit (CacheState * option DetachedSubsurfaceRole) :=
  match roles s !! surface_id with
  | None => Ret (s, None)
  | Some role =>
      let s := set_roles (delete surface_id (roles s)) s in
      cached_obligations ← sum_obligations (cached_commits role);
      s ← recount surface_id (client_id role) (zlength (cached_commits role)) 0
            cached_obligations 0 s;
      Ret (s, Some (mkDetached (captured_of surface_id role) (client_id role)
                      (cached_commits role)))
  end.

Inductive CacheAdmissionFailure : Type :=
  MissingRole | ClientAlreadyExhausted | PerSurfaceEntryLimit | PerClientEntryLimit
| TotalEntryLimit | PerSurfaceObligationLimit | PerClientObligationLimit | TotalObligationLimit
| AccountingInvariant.
Inductive CacheCommitOutcome : Type :=
| Inserted
| Merged (superseded_buffer : option PendingSurfaceBuffer) (discarded_feedbacks : list Token)
| Rejected (commit : CachedSubsurfaceCommit) (reason : CacheAdmissionFailure).

(** The limits, in the order [cache_commit] checks them. *)
Definition admission_failure (client : option Z) (new_entries new_obligations new_client_entries
  new_client_obligations new_total_entries new_total_obligations : Z)
  : option CacheAdmissionFailure :=
  if MAX_SYNCHRONIZED_CACHED_COMMITS_PER_SURFACE <? new_entries then Some PerSurfaceEntryLimit
  else if MAX_SYNCHRONIZED_CACHED_OBLIGATIONS_PER_SURFACE <? new_obligations
  then Some PerSurfaceObligationLimit
  else if is_some client && (MAX_SYNCHRONIZED_CACHED_COMMITS_PER_CLIENT <? new_client_entries)
  then Some PerClientEntryLimit
  else if is_some client
          && (MAX_SYNCHRONIZED_CACHED_OBLIGATIONS_PER_CLIENT <? new_client_obligations)
  then Some PerClientObligationLimit
  else if MAX_SYNCHRONIZED_CACHED_COMMITS_TOTAL <? new_total_entries then Some TotalEntryLimit
  else if MAX_SYNCHRONIZED_CACHED_OBLIGATIONS_TOTAL <? new_total_obligations
  then Some TotalObligationLimit
  else None.

Definition can_merge (role : SubsurfaceRoleState) (commit : CachedSubsurfaceCommit) : bool :=
  match last (cached_commits role) with
  | Some tail => negb (merge_frozen (lineage tail)) && negb (is_boundary (pacing tail))
                 && negb (is_boundary (pacing commit))
  | None => false
  end.

(** The tail of the cache merged with a newer commit. *)
Definition merge_tail (l : list CachedSubsurfaceCommit) (commit : CachedSubsurfaceCommit)
  : res unit (list CachedSubsurfaceCommit * option PendingSurfaceBuffer * list Token) :=
  match last l with
  | Some tail =>
      let '(tail, superseded, discarded) := merge tail commit in
      Ret (take (length l - 1) l ++ [tail], superseded, discarded)
  | None => Panic
  end.

Definition cache_commit (surface_id : Z) (commit : CachedSubsurfaceCommit) (s : CacheState)
  : res unit (CacheState * CacheCommitOutcome) :=
  let reject reason := Ret (s, Rejected commit reason) in
  let a := accounts s in
  match roles s !! surface_id with
  | None => reject MissingRole
  | Some role =>
      let old_entries := zlength (cached_commits role) in
      let old_obligations := default 0 (obligations_per_surface a !! surface_id) in
      let merging := can_merge role commit in
      match (if merging then Some old_entries else checked_add usize_max old_entries 1) with
      | None => reject AccountingInvariant
      | Some new_entries =>
          count ←
            (if merging
             then tail ← expect (last (cached_commits role));
                  n ← merged_cached_obligation_count tail commit; Ret (Some n)
             else n ← cached_obligation_count commit;
                  Ret (checked_add usize_max old_obligations n));
          match count with
          | None => reject AccountingInvariant
          | Some new_obligations =>
              match checked_replace_cached_count (entries_total a) old_entries new_entries,
                    checked_replace_cached_count (obligations_total a) old_obligations
                      new_obligations,
                    match client_id role with
                    | Some c =>
                        e ← checked_replace_cached_count (default 0 (entries_per_client a !! c))
                              old_entries new_entries;
                        o ← checked_replace_cached_count
                              (default 0 (obligations_per_client a !! c)) old_obligations
                              new_obligations;
                        Some (e, o)
                    | None => Some (0, 0)
                    end with
              | Some new_total_entries, Some new_total_obligations,
                Some (new_client_entries, new_client_obligations) =>
                  match admission_failure (client_id role) new_entries new_obligations
                          new_client_entries new_client_obligations new_total_entries
                          new_total_obligations with
                  | Some reason => reject reason
                  | None =>
                      '(commits, outcome) ←
                        (if merging
                         then '(l, superseded, discarded) ← merge_tail (cached_commits role) commit;
                              Ret (l, Merged superseded discarded)
                         else Ret (cached_commits role ++ [commit], Inserted));
                      s ← recount surface_id (client_id role) old_entries new_entries
                            old_obligations new_obligations
                            (set_roles (<[surface_id := set_commits commits role]> (roles s)) s);
                      Ret (s, outcome)
                  end
              | _, _, _ => reject AccountingInvariant
              end
          end
      end
  end.

Definition take_cached_commits_for_surface (surface_id : Z) (s : CacheState)
  : res unit (CacheState * list CachedSubsurfaceCommit) :=
  match roles s !! surface_id with
  | None => Ret (s, [])
  | Some role =>
      let old_obligations := default 0 (obligations_per_surface (accounts s) !! surface_id) in
      s ← recount surface_id (client_id role) (zlength (cached_commits role)) 0 old_obligations 0
            (set_roles (<[surface_id := set_commits [] role]> (roles s)) s);
      Ret (s, cached_commits role)
  end.

(** [position(commit.content_update_ref(..) == reference)]. *)
Fixpoint ref_position (reference : ContentUpdateRef) (l : list CachedSubsurfaceCommit)
  : option nat :=
  match l with
  | [] => None
  | c :: l =>
      if decide (content_update_ref c (ref_surface_id reference) = reference) then Some 0%nat
      else S <$> ref_position reference l
  end.

Definition take_cached_commits_through (reference : ContentUpdateRef) (s : CacheState)
  : res unit (CacheState * option (list CachedSubsurfaceCommit)) :=
  match roles s !! ref_surface_id reference with
  | None => Ret (s, None)
  | Some role =>
      match ref_position reference (cached_commits role) with
      | None => Ret (s, None)
      | Some target_index =>
          let surface_id := ref_surface_id reference in
          let old_obligations := default 0 (obligations_per_surface (accounts s) !! surface_id) in
          let selected := take (S target_index) (cached_commits role) in
          let remaining := drop (S target_index) (cached_commits role) in
          new_obligations ← sum_obligations remaining;
          s ← recount surface_id (client_id role) (zlength (cached_commits role))
                (zlength remaining) old_obligations new_obligations
                (set_roles (<[surface_id := set_commits remaining role]> (roles s)) s);
          Ret (s, Some selected)
      end
  end.
Definition oldest_cached_content_update_ref (surface_id : Z) (s : CacheState)
  : option ContentUpdateRef :=
  role ← roles s !! surface_id;
  c ← head (cached_commits role);
  Some (content_update_ref c surface_id).

(** ** Operations that walk the role map *)

Definition rel_le (a b : CapturedSubsurfaceRelationship) : Prop :=
  rel_relationship_id a <= rel_relationship_id b.
Definition pos_le (a b : CapturedSubsurfacePosition) : Prop :=
  rel_le (pos_relationship a) (pos_relationship b).
#[export] Instance rel_le_dec : RelDecision rel_le.
Proof. unfold rel_le. intros a b. apply _. Defined.
#[export] Instance pos_le_dec : RelDecision pos_le.
Proof. unfold pos_le. intros a b. apply _. Defined.

(** The state half of [capture_direct_child_dependencies]: freeze a commit. *)
Definition freeze (c : CachedSubsurfaceCommit) : CachedSubsurfaceCommit :=
  mkCommit (commit_id c) (commit_sequence c)
    (mkLineage (predecessor (lineage c)) (child_dependencies (lineage c)) true)
    (attachment c) (damage c) (frame_callbacks c) (explicit_sync c) (offset c)
    (viewport_destination c) (viewport_error_owner c) (buffer_scale c) (buffer_transform c)
    (opaque_region c) (input_region c) (background_effect c) (background_effect_coverage c)
    (presentation_feedbacks c) (resize_commit c) (resize_capture_finalized c) (window_geometry c)
    (cached_at c) (pacing c) (presentation c) (pointer_constraint_state c) (commit_context c).
(** One child: its newest cached commit is frozen and referenced, unless it
    already was. *)
Definition capture_child (m : gmap Z SubsurfaceRoleState) (child_id : Z)
  : gmap Z SubsurfaceRoleState * option ContentUpdateRef :=
  match m !! child_id with
  | None => (m, None)
  | Some role =>
      match last (cached_commits role) with
      | None => (m, None)
      | Some c =>
          if merge_frozen (lineage c) then (m, None)
          else
            let l := take (length (cached_commits role) - 1) (cached_commits role) ++ [freeze c] in
            (<[child_id := set_commits l role]> m, Some (content_update_ref c child_id))
      end
  end.
Fixpoint capture_children (m : gmap Z SubsurfaceRoleState) (ids : list Z)
  : gmap Z SubsurfaceRoleState * list ContentUpdateRef :=
  match ids with
  | [] => (m, [])
  | id :: ids =>
      let '(m, r) := capture_child m id in
      let '(m, rs) := capture_children m ids in
      (m, option_list r ++ rs)
  end.

Section Walks.
Context `{Order : HashOrder}.
Implicit Types (s : CacheState) (m : gmap Z SubsurfaceRoleState).

Definition has_parent (m : gmap Z SubsurfaceRoleState) (parent id : Z) : bool :=
  match m !! id with Some role => parent_id role =? parent | None => false end.
Definition children_of (m : gmap Z SubsurfaceRoleState) (parent : Z) : list Z :=
  List.filter (has_parent m parent) (hash_keys m).

Definition applied_children_of (parent : Z) (s : CacheState) : list Z :=
  List.filter (fun id => match roles s !! id with
                         | Some role => (parent_id role =? parent)
                                        && bool_decide (relationship_phase role = Applied)
                         | None => false
                         end) (hash_keys (roles s)).

Definition latches (parent : Z) (role : SubsurfaceRoleState) : bool :=
  (parent_id role =? parent) && bool_decide (relationship_phase role = PendingParentCommit).
Definition take_pending_relationship_activations_for_parent (parent : Z) (s : CacheState)
  : CacheState * list CapturedSubsurfaceRelationship :=
  let captured :=
    omap (fun id => role ← roles s !! id;
                    if latches parent role then Some (captured_of id role) else None)
      (hash_keys (roles s)) in
  (set_roles ((fun role => if latches parent role then set_phase Latched role else role)
                <$> roles s) s,
   merge_sort rel_le captured).

Definition take_pending_positions_for_parent (parent : Z) (s : CacheState)
  : CacheState * list CapturedSubsurfacePosition :=
  let captured :=
    omap (fun id => role ← roles s !! id;
                    if parent_id role =? parent
                    then '(x, y) ← pending_position role;
                         Some (mkPosition (captured_of id role) x y)
                    else None) (hash_keys (roles s)) in
  (set_roles ((fun role => if parent_id role =? parent then set_position None role else role)
                <$> roles s) s,
   merge_sort pos_le captured).

Definition capture_direct_child_dependencies (parent : Z) (s : CacheState)
  : CacheState * list ContentUpdateRef :=
  let '(m, refs) := capture_children (roles s) (merge_sort Z.le (children_of (roles s) parent)) in
  (set_roles m s, refs).

Definition capture_subsurface_stack (parent : Z) (l : list Z) (s : CacheState)
  : list CapturedSubsurfaceStackEntry :=
  omap (fun id =>
          if id =? parent then Some StackParent
          else r ← captured_relationship id s;
               if rel_parent_id r =? parent then Some (StackChild r) else None) l.

(** [while let Some(id) = pending.pop()]: the stack is a list with its top
    first, so the children pushed last come first. *)
Fixpoint remove_subtree_loop (fuel : nat) (pending : list Z) (s : CacheState)
  (removed : list CachedSubsurfaceCommit)
  : res unit (CacheState * list CachedSubsurfaceCommit) :=
  match pending with
  | [] => Ret (s, removed)
  | id :: pending =>
      match fuel with
      | O => NoFuel
      | S fuel =>
          let pending := rev (children_of (roles s) id) ++ pending in
          match roles s !! id with
          | None => remove_subtree_loop fuel pending s removed
          | Some role =>
              cached_obligations ← sum_obligations (cached_commits role);
              s ← recount id (client_id role) (zlength (cached_commits role)) 0
                    cached_obligations 0 (set_roles (delete id (roles s)) s);
              remove_subtree_loop fuel pending s (removed ++ cached_commits role)
          end
      end
  end.
Definition remove_subtree (surface_id : Z) (s : CacheState)
  : res unit (CacheState * list CachedSubsurfaceCommit) :=
  remove_subtree_loop (S (size (roles s))) [surface_id] s [].

Fixpoint drain_surfaces (ids : list Z) (s : CacheState) (commits : list CachedSubsurfaceCommit)
  : res unit (CacheState * list CachedSubsurfaceCommit) :=
  match ids with
  | [] => Ret (s, commits)
  | id :: ids =>
      '(s, taken) ← take_cached_commits_for_surface id s;
      drain_surfaces ids s (commits ++ taken)
  end.
Definition drain_cached_commits (s : CacheState)
  : res unit (CacheState * list CachedSubsurfaceCommit) :=
  drain_surfaces (hash_keys (roles s)) s [].

Fixpoint maximum_depths (ids : list Z) (m : gmap Z SubsurfaceRoleState) : res unit Z :=
  match ids with
  | [] => Ret 0
  | id :: ids =>
      d ← depth_from (size m) m 1 id;
      rest ← maximum_depths ids m;
      Ret (Z.max d rest)
  end.
Definition maximum_depth (s : CacheState) : res unit Z :=
  maximum_depths (hash_keys (roles s)) (roles s).

(** [tree.get(index)], its children appended. *)
Fixpoint tree_loop (fuel : nat) (m : gmap Z SubsurfaceRoleState) (tree : list Z) (index : nat)
  : res unit (list Z) :=
  match tree !! index with
  | None => Ret tree
  | Some parent =>
      match fuel with
      | O => NoFuel
      | S fuel => tree_loop fuel m (tree ++ merge_sort Z.le (children_of m parent)) (S index)
      end
  end.
Definition subsurface_tree_ids (root : Z) (s : CacheState) : res unit (list Z) :=
  tree_loop (S (size (roles s))) (roles s) [root] 0.
End Walks.

(** ** Consistency of the accounts *)

Definition nonzero (n : Z) : option Z := if n =? 0 then None else Some n.
Definition role_entries (r : SubsurfaceRoleState) : Z := zlength (cached_commits r).
Definition commits_obligations (l : list CachedSubsurfaceCommit) : Z :=
  foldr (fun c acc => obligations c + acc) 0 l.
Definition role_obligations (r : SubsurfaceRoleState) : Z := commits_obligations (cached_commits r).
Definition role_node (r : SubsurfaceRoleState) : Z := if role_entries r =? 0 then 0 else 1.

(** The sum of a weight over the roles, and over the roles of one client. *)
Definition total (w : SubsurfaceRoleState -> Z) (m : gmap Z SubsurfaceRoleState) : Z :=
  map_fold (fun _ r acc => w r + acc) 0 m.
Definition of_client (c : Z) (w : SubsurfaceRoleState -> Z) (r : SubsurfaceRoleState) : Z :=
  if decide (client_id r = Some c) then w r else 0.
Definition at_surface (w : SubsurfaceRoleState -> Z) (m : gmap Z SubsurfaceRoleState) (id : Z) : Z :=
  match m !! id with Some r => w r | None => 0 end.

(** [debug_accounting_is_consistent]: the accounts are what a recount of the
    cache gives. *)
Record accounts_consistent (m : gmap Z SubsurfaceRoleState) (a : CacheAccounts) : Prop := {
  ac_entries_total : entries_total a = total role_entries m;
  ac_obligations_total : obligations_total a = total role_obligations m;
  ac_nodes : cached_nodes a = total role_node m;
  ac_entries_surface : forall id,
    entries_per_surface a !! id = nonzero (at_surface role_entries m id);
  ac_obligations_surface : forall id,
    obligations_per_surface a !! id = nonzero (at_surface role_obligations m id);
  ac_entries_client : forall c,
    entries_per_client a !! c = nonzero (total (of_client c role_entries) m);
  ac_obligations_client : forall c,
    obligations_per_client a !! c = nonzero (total (of_client c role_obligations) m)
}.

(** *** Sums over the roles *)

Lemma total_insert w m id r :
  m !! id = None -> total w (<[id := r]> m) = w r + total w m.
Proof.
  intros H. unfold total. rewrite map_fold_insert_L; [done| |done]. intros. lia.
Qed.
Lemma total_delete w m id : total w (delete id m) = total w m - at_surface w m id.
Proof.
  unfold at_surface. destruct (m !! id) as [r|] eqn:E.
  - rewrite <- (insert_delete_id m id r E) at 2. rewrite total_insert by apply lookup_delete_eq. lia.
  - rewrite delete_id by done. lia.
Qed.
Lemma total_replace w m id r :
  total w (<[id := r]> m) = total w m - at_surface w m id + w r.
Proof.
  rewrite <- insert_delete_eq, total_insert by apply lookup_delete_eq. rewrite total_delete. lia.
Qed.

Lemma total_nonneg w m : (forall r, 0 <= w r) -> 0 <= total w m.
Proof.
  intros Hw. induction m as [|id r m E IH] using map_ind; [done|].
  rewrite total_insert by done. specialize (Hw r). lia.
Qed.
Lemma at_surface_le_total w m id : (forall r, 0 <= w r) -> 0 <= at_surface w m id <= total w m.
Proof.
  intros Hw. pose proof (total_delete w m id) as E.
  pose proof (total_nonneg w (delete id m) Hw).
  assert (0 <= at_surface w m id) by (unfold at_surface; destruct (m !! id); [apply Hw|lia]). lia.
Qed.
Lemma total_le w v m : (forall r, w r <= v r) -> total w m <= total v m.
Proof.
  intros Hw. induction m as [|id r m E IH] using map_ind; [done|].
  rewrite !total_insert by done. specialize (Hw r). lia.
Qed.

Lemma role_entries_nonneg r : 0 <= role_entries r.
Proof. unfold role_entries, zlength. lia. Qed.
Lemma commits_obligations_nonneg l : 0 <= commits_obligations l.
Proof.
  unfold commits_obligations. induction l as [|c l IH]; cbn; [lia|].
  pose proof (obligations_nonneg c). lia.
Qed.
Lemma role_obligations_nonneg r : 0 <= role_obligations r.
Proof. apply commits_obligations_nonneg. Qed.
Lemma role_node_le r : 0 <= role_node r <= role_entries r.
Proof. unfold role_node. pose proof (role_entries_nonneg r). zcase; lia. Qed.
Lemma of_client_range c w r : (forall r, 0 <= w r) -> 0 <= of_client c w r <= w r.
Proof. intros Hw. unfold of_client. specialize (Hw r). case_decide; lia. Qed.
#[export] Hint Resolve role_entries_nonneg role_obligations_nonneg : typhon.

Lemma client_total_le c w m :
  (forall r, 0 <= w r) -> 0 <= total (of_client c w) m <= total w m.
Proof.
  intros Hw. split; [apply total_nonneg; intros r|apply total_le; intros r];
    by apply of_client_range.
Qed.

(** *** One surface's cache replaced *)

(** [m'] is [m] with the commits of [id] replaced by [l], or with the role
    gone and nothing cached. *)
Definition recached (id : Z) (role : SubsurfaceRoleState) (l : list CachedSubsurfaceCommit)
  (m m' : gmap Z SubsurfaceRoleState) : Prop :=
  m !! id = Some role /\
  (m' = <[id := set_commits l role]> m \/ (m' = delete id m /\ l = [])).

Lemma recached_total id role l m m' w :
  recached id role l m m' -> w (set_commits [] role) = 0 ->
  total w m' = total w m - w role + w (set_commits l role).
Proof.
  intros [E [->|[-> ->]]] H0; [rewrite total_replace|rewrite total_delete];
    unfold at_surface; rewrite E; lia.
Qed.
Lemma recached_at id role l m m' w j :
  recached id role l m m' -> w (set_commits [] role) = 0 ->
  at_surface w m' j = if decide (j = id) then w (set_commits l role) else at_surface w m j.
Proof.
  intros [E [->|[-> ->]]] H0; unfold at_surface; case_decide as Ej; subst.
  - by rewrite lookup_insert_eq.
  - by rewrite lookup_insert_ne.
  - by rewrite lookup_delete_eq.
  - by rewrite lookup_delete_ne.
Qed.
Lemma of_client_is c w r : client_id r = Some c -> of_client c w r = w r.
Proof. intros E. unfold of_client. by rewrite decide_True. Qed.
Lemma of_client_isnt c w r : client_id r <> Some c -> of_client c w r = 0.
Proof. intros E. unfold of_client. by rewrite decide_False. Qed.
Lemma of_client_commits c w l role :
  of_client c w (set_commits l role)
  = if decide (client_id role = Some c) then w (set_commits l role) else 0.
Proof. done. Qed.

Lemma replace_count_Ret n old new :
  0 <= old <= n -> 0 <= new -> n - old + new <= usize_max ->
  replace_cached_count n old new = Ret (n - old + new).
Proof.
  intros. unfold replace_cached_count, checked_sub, checked_add.
  rewrite checked_in by int_lia. cbn. by rewrite checked_in by int_lia.
Qed.

Lemma replace_map_Ret counts key n old new :
  counts !! key = nonzero n -> 0 <= old <= n -> 0 <= new -> n - old + new <= usize_max ->
  exists counts', replace_cached_map_count counts key old new = Ret counts' /\
    (forall k, counts' !! k = if decide (k = key) then nonzero (n - old + new) else counts !! k).
Proof.
  intros E Ho Hn Hf. unfold replace_cached_map_count. rewrite E.
  replace (default 0 (nonzero n)) with n by (unfold nonzero; zcase; done).
  rewrite replace_count_Ret by done. cbn. eexists. split; [done|]. intros k. unfold nonzero.
  destruct (Z.eqb_spec (n - old + new) 0).
  - case_decide; subst; [apply lookup_delete_eq|by apply lookup_delete_ne].
  - case_decide; subst; [apply lookup_insert_eq|by apply lookup_insert_ne].
Qed.

(** The two counts of one weight (by surface and by client) and its total. *)
Lemma recount_weight w id role l m m' per_surface per_client tot :
  recached id role l m m' -> (forall r, 0 <= w r) -> w (set_commits [] role) = 0 ->
  tot = total w m -> (forall j, per_surface !! j = nonzero (at_surface w m j)) ->
  (forall c, per_client !! c = nonzero (total (of_client c w) m)) ->
  tot - w role + w (set_commits l role) <= usize_max ->
  let new := w (set_commits l role) in
  replace_cached_count tot (w role) new = Ret (total w m') /\
  (exists ps, replace_cached_map_count per_surface id (w role) new = Ret ps /\
     forall j, ps !! j = nonzero (at_surface w m' j)) /\
  (exists pc, match client_id role with
              | Some c => replace_cached_map_count per_client c (w role) new
              | None => Ret per_client
              end = Ret pc /\
     forall c, pc !! c = nonzero (total (of_client c w) m')).
Proof.
  intros Hm Hw H0 -> Hs Hc Hf new. pose proof Hm as [E _].
  pose proof (at_surface_le_total w m id Hw) as Hle. unfold at_surface in Hle. rewrite E in Hle.
  assert (Hnew : 0 <= new) by apply Hw.
  pose proof (recached_total _ _ _ _ _ w Hm H0) as Ht. split_and!.
  - rewrite Ht. by apply replace_count_Ret.
  - destruct (replace_map_Ret per_surface id (w role) (w role) new) as (ps & Eps & Hps);
      [rewrite Hs; unfold at_surface; by rewrite E|lia|lia|lia|].
    exists ps. split; [done|]. intros j. rewrite Hps, (recached_at _ _ _ _ _ w j Hm H0).
    case_decide; [f_equal; lia|apply Hs].
  - assert (Ht' : forall c, total (of_client c w) m' = total (of_client c w) m
        - of_client c w role + of_client c w (set_commits l role)).
    { intros c. apply (recached_total id role l m m'); [done|]. rewrite of_client_commits, H0.
      by case_decide. }
    destruct (client_id role) as [c|] eqn:Ec.
    + pose proof (client_total_le c w m Hw) as Hcl.
      pose proof (at_surface_le_total (of_client c w) m id
        (fun r => proj1 (of_client_range c w r Hw))) as Hle2.
      unfold at_surface in Hle2. rewrite E, (of_client_is c w role Ec) in Hle2.
      destruct (replace_map_Ret per_client c (total (of_client c w) m) (w role) new)
        as (pc & Epc & Hpc); [apply Hc|lia|lia|lia|].
      exists pc. split; [done|]. intros d. rewrite Hpc, Ht'. case_decide as Ed.
      * subst d. by rewrite !of_client_is by done.
      * rewrite !of_client_isnt by (cbn; congruence). rewrite Hc. f_equal. lia.
    + exists per_client. split; [done|]. intros d. rewrite Ht', Hc.
      rewrite !of_client_isnt by (cbn; congruence). f_equal. lia.
Qed.

Lemma accounting_Ret id role l m m' a :
  accounts_consistent m a -> recached id role l m m' ->
  total role_entries m - role_entries role + zlength l <= usize_max ->
  total role_obligations m - role_obligations role + commits_obligations l <= usize_max ->
  exists a', replace_cached_accounting id (client_id role) (role_entries role) (zlength l)
      (role_obligations role) (commits_obligations l) a = Ret a' /\ accounts_consistent m' a'.
Proof.
  intros [H1 H2 H3 H4 H5 H6 H7] Hm Hfe Hfo. unfold replace_cached_accounting.
  destruct (recount_weight role_entries id role l m m' (entries_per_surface a)
    (entries_per_client a) (entries_total a) Hm role_entries_nonneg eq_refl H1 H4 H6)
    as (E1 & (es & E2 & Hes) & (ec & E3 & Hec)); [by rewrite H1|].
  destruct (recount_weight role_obligations id role l m m' (obligations_per_surface a)
    (obligations_per_client a) (obligations_total a) Hm role_obligations_nonneg eq_refl H2 H5 H7)
    as (E4 & (os & E5 & Hos) & (oc & E6 & Hoc)); [by rewrite H2|].
  change (role_entries (set_commits l role)) with (zlength l) in *.
  change (role_obligations (set_commits l role)) with (commits_obligations l) in *.
  rewrite E1, E4, E2, E5, E3, E6. cbn [mbind res_bind].
  assert (Hn : match role_entries role =? 0, zlength l =? 0 with
    | true, false => expect (checked_add usize_max (cached_nodes a) 1)
    | false, true => expect (checked_sub usize_max (cached_nodes a) 1)
    | _, _ => Ret (E := unit) (cached_nodes a)
    end = Ret (total role_node m')).
  { rewrite (recached_total _ _ _ _ _ role_node Hm eq_refl), H3.
    pose proof (at_surface_le_total role_node m id (fun r => proj1 (role_node_le r))) as Hle.
    unfold at_surface in Hle. rewrite (proj1 Hm) in Hle.
    pose proof (total_le role_node role_entries m (fun r => proj2 (role_node_le r))).
    pose proof (role_entries_nonneg role).
    pose proof (total_le role_node role_entries m' (fun r => proj2 (role_node_le r))) as Hle'.
    rewrite (recached_total _ _ _ _ _ role_node Hm eq_refl),
      (recached_total _ _ _ _ _ role_entries Hm eq_refl) in Hle'.
    change (role_entries (set_commits l role)) with (zlength l) in Hle'.
    assert (Hr : role_node role = if role_entries role =? 0 then 0 else 1) by done.
    assert (Hl : role_node (set_commits l role) = if zlength l =? 0 then 0 else 1) by done.
    assert (0 <= zlength l) by (unfold zlength; lia). revert Hr Hl.
    destruct (Z.eqb_spec (role_entries role) 0), (Z.eqb_spec (zlength l) 0); intros Hr Hl;
      unfold checked_add, checked_sub; rewrite ?checked_in by int_lia; cbn [expect]; f_equal; lia. }
  rewrite Hn. cbn [mbind res_bind]. eexists. split; [done|]. by split.
Qed.

(** ** Invariant *)

(** A surface whose chain of parents ends. *)
Inductive rooted (m : gmap Z SubsurfaceRoleState) : Z -> Prop :=
| rooted_root id : m !! id = None -> rooted m id
| rooted_step id r : m !! id = Some r -> rooted m (parent_id r) -> rooted m id.

Record cache_limits (m : gmap Z SubsurfaceRoleState) : Prop := {
  cl_surface : forall id r, m !! id = Some r ->
    role_entries r <= MAX_SYNCHRONIZED_CACHED_COMMITS_PER_SURFACE /\
    role_obligations r <= MAX_SYNCHRONIZED_CACHED_OBLIGATIONS_PER_SURFACE;
  cl_client : forall c,
    total (of_client c role_entries) m <= MAX_SYNCHRONIZED_CACHED_COMMITS_PER_CLIENT /\
    total (of_client c role_obligations) m <= MAX_SYNCHRONIZED_CACHED_OBLIGATIONS_PER_CLIENT;
  cl_total : total role_entries m <= MAX_SYNCHRONIZED_CACHED_COMMITS_TOTAL /\
    total role_obligations m <= MAX_SYNCHRONIZED_CACHED_OBLIGATIONS_TOTAL
}.

(** Relationship identifiers are positive, at most the last one given out,
    and never shared. *)
Definition ids_ok (m : gmap Z SubsurfaceRoleState) (next : Z) : Prop :=
  0 <= next <= u64_max /\
  (forall id r, m !! id = Some r -> 1 <= relationship_id r <= next) /\
  (forall i j r q, m !! i = Some r -> m !! j = Some q ->
     relationship_id r = relationship_id q -> i = j).

Record cache_ok (s : CacheState) : Prop := {
  co_accounts : accounts_consistent (roles s) (accounts s);
  co_limits : cache_limits (roles s);
  co_forest : forall id, rooted (roles s) id;
  co_ids : ids_ok (roles s) (next_relationship_id s)
}.

(** What the invariant reads of a role. *)
Definition view (r : SubsurfaceRoleState) : Z * Z * option Z * Z * Z :=
  (relationship_id r, parent_id r, client_id r, role_entries r, role_obligations r).

Lemma total_view w (f : Z * Z * option Z * Z * Z -> Z) m :
  (forall r, w r = f (view r)) ->
  total w m = map_fold (fun _ v acc => f v + acc) 0 (view <$> m).
Proof.
  intros Hw. induction m as [|id r m E IH] using map_ind; [done|].
  rewrite total_insert, IH, fmap_insert by done.
  rewrite map_fold_insert_L; [by rewrite Hw|intros; lia|by rewrite lookup_fmap, E].
Qed.

Section SameView.
Context (m m' : gmap Z SubsurfaceRoleState) (Hv : view <$> m' = view <$> m).

Lemma same_view_lookup id : view <$> m' !! id = view <$> m !! id.
Proof. rewrite <- !lookup_fmap. by rewrite Hv. Qed.

Lemma same_view_back id r : m' !! id = Some r -> exists q, m !! id = Some q /\ view q = view r.
Proof.
  intros E. pose proof (same_view_lookup id) as H. rewrite E in H.
  destruct (m !! id) as [q|]; [|done]. exists q. split; [done|]. by apply (inj Some) in H.
Qed.

Lemma same_view_total w f : (forall r, w r = f (view r)) -> total w m' = total w m.
Proof. intros Hw. by rewrite !(total_view w f), Hv by done. Qed.

Lemma same_view_at w f id : (forall r, w r = f (view r)) -> at_surface w m' id = at_surface w m id.
Proof.
  intros Hw. unfold at_surface. pose proof (same_view_lookup id) as H.
  destruct (m' !! id) as [r|], (m !! id) as [q|]; try done.
  rewrite !Hw. apply (inj Some) in H. by rewrite H.
Qed.

Lemma same_view_weights :
  (total role_entries m' = total role_entries m /\
   total role_obligations m' = total role_obligations m /\
   total role_node m' = total role_node m) /\
  (forall id, at_surface role_entries m' id = at_surface role_entries m id /\
              at_surface role_obligations m' id = at_surface role_obligations m id) /\
  (forall c, total (of_client c role_entries) m' = total (of_client c role_entries) m /\
             total (of_client c role_obligations) m' = total (of_client c role_obligations) m).
Proof.
  set (fe := fun v : Z * Z * option Z * Z * Z => snd (fst v)). set (fo := fun v : Z * Z * option Z * Z * Z => snd v).
  split_and!.
  - by apply (same_view_total _ fe).
  - by apply (same_view_total _ fo).
  - by apply (same_view_total _ (fun v => if fe v =? 0 then 0 else 1)).
  - intros id. split; [by apply (same_view_at _ fe)|by apply (same_view_at _ fo)].
  - intros c. split.
    + by apply (same_view_total _
        (fun v => if decide (snd (fst (fst v)) = Some c) then fe v else 0)).
    + by apply (same_view_total _
        (fun v => if decide (snd (fst (fst v)) = Some c) then fo v else 0)).
Qed.

Lemma same_view_rooted id : rooted m id -> rooted m' id.
Proof.
  induction 1 as [id E|id r E _ IH].
  - apply rooted_root. pose proof (same_view_lookup id) as H. rewrite E in H.
    by destruct (m' !! id).
  - pose proof (same_view_lookup id) as H. rewrite E in H.
    destruct (m' !! id) as [q|] eqn:Eq; [|done].
    apply (rooted_step m' id q Eq). apply (inj Some) in H.
    replace (parent_id q) with (parent_id r); [done|]. unfold view in H. congruence.
Qed.
End SameView.

Lemma same_view_ok s m' :
  cache_ok s -> view <$> m' = view <$> roles s -> cache_ok (set_roles m' s).
Proof.
  intros [[A1 A2 A3 A4 A5 A6 A7] [L1 L2 L3] F (I1 & I2 & I3)] Hv.
  destruct (same_view_weights _ _ Hv) as ((W1 & W2 & W3) & W4 & W5).
  assert (Hback := same_view_back _ _ Hv).
  split; cbn [roles accounts set_roles next_relationship_id].
  - split; [by rewrite W1|by rewrite W2|by rewrite W3|..]; intros id.
    + by rewrite (proj1 (W4 id)).
    + by rewrite (proj2 (W4 id)).
    + by rewrite (proj1 (W5 id)).
    + by rewrite (proj2 (W5 id)).
  - split; [|intros c; by rewrite (proj1 (W5 c)), (proj2 (W5 c))|by rewrite W1, W2].
    intros id r E. destruct (Hback _ _ E) as (q & Eq & Vq). specialize (L1 _ _ Eq).
    unfold view in Vq. injection Vq as _ _ _ V1 V2. by rewrite V1, V2 in L1.
  - intros id. by apply (same_view_rooted (roles s)).
  - split_and!; [lia|lia|..].
    + intros id r E. destruct (Hback _ _ E) as (q & Eq & Vq). specialize (I2 _ _ Eq).
      unfold view in Vq. injection Vq as V _ _ _ _. by rewrite V in I2.
    + intros i j r q Ei Ej E. destruct (Hback _ _ Ei) as (r' & Er & Vr).
      destruct (Hback _ _ Ej) as (q' & Eq & Vq). apply (I3 i j r' q' Er Eq).
      unfold view in *. congruence.
Qed.

Lemma rooted_recached id role l m m' j : recached id role l m m' -> rooted m j -> rooted m' j.
Proof.
  intros [E Hm]. induction 1 as [j Ej|j r Ej _ IH].
  - apply rooted_root. destruct Hm as [->|[-> _]].
    + rewrite lookup_insert_ne; [done|congruence].
    + destruct (decide (id = j)) as [->|]; [apply lookup_delete_eq|by rewrite lookup_delete_ne].
  - destruct (decide (j = id)) as [->|Hne].
    + rewrite E in Ej. injection Ej as <-. destruct Hm as [->|[-> _]].
      * eapply rooted_step; [apply lookup_insert_eq|done].
      * apply rooted_root, lookup_delete_eq.
    + eapply rooted_step; [|done]. destruct Hm as [->|[-> _]];
        [by rewrite lookup_insert_ne|by rewrite lookup_delete_ne].
Qed.

Lemma recached_lookup id role l m m' j r :
  recached id role l m m' -> m' !! j = Some r ->
  exists q, m !! j = Some q /\ relationship_id r = relationship_id q /\
    ((j = id /\ r = set_commits l role) \/ r = q).
Proof.
  intros [E Hm] Er. destruct (decide (j = id)) as [->|Hne].
  - destruct Hm as [->|[-> _]]; [|by rewrite lookup_delete_eq in Er].
    rewrite lookup_insert_eq in Er. injection Er as <-. exists role. auto.
  - exists r. destruct Hm as [->|[-> _]];
      [rewrite lookup_insert_ne in Er by done|rewrite lookup_delete_ne in Er by done]; auto.
Qed.

Lemma recached_limits id role l m m' :
  cache_limits m -> recached id role l m m' -> zlength l <= role_entries role ->
  commits_obligations l <= role_obligations role -> cache_limits m'.
Proof.
  intros [L1 L2 L3] Hm He Ho. pose proof (L1 _ _ (proj1 Hm)) as [L4 L5]. split.
  - intros j r E. destruct (recached_lookup _ _ _ _ _ _ _ Hm E) as (q & Eq & _ & [[-> ->]| ->]).
    + change (role_entries (set_commits l role)) with (zlength l).
      change (role_obligations (set_commits l role)) with (commits_obligations l). lia.
    + by apply (L1 j).
  - intros c. specialize (L2 c).
    rewrite !(recached_total id role l m m' _ Hm) by (by rewrite of_client_commits; case_decide).
    rewrite !of_client_commits. unfold of_client at 2 4.
    change (role_entries (set_commits l role)) with (zlength l).
    change (role_obligations (set_commits l role)) with (commits_obligations l).
    case_decide; lia.
  - rewrite !(recached_total id role l m m' _ Hm) by done.
    change (role_entries (set_commits l role)) with (zlength l).
    change (role_obligations (set_commits l role)) with (commits_obligations l). lia.
Qed.

Lemma zlength_nonneg {A} (l : list A) : 0 <= zlength l.
Proof. unfold zlength. lia. Qed.

(** One surface's cache replaced within the limits: the recount does not
    panic and keeps the invariant. *)
Lemma recount_ok id role l m' s :
  cache_ok s -> recached id role l (roles s) m' -> cache_limits m' ->
  exists s', recount id (client_id role) (role_entries role) (zlength l) (role_obligations role)
      (commits_obligations l) (set_roles m' s) = Ret s' /\ roles s' = m' /\ cache_ok s'.
Proof.
  intros [A L F (I1 & I2 & I3)] Hm L'. pose proof (cl_total m' L') as [L1 L2].
  rewrite (recached_total id role l (roles s) m' _ Hm) in L1 by done.
  rewrite (recached_total id role l (roles s) m' _ Hm) in L2 by done.
  change (role_entries (set_commits l role)) with (zlength l) in L1.
  change (role_obligations (set_commits l role)) with (commits_obligations l) in L2.
  destruct (accounting_Ret id role l (roles s) m' (accounts s) A Hm) as (a' & Ea & Ha).
  { unfold MAX_SYNCHRONIZED_CACHED_COMMITS_TOTAL, usize_max in *. int_lia. }
  { unfold MAX_SYNCHRONIZED_CACHED_OBLIGATIONS_TOTAL, usize_max in *. int_lia. }
  unfold recount. cbn [accounts set_roles]. rewrite Ea. eexists. split; [done|]. split; [done|].
  split; cbn; [done|done|intros j; by eapply rooted_recached|]. split; [done|]. split.
  - intros j r E. destruct (recached_lookup _ _ _ _ _ _ _ Hm E) as (q & Eq & -> & _). eauto.
  - intros i j r q Ei Ej E.
    destruct (recached_lookup _ _ _ _ _ _ _ Hm Ei) as (r' & Er & Rr & _).
    destruct (recached_lookup _ _ _ _ _ _ _ Hm Ej) as (q' & Eq & Rq & _).
    apply (I3 i j r' q' Er Eq). congruence.
Qed.

Lemma shrink_ok id role l m' s :
  cache_ok s -> recached id role l (roles s) m' -> zlength l <= role_entries role ->
  commits_obligations l <= role_obligations role ->
  exists s', recount id (client_id role) (role_entries role) (zlength l) (role_obligations role)
      (commits_obligations l) (set_roles m' s) = Ret s' /\ roles s' = m' /\ cache_ok s'.
Proof.
  intros H Hm He Ho. apply recount_ok; [done|done|].
  eapply recached_limits; [apply H|done|done|done].
Qed.

Lemma sum_obligations_Ret l :
  commits_obligations l <= usize_max -> sum_obligations l = Ret (commits_obligations l).
Proof.
  induction l as [|c l IH]; intros H; cbn [sum_obligations]; [done|].
  unfold commits_obligations in *. cbn [foldr] in *.
  pose proof (obligations_nonneg c). pose proof (commits_obligations_nonneg l) as Hl.
  unfold commits_obligations in Hl. rewrite cached_obligation_count_eq.
  destruct (Z.leb_spec (obligations c) usize_max); [|lia]. cbn [mbind res_bind].
  rewrite IH by lia. cbn [mbind res_bind]. unfold checked_add. by rewrite checked_in by lia.
Qed.

Lemma role_obligations_fit s id role :
  cache_ok s -> roles s !! id = Some role -> role_obligations role <= usize_max.
Proof.
  intros H E. pose proof (proj2 (cl_surface _ (co_limits s H) id role E)).
  unfold MAX_SYNCHRONIZED_CACHED_OBLIGATIONS_PER_SURFACE, usize_max in *. int_lia.
Qed.
Lemma recorded_obligations s id role :
  cache_ok s -> roles s !! id = Some role ->
  default 0 (obligations_per_surface (accounts s) !! id) = role_obligations role.
Proof.
  intros H E. rewrite (ac_obligations_surface _ _ (co_accounts s H)). unfold at_surface.
  rewrite E. unfold nonzero. by zcase.
Qed.

(** *** The operations that give commits back *)

Lemma detach_role_ok id s :
  cache_ok s ->
  exists s', detach_role id s = Ret (s', (fun r => mkDetached (captured_of id r) (client_id r)
                                            (cached_commits r)) <$> roles s !! id) /\
    roles s' = delete id (roles s) /\ cache_ok s'.
Proof.
  intros H. unfold detach_role. destruct (roles s !! id) as [role|] eqn:E; cbn [fmap option_fmap option_map].
  - rewrite sum_obligations_Ret by by apply (role_obligations_fit s id). cbn [mbind res_bind].
    destruct (shrink_ok id role [] (delete id (roles s)) s H) as (s' & Es & Er & Hs);
      [split; [done|by right]|apply role_entries_nonneg|apply role_obligations_nonneg|].
    change (zlength (@nil CachedSubsurfaceCommit)) with 0 in Es.
    change (commits_obligations []) with 0 in Es.
    change (zlength (cached_commits role)) with (role_entries role).
    change (commits_obligations (cached_commits role)) with (role_obligations role).
    rewrite Es. cbn [mbind res_bind]. eauto.
  - exists s. by rewrite delete_id.
Qed.

Lemma take_all_ok id s :
  cache_ok s ->
  exists s', take_cached_commits_for_surface id s
             = Ret (s', match roles s !! id with Some r => cached_commits r | None => [] end) /\
    roles s' = alter (set_commits []) id (roles s) /\ cache_ok s'.
Proof.
  intros H. unfold take_cached_commits_for_surface. destruct (roles s !! id) as [role|] eqn:E.
  - rewrite (recorded_obligations s id role H E).
    destruct (shrink_ok id role [] (<[id := set_commits [] role]> (roles s)) s H)
      as (s' & Es & Er & Hs);
      [split; [done|by left]|apply role_entries_nonneg|apply role_obligations_nonneg|].
    change (zlength (@nil CachedSubsurfaceCommit)) with 0 in Es.
    change (commits_obligations []) with 0 in Es.
    change (zlength (cached_commits role)) with (role_entries role).
    rewrite Es. cbn [mbind res_bind]. exists s'. split; [done|]. split; [|done].
    rewrite Er. apply map_eq. intros j. destruct (decide (j = id)) as [->|Hne].
    + by rewrite lookup_insert_eq, lookup_alter_eq, E.
    + by rewrite lookup_insert_ne, lookup_alter_ne.
  - exists s. split; [done|]. split; [|done]. symmetry. apply map_eq. intros j.
    destruct (decide (j = id)) as [->|Hne].
    + by rewrite lookup_alter_eq, E.
    + by rewrite lookup_alter_ne.
Qed.

Lemma commits_obligations_app l k :
  commits_obligations (l ++ k) = commits_obligations l + commits_obligations k.
Proof.
  unfold commits_obligations. induction l as [|c l IH]; cbn; [done|]. rewrite IH. lia.
Qed.

Lemma take_through_ok reference s :
  cache_ok s ->
  exists s' out, take_cached_commits_through reference s = Ret (s', out) /\ cache_ok s' /\
    match out with
    | None => s' = s
    | Some selected => exists role rest,
        roles s !! ref_surface_id reference = Some role /\
        cached_commits role = selected ++ rest /\
        roles s' = <[ref_surface_id reference := set_commits rest role]> (roles s)
    end.
Proof.
  intros H. unfold take_cached_commits_through. set (id := ref_surface_id reference).
  destruct (roles s !! id) as [role|] eqn:E; [|eauto 10].
  destruct (ref_position reference (cached_commits role)) as [k|]; [|eauto 10].
  set (rest := drop (S k) (cached_commits role)).
  assert (Hsplit : cached_commits role = take (S k) (cached_commits role) ++ rest)
    by (symmetry; apply take_drop).
  assert (Ho : commits_obligations rest <= role_obligations role).
  { unfold role_obligations. rewrite Hsplit, commits_obligations_app.
    pose proof (commits_obligations_nonneg (take (S k) (cached_commits role))). lia. }
  assert (He : zlength rest <= role_entries role).
  { unfold role_entries, zlength, rest. rewrite length_drop. lia. }
  rewrite sum_obligations_Ret by (pose proof (role_obligations_fit s id role H E); lia).
  cbn [mbind res_bind]. rewrite (recorded_obligations s id role H E).
  change (zlength (cached_commits role)) with (role_entries role).
  destruct (shrink_ok id role rest (<[id := set_commits rest role]> (roles s)) s H)
    as (s' & Es & Er & Hs); [split; [done|by left]|done|done|].
  rewrite Es. cbn [mbind res_bind]. eexists _, _. split; [done|]. split; [done|]. eauto 10.
Qed.

(** *** Admission *)

(** A merge into the tail of a cache whose earlier entries hold obligations:
    [cache_commit] then records the obligations of the tail alone. *)
Definition merge_drifts (surface_id : Z) (commit : CachedSubsurfaceCommit) (s : CacheState) : bool :=
  match roles s !! surface_id with
  | Some role =>
      can_merge role commit
      && negb (commits_obligations
                 (take (length (cached_commits role) - 1) (cached_commits role)) =? 0)
  | None => false
  end.

Lemma last_split {A} (l : list A) x : last l = Some x -> l = take (length l - 1) l ++ [x].
Proof.
  intros H. apply last_Some in H as [k ->]. rewrite length_app. cbn [length].
  replace (length k + 1 - 1)%nat with (length k) by lia.
  by rewrite take_app_length.
Qed.

Lemma merged_obligations_le c newer :
  obligations (merged c newer) <= obligations c + obligations newer.
Proof.
  rewrite merged_obligations. unfold obligations.
  pose proof (sync_obligations_range (explicit_sync c)).
  pose proof (sync_obligations_range (explicit_sync newer)).
  pose proof (attachment_obligations_nonneg (attachment c)).
  destruct (attachment newer), (explicit_sync newer) eqn:?; cbn [or_newer is_some orb] in *;
    rewrite ?Heqo in *; pose proof (attachment_obligations_nonneg (attachment newer)); cbn in *; lia.
Qed.

(** The cache an admitted commit leaves. *)
Definition admitted (role : SubsurfaceRoleState) (commit : CachedSubsurfaceCommit)
  : list CachedSubsurfaceCommit :=
  match last (cached_commits role) with
  | Some tail =>
      if can_merge role commit
      then take (length (cached_commits role) - 1) (cached_commits role) ++ [merged tail commit]
      else cached_commits role ++ [commit]
  | None => cached_commits role ++ [commit]
  end.

Lemma checked_replace_Some current old new n :
  checked_replace_cached_count current old new = Some n ->
  n = current - old + new /\ old <= current /\ n <= usize_max.
Proof.
  unfold checked_replace_cached_count, checked_sub, checked_add. intros E.
  apply bind_Some in E as (c & E1 & E2). apply checked_Some in E1 as [-> ?].
  apply checked_Some in E2 as [-> ?]. lia.
Qed.

Lemma recorded_client s c :
  cache_ok s -> default 0 (entries_per_client (accounts s) !! c)
                = total (of_client c role_entries) (roles s) /\
  default 0 (obligations_per_client (accounts s) !! c)
  = total (of_client c role_obligations) (roles s).
Proof.
  intros H. rewrite (ac_entries_client _ _ (co_accounts s H)),
    (ac_obligations_client _ _ (co_accounts s H)). unfold nonzero. split; by zcase.
Qed.

Lemma admission_limits id role l m m' e o ce co te to :
  cache_limits m -> recached id role l m m' ->
  admission_failure (client_id role) e o ce co te to = None ->
  e = zlength l -> o = commits_obligations l ->
  te = total role_entries m - role_entries role + e ->
  to = total role_obligations m - role_obligations role + o ->
  (forall c, client_id role = Some c ->
     ce = total (of_client c role_entries) m - role_entries role + e /\
     co = total (of_client c role_obligations) m - role_obligations role + o) ->
  cache_limits m'.
Proof.
  intros [L1 L2 L3] Hm Hf -> -> -> -> Hc. unfold admission_failure in Hf.
  repeat match type of Hf with (if ?b then _ else _) = None => destruct b eqn:?; [discriminate|] end.
  split.
  - intros j r E. destruct (recached_lookup _ _ _ _ _ _ _ Hm E) as (q & Eq & _ & [[-> ->]| ->]).
    + change (role_entries (set_commits l role)) with (zlength l).
      change (role_obligations (set_commits l role)) with (commits_obligations l). lia.
    + by apply (L1 j).
  - intros c. specialize (L2 c).
    rewrite !(recached_total id role l m m' _ Hm) by (by rewrite of_client_commits; case_decide).
    rewrite !of_client_commits. unfold of_client at 2 4.
    change (role_entries (set_commits l role)) with (zlength l).
    change (role_obligations (set_commits l role)) with (commits_obligations l).
    case_decide as Ec; [|lia]. destruct (Hc c Ec) as [E1 E2]. rewrite Ec in *. cbn in *. lia.
  - rewrite !(recached_total id role l m m' _ Hm) by done.
    change (role_entries (set_commits l role)) with (zlength l).
    change (role_obligations (set_commits l role)) with (commits_obligations l). lia.
Qed.

(** The second half of [cache_commit], once the new counts are known. *)
Lemma admit_tail id role l outcome commit s :
  cache_ok s -> roles s !! id = Some role ->
  let a := accounts s in
  exists s' out,
    match checked_replace_cached_count (entries_total a) (role_entries role) (zlength l),
          checked_replace_cached_count (obligations_total a) (role_obligations role)
            (commits_obligations l),
          match client_id role with
          | Some c =>
              e ← checked_replace_cached_count (default 0 (entries_per_client a !! c))
                    (role_entries role) (zlength l);
              o ← checked_replace_cached_count (default 0 (obligations_per_client a !! c))
                    (role_obligations role) (commits_obligations l);
              Some (e, o)
          | None => Some (0, 0)
          end with
    | Some te, Some to, Some (ce, co) =>
        match admission_failure (client_id role) (zlength l) (commits_obligations l) ce co te to with
        | Some reason => Ret (s, Rejected commit reason)
        | None =>
            s ← recount id (client_id role) (role_entries role) (zlength l)
                  (role_obligations role) (commits_obligations l)
                  (set_roles (<[id := set_commits l role]> (roles s)) s);
            Ret (s, outcome)
        end
    | _, _, _ => Ret (s, Rejected commit AccountingInvariant)
    end = Ret (s', out) /\ cache_ok s' /\
    ((out = outcome /\ roles s' = <[id := set_commits l role]> (roles s)) \/
     (s' = s /\ exists reason, out = Rejected commit reason)).
Proof.
  intros H E a.
  destruct (checked_replace_cached_count (entries_total a) _ _) as [te|] eqn:E1; [|eauto 10].
  destruct (checked_replace_cached_count (obligations_total a) _ _) as [to|] eqn:E2; [|eauto 10].
  destruct (match client_id role with Some c => _ | None => Some (0, 0) end)
    as [[ce co]|] eqn:E3; [|eauto 10].
  destruct (admission_failure _ _ _ _ _ _ _) as [reason|] eqn:E4; [eauto 10|].
  apply checked_replace_Some in E1 as (-> & _ & _). apply checked_replace_Some in E2 as (-> & _ & _).
  assert (Hm : recached id role l (roles s) (<[id := set_commits l role]> (roles s)))
    by (split; [done|by left]).
  destruct (recount_ok id role l _ s H Hm) as (s' & Es & Er & Hs).
  - eapply admission_limits; [apply H|exact Hm|exact E4|done|done|..].
    + by rewrite <- (ac_entries_total _ _ (co_accounts s H)).
    + by rewrite <- (ac_obligations_total _ _ (co_accounts s H)).
    + intros c Ec. rewrite Ec in E3. apply bind_Some in E3 as (e & E3 & E5).
      apply bind_Some in E5 as (o & E5 & [= -> ->]).
      apply checked_replace_Some in E3 as (-> & _ & _).
      apply checked_replace_Some in E5 as (-> & _ & _).
      destruct (recorded_client s c H) as [R1 R2]. subst a. by rewrite R1, R2.
  - rewrite Es. cbn [mbind res_bind]. eauto 10.
Qed.

Lemma cache_commit_spec id commit s :
  cache_ok s -> obligations commit <= usize_max - 65536 -> merge_drifts id commit s = false ->
  exists s' out, cache_commit id commit s = Ret (s', out) /\ cache_ok s' /\
    match out with
    | Rejected c _ => c = commit /\ s' = s
    | Inserted => exists role, roles s !! id = Some role /\ can_merge role commit = false /\
        roles s' = <[id := set_commits (cached_commits role ++ [commit]) role]> (roles s)
    | Merged superseded discarded => exists role tail front,
        roles s !! id = Some role /\ cached_commits role = front ++ [tail] /\
        can_merge role commit = true /\
        merge tail commit = (merged tail commit, superseded, discarded) /\
        roles s' = <[id := set_commits (front ++ [merged tail commit]) role]> (roles s)
    end.
Proof.
  intros H Hfit Hd. unfold cache_commit. destruct (roles s !! id) as [role|] eqn:E; [|eauto 10].
  rewrite (recorded_obligations s id role H E).
  change (zlength (cached_commits role)) with (role_entries role).
  pose proof (cl_surface _ (co_limits s H) id role E) as [L1 L2].
  unfold MAX_SYNCHRONIZED_CACHED_COMMITS_PER_SURFACE,
    MAX_SYNCHRONIZED_CACHED_OBLIGATIONS_PER_SURFACE in L1, L2.
  unfold merge_drifts in Hd. rewrite E in Hd.
  destruct (can_merge role commit) eqn:Em.
  - pose proof Em as Em'. unfold can_merge in Em'.
    destruct (last (cached_commits role)) as [tail|] eqn:El; [clear Em'|discriminate].
    pose proof (last_split _ _ El) as Hsplit.
    set (front := take (length (cached_commits role) - 1) (cached_commits role)) in *.
    cbn [andb] in Hd. apply negb_false_iff, Z.eqb_eq in Hd.
    assert (Ho : role_obligations role = obligations tail).
    { unfold role_obligations. rewrite Hsplit, commits_obligations_app, Hd.
      unfold commits_obligations. cbn. lia. }
    pose proof (merged_obligations_le tail commit) as Hmle.
    cbn [expect mbind res_bind].
    rewrite merged_count_is_count_of_merge, cached_obligation_count_eq.
    destruct (Z.leb_spec (obligations (merged tail commit)) usize_max); [|lia].
    cbn [mbind res_bind].
    set (l := front ++ [merged tail commit]).
    assert (Hl1 : role_entries role = zlength l).
    { unfold role_entries, zlength, l. rewrite Hsplit, !length_app. done. }
    assert (Hl2 : obligations (merged tail commit) = commits_obligations l).
    { unfold l. rewrite commits_obligations_app, Hd. unfold commits_obligations. cbn. lia. }
    rewrite Hl2.
    unfold merge_tail. rewrite El. fold front.
    destruct (merge tail commit) as [[mt sup] dis] eqn:Emt.
    assert (mt = merged tail commit) as -> by (unfold merged; by rewrite Emt). fold l.
    cbn [mbind res_bind].
    destruct (admit_tail id role l (Merged sup dis) commit s H E)
      as (s' & out & Eo & Hs & Hout).
    cbn zeta in Eo. rewrite <- Hl1 in Eo. exists s', out. split; [exact Eo|]. split; [done|].
    destruct Hout as [[-> Er]|[-> [reason ->]]]; [|done]. by exists role, tail, front.
  - assert (Hadd : checked_add usize_max (role_entries role) 1 = Some (role_entries role + 1)).
    { apply checked_in. pose proof (role_entries_nonneg role). unfold usize_max. int_lia. }
    rewrite Hadd, cached_obligation_count_eq.
    destruct (Z.leb_spec (obligations commit) usize_max); [|lia]. cbn [mbind res_bind].
    pose proof (obligations_nonneg commit). pose proof (role_obligations_nonneg role).
    assert (Hadd2 : checked_add usize_max (role_obligations role) (obligations commit)
                    = Some (role_obligations role + obligations commit))
      by (apply checked_in; lia).
    rewrite Hadd2. set (l := cached_commits role ++ [commit]).
    assert (Hl1 : role_entries role + 1 = zlength l).
    { unfold role_entries, zlength, l. rewrite length_app. cbn. lia. }
    assert (Hl2 : role_obligations role + obligations commit = commits_obligations l).
    { unfold l, role_obligations. rewrite commits_obligations_app. unfold commits_obligations at 3.
      cbn. lia. }
    rewrite Hl1, Hl2. cbn [mbind res_bind].
    destruct (admit_tail id role l Inserted commit s H E) as (s' & out & Eo & Hs & Hout).
    cbn zeta in Eo. exists s', out. split; [exact Eo|]. split; [done|].
    destruct Hout as [[-> Er]|[-> [reason ->]]]; [|done]. by exists role.
Qed.

(** ** Walks of the role tree *)

(** The number of roles on the way up from a surface. *)
Inductive height (m : gmap Z SubsurfaceRoleState) : Z -> nat -> Prop :=
| height_root id : m !! id = None -> height m id 0
| height_step id r n : m !! id = Some r -> height m (parent_id r) n -> height m id (S n).

Lemma height_unique m id n k : height m id n -> height m id k -> n = k.
Proof.
  intros H. revert k. induction H as [id E|id r n E _ IH]; intros k Hk; inversion Hk; subst.
  - done.
  - congruence.
  - congruence.
  - f_equal. apply IH. congruence.
Qed.
Lemma rooted_height m id : rooted m id -> exists n, height m id n.
Proof.
  induction 1 as [id E|id r E _ [n IH]]; [exists 0%nat; by constructor|].
  exists (S n). by apply (height_step m id r).
Qed.

Lemma height_chain m id n :
  height m id n ->
  exists l, length l = n /\ base.NoDup l /\
    forall x, x ∈ l -> is_Some (m !! x) /\ exists k, height m x k /\ (k <= n)%nat.
Proof.
  induction 1 as [id E|id r n E Hp (l & Hl & Hnd & Hx)].
  - exists []. split_and!; [done|constructor|]. by intros x ?%elem_of_nil.
  - exists (id :: l). cbn [length]. split_and!; [lia| |].
    + apply list.NoDup_cons. split; [|done]. intros (_ & k & Hk & Hle)%Hx.
      assert (k = S n) by (eapply height_unique; [done|by apply (height_step m id r)]). lia.
    + intros x [->|Hin]%elem_of_cons.
      * split; [eauto|]. exists (S n). split; [by apply (height_step m id r)|lia].
      * destruct (Hx x Hin) as (H1 & k & H2 & H3). eauto with lia.
Qed.

(** The chain of parents is no longer than the number of roles. *)
Lemma height_le_size m id n : height m id n -> (n <= size m)%nat.
Proof.
  intros (l & <- & Hnd & Hx)%height_chain. rewrite <- size_dom.
  rewrite <- (size_list_to_set (C := gset Z) l Hnd). apply subseteq_size.
  intros x Hin%elem_of_list_to_set. apply elem_of_dom. by apply Hx.
Qed.

Lemma ancestor_hits_Ret m sid p n fuel :
  height m p n -> (n < fuel)%nat ->
  exists hit, ancestor_hits fuel m sid (Some p) = Ret hit /\
    (hit = false -> forall role, m !! sid = None -> rooted (<[sid := role]> m) p).
Proof.
  intros H. revert fuel. induction H as [p E|p r n E _ IH]; intros fuel Hf;
    (destruct fuel as [|fuel]; [lia|]); cbn [ancestor_hits];
    (destruct (Z.eqb_spec p sid) as [->|Hne]; [exists true; split; [done|discriminate]|]).
  - unfold role_parent. rewrite E. exists false. split; [by destruct fuel|]. intros _ role _.
    apply rooted_root. by rewrite lookup_insert_ne.
  - unfold role_parent. rewrite E. cbn [fmap option_fmap option_map].
    destruct (IH fuel ltac:(lia)) as (hit & Eh & Hr). exists hit. split; [done|].
    intros Hf2 role Hs. eapply rooted_step; [by rewrite lookup_insert_ne|auto].
Qed.

Lemma rooted_insert m sid role id :
  m !! sid = None -> rooted (<[sid := role]> m) (parent_id role) ->
  rooted m id -> rooted (<[sid := role]> m) id.
Proof.
  intros Hs Hp. induction 1 as [id E|id r E _ IH].
  - destruct (decide (id = sid)) as [->|].
    + eapply rooted_step; [apply lookup_insert_eq|done].
    + apply rooted_root. by rewrite lookup_insert_ne.
  - eapply rooted_step; [|exact IH]. rewrite lookup_insert_ne; [done|congruence].
Qed.

Lemma register_spec sid p client s :
  cache_ok s ->
  exists s' b, register_with_client sid p client s = Ret (s', b) /\ cache_ok s' /\
    (if b : bool
     then sid <> p /\ roles s !! sid = None /\ exists role, roles s' = <[sid := role]> (roles s) /\
            parent_id role = p /\ relationship_phase role = PendingParentCommit /\
            (forall j r, roles s !! j = Some r -> relationship_id r < relationship_id role)
     else s' = s).
Proof.
  intros H. unfold register_with_client.
  destruct (Z.eqb_spec sid p) as [->|Hne]; [cbn; eauto 10|]. cbn [orb].
  destruct (roles s !! sid) as [r|] eqn:E; [cbn; eauto 10|]. cbn [is_some].
  destruct (rooted_height _ _ (co_forest s H p)) as [n Hn].
  destruct (ancestor_hits_Ret (roles s) sid p n (S (size (roles s))) Hn) as (hit & -> & Hr).
  { pose proof (height_le_size _ _ _ Hn). lia. }
  cbn [mbind res_bind]. destruct hit; [eauto 10|].
  destruct (checked_add _ _ _) as [next|] eqn:En; [|eauto 10].
  apply checked_Some in En as [-> Hnext].
  set (next := next_relationship_id s + 1) in *.
  set (role := mkRole next p client Synchronized PendingParentCommit [] None).
  specialize (Hr eq_refl role E). destruct H as [A [L1 L2 L3] F (I1 & I2 & I3)].
  eexists _, true. split; [done|]. split.
  - assert (Ht : forall w, w role = 0 -> total w (<[sid := role]> (roles s)) = total w (roles s)).
    { intros w Hw. rewrite total_insert by done. lia. }
    assert (Ha : forall w id, w role = 0 ->
      at_surface w (<[sid := role]> (roles s)) id = at_surface w (roles s) id).
    { intros w id Hw. unfold at_surface. destruct (decide (id = sid)) as [->|].
      - by rewrite lookup_insert_eq, E.
      - by rewrite lookup_insert_ne. }
    assert (Hc : forall c w, w role = 0 -> of_client c w role = 0)
      by (intros c w Hw; unfold of_client; case_decide; done).
    split; cbn [roles accounts next_relationship_id].
    + destruct A as [A1 A2 A3 A4 A5 A6 A7]. split; [by rewrite Ht|by rewrite Ht|by rewrite Ht|..];
        intros id; [by rewrite Ha|by rewrite Ha|by rewrite Ht by auto|by rewrite Ht by auto].
    + split; [|intros c; by rewrite !Ht by auto|by rewrite !Ht].
      intros id r Er. destruct (decide (id = sid)) as [->|].
      * rewrite lookup_insert_eq in Er. injection Er as <-. by vm_compute.
      * rewrite lookup_insert_ne in Er by done. eauto.
    + intros id. by apply rooted_insert.
    + split; [subst next; int_lia|]. split.
      * intros id r Er. destruct (decide (id = sid)) as [->|].
        -- rewrite lookup_insert_eq in Er. injection Er as <-. cbn. subst next. lia.
        -- rewrite lookup_insert_ne in Er by done. specialize (I2 _ _ Er). subst next. lia.
      * intros i j r q Ei Ej Eq.
        apply lookup_insert_Some in Ei as [[<- <-]|[Hi Ei]];
          apply lookup_insert_Some in Ej as [[<- <-]|[Hj Ej]]; [done|..|eauto]; cbn in Eq.
        -- specialize (I2 _ _ Ej). subst next. lia.
        -- specialize (I2 _ _ Ei). subst next. lia.
  - split_and!; [done|done|]. exists role. split_and!; [done|done|done|].
    intros j r Ej. cbn. specialize (I2 _ _ Ej). subst next. lia.
Qed.

(** *** Operations that leave the accounts alone *)

Lemma view_insert (m : gmap Z SubsurfaceRoleState) id role role' :
  m !! id = Some role -> view role' = view role -> view <$> <[id := role']> m = view <$> m.
Proof.
  intros E Hv. rewrite fmap_insert, Hv. apply insert_id. by rewrite lookup_fmap, E.
Qed.
Lemma view_fmap (m : gmap Z SubsurfaceRoleState) f : (forall r, view (f r) = view r) -> view <$> (f <$> m) = view <$> m.
Proof. intros H. rewrite <- map_fmap_compose. apply map_fmap_ext. intros. apply H. Qed.

Lemma view_commits l role :
  zlength l = role_entries role -> commits_obligations l = role_obligations role ->
  view (set_commits l role) = view role.
Proof.
  intros H1 H2. unfold view.
  change (role_entries (set_commits l role)) with (zlength l).
  change (role_obligations (set_commits l role)) with (commits_obligations l). by rewrite H1, H2.
Qed.

Lemma capture_child_view m id : view <$> (capture_child m id).1 = view <$> m.
Proof.
  unfold capture_child. destruct (m !! id) as [role|] eqn:E; [|done].
  destruct (last (cached_commits role)) as [c|] eqn:El; [|done].
  destruct (merge_frozen (lineage c)); [done|]. cbn. apply (view_insert m id role); [done|].
  apply last_split in El. apply view_commits.
  - unfold role_entries, zlength. rewrite El at 3. by rewrite !length_app.
  - unfold role_obligations. rewrite El at 3. by rewrite !commits_obligations_app.
Qed.
Lemma capture_children_view m ids : view <$> (capture_children m ids).1 = view <$> m.
Proof.
  revert m. induction ids as [|id ids IH]; intros m; [done|]. cbn.
  pose proof (capture_child_view m id) as H. destruct (capture_child m id) as [m1 r].
  specialize (IH m1). destruct (capture_children m1 ids) as [m2 rs]. cbn in *. by rewrite IH.
Qed.

Lemma prune_view child_id promoted role :
  view (set_commits (map fst (map (prune_dependencies child_id promoted) (cached_commits role))) role)
  = view role.
Proof.
  apply view_commits.
  - unfold role_entries, zlength. by rewrite !length_map.
  - unfold role_obligations. induction (cached_commits role) as [|c l IH]; [done|].
    cbn [map]. unfold commits_obligations in *. cbn [foldr]. by rewrite IH.
Qed.

(** ** Subtrees *)

Section Subtrees.
Context `{Order : HashOrder}.
Implicit Types (m : gmap Z SubsurfaceRoleState).


Lemma elem_of_children m p id :
  id ∈ children_of m p <-> exists r, m !! id = Some r /\ parent_id r = p.
Proof.
  unfold children_of. rewrite list_elem_of_In, filter_In, <- list_elem_of_In, elem_of_hash_keys.
  unfold has_parent. destruct (m !! id) as [r|]; split.
  - intros [_ H%Z.eqb_eq]. eauto.
  - intros (q & [= <-] & <-). split; [eauto|apply Z.eqb_refl].
  - by intros [_ ?].
  - by intros (? & ? & _).
Qed.
Lemma NoDup_children m p : base.NoDup (children_of m p).
Proof.
  apply NoDup_ListNoDup. unfold children_of. apply List.NoDup_filter.
  apply NoDup_ListNoDup, NoDup_hash_keys.
Qed.

(** A surface and everything below it. *)
Inductive descends (m : gmap Z SubsurfaceRoleState) (root : Z) : Z -> Prop :=
| descends_self : descends m root root
| descends_child id r : m !! id = Some r -> descends m root (parent_id r) -> descends m root id.

(** The loop after its first round, on the roles [m0] it started with. *)
Record subtree_inv (m0 : gmap Z SubsurfaceRoleState) (root : Z) (pending : list Z)
  (m : gmap Z SubsurfaceRoleState) : Prop := {
  si_nodup : base.NoDup pending;
  si_sub : m ⊆ m0;
  si_pending : forall d, d ∈ pending -> exists r, m !! d = Some r /\ m !! parent_id r = None;
  si_orphan : forall id r, m !! id = Some r -> m !! parent_id r = None ->
    is_Some (m0 !! parent_id r) \/ parent_id r = root -> id ∈ pending;
  si_removed : forall id, is_Some (m0 !! id) -> m !! id = None -> descends m0 root id;
  si_descends : forall d, d ∈ pending -> descends m0 root d;
  si_root : m !! root = None
}.

Lemma subtree_inv_step m0 root d pending m r :
  subtree_inv m0 root (d :: pending) m -> m !! d = Some r ->
  subtree_inv m0 root (rev (children_of m d) ++ pending) (delete d m).
Proof.
  intros [N S P O R D Z] Ed. apply list.NoDup_cons in N as [Hd N].
  assert (Hc : forall c, c ∈ children_of m d -> exists q, m !! c = Some q /\ parent_id q = d /\ c <> d
    /\ c ∉ pending).
  { intros c (q & Ec & Hq)%elem_of_children. exists q.
    assert (c <> d).
    { intros ->. rewrite Ed in Ec. injection Ec as <-. destruct (P d) as (q & E1 & E2); [by left|].
      rewrite Ed in E1. injection E1 as <-. rewrite Hq in E2. congruence. }
    split_and!; [done|done|done|]. intros Hin. destruct (P c) as (q' & E1 & E2); [by right|].
    rewrite Ec in E1. injection E1 as <-. rewrite Hq in E2. congruence. }
  assert (Hin : forall x, x ∈ rev (children_of m d) ++ pending <-> x ∈ children_of m d \/ x ∈ pending).
  { intros x. rewrite elem_of_app, !list_elem_of_In, <- in_rev. done. }
  split.
  - apply list.NoDup_app. split_and!; [|intros x Hx|done].
    + apply NoDup_ListNoDup, List.NoDup_rev, NoDup_ListNoDup, NoDup_children.
    + rewrite list_elem_of_In, <- in_rev, <- list_elem_of_In in Hx. by destruct (Hc x Hx) as (q & _ & _ & _ & ?).
  - etransitivity; [apply delete_subseteq|done].
  - intros x [Hx|Hx]%Hin.
    + destruct (Hc x Hx) as (q & Eq & Hq & Hne & _). exists q.
      rewrite lookup_delete_ne by done. split; [done|]. rewrite Hq. apply lookup_delete_eq.
    + destruct (P x) as (q & E1 & E2); [by right|]. exists q.
      rewrite lookup_delete_ne by (intros ->; done). split; [done|].
      apply lookup_delete_None. by right.
  - intros id q Eq En Hq. apply Hin.
    apply lookup_delete_Some in Eq as [Hne Eq]. apply lookup_delete_None in En as [En|En].
    + left. apply elem_of_children. eauto.
    + right. specialize (O id q Eq En Hq). apply elem_of_cons in O as [->|]; done.
  - intros id Hid En. apply lookup_delete_None in En as [<-|En]; [|by apply R].
    apply D. by left.
  - intros x [Hx|Hx]%Hin; [|apply D; by right].
    destruct (Hc x Hx) as (q & Eq & Hq & _). eapply descends_child; [by eapply lookup_weaken|].
    rewrite Hq. apply D. by left.
  - apply lookup_delete_None. by right.
Qed.

(** One role removed from the cache, as [remove_subtree] does it. *)
Lemma remove_role_ok id role s :
  cache_ok s -> roles s !! id = Some role ->
  exists s', (cached_obligations ← sum_obligations (cached_commits role);
              recount id (client_id role) (zlength (cached_commits role)) 0 cached_obligations 0
                (set_roles (delete id (roles s)) s)) = Ret s' /\
    roles s' = delete id (roles s) /\ cache_ok s'.
Proof.
  intros H E. destruct (detach_role_ok id s H) as (s' & Es & Er & Hs).
  unfold detach_role in Es. rewrite E in Es. exists s'. split; [|done].
  destruct (sum_obligations _) as [n| | |]; try done. cbn [mbind res_bind] in *.
  destruct (recount _ _ _ _ _ _ _); try done. cbn in Es. by injection Es as ->.
Qed.

Lemma total_entries_delete m id role :
  m !! id = Some role ->
  total role_entries (delete id m) = total role_entries m - zlength (cached_commits role).
Proof. intros E. rewrite total_delete. unfold at_surface. by rewrite E. Qed.

Lemma remove_subtree_loop_ok m0 root fuel pending s removed :
  cache_ok s -> subtree_inv m0 root pending (roles s) -> (size (roles s) <= fuel)%nat ->
  exists s' out, remove_subtree_loop fuel pending s removed = Ret (s', out) /\ cache_ok s' /\
    subtree_inv m0 root [] (roles s') /\
    zlength out + total role_entries (roles s') = zlength removed + total role_entries (roles s).
Proof.
  revert pending s removed. induction fuel as [|fuel IH]; intros [|d pending] s removed H Hi Hf.
  - eexists s, removed. auto.
  - destruct (si_pending _ _ _ _ Hi d) as (r & Ed & _); [by left|].
    assert (roles s = ∅) as E0 by (apply map_size_empty_inv; lia). by rewrite E0 in Ed.
  - eexists s, removed. auto.
  - destruct (si_pending _ _ _ _ Hi d) as (r & Ed & _); [by left|].
    cbn [remove_subtree_loop]. rewrite Ed.
    destruct (remove_role_ok d r s H Ed) as (s1 & E1 & Er & H1).
    destruct (IH (rev (children_of (roles s) d) ++ pending) s1 (removed ++ cached_commits r))
      as (s' & out & Eo & Hs & Hi' & Hc).
    + done.
    + rewrite Er. by eapply subtree_inv_step.
    + rewrite Er, map_size_delete, Ed. lia.
    + exists s', out. split_and!; [|done|done|].
      * destruct (sum_obligations (cached_commits r)); try done. cbn [mbind res_bind] in *.
        rewrite E1. cbn [mbind res_bind]. exact Eo.
      * rewrite Hc, Er, (total_entries_delete _ _ _ Ed).
        unfold zlength. rewrite length_app. lia.
Qed.

Lemma rooted_no_self m id r : rooted m id -> m !! id = Some r -> parent_id r <> id.
Proof.
  intros [n Hn]%rooted_height E Hp. inversion Hn as [? E0|? q k E0 Hk]; subst; [congruence|].
  rewrite E in E0. injection E0 as <-.
  pose proof (height_unique _ _ _ _ Hn Hk). lia.
Qed.

Lemma subtree_inv_first m0 root :
  rooted m0 root -> subtree_inv m0 root (children_of m0 root) (delete root m0).
Proof.
  intros Hr.
  assert (Hc : forall c, c ∈ children_of m0 root ->
    exists q, m0 !! c = Some q /\ parent_id q = root /\ c <> root).
  { intros c (q & Ec & Hq)%elem_of_children. exists q. split_and!; [done|done|].
    intros ->. by apply (rooted_no_self m0 root q). }
  split.
  - apply NoDup_children.
  - apply delete_subseteq.
  - intros d (q & Eq & Hq & Hne)%Hc. exists q. rewrite lookup_delete_ne by done. split; [done|].
    rewrite Hq. apply lookup_delete_eq.
  - intros id r E En Hp. apply lookup_delete_Some in E as [Hne E]. apply elem_of_children.
    exists r. split; [done|]. apply lookup_delete_None in En as [->|En]; [done|].
    destruct Hp as [[q Hp]|]; [congruence|done].
  - intros id [r E] En. apply lookup_delete_None in En as [->|En]; [constructor|congruence].
  - intros d (q & Eq & Hq & _)%Hc. eapply descends_child; [done|]. rewrite Hq. constructor.
  - apply lookup_delete_eq.
Qed.

Lemma subtree_inv_done m0 root m :
  subtree_inv m0 root [] m ->
  forall id r, m !! id = Some r <-> m0 !! id = Some r /\ ~ descends m0 root id.
Proof.
  intros [_ S _ O R _ Z].
  assert (Hd : forall id, descends m0 root id -> m !! id = None).
  { induction 1 as [|id r E Hp IH]; [done|]. destruct (m !! id) as [q|] eqn:Eq; [|done].
    pose proof (lookup_weaken _ _ _ _ Eq S) as Eq'. rewrite E in Eq'. injection Eq' as <-.
    specialize (O id r Eq IH). exfalso. apply (not_elem_of_nil id), O.
    destruct (decide (parent_id r = root)) as [|Hne]; [by right|]. left.
    destruct (m0 !! parent_id r) eqn:Ep; [done|].
    exfalso. inversion Hp; congruence. }
  intros id r. split.
  - intros E. split; [by eapply lookup_weaken|]. intros H%Hd. congruence.
  - intros [E Hn]. destruct (m !! id) as [q|] eqn:Eq.
    + pose proof (lookup_weaken _ _ _ _ Eq S). congruence.
    + exfalso. apply Hn, R; [eauto|done].
Qed.

Lemma remove_subtree_ok root s :
  cache_ok s ->
  exists s' out, remove_subtree root s = Ret (s', out) /\ cache_ok s' /\
    (forall id r, roles s' !! id = Some r <->
       roles s !! id = Some r /\ ~ descends (roles s) root id) /\
    zlength out + total role_entries (roles s') = total role_entries (roles s).
Proof.
  intros H. unfold remove_subtree. cbn [remove_subtree_loop]. rewrite app_nil_r.
  pose proof (subtree_inv_first (roles s) root (co_forest s H root)) as Hi.
  assert (Hrev : subtree_inv (roles s) root (rev (children_of (roles s) root))
                   (delete root (roles s))).
  { destruct Hi as [N S P O R D Z].
    assert (Hin : forall x, x ∈ rev (children_of (roles s) root) <-> x ∈ children_of (roles s) root)
      by (intros x; by rewrite !list_elem_of_In, <- in_rev).
    split; [apply NoDup_ListNoDup, List.NoDup_rev, NoDup_ListNoDup, N|done|..].
    - intros d Hd%Hin. auto.
    - intros id r E En Hp. apply Hin. by apply (O id r).
    - done.
    - intros d Hd%Hin. auto.
    - done. }
  destruct (roles s !! root) as [role|] eqn:E.
  - destruct (remove_role_ok root role s H E) as (s1 & E1 & Er & H1).
    destruct (remove_subtree_loop_ok (roles s) root (size (roles s))
      (rev (children_of (roles s) root)) s1 ([] ++ cached_commits role))
      as (s' & out & Eo & Hs & Hi' & Hc); [done|by rewrite Er| |].
    { rewrite Er, map_size_delete, E. lia. }
    exists s', out. split_and!; [|done|by apply subtree_inv_done|].
    + destruct (sum_obligations (cached_commits role)); try done. cbn [mbind res_bind] in *.
      rewrite E1. cbn [mbind res_bind]. exact Eo.
    + rewrite Hc, Er, (total_entries_delete _ _ _ E). cbn. lia.
  - destruct (remove_subtree_loop_ok (roles s) root (size (roles s))
      (rev (children_of (roles s) root)) s []) as (s' & out & Eo & Hs & Hi' & Hc);
      [done|by rewrite (delete_id (roles s) root E) in Hrev|done|].
    exists s', out. split_and!; [done|done|by apply subtree_inv_done|]. rewrite Hc. done.
Qed.

(** [remove_subtree] terminates, and removes exactly the surface and the
    surfaces below it: the roles left are those that do not descend from it,
    the invariant still holds, and every cached commit of a removed role is
    handed back. *)
Theorem remove_subtree_spec root s :
  cache_ok s ->
  exists s' out, remove_subtree root s = Ret (s', out) /\ cache_ok s' /\
    (forall id r, roles s' !! id = Some r <->
       roles s !! id = Some r /\ ~ descends (roles s) root id) /\
    zlength out + total role_entries (roles s') = total role_entries (roles s).
Proof. apply remove_subtree_ok. Qed.
End Subtrees.

(** ** Any sequence of operations *)

(** Open the binds of one computation known to return. *)
Ltac open_bind E := repeat (apply bind_Ret in E as (? & ? & E)).

Inductive CacheOp : Type :=
| CRegister (surface parent : Z) (client : option Z)
| CCache (surface : Z) (commit : CachedSubsurfaceCommit)
| CDetach (surface : Z)
| CRemoveSubtree (surface : Z)
| CDrain
| CLatch (parent : Z)
| CApply (r : CapturedSubsurfaceRelationship)
| CSetMode (surface : Z) (mode : SubsurfaceSyncMode)
| CSetPosition (surface x y : Z)
| CTakePositions (parent : Z)
| CCaptureChildren (parent : Z)
| CTake (surface : Z)
| CTakeThrough (reference : ContentUpdateRef)
| CPrune (parent child : Z) (promoted : list ContentUpdateRef).

Section CacheRuns.
Context `{Order : HashOrder}.

Definition cache_step (s : CacheState) (op : CacheOp) : res unit CacheState :=
  match op with
  | CRegister id p c => fst <$> register_with_client id p c s
  | CCache id commit => fst <$> cache_commit id commit s
  | CDetach id => fst <$> detach_role id s
  | CRemoveSubtree id => fst <$> remove_subtree id s
  | CDrain => fst <$> drain_cached_commits s
  | CLatch p => Ret (fst (take_pending_relationship_activations_for_parent p s))
  | CApply r => Ret (fst (apply_captured_relationship r s))
  | CSetMode id m => Ret (fst (set_mode id m s))
  | CSetPosition id x y => Ret (fst (set_pending_position id x y s))
  | CTakePositions p => Ret (fst (take_pending_positions_for_parent p s))
  | CCaptureChildren p => Ret (fst (capture_direct_child_dependencies p s))
  | CTake id => fst <$> take_cached_commits_for_surface id s
  | CTakeThrough reference => fst <$> take_cached_commits_through reference s
  | CPrune p c refs => Ret (fst (remove_cached_parent_dependencies_to_child_commits p c refs s))
  end.
Fixpoint cache_run (s : CacheState) (ops : list CacheOp) : res unit CacheState :=
  match ops with
  | [] => Ret s
  | op :: ops => s ← cache_step s op; cache_run s ops
  end.

(** The operations the accounts survive: every one but an oversized commit
    and a merge over an earlier entry that holds obligations. *)
Definition op_regular (s : CacheState) (op : CacheOp) : Prop :=
  match op with
  | CCache id commit =>
      obligations commit <= usize_max - 65536 /\ merge_drifts id commit s = false
  | _ => True
  end.

Lemma drain_surfaces_ok ids s commits :
  cache_ok s ->
  exists s' out, drain_surfaces ids s commits = Ret (s', out) /\ cache_ok s' /\
    (forall id r, roles s' !! id = Some r -> exists q, roles s !! id = Some q /\
       cached_commits r = (if decide (id ∈ ids) then [] else cached_commits q)).
Proof.
  revert s commits. induction ids as [|id ids IH]; intros s commits H; cbn [drain_surfaces].
  - eexists s, commits. split_and!; [done|done|]. intros id r E. exists r. split; [done|].
    by rewrite decide_False by apply not_elem_of_nil.
  - destruct (take_all_ok id s H) as (s1 & E1 & Er & H1). rewrite E1. cbn [mbind res_bind].
    destruct (IH s1 (commits ++ match roles s !! id with Some r => cached_commits r | None => [] end)
                H1) as (s' & out & Eo & Hs & Hr).
    exists s', out. split_and!; [done|done|]. intros j r E. destruct (Hr j r E) as (q & Eq & Hq).
    rewrite Er in Eq. destruct (decide (j = id)) as [->|Hne].
    + rewrite lookup_alter_eq in Eq. destruct (roles s !! id) as [p|]; [|done].
      injection Eq as <-. exists p. split; [done|]. rewrite decide_True by by left.
      rewrite Hq. by case_decide.
    + rewrite lookup_alter_ne in Eq by done. exists q. split; [done|]. rewrite Hq.
      do 2 case_decide; try done; exfalso; set_solver.
Qed.

Lemma cache_step_ok s op :
  cache_ok s -> op_regular s op -> exists s', cache_step s op = Ret s' /\ cache_ok s'.
Proof.
  intros H Hr. destruct op; cbn [cache_step op_regular] in *.
  - destruct (register_spec surface parent client s H) as (s' & b & -> & Hs & _). cbn. eauto.
  - destruct (cache_commit_spec surface commit s H (proj1 Hr) (proj2 Hr)) as (s' & o & -> & Hs & _).
    cbn. eauto.
  - destruct (detach_role_ok surface s H) as (s' & -> & _ & Hs). cbn. eauto.
  - destruct (remove_subtree_ok surface s H) as (s' & o & -> & Hs & _). cbn. eauto.
  - destruct (drain_surfaces_ok (hash_keys (roles s)) s [] H) as (s' & o & E & Hs & _).
    unfold drain_cached_commits. rewrite E. cbn. eauto.
  - eexists. split; [done|]. apply same_view_ok; [done|]. apply view_fmap. intros r.
    by destruct (latches parent r).
  - eexists. split; [done|]. unfold apply_captured_relationship.
    destruct (roles s !! rel_surface_id r) as [role|] eqn:E; [|done].
    destruct (_ || _); [done|]. apply same_view_ok; [done|]. by apply (view_insert _ _ role).
  - eexists. split; [done|]. unfold set_mode. destruct (roles s !! surface) as [role|] eqn:E; [|done].
    apply same_view_ok; [done|]. by apply (view_insert _ _ role).
  - eexists. split; [done|]. unfold set_pending_position.
    destruct (roles s !! surface) as [role|] eqn:E; [|done].
    apply same_view_ok; [done|]. by apply (view_insert _ _ role).
  - eexists. split; [done|]. apply same_view_ok; [done|]. apply view_fmap. intros r.
    by destruct (_ =? _).
  - eexists. split; [done|]. unfold capture_direct_child_dependencies.
    pose proof (capture_children_view (roles s) (merge_sort Z.le (children_of (roles s) parent))) as Hv.
    destruct (capture_children _ _) as [m refs]. by apply same_view_ok.
  - destruct (take_all_ok surface s H) as (s' & -> & _ & Hs). cbn. eauto.
  - destruct (take_through_ok reference s H) as (s' & o & -> & Hs & _). cbn. eauto.
  - eexists. split; [done|]. unfold remove_cached_parent_dependencies_to_child_commits.
    destruct (roles s !! parent) as [role|] eqn:E; [|done].
    apply same_view_ok; [done|]. apply (view_insert _ _ role); [done|]. apply prune_view.
Qed.

(** *** Relationship identifiers along a run *)

(** A surface holds a relationship identifier. *)
Definition holds (s : CacheState) (surface i : Z) : Prop :=
  exists r, roles s !! surface = Some r /\ relationship_id r = i.

(** [s'] follows [s]: the last identifier given out does not go back, and
    what is held in [s'] was held by the same surface or is a later one. *)
Definition follows (s s' : CacheState) : Prop :=
  next_relationship_id s <= next_relationship_id s' /\
  forall surface i, holds s' surface i -> holds s surface i \/ next_relationship_id s < i.

#[local] Instance follows_preorder : PreOrder follows.
Proof.
  split.
  - intros s. split; [lia|auto].
  - intros s1 s2 s3 [N1 H1] [N2 H2]. split; [lia|]. intros surface i H.
    destruct (H2 _ _ H) as [H'|]; [|right; lia]. by apply H1.
Qed.

Lemma follows_roles s s' :
  next_relationship_id s' = next_relationship_id s ->
  (forall id r, roles s' !! id = Some r ->
     exists q, roles s !! id = Some q /\ relationship_id r = relationship_id q) ->
  follows s s'.
Proof.
  intros N H. split; [lia|]. intros id i (r & E & <-). left.
  destruct (H id r E) as (q & Eq & ->). by exists q.
Qed.
Lemma follows_view s m : view <$> m = view <$> roles s -> follows s (set_roles m s).
Proof.
  intros Hv. apply follows_roles; [done|]. intros id r E.
  destruct (same_view_back _ _ Hv id r E) as (q & Eq & V). exists q. split; [done|].
  unfold view in V. congruence.
Qed.
Lemma recount_frame id client oe ne oo no s s' :
  recount id client oe ne oo no s = Ret s' ->
  roles s' = roles s /\ next_relationship_id s' = next_relationship_id s.
Proof. unfold recount. intros E. open_bind E. by injection E as <-. Qed.
Lemma follows_recount id role l m client oe ne oo no s s' :
  recached id role l (roles s) m -> recount id client oe ne oo no (set_roles m s) = Ret s' ->
  follows s s'.
Proof.
  intros Hm [Er En]%recount_frame. cbn in Er, En. apply follows_roles; [done|].
  rewrite Er. intros j r E. destruct (recached_lookup _ _ _ _ _ _ _ Hm E) as (q & ? & ? & _). eauto.
Qed.

Lemma register_follows id p c s s' b : register_with_client id p c s = Ret (s', b) -> follows s s'.
Proof.
  unfold register_with_client. intros E. destruct (_ || _); [by injection E as <- _|].
  open_bind E. destruct x; [by injection E as <- _|].
  destruct (checked_add _ _ _) as [next|] eqn:En; [|by injection E as <- _].
  injection E as <- _. apply checked_Some in En as [-> _]. split; cbn; [lia|].
  intros surface i (r & Er & <-). cbn in Er.
  apply lookup_insert_Some in Er as [[<- <-]|[_ Er]]; [right; cbn; lia|left; by exists r].
Qed.
Lemma detach_follows id s s' out : detach_role id s = Ret (s', out) -> follows s s'.
Proof.
  unfold detach_role. destruct (roles s !! id) as [role|] eqn:Er; intros E; [|by injection E as <- _].
  open_bind E. injection E as <- _. eapply (follows_recount id role []); [|done]. split; [done|by right].
Qed.
Lemma take_all_follows id s s' out :
  take_cached_commits_for_surface id s = Ret (s', out) -> follows s s'.
Proof.
  unfold take_cached_commits_for_surface.
  destruct (roles s !! id) as [role|] eqn:Er; intros E; [|by injection E as <- _].
  open_bind E. injection E as <- _. eapply (follows_recount id role []); [|done]. split; [done|by left].
Qed.
Lemma take_through_follows reference s s' out :
  take_cached_commits_through reference s = Ret (s', out) -> follows s s'.
Proof.
  unfold take_cached_commits_through.
  destruct (roles s !! _) as [role|] eqn:Er; intros E; [|by injection E as <- _].
  destruct (ref_position _ _); [|by injection E as <- _].
  open_bind E. injection E as <- _. eapply (follows_recount _ role); [|done]. split; [done|by left].
Qed.
Lemma cache_commit_follows id commit s s' out :
  cache_commit id commit s = Ret (s', out) -> follows s s'.
Proof.
  unfold cache_commit. destruct (roles s !! id) as [role|] eqn:Er; intros E; [|by injection E as <- _].
  destruct (if can_merge role commit then _ else _); [|by injection E as <- _].
  apply bind_Ret in E as ([n|] & _ & E); [|by injection E as <- _].
  repeat match type of E with
  | match ?x with _ => _ end = Ret _ => destruct x; try (by injection E as <- _)
  end.
  apply bind_Ret in E as ([commits o] & _ & E). open_bind E. injection E as <- _.
  eapply (follows_recount id role commits); [|done]. split; [done|by left].
Qed.
Lemma drain_follows ids s commits s' out :
  drain_surfaces ids s commits = Ret (s', out) -> follows s s'.
Proof.
  revert s commits. induction ids as [|id ids IH]; intros s commits E; cbn in E.
  - by injection E as <- _.
  - apply bind_Ret in E as ([s1 taken] & E1 & E). transitivity s1; [by eapply take_all_follows|eauto].
Qed.
Lemma remove_subtree_follows fuel pending s removed s' out :
  remove_subtree_loop fuel pending s removed = Ret (s', out) -> follows s s'.
Proof.
  revert pending s removed. induction fuel as [|fuel IH]; intros [|id pending] s removed E;
    cbn [remove_subtree_loop] in E; try (by injection E as <- _); [discriminate|].
  destruct (roles s !! id) as [role|] eqn:Er; [|eauto].
  apply bind_Ret in E as (n & _ & E). apply bind_Ret in E as (s1 & E1 & E).
  transitivity s1; [|eauto]. eapply (follows_recount id role []); [|exact E1].
  split; [done|by right].
Qed.

Lemma cache_step_follows s op s' : cache_step s op = Ret s' -> follows s s'.
Proof.
  assert (Hf : forall {A} (m : res unit (CacheState * A)),
    fst <$> m = Ret s' -> exists out, m = Ret (s', out)).
  { intros A m E. destruct m as [[s1 a]| | |]; try done. injection E as <-. by exists a. }
  destruct op; cbn [cache_step]; intros E;
    try (apply Hf in E as [out E]); try (injection E as <-).
  - by eapply register_follows.
  - by eapply cache_commit_follows.
  - by eapply detach_follows.
  - by eapply remove_subtree_follows.
  - by eapply drain_follows.
  - apply follows_view, view_fmap. intros r. by destruct (latches parent r).
  - unfold apply_captured_relationship. destruct (roles s !! rel_surface_id r) as [role|] eqn:Er;
      [|done]. destruct (_ || _); [done|]. apply follows_view. by apply (view_insert _ _ role).
  - unfold set_mode. destruct (roles s !! surface) as [role|] eqn:Er; [|done].
    apply follows_view. by apply (view_insert _ _ role).
  - unfold set_pending_position. destruct (roles s !! surface) as [role|] eqn:Er; [|done].
    apply follows_view. by apply (view_insert _ _ role).
  - apply follows_view, view_fmap. intros r. by destruct (_ =? _).
  - unfold capture_direct_child_dependencies.
    pose proof (capture_children_view (roles s) (merge_sort Z.le (children_of (roles s) parent))) as Hv.
    destruct (capture_children _ _) as [m refs]. by apply follows_view.
  - by eapply take_all_follows.
  - by eapply take_through_follows.
  - unfold remove_cached_parent_dependencies_to_child_commits.
    destruct (roles s !! parent) as [role|] eqn:Er; [|done].
    apply follows_view. apply (view_insert _ _ role); [done|]. apply prune_view.
Qed.
Lemma cache_run_follows s ops s' : cache_run s ops = Ret s' -> follows s s'.
Proof.
  revert s. induction ops as [|op ops IH]; intros s E; cbn in E; [by injection E as <-|].
  open_bind E. transitivity x; [by eapply cache_step_follows|eauto].
Qed.

(** An identifier belongs to one surface, from the operation that gives it
    out to the one that removes the role, and to nobody afterwards: of three
    states of a run, what is held in the outer two is held by that same
    surface in the middle one. *)
Definition never_reused (ops : list CacheOp) : Prop :=
  forall ops1 ops2 ops3 s1 s2 s3 a b i,
    ops = ops1 ++ ops2 ++ ops3 ->
    cache_run cache_default ops1 = Ret s1 -> cache_run s1 ops2 = Ret s2 ->
    cache_run s2 ops3 = Ret s3 ->
    holds s1 a i -> holds s3 b i -> a = b /\ holds s2 a i.

(** Runs whose every operation is regular in the state it meets. *)
Inductive regular_run : CacheState -> list CacheOp -> Prop :=
| regular_nil s : regular_run s []
| regular_cons s op ops :
    op_regular s op -> (forall s', cache_step s op = Ret s' -> regular_run s' ops) ->
    regular_run s (op :: ops).

Lemma cache_run_ok s ops :
  cache_ok s -> regular_run s ops -> exists s', cache_run s ops = Ret s' /\ cache_ok s'.
Proof.
  intros H Hr. revert H. induction Hr as [s|s op ops Ho _ IH]; intros H; cbn; [eauto|].
  destruct (cache_step_ok s op H Ho) as (s1 & E & H1). rewrite E. cbn. by apply (IH s1 E).
Qed.

Lemma regular_run_app s ops1 ops2 : regular_run s (ops1 ++ ops2) -> regular_run s ops1.
Proof.
  revert s. induction ops1 as [|op ops1 IH]; intros s H; [constructor|].
  inversion H as [|? ? ? Ho Hr]; subst. constructor; [done|]. intros s' E. eauto.
Qed.
Lemma cache_ok_never_reused s1 ops2 ops3 s2 s3 a b i :
  cache_ok s1 -> cache_run s1 ops2 = Ret s2 -> cache_run s2 ops3 = Ret s3 ->
  holds s1 a i -> holds s3 b i -> a = b /\ holds s2 a i.
Proof.
  intros [_ _ _ (_ & I2 & I3)] [N2 F2]%cache_run_follows [N3 F3]%cache_run_follows (r & Er & Ei) H3.
  specialize (I2 _ _ Er). destruct (F3 _ _ H3) as [H2|]; [|lia].
  destruct (F2 _ _ H2) as [(q & Eq & Hq)|]; [|lia].
  assert (a = b) as <- by (apply (I3 a b r q Er Eq); congruence). done.
Qed.
End CacheRuns.

Lemma accounts_consistent_default : accounts_consistent ∅ accounts_default.
Proof. split; done. Qed.
Lemma cache_ok_default : cache_ok cache_default.
Proof.
  split; [apply accounts_consistent_default|split; [done|done|split; by vm_compute]| |].
  - intros id. by apply rooted_root.
  - split_and!; [by vm_compute|by vm_compute|done|done].
Qed.

(** C12: the cache is safe under any sequence of regular operations, that is
    of operations with no oversized commit and no merge over an earlier entry
    that holds obligations (the defect of state.rs:445): none panics or loops,
    the accounts stay what a recount gives, every admission limit holds, the
    parent relation stays a forest, live relationship identifiers are distinct,
    and no identifier is given out twice: once its role is gone, no surface
    ever holds it again. *)
Theorem cache_invariant {Order : HashOrder} ops :
  regular_run cache_default ops ->
  (exists s, cache_run cache_default ops = Ret s /\
     accounts_consistent (roles s) (accounts s) /\ cache_limits (roles s) /\
     (forall id, rooted (roles s) id) /\ ids_ok (roles s) (next_relationship_id s)) /\
  never_reused ops.
Proof.
  intros H. split.
  - destruct (cache_run_ok cache_default ops cache_ok_default H) as (s & E & [A L F I]). eauto 10.
  - intros ops1 ops2 ops3 s1 s2 s3 a b i -> E1 E2 E3. apply regular_run_app in H.
    destruct (cache_run_ok cache_default ops1 cache_ok_default H) as (s & E & Hok).
    rewrite E1 in E. injection E as <-. by eapply cache_ok_never_reused.
Qed.

(** *** Concrete commits *)

Definition no_context : CapturedSurfaceCommitContext :=
  mkContext (mkParentState [] [] None) None None.
Definition plain_commit (seq : Z) (callbacks : list Token) (boundary : bool)
  : CachedSubsurfaceCommit :=
  mkCommit seq seq (mkLineage None [] false) None None callbacks None None (mkViewport None None)
    None None None None None None None [] None false None 0
    (mkPacing boundary false false None None) 0 PcNoChange no_context.

Lemma cache_invariant_witness :
  let ops := [CRegister 2 1 (Some 9); CRegister 3 2 None; CCache 2 (plain_commit 1 [5] false);
              CCache 2 (plain_commit 2 [6] false); CDetach 2] in
  (exists s, cache_run (Order := list_order) cache_default ops = Ret s /\
    accounts_consistent (roles s) (accounts s) /\ cache_limits (roles s) /\
    (forall id, rooted (roles s) id) /\ ids_ok (roles s) (next_relationship_id s)) /\
  never_reused (Order := list_order) ops.
Proof.
  apply (cache_invariant (Order := list_order)).
  constructor; [exact I|]. intros s1 E1. vm_compute in E1. injection E1 as <-.
  constructor; [exact I|]. intros s2 E2. vm_compute in E2. injection E2 as <-.
  constructor; [split; [by vm_compute|reflexivity]|]. intros s3 E3. vm_compute in E3. injection E3 as <-.
  constructor; [split; [by vm_compute|reflexivity]|]. intros s4 E4. vm_compute in E4. injection E4 as <-.
  constructor; [exact I|]. intros s5 E5. constructor.
Defined.

(** *** A merge that loses obligations *)







(** *** What the walks compute *)

Lemma effectively_synchronized_Ret m id n fuel :
  height m id n -> (n <= fuel)%nat ->
  exists b, effectively_synchronized fuel m (Some id) = Ret b /\
    (b = true <-> exists a r, descends m a id /\ m !! a = Some r /\ requested_mode r = Synchronized).
Proof.
  intros H. revert fuel. induction H as [id E|id r n E Hp IH]; intros fuel Hf.
  - exists false. split; [destruct fuel; cbn; by rewrite E|]. split; [done|].
    intros (a & r & Hd & Ea & _). inversion Hd; congruence.
  - destruct fuel as [|fuel]; [lia|]. cbn [effectively_synchronized]. rewrite E.
    case_decide as Em.
    { exists true. split; [done|]. split; [|done]. intros _. exists id, r.
      split; [constructor|done]. }
    destruct (IH fuel ltac:(lia)) as (b & Eb & Hb).
    assert (Hup : (exists a q, descends m a (parent_id r) /\ m !! a = Some q
                    /\ requested_mode q = Synchronized) <->
                  (exists a q, descends m a id /\ m !! a = Some q
                    /\ requested_mode q = Synchronized)).
    { split; intros (a & q & Hd & Ea & Hq).
      - exists a, q. split; [by eapply descends_child|done].
      - inversion Hd as [|? r' E' Hd']; subst.
        + rewrite E in Ea. injection Ea as <-. done.
        + rewrite E in E'. injection E' as <-. eauto. }
    destruct (m !! parent_id r) as [q|] eqn:Eq; cbn [is_some].
    + exists b. split; [done|]. by rewrite Hb, Hup.
    + exists false. split; [by destruct fuel|]. split; [done|]. intros Ha.
      apply Hup in Ha as (a & q & Hd & Ea & _). inversion Hd; congruence.
Qed.

(** A surface is effectively synchronized exactly when it or one of its
    ancestors among the subsurfaces is in synchronized mode. *)
Lemma effectively_synchronized_spec id s :
  cache_ok s ->
  exists b, is_effectively_synchronized id s = Ret b /\
    (b = true <-> exists a r, descends (roles s) a id /\ roles s !! a = Some r
                              /\ requested_mode r = Synchronized).
Proof.
  intros H. destruct (rooted_height _ _ (co_forest s H id)) as [n Hn].
  apply (effectively_synchronized_Ret _ _ n); [done|]. by eapply height_le_size.
Qed.

Section Trees.
Context `{Order : HashOrder}.
Implicit Types (m : gmap Z SubsurfaceRoleState).

Record tree_inv (m : gmap Z SubsurfaceRoleState) (root : Z) (tree : list Z) (index : nat) : Prop := {
  ti_nodup : base.NoDup tree;
  ti_root : root ∈ tree;
  ti_descends : forall x, x ∈ tree -> descends m root x;
  ti_parent : forall x, x ∈ tree -> x <> root -> exists r j,
    m !! x = Some r /\ (j < index)%nat /\ tree !! j = Some (parent_id r);
  ti_closed : forall j p c r, (j < index)%nat -> tree !! j = Some p -> m !! c = Some r ->
    parent_id r = p -> c ∈ tree;
  ti_index : (index <= length tree)%nat
}.

Lemma descends_height m root id n k :
  descends m root id -> height m id n -> height m root k -> (k <= n)%nat.
Proof.
  intros Hd. revert n. induction Hd as [|id r E _ IH]; intros n Hn Hk.
  - by rewrite (height_unique _ _ _ _ Hn Hk).
  - inversion Hn as [? E'|? q n' E' Hn']; subst; [congruence|].
    rewrite E in E'. injection E' as <-. specialize (IH n' Hn' Hk). lia.
Qed.

Lemma tree_inv_length m root tree index : tree_inv m root tree index -> (length tree <= S (size m))%nat.
Proof.
  intros [N R D P _ _]. rewrite <- (size_list_to_set (C := gset Z) tree N), <- size_dom.
  transitivity (size ({[root]} ∪ dom m)).
  - apply subseteq_size. intros x Hx%elem_of_list_to_set.
    destruct (decide (x = root)) as [->|Hne]; [set_solver|].
    destruct (P x Hx Hne) as (r & j & E & _). apply elem_of_union_r, elem_of_dom. eauto.
  - rewrite size_union_alt, size_singleton.
    pose proof (subseteq_size (dom m ∖ {[root]}) (dom m) ltac:(set_solver)). lia.
Qed.

Lemma tree_inv_step m root tree index p :
  rooted m root -> tree_inv m root tree index -> tree !! index = Some p ->
  tree_inv m root (tree ++ merge_sort Z.le (children_of m p)) (S index).
Proof.
  intros Hr [N R D P C I] Ep.
  assert (Hc : forall c, c ∈ merge_sort Z.le (children_of m p) <-> c ∈ children_of m p)
    by (intros c; by rewrite (merge_sort_Permutation Z.le (children_of m p))).
  assert (Hp : p ∈ tree) by by eapply list_elem_of_lookup_2.
  assert (Hlt : (index < length tree)%nat) by by eapply lookup_lt_Some.
  split.
  - apply list.NoDup_app. split_and!; [done| |].
    + intros c Hin (r & Ec & Hpr)%Hc%elem_of_children. destruct (decide (c = root)) as [->|Hne].
      * destruct (rooted_height m root Hr) as [k Hk].
        inversion Hk as [? E'|? q n' E' Hn']; subst; [congruence|].
        rewrite Ec in E'. injection E' as <-.
        pose proof (descends_height _ _ _ _ _ (D _ Hp) Hn' Hk). lia.
      * destruct (P c Hin Hne) as (r' & j & E' & Hj & Ej). rewrite Ec in E'. injection E' as <-.
        rewrite Hpr in Ej. rewrite NoDup_alt in N. specialize (N j index p Ej Ep). lia.
    + rewrite (merge_sort_Permutation Z.le (children_of m p)). apply NoDup_children.
  - apply elem_of_app. by left.
  - intros x [Hx|Hx]%elem_of_app; [auto|]. apply Hc, elem_of_children in Hx as (r & E & Hpr).
    eapply descends_child; [done|]. rewrite Hpr. auto.
  - intros x [Hx|Hx]%elem_of_app Hne.
    + destruct (P x Hx Hne) as (r & j & E & Hj & Ej). exists r, j.
      split_and!; [done|lia|]. by apply lookup_app_l_Some.
    + apply Hc, elem_of_children in Hx as (r & E & Hpr). exists r, index.
      split_and!; [done|lia|]. rewrite Hpr. by apply lookup_app_l_Some.
  - intros j q c r Hj Ej E Hq. apply elem_of_app.
    destruct (decide (j = index)) as [->|Hne].
    + rewrite lookup_app_l, Ep in Ej by done. injection Ej as ->. right.
      apply Hc, elem_of_children. eauto.
    + rewrite lookup_app_l in Ej by lia. left. apply (C j q c r); [lia|done|done|done].
  - rewrite length_app. lia.
Qed.

Lemma tree_loop_ok m root fuel tree index :
  rooted m root -> tree_inv m root tree index -> (S (size m) <= fuel + index)%nat ->
  exists l, tree_loop fuel m tree index = Ret l /\ base.NoDup l /\
    (forall x, x ∈ l <-> descends m root x).
Proof.
  intros Hr. revert tree index. induction fuel as [|fuel IH]; intros tree index Hi Hf;
    cbn [tree_loop]; destruct (tree !! index) as [p|] eqn:Ep.
  - pose proof (tree_inv_length _ _ _ _ Hi). apply lookup_lt_Some in Ep. lia.
  - exists tree. split; [done|]. apply lookup_ge_None in Ep. destruct Hi as [N R D P C I].
    split; [done|]. intros x. split; [auto|].
    induction 1 as [|x r E _ IHx]; [done|]. apply list_elem_of_lookup in IHx as [j Ej].
    apply (C j (parent_id r) x r); [apply lookup_lt_Some in Ej; lia|done..].
  - apply IH; [by apply tree_inv_step|lia].
  - exists tree. split; [done|]. apply lookup_ge_None in Ep. destruct Hi as [N R D P C I].
    split; [done|]. intros x. split; [auto|].
    induction 1 as [|x r E _ IHx]; [done|]. apply list_elem_of_lookup in IHx as [j Ej].
    apply (C j (parent_id r) x r); [apply lookup_lt_Some in Ej; lia|done..].
Qed.

(** [subsurface_tree_ids] terminates and lists the root and the surfaces
    below it, each exactly once. *)
Theorem subsurface_tree_ids_spec root s :
  cache_ok s ->
  exists l, subsurface_tree_ids root s = Ret l /\ base.NoDup l /\
    (forall x, x ∈ l <-> descends (roles s) root x).
Proof.
  intros H. apply tree_loop_ok; [apply H| |lia]. split.
  - apply NoDup_singleton.
  - by left.
  - intros x ->%list_elem_of_singleton. constructor.
  - intros x ->%list_elem_of_singleton. done.
  - intros j p c r Hj. lia.
  - cbn. lia.
Qed.
End Trees.

Lemma subsurface_tree_ids_spec_witness :
  exists l, subsurface_tree_ids (Order := list_order) 1 cache_default = Ret l /\ base.NoDup l /\
    (forall x, x ∈ l <-> descends (roles cache_default) 1 x).
Proof. apply (subsurface_tree_ids_spec (Order := list_order) 1 cache_default cache_ok_default). Defined.

Lemma remove_subtree_spec_witness :
  exists s' out, remove_subtree (Order := list_order) 1 cache_default = Ret (s', out) /\ cache_ok s' /\
    (forall id r, roles s' !! id = Some r <->
       roles cache_default !! id = Some r /\ ~ descends (roles cache_default) 1 id) /\
    zlength out + total role_entries (roles s') = total role_entries (roles cache_default).
Proof. apply (remove_subtree_spec (Order := list_order) 1 cache_default cache_ok_default). Defined.
