(* ===== verification/SurfaceQueue.v ===== *)
(** * SurfaceQueue: pending surface-tree transactions

    Models src/compositor/state/surface_transactions/{model,lineage,queue}.rs
    and the cancellation cascades of settlement.rs: which content updates a
    node of a transaction stands for, when two transactions may be merged,
    the order the nodes of a transaction are published in, and which pending
    transactions a cancelled one takes with it. A [Vec] is a list; a
    [debug_assert] is not part of the model. *)

From stdpp Require Import base list option sorting gmap.
From Stdlib Require Import ZArith Lia.
From S2P Require Import Prelude SurfaceCommit SurfaceCache.

(** ** Data *)

Inductive PendingAcquireState : Type :=
  RegistrationPending | EventfdBacked | FallbackBacked | AcquireReady.
#[export] Instance PendingAcquireState_eq_dec : EqDecision PendingAcquireState.
Proof. solve_decision. Defined.

Record SurfaceTreeAcquireDependency : Type := mkAcquire {
  ad_surface_commit_id : SurfaceCommitId;
  ad_commit_id : Z;
  ad_surface_id : Z;
  ad_owner_client_id : option Z;
  ad_surface_presentation_generation : option Z;
  ad_buffer_id : Z;
  ad_acquire : Token;
  ad_state : PendingAcquireState
}.
Record SurfaceTreeNodeLifetime : Type := mkLifetime {
  lt_surface_id : Z;
  lt_owner_client_id : Z;
  lt_surface_presentation_generation : Z
}.
Abbreviation Node := (Z * CachedSubsurfaceCommit)%type.

Record PendingSurfaceTreeTransaction : Type := mkTransaction {
  tx_id : Z;
  tx_root_surface_id : Z;
  tx_nodes : list Node;
  tx_publication_lifetimes : list SurfaceTreeNodeLifetime;
  tx_dependencies : list SurfaceTreeAcquireDependency;
  tx_external : list ContentUpdateRef;
  tx_commit_timing_readiness : option Token;
  tx_received_at : Token
}.
Inductive TransactionOrdering : Type := Coalescible | PacingProtected.
#[export] Instance TransactionOrdering_eq_dec : EqDecision TransactionOrdering.
Proof. solve_decision. Defined.

(** [max_by] keeps the last of equal maxima. *)
Definition commit_timing_request (t : PendingSurfaceTreeTransaction)
  : option CommitTimingConstraint :=
  foldl (fun best n =>
           match commit_timing (pacing (snd n)), best with
           | Some c, Some b => if timing_ltb c b then Some b else Some c
           | Some c, None => Some c
           | None, best => best
           end) None (tx_nodes t).
Definition protects (n : Node) : bool :=
  is_boundary (pacing (snd n)) || merge_frozen (lineage (snd n)).
Definition ordering (t : PendingSurfaceTreeTransaction) : TransactionOrdering :=
  if existsb protects (tx_nodes t) then PacingProtected else Coalescible.
Definition is_pacing_protected (t : PendingSurfaceTreeTransaction) : bool :=
  bool_decide (ordering t = PacingProtected).

(** ** Lineage *)

Definition content_update_node_covers_ref (node_surface_id : Z) (commit : CachedSubsurfaceCommit)
  (reference : ContentUpdateRef) : bool :=
  if negb (ref_surface_id reference =? node_surface_id)
     || (commit_sequence commit <? ref_commit_sequence reference)
  then false
  else if match predecessor (lineage commit) with
          | Some p => ref_commit_sequence reference <=? ref_commit_sequence p
          | None => false
          end
  then false
  else if ref_commit_sequence reference =? commit_sequence commit
  then ref_commit_id reference =? commit_id commit
  else true.

(** The first node that covers the reference. *)
Fixpoint node_index_covering_content_update_ref (nodes : list Node) (reference : ContentUpdateRef)
  : option nat :=
  match nodes with
  | [] => None
  | (surface_id, commit) :: nodes =>
      if content_update_node_covers_ref surface_id commit reference then Some 0%nat
      else S <$> node_index_covering_content_update_ref nodes reference
  end.
Definition transaction_node_index_covering_content_update_ref (t : PendingSurfaceTreeTransaction)
  (reference : ContentUpdateRef) : option nat :=
  node_index_covering_content_update_ref (tx_nodes t) reference.
Definition transaction_covers_content_update_ref (t : PendingSurfaceTreeTransaction)
  (reference : ContentUpdateRef) : bool :=
  is_some (transaction_node_index_covering_content_update_ref t reference).

Definition references_node (references : list ContentUpdateRef) (commit : CachedSubsurfaceCommit)
  : bool :=
  match predecessor (lineage commit) with
  | Some p => bool_decide (p ∈ references)
  | None => false
  end
  || existsb (fun d => bool_decide (d ∈ references)) (child_dependencies (lineage commit)).
Definition transaction_references_any_content_update (t : PendingSurfaceTreeTransaction)
  (references : list ContentUpdateRef) : bool :=
  existsb (fun d => bool_decide (d ∈ references)) (tx_external t)
  || existsb (fun n => references_node references (snd n)) (tx_nodes t).

Definition add_unique_content_update_ref (references : list ContentUpdateRef)
  (reference : ContentUpdateRef) : list ContentUpdateRef * bool :=
  if decide (reference ∈ references) then (references, false)
  else (references ++ [reference], true).

(** ** Merging *)

Record SurfaceTreeProgressAcquireReplacement : Type := mkReplacement {
  rp_surface_id : Z;
  rp_anchor_commit_id : SurfaceCommitId;
  rp_incoming_commit_id : SurfaceCommitId
}.

(** One anchor dependency of [surface_tree_merge_would_replace_progress_acquire]. *)
Definition replaces_progress (target_nodes incoming_nodes : list Node)
  (incoming_dependencies : list SurfaceTreeAcquireDependency) (anchor : SurfaceTreeAcquireDependency)
  : option SurfaceTreeProgressAcquireReplacement :=
  if decide (ad_state anchor = AcquireReady) then None
  else
    '(surface_id, anchor_commit) ←
      List.find (fun n => (fst n =? ad_surface_id anchor)
                          && (commit_id (snd n) =? ad_surface_commit_id anchor)) target_nodes;
    match attachment anchor_commit with
    | Some (AttachBuffer anchor_buffer) =>
        if negb (buf_resource anchor_buffer =? ad_buffer_id anchor) then None
        else
          '(_, incoming_commit) ← List.find (fun n => fst n =? surface_id) incoming_nodes;
          match attachment incoming_commit with
          | Some (AttachBuffer incoming_buffer) =>
              if existsb (fun d => (ad_surface_id d =? surface_id)
                                   && (ad_surface_commit_id d =? commit_id incoming_commit)
                                   && (ad_buffer_id d =? buf_resource incoming_buffer)
                                   && negb (bool_decide (ad_state d = AcquireReady)))
                   incoming_dependencies
              then Some (mkReplacement surface_id (commit_id anchor_commit)
                           (commit_id incoming_commit))
              else None
          | _ => None
          end
    | _ => None
    end.
Definition surface_tree_merge_would_replace_progress_acquire (target : PendingSurfaceTreeTransaction)
  (incoming_nodes : list Node) (incoming_dependencies : list SurfaceTreeAcquireDependency)
  : option SurfaceTreeProgressAcquireReplacement :=
  head (omap (replaces_progress (tx_nodes target) incoming_nodes incoming_dependencies)
          (tx_dependencies target)).

(** The check of one incoming node against the target. *)
Definition node_coalesces (target_nodes : list Node) (surface_id : Z)
  (incoming : CachedSubsurfaceCommit) : bool :=
  match List.filter (fun n => fst n =? surface_id) target_nodes with
  | [] => true
  | [(_, existing)] =>
      if commit_sequence incoming <=? commit_sequence existing then false
      else match predecessor (lineage incoming) with
           | None => false
           | Some p =>
               negb (negb (ref_surface_id p =? surface_id)
                     || (commit_sequence incoming <=? ref_commit_sequence p)
                     || negb (content_update_node_covers_ref surface_id existing p))
           end
  | _ => false
  end.
Fixpoint nodes_coalesce (target_nodes : list Node) (seen : list Z) (incoming : list Node) : bool :=
  match incoming with
  | [] => true
  | (surface_id, commit) :: incoming =>
      if bool_decide (surface_id ∈ seen) then false
      else if node_coalesces target_nodes surface_id commit
      then nodes_coalesce target_nodes (seen ++ [surface_id]) incoming
      else false
  end.
Definition can_coalesce_pending_surface_tree_transaction (target : PendingSurfaceTreeTransaction)
  (incoming_nodes : list Node) : bool :=
  if negb (bool_decide (ordering target = Coalescible))
     || existsb (fun n => merge_frozen (lineage (snd n))) (tx_nodes target)
     || existsb protects incoming_nodes
  then false
  else nodes_coalesce (tx_nodes target) [] incoming_nodes.

(** ** External dependencies *)

Definition normalize_external_content_dependencies_for_nodes (nodes : list Node)
  (dependencies : list ContentUpdateRef) : list ContentUpdateRef :=
  extend_unique []
    (List.filter (fun d => negb (is_some (node_index_covering_content_update_ref nodes d)))
       dependencies).
Definition with_external (l : list ContentUpdateRef) (t : PendingSurfaceTreeTransaction)
  : PendingSurfaceTreeTransaction :=
  mkTransaction (tx_id t) (tx_root_surface_id t) (tx_nodes t) (tx_publication_lifetimes t)
    (tx_dependencies t) l (tx_commit_timing_readiness t) (tx_received_at t).
Definition normalize_transaction_external_content_dependencies (t : PendingSurfaceTreeTransaction)
  : PendingSurfaceTreeTransaction :=
  with_external
    (extend_unique []
       (List.filter (fun d => negb (transaction_covers_content_update_ref t d)) (tx_external t))) t.

(** ** Node order *)

(** The references a node has to come after. *)
Definition node_dependencies (commit : CachedSubsurfaceCommit) : list ContentUpdateRef :=
  option_list (predecessor (lineage commit)) ++ child_dependencies (lineage commit).

(** The graph: an in-degree and the list of successors per node. *)
Abbreviation Graph := (list nat * list (list nat))%type.
Definition bump_indegree (j : nat) (g : Graph) : Graph := (alter S j (fst g), snd g).
Definition push_successor (i j : nat) (g : Graph) : Graph :=
  (fst g, alter (fun l => l ++ [j]) i (snd g)).

(** One dependency of the node [dependent]. *)
Definition add_dependency (nodes : list Node) (dependent : nat) (g : Graph)
  (dependency : ContentUpdateRef) : Graph :=
  match node_index_covering_content_update_ref nodes dependency with
  | None => g
  | Some i =>
      if (i =? dependent)%nat || bool_decide (dependent ∈ default [] (snd g !! i)) then g
      else bump_indegree dependent (push_successor i dependent g)
  end.
Definition add_node (nodes : list Node) (dependent : nat) (g : Graph)
  (commit : CachedSubsurfaceCommit) : Graph :=
  foldl (add_dependency nodes dependent) g (node_dependencies commit).
Fixpoint add_nodes (nodes : list Node) (index : nat) (rest : list Node) (g : Graph) : Graph :=
  match rest with
  | [] => g
  | (_, commit) :: rest => add_nodes nodes (S index) rest (add_node nodes index g commit)
  end.
Definition dependency_graph (nodes : list Node) : Graph :=
  add_nodes nodes 0 nodes
    (replicate (length nodes) 0%nat, replicate (length nodes) ([] : list nat)).

(** [(0..node_count).find(|i| !selected[i] && indegree[i] == 0)]. *)
Definition next_node (n : nat) (selected : list bool) (indegree : list nat) : option nat :=
  List.find (fun i => negb (default true (selected !! i))
                      && (default 1%nat (indegree !! i) =? 0)%nat) (seq 0 n).
(** [rounds] iterations; [None] when a cycle leaves no node to pick. *)
Fixpoint kahn (rounds n : nat) (successors : list (list nat)) (selected : list bool)
  (indegree : list nat) (order : list nat) : option (list nat) :=
  match rounds with
  | O => Some order
  | S rounds =>
      match next_node n selected indegree with
      | None => None
      | Some next =>
          kahn rounds n successors (<[next := true]> selected)
            (foldl (fun deg s => alter pred s deg) indegree (default [] (successors !! next)))
            (order ++ [next])
      end
  end.
Definition node_order (nodes : list Node) : option (list nat) :=
  let n := length nodes in
  let '(indegree, successors) := dependency_graph nodes in
  kahn n n successors (replicate n false) indegree [].

(** [slots[index].take().expect(..)] for each index of the order. *)
Fixpoint take_slots {A} (slots : list (option A)) (order : list nat) : res unit (list A) :=
  match order with
  | [] => Ret []
  | i :: order =>
      match slots !! i with
      | Some (Some a) => rest ← take_slots (<[i := None]> slots) order; Ret (a :: rest)
      | _ => Panic
      end
  end.

Definition is_identity (order : list nat) : bool := bool_decide (order = seq 0 (length order)).

Definition with_nodes (nodes : list Node) (lifetimes : list SurfaceTreeNodeLifetime)
  (t : PendingSurfaceTreeTransaction) : PendingSurfaceTreeTransaction :=
  mkTransaction (tx_id t) (tx_root_surface_id t) nodes lifetimes (tx_dependencies t)
    (tx_external t) (tx_commit_timing_readiness t) (tx_received_at t).

Definition normalize_surface_tree_node_order (t : PendingSurfaceTreeTransaction)
  : res unit PendingSurfaceTreeTransaction :=
  if (length (tx_nodes t) <? 2)%nat then Ret t
  else match node_order (tx_nodes t) with
       | None => Ret t
       | Some order =>
           if is_identity order then Ret t
           else
             nodes ← take_slots (Some <$> tx_nodes t) order;
             lifetimes ← take_slots (Some <$> tx_publication_lifetimes t) order;
             Ret (with_nodes nodes lifetimes t)
       end.

(** ** The queue *)

Definition MAX_SURFACE_TREE_TRANSACTIONS_PER_ROOT : Z := 8.

(** The queue half of [SurfaceTransactionState]. *)
Record QueueState : Type := mkQueue {
  pending : list PendingSurfaceTreeTransaction;
  next_surface_tree_transaction_id : Z
}.
Definition set_pending_trees (l : list PendingSurfaceTreeTransaction) (q : QueueState) : QueueState :=
  mkQueue l (next_surface_tree_transaction_id q).

Definition pending_tree_count_for_root (root : Z) (q : QueueState) : nat :=
  length (List.filter (fun t => tx_root_surface_id t =? root) (pending q)).
Definition take_pending_tree_at (index : nat) (q : QueueState)
  : QueueState * option PendingSurfaceTreeTransaction :=
  if (index <? length (pending q))%nat
  then (set_pending_trees (take index (pending q) ++ drop (S index) (pending q)) q,
        pending q !! index)
  else (q, None).

(** The partition loop of [take_pending_trees_matching]: retained, taken. *)
Fixpoint partition_trees (predicate : PendingSurfaceTreeTransaction -> bool)
  (l retained taken : list PendingSurfaceTreeTransaction)
  : list PendingSurfaceTreeTransaction * list PendingSurfaceTreeTransaction :=
  match l with
  | [] => (retained, taken)
  | t :: l =>
      if predicate t then partition_trees predicate l retained (taken ++ [t])
      else partition_trees predicate l (retained ++ [t]) taken
  end.
Definition take_pending_trees_matching (predicate : PendingSurfaceTreeTransaction -> bool)
  (q : QueueState) : QueueState * list PendingSurfaceTreeTransaction :=
  let '(retained, taken) := partition_trees predicate (pending q) [] [] in
  (set_pending_trees retained q, taken).
Definition has_node (surface_id : Z) (t : PendingSurfaceTreeTransaction) : bool :=
  existsb (fun n => fst n =? surface_id) (tx_nodes t).
Definition take_pending_trees_for_root (root : Z)
  : QueueState -> QueueState * list PendingSurfaceTreeTransaction :=
  take_pending_trees_matching (fun t => tx_root_surface_id t =? root).
Definition take_pending_trees_for_surface (surface_id : Z)
  : QueueState -> QueueState * list PendingSurfaceTreeTransaction :=
  take_pending_trees_matching (has_node surface_id).
Definition take_pending_tree_dependents (references : list ContentUpdateRef)
  : QueueState -> QueueState * list PendingSurfaceTreeTransaction :=
  take_pending_trees_matching (fun t => transaction_references_any_content_update t references).

Definition acquire_dependency (commit : Z) (q : QueueState) : option SurfaceTreeAcquireDependency :=
  List.find (fun d => ad_commit_id d =? commit) (List.flat_map tx_dependencies (pending q)).
Definition transaction_by_id (id : Z) (q : QueueState) : option PendingSurfaceTreeTransaction :=
  List.find (fun t => tx_id t =? id) (pending q).
Definition contains_content_update (reference : ContentUpdateRef) (q : QueueState) : bool :=
  existsb (fun t => transaction_covers_content_update_ref t reference) (pending q).
Definition contains_pending_surface (surface_id : Z) (q : QueueState) : bool :=
  existsb (has_node surface_id) (pending q).

(** [position(t.id == id)]. *)
Fixpoint tree_position (id : Z) (l : list PendingSurfaceTreeTransaction) : option nat :=
  match l with
  | [] => None
  | t :: l => if tx_id t =? id then Some 0%nat else S <$> tree_position id l
  end.
Definition root_seen (root : Z) (l : list PendingSurfaceTreeTransaction) : bool :=
  existsb (fun t => tx_root_surface_id t =? root) l.
Definition is_root_head (id : Z) (q : QueueState) : bool :=
  match tree_position id (pending q) with
  | None => false
  | Some index =>
      match pending q !! index with
      | Some t => negb (root_seen (tx_root_surface_id t) (take index (pending q)))
      | None => false
      end
  end.
Fixpoint root_heads (before l : list PendingSurfaceTreeTransaction)
  : list PendingSurfaceTreeTransaction :=
  match l with
  | [] => []
  | t :: l =>
      (if root_seen (tx_root_surface_id t) before then [] else [t]) ++ root_heads (before ++ [t]) l
  end.
Definition pending_root_heads (q : QueueState) : list PendingSurfaceTreeTransaction :=
  root_heads [] (pending q).

Definition with_readiness (r : option Token) (t : PendingSurfaceTreeTransaction)
  : PendingSurfaceTreeTransaction :=
  mkTransaction (tx_id t) (tx_root_surface_id t) (tx_nodes t) (tx_publication_lifetimes t)
    (tx_dependencies t) (tx_external t) r (tx_received_at t).
(** [find(..)] and a mutation of the element found. *)
Fixpoint update_first {A} (p : A -> bool) (f : A -> A) (l : list A) : list A * bool :=
  match l with
  | [] => ([], false)
  | x :: l =>
      if p x then (f x :: l, true)
      else let '(l, found) := update_first p f l in (x :: l, found)
  end.
Definition set_commit_timing_readiness (id : Z) (readiness : option Token) (q : QueueState)
  : QueueState * bool :=
  let '(l, found) := update_first (fun t => tx_id t =? id) (with_readiness readiness) (pending q) in
  (set_pending_trees l q, found).

Definition clear_node_resize (surfaces : list Z) (n : Node) : Node :=
  let '(id, c) := n in
  if bool_decide (id ∈ surfaces)
  then (id, mkCommit (commit_id c) (commit_sequence c) (lineage c)
     (match attachment c with
      | Some (AttachBuffer b) =>
          Some (AttachBuffer (mkBuffer (buf_resource b) (buf_dmabuf_planes b) None))
      | a => a
      end) (damage c) (frame_callbacks c) (explicit_sync c) (offset c)
     (viewport_destination c) (viewport_error_owner c) (buffer_scale c) (buffer_transform c)
     (opaque_region c) (input_region c) (background_effect c) (background_effect_coverage c)
     (presentation_feedbacks c) None (resize_capture_finalized c) (window_geometry c)
     (cached_at c) (pacing c) (presentation c) (pointer_constraint_state c) (commit_context c))
  else n.
Definition clear_resize_state_for_surfaces (surfaces : list Z) (q : QueueState) : QueueState :=
  set_pending_trees
    (map (fun t => with_nodes (map (clear_node_resize surfaces) (tx_nodes t))
                     (tx_publication_lifetimes t) t) (pending q)) q.

Definition push_pending_tree (t : PendingSurfaceTreeTransaction) (q : QueueState) : QueueState :=
  set_pending_trees (pending q ++ [t]) q.
Definition allocate_surface_tree_transaction_id (q : QueueState) : res unit (QueueState * Z) :=
  next ← expect (checked_add u64_max (next_surface_tree_transaction_id q) 1);
  Ret (mkQueue (pending q) next, next).

(** [drain_unpublished_commits]: the cached commits, then the nodes of every
    pending transaction. *)
Definition drain_unpublished_commits {Order : HashOrder} (s : CacheState) (q : QueueState)
  : res unit (CacheState * QueueState * list CachedSubsurfaceCommit) :=
  '(s, commits) ← drain_cached_commits s;
  Ret (s, set_pending_trees [] q,
       commits ++ List.flat_map (fun t => map snd (tx_nodes t)) (pending q)).

(** ** Cancellation cascades

    Both cascades of settlement.rs repeat: take the transactions that meet
    the keys cancelled so far, add their own keys, stop when that adds none.
    What is released is returned in order. *)
Fixpoint cascade {K} (fuel : nat) (hit : list K -> PendingSurfaceTreeTransaction -> bool)
  (keys_of : PendingSurfaceTreeTransaction -> list K) (keys : list K)
  (l released : list PendingSurfaceTreeTransaction)
  : res unit (list PendingSurfaceTreeTransaction * list PendingSurfaceTreeTransaction) :=
  match fuel with
  | O => NoFuel
  | S fuel =>
      let '(retained, taken) := partition_trees (hit keys) l [] [] in
      let new_keys := List.flat_map keys_of taken in
      let released := released ++ taken in
      match new_keys with
      | [] => Ret (retained, released)
      | _ => cascade fuel hit keys_of (keys ++ new_keys) retained released
      end
  end.

Definition node_refs (t : PendingSurfaceTreeTransaction) : list ContentUpdateRef :=
  map (fun n => content_update_ref (snd n) (fst n)) (tx_nodes t).
Definition references_any (references : list ContentUpdateRef) (t : PendingSurfaceTreeTransaction)
  : bool := transaction_references_any_content_update t references.

(** Whether a transaction with a scheduled commit time was released. *)
Definition pacing_deadline_changed (released : list PendingSurfaceTreeTransaction) : bool :=
  existsb (fun t => is_some (tx_commit_timing_readiness t)) released.

Definition cancel_pending_surface_tree_dependents (canceled_refs : list ContentUpdateRef)
  (q : QueueState) : res unit (QueueState * list PendingSurfaceTreeTransaction * bool) :=
  '(retained, released) ←
    cascade (S (length (pending q))) references_any node_refs canceled_refs (pending q) [];
  Ret (set_pending_trees retained q, released, pacing_deadline_changed released).

(** [discard_surface_tree_dependents_from_queue] cancels by root as well: a
    key is a root or a content update. *)
Definition root_keys (t : PendingSurfaceTreeTransaction) : list (Z + ContentUpdateRef) :=
  inl (tx_root_surface_id t) :: map inr (node_refs t).
Definition roots_in (keys : list (Z + ContentUpdateRef)) : list Z :=
  omap (fun k => match k with inl r => Some r | inr _ => None end) keys.
Definition refs_in (keys : list (Z + ContentUpdateRef)) : list ContentUpdateRef :=
  omap (fun k => match k with inl _ => None | inr r => Some r end) keys.
Definition meets_keys (keys : list (Z + ContentUpdateRef)) (t : PendingSurfaceTreeTransaction)
  : bool :=
  bool_decide (tx_root_surface_id t ∈ roots_in keys)
  || transaction_references_any_content_update t (refs_in keys).
Definition discard_surface_tree_dependents_from_queue (root : Z)
  (canceled_refs : list ContentUpdateRef) (l : list PendingSurfaceTreeTransaction)
  : res unit (list PendingSurfaceTreeTransaction * list PendingSurfaceTreeTransaction * bool) :=
  '(retained, released) ←
    cascade (S (length l)) meets_keys root_keys (inl root :: map inr canceled_refs) l [];
  Ret (retained, released, pacing_deadline_changed released).

(** ** Partitions *)

Lemma partition_trees_eq p l r t :
  partition_trees p l r t = (r ++ List.filter (fun x => negb (p x)) l, t ++ List.filter p l).
Proof.
  revert r t. induction l as [|x l IH]; intros r t; cbn; [by rewrite !app_nil_r|].
  destruct (p x); rewrite IH; cbn; by rewrite <- ?app_assoc.
Qed.

(** Taking keeps the order of both parts and loses nothing. *)
Lemma take_matching_spec p q :
  take_pending_trees_matching p q
  = (set_pending_trees (List.filter (fun x => negb (p x)) (pending q)) q,
     List.filter p (pending q)).
Proof. unfold take_pending_trees_matching. by rewrite partition_trees_eq. Qed.

Lemma filter_split_length {A} (p : A -> bool) l :
  (length (List.filter (fun x => negb (p x)) l) + length (List.filter p l) = length l)%nat.
Proof. induction l as [|x l IH]; cbn; [done|]. destruct (p x); cbn; lia. Qed.

(** ** Cascades *)

Section Cascade.
Context {K : Type} (hit : list K -> PendingSurfaceTreeTransaction -> bool)
  (keys_of : PendingSurfaceTreeTransaction -> list K).
Hypothesis hit_nil : forall t, hit [] t = false.
Hypothesis hit_app : forall k k' t, hit (k ++ k') t = hit k t || hit k' t.

(** The transactions a cancellation of [keys] reaches in [l]. *)
Inductive reached (l : list PendingSurfaceTreeTransaction) (keys : list K)
  : PendingSurfaceTreeTransaction -> Prop :=
| reached_key t : t ∈ l -> hit keys t = true -> reached l keys t
| reached_from t u : t ∈ l -> reached l keys u -> hit (keys_of u) t = true -> reached l keys t.

Lemma hit_flat_map ts t :
  hit (List.flat_map keys_of ts) t = true <-> exists u, u ∈ ts /\ hit (keys_of u) t = true.
Proof.
  induction ts as [|u ts IH]; cbn.
  - rewrite hit_nil. split; [done|]. by intros (u & Hu%elem_of_nil & _).
  - rewrite hit_app, orb_true_iff, IH. split.
    + intros [H|(v & Hv & H)]; [exists u|exists v]; rewrite elem_of_cons; auto.
    + intros (v & [->|Hv]%elem_of_cons & H); eauto.
Qed.

(** A transaction is out of reach of the final keys when it is not reached. *)
Lemma reached_closed l keys (retained released : list PendingSurfaceTreeTransaction) :
  retained ++ released ≡ₚ l ->
  (forall t, t ∈ retained -> hit (keys ++ List.flat_map keys_of released) t = false) ->
  forall t, reached l keys t -> t ∈ released.
Proof.
  intros Hp Hr.
  assert (Hl : forall t, t ∈ l -> t ∈ retained \/ t ∈ released)
    by (intros t Ht; rewrite <- Hp in Ht; by apply elem_of_app). induction 1 as [t Ht Hk|t u Ht _ IH Hk].
  - destruct (Hl t Ht) as [H|]; [|done]. specialize (Hr t H). rewrite hit_app, Hk in Hr. done.
  - destruct (Hl t Ht) as [H|]; [|done]. specialize (Hr t H).
    rewrite hit_app, orb_false_iff in Hr. destruct Hr as [_ Hr].
    assert (hit (List.flat_map keys_of released) t = true) by (apply hit_flat_map; eauto). congruence.
Qed.

Lemma cascade_ok l0 keys0 fuel l released :
  (length l < fuel)%nat -> (forall t, t ∈ l -> t ∈ l0) ->
  (forall t, t ∈ released -> reached l0 keys0 t) ->
  exists retained released',
    cascade fuel hit keys_of (keys0 ++ List.flat_map keys_of released) l released
    = Ret (retained, released ++ released') /\
    retained ++ released' ≡ₚ l /\
    (forall t, t ∈ released ++ released' -> reached l0 keys0 t) /\
    (forall t, t ∈ retained ->
       hit (keys0 ++ List.flat_map keys_of (released ++ released')) t = false).
Proof.
  revert l released. induction fuel as [|fuel IH]; intros l released Hf Hl Hrel; [lia|].
  cbn [cascade]. set (keys := keys0 ++ List.flat_map keys_of released).
  rewrite partition_trees_eq. cbn [app].
  set (kept := List.filter (fun x => negb (hit keys x)) l). set (taken := List.filter (hit keys) l).
  assert (Hperm : kept ++ taken ≡ₚ l).
  { subst kept taken. clear. induction l as [|x l IH]; [done|]. cbn. destruct (hit keys x); cbn.
    - rewrite <- Permutation_middle. by constructor.
    - by constructor. }
  assert (Htaken : forall t, t ∈ taken -> reached l0 keys0 t).
  { intros t Ht. subst taken. rewrite list_elem_of_In, filter_In, <- list_elem_of_In in Ht.
    destruct Ht as [Ht Hk]. unfold keys in Hk. rewrite hit_app, orb_true_iff in Hk.
    destruct Hk as [Hk|Hk]; [apply reached_key; auto|].
    apply hit_flat_map in Hk as (u & Hu & Hk). eapply reached_from; eauto. }
  assert (Hall : forall t, t ∈ released ++ taken -> reached l0 keys0 t)
    by (intros t [?|?]%elem_of_app; auto).
  destruct (List.flat_map keys_of taken) as [|k new] eqn:Ek.
  - exists kept, taken. split_and!; [done|done|done|]. intros t Ht.
    rewrite List.flat_map_app, Ek, app_nil_r. fold keys. subst kept.
    rewrite list_elem_of_In, filter_In in Ht. apply negb_true_iff, Ht.
  - assert (Hlen : (length kept < length l)%nat).
    { pose proof (filter_split_length (hit keys) l). fold kept taken in H.
      destruct taken; [done|]. cbn in H. lia. }
    destruct (IH kept (released ++ taken)) as (retained & rel' & Ec & Hp & Hr & Hk).
    + lia.
    + intros t Ht. apply Hl. subst kept. rewrite list_elem_of_In, filter_In in Ht.
      apply list_elem_of_In, Ht.
    + done.
    + exists retained, (taken ++ rel'). rewrite app_assoc in *. split_and!; [|..|done|done].
      * unfold keys. rewrite <- app_assoc, <- Ek, <- List.flat_map_app. exact Ec.
      * rewrite (Permutation_app_comm taken rel'), app_assoc, Hp. done.
Qed.
End Cascade.

Lemma elem_decide_app {A} `{!EqDecision A} (x : A) k k' :
  bool_decide (x ∈ k ++ k') = bool_decide (x ∈ k) || bool_decide (x ∈ k').
Proof.
  destruct (bool_decide_reflect (x ∈ k ++ k')) as [H|H]; rewrite elem_of_app in H;
    symmetry; rewrite ?orb_true_iff, ?orb_false_iff, ?bool_decide_eq_true, ?bool_decide_eq_false;
    tauto.
Qed.
Lemma existsb_orb {A} (f g : A -> bool) l :
  existsb (fun x => f x || g x) l = existsb f l || existsb g l.
Proof. induction l as [|x l IH]; cbn; [done|]. rewrite IH. by destruct (f x), (g x), (existsb f l). Qed.
Lemma existsb_ext' {A} (f g : A -> bool) l : (forall x, f x = g x) -> existsb f l = existsb g l.
Proof. intros H. induction l as [|x l IH]; cbn; [done|]. by rewrite H, IH. Qed.

Lemma references_node_app k k' c :
  references_node (k ++ k') c = references_node k c || references_node k' c.
Proof.
  unfold references_node.
  rewrite (existsb_ext' _ _ _ (fun d => elem_decide_app d k k')), existsb_orb.
  destruct (predecessor (lineage c)) as [p|]; [rewrite elem_decide_app|];
    by destruct (existsb (fun d => bool_decide (d ∈ k)) _), (existsb (fun d => bool_decide (d ∈ k')) _);
    rewrite ?orb_true_r, ?orb_false_r.
Qed.
Lemma references_any_app k k' t :
  references_any (k ++ k') t = references_any k t || references_any k' t.
Proof.
  unfold references_any, transaction_references_any_content_update.
  rewrite (existsb_ext' _ _ _ (fun d => elem_decide_app d k k')), existsb_orb.
  rewrite (existsb_ext' _ _ _ (fun n => references_node_app k k' (snd n))), existsb_orb.
  by destruct (existsb _ _), (existsb _ _), (existsb _ _).
Qed.
Lemma existsb_false {A} (f : A -> bool) l : (forall x, f x = false) -> existsb f l = false.
Proof. intros H. induction l as [|x l IH]; cbn; [done|]. by rewrite H, IH. Qed.
Lemma references_any_nil t : references_any [] t = false.
Proof.
  unfold references_any, transaction_references_any_content_update, references_node.
  rewrite !existsb_false; [done|..].
  - intros n. rewrite existsb_false by done. by destruct (predecessor _).
  - done.
Qed.
Lemma meets_keys_app k k' t : meets_keys (k ++ k') t = meets_keys k t || meets_keys k' t.
Proof.
  unfold meets_keys, roots_in, refs_in. rewrite !omap_app, elem_decide_app.
  change (transaction_references_any_content_update t ?l) with (references_any l t).
  rewrite references_any_app.
  by destruct (bool_decide _), (bool_decide _), (references_any _ _), (references_any _ _).
Qed.
Lemma meets_keys_nil t : meets_keys [] t = false.
Proof. unfold meets_keys. cbn. apply references_any_nil. Qed.

(** C24: cancelling content updates cancels exactly what depends on them: the
    cascade terminates, what it retains is out of reach of everything that
    was cancelled, and what it releases was reached from the cancelled
    updates through a chain of dependencies. *)
Theorem cancellation_cascade_exact refs q :
  exists retained released,
    cancel_pending_surface_tree_dependents refs q
    = Ret (set_pending_trees retained q, released, pacing_deadline_changed released) /\
    retained ++ released ≡ₚ pending q /\
    (forall t, t ∈ released <-> reached references_any node_refs (pending q) refs t) /\
    (forall t, t ∈ retained ->
       references_any (refs ++ List.flat_map node_refs released) t = false).
Proof.
  destruct (cascade_ok references_any node_refs references_any_nil references_any_app
    (pending q) refs (S (length (pending q))) (pending q) []) as (retained & rel & E & Hp & Hr & Hk);
    [lia|done|by intros t ?%elem_of_nil|].
  cbn [List.flat_map app] in *. rewrite app_nil_r in E. exists retained, rel.
  unfold cancel_pending_surface_tree_dependents. rewrite E. split_and!; [done|done| |done].
  intros t. split; [auto|].
  by apply (reached_closed _ _ references_any_nil references_any_app _ _ retained).
Qed.

(** The cascade of an unpublished tree, by root and by content update. *)
Lemma discard_cascade_exact root refs l :
  exists retained released,
    discard_surface_tree_dependents_from_queue root refs l
    = Ret (retained, released, pacing_deadline_changed released) /\
    retained ++ released ≡ₚ l /\
    (forall t, t ∈ released <->
       reached meets_keys root_keys l (inl root :: map inr refs) t) /\
    (forall t, t ∈ retained ->
       meets_keys ((inl root :: map inr refs) ++ List.flat_map root_keys released) t = false).
Proof.
  destruct (cascade_ok meets_keys root_keys meets_keys_nil meets_keys_app
    l (inl root :: map inr refs) (S (length l)) l []) as (retained & rel & E & Hp & Hr & Hk);
    [lia|done|by intros t ?%elem_of_nil|].
  cbn [List.flat_map app] in *. rewrite app_nil_r in E. exists retained, rel.
  unfold discard_surface_tree_dependents_from_queue. rewrite E. split_and!; [done|done| |done].
  intros t. split; [auto|].
  by apply (reached_closed _ _ meets_keys_nil meets_keys_app _ _ retained).
Qed.

(** ** The publication order *)

(** Node [i] has to be published before node [j]. *)
Definition edge (nodes : list Node) (i j : nat) : Prop :=
  i <> j /\ exists n d, nodes !! j = Some n /\ d ∈ node_dependencies (snd n) /\
    node_index_covering_content_update_ref nodes d = Some i.

Definition cnt {A} (f : A -> bool) (l : list A) : nat := length (List.filter f l).

Lemma cnt_ext {A} (f g : A -> bool) l : (forall x, x ∈ l -> f x = g x) -> cnt f l = cnt g l.
Proof.
  unfold cnt. induction l as [|x l IH]; intros H; [done|]. cbn.
  rewrite (H x) by by left. assert (E : length (List.filter f l) = length (List.filter g l))
    by (apply IH; intros y Hy; apply H; by right).
  destruct (g x); cbn; by rewrite E.
Qed.
Lemma cnt_zero {A} (f : A -> bool) l : cnt f l = 0%nat -> forall x, x ∈ l -> f x = false.
Proof.
  unfold cnt. induction l as [|y l IH]; intros H x Hx; [by apply elem_of_nil in Hx|]. cbn in H.
  apply elem_of_cons in Hx as [->|Hx]; destruct (f y) eqn:E; cbn in H; try done. by apply IH.
Qed.
Lemma cnt_none {A} (f : A -> bool) l : (forall x, x ∈ l -> f x = false) -> cnt f l = 0%nat.
Proof. intros H. rewrite (cnt_ext f (fun _ => false)) by done. unfold cnt. clear. by induction l. Qed.
(** One element of the count turned off. *)
Lemma cnt_flip {A} `{!EqDecision A} (f : A -> bool) l x :
  base.NoDup l -> x ∈ l -> f x = true ->
  cnt f l = S (cnt (fun y => f y && negb (bool_decide (y = x))) l).
Proof.
  intros Hn Hx Hf. induction l as [|y l IH]; [by apply elem_of_nil in Hx|].
  apply list.NoDup_cons in Hn as [Hy Hn]. unfold cnt in *. cbn.
  destruct (decide (y = x)) as [->|Hne].
  - rewrite Hf, bool_decide_eq_true_2 by done. cbn. f_equal. apply cnt_ext.
    intros z Hz. rewrite bool_decide_eq_false_2 by (intros ->; done). by rewrite andb_true_r.
  - apply elem_of_cons in Hx as [->|Hx]; [done|]. rewrite (bool_decide_eq_false_2 (y = x)) by done.
    rewrite andb_true_r. destruct (f y); cbn; by rewrite IH.
Qed.

Lemma find_first_seq (f : nat -> bool) n next :
  List.find f (seq 0 n) = Some next -> forall i, (i < next)%nat -> f i = false.
Proof.
  intros E. assert (H : forall s m, List.find f (seq s m) = Some next ->
    forall i, (s <= i < next)%nat -> f i = false).
  { clear E. intros s m. revert s. induction m as [|m IH]; intros s E i Hi; cbn in E; [done|].
    destruct (f s) eqn:Ef; [injection E as ->; lia|].
    destruct (decide (i = s)) as [->|Hne]; [done|]. apply (IH (S s)); [done|lia]. }
  intros i Hi. apply (H 0%nat n E). lia.
Qed.

Section Kahn.
Context (n : nat) (succ : list (list nat)).

Definition points_to (i j : nat) : Prop := j ∈ default [] (succ !! i).
#[export] Instance points_to_dec i j : Decision (points_to i j).
Proof. unfold points_to. apply _. Defined.
(** The predecessors of [j] outside [order]. *)
Definition waiting (order : list nat) (j : nat) : nat :=
  cnt (fun i => negb (bool_decide (i ∈ order)) && bool_decide (points_to i j)) (seq 0 n).

Record kahn_inv (selected : list bool) (deg : list nat) (order : list nat) : Prop := {
  ki_selected : forall i, (i < n)%nat -> selected !! i = Some (bool_decide (i ∈ order));
  ki_deg : forall j, (j < n)%nat -> deg !! j = Some (waiting order j);
  ki_nodup : base.NoDup order;
  ki_range : forall i, i ∈ order -> (i < n)%nat;
  ki_before : forall k j, order !! k = Some j ->
    forall i, (i < n)%nat -> points_to i j -> i ∈ take k order
}.

Hypothesis succ_nodup : forall i l, succ !! i = Some l -> base.NoDup l.

Lemma decrement_lookup (l deg : list nat) (j : nat) :
  base.NoDup l ->
  foldl (fun deg s => alter pred s deg) deg l !! j
  = (fun d => if bool_decide (j ∈ l) then pred d else d) <$> deg !! j.
Proof.
  revert deg. induction l as [|s l IH]; intros deg Hn; cbn.
  - by destruct (deg !! j).
  - apply list.NoDup_cons in Hn as [Hs Hn]. rewrite IH by done.
    destruct (decide (j = s)) as [->|Hne].
    + rewrite list_lookup_alter_eq. rewrite (bool_decide_eq_false_2 (s ∈ l)) by done.
      rewrite bool_decide_eq_true_2 by by left. by destruct (deg !! s).
    + rewrite list_lookup_alter_ne by done. destruct (deg !! j); cbn; [|done]. f_equal.
      rewrite (bool_decide_ext (j ∈ s :: l) (j ∈ l)); [done|]. rewrite elem_of_cons. naive_solver.
Qed.

Lemma next_node_Some selected deg order next :
  kahn_inv selected deg order -> next_node n selected deg = Some next ->
  (next < n)%nat /\ (next ∉ order) /\
  (forall i, (i < n)%nat -> points_to i next -> i ∈ order) /\
  (forall i, (i < next)%nat -> i ∈ order \/ waiting order i <> 0%nat).
Proof.
  intros Hk E. unfold next_node in E.
  assert (Hn : (next < n)%nat).
  { apply find_some in E as [Hin _]. apply in_seq in Hin. lia. }
  assert (Hfirst : forall i, (i < next)%nat ->
    negb (default true (selected !! i)) && (default 1%nat (deg !! i) =? 0)%nat = false).
  { exact (find_first_seq _ n next E). }
  apply find_some in E as [_ E]. apply andb_prop in E as [E1 E2].
  rewrite (ki_selected _ _ _ Hk next Hn) in E1. rewrite (ki_deg _ _ _ Hk next Hn) in E2. cbn in E1, E2.
  apply Nat.eqb_eq in E2. apply negb_true_iff, bool_decide_eq_false in E1.
  split_and!; [done|done| |].
  - intros i Hi Hp. pose proof (cnt_zero _ _ E2 i) as Hz.
    rewrite list_elem_of_In, in_seq in Hz. specialize (Hz ltac:(lia)). cbn in Hz.
    rewrite (bool_decide_eq_true_2 _ Hp), andb_true_r in Hz.
    by apply negb_false_iff, bool_decide_eq_true in Hz.
  - intros i Hi. specialize (Hfirst i Hi).
    rewrite (ki_selected _ _ _ Hk i), (ki_deg _ _ _ Hk i) in Hfirst by lia. cbn in Hfirst.
    apply andb_false_iff in Hfirst as [Hf|Hf].
    + left. by apply negb_false_iff, bool_decide_eq_true in Hf.
    + right. by apply Nat.eqb_neq.
Qed.

Lemma kahn_inv_step selected deg order next :
  kahn_inv selected deg order -> next_node n selected deg = Some next ->
  kahn_inv (<[next := true]> selected)
    (foldl (fun deg s => alter pred s deg) deg (default [] (succ !! next))) (order ++ [next]).
Proof.
  intros Hk E. destruct (next_node_Some _ _ _ _ Hk E) as (Hn & Hno & Hp & _).
  assert (Hnd : base.NoDup (default [] (succ !! next))).
  { destruct (succ !! next) as [l|] eqn:El; cbn; [by eapply succ_nodup|constructor]. }
  split.
  - intros i Hi. destruct (decide (i = next)) as [->|Hne].
    + rewrite list_lookup_insert_eq by (eapply lookup_lt_Some, Hk; done).
      rewrite bool_decide_eq_true_2; [done|]. apply elem_of_app. right. by left.
    + rewrite list_lookup_insert_ne by done. rewrite (ki_selected _ _ _ Hk i Hi). f_equal.
      apply bool_decide_ext. rewrite elem_of_app, list_elem_of_singleton. naive_solver.
  - intros j Hj. rewrite decrement_lookup, (ki_deg _ _ _ Hk j Hj) by done. cbn. f_equal.
    assert (Hw : waiting (order ++ [next]) j
      = cnt (fun i => (negb (bool_decide (i ∈ order)) && bool_decide (points_to i j))
                      && negb (bool_decide (i = next))) (seq 0 n)).
    { apply cnt_ext. intros i _.
      rewrite (bool_decide_ext (i ∈ order ++ [next]) (i ∈ order \/ i = next))
        by by rewrite elem_of_app, list_elem_of_singleton.
      rewrite bool_decide_or.
      by destruct (bool_decide (i ∈ order)), (bool_decide (i = next)), (bool_decide (points_to i j)). }
    change (bool_decide (j ∈ default [] (succ !! next))) with (bool_decide (points_to next j)).
    destruct (bool_decide_reflect (points_to next j)) as [Hpt|Hpt].
    + unfold waiting at 1. rewrite (cnt_flip _ (seq 0 n) next), Hw; [done| | |].
      * apply NoDup_seq.
      * apply list_elem_of_In, in_seq. lia.
      * rewrite (bool_decide_eq_false_2 (next ∈ order)), bool_decide_eq_true_2 by done. done.
    + rewrite Hw. apply cnt_ext. intros i _. destruct (decide (i = next)) as [->|Hne].
      * rewrite (bool_decide_eq_false_2 _ Hpt), andb_false_r. done.
      * by rewrite (bool_decide_eq_false_2 (i = next)), andb_true_r by done.
  - apply list.NoDup_app. split_and!; [apply Hk| |apply NoDup_singleton].
    intros i Hi ->%list_elem_of_singleton. done.
  - intros i [Hi|Hi]%elem_of_app; [by apply (ki_range _ _ _ Hk)|].
    apply list_elem_of_singleton in Hi as ->. done.
  - intros k j Ej i Hi Hpt. apply lookup_app_Some in Ej as [Ej|[Hge Ej]].
    + rewrite take_app_le by (apply lookup_lt_Some in Ej; lia). by apply (ki_before _ _ _ Hk k j).
    + apply list_lookup_singleton_Some in Ej as [Ek ->].
      rewrite take_app_ge by lia. replace (k - length order)%nat with 0%nat by lia.
      cbn. rewrite app_nil_r. auto.
Qed.

Lemma kahn_Some rounds selected deg order result :
  kahn_inv selected deg order -> kahn rounds n succ selected deg order = Some result ->
  (exists selected' deg', kahn_inv selected' deg' result) /\
  length result = (length order + rounds)%nat.
Proof.
  revert selected deg order. induction rounds as [|rounds IH]; intros selected deg order Hk E; cbn in E.
  - injection E as <-. split; [eauto|lia].
  - destruct (next_node n selected deg) as [next|] eqn:En; [|done].
    destruct (IH _ _ _ (kahn_inv_step _ _ _ _ Hk En) E) as [H1 H2]. split; [done|].
    rewrite H2, length_app. cbn. lia.
Qed.

(** With edges that follow a measure no round is stuck. *)
Lemma kahn_total rounds selected deg order (f : nat -> nat) :
  kahn_inv selected deg order -> (length order + rounds <= n)%nat ->
  (forall i j, (i < n)%nat -> (j < n)%nat -> points_to i j -> (f i < f j)%nat) ->
  exists result, kahn rounds n succ selected deg order = Some result.
Proof.
  intros Hk Hl Hf. revert selected deg order Hk Hl.
  induction rounds as [|rounds IH]; intros selected deg order Hk Hl; cbn; [eauto|].
  destruct (next_node n selected deg) as [next|] eqn:En.
  - apply IH; [by apply kahn_inv_step|]. rewrite length_app. cbn. lia.
  - exfalso.
    assert (Hstuck : forall i, (i < n)%nat -> i ∉ order ->
      exists i', (i' < n)%nat /\ (i' ∉ order) /\ points_to i' i).
    { intros i Hi Hno. pose proof (find_none _ _ En i ltac:(apply in_seq; lia)) as Hz. cbn in Hz.
      rewrite (ki_selected _ _ _ Hk i Hi), (ki_deg _ _ _ Hk i Hi) in Hz. cbn in Hz.
      rewrite (bool_decide_eq_false_2 _ Hno) in Hz. cbn in Hz. apply Nat.eqb_neq in Hz.
      unfold waiting, cnt in Hz.
      destruct (List.filter _ (seq 0 n)) as [|i' l] eqn:El; [done|].
      assert (Hin : In i' (i' :: l)) by by left. rewrite <- El in Hin.
      apply filter_In in Hin as [Hin Hb]. apply in_seq in Hin. apply andb_prop in Hb as [Hb1 Hb2].
      apply negb_true_iff, bool_decide_eq_false in Hb1. apply bool_decide_eq_true in Hb2.
      exists i'. split_and!; [lia|done|done]. }
    assert (Hall : forall m i, (f i < m)%nat -> (i < n)%nat -> i ∉ order -> False).
    { induction m as [|m IHm]; intros i Hm Hi Hno; [lia|].
      destruct (Hstuck i Hi Hno) as (i' & Hi' & Hno' & Hp). specialize (Hf i' i Hi' Hi Hp).
      apply (IHm i'); [lia|done|done]. }
    assert (Hmiss : exists i, (i < n)%nat /\ i ∉ order).
    { destruct (decide (Forall (fun i => i ∈ order) (seq 0 n))) as [HF|HF].
      - exfalso. rewrite Forall_forall in HF.
        assert (Hsub : seq 0 n ⊆+ order).
        { apply NoDup_submseteq; [apply NoDup_seq|]. intros i Hi. by apply HF. }
        apply submseteq_length in Hsub. rewrite length_seq in Hsub. lia.
      - apply not_Forall_Exists in HF; [|apply _]. apply Exists_exists in HF as (i & Hi & Hno).
        exists i. split; [|done]. rewrite list_elem_of_In, in_seq in Hi. lia. }
    destruct Hmiss as (i & Hi & Hno). apply (Hall (S (f i)) i); [lia|done|done].
Qed.

(** A graph whose edges all point forward is emptied in order. *)
Lemma kahn_identity rounds selected deg k :
  kahn_inv selected deg (seq 0 k) -> (k + rounds <= n)%nat ->
  (forall i j, points_to i j -> (i < j)%nat) ->
  kahn rounds n succ selected deg (seq 0 k) = Some (seq 0 (k + rounds)).
Proof.
  intros Hk Hl Hf. revert selected deg k Hk Hl.
  induction rounds as [|rounds IH]; intros selected deg k Hk Hl; [by rewrite Nat.add_0_r|].
  destruct (kahn_total (S rounds) selected deg (seq 0 k) id Hk) as [r Hr];
    [rewrite length_seq; lia|intros i j _ _ H; by apply Hf|].
  cbn [kahn] in *. destruct (next_node n selected deg) as [next|] eqn:En; [|done].
  destruct (next_node_Some _ _ _ _ Hk En) as (Hn & Hno & Hp & Hfirst).
  rewrite list_elem_of_In, in_seq in Hno.
  assert (next = k) as ->.
  { destruct (decide (next = k)) as [|Hne]; [done|exfalso].
    destruct (Hfirst k ltac:(lia)) as [Hin|Hw]; [apply list_elem_of_In, in_seq in Hin; lia|].
    apply Hw. apply cnt_none. intros i _.
    destruct (bool_decide_reflect (points_to i k)) as [Hpt|]; [|apply andb_false_r].
    specialize (Hf _ _ Hpt). rewrite bool_decide_eq_true_2; [done|]. apply list_elem_of_In, in_seq. lia. }
  replace (seq 0 k ++ [k]) with (seq 0 (S k)) by (rewrite seq_S; done).
  rewrite IH; [f_equal; f_equal; lia| |lia].
  rewrite seq_S. by apply kahn_inv_step.
Qed.
End Kahn.

(** *** The graph *)

Lemma covering_index_lt nodes d i :
  node_index_covering_content_update_ref nodes d = Some i -> (i < length nodes)%nat.
Proof.
  revert i. induction nodes as [|[s c] nodes IH]; intros i E; cbn in E; [done|].
  destruct (content_update_node_covers_ref s c d); [injection E as <-; cbn; lia|].
  apply fmap_Some in E as (k & E & ->). specialize (IH k E). cbn. lia.
Qed.

Record graph_inv (n : nat) (g : Graph) : Prop := {
  gi_succ_length : length (snd g) = n;
  gi_deg_length : length (fst g) = n;
  gi_nodup : forall i l, snd g !! i = Some l -> base.NoDup l;
  gi_deg : forall j, (j < n)%nat -> fst g !! j = Some (waiting n (snd g) [] j)
}.

Lemma points_to_push (succ : list (list nat)) i j i' j' :
  (i < length succ)%nat ->
  points_to (alter (fun l => l ++ [j]) i succ) i' j'
  <-> points_to succ i' j' \/ i' = i /\ j' = j.
Proof.
  intros Hi. unfold points_to. destruct (decide (i' = i)) as [->|Hne].
  - rewrite list_lookup_alter_eq. destruct (lookup_lt_is_Some_2 succ i Hi) as [l El].
    rewrite El. cbn. rewrite elem_of_app, list_elem_of_singleton. naive_solver.
  - rewrite list_lookup_alter_ne by done. naive_solver.
Qed.

(** One element of the count turned on. *)
Lemma cnt_on {A} `{!EqDecision A} (f g : A -> bool) l x :
  base.NoDup l -> x ∈ l -> f x = false -> g x = true ->
  (forall y, y ∈ l -> y <> x -> g y = f y) -> cnt g l = S (cnt f l).
Proof.
  intros Hn Hx Hf Hg Ho. rewrite (cnt_flip g l x) by done. f_equal. apply cnt_ext.
  intros y Hy. destruct (decide (y = x)) as [->|Hne].
  - rewrite bool_decide_eq_true_2 by done. by rewrite Hg, Hf.
  - rewrite bool_decide_eq_false_2 by done. rewrite Ho by done. by rewrite andb_true_r.
Qed.

Lemma waiting_nil n succ j : waiting n succ [] j = cnt (fun i => bool_decide (points_to succ i j)) (seq 0 n).
Proof. apply cnt_ext. intros i _. by rewrite (bool_decide_eq_false_2 (i ∈ [])) by apply not_elem_of_nil. Qed.

Lemma add_dependency_spec nodes j g d :
  graph_inv (length nodes) g -> (j < length nodes)%nat ->
  graph_inv (length nodes) (add_dependency nodes j g d) /\
  (forall i' j', points_to (snd (add_dependency nodes j g d)) i' j' <->
     points_to (snd g) i' j' \/
     j' = j /\ i' <> j /\ node_index_covering_content_update_ref nodes d = Some i').
Proof.
  intros Hg Hj. unfold add_dependency.
  destruct (node_index_covering_content_update_ref nodes d) as [i|] eqn:Ei; [|split; naive_solver].
  destruct (Nat.eqb_spec i j) as [->|Hne]; cbn [orb]; [split; naive_solver|].
  pose proof (covering_index_lt _ _ _ Ei) as Hi.
  case_bool_decide as Hin.
  { split; [done|]. intros i' j'. split; [by left|]. intros [H|(-> & _ & [= ->])]; done. }
  assert (Hil : (i < length (snd g))%nat) by (rewrite (gi_succ_length _ _ Hg); done).
  split; [|intros i' j'; cbn; rewrite points_to_push by done; naive_solver].
  split; cbn.
  - rewrite length_alter. apply Hg.
  - rewrite length_alter. apply Hg.
  - intros i' l E. destruct (decide (i' = i)) as [->|Hne'].
    + rewrite list_lookup_alter_eq in E. destruct (snd g !! i) as [l0|] eqn:El; [|done].
      injection E as <-. apply list.NoDup_app. split_and!; [by eapply gi_nodup| |apply NoDup_singleton].
      intros x Hx ->%list_elem_of_singleton. done.
    + rewrite list_lookup_alter_ne in E by done. by eapply gi_nodup.
  - intros j' Hj'. rewrite waiting_nil. pose proof (gi_deg _ _ Hg j' Hj') as Hd.
    rewrite waiting_nil in Hd. destruct (decide (j' = j)) as [->|Hne'].
    + rewrite list_lookup_alter_eq, Hd. cbn. f_equal. symmetry.
      apply (cnt_on _ _ _ i); [apply NoDup_seq|apply list_elem_of_In, in_seq; lia| | |].
      * by apply bool_decide_eq_false.
      * apply bool_decide_eq_true, points_to_push; auto.
      * intros y _ Hy. apply bool_decide_ext. rewrite points_to_push by done. naive_solver.
    + rewrite list_lookup_alter_ne, Hd by done. f_equal. apply cnt_ext. intros y _.
      apply bool_decide_ext. rewrite points_to_push by done. naive_solver.
Qed.

Lemma add_node_spec nodes j g commit :
  graph_inv (length nodes) g -> (j < length nodes)%nat ->
  graph_inv (length nodes) (add_node nodes j g commit) /\
  (forall i' j', points_to (snd (add_node nodes j g commit)) i' j' <->
     points_to (snd g) i' j' \/
     j' = j /\ i' <> j /\ exists d, d ∈ node_dependencies commit /\
       node_index_covering_content_update_ref nodes d = Some i').
Proof.
  intros Hg Hj. unfold add_node. revert g Hg.
  induction (node_dependencies commit) as [|d ds IH]; intros g Hg; cbn [foldl].
  - split; [done|]. intros i' j'. split; [by left|].
    intros [H|(_ & _ & d & Hd%elem_of_nil & _)]; done.
  - destruct (add_dependency_spec nodes j g d Hg Hj) as [Hg1 Hp1].
    destruct (IH _ Hg1) as [Hg2 Hp2]. split; [done|]. intros i' j'. rewrite Hp2, Hp1.
    setoid_rewrite elem_of_cons. naive_solver.
Qed.

Lemma add_nodes_spec nodes index rest g :
  graph_inv (length nodes) g -> (index + length rest = length nodes)%nat ->
  graph_inv (length nodes) (add_nodes nodes index rest g) /\
  (forall i' j', points_to (snd (add_nodes nodes index rest g)) i' j' <->
     points_to (snd g) i' j' \/
     i' <> j' /\ exists k node d, rest !! k = Some node /\ j' = (index + k)%nat /\
       d ∈ node_dependencies (snd node) /\
       node_index_covering_content_update_ref nodes d = Some i').
Proof.
  revert index g. induction rest as [|[s c] rest IH]; intros index g Hg Hl; cbn [add_nodes].
  - split; [done|]. intros i' j'. split; [by left|]. intros [H|(_ & k & nd & d & Hk & _)]; done.
  - cbn in Hl. destruct (add_node_spec nodes index g c Hg ltac:(lia)) as [Hg1 Hp1].
    destruct (IH (S index) _ Hg1 ltac:(lia)) as [Hg2 Hp2]. split; [done|].
    intros i' j'. rewrite Hp2, Hp1. split.
    + intros [[H|(-> & Hne & d & Hd & E)]|(Hne & k & nd & d & Hk & -> & Hd & E)]; [by left| |].
      * right. split; [done|]. exists 0%nat, (s, c), d. split_and!; [done|lia|done|done].
      * right. split; [done|]. exists (S k), nd, d. split_and!; [done|lia|done|done].
    + intros [H|(Hne & [|k] & nd & d & Hk & -> & Hd & E)]; [by left; left| |].
      * injection Hk as <-. left. right. rewrite Nat.add_0_r in *. eauto.
      * right. rewrite Nat.add_succ_r in *. eauto 10.
Qed.

Lemma dependency_graph_spec nodes :
  graph_inv (length nodes) (dependency_graph nodes) /\
  (forall i j, points_to (snd (dependency_graph nodes)) i j <-> edge nodes i j).
Proof.
  unfold dependency_graph. set (g0 := (replicate _ 0%nat, replicate _ [])).
  assert (Hno : forall i j, ~ points_to (snd g0) i j).
  { intros i j H. unfold points_to in H. cbn in H.
    destruct (replicate _ [] !! i) as [l|] eqn:E; cbn in H.
    - apply lookup_replicate in E as [-> _]. by apply elem_of_nil in H.
    - by apply elem_of_nil in H. }
  assert (Hg0 : graph_inv (length nodes) g0).
  { split; cbn.
    - apply length_replicate.
    - apply length_replicate.
    - intros i l [-> _]%lookup_replicate. constructor.
    - intros j Hj. rewrite lookup_replicate_2 by done. f_equal. symmetry. rewrite waiting_nil.
      apply cnt_none. intros i _. apply bool_decide_eq_false, Hno. }
  destruct (add_nodes_spec nodes 0 nodes g0 Hg0 ltac:(lia)) as [Hg Hp]. split; [done|].
  intros i j. rewrite Hp. unfold edge. cbn [Nat.add]. split.
  - intros [H|(Hne & k & nd & d & Hk & -> & Hd & E)]; [by destruct (Hno i j)|]. eauto 10.
  - intros (Hne & nd & d & Hk & Hd & E). right. eauto 10.
Qed.

(** *** The order *)

Lemma initial_kahn_inv nodes :
  kahn_inv (length nodes) (snd (dependency_graph nodes)) (replicate (length nodes) false)
    (fst (dependency_graph nodes)) [].
Proof.
  destruct (dependency_graph_spec nodes) as [Hg _]. split.
  - intros i Hi. rewrite lookup_replicate_2 by done.
    by rewrite (bool_decide_eq_false_2 (i ∈ [])) by apply not_elem_of_nil.
  - apply Hg.
  - constructor.
  - by intros i ?%elem_of_nil.
  - by intros k j ?.
Qed.

Lemma node_order_Some nodes order :
  node_order nodes = Some order ->
  order ≡ₚ seq 0 (length nodes) /\
  (forall k j i, order !! k = Some j -> edge nodes i j -> i ∈ take k order).
Proof.
  unfold node_order. pose proof (initial_kahn_inv nodes) as Hk.
  destruct (dependency_graph_spec nodes) as [Hg Hp].
  destruct (dependency_graph nodes) as [deg succ]. cbn [fst snd] in *. intros E.
  destruct (kahn_Some _ _ (gi_nodup _ _ Hg) _ _ _ _ _ Hk E) as [(sel & deg' & Hk') Hl]. cbn in Hl.
  split.
  - apply submseteq_length_Permutation; [|rewrite length_seq; lia].
    apply NoDup_submseteq; [apply Hk'|]. intros i Hi. apply list_elem_of_In, in_seq.
    pose proof (ki_range _ _ _ _ _ Hk' i Hi). lia.
  - intros k j i Ej He. apply (ki_before _ _ _ _ _ Hk' k j Ej); [|by apply Hp].
    destruct He as (_ & nd & d & _ & _ & Ed). by eapply covering_index_lt.
Qed.

Lemma node_order_total nodes (f : nat -> nat) :
  (forall i j, edge nodes i j -> (f i < f j)%nat) -> exists order, node_order nodes = Some order.
Proof.
  intros Hf. unfold node_order. pose proof (initial_kahn_inv nodes) as Hk.
  destruct (dependency_graph_spec nodes) as [Hg Hp].
  destruct (dependency_graph nodes) as [deg succ]. cbn [fst snd] in *.
  apply (kahn_total _ _ (gi_nodup _ _ Hg) _ _ _ _ f Hk); [cbn; lia|].
  intros i j _ _ H. by apply Hf, Hp.
Qed.


(** [slots] still holds what the order will take. *)
Lemma take_slots_ok {A} (l : list A) (slots : list (option A)) (order : list nat) :
  base.NoDup order -> (forall i, i ∈ order -> exists a, l !! i = Some a /\ slots !! i = Some (Some a)) ->
  take_slots slots order = Ret (omap (fun i => l !! i) order) /\
  length (omap (fun i => l !! i) order) = length order.
Proof.
  revert slots. induction order as [|i order IH]; intros slots Hn Hs; [done|].
  apply list.NoDup_cons in Hn as [Hi Hn]. destruct (Hs i ltac:(by left)) as (a & Ea & Es).
  destruct (IH (<[i := None]> slots) Hn) as [E El].
  { intros i' Hi'. destruct (Hs i' ltac:(by right)) as (a' & Ea' & Es'). exists a'.
    split; [done|]. rewrite list_lookup_insert_ne by (intros ->; done). done. }
  cbn [take_slots omap list_omap]. rewrite Es, Ea. cbn [mbind]. rewrite E. cbn. by rewrite El.
Qed.
Lemma omap_lookup_nth {A} (l : list A) (order : list nat) (k : nat) :
  (forall i, i ∈ order -> is_Some (l !! i)) ->
  omap (fun i => l !! i) order !! k = (order !! k) ≫= (fun i => l !! i).
Proof.
  revert k. induction order as [|i order IH]; intros k Hs; [done|].
  destruct (Hs i ltac:(by left)) as [a Ea]. cbn [omap list_omap]. rewrite Ea.
  destruct k as [|k]; cbn; [done|]. apply IH. intros i' Hi'. apply Hs. by right.
Qed.
Lemma omap_lookup_seq {A} (l : list A) : omap (fun i => l !! i) (seq 0 (length l)) = l.
Proof.
  apply list_eq. intros k. rewrite omap_lookup_nth.
  - destruct (decide (k < length l)%nat) as [Hk|Hk].
    + by rewrite lookup_seq_lt.
    + rewrite lookup_seq_ge by lia. symmetry. apply lookup_ge_None. lia.
  - intros i Hi. apply lookup_lt_is_Some. apply list_elem_of_In, in_seq in Hi. lia.
Qed.

Lemma node_order_identity nodes :
  (forall i j, edge nodes i j -> (i < j)%nat) ->
  node_order nodes = Some (seq 0 (length nodes)).
Proof.
  intros Hf. unfold node_order. pose proof (initial_kahn_inv nodes) as Hk.
  destruct (dependency_graph_spec nodes) as [Hg Hp].
  destruct (dependency_graph nodes) as [deg succ]. cbn [fst snd] in *.
  apply (kahn_identity _ _ (gi_nodup _ _ Hg) _ _ _ 0 Hk); [lia|].
  intros i j H. by apply Hf, Hp.
Qed.

Lemma edge_range nodes i j : edge nodes i j -> (i < length nodes)%nat /\ (j < length nodes)%nat.
Proof.
  intros (_ & nd & d & Ej & _ & Ei). split; [by eapply covering_index_lt|by eapply lookup_lt_Some].
Qed.

(** The transaction with its nodes and lifetimes in [order]. *)
Definition reordered (order : list nat) (t : PendingSurfaceTreeTransaction)
  : PendingSurfaceTreeTransaction :=
  with_nodes (omap (fun i => tx_nodes t !! i) order)
    (omap (fun i => tx_publication_lifetimes t !! i) order) t.
Lemma reordered_identity t :
  length (tx_publication_lifetimes t) = length (tx_nodes t) ->
  reordered (seq 0 (length (tx_nodes t))) t = t.
Proof.
  intros Hl. unfold reordered. rewrite omap_lookup_seq. rewrite <- Hl, omap_lookup_seq. by destruct t.
Qed.
Lemma take_slots_permuted {A} (l : list A) (order : list nat) :
  order ≡ₚ seq 0 (length l) ->
  take_slots (Some <$> l) order = Ret (omap (fun i => l !! i) order).
Proof.
  intros Hp. apply take_slots_ok; [rewrite Hp; apply NoDup_seq|].
  intros i Hi. rewrite Hp in Hi. apply list_elem_of_In, in_seq in Hi.
  destruct (lookup_lt_is_Some_2 l i ltac:(lia)) as [a Ea]. exists a.
  by rewrite list_lookup_fmap, Ea.
Qed.

(** The order [normalize_surface_tree_node_order] settles on. *)
Definition publication_order (nodes : list Node) : list nat :=
  if (length nodes <? 2)%nat then seq 0 (length nodes)
  else default (seq 0 (length nodes)) (node_order nodes).

Lemma publication_order_perm nodes : publication_order nodes ≡ₚ seq 0 (length nodes).
Proof.
  unfold publication_order. destruct (_ <? _)%nat; [done|].
  destruct (node_order nodes) as [order|] eqn:E; [|done]. by apply node_order_Some.
Qed.
Lemma normalize_reorders t :
  length (tx_publication_lifetimes t) = length (tx_nodes t) ->
  normalize_surface_tree_node_order t = Ret (reordered (publication_order (tx_nodes t)) t).
Proof.
  intros Hl. unfold normalize_surface_tree_node_order, publication_order.
  destruct (Nat.ltb_spec (length (tx_nodes t)) 2) as [H2|H2]; [by rewrite reordered_identity|].
  destruct (node_order (tx_nodes t)) as [order|] eqn:Eo; [|cbn; by rewrite reordered_identity].
  destruct (node_order_Some _ _ Eo) as [Hp _]. unfold default, is_identity.
  case_bool_decide as Hi.
  - assert (El : length order = length (tx_nodes t)) by by rewrite Hp, length_seq.
    rewrite El in Hi. rewrite Hi. cbn. by rewrite reordered_identity.
  - rewrite (take_slots_permuted (tx_nodes t) order Hp). cbn [mbind].
    rewrite (take_slots_permuted (tx_publication_lifetimes t) order) by by rewrite Hl. done.
Qed.
Lemma reordered_perm {A} (l : list A) (order : list nat) :
  order ≡ₚ seq 0 (length l) -> omap (fun i => l !! i) order ≡ₚ l.
Proof. intros Hp. rewrite Hp. by rewrite omap_lookup_seq. Qed.

(** A transaction is put in publication order without losing a node: the
    nodes and their captured lifetimes are permuted together, the dependency
    of every node comes before it whenever the dependencies have an order at
    all, and a transaction that is in order already is left as it is. *)
Theorem publication_order_spec t :
  length (tx_publication_lifetimes t) = length (tx_nodes t) ->
  exists order,
    normalize_surface_tree_node_order t = Ret (reordered order t) /\
    order ≡ₚ seq 0 (length (tx_nodes t)) /\
    (forall f : nat -> nat, (forall i j, edge (tx_nodes t) i j -> (f i < f j)%nat) ->
       forall k j i, order !! k = Some j -> edge (tx_nodes t) i j -> i ∈ take k order) /\
    ((forall i j, edge (tx_nodes t) i j -> (i < j)%nat) -> normalize_surface_tree_node_order t = Ret t).
Proof.
  intros Hl. exists (publication_order (tx_nodes t)). rewrite (normalize_reorders t Hl).
  split_and!; [done|apply publication_order_perm| |].
  - intros f Hf k j i Ek He. unfold publication_order in *.
    destruct (Nat.ltb_spec (length (tx_nodes t)) 2).
    { pose proof (edge_range _ _ _ He). destruct He as [Hne _]. lia. }
    destruct (node_order_total _ f Hf) as [order E]. rewrite E in *. cbn in *.
    by eapply (proj2 (node_order_Some _ _ E)).
  - intros Hf. unfold publication_order. rewrite (node_order_identity _ Hf). unfold default.
    by destruct (_ <? _)%nat; unfold from_option, id; rewrite reordered_identity.
Qed.

(** Three nodes whose dependencies point backwards. *)
Definition bare_commit (id sequence : Z) (before : list ContentUpdateRef) : CachedSubsurfaceCommit :=
  mkCommit id sequence (mkLineage None before false) None None [id] None None
    (mkViewport None None) None None None None None None None [] None false None 0
    (mkPacing false false false None None) 0 PcNoChange
    (mkContext (mkParentState [] [] None) None None).
Definition backwards : PendingSurfaceTreeTransaction :=
  mkTransaction 1 1
    [(1, bare_commit 10 5 [mkRef 2 20 7; mkRef 3 30 9]); (2, bare_commit 20 7 [mkRef 3 30 9]);
     (3, bare_commit 30 9 [])]
    [mkLifetime 1 1 1; mkLifetime 2 1 1; mkLifetime 3 1 1] [] [] None 0.
Lemma publication_order_spec_witness :
  exists order,
    normalize_surface_tree_node_order backwards = Ret (reordered order backwards) /\
    order = [2; 1; 0]%nat.
Proof.
  destruct (publication_order_spec backwards eq_refl) as (order & E & Hp & _ & _).
  exists (publication_order (tx_nodes backwards)). split; [|by vm_compute].
  by rewrite (normalize_reorders backwards eq_refl).
Defined.
