(* ===== verification/SurfaceMerge.v ===== *)
(** * SurfaceMerge: folding new content updates into a waiting transaction

    Models [merge_surface_tree_nodes_into_transaction] and
    [build_surface_tree_transaction] of
    src/compositor/state/surface_transactions/queue.rs with the helpers of
    src/compositor/state/shutdown.rs they call. What the code does to the
    rest of the compositor while it merges (acquire watches, released buffers
    and resize captures, discarded feedbacks) is the list of effects it
    performs, in order. *)

From stdpp Require Import base list option sorting.
From Stdlib Require Import ZArith Lia.
From S2P Require Import Prelude SurfaceCommit SurfaceCache SurfaceQueue.

(** ** Data *)

Record AcquireWatchRequest : Type := mkWatch {
  aw_commit_id : Z;
  aw_surface_id : Z;
  aw_buffer_id : Z;
  aw_acquire : Token;
  aw_received_at : Token
}.
Inductive AcquireWatchCancelReason : Type :=
  Superseded | SurfaceDestroyed | BufferDestroyed | SyncSurfaceDestroyed | TimelineDestroyed
| ClientDisconnected | BackendShutdown | Rejected | RoleDestroyed.

(** What a merge does outside the transaction. *)
Inductive MergeEffect : Type :=
| CancelWatch (commit_id : Z) (reason : AcquireWatchCancelReason)
| RegisterWatch (request : AcquireWatchRequest)
| DiscardFeedbacks (feedbacks : list Token)
| ReleaseBuffer (buffer : PendingSurfaceBuffer)
| CommitMerged (previous replacement : SurfaceCommitId) (callback_count : nat)
| ReleaseResizeCapture (surface_id : Z) (capture : Token).

Record SurfaceTreeMergeStats : Type := mkStats {
  st_incoming_nodes : Z;
  st_existing_nodes : Z;
  st_bufferless_nodes : Z;
  st_attachments_replaced : Z;
  st_explicit_detaches : Z;
  st_dependencies_preserved : Z;
  st_dependencies_replaced : Z;
  st_callbacks_merged : Z;
  st_feedbacks_merged : Z;
  st_resize_snapshots_preserved : Z;
  st_resize_snapshots_replaced : Z
}.
Definition stats_default : SurfaceTreeMergeStats := mkStats 0 0 0 0 0 0 0 0 0 0 0.

(** ** Helpers *)

Definition pending_node_resize_commit (c : CachedSubsurfaceCommit) : option Token :=
  match attachment c with
  | Some (AttachBuffer b) => buf_resize_commit b
  | _ => resize_commit c
  end.
Definition pending_attachment_buffer_protocol_id (a : PendingSurfaceAttachment) : option Z :=
  match a with AttachBuffer b => Some (buf_resource b) | RemoveContent => None end.

Fixpoint remove_first {A} (p : A -> bool) (l : list A) : option (A * list A) :=
  match l with
  | [] => None
  | x :: l => if p x then Some (x, l) else '(y, l) ← remove_first p l; Some (y, x :: l)
  end.
Definition remove_surface_tree_dependency (dependencies : list SurfaceTreeAcquireDependency)
  (surface_id buffer_id : Z)
  : option (SurfaceTreeAcquireDependency * list SurfaceTreeAcquireDependency) :=
  remove_first (fun d => (ad_surface_id d =? surface_id) && (ad_buffer_id d =? buffer_id))
    dependencies.

(** ** The merge *)

Abbreviation Entry := (Z * CachedSubsurfaceCommit * SurfaceTreeNodeLifetime)%type.

(** The nodes no incoming update touches move over first; the others wait
    in their slot. *)
Fixpoint split_existing (incoming_surface_ids : list Z) (existing : list Entry)
  : list (option Entry) * list Node * list SurfaceTreeNodeLifetime :=
  match existing with
  | [] => ([], [], [])
  | (surface_id, commit, lifetime) :: existing =>
      let '(slots, nodes, lifetimes) := split_existing incoming_surface_ids existing in
      if bool_decide (surface_id ∈ incoming_surface_ids)
      then (Some (surface_id, commit, lifetime) :: slots, nodes, lifetimes)
      else (None :: slots, (surface_id, commit) :: nodes, lifetime :: lifetimes)
  end.

(** [position(surface) ... take()]: the first waiting node of the surface. *)
Fixpoint take_entry (surface_id : Z) (slots : list (option Entry))
  : option (CachedSubsurfaceCommit * list (option Entry)) :=
  match slots with
  | [] => None
  | Some (id, commit, lifetime) :: slots =>
      if id =? surface_id then Some (commit, None :: slots)
      else '(found, slots) ← take_entry surface_id slots;
           Some (found, Some (id, commit, lifetime) :: slots)
  | None :: slots => '(found, slots) ← take_entry surface_id slots; Some (found, None :: slots)
  end.

Record MergeState : Type := mkMerge {
  ms_slots : list (option Entry);
  ms_nodes : list Node;
  ms_lifetimes : list SurfaceTreeNodeLifetime;
  ms_dependencies : list SurfaceTreeAcquireDependency;
  ms_stats : SurfaceTreeMergeStats;
  ms_effects : list MergeEffect
}.

Definition count_kind (incoming : CachedSubsurfaceCommit) (st : SurfaceTreeMergeStats)
  : SurfaceTreeMergeStats :=
  mkStats (st_incoming_nodes st) (st_existing_nodes st)
    (if is_some (attachment incoming) then st_bufferless_nodes st
     else sat_add usize_max (st_bufferless_nodes st) 1)
    (st_attachments_replaced st)
    (match attachment incoming with
     | Some RemoveContent => sat_add usize_max (st_explicit_detaches st) 1
     | _ => st_explicit_detaches st
     end)
    (st_dependencies_preserved st) (st_dependencies_replaced st) (st_callbacks_merged st)
    (st_feedbacks_merged st) (st_resize_snapshots_preserved st) (st_resize_snapshots_replaced st).

Definition count_dependency (replaced attachment_changed : bool) (preserved : Z)
  (st : SurfaceTreeMergeStats) : SurfaceTreeMergeStats :=
  mkStats (st_incoming_nodes st) (st_existing_nodes st) (st_bufferless_nodes st)
    (st_attachments_replaced st) (st_explicit_detaches st)
    (if negb replaced && negb attachment_changed
     then sat_add usize_max (st_dependencies_preserved st) preserved
     else st_dependencies_preserved st)
    (if replaced then sat_add usize_max (st_dependencies_replaced st) 1
     else st_dependencies_replaced st)
    (st_callbacks_merged st) (st_feedbacks_merged st) (st_resize_snapshots_preserved st)
    (st_resize_snapshots_replaced st).

Definition count_merge (released resize_preserved resize_replaced : bool) (callbacks feedbacks : Z)
  (st : SurfaceTreeMergeStats) : SurfaceTreeMergeStats :=
  mkStats (st_incoming_nodes st) (st_existing_nodes st) (st_bufferless_nodes st)
    (if released then sat_add usize_max (st_attachments_replaced st) 1
     else st_attachments_replaced st)
    (st_explicit_detaches st) (st_dependencies_preserved st) (st_dependencies_replaced st)
    (sat_add usize_max (st_callbacks_merged st) callbacks)
    (sat_add usize_max (st_feedbacks_merged st) feedbacks)
    (if resize_preserved then sat_add usize_max (st_resize_snapshots_preserved st) 1
     else st_resize_snapshots_preserved st)
    (if resize_replaced then sat_add usize_max (st_resize_snapshots_replaced st) 1
     else st_resize_snapshots_replaced st).

(** One incoming node. [external] is [self.external_acquire_readiness]. *)
Definition merge_node (external : bool) (ms : MergeState)
  (node : Node * SurfaceTreeNodeLifetime) : MergeState :=
  let '((surface_id, incoming), incoming_lifetime) := node in
  let attachment_changed := is_some (attachment incoming) in
  let stats := count_kind incoming (ms_stats ms) in
  let resize_replaced := resize_capture_finalized incoming && is_some (resize_commit incoming) in
  match take_entry surface_id (ms_slots ms) with
  | None =>
      mkMerge (ms_slots ms) (ms_nodes ms ++ [(surface_id, incoming)])
        (ms_lifetimes ms ++ [incoming_lifetime]) (ms_dependencies ms) stats (ms_effects ms)
  | Some (existing, slots) =>
      let old_buffer_id := attachment existing ≫= pending_attachment_buffer_protocol_id in
      let old_resize_commit :=
        if attachment_changed then pending_node_resize_commit existing else None in
      let replaced :=
        if attachment_changed
        then old_buffer_id ≫= remove_surface_tree_dependency (ms_dependencies ms) surface_id
        else None in
      let dependencies :=
        match replaced with Some (_, rest) => rest | None => ms_dependencies ms end in
      let stats :=
        count_dependency (is_some replaced) attachment_changed
          (Z.of_nat (length (List.filter (fun d => ad_surface_id d =? surface_id) dependencies)))
          stats in
      let cancel :=
        match replaced with
        | Some (d, _) => if external then [CancelWatch (ad_commit_id d) Superseded] else []
        | None => []
        end in
      let '(merged, release, discarded) := merge existing incoming in
      let stats :=
        count_merge (is_some release)
          (negb attachment_changed && is_some (resize_commit merged)) resize_replaced
          (Z.of_nat (length (frame_callbacks incoming)))
          (Z.of_nat (length (presentation_feedbacks incoming))) stats in
      mkMerge slots (ms_nodes ms ++ [(surface_id, merged)])
        (ms_lifetimes ms ++ [incoming_lifetime]) dependencies stats
        (ms_effects ms ++ cancel ++ [DiscardFeedbacks discarded]
         ++ match release with Some b => [ReleaseBuffer b] | None => [] end
         ++ (if commit_id existing =? commit_id incoming then []
             else [CommitMerged (commit_id existing) (commit_id incoming)
                     (length (frame_callbacks existing))])
         ++ match old_resize_commit with
            | Some capture => [ReleaseResizeCapture surface_id capture]
            | None => []
            end)
  end.

Definition watch_of (now : Token) (d : SurfaceTreeAcquireDependency) : AcquireWatchRequest :=
  mkWatch (ad_commit_id d) (ad_surface_id d) (ad_buffer_id d) (ad_acquire d) now.

Definition merge_surface_tree_nodes_into_transaction (external : bool) (now : Token)
  (t : PendingSurfaceTreeTransaction) (nodes : list Node)
  (publication_lifetimes : list SurfaceTreeNodeLifetime)
  (dependencies : list SurfaceTreeAcquireDependency) (external_dependencies : list ContentUpdateRef)
  : res unit (PendingSurfaceTreeTransaction * SurfaceTreeMergeStats * list MergeEffect) :=
  if negb (length publication_lifetimes =? length nodes)%nat then Ret (t, stats_default, [])
  else if negb (length (tx_publication_lifetimes t) =? length (tx_nodes t))%nat
  then Ret (t, stats_default, [])
  else
    let stats := mkStats (Z.of_nat (length nodes)) (Z.of_nat (length (tx_nodes t)))
                   0 0 0 0 0 0 0 0 0 in
    let '(slots, kept, kept_lifetimes) :=
      split_existing (map fst nodes) (zip (tx_nodes t) (tx_publication_lifetimes t)) in
    let ms :=
      foldl (merge_node external)
        (mkMerge slots kept kept_lifetimes (tx_dependencies t) stats [])
        (zip nodes publication_lifetimes) in
    let registered :=
      if external then map (fun d => RegisterWatch (watch_of now d)) dependencies else [] in
    let t :=
      mkTransaction (tx_id t) (tx_root_surface_id t) (ms_nodes ms) (ms_lifetimes ms)
        (ms_dependencies ms ++ dependencies)
        (extend_unique (tx_external t) external_dependencies)
        (tx_commit_timing_readiness t) (tx_received_at t) in
    t ← normalize_surface_tree_node_order (normalize_transaction_external_content_dependencies t);
    Ret (t, ms_stats ms, ms_effects ms ++ registered).

Definition build_surface_tree_transaction (root_surface_id : Z) (nodes : list Node)
  (publication_lifetimes : list SurfaceTreeNodeLifetime)
  (dependencies : list SurfaceTreeAcquireDependency) (external_dependencies : list ContentUpdateRef)
  (now : Token) (q : QueueState) : res unit (QueueState * PendingSurfaceTreeTransaction) :=
  '(q, id) ← allocate_surface_tree_transaction_id q;
  t ← normalize_surface_tree_node_order
        (normalize_transaction_external_content_dependencies
           (mkTransaction id root_surface_id nodes publication_lifetimes dependencies
              external_dependencies None now));
  Ret (q, t).

(** ** Abstract result *)

(** The waiting node an incoming one is folded into. *)
Definition matching (target : list Node) (surface_id : Z) : list Node :=
  List.filter (fun n => fst n =? surface_id) target.
Definition untouched (ids : list Z) (target : list Node) : list Node :=
  List.filter (fun n => negb (bool_decide (fst n ∈ ids))) target.
Definition merged_node (target : list Node) (n : Node) : Node :=
  match matching target (fst n) with
  | existing :: _ => (fst n, fst (fst (merge (snd existing) (snd n))))
  | [] => n
  end.
Definition merged_nodes (target incoming : list Node) : list Node :=
  untouched (map fst incoming) target ++ map (merged_node target) incoming.
Definition superseded_buffers (target incoming : list Node) : list PendingSurfaceBuffer :=
  List.flat_map
    (fun n => match matching target (fst n) with
              | existing :: _ => option_list (snd (fst (merge (snd existing) (snd n))))
              | [] => []
              end) incoming.
Definition released_buffers (effects : list MergeEffect) : list PendingSurfaceBuffer :=
  List.flat_map (fun e => match e with ReleaseBuffer b => [b] | _ => [] end) effects.

(** The slots hold the waiting node of every surface still to come. *)
Definition slot_node (slots : list (option Entry)) (surface_id : Z) : option CachedSubsurfaceCommit :=
  fst <$> take_entry surface_id slots.

Lemma filter_ext_In {A} (f g : A -> bool) l :
  (forall x, x ∈ l -> f x = g x) -> List.filter f l = List.filter g l.
Proof. intros H. apply List.filter_ext_in. intros x Hx. apply H. by apply list_elem_of_In. Qed.

Lemma split_existing_spec ids (nodes : list Node) lifetimes :
  length lifetimes = length nodes ->
  exists slots kept_lifetimes,
    split_existing ids (zip nodes lifetimes) = (slots, untouched ids nodes, kept_lifetimes) /\
    length kept_lifetimes = length (untouched ids nodes) /\
    (forall id, id ∈ ids -> slot_node slots id = snd <$> head (matching nodes id)).
Proof.
  revert lifetimes. induction nodes as [|[id commit] nodes IH]; intros [|lt lifetimes] Hl; try done.
  - exists [], []. done.
  - cbn in Hl. injection Hl as Hl. destruct (IH _ Hl) as (slots & kl & E & El & Hs).
    cbn [zip zip_with split_existing]. change (zip_with pair nodes lifetimes) with (zip nodes lifetimes).
    rewrite E. unfold untouched, matching in *. cbn [List.filter fst].
    destruct (bool_decide_reflect (id ∈ ids)) as [Hin|Hin]; cbn [negb].
    + eexists _, _. split_and!; [done|done|]. intros id' Hid'. unfold slot_node. cbn [take_entry].
      specialize (Hs id' Hid'). unfold slot_node in Hs.
      destruct (id =? id'); [done|]. destruct (take_entry id' slots) as [[]|]; done.
    + eexists _, _. split_and!; [done|cbn; by rewrite El|]. intros id' Hid'. unfold slot_node.
      cbn [take_entry]. specialize (Hs id' Hid'). unfold slot_node in Hs.
      destruct (Z.eqb_spec id id') as [->|]; [done|]. destruct (take_entry id' slots) as [[]|]; done.
Qed.

Lemma take_entry_other id id' slots c slots' :
  take_entry id slots = Some (c, slots') -> id <> id' -> slot_node slots' id' = slot_node slots id'.
Proof.
  unfold slot_node. revert c slots'. induction slots as [|[[[e ce] le]|] slots IH]; intros c slots' E Hne.
  - done.
  - cbn in E |- *. destruct (Z.eqb_spec e id) as [->|He].
    + injection E as <- <-. cbn. destruct (Z.eqb_spec id id'); [done|].
      by destruct (take_entry id' slots) as [[]|].
    + destruct (take_entry id slots) as [[c0 s0]|] eqn:E0; [|done]. cbn in E. injection E as <- <-.
      cbn. destruct (e =? id'); [done|]. specialize (IH _ _ eq_refl Hne).
      destruct (take_entry id' slots) as [[]|], (take_entry id' s0) as [[]|]; done.
  - cbn in E |- *. destruct (take_entry id slots) as [[c0 s0]|] eqn:E0; [|done]. cbn in E.
    injection E as <- <-. cbn. specialize (IH _ _ eq_refl Hne).
    destruct (take_entry id' slots) as [[]|], (take_entry id' s0) as [[]|]; done.
Qed.

Lemma released_app l l' : released_buffers (l ++ l') = released_buffers l ++ released_buffers l'.
Proof. unfold released_buffers. by rewrite flat_map_app. Qed.

(** One round of the loop adds the merged node and releases what it replaces. *)
Lemma merge_node_spec external ms target id incoming lifetime :
  slot_node (ms_slots ms) id = snd <$> head (matching target id) ->
  let ms' := merge_node external ms ((id, incoming), lifetime) in
  ms_nodes ms' = ms_nodes ms ++ [merged_node target (id, incoming)] /\
  ms_lifetimes ms' = ms_lifetimes ms ++ [lifetime] /\
  released_buffers (ms_effects ms')
  = released_buffers (ms_effects ms) ++ superseded_buffers target [(id, incoming)] /\
  (forall id', id <> id' -> slot_node (ms_slots ms') id' = slot_node (ms_slots ms) id').
Proof.
  intros Hs. unfold slot_node in Hs. cbn [merge_node]. unfold merged_node, superseded_buffers.
  cbn [fst snd List.flat_map].
  destruct (take_entry id (ms_slots ms)) as [[existing slots]|] eqn:Et; cbn in Hs.
  - destruct (matching target id) as [|[id0 c0] rest]; [done|]. cbn in Hs. injection Hs as ->.
    cbn [snd]. set (m := merge c0 incoming). destruct m as [[merged release] discarded] eqn:Em.
    cbn [ms_nodes ms_lifetimes ms_effects ms_slots fst snd]. split_and!; [done|done| |].
    + rewrite !released_app. rewrite app_nil_r. f_equal.
      match goal with |- released_buffers ?a ++ _ = _ => assert (released_buffers a = []) as -> end.
      { repeat case_match; done. }
      destruct release; cbn; destruct (_ =? _); cbn; repeat case_match; done.
    + intros id' Hne. by eapply take_entry_other.
  - destruct (matching target id) as [|]; [|done]. cbn. rewrite !app_nil_r. done.
Qed.

Lemma merge_loop external target incoming lifetimes ms :
  length lifetimes = length incoming -> base.NoDup (map fst incoming) ->
  (forall id, id ∈ map fst incoming ->
     slot_node (ms_slots ms) id = snd <$> head (matching target id)) ->
  let ms' := foldl (merge_node external) ms (zip incoming lifetimes) in
  ms_nodes ms' = ms_nodes ms ++ map (merged_node target) incoming /\
  ms_lifetimes ms' = ms_lifetimes ms ++ lifetimes /\
  released_buffers (ms_effects ms')
  = released_buffers (ms_effects ms) ++ superseded_buffers target incoming.
Proof.
  revert lifetimes ms.
  induction incoming as [|[id c] incoming IH]; intros [|lt lifetimes] ms Hl Hn Hs; try done; cbn zeta.
  - cbn. by rewrite !app_nil_r.
  - cbn in Hl. injection Hl as Hl. cbn in Hn. apply list.NoDup_cons in Hn as [Hid Hn].
    destruct (merge_node_spec external ms target id c lt) as (E1 & E2 & E3 & E4); [apply Hs; by left|].
    cbn [zip zip_with foldl]. change (zip_with pair incoming lifetimes) with (zip incoming lifetimes).
    destruct (IH lifetimes (merge_node external ms (id, c, lt)) Hl Hn) as (F1 & F2 & F3).
    { intros id' Hid'. rewrite E4 by (intros ->; done). apply Hs. by right. }
    rewrite F1, F2, F3, E1, E2, E3. cbn [map]. rewrite <- !app_assoc. split_and!; [done|done|].
    unfold superseded_buffers. cbn [List.flat_map fst snd]. by rewrite app_nil_r.
Qed.

(** ** Conservation *)

Lemma untouched_cons id ids target :
  id ∉ ids ->
  untouched ids target ≡ₚ untouched (id :: ids) target ++ matching target id.
Proof.
  intros Hid. unfold untouched, matching. induction target as [|[i c] target IH]; [done|].
  cbn [List.filter fst]. destruct (Z.eqb_spec i id) as [->|Hne].
  - rewrite (bool_decide_eq_false_2 (id ∈ ids)), (bool_decide_eq_true_2 (id ∈ id :: ids)) by (done || by left).
    cbn [negb]. rewrite <- Permutation_middle. by constructor.
  - rewrite (bool_decide_ext (i ∈ id :: ids) (i ∈ ids)) by (rewrite elem_of_cons; naive_solver).
    destruct (bool_decide (i ∈ ids)); cbn [negb]; [done|]. cbn. by constructor.
Qed.
Lemma untouched_nil target : untouched [] target = target.
Proof.
  unfold untouched. induction target as [|[i c] target IH]; [done|]. cbn [List.filter fst].
  rewrite bool_decide_eq_false_2 by apply not_elem_of_nil. cbn. by rewrite IH.
Qed.
(** The waiting nodes are the untouched ones and those the update meets. *)
Lemma target_split ids target :
  base.NoDup ids -> target ≡ₚ untouched ids target ++ List.flat_map (matching target) ids.
Proof.
  induction ids as [|id ids IH]; intros Hn; [by rewrite untouched_nil, app_nil_r|].
  apply list.NoDup_cons in Hn as [Hid Hn]. cbn. rewrite (IH Hn) at 1.
  rewrite (untouched_cons id ids target Hid). by rewrite <- app_assoc.
Qed.

Lemma flat_map_perm {A B} (f : A -> list B) l l' :
  l ≡ₚ l' -> List.flat_map f l ≡ₚ List.flat_map f l'.
Proof.
  induction 1 as [|x l l' _ IH|x y l|l1 l2 l3 _ IH1 _ IH2]; cbn; [done|by rewrite IH| |by rewrite IH1].
  by rewrite !app_assoc, (Permutation_app_comm (f y)).
Qed.

(** A quantity each merge conserves is conserved by the whole merge. *)
Lemma conserved {B} (f : Node -> list B) (released : Node -> list B) target incoming :
  base.NoDup (map fst incoming) ->
  (forall n, n ∈ incoming ->
     f (merged_node target n) ++ released n ≡ₚ List.flat_map f (matching target (fst n)) ++ f n) ->
  List.flat_map f (merged_nodes target incoming) ++ List.flat_map released incoming
  ≡ₚ List.flat_map f target ++ List.flat_map f incoming.
Proof.
  intros Hn Hf. rewrite (flat_map_perm f _ _ (target_split _ target Hn)).
  unfold merged_nodes. rewrite !flat_map_app, <- !app_assoc. apply Permutation_app_head. clear Hn.
  induction incoming as [|n incoming IH]; [done|]. cbn. rewrite flat_map_app.
  rewrite <- app_assoc, (Permutation_app_swap_app _ (released n)), app_assoc.
  rewrite Hf by by left. rewrite <- !app_assoc.
  rewrite IH by (intros m Hm; apply Hf; by right). apply Permutation_app_head.
  by rewrite Permutation_app_swap_app.
Qed.

Definition callbacks_of (n : Node) : list Token := frame_callbacks (snd n).
Definition buffers_of (n : Node) : list PendingSurfaceBuffer :=
  match attachment (snd n) with Some (AttachBuffer b) => [b] | _ => [] end.

(** ** What may be coalesced *)

Lemma nodes_coalesce_spec target seen incoming :
  nodes_coalesce target seen incoming = true ->
  base.NoDup (map fst incoming) /\ (forall id, id ∈ seen -> id ∉ map fst incoming) /\
  (forall n, n ∈ incoming -> node_coalesces target (fst n) (snd n) = true).
Proof.
  revert seen. induction incoming as [|[id c] incoming IH]; intros seen E.
  - split_and!; [constructor|by intros ? ? ?%elem_of_nil|by intros ? ?%elem_of_nil].
  - cbn in E. case_bool_decide as Hs; [done|].
    destruct (node_coalesces target id c) eqn:Ec; [|done].
    destruct (IH _ E) as (H1 & H2 & H3). cbn. split_and!.
    + apply list.NoDup_cons. split; [|done]. apply H2, elem_of_app. right. by left.
    + intros id' Hid' [->|Hin]%elem_of_cons; [done|].
      by apply (H2 id'); [apply elem_of_app; left|].
    + intros n [->|Hn]%elem_of_cons; [done|by apply H3].
Qed.
Lemma can_coalesce_spec t incoming :
  can_coalesce_pending_surface_tree_transaction t incoming = true ->
  base.NoDup (map fst incoming) /\
  (forall n, n ∈ incoming -> node_coalesces (tx_nodes t) (fst n) (snd n) = true).
Proof.
  unfold can_coalesce_pending_surface_tree_transaction. destruct (_ || _); [done|].
  intros E. by destruct (nodes_coalesce_spec _ _ _ E) as (? & _ & ?).
Qed.

Lemma node_coalesces_matching target id c :
  node_coalesces target id c = true ->
  matching target id = [] \/
  exists existing p, matching target id = [(id, existing)] /\
    commit_sequence existing < commit_sequence c /\ predecessor (lineage c) = Some p /\
    ref_surface_id p = id /\ ref_commit_sequence p < commit_sequence c /\
    content_update_node_covers_ref id existing p = true.
Proof.
  unfold node_coalesces. change (List.filter _ target) with (matching target id).
  destruct (matching target id) as [|[i existing] [|]] eqn:Em; [by left| |done]. intros E. right.
  assert (Hi : In (i, existing) (matching target id)) by (rewrite Em; by left).
  apply filter_In in Hi as [_ Hi]. apply Z.eqb_eq in Hi. cbn in Hi. subst i.
  destruct (Z.leb_spec (commit_sequence c) (commit_sequence existing)); [done|].
  destruct (predecessor (lineage c)) as [p|] eqn:Ep; [|done]. exists existing, p.
  apply negb_true_iff, orb_false_iff in E as [[E1 E2]%orb_false_iff E3].
  apply negb_false_iff in E1, E3. split_and!; try done; lia.
Qed.

(** ** Coverage *)

Definition covers (nodes : list Node) (r : ContentUpdateRef) : bool :=
  is_some (node_index_covering_content_update_ref nodes r).
Lemma covers_existsb nodes r :
  covers nodes r = existsb (fun n => content_update_node_covers_ref (fst n) (snd n) r) nodes.
Proof.
  unfold covers. induction nodes as [|[s c] nodes IH]; [done|]. cbn.
  destruct (content_update_node_covers_ref s c r); [done|]. cbn. rewrite <- IH.
  by destruct (node_index_covering_content_update_ref nodes r).
Qed.
Lemma covers_iff nodes r :
  covers nodes r = true <->
  exists n, n ∈ nodes /\ content_update_node_covers_ref (fst n) (snd n) r = true.
Proof. rewrite covers_existsb, existsb_exists. by setoid_rewrite list_elem_of_In. Qed.
Lemma covers_perm nodes nodes' r : nodes ≡ₚ nodes' -> covers nodes r = covers nodes' r.
Proof.
  intros Hp. apply Bool.eq_true_iff_eq. rewrite !covers_iff. by setoid_rewrite Hp.
Qed.

(** The updates a merged commit stands for. *)
Lemma merge_covers id existing c p r :
  commit_sequence existing < commit_sequence c -> predecessor (lineage c) = Some p ->
  ref_commit_sequence p < commit_sequence c -> content_update_node_covers_ref id existing p = true ->
  content_update_node_covers_ref id (fst (fst (merge existing c))) r = true <->
  content_update_node_covers_ref id existing r = true \/
  content_update_node_covers_ref id c r = true \/
  (ref_surface_id r = id /\ ref_commit_sequence r = commit_sequence existing).
Proof.
  intros Hlt Ep Hp Hc. unfold content_update_node_covers_ref in *.
  cbn [merge fst snd commit_sequence lineage predecessor commit_id]. rewrite Ep.
  destruct (predecessor (lineage existing)) as [q|];
    repeat match goal with |- context [?a =? ?b] => destruct (Z.eqb_spec a b); cbn [negb orb]
                    | |- context [?a <? ?b] => destruct (Z.ltb_spec a b); cbn [negb orb]
                    | |- context [?a <=? ?b] => destruct (Z.leb_spec a b); cbn [negb orb] end;
    repeat match goal with H : context [?a =? ?b] |- _ => destruct (Z.eqb_spec a b); cbn [negb orb] in H
                    | H : context [?a <? ?b] |- _ => destruct (Z.ltb_spec a b); cbn [negb orb] in H
                    | H : context [?a <=? ?b] |- _ => destruct (Z.leb_spec a b); cbn [negb orb] in H end;
    try done; try (split; [intros; tauto|intros; (done || lia)]); try lia; intuition (try lia || congruence).
Qed.

Lemma elem_of_filter_bool {A} (f : A -> bool) (l : list A) (x : A) :
  x ∈ List.filter f l <-> x ∈ l /\ f x = true.
Proof. rewrite !list_elem_of_In. apply filter_In. Qed.
Lemma matching_in target n : n ∈ target -> n ∈ matching target (fst n).
Proof.
  rewrite !list_elem_of_In. intros H. apply filter_In. split; [done|]. apply Z.eqb_refl.
Qed.
Lemma matching_elem target id n : n ∈ matching target id -> n ∈ target /\ fst n = id.
Proof. rewrite !list_elem_of_In. intros [H E]%filter_In. apply Z.eqb_eq in E. done. Qed.
Lemma untouched_elem ids target n : n ∈ untouched ids target <-> n ∈ target /\ fst n ∉ ids.
Proof.
  rewrite !list_elem_of_In. unfold untouched. rewrite filter_In, negb_true_iff.
  by rewrite bool_decide_eq_false, list_elem_of_In.
Qed.

Section Coalesced.
Context (target incoming : list Node).
Hypothesis ids_unique : base.NoDup (map fst incoming).
Hypothesis coalesces : forall n, n ∈ incoming -> node_coalesces target (fst n) (snd n) = true.

(** Nothing either side stood for is lost. *)
Lemma merged_covers_more r :
  covers target r = true \/ covers incoming r = true -> covers (merged_nodes target incoming) r = true.
Proof.
  rewrite !covers_iff. unfold merged_nodes. setoid_rewrite elem_of_app. intros [H|H].
  - destruct H as ([id c] & Hin & Hc). destruct (decide (id ∈ map fst incoming)) as [Hid|Hid].
    + apply list_elem_of_In, in_map_iff in Hid as ([i m] & Ei & Hm). cbn in Ei. subst i.
      apply list_elem_of_In in Hm. pose proof (matching_in _ _ Hin) as Hmt. cbn in Hmt.
      exists (merged_node target (id, m)). split; [right; by apply list_elem_of_In, in_map, list_elem_of_In|].
      unfold merged_node. cbn [fst snd].
      destruct (node_coalesces_matching _ _ _ (coalesces _ Hm))
        as [Em|(ex & p & Em & H1 & H2 & H3 & H4 & H5)]; cbn in Em; rewrite Em in *.
      * by apply elem_of_nil in Hmt.
      * apply list_elem_of_singleton in Hmt as [= ->]. cbn [fst snd].
        apply (merge_covers id ex m p r H1 H2 H4 H5). by left.
    + exists (id, c). split; [|done]. left. by apply untouched_elem.
  - destruct H as ([id m] & Hm & Hc). exists (merged_node target (id, m)).
    split; [right; by apply list_elem_of_In, in_map, list_elem_of_In|].
    unfold merged_node. cbn [fst snd].
    destruct (node_coalesces_matching _ _ _ (coalesces _ Hm))
      as [Em|(ex & p & Em & H1 & H2 & H3 & H4 & H5)]; cbn [fst snd] in *; rewrite Em; [done|].
    cbn [fst snd]. apply (merge_covers id ex m p r H1 H2 H4 H5). by right; left.
Qed.

(** And nothing is gained but other identities at a sequence already there. *)
Lemma merged_covers_less r :
  covers (merged_nodes target incoming) r = true ->
  covers target r = true \/ covers incoming r = true \/
  exists n, n ∈ target /\ ref_surface_id r = fst n /\
    ref_commit_sequence r = commit_sequence (snd n).
Proof.
  rewrite !covers_iff. unfold merged_nodes. intros (n & Hin & Hc).
  apply elem_of_app in Hin as [Hin|Hin].
  - left. exists n. by apply untouched_elem in Hin as [? _].
  - apply list_elem_of_In, in_map_iff in Hin as ([id m] & <- & Hm). apply list_elem_of_In in Hm.
    unfold merged_node in Hc. cbn [fst snd] in Hc.
    destruct (node_coalesces_matching _ _ _ (coalesces _ Hm))
      as [Em|(ex & p & Em & H1 & H2 & H3 & H4 & H5)]; cbn [fst snd] in *; rewrite Em in Hc.
    + right. left. by exists (id, m).
    + assert (Hex : (id, ex) ∈ target)
        by (apply (matching_elem _ id); rewrite Em; apply list_elem_of_singleton; done).
      cbn [fst snd] in Hc. apply (merge_covers id ex m p r H1 H2 H4 H5) in Hc as [Hc|[Hc|[Hc1 Hc2]]].
      * left. by exists (id, ex).
      * right. left. by exists (id, m).
      * right. right. by exists (id, ex).
Qed.

Lemma callbacks_conserved :
  List.flat_map callbacks_of (merged_nodes target incoming)
  ≡ₚ List.flat_map callbacks_of target ++ List.flat_map callbacks_of incoming.
Proof.
  rewrite <- (conserved callbacks_of (fun _ => []) target incoming ids_unique).
  - replace (List.flat_map (fun _ : Node => []) incoming) with (@nil Token); [by rewrite app_nil_r|].
    clear. by induction incoming.
  - intros [id m] Hm. unfold merged_node, callbacks_of. cbn [fst snd].
    destruct (node_coalesces_matching _ _ _ (coalesces _ Hm))
      as [Em|(ex & p & Em & _)]; cbn [fst snd] in *; rewrite Em; cbn; rewrite ?app_nil_r; done.
Qed.

Lemma buffers_conserved :
  List.flat_map buffers_of (merged_nodes target incoming) ++ superseded_buffers target incoming
  ≡ₚ List.flat_map buffers_of target ++ List.flat_map buffers_of incoming.
Proof.
  apply conserved; [done|]. intros [id m] Hm. unfold merged_node, buffers_of. cbn [fst snd].
  destruct (node_coalesces_matching _ _ _ (coalesces _ Hm))
    as [Em|(ex & p & Em & _)]; cbn [fst snd] in *; rewrite Em; cbn; rewrite ?app_nil_r; [done|].
  destruct (attachment m) as [[]|], (attachment ex) as [[]|]; cbn; try done. apply Permutation_swap.
Qed.
End Coalesced.

(** Folding a newer content update into a waiting transaction keeps what
    both promised: the result stands for every update either of them stood
    for (and for no other update but one at the sequence of a folded commit),
    no frame callback is lost, every buffer is either still attached or
    released once, the lifetimes still match the nodes, and what is left of
    the external dependencies are the distinct ones the result does not
    cover. *)
Theorem coalesced_transaction_spec external now t nodes lifetimes dependencies externals :
  length lifetimes = length nodes ->
  length (tx_publication_lifetimes t) = length (tx_nodes t) ->
  can_coalesce_pending_surface_tree_transaction t nodes = true ->
  exists t' stats effects,
    merge_surface_tree_nodes_into_transaction external now t nodes lifetimes dependencies externals
    = Ret (t', stats, effects) /\
    tx_nodes t' ≡ₚ merged_nodes (tx_nodes t) nodes /\
    length (tx_publication_lifetimes t') = length (tx_nodes t') /\
    (forall r, covers (tx_nodes t) r = true \/ covers nodes r = true -> covers (tx_nodes t') r = true) /\
    (forall r, covers (tx_nodes t') r = true ->
       covers (tx_nodes t) r = true \/ covers nodes r = true \/
       exists n, n ∈ tx_nodes t /\ ref_surface_id r = fst n /\
         ref_commit_sequence r = commit_sequence (snd n)) /\
    List.flat_map callbacks_of (tx_nodes t')
    ≡ₚ List.flat_map callbacks_of (tx_nodes t) ++ List.flat_map callbacks_of nodes /\
    List.flat_map buffers_of (tx_nodes t') ++ released_buffers effects
    ≡ₚ List.flat_map buffers_of (tx_nodes t) ++ List.flat_map buffers_of nodes /\
    base.NoDup (tx_external t') /\
    (forall r, r ∈ tx_external t' <->
       (r ∈ tx_external t \/ r ∈ externals) /\ covers (tx_nodes t') r = false).
Proof.
  intros Hl Hlt Hc. destruct (can_coalesce_spec _ _ Hc) as [Hn Hcs].
  unfold merge_surface_tree_nodes_into_transaction. rewrite Hl, Hlt, !Nat.eqb_refl. cbn [negb].
  destruct (split_existing_spec (map fst nodes) _ _ Hlt) as (slots & kl & Es & Ekl & Hs).
  rewrite Es. set (ms0 := mkMerge slots _ kl _ _ []).
  destruct (merge_loop external (tx_nodes t) nodes lifetimes ms0 Hl Hn Hs) as (E1 & E2 & E3).
  cbn zeta in E1, E2, E3. cbn [ms_nodes ms_lifetimes ms_effects ms0 released_buffers List.flat_map app] in E1, E2, E3.
  set (ms := foldl (merge_node external) ms0 (zip nodes lifetimes)) in *.
  change (untouched (map fst nodes) (tx_nodes t) ++ map (merged_node (tx_nodes t)) nodes)
    with (merged_nodes (tx_nodes t) nodes) in E1.
  set (t1 := normalize_transaction_external_content_dependencies _).
  assert (En1 : tx_nodes t1 = merged_nodes (tx_nodes t) nodes) by done.
  assert (El1 : length (tx_publication_lifetimes t1) = length (tx_nodes t1)).
  { rewrite En1. cbn. rewrite E2. unfold merged_nodes. rewrite !length_app, length_map. lia. }
  rewrite (normalize_reorders t1 El1). cbn [mbind].
  pose proof (publication_order_perm (tx_nodes t1)) as Hp.
  set (order := publication_order (tx_nodes t1)) in *.
  assert (Hnodes : tx_nodes (reordered order t1) ≡ₚ merged_nodes (tx_nodes t) nodes).
  { rewrite <- En1. cbn [reordered with_nodes tx_nodes]. by apply reordered_perm. }
  eexists _, _, _. split; [reflexivity|]. split; [done|].
  split_and!.
  - cbn [reordered with_nodes tx_nodes tx_publication_lifetimes].
    rewrite !reordered_perm by (try rewrite El1; done). done.
  - intros r Hr. rewrite (covers_perm _ _ _ Hnodes). by apply merged_covers_more.
  - intros r Hr. rewrite (covers_perm _ _ _ Hnodes) in Hr. by apply merged_covers_less.
  - rewrite (flat_map_perm _ _ _ Hnodes). by apply callbacks_conserved.
  - rewrite (flat_map_perm _ _ _ Hnodes). rewrite released_app, E3.
    replace (released_buffers (if external then _ else _)) with (@nil PendingSurfaceBuffer).
    + rewrite app_nil_r. by apply buffers_conserved.
    + destruct external; [|done]. unfold released_buffers. clear. by induction dependencies.
  - apply NoDup_extend_unique. constructor.
  - intros r. rewrite (covers_perm _ _ _ Hnodes), <- En1. cbn [reordered with_nodes tx_external].
    unfold t1 at 1. cbn [normalize_transaction_external_content_dependencies with_external tx_external].
    rewrite elem_of_extend_unique, elem_of_filter_bool, elem_of_extend_unique, negb_true_iff.
    split; [intros [H%elem_of_nil|H]; done|auto].
Qed.

(** A newer commit of the root folded into a waiting one. *)
Definition newer_root : CachedSubsurfaceCommit :=
  mkCommit 11 6 (mkLineage (Some (mkRef 1 10 5)) [] false) (Some RemoveContent) None [11] None None
    (mkViewport None None) None None None None None None None [] None false None 0
    (mkPacing false false false None None) 0 PcNoChange
    (mkContext (mkParentState [] [] None) None None).
Lemma coalesced_transaction_spec_witness :
  exists t' stats effects,
    merge_surface_tree_nodes_into_transaction true 0 backwards [(1, newer_root)] [mkLifetime 1 1 2] []
      [mkRef 9 90 1; mkRef 1 10 5]
    = Ret (t', stats, effects) /\ tx_external t' = [mkRef 9 90 1] /\
    covers (tx_nodes t') (mkRef 1 10 5) = true.
Proof.
  destruct (coalesced_transaction_spec true 0 backwards [(1, newer_root)] [mkLifetime 1 1 2] []
      [mkRef 9 90 1; mkRef 1 10 5] eq_refl eq_refl ltac:(by vm_compute))
    as (t' & stats & effects & E & _ & _ & Hc & _).
  exists t', stats, effects. split; [exact E|]. split; [|apply Hc; by vm_compute; left].
  vm_compute in E. injection E as <- _ _. reflexivity.
Defined.
