(* ===== verification/PresentationModes.v ===== *)
(** * PresentationModes: what kind of flip an output may use

    Models src/compositor/presentation_modes.rs (the double-buffered hints of
    a surface and the decision between synchronised, adaptive and tearing
    presentation), src/native/vrr_window.rs (the timing window of a variable
    refresh), src/native/output_epoch.rs (the lifetime of a pipeline) and
    src/native_output/presentation/async_validation.rs (the key under which a
    tested presentation is reused). Reading the environment is left out. *)

From stdpp Require Import base list option.
From Stdlib Require Import ZArith Lia.
From S2P Require Import Prelude Buffering.

(** ** Surface metadata *)

Inductive SurfacePresentationHint : Type := HintVsync | HintAsync.
Definition hint_is_async (h : SurfacePresentationHint) : bool :=
  match h with HintAsync => true | HintVsync => false end.

Inductive SurfaceContentType : Type := ContentNone | ContentPhoto | ContentVideo | ContentGame.
Inductive DrmContentType : Type := DrmGraphics | DrmPhoto | DrmCinema | DrmGame.
#[export] Instance DrmContentType_eq_dec : EqDecision DrmContentType.
Proof. solve_decision. Defined.
Definition drm_value (c : SurfaceContentType) : DrmContentType :=
  match c with
  | ContentNone => DrmGraphics
  | ContentPhoto => DrmPhoto
  | ContentVideo => DrmCinema
  | ContentGame => DrmGame
  end.

Record SurfacePresentationMetadata : Type := mkMetadata {
  md_hint : SurfacePresentationHint;
  md_content_type : SurfaceContentType
}.
Definition metadata_default : SurfacePresentationMetadata := mkMetadata HintVsync ContentNone.
Record SurfacePresentationState : Type := mkSurfacePresentation {
  sp_current : SurfacePresentationMetadata;
  sp_pending : SurfacePresentationMetadata;
  sp_pending_generation : Z
}.
Record CapturedSurfacePresentation : Type := mkCapturedPresentation {
  cp_metadata : SurfacePresentationMetadata;
  captured_pending_generation : Z
}.
Definition surface_presentation_default : SurfacePresentationState :=
  mkSurfacePresentation metadata_default metadata_default 0.

(** The pending metadata replaced and the generation advanced. *)
Definition set_pending (m : SurfacePresentationMetadata) (s : SurfacePresentationState)
  : res unit SurfacePresentationState :=
  generation ← expect (checked_add u64_max (sp_pending_generation s) 1);
  Ret (mkSurfacePresentation (sp_current s) m generation).
Definition set_pending_hint (h : SurfacePresentationHint) (s : SurfacePresentationState)
  : res unit SurfacePresentationState :=
  set_pending (mkMetadata h (md_content_type (sp_pending s))) s.
Definition set_pending_content_type (c : SurfaceContentType) (s : SurfacePresentationState)
  : res unit SurfacePresentationState :=
  set_pending (mkMetadata (md_hint (sp_pending s)) c) s.
Definition destroy_tearing_object (s : SurfacePresentationState)
  : res unit SurfacePresentationState :=
  set_pending (mkMetadata HintVsync (md_content_type (sp_pending s))) s.
Definition destroy_content_type_object (s : SurfacePresentationState)
  : res unit SurfacePresentationState :=
  set_pending (mkMetadata (md_hint (sp_pending s)) ContentNone) s.

Definition capture_pending_and_reset (s : SurfacePresentationState)
  : SurfacePresentationState * CapturedSurfacePresentation :=
  (mkSurfacePresentation (sp_current s) (sp_pending s) (sp_pending_generation s),
   mkCapturedPresentation (sp_pending s) (sp_pending_generation s)).
Definition apply_captured (c : CapturedSurfacePresentation) (s : SurfacePresentationState)
  : SurfacePresentationState :=
  mkSurfacePresentation (cp_metadata c)
    (if sp_pending_generation s =? captured_pending_generation c then cp_metadata c
     else sp_pending s)
    (sp_pending_generation s).
Definition commit_presentation (s : SurfacePresentationState)
  : SurfacePresentationState * SurfacePresentationMetadata :=
  (mkSurfacePresentation (sp_pending s) (sp_pending s) (sp_pending_generation s), sp_pending s).

(** ** Policies and blockers *)

Inductive TearingPolicy : Type := TearingOff | TearingAuto.
Inductive VrrPolicy : Type := VrrOff | VrrAuto | VrrOn.
Definition allows_adaptive_sync (p : VrrPolicy) (auto_candidate : bool) : bool :=
  match p with VrrOff => false | VrrAuto => auto_candidate | VrrOn => true end.
Definition allows_async_request (p : TearingPolicy) : bool :=
  match p with TearingOff => false | TearingAuto => true end.

Inductive AsyncBlocker : Type :=
  AsyncPolicyDisabled | NotSolitaryFullscreen | SurfaceHintMissing | AsyncBackendUnavailable
| AsyncGenerationUnqualified | HardwareCursorVisible | CursorTransitionPending
| NonPrimaryPlaneActive | ExplicitSyncNotReady | CommitTimingNotSafe | KmsLaneBusy
| AsyncTestOnlyRejected | AsyncFormatUnsupported | AsyncSubmitRejected | ModesetRequired.
Inductive VrrBlocker : Type :=
  VrrPolicyDisabled | AutoCandidateIneligible | VrrBackendUnavailable
| ConnectorCapabilityUnavailable | CrtcPropertyUnavailable | VrrGenerationUnqualified
| ExactKmsQualificationRejected | UnsupportedTransition | UnstableCadence.

Record AsyncEligibility : Type := mkAsync {
  solitary_fullscreen : bool;
  async_hint : bool;
  async_backend_capable : bool;
  async_generation_qualified : bool;
  cursor_visible : bool;
  cursor_transition_pending : bool;
  non_primary_plane_active : bool;
  explicit_sync_ready : bool;
  commit_timing_safe : bool;
  kms_lane_free : bool;
  async_test_only_accepted : bool;
  async_format_supported : bool;
  modeset_required : bool
}.
Record VrrEligibility : Type := mkVrr {
  auto_candidate : bool;
  vrr_backend_capable : bool;
  connector_capable : bool;
  crtc_property_available : bool;
  vrr_generation_qualified : bool;
  exact_kms_qualified : bool;
  transition_supported : bool;
  cadence_unstable : bool
}.

Inductive OutputPresentationMode : Type := ModeVsync | AdaptiveSync | ModeAsync | AdaptiveAsync.
#[export] Instance OutputPresentationMode_eq_dec : EqDecision OutputPresentationMode.
Proof. solve_decision. Defined.
Definition mode_is_async (m : OutputPresentationMode) : bool :=
  match m with ModeAsync | AdaptiveAsync => true | _ => false end.
Definition uses_vrr (m : OutputPresentationMode) : bool :=
  match m with AdaptiveSync | AdaptiveAsync => true | _ => false end.
Definition presentation_domain (m : OutputPresentationMode) : PresentationDomain :=
  match m with
  | ModeVsync => DomainFixedVsync
  | AdaptiveSync | AdaptiveAsync => DomainVrrWindow
  | ModeAsync => DomainAsyncImmediate
  end.

Record EffectivePresentation : Type := mkEffective {
  ep_mode : OutputPresentationMode;
  ep_content_type : SurfaceContentType;
  ep_vrr_blocker : option VrrBlocker;
  ep_async_blocker : option AsyncBlocker
}.

Definition vrr_blocker_of (policy : VrrPolicy) (e : VrrEligibility) : option VrrBlocker :=
  match policy with
  | VrrOff => Some VrrPolicyDisabled
  | _ =>
      if match policy with VrrAuto => negb (auto_candidate e) | _ => false end
      then Some AutoCandidateIneligible
      else if negb (auto_candidate e) && cadence_unstable e then Some UnstableCadence
      else if negb (vrr_backend_capable e) then Some VrrBackendUnavailable
      else if negb (connector_capable e) then Some ConnectorCapabilityUnavailable
      else if negb (crtc_property_available e) then Some CrtcPropertyUnavailable
      else if negb (vrr_generation_qualified e) then Some VrrGenerationUnqualified
      else if negb (exact_kms_qualified e) then Some ExactKmsQualificationRejected
      else if negb (transition_supported e) then Some UnsupportedTransition
      else None
  end.
Definition async_blocker_of (policy : TearingPolicy) (metadata : SurfacePresentationMetadata)
  (e : AsyncEligibility) : option AsyncBlocker :=
  if negb (allows_async_request policy) then Some AsyncPolicyDisabled
  else if negb (solitary_fullscreen e) then Some NotSolitaryFullscreen
  else if negb (hint_is_async (md_hint metadata)) || negb (async_hint e) then Some SurfaceHintMissing
  else if negb (async_backend_capable e) then Some AsyncBackendUnavailable
  else if negb (async_format_supported e) then Some AsyncFormatUnsupported
  else if negb (async_generation_qualified e) then Some AsyncGenerationUnqualified
  else if cursor_visible e then Some HardwareCursorVisible
  else if cursor_transition_pending e then Some CursorTransitionPending
  else if non_primary_plane_active e then Some NonPrimaryPlaneActive
  else if negb (explicit_sync_ready e) then Some ExplicitSyncNotReady
  else if negb (commit_timing_safe e) then Some CommitTimingNotSafe
  else if negb (kms_lane_free e) then Some KmsLaneBusy
  else if negb (async_test_only_accepted e) then Some AsyncTestOnlyRejected
  else if modeset_required e then Some ModesetRequired
  else None.
Definition decide_presentation (policy : TearingPolicy) (vrr_policy : VrrPolicy)
  (metadata : SurfacePresentationMetadata) (eligibility : AsyncEligibility)
  (vrr_eligibility : VrrEligibility) : EffectivePresentation :=
  let vrr_blocker := vrr_blocker_of vrr_policy vrr_eligibility in
  let async_blocker := async_blocker_of policy metadata eligibility in
  let mode :=
    match vrr_blocker, async_blocker with
    | Some _, Some _ => ModeVsync
    | None, Some _ => AdaptiveSync
    | Some _, None => ModeAsync
    | None, None => AdaptiveAsync
    end in
  mkEffective mode (md_content_type metadata) vrr_blocker async_blocker.

(** ** Variable refresh window *)

Record VrrWindowPlanInput : Type := mkPlanInput {
  vi_anchor : MonotonicTimestampNs;
  vi_now : MonotonicTimestampNs;
  vi_not_before : option MonotonicTimestampNs;
  vi_shortest_interval : Duration;
  vi_longest_interval : option Duration
}.
Definition vrr_plan (i : VrrWindowPlanInput) : option PresentationTiming :=
  if (vi_now i <? vi_anchor i) || (vi_shortest_interval i =? 0) then None
  else
    shortest_interval_ns ←
      (if vi_shortest_interval i <=? u64_max then Some (vi_shortest_interval i) else None);
    earliest_present ← checked_add u64_max (vi_anchor i) shortest_interval_ns;
    let logical_eligible :=
      match vi_not_before i with Some nb => Z.max (vi_now i) nb | None => vi_now i end in
    let longest_interval :=
      match vi_longest_interval i with
      | Some longest => if vi_shortest_interval i <? longest then Some longest else None
      | None => None
      end in
    Some (VrrWindow (vi_anchor i) earliest_present (vi_not_before i)
            (Z.max earliest_present logical_eligible) None (vi_shortest_interval i)
            longest_interval).

(** ** Output epochs *)

Definition epoch_initial : Z := 1.
Definition epoch_new (value : Z) : option Z := if value =? 0 then None else Some value.
Definition epoch_next (e : Z) : Z :=
  let next := (e + 1) mod (u64_max + 1) in
  if next =? 0 then 1 else next.

(** ** Validation keys *)

Record AtomicCursorVisualState : Type := mkCursor {
  cv_visible : bool;
  cv_x : Z;
  cv_y : Z;
  cv_hotspot_x : Z;
  cv_hotspot_y : Z;
  cv_width : Z;
  cv_height : Z;
  cv_framebuffer_id : option Z;
  cv_image_generation : Z
}.
#[export] Instance AtomicCursorVisualState_eq_dec : EqDecision AtomicCursorVisualState.
Proof. solve_decision. Defined.
Record DrmFormatModifierPair : Type := mkFormatModifier { fm_fourcc : Z; fm_modifier : Z }.
#[export] Instance DrmFormatModifierPair_eq_dec : EqDecision DrmFormatModifierPair.
Proof. solve_decision. Defined.
Record CompositedPresentationValidationKey : Type := mkValidationKey {
  vk_output_id : Z;
  vk_output_generation : Z;
  vk_crtc_id : Z;
  vk_primary_plane_id : Z;
  vk_format_modifier : DrmFormatModifierPair;
  vk_presentation_mode : OutputPresentationMode;
  vk_acquire_strategy : Z;
  vk_cursor_visible : bool;
  vk_cursor_state : option AtomicCursorVisualState;
  vk_cursor_transition_pending : bool;
  vk_non_primary_plane_active : bool;
  vk_explicit_sync_ready : bool;
  vk_content_type : DrmContentType
}.
#[export] Instance CompositedPresentationValidationKey_eq_dec
  : EqDecision CompositedPresentationValidationKey.
Proof. solve_decision. Defined.
Definition unplaced (c : AtomicCursorVisualState) : AtomicCursorVisualState :=
  mkCursor (cv_visible c) 0 0 0 0 (cv_width c) (cv_height c) (cv_framebuffer_id c)
    (cv_image_generation c).
Definition validation_key_new (output_id output_generation crtc_id primary_plane_id : Z)
  (format_modifier : DrmFormatModifierPair) (mode : OutputPresentationMode) (acquire_strategy : Z)
  (visible : bool) (cursor_state : option AtomicCursorVisualState)
  (transition_pending plane_active sync_ready : bool) (content_type : DrmContentType)
  : CompositedPresentationValidationKey :=
  mkValidationKey output_id output_generation crtc_id primary_plane_id format_modifier mode
    acquire_strategy visible (if mode_is_async mode then cursor_state else unplaced <$> cursor_state)
    transition_pending plane_active sync_ready content_type.

(** ** The decision *)

Definition vrr_allowed (policy : VrrPolicy) (e : VrrEligibility) : Prop :=
  (policy = VrrAuto /\ auto_candidate e = true \/
   policy = VrrOn /\ (auto_candidate e = true \/ cadence_unstable e = false)) /\
  vrr_backend_capable e = true /\ connector_capable e = true /\ crtc_property_available e = true /\
  vrr_generation_qualified e = true /\ exact_kms_qualified e = true /\ transition_supported e = true.
Definition async_allowed (policy : TearingPolicy) (m : SurfacePresentationMetadata)
  (e : AsyncEligibility) : Prop :=
  policy = TearingAuto /\ md_hint m = HintAsync /\ async_hint e = true /\
  solitary_fullscreen e = true /\ async_backend_capable e = true /\
  async_format_supported e = true /\ async_generation_qualified e = true /\
  cursor_visible e = false /\ cursor_transition_pending e = false /\
  non_primary_plane_active e = false /\ explicit_sync_ready e = true /\
  commit_timing_safe e = true /\ kms_lane_free e = true /\
  async_test_only_accepted e = true /\ modeset_required e = false.

Lemma vrr_blocker_None policy e : vrr_blocker_of policy e = None <-> vrr_allowed policy e.
Proof.
  unfold vrr_blocker_of, vrr_allowed.
  destruct policy, e as [[] [] [] [] [] [] [] []]; cbn; split; intros; naive_solver.
Qed.
Lemma async_blocker_None policy m e :
  async_blocker_of policy m e = None <-> async_allowed policy m e.
Proof.
  destruct m as [h c], e as [sf ah bc gq cv ct np es cs kl ta fs mr]. unfold async_blocker_of, async_allowed. cbn.
  destruct policy; cbn; [split; [done|]; by intros [? _]|].
  destruct sf; cbn; [|by split; [done|]; naive_solver].
  destruct h; cbn; [by split; [done|]; naive_solver|].
  repeat match goal with
         | |- context [if negb ?b then _ else _] => destruct b; cbn; [|by split; [done|]; naive_solver]
         | |- context [if ?b then _ else _] => is_var b; destruct b; cbn; [by split; [done|]; naive_solver|]
         end.
  split; [naive_solver|done].
Qed.

(** An output tears only when every condition for it holds (policy, a
    solitary fullscreen surface that asked for it, no visible or changing
    cursor, no other plane, sync and timing safe, the lane free and the exact
    state tested), it uses a variable refresh only when every condition for
    that holds, and the mode says which of the two it uses. *)
Theorem presentation_decision_exact policy vrr_policy metadata eligibility vrr_eligibility :
  let p := decide_presentation policy vrr_policy metadata eligibility vrr_eligibility in
  (mode_is_async (ep_mode p) = true <-> async_allowed policy metadata eligibility) /\
  (uses_vrr (ep_mode p) = true <-> vrr_allowed vrr_policy vrr_eligibility) /\
  (ep_async_blocker p = None <-> async_allowed policy metadata eligibility) /\
  (ep_vrr_blocker p = None <-> vrr_allowed vrr_policy vrr_eligibility) /\
  (presentation_domain (ep_mode p) = DomainVrrWindow <-> vrr_allowed vrr_policy vrr_eligibility).
Proof.
  cbn zeta. rewrite <- async_blocker_None, <- vrr_blocker_None. unfold decide_presentation. cbn.
  destruct (vrr_blocker_of _ _), (async_blocker_of _ _ _); cbn; naive_solver.
Qed.

(** The policy predicate of the scheduler agrees with the decision. *)
Lemma vrr_needs_policy policy e :
  vrr_blocker_of policy e = None -> allows_adaptive_sync policy (auto_candidate e) = true.
Proof. rewrite vrr_blocker_None. intros [[[-> ->]|[-> _]] _]; done. Qed.

(** ** Latching *)

Inductive PresentationOp : Type :=
| OpHint (h : SurfacePresentationHint)
| OpContent (c : SurfaceContentType)
| OpDestroyTearing
| OpDestroyContent
| OpCapture
| OpLatch (index : nat)
| OpCommit.

(** A surface with the captures of it that wait to be latched. *)
Definition presentation_step (op : PresentationOp)
  (st : SurfacePresentationState * list CapturedSurfacePresentation)
  : res unit (SurfacePresentationState * list CapturedSurfacePresentation) :=
  let '(s, captured) := st in
  match op with
  | OpHint h => s ← set_pending_hint h s; Ret (s, captured)
  | OpContent c => s ← set_pending_content_type c s; Ret (s, captured)
  | OpDestroyTearing => s ← destroy_tearing_object s; Ret (s, captured)
  | OpDestroyContent => s ← destroy_content_type_object s; Ret (s, captured)
  | OpCapture => let '(s, c) := capture_pending_and_reset s in Ret (s, captured ++ [c])
  | OpLatch index =>
      Ret (match captured !! index with Some c => apply_captured c s | None => s end, captured)
  | OpCommit => Ret (fst (commit_presentation s), captured)
  end.
Fixpoint presentation_run (ops : list PresentationOp)
  (st : SurfacePresentationState * list CapturedSurfacePresentation)
  : res unit (SurfacePresentationState * list CapturedSurfacePresentation) :=
  match ops with
  | [] => Ret st
  | op :: ops => st ← presentation_step op st; presentation_run ops st
  end.

(** The contract: the pending value is the latest request, the current one
    what was latched last. *)
Record DoubleBuffer : Type := mkDouble {
  db_current : SurfacePresentationMetadata;
  db_pending : SurfacePresentationMetadata;
  db_captured : list SurfacePresentationMetadata
}.
Definition double_step (d : DoubleBuffer) (op : PresentationOp) : DoubleBuffer :=
  match op with
  | OpHint h => mkDouble (db_current d) (mkMetadata h (md_content_type (db_pending d))) (db_captured d)
  | OpContent c => mkDouble (db_current d) (mkMetadata (md_hint (db_pending d)) c) (db_captured d)
  | OpDestroyTearing =>
      mkDouble (db_current d) (mkMetadata HintVsync (md_content_type (db_pending d))) (db_captured d)
  | OpDestroyContent =>
      mkDouble (db_current d) (mkMetadata (md_hint (db_pending d)) ContentNone) (db_captured d)
  | OpCapture => mkDouble (db_current d) (db_pending d) (db_captured d ++ [db_pending d])
  | OpLatch index =>
      mkDouble (default (db_current d) (db_captured d !! index)) (db_pending d) (db_captured d)
  | OpCommit => mkDouble (db_pending d) (db_pending d) (db_captured d)
  end.
Definition double_of (st : SurfacePresentationState * list CapturedSurfacePresentation)
  : DoubleBuffer :=
  mkDouble (sp_current (fst st)) (sp_pending (fst st)) (map cp_metadata (snd st)).

Lemma lookup_map' {A B} (f : A -> B) (l : list A) (i : nat) : map f l !! i = f <$> l !! i.
Proof. apply list_lookup_fmap. Qed.

(** A capture of the current generation holds the pending value. *)
Definition captures_ok (st : SurfacePresentationState * list CapturedSurfacePresentation) : Prop :=
  forall c, c ∈ snd st ->
    captured_pending_generation c <= sp_pending_generation (fst st) /\
    (captured_pending_generation c = sp_pending_generation (fst st) ->
     cp_metadata c = sp_pending (fst st)).

Lemma set_pending_Ret m s :
  0 <= sp_pending_generation s < u64_max ->
  set_pending m s = Ret (mkSurfacePresentation (sp_current s) m (sp_pending_generation s + 1)).
Proof. intros H. unfold set_pending, checked_add. by rewrite checked_in by lia. Qed.

Lemma presentation_step_refines op st :
  0 <= sp_pending_generation (fst st) < u64_max -> captures_ok st ->
  exists st', presentation_step op st = Ret st' /\ captures_ok st' /\
    0 <= sp_pending_generation (fst st') <= sp_pending_generation (fst st) + 1 /\
    double_of st' = double_step (double_of st) op.
Proof.
  destruct st as [s captured]. cbn [fst]. intros Hg Hc.
  assert (Hset : forall m, captures_ok (mkSurfacePresentation (sp_current s) m (sp_pending_generation s + 1), captured)).
  { intros m c Hin. destruct (Hc c Hin) as [Hle _]. cbn in *. split; lia. }
  destruct op; cbn [presentation_step];
    unfold set_pending_hint, set_pending_content_type, destroy_tearing_object, destroy_content_type_object;
    rewrite ?set_pending_Ret by done; cbn [mbind res_bind]; eexists; (split; [reflexivity|]); cbn [fst].
  1-4: split_and!; [apply Hset|cbn; lia|cbn; lia|done].
  - split_and!; [|cbn; lia|cbn; lia|].
    + intros c [Hin|Hin]%elem_of_app; [by apply Hc|]. apply list_elem_of_singleton in Hin as ->. done.
    + unfold double_of. cbn. by rewrite map_app.
  - destruct (captured !! index) as [c|] eqn:E; cbn [fst].
    + destruct (Hc c (list_elem_of_lookup_2 _ _ _ E)) as [Hle Heq]. cbn in Hle, Heq.
      assert (Hp : sp_pending (apply_captured c s) = sp_pending s).
      { cbn. destruct (Z.eqb_spec (sp_pending_generation s) (captured_pending_generation c)); [|done].
        by apply Heq. }
      split_and!; [|cbn; lia|cbn; lia|].
      * intros c' Hin. destruct (Hc c' Hin) as [H1 H2]. cbn [fst snd] in *. rewrite Hp. done.
      * unfold double_of, double_step. cbn [fst snd db_captured db_pending]. rewrite Hp.
        cbn. by rewrite lookup_map', E.
    + split_and!; [done|lia|lia|]. unfold double_of. cbn. by rewrite lookup_map', E.
  - split_and!; [|cbn; lia|cbn; lia|done]. intros c Hin. by destruct (Hc c Hin).
Qed.

(** The double buffering of presentation hints is that of the protocol:
    whatever the order of requests, captures, latches and commits, a request
    never changes the current value, a latch makes the captured value current
    and keeps the requests made since, and nothing panics before 2^64
    requests. *)
Theorem latching_refines_double_buffer ops :
  Z.of_nat (length ops) <= u64_max ->
  exists st, presentation_run ops (surface_presentation_default, []) = Ret st /\
    double_of st = foldl double_step (mkDouble metadata_default metadata_default []) ops.
Proof.
  intros Hl.
  assert (H : forall st, 0 <= sp_pending_generation (fst st) ->
    sp_pending_generation (fst st) + Z.of_nat (length ops) <= u64_max -> captures_ok st ->
    exists st', presentation_run ops st = Ret st' /\ double_of st' = foldl double_step (double_of st) ops).
  { clear Hl. induction ops as [|op ops IH]; intros st H0 Hg Hc; [by exists st|].
    cbn [length] in Hg. destruct (presentation_step_refines op st ltac:(lia) Hc) as (st1 & E & Hc1 & Hg1 & Hd).
    destruct (IH st1 ltac:(lia) ltac:(lia) Hc1) as (st2 & E2 & Hd2).
    exists st2. cbn [presentation_run foldl]. rewrite E. cbn [mbind res_bind]. by rewrite <- Hd. }
  apply (H (surface_presentation_default, [])); [done|cbn; lia|]. by intros c ?%elem_of_nil.
Qed.
Lemma latching_refines_double_buffer_witness :
  exists st,
    presentation_run [OpHint HintAsync; OpCapture; OpContent ContentGame; OpLatch 0]
      (surface_presentation_default, []) = Ret st /\
    sp_current (fst st) = mkMetadata HintAsync ContentNone /\
    sp_pending (fst st) = mkMetadata HintAsync ContentGame.
Proof.
  destruct (latching_refines_double_buffer
    [OpHint HintAsync; OpCapture; OpContent ContentGame; OpLatch 0] ltac:(vm_compute; discriminate))
    as (st & E & Hd).
  exists st. split; [exact E|]. destruct st as [[c q g] l]. vm_compute in Hd. cbn. by injection Hd as -> -> _.
Defined.

(** ** The variable refresh window *)

(** The window of a variable refresh starts one shortest interval after
    the last flip and prefers the first time that is in the window, not in the
    past and not before the client's own bound; there is no plan exactly when
    the clock is behind the flip, the interval is empty, or the window starts
    after the last representable time. *)
Theorem vrr_window_bounds i :
  in_u64 (vi_anchor i) -> 0 <= vi_shortest_interval i ->
  match vrr_plan i with
  | Some (VrrWindow anchor earliest not_before preferred deadline shortest longest) =>
      anchor = vi_anchor i /\ not_before = vi_not_before i /\ shortest = vi_shortest_interval i /\
      earliest = vi_anchor i + vi_shortest_interval i /\ in_u64 earliest /\ deadline = None /\
      (forall t, preferred <= t <->
         earliest <= t /\ vi_now i <= t /\ (forall nb, vi_not_before i = Some nb -> nb <= t)) /\
      (forall l, longest = Some l <-> vi_longest_interval i = Some l /\ shortest < l)
  | Some _ => False
  | None => vi_now i < vi_anchor i \/ vi_shortest_interval i = 0 \/
            u64_max < vi_anchor i + vi_shortest_interval i
  end.
Proof.
  intros Ha Hs. unfold vrr_plan. unfold in_u64 in *.
  destruct (Z.ltb_spec (vi_now i) (vi_anchor i)) as [?|Hn]; cbn; [by left|].
  destruct (Z.eqb_spec (vi_shortest_interval i) 0) as [?|Hz]; cbn; [by right; left|].
  destruct (Z.leb_spec (vi_shortest_interval i) u64_max) as [Hm|Hm]; cbn; [|right; right; lia].
  unfold checked_add. destruct (decide (vi_anchor i + vi_shortest_interval i <= u64_max)) as [Hf|Hf].
  - rewrite checked_in by lia. cbn. split_and!; try done; try lia.
    + intros t. destruct (vi_not_before i) as [nb|].
      * rewrite !Z.max_lub_iff. naive_solver.
      * rewrite !Z.max_lub_iff. naive_solver.
    + intros l. destruct (vi_longest_interval i) as [l'|]; [|naive_solver].
      destruct (Z.ltb_spec (vi_shortest_interval i) l'); [naive_solver|].
      split; [done|]. intros [[= ->] ?]. lia.
  - rewrite (proj2 (checked_None _ _ _)) by lia. cbn. right. right. lia.
Qed.
Lemma vrr_window_bounds_witness :
  exists preferred,
    vrr_plan (mkPlanInput 100 150 (Some 120) 40 (Some 90))
    = Some (VrrWindow 100 140 (Some 120) preferred None 40 (Some 90)) /\
    (forall t, preferred <= t -> 140 <= t /\ 150 <= t).
Proof.
  pose proof (vrr_window_bounds (mkPlanInput 100 150 (Some 120) 40 (Some 90))
    ltac:(vm_compute; split; discriminate) ltac:(vm_compute; discriminate)) as H.
  exists 150. split; [reflexivity|]. vm_compute vrr_plan in H.
  destruct H as (_ & _ & _ & _ & _ & _ & H & _). intros t Ht. by apply H in Ht as (? & ? & _).
Defined.

(** ** Epochs and keys *)

Lemma epoch_next_spec e :
  1 <= e <= u64_max -> 1 <= epoch_next e <= u64_max /\ epoch_next e <> e /\
  epoch_new (epoch_next e) = Some (epoch_next e) /\
  (e < u64_max -> epoch_next e = e + 1).
Proof.
  intros H. assert (Hn : epoch_next e = if e =? u64_max then 1 else e + 1).
  { unfold epoch_next. destruct (Z.eqb_spec e u64_max) as [->|Hne].
    - by rewrite Z_mod_same_full.
    - rewrite Z.mod_small by lia. destruct (Z.eqb_spec (e + 1) 0); [lia|done]. }
  rewrite Hn. unfold epoch_new. destruct (Z.eqb_spec e u64_max) as [->|Hne].
  - split_and!; [int_lia|int_lia|int_lia|done|intros; lia].
  - destruct (Z.eqb_spec (e + 1) 0); [lia|]. split_and!; try done; intros; lia.
Qed.

(** Moving the cursor leaves a tested synchronous presentation valid. *)
Lemma cursor_moves_keep_key o g crtc plane fm mode acq vis c x y hx hy tp pa sr ct :
  mode_is_async mode = false ->
  validation_key_new o g crtc plane fm mode acq vis
    (Some (mkCursor (cv_visible c) x y hx hy (cv_width c) (cv_height c) (cv_framebuffer_id c)
             (cv_image_generation c))) tp pa sr ct
  = validation_key_new o g crtc plane fm mode acq vis (Some c) tp pa sr ct.
Proof. intros E. unfold validation_key_new. by rewrite E. Qed.
