(* ===== verification/OutputTransaction.v ===== *)
(** * OutputTransaction: the descriptor of one output frame

    Models src/native_output/presentation/transaction.rs (the reservations are
    part of Pipeline.v) and the plane write sets of
    src/native_output/presentation/plane.rs: identities and their allocator,
    what a transaction puts on which plane and owes to whom, the constructors
    with their checks, the updates before submission, and the comparison of
    presentation states and contents. Slots, framebuffers, cursor contents,
    damage records and commit keys are identifiers in [Z]. *)

From stdpp Require Import base list option gmap.
From Stdlib Require Import ZArith Lia.
From S2P Require Import Prelude CoreIds Buffering Deadline Scheduler Pipeline PresentationModes.

(** ** Identities *)

Abbreviation OutputTransactionId := Z.
Abbreviation CompositorFrameBatchId := Z.
Abbreviation PresentationFeedbackBatchId := Z.

Record OutputTransactionAllocator : Type := mkAllocator {
  al_next : Z;
  al_exhausted : bool
}.
Inductive OutputTransactionAllocationError : Type := AllocationExhausted.
Definition allocator_default : OutputTransactionAllocator := mkAllocator 1 false.
Definition allocate (a : OutputTransactionAllocator)
  : OutputTransactionAllocator * res OutputTransactionAllocationError OutputTransactionId :=
  if al_exhausted a then (a, Fail AllocationExhausted)
  else if al_next a =? u64_max then (mkAllocator (al_next a) true, Ret (al_next a))
  else (mkAllocator (al_next a + 1) false, Ret (al_next a)).

(** ** Content keys *)

Record OutputContentKey : Type := mkContentKey {
  ck_surface_id : Z;
  ck_buffer_id : Z;
  ck_content_epoch : Z;
  ck_width : Z;
  ck_height : Z;
  ck_format : Z;
  ck_modifier : Z;
  ck_transform : Z;
  ck_scale_milli : Z;
  ck_color_epoch : Z
}.
Record DirectScanoutCandidateKey : Type := mkDirectKey {
  dk_output_id : Z;
  dk_content : OutputContentKey;
  dk_output_generation : Z;
  dk_cursor_content_key : option Z;
  dk_color_epoch : Z
}.
#[export] Instance OutputContentKey_eq_dec : EqDecision OutputContentKey.
Proof. solve_decision. Defined.
#[export] Instance DirectScanoutCandidateKey_eq_dec : EqDecision DirectScanoutCandidateKey.
Proof. solve_decision. Defined.

Record ContentObservation : Type := mkContentObservation {
  co_surface_id : Z;
  co_buffer_id : Z;
  co_attachment_sequence : Z;
  co_epoch : Z
}.
Record ContentEpochTracker : Type := mkTracker {
  current_by_surface : gmap Z ContentObservation;
  tracker_next : Z
}.
Definition tracker_default : ContentEpochTracker := mkTracker ∅ 1.
Definition observe_content (surface_id buffer_id attachment_sequence : Z) (t : ContentEpochTracker)
  : res unit (ContentEpochTracker * ContentObservation) :=
  let epoch := tracker_next t in
  next ← expect (checked_add u64_max epoch 1);
  let observation := mkContentObservation surface_id buffer_id attachment_sequence epoch in
  Ret (mkTracker (<[surface_id := observation]> (current_by_surface t)) next, observation).
Definition record_metadata_commit (surface_id : Z) (t : ContentEpochTracker) : option Z :=
  co_epoch <$> current_by_surface t !! surface_id.

(** ** Planes *)

(** A [PlaneWriteSet] is a [u8] of flags. *)
Definition PRIMARY : Z := 1.
Definition CURSOR : Z := 2.
Definition OUTPUT : Z := 4.
Definition write_set_contains (s other : Z) : bool := Z.land s other =? other.
Inductive PlaneWriteSetError : Type := MissingCursor | CursorDeltaChangesPrimary.
Definition validate_cursor_delta (s : Z) : res PlaneWriteSetError unit :=
  if negb (write_set_contains s CURSOR) then Fail MissingCursor
  else if write_set_contains s PRIMARY then Fail CursorDeltaChangesPrimary
  else Ret tt.

Inductive OutputTransactionContent : Type :=
| Composited (frame_id render_generation pool_generation : Z)
    (equivalent_direct_key : option DirectScanoutCandidateKey)
| Direct (frame_id : Z) (key : DirectScanoutCandidateKey)
| CompatibilityImmediate (frame_id : Z)
| PlaneDelta (changed cursor_sidecar_id : Z).
Inductive PrimaryPlaneAssignment : Type :=
| CompositorFramebuffer (slot framebuffer_id : Z)
| CompatibilityFramebuffer (framebuffer_id : Z)
| ClientFramebuffer (key : DirectScanoutCandidateKey) (framebuffer_id : Z)
| PrimaryUnchanged
| PrimaryDisabled.
Inductive CursorPlaneAssignment : Type :=
| CursorAtomic (desired_epoch : Z) (state : option AtomicCursorVisualState)
| CursorUnchanged
| CursorDisabled.
Record OverlayPlaneAssignment : Type := mkOverlay { ov_plane_id : Z; ov_framebuffer_id : Z }.
Record OutputPlanePlan : Type := mkPlanes {
  pl_primary : PrimaryPlaneAssignment;
  pl_cursor : CursorPlaneAssignment;
  pl_overlays : list OverlayPlaneAssignment
}.

Inductive OutputTransactionBuildError : Type :=
  ZeroOutputGeneration | MissingFrameBatch | MissingDirectSurface
| DirectPrimaryForCompositedContent | CompositorPrimaryForDirectContent
| ChangedPrimaryForPlaneDelta | FrameBatchForPlaneDelta | DirectSurfaceForCompositedContent
| DirectSurfaceForPlaneDelta | BuildVrrCannotUseDeferredO1 | VariableRequiresAdaptiveSync
| BuildFeedbackForCompatibilityImmediate | OverlayAssignmentsUnsupported.

Definition plane_plan_new (primary : PrimaryPlaneAssignment) (cursor : CursorPlaneAssignment)
  (overlays : list OverlayPlaneAssignment) : res OutputTransactionBuildError OutputPlanePlan :=
  match overlays with
  | [] => Ret (mkPlanes primary cursor overlays)
  | _ => Fail OverlayAssignmentsUnsupported
  end.

Inductive OutputAcquirePlan : Type := RenderFence | ClientContentAlreadyReady | AcquireNone.
Inductive OutputReleasePlan : Type := ReleasePageflip | OutFenceThenPageflip | ReleaseNone.
Record OutputSynchronizationPlan : Type := mkSyncPlan {
  sy_acquire : OutputAcquirePlan;
  sy_release : OutputReleasePlan
}.

Record OutputProtocolObligations : Type := mkObligations {
  frame_batch_id : option CompositorFrameBatchId;
  direct_surface_id : option Z;
  presentation_feedback_batch_id : option PresentationFeedbackBatchId
}.
Definition obligations_composited (batch : CompositorFrameBatchId) : OutputProtocolObligations :=
  mkObligations (Some batch) None None.
Definition obligations_direct (batch : CompositorFrameBatchId) (surface : Z)
  : OutputProtocolObligations := mkObligations (Some batch) (Some surface) None.
Definition obligations_plane_delta : OutputProtocolObligations := mkObligations None None None.

(** ** The transaction *)

Record OutputTransaction : Type := mkOutputTransaction {
  ot_id : OutputTransactionId;
  ot_output_id : Z;
  ot_output_generation : Z;
  ot_created_at : MonotonicTimestampNs;
  ot_reservation : FramePresentationReservation;
  ot_selected_pacing_mode : NativeOutputPacingMode;
  ot_pacing_mode : NativeOutputPacingMode;
  ot_presentation_mode : OutputPresentationMode;
  ot_content_type : DrmContentType;
  ot_presentation_validation_key : option CompositedPresentationValidationKey;
  ot_content : OutputTransactionContent;
  ot_planes : OutputPlanePlan;
  ot_synchronization : OutputSynchronizationPlan;
  ot_obligations : OutputProtocolObligations;
  ot_surface_damage : option Z;
  ot_client_cursor_presentation_key : option Z
}.

(** The checks of [build] on a content, in its order. *)
Definition check_content (content : OutputTransactionContent) (primary : PrimaryPlaneAssignment)
  (o : OutputProtocolObligations) : res OutputTransactionBuildError unit :=
  match content with
  | Composited _ _ _ _ =>
      match frame_batch_id o with
      | None => Fail MissingFrameBatch
      | Some _ =>
          match direct_surface_id o with
          | Some _ => Fail DirectSurfaceForCompositedContent
          | None =>
              match primary with
              | ClientFramebuffer _ _ => Fail DirectPrimaryForCompositedContent
              | _ => Ret tt
              end
          end
      end
  | Direct _ _ =>
      match frame_batch_id o with
      | None => Fail MissingFrameBatch
      | Some _ =>
          match direct_surface_id o with
          | None => Fail MissingDirectSurface
          | Some _ =>
              match primary with
              | CompositorFramebuffer _ _ => Fail CompositorPrimaryForDirectContent
              | _ => Ret tt
              end
          end
      end
  | CompatibilityImmediate _ =>
      match frame_batch_id o with
      | None => Fail MissingFrameBatch
      | Some _ =>
          match direct_surface_id o with
          | Some _ => Fail DirectSurfaceForCompositedContent
          | None =>
              match primary with
              | PrimaryDisabled => Ret tt
              | _ => Fail DirectPrimaryForCompositedContent
              end
          end
      end
  | PlaneDelta changed _ =>
      _ ← map_err (fun _ => ChangedPrimaryForPlaneDelta) (validate_cursor_delta changed);
      match frame_batch_id o with
      | Some _ => Fail FrameBatchForPlaneDelta
      | None =>
          match direct_surface_id o with
          | Some _ => Fail DirectSurfaceForPlaneDelta
          | None =>
              match primary with
              | PrimaryUnchanged => Ret tt
              | _ => Fail ChangedPrimaryForPlaneDelta
              end
          end
      end
  end.

Definition build (output_id : Z) (id : OutputTransactionId) (output_generation : Z)
  (created_at : MonotonicTimestampNs) (reservation : FramePresentationReservation)
  (pacing_mode : NativeOutputPacingMode) (content : OutputTransactionContent)
  (planes : OutputPlanePlan) (synchronization : OutputSynchronizationPlan)
  (obligations : OutputProtocolObligations) : res OutputTransactionBuildError OutputTransaction :=
  if output_generation =? 0 then Fail ZeroOutputGeneration
  else
    _ ← check_content content (pl_primary planes) obligations;
    Ret (mkOutputTransaction id output_id output_generation created_at reservation pacing_mode
           pacing_mode ModeVsync DrmGraphics None content planes synchronization obligations
           None None).

Definition cursor_or_unchanged (c : option CursorPlaneAssignment) : CursorPlaneAssignment :=
  default CursorUnchanged c.
Definition composited_sync : OutputSynchronizationPlan := mkSyncPlan RenderFence OutFenceThenPageflip.

(** Updates before submission. *)
Definition set_reservation (r : FramePresentationReservation) (t : OutputTransaction)
  : OutputTransaction :=
  mkOutputTransaction (ot_id t) (ot_output_id t) (ot_output_generation t) (ot_created_at t) r
    (ot_selected_pacing_mode t) (ot_pacing_mode t) (ot_presentation_mode t) (ot_content_type t)
    (ot_presentation_validation_key t) (ot_content t) (ot_planes t) (ot_synchronization t)
    (ot_obligations t) (ot_surface_damage t) (ot_client_cursor_presentation_key t).
Definition set_presentation (pacing : NativeOutputPacingMode) (mode : OutputPresentationMode)
  (content_type : DrmContentType) (key : option CompositedPresentationValidationKey)
  (t : OutputTransaction) : OutputTransaction :=
  mkOutputTransaction (ot_id t) (ot_output_id t) (ot_output_generation t) (ot_created_at t)
    (ot_reservation t) (ot_selected_pacing_mode t) pacing mode content_type key (ot_content t)
    (ot_planes t) (ot_synchronization t) (ot_obligations t) (ot_surface_damage t)
    (ot_client_cursor_presentation_key t).
Definition set_feedback (batch : option PresentationFeedbackBatchId) (t : OutputTransaction)
  : OutputTransaction :=
  mkOutputTransaction (ot_id t) (ot_output_id t) (ot_output_generation t) (ot_created_at t)
    (ot_reservation t) (ot_selected_pacing_mode t) (ot_pacing_mode t) (ot_presentation_mode t)
    (ot_content_type t) (ot_presentation_validation_key t) (ot_content t) (ot_planes t)
    (ot_synchronization t)
    (mkObligations (frame_batch_id (ot_obligations t)) (direct_surface_id (ot_obligations t)) batch)
    (ot_surface_damage t) (ot_client_cursor_presentation_key t).

Definition is_deferred_o1 (r : FramePresentationReservation) : bool :=
  match r with DeferredO1 _ => true | _ => false end.
Definition is_variable (r : FramePresentationReservation) : bool :=
  match r with Variable_ _ => true | _ => false end.

Definition with_presentation_state (mode : OutputPresentationMode) (content_type : DrmContentType)
  (t : OutputTransaction) : res OutputTransactionBuildError OutputTransaction :=
  if is_variable (ot_reservation t) && negb (bool_decide (mode = AdaptiveSync))
  then Fail VariableRequiresAdaptiveSync
  else if uses_vrr mode && is_deferred_o1 (ot_reservation t) then Fail BuildVrrCannotUseDeferredO1
  else
    Ret (set_presentation
           (if mode_is_async mode || uses_vrr mode then PacingReactiveDouble
            else ot_selected_pacing_mode t)
           mode content_type (ot_presentation_validation_key t) t).
Definition with_presentation_validation_key (key : option CompositedPresentationValidationKey)
  (t : OutputTransaction) : OutputTransaction :=
  set_presentation (ot_pacing_mode t) (ot_presentation_mode t) (ot_content_type t) key t.
Definition with_presentation_feedback_batch (batch : PresentationFeedbackBatchId)
  (t : OutputTransaction) : res OutputTransactionBuildError OutputTransaction :=
  match ot_content t with
  | CompatibilityImmediate _ => Fail BuildFeedbackForCompatibilityImmediate
  | _ => Ret (set_feedback (Some batch) t)
  end.
Definition without_presentation_feedback_batch (t : OutputTransaction) : OutputTransaction :=
  set_feedback None t.
Definition with_client_cursor_presentation_key (key : option Z) (t : OutputTransaction)
  : OutputTransaction :=
  mkOutputTransaction (ot_id t) (ot_output_id t) (ot_output_generation t) (ot_created_at t)
    (ot_reservation t) (ot_selected_pacing_mode t) (ot_pacing_mode t) (ot_presentation_mode t)
    (ot_content_type t) (ot_presentation_validation_key t) (ot_content t) (ot_planes t)
    (ot_synchronization t) (ot_obligations t) (ot_surface_damage t) key.
Definition with_surface_damage (damage : Z) (t : OutputTransaction) : OutputTransaction :=
  mkOutputTransaction (ot_id t) (ot_output_id t) (ot_output_generation t) (ot_created_at t)
    (ot_reservation t) (ot_selected_pacing_mode t) (ot_pacing_mode t) (ot_presentation_mode t)
    (ot_content_type t) (ot_presentation_validation_key t) (ot_content t) (ot_planes t)
    (ot_synchronization t) (ot_obligations t) (Some damage) (ot_client_cursor_presentation_key t).

#[export] Instance PresentationTiming_eq_dec : EqDecision PresentationTiming.
Proof. solve_decision. Defined.
#[export] Instance PresentationOpportunity_eq_dec : EqDecision PresentationOpportunity.
Proof. solve_decision. Defined.
#[export] Instance VariablePresentationReservation_eq_dec
  : EqDecision VariablePresentationReservation.
Proof. solve_decision. Defined.
#[export] Instance O1PredecessorAnchor_eq_dec : EqDecision O1PredecessorAnchor.
Proof. solve_decision. Defined.
#[export] Instance O1PrepareIntent_eq_dec : EqDecision O1PrepareIntent.
Proof. solve_decision. Defined.
#[export] Instance FramePresentationReservation_eq_dec : EqDecision FramePresentationReservation.
Proof. solve_decision. Defined.

Definition replace_bound_target (expected replacement : PresentationTarget) (t : OutputTransaction)
  : OutputTransaction * bool :=
  if decide (ot_reservation t = Fixed expected) then (set_reservation (Fixed replacement) t, true)
  else (t, false).
Inductive FramePresentationBindingError : Type :=
  NotDeferred | BindGenerationMismatch | ClockGenerationMismatch | PredecessorMismatch.
Definition transaction_bind_deferred_o1 (claim : PrimaryRefreshClaim)
  (bind_at : MonotonicTimestampNs) (t : OutputTransaction)
  : res FramePresentationBindingError OutputTransaction :=
  match ot_reservation t with
  | DeferredO1 intent =>
      if negb (o1_output_generation intent =? ot_output_generation t)
      then Fail BindGenerationMismatch
      else if negb (cl_clock_generation claim =? o1_clock_generation intent)
      then Fail ClockGenerationMismatch
      else Ret (set_reservation (Fixed (bind_target intent claim bind_at)) t)
  | _ => Fail NotDeferred
  end.

(** ** Constructors *)

Definition composited_with_direct_equivalence (output_id id output_generation : Z)
  (created_at : MonotonicTimestampNs) (target : PresentationTarget)
  (pacing_mode : NativeOutputPacingMode)
  (frame_id render_generation pool_generation slot framebuffer_id : Z)
  (cursor : option CursorPlaneAssignment) (batch : CompositorFrameBatchId)
  (equivalent_direct_key : option DirectScanoutCandidateKey)
  : res OutputTransactionBuildError OutputTransaction :=
  planes ← plane_plan_new (CompositorFramebuffer slot framebuffer_id) (cursor_or_unchanged cursor) [];
  build output_id id output_generation created_at (Fixed target) pacing_mode
    (Composited frame_id render_generation pool_generation equivalent_direct_key) planes
    composited_sync (obligations_composited batch).
Definition composited (output_id id output_generation : Z) (created_at : MonotonicTimestampNs)
  (target : PresentationTarget) (pacing_mode : NativeOutputPacingMode)
  (frame_id render_generation pool_generation slot framebuffer_id : Z)
  (cursor : option CursorPlaneAssignment) (batch : CompositorFrameBatchId)
  : res OutputTransactionBuildError OutputTransaction :=
  composited_with_direct_equivalence output_id id output_generation created_at target pacing_mode
    frame_id render_generation pool_generation slot framebuffer_id cursor batch None.
Definition composited_variable_with_direct_equivalence (output_id id output_generation : Z)
  (created_at : MonotonicTimestampNs) (reservation : VariablePresentationReservation)
  (content_type : DrmContentType) (pacing_mode : NativeOutputPacingMode)
  (frame_id render_generation pool_generation slot framebuffer_id : Z)
  (cursor : option CursorPlaneAssignment) (batch : CompositorFrameBatchId)
  (equivalent_direct_key : option DirectScanoutCandidateKey)
  : res OutputTransactionBuildError OutputTransaction :=
  planes ← plane_plan_new (CompositorFramebuffer slot framebuffer_id) (cursor_or_unchanged cursor) [];
  transaction ←
    build output_id id output_generation created_at (Variable_ reservation) pacing_mode
      (Composited frame_id render_generation pool_generation equivalent_direct_key) planes
      composited_sync (obligations_composited batch);
  with_presentation_state AdaptiveSync content_type transaction.
Definition direct (output_id id output_generation : Z) (created_at : MonotonicTimestampNs)
  (target : PresentationTarget) (pacing_mode : NativeOutputPacingMode) (frame_id : Z)
  (key : DirectScanoutCandidateKey) (framebuffer_id : Z) (cursor : option CursorPlaneAssignment)
  (batch : CompositorFrameBatchId) (direct_surface : Z) (release : OutputReleasePlan)
  : res OutputTransactionBuildError OutputTransaction :=
  planes ← plane_plan_new (ClientFramebuffer key framebuffer_id) (cursor_or_unchanged cursor) [];
  build output_id id output_generation created_at (Fixed target) pacing_mode (Direct frame_id key)
    planes (mkSyncPlan ClientContentAlreadyReady release) (obligations_direct batch direct_surface).
Definition composited_deferred_o1 (output_id id output_generation : Z)
  (created_at : MonotonicTimestampNs) (intent : O1PrepareIntent)
  (pacing_mode : NativeOutputPacingMode)
  (frame_id render_generation pool_generation slot framebuffer_id : Z)
  (cursor : option CursorPlaneAssignment) (batch : CompositorFrameBatchId)
  : res OutputTransactionBuildError OutputTransaction :=
  planes ← plane_plan_new (CompositorFramebuffer slot framebuffer_id) (cursor_or_unchanged cursor) [];
  build output_id id output_generation created_at (DeferredO1 intent) pacing_mode
    (Composited frame_id render_generation pool_generation None) planes composited_sync
    (obligations_composited batch).
Definition compatibility_composited (output_id id output_generation : Z)
  (created_at : MonotonicTimestampNs) (target : PresentationTarget)
  (pacing_mode : NativeOutputPacingMode) (frame_id render_generation framebuffer_id : Z)
  (cursor : option CursorPlaneAssignment) (batch : CompositorFrameBatchId)
  : res OutputTransactionBuildError OutputTransaction :=
  planes ← plane_plan_new (CompatibilityFramebuffer framebuffer_id) (cursor_or_unchanged cursor) [];
  build output_id id output_generation created_at (Fixed target) pacing_mode
    (Composited frame_id render_generation output_generation None) planes
    (mkSyncPlan AcquireNone ReleasePageflip) (obligations_composited batch).
Definition compatibility_immediate (output_id id output_generation : Z)
  (created_at : MonotonicTimestampNs) (target : PresentationTarget)
  (pacing_mode : NativeOutputPacingMode) (frame_id : Z) (batch : CompositorFrameBatchId)
  : res OutputTransactionBuildError OutputTransaction :=
  planes ← plane_plan_new PrimaryDisabled CursorUnchanged [];
  build output_id id output_generation created_at (Fixed target) pacing_mode
    (CompatibilityImmediate frame_id) planes (mkSyncPlan AcquireNone ReleaseNone)
    (obligations_composited batch).
Definition plane_delta (output_id id output_generation : Z) (created_at : MonotonicTimestampNs)
  (target : PresentationTarget) (pacing_mode : NativeOutputPacingMode)
  (changed cursor_sidecar_id cursor_epoch : Z) (state : option AtomicCursorVisualState)
  (release : OutputReleasePlan) : res OutputTransactionBuildError OutputTransaction :=
  planes ← plane_plan_new PrimaryUnchanged (CursorAtomic cursor_epoch state) [];
  build output_id id output_generation created_at (Fixed target) pacing_mode
    (PlaneDelta changed cursor_sidecar_id) planes (mkSyncPlan AcquireNone release)
    obligations_plane_delta.
Definition cursor_plane_delta (output_id id output_generation : Z)
  (created_at : MonotonicTimestampNs) (target : PresentationTarget)
  (pacing_mode : NativeOutputPacingMode) (cursor_epoch : Z)
  (state : option AtomicCursorVisualState) (release : OutputReleasePlan)
  : res OutputTransactionBuildError OutputTransaction :=
  if cursor_epoch =? 0 then Panic
  else plane_delta output_id id output_generation created_at target pacing_mode CURSOR cursor_epoch
         cursor_epoch state release.

(** ** Queries *)

Definition direct_candidate_key (t : OutputTransaction) : option DirectScanoutCandidateKey :=
  match ot_content t with Direct _ key => Some key | _ => None end.
Definition equivalent_direct_key (t : OutputTransaction) : option DirectScanoutCandidateKey :=
  match ot_content t with Composited _ _ _ key => key | _ => None end.
Definition composited_frame_identity (t : OutputTransaction) : option (Z * Z * Z) :=
  match ot_content t with Composited f r p _ => Some (f, r, p) | _ => None end.

Record OutputPresentationStateKey : Type := mkStateKey {
  sk_mode : OutputPresentationMode;
  sk_content_type : DrmContentType;
  sk_output_generation : Z
}.
#[export] Instance OutputPresentationStateKey_eq_dec : EqDecision OutputPresentationStateKey.
Proof. solve_decision. Defined.
Definition presentation_state_key (t : OutputTransaction) : OutputPresentationStateKey :=
  mkStateKey (ot_presentation_mode t) (ot_content_type t) (ot_output_generation t).
Definition kms_presentation_state_is_represented (desired confirmed : OutputPresentationStateKey)
  (pending : option OutputPresentationStateKey) : bool :=
  match pending with
  | Some pending => bool_decide (pending = desired)
  | None => bool_decide (confirmed = desired)
  end.
Inductive DirectPresentationStateDisposition : Type :=
  AlreadyRepresented | TransitionRequired | DeferUntilPageflip.
Definition classify_direct_presentation_state (desired confirmed : OutputPresentationStateKey)
  (submitted : option OutputPresentationStateKey) : DirectPresentationStateDisposition :=
  match submitted with
  | Some submitted => if decide (submitted = desired) then AlreadyRepresented else DeferUntilPageflip
  | None => if decide (desired = confirmed) then AlreadyRepresented else TransitionRequired
  end.
Inductive DirectContentDisposition : Type :=
  NewContent | MatchesPresented | MatchesQueuedOrSubmitted.
Definition classify_direct_content (candidate : DirectScanoutCandidateKey)
  (presented pending : option DirectScanoutCandidateKey) : DirectContentDisposition :=
  if decide (presented = Some candidate) then MatchesPresented
  else if decide (pending = Some candidate) then MatchesQueuedOrSubmitted
  else NewContent.

(** ** Identities are fresh *)

(** The allocator of transactions keeps the promise of [IdAllocator]. *)
#[export, refine] Instance OutputTransaction_allocator
  : IdAllocator OutputTransactionAllocator OutputTransactionAllocationError := {|
  ia_default := allocator_default;
  ia_allocate := allocate;
  ia_inv := fun a => nonzero_u64 (al_next a) /\ (al_exhausted a = true -> al_next a = u64_max);
  ia_floor := fun a => if al_exhausted a then u64_max + 1 else al_next a
|}.
Proof.
  - cbn. unfold nonzero_u64. int_lia.
  - intros [n ex] a' r [Hn Hx] Hs. unfold allocate in Hs. cbn in *. unfold nonzero_u64 in *.
    destruct ex; [injection Hs as <- <-; cbn; naive_solver|].
    destruct (Z.eqb_spec n u64_max); injection Hs as <- <-; cbn; naive_solver lia.
Defined.

(** Each observation of a surface's content gets an epoch no other one has. *)
Lemma observe_content_fresh surface buffer seq t t' o :
  (forall s o, current_by_surface t !! s = Some o -> co_epoch o < tracker_next t) ->
  observe_content surface buffer seq t = Ret (t', o) ->
  co_epoch o = tracker_next t /\ record_metadata_commit surface t' = Some (co_epoch o) /\
  (forall s o, current_by_surface t' !! s = Some o -> co_epoch o < tracker_next t') /\
  (forall s, s <> surface -> record_metadata_commit s t' = record_metadata_commit s t).
Proof.
  intros Ht E. unfold observe_content in E. apply bind_Ret in E as (next & En & [= <- <-]).
  apply expect_Ret, checked_Some in En as [-> _]. unfold record_metadata_commit. cbn.
  rewrite lookup_insert_eq. split_and!; [done|done| |].
  - intros s o [[-> <-]|[? H]]%lookup_insert_Some; [cbn; lia|]. specialize (Ht _ _ H). lia.
  - intros s Hs. by rewrite lookup_insert_ne.
Qed.

(** ** Well-formed transactions *)

(** What a kind of content asks of the primary plane and of the obligations. *)
Definition content_ok (content : OutputTransactionContent) (primary : PrimaryPlaneAssignment)
  (o : OutputProtocolObligations) : Prop :=
  match content with
  | Composited _ _ _ _ =>
      is_Some (frame_batch_id o) /\ direct_surface_id o = None /\ forall key fb, primary <> ClientFramebuffer key fb
  | Direct _ _ =>
      is_Some (frame_batch_id o) /\ is_Some (direct_surface_id o) /\ forall slot fb, primary <> CompositorFramebuffer slot fb
  | CompatibilityImmediate _ =>
      is_Some (frame_batch_id o) /\ direct_surface_id o = None /\ primary = PrimaryDisabled
  | PlaneDelta changed _ =>
      Z.testbit changed 1 = true /\ Z.testbit changed 0 = false /\
      frame_batch_id o = None /\ direct_surface_id o = None /\ primary = PrimaryUnchanged
  end.
(** The second bit of a write set is the cursor, the first the primary plane. *)
Lemma contains_bit s k : 0 <= k -> write_set_contains s (2 ^ k) = Z.testbit s k.
Proof.
  intros Hk. unfold write_set_contains. destruct (Z.testbit s k) eqn:E.
  - apply Z.eqb_eq, Z.bits_inj'. intros n Hn. rewrite Z.land_spec, Z.pow2_bits_eqb by lia.
    destruct (Z.eqb_spec k n) as [<-|]; [by rewrite E|apply andb_false_r].
  - apply Z.eqb_neq. intros E2. apply (f_equal (fun x => Z.testbit x k)) in E2.
    by rewrite Z.land_spec, E, Z.pow2_bits_true in E2 by lia.
Qed.
Lemma validate_cursor_delta_ok s : validate_cursor_delta s = Ret tt <-> Z.testbit s 1 = true /\ Z.testbit s 0 = false.
Proof.
  unfold validate_cursor_delta. change CURSOR with (2 ^ 1). change PRIMARY with (2 ^ 0). rewrite !contains_bit by lia.
  destruct (Z.testbit s 1), (Z.testbit s 0); cbn; naive_solver.
Qed.
Lemma check_content_ok content primary o : check_content content primary o = Ret tt <-> content_ok content primary o.
Proof.
  unfold check_content, content_ok. destruct content as [| | |changed sidecar];
    [destruct (frame_batch_id o), (direct_surface_id o), primary; naive_solver..|].
  pose proof (validate_cursor_delta_ok changed) as Hd.
  destruct (validate_cursor_delta changed) as [[]|e| |]; cbn;
    destruct (frame_batch_id o), (direct_surface_id o), primary; naive_solver.
Qed.

Record transaction_wf (t : OutputTransaction) : Prop := {
  wf_generation : ot_output_generation t <> 0;
  wf_content : content_ok (ot_content t) (pl_primary (ot_planes t)) (ot_obligations t);
  wf_overlays : pl_overlays (ot_planes t) = [];
  wf_variable : is_variable (ot_reservation t) = true -> ot_presentation_mode t = AdaptiveSync;
  wf_deferred : is_deferred_o1 (ot_reservation t) = true -> uses_vrr (ot_presentation_mode t) = false;
  wf_pacing : ot_pacing_mode t =
    if mode_is_async (ot_presentation_mode t) || uses_vrr (ot_presentation_mode t)
    then PacingReactiveDouble else ot_selected_pacing_mode t;
  wf_feedback : is_Some (presentation_feedback_batch_id (ot_obligations t)) ->
    forall f, ot_content t <> CompatibilityImmediate f
}.

(** What the code can make of a transaction before it is submitted. *)
Inductive constructed : OutputTransaction -> Prop :=
| made_composited o i g c tg pm f r p s fb cu b k t :
    composited_with_direct_equivalence o i g c tg pm f r p s fb cu b k = Ret t -> constructed t
| made_variable o i g c res ct pm f r p s fb cu b k t :
    composited_variable_with_direct_equivalence o i g c res ct pm f r p s fb cu b k = Ret t ->
    constructed t
| made_direct o i g c tg pm f k fb cu b sf rl t :
    direct o i g c tg pm f k fb cu b sf rl = Ret t -> constructed t
| made_deferred o i g c it pm f r p s fb cu b t :
    composited_deferred_o1 o i g c it pm f r p s fb cu b = Ret t -> constructed t
| made_compatibility o i g c tg pm f r fb cu b t :
    compatibility_composited o i g c tg pm f r fb cu b = Ret t -> constructed t
| made_immediate o i g c tg pm f b t :
    compatibility_immediate o i g c tg pm f b = Ret t -> constructed t
| made_delta o i g c tg pm ch sc e st rl t :
    plane_delta o i g c tg pm ch sc e st rl = Ret t -> constructed t
| made_state t mode ct t' :
    constructed t -> with_presentation_state mode ct t = Ret t' -> constructed t'
| made_key t key : constructed t -> constructed (with_presentation_validation_key key t)
| made_feedback t batch t' :
    constructed t -> with_presentation_feedback_batch batch t = Ret t' -> constructed t'
| made_without t : constructed t -> constructed (without_presentation_feedback_batch t)
| made_cursor t key : constructed t -> constructed (with_client_cursor_presentation_key key t)
| made_damage t d : constructed t -> constructed (with_surface_damage d t)
| made_bound t claim at_ t' :
    constructed t -> transaction_bind_deferred_o1 claim at_ t = Ret t' -> constructed t'
| made_replaced t expected replacement :
    constructed t -> constructed (fst (replace_bound_target expected replacement t)).

(** What a checked construction leaves. *)
Lemma build_wf o i g c r pm content planes sy ob t :
  build o i g c r pm content planes sy ob = Ret t -> pl_overlays planes = [] ->
  presentation_feedback_batch_id ob = None -> is_variable r = false -> transaction_wf t.
Proof.
  unfold build. destruct (Z.eqb_spec g 0) as [|Hg]; [done|]. intros E Ho Hf Hv.
  apply bind_Ret in E as ([] & Ec & [= <-]). split; cbn; try done.
  - by apply check_content_ok.
  - by rewrite Hv.
  - rewrite Hf. by intros [? ?].
Qed.

Lemma with_presentation_state_wf mode ct t t' :
  (is_variable (ot_reservation t) = false -> transaction_wf t) ->
  (is_variable (ot_reservation t) = true ->
     transaction_wf (set_presentation PacingReactiveDouble AdaptiveSync ct None t)) ->
  with_presentation_state mode ct t = Ret t' -> transaction_wf t'.
Proof.
  intros H1 H2 E. unfold with_presentation_state in E.
  assert (Hw : ot_output_generation t <> 0 /\
    content_ok (ot_content t) (pl_primary (ot_planes t)) (ot_obligations t) /\
    pl_overlays (ot_planes t) = [] /\
    (is_Some (presentation_feedback_batch_id (ot_obligations t)) ->
     forall f, ot_content t <> CompatibilityImmediate f)).
  { destruct (is_variable (ot_reservation t)); [specialize (H2 eq_refl)|specialize (H1 eq_refl)];
      [destruct H2|destruct H1]; done. }
  destruct Hw as (Hg & Hc & Ho & Hf).
  destruct (is_variable (ot_reservation t)) eqn:Ev; cbn [andb] in E.
  - case_bool_decide as Em; cbn in E; [|done]. subst mode. cbn in E.
    destruct (is_deferred_o1 (ot_reservation t)) eqn:Ed; [done|]. injection E as <-.
    split; cbn; try done. by rewrite Ed.
  - destruct (uses_vrr mode && is_deferred_o1 (ot_reservation t)) eqn:Ed; [done|]. injection E as <-.
    split; cbn; try done; [by rewrite Ev|].
    intros Hd. rewrite Hd, andb_true_r in Ed. done.
Qed.

Lemma set_reservation_wf r t :
  transaction_wf t -> is_variable r = false -> is_deferred_o1 r = false ->
  transaction_wf (set_reservation r t).
Proof. intros [] Hv Hd. split; cbn; try done; [by rewrite Hv|by rewrite Hd]. Qed.

(** C30: every transaction the code can construct is well formed, however it is
    updated before submission: its generation is set, the planes and the
    obligations are the ones its kind of content allows, a variable
    reservation is presented adaptively, a deferred one never with a variable
    refresh, the pacing follows the presentation mode, and an immediate
    presentation carries no feedback. *)
Theorem constructed_well_formed t : constructed t -> transaction_wf t.
Proof.
  induction 1 as [? ? ? ? ? ? ? ? ? ? ? ? ? ? t E|o i g c r ct pm f rg p s fb cu b k t E
    |? ? ? ? ? ? ? ? ? ? ? ? ? t E|? ? ? ? ? ? ? ? ? ? ? ? ? t E|? ? ? ? ? ? ? ? ? ? ? t E
    |? ? ? ? ? ? ? ? t E|? ? ? ? ? ? ? ? ? ? ? t E|t mode ct t' _ IH E|t key _ IH|t batch t' _ IH E
    |t _ IH|t key _ IH|t d _ IH|t claim a t' _ IH E|t e r _ IH].
  1,3-7: unfold composited_with_direct_equivalence, direct, composited_deferred_o1,
    compatibility_composited, compatibility_immediate, plane_delta in E; cbn in E; by apply build_wf in E.
  - unfold composited_variable_with_direct_equivalence in E. cbn [plane_plan_new mbind res_bind] in E.
    apply bind_Ret in E as (t0 & E0 & E). unfold build in E0.
    destruct (Z.eqb_spec g 0) as [|Hg]; [done|]. cbn in E0. injection E0 as <-.
    eapply with_presentation_state_wf, E; cbn; [done|]. intros _. split; first [done|by apply check_content_ok|by intros [? ?]].
  - eapply with_presentation_state_wf, E; [done|]. intros Hv. pose proof (wf_variable _ IH Hv) as Em.
    destruct IH. split; cbn; first [done|by intros Hd; destruct (ot_reservation t)].
  - destruct IH. split; done.
  - unfold with_presentation_feedback_batch in E. destruct IH as [A1 A2 A3 A4 A5 A6 A7].
    destruct (ot_content t) eqn:Ec; try done; injection E as <-; split; cbn; try done; by rewrite ?Ec.
  - destruct IH. split; done || by intros [? ?].
  - destruct IH. split; done.
  - destruct IH. split; done.
  - unfold transaction_bind_deferred_o1 in E. destruct (ot_reservation t); try done.
    destruct (negb _); [done|]. destruct (negb _); [done|]. injection E as <-.
    by apply set_reservation_wf.
  - unfold replace_bound_target. case_decide; [|done]. by apply set_reservation_wf.
Qed.
Definition demo_target : PresentationTarget :=
  mkTarget 2 200 150 100 16 Normal 1 false false (mkClaim 2 200 1) (mkEvidence 2 true).
Lemma constructed_well_formed_witness :
  exists t, composited 1 7 1 0 demo_target PacingPredictiveTriple 1 1 1 0 9 None 5 = Ret t /\
    transaction_wf t.
Proof.
  destruct (composited 1 7 1 0 demo_target PacingPredictiveTriple 1 1 1 0 9 None 5) as [t| | |] eqn:E;
    try (vm_compute in E; discriminate).
  exists t. split; [reflexivity|]. apply constructed_well_formed.
  eapply made_composited. exact E.
Defined.
