(* ===== verification/Ledger.v ===== *)
(** * Ledger: the life of the output transactions

    Models src/native_output/presentation/ledger.rs: the transactions an
    output has in flight, the state machine each of them goes through, who
    owns the frame batch and the feedback batch a transaction carries, and
    the bounded history of those that ended. A transition that the code
    refuses is an error that may still count it; [expect] on a transaction
    that should be there is a panic; a [debug_assert] is not part of the
    model. The [u64] counters of the ledger are indexed by their name. *)

From stdpp Require Import base list option gmap sorting.
From Stdlib Require Import ZArith Lia.
From S2P Require Import Prelude CoreIds Buffering Deadline Scheduler Pipeline.
From S2P Require Import PresentationModes OutputTransaction.

(** ** States *)

Inductive OutputTransactionDropReason : Type :=
  DropNoVisualChange | DropOutputDestroyed | DropSessionSuspended | DropSafeAbandonment.
Inductive OutputTransactionSupersedeReason : Type :=
  NewerTransaction | SameContentSuppressed | DirectTransition.
Inductive OutputTransactionFailureStage : Type :=
  RenderPreparation | RenderExecution | FenceExport | KmsSubmit | BackendOwnershipTransfer
| PageflipValidation | OutputLost | SessionLost | ShutdownAbandonment | BackendCompletion
| ProtocolSettlement.
#[export] Instance OutputTransactionDropReason_eq_dec : EqDecision OutputTransactionDropReason.
Proof. solve_decision. Defined.
#[export] Instance OutputTransactionSupersedeReason_eq_dec : EqDecision OutputTransactionSupersedeReason.
Proof. solve_decision. Defined.
#[export] Instance OutputTransactionFailureStage_eq_dec : EqDecision OutputTransactionFailureStage.
Proof. solve_decision. Defined.
Inductive OutputTransactionTerminal : Type :=
| Presented (presented_at : MonotonicTimestampNs) (actual_sequence : option Z)
| Dropped (reason : OutputTransactionDropReason) (at_ns : MonotonicTimestampNs)
| Superseded (by_id : option OutputTransactionId) (reason : OutputTransactionSupersedeReason)
    (at_ns : MonotonicTimestampNs)
| Failed (stage : OutputTransactionFailureStage) (at_ns : MonotonicTimestampNs).
#[export] Instance OutputTransactionTerminal_eq_dec : EqDecision OutputTransactionTerminal.
Proof. solve_decision. Defined.

Inductive OutputTransactionQueuedPredecessor : Type :=
| QueuedFromBuilt
| QueuedFromReady (ready_at : MonotonicTimestampNs).
#[export] Instance OutputTransactionQueuedPredecessor_eq_dec : EqDecision OutputTransactionQueuedPredecessor.
Proof. solve_decision. Defined.
Inductive OutputTransactionState : Type :=
| Built
| Ready (ready_at : MonotonicTimestampNs)
| ReadyUnbound (ready_at : MonotonicTimestampNs)
| Queued (queued_at : MonotonicTimestampNs) (worker_generation : Z)
    (predecessor : OutputTransactionQueuedPredecessor)
| Submitted (token : Z) (submitted_at : MonotonicTimestampNs)
| Settling (terminal : OutputTransactionTerminal)
| Terminal (terminal : OutputTransactionTerminal).
#[export] Instance OutputTransactionState_eq_dec : EqDecision OutputTransactionState.
Proof. solve_decision. Defined.

Inductive OutputTransactionStateKind : Type :=
  KindBuilt | KindReady | KindReadyUnbound | KindQueued | KindSubmitted | KindSettling | KindTerminal.
Definition kind (s : OutputTransactionState) : OutputTransactionStateKind :=
  match s with
  | Built => KindBuilt
  | Ready _ => KindReady
  | ReadyUnbound _ => KindReadyUnbound
  | Queued _ _ _ => KindQueued
  | Submitted _ _ => KindSubmitted
  | Settling _ => KindSettling
  | Terminal _ => KindTerminal
  end.
Inductive OutputTransactionTransitionKind : Type :=
  ToReady | ToQueued | ToSubmitted | ToPresented | ToDropped | ToSuperseded | ToFailed.
#[export] Instance OutputTransactionTransitionKind_eq_dec : EqDecision OutputTransactionTransitionKind.
Proof. solve_decision. Defined.

Inductive OutputTransactionError : Type :=
| OutputMismatch
| ActiveCapacityExceeded
| DuplicateId
| UnknownTransaction
| DuplicateObligationOwner
| FeedbackBatchForCompatibilityImmediate
| PresentationFeedbackKeyMismatch
| InvalidTransition (from : OutputTransactionStateKind) (requested : OutputTransactionTransitionKind)
| TokenMismatch
| GenerationMismatch
| DeferredBindingRejected
| FailureStageMismatch (state : OutputTransactionStateKind) (stage : OutputTransactionFailureStage)
| PresentationTargetMismatch
| PresentationStateAlreadyOwned
| VrrCannotUseDeferredO1.
Inductive OutputTransactionOwnershipError : Type :=
| MissingObligationOwner (batch_id : Z)
| WrongObligationOwner (batch_id expected actual : Z)
| OrphanedObligationOwner (batch_id transaction_id : Z)
| MissingPresentationFeedbackOwner (batch_id : Z)
| WrongPresentationFeedbackOwner (batch_id expected actual : Z)
| OrphanedPresentationFeedbackOwner (batch_id transaction_id : Z)
| SettlingCountMismatch (records counter : Z).

Inductive OutputNoPageflipReason : Type :=
  NpSafeAbandonment | NpSuperseded | NpSubmissionRejected | NpOutputDestroyed | NpSessionSuspended.
Inductive OutputPhysicalTerminal : Type :=
| PhysicalPresented
| NoPageflip (reason : OutputNoPageflipReason).
Record SettledOutputTerminal : Type := mkSettled {
  st_transaction_id : OutputTransactionId;
  st_physical_terminal : OutputPhysicalTerminal
}.

Record OutputTransactionRecord : Type := mkRecord {
  descriptor : OutputTransaction;
  state : OutputTransactionState
}.
Record AcceptedTerminalTransition : Type := mkAccepted {
  ac_transaction_id : OutputTransactionId;
  ac_obligations : OutputProtocolObligations;
  ac_prior_state : OutputTransactionState;
  ac_terminal : OutputTransactionTerminal
}.
Record PreparedDeferredO1TransactionBinding : Type := mkPreparedBinding {
  pb_transaction_id : OutputTransactionId;
  pb_expected_descriptor : OutputTransaction;
  pb_bound_descriptor : OutputTransaction;
  pb_expected_ready_at : MonotonicTimestampNs;
  pb_bound_ready_at : MonotonicTimestampNs
}.
Record PreparedReadyTargetTransactionReplacement : Type := mkPreparedReplacement {
  pr_transaction_id : OutputTransactionId;
  pr_expected_descriptor : OutputTransaction;
  pr_replacement_descriptor : OutputTransaction;
  pr_expected_ready_at : MonotonicTimestampNs
}.

Definition failure_stage_is_compatible (k : OutputTransactionStateKind)
  (stage : OutputTransactionFailureStage) : bool :=
  match k with
  | KindBuilt =>
      match stage with RenderPreparation | RenderExecution | FenceExport | KmsSubmit => true | _ => false end
  | KindReady => match stage with KmsSubmit | BackendOwnershipTransfer => true | _ => false end
  | KindReadyUnbound =>
      match stage with OutputLost | SessionLost | ShutdownAbandonment => true | _ => false end
  | KindQueued =>
      match stage with
      | KmsSubmit | BackendOwnershipTransfer | OutputLost | SessionLost | ShutdownAbandonment => true
      | _ => false
      end
  | KindSubmitted =>
      match stage with
      | PageflipValidation | OutputLost | SessionLost | ShutdownAbandonment | BackendCompletion => true
      | _ => false
      end
  | KindSettling | KindTerminal => false
  end.
Definition transition_for_terminal (t : OutputTransactionTerminal)
  : OutputTransactionTransitionKind :=
  match t with
  | Presented _ _ => ToPresented
  | Dropped _ _ => ToDropped
  | Superseded _ _ _ => ToSuperseded
  | Failed _ _ => ToFailed
  end.
Definition physical_terminal_for (prior : option OutputTransactionState)
  (t : OutputTransactionTerminal) : option OutputPhysicalTerminal :=
  match t with
  | Presented _ _ => Some PhysicalPresented
  | Dropped reason _ =>
      match reason with
      | DropOutputDestroyed => Some (NoPageflip NpOutputDestroyed)
      | DropSessionSuspended => Some (NoPageflip NpSessionSuspended)
      | DropSafeAbandonment => Some (NoPageflip NpSafeAbandonment)
      | DropNoVisualChange => None
      end
  | Superseded _ _ _ =>
      match prior with
      | Some (Submitted _ _) | None => None
      | Some _ => Some (NoPageflip NpSuperseded)
      end
  | Failed _ _ =>
      match prior with
      | Some (Built | Ready _ | ReadyUnbound _ | Queued _ _ _) => Some (NoPageflip NpSubmissionRejected)
      | _ => None
      end
  end.

(** ** The ledger *)

Inductive Counter : Type :=
  CBuilt | CReady | CSubmitted | CPresented | CDropped | CSuperseded | CFailed
| CInvalidTransitions | CDuplicateObligationAttempts | CDuplicateSettlementAttempts | CActivePeak
| CTerminalHistoryOverwrites | CTerminalAccepted | CTerminalFinalized | CTerminalRejected
| CSettlementFailures | CFailureStageMismatches | CActiveSettling | CImmediatePresentations
| CImmediateFailures | CImmediateAccepted | CImmediateFinalized | CCompatibilityNoops
| CCompatibilityFailures | CQueued | CQueuedComposited | CQueuedDirect | CQueuedPlaneDelta
| CQueuedCompatibility | CQueueWaitTotal | CQueueWaitMax | CBuiltComposited | CBuiltDirect
| CBuiltPlaneDelta | CSubmittedComposited | CSubmittedDirect | CSubmittedPlaneDelta
| CPresentedComposited | CPresentedDirect | CPresentedPlaneDelta.
#[export] Instance Counter_eq_dec : EqDecision Counter.
Proof. solve_decision. Defined.
Abbreviation OutputTransactionCounters := (Counter -> Z).

Definition DEFAULT_OUTPUT_TRANSACTION_ACTIVE_CAPACITY : nat := 8.
Definition DEFAULT_OUTPUT_TRANSACTION_HISTORY_CAPACITY : nat := 512.

Record OutputTransactionLedger : Type := mkLedger {
  lg_output_id : Z;
  lg_allocator : OutputTransactionAllocator;
  lg_active_capacity : nat;
  lg_history_capacity : nat;
  active : gmap OutputTransactionId OutputTransactionRecord;
  obligation_owner : gmap CompositorFrameBatchId OutputTransactionId;
  presentation_feedback_owner : gmap PresentationFeedbackBatchId OutputTransactionId;
  recent_terminal : list OutputTransactionRecord;
  settled_output_terminals : list SettledOutputTerminal;
  counters : OutputTransactionCounters;
  last_created : option OutputTransactionId
}.
Definition for_output (output_id : Z) (active_capacity history_capacity : nat)
  : OutputTransactionLedger :=
  mkLedger output_id allocator_default active_capacity (Nat.max history_capacity 1) ∅ ∅ ∅ [] []
    (fun _ => 0) None.

(** Field assignments. *)
Definition set_allocator (a : OutputTransactionAllocator) (last : option OutputTransactionId)
  (l : OutputTransactionLedger) : OutputTransactionLedger :=
  mkLedger (lg_output_id l) a (lg_active_capacity l) (lg_history_capacity l) (active l)
    (obligation_owner l) (presentation_feedback_owner l) (recent_terminal l)
    (settled_output_terminals l) (counters l) last.
Definition set_active (m : gmap OutputTransactionId OutputTransactionRecord)
  (l : OutputTransactionLedger) : OutputTransactionLedger :=
  mkLedger (lg_output_id l) (lg_allocator l) (lg_active_capacity l) (lg_history_capacity l) m
    (obligation_owner l) (presentation_feedback_owner l) (recent_terminal l)
    (settled_output_terminals l) (counters l) (last_created l).
Definition set_owners (frames feedbacks : gmap Z OutputTransactionId) (l : OutputTransactionLedger)
  : OutputTransactionLedger :=
  mkLedger (lg_output_id l) (lg_allocator l) (lg_active_capacity l) (lg_history_capacity l)
    (active l) frames feedbacks (recent_terminal l) (settled_output_terminals l) (counters l)
    (last_created l).
Definition set_history (recent : list OutputTransactionRecord) (settled : list SettledOutputTerminal)
  (l : OutputTransactionLedger) : OutputTransactionLedger :=
  mkLedger (lg_output_id l) (lg_allocator l) (lg_active_capacity l) (lg_history_capacity l)
    (active l) (obligation_owner l) (presentation_feedback_owner l) recent settled (counters l)
    (last_created l).
Definition set_counter (c : Counter) (f : Z -> Z) (l : OutputTransactionLedger)
  : OutputTransactionLedger :=
  mkLedger (lg_output_id l) (lg_allocator l) (lg_active_capacity l) (lg_history_capacity l)
    (active l) (obligation_owner l) (presentation_feedback_owner l) (recent_terminal l)
    (settled_output_terminals l)
    (fun c' => if decide (c' = c) then f (counters l c') else counters l c') (last_created l).
Definition bump (c : Counter) : OutputTransactionLedger -> OutputTransactionLedger :=
  set_counter c (fun n => sat_add u64_max n 1).
Definition unbump (c : Counter) : OutputTransactionLedger -> OutputTransactionLedger :=
  set_counter c (fun n => sat_sub n 1).
Definition bump_if (c : option Counter) (l : OutputTransactionLedger) : OutputTransactionLedger :=
  match c with Some c => bump c l | None => l end.
Definition unbump_if (c : option Counter) (l : OutputTransactionLedger) : OutputTransactionLedger :=
  match c with Some c => unbump c l | None => l end.
Definition insert_owner {A} (k : option Z) (v : A) (m : gmap Z A) : gmap Z A :=
  match k with Some k => <[k := v]> m | None => m end.
Definition is_owned {A} (k : option Z) (m : gmap Z A) : bool :=
  match k with Some k => bool_decide (is_Some (m !! k)) | None => false end.

(** The counter of a content, by path. *)
Definition built_path (c : OutputTransactionContent) : option Counter :=
  match c with
  | Composited _ _ _ _ => Some CBuiltComposited
  | Direct _ _ => Some CBuiltDirect
  | CompatibilityImmediate _ => None
  | PlaneDelta _ _ => Some CBuiltPlaneDelta
  end.
Definition queued_path (c : OutputTransactionContent) : Counter :=
  match c with
  | Composited _ _ _ _ => CQueuedComposited
  | Direct _ _ => CQueuedDirect
  | PlaneDelta _ _ => CQueuedPlaneDelta
  | CompatibilityImmediate _ => CQueuedCompatibility
  end.
Definition submitted_path (c : OutputTransactionContent) : option Counter :=
  match c with
  | Composited _ _ _ _ => Some CSubmittedComposited
  | Direct _ _ => Some CSubmittedDirect
  | PlaneDelta _ _ => Some CSubmittedPlaneDelta
  | CompatibilityImmediate _ => None
  end.

(** ** Outcomes *)

Abbreviation L := (SM OutputTransactionLedger OutputTransactionError).

Definition fail {A} (e : OutputTransactionError) : L A := sm_lift (Fail e).
Definition invalid_transition {A} (s : OutputTransactionState)
  (requested : OutputTransactionTransitionKind) : L A :=
  _ ← sm_modify (bump CInvalidTransitions);
  fail (InvalidTransition (kind s) requested).
Definition reject_terminal {A} (e : OutputTransactionError) : L A :=
  _ ← sm_modify (bump CTerminalRejected);
  fail e.
Definition reject_invalid_transition {A} (s : OutputTransactionState)
  (requested : OutputTransactionTransitionKind) : L A :=
  _ ← sm_modify (bump CInvalidTransitions);
  reject_terminal (InvalidTransition (kind s) requested).

Definition get_state (id : OutputTransactionId) : L OutputTransactionState :=
  l ← sm_get;
  sm_lift (ok_or UnknownTransaction (state <$> active l !! id)).
(** [get(&id).expect(..)]. *)
Definition expect_record (id : OutputTransactionId) : L OutputTransactionRecord :=
  l ← sm_get;
  sm_lift (expect (active l !! id)).
(** [get_mut(&id).expect(..)] and an assignment through it. *)
Definition update_record (id : OutputTransactionId)
  (f : OutputTransactionRecord -> OutputTransactionRecord) : L unit :=
  r ← expect_record id;
  sm_modify (fun l => set_active (<[id := f r]> (active l)) l).
Definition set_state (id : OutputTransactionId) (s : OutputTransactionState) : L unit :=
  update_record id (fun r => mkRecord (descriptor r) s).
Definition set_descriptor (id : OutputTransactionId) (d : OutputTransaction) : L unit :=
  update_record id (fun r => mkRecord d (state r)).
(** [transition], which reports a missing transaction. *)
Definition transition (id : OutputTransactionId) (s : OutputTransactionState) : L unit :=
  l ← sm_get;
  match active l !! id with
  | None => fail UnknownTransaction
  | Some r => sm_modify (fun l => set_active (<[id := mkRecord (descriptor r) s]> (active l)) l)
  end.
Definition note_path_counter (id : OutputTransactionId)
  (update : OutputTransactionContent -> OutputTransactionLedger -> OutputTransactionLedger) : L unit :=
  l ← sm_get;
  match active l !! id with
  | None => mret tt
  | Some r => sm_modify (update (ot_content (descriptor r)))
  end.

(** ** Insertion *)

Definition allocate_id (l : OutputTransactionLedger)
  : OutputTransactionLedger * res OutputTransactionAllocationError OutputTransactionId :=
  let '(a, r) := allocate (lg_allocator l) in
  (set_allocator a (match r with Ret id => Some id | _ => last_created l end) l, r).

Definition recent_has (id : OutputTransactionId) (l : OutputTransactionLedger) : bool :=
  existsb (fun r => ot_id (descriptor r) =? id) (recent_terminal l).
Definition insert (d : OutputTransaction) : L unit :=
  l ← sm_get;
  let id := ot_id d in
  let frame := frame_batch_id (ot_obligations d) in
  let feedback := presentation_feedback_batch_id (ot_obligations d) in
  if negb (ot_output_id d =? lg_output_id l) then fail OutputMismatch
  else if bool_decide (is_Some (active l !! id)) || recent_has id l then fail DuplicateId
  else if (lg_active_capacity l <=? size (active l))%nat then fail ActiveCapacityExceeded
  else if is_owned frame (obligation_owner l)
  then _ ← sm_modify (bump CDuplicateObligationAttempts); fail DuplicateObligationOwner
  else
    _ ← sm_modify (fun l => set_owners (insert_owner frame id (obligation_owner l))
                              (presentation_feedback_owner l) l);
    if is_owned feedback (presentation_feedback_owner l)
    then _ ← sm_modify (bump CDuplicateObligationAttempts); fail DuplicateObligationOwner
    else
      _ ← sm_modify (fun l => set_owners (obligation_owner l)
                                (insert_owner feedback id (presentation_feedback_owner l)) l);
      _ ← sm_modify (fun l => set_active (<[id := mkRecord d Built]> (active l)) l);
      _ ← sm_modify (bump CBuilt);
      _ ← sm_modify (bump_if (built_path (ot_content d)));
      sm_modify (fun l => set_counter CActivePeak (fun n => Z.max n (Z.of_nat (size (active l)))) l).

(** ** Feedback batches *)

Definition is_built_or_ready (s : OutputTransactionState) : bool :=
  match s with Built | Ready _ => true | _ => false end.
Definition is_before_submit (s : OutputTransactionState) : bool :=
  match s with Built | Ready _ | Queued _ _ _ => true | _ => false end.
Definition build_err (r : res OutputTransactionBuildError OutputTransaction)
  : res OutputTransactionError OutputTransaction :=
  map_err (fun _ => FeedbackBatchForCompatibilityImmediate) r.

Definition attach_presentation_feedback_batch (id : OutputTransactionId)
  (batch : PresentationFeedbackBatchId) : L unit :=
  s ← get_state id;
  if negb (is_built_or_ready s) then invalid_transition s ToReady
  else
    l ← sm_get;
    if is_owned (Some batch) (presentation_feedback_owner l)
    then _ ← sm_modify (bump CDuplicateObligationAttempts); fail DuplicateObligationOwner
    else
      r ← expect_record id;
      d ← sm_lift (build_err (with_presentation_feedback_batch batch (descriptor r)));
      _ ← set_descriptor id d;
      sm_modify (fun l => set_owners (obligation_owner l)
                            (<[batch := id]> (presentation_feedback_owner l)) l).

Definition transfer_presentation_feedback_batch (from to : OutputTransactionId)
  : L (option PresentationFeedbackBatchId) :=
  from_state ← get_state from;
  to_state ← get_state to;
  if negb (is_before_submit from_state) then invalid_transition from_state ToReady
  else if negb (is_before_submit to_state) then invalid_transition to_state ToReady
  else
    from_record ← expect_record from;
    to_record ← expect_record to;
    if negb (bool_decide (ot_client_cursor_presentation_key (descriptor from_record)
                          = ot_client_cursor_presentation_key (descriptor to_record)))
    then fail PresentationFeedbackKeyMismatch
    else
      match presentation_feedback_batch_id (ot_obligations (descriptor from_record)) with
      | None => mret None
      | Some batch =>
          match presentation_feedback_batch_id (ot_obligations (descriptor to_record)) with
          | Some _ =>
              _ ← sm_modify (bump CDuplicateObligationAttempts); fail DuplicateObligationOwner
          | None =>
              let updated_from := without_presentation_feedback_batch (descriptor from_record) in
              updated_to ←
                sm_lift (build_err (with_presentation_feedback_batch batch (descriptor to_record)));
              _ ← set_descriptor from updated_from;
              _ ← set_descriptor to updated_to;
              _ ← sm_modify (fun l => set_owners (obligation_owner l)
                                        (<[batch := to]> (presentation_feedback_owner l)) l);
              mret (Some batch)
          end
      end.

Definition detach_presentation_feedback_batch (id : OutputTransactionId)
  : L (option PresentationFeedbackBatchId) :=
  s ← get_state id;
  if negb (is_before_submit s) then invalid_transition s ToReady
  else
    r ← expect_record id;
    match presentation_feedback_batch_id (ot_obligations (descriptor r)) with
    | None => mret None
    | Some batch =>
        _ ← set_descriptor id (without_presentation_feedback_batch (descriptor r));
        _ ← sm_modify (fun l => set_owners (obligation_owner l)
                                  (delete batch (presentation_feedback_owner l)) l);
        mret (Some batch)
    end.

(** ** Transitions before submission *)

Definition mark_ready (id : OutputTransactionId) (ready_at : MonotonicTimestampNs) : L unit :=
  s ← get_state id;
  match s with
  | Built => _ ← transition id (Ready ready_at); sm_modify (bump CReady)
  | _ => invalid_transition s ToReady
  end.
Definition mark_ready_unbound (id : OutputTransactionId) (ready_at : MonotonicTimestampNs) : L unit :=
  s ← get_state id;
  match s with
  | Built => _ ← transition id (ReadyUnbound ready_at); sm_modify (bump CReady)
  | _ => invalid_transition s ToReady
  end.

Definition prepare_deferred_o1_binding (id : OutputTransactionId) (target : PresentationTarget)
  : L PreparedDeferredO1TransactionBinding :=
  s ← get_state id;
  match s with
  | ReadyUnbound ready_at =>
      r ← expect_record id;
      bound ← sm_lift (map_err (fun _ => DeferredBindingRejected)
                         (transaction_bind_deferred_o1 (pt_physical_claim target)
                            (pt_submit_not_before target) (descriptor r)));
      mret (mkPreparedBinding id (descriptor r) bound ready_at (pt_render_start_deadline target))
  | _ => invalid_transition s ToReady
  end.
Definition commit_prepared_deferred_o1_binding (p : PreparedDeferredO1TransactionBinding) : L unit :=
  update_record (pb_transaction_id p)
    (fun _ => mkRecord (pb_bound_descriptor p) (Ready (pb_bound_ready_at p))).
Definition bind_deferred_o1 (id : OutputTransactionId) (target : PresentationTarget) : L unit :=
  p ← prepare_deferred_o1_binding id target;
  commit_prepared_deferred_o1_binding p.

Definition mark_queued (id : OutputTransactionId) (worker_generation : Z)
  (queued_at : MonotonicTimestampNs) : L unit :=
  s ← get_state id;
  match
    match s with
    | Built => Some QueuedFromBuilt
    | Ready ready_at => Some (QueuedFromReady ready_at)
    | _ => None
    end
  with
  | None => invalid_transition s ToQueued
  | Some predecessor =>
      _ ← transition id (Queued queued_at worker_generation predecessor);
      _ ← sm_modify (bump CQueued);
      note_path_counter id (fun content => bump (queued_path content))
  end.
Definition rollback_queued (id : OutputTransactionId) : L unit :=
  s ← get_state id;
  match s with
  | Queued _ _ predecessor =>
      r ← expect_record id;
      _ ← set_state id (match predecessor with
                        | QueuedFromBuilt => Built
                        | QueuedFromReady ready_at => Ready ready_at
                        end);
      _ ← sm_modify (unbump CQueued);
      sm_modify (unbump (queued_path (ot_content (descriptor r))))
  | _ => invalid_transition s ToQueued
  end.
Definition mark_submitted (id : OutputTransactionId) (token : Z)
  (submitted_at : MonotonicTimestampNs) : L unit :=
  s ← get_state id;
  if negb (is_before_submit s) then invalid_transition s ToSubmitted
  else
    _ ← match s with
        | Queued queued_at _ _ =>
            let wait_ns := sat_sub submitted_at queued_at in
            sm_modify (fun l => set_counter CQueueWaitMax (fun n => Z.max n wait_ns)
                                  (set_counter CQueueWaitTotal (fun n => sat_add u64_max n wait_ns) l))
        | _ => mret tt
        end;
    _ ← transition id (Submitted token submitted_at);
    _ ← sm_modify (bump CSubmitted);
    note_path_counter id (fun content => bump_if (submitted_path content)).

(** ** Endings *)

Definition is_final (s : OutputTransactionState) : bool :=
  match s with Settling _ | Terminal _ => true | _ => false end.
Definition is_presented_terminal (t : OutputTransactionTerminal) : bool :=
  bool_decide (transition_for_terminal t = ToPresented).

Definition accept_state (id : OutputTransactionId) (terminal : OutputTransactionTerminal)
  : L AcceptedTerminalTransition :=
  l ← sm_get;
  match active l !! id with
  | None =>
      match List.find (fun r => ot_id (descriptor r) =? id) (recent_terminal l) with
      | Some r =>
          _ ← sm_modify (if is_presented_terminal terminal then bump CDuplicateSettlementAttempts
                         else (fun l => l));
          reject_invalid_transition (state r) (transition_for_terminal terminal)
      | None => reject_terminal UnknownTransaction
      end
  | Some r =>
      if is_final (state r)
      then
        _ ← sm_modify (if is_presented_terminal terminal then bump CDuplicateSettlementAttempts
                       else (fun l => l));
        reject_invalid_transition (state r) (transition_for_terminal terminal)
      else
        let obligations := ot_obligations (descriptor r) in
        if match frame_batch_id obligations with
           | Some batch => negb (bool_decide (obligation_owner l !! batch = Some id))
           | None => false
           end
        then reject_terminal DuplicateObligationOwner
        else
          _ ← set_state id (Settling terminal);
          _ ← sm_modify (bump CTerminalAccepted);
          _ ← sm_modify (bump CActiveSettling);
          mret (mkAccepted id obligations (state r) terminal)
  end.

Definition accept_presented (id : OutputTransactionId) (token output_generation : Z)
  (presented_at : MonotonicTimestampNs) (actual_sequence : option Z) : L AcceptedTerminalTransition :=
  l ← sm_get;
  match active l !! id with
  | None =>
      if recent_has id l
      then _ ← sm_modify (bump CDuplicateSettlementAttempts); reject_terminal UnknownTransaction
      else reject_terminal UnknownTransaction
  | Some r =>
      if negb (ot_output_generation (descriptor r) =? output_generation)
      then reject_terminal GenerationMismatch
      else
        match state r with
        | Submitted expected _ =>
            if expected =? token then accept_state id (Presented presented_at actual_sequence)
            else reject_terminal TokenMismatch
        | s => reject_invalid_transition s ToPresented
        end
  end.
Definition is_immediate (c : OutputTransactionContent) : bool :=
  match c with CompatibilityImmediate _ => true | _ => false end.
Definition accept_immediate_presented (id : OutputTransactionId)
  (presented_at : MonotonicTimestampNs) : L AcceptedTerminalTransition :=
  l ← sm_get;
  match active l !! id with
  | None => reject_terminal UnknownTransaction
  | Some r =>
      if bool_decide (state r = Built) && is_immediate (ot_content (descriptor r))
      then
        accepted ← accept_state id (Presented presented_at None);
        _ ← sm_modify (bump CImmediateAccepted);
        mret accepted
      else reject_invalid_transition (state r) ToPresented
  end.
Definition accept_no_visual_change (id : OutputTransactionId) (at_ns : MonotonicTimestampNs)
  : L AcceptedTerminalTransition :=
  s ← get_state id;
  if is_built_or_ready s then accept_state id (Dropped DropNoVisualChange at_ns)
  else reject_invalid_transition s ToDropped.
Definition drops_submitted (reason : OutputTransactionDropReason) : bool :=
  match reason with
  | DropOutputDestroyed | DropSessionSuspended | DropSafeAbandonment => true
  | DropNoVisualChange => false
  end.
Definition is_submitted (s : OutputTransactionState) : bool :=
  match s with Submitted _ _ => true | _ => false end.
Definition accept_dropped (id : OutputTransactionId) (reason : OutputTransactionDropReason)
  (at_ns : MonotonicTimestampNs) : L AcceptedTerminalTransition :=
  s ← get_state id;
  if is_submitted s && negb (drops_submitted reason) then reject_invalid_transition s ToDropped
  else accept_state id (Dropped reason at_ns).
Definition accept_superseded (id : OutputTransactionId) (by_id : option OutputTransactionId)
  (reason : OutputTransactionSupersedeReason) (at_ns : MonotonicTimestampNs)
  : L AcceptedTerminalTransition :=
  s ← get_state id;
  if is_submitted s then reject_invalid_transition s ToSuperseded
  else accept_state id (Superseded by_id reason at_ns).
Definition accept_failed (id : OutputTransactionId) (stage : OutputTransactionFailureStage)
  (at_ns : MonotonicTimestampNs) : L AcceptedTerminalTransition :=
  s ← get_state id;
  if negb (failure_stage_is_compatible (kind s) stage)
  then
    _ ← sm_modify (bump CFailureStageMismatches);
    reject_terminal (FailureStageMismatch (kind s) stage)
  else accept_state id (Failed stage at_ns).

Definition rollback_settlement (accepted : AcceptedTerminalTransition) : L unit :=
  l ← sm_get;
  match active l !! ac_transaction_id accepted with
  | None => reject_terminal UnknownTransaction
  | Some r =>
      if decide (state r = Settling (ac_terminal accepted))
      then
        _ ← set_state (ac_transaction_id accepted) (ac_prior_state accepted);
        sm_modify (unbump CActiveSettling)
      else reject_invalid_transition (state r) (transition_for_terminal (ac_terminal accepted))
  end.

(** The counters an ending bumps, by content. *)
Definition ending_counters (terminal : OutputTransactionTerminal) (content : OutputTransactionContent)
  : list Counter :=
  match terminal with
  | Presented _ _ =>
      CPresented ::
      match content with
      | Composited _ _ _ _ => [CPresentedComposited]
      | Direct _ _ => [CPresentedDirect]
      | PlaneDelta _ _ => [CPresentedPlaneDelta]
      | CompatibilityImmediate _ => [CImmediatePresentations; CImmediateFinalized]
      end
  | Dropped reason _ =>
      CDropped ::
      (if bool_decide (reason = DropNoVisualChange) && is_immediate content
       then [CCompatibilityNoops] else [])
  | Superseded _ _ _ => [CSuperseded]
  | Failed _ _ =>
      CFailed :: (if is_immediate content then [CImmediateFailures; CCompatibilityFailures] else [])
  end.
Definition release_owner (batch : option Z) (id : OutputTransactionId)
  (m : gmap Z OutputTransactionId) : gmap Z OutputTransactionId :=
  match batch with
  | Some batch => if decide (m !! batch = Some id) then delete batch m else m
  | None => m
  end.
(** [push_back] on a history that drops its oldest entry when full. *)
Definition push_history (r : OutputTransactionRecord) (l : OutputTransactionLedger)
  : OutputTransactionLedger :=
  let l :=
    if (length (recent_terminal l) =? lg_history_capacity l)%nat
    then bump CTerminalHistoryOverwrites
           (set_history (tail (recent_terminal l)) (settled_output_terminals l) l)
    else l in
  set_history (recent_terminal l ++ [r]) (settled_output_terminals l) l.
Definition finish_settling_committed (id : OutputTransactionId)
  (prior : option OutputTransactionState) (terminal : OutputTransactionTerminal) : L unit :=
  _ ← sm_modify (fun l =>
        match physical_terminal_for prior terminal with
        | Some (NoPageflip reason) =>
            set_history (recent_terminal l)
              (settled_output_terminals l ++ [mkSettled id (NoPageflip reason)]) l
        | _ => l
        end);
  r ← expect_record id;
  _ ← sm_modify (fun l => set_active (delete id (active l)) l);
  let o := ot_obligations (descriptor r) in
  _ ← sm_modify (fun l =>
        set_owners (release_owner (frame_batch_id o) id (obligation_owner l))
          (release_owner (presentation_feedback_batch_id o) id (presentation_feedback_owner l)) l);
  _ ← sm_modify (push_history (mkRecord (descriptor r) (Terminal terminal)));
  _ ← sm_modify (unbump CActiveSettling);
  _ ← sm_modify (bump CTerminalFinalized);
  sm_modify (fun l => foldl (fun l c => bump c l) l
                        (ending_counters terminal (ot_content (descriptor r)))).

Definition foreign_owner (batch : option Z) (id : OutputTransactionId)
  (m : gmap Z OutputTransactionId) : bool :=
  match batch with Some batch => negb (bool_decide (m !! batch = Some id)) | None => false end.
Definition finish_settling_inner (id : OutputTransactionId) (prior : option OutputTransactionState)
  (terminal : OutputTransactionTerminal) (validate_obligation_owner : bool) : L unit :=
  l ← sm_get;
  match active l !! id with
  | None => reject_terminal UnknownTransaction
  | Some r =>
      let o := ot_obligations (descriptor r) in
      if negb (bool_decide (state r = Settling terminal))
      then reject_invalid_transition (state r) (transition_for_terminal terminal)
      else if validate_obligation_owner && foreign_owner (frame_batch_id o) id (obligation_owner l)
      then reject_terminal DuplicateObligationOwner
      else if validate_obligation_owner
              && foreign_owner (presentation_feedback_batch_id o) id (presentation_feedback_owner l)
      then reject_terminal DuplicateObligationOwner
      else finish_settling_committed id prior terminal
  end.
Definition finish_settling (accepted : AcceptedTerminalTransition) : L unit :=
  finish_settling_inner (ac_transaction_id accepted) (Some (ac_prior_state accepted))
    (ac_terminal accepted) true.
Definition finalize_terminal (accepted : AcceptedTerminalTransition) : L unit :=
  l ← sm_get;
  match active l !! ac_transaction_id accepted with
  | None => reject_terminal UnknownTransaction
  | Some r =>
      if decide (state r = Settling (ac_terminal accepted)) then finish_settling accepted
      else reject_invalid_transition (state r) (transition_for_terminal (ac_terminal accepted))
  end.
Definition commit_prepared_terminal (accepted : AcceptedTerminalTransition) : L unit :=
  _ ← expect_record (ac_transaction_id accepted);
  finish_settling_committed (ac_transaction_id accepted) (Some (ac_prior_state accepted))
    (ac_terminal accepted).
Definition fail_settlement (accepted : AcceptedTerminalTransition) (at_ns : MonotonicTimestampNs)
  : L unit :=
  l ← sm_get;
  match active l !! ac_transaction_id accepted with
  | None => reject_terminal UnknownTransaction
  | Some r =>
      if decide (state r = Settling (ac_terminal accepted))
      then
        _ ← sm_modify (bump CSettlementFailures);
        let failure := Failed ProtocolSettlement at_ns in
        _ ← set_state (ac_transaction_id accepted) (Settling failure);
        finish_settling_inner (ac_transaction_id accepted) None failure false
      else reject_invalid_transition (state r) ToFailed
  end.

Definition mark_presented (id : OutputTransactionId) (token output_generation : Z)
  (presented_at : MonotonicTimestampNs) (actual_sequence : option Z) : L unit :=
  accepted ← accept_presented id token output_generation presented_at actual_sequence;
  finalize_terminal accepted.
Definition mark_dropped (id : OutputTransactionId) (reason : OutputTransactionDropReason)
  (at_ns : MonotonicTimestampNs) : L unit :=
  accepted ← accept_dropped id reason at_ns;
  finalize_terminal accepted.
Definition mark_no_visual_change (id : OutputTransactionId) (at_ns : MonotonicTimestampNs) : L unit :=
  accepted ← accept_no_visual_change id at_ns;
  finalize_terminal accepted.
Definition mark_superseded (id : OutputTransactionId) (by_id : option OutputTransactionId)
  (reason : OutputTransactionSupersedeReason) (at_ns : MonotonicTimestampNs) : L unit :=
  accepted ← accept_superseded id by_id reason at_ns;
  finalize_terminal accepted.
Definition mark_failed (id : OutputTransactionId) (stage : OutputTransactionFailureStage)
  (at_ns : MonotonicTimestampNs) : L unit :=
  accepted ← accept_failed id stage at_ns;
  finalize_terminal accepted.

(** [for id in ids { self.mark_dropped(id, ..)?; }]. *)
Fixpoint drop_all (ids : list OutputTransactionId) (reason : OutputTransactionDropReason)
  (at_ns : MonotonicTimestampNs) : L unit :=
  match ids with
  | [] => mret tt
  | id :: ids => _ ← mark_dropped id reason at_ns; drop_all ids reason at_ns
  end.
Definition cleanup_generation `{HashOrder} (output_generation : Z)
  (reason : OutputTransactionDropReason) (at_ns : MonotonicTimestampNs) : L nat :=
  l ← sm_get;
  let ids :=
    omap (fun k => match active l !! k with
                   | Some r => if ot_output_generation (descriptor r) =? output_generation
                               then Some (ot_id (descriptor r)) else None
                   | None => None
                   end) (hash_keys (active l)) in
  _ ← drop_all ids reason at_ns;
  mret (length ids).
Definition terminate_all `{HashOrder} (reason : OutputTransactionDropReason)
  (at_ns : MonotonicTimestampNs) : L nat :=
  l ← sm_get;
  let ids := hash_keys (active l) in
  _ ← drop_all ids reason at_ns;
  mret (length ids).

(** ** Replacements before submission *)

Definition prepare_ready_target_replacement (id : OutputTransactionId)
  (expected replacement : PresentationTarget) : L PreparedReadyTargetTransactionReplacement :=
  s ← get_state id;
  match s with
  | Ready ready_at =>
      l ← sm_get;
      r ← sm_lift (ok_or UnknownTransaction (active l !! id));
      if negb (is_binding expected) || negb (is_binding replacement)
         || negb (bool_decide (ot_reservation (descriptor r) = Fixed expected))
      then fail PresentationTargetMismatch
      else
        let '(d, replaced) := replace_bound_target expected replacement (descriptor r) in
        if (replaced : bool)
        then mret (mkPreparedReplacement id (descriptor r) d ready_at)
        else fail PresentationTargetMismatch
  | _ => fail PresentationTargetMismatch
  end.
Definition commit_prepared_ready_target_replacement (p : PreparedReadyTargetTransactionReplacement)
  : L unit :=
  set_descriptor (pr_transaction_id p) (pr_replacement_descriptor p).
Definition replace_ready_target (id : OutputTransactionId) (expected replacement : PresentationTarget)
  : L unit :=
  p ← prepare_ready_target_replacement id expected replacement;
  commit_prepared_ready_target_replacement p.

Definition replace_presentation_state_before_submit (id : OutputTransactionId)
  (mode : OutputPresentationMode) (content_type : DrmContentType)
  (validation_key : option CompositedPresentationValidationKey) : L unit :=
  l ← sm_get;
  r ← sm_lift (ok_or UnknownTransaction (active l !! id));
  if negb (match state r with Built | Ready _ | ReadyUnbound _ => true | _ => false end)
  then fail PresentationStateAlreadyOwned
  else if uses_vrr mode && is_deferred_o1 (ot_reservation (descriptor r))
  then fail VrrCannotUseDeferredO1
  else
    d ← sm_lift (map_err (fun _ => VrrCannotUseDeferredO1)
                   (with_presentation_state mode content_type (descriptor r)));
    set_descriptor id (with_presentation_validation_key validation_key d).
Definition downgrade_presentation_to_vsync (id : OutputTransactionId) : L unit :=
  l ← sm_get;
  r ← sm_lift (ok_or UnknownTransaction (active l !! id));
  replace_presentation_state_before_submit id ModeVsync (ot_content_type (descriptor r)) None.

(** ** Queries *)

Definition transaction_including_terminal (id : OutputTransactionId) (l : OutputTransactionLedger)
  : option OutputTransactionRecord :=
  match active l !! id with
  | Some r => Some r
  | None => List.find (fun r => ot_id (descriptor r) =? id) (recent_terminal l)
  end.
Definition active_transaction_ids (l : OutputTransactionLedger) : list OutputTransactionId :=
  btree_keys (active l).
Definition take_settled_output_terminals (l : OutputTransactionLedger)
  : OutputTransactionLedger * list SettledOutputTerminal :=
  (set_history (recent_terminal l) [] l, settled_output_terminals l).
Definition note_duplicate_settlement_attempt : OutputTransactionLedger -> OutputTransactionLedger :=
  bump CDuplicateSettlementAttempts.

Section Walks.
Context `{HashOrder}.

(** [self.active.values()]. *)
Definition active_values (l : OutputTransactionLedger) : list OutputTransactionRecord :=
  omap (fun k => active l !! k) (hash_keys (active l)).

(** Every record owns the batch it carries. *)
Fixpoint check_owned (batch_of : OutputTransactionRecord -> option Z)
  (owner : gmap Z OutputTransactionId) (missing : Z -> OutputTransactionOwnershipError)
  (wrong : Z -> Z -> Z -> OutputTransactionOwnershipError) (records : list OutputTransactionRecord)
  : res OutputTransactionOwnershipError unit :=
  match records with
  | [] => Ret tt
  | r :: records =>
      match batch_of r with
      | None => check_owned batch_of owner missing wrong records
      | Some batch =>
          match owner !! batch with
          | Some actual =>
              if actual =? ot_id (descriptor r) then check_owned batch_of owner missing wrong records
              else Fail (wrong batch (ot_id (descriptor r)) actual)
          | None => Fail (missing batch)
          end
      end
  end.
(** Every owner is an active record that carries the batch. *)
Fixpoint check_orphans (batch_of : OutputTransactionRecord -> option Z)
  (records : gmap Z OutputTransactionRecord) (owner : gmap Z OutputTransactionId)
  (orphan : Z -> Z -> OutputTransactionOwnershipError) (batches : list Z)
  : res OutputTransactionOwnershipError unit :=
  match batches with
  | [] => Ret tt
  | batch :: batches =>
      match owner !! batch with
      | None => check_orphans batch_of records owner orphan batches
      | Some id =>
          match records !! id with
          | None => Fail (orphan batch id)
          | Some r =>
              if decide (batch_of r = Some batch)
              then check_orphans batch_of records owner orphan batches
              else Fail (orphan batch id)
          end
      end
  end.
Definition frame_of (r : OutputTransactionRecord) : option Z :=
  frame_batch_id (ot_obligations (descriptor r)).
Definition feedback_of (r : OutputTransactionRecord) : option Z :=
  presentation_feedback_batch_id (ot_obligations (descriptor r)).
Definition is_settling (r : OutputTransactionRecord) : bool :=
  match state r with Settling _ => true | _ => false end.
Definition settling_records (l : OutputTransactionLedger) : Z :=
  Z.of_nat (length (List.filter is_settling (active_values l))).
Definition validate_terminal_ownership (l : OutputTransactionLedger)
  : res OutputTransactionOwnershipError unit :=
  _ ← check_owned frame_of (obligation_owner l) MissingObligationOwner WrongObligationOwner
        (active_values l);
  _ ← check_orphans frame_of (active l) (obligation_owner l) OrphanedObligationOwner
        (hash_keys (obligation_owner l));
  _ ← check_owned feedback_of (presentation_feedback_owner l) MissingPresentationFeedbackOwner
        WrongPresentationFeedbackOwner (active_values l);
  _ ← check_orphans feedback_of (active l) (presentation_feedback_owner l)
        OrphanedPresentationFeedbackOwner (hash_keys (presentation_feedback_owner l));
  if settling_records l =? counters l CActiveSettling then Ret tt
  else Fail (SettlingCountMismatch (settling_records l) (counters l CActiveSettling)).

Definition submitted_transaction (token output_generation : Z) (l : OutputTransactionLedger)
  : option OutputTransactionId :=
  (fun r => ot_id (descriptor r)) <$>
  List.find (fun r => (ot_output_generation (descriptor r) =? output_generation)
                      && match state r with Submitted t _ => t =? token | _ => false end)
    (active_values l).
Definition pending_direct_presentation_state (candidate : DirectScanoutCandidateKey)
  (l : OutputTransactionLedger) : option OutputPresentationStateKey :=
  (fun r => presentation_state_key (descriptor r)) <$>
  List.find (fun r => is_submitted (state r)
                      && bool_decide (direct_candidate_key (descriptor r) = Some candidate))
    (active_values l).
Definition submitted_direct_presentation_state (l : OutputTransactionLedger)
  : option OutputPresentationStateKey :=
  (fun r => presentation_state_key (descriptor r)) <$>
  List.find (fun r => is_submitted (state r)
                      && bool_decide (is_Some (direct_candidate_key (descriptor r))))
    (active_values l).
Definition has_queued_direct_candidate (candidate : DirectScanoutCandidateKey)
  (l : OutputTransactionLedger) : bool :=
  existsb (fun r => match state r with Queued _ _ _ => true | _ => false end
                    && bool_decide (direct_candidate_key (descriptor r) = Some candidate))
    (active_values l).
Definition submitted_presentation_state (l : OutputTransactionLedger)
  : option OutputPresentationStateKey :=
  (fun r => presentation_state_key (descriptor r)) <$>
  List.find (fun r => is_submitted (state r)) (active_values l).
End Walks.

(** ** Ledgers as equations *)

(** One record written. *)
Definition put (id : OutputTransactionId) (r : OutputTransactionRecord) (l : OutputTransactionLedger)
  : OutputTransactionLedger := set_active (<[id := r]> (active l)) l.
Definition with_state (r : OutputTransactionRecord) (s : OutputTransactionState)
  : OutputTransactionRecord := mkRecord (descriptor r) s.

Lemma get_state_Some id r l :
  active l !! id = Some r -> get_state id l = (l, Ret (state r)).
Proof. intros E. unfold get_state, mbind, SM_bind, sm_get, sm_lift. by rewrite E. Qed.
Lemma get_state_None id l : active l !! id = None -> get_state id l = (l, Fail UnknownTransaction).
Proof. intros E. unfold get_state, mbind, SM_bind, sm_get, sm_lift. by rewrite E. Qed.
Lemma expect_record_Some id r l : active l !! id = Some r -> expect_record id l = (l, Ret r).
Proof. intros E. unfold expect_record, mbind, SM_bind, sm_get, sm_lift. by rewrite E. Qed.
Lemma update_record_Some id f r l :
  active l !! id = Some r -> update_record id f l = (put id (f r) l, Ret tt).
Proof.
  intros E. unfold update_record. rewrite (SM_bind_step _ _ _ _ _ (expect_record_Some _ _ _ E)). done.
Qed.
Lemma transition_Some id s r l :
  active l !! id = Some r -> transition id s l = (put id (with_state r s) l, Ret tt).
Proof. intros E. unfold transition. rewrite SM_get_step, E. done. Qed.
Lemma note_path_counter_Some id f r l :
  active l !! id = Some r ->
  note_path_counter id f l = (f (ot_content (descriptor r)) l, Ret tt).
Proof. intros E. unfold note_path_counter. rewrite SM_get_step, E. done. Qed.
Lemma put_lookup id r l : active (put id r l) !! id = Some r.
Proof. apply lookup_insert_eq. Qed.

(** ** The invariant *)

Definition settling_count (m : gmap OutputTransactionId OutputTransactionRecord) : nat :=
  size (filter (fun kv => is_settling (snd kv) = true) m).
Definition owners_ok (batch_of : OutputTransactionRecord -> option Z)
  (m : gmap OutputTransactionId OutputTransactionRecord) (owner : gmap Z OutputTransactionId) : Prop :=
  forall b id, owner !! b = Some id <-> exists r, m !! id = Some r /\ batch_of r = Some b.

Record ledger_ok (l : OutputTransactionLedger) : Prop := {
  lo_id : forall id r, active l !! id = Some r -> ot_id (descriptor r) = id;
  lo_live : forall id r, active l !! id = Some r -> forall t, state r <> Terminal t;
  lo_frames : owners_ok frame_of (active l) (obligation_owner l);
  lo_feedbacks : owners_ok feedback_of (active l) (presentation_feedback_owner l);
  lo_settling : counters l CActiveSettling = Z.of_nat (settling_count (active l));
  lo_capacity : (size (active l) <= lg_active_capacity l)%nat /\
                Z.of_nat (lg_active_capacity l) <= u64_max;
  lo_history : (1 <= lg_history_capacity l)%nat /\
               (length (recent_terminal l) <= lg_history_capacity l)%nat;
  lo_ended : Forall (fun r => exists t, state r = Terminal t) (recent_terminal l);
  lo_distinct : base.NoDup (map (fun r => ot_id (descriptor r)) (recent_terminal l));
  lo_once : forall id, is_Some (active l !! id) -> recent_has id l = false
}.

Lemma settling_count_put m id r r' :
  m !! id = Some r ->
  (settling_count (<[id := r']> m) + (if is_settling r then 1 else 0)
   = settling_count m + (if is_settling r' then 1 else 0))%nat.
Proof.
  intros E. unfold settling_count.
  rewrite <- (insert_id m id r E) at 2.
  assert (H : forall x, size (filter (fun kv => is_settling (snd kv) = true) (<[id:=x]> m))
    = ((if is_settling x then 1 else 0)
       + size (filter (fun kv : Z * _ => is_settling (snd kv) = true) (delete id m)))%nat).
  { intros x. rewrite <- insert_delete_eq. destruct (is_settling x) eqn:Ex.
    - rewrite map_filter_insert_True by done. rewrite map_size_insert_None; [done|].
      apply map_lookup_filter_None. left. apply lookup_delete_eq.
    - rewrite map_filter_insert_False by (cbn; congruence).
      by rewrite delete_delete_eq. }
  rewrite !H. lia.
Qed.
Lemma settling_count_insert m id r :
  m !! id = None ->
  settling_count (<[id := r]> m) = ((if is_settling r then 1 else 0) + settling_count m)%nat.
Proof.
  intros E. unfold settling_count. destruct (is_settling r) eqn:Er.
  - rewrite map_filter_insert_True by done. rewrite map_size_insert_None; [done|].
    apply map_lookup_filter_None. by left.
  - rewrite map_filter_insert_False by (cbn; congruence). by rewrite delete_id.
Qed.
Lemma settling_count_delete m id r :
  m !! id = Some r ->
  (settling_count (delete id m) + (if is_settling r then 1 else 0) = settling_count m)%nat.
Proof.
  intros E. rewrite <- (insert_id m id r E) at 2. rewrite <- insert_delete_eq.
  rewrite settling_count_insert by apply lookup_delete_eq. lia.
Qed.
Lemma settling_count_size m : (settling_count m <= size m)%nat.
Proof. unfold settling_count. apply map_subseteq_size, map_filter_subseteq. Qed.

Lemma ok_counter c f l : ledger_ok l -> c <> CActiveSettling -> ledger_ok (set_counter c f l).
Proof. intros [] Hc. split; try done. cbn. by rewrite decide_False. Qed.
Lemma ok_bump c l : ledger_ok l -> c <> CActiveSettling -> ledger_ok (bump c l).
Proof. apply ok_counter. Qed.
Lemma ok_bump_if c l : ledger_ok l -> c <> Some CActiveSettling -> ledger_ok (bump_if c l).
Proof. destruct c; cbn; intros; [apply ok_bump; [done|congruence]|done]. Qed.
Lemma ok_bumps cs l :
  ledger_ok l -> Forall (fun c => c <> CActiveSettling) cs ->
  ledger_ok (foldl (fun l c => bump c l) l cs).
Proof.
  intros Hl Hc. revert l Hl. induction Hc as [|c cs Hc _ IH]; intros l Hl; [done|]. cbn.
  by apply IH, ok_bump.
Qed.

(** A record replaced by one with the same batches, and the settling counter
    brought in line. *)
Definition same_rest (l l' : OutputTransactionLedger) : Prop :=
  obligation_owner l' = obligation_owner l /\
  presentation_feedback_owner l' = presentation_feedback_owner l /\
  recent_terminal l' = recent_terminal l /\ lg_active_capacity l' = lg_active_capacity l /\
  lg_history_capacity l' = lg_history_capacity l.
Lemma owners_ok_put batch_of m owner id r r' :
  owners_ok batch_of m owner -> m !! id = Some r -> batch_of r' = batch_of r ->
  owners_ok batch_of (<[id := r']> m) owner.
Proof.
  intros H E Hb b id'. rewrite (H b id'). destruct (decide (id' = id)) as [->|Hne].
  - rewrite E, lookup_insert_eq. split; intros (? & [= <-] & Hb'); eexists; (split; [done|]); congruence.
  - by rewrite lookup_insert_ne.
Qed.
Lemma ok_put_into l l' id r r' :
  ledger_ok l -> active l !! id = Some r -> ot_id (descriptor r') = id ->
  frame_of r' = frame_of r -> feedback_of r' = feedback_of r -> (forall t, state r' <> Terminal t) ->
  active l' = <[id := r']> (active l) -> same_rest l l' ->
  counters l' CActiveSettling = Z.of_nat (settling_count (<[id := r']> (active l))) ->
  ledger_ok l'.
Proof.
  intros [] E Hid Hf Hb Ht Ha (Ho & Hp & Hr & Hc & Hh) Hs.
  split; unfold recent_has; rewrite ?Ha, ?Ho, ?Hp, ?Hr, ?Hc, ?Hh; try done.
  - intros id' r'' [[-> <-]|[? H]]%lookup_insert_Some; eauto.
  - intros id' r'' [[-> <-]|[? H]]%lookup_insert_Some; eauto.
  - by apply owners_ok_put with r.
  - by apply owners_ok_put with r.
  - by rewrite map_size_insert_Some.
  - intros id' [->|H]%lookup_insert_is_Some'; [|by apply lo_once0]. apply lo_once0. eauto.
Qed.
Lemma ok_put l id r r' :
  ledger_ok l -> active l !! id = Some r -> ot_id (descriptor r') = id ->
  frame_of r' = frame_of r -> feedback_of r' = feedback_of r ->
  (forall t, state r' <> Terminal t) -> is_settling r' = is_settling r -> ledger_ok (put id r' l).
Proof.
  intros Hl E ? ? ? ? Hs. apply (ok_put_into l _ id r r'); try done. cbn.
  rewrite (lo_settling _ Hl). pose proof (settling_count_put _ id r r' E). rewrite Hs in *. lia.
Qed.
Lemma is_settling_final r : is_final (state r) = false -> is_settling r = false.
Proof. unfold is_settling. by destruct (state r). Qed.
Lemma ok_put_state l id r s :
  ledger_ok l -> active l !! id = Some r -> is_final (state r) = false -> is_final s = false ->
  ledger_ok (put id (with_state r s) l).
Proof.
  intros Hl E H1 H2. apply (ok_put l id r); cbn; try done.
  - by eapply lo_id.
  - intros t ->. done.
  - rewrite !is_settling_final; done.
Qed.
(** A record that starts settling, one that stops. *)
Lemma ok_put_settling l id r t :
  ledger_ok l -> active l !! id = Some r -> is_final (state r) = false ->
  ledger_ok (bump CActiveSettling (put id (with_state r (Settling t)) l)).
Proof.
  intros Hl E Hs. set (r' := with_state r (Settling t)).
  apply (ok_put_into l _ id r r'); try done; cbn.
  - by eapply lo_id.
  - pose proof (settling_count_put _ id r r' E) as Hn. rewrite (is_settling_final _ Hs) in Hn.
    pose proof (settling_count_size (<[id := r']> (active l))) as Hle.
    rewrite map_size_insert_Some in Hle by done. pose proof (lo_capacity _ Hl) as [? ?].
    rewrite decide_True, (lo_settling _ Hl) by done. unfold sat_add. cbn in Hn. lia.
Qed.
Lemma ok_put_unsettling l id r s :
  ledger_ok l -> active l !! id = Some r -> is_settling r = true -> is_final s = false ->
  ledger_ok (unbump CActiveSettling (put id (with_state r s) l)).
Proof.
  intros Hl E Hr Hs. set (r' := with_state r s).
  apply (ok_put_into l _ id r r'); try done; cbn.
  - by eapply lo_id.
  - intros t' ->. done.
  - pose proof (settling_count_put _ id r r' E) as Hn. rewrite Hr, (is_settling_final r') in Hn by done.
    rewrite decide_True, (lo_settling _ Hl) by done. unfold sat_sub. lia.
Qed.

(** *** Records that leave *)

Definition trimmed (l : OutputTransactionLedger) : list OutputTransactionRecord :=
  if (length (recent_terminal l) =? lg_history_capacity l)%nat then tail (recent_terminal l)
  else recent_terminal l.
Lemma push_history_rest r l :
  active (push_history r l) = active l /\
  obligation_owner (push_history r l) = obligation_owner l /\
  presentation_feedback_owner (push_history r l) = presentation_feedback_owner l /\
  counters (push_history r l) CActiveSettling = counters l CActiveSettling /\
  lg_active_capacity (push_history r l) = lg_active_capacity l /\
  lg_history_capacity (push_history r l) = lg_history_capacity l /\
  recent_terminal (push_history r l) = trimmed l ++ [r].
Proof.
  unfold push_history, trimmed. destruct (_ =? _)%nat; cbn; by split_and!.
Qed.
Lemma trimmed_suffix l : exists old, recent_terminal l = old ++ trimmed l.
Proof.
  unfold trimmed. destruct (_ =? _)%nat; [|by exists []].
  destruct (recent_terminal l) as [|r rs]; [by exists []|by exists [r]].
Qed.
Lemma owners_ok_release batch_of m owner id r :
  owners_ok batch_of m owner -> m !! id = Some r ->
  owners_ok batch_of (delete id m) (release_owner (batch_of r) id owner).
Proof.
  intros H E b id'. split.
  - intros Hb. assert (Hb' : owner !! b = Some id').
    { unfold release_owner in Hb. destruct (batch_of r) as [c|]; [|done].
      destruct (decide (owner !! c = Some id)); [|done]. by apply lookup_delete_Some in Hb as [_ Hb]. }
    apply H in Hb' as Hr. destruct Hr as (r' & E' & Hr'). exists r'. split; [|done].
    rewrite lookup_delete_ne; [done|]. intros <-. rewrite E in E'. injection E' as <-.
    unfold release_owner in Hb. rewrite Hr', decide_True in Hb by done.
    by rewrite lookup_delete_eq in Hb.
  - intros (r' & [Hne E']%lookup_delete_Some & Hr').
    assert (Hb : owner !! b = Some id') by (apply H; eauto).
    unfold release_owner. destruct (batch_of r) as [c|] eqn:Ec; [|done].
    destruct (decide (owner !! c = Some id)) as [Hc|]; [|done].
    rewrite lookup_delete_ne; [done|]. intros ->. congruence.
Qed.

Definition ended (id : OutputTransactionId) (r : OutputTransactionRecord)
  (t : OutputTransactionTerminal) (l : OutputTransactionLedger) : OutputTransactionLedger :=
  push_history (mkRecord (descriptor r) (Terminal t))
    (set_owners (release_owner (frame_of r) id (obligation_owner l))
       (release_owner (feedback_of r) id (presentation_feedback_owner l))
       (set_active (delete id (active l)) l)).
Lemma recent_has_spec id l :
  recent_has id l = true <-> id ∈ map (fun r => ot_id (descriptor r)) (recent_terminal l).
Proof.
  unfold recent_has. rewrite existsb_exists, list_elem_of_In, in_map_iff.
  split; intros (r & H1 & H2); exists r; rewrite ?Z.eqb_eq in *; done.
Qed.
Lemma trimmed_ids id l :
  id ∈ map (fun r => ot_id (descriptor r)) (trimmed l) -> recent_has id l = true.
Proof.
  intros H. apply recent_has_spec. destruct (trimmed_suffix l) as [old ->].
  rewrite map_app, elem_of_app. by right.
Qed.
Lemma ok_ended l id r t :
  ledger_ok l -> active l !! id = Some r -> is_settling r = true ->
  ledger_ok (unbump CActiveSettling (ended id r t l)).
Proof.
  intros Hl E Hr. unfold ended.
  set (l1 := set_owners _ _ _). set (e := mkRecord _ _).
  destruct (push_history_rest e l1) as (Ha & Ho & Hp & Hc & Hca & Hch & Hrt).
  set (l2 := push_history e l1) in *. clearbody l2.
  assert (Hid : ot_id (descriptor r) = id) by (by eapply lo_id).
  assert (Hfresh : recent_has id l = false) by (eapply lo_once; eauto).
  destruct Hl. split; cbn; rewrite ?Ha, ?Ho, ?Hp, ?Hc, ?Hca, ?Hch, ?Hrt; cbn.
  - intros id' r' [_ H]%lookup_delete_Some; eauto.
  - intros id' r' [_ H]%lookup_delete_Some; eauto.
  - by apply owners_ok_release.
  - by apply owners_ok_release.
  - rewrite decide_True by done.
    pose proof (settling_count_delete _ _ _ E) as Hd. rewrite Hr in Hd.
    rewrite lo_settling0. unfold sat_sub. lia.
  - rewrite map_size_delete_Some by eauto. lia.
  - split; [lia|]. rewrite length_app. cbn. unfold trimmed. cbn.
    destruct (Nat.eqb_spec (length (recent_terminal l)) (lg_history_capacity l)); [|lia].
    destruct (recent_terminal l); cbn in *; lia.
  - apply Forall_app. split; [|by repeat constructor; exists t].
    destruct (trimmed_suffix l1) as [old Hold]. cbn in Hold. rewrite Hold in lo_ended0.
    by apply Forall_app in lo_ended0 as [_ ?].
  - rewrite map_app, list.NoDup_app. split_and!.
    + destruct (trimmed_suffix l1) as [old Hold]. cbn in Hold. rewrite Hold, map_app in lo_distinct0.
      by apply list.NoDup_app in lo_distinct0 as (_ & _ & ?).
    + intros id' H. cbn. rewrite list_elem_of_singleton. intros ->. rewrite Hid in H.
      apply trimmed_ids in H. change (recent_has id l = true) in H. congruence.
    + apply NoDup_singleton.
  - intros id' [r' [Hne H]%lookup_delete_Some]. apply not_true_iff_false.
    rewrite <- Hrt. change (recent_has id' l2 <> true). rewrite recent_has_spec.
    rewrite Hrt, map_app, elem_of_app. cbn. rewrite list_elem_of_singleton, Hid.
    intros [H'| ->]; [|done]. apply trimmed_ids in H'. change (recent_has id' l = true) in H'.
    rewrite lo_once0 in H'; [done|eauto].
Qed.

(** *** Batches that change hands *)

Lemma owners_ok_insert batch_of m owner id r :
  owners_ok batch_of m owner -> m !! id = None -> is_owned (batch_of r) owner = false ->
  owners_ok batch_of (<[id := r]> m) (insert_owner (batch_of r) id owner).
Proof.
  intros H E Ho. assert (Hn : forall b, owner !! b <> Some id).
  { intros b (r' & E' & _)%H. congruence. }
  intros b id'. destruct (decide (id' = id)) as [->|Hne].
  - rewrite lookup_insert_eq. unfold insert_owner. destruct (batch_of r) as [c|] eqn:Ec.
    + rewrite lookup_insert_Some. split.
      * intros [[-> _]|[_ H']]; [by eexists|by apply Hn in H'].
      * intros (? & [= <-] & Hb). left. split; congruence.
    + split; [by intros ?%Hn|]. intros (? & [= <-] & Hb). congruence.
  - rewrite lookup_insert_ne by done. rewrite <- (H b id'). unfold insert_owner.
    unfold is_owned in Ho. destruct (batch_of r) as [c|]; [|done]. case_bool_decide as Hc; [done|].
    rewrite lookup_insert_Some. split; [by intros [[_ ?]|[_ ?]]|]. intros Hb. right. split; [|done].
    intros ->. eauto.
Qed.
Lemma owners_ok_take batch_of m owner id r r' b :
  owners_ok batch_of m owner -> m !! id = Some r -> batch_of r = None -> batch_of r' = Some b ->
  owner !! b = None -> owners_ok batch_of (<[id := r']> m) (<[b := id]> owner).
Proof.
  intros H E Hr Hr' Hb. rewrite <- insert_delete_eq.
  change (<[b:=id]> owner) with (insert_owner (Some b) id owner). rewrite <- Hr'.
  apply owners_ok_insert; [|apply lookup_delete_eq|].
  - pose proof (owners_ok_release _ _ _ _ _ H E) as H'. by rewrite Hr in H'.
  - rewrite Hr'. cbn. rewrite Hb. apply bool_decide_eq_false. by intros [? ?].
Qed.
Lemma owners_ok_drop batch_of m owner id r r' b :
  owners_ok batch_of m owner -> m !! id = Some r -> batch_of r = Some b -> batch_of r' = None ->
  owners_ok batch_of (<[id := r']> m) (delete b owner).
Proof.
  intros H E Hr Hr'. rewrite <- insert_delete_eq.
  change (delete b owner) with (insert_owner None id (delete b owner)). rewrite <- Hr'.
  apply owners_ok_insert; [|apply lookup_delete_eq|by rewrite Hr'].
  pose proof (owners_ok_release _ _ _ _ _ H E) as H'. rewrite Hr in H'. cbn in H'.
  rewrite decide_True in H'; [done|]. apply H. eauto.
Qed.

Lemma ok_feedback l id r d feedbacks :
  ledger_ok l -> active l !! id = Some r -> ot_id d = ot_id (descriptor r) ->
  frame_batch_id (ot_obligations d) = frame_of r ->
  owners_ok feedback_of (<[id := mkRecord d (state r)]> (active l)) feedbacks ->
  ledger_ok (set_owners (obligation_owner l) feedbacks (put id (mkRecord d (state r)) l)).
Proof.
  intros Hl E Hid Hf Ho.
  pose proof (settling_count_put _ id r (mkRecord d (state r)) E) as Hn.
  pose proof (lo_id _ Hl _ _ E). destruct Hl. split; cbn; try done.
  - intros id' r'' [[-> <-]|[? H']]%lookup_insert_Some; [cbn; congruence|eauto].
  - intros id' r'' [[-> <-]|[? H']]%lookup_insert_Some; cbn; eauto.
  - by apply owners_ok_put with r.
  - rewrite lo_settling0. unfold is_settling in Hn. cbn in Hn. lia.
  - by rewrite map_size_insert_Some.
  - intros id' [->|H']%lookup_insert_is_Some'; apply lo_once0; eauto.
Qed.
Lemma ok_insert l d :
  ledger_ok l -> active l !! ot_id d = None -> recent_has (ot_id d) l = false ->
  (size (active l) < lg_active_capacity l)%nat ->
  is_owned (frame_batch_id (ot_obligations d)) (obligation_owner l) = false ->
  is_owned (presentation_feedback_batch_id (ot_obligations d)) (presentation_feedback_owner l) = false ->
  ledger_ok
    (put (ot_id d) (mkRecord d Built)
       (set_owners (insert_owner (frame_batch_id (ot_obligations d)) (ot_id d) (obligation_owner l))
          (insert_owner (presentation_feedback_batch_id (ot_obligations d)) (ot_id d)
             (presentation_feedback_owner l)) l)).
Proof.
  intros [] E Hr Hc Hf Hp. split; cbn; try done.
  - intros id' r'' [[<- <-]|[? H']]%lookup_insert_Some; cbn; eauto.
  - intros id' r'' [[<- <-]|[? H']]%lookup_insert_Some; cbn; eauto.
  - by apply (owners_ok_insert frame_of _ _ _ (mkRecord d Built)).
  - by apply (owners_ok_insert feedback_of _ _ _ (mkRecord d Built)).
  - rewrite settling_count_insert by done. done.
  - rewrite map_size_insert_None by done. lia.
  - intros id' [<-|H']%lookup_insert_is_Some'; [done|by apply lo_once0].
Qed.

(** ** The states of a ledger *)

(** The state of each transaction; [None] is one the ledger does not hold. *)
Abbreviation States := (OutputTransactionId -> option OutputTransactionState).
Definition state_of (l : OutputTransactionLedger) : States := fun id => state <$> active l !! id.
Definition move (st : States) (id : OutputTransactionId) (s : option OutputTransactionState) : States :=
  fun id' => if decide (id' = id) then s else st id'.
Definition predecessor_state (p : OutputTransactionQueuedPredecessor) : OutputTransactionState :=
  match p with QueuedFromBuilt => Built | QueuedFromReady ready_at => Ready ready_at end.
(** A ledger in order whose transactions are in the states [st]. *)
Definition course (st : States) (l : OutputTransactionLedger) : Prop :=
  ledger_ok l /\ forall id, state_of l id = st id.

Lemma course_ok st l : course st l -> ledger_ok l.
Proof. by intros [H _]. Qed.
Lemma course_refl l : ledger_ok l -> course (state_of l) l.
Proof. intros. by split. Qed.
Lemma course_at st l id r : course st l -> active l !! id = Some r -> st id = Some (state r).
Proof. intros [_ H] E. rewrite <- H. unfold state_of. by rewrite E. Qed.
Lemma course_same st l l' :
  course st l -> ledger_ok l' -> (forall id, state_of l' id = state_of l id) -> course st l'.
Proof. intros [_ H] Hl' Hs. split; [done|]. intros id. by rewrite Hs. Qed.
Lemma course_step st l l' id s :
  course st l -> ledger_ok l' -> state_of l' id = s ->
  (forall id', id' <> id -> state_of l' id' = state_of l id') -> course (move st id s) l'.
Proof.
  intros [_ H] Hl' Hs Hr. split; [done|]. intros id'. unfold move. case_decide as Hid.
  - by subst.
  - by rewrite Hr.
Qed.
Lemma course_counter st l c f : course st l -> c <> CActiveSettling -> course st (set_counter c f l).
Proof. intros F Hc. apply (course_same _ l); [done| |done]. apply ok_counter; [by eapply course_ok|done]. Qed.
Lemma course_bump st l c : course st l -> c <> CActiveSettling -> course st (bump c l).
Proof. apply course_counter. Qed.
Lemma course_bump_if st l c : course st l -> c <> Some CActiveSettling -> course st (bump_if c l).
Proof. destruct c; cbn; intros; [apply course_bump; [done|congruence]|done]. Qed.
Lemma course_put_state st l id r s :
  course st l -> active l !! id = Some r -> is_final (state r) = false -> is_final s = false ->
  course (move st id (Some s)) (put id (with_state r s) l).
Proof.
  intros F E H1 H2. apply (course_step _ l _ id); [done| | |].
  - apply ok_put_state; [by eapply course_ok|done..].
  - unfold state_of. by rewrite put_lookup.
  - intros id' Hne. unfold state_of. cbn. by rewrite lookup_insert_ne.
Qed.
(** A descriptor rewritten with the same obligations. *)
Lemma course_put_descriptor st l id r d :
  course st l -> active l !! id = Some r -> ot_id d = ot_id (descriptor r) ->
  ot_obligations d = ot_obligations (descriptor r) ->
  course st (put id (mkRecord d (state r)) l).
Proof.
  intros F E Hid Ho. apply (course_same _ l); [done| |].
  - destruct F as [F _]. apply (ok_put l id r); unfold frame_of, feedback_of; cbn; try done.
    + rewrite Hid. by eapply lo_id.
    + by rewrite Ho.
    + by rewrite Ho.
    + by eapply lo_live.
  - intros id'. unfold state_of. cbn. destruct (decide (id' = id)) as [->|Hne].
    + by rewrite E, lookup_insert_eq.
    + by rewrite lookup_insert_ne.
Qed.

(** ** Operations as transformers *)

(** [wp R m Q l]: run from [l], [m] neither panics nor runs out of fuel, an
    error leaves a ledger of [R], and a result satisfies [Q]. *)
Definition wp {A} (R : OutputTransactionLedger -> Prop) (m : L A)
  (Q : A -> OutputTransactionLedger -> Prop) (l : OutputTransactionLedger) : Prop :=
  match m l with
  | (l', Ret a) => Q a l'
  | (l', Fail _) => R l'
  | _ => False
  end.
Lemma wp_bind {A B} R (m : L A) (k : A -> L B) Q l :
  wp R m (fun a => wp R (k a) Q) l -> wp R (m ≫= k) Q l.
Proof. unfold wp, mbind, SM_bind. by destruct (m l) as [l' []]. Qed.
Lemma wp_mono {A} (R R' : OutputTransactionLedger -> Prop) (m : L A)
  (Q Q' : A -> OutputTransactionLedger -> Prop) l :
  (forall l', R l' -> R' l') -> (forall a l', Q a l' -> Q' a l') -> wp R m Q l -> wp R' m Q' l.
Proof. unfold wp. destruct (m l) as [l' []]; eauto. Qed.
Lemma wp_post {A} R (m : L A) (Q Q' : A -> OutputTransactionLedger -> Prop) l :
  (forall a l', Q a l' -> Q' a l') -> wp R m Q l -> wp R m Q' l.
Proof. by apply wp_mono. Qed.
Lemma wp_get {B} R (k : OutputTransactionLedger -> L B) Q l :
  wp R (k l) Q l -> wp R (sm_get ≫= k) Q l.
Proof. done. Qed.
Lemma wp_modify R f (Q : unit -> OutputTransactionLedger -> Prop) l :
  Q tt (f l) -> wp R (sm_modify f) Q l.
Proof. done. Qed.
Lemma wp_ret {A} R (a : A) (Q : A -> OutputTransactionLedger -> Prop) l :
  Q a l -> wp R (mret a) Q l.
Proof. done. Qed.
Lemma wp_step {A B} R (m : L A) (k : A -> L B) Q l l1 a :
  m l = (l1, Ret a) -> wp R (k a) Q l1 -> wp R (m ≫= k) Q l.
Proof. intros E H. apply wp_bind. unfold wp at 1. by rewrite E. Qed.
Lemma wp_lift {A B} (R : OutputTransactionLedger -> Prop) (m : res OutputTransactionError A)
  (k : A -> L B) Q l :
  match m with Ret a => wp R (k a) Q l | Fail _ => R l | _ => False end ->
  wp R (sm_lift m ≫= k) Q l.
Proof. intros H. apply wp_bind. unfold wp, sm_lift. by destruct m. Qed.
Lemma wp_fail {A} (R : OutputTransactionLedger -> Prop) e (Q : A -> _ -> Prop) l :
  R l -> wp R (fail e) Q l.
Proof. done. Qed.
Lemma wp_invalid {A} st s k (Q : A -> _ -> Prop) l :
  course st l -> wp (course st) (invalid_transition s k) Q l.
Proof. intros F. by apply course_bump. Qed.
Lemma wp_reject {A} st e (Q : A -> _ -> Prop) l :
  course st l -> wp (course st) (reject_terminal e) Q l.
Proof. intros F. by apply course_bump. Qed.
Lemma wp_reject_invalid {A} st s k (Q : A -> _ -> Prop) l :
  course st l -> wp (course st) (reject_invalid_transition s k) Q l.
Proof. intros F. apply wp_bind, wp_modify, wp_reject. by apply course_bump. Qed.
(** Reading the state of a transaction. *)
Lemma wp_get_state {B} st id (k : OutputTransactionState -> L B) Q l :
  course st l ->
  (forall r, active l !! id = Some r -> st id = Some (state r) -> wp (course st) (k (state r)) Q l) ->
  wp (course st) (get_state id ≫= k) Q l.
Proof.
  intros F H. destruct (active l !! id) as [r|] eqn:E.
  - eapply wp_step; [by apply get_state_Some|]. apply H; [done|by eapply course_at].
  - apply wp_bind. unfold wp. by rewrite get_state_None.
Qed.
Create HintDb ledger discriminated.
#[export] Hint Resolve wp_fail wp_invalid wp_reject wp_reject_invalid course_bump course_refl : ledger.

(** An operation that leaves every state as it is, and one that, when it is
    not refused, moves one transaction from a state of [P] to [s]. *)
Abbreviation keeps_course st m := (wp (course st) m (fun _ l => course st l)).
Definition moved (st : States) (id : OutputTransactionId) (P : option OutputTransactionState -> Prop)
  (s : option OutputTransactionState) (l : OutputTransactionLedger) : Prop :=
  P (st id) /\ course (move st id s) l.
Abbreviation moves_course st m id P s := (wp (course st) m (fun _ l => moved st id P s l)).

Lemma insert_sound st d l :
  course st l ->
  is_owned (presentation_feedback_batch_id (ot_obligations d)) (presentation_feedback_owner l) = false ->
  moves_course st (insert d) (ot_id d) (eq None) (Some Built) l.
Proof.
  intros F Hp. unfold insert. apply wp_get.
  destruct (negb _); [by apply wp_fail|].
  case_bool_decide as Ha; [by apply wp_fail|]. cbn [orb].
  destruct (recent_has _ l) eqn:Hr; [by apply wp_fail|].
  destruct (Nat.leb_spec (lg_active_capacity l) (size (active l))) as [|Hc]; [by apply wp_fail|].
  destruct (is_owned _ (obligation_owner l)) eqn:Ho.
  { apply wp_bind, wp_modify, wp_fail. by apply course_bump. }
  apply wp_bind, wp_modify. rewrite Hp.
  apply wp_bind, wp_modify, wp_bind, wp_modify, wp_bind, wp_modify, wp_bind, wp_modify, wp_modify.
  rewrite <- eq_None_not_Some in Ha. split.
  { destruct F as [_ F]. rewrite <- F. unfold state_of. by rewrite Ha. }
  apply course_counter; [|done]. apply course_bump_if; [|by destruct (ot_content d)].
  apply course_bump; [|done].
  apply (course_step _ l _ (ot_id d)); [done| | |].
  - exact (ok_insert l d (course_ok _ _ F) Ha Hr Hc Ho Hp).
  - unfold state_of. cbn. by rewrite lookup_insert_eq.
  - intros id' Hne. unfold state_of. cbn. by rewrite lookup_insert_ne.
Qed.

(** The states of the records do not change. *)
Lemma state_of_put_same id r d l id' :
  active l !! id = Some r -> state_of (put id (mkRecord d (state r)) l) id' = state_of l id'.
Proof.
  intros E. unfold state_of. cbn. destruct (decide (id' = id)) as [->|Hne].
  - by rewrite E, lookup_insert_eq.
  - by rewrite lookup_insert_ne.
Qed.
Lemma with_feedback_Ret batch t d :
  build_err (with_presentation_feedback_batch batch t) = Ret d ->
  ot_id d = ot_id t /\ frame_batch_id (ot_obligations d) = frame_batch_id (ot_obligations t) /\
  presentation_feedback_batch_id (ot_obligations d) = Some batch.
Proof. unfold with_presentation_feedback_batch. by destruct (ot_content t); intros [= <-]. Qed.
Lemma with_feedback_total batch t :
  (exists d, build_err (with_presentation_feedback_batch batch t) = Ret d) \/
  (exists e, build_err (with_presentation_feedback_batch batch t) = Fail e).
Proof. unfold with_presentation_feedback_batch. destruct (ot_content t); cbn; eauto. Qed.

Lemma attach_sound st id batch l :
  course st l ->
  (forall r, active l !! id = Some r -> feedback_of r = None) ->
  keeps_course st (attach_presentation_feedback_batch id batch) l.
Proof.
  intros F Hfree. unfold attach_presentation_feedback_batch. apply wp_get_state; [done|]. intros r E Hst.
  destruct (negb _); [by apply wp_invalid|]. apply wp_get.
  destruct (is_owned _ _) eqn:Ho.
  { apply wp_bind, wp_modify, wp_fail. by apply course_bump. }
  eapply wp_step; [by apply expect_record_Some|]. apply wp_lift.
  destruct (with_feedback_total batch (descriptor r)) as [[d Ed]|[e Ed]]; rewrite Ed; [|done].
  apply with_feedback_Ret in Ed as (Hid & Hf & Hb).
  eapply wp_step; [by apply update_record_Some|]. apply wp_modify.
  apply (course_same _ l); [done| |].
  - refine (ok_feedback l id r d (<[batch := id]> (presentation_feedback_owner l))
              (course_ok _ _ F) E Hid Hf _).
    eapply owners_ok_take; [|done|by apply Hfree|done|].
    + eapply lo_feedbacks, course_ok, F.
    + cbn in Ho. case_bool_decide as H; [done|]. by apply eq_None_not_Some.
  - intros id'. exact (state_of_put_same id r d l id' E).
Qed.
Lemma detach_sound st id l :
  course st l -> keeps_course st (detach_presentation_feedback_batch id) l.
Proof.
  intros F. unfold detach_presentation_feedback_batch. apply wp_get_state; [done|]. intros r E Hst.
  destruct (negb _); [by apply wp_invalid|]. eapply wp_step; [by apply expect_record_Some|].
  destruct (presentation_feedback_batch_id _) as [batch|] eqn:Hb; [|done].
  eapply wp_step; [by apply update_record_Some|]. apply wp_bind, wp_modify, wp_ret.
  apply (course_same _ l); [done| |].
  - refine (ok_feedback l id r (without_presentation_feedback_batch (descriptor r)) 
              (delete batch (presentation_feedback_owner l)) (course_ok _ _ F) E eq_refl eq_refl _).
    eapply owners_ok_drop; [|done|exact Hb|done]. eapply lo_feedbacks, course_ok, F.
  - intros id'. exact (state_of_put_same id r _ l id' E).
Qed.
Lemma transfer_sound st from to l :
  course st l -> keeps_course st (transfer_presentation_feedback_batch from to) l.
Proof.
  intros F. unfold transfer_presentation_feedback_batch.
  apply wp_get_state; [done|]. intros r E Hst. apply wp_get_state; [done|]. intros r' E' Hst'.
  destruct (negb _); [by apply wp_invalid|]. destruct (negb _); [by apply wp_invalid|].
  eapply wp_step; [by apply expect_record_Some|]. eapply wp_step; [by apply expect_record_Some|].
  destruct (negb _); [by apply wp_fail|].
  destruct (presentation_feedback_batch_id (ot_obligations (descriptor r))) as [batch|] eqn:Hb; [|done].
  destruct (presentation_feedback_batch_id (ot_obligations (descriptor r'))) as [b|] eqn:Hb'.
  { apply wp_bind, wp_modify, wp_fail. by apply course_bump. }
  assert (Hne : from <> to) by congruence. apply wp_lift.
  destruct (with_feedback_total batch (descriptor r')) as [[d Ed]|[e Ed]]; rewrite Ed; [|done].
  apply with_feedback_Ret in Ed as (Hid & Hf & Hd).
  pose proof (course_ok _ _ F) as Hl.
  pose proof (owners_ok_drop _ _ _ _ _ (mkRecord (without_presentation_feedback_batch (descriptor r))
                (state r)) _ (lo_feedbacks _ Hl) E Hb eq_refl) as Hdrop.
  pose proof (ok_feedback l from r (without_presentation_feedback_batch (descriptor r)) _
                Hl E eq_refl eq_refl Hdrop) as Hl1.
  set (l1 := set_owners _ _ _) in Hl1.
  assert (E1 : active l1 !! to = Some r') by (cbn; by rewrite lookup_insert_ne).
  eapply wp_step; [by apply update_record_Some|].
  eapply wp_step; [apply update_record_Some; exact E1|]. apply wp_bind, wp_modify, wp_ret.
  apply (course_same _ l); [done| |].
  - pose proof (ok_feedback l1 to r' d (<[batch := to]> (delete batch (presentation_feedback_owner l)))
                  Hl1 E1 Hid Hf) as H.
    rewrite insert_delete_eq in H. apply H.
    rewrite <- (insert_delete_eq (presentation_feedback_owner l) batch to).
    eapply owners_ok_take; [exact (lo_feedbacks _ Hl1)|done|exact Hb'|exact Hd|apply lookup_delete_eq].
  - intros id'. transitivity (state_of l1 id').
    + exact (state_of_put_same to r' d l1 id' E1).
    + exact (state_of_put_same from r _ l id' E).
Qed.

(** *** Transitions before submission *)

Lemma mark_ready_sound st id at_ns l : course st l -> 
  moves_course st (mark_ready id at_ns) id (eq (Some Built)) (Some (Ready at_ns)) l.
Proof.
  intros F. unfold mark_ready. apply wp_get_state; [done|]. intros r E Hst.
  destruct (state r) eqn:Es; try by apply wp_invalid.
  eapply wp_step; [by apply transition_Some|]. apply wp_modify. split; [done|].
  apply course_bump; [|done]. by apply course_put_state; rewrite ?Es.
Qed.
Lemma mark_ready_unbound_sound st id at_ns l :
  course st l -> 
  moves_course st (mark_ready_unbound id at_ns) id (eq (Some Built)) (Some (ReadyUnbound at_ns)) l.
Proof.
  intros F. unfold mark_ready_unbound. apply wp_get_state; [done|]. intros r E Hst.
  destruct (state r) eqn:Es; try by apply wp_invalid.
  eapply wp_step; [by apply transition_Some|]. apply wp_modify. split; [done|].
  apply course_bump; [|done]. by apply course_put_state; rewrite ?Es.
Qed.

Lemma bind_Ret_same claim at_ns t d :
  transaction_bind_deferred_o1 claim at_ns t = Ret d ->
  ot_id d = ot_id t /\ ot_obligations d = ot_obligations t.
Proof.
  unfold transaction_bind_deferred_o1. destruct (ot_reservation t); try done.
  repeat (destruct (negb _); [done|]). by intros [= <-].
Qed.
Lemma bind_total claim at_ns t :
  (exists d, transaction_bind_deferred_o1 claim at_ns t = Ret d) \/
  (exists e, transaction_bind_deferred_o1 claim at_ns t = Fail e).
Proof.
  unfold transaction_bind_deferred_o1. destruct (ot_reservation t); eauto.
  repeat (destruct (negb _); [by eauto|]). eauto.
Qed.
(** What a prepared binding was prepared from. *)
Definition binding_of (l : OutputTransactionLedger) (p : PreparedDeferredO1TransactionBinding) : Prop :=
  exists r, active l !! pb_transaction_id p = Some r /\
            state r = ReadyUnbound (pb_expected_ready_at p) /\
            ot_id (pb_bound_descriptor p) = ot_id (descriptor r) /\
            ot_obligations (pb_bound_descriptor p) = ot_obligations (descriptor r).
Lemma prepare_binding_sound st id target l :
  course st l ->
  wp (course st) (prepare_deferred_o1_binding id target)
    (fun p l' => l' = l /\ binding_of l p /\ pb_transaction_id p = id /\
                 pb_bound_ready_at p = pt_render_start_deadline target) l.
Proof.
  intros F. unfold prepare_deferred_o1_binding. apply wp_get_state; [done|]. intros r E Hst.
  destruct (state r) eqn:Es; try by apply wp_invalid.
  eapply wp_step; [by apply expect_record_Some|]. apply wp_lift.
  destruct (bind_total (pt_physical_claim target) (pt_submit_not_before target) (descriptor r))
    as [[d Ed]|[e Ed]]; rewrite Ed; [|done].
  split; [done|]. apply bind_Ret_same in Ed as [? ?]. split; [by exists r|done].
Qed.
Lemma commit_binding_sound st p l :
  course st l -> binding_of l p ->
  moves_course st (commit_prepared_deferred_o1_binding p) (pb_transaction_id p)
    (fun s => exists at_ns, s = Some (ReadyUnbound at_ns)) (Some (Ready (pb_bound_ready_at p))) l.
Proof.
  intros F (r & E & Es & Hid & Ho). unfold wp, commit_prepared_deferred_o1_binding.
  rewrite (update_record_Some _ _ _ _ E).
  split; [exists (pb_expected_ready_at p); rewrite (course_at _ _ _ _ F E); congruence|].
  apply (course_step _ l _ (pb_transaction_id p)); [done| | |].
  - pose proof (course_ok _ _ F) as Hl.
    apply (ok_put l _ r); unfold frame_of, feedback_of, is_settling; cbn; rewrite ?Ho, ?Es; try done.
    rewrite Hid. by eapply lo_id.
  - unfold state_of. by rewrite put_lookup.
  - intros id' Hne. unfold state_of. cbn. by rewrite lookup_insert_ne.
Qed.
Lemma bind_deferred_o1_sound st id target l :
  course st l ->
  moves_course st (bind_deferred_o1 id target) id (fun s => exists at_ns, s = Some (ReadyUnbound at_ns))
    (Some (Ready (pt_render_start_deadline target))) l.
Proof.
  intros F. apply wp_bind. eapply wp_post; [|by apply prepare_binding_sound].
  cbn. intros p l' (-> & Hp & <- & <-). by apply commit_binding_sound.
Qed.

Lemma mark_queued_sound st id generation at_ns l :
  course st l ->
  wp (course st) (mark_queued id generation at_ns) (fun _ l' =>
    exists p, moved st id (eq (Some (predecessor_state p))) (Some (Queued at_ns generation p)) l') l.
Proof.
  intros F. unfold mark_queued. apply wp_get_state; [done|]. intros r E Hst.
  assert (H : forall p, state r = predecessor_state p -> moves_course st
    (_ ← transition id (Queued at_ns generation p);
     _ ← sm_modify (bump CQueued);
     note_path_counter id (fun content => bump (queued_path content))) id
    (eq (Some (predecessor_state p))) (Some (Queued at_ns generation p)) l).
  { intros p Hp. eapply wp_step; [by apply transition_Some|]. apply wp_bind, wp_modify.
    unfold wp. rewrite (note_path_counter_Some _ _ (with_state r (Queued at_ns generation p)))
      by apply lookup_insert_eq.
    split; [congruence|].
    apply course_bump; [|by destruct (ot_content _)]. apply course_bump; [|done].
    apply course_put_state; try done; rewrite Hp; by destruct p. }
  destruct (state r) as [|ready_at| | | | |] eqn:Es; try by apply wp_invalid.
  - eapply wp_post; [|by apply (H QueuedFromBuilt)]. intros [] l' Hm. by exists QueuedFromBuilt.
  - eapply wp_post; [|by apply (H (QueuedFromReady ready_at))].
    intros [] l' Hm. by exists (QueuedFromReady ready_at).
Qed.
Lemma rollback_queued_sound st id l :
  course st l ->
  wp (course st) (rollback_queued id) (fun _ l' =>
    exists at_ns generation p, moved st id (eq (Some (Queued at_ns generation p)))
      (Some (predecessor_state p)) l') l.
Proof.
  intros F. unfold rollback_queued. apply wp_get_state; [done|]. intros r E Hst.
  destruct (state r) as [| | |at_ns generation p| | |] eqn:Es; try by apply wp_invalid.
  eapply wp_step; [by apply expect_record_Some|].
  eapply wp_step; [by apply update_record_Some|]. apply wp_bind, wp_modify, wp_modify.
  exists at_ns, generation, p. split; [done|].
  apply course_counter; [|by destruct (ot_content _)]. apply course_counter; [|done].
  apply (course_put_state _ _ _ _ (predecessor_state p)); try done; rewrite ?Es; try done.
  by destruct p.
Qed.
Lemma mark_submitted_sound st id token at_ns l :
  course st l ->
  moves_course st (mark_submitted id token at_ns) id
    (fun s => exists s', s = Some s' /\ is_before_submit s' = true) (Some (Submitted token at_ns)) l.
Proof.
  intros F. unfold mark_submitted. apply wp_get_state; [done|]. intros r E Hst.
  destruct (is_before_submit (state r)) eqn:Hs; [|by apply wp_invalid]. cbn [negb].
  apply wp_bind.
  assert (H : forall l', course st l' -> active l' = active l -> moves_course st
    (_ ← transition id (Submitted token at_ns);
     _ ← sm_modify (bump CSubmitted);
     note_path_counter id (fun content => bump_if (submitted_path content))) id
    (fun s => exists s', s = Some s' /\ is_before_submit s' = true) (Some (Submitted token at_ns)) l').
  { intros l' F' Ha. rewrite <- Ha in E. eapply wp_step; [by apply transition_Some|].
    apply wp_bind, wp_modify. unfold wp.
    rewrite (note_path_counter_Some _ _ (with_state r (Submitted token at_ns)))
      by apply lookup_insert_eq.
    split; [by exists (state r)|].
    apply course_bump_if; [|by destruct (ot_content _)]. apply course_bump; [|done].
    apply course_put_state; try done. by destruct (state r). }
  destruct (state r) eqn:Es; try done; try by (apply wp_ret, H).
  apply wp_modify, H; [|done]. repeat (apply course_counter; [|done]). done.
Qed.

(** *** Endings *)

(** A transition that was accepted and is not yet settled. *)
Definition settling_as (accepted : AcceptedTerminalTransition) (l : OutputTransactionLedger) : Prop :=
  is_final (ac_prior_state accepted) = false /\
  exists r, active l !! ac_transaction_id accepted = Some r /\ state r = Settling (ac_terminal accepted).

Lemma course_accept st l id r t :
  course st l -> active l !! id = Some r -> is_final (state r) = false ->
  course (move st id (Some (Settling t))) (bump CActiveSettling (put id (with_state r (Settling t)) l)).
Proof.
  intros F E Ha. apply (course_step _ l _ id); [done| | |].
  - apply ok_put_settling; [by eapply course_ok|done|done].
  - unfold state_of. cbn. by rewrite lookup_insert_eq.
  - intros id' Hne. unfold state_of. cbn. by rewrite lookup_insert_ne.
Qed.
(** What an acceptance leaves: the token remembers the live state, one of
    [P], that the transaction was in. *)
Definition accepted_from (st : States) (id : OutputTransactionId) (t : OutputTransactionTerminal)
  (P : OutputTransactionState -> Prop) (a : AcceptedTerminalTransition)
  (l : OutputTransactionLedger) : Prop :=
  ac_transaction_id a = id /\ ac_terminal a = t /\ is_final (ac_prior_state a) = false /\
  P (ac_prior_state a) /\ st id = Some (ac_prior_state a) /\
  course (move st id (Some (Settling t))) l.
(** In an ordered ledger an accepted ending is recorded. *)
Lemma accept_state_Some id t r l :
  ledger_ok l -> active l !! id = Some r -> is_final (state r) = false ->
  accept_state id t l
  = (bump CActiveSettling (bump CTerminalAccepted (put id (with_state r (Settling t)) l)),
     Ret (mkAccepted id (ot_obligations (descriptor r)) (state r) t)).
Proof.
  intros Hl E Hs. unfold accept_state. rewrite SM_get_step, E, Hs.
  destruct (match frame_batch_id _ with Some _ => _ | None => _ end) eqn:Ho.
  { exfalso. destruct (frame_batch_id _) as [b|] eqn:Hb; [|done]. case_bool_decide as H; [done|].
    apply H, (lo_frames _ Hl). eauto. }
  unfold set_state. rewrite (SM_bind_step _ _ _ _ _ (update_record_Some _ _ _ _ E)). sm_run. done.
Qed.
Lemma accept_state_sound st id t (P : OutputTransactionState -> Prop) l :
  course st l -> (forall r, active l !! id = Some r -> is_final (state r) = false -> P (state r)) ->
  wp (course st) (accept_state id t) (accepted_from st id t P) l.
Proof.
  intros F Ha. destruct (active l !! id) as [r|] eqn:E.
  - destruct (is_final (state r)) eqn:Hs.
    + unfold accept_state. apply wp_get. rewrite E, Hs. apply wp_bind, wp_modify, wp_reject_invalid.
      destruct (is_presented_terminal t); [by apply course_bump|done].
    + unfold wp. rewrite (accept_state_Some _ _ r) by (done || by eapply course_ok).
      unfold accepted_from. cbn [ac_transaction_id ac_terminal ac_prior_state].
      split_and!; [done|done|done|by apply Ha|by eapply course_at|].
      change (course (move st id (Some (Settling t)))
                (bump CActiveSettling (put id (with_state r (Settling t)) (bump CTerminalAccepted l)))).
      by apply course_accept; [apply course_bump|..].
  - unfold accept_state. apply wp_get. rewrite E.
    destruct (List.find _ _) as [r|]; [|by apply wp_reject].
    apply wp_bind, wp_modify, wp_reject_invalid.
    destruct (is_presented_terminal t); [by apply course_bump|done].
Qed.

Abbreviation accepts_course st m id t P := (wp (course st) m (accepted_from st id t P)).
Lemma accept_presented_sound st id token generation at_ns sequence l :
  course st l ->
  accepts_course st (accept_presented id token generation at_ns sequence) id (Presented at_ns sequence)
    (fun s => exists submitted_at, s = Submitted token submitted_at) l.
Proof.
  intros F. unfold accept_presented. apply wp_get. destruct (active l !! id) as [r|] eqn:E.
  - destruct (negb _); [by apply wp_reject|].
    destruct (state r) eqn:Es; try by apply wp_reject_invalid.
    destruct (Z.eqb_spec token0 token) as [->|]; [|by apply wp_reject].
    apply accept_state_sound; [done|].
    intros r' E' _. rewrite E in E'. injection E' as <-. by exists submitted_at.
  - destruct (recent_has id l); [|by apply wp_reject].
    apply wp_bind, wp_modify, wp_reject. by apply course_bump.
Qed.
Lemma accept_immediate_sound st id at_ns l :
  course st l ->
  accepts_course st (accept_immediate_presented id at_ns) id (Presented at_ns None)
    (eq Built) l.
Proof.
  intros F. unfold accept_immediate_presented. apply wp_get.
  destruct (active l !! id) as [r|] eqn:E; [|by apply wp_reject].
  case_bool_decide as Es; [|by apply wp_reject_invalid]. cbn [andb].
  destruct (is_immediate _); [|by apply wp_reject_invalid]. apply wp_bind.
  eapply wp_post; [|apply accept_state_sound; [done|]].
  - cbn. intros a l' (? & ? & ? & ? & ? & F'). apply wp_bind, wp_modify, wp_ret.
    split_and!; try done. by apply course_bump.
  - intros r' E' _. rewrite E in E'. injection E' as <-. by rewrite Es.
Qed.
Lemma accept_no_visual_change_sound st id at_ns l :
  course st l ->
  accepts_course st (accept_no_visual_change id at_ns) id (Dropped DropNoVisualChange at_ns)
    (fun s => is_built_or_ready s = true) l.
Proof.
  intros F. unfold accept_no_visual_change. apply wp_get_state; [done|]. intros r E Hst.
  destruct (is_built_or_ready (state r)) eqn:Es; [|by apply wp_reject_invalid].
  apply accept_state_sound; [done|]. intros r' E' _. rewrite E in E'. injection E' as <-.
  done.
Qed.
Lemma accept_dropped_sound st id reason at_ns l :
  course st l ->
  accepts_course st (accept_dropped id reason at_ns) id (Dropped reason at_ns)
    (fun s => is_submitted s && negb (drops_submitted reason) = false) l.
Proof.
  intros F. unfold accept_dropped. apply wp_get_state; [done|]. intros r E Hst.
  destruct (_ && _) eqn:Es; [by apply wp_reject_invalid|].
  apply accept_state_sound; [done|]. intros r' E' Hf. rewrite E in E'. injection E' as <-.
  done.
Qed.
Lemma accept_superseded_sound st id by_id reason at_ns l :
  course st l ->
  accepts_course st (accept_superseded id by_id reason at_ns) id (Superseded by_id reason at_ns)
    (fun s => is_submitted s = false) l.
Proof.
  intros F. unfold accept_superseded. apply wp_get_state; [done|]. intros r E Hst.
  destruct (is_submitted (state r)) eqn:Es; [by apply wp_reject_invalid|].
  apply accept_state_sound; [done|]. intros r' E' Hf. rewrite E in E'. injection E' as <-.
  done.
Qed.
Lemma accept_failed_sound st id stage at_ns l :
  course st l ->
  accepts_course st (accept_failed id stage at_ns) id (Failed stage at_ns)
    (fun s => failure_stage_is_compatible (kind s) stage = true) l.
Proof.
  intros F. unfold accept_failed. apply wp_get_state; [done|]. intros r E Hst.
  destruct (failure_stage_is_compatible (kind (state r)) stage) eqn:Es; cbn [negb].
  - apply accept_state_sound; [done|]. intros r' E' Hf. rewrite E in E'. injection E' as <-.
    done.
  - apply wp_bind, wp_modify, wp_reject. by apply course_bump.
Qed.

Definition noted (id : OutputTransactionId) (prior : option OutputTransactionState)
  (t : OutputTransactionTerminal) (l : OutputTransactionLedger) : OutputTransactionLedger :=
  match physical_terminal_for prior t with
  | Some (NoPageflip reason) =>
      set_history (recent_terminal l)
        (settled_output_terminals l ++ [mkSettled id (NoPageflip reason)]) l
  | _ => l
  end.
Definition settled (id : OutputTransactionId) (prior : option OutputTransactionState)
  (t : OutputTransactionTerminal) (r : OutputTransactionRecord) (l : OutputTransactionLedger)
  : OutputTransactionLedger :=
  foldl (fun l c => bump c l)
    (bump CTerminalFinalized (unbump CActiveSettling (ended id r t (noted id prior t l))))
    (ending_counters t (ot_content (descriptor r))).
Lemma noted_active id prior t l : active (noted id prior t l) = active l.
Proof. unfold noted. by destruct (physical_terminal_for prior t) as [[]|]. Qed.
Lemma ok_noted id prior t l : ledger_ok l -> ledger_ok (noted id prior t l).
Proof. intros []. unfold noted. by destruct (physical_terminal_for prior t) as [[]|]; split. Qed.
Lemma bumps_active cs l : active (foldl (fun l c => bump c l) l cs) = active l.
Proof. revert l. induction cs as [|c cs IH]; intros l; [done|]. cbn. by rewrite IH. Qed.
Lemma ended_active id r t l : active (ended id r t l) = delete id (active l).
Proof. unfold ended. etransitivity; [apply push_history_rest|done]. Qed.
Lemma settled_active id prior t r l : active (settled id prior t r l) = delete id (active l).
Proof.
  unfold settled. rewrite bumps_active. etransitivity; [apply ended_active|]. by rewrite noted_active.
Qed.
Lemma ending_counters_other t content :
  Forall (fun c => c <> CActiveSettling) (ending_counters t content).
Proof. destruct t as [| [] | |], content; repeat constructor; done. Qed.
Lemma ok_settled id prior t r l :
  ledger_ok l -> active l !! id = Some r -> is_settling r = true ->
  ledger_ok (settled id prior t r l).
Proof.
  intros Hl E Hr. apply ok_bumps; [|apply ending_counters_other]. apply ok_bump; [|done].
  apply ok_ended; [by apply ok_noted| |done]. by rewrite noted_active.
Qed.
Lemma finish_committed_Some id prior t r l :
  active l !! id = Some r ->
  finish_settling_committed id prior t l = (settled id prior t r l, Ret tt).
Proof.
  intros E. unfold finish_settling_committed. rewrite SM_modify_step. fold (noted id prior t l).
  rewrite (SM_bind_step _ _ _ (noted id prior t l) r); [done|].
  apply expect_record_Some. by rewrite noted_active.
Qed.
Lemma finish_committed_sound st id prior t r t' l :
  course st l -> active l !! id = Some r -> state r = Settling t' ->
  moves_course st (finish_settling_committed id prior t) id (eq (Some (Settling t'))) None l.
Proof.
  intros F E Es. unfold wp. rewrite (finish_committed_Some _ _ _ _ _ E).
  split; [rewrite (course_at _ _ _ _ F E); congruence|].
  apply (course_step _ l _ id); [done| | |]; unfold state_of; rewrite ?settled_active.
  - apply ok_settled; [by eapply course_ok|done|]. unfold is_settling. by rewrite Es.
  - by rewrite lookup_delete_eq.
  - intros id' Hne. by rewrite lookup_delete_ne.
Qed.
Lemma finish_inner_sound st id prior t v l :
  course st l ->
  moves_course st (finish_settling_inner id prior t v) id (eq (Some (Settling t))) None l.
Proof.
  intros F. unfold finish_settling_inner. apply wp_get.
  destruct (active l !! id) as [r|] eqn:E; [|by apply wp_reject].
  case_bool_decide as Es; cbn [negb]; [|by apply wp_reject_invalid].
  destruct (v && _); [by apply wp_reject|]. destruct (v && _); [by apply wp_reject|].
  by eapply finish_committed_sound.
Qed.
Lemma finalize_sound st a l :
  course st l ->
  moves_course st (finalize_terminal a) (ac_transaction_id a)
    (eq (Some (Settling (ac_terminal a)))) None l.
Proof.
  intros F. unfold finalize_terminal. apply wp_get.
  destruct (active l !! _) as [r|] eqn:E; [|by apply wp_reject].
  destruct (decide _); [by apply finish_inner_sound|by apply wp_reject_invalid].
Qed.
Lemma commit_prepared_sound st a l :
  course st l -> settling_as a l ->
  moves_course st (commit_prepared_terminal a) (ac_transaction_id a)
    (eq (Some (Settling (ac_terminal a)))) None l.
Proof.
  intros F (_ & r & E & Es). unfold commit_prepared_terminal.
  eapply wp_step; [by apply expect_record_Some|]. by eapply finish_committed_sound.
Qed.
(** Without the owner check the settlement of a settling transaction is not
    refused. *)
Lemma finish_inner_Some id prior t r l :
  active l !! id = Some r -> state r = Settling t ->
  finish_settling_inner id prior t false l = (settled id prior t r l, Ret tt).
Proof.
  intros E Es. unfold finish_settling_inner. rewrite SM_get_step, E, bool_decide_true by done.
  by apply finish_committed_Some.
Qed.
Lemma fail_settlement_sound st a at_ns l :
  course st l ->
  moves_course st (fail_settlement a at_ns) (ac_transaction_id a)
    (eq (Some (Settling (ac_terminal a)))) None l.
Proof.
  intros F. unfold fail_settlement. apply wp_get.
  destruct (active l !! _) as [r|] eqn:E; [|by apply wp_reject].
  destruct (decide _) as [Es|]; [|by apply wp_reject_invalid]. apply wp_bind, wp_modify.
  set (l1 := bump CSettlementFailures l). assert (F1 : course st l1) by (by apply course_bump).
  set (r1 := with_state r (Settling (Failed ProtocolSettlement at_ns))).
  eapply wp_step; [by apply (update_record_Some (ac_transaction_id a) _ r)|].
  fold (with_state r (Settling (Failed ProtocolSettlement at_ns))). fold r1.
  unfold wp. rewrite (finish_inner_Some _ _ _ r1); [|apply lookup_insert_eq|done].
  split; [rewrite (course_at _ _ _ _ F E); congruence|].
  apply (course_step _ l _ _); [done| | |]; unfold state_of; rewrite ?settled_active.
  - pose proof (course_ok _ _ F1) as Hl1. pose proof (lo_id _ Hl1 _ _ E) as Hid.
    apply ok_settled; [|apply lookup_insert_eq|done].
    apply (ok_put l1 _ r); unfold is_settling; cbn; rewrite ?Es; done.
  - by rewrite lookup_delete_eq.
  - intros id' Hne. cbn. by rewrite lookup_delete_ne, lookup_insert_ne.
Qed.
Lemma rollback_settlement_sound st a l :
  course st l -> is_final (ac_prior_state a) = false ->
  moves_course st (rollback_settlement a) (ac_transaction_id a)
    (eq (Some (Settling (ac_terminal a)))) (Some (ac_prior_state a)) l.
Proof.
  intros F Hs. unfold rollback_settlement. apply wp_get.
  destruct (active l !! _) as [r|] eqn:E; [|by apply wp_reject].
  destruct (decide _) as [Es|]; [|by apply wp_reject_invalid].
  eapply wp_step; [by apply update_record_Some|]. apply wp_modify.
  split; [rewrite (course_at _ _ _ _ F E); congruence|].
  apply (course_step _ l _ (ac_transaction_id a)); [done| | |].
  - apply ok_put_unsettling; [by eapply course_ok|done| |done]. unfold is_settling. by rewrite Es.
  - unfold state_of. cbn. by rewrite lookup_insert_eq.
  - intros id' Hne. unfold state_of. cbn. by rewrite lookup_insert_ne.
Qed.
Lemma foreign_owner_ok batch_of m owner id r :
  owners_ok batch_of m owner -> m !! id = Some r -> foreign_owner (batch_of r) id owner = false.
Proof.
  intros Ho E. unfold foreign_owner. destruct (batch_of r) as [b|] eqn:Eb; [|done].
  rewrite bool_decide_true; [done|]. apply Ho. eauto.
Qed.
Lemma finalize_Some a r l :
  ledger_ok l -> active l !! ac_transaction_id a = Some r -> state r = Settling (ac_terminal a) ->
  finalize_terminal a l
  = (settled (ac_transaction_id a) (Some (ac_prior_state a)) (ac_terminal a) r l, Ret tt).
Proof.
  intros Hl E Es. unfold finalize_terminal. rewrite SM_get_step, E, decide_True by done.
  unfold finish_settling, finish_settling_inner. rewrite SM_get_step, E, bool_decide_true by done.
  cbn [negb andb].
  pose proof (foreign_owner_ok _ _ _ _ _ (lo_frames _ Hl) E) as H1. unfold frame_of in H1. rewrite H1.
  pose proof (foreign_owner_ok _ _ _ _ _ (lo_feedbacks _ Hl) E) as H2. unfold feedback_of in H2. rewrite H2.
  by apply finish_committed_Some.
Qed.
(** Dropping several at once. A refusal leaves those dropped so far out. *)
Definition droppable (reason : OutputTransactionDropReason) (s : OutputTransactionState) : bool :=
  negb (is_final s) && negb (is_submitted s && negb (drops_submitted reason)).
Definition dropped_from (st : States) (reason : OutputTransactionDropReason)
  (ids : list OutputTransactionId) (l : OutputTransactionLedger) : Prop :=
  ledger_ok l /\
  (forall id, id ∉ ids -> state_of l id = st id) /\
  (forall id, state_of l id = st id \/
     (state_of l id = None /\ exists s, st id = Some s /\ droppable reason s = true)).
(** On a ledger in order an acceptance that is not refused is settled. *)
Lemma mark_dropped_sound st id reason at_ns l :
  course st l ->
  wp (course st) (mark_dropped id reason at_ns) (fun _ l' => course (move st id None) l' /\
    exists s, st id = Some s /\ droppable reason s = true) l.
Proof.
  intros F. apply wp_bind. eapply wp_post; [|by apply accept_dropped_sound].
  cbn. intros a l1 (Ha & Ht & Hf & Hd & Hst & F1).
  assert (exists r, active l1 !! id = Some r /\ state r = Settling (ac_terminal a)) as (r & E & Es).
  { destruct F1 as [_ F1]. specialize (F1 id). unfold state_of, move in F1.
    rewrite decide_True in F1 by done. destruct (active l1 !! id) as [r|]; [|done].
    exists r. split; [done|]. cbn in F1. congruence. }
  rewrite <- Ha in E. pose proof (finalize_Some a r l1 (course_ok _ _ F1) E Es) as Ef.
  pose proof (finalize_sound _ a l1 F1) as Hw. unfold wp in *. rewrite Ef in *.
  destruct Hw as [_ F2]. split.
  - destruct F2 as [Hl F2]. split; [done|]. intros id'. rewrite F2. unfold move. rewrite Ha.
    by repeat case_decide.
  - exists (ac_prior_state a). split; [done|]. unfold droppable. by rewrite Hf, Hd.
Qed.
Lemma drop_all_sound st ids reason at_ns l :
  course st l ->
  wp (dropped_from st reason ids) (drop_all ids reason at_ns)
    (fun _ l' => dropped_from st reason ids l' /\ forall id, id ∈ ids -> state_of l' id = None) l.
Proof.
  revert st l. induction ids as [|id ids IH]; intros st l F; cbn [drop_all].
  - apply wp_ret. destruct F as [Hl F]. split; [|set_solver]. split_and!; [done|done|]. intros id. auto.
  - apply wp_bind. eapply wp_mono; [| |by apply mark_dropped_sound].
    + intros l' [Hl' F']. split_and!; [done|intros; apply F'|]. intros id'. left. apply F'.
    + cbn. intros _ l1 [F1 (s & Hs & Hd)]. 
      assert (Hback : forall l', dropped_from (move st id None) reason ids l' ->
        dropped_from st reason (id :: ids) l' /\ state_of l' id = None).
      { intros l' (Hl' & H1 & H2).
        assert (Hid : state_of l' id = None).
        { destruct (H2 id) as [E|[E _]]; [|done]. rewrite E. unfold move. by rewrite decide_True. }
        split; [|done]. split_and!; [done| |].
        - intros id' [Hne Hin]%not_elem_of_cons. rewrite H1 by done. unfold move. by rewrite decide_False.
        - intros id'. destruct (decide (id' = id)) as [->|Hne]; [right; eauto|].
          specialize (H2 id'). unfold move in H2. by rewrite decide_False in H2. }
      eapply wp_mono; [| |by apply IH].
      * intros l' H. by apply Hback.
      * cbn. intros _ l' [H1 H2]. destruct (Hback _ H1) as [H3 H4]. split; [done|].
        intros id' [->|]%elem_of_cons; auto.
Qed.

(** *** Replacements before submission *)

Lemma prepare_replacement_sound st id expected replacement l :
  course st l ->
  wp (course st) (prepare_ready_target_replacement id expected replacement)
    (fun p l' => l' = l /\ exists r, active l !! pr_transaction_id p = Some r /\
                   ot_id (pr_replacement_descriptor p) = ot_id (descriptor r) /\
                   ot_obligations (pr_replacement_descriptor p) = ot_obligations (descriptor r)) l.
Proof.
  intros F. unfold prepare_ready_target_replacement. apply wp_get_state; [done|]. intros r E Hst.
  destruct (state r); try done. apply wp_get, wp_lift. rewrite E. cbn [ok_or].
  destruct (_ || _); [done|]. unfold replace_bound_target.
  destruct (decide _); [|done]. split; [done|]. by exists r.
Qed.
Lemma replace_ready_target_sound st id expected replacement l :
  course st l -> keeps_course st (replace_ready_target id expected replacement) l.
Proof.
  intros F. apply wp_bind. eapply wp_post; [|by apply prepare_replacement_sound].
  cbn. intros p l' (-> & r & E & Hid & Ho).
  unfold wp, commit_prepared_ready_target_replacement, set_descriptor.
  rewrite (update_record_Some _ _ _ _ E). by apply (course_put_descriptor _ _ _ r).
Qed.
Lemma with_presentation_state_cases mode ct t :
  (exists d, with_presentation_state mode ct t = Ret d /\ ot_id d = ot_id t /\
             ot_obligations d = ot_obligations t) \/
  exists e, with_presentation_state mode ct t = Fail e.
Proof.
  unfold with_presentation_state. destruct (_ && _); [by eauto|]. destruct (_ && _); [by eauto|].
  left. by eexists.
Qed.
Lemma replace_presentation_sound st id mode ct key l :
  course st l -> keeps_course st (replace_presentation_state_before_submit id mode ct key) l.
Proof.
  intros F. unfold replace_presentation_state_before_submit. apply wp_get, wp_lift.
  destruct (active l !! id) as [r|] eqn:E; [|done]. cbn [ok_or].
  destruct (negb _); [done|]. destruct (_ && _); [done|]. apply wp_lift.
  destruct (with_presentation_state_cases mode ct (descriptor r)) as [(d & Ed & Hid & Ho)|[e Ed]];
    rewrite Ed; [|done]. cbn [map_err].
  unfold wp, set_descriptor. rewrite (update_record_Some _ _ _ _ E).
  by apply (course_put_descriptor _ _ _ r).
Qed.
Lemma downgrade_sound st id l : course st l -> keeps_course st (downgrade_presentation_to_vsync id) l.
Proof.
  intros F. unfold downgrade_presentation_to_vsync. apply wp_get, wp_lift.
  destruct (active l !! id) as [r|]; [|done]. by apply replace_presentation_sound.
Qed.

(** ** Histories *)

Section Histories.
Context `{HashOrder}.

(** The operations an output drives its ledger with. *)
Inductive LedgerOp : Type :=
| OpAllocateId
| OpInsert (d : OutputTransaction)
| OpAttach (id : OutputTransactionId) (batch : PresentationFeedbackBatchId)
| OpTransfer (from to : OutputTransactionId)
| OpDetach (id : OutputTransactionId)
| OpReady (id : OutputTransactionId) (at_ns : MonotonicTimestampNs)
| OpReadyUnbound (id : OutputTransactionId) (at_ns : MonotonicTimestampNs)
| OpBind (id : OutputTransactionId) (target : PresentationTarget)
| OpQueue (id : OutputTransactionId) (worker_generation : Z) (at_ns : MonotonicTimestampNs)
| OpRollbackQueued (id : OutputTransactionId)
| OpSubmit (id : OutputTransactionId) (token : Z) (at_ns : MonotonicTimestampNs)
| OpAcceptPresented (id : OutputTransactionId) (token output_generation : Z)
    (at_ns : MonotonicTimestampNs) (sequence : option Z)
| OpAcceptImmediate (id : OutputTransactionId) (at_ns : MonotonicTimestampNs)
| OpAcceptNoVisualChange (id : OutputTransactionId) (at_ns : MonotonicTimestampNs)
| OpAcceptDropped (id : OutputTransactionId) (reason : OutputTransactionDropReason)
    (at_ns : MonotonicTimestampNs)
| OpAcceptSuperseded (id : OutputTransactionId) (by_id : option OutputTransactionId)
    (reason : OutputTransactionSupersedeReason) (at_ns : MonotonicTimestampNs)
| OpAcceptFailed (id : OutputTransactionId) (stage : OutputTransactionFailureStage)
    (at_ns : MonotonicTimestampNs)
| OpRollbackSettlement (a : AcceptedTerminalTransition)
| OpFinalize (a : AcceptedTerminalTransition)
| OpCommitPrepared (a : AcceptedTerminalTransition)
| OpFailSettlement (a : AcceptedTerminalTransition) (at_ns : MonotonicTimestampNs)
| OpReplaceTarget (id : OutputTransactionId) (expected replacement : PresentationTarget)
| OpReplacePresentation (id : OutputTransactionId) (mode : OutputPresentationMode)
    (content_type : DrmContentType) (key : option CompositedPresentationValidationKey)
| OpDowngrade (id : OutputTransactionId)
| OpCleanup (output_generation : Z) (reason : OutputTransactionDropReason)
    (at_ns : MonotonicTimestampNs)
| OpTerminateAll (reason : OutputTransactionDropReason) (at_ns : MonotonicTimestampNs)
| OpTakeSettled
| OpNoteDuplicate.
Definition ignore {A} (m : L A) : L unit := _ ← m; mret tt.
Definition run_op (op : LedgerOp) : L unit :=
  match op with
  | OpAllocateId => sm_modify (fun l => fst (allocate_id l))
  | OpInsert d => insert d
  | OpAttach id batch => attach_presentation_feedback_batch id batch
  | OpTransfer from to => ignore (transfer_presentation_feedback_batch from to)
  | OpDetach id => ignore (detach_presentation_feedback_batch id)
  | OpReady id at_ns => mark_ready id at_ns
  | OpReadyUnbound id at_ns => mark_ready_unbound id at_ns
  | OpBind id target => bind_deferred_o1 id target
  | OpQueue id g at_ns => mark_queued id g at_ns
  | OpRollbackQueued id => rollback_queued id
  | OpSubmit id token at_ns => mark_submitted id token at_ns
  | OpAcceptPresented id token g at_ns s => ignore (accept_presented id token g at_ns s)
  | OpAcceptImmediate id at_ns => ignore (accept_immediate_presented id at_ns)
  | OpAcceptNoVisualChange id at_ns => ignore (accept_no_visual_change id at_ns)
  | OpAcceptDropped id reason at_ns => ignore (accept_dropped id reason at_ns)
  | OpAcceptSuperseded id by_id reason at_ns => ignore (accept_superseded id by_id reason at_ns)
  | OpAcceptFailed id stage at_ns => ignore (accept_failed id stage at_ns)
  | OpRollbackSettlement a => rollback_settlement a
  | OpFinalize a => finalize_terminal a
  | OpCommitPrepared a => commit_prepared_terminal a
  | OpFailSettlement a at_ns => fail_settlement a at_ns
  | OpReplaceTarget id expected replacement => replace_ready_target id expected replacement
  | OpReplacePresentation id mode ct key => replace_presentation_state_before_submit id mode ct key
  | OpDowngrade id => downgrade_presentation_to_vsync id
  | OpCleanup g reason at_ns => ignore (cleanup_generation g reason at_ns)
  | OpTerminateAll reason at_ns => ignore (terminate_all reason at_ns)
  | OpTakeSettled => sm_modify (fun l => fst (take_settled_output_terminals l))
  | OpNoteDuplicate => sm_modify note_duplicate_settlement_attempt
  end.
(** What the callers see to: a descriptor comes without a feedback batch
    that is already owned, a batch is attached to a transaction that has
    none, and a token that is committed or undone came from an acceptance;
    a committed one is still settling. *)
Definition legal (op : LedgerOp) (l : OutputTransactionLedger) : Prop :=
  match op with
  | OpInsert d =>
      is_owned (presentation_feedback_batch_id (ot_obligations d)) (presentation_feedback_owner l) = false
  | OpAttach id _ => forall r, active l !! id = Some r -> feedback_of r = None
  | OpRollbackSettlement a => is_final (ac_prior_state a) = false
  | OpCommitPrepared a => settling_as a l
  | _ => True
  end.
Inductive history : OutputTransactionLedger -> list LedgerOp -> OutputTransactionLedger -> Prop :=
| history_nil l : history l [] l
| history_cons op ops l l1 l' outcome :
    legal op l -> run_op op l = (l1, outcome) -> history l1 ops l' -> history l (op :: ops) l'.

Lemma wp_ignore {A} R (m : L A) Q l :
  wp R m Q l -> wp R (ignore m) (fun _ l' => exists a, Q a l') l.
Proof. intros Hm. apply wp_bind. eapply wp_post; [|exact Hm]. cbn. eauto. Qed.
Lemma moved_ok st id P s l : moved st id P s l -> ledger_ok l.
Proof. intros [_ Hz]. by eapply course_ok. Qed.
Lemma accepted_ok st id t P a l : accepted_from st id t P a l -> ledger_ok l.
Proof. intros (_ & _ & _ & _ & _ & Hz). by eapply course_ok. Qed.
(** What an operation leaves is in order, whatever its outcome. *)
Abbreviation keeps_order m := (wp ledger_ok m (fun _ l => ledger_ok l)).
Lemma moves_order st {A} (m : L A) (Q : A -> _ -> Prop) l :
  wp (course st) m Q l -> (forall a l', Q a l' -> ledger_ok l') -> keeps_order m l.
Proof. intros Hm HQ. eapply wp_mono; [| |exact Hm]; [apply course_ok|exact HQ]. Qed.
Lemma ignore_order {A} (m : L A) l : keeps_order m l -> keeps_order (ignore m) l.
Proof. intros Hz. apply wp_ignore in Hz. eapply wp_post; [|exact Hz]. by intros _ l' [_ ?]. Qed.
Lemma drop_all_order ids reason at_ns n l :
  ledger_ok l -> keeps_order (_ ← drop_all ids reason at_ns; mret (n : nat)) l.
Proof.
  intros Hl. apply wp_bind.
  eapply wp_mono; [| |apply (drop_all_sound _ ids reason at_ns l (course_refl l Hl))].
  - by intros l' [Hz' _].
  - cbn. by intros _ l' [[Hz' _] _].
Qed.
Lemma op_sound op l : ledger_ok l -> legal op l -> keeps_order (run_op op) l.
Proof.
  intros Hl Hop. pose proof (course_refl l Hl) as F.
  destruct op; cbn [run_op legal] in *; try apply ignore_order;
    try (apply wp_modify); try (apply wp_get, drop_all_order, Hl);
    try (eapply moves_order; [eauto using insert_sound, attach_sound, transfer_sound, detach_sound,
      mark_ready_sound, mark_ready_unbound_sound, bind_deferred_o1_sound, mark_queued_sound,
      rollback_queued_sound, mark_submitted_sound, accept_presented_sound, accept_immediate_sound,
      accept_no_visual_change_sound, accept_dropped_sound, accept_superseded_sound,
      accept_failed_sound, rollback_settlement_sound, finalize_sound, commit_prepared_sound,
      fail_settlement_sound, replace_ready_target_sound, replace_presentation_sound, downgrade_sound
      |cbn; naive_solver eauto using moved_ok, accepted_ok, course_ok]).
  - unfold allocate_id. destruct (allocate (lg_allocator l)) as [a r]. destruct Hl. by split.
  - destruct Hl. by split.
  - by apply ok_bump.
Qed.
Lemma history_sound l ops l' : history l ops l' -> ledger_ok l -> ledger_ok l'.
Proof.
  induction 1 as [|op ops l l1 l' o Hlegal E _ IH]; intros Hl; [done|]. apply IH.
  pose proof (op_sound op l Hl Hlegal) as Hw. unfold wp in Hw. rewrite E in Hw. by destruct o.
Qed.

(** *** The ledger's own check *)

Lemma for_output_ok output active_capacity history_capacity :
  Z.of_nat active_capacity <= u64_max ->
  ledger_ok (for_output output active_capacity history_capacity).
Proof.
  intros Hc. split; cbn; try done; try lia.
  - intros b id. split; [by rewrite lookup_empty|]. intros (r & E & _). by rewrite lookup_empty in E.
  - intros b id. split; [by rewrite lookup_empty|]. intros (r & E & _). by rewrite lookup_empty in E.
  - split; [rewrite map_size_empty; lia|done].
  - constructor.
Qed.
Lemma check_owned_Ret batch_of owner missing wrong rs :
  (forall r b, r ∈ rs -> batch_of r = Some b -> owner !! b = Some (ot_id (descriptor r))) ->
  check_owned batch_of owner missing wrong rs = Ret tt.
Proof.
  induction rs as [|r rs IH]; intros Hrs; [done|]. cbn.
  destruct (batch_of r) as [b|] eqn:Eb; [|apply IH; set_solver].
  rewrite (Hrs r b), Z.eqb_refl by set_solver. apply IH. set_solver.
Qed.
Lemma check_orphans_Ret batch_of m owner orphan bs :
  owners_ok batch_of m owner -> check_orphans batch_of m owner orphan bs = Ret tt.
Proof.
  intros Ho. induction bs as [|b bs IH]; [done|]. cbn. destruct (owner !! b) as [id|] eqn:Eb; [|done].
  apply Ho in Eb as (r & Er & Hb). by rewrite Er, decide_True.
Qed.
Lemma active_values_owned batch_of owner l :
  ledger_ok l -> owners_ok batch_of (active l) owner ->
  forall r b, r ∈ active_values l -> batch_of r = Some b -> owner !! b = Some (ot_id (descriptor r)).
Proof.
  intros Hl Ho r b (k & _ & Hk)%list_elem_of_omap Hb. rewrite (lo_id _ Hl _ _ Hk). apply Ho. eauto.
Qed.
Lemma settling_count_keys ks m :
  base.NoDup ks -> (forall k, k ∈ ks <-> is_Some (m !! k)) ->
  length (List.filter is_settling (omap (fun k => m !! k) ks)) = settling_count m.
Proof.
  revert m. induction ks as [|k ks IH]; intros m Hnd Hk.
  - replace m with (∅ : gmap OutputTransactionId OutputTransactionRecord); [done|].
    symmetry. apply map_empty. intros k. apply eq_None_not_Some. rewrite <- Hk. set_solver.
  - apply list.NoDup_cons in Hnd as [Hnk Hnd].
    assert (is_Some (m !! k)) as [r Er] by (apply Hk; set_solver).
    rewrite <- (settling_count_delete _ _ _ Er), <- (IH (delete k m)); [|done|].
    + cbn. rewrite Er. cbn [List.filter].
      assert (Heq : omap (fun k' => m !! k') ks = omap (fun k' => delete k m !! k') ks).
      { apply list_omap_ext. apply Forall2_same_length_lookup. split; [done|].
        intros i x y Hx Hy. rewrite Hx in Hy. injection Hy as <-.
        rewrite lookup_delete_ne; [done|]. intros <-. by apply Hnk, list_elem_of_lookup_2 with i. }
      cbn in Heq. rewrite Heq. destruct (is_settling r); cbn; lia.
    + intros k'. destruct (decide (k' = k)) as [->|Hne].
      * rewrite lookup_delete_eq. split; [done|by intros [? ?]].
      * rewrite lookup_delete_ne by done. rewrite <- Hk. set_solver.
Qed.
Lemma validate_Ret l : ledger_ok l -> validate_terminal_ownership l = Ret tt.
Proof.
  intros Hl. unfold validate_terminal_ownership.
  rewrite check_owned_Ret by (apply active_values_owned; [done|apply Hl]). cbn.
  rewrite check_orphans_Ret by apply Hl. cbn.
  rewrite check_owned_Ret by (apply active_values_owned; [done|apply Hl]). cbn.
  rewrite check_orphans_Ret by apply Hl. cbn.
  unfold settling_records, active_values. rewrite settling_count_keys.
  - by rewrite (lo_settling _ Hl), Z.eqb_refl.
  - apply NoDup_hash_keys.
  - intros k. apply elem_of_hash_keys.
Qed.

(** C4: whatever legal operations an output drives a fresh ledger with, and
    whether each of them succeeds or is refused, the ledger stays in order:
    the records are filed under their own identifiers, the owner of a frame
    or feedback batch is exactly the active transaction that carries it, the
    settling counter counts the settling records, the active set and the
    history stay within their capacities, no identifier is both active and in
    the history or twice in the history; the ledger's own ownership check
    passes; and the next legal operation returns or reports an error, it
    never panics. *)
Theorem ledger_invariant output active_capacity history_capacity ops l :
  Z.of_nat active_capacity <= u64_max ->
  history (for_output output active_capacity history_capacity) ops l ->
  ledger_ok l /\ validate_terminal_ownership l = Ret tt /\
  forall op, legal op l -> snd (run_op op l) <> Panic /\ snd (run_op op l) <> NoFuel.
Proof.
  intros Hc Hh. assert (Hl : ledger_ok l).
  { eapply history_sound; [exact Hh|]. by apply for_output_ok. }
  split_and!; [done|by apply validate_Ret|]. intros op Hop.
  pose proof (op_sound op l Hl Hop) as Hw. unfold wp in Hw.
  destruct (run_op op l) as [l' []]; by cbn.
Qed.

(** *** The life cycle of a transaction *)

(** A transaction by itself, without the ledger: alive in one of the states
    before an ending, or ending, with the state it was taken from. *)
Inductive Life : Type :=
| Alive (s : OutputTransactionState)
| Ending (previous : OutputTransactionState) (t : OutputTransactionTerminal).
Definition life_state (x : Life) : OutputTransactionState :=
  match x with Alive s => s | Ending _ t => Settling t end.
(** The transaction an operation is about, for those that move one. *)
Definition subject (op : LedgerOp) : option OutputTransactionId :=
  match op with
  | OpInsert d => Some (ot_id d)
  | OpReady id _ | OpReadyUnbound id _ | OpBind id _ | OpQueue id _ _ | OpRollbackQueued id
  | OpSubmit id _ _ | OpAcceptPresented id _ _ _ _ | OpAcceptImmediate id _
  | OpAcceptNoVisualChange id _ | OpAcceptDropped id _ _ | OpAcceptSuperseded id _ _ _
  | OpAcceptFailed id _ _ => Some id
  | OpRollbackSettlement a | OpFinalize a | OpCommitPrepared a | OpFailSettlement a _ =>
      Some (ac_transaction_id a)
  | _ => None
  end.
Definition drop_reason (op : LedgerOp) : option OutputTransactionDropReason :=
  match op with OpCleanup _ reason _ | OpTerminateAll reason _ => Some reason | _ => None end.
(** The one place an operation may lead a transaction from where it is;
    [None]: it may not be performed there. *)
Definition life_move (op : LedgerOp) (x : option Life) : option (option Life) :=
  let alive s := Some (Some (Alive s)) in
  let ending b s t := if b : bool then Some (Some (Ending s t)) else None in
  match op, x with
  | OpInsert _, None => alive Built
  | OpReady _ at_ns, Some (Alive Built) => alive (Ready at_ns)
  | OpReadyUnbound _ at_ns, Some (Alive Built) => alive (ReadyUnbound at_ns)
  | OpBind _ target, Some (Alive (ReadyUnbound _)) => alive (Ready (pt_render_start_deadline target))
  | OpQueue _ generation at_ns, Some (Alive Built) =>
      alive (Queued at_ns generation QueuedFromBuilt)
  | OpQueue _ generation at_ns, Some (Alive (Ready ready_at)) =>
      alive (Queued at_ns generation (QueuedFromReady ready_at))
  | OpRollbackQueued _, Some (Alive (Queued _ _ QueuedFromBuilt)) => alive Built
  | OpRollbackQueued _, Some (Alive (Queued _ _ (QueuedFromReady ready_at))) => alive (Ready ready_at)
  | OpSubmit _ token at_ns, Some (Alive (Built | Ready _ | Queued _ _ _)) =>
      alive (Submitted token at_ns)
  | OpAcceptPresented _ token _ at_ns sequence, Some (Alive (Submitted token' _ as s)) =>
      ending (token' =? token) s (Presented at_ns sequence)
  | OpAcceptImmediate _ at_ns, Some (Alive Built) => ending true Built (Presented at_ns None)
  | OpAcceptNoVisualChange _ at_ns, Some (Alive ((Built | Ready _) as s)) =>
      ending true s (Dropped DropNoVisualChange at_ns)
  | OpAcceptDropped _ reason at_ns, Some (Alive s) =>
      ending (droppable reason s) s (Dropped reason at_ns)
  | OpAcceptSuperseded _ by_id reason at_ns, Some (Alive s) =>
      ending (negb (is_submitted s)) s (Superseded by_id reason at_ns)
  | OpAcceptFailed _ stage at_ns, Some (Alive s) =>
      ending (failure_stage_is_compatible (kind s) stage) s (Failed stage at_ns)
  | OpRollbackSettlement a, Some (Ending previous t) =>
      if decide (t = ac_terminal a) then alive previous else None
  | (OpFinalize a | OpCommitPrepared a | OpFailSettlement a _), Some (Ending _ t) =>
      if decide (t = ac_terminal a) then Some None else None
  | _, _ => None
  end.

(** The machine of all transactions: an operation that succeeds moves the
    transaction it is about and no other, one that is refused moves none.
    The two that drop many take away transactions that may be dropped;
    dropping everything, when it succeeds, leaves none. *)
Abbreviation Lives := (gmap OutputTransactionId Life).
Inductive life_step : Lives -> LedgerOp * bool -> Lives -> Prop :=
| life_moves op id x g :
    subject op = Some id -> life_move op (g !! id) = Some x ->
    life_step g (op, true) (partial_alter (fun _ => x) id g)
| life_stays op g : subject op = None -> drop_reason op = None -> life_step g (op, true) g
| life_refused op g : drop_reason op = None -> life_step g (op, false) g
| life_drops op reason succeeds g g' :
    drop_reason op = Some reason ->
    (forall id, g' !! id = g !! id \/
       (g' !! id = None /\ exists s, g !! id = Some (Alive s) /\ droppable reason s = true)) ->
    (forall at_ns, op = OpTerminateAll reason at_ns -> succeeds = true -> g' = ∅) ->
    life_step g (op, succeeds) g'.
Inductive lifecycle : Lives -> list (LedgerOp * bool) -> Lives -> Prop :=
| lifecycle_nil g : lifecycle g [] g
| lifecycle_cons g e g1 es g' : life_step g e g1 -> lifecycle g1 es g' -> lifecycle g (e :: es) g'.

(** The tokens handed out, the latest for each transaction. *)
Definition acceptance (op : LedgerOp) : option (L AcceptedTerminalTransition) :=
  match op with
  | OpAcceptPresented id token g at_ns s => Some (accept_presented id token g at_ns s)
  | OpAcceptImmediate id at_ns => Some (accept_immediate_presented id at_ns)
  | OpAcceptNoVisualChange id at_ns => Some (accept_no_visual_change id at_ns)
  | OpAcceptDropped id reason at_ns => Some (accept_dropped id reason at_ns)
  | OpAcceptSuperseded id by_id reason at_ns => Some (accept_superseded id by_id reason at_ns)
  | OpAcceptFailed id stage at_ns => Some (accept_failed id stage at_ns)
  | _ => None
  end.
Abbreviation Tokens := (gmap OutputTransactionId AcceptedTerminalTransition).
Definition hand_out (op : LedgerOp) (l : OutputTransactionLedger) (tk : Tokens) : Tokens :=
  match acceptance op with
  | Some m => match m l with (_, Ret a) => <[ac_transaction_id a := a]> tk | _ => tk end
  | None => tk
  end.
(** What is undone is the latest acceptance of the transaction. *)
Definition own_token (op : LedgerOp) (tk : Tokens) : Prop :=
  match op with
  | OpRollbackSettlement a => tk !! ac_transaction_id a = Some a
  | _ => True
  end.
Definition succeeds {A} (r : res OutputTransactionError A) : bool :=
  match r with Ret _ => true | _ => false end.
Inductive traced : Tokens -> OutputTransactionLedger -> list (LedgerOp * bool) ->
  OutputTransactionLedger -> Prop :=
| traced_nil tk l : traced tk l [] l
| traced_cons tk op es l l1 l' outcome :
    legal op l -> own_token op tk -> run_op op l = (l1, outcome) ->
    traced (hand_out op l tk) l1 es l' -> traced tk l ((op, succeeds outcome) :: es) l'.

Definition life_view (g : Lives) : States := fun id => life_state <$> g !! id.
Record implements (l : OutputTransactionLedger) (g : Lives) (tk : Tokens) : Prop := {
  im_course : course (life_view g) l;
  im_alive : forall id s, g !! id = Some (Alive s) -> is_final s = false;
  im_ending : forall id previous t, g !! id = Some (Ending previous t) ->
    is_final previous = false /\
    exists a, tk !! id = Some a /\ ac_prior_state a = previous /\ ac_terminal a = t
}.

Section Step.
Context (l : OutputTransactionLedger) (g : Lives) (tk : Tokens) (I : implements l g tk).

Lemma view_alive id s : Some s = life_view g id -> is_final s = false -> g !! id = Some (Alive s).
Proof.
  unfold life_view. destruct (g !! id) as [[]|]; intros [= ->] Hz; done.
Qed.
Lemma view_ending id t :
  Some (Settling t) = life_view g id -> exists previous, g !! id = Some (Ending previous t).
Proof.
  unfold life_view. destruct (g !! id) as [[s|previous t']|] eqn:E; intros [= Hz]; [|subst; eauto].
  exfalso. pose proof (im_alive _ _ _ I _ _ E) as Hf. by rewrite <- Hz in Hf.
Qed.

(** One transaction moved. *)
Lemma implements_move id x l1 tk1 :
  course (move (life_view g) id (life_state <$> x)) l1 ->
  (forall id', id' <> id -> tk1 !! id' = tk !! id') ->
  match x with
  | Some (Alive s) => is_final s = false
  | Some (Ending previous t) => is_final previous = false /\
      exists a, tk1 !! id = Some a /\ ac_prior_state a = previous /\ ac_terminal a = t
  | None => True
  end ->
  implements l1 (partial_alter (fun _ => x) id g) tk1.
Proof.
  intros [Hl F] Htk Hx. split.
  - split; [done|]. intros id'. rewrite F. unfold move, life_view. case_decide as Hid.
    + subst. by rewrite lookup_partial_alter_eq.
    + by rewrite lookup_partial_alter_ne.
  - intros id' s E. destruct (decide (id = id')) as [<-|Hne].
    + rewrite lookup_partial_alter_eq in E. by rewrite E in Hx.
    + rewrite lookup_partial_alter_ne in E by done. by eapply im_alive.
  - intros id' previous t E. destruct (decide (id = id')) as [<-|Hne].
    + rewrite lookup_partial_alter_eq in E. by rewrite E in Hx.
    + rewrite lookup_partial_alter_ne in E by done. rewrite Htk by done. by eapply im_ending.
Qed.
Lemma implements_same l1 : course (life_view g) l1 -> implements l1 g tk.
Proof. intros F. by split; [|apply I|apply I]. Qed.

(** Where an operation may leave the machine. *)
Definition stepped (op : LedgerOp) (l1 : OutputTransactionLedger)
  (outcome : res OutputTransactionError unit) : Prop :=
  exists g1, life_step g (op, succeeds outcome) g1 /\ implements l1 g1 (hand_out op l tk).

Lemma step_keep op :
  subject op = None -> drop_reason op = None -> acceptance op = None ->
  wp (course (life_view g)) (run_op op) (fun _ l' => course (life_view g) l') l ->
  forall l1 o, run_op op l = (l1, o) -> stepped op l1 o.
Proof.
  intros H1 H2 H3 Hw l1 o E. unfold wp in Hw. rewrite E in Hw. exists g.
  unfold hand_out. rewrite H3.
  destruct o; try done; (split; [by constructor|by apply implements_same]).
Qed.
(** An operation that moves its transaction and is no acceptance. *)
Lemma step_move op id :
  subject op = Some id -> drop_reason op = None -> acceptance op = None ->
  wp (course (life_view g)) (run_op op) (fun _ l' => exists x,
    life_move op (g !! id) = Some x /\ course (move (life_view g) id (life_state <$> x)) l' /\
    match x with Some (Alive s) => is_final s = false | Some _ => False | None => True end) l ->
  forall l1 o, run_op op l = (l1, o) -> stepped op l1 o.
Proof.
  intros H1 H2 H3 Hw l1 o E. unfold wp in Hw. rewrite E in Hw. unfold stepped, hand_out. rewrite H3.
  destruct o as [a|e| |]; try done.
  - destruct Hw as (x & Hx & F & Hs). eexists. split; [by apply (life_moves op id x)|].
    apply implements_move; [done|done|]. by destruct x as [[]|].
  - exists g. split; [by constructor|by apply implements_same].
Qed.
Lemma step_accept op m id t P :
  subject op = Some id -> drop_reason op = None -> acceptance op = Some m -> run_op op = ignore m ->
  wp (course (life_view g)) m (accepted_from (life_view g) id t P) l ->
  (forall s, P s -> is_final s = false -> life_move op (Some (Alive s)) = Some (Some (Ending s t))) ->
  forall l1 o, run_op op l = (l1, o) -> stepped op l1 o.
Proof.
  intros H1 H2 H3 Hr Hw Hm l1 o E. rewrite Hr in E. unfold ignore, mbind, SM_bind in E.
  unfold wp in Hw. unfold stepped, hand_out. rewrite H3.
  destruct (m l) as [l' [a|e| |]]; try done; injection E as <- <-.
  - destruct Hw as (Ha & Ht & Hf & HP & Hst & F). symmetry in Hst. apply view_alive in Hst; [|done].
    eexists. split; [apply (life_moves op id (Some (Ending (ac_prior_state a) t))); [done|]|].
    { rewrite Hst. by apply Hm. }
    apply implements_move; [done| |].
    + intros id' Hne. rewrite lookup_insert_ne; [done|congruence].
    + split; [done|]. exists a. rewrite Ha, lookup_insert_eq. done.
  - exists g. split; [by constructor|by apply implements_same].
Qed.

(** Dropping many. *)
Lemma step_drop op reason ids at_ns n :
  drop_reason op = Some reason -> acceptance op = None ->
  run_op op l = ignore (_ ← drop_all ids reason at_ns; mret (n : nat)) l ->
  (forall at_ns', op = OpTerminateAll reason at_ns' -> forall id, is_Some (active l !! id) -> id ∈ ids) ->
  forall l1 o, run_op op l = (l1, o) -> stepped op l1 o.
Proof.
  intros H1 H2 Hr Hall l1 o E. rewrite Hr in E. unfold ignore, mbind, SM_bind in E.
  pose proof (drop_all_sound _ ids reason at_ns l (im_course _ _ _ I)) as Hw. unfold wp in Hw.
  assert (Hd : forall l', dropped_from (life_view g) reason ids l' ->
    let g1 := filter (fun p => is_Some (active l' !! p.1)) g in
    (forall id, g1 !! id = g !! id \/ (g1 !! id = None /\ exists s, g !! id = Some (Alive s)
                                         /\ droppable reason s = true)) /\
    implements l' g1 tk).
  { intros l' (Hl' & _ & Hz) g1.
    assert (Hg : forall id, g1 !! id = if decide (is_Some (active l' !! id)) then g !! id else None).
    { intros id. case_decide as Hs.
      - destruct (g !! id) as [x|] eqn:Ex.
        + by apply map_lookup_filter_Some.
        + apply map_lookup_filter_None. by left.
      - apply map_lookup_filter_None. by right. }
    assert (Hst : forall id, state_of l' id = life_state <$> g1 !! id).
    { intros id. rewrite Hg. destruct (Hz id) as [E'|[E' _]].
      - case_decide as Hs; [done|]. rewrite E'. unfold life_view.
        unfold state_of in E'. apply eq_None_not_Some in Hs. rewrite Hs in E'. cbn in E'.
        unfold life_view in E'. by rewrite <- E'.
      - unfold state_of in *. destruct (active l' !! id); [done|]. by rewrite decide_False by (by intros [? ?]). }
    split.
    - intros id. destruct (Hz id) as [E'|[E' (s & Es & Hs)]].
      + left. rewrite Hg. case_decide as Hd; [done|]. unfold state_of in E'.
        apply eq_None_not_Some in Hd. rewrite Hd in E'. cbn in E'. unfold life_view in E'.
        by destruct (g !! id).
      + right. split.
        * rewrite Hg. unfold state_of in E'. destruct (active l' !! id); [done|].
          by rewrite decide_False by (by intros [? ?]).
        * exists s. split; [|done]. apply view_alive; [done|]. unfold droppable in Hs.
          by destruct (is_final s).
    - split.
      + by split.
      + intros id s. rewrite Hg. case_decide; [|done]. apply I.
      + intros id previous t. rewrite Hg. case_decide; [|done]. apply I. }
  unfold stepped, hand_out. rewrite H2.
  destruct (drop_all ids reason at_ns l) as [l' [[]|e| |]]; try done; injection E as <- <-.
  - destruct Hw as [Hw Hnone]. destruct (Hd _ Hw) as [Hg HI]. eexists. split; [|exact HI].
    eapply life_drops; [done|exact Hg|]. intros at_ns' Hop _. apply map_empty. intros id.
    rewrite map_lookup_filter_None. right. intros x Hx [r Er]. cbn in Er.
    assert (is_Some (active l !! id)) as Hin.
    { destruct (im_course _ _ _ I) as [_ F]. specialize (F id). unfold state_of, life_view in F.
      rewrite Hx in F. by destruct (active l !! id). }
    specialize (Hnone id (Hall at_ns' Hop id Hin)). unfold state_of in Hnone. by rewrite Er in Hnone.
  - destruct (Hd _ Hw) as [Hg HI]. eexists. split; [|exact HI]. by eapply life_drops.
Qed.
End Step.

Lemma view_none g id : None = life_view g id -> g !! id = None.
Proof. unfold life_view. by destruct (g !! id). Qed.
Lemma settles_step l g tk op a :
  implements l g tk -> subject op = Some (ac_transaction_id a) -> drop_reason op = None ->
  acceptance op = None ->
  (forall previous t, life_move op (Some (Ending previous t))
                      = if decide (t = ac_terminal a) then Some None else None) ->
  wp (course (life_view g)) (run_op op)
    (fun _ l' => moved (life_view g) (ac_transaction_id a) (eq (Some (Settling (ac_terminal a)))) None l') l ->
  forall l1 o, run_op op l = (l1, o) -> stepped l g tk op l1 o.
Proof.
  intros HI H1 H2 H3 Hm Hw. apply (step_move l g tk HI op (ac_transaction_id a)); try done.
  eapply wp_post; [|exact Hw]. intros ? l' [Hs F]. exists None.
  destruct (view_ending l g tk HI _ _ Hs) as [previous E]. rewrite E, Hm, decide_True by done. done.
Qed.

Lemma op_refines l g tk op l1 o :
  implements l g tk -> legal op l -> own_token op tk -> run_op op l = (l1, o) ->
  stepped l g tk op l1 o.
Proof.
  intros HI Hop Htk. pose proof (im_course _ _ _ HI) as F. pose proof (course_ok _ _ F) as Hl.
  revert l1 o.
  assert (Hsame : forall f, (forall l, active (f l) = active l) -> ledger_ok (f l) ->
    wp (course (life_view g)) (sm_modify f) (fun _ l' => course (life_view g) l') l).
  { intros f Hf Hok. apply wp_modify, (course_same _ l); [done|done|]. intros id. unfold state_of.
    by rewrite Hf. }
  destruct op; cbn [legal own_token] in *.
  - apply (step_keep l g tk HI); try done. apply Hsame.
    + intros l'. unfold allocate_id. by destruct (allocate (lg_allocator l')).
    + unfold allocate_id. destruct (allocate (lg_allocator l)) as [a r]. destruct Hl. by split.
  - apply (step_move l g tk HI _ (ot_id d)); try done.
    eapply wp_post; [|by apply insert_sound]. intros ? l' [Hs F']. exists (Some (Alive Built)).
    by rewrite (view_none _ _ Hs).
  - apply (step_keep l g tk HI); try done. by apply attach_sound.
  - apply (step_keep l g tk HI); try done. eapply wp_post; [|apply wp_ignore; by apply transfer_sound].
    by intros _ l' [_ ?].
  - apply (step_keep l g tk HI); try done. eapply wp_post; [|apply wp_ignore; by apply detach_sound].
    by intros _ l' [_ ?].
  - apply (step_move l g tk HI _ id); try done.
    eapply wp_post; [|by apply mark_ready_sound]. intros ? l' [Hs F']. exists (Some (Alive (Ready at_ns))).
    by rewrite (view_alive g id _ Hs).
  - apply (step_move l g tk HI _ id); try done.
    eapply wp_post; [|by apply mark_ready_unbound_sound]. intros ? l' [Hs F'].
    exists (Some (Alive (ReadyUnbound at_ns))). by rewrite (view_alive g id _ Hs).
  - apply (step_move l g tk HI _ id); try done.
    eapply wp_post; [|by apply bind_deferred_o1_sound]. intros ? l' [[at_ns Hs] F'].
    exists (Some (Alive (Ready (pt_render_start_deadline target)))).
    by rewrite (view_alive g id _ (eq_sym Hs)).
  - apply (step_move l g tk HI _ id); try done.
    eapply wp_post; [|by apply mark_queued_sound]. intros ? l' (p & Hs & F').
    exists (Some (Alive (Queued at_ns worker_generation p))).
    rewrite (view_alive g id _ Hs) by by destruct p. by destruct p.
  - apply (step_move l g tk HI _ id); try done.
    eapply wp_post; [|by apply rollback_queued_sound]. intros ? l' (at_ns & generation & p & Hs & F').
    exists (Some (Alive (predecessor_state p))). rewrite (view_alive g id _ Hs) by done. by destruct p.
  - apply (step_move l g tk HI _ id); try done.
    eapply wp_post; [|by apply mark_submitted_sound]. intros ? l' [(s & Hs & Hb) F'].
    exists (Some (Alive (Submitted token at_ns))).
    rewrite (view_alive g id s (eq_sym Hs)) by by destruct s. by destruct s.
  - eapply (step_accept l g tk HI); [done..|by apply accept_presented_sound|].
    cbn. intros s [at' ->] _. by rewrite Z.eqb_refl.
  - eapply (step_accept l g tk HI); [done..|by apply accept_immediate_sound|]. by intros s <- _.
  - eapply (step_accept l g tk HI); [done..|by apply accept_no_visual_change_sound|].
    by intros [] ? _.
  - eapply (step_accept l g tk HI); [done..|by apply accept_dropped_sound|].
    cbn. intros s Hs Hf. unfold droppable. by rewrite Hs, Hf.
  - eapply (step_accept l g tk HI); [done..|by apply accept_superseded_sound|].
    cbn. intros s Hs Hf. by rewrite Hs.
  - eapply (step_accept l g tk HI); [done..|by apply accept_failed_sound|].
    cbn. intros s Hs Hf. by rewrite Hs.
  - apply (step_move l g tk HI _ (ac_transaction_id a)); try done.
    eapply wp_post; [|by apply rollback_settlement_sound]. intros ? l' [Hs F'].
    destruct (view_ending l g tk HI _ _ Hs) as [previous E].
    destruct (im_ending _ _ _ HI _ _ _ E) as (Hf & a' & Ha & <- & _). rewrite Htk in Ha.
    injection Ha as <-. exists (Some (Alive (ac_prior_state a))). rewrite E. cbn. by rewrite decide_True.
  - apply (settles_step l g tk _ a); try done. by apply finalize_sound.
  - apply (settles_step l g tk _ a); try done. by apply commit_prepared_sound.
  - apply (settles_step l g tk _ a); try done. by apply fail_settlement_sound.
  - apply (step_keep l g tk HI); try done. by apply replace_ready_target_sound.
  - apply (step_keep l g tk HI); try done. by apply replace_presentation_sound.
  - apply (step_keep l g tk HI); try done. by apply downgrade_sound.
  - by eapply (step_drop l g tk HI).
  - eapply (step_drop l g tk HI); try done. intros _ _ id Hid. by apply elem_of_hash_keys.
  - apply (step_keep l g tk HI); try done. apply Hsame; [done|]. destruct Hl. by split.
  - apply (step_keep l g tk HI); try done. apply Hsame; [done|]. by apply ok_bump.
Qed.
Lemma traced_refines tk l es l' :
  traced tk l es l' -> forall g, implements l g tk ->
  exists g', lifecycle g es g' /\ forall id, state_of l' id = life_state <$> g' !! id.
Proof.
  induction 1 as [tk l|tk op es l l1 l' o Hop Htk E _ IH]; intros g HI.
  - exists g. split; [constructor|]. apply HI.
  - destruct (op_refines l g tk op l1 o HI Hop Htk E) as (g1 & Hs & H1).
    destruct (IH g1 H1) as (g' & Hg & Hv). exists g'. split; [|done]. by econstructor.
Qed.

(** C16: the ledger implements the life cycle of a transaction. Take any
    history of a fresh ledger, each operation legal for its caller and each
    settlement undone with the token of the acceptance it undoes, and record
    for each operation whether it succeeded. The machine [lifecycle], which
    knows of a transaction only its state and, while it ends, the state it
    was taken from, performs the same operations with the same outcomes and
    ends with every transaction in the state the ledger records. In the
    machine an operation leads to one place: a transaction enters as [Built];
    becomes ready, queued or submitted only from the states before
    submission; leaves the queue for the state it was queued from; ends only
    as its state allows, a presentation with the token it was submitted
    under; an ending that is undone gives back the very state it was taken
    from; and only an ending leaves the ledger. An operation moves no other
    transaction, one that is refused moves none, and the two that drop many
    take away only transactions that may be dropped. *)
Theorem ledger_refines_lifecycle output active_capacity history_capacity es l :
  Z.of_nat active_capacity <= u64_max ->
  traced ∅ (for_output output active_capacity history_capacity) es l ->
  exists g, lifecycle ∅ es g /\ forall id, state_of l id = life_state <$> g !! id.
Proof.
  intros Hc Ht. apply (traced_refines _ _ _ _ Ht). split; [|done|done].
  split; [by apply for_output_ok|done].
Qed.
End Histories.

(** ** Undoing *)

(** Two ledgers with the same records, owners, history and settlements. *)
Definition same_ledger (l l' : OutputTransactionLedger) : Prop :=
  same_rest l l' /\ active l' = active l /\ settled_output_terminals l' = settled_output_terminals l /\
  lg_allocator l' = lg_allocator l /\ last_created l' = last_created l /\
  lg_output_id l' = lg_output_id l.
Lemma put_restores l id r s s' :
  active l !! id = Some r -> s' = state r ->
  <[id := with_state (with_state r s) s']> (<[id := with_state r s]> (active l)) = active l.
Proof. intros E ->. rewrite insert_insert_eq, insert_id; [done|]. by destruct r. Qed.
Lemma unbump_bump n : 0 <= n < u64_max -> sat_sub (sat_add u64_max n 1) 1 = n.
Proof. unfold sat_sub, sat_add. lia. Qed.

Lemma mark_queued_Some id generation at_ns r p l :
  active l !! id = Some r -> state r = predecessor_state p ->
  mark_queued id generation at_ns l
  = (bump (queued_path (ot_content (descriptor r)))
       (bump CQueued (put id (with_state r (Queued at_ns generation p)) l)), Ret tt).
Proof.
  intros E Hp. unfold mark_queued. rewrite (SM_bind_step _ _ _ _ _ (get_state_Some _ _ _ E)), Hp.
  destruct p; cbn [predecessor_state];
    rewrite (SM_bind_step _ _ _ _ _ (transition_Some _ _ _ _ E)); sm_run;
    by rewrite (note_path_counter_Some _ _ (with_state r (Queued at_ns generation _)))
      by apply lookup_insert_eq.
Qed.
Lemma rollback_queued_Some id generation at_ns r p l :
  active l !! id = Some r -> state r = Queued at_ns generation p ->
  rollback_queued id l
  = (unbump (queued_path (ot_content (descriptor r)))
       (unbump CQueued (put id (with_state r (predecessor_state p)) l)), Ret tt).
Proof.
  intros E Hp. unfold rollback_queued. rewrite (SM_bind_step _ _ _ _ _ (get_state_Some _ _ _ E)), Hp.
  rewrite (SM_bind_step _ _ _ _ _ (expect_record_Some _ _ _ E)). unfold set_state.
  rewrite (SM_bind_step _ _ _ _ _ (update_record_Some _ _ _ _ E)). by destruct p.
Qed.
Lemma rollback_settlement_Some a r l :
  active l !! ac_transaction_id a = Some r -> state r = Settling (ac_terminal a) ->
  rollback_settlement a l
  = (unbump CActiveSettling (put (ac_transaction_id a) (with_state r (ac_prior_state a)) l), Ret tt).
Proof.
  intros E Hp. unfold rollback_settlement. rewrite SM_get_step, E, decide_True by done. unfold set_state.
  by rewrite (SM_bind_step _ _ _ _ _ (update_record_Some _ _ _ _ E)).
Qed.

(** C29: both undo operations restore the ledger. Queueing a built or ready
    transaction and rolling the queueing back, and accepting an ending of a
    live transaction and rolling the settlement back, leave the records, the
    owners, the history, the settlements and the identifiers as they were;
    the first restores every counter too, the second every counter but the
    count of accepted endings. *)
Theorem rollbacks_restore l id r :
  ledger_ok l -> active l !! id = Some r ->
  (forall generation at_ns p,
     state r = predecessor_state p -> 0 <= counters l CQueued < u64_max ->
     0 <= counters l (queued_path (ot_content (descriptor r))) < u64_max ->
     exists l', (_ ← mark_queued id generation at_ns; rollback_queued id) l = (l', Ret tt) /\
       same_ledger l l' /\ forall c, counters l' c = counters l c) /\
  (forall t, is_final (state r) = false ->
     exists l', (a ← accept_state id t; rollback_settlement a) l = (l', Ret tt) /\
       same_ledger l l' /\ forall c, c <> CTerminalAccepted -> counters l' c = counters l c).
Proof.
  intros Hl E. split.
  - intros generation at_ns p Hp Hq Hc. eexists.
    rewrite (SM_bind_step _ _ _ _ _ (mark_queued_Some _ generation at_ns _ _ _ E Hp)).
    rewrite (rollback_queued_Some id generation at_ns (with_state r (Queued at_ns generation p)) p);
      [|apply lookup_insert_eq|done].
    split; [done|]. split.
    + unfold same_ledger, same_rest. cbn. split_and!; try done.
      by apply put_restores.
    + intros c. set (q := queued_path _) in *. assert (CQueued <> q) by (by destruct (ot_content _)).
      cbn. destruct (decide (c = q)) as [->|]; [|destruct (decide (c = CQueued)) as [->|]; [|done]].
      * rewrite !(decide_False (P := q = CQueued)) by done. by apply unbump_bump.
      * by apply unbump_bump.
  - intros t Hf. eexists.
    rewrite (SM_bind_step _ _ _ _ _ (accept_state_Some _ t _ _ Hl E Hf)).
    rewrite (rollback_settlement_Some _ (with_state r (Settling t))); [|apply lookup_insert_eq|done].
    split; [done|]. split.
    + unfold same_ledger, same_rest. cbn. split_and!; try done.
      by apply put_restores.
    + intros c Hc. cbn. destruct (decide (c = CActiveSettling)) as [->|];
        [|by rewrite (decide_False (P := c = CTerminalAccepted))].
      rewrite (decide_False (P := CActiveSettling = CTerminalAccepted)) by done.
      apply unbump_bump. rewrite (lo_settling _ Hl). pose proof (lo_capacity _ Hl).
      pose proof (settling_count_put _ id r (with_state r (Settling t)) E) as Hn.
      rewrite (is_settling_final _ Hf) in Hn. cbn in Hn.
      pose proof (settling_count_size (<[id := with_state r (Settling t)]> (active l))) as Hs.
      rewrite map_size_insert_Some in Hs by done. lia.
Qed.

(** ** Dropping everything *)

Lemma push_history_settled r l : settled_output_terminals (push_history r l) = settled_output_terminals l.
Proof. unfold push_history. by destruct (_ =? _)%nat. Qed.
Lemma settled_terminals id prior t r l :
  settled_output_terminals (settled id prior t r l) = settled_output_terminals (noted id prior t l).
Proof.
  unfold settled. generalize (ending_counters t (ot_content (descriptor r))). intros cs.
  assert (H : forall l, settled_output_terminals (foldl (fun l c => bump c l) l cs)
                        = settled_output_terminals l).
  { induction cs as [|c cs IH]; intros l'; [done|]. cbn. by rewrite IH. }
  rewrite H. etransitivity; [apply push_history_settled|done].
Qed.
Definition no_pageflip (reason : OutputTransactionDropReason) : list OutputNoPageflipReason :=
  match reason with
  | DropNoVisualChange => []
  | DropOutputDestroyed => [NpOutputDestroyed]
  | DropSessionSuspended => [NpSessionSuspended]
  | DropSafeAbandonment => [NpSafeAbandonment]
  end.
Definition dropped_terminals (reason : OutputTransactionDropReason) (id : OutputTransactionId)
  : list SettledOutputTerminal := (fun r => mkSettled id (NoPageflip r)) <$> no_pageflip reason.
Lemma mark_dropped_Some id reason at_ns r l :
  ledger_ok l -> active l !! id = Some r -> is_final (state r) = false ->
  is_submitted (state r) && negb (drops_submitted reason) = false ->
  exists l', mark_dropped id reason at_ns l = (l', Ret tt) /\ ledger_ok l' /\
    active l' = delete id (active l) /\
    settled_output_terminals l' = settled_output_terminals l ++ dropped_terminals reason id.
Proof.
  intros Hl E Hf Hs. set (t := Dropped reason at_ns).
  assert (Ea : accept_dropped id reason at_ns l = accept_state id t l).
  { unfold accept_dropped. by rewrite (SM_bind_step _ _ _ _ _ (get_state_Some _ _ _ E)), Hs. }
  rewrite (accept_state_Some id t r l Hl E Hf) in Ea. set (l1 := bump _ _) in Ea. set (a := mkAccepted _ _ _ _) in Ea. set (r' := with_state r (Settling t)).
  assert (E1 : active l1 !! id = Some r') by apply lookup_insert_eq.
  assert (Hl1 : ledger_ok l1).
  { pose proof (ok_put_settling (bump CTerminalAccepted l) id r t
                  (ok_bump CTerminalAccepted l Hl ltac:(done)) E Hf) as H. exact H. }
  exists (settled id (Some (state r)) t r' l1). unfold mark_dropped.
  rewrite (SM_bind_step _ _ _ _ _ Ea), (finalize_Some a r') by done. split_and!; [done| | |].
  - by apply ok_settled.
  - rewrite settled_active. cbn. by rewrite delete_insert_eq.
  - rewrite settled_terminals. unfold noted, dropped_terminals. destruct reason; cbn; by rewrite ?app_nil_r.
Qed.
Lemma drop_all_Ret ids reason at_ns l :
  ledger_ok l -> base.NoDup ids -> drops_submitted reason = true ->
  (forall id, id ∈ ids -> exists r, active l !! id = Some r /\ is_final (state r) = false) ->
  exists l', drop_all ids reason at_ns l = (l', Ret tt) /\ ledger_ok l' /\
    (forall id, active l' !! id = if decide (id ∈ ids) then None else active l !! id) /\
    settled_output_terminals l'
    = settled_output_terminals l ++ concat (map (dropped_terminals reason) ids).
Proof.
  intros Hl Hnd Hr. revert l Hl. induction ids as [|id ids IH]; intros l Hl Hids.
  { exists l. split_and!; [done|done| |by rewrite app_nil_r]. intros id. by rewrite decide_False by set_solver. }
  apply list.NoDup_cons in Hnd as [Hn Hnd].
  destruct (Hids id) as (r & E & Hf); [set_solver|].
  destruct (mark_dropped_Some id reason at_ns r l) as (l1 & E1 & Hl1 & Ha1 & Ht1); try done.
  { by rewrite Hr, andb_false_r. }
  destruct (IH Hnd l1 Hl1) as (l' & E' & Hl' & Ha' & Ht').
  { intros id' Hid'. rewrite Ha1, lookup_delete_ne by (intros ->; done). apply Hids. set_solver. }
  exists l'. cbn [drop_all]. rewrite (SM_bind_step _ _ _ _ _ E1). split_and!; [done|done| |].
  - intros id'. rewrite Ha', Ha1. destruct (decide (id' ∈ ids)), (decide (id' ∈ id :: ids)); try done.
    + set_solver.
    + destruct (decide (id' = id)) as [->|]; [apply lookup_delete_eq|set_solver].
    + rewrite lookup_delete_ne; [done|]. set_solver.
  - rewrite Ht', Ht1. cbn. by rewrite <- app_assoc.
Qed.
(** Dropping everything on output loss, session suspension or safe
    abandonment ends every transaction: on a ledger in order in which nothing
    is settling the call succeeds, counts the transactions it ended, leaves
    no transaction and no owner of any batch, and reports one missing
    page-flip per transaction, with the reason, after what was already
    reported. *)
Theorem terminate_all_empties `{HashOrder} reason at_ns l :
  ledger_ok l -> drops_submitted reason = true ->
  (forall id r, active l !! id = Some r -> is_final (state r) = false) ->
  exists l', terminate_all reason at_ns l = (l', Ret (size (active l))) /\
    ledger_ok l' /\ active l' = ∅ /\ obligation_owner l' = ∅ /\ presentation_feedback_owner l' = ∅ /\
    settled_output_terminals l' = settled_output_terminals l ++
      concat (map (dropped_terminals reason) (hash_keys (active l))).
Proof.
  intros Hl Hr Hf.
  destruct (drop_all_Ret (hash_keys (active l)) reason at_ns l) as (l' & E & Hl' & Ha & Ht); try done.
  { apply NoDup_hash_keys. }
  { intros id [r Er]%elem_of_hash_keys. eauto. }
  assert (Hempty : active l' = ∅).
  { apply map_empty. intros id. rewrite Ha. destruct (decide _) as [|Hn]; [done|].
    rewrite elem_of_hash_keys in Hn. by apply eq_None_not_Some. }
  exists l'. split_and!; try done.
  - unfold terminate_all. rewrite SM_get_step, (SM_bind_step _ _ _ _ _ E).
    by rewrite hash_keys_perm, length_fmap, length_map_to_list.
  - apply map_empty. intros b. apply eq_None_not_Some. intros [id (r & Er & _)%(lo_frames _ Hl')].
    by rewrite Hempty in Er.
  - apply map_empty. intros b. apply eq_None_not_Some. intros [id (r & Er & _)%(lo_feedbacks _ Hl')].
    by rewrite Hempty in Er.
Qed.

(** ** A refused insertion *)

Lemma check_orphans_Fail batch_of m owner orphan bs b id :
  owner !! b = Some id -> m !! id = None -> b ∈ bs ->
  (forall b', b' <> b -> forall id', owner !! b' = Some id' ->
     exists r, m !! id' = Some r /\ batch_of r = Some b') ->
  check_orphans batch_of m owner orphan bs = Fail (orphan b id).
Proof.
  intros Hb Hid Hin Hothers. induction bs as [|b' bs IH]; [set_solver|]. cbn.
  destruct (decide (b' = b)) as [->|Hne]; [by rewrite Hb, Hid|].
  assert (b ∈ bs) as Hin' by set_solver. destruct (owner !! b') as [id'|] eqn:Eb; [|by apply IH].
  destruct (Hothers b' Hne id' Eb) as (r & Er & Hr). rewrite Er, decide_True by done. by apply IH.
Qed.
(** A refused insertion is not free of effects. On a ledger in order, a
    transaction that may be inserted but for its feedback batch, which
    another transaction owns, is refused as a duplicate owner; its frame
    batch stays recorded as owned by the transaction that was never
    inserted, so the ledger's ownership check now fails with an orphaned
    owner, and the same transaction without the feedback batch is refused
    too. *)
Theorem refused_insert_orphans_batch `{HashOrder} d b l :
  ledger_ok l -> ot_output_id d = lg_output_id l -> active l !! ot_id d = None ->
  recent_has (ot_id d) l = false -> (size (active l) < lg_active_capacity l)%nat ->
  frame_batch_id (ot_obligations d) = Some b -> obligation_owner l !! b = None ->
  is_owned (presentation_feedback_batch_id (ot_obligations d)) (presentation_feedback_owner l) = true ->
  exists l', insert d l = (l', Fail DuplicateObligationOwner) /\ active l' = active l /\
    validate_terminal_ownership l' = Fail (OrphanedObligationOwner b (ot_id d)) /\
    exists l'', insert (without_presentation_feedback_batch d) l' = (l'', Fail DuplicateObligationOwner).
Proof.
  intros Hl Hout Ha Hr Hc Hb Hfree Hown.
  assert (Hn : forall l1, active l1 = active l -> lg_output_id l1 = lg_output_id l ->
            recent_terminal l1 = recent_terminal l -> lg_active_capacity l1 = lg_active_capacity l ->
            negb (ot_output_id d =? lg_output_id l1) = false /\
            bool_decide (is_Some (active l1 !! ot_id d)) || recent_has (ot_id d) l1 = false /\
            (lg_active_capacity l1 <=? size (active l1))%nat = false).
  { intros l1 -> -> E ->. rewrite Hout, Z.eqb_refl. split; [done|]. split.
    - unfold recent_has in *. rewrite E, Hr, Ha. done.
    - by apply Nat.leb_gt. }
  destruct (Hn l) as (H1 & H2 & H3); try done.
  assert (Ho : is_owned (frame_batch_id (ot_obligations d)) (obligation_owner l) = false).
  { rewrite Hb. cbn. rewrite Hfree. apply bool_decide_eq_false. by intros [? ?]. }
  eexists. split_and!.
  - unfold insert. rewrite SM_get_step, H1, H2, H3, Ho. sm_run. rewrite Hown. sm_run. reflexivity.
  - done.
  - unfold validate_terminal_ownership. rewrite (check_owned_Ret frame_of).
    + unfold mbind at 1. cbn. rewrite Hb. cbn [insert_owner].
      rewrite (check_orphans_Fail frame_of (active l) _ _ _ b (ot_id d)).
      * done.
      * apply lookup_insert_eq.
      * done.
      * apply elem_of_hash_keys. rewrite lookup_insert_eq. eauto.
      * intros b' Hne id'. rewrite lookup_insert_ne by done. apply (lo_frames _ Hl).
    + cbn. rewrite Hb. cbn [insert_owner]. intros r b' Hin Hb'.
      assert (Ho' : obligation_owner l !! b' = Some (ot_id (descriptor r)))
        by (eapply active_values_owned; [done|by apply lo_frames|exact Hin|done]).
      rewrite lookup_insert_ne; [done|]. congruence.
  - set (l1 := bump _ _). destruct (Hn l1) as (G1 & G2 & G3); try done.
    eexists. unfold insert. rewrite SM_get_step. cbn [ot_output_id ot_id ot_obligations].
    change (ot_output_id (without_presentation_feedback_batch d)) with (ot_output_id d).
    change (ot_id (without_presentation_feedback_batch d)) with (ot_id d).
    change (frame_batch_id (ot_obligations (without_presentation_feedback_batch d)))
      with (frame_batch_id (ot_obligations d)).
    rewrite G1, G2, G3.
    assert (Hown1 : is_owned (frame_batch_id (ot_obligations d)) (obligation_owner l1) = true).
    { cbn. rewrite Hb. cbn. rewrite lookup_insert_eq. by apply bool_decide_eq_true. }
    rewrite Hown1. sm_run. reflexivity.
Qed.

(** ** Witnesses *)

(** A composited transaction, and a ledger that holds it. *)
Definition demo_transaction (id batch : Z) : OutputTransaction :=
  mkOutputTransaction id 1 1 0 (Fixed demo_target) PacingPredictiveTriple PacingPredictiveTriple
    ModeVsync DrmGraphics None (Composited 1 1 1 None)
    (mkPlanes (CompositorFramebuffer 0 9) CursorUnchanged []) composited_sync
    (obligations_composited batch) None None.
Lemma demo_transaction_built id batch :
  composited 1 id 1 0 demo_target PacingPredictiveTriple 1 1 1 0 9 None batch
  = Ret (demo_transaction id batch).
Proof. reflexivity. Qed.
Definition demo_start : OutputTransactionLedger := for_output 1 8 512.
Definition demo_ledger : OutputTransactionLedger := fst (insert (demo_transaction 7 5) demo_start).
Lemma demo_ledger_ok : ledger_ok demo_ledger.
Proof.
  assert (Hl : ledger_ok demo_start) by (by apply for_output_ok; vm_compute).
  pose proof (insert_sound _ (demo_transaction 7 5) demo_start
                (course_refl _ Hl) ltac:(reflexivity)) as Hw.
  unfold demo_ledger, wp in *. destruct (insert _ demo_start) as [l []]; cbn; try done;
    [by eapply moved_ok|apply Hw].
Qed.
Definition demo_ops : list LedgerOp :=
  [OpInsert (demo_transaction 7 5); OpReady 7 10; OpQueue 7 1 20; OpSubmit 7 99 30;
   OpAcceptPresented 7 99 1 40 (Some 3)].
Lemma ledger_invariant_witness :
  exists l, history (H := list_order) demo_start demo_ops l /\ ledger_ok l /\
    validate_terminal_ownership (H := list_order) l = Ret tt.
Proof.
  eexists. assert (Hh : history (H := list_order) demo_start demo_ops
    (fst (run_op (H := list_order) (OpAcceptPresented 7 99 1 40 (Some 3))
     (fst (run_op (H := list_order) (OpSubmit 7 99 30)
      (fst (run_op (H := list_order) (OpQueue 7 1 20)
       (fst (run_op (H := list_order) (OpReady 7 10)
        (fst (run_op (H := list_order) (OpInsert (demo_transaction 7 5)) demo_start))))))))))).
  { repeat (eapply history_cons; [vm_compute; reflexivity || exact I|apply surjective_pairing|]).
    apply history_nil. }
  split; [exact Hh|].
  destruct (ledger_invariant (H := list_order) 1 8 512 demo_ops _ ltac:(vm_compute; discriminate) Hh)
    as (H1 & H2 & _).
  split; [exact H1|exact H2].
Defined.
(** Queued, submitted, its presentation accepted and undone, then presented. *)
Definition demo_token : AcceptedTerminalTransition :=
  mkAccepted 7 (obligations_composited 5) (Submitted 99 30) (Presented 40 (Some 3)).
Definition demo_trace : list LedgerOp :=
  demo_ops ++ [OpRollbackSettlement demo_token; OpAcceptPresented 7 99 1 40 (Some 3);
               OpFinalize demo_token].
Definition demo_after (ops : list LedgerOp) : OutputTransactionLedger :=
  foldl (fun l op => fst (run_op (H := list_order) op l)) demo_start ops.
Lemma traced_success `{HashOrder} tk op es l l' :
  legal op l -> own_token op tk -> succeeds (snd (run_op op l)) = true ->
  traced (hand_out op l tk) (fst (run_op op l)) es l' -> traced tk l ((op, true) :: es) l'.
Proof. intros H1 H2 <- H3. eapply traced_cons; [done|done|apply surjective_pairing|done]. Qed.
Lemma ledger_refines_lifecycle_witness :
  exists g, lifecycle ∅ (map (fun op => (op, true)) demo_trace) g /\
    forall id, state_of (demo_after demo_trace) id = life_state <$> g !! id.
Proof.
  apply (ledger_refines_lifecycle (H := list_order) 1 8 512); [vm_compute; discriminate|].
  unfold demo_after, demo_trace, demo_ops. cbn [map app foldl].
  repeat (apply traced_success; [vm_compute; reflexivity || exact I
    |vm_compute; reflexivity || exact I|vm_compute; reflexivity|]).
  apply traced_nil.
Defined.
Lemma rollbacks_restore_witness :
  exists l', (a ← accept_state 7 (Dropped DropSafeAbandonment 50); rollback_settlement a) demo_ledger
             = (l', Ret tt) /\ active l' = active demo_ledger.
Proof.
  destruct (rollbacks_restore demo_ledger 7 (mkRecord (demo_transaction 7 5) Built) demo_ledger_ok
              ltac:(reflexivity)) as [_ H].
  destruct (H (Dropped DropSafeAbandonment 50) eq_refl) as (l' & E & Hs & _).
  exists l'. split; [exact E|apply Hs].
Defined.
Lemma terminate_all_empties_witness :
  exists l', terminate_all (H := list_order) DropOutputDestroyed 50 demo_ledger = (l', Ret 1%nat) /\
    active l' = ∅ /\ settled_output_terminals l' = [mkSettled 7 (NoPageflip NpOutputDestroyed)].
Proof.
  destruct (terminate_all_empties (H := list_order) DropOutputDestroyed 50 demo_ledger demo_ledger_ok
              eq_refl) as (l' & E & _ & Ha & _ & _ & Ht).
  - intros id r Hr.
    change (<[7 := mkRecord (demo_transaction 7 5) Built]> (active demo_start) !! id = Some r) in Hr.
    apply lookup_insert_Some in Hr as [[<- <-]|[_ Hr]]; [reflexivity|].
    change ((∅ : gmap OutputTransactionId OutputTransactionRecord) !! id = Some r) in Hr.
    by rewrite lookup_empty in Hr.
  - exists l'. split; [exact E|]. split; [exact Ha|exact Ht].
Defined.
Lemma refused_insert_orphans_batch_witness :
  exists l',
    insert (match with_presentation_feedback_batch 3 (demo_transaction 9 4) with Ret d => d | _ =>
              demo_transaction 9 4 end)
      (fst (attach_presentation_feedback_batch 7 3 demo_ledger)) = (l', Fail DuplicateObligationOwner) /\
    validate_terminal_ownership (H := list_order) l' = Fail (OrphanedObligationOwner 4 9).
Proof.
  set (l1 := fst (attach_presentation_feedback_batch 7 3 demo_ledger)).
  assert (Hl1 : ledger_ok l1).
  { pose proof (attach_sound _ 7 3 demo_ledger (course_refl _ demo_ledger_ok)) as Hw.
    unfold l1, wp in *. destruct (attach_presentation_feedback_batch 7 3 demo_ledger) as [l []];
      cbn; try (apply Hw; intros r [= <-]; reflexivity); by destruct Hw; intros r [= <-]. }
  destruct (refused_insert_orphans_batch (H := list_order)
              (match with_presentation_feedback_batch 3 (demo_transaction 9 4) with Ret d => d | _ =>
                 demo_transaction 9 4 end) 4 l1 Hl1)
    as (l' & E & _ & Hv & _); try (vm_compute; reflexivity).
  - vm_compute. lia.
  - exists l'. split; [exact E|exact Hv].
Defined.
