(* ===== verification/KmsTiming.v ===== *)
(** * KmsTiming: submit windows and dispatch budgets

    Models src/native_output/presentation/kms_timing.rs (the timing of a
    display mode, the window in which a commit may be submitted, the
    classification of a presented frame and the adaptive apply guard),
    src/native/kms_worker_dispatch_timing.rs (the dispatch budget measured
    from past submissions), src/native_output/kms_worker/timing.rs (a budget
    model per class of commit) and the wake times of kms_worker/thread.rs.
    The DRM mode and its flags come from outside the repository: the record
    holds the fields the code reads, the two flag bits are parameters. *)

From stdpp Require Import base list option sorting.
From Stdlib Require Import ZArith Lia.
From S2P Require Import Prelude Buffering Deadline RenderJournal.

(** ** Modes *)

Definition NANOS_PER_KHZ_PIXEL : Z := 1000000.
Definition UNKNOWN_BLANKING_GUARD_NS : Z := 1000000.
Definition INITIAL_ADAPTIVE_APPLY_GUARD_NS : Z := 1000000.
Definition APPLY_GUARD_STEP_NS : Z := 50000.
Definition APPLY_HIT_DECAY_SAMPLES : Z := 16.
Definition MAX_ADAPTIVE_APPLY_GUARD_NS : Z := 3000000.
Definition MIN_ADAPTIVE_APPLY_GUARD_NS : Z := 300000.

(** A DRM mode is what [KmsModeTimingKey::from_mode] copies of it. *)
Record KmsModeTimingKey : Type := mkModeKey {
  mk_clock : Z; mk_hdisplay : Z; mk_hsync_start : Z; mk_hsync_end : Z; mk_htotal : Z; mk_hskew : Z;
  mk_vdisplay : Z; mk_vsync_start : Z; mk_vsync_end : Z; mk_vtotal : Z; mk_vscan : Z; mk_flags : Z;
  mk_type : Z
}.
#[export] Instance KmsModeTimingKey_eq_dec : EqDecision KmsModeTimingKey.
Proof. solve_decision. Defined.
Record KmsModeTiming : Type := mkModeTiming {
  mt_key : KmsModeTimingKey;
  mt_refresh_interval_ns : Z;
  mt_blanking_interval_ns : option Z
}.
(** The widths of the fields of a mode. *)
Definition mode_in_range (m : KmsModeTimingKey) : Prop :=
  0 <= mk_clock m <= u32_max /\ 0 <= mk_htotal m < 65536 /\ 0 <= mk_vtotal m < 65536 /\
  0 <= mk_hdisplay m < 65536 /\ 0 <= mk_vdisplay m < 65536.

Section Modes.
Context (DRM_MODE_FLAG_INTERLACE DRM_MODE_FLAG_DBLSCAN : Z).

Definition is_progressive (m : KmsModeTimingKey) : bool :=
  negb (mk_clock m =? 0) && (mk_hdisplay m <=? mk_htotal m) && (mk_vdisplay m <=? mk_vtotal m)
  && negb (mk_htotal m =? 0) && negb (mk_vtotal m =? 0) && (mk_vscan m <=? 1)
  && (Z.land (mk_flags m) (Z.lor DRM_MODE_FLAG_INTERLACE DRM_MODE_FLAG_DBLSCAN) =? 0).
(** [a.checked_mul(b)?.checked_mul(NANOS_PER_KHZ_PIXEL)?.checked_div(clock)]. *)
Definition pixel_time (a b clock : Z) : option Z :=
  match checked_mul u64_max a b with
  | Some pixels =>
      match checked_mul u64_max pixels NANOS_PER_KHZ_PIXEL with
      | Some pixels => if clock =? 0 then None else Some (pixels / clock)
      | None => None
      end
  | None => None
  end.
Definition from_mode (m : KmsModeTimingKey) (fallback_refresh_interval_ns : Z) : KmsModeTiming :=
  let progressive := is_progressive m in
  let refresh_interval_ns :=
    match (if progressive then pixel_time (mk_htotal m) (mk_vtotal m) (mk_clock m) else None) with
    | Some interval =>
        if negb (interval =? 0) then interval else Z.max fallback_refresh_interval_ns 1
    | None => Z.max fallback_refresh_interval_ns 1
    end in
  let blanking_interval_ns :=
    if progressive then pixel_time (mk_vtotal m - mk_vdisplay m) (mk_htotal m) (mk_clock m) else None in
  mkModeTiming m refresh_interval_ns blanking_interval_ns.

Lemma pixel_time_Some a b clock :
  0 <= a < 65536 -> 0 <= b < 65536 -> 0 < clock -> pixel_time a b clock = Some (a * b * 1000000 / clock).
Proof.
  intros Ha Hb Hc. unfold pixel_time, checked_mul, NANOS_PER_KHZ_PIXEL, u64_max.
  rewrite checked_in by nia. rewrite checked_in by nia. destruct (Z.eqb_spec clock 0); [lia|done].
Qed.
End Modes.

(** ** Submit windows *)

Record KmsSubmitWindow : Type := mkWindow {
  sw_mode_key : option KmsModeTimingKey;
  sw_target_presentation_ns : Z;
  sw_earliest_submit_ns : Z;
  sw_worker_wake_at_ns : Z;
  sw_commit_complete_deadline_ns : Z;
  sw_dispatch_budget_ns : Z;
  sw_apply_guard_ns : Z
}.
#[export] Instance KmsSubmitWindow_eq_dec : EqDecision KmsSubmitWindow.
Proof. solve_decision. Defined.
Inductive KmsPresentationTiming : Type :=
| TimingFixed (window : KmsSubmitWindow)
| TimingVariable (earliest_submit_ns : Z).
#[export] Instance KmsPresentationTiming_eq_dec : EqDecision KmsPresentationTiming.
Proof. solve_decision. Defined.
Definition fixed_submit_window (t : KmsPresentationTiming) : option KmsSubmitWindow :=
  match t with TimingFixed window => Some window | TimingVariable _ => None end.
Definition earliest_submit_ns (t : KmsPresentationTiming) : Z :=
  match t with TimingFixed window => sw_earliest_submit_ns window | TimingVariable e => e end.
Definition worker_wake_at_ns (t : KmsPresentationTiming) : Z :=
  match t with TimingFixed window => sw_worker_wake_at_ns window | TimingVariable e => e end.
Definition is_eligible_at (now_ns : Z) (t : KmsPresentationTiming) : bool :=
  earliest_submit_ns t <=? now_ns.

Record KmsSubmitWindowError : Type := mkWindowError {
  we_earliest_submit_ns : Z;
  we_commit_complete_deadline_ns : Z
}.
Definition late_latch (target_presentation_ns earliest dispatch_budget_ns apply_guard_ns : Z)
  : KmsSubmitWindow :=
  let deadline := sat_sub target_presentation_ns apply_guard_ns in
  mkWindow None target_presentation_ns earliest
    (Z.max earliest (sat_sub deadline dispatch_budget_ns)) deadline dispatch_budget_ns apply_guard_ns.
Definition window_try_new (target_presentation_ns earliest dispatch_budget_ns apply_guard_ns : Z)
  : res KmsSubmitWindowError KmsSubmitWindow :=
  let deadline := sat_sub target_presentation_ns apply_guard_ns in
  if deadline <? earliest then Fail (mkWindowError earliest deadline)
  else
    Ret (mkWindow None target_presentation_ns earliest
           (Z.max earliest (sat_sub deadline dispatch_budget_ns)) deadline dispatch_budget_ns
           apply_guard_ns).
Definition with_mode_key (key : KmsModeTimingKey) (w : KmsSubmitWindow) : KmsSubmitWindow :=
  mkWindow (Some key) (sw_target_presentation_ns w) (sw_earliest_submit_ns w) (sw_worker_wake_at_ns w)
    (sw_commit_complete_deadline_ns w) (sw_dispatch_budget_ns w) (sw_apply_guard_ns w).
Definition rebind (w : KmsSubmitWindow) (target_presentation_ns earliest : Z)
  : res KmsSubmitWindowError KmsSubmitWindow :=
  rebound ← window_try_new target_presentation_ns earliest (sw_dispatch_budget_ns w)
              (sw_apply_guard_ns w);
  Ret (match sw_mode_key w with Some key => with_mode_key key rebound | None => rebound end).
Definition is_dispatch_miss_at (submit_returned_at_ns : Z) (w : KmsSubmitWindow) : bool :=
  sw_commit_complete_deadline_ns w <? submit_returned_at_ns.

Inductive KmsPresentationOutcome : Type :=
  TargetHit | RenderReadinessMiss | KmsDispatchMiss | KmsApplyGuardMiss.
#[export] Instance KmsPresentationOutcome_eq_dec : EqDecision KmsPresentationOutcome.
Proof. solve_decision. Defined.
Definition classify (w : KmsSubmitWindow) (render_readiness_observed_at_ns : option Z)
  (submit_returned_at_ns target_sequence presented_sequence : Z) : KmsPresentationOutcome :=
  if match render_readiness_observed_at_ns with
     | Some observed_at => sw_commit_complete_deadline_ns w <? observed_at
     | None => false
     end
  then RenderReadinessMiss
  else if is_dispatch_miss_at submit_returned_at_ns w then KmsDispatchMiss
  else if target_sequence <? presented_sequence then KmsApplyGuardMiss
  else TargetHit.

(** ** The adaptive apply guard *)

Record KmsPresentationTimingModel : Type := mkTimingModel {
  tm_mode : KmsModeTiming;
  tm_output_generation : Z;
  tm_base_mode_guard_ns : Z;
  tm_adaptive_apply_guard_ns : Z;
  tm_stable_target_hits : Z;
  tm_target_hits : Z;
  tm_render_readiness_misses : Z;
  tm_dispatch_misses : Z;
  tm_apply_guard_misses : Z;
  tm_unreachable_targets : Z
}.
Record KmsPresentationTimingSnapshot : Type := mkTimingSnapshot {
  ts_target_hits : Z; ts_render_readiness_misses : Z; ts_dispatch_misses : Z;
  ts_apply_guard_misses : Z; ts_unreachable_targets : Z
}.
Record KmsPresentationTimingObservation : Type := mkTimingObservation {
  to_accepted : bool;
  to_apply_guard_before_ns : Z;
  to_apply_guard_after_ns : Z;
  to_apply_guard_increased : bool;
  to_apply_guard_cap_hit : bool
}.
Definition timing_model_new (mode : KmsModeTiming) (output_generation : Z)
  : KmsPresentationTimingModel :=
  mkTimingModel mode output_generation
    (default UNKNOWN_BLANKING_GUARD_NS (mt_blanking_interval_ns mode))
    INITIAL_ADAPTIVE_APPLY_GUARD_NS 0 0 0 0 0 0.
Definition apply_guard_ns (m : KmsPresentationTimingModel) : Z :=
  sat_add u64_max (tm_base_mode_guard_ns m) (tm_adaptive_apply_guard_ns m).
Definition reconfigure (mode : KmsModeTiming) (output_generation : Z) (m : KmsPresentationTimingModel)
  : KmsPresentationTimingModel * bool :=
  if bool_decide (mt_key (tm_mode m) = mt_key mode) && (tm_output_generation m =? output_generation)
  then (m, false)
  else (timing_model_new mode output_generation, true).
Definition submit_window (target_presentation_ns earliest dispatch_budget_ns : Z)
  (m : KmsPresentationTimingModel) : res KmsSubmitWindowError KmsSubmitWindow :=
  with_mode_key (mt_key (tm_mode m)) <$>
  window_try_new target_presentation_ns earliest dispatch_budget_ns (apply_guard_ns m).
Definition record_unreachable_target (m : KmsPresentationTimingModel) : KmsPresentationTimingModel :=
  mkTimingModel (tm_mode m) (tm_output_generation m) (tm_base_mode_guard_ns m)
    (tm_adaptive_apply_guard_ns m) (tm_stable_target_hits m) (tm_target_hits m)
    (tm_render_readiness_misses m) (tm_dispatch_misses m) (tm_apply_guard_misses m)
    (sat_add u64_max (tm_unreachable_targets m) 1).
Definition timing_snapshot (m : KmsPresentationTimingModel) : KmsPresentationTimingSnapshot :=
  mkTimingSnapshot (tm_target_hits m) (tm_render_readiness_misses m) (tm_dispatch_misses m)
    (tm_apply_guard_misses m) (tm_unreachable_targets m).
(** What each outcome assigns: the guard, the run of hits, the four counts. *)
Definition counted (b : bool) (n : Z) : Z := if b then sat_add u64_max n 1 else n.
Definition set_guard (guard stable : Z) (hit readiness dispatch apply : bool)
  (m : KmsPresentationTimingModel) : KmsPresentationTimingModel :=
  mkTimingModel (tm_mode m) (tm_output_generation m) (tm_base_mode_guard_ns m) guard stable
    (counted hit (tm_target_hits m)) (counted readiness (tm_render_readiness_misses m))
    (counted dispatch (tm_dispatch_misses m)) (counted apply (tm_apply_guard_misses m))
    (tm_unreachable_targets m).
Definition decayed_guard (guard : Z) : Z :=
  Z.max (sat_sub guard (Z.max (guard / APPLY_HIT_DECAY_SAMPLES) APPLY_GUARD_STEP_NS))
    MIN_ADAPTIVE_APPLY_GUARD_NS.
Definition observe_outcome (outcome : KmsPresentationOutcome) (m : KmsPresentationTimingModel)
  : KmsPresentationTimingModel * bool :=
  let guard := tm_adaptive_apply_guard_ns m in
  match outcome with
  | TargetHit =>
      let stable := sat_add u32_max (tm_stable_target_hits m) 1 in
      if APPLY_HIT_DECAY_SAMPLES <=? stable
      then (set_guard (decayed_guard guard) 0 true false false false m, false)
      else (set_guard guard stable true false false false m, false)
  | RenderReadinessMiss => (set_guard guard 0 false true false false m, false)
  | KmsDispatchMiss => (set_guard guard 0 false false true false m, false)
  | KmsApplyGuardMiss =>
      let requested := sat_add u64_max guard APPLY_GUARD_STEP_NS in
      (set_guard (Z.min requested MAX_ADAPTIVE_APPLY_GUARD_NS) 0 false false false true m,
       MAX_ADAPTIVE_APPLY_GUARD_NS <? requested)
  end.
Definition observe_pageflip_with_evidence (output_generation : Z) (mode_key : KmsModeTimingKey)
  (outcome : KmsPresentationOutcome) (m : KmsPresentationTimingModel)
  : KmsPresentationTimingModel * KmsPresentationTimingObservation :=
  let before := tm_adaptive_apply_guard_ns m in
  if negb (tm_output_generation m =? output_generation)
     || negb (bool_decide (mt_key (tm_mode m) = mode_key))
  then (m, mkTimingObservation false before before false false)
  else
    let '(m', cap_hit) := observe_outcome outcome m in
    let after := tm_adaptive_apply_guard_ns m' in
    (m', mkTimingObservation true before after (before <? after) cap_hit).
Definition observe_pageflip (output_generation : Z) (mode_key : KmsModeTimingKey)
  (outcome : KmsPresentationOutcome) (m : KmsPresentationTimingModel)
  : KmsPresentationTimingModel * bool :=
  let '(m', o) := observe_pageflip_with_evidence output_generation mode_key outcome m in
  (m', to_accepted o).

(** ** Dispatch budgets *)

Definition WARM_PAIRED_SAMPLES : Z := 20.
Definition DISPATCH_GUARD_NS : Z := 50000.
Definition DISPATCH_TAIL_SAFETY_QUANTUM_NS : Z := 50000.
Definition DISPATCH_TAIL_CLEAN_STREAK : Z := 32.
Definition DISPATCH_TAIL_DECAY_NS : Z := 50000.
Definition CURSOR_DISPATCH_TAIL_CLEAN_STREAK : Z := 2.
Definition CURSOR_DISPATCH_TAIL_MIN_DECAY_NS : Z := 100000.
Definition CURSOR_DISPATCH_TAIL_AGE_MIN_NS : Z := 100000000.
Definition CURSOR_DISPATCH_TAIL_AGE_MAX_NS : Z := 500000000.
Definition MAX_DISPATCH_TAIL_GUARD_NS : Z := 1000000.

Record KmsWorkerDispatchTailObservation : Type := mkTailObservation {
  tl_binding_target : bool;
  tl_dequeued_before_planned_wake : bool;
  tl_fair_dispatch_chance : bool;
  tl_deadline_overrun_ns : Z;
  tl_guard_before_ns : Z;
  tl_guard_ns : Z;
  tl_increased : bool;
  tl_decayed : bool;
  tl_cap_hit : bool
}.
Definition dispatch_fairness (binding_target dequeued_before_planned_wake : bool) : bool :=
  binding_target && dequeued_before_planned_wake.
Record KmsWorkerDispatchBudget : Type := mkBudget {
  db_wake_lateness_ns : Z;
  db_pre_submit_ns : Z;
  db_ioctl_duration_ns : Z;
  db_dispatch_budget_ns : Z
}.
Record KmsWorkerDispatchModel : Type := mkDispatch {
  dm_wake_lateness_ns : list Z;
  dm_pre_submit_ns : list Z;
  dm_ioctl_duration_ns : list Z;
  dm_dispatch_duration_ns : list Z;
  dm_wake_plus_dispatch_ns : list Z;
  dm_pending_wake_lateness_ns : option Z;
  dm_adaptive_tail_guard_ns : Z;
  dm_clean_completion_streak : Z;
  dm_clean_streak_limit : Z;
  dm_fast_clean_recovery : bool;
  dm_age_window_ns : option Z;
  dm_age_anchor_ns : Z;
  dm_age_anchor_guard_ns : Z
}.
Definition dispatch_default : KmsWorkerDispatchModel :=
  mkDispatch [] [] [] [] [] None 0 0 DISPATCH_TAIL_CLEAN_STREAK false None 0 0.
Definition dispatch_cursor : KmsWorkerDispatchModel :=
  mkDispatch [] [] [] [] [] None 0 0 CURSOR_DISPATCH_TAIL_CLEAN_STREAK true
    (Some CURSOR_DISPATCH_TAIL_AGE_MIN_NS) 0 0.
(** [reset_cursor_state] assigns every field. *)
Definition reset_cursor_state (_ : KmsWorkerDispatchModel) : KmsWorkerDispatchModel :=
  mkDispatch [] [] [] [] [] None 0 0 CURSOR_DISPATCH_TAIL_CLEAN_STREAK true
    (Some CURSOR_DISPATCH_TAIL_AGE_MIN_NS) 0 0.

(** Field assignments. *)
Definition set_samples (wake pre ioctl dispatch paired : list Z) (pending : option Z)
  (m : KmsWorkerDispatchModel) : KmsWorkerDispatchModel :=
  mkDispatch wake pre ioctl dispatch paired pending (dm_adaptive_tail_guard_ns m)
    (dm_clean_completion_streak m) (dm_clean_streak_limit m) (dm_fast_clean_recovery m)
    (dm_age_window_ns m) (dm_age_anchor_ns m) (dm_age_anchor_guard_ns m).
Definition set_tail (guard streak : Z) (window : option Z) (anchor anchor_guard : Z)
  (m : KmsWorkerDispatchModel) : KmsWorkerDispatchModel :=
  mkDispatch (dm_wake_lateness_ns m) (dm_pre_submit_ns m) (dm_ioctl_duration_ns m)
    (dm_dispatch_duration_ns m) (dm_wake_plus_dispatch_ns m) (dm_pending_wake_lateness_ns m) guard streak
    (dm_clean_streak_limit m) (dm_fast_clean_recovery m) window anchor anchor_guard.

Definition dispatch_push (samples : list Z) (sample : Z) : list Z :=
  (if zlen samples =? SAMPLE_CAPACITY then tail samples else samples) ++ [sample].
Definition dispatch_rank (samples : list Z) (percentile : Z) : option Z :=
  if zlen samples =? 0 then Some 0
  else if SAMPLE_CAPACITY <? zlen samples then None
  else merge_sort Z.le samples !! Z.to_nat (rank_index percentile (zlen samples) - 1).
Definition decay_samples_toward (floor : Z) (samples : list Z) : list Z :=
  map (fun sample => if floor <? sample then sat_add u64_max floor (sat_sub sample floor / 2)
                     else sample) samples.

Definition set_cursor_recovery_window (refresh_interval_ns : Z) (m : KmsWorkerDispatchModel)
  : KmsWorkerDispatchModel :=
  if negb (dm_fast_clean_recovery m) then m
  else
    set_tail (dm_adaptive_tail_guard_ns m) (dm_clean_completion_streak m)
      (Some (clampZ CURSOR_DISPATCH_TAIL_AGE_MIN_NS CURSOR_DISPATCH_TAIL_AGE_MAX_NS
               (sat_mul u64_max refresh_interval_ns 8)))
      (dm_age_anchor_ns m) (dm_age_anchor_guard_ns m) m.
Definition age_tail_guard (now_ns : Z) (m : KmsWorkerDispatchModel) : KmsWorkerDispatchModel :=
  match dm_age_window_ns m with
  | None => m
  | Some window =>
      let elapsed := sat_sub now_ns (dm_age_anchor_ns m) in
      if (elapsed =? 0) || (dm_adaptive_tail_guard_ns m =? 0) then m
      else
        set_tail
          (if window <=? elapsed then 0
           else sat_mul u64_max (dm_age_anchor_guard_ns m) (sat_sub window elapsed) / window)
          (dm_clean_completion_streak m) (dm_age_window_ns m) (dm_age_anchor_ns m)
          (dm_age_anchor_guard_ns m) m
  end.
Definition record_worker_service (pre_submit ioctl dispatch : Z) (m : KmsWorkerDispatchModel)
  : KmsWorkerDispatchModel :=
  set_samples (dm_wake_lateness_ns m) (dispatch_push (dm_pre_submit_ns m) pre_submit)
    (dispatch_push (dm_ioctl_duration_ns m) ioctl) (dispatch_push (dm_dispatch_duration_ns m) dispatch)
    (match dm_pending_wake_lateness_ns m with
     | Some wake => dispatch_push (dm_wake_plus_dispatch_ns m) (sat_add u64_max wake dispatch)
     | None => dm_wake_plus_dispatch_ns m
     end) None m.
Definition record_fixed_timed_wake (lateness : Z) (m : KmsWorkerDispatchModel)
  : KmsWorkerDispatchModel :=
  set_samples (dispatch_push (dm_wake_lateness_ns m) lateness) (dm_pre_submit_ns m)
    (dm_ioctl_duration_ns m) (dm_dispatch_duration_ns m) (dm_wake_plus_dispatch_ns m) (Some lateness) m.
(** [None] is the panic of a percentile of an oversized window. *)
Definition budget (m : KmsWorkerDispatchModel) : option KmsWorkerDispatchBudget :=
  wake ← dispatch_rank (dm_wake_lateness_ns m) 95;
  pre ← dispatch_rank (dm_pre_submit_ns m) 95;
  ioctl ← dispatch_rank (dm_ioctl_duration_ns m) 95;
  dispatch ← dispatch_rank (dm_dispatch_duration_ns m) 95;
  tail ← (if WARM_PAIRED_SAMPLES <=? zlen (dm_wake_plus_dispatch_ns m)
          then paired ← dispatch_rank (dm_wake_plus_dispatch_ns m) 95; Some (Z.max paired dispatch)
          else Some (sat_add u64_max wake dispatch));
  Some (mkBudget wake pre ioctl
          (sat_add u64_max (sat_add u64_max tail DISPATCH_GUARD_NS) (dm_adaptive_tail_guard_ns m))).
Definition decay_cursor_history_toward_recent_clean_sample (m : KmsWorkerDispatchModel)
  : KmsWorkerDispatchModel :=
  let decay l := decay_samples_toward (default 0 (last l)) l in
  set_samples (decay (dm_wake_lateness_ns m)) (decay (dm_pre_submit_ns m))
    (decay (dm_ioctl_duration_ns m)) (decay (dm_dispatch_duration_ns m))
    (decay (dm_wake_plus_dispatch_ns m)) (dm_pending_wake_lateness_ns m) m.
Definition observe_submission_deadline (commit_complete_deadline submit_returned_at : Z)
  (binding_target dequeued_before_planned_wake : bool) (m : KmsWorkerDispatchModel)
  : KmsWorkerDispatchModel * KmsWorkerDispatchTailObservation :=
  let m := age_tail_guard submit_returned_at m in
  let fair := dispatch_fairness binding_target dequeued_before_planned_wake in
  let overrun := sat_sub submit_returned_at commit_complete_deadline in
  let before := dm_adaptive_tail_guard_ns m in
  let observe m increased decayed cap_hit :=
    (m, mkTailObservation binding_target dequeued_before_planned_wake fair overrun before
          (dm_adaptive_tail_guard_ns m) increased decayed cap_hit) in
  if fair
  then
    if 0 <? overrun
    then
      let requested := sat_add u64_max overrun DISPATCH_TAIL_SAFETY_QUANTUM_NS in
      let next := sat_add u64_max before requested in
      let guard := Z.min next MAX_DISPATCH_TAIL_GUARD_NS in
      observe (set_tail guard 0 (dm_age_window_ns m) submit_returned_at guard m)
        (before <? guard) false (MAX_DISPATCH_TAIL_GUARD_NS <? next)
    else
      let streak := sat_add u32_max (dm_clean_completion_streak m) 1 in
      if dm_clean_streak_limit m <=? streak
      then
        let m := if dm_fast_clean_recovery m
                 then decay_cursor_history_toward_recent_clean_sample m else m in
        let prior := dm_adaptive_tail_guard_ns m in
        let decay := if dm_fast_clean_recovery m
                     then Z.max (prior / 4) CURSOR_DISPATCH_TAIL_MIN_DECAY_NS
                     else DISPATCH_TAIL_DECAY_NS in
        let guard := sat_sub prior decay in
        observe (set_tail guard 0 (dm_age_window_ns m) submit_returned_at guard m)
          false (guard <? prior) false
      else
        observe (set_tail before streak (dm_age_window_ns m) (dm_age_anchor_ns m)
                   (dm_age_anchor_guard_ns m) m) false false false
  else observe m false false false.

(** ** A model per class of commit *)

Inductive KmsServiceClass : Type := ServicePrimary | CursorPlaneDelta | DirectScanout.
#[export] Instance KmsServiceClass_eq_dec : EqDecision KmsServiceClass.
Proof. solve_decision. Defined.
Record KmsDispatchModels : Type := mkModels {
  dms_primary : KmsWorkerDispatchModel;
  dms_cursor : KmsWorkerDispatchModel;
  dms_direct : KmsWorkerDispatchModel;
  dms_cursor_generation : option Z;
  dms_cursor_mode_key : option KmsModeTimingKey
}.
Definition models_default : KmsDispatchModels :=
  mkModels dispatch_default dispatch_cursor dispatch_default None None.
Definition model (class : KmsServiceClass) (ms : KmsDispatchModels) : KmsWorkerDispatchModel :=
  match class with
  | ServicePrimary => dms_primary ms
  | CursorPlaneDelta => dms_cursor ms
  | DirectScanout => dms_direct ms
  end.
(** An assignment through [model_mut]. *)
Definition model_mut (class : KmsServiceClass) (f : KmsWorkerDispatchModel -> KmsWorkerDispatchModel)
  (ms : KmsDispatchModels) : KmsDispatchModels :=
  match class with
  | ServicePrimary => mkModels (f (dms_primary ms)) (dms_cursor ms) (dms_direct ms)
                        (dms_cursor_generation ms) (dms_cursor_mode_key ms)
  | CursorPlaneDelta => mkModels (dms_primary ms) (f (dms_cursor ms)) (dms_direct ms)
                          (dms_cursor_generation ms) (dms_cursor_mode_key ms)
  | DirectScanout => mkModels (dms_primary ms) (dms_cursor ms) (f (dms_direct ms))
                       (dms_cursor_generation ms) (dms_cursor_mode_key ms)
  end.
Definition rebind_cursor_timing_domain (generation : Z) (mode_key : option KmsModeTimingKey)
  (ms : KmsDispatchModels) : KmsDispatchModels :=
  if negb (bool_decide (dms_cursor_generation ms = Some generation))
     || negb (bool_decide (dms_cursor_mode_key ms = mode_key))
  then mkModels (dms_primary ms) (reset_cursor_state (dms_cursor ms)) (dms_direct ms) (Some generation)
         mode_key
  else ms.
Definition rebind_cursor_generation (generation : Z) : KmsDispatchModels -> KmsDispatchModels :=
  rebind_cursor_timing_domain generation None.

(** ** When the worker wakes *)

Definition held_wake_at_with (timing : KmsPresentationTiming) (class : KmsServiceClass)
  (late_latch : bool) : Z :=
  match timing with
  | TimingFixed window =>
      if negb (bool_decide (class = CursorPlaneDelta)) && negb late_latch
      then sw_earliest_submit_ns window else worker_wake_at_ns timing
  | TimingVariable _ => worker_wake_at_ns timing
  end.
Definition worker_wait_is_armed (reason : PresentationTargetReason) (planned_worker_wake_at now_ns : Z)
  : bool :=
  negb (bool_decide (reason = ReactiveDouble)) && (now_ns <? planned_worker_wake_at).

(** ** Modes and windows *)

(** The timing read off a display mode is consistent, whatever the
    driver reports: the refresh interval is at least a nanosecond and, for a
    progressive mode, is the exact pixel count over the clock unless that is
    below a nanosecond; the blanking interval is known exactly for
    progressive modes and never exceeds the refresh interval; no
    multiplication overflows. *)
Theorem mode_timing_exact interlace dblscan m fallback :
  mode_in_range m ->
  let t := from_mode interlace dblscan m fallback in
  let total := mk_htotal m * mk_vtotal m * 1000000 / mk_clock m in
  mt_key t = m /\ 1 <= mt_refresh_interval_ns t /\
  (is_progressive interlace dblscan m = true -> 1 <= total -> mt_refresh_interval_ns t = total) /\
  (is_progressive interlace dblscan m = true ->
     mt_blanking_interval_ns t
     = Some ((mk_vtotal m - mk_vdisplay m) * mk_htotal m * 1000000 / mk_clock m)) /\
  (forall b, mt_blanking_interval_ns t = Some b -> 0 <= b <= mt_refresh_interval_ns t).
Proof.
  intros (Hc & Hh & Hv & Hd & Hw). cbn. unfold from_mode.
  destruct (is_progressive interlace dblscan m) eqn:Ep; cbn [mt_key mt_refresh_interval_ns mt_blanking_interval_ns].
  2:{ split_and!; try done; lia. }
  unfold is_progressive in Ep. bool_facts.
  rewrite pixel_time_Some, pixel_time_Some by lia.
  assert (Hle : 0 <= (mk_vtotal m - mk_vdisplay m) * mk_htotal m * 1000000 / mk_clock m
                <= mk_htotal m * mk_vtotal m * 1000000 / mk_clock m).
  { split; [apply Z.div_pos; nia|]. apply Z.div_le_mono; [lia|nia]. }
  destruct (Z.eqb_spec (mk_htotal m * mk_vtotal m * 1000000 / mk_clock m) 0); cbn [negb];
    split_and!; try done; try lia; intros; simplify_eq; lia.
Qed.
Lemma mode_timing_exact_witness :
  mt_refresh_interval_ns (from_mode 16 32 (mkModeKey 148500 1920 2008 2052 2200 0 1080 1084 1089 1125 0 0 0) 1)
  = 16666666.
Proof.
  pose proof (mode_timing_exact 16 32
    (mkModeKey 148500 1920 2008 2052 2200 0 1080 1084 1089 1125 0 0 0) 1
    ltac:(unfold mode_in_range, u32_max; cbn; lia)) as H.
  cbn zeta in H. destruct H as (_ & _ & H & _). rewrite H; [reflexivity|reflexivity|vm_compute; discriminate].
Defined.

(** C33: the submit window of a target, an earliest submission time, a dispatch
    budget and an apply guard, all of [u64] width. Its deadline is the target
    less the guard, at least zero, and it exists exactly if the earliest time
    is not after the deadline; the dispatch budget plays no part in that. In
    a window that exists the earliest time, the wake, the deadline and the
    target are in order. If the budget fits between the earliest time and the
    deadline, the wake is the latest time that leaves it, so a commit that
    returns within the budget of its wake is no dispatch miss; if it does not
    fit, the wake is the earliest time and a commit that takes its whole
    budget is a miss. A window moved to another target keeps its budget,
    guard and mode. The late-latch window of the same arguments is this
    window where it exists; where it does not, the late-latch window is still
    made, and every commit that returns at its wake or later is a dispatch
    miss. *)
Theorem submit_window_bounds target earliest dispatch guard :
  in_u64 target -> in_u64 earliest -> in_u64 dispatch -> in_u64 guard ->
  let deadline := Z.max 0 (target - guard) in
  match window_try_new target earliest dispatch guard with
  | Ret w =>
      earliest <= deadline /\
      sw_commit_complete_deadline_ns w = deadline /\
      earliest <= sw_worker_wake_at_ns w <= deadline /\ deadline <= target /\
      (earliest + dispatch <= deadline ->
         sw_worker_wake_at_ns w + dispatch <= deadline /\
         (forall t, t + dispatch <= deadline -> t <= sw_worker_wake_at_ns w) /\
         forall t, t <= sw_worker_wake_at_ns w + dispatch -> is_dispatch_miss_at t w = false) /\
      (deadline < earliest + dispatch ->
         sw_worker_wake_at_ns w = earliest /\
         is_dispatch_miss_at (sw_worker_wake_at_ns w + dispatch) w = true) /\
      (forall target' earliest' key w',
         rebind (with_mode_key key w) target' earliest' = Ret w' ->
         sw_mode_key w' = Some key /\ sw_dispatch_budget_ns w' = dispatch /\
         sw_apply_guard_ns w' = guard /\ sw_target_presentation_ns w' = target') /\
      late_latch target earliest dispatch guard = w
  | Fail e =>
      deadline < earliest /\ e = mkWindowError earliest deadline /\
      let w := late_latch target earliest dispatch guard in
      sw_worker_wake_at_ns w = earliest /\
      forall t, sw_worker_wake_at_ns w <= t -> is_dispatch_miss_at t w = true
  | _ => False
  end.
Proof.
  intros Ht He Hd Hg deadline. unfold in_u64 in *. unfold window_try_new at 1, late_latch, is_dispatch_miss_at.
  replace (sat_sub target guard) with deadline by (unfold sat_sub, deadline; lia).
  destruct (Z.ltb_spec deadline earliest); cbn; unfold sat_sub.
  - split; [lia|]. split; [done|]. split; [lia|]. intros t Hw. apply Z.ltb_lt. lia.
  - split_and!; try lia; try done.
    + intros Hf. split_and!; [lia|lia|]. intros t Hw. apply Z.ltb_ge. lia.
    + intros target' earliest' key w' E. unfold rebind in E. apply bind_Ret in E as (r & E & [= <-]).
      cbn in E. unfold window_try_new in E. destruct (_ <? _); [done|]. by injection E as <-.
Qed.
Lemma submit_window_bounds_witness :
  match window_try_new 1000 100 200 50 with
  | Ret w => sw_worker_wake_at_ns w = 750 /\ 100 <= sw_worker_wake_at_ns w <= sw_commit_complete_deadline_ns w
  | _ => False
  end.
Proof.
  pose proof (submit_window_bounds 1000 100 200 50 ltac:(unfold in_u64, u64_max; lia)
    ltac:(unfold in_u64, u64_max; lia) ltac:(unfold in_u64, u64_max; lia)
    ltac:(unfold in_u64, u64_max; lia)) as H.
  split; [reflexivity|]. cbn in H. exact (proj1 (proj2 (proj2 H))).
Defined.

(** ** The apply guard over time *)

Inductive TimingOp : Type :=
| TObserve (generation : Z) (key : KmsModeTimingKey) (outcome : KmsPresentationOutcome)
| TReconfigure (mode : KmsModeTiming) (generation : Z)
| TUnreachable.
Definition timing_step (m : KmsPresentationTimingModel) (op : TimingOp) : KmsPresentationTimingModel :=
  match op with
  | TObserve generation key outcome => fst (observe_pageflip generation key outcome m)
  | TReconfigure mode generation => fst (reconfigure mode generation m)
  | TUnreachable => record_unreachable_target m
  end.
Definition timing_ok (m : KmsPresentationTimingModel) : Prop :=
  MIN_ADAPTIVE_APPLY_GUARD_NS <= tm_adaptive_apply_guard_ns m <= MAX_ADAPTIVE_APPLY_GUARD_NS /\
  0 <= tm_stable_target_hits m < APPLY_HIT_DECAY_SAMPLES.

Lemma decayed_guard_bounds guard :
  MIN_ADAPTIVE_APPLY_GUARD_NS <= guard ->
  MIN_ADAPTIVE_APPLY_GUARD_NS <= decayed_guard guard <= Z.max MIN_ADAPTIVE_APPLY_GUARD_NS (guard - 50000).
Proof.
  unfold decayed_guard, sat_sub, MIN_ADAPTIVE_APPLY_GUARD_NS, APPLY_GUARD_STEP_NS. intros H. lia.
Qed.
Lemma observe_outcome_ok outcome m : timing_ok m -> timing_ok (fst (observe_outcome outcome m)).
Proof.
  intros [Hg Hs]. unfold observe_outcome, timing_ok in *.
  pose proof (decayed_guard_bounds (tm_adaptive_apply_guard_ns m) ltac:(lia)) as Hd.
  unfold sat_add, u32_max, u64_max, APPLY_HIT_DECAY_SAMPLES, APPLY_GUARD_STEP_NS,
    MIN_ADAPTIVE_APPLY_GUARD_NS, MAX_ADAPTIVE_APPLY_GUARD_NS in *.
  destruct outcome; cbn; try lia. zcase; cbn; lia.
Qed.
Lemma timing_new_ok mode generation : timing_ok (timing_model_new mode generation).
Proof. split; vm_compute; split; discriminate || done. Qed.
Lemma timing_step_ok m op : timing_ok m -> timing_ok (timing_step m op).
Proof.
  intros Hm. destruct op as [generation key outcome|mode generation|]; cbn; [| |done].
  - unfold observe_pageflip, observe_pageflip_with_evidence. destruct (_ || _); [done|].
    pose proof (observe_outcome_ok outcome m Hm). by destruct (observe_outcome outcome m).
  - unfold reconfigure. destruct (_ && _); [done|apply timing_new_ok].
Qed.
(** A hit of the mode and generation the model follows. *)
Definition hit (m : KmsPresentationTimingModel) : KmsPresentationTimingModel :=
  timing_step m (TObserve (tm_output_generation m) (mt_key (tm_mode m)) TargetHit).
Lemma hit_spec m :
  timing_ok m ->
  tm_stable_target_hits m < 15 /\ tm_adaptive_apply_guard_ns (hit m) = tm_adaptive_apply_guard_ns m /\
  tm_stable_target_hits (hit m) = tm_stable_target_hits m + 1 \/
  tm_stable_target_hits m = 15 /\
  tm_adaptive_apply_guard_ns (hit m) = decayed_guard (tm_adaptive_apply_guard_ns m) /\
  tm_stable_target_hits (hit m) = 0.
Proof.
  intros [_ Hs]. unfold hit, timing_step, observe_pageflip, observe_pageflip_with_evidence.
  rewrite Z.eqb_refl, bool_decide_true by done. cbn [negb orb]. unfold observe_outcome, sat_add.
  unfold APPLY_HIT_DECAY_SAMPLES, u32_max in *. zcase; cbn; lia.
Qed.
Lemma hits_recover n k m :
  timing_ok m -> tm_adaptive_apply_guard_ns m <= MIN_ADAPTIVE_APPLY_GUARD_NS + 50000 * Z.of_nat k ->
  16 * Z.of_nat k - tm_stable_target_hits m <= Z.of_nat n ->
  tm_adaptive_apply_guard_ns (Nat.iter n hit m) = MIN_ADAPTIVE_APPLY_GUARD_NS.
Proof.
  revert k m. induction n as [|n IH]; intros k m Hm Hk Hn.
  - destruct Hm as [Hg Hs]. unfold APPLY_HIT_DECAY_SAMPLES in *. cbn. assert (k = 0)%nat by lia. lia.
  - rewrite Nat.iter_succ_r. assert (Hm' : timing_ok (hit m)) by by apply timing_step_ok.
    destruct (hit_spec m Hm) as [(Hs & Eg & Es)|(Hs & Eg & Es)].
    + apply (IH k); [done|lia|lia].
    + apply (IH (pred k)); [done| |lia].
      pose proof (decayed_guard_bounds (tm_adaptive_apply_guard_ns m) ltac:(apply Hm)). lia.
Qed.

(** The apply guard adapts within its limits: after any sequence of
    observations and reconfigurations it is between 0.3 and 3 ms with fewer
    than sixteen hits counted toward the next decay; an observation of
    another mode or output generation changes nothing; and from any such
    state 864 consecutive hits bring it back to its floor. *)
Theorem apply_guard_history mode generation ops :
  let m := foldl timing_step (timing_model_new mode generation) ops in
  300000 <= tm_adaptive_apply_guard_ns m <= 3000000 /\ 0 <= tm_stable_target_hits m < 16 /\
  (forall g key outcome, g <> tm_output_generation m \/ key <> mt_key (tm_mode m) ->
     timing_step m (TObserve g key outcome) = m) /\
  (forall n, (864 <= n)%nat -> tm_adaptive_apply_guard_ns (Nat.iter n hit m) = 300000).
Proof.
  intros m. assert (Hm : timing_ok m).
  { unfold m. generalize (timing_model_new mode generation), (timing_new_ok mode generation).
    induction ops as [|op ops IH]; intros m0 H0; [done|]. cbn. by apply IH, timing_step_ok. }
  split_and!; try apply Hm.
  - intros g key outcome Hne. cbn. unfold observe_pageflip, observe_pageflip_with_evidence.
    destruct (Z.eqb_spec (tm_output_generation m) g); [|done].
    case_bool_decide; [|done]. destruct Hne; congruence.
  - intros n Hn. apply (hits_recover n 54); [done| |].
    + destruct Hm as [Hg _]. unfold MIN_ADAPTIVE_APPLY_GUARD_NS, MAX_ADAPTIVE_APPLY_GUARD_NS in *. lia.
    + destruct Hm as [_ Hs]. lia.
Qed.

(** ** The dispatch budget over time *)

Inductive DispatchOp : Type :=
| DWake (lateness : Z)
| DService (pre_submit ioctl dispatch : Z)
| DDeadline (commit_complete_deadline submit_returned_at : Z) (binding_target dequeued : bool)
| DAge (now : Z)
| DWindow (refresh_interval : Z)
| DReset.
Definition dispatch_step (m : KmsWorkerDispatchModel) (op : DispatchOp) : KmsWorkerDispatchModel :=
  match op with
  | DWake lateness => record_fixed_timed_wake lateness m
  | DService pre ioctl dispatch => record_worker_service pre ioctl dispatch m
  | DDeadline deadline returned binding dequeued =>
      fst (observe_submission_deadline deadline returned binding dequeued m)
  | DAge now => age_tail_guard now m
  | DWindow refresh => set_cursor_recovery_window refresh m
  | DReset => reset_cursor_state m
  end.

Section Budget.
(** The longest wake lateness and dispatch duration ever recorded. *)
Context (worst_wake worst_dispatch : Z).

Definition op_within (op : DispatchOp) : Prop :=
  match op with
  | DWake lateness => 0 <= lateness <= worst_wake
  | DService _ _ dispatch => 0 <= dispatch <= worst_dispatch
  | _ => True
  end.
Definition bounded_by (b : Z) (l : list Z) : Prop :=
  zlen l <= SAMPLE_CAPACITY /\ Forall (fun x => 0 <= x <= b) l.
Record dispatch_ok (m : KmsWorkerDispatchModel) : Prop := {
  dk_wake : bounded_by worst_wake (dm_wake_lateness_ns m);
  dk_pre : zlen (dm_pre_submit_ns m) <= SAMPLE_CAPACITY;
  dk_ioctl : zlen (dm_ioctl_duration_ns m) <= SAMPLE_CAPACITY;
  dk_dispatch : bounded_by worst_dispatch (dm_dispatch_duration_ns m);
  dk_paired : bounded_by (worst_wake + worst_dispatch) (dm_wake_plus_dispatch_ns m);
  dk_pending : forall w, dm_pending_wake_lateness_ns m = Some w -> 0 <= w <= worst_wake;
  dk_guard : 0 <= dm_adaptive_tail_guard_ns m <= dm_age_anchor_guard_ns m;
  dk_cap : dm_age_anchor_guard_ns m <= MAX_DISPATCH_TAIL_GUARD_NS;
  dk_window : forall w, dm_age_window_ns m = Some w -> 0 < w
}.
Context (Hwake : 0 <= worst_wake) (Hdispatch : 0 <= worst_dispatch)
  (Hroom : worst_wake + worst_dispatch + 1050000 <= u64_max).

Lemma dispatch_push_len l x : zlen l <= SAMPLE_CAPACITY -> zlen (dispatch_push l x) <= SAMPLE_CAPACITY.
Proof. exact (push_bounded_len l x). Qed.
Lemma bounded_push b l x : bounded_by b l -> 0 <= x <= b -> bounded_by b (dispatch_push l x).
Proof.
  intros [Hl Hf] Hx. split; [by apply dispatch_push_len|]. unfold dispatch_push. apply Forall_app.
  split; [|constructor; [done|constructor]].
  destruct (_ =? _); [|done]. destruct l; [done|]. by inversion Hf.
Qed.
Lemma decay_len floor l : zlen (decay_samples_toward floor l) = zlen l.
Proof. unfold decay_samples_toward, zlen. by rewrite length_map. Qed.
Lemma bounded_decay b l :
  b <= u64_max -> bounded_by b l -> bounded_by b (decay_samples_toward (default 0 (last l)) l).
Proof.
  intros Hb [Hl Hf]. split; [by rewrite decay_len|]. unfold decay_samples_toward.
  assert (Hfl : 0 <= default 0 (last l)).
  { destruct (last l) as [x|] eqn:E; [|done]. cbn.
    apply last_Some_elem_of in E. rewrite Forall_forall in Hf. by apply Hf. }
  apply Forall_map. eapply Forall_impl; [exact Hf|]. cbn. intros x Hx.
  zcase; try done. unfold sat_add, sat_sub.
  pose proof (Z.div_le_upper_bound (Z.max 0 (x - default 0 (last l))) 2 (x - default 0 (last l))
                ltac:(lia) ltac:(lia)).
  pose proof (Z.div_pos (Z.max 0 (x - default 0 (last l))) 2 ltac:(lia) ltac:(lia)). lia.
Qed.
Lemma age_ok now m : dispatch_ok m -> dispatch_ok (age_tail_guard now m).
Proof.
  intros []. unfold age_tail_guard. destruct (dm_age_window_ns m) as [w|] eqn:Ew; [|by split; rewrite ?Ew].
  destruct (_ || _) eqn:E; [by split; rewrite ?Ew|].
  specialize (dk_window0 w eq_refl). apply orb_false_iff in E as [E _]. apply Z.eqb_neq in E.
  split; cbn; try done; [|by intros ? [= <-]].
  zcase. split.
  - apply Z.div_pos; [|lia]. unfold sat_mul, sat_sub. apply Z.min_glb; [by vm_compute|].
    apply Z.mul_nonneg_nonneg; lia.
  - apply Z.div_le_upper_bound; [lia|]. unfold sat_mul, sat_sub in *. nia.
Qed.
Lemma decay_history_ok m : dispatch_ok m -> dispatch_ok (decay_cursor_history_toward_recent_clean_sample m).
Proof.
  intros []. unfold decay_cursor_history_toward_recent_clean_sample. split; cbn; try done;
    rewrite ?decay_len; try done; apply bounded_decay; try done; lia.
Qed.
Lemma set_tail_ok guard streak anchor m :
  dispatch_ok m -> 0 <= guard <= MAX_DISPATCH_TAIL_GUARD_NS ->
  dispatch_ok (set_tail guard streak (dm_age_window_ns m) anchor guard m).
Proof. intros [] Hg. split; cbn; try done; lia. Qed.
Lemma dispatch_step_ok m op : op_within op -> dispatch_ok m -> dispatch_ok (dispatch_step m op).
Proof.
  intros Hop Hm. destruct op as [w|pre ioctl d|dl rt bt dq|now|r|]; cbn in *.
  - destruct Hm. split; cbn; try done; [by apply bounded_push|]. by intros ? [= <-].
  - destruct Hm. split; cbn; try done; try by apply dispatch_push_len.
    + by apply bounded_push.
    + destruct (dm_pending_wake_lateness_ns m) as [w|] eqn:Ew; [|done].
      specialize (dk_pending0 w eq_refl). apply bounded_push; [done|]. unfold sat_add. lia.
  - unfold observe_submission_deadline. apply age_ok with (now := rt) in Hm.
    set (m1 := age_tail_guard rt m) in *. clearbody m1.
    assert (Hg : 0 <= dm_adaptive_tail_guard_ns m1 <= MAX_DISPATCH_TAIL_GUARD_NS)
      by (destruct Hm; lia).
    destruct (dispatch_fairness bt dq); [|done].
    destruct (0 <? sat_sub rt dl) eqn:Eo; cbn [fst].
    + apply Z.ltb_lt in Eo. apply set_tail_ok; [done|]. unfold sat_add, sat_sub, MAX_DISPATCH_TAIL_GUARD_NS,
        DISPATCH_TAIL_SAFETY_QUANTUM_NS in *. unfold u64_max. lia.
    + destruct (dm_clean_streak_limit m1 <=? _); cbn [fst].
      * set (m2 := if dm_fast_clean_recovery m1 then _ else m1).
        assert (Hm2 : dispatch_ok m2) by (unfold m2; case_match; [by apply decay_history_ok|done]).
        assert (Eg : dm_adaptive_tail_guard_ns m2 = dm_adaptive_tail_guard_ns m1)
          by (unfold m2; by case_match).
        apply set_tail_ok; [done|]. rewrite Eg. unfold sat_sub, CURSOR_DISPATCH_TAIL_MIN_DECAY_NS,
          DISPATCH_TAIL_DECAY_NS, MAX_DISPATCH_TAIL_GUARD_NS in *. case_match; lia.
      * destruct Hm. by split.
  - by apply age_ok.
  - unfold set_cursor_recovery_window. destruct (negb _); [done|]. destruct Hm. split; cbn; try done.
    intros ? [= <-]. unfold clampZ, CURSOR_DISPATCH_TAIL_AGE_MIN_NS, CURSOR_DISPATCH_TAIL_AGE_MAX_NS. lia.
  - split; cbn; try done; try (split; [done|constructor]); try lia. by intros ? [= <-].
Qed.
Lemma bounded_rank b l p :
  0 <= b -> bounded_by b l -> 0 <= p <= 100 -> exists v, dispatch_rank l p = Some v /\ 0 <= v <= b.
Proof.
  intros Hb [Hl Hf] Hp. change (dispatch_rank l p) with (nearest_rank l p).
  destruct (nearest_rank_Some l p Hp Hl) as (v & -> & [[_ ->]|Hin]); eexists; (split; [done|]); [lia|].
  rewrite Forall_forall in Hf. by apply Hf.
Qed.

Lemma dispatch_budget_ok m :
  dispatch_ok m ->
  exists b p, budget m = Some b /\ dispatch_rank (dm_dispatch_duration_ns m) 95 = Some p /\
    p + DISPATCH_GUARD_NS + dm_adaptive_tail_guard_ns m <= db_dispatch_budget_ns b /\
    db_dispatch_budget_ns b
    <= worst_wake + worst_dispatch + DISPATCH_GUARD_NS + dm_adaptive_tail_guard_ns m.
Proof.
  intros []. unfold budget.
  destruct (bounded_rank _ _ 95 Hwake dk_wake0) as (w & -> & Hw); [lia|]. cbn.
  destruct (nearest_rank_Some (dm_pre_submit_ns m) 95) as (pre & Epre & _); [lia|done|].
  change (dispatch_rank (dm_pre_submit_ns m) 95) with (nearest_rank (dm_pre_submit_ns m) 95).
  rewrite Epre. cbn.
  destruct (nearest_rank_Some (dm_ioctl_duration_ns m) 95) as (io & Eio & _); [lia|done|].
  change (dispatch_rank (dm_ioctl_duration_ns m) 95) with (nearest_rank (dm_ioctl_duration_ns m) 95).
  rewrite Eio. cbn.
  destruct (bounded_rank _ _ 95 Hdispatch dk_dispatch0) as (d & Ed & Hd); [lia|]. rewrite Ed. cbn.
  destruct (bounded_rank (worst_wake + worst_dispatch) _ 95 ltac:(lia) dk_paired0)
    as (p & Ep & Hp); [lia|]. rewrite Ep.
  unfold MAX_DISPATCH_TAIL_GUARD_NS in *.
  zcase; cbn; eexists _, d; split_and!; try done; cbn; unfold sat_add, DISPATCH_GUARD_NS; lia.
Qed.
End Budget.

(** The dispatch budget is measured, not guessed: after any history of
    wakes, services, deadlines and resets of a fresh model the budget can be
    read without a panic, it covers the 95th percentile of the dispatch
    durations it keeps with the fixed guard and the tail guard on top, it
    never exceeds the worst wake lateness plus the worst dispatch ever
    recorded with those guards, and the tail guard stays between 0 and 1 ms. *)
Theorem dispatch_budget_bounds worst_wake worst_dispatch m0 ops :
  m0 = dispatch_default \/ m0 = dispatch_cursor ->
  0 <= worst_wake -> 0 <= worst_dispatch -> worst_wake + worst_dispatch + 1050000 <= u64_max ->
  Forall (op_within worst_wake worst_dispatch) ops ->
  let m := foldl dispatch_step m0 ops in
  0 <= dm_adaptive_tail_guard_ns m <= 1000000 /\
  exists b p, budget m = Some b /\ dispatch_rank (dm_dispatch_duration_ns m) 95 = Some p /\
    p + 50000 + dm_adaptive_tail_guard_ns m <= db_dispatch_budget_ns b /\
    db_dispatch_budget_ns b <= worst_wake + worst_dispatch + 50000 + dm_adaptive_tail_guard_ns m.
Proof.
  intros H0 Hw Hd Hr Hops m.
  assert (Hm : dispatch_ok worst_wake worst_dispatch m).
  { assert (Hm0 : dispatch_ok worst_wake worst_dispatch m0).
    { destruct H0 as [-> | ->]; split; cbn; try done; try (split; [done|constructor]); try lia.
      by intros ? [= <-]. }
    unfold m. clear H0 m. revert m0 Hm0.
    induction Hops as [|op ops Hop _ IH]; intros m0 Hm0; [done|]. cbn. by apply IH, dispatch_step_ok. }
  split; [destruct Hm; unfold MAX_DISPATCH_TAIL_GUARD_NS in *; lia|]. by apply dispatch_budget_ok.
Qed.

Lemma dispatch_budget_bounds_witness :
  let m := foldl dispatch_step dispatch_cursor
             [DWindow 16666666; DWake 200000; DService 30000 80000 150000;
              DDeadline 1000000 1200000 true true] in
  0 <= dm_adaptive_tail_guard_ns m <= 1000000 /\
  exists b p, budget m = Some b /\ dispatch_rank (dm_dispatch_duration_ns m) 95 = Some p /\
    p + 50000 + dm_adaptive_tail_guard_ns m <= db_dispatch_budget_ns b /\
    db_dispatch_budget_ns b <= 300000 + 400000 + 50000 + dm_adaptive_tail_guard_ns m.
Proof.
  apply (dispatch_budget_bounds 300000 400000); [by right|lia|lia|by vm_compute|].
  repeat constructor; cbn; lia.
Defined.
