(* ===== verification/AtomicCommit.v ===== *)
(** * AtomicCommit: the arbiter of atomic commits

    Models src/native_output/runtime/atomic_commit.rs: the two places an
    atomic commit can be in (queued at the worker, submitted to the kernel),
    the page-flip event that overtakes the acknowledgement of its own
    submission, the watchdog, and the acknowledgement sequence of
    runtime/kms_worker.rs that marks a commit submitted and replays the
    deferred event. The error strings are constructors. *)

From stdpp Require Import base list option.
From Stdlib Require Import ZArith Lia.
From S2P Require Import Prelude Buffering Deadline RenderJournal Scheduler Pipeline.
From S2P Require Import OutputTransaction KmsTiming.

(** ** Commits *)

Definition PageFlipToken : Type := Z.
Definition PageFlipToken_new (value : Z) : option PageFlipToken :=
  if value =? 0 then None else Some value.
Record DrmPresentationTimestamp : Type := mkDrmTimestamp { dt_seconds : Z; dt_microseconds : Z }.
Record DrmPresentationEvent : Type := mkDrmEvent {
  de_user_data : Z; de_sequence : Z; de_timestamp : DrmPresentationTimestamp; de_crtc_id : Z
}.
Inductive AtomicCommitKind : Type :=
| CompositedPrimary (transaction_id : OutputTransactionId) (frame_id framebuffer_id : Z)
| DirectPrimary (transaction_id : OutputTransactionId) (direct_token : PageFlipToken)
    (framebuffer_id : Z)
| KindPlaneDelta (transaction_id : OutputTransactionId) (cursor_epoch : Z)
    (framebuffer_id : option Z).
#[export] Instance AtomicCommitKind_eq_dec : EqDecision AtomicCommitKind.
Proof. solve_decision. Defined.

Definition kind_transaction_id (k : AtomicCommitKind) : OutputTransactionId :=
  match k with
  | CompositedPrimary id _ _ => id | DirectPrimary id _ _ => id | KindPlaneDelta id _ _ => id
  end.
Definition is_primary (k : AtomicCommitKind) : bool :=
  match k with KindPlaneDelta _ _ _ => false | _ => true end.
(** [KmsServiceClass::from_kind]. *)
Definition from_kind (k : AtomicCommitKind) : KmsServiceClass :=
  match k with
  | CompositedPrimary _ _ _ => ServicePrimary
  | KindPlaneDelta _ _ _ => CursorPlaneDelta
  | DirectPrimary _ _ _ => DirectScanout
  end.

Inductive AtomicCommitPhase : Type :=
| WorkerQueued (queued_at_ns : Z)
| KernelSubmitted (submitted_at_ns submit_returned_at_ns watchdog_deadline_ns : Z).
Record PendingAtomicCommit : Type := mkPending {
  pc_token : PageFlipToken;
  pc_generation : Z;
  pc_crtc_id : Z;
  pc_kind : AtomicCommitKind;
  pc_phase : AtomicCommitPhase;
  pc_submitted_at_ns : Z;
  pc_watchdog_deadline_ns : Z;
  pc_watchdog_reported : bool
}.
Inductive AtomicCommitCompletion : Type :=
| Completed (kind : AtomicCommitKind) (submitted_at_ns : Z)
| DeferredUntilSubmitAck | DuplicateEarlyPageflip | Mismatched | WrongCrtc | WrongGeneration
| StaleFlip.
Record AtomicCommitArbiter : Type := mkArbiter {
  kernel_submitted : option PendingAtomicCommit;
  worker_queued_commit : option PendingAtomicCommit;
  early_pageflip : option DrmPresentationEvent;
  watchdog_interval_ns : Z;
  atomic_commit_watchdog_timeouts_total : Z;
  atomic_cursor_watchdog_timeouts : Z;
  atomic_primary_watchdog_timeouts : Z;
  atomic_commits_submitted_total : Z;
  atomic_commits_completed_total : Z
}.
Inductive ArbiterError : Type :=
  CommitAlreadyPending | WorkerCommitAlreadyQueued | AlreadyKernelSubmitted | SubmitTokenMismatch
| NotWorkerQueued | NoOutputTransaction | ZeroToken | DeferredNotReplayed.

Definition phase_is_queued (p : AtomicCommitPhase) : bool :=
  match p with WorkerQueued _ => true | KernelSubmitted _ _ _ => false end.

(** ** Operations *)

Definition with_watchdog (interval : Z) : AtomicCommitArbiter :=
  mkArbiter None None None (if interval =? 0 then 1 else interval) 0 0 0 0 0.
Definition arbiter_new : AtomicCommitArbiter := with_watchdog 1000000000.

Definition set_lanes (kernel queued : option PendingAtomicCommit) (early : option DrmPresentationEvent)
  (a : AtomicCommitArbiter) : AtomicCommitArbiter :=
  mkArbiter kernel queued early (watchdog_interval_ns a) (atomic_commit_watchdog_timeouts_total a)
    (atomic_cursor_watchdog_timeouts a) (atomic_primary_watchdog_timeouts a)
    (atomic_commits_submitted_total a) (atomic_commits_completed_total a).
Definition count_submitted (a : AtomicCommitArbiter) : AtomicCommitArbiter :=
  mkArbiter (kernel_submitted a) (worker_queued_commit a) (early_pageflip a) (watchdog_interval_ns a)
    (atomic_commit_watchdog_timeouts_total a) (atomic_cursor_watchdog_timeouts a)
    (atomic_primary_watchdog_timeouts a) (sat_add u64_max (atomic_commits_submitted_total a) 1)
    (atomic_commits_completed_total a).
Definition count_completed (a : AtomicCommitArbiter) : AtomicCommitArbiter :=
  mkArbiter (kernel_submitted a) (worker_queued_commit a) (early_pageflip a) (watchdog_interval_ns a)
    (atomic_commit_watchdog_timeouts_total a) (atomic_cursor_watchdog_timeouts a)
    (atomic_primary_watchdog_timeouts a) (atomic_commits_submitted_total a)
    (sat_add u64_max (atomic_commits_completed_total a) 1).
Definition count_timeout (cursor : bool) (a : AtomicCommitArbiter) : AtomicCommitArbiter :=
  mkArbiter (kernel_submitted a) (worker_queued_commit a) (early_pageflip a) (watchdog_interval_ns a)
    (sat_add u64_max (atomic_commit_watchdog_timeouts_total a) 1)
    (if cursor then sat_add u64_max (atomic_cursor_watchdog_timeouts a) 1
     else atomic_cursor_watchdog_timeouts a)
    (if cursor then atomic_primary_watchdog_timeouts a
     else sat_add u64_max (atomic_primary_watchdog_timeouts a) 1)
    (atomic_commits_submitted_total a) (atomic_commits_completed_total a).

Definition reserve (token : PageFlipToken) (generation crtc_id : Z) (kind : AtomicCommitKind)
  (submitted_at_ns : Z) (a : AtomicCommitArbiter) : AtomicCommitArbiter * res ArbiterError unit :=
  if bool_decide (is_Some (kernel_submitted a)) || bool_decide (is_Some (worker_queued_commit a))
  then (a, Fail CommitAlreadyPending)
  else
    let deadline := sat_add u64_max submitted_at_ns (watchdog_interval_ns a) in
    let p := mkPending token generation crtc_id kind
               (KernelSubmitted submitted_at_ns submitted_at_ns deadline) submitted_at_ns deadline false in
    (count_submitted (set_lanes (Some p) (worker_queued_commit a) (early_pageflip a) a), Ret tt).
Definition reserve_worker_queued (token : PageFlipToken) (generation crtc_id : Z)
  (kind : AtomicCommitKind) (queued_at_ns : Z) (a : AtomicCommitArbiter)
  : AtomicCommitArbiter * res ArbiterError unit :=
  if bool_decide (is_Some (worker_queued_commit a)) then (a, Fail WorkerCommitAlreadyQueued)
  else
    let p := mkPending token generation crtc_id kind (WorkerQueued queued_at_ns) 0 0 false in
    (set_lanes (kernel_submitted a) (Some p) None a, Ret tt).
Definition mark_kernel_submitted (token : PageFlipToken) (submitted_at_ns submit_returned_at_ns : Z)
  (a : AtomicCommitArbiter) : AtomicCommitArbiter * res ArbiterError unit :=
  if bool_decide (is_Some (kernel_submitted a)) then (a, Fail AlreadyKernelSubmitted)
  else
    match worker_queued_commit a with
    | None => (a, Fail SubmitTokenMismatch)
    | Some p =>
        if negb (pc_token p =? token) then (a, Fail SubmitTokenMismatch)
        else if negb (phase_is_queued (pc_phase p))
        then (set_lanes (kernel_submitted a) None (early_pageflip a) a, Fail NotWorkerQueued)
        else
          let deadline := sat_add u64_max submitted_at_ns (watchdog_interval_ns a) in
          let p := mkPending (pc_token p) (pc_generation p) (pc_crtc_id p) (pc_kind p)
                     (KernelSubmitted submitted_at_ns submit_returned_at_ns deadline)
                     submitted_at_ns deadline (pc_watchdog_reported p) in
          (count_submitted (set_lanes (Some p) None (early_pageflip a) a), Ret tt)
    end.
Definition reject_worker_queued (token : PageFlipToken) (a : AtomicCommitArbiter)
  : AtomicCommitArbiter * option PendingAtomicCommit :=
  match worker_queued_commit a with
  | Some p => if (pc_token p =? token) && phase_is_queued (pc_phase p)
              then (set_lanes (kernel_submitted a) None None a, Some p)
              else (a, None)
  | None => (a, None)
  end.
Definition pending_atomic_commit (a : AtomicCommitArbiter) : option PendingAtomicCommit :=
  match kernel_submitted a with Some p => Some p | None => worker_queued_commit a end.
Definition complete_pageflip (pageflip : DrmPresentationEvent) (generation : Z)
  (a : AtomicCommitArbiter) : AtomicCommitArbiter * AtomicCommitCompletion :=
  match PageFlipToken_new (de_user_data pageflip) with
  | None => (a, StaleFlip)
  | Some token =>
      match pending_atomic_commit a with
      | None => (a, StaleFlip)
      | Some p =>
          if negb (token =? pc_token p) then (a, Mismatched)
          else if negb (generation =? pc_generation p) then (a, WrongGeneration)
          else if negb (de_crtc_id pageflip =? pc_crtc_id p) then (a, WrongCrtc)
          else if phase_is_queued (pc_phase p)
          then
            if bool_decide (is_Some (early_pageflip a)) then (a, DuplicateEarlyPageflip)
            else (set_lanes (kernel_submitted a) (worker_queued_commit a) (Some pageflip) a,
                  DeferredUntilSubmitAck)
          else (count_completed (set_lanes None (worker_queued_commit a) (early_pageflip a) a),
                Completed (pc_kind p) (pc_submitted_at_ns p))
      end
  end.
Definition replay_deferred_pageflip (a : AtomicCommitArbiter)
  : AtomicCommitArbiter * option AtomicCommitCompletion :=
  match kernel_submitted a with
  | None => (a, None)
  | Some p =>
      match early_pageflip a with
      | None => (a, None)
      | Some _ =>
          if phase_is_queued (pc_phase p)
          then (set_lanes (kernel_submitted a) (worker_queued_commit a) None a, None)
          else (count_completed (set_lanes None (worker_queued_commit a) None a),
                Some (Completed (pc_kind p) (pc_submitted_at_ns p)))
      end
  end.
Definition cancel (token : PageFlipToken) (a : AtomicCommitArbiter)
  : AtomicCommitArbiter * option PendingAtomicCommit :=
  if bool_decide (pc_token <$> kernel_submitted a = Some token)
  then (set_lanes None (worker_queued_commit a) (early_pageflip a) a, kernel_submitted a)
  else if bool_decide (pc_token <$> worker_queued_commit a = Some token)
  then (set_lanes (kernel_submitted a) None (early_pageflip a) a, worker_queued_commit a)
  else (a, None).
Definition watchdog_deadline_ns (a : AtomicCommitArbiter) : option Z :=
  match kernel_submitted a with
  | Some p => match pc_phase p with WorkerQueued _ => None | KernelSubmitted _ _ d => Some d end
  | None => None
  end.
Definition watchdog_expired (now_ns : Z) (a : AtomicCommitArbiter)
  : AtomicCommitArbiter * option AtomicCommitKind :=
  match kernel_submitted a with
  | None => (a, None)
  | Some p =>
      match pc_phase p with
      | WorkerQueued _ => (a, None)
      | KernelSubmitted _ _ deadline =>
          if pc_watchdog_reported p || (now_ns <? deadline) then (a, None)
          else
            let p' := mkPending (pc_token p) (pc_generation p) (pc_crtc_id p) (pc_kind p) (pc_phase p)
                        (pc_submitted_at_ns p) (pc_watchdog_deadline_ns p) true in
            (count_timeout (negb (is_primary (pc_kind p)))
               (set_lanes (Some p') (worker_queued_commit a) (early_pageflip a) a),
             Some (pc_kind p))
      end
  end.
Definition abandon_for_recovery (a : AtomicCommitArbiter) : AtomicCommitArbiter :=
  set_lanes None None None a.

Definition register_atomic_primary_submission (kms_kind : KmsBackendKind) (token generation crtc_id : Z)
  (transaction_id : option OutputTransactionId) (frame_id framebuffer_id submitted_at_ns : Z)
  (a : AtomicCommitArbiter) : AtomicCommitArbiter * res ArbiterError bool :=
  match kms_kind with
  | KmsLegacy => (a, Ret false)
  | KmsAtomic =>
      match transaction_id with
      | None => (a, Fail NoOutputTransaction)
      | Some id =>
          match PageFlipToken_new token with
          | None => (a, Fail ZeroToken)
          | Some token =>
              let (a, r) := reserve token generation crtc_id
                              (CompositedPrimary id frame_id framebuffer_id) submitted_at_ns a in
              (a, match r with Ret _ => Ret true | Fail e => Fail e | Panic => Panic
                  | NoFuel => NoFuel end)
          end
      end
  end.

(** The counters of mismatched and stale events that the caller owns. *)
Record FlipCounters : Type := mkFlipCounters { mismatched_events : Z; stale_events : Z }.
Definition count_rejected_flip (c : AtomicCommitCompletion) (k : FlipCounters) : FlipCounters :=
  match c with
  | Mismatched | WrongCrtc | DuplicateEarlyPageflip =>
      mkFlipCounters (sat_add u64_max (mismatched_events k) 1) (stale_events k)
  | WrongGeneration | StaleFlip =>
      mkFlipCounters (mismatched_events k) (sat_add u64_max (stale_events k) 1)
  | _ => k
  end.
Definition validate_atomic_pageflip (backend_kind : KmsBackendKind)
  (event : option DrmPresentationEvent) (generation now_ns : Z) (worker_watchdog : bool)
  (k : FlipCounters) (a : AtomicCommitArbiter)
  : AtomicCommitArbiter * FlipCounters *
    (option DrmPresentationEvent * option AtomicCommitCompletion * option AtomicCommitKind) :=
  match backend_kind with
  | KmsLegacy => (a, k, (event, None, None))
  | KmsAtomic =>
      let '(a, k, event, completion) :=
        match event with
        | None => (a, k, None, None)
        | Some pageflip =>
            let (a, c) := complete_pageflip pageflip generation a in
            match c with
            | Completed _ _ => (a, k, Some pageflip, Some c)
            | _ => (a, count_rejected_flip c k, None, Some c)
            end
        end in
      if negb worker_watchdog && bool_decide (event = None)
      then let (a, timeout) := watchdog_expired now_ns a in (a, k, (event, completion, timeout))
      else (a, k, (event, completion, None))
  end.

(** The acknowledgement of a submission by the worker: the commit is marked
    submitted and, if that succeeds, the deferred event is replayed. *)
Definition acknowledge_submission (token : PageFlipToken) (submit_started_at submit_returned_at : Z)
  (a : AtomicCommitArbiter)
  : AtomicCommitArbiter * res ArbiterError (option (DrmPresentationEvent * AtomicCommitCompletion)) :=
  let (a, r) := mark_kernel_submitted token submit_started_at submit_returned_at a in
  match r with
  | Ret _ =>
      let deferred := early_pageflip a in
      let (a, completion) := replay_deferred_pageflip a in
      match deferred, completion with
      | Some pageflip, Some c => (a, Ret (Some (pageflip, c)))
      | Some _, None => (a, Fail DeferredNotReplayed)
      | None, _ => (a, Ret None)
      end
  | Fail e => (a, Fail e) | Panic => (a, Panic) | NoFuel => (a, NoFuel)
  end.

(** ** Histories and what they report *)

Inductive ArbiterOp : Type :=
| OReserve (token : PageFlipToken) (generation crtc : Z) (kind : AtomicCommitKind) (at_ns : Z)
| ORegister (backend : KmsBackendKind) (token generation crtc : Z) (id : option OutputTransactionId)
    (frame_id framebuffer_id at_ns : Z)
| OQueue (token : PageFlipToken) (generation crtc : Z) (kind : AtomicCommitKind) (at_ns : Z)
| OAck (token : PageFlipToken) (started returned : Z)
| OReject (token : PageFlipToken)
| OCancel (token : PageFlipToken)
| OFlip (event : DrmPresentationEvent) (generation : Z)
| OValidate (backend : KmsBackendKind) (event : option DrmPresentationEvent) (generation now_ns : Z)
    (worker_watchdog : bool)
| OWatchdog (now_ns : Z)
| OAbandon.

(** A commit as the client of the arbiter knows it. *)
Record Commit : Type := mkCommit {
  cm_token : PageFlipToken; cm_generation : Z; cm_crtc : Z; cm_kind : AtomicCommitKind
}.
Inductive LaneEvent : Type :=
| LSubmit (c : Commit) (at_ns : Z)
| LQueue (c : Commit)
| LAck (token : PageFlipToken) (at_ns : Z)
| LAckFlipped (token : PageFlipToken) (at_ns : Z) (event : DrmPresentationEvent) (kind : AtomicCommitKind)
| LEarly (event : DrmPresentationEvent) (generation : Z)
| LFlip (event : DrmPresentationEvent) (generation : Z) (kind : AtomicCommitKind) (at_ns : Z)
| LDrop (token : PageFlipToken)
| LTimeout (kind : AtomicCommitKind) (now_ns : Z)
| LAbandon.

Definition flip_report (event : DrmPresentationEvent) (generation : Z) (c : AtomicCommitCompletion)
  : list LaneEvent :=
  match c with
  | Completed kind at_ns => [LFlip event generation kind at_ns]
  | DeferredUntilSubmitAck => [LEarly event generation]
  | _ => []
  end.
Definition timeout_report (now_ns : Z) (r : option AtomicCommitKind) : list LaneEvent :=
  match r with Some kind => [LTimeout kind now_ns] | None => [] end.
(** One operation, and what its arguments and its result tell the caller. *)
Definition arbiter_step (a : AtomicCommitArbiter) (op : ArbiterOp)
  : AtomicCommitArbiter * list LaneEvent :=
  match op with
  | OReserve token generation crtc kind at_ns =>
      let (a, r) := reserve token generation crtc kind at_ns a in
      (a, if is_Ret r then [LSubmit (mkCommit token generation crtc kind) at_ns] else [])
  | ORegister backend token generation crtc id frame_id framebuffer_id at_ns =>
      let (a, r) := register_atomic_primary_submission backend token generation crtc id frame_id
                      framebuffer_id at_ns a in
      (a, match r, id with
          | Ret true, Some id =>
              [LSubmit (mkCommit token generation crtc (CompositedPrimary id frame_id framebuffer_id)) at_ns]
          | _, _ => []
          end)
  | OQueue token generation crtc kind at_ns =>
      let (a, r) := reserve_worker_queued token generation crtc kind at_ns a in
      (a, if is_Ret r then [LQueue (mkCommit token generation crtc kind)] else [])
  | OAck token started returned =>
      let (a, r) := acknowledge_submission token started returned a in
      (a, match r with
          | Ret None => [LAck token started]
          | Ret (Some (event, Completed kind at_ns)) => [LAckFlipped token at_ns event kind]
          | _ => []
          end)
  | OReject token =>
      let (a, r) := reject_worker_queued token a in (a, if bool_decide (is_Some r) then [LDrop token] else [])
  | OCancel token =>
      let (a, r) := cancel token a in (a, if bool_decide (is_Some r) then [LDrop token] else [])
  | OFlip event generation =>
      let (a, c) := complete_pageflip event generation a in (a, flip_report event generation c)
  | OValidate backend event generation now_ns worker_watchdog =>
      let '(a, _, (_, completion, timeout)) :=
        validate_atomic_pageflip backend event generation now_ns worker_watchdog (mkFlipCounters 0 0) a in
      (a, match event, completion with
          | Some event, Some c => flip_report event generation c
          | _, _ => []
          end ++ timeout_report now_ns timeout)
  | OWatchdog now_ns =>
      let (a, r) := watchdog_expired now_ns a in (a, timeout_report now_ns r)
  | OAbandon => (abandon_for_recovery a, [LAbandon])
  end.
Fixpoint arbiter_run (a : AtomicCommitArbiter) (ops : list ArbiterOp)
  : AtomicCommitArbiter * list LaneEvent :=
  match ops with
  | [] => (a, [])
  | op :: ops => let (a, evs) := arbiter_step a op in
                 let (a, evs') := arbiter_run a ops in (a, evs ++ evs')
  end.

(** ** The lane of commits

    The specification: one commit is submitted and one waits behind it. A
    page flip completes the commit it belongs to; one that arrives before the
    submission of a waiting commit is acknowledged is kept with it. *)

Definition matches_commit (event : DrmPresentationEvent) (generation : Z) (c : Commit) : Prop :=
  de_user_data event = cm_token c /\ generation = cm_generation c /\ de_crtc_id event = cm_crtc c.
Record Lane : Type := mkLane {
  ln_kernel : option (Commit * Z * bool);
  ln_queued : option (Commit * option DrmPresentationEvent)
}.
Definition lane_empty : Lane := mkLane None None.
Inductive lane_step (interval : Z) : Lane -> LaneEvent -> Lane -> Prop :=
| ls_submit c at_ns :
    lane_step interval lane_empty (LSubmit c at_ns) (mkLane (Some (c, at_ns, false)) None)
| ls_queue k c :
    lane_step interval (mkLane k None) (LQueue c) (mkLane k (Some (c, None)))
| ls_ack c at_ns :
    lane_step interval (mkLane None (Some (c, None))) (LAck (cm_token c) at_ns)
      (mkLane (Some (c, at_ns, false)) None)
| ls_ack_flipped c at_ns event :
    matches_commit event (cm_generation c) c ->
    lane_step interval (mkLane None (Some (c, Some event)))
      (LAckFlipped (cm_token c) at_ns event (cm_kind c)) lane_empty
| ls_early c event generation :
    matches_commit event generation c ->
    lane_step interval (mkLane None (Some (c, None))) (LEarly event generation)
      (mkLane None (Some (c, Some event)))
| ls_flip c at_ns reported q event generation :
    matches_commit event generation c ->
    lane_step interval (mkLane (Some (c, at_ns, reported)) q) (LFlip event generation (cm_kind c) at_ns)
      (mkLane None q)
| ls_drop_kernel c at_ns reported q :
    lane_step interval (mkLane (Some (c, at_ns, reported)) q) (LDrop (cm_token c)) (mkLane None q)
| ls_drop_queued k c early :
    lane_step interval (mkLane k (Some (c, early))) (LDrop (cm_token c)) (mkLane k None)
| ls_timeout c at_ns q now_ns :
    sat_add u64_max at_ns interval <= now_ns ->
    lane_step interval (mkLane (Some (c, at_ns, false)) q) (LTimeout (cm_kind c) now_ns)
      (mkLane (Some (c, at_ns, true)) q)
| ls_abandon l : lane_step interval l LAbandon lane_empty.
Inductive lane_run (interval : Z) : Lane -> list LaneEvent -> Lane -> Prop :=
| lr_nil l : lane_run interval l [] l
| lr_cons l e l1 evs l2 :
    lane_step interval l e l1 -> lane_run interval l1 evs l2 -> lane_run interval l (e :: evs) l2.

Definition reserved (evs : list LaneEvent) : list (PageFlipToken * AtomicCommitKind) :=
  omap (fun e => match e with
                 | LSubmit c _ | LQueue c => Some (cm_token c, cm_kind c)
                 | _ => None end) evs.
Definition completed (evs : list LaneEvent) : list (PageFlipToken * AtomicCommitKind) :=
  omap (fun e => match e with
                 | LFlip event _ kind _ => Some (de_user_data event, kind)
                 | LAckFlipped token _ _ kind => Some (token, kind)
                 | _ => None end) evs.
Definition submissions (evs : list LaneEvent) : list unit :=
  omap (fun e => match e with
                 | LSubmit _ _ | LAck _ _ | LAckFlipped _ _ _ _ => Some tt
                 | _ => None end) evs.

(** ** The arbiter implements the lane *)

Definition commit_of (p : PendingAtomicCommit) : Commit :=
  mkCommit (pc_token p) (pc_generation p) (pc_crtc_id p) (pc_kind p).
Definition lane_of (a : AtomicCommitArbiter) : Lane :=
  mkLane ((fun p => (commit_of p, pc_submitted_at_ns p, pc_watchdog_reported p)) <$> kernel_submitted a)
    ((fun p => (commit_of p, early_pageflip a)) <$> worker_queued_commit a).
Record arbiter_ok (interval : Z) (a : AtomicCommitArbiter) : Prop := {
  ok_interval : watchdog_interval_ns a = interval;
  ok_submitted : atomic_commits_submitted_total a <= u64_max;
  ok_completed : atomic_commits_completed_total a <= u64_max;
  ok_kernel : forall p, kernel_submitted a = Some p ->
    exists returned, pc_phase p = KernelSubmitted (pc_submitted_at_ns p) returned
                                    (sat_add u64_max (pc_submitted_at_ns p) interval);
  ok_queued : forall p, worker_queued_commit a = Some p ->
    (exists at_ns, pc_phase p = WorkerQueued at_ns) /\ pc_watchdog_reported p = false /\
    forall event, early_pageflip a = Some event -> matches_commit event (pc_generation p) (commit_of p)
}.

Lemma lane_run_one interval l e l' : lane_step interval l e l' -> lane_run interval l [e] l'.
Proof. intros H. eapply lr_cons; [exact H|constructor]. Qed.
Lemma lane_run_app interval l evs l1 evs' l2 :
  lane_run interval l evs l1 -> lane_run interval l1 evs' l2 -> lane_run interval l (evs ++ evs') l2.
Proof. induction 1; intros H2; [done|]. eapply lr_cons; [done|]. by apply IHlane_run. Qed.

(** [evs] is what the arbiter reported on the way from [a] to [a']. *)
Record advances (interval : Z) (a : AtomicCommitArbiter) (evs : list LaneEvent) (a' : AtomicCommitArbiter)
  : Prop := {
  adv_ok : arbiter_ok interval a';
  adv_lane : lane_run interval (lane_of a) evs (lane_of a');
  adv_submitted : atomic_commits_submitted_total a'
    = Z.min u64_max (atomic_commits_submitted_total a + zlen (submissions evs));
  adv_completed : atomic_commits_completed_total a'
    = Z.min u64_max (atomic_commits_completed_total a + zlen (completed evs))
}.
Lemma advances_nil interval a : arbiter_ok interval a -> advances interval a [] a.
Proof. intros H. destruct (H). split; [done|apply lr_nil|unfold zlen; cbn; lia..]. Qed.
Lemma advances_app interval a evs a1 evs' a2 :
  advances interval a evs a1 -> advances interval a1 evs' a2 -> advances interval a (evs ++ evs') a2.
Proof.
  intros [H1 L1 S1 C1] [H2 L2 S2 C2]. split; [done|by eapply lane_run_app|..];
    unfold submissions, completed, zlen in *; rewrite omap_app, length_app; lia.
Qed.

Ltac guards :=
  repeat match goal with
  | H : (_ || _) = false |- _ => apply orb_false_iff in H as [? ?]
  | H : bool_decide _ = false |- _ => apply bool_decide_eq_false in H
  end; bool_facts.

Section Refinement.
Context (interval : Z).
#[local] Abbreviation ok := (arbiter_ok interval).
#[local] Abbreviation adv := (advances interval).

(** Opens the arbiter and shows the lanes and counters of a single report. *)
Ltac lane_case rule :=
  split; [split; cbn; try done; unfold sat_add; try lia
         | unfold lane_of; cbn; apply lane_run_one; eapply rule
         | unfold zlen; cbn; unfold sat_add; lia
         | unfold zlen; cbn; unfold sat_add; lia].

Lemma reserve_advances token generation crtc kind at_ns a :
  ok a ->
  let (a', r) := reserve token generation crtc kind at_ns a in
  adv a (if is_Ret r then [LSubmit (mkCommit token generation crtc kind) at_ns] else []) a'.
Proof.
  intros H. unfold reserve. destruct (_ || _) eqn:E; [by apply advances_nil|]. guards.
  destruct a as [[?|] [?|] early w t1 t2 t3 sub comp]; cbn in *;
    try (exfalso; match goal with X : ~ is_Some (Some _) |- _ => apply X; by eexists end).
  destruct H. cbn in *. lane_case ls_submit.
  intros p [= <-]. cbn. subst w. by eexists.
Qed.
Lemma queue_advances token generation crtc kind at_ns a :
  ok a ->
  let (a', r) := reserve_worker_queued token generation crtc kind at_ns a in
  adv a (if is_Ret r then [LQueue (mkCommit token generation crtc kind)] else []) a'.
Proof.
  intros H. unfold reserve_worker_queued. case_bool_decide as E; [by apply advances_nil|].
  destruct a as [k [?|] early w t1 t2 t3 sub comp]; cbn in *; [exfalso; apply E; by eexists|].
  destruct H. cbn in *. lane_case ls_queue.
  intros p [= <-]. cbn. split_and!; [by eexists|done|done].
Qed.
Lemma ack_advances token started returned a :
  ok a ->
  let (a', r) := acknowledge_submission token started returned a in
  adv a (match r with
         | Ret None => [LAck token started]
         | Ret (Some (event, Completed kind at_ns)) => [LAckFlipped token at_ns event kind]
         | _ => []
         end) a'.
Proof.
  intros H. unfold acknowledge_submission, mark_kernel_submitted.
  case_bool_decide as Ek; [by apply advances_nil|].
  destruct a as [[?|] [p|] early w t1 t2 t3 sub comp]; cbn in *;
    try (exfalso; apply Ek; by eexists); [|by apply advances_nil].
  destruct (pc_token p =? token) eqn:Et; cbn; [|by apply advances_nil]. apply Z.eqb_eq in Et as <-.
  destruct (ok_queued _ _ H p eq_refl) as ((at_ns & Ep) & Er & Hm). rewrite Ep. cbn in *.
  destruct H. cbn in *.
  destruct early as [event|]; cbn in *.
  - lane_case (ls_ack_flipped interval (commit_of p)). by apply Hm.
  - rewrite Er. lane_case (ls_ack interval (commit_of p)).
    intros q [= <-]. cbn. subst w. by eexists.
Qed.
Lemma reject_advances token a :
  ok a ->
  let (a', r) := reject_worker_queued token a in
  adv a (if bool_decide (is_Some r) then [LDrop token] else []) a'.
Proof.
  intros H. unfold reject_worker_queued. destruct (worker_queued_commit a) as [p|] eqn:Eq;
    [|by apply advances_nil].
  destruct (_ && _) eqn:E; [|by apply advances_nil]. guards. subst token.
  destruct a as [k q early w t1 t2 t3 sub comp]; cbn in *. subst q.
  destruct H. cbn in *. lane_case ls_drop_queued.
Qed.
Lemma cancel_advances token a :
  ok a ->
  let (a', r) := cancel token a in
  adv a (if bool_decide (is_Some r) then [LDrop token] else []) a'.
Proof.
  intros H. unfold cancel. case_bool_decide as Ek.
  - destruct a as [[p|] q early w t1 t2 t3 sub comp]; cbn in *; [|done]. injection Ek as <-.
    destruct H. cbn in *. lane_case (ls_drop_kernel interval (commit_of p)).
  - case_bool_decide as Eq; [|by apply advances_nil].
    destruct a as [k [p|] early w t1 t2 t3 sub comp]; cbn in *; [|done]. injection Eq as <-.
    destruct H. cbn in *. lane_case ls_drop_queued.
Qed.
Lemma flip_advances event generation a :
  ok a ->
  let (a', c) := complete_pageflip event generation a in adv a (flip_report event generation c) a'.
Proof.
  intros H. unfold complete_pageflip, PageFlipToken_new, pending_atomic_commit.
  destruct (de_user_data event =? 0); [by apply advances_nil|].
  destruct a as [[p|] q early w t1 t2 t3 sub comp]; cbn in *.
  - destruct (_ =? pc_token p) eqn:Et; [|by apply advances_nil].
    destruct (_ =? pc_generation p) eqn:Eg; [|by apply advances_nil].
    destruct (_ =? pc_crtc_id p) eqn:Ec; [|by apply advances_nil]. cbn. guards.
    destruct (ok_kernel _ _ H p eq_refl) as (? & Ep). rewrite Ep. cbn.
    destruct H. cbn in *. lane_case (ls_flip interval (commit_of p)). by split_and!.
  - destruct q as [p|]; [|by apply advances_nil].
    destruct (_ =? pc_token p) eqn:Et; [|by apply advances_nil].
    destruct (_ =? pc_generation p) eqn:Eg; [|by apply advances_nil].
    destruct (_ =? pc_crtc_id p) eqn:Ec; [|by apply advances_nil]. cbn. guards.
    destruct (ok_queued _ _ H p eq_refl) as ((at_ns & Ep) & Er & Hm). rewrite Ep. cbn.
    case_bool_decide as Ee; [by apply advances_nil|].
    destruct early; [exfalso; apply Ee; by eexists|].
    destruct H. cbn in *. lane_case (ls_early interval (commit_of p)); [|by split_and!].
    intros q [= <-]. split_and!; [by eexists|done|]. intros ? [= <-]. by split_and!.
Qed.
Lemma watchdog_advances now_ns a :
  ok a -> let (a', r) := watchdog_expired now_ns a in adv a (timeout_report now_ns r) a'.
Proof.
  intros H. unfold watchdog_expired.
  destruct a as [[p|] q early w t1 t2 t3 sub comp]; cbn in *; [|by apply advances_nil].
  destruct (ok_kernel _ _ H p eq_refl) as (ret & Ep). rewrite Ep. cbn.
  destruct (pc_watchdog_reported p || _) eqn:E; [by apply advances_nil|]. guards.
  destruct H. cbn in *. split; [split; cbn; try done|..].
  - intros ? [= <-]. cbn. by eexists.
  - unfold lane_of. cbn. apply lane_run_one.
    match goal with X : pc_watchdog_reported p = false |- _ => rewrite X end.
    by apply (ls_timeout interval (commit_of p)).
  - unfold zlen. cbn. lia.
  - unfold zlen. cbn. lia.
Qed.
Lemma register_advances backend token generation crtc id frame_id framebuffer_id at_ns a :
  ok a ->
  let (a', evs) := arbiter_step a (ORegister backend token generation crtc id frame_id framebuffer_id at_ns) in
  adv a evs a'.
Proof.
  intros H. cbn. unfold register_atomic_primary_submission, PageFlipToken_new.
  destruct backend; [|by destruct id; apply advances_nil].
  destruct id as [id|]; [|by apply advances_nil]. destruct (token =? 0); [by apply advances_nil|].
  pose proof (reserve_advances token generation crtc (CompositedPrimary id frame_id framebuffer_id)
                at_ns a H) as Hr.
  destruct (reserve _ _ _ _ _ a) as [a' r]. by destruct r.
Qed.
Lemma validate_advances backend event generation now_ns worker_watchdog a :
  ok a ->
  let (a', evs) := arbiter_step a (OValidate backend event generation now_ns worker_watchdog) in
  adv a evs a'.
Proof.
  intros H. cbn. unfold validate_atomic_pageflip.
  destruct backend; [|by destruct event; apply advances_nil].
  destruct event as [event|].
  - pose proof (flip_advances event generation a H) as Hf.
    destruct (complete_pageflip event generation a) as [a1 c].
    pose proof (watchdog_advances now_ns a1 (adv_ok _ _ _ _ Hf)) as Hw.
    destruct (watchdog_expired now_ns a1) as [a2 r] eqn:E.
    destruct c; destruct worker_watchdog; cbn in *;
      first [done | by rewrite app_nil_r | by eapply advances_app
            | rewrite E; by eapply advances_app].
  - pose proof (watchdog_advances now_ns a H) as Hw. destruct (watchdog_expired now_ns a) as [a2 r].
    destruct worker_watchdog; cbn; [by apply advances_nil|done].
Qed.
Lemma step_advances op a : ok a -> let (a', evs) := arbiter_step a op in adv a evs a'.
Proof.
  intros H. destruct op as [t g c k n|b t g c id f fb n|t g c k n|t s r|t|t|e g|b e g n w|n|].
  - cbn. pose proof (reserve_advances t g c k n a H). by destruct (reserve _ _ _ _ _ _).
  - by apply register_advances.
  - cbn. pose proof (queue_advances t g c k n a H). by destruct (reserve_worker_queued _ _ _ _ _ _).
  - cbn. pose proof (ack_advances t s r a H). by destruct (acknowledge_submission _ _ _ _).
  - cbn. pose proof (reject_advances t a H). by destruct (reject_worker_queued _ _).
  - cbn. pose proof (cancel_advances t a H). by destruct (cancel _ _).
  - cbn. pose proof (flip_advances e g a H). by destruct (complete_pageflip _ _ _).
  - by apply validate_advances.
  - cbn. pose proof (watchdog_advances n a H). by destruct (watchdog_expired _ _).
  - cbn. destruct H. lane_case ls_abandon.
Qed.
Lemma run_advances ops : forall a, ok a -> let (a', evs) := arbiter_run a ops in adv a evs a'.
Proof.
  induction ops as [|op ops IH]; intros a H; cbn; [by apply advances_nil|].
  pose proof (step_advances op a H) as H1. destruct (arbiter_step a op) as [a1 evs].
  specialize (IH a1 (adv_ok _ _ _ _ H1)). destruct (arbiter_run a1 ops) as [a2 evs'].
  by eapply advances_app.
Qed.
End Refinement.

(** ** Commits complete in the order they were reserved *)

Definition in_lane (l : Lane) : list (PageFlipToken * AtomicCommitKind) :=
  match ln_kernel l with Some (c, _, _) => [(cm_token c, cm_kind c)] | None => [] end ++
  match ln_queued l with Some (c, _) => [(cm_token c, cm_kind c)] | None => [] end.
Lemma lane_step_order interval l e l' :
  lane_step interval l e l' ->
  completed [e] ++ in_lane l' `sublist_of` in_lane l ++ reserved [e].
Proof.
  assert (Hs : forall (x : PageFlipToken * AtomicCommitKind) l, l `sublist_of` x :: l)
    by (intros; by apply sublist_cons).
  destruct 1; unfold in_lane; cbn; rewrite ?app_nil_r; try done; try apply sublist_nil_l; auto.
  - destruct H as (-> & _). done.
  - case_match; [|apply sublist_nil_l]. destruct p as [[c' ?] ?]. cbn. apply sublist_skip, sublist_nil_l.
Qed.
Lemma lane_run_order interval l evs l' :
  lane_run interval l evs l' -> completed evs ++ in_lane l' `sublist_of` in_lane l ++ reserved evs.
Proof.
  induction 1 as [l|l e l1 evs l2 Hs _ IH]; [by rewrite app_nil_r|].
  change (e :: evs) with ([e] ++ evs). unfold completed, reserved in *. rewrite !omap_app, <- app_assoc.
  etrans; [apply sublist_app; [done|exact IH]|]. rewrite !app_assoc. apply sublist_app; [|done].
  by apply lane_step_order in Hs.
Qed.
Lemma with_watchdog_ok interval :
  arbiter_ok (if interval =? 0 then 1 else interval) (with_watchdog interval).
Proof. split; cbn; try done; unfold u64_max; lia. Qed.

(** C15: the arbiter of atomic commits implements a lane of one submitted and
    one waiting commit. Whatever is reserved, queued, acknowledged, rejected,
    cancelled or abandoned, and whatever page-flip events arrive, early, late,
    duplicated or foreign, everything a fresh arbiter reports is a run of the
    lane: an event completes only the commit whose token, generation and CRTC
    it carries, a watchdog fires at most once per commit and only past its
    deadline, and the commits reported complete are reserved ones, in the
    order of their reservation and each at most once. The totals count the
    submissions and the completions. *)
Theorem arbiter_refines_lane interval ops :
  let (a, evs) := arbiter_run (with_watchdog interval) ops in
  lane_run (if interval =? 0 then 1 else interval) lane_empty evs (lane_of a) /\
  completed evs `sublist_of` reserved evs /\
  atomic_commits_submitted_total a = Z.min u64_max (zlen (submissions evs)) /\
  atomic_commits_completed_total a = Z.min u64_max (zlen (completed evs)).
Proof.
  pose proof (run_advances _ ops _ (with_watchdog_ok interval)) as H.
  destruct (arbiter_run _ ops) as [a evs]. destruct H as [_ Hl Hs Hc]. split_and!; [done| |done..].
  apply lane_run_order in Hl. etrans; [|exact Hl]. by apply sublist_inserts_r.
Qed.

(** A page flip that overtakes the acknowledgement of its submission is
    not lost: for a commit waiting alone, receiving its event and then the
    acknowledgement leaves exactly the arbiter, and reports exactly the
    completion, of receiving them in the other order, and with both the
    commit is complete. *)
Theorem flip_and_ack_commute a p event started returned :
  kernel_submitted a = None -> worker_queued_commit a = Some p -> early_pageflip a = None ->
  (exists at_ns, pc_phase p = WorkerQueued at_ns) -> pc_token p <> 0 ->
  de_user_data event = pc_token p -> de_crtc_id event = pc_crtc_id p ->
  let (deferred, c1) := complete_pageflip event (pc_generation p) a in
  let (early, r1) := acknowledge_submission (pc_token p) started returned deferred in
  let (acked, r2) := acknowledge_submission (pc_token p) started returned a in
  let (late, c2) := complete_pageflip event (pc_generation p) acked in
  c1 = DeferredUntilSubmitAck /\ r1 = Ret (Some (event, c2)) /\ r2 = Ret None /\
  c2 = Completed (pc_kind p) started /\ early = late /\ lane_of late = lane_empty.
Proof.
  intros Hk Hq He (at_ns & Hp) Ht Hu Hc. apply Z.eqb_neq in Ht.
  destruct a as [k q early w t1 t2 t3 sub comp], p as [token g crtc kind phase s d rep],
    event as [data seq ts ecrtc]. cbn in *. subst.
  unfold complete_pageflip, acknowledge_submission, mark_kernel_submitted, PageFlipToken_new. cbn.
  by repeat (rewrite ?Ht, ?Z.eqb_refl; cbn).
Qed.

Lemma flip_and_ack_commute_witness :
  let p := mkPending 7 1 8 (DirectPrimary 3 7 42) (WorkerQueued 10) 0 0 false in
  let a := mkArbiter None (Some p) None 1000 0 0 0 5 5 in
  let event := mkDrmEvent 7 0 (mkDrmTimestamp 1 2) 8 in
  let (deferred, c1) := complete_pageflip event 1 a in
  let (early, r1) := acknowledge_submission 7 20 30 deferred in
  let (acked, r2) := acknowledge_submission 7 20 30 a in
  let (late, c2) := complete_pageflip event 1 acked in
  c1 = DeferredUntilSubmitAck /\ r1 = Ret (Some (event, c2)) /\ r2 = Ret None /\
  c2 = Completed (DirectPrimary 3 7 42) 20 /\ early = late /\ lane_of late = lane_empty.
Proof.
  apply (flip_and_ack_commute
           (mkArbiter None (Some (mkPending 7 1 8 (DirectPrimary 3 7 42) (WorkerQueued 10) 0 0 false))
              None 1000 0 0 0 5 5)
           (mkPending 7 1 8 (DirectPrimary 3 7 42) (WorkerQueued 10) 0 0 false)
           (mkDrmEvent 7 0 (mkDrmTimestamp 1 2) 8) 20 30); try done. by eexists.
Defined.
