(* ===== verification/KmsPayload.v ===== *)
(** * KmsPayload: what crosses into the submit worker

    Models the rest of src/native_output/presentation/plane.rs (cursor
    revisions and the presented state of the planes) and, of
    src/native_output/kms_worker/, bundle.rs (who owns what a commit puts on
    the planes), payload.rs (the commit job and the contracts it is checked
    against), cursor_sidecar.rs (the mailbox of the cursor update that may
    ride along with a primary commit) and attach_sidecar of thread.rs, with
    validate_against of scanout/direct_lease.rs. File descriptors,
    framebuffers, capability keys and trace snapshots are identifiers in
    [Z]; nothing here looks inside them. *)

From stdpp Require Import base list option.
From Stdlib Require Import ZArith Lia.
From S2P Require Import Prelude Buffering Deadline RenderJournal Scheduler Pipeline.
From S2P Require Import PresentationModes OutputTransaction KmsTiming AtomicCommit.

(** ** Identities and cursor revisions *)

(** The successor of a plane identity, a nonzero [u64] that wraps to 1. *)
Definition identity_next (value : Z) : Z :=
  let next := (value + 1) mod 2 ^ 64 in if next =? 0 then 1 else next.
Record CursorRevision : Type := mkRevision { cr_image : Z; cr_motion : Z; cr_visibility : Z }.
#[export] Instance CursorRevision_eq_dec : EqDecision CursorRevision.
Proof. solve_decision. Defined.
Definition revision_initial : CursorRevision := mkRevision 1 1 1.
Definition from_legacy_epoch (epoch : Z) : CursorRevision := mkRevision epoch epoch epoch.
Definition advance_image (r : CursorRevision) : CursorRevision :=
  mkRevision (identity_next (cr_image r)) (cr_motion r) (cr_visibility r).
Definition advance_motion (r : CursorRevision) : CursorRevision :=
  mkRevision (cr_image r) (identity_next (cr_motion r)) (cr_visibility r).
Definition advance_visibility (r : CursorRevision) : CursorRevision :=
  mkRevision (cr_image r) (cr_motion r) (identity_next (cr_visibility r)).
Definition strictly_newer_than (r other : CursorRevision) : bool :=
  (cr_image other <=? cr_image r) && (cr_motion other <=? cr_motion r)
  && (cr_visibility other <=? cr_visibility r)
  && ((cr_image other <? cr_image r) || (cr_motion other <? cr_motion r)
      || (cr_visibility other <? cr_visibility r)).
Definition from_pageflip_token (token : PageFlipToken) : Z := token.

(** ** The presented state of the planes *)

Inductive CursorSource : Type := SourceHidden | SourceTheme | SourceClient | SourceInteractionOverride.
Inductive CursorCoupling : Type := IndependentPlane | EmbeddedInPrimary | CouplingHidden.
Inductive PresentedCursorDelivery : Type := DeliveryHidden | DeliveryHardware | DeliverySoftware.
#[export] Instance CursorSource_eq_dec : EqDecision CursorSource.
Proof. solve_decision. Defined.
#[export] Instance CursorCoupling_eq_dec : EqDecision CursorCoupling.
Proof. solve_decision. Defined.
#[export] Instance PresentedCursorDelivery_eq_dec : EqDecision PresentedCursorDelivery.
Proof. solve_decision. Defined.
Record PresentedCursorState : Type := mkPresentedCursor {
  pcs_revision : CursorRevision;
  pcs_coupling : CursorCoupling;
  pcs_delivery : PresentedCursorDelivery;
  pcs_framebuffer_id : option Z;
  pcs_image_generation : option Z;
  pcs_source : option CursorSource;
  pcs_visible : bool;
  pcs_output_position : Z * Z;
  pcs_hotspot : Z * Z
}.
#[export] Instance PresentedCursorState_eq_dec : EqDecision PresentedCursorState.
Proof. solve_decision. Defined.
Definition cursor_hidden : PresentedCursorState :=
  mkPresentedCursor revision_initial CouplingHidden DeliveryHidden None None None false (0, 0) (0, 0).
Definition from_atomic_with_delivery (revision : CursorRevision) (coupling : CursorCoupling)
  (delivery : PresentedCursorDelivery) (state : AtomicCursorVisualState) : PresentedCursorState :=
  mkPresentedCursor revision coupling delivery (cv_framebuffer_id state)
    (Some (cv_image_generation state)) None (cv_visible state) (cv_x state, cv_y state)
    (cv_hotspot_x state, cv_hotspot_y state).
Definition from_atomic (revision : CursorRevision) (coupling : CursorCoupling)
  (state : AtomicCursorVisualState) : PresentedCursorState :=
  from_atomic_with_delivery revision coupling
    (if cv_visible state then DeliveryHardware else DeliveryHidden) state.
Definition kms_equivalent_to (c : PresentedCursorState) (state : AtomicCursorVisualState) : bool :=
  if negb (pcs_visible c) && negb (cv_visible state) then true
  else Bool.eqb (pcs_visible c) (cv_visible state)
       && bool_decide (pcs_framebuffer_id c = cv_framebuffer_id state)
       && (fst (pcs_output_position c) =? cv_x state) && (snd (pcs_output_position c) =? cv_y state)
       && (fst (pcs_hotspot c) =? cv_hotspot_x state) && (snd (pcs_hotspot c) =? cv_hotspot_y state).

Record PlanePageflipIdentity : Type := mkFlipIdentity {
  fi_output_id : Z; fi_bundle_id : Z; fi_token : PageFlipToken; fi_output_epoch : Z; fi_crtc_id : Z
}.
#[export] Instance PlanePageflipIdentity_eq_dec : EqDecision PlanePageflipIdentity.
Proof. solve_decision. Defined.
Abbreviation PresentedPrimary :=
  (@PresentedPrimaryState DirectScanoutCandidateKey PlanePageflipIdentity).
#[export] Instance PresentedPrimary_eq_dec : EqDecision PresentedPrimary.
Proof. solve_decision. Defined.
Definition pageflip_identity (p : PresentedPrimary) : PlanePageflipIdentity :=
  match p with
  | Composed _ _ pageflip _ _ _ _ => pageflip
  | Pipeline.Direct _ _ pageflip _ _ _ => pageflip
  end.
Record PresentedPlaneSnapshot : Type := mkPlaneSnapshot {
  pn_revision : Z; pn_primary : option PresentedPrimary; pn_cursor : PresentedCursorState
}.
#[export] Instance PresentedPlaneSnapshot_eq_dec : EqDecision PresentedPlaneSnapshot.
Proof. solve_decision. Defined.
Record PresentedCursorPromotion : Type := mkPromotion {
  pp_identity : PlanePageflipIdentity; pp_cursor : PresentedCursorState
}.
Definition snapshot_initial (cursor : PresentedCursorState) : PresentedPlaneSnapshot :=
  mkPlaneSnapshot 1 None cursor.
Definition snapshot_legacy (primary : option PresentedPrimary) : PresentedPlaneSnapshot :=
  mkPlaneSnapshot 1 primary cursor_hidden.
Definition rebase_after_synchronous_modeset (cursor : PresentedCursorState)
  (s : PresentedPlaneSnapshot) : PresentedPlaneSnapshot :=
  mkPlaneSnapshot (identity_next (pn_revision s)) None cursor.
Definition rebase_after_session_recovery (cursor : PresentedCursorState)
  (s : PresentedPlaneSnapshot) : PresentedPlaneSnapshot := rebase_after_synchronous_modeset cursor s.
Definition promote_bundle (identity pageflip : PlanePageflipIdentity)
  (primary : option PresentedPrimary) (cursor : option PresentedCursorState)
  (s : PresentedPlaneSnapshot) : PresentedPlaneSnapshot * bool :=
  if negb (bool_decide (identity = pageflip))
     || match primary with
        | Some p => negb (bool_decide (pageflip_identity p = pageflip)) | None => false end
     || (bool_decide (primary = None) && bool_decide (cursor = None))
  then (s, false)
  else
    (mkPlaneSnapshot (identity_next (pn_revision s))
       (match primary with Some p => Some p | None => pn_primary s end)
       (default (pn_cursor s) cursor), true).
Definition promote_cursor (promotion : PresentedCursorPromotion) (pageflip : PlanePageflipIdentity)
  (s : PresentedPlaneSnapshot) : PresentedPlaneSnapshot * bool :=
  promote_bundle (pp_identity promotion) pageflip None (Some (pp_cursor promotion)) s.

(** ** Bundles *)

Record KmsPrimaryOwner : Type := mkPrimaryOwner {
  po_transaction : OutputTransaction; po_trace_reveal : option Z
}.
Record KmsCursorOwner : Type := mkCursorOwner {
  uo_transaction : OutputTransaction;
  uo_sidecar_id : option Z;
  uo_revision : CursorRevision;
  uo_capability_key : option Z;
  uo_trace_reveal : option Z
}.
Record KmsBundleOwners : Type := mkOwners {
  ow_primary : option KmsPrimaryOwner; ow_cursor : option KmsCursorOwner
}.
Inductive KmsBundleOwnerError : Type :=
  OwnersEmpty | OwnersOutputMismatch | OwnersGenerationMismatch | OwnersTargetMismatch
| CursorRevisionMismatch.
Record KmsCommitBundleIdentity : Type := mkBundleIdentity {
  bi_id : Z; bi_token : PageFlipToken; bi_output_id : Z; bi_output_generation : Z; bi_crtc_id : Z;
  bi_primary_transaction_id : option OutputTransactionId;
  bi_cursor_transaction_id : option OutputTransactionId
}.
#[export] Instance KmsCommitBundleIdentity_eq_dec : EqDecision KmsCommitBundleIdentity.
Proof. solve_decision. Defined.

Definition owners_new (primary : option KmsPrimaryOwner) (cursor : option KmsCursorOwner)
  : res KmsBundleOwnerError KmsBundleOwners :=
  match (match primary with
         | Some o => Some (po_transaction o) | None => uo_transaction <$> cursor end) with
  | None => Fail OwnersEmpty
  | Some first =>
      match cursor with
      | None => Ret (mkOwners primary cursor)
      | Some o =>
          let t := uo_transaction o in
          if negb (ot_output_id t =? ot_output_id first) then Fail OwnersOutputMismatch
          else if negb (ot_output_generation t =? ot_output_generation first)
          then Fail OwnersGenerationMismatch
          else if negb (bool_decide (ot_reservation t = ot_reservation first))
          then Fail OwnersTargetMismatch
          else Ret (mkOwners primary cursor)
      end
  end.
Definition legacy_unchecked : KmsBundleOwners := mkOwners None None.
Definition is_legacy_unchecked (o : KmsBundleOwners) : bool :=
  match ow_primary o, ow_cursor o with None, None => true | _, _ => false end.
Definition for_transaction (kind : AtomicCommitKind) (t : OutputTransaction)
  (cursor_revision : option CursorRevision) (capability_key : option Z)
  : res KmsBundleOwnerError KmsBundleOwners :=
  let primary := match kind with
                 | KindPlaneDelta _ _ _ => None | _ => Some (mkPrimaryOwner t None) end in
  match pl_cursor (ot_planes t) with
  | CursorUnchanged =>
      match cursor_revision, capability_key with
      | None, None => owners_new primary None
      | _, _ => Fail CursorRevisionMismatch
      end
  | CursorAtomic _ _ | CursorDisabled =>
      match cursor_revision with
      | None => Fail CursorRevisionMismatch
      | Some revision => owners_new primary (Some (mkCursorOwner t None revision capability_key None))
      end
  end.
Definition primary_transaction_id (o : KmsBundleOwners) : option OutputTransactionId :=
  (fun p => ot_id (po_transaction p)) <$> ow_primary o.
Definition cursor_transaction_id (o : KmsBundleOwners) : option OutputTransactionId :=
  (fun c => ot_id (uo_transaction c)) <$> ow_cursor o.
Definition set_cursor_trace_reveal (snapshot : option Z) (o : KmsBundleOwners) : KmsBundleOwners :=
  match ow_cursor o, ow_primary o with
  | Some c, p => mkOwners p (Some (mkCursorOwner (uo_transaction c) (uo_sidecar_id c) (uo_revision c)
                                     (uo_capability_key c) snapshot))
  | None, Some p => mkOwners (Some (mkPrimaryOwner (po_transaction p) snapshot)) None
  | None, None => o
  end.
Definition trace_reveal (o : KmsBundleOwners) : option Z :=
  match ow_cursor o ≫= uo_trace_reveal with
  | Some s => Some s | None => ow_primary o ≫= po_trace_reveal end.
Definition replace_cursor (cursor : KmsCursorOwner) (o : KmsBundleOwners)
  : KmsBundleOwners * option KmsCursorOwner := (mkOwners (ow_primary o) (Some cursor), ow_cursor o).

(** ** Commit jobs *)

Inductive KmsValidationBase : Type :=
| Presented (snapshot : PresentedPlaneSnapshot) (output_id output_generation crtc_id : Z)
| Predecessor (identity : KmsCommitBundleIdentity).
#[export] Instance KmsValidationBase_eq_dec : EqDecision KmsValidationBase.
Proof. solve_decision. Defined.
Inductive EstablishedKmsBase : Type :=
| EstablishedPresented (revision output_id output_generation crtc_id : Z)
| Pending (identity : KmsCommitBundleIdentity)
| Bundle (identity : KmsCommitBundleIdentity).
Inductive ValidationBaseDisposition : Type := BaseReady | BaseWait | BaseInvalidated.
#[export] Instance ValidationBaseDisposition_eq_dec : EqDecision ValidationBaseDisposition.
Proof. solve_decision. Defined.
Definition validation_base_ready (established : EstablishedKmsBase) (required : KmsValidationBase)
  : ValidationBaseDisposition :=
  match established, required with
  | EstablishedPresented revision output_id generation crtc_id,
    Presented snapshot required_output required_generation required_crtc =>
      if (revision =? pn_revision snapshot) && (output_id =? required_output)
         && (generation =? required_generation) && (crtc_id =? required_crtc)
      then BaseReady else BaseInvalidated
  | Pending pending, Predecessor required =>
      if bool_decide (pending = required) then BaseWait else BaseInvalidated
  | Bundle established, Predecessor required =>
      if bool_decide (established = required) then BaseReady else BaseInvalidated
  | _, _ => BaseInvalidated
  end.

Inductive KmsPrimaryUpdate : Type :=
| UpdatePrimaryUnchanged
| Framebuffer (framebuffer : Z) (in_fence : option Z) (request_out_fence : bool).
Inductive KmsCursorUpdate : Type :=
| UpdateCursorUnchanged | Disable | Set_ (state : AtomicCursorVisualState).
Inductive KmsPrimaryCursorPresentation : Type := Preserve | Promote (state : PresentedCursorState).
Inductive KmsTestOnlyPolicy : Type := TestSkip | TestRequired.
Record KmsCommitTestPolicy : Type := mkTestPolicy {
  tp_primary : KmsTestOnlyPolicy; tp_cursor : KmsTestOnlyPolicy
}.
Definition from_primary (p : KmsTestOnlyPolicy) : KmsCommitTestPolicy := mkTestPolicy p TestSkip.
Definition from_cursor (p : KmsTestOnlyPolicy) : KmsCommitTestPolicy := mkTestPolicy TestSkip p.
Definition effective (p : KmsCommitTestPolicy) : KmsTestOnlyPolicy :=
  match tp_primary p, tp_cursor p with
  | TestRequired, _ | _, TestRequired => TestRequired
  | _, _ => TestSkip
  end.

(** Of a lease on a client framebuffer, what its validation reads. *)
Record DirectPrimaryLease : Type := mkLease {
  dl_key : DirectScanoutCandidateKey; dl_surface_id : Z; dl_framebuffer_id : Z
}.
Definition lease_validate_against (expected_key : DirectScanoutCandidateKey)
  (expected_surface_id expected_framebuffer_id : Z) (l : DirectPrimaryLease) : bool :=
  bool_decide (dl_key l = expected_key)
  && (ck_surface_id (dk_content (dl_key l)) =? dl_surface_id l)
  && (dl_surface_id l =? expected_surface_id)
  && (dl_framebuffer_id l =? expected_framebuffer_id).
Record WorkerPacingTicket : Type := mkTicket {
  wt_reservation_id : Z; wt_frame_id : Z; wt_ready_submit : bool;
  wt_predictive_attempt_id : option Z; wt_physical_identity : option Z; wt_physical_key : option Z
}.

Record KmsCommitJob : Type := mkJob {
  jb_bundle_id : Z;
  jb_owners : KmsBundleOwners;
  jb_output_id : Z;
  jb_transaction_id : OutputTransactionId;
  jb_token : PageFlipToken;
  jb_output_epoch : Z;
  jb_crtc_id : Z;
  jb_kind : AtomicCommitKind;
  jb_reservation : FramePresentationReservation;
  jb_presentation_timing : KmsPresentationTiming;
  jb_validation_base : KmsValidationBase;
  jb_queued_at : MonotonicTimestampNs;
  jb_primary : KmsPrimaryUpdate;
  jb_cursor : KmsCursorUpdate;
  jb_cursor_delivery : PresentedCursorDelivery;
  jb_primary_cursor_presentation : KmsPrimaryCursorPresentation;
  jb_cursor_pin : option Z;
  jb_direct_primary_lease : option DirectPrimaryLease;
  jb_test_only_duration_ns : option Z;
  jb_pacing_ticket : option WorkerPacingTicket;
  jb_test_policy : KmsCommitTestPolicy;
  jb_ready_submit : bool
}.
Inductive KmsCommitPayloadError : Type :=
  OutputMismatch | TransactionIdentityMismatch | GenerationMismatch | TargetMismatch
| PrimaryAssignmentMismatch | CursorAssignmentMismatch | MissingExplicitInputFence
| PlaneDeltaChangesPrimary | PlaneDeltaMissingCursorUpdate | UnexpectedCompatibilityImmediate
| CursorResourceMismatch | DirectPrimaryResourceMismatch | MissingPrimaryOwner | MissingCursorOwner
| CursorDeliveryMismatch | PrimaryCursorPresentationMismatch | OwnerIdentityMismatch
| OwnerGenerationMismatch | OwnerTargetMismatch | DeferredO1Reservation | PresentationTimingMismatch
| ValidationBaseMismatch | PacingReadySubmitMismatch.

Definition variable_preferred_present_ns (j : KmsCommitJob) : option Z :=
  match jb_reservation j with
  | Variable_ reservation =>
      match opp_timing (var_opportunity reservation) with
      | VrrWindow _ _ _ preferred_present _ _ _ => Some preferred_present
      | _ => None
      end
  | _ => None
  end.
Definition primary_frame_id (j : KmsCommitJob) : option Z :=
  match jb_kind j with CompositedPrimary _ frame_id _ => Some frame_id | _ => None end.
Definition identity (j : KmsCommitJob) : KmsCommitBundleIdentity :=
  mkBundleIdentity (jb_bundle_id j) (jb_token j) (jb_output_id j) (jb_output_epoch j) (jb_crtc_id j)
    (primary_transaction_id (jb_owners j)) (cursor_transaction_id (jb_owners j)).
Definition job_presentation_mode (j : KmsCommitJob) : OutputPresentationMode :=
  match ow_primary (jb_owners j), ow_cursor (jb_owners j) with
  | Some o, _ => ot_presentation_mode (po_transaction o)
  | None, Some o => ot_presentation_mode (uo_transaction o)
  | None, None => ModeVsync
  end.
Definition job_content_type (j : KmsCommitJob) : DrmContentType :=
  match ow_primary (jb_owners j), ow_cursor (jb_owners j) with
  | Some o, _ => ot_content_type (po_transaction o)
  | None, Some o => ot_content_type (uo_transaction o)
  | None, None => DrmGraphics
  end.

(** ** Contracts *)

Definition validate_pacing_ownership (j : KmsCommitJob) : res KmsCommitPayloadError unit :=
  match jb_pacing_ticket j with
  | Some ticket => if negb (Bool.eqb (jb_ready_submit j) (wt_ready_submit ticket))
                   then Fail PacingReadySubmitMismatch else Ret tt
  | None => Ret tt
  end.
Definition validate_presentation_timing_domain (j : KmsCommitJob) : res KmsCommitPayloadError unit :=
  match jb_reservation j, jb_presentation_timing j with
  | Fixed _, TimingFixed _ | Variable_ _, TimingVariable _ => Ret tt
  | DeferredO1 _, _ => Fail DeferredO1Reservation
  | _, _ => Fail PresentationTimingMismatch
  end.
Definition validate_reservation_owner (reservation : FramePresentationReservation) (j : KmsCommitJob)
  : res KmsCommitPayloadError unit :=
  _ ← validate_presentation_timing_domain j;
  if bool_decide (jb_reservation j = reservation) then Ret tt else Fail OwnerTargetMismatch.
(** The output, generation and CRTC a validation base names. *)
Definition base_lane (b : KmsValidationBase) : Z * Z * Z :=
  match b with
  | Presented _ output_id generation crtc_id => (output_id, generation, crtc_id)
  | Predecessor i => (bi_output_id i, bi_output_generation i, bi_crtc_id i)
  end.
(** The body of the loop over the owners. *)
Definition check_owner (t : OutputTransaction) (j : KmsCommitJob) : res KmsCommitPayloadError unit :=
  if negb (ot_output_id t =? jb_output_id j) then Fail OutputMismatch
  else if negb (ot_output_generation t =? jb_output_epoch j) then Fail OwnerGenerationMismatch
  else validate_reservation_owner (ot_reservation t) j.
Definition check_owner_opt (t : option OutputTransaction) (j : KmsCommitJob)
  : res KmsCommitPayloadError unit :=
  match t with Some t => check_owner t j | None => Ret tt end.
Definition check_owners (j : KmsCommitJob) : res KmsCommitPayloadError unit :=
  if is_legacy_unchecked (jb_owners j) then Ret tt
  else
    let missing_primary := match jb_primary j, ow_primary (jb_owners j) with
                           | Framebuffer _ _ _, None => true | _, _ => false end in
    let missing_cursor := match jb_cursor j, ow_cursor (jb_owners j) with
                          | UpdateCursorUnchanged, _ => false | _, None => true | _, _ => false end in
    if missing_primary then Fail MissingPrimaryOwner
    else if missing_cursor then Fail MissingCursorOwner
    else
      _ ← check_owner_opt (po_transaction <$> ow_primary (jb_owners j)) j;
      _ ← check_owner_opt (uo_transaction <$> ow_cursor (jb_owners j)) j;
      let expected_legacy_owner := match jb_kind j with
                                   | KindPlaneDelta _ _ _ => cursor_transaction_id (jb_owners j)
                                   | _ => primary_transaction_id (jb_owners j)
                                   end in
      if bool_decide (expected_legacy_owner = Some (jb_transaction_id j)) then Ret tt
      else Fail OwnerIdentityMismatch.
Definition validate_executable_contract (j : KmsCommitJob) : res KmsCommitPayloadError unit :=
  _ ← validate_pacing_ownership j;
  if negb (kind_transaction_id (jb_kind j) =? jb_transaction_id j)
  then Fail TransactionIdentityMismatch
  else
    _ ← validate_presentation_timing_domain j;
    if negb (bool_decide (base_lane (jb_validation_base j)
                          = (jb_output_id j, jb_output_epoch j, jb_crtc_id j)))
    then Fail ValidationBaseMismatch
    else check_owners j.

Section Against.
Context (t : OutputTransaction) (submitted : bool) (j : KmsCommitJob).
Definition check_lease : res KmsCommitPayloadError unit :=
  match jb_kind j, jb_direct_primary_lease j with
  | DirectPrimary _ _ framebuffer_id, Some lease =>
      match ot_content t with
      | Direct _ expected_key =>
          match direct_surface_id (ot_obligations t) with
          | None => Fail DirectPrimaryResourceMismatch
          | Some expected_surface_id =>
              if negb (lease_validate_against expected_key expected_surface_id framebuffer_id lease)
                 || negb (match pl_primary (ot_planes t) with
                          | ClientFramebuffer primary_key expected_framebuffer =>
                              bool_decide (primary_key = expected_key)
                              && (expected_framebuffer =? framebuffer_id)
                          | _ => false
                          end)
              then Fail DirectPrimaryResourceMismatch else Ret tt
          end
      | _ => Fail DirectPrimaryResourceMismatch
      end
  | DirectPrimary _ _ _, None => Fail DirectPrimaryResourceMismatch
  | _, None => Ret tt
  | _, Some _ => Fail DirectPrimaryResourceMismatch
  end.
Definition check_primary : res KmsCommitPayloadError unit :=
  match jb_kind j, ot_content t, jb_primary j with
  | CompositedPrimary _ _ framebuffer_id, Composited _ _ _ _, Framebuffer framebuffer in_fence _ =>
      match pl_primary (ot_planes t) with
      | CompositorFramebuffer _ expected =>
          if (expected =? framebuffer_id) && (framebuffer =? framebuffer_id)
             && (bool_decide (is_Some in_fence) || submitted)
          then Ret tt else Fail PrimaryAssignmentMismatch
      | CompatibilityFramebuffer expected =>
          if (expected =? framebuffer_id) && (framebuffer =? framebuffer_id)
             && bool_decide (in_fence = None)
          then Ret tt else Fail PrimaryAssignmentMismatch
      | _ => Fail PrimaryAssignmentMismatch
      end
  | DirectPrimary _ _ framebuffer_id, Direct _ _, Framebuffer framebuffer _ _ =>
      match pl_primary (ot_planes t) with
      | ClientFramebuffer _ expected =>
          if (expected =? framebuffer_id) && (framebuffer =? framebuffer_id)
          then Ret tt else Fail PrimaryAssignmentMismatch
      | _ => Fail PrimaryAssignmentMismatch
      end
  | KindPlaneDelta _ _ _, PlaneDelta _ _, UpdatePrimaryUnchanged => Ret tt
  | CompositedPrimary _ _ _, CompatibilityImmediate _, _
  | DirectPrimary _ _ _, CompatibilityImmediate _, _ => Fail UnexpectedCompatibilityImmediate
  | KindPlaneDelta _ _ _, _, Framebuffer _ _ _ => Fail PlaneDeltaChangesPrimary
  | _, _, _ => Fail PrimaryAssignmentMismatch
  end.
Definition is_plane_delta (k : AtomicCommitKind) : bool := negb (is_primary k).
Definition is_software (d : PresentedCursorDelivery) : bool := bool_decide (d = DeliverySoftware).
Definition check_promotion : res KmsCommitPayloadError unit :=
  match jb_primary_cursor_presentation j with
  | Preserve => Ret tt
  | Promote state =>
      match jb_kind j, jb_primary j with
      | KindPlaneDelta _ _ _, _ => Fail PrimaryCursorPresentationMismatch
      | _, UpdatePrimaryUnchanged => Fail PrimaryCursorPresentationMismatch
      | kind, Framebuffer _ _ _ =>
          if match kind with DirectPrimary _ _ _ => is_software (pcs_delivery state) | _ => false end
          then Fail PrimaryCursorPresentationMismatch
          else if match jb_cursor j with
                  | Set_ cursor => is_software (pcs_delivery state) && cv_visible cursor
                  | _ => false
                  end || negb (bool_decide (pcs_delivery state = jb_cursor_delivery j))
          then Fail PrimaryCursorPresentationMismatch
          else Ret tt
      end
  end.
Definition cursor_matches (planned : CursorPlaneAssignment) : bool :=
  match jb_cursor j, planned with
  | UpdateCursorUnchanged, CursorUnchanged => true
  | Disable, CursorAtomic _ None => true
  | Set_ state, CursorAtomic _ (Some planned) => bool_decide (state = planned)
  | _, _ => false
  end.
Definition check_delivery : res KmsCommitPayloadError unit :=
  match jb_cursor j with
  | Set_ state =>
      if cv_visible state && negb (bool_decide (jb_cursor_delivery j = DeliveryHardware))
      then Fail CursorDeliveryMismatch
      else match jb_kind j, jb_cursor_delivery j with
           | KindPlaneDelta _ _ _, DeliverySoftware | DirectPrimary _ _ _, DeliverySoftware =>
               Fail CursorDeliveryMismatch
           | _, _ => Ret tt
           end
  | c =>
      match jb_kind j, c, jb_cursor_delivery j with
      | KindPlaneDelta _ _ _, Disable, DeliveryHardware
      | KindPlaneDelta _ _ _, _, DeliverySoftware
      | DirectPrimary _ _ _, _, DeliverySoftware => Fail CursorDeliveryMismatch
      | _, _, _ => Ret tt
      end
  end.
Definition check_pin : res KmsCommitPayloadError unit :=
  match jb_cursor j with
  | Set_ state =>
      match cv_framebuffer_id state, jb_cursor_pin j with
      | Some fb, Some pin => if negb (pin =? fb) then Fail CursorResourceMismatch else Ret tt
      | Some _, None => Fail CursorResourceMismatch
      | None, Some _ => Fail CursorResourceMismatch
      | None, None => Ret tt
      end
  | _ => if bool_decide (is_Some (jb_cursor_pin j)) then Fail CursorResourceMismatch else Ret tt
  end.
Definition check_delta_epoch : res KmsCommitPayloadError unit :=
  match jb_kind j with
  | KindPlaneDelta _ cursor_epoch _ =>
      match pl_primary (ot_planes t) with
      | PrimaryUnchanged =>
          match pl_cursor (ot_planes t) with
          | CursorAtomic desired_epoch _ =>
              if desired_epoch =? cursor_epoch then Ret tt else Fail CursorAssignmentMismatch
          | _ => Fail CursorAssignmentMismatch
          end
      | _ => Fail PlaneDeltaChangesPrimary
      end
  | _ => Ret tt
  end.
Definition cursor_transaction : OutputTransaction :=
  match ow_cursor (jb_owners j) with Some owner => uo_transaction owner | None => t end.
Definition validate_against_mode : res KmsCommitPayloadError unit :=
  _ ← validate_executable_contract j;
  if negb (jb_output_id j =? ot_output_id t) then Fail OutputMismatch
  else if negb (jb_transaction_id j =? ot_id t) then Fail TransactionIdentityMismatch
  else if negb (jb_output_epoch j =? ot_output_generation t) then Fail GenerationMismatch
  else if negb (bool_decide (jb_reservation j = ot_reservation t)) then Fail TargetMismatch
  else
    _ ← check_lease;
    _ ← check_primary;
    _ ← check_promotion;
    if is_plane_delta (jb_kind j)
       && match jb_cursor j with UpdateCursorUnchanged => true | _ => false end
    then Fail PlaneDeltaMissingCursorUpdate
    else if negb (cursor_matches (pl_cursor (ot_planes cursor_transaction)))
    then Fail CursorAssignmentMismatch
    else
      _ ← check_delivery;
      _ ← check_pin;
      check_delta_epoch.
End Against.
Definition validate_against (t : OutputTransaction) (j : KmsCommitJob) : res KmsCommitPayloadError unit :=
  validate_against_mode t false j.
Definition validate_submitted_against (t : OutputTransaction) (j : KmsCommitJob)
  : res KmsCommitPayloadError unit := validate_against_mode t true j.

(** ** The cursor sidecar mailbox *)

Inductive CursorSidecarCoupling : Type :=
| CouplingIndependent
| MustBundleWith (transaction_id : OutputTransactionId).
#[export] Instance CursorSidecarCoupling_eq_dec : EqDecision CursorSidecarCoupling.
Proof. solve_decision. Defined.
Inductive CursorSidecarReturnReason : Type :=
  RequiredPrimaryPassedFreeze | RequiredPrimaryTerminal | GenerationInvalidated | ReturnQuiesced.
Record CursorSidecar : Type := mkSidecar {
  cs_id : Z;
  cs_transaction : OutputTransaction;
  cs_revision : CursorRevision;
  cs_assignment : CursorPlaneAssignment;
  cs_lease : option Z;
  cs_coupling : CursorSidecarCoupling;
  cs_created_at : MonotonicTimestampNs;
  cs_deadline : PresentationTarget;
  cs_crtc_id : Z;
  cs_test_policy : KmsTestOnlyPolicy;
  cs_cursor_delivery : PresentedCursorDelivery;
  cs_capability_key : option Z;
  cs_trace_reveal : option Z;
  cs_validation_base : KmsValidationBase
}.
(** The mailbox holds at most one sidecar. *)
Definition CursorSidecarMailbox : Type := option CursorSidecar.
Definition offer (sidecar : CursorSidecar) (m : CursorSidecarMailbox)
  : CursorSidecarMailbox * option CursorSidecar := (Some sidecar, m).
Definition take_if (accept : CursorSidecar -> bool) (m : CursorSidecarMailbox)
  : CursorSidecarMailbox * option CursorSidecar :=
  match m with
  | Some sidecar => if accept sidecar then (None, Some sidecar) else (m, None)
  | None => (None, None)
  end.
Definition take (m : CursorSidecarMailbox) : CursorSidecarMailbox * option CursorSidecar := (None, m).
Definition take_must_bundle_with (transaction_id : OutputTransactionId) (m : CursorSidecarMailbox)
  : CursorSidecarMailbox * option CursorSidecar :=
  take_if (fun s => bool_decide (cs_coupling s = MustBundleWith transaction_id)) m.
Definition take_independent_due (output_generation crtc_id : Z) (target : PresentationTarget)
  (m : CursorSidecarMailbox) : CursorSidecarMailbox * option CursorSidecar :=
  take_if (fun s =>
    (ot_output_generation (cs_transaction s) =? output_generation) && (cs_crtc_id s =? crtc_id)
    && (pt_clock_generation (cs_deadline s) =? pt_clock_generation target)
    && (pt_presentation_time (cs_deadline s) <=? pt_presentation_time target)
    && bool_decide (cs_coupling s = CouplingIndependent)) m.
Definition claimable (output_generation crtc_id : Z) (target : PresentationTarget)
  (primary_id : option OutputTransactionId) (s : CursorSidecar) : bool :=
  (ot_output_generation (cs_transaction s) =? output_generation) && (cs_crtc_id s =? crtc_id)
  && bool_decide (cs_deadline s = target)
  && match cs_coupling s with
     | CouplingIndependent => true
     | MustBundleWith required => bool_decide (primary_id = Some required)
     end.
Definition claim_for (output_generation crtc_id : Z) (target : PresentationTarget)
  (primary_id : option OutputTransactionId) (m : CursorSidecarMailbox)
  : CursorSidecarMailbox * option CursorSidecar :=
  take_if (claimable output_generation crtc_id target primary_id) m.

(** ** Attaching a sidecar *)

Definition update_of (assignment : CursorPlaneAssignment) : KmsCursorUpdate :=
  match assignment with
  | CursorAtomic _ (Some state) => Set_ state
  | CursorAtomic _ None | CursorDisabled => Disable
  | CursorUnchanged => UpdateCursorUnchanged
  end.
Definition set_job_cursor (owners : KmsBundleOwners) (cursor : KmsCursorUpdate)
  (delivery : PresentedCursorDelivery) (pin : option Z) (policy : KmsCommitTestPolicy)
  (j : KmsCommitJob) : KmsCommitJob :=
  mkJob (jb_bundle_id j) owners (jb_output_id j) (jb_transaction_id j) (jb_token j) (jb_output_epoch j)
    (jb_crtc_id j) (jb_kind j) (jb_reservation j) (jb_presentation_timing j) (jb_validation_base j)
    (jb_queued_at j) (jb_primary j) cursor delivery (jb_primary_cursor_presentation j) pin
    (jb_direct_primary_lease j) (jb_test_only_duration_ns j) (jb_pacing_ticket j) policy
    (jb_ready_submit j).
Definition set_job_primary (primary : KmsPrimaryUpdate) (j : KmsCommitJob) : KmsCommitJob :=
  mkJob (jb_bundle_id j) (jb_owners j) (jb_output_id j) (jb_transaction_id j) (jb_token j)
    (jb_output_epoch j) (jb_crtc_id j) (jb_kind j) (jb_reservation j) (jb_presentation_timing j)
    (jb_validation_base j) (jb_queued_at j) primary (jb_cursor j) (jb_cursor_delivery j)
    (jb_primary_cursor_presentation j) (jb_cursor_pin j) (jb_direct_primary_lease j)
    (jb_test_only_duration_ns j) (jb_pacing_ticket j) (jb_test_policy j) (jb_ready_submit j).
Definition set_test_duration (duration : option Z) (j : KmsCommitJob) : KmsCommitJob :=
  mkJob (jb_bundle_id j) (jb_owners j) (jb_output_id j) (jb_transaction_id j) (jb_token j)
    (jb_output_epoch j) (jb_crtc_id j) (jb_kind j) (jb_reservation j) (jb_presentation_timing j)
    (jb_validation_base j) (jb_queued_at j) (jb_primary j) (jb_cursor j) (jb_cursor_delivery j)
    (jb_primary_cursor_presentation j) (jb_cursor_pin j) (jb_direct_primary_lease j)
    duration (jb_pacing_ticket j) (jb_test_policy j) (jb_ready_submit j).
Definition attach_sidecar (s : CursorSidecar) (j : KmsCommitJob) : KmsCommitJob :=
  set_job_cursor
    (fst (replace_cursor (mkCursorOwner (cs_transaction s) (Some (cs_id s)) (cs_revision s)
                            (cs_capability_key s) (cs_trace_reveal s)) (jb_owners j)))
    (update_of (cs_assignment s)) (cs_cursor_delivery s) (cs_lease s)
    (mkTestPolicy (tp_primary (jb_test_policy j)) (cs_test_policy s)) j.
(** The ioctl has consumed the input fence. *)
Definition take_in_fence (j : KmsCommitJob) : KmsCommitJob :=
  match jb_primary j with
  | Framebuffer framebuffer _ request_out_fence =>
      set_job_primary (Framebuffer framebuffer None request_out_fence) j
  | UpdatePrimaryUnchanged => j
  end.

(** ** What an accepted payload promises *)

Definition owner_transactions (o : KmsBundleOwners) : list OutputTransaction :=
  match ow_primary o with Some p => [po_transaction p] | None => [] end ++
  match ow_cursor o with Some c => [uo_transaction c] | None => [] end.
Record owners_ok (j : KmsCommitJob) : Prop := {
  oo_primary : jb_primary j <> UpdatePrimaryUnchanged -> is_Some (ow_primary (jb_owners j));
  oo_cursor : jb_cursor j <> UpdateCursorUnchanged -> is_Some (ow_cursor (jb_owners j));
  oo_same : Forall (fun t => ot_output_id t = jb_output_id j /\ ot_output_generation t = jb_output_epoch j
                             /\ ot_reservation t = jb_reservation j) (owner_transactions (jb_owners j));
  oo_legacy : (if is_primary (jb_kind j) then primary_transaction_id (jb_owners j)
               else cursor_transaction_id (jb_owners j)) = Some (jb_transaction_id j)
}.
Record contract_ok (j : KmsCommitJob) : Prop := {
  ct_pacing : forall ticket, jb_pacing_ticket j = Some ticket -> jb_ready_submit j = wt_ready_submit ticket;
  ct_kind : kind_transaction_id (jb_kind j) = jb_transaction_id j;
  ct_timing : match jb_reservation j, jb_presentation_timing j with
              | Fixed _, TimingFixed _ | Variable_ _, TimingVariable _ => True | _, _ => False end;
  ct_base : base_lane (jb_validation_base j) = (jb_output_id j, jb_output_epoch j, jb_crtc_id j);
  ct_owners : jb_owners j = legacy_unchecked \/ owners_ok j
}.

Lemma bind_unit {E} (m : res E unit) (k : unit -> res E unit) :
  (x ← m; k x) = Ret tt <-> m = Ret tt /\ k tt = Ret tt.
Proof. destruct m as [[]| | |]; cbn; naive_solver. Qed.
Lemma guard_unit {E} (b : bool) (e : E) (k : res E unit) :
  (if b then Fail e else k) = Ret tt <-> b = false /\ k = Ret tt.
Proof. destruct b; naive_solver. Qed.
Lemma timing_domain_ok j :
  validate_presentation_timing_domain j = Ret tt <->
  match jb_reservation j, jb_presentation_timing j with
  | Fixed _, TimingFixed _ | Variable_ _, TimingVariable _ => True | _, _ => False end.
Proof. unfold validate_presentation_timing_domain. by repeat case_match. Qed.
Lemma pacing_ok j :
  validate_pacing_ownership j = Ret tt <->
  forall ticket, jb_pacing_ticket j = Some ticket -> jb_ready_submit j = wt_ready_submit ticket.
Proof.
  unfold validate_pacing_ownership. destruct (jb_pacing_ticket j) as [ticket|]; [|naive_solver].
  rewrite guard_unit, negb_false_iff, Bool.eqb_true_iff. naive_solver.
Qed.
Lemma check_owner_ok t j :
  validate_presentation_timing_domain j = Ret tt ->
  check_owner t j = Ret tt <->
  ot_output_id t = jb_output_id j /\ ot_output_generation t = jb_output_epoch j
  /\ ot_reservation t = jb_reservation j.
Proof.
  intros Ht. unfold check_owner, validate_reservation_owner.
  rewrite !guard_unit, !negb_false_iff, !Z.eqb_eq, bind_unit.
  case_bool_decide as E; naive_solver.
Qed.
Lemma check_owners_ok j :
  validate_presentation_timing_domain j = Ret tt ->
  check_owners j = Ret tt <-> jb_owners j = legacy_unchecked \/ owners_ok j.
Proof.
  intros Ht. unfold check_owners.
  destruct (is_legacy_unchecked (jb_owners j)) eqn:El.
  - split; [intros _; left|done]. unfold is_legacy_unchecked in El.
    destruct (jb_owners j) as [[?|] [?|]]; by cbn in El.
  - assert (Hn : jb_owners j <> legacy_unchecked) by (intros E; rewrite E in El; by cbn in El).
    rewrite !guard_unit, !bind_unit.
    transitivity (owners_ok j); [|naive_solver].
    assert (Ho : forall o, check_owner_opt o j = Ret tt <->
              forall t, o = Some t -> ot_output_id t = jb_output_id j
                /\ ot_output_generation t = jb_output_epoch j /\ ot_reservation t = jb_reservation j).
    { intros [t|]; cbn; [|naive_solver]. rewrite check_owner_ok by done. naive_solver. }
    rewrite !Ho. split.
    + intros (Hp & Hc & H1 & H2 & H3).
      assert (H3' : (if is_primary (jb_kind j) then primary_transaction_id (jb_owners j)
                     else cursor_transaction_id (jb_owners j)) = Some (jb_transaction_id j))
        by (destruct (jb_kind j); cbn in *; case_bool_decide; done).
      split; [..|done].
      * destruct (jb_primary j), (ow_primary (jb_owners j)); try done.
      * destruct (jb_cursor j), (ow_cursor (jb_owners j)); try done.
      * unfold owner_transactions. destruct (ow_primary _), (ow_cursor _); cbn in *;
          repeat constructor; naive_solver.
    + intros [Hp Hc Hs Hl]. unfold owner_transactions in Hs. split_and!.
      * destruct (jb_primary j), (ow_primary (jb_owners j)); try done. by destruct Hp.
      * destruct (jb_cursor j), (ow_cursor (jb_owners j)); try done; by destruct Hc.
      * intros t E. rewrite Forall_forall in Hs. apply Hs, in_app_iff. left.
        destruct (ow_primary _); cbn in *; [|done]. injection E as <-. by left.
      * intros t E. rewrite Forall_forall in Hs. apply Hs, in_app_iff. right.
        destruct (ow_cursor _); cbn in *; [|done]. injection E as <-. by left.
      * destruct (jb_kind j); cbn in *; by case_bool_decide.
Qed.
Lemma contract_iff j : validate_executable_contract j = Ret tt <-> contract_ok j.
Proof.
  unfold validate_executable_contract.
  rewrite bind_unit, guard_unit, bind_unit, guard_unit, !negb_false_iff, Z.eqb_eq, bool_decide_eq_true,
    pacing_ok.
  split.
  - intros (H1 & H2 & H3 & H4 & H5). rewrite check_owners_ok in H5 by done.
    by split; rewrite <- ?timing_domain_ok.
  - intros [H1 H2 H3 H4 H5]. rewrite <- timing_domain_ok in H3. rewrite check_owners_ok by done. done.
Qed.

Definition cursor_framebuffer (j : KmsCommitJob) : option Z :=
  match jb_cursor j with Set_ state => cv_framebuffer_id state | _ => None end.
Definition is_composited (k : AtomicCommitKind) : Prop :=
  match k with CompositedPrimary _ _ _ => True | _ => False end.
(** The primary plane gets the framebuffer the transaction assigned to it,
    with the fence or the lease that keeps it readable. *)
Definition primary_ok (t : OutputTransaction) (submitted : bool) (j : KmsCommitJob) : Prop :=
  match jb_kind j with
  | CompositedPrimary _ _ fb =>
      jb_direct_primary_lease j = None /\
      (exists frame render pool key, ot_content t = Composited frame render pool key) /\
      exists in_fence out, jb_primary j = Framebuffer fb in_fence out /\
        ((exists slot, pl_primary (ot_planes t) = CompositorFramebuffer slot fb /\
                       (submitted = false -> is_Some in_fence)) \/
         (pl_primary (ot_planes t) = CompatibilityFramebuffer fb /\ in_fence = None))
  | DirectPrimary _ _ fb =>
      exists frame key in_fence out,
        ot_content t = Direct frame key /\ pl_primary (ot_planes t) = ClientFramebuffer key fb /\
        direct_surface_id (ot_obligations t) = Some (ck_surface_id (dk_content key)) /\
        jb_direct_primary_lease j = Some (mkLease key (ck_surface_id (dk_content key)) fb) /\
        jb_primary j = Framebuffer fb in_fence out
  | KindPlaneDelta _ epoch _ =>
      jb_direct_primary_lease j = None /\ jb_primary j = UpdatePrimaryUnchanged /\
      (exists changed sidecar, ot_content t = PlaneDelta changed sidecar) /\
      pl_primary (ot_planes t) = PrimaryUnchanged /\
      exists state, pl_cursor (ot_planes t) = CursorAtomic epoch state
  end.
(** The cursor plane gets what the owning transaction assigned to it, with
    the framebuffer it shows pinned. *)
Record cursor_ok (t : OutputTransaction) (j : KmsCommitJob) : Prop := {
  co_update : jb_cursor j = update_of (pl_cursor (ot_planes (cursor_transaction t j)));
  co_enabled : pl_cursor (ot_planes (cursor_transaction t j)) <> CursorDisabled;
  co_pin : jb_cursor_pin j = cursor_framebuffer j;
  co_visible : forall state, jb_cursor j = Set_ state -> cv_visible state = true ->
    jb_cursor_delivery j = DeliveryHardware;
  co_software : jb_cursor_delivery j = DeliverySoftware -> is_composited (jb_kind j);
  co_delta : is_primary (jb_kind j) = false ->
    jb_cursor j <> UpdateCursorUnchanged /\
    (jb_cursor j = Disable -> jb_cursor_delivery j <> DeliveryHardware)
}.
Definition promotion_ok (j : KmsCommitJob) : Prop :=
  forall state, jb_primary_cursor_presentation j = Promote state ->
  is_primary (jb_kind j) = true /\ jb_primary j <> UpdatePrimaryUnchanged /\
  pcs_delivery state = jb_cursor_delivery j /\
  (pcs_delivery state = DeliverySoftware ->
   is_composited (jb_kind j) /\ forall cursor, jb_cursor j = Set_ cursor -> cv_visible cursor = false).
Record payload_ok (t : OutputTransaction) (submitted : bool) (j : KmsCommitJob) : Prop := {
  pk_contract : contract_ok j;
  pk_output : jb_output_id j = ot_output_id t;
  pk_id : jb_transaction_id j = ot_id t;
  pk_generation : jb_output_epoch j = ot_output_generation t;
  pk_reservation : jb_reservation j = ot_reservation t;
  pk_primary : primary_ok t submitted j;
  pk_promotion : promotion_ok j;
  pk_cursor : cursor_ok t j
}.

Ltac tests :=
  repeat match goal with
  | H : context [bool_decide _] |- _ => case_bool_decide
  | H : (_ && _) = true |- _ => apply andb_true_iff in H as [? ?]
  | H : (_ || _) = false |- _ => apply orb_false_iff in H as [? ?]
  | H : (_ =? _) = true |- _ => apply Z.eqb_eq in H
  | H : negb _ = false |- _ => apply negb_false_iff in H
  end.

Lemma primary_iff t submitted j :
  check_lease t j = Ret tt /\ check_primary t submitted j = Ret tt /\ check_delta_epoch t j = Ret tt <->
  primary_ok t submitted j.
Proof.
  unfold check_lease, check_primary, check_delta_epoch, primary_ok, lease_validate_against.
  destruct (jb_kind j) as [id frame fb|id token fb|id epoch fb].
  - split.
    + intros (H1 & H2 & _). destruct (jb_direct_primary_lease j); [done|].
      destruct (ot_content t); try done. destruct (jb_primary j); [done|].
      split_and!; [done|by eauto|]. destruct (pl_primary (ot_planes t)); try done;
        destruct (_ && _) eqn:E; try done; tests; subst; eexists _, _; (split; [done|]).
      * left. eexists. split; [done|]. by intros ->.
      * left. eexists. split; [done|]. by intros ->.
      * by right.
      * by right.
    + intros (-> & (? & ? & ? & ? & ->) & inf & out & -> & [(slot & -> & Hf)|[-> ->]]);
        rewrite !Z.eqb_refl; cbn; split_and!; try done.
      destruct submitted; [by rewrite orb_true_r|]. rewrite bool_decide_eq_true_2 by auto. done.
  - split.
    + intros (H1 & H2 & _). destruct (jb_direct_primary_lease j) as [[key surf lfb]|]; [|done].
      destruct (ot_content t) as [|frame ekey| |]; try done.
      destruct (direct_surface_id (ot_obligations t)) as [es|]; [|done].
      destruct (_ || _) eqn:E; [done|]. cbn in E. tests; try done.
      destruct (pl_primary (ot_planes t)) as [| |pk pfb| |]; try done. tests; try done. subst.
      destruct (jb_primary j); [done|]. tests; try done.
      match goal with X : (if ?b then _ else _) = Ret tt |- _ => destruct b eqn:?; [|done] end.
      tests; subst. by eexists _, _, _, _.
    + intros (frame & key & inf & out & -> & -> & -> & -> & ->). cbn.
      rewrite !bool_decide_eq_true_2 by done. by rewrite !Z.eqb_refl.
  - split.
    + intros (H1 & H2 & H3). destruct (jb_direct_primary_lease j); [done|].
      destruct (ot_content t), (jb_primary j), (pl_primary (ot_planes t)), (pl_cursor (ot_planes t));
        try done.
      destruct (_ =? epoch) eqn:E; [|done]. tests. subst. split_and!; eauto.
    + intros (-> & -> & (? & ? & ->) & -> & ? & ->). by rewrite Z.eqb_refl.
Qed.
Lemma promotion_iff j : check_promotion j = Ret tt <-> promotion_ok j.
Proof.
  unfold check_promotion, promotion_ok, is_software.
  destruct (jb_primary_cursor_presentation j) as [|state]; [naive_solver|].
  split.
  - intros H state' [= <-]. destruct (jb_kind j), (jb_primary j); try done;
      rewrite ?guard_unit in H; cbn in *; destruct (jb_cursor j); cbn in *;
      rewrite ?orb_false_iff, ?negb_false_iff, ?bool_decide_eq_true, ?bool_decide_eq_false,
        ?andb_false_iff, ?bool_decide_eq_false in H; naive_solver.
  - intros H. destruct (H state eq_refl) as (Hp & Hu & Hd & Hs).
    destruct (jb_kind j), (jb_primary j); try done; cbn in *; rewrite !guard_unit;
      destruct (jb_cursor j) as [| |c]; cbn;
      rewrite ?orb_false_iff, ?negb_false_iff, ?bool_decide_eq_true, ?andb_false_iff,
        ?bool_decide_eq_false; split_and!; try done; try tauto;
      destruct (decide (pcs_delivery state = DeliverySoftware)); naive_solver.
Qed.
Lemma delivery_iff j :
  check_delivery j = Ret tt <->
  (forall state, jb_cursor j = Set_ state -> cv_visible state = true ->
     jb_cursor_delivery j = DeliveryHardware) /\
  (jb_cursor_delivery j = DeliverySoftware -> is_composited (jb_kind j)) /\
  (is_primary (jb_kind j) = false -> jb_cursor j = Disable -> jb_cursor_delivery j <> DeliveryHardware).
Proof.
  unfold check_delivery. destruct (jb_cursor j) as [| |state].
  - destruct (jb_kind j), (jb_cursor_delivery j); cbn; naive_solver.
  - destruct (jb_kind j), (jb_cursor_delivery j); cbn; naive_solver.
  - rewrite guard_unit, andb_false_iff, negb_false_iff, bool_decide_eq_true.
    split.
    + intros [Hv Hk]. split_and!; [|by destruct (jb_kind j), (jb_cursor_delivery j)|done].
      intros ? [= <-] E. by destruct Hv as [Hv|Hv]; [rewrite E in Hv|].
    + intros (Hv & Hs & _). split; [|destruct (jb_kind j), (jb_cursor_delivery j); try done; by destruct Hs].
      destruct (cv_visible state) eqn:E; [right; by apply (Hv state)|by left].
Qed.
Lemma pin_iff j : check_pin j = Ret tt <-> jb_cursor_pin j = cursor_framebuffer j.
Proof.
  unfold check_pin, cursor_framebuffer. destruct (jb_cursor j) as [| |state].
  - destruct (jb_cursor_pin j); cbn; naive_solver.
  - destruct (jb_cursor_pin j); cbn; naive_solver.
  - destruct (cv_framebuffer_id state) as [fb|], (jb_cursor_pin j) as [pin|]; cbn; try naive_solver.
    rewrite guard_unit, negb_false_iff, Z.eqb_eq. naive_solver.
Qed.
Lemma cursor_matches_iff planned j :
  cursor_matches j planned = true <-> jb_cursor j = update_of planned /\ planned <> CursorDisabled.
Proof.
  unfold cursor_matches, update_of.
  destruct (jb_cursor j), planned as [? [?|]| |]; rewrite ?bool_decide_eq_true;
    (split; [intros E|intros [E ?]]); try discriminate E; try done; [by subst|by injection E].
Qed.
Lemma delta_update_iff j :
  is_plane_delta (jb_kind j) && match jb_cursor j with UpdateCursorUnchanged => true | _ => false end = false
  <-> (is_primary (jb_kind j) = false -> jb_cursor j <> UpdateCursorUnchanged).
Proof. unfold is_plane_delta. destruct (jb_kind j), (jb_cursor j); cbn; naive_solver. Qed.
Lemma payload_iff t submitted j : validate_against_mode t submitted j = Ret tt <-> payload_ok t submitted j.
Proof.
  unfold validate_against_mode.
  rewrite bind_unit, !guard_unit, !bind_unit, !guard_unit, !bind_unit, !negb_false_iff, !Z.eqb_eq,
    bool_decide_eq_true, contract_iff, promotion_iff, delta_update_iff, cursor_matches_iff,
    delivery_iff, pin_iff.
  split.
  - intros (Hc & Ho & Hi & Hg & Hr & H1 & H2 & Hp & Hd & [Hm1 Hm2] & (Hv & Hs & Hx) & Hpin & H3).
    split; try done; [by apply primary_iff|]. split; auto.
  - intros [Hc Ho Hi Hg Hr H1 Hp [? ? ? ? ? Hx]]. apply primary_iff in H1 as (? & ? & ?).
    split_and!; try done; intros; by apply Hx.
Qed.

(** C23: validation accepts exactly the commits that put on the planes what
    their transaction planned: the same output, generation, reservation and
    identity; for a composited frame the framebuffer the transaction assigned,
    with a render fence (which a commit that was submitted may have given
    away, and which a compatibility framebuffer must not have), for a direct
    one the client framebuffer under a lease for the very candidate and
    surface, for a cursor delta no change of the primary; on the cursor plane
    the state the owning transaction assigned, with exactly the framebuffer it
    shows pinned; and base and timing domain, and owners unless the job names
    none, as legacy jobs do, that agree with the job. *)
Theorem payload_validation_exact t j :
  (validate_against t j = Ret tt <-> payload_ok t false j) /\
  (validate_submitted_against t j = Ret tt <-> payload_ok t true j).
Proof. split; apply payload_iff. Qed.

(** ** Sidecars ride along safely *)

(** A sidecar agrees with the transaction it was built from. *)
Record sidecar_ok (s : CursorSidecar) : Prop := {
  so_assignment : cs_assignment s = pl_cursor (ot_planes (cs_transaction s));
  so_atomic : exists epoch state, cs_assignment s = CursorAtomic epoch state;
  so_deadline : ot_reservation (cs_transaction s) = Fixed (cs_deadline s);
  so_lease : cs_lease s = match update_of (cs_assignment s) with
                          | Set_ state => cv_framebuffer_id state | _ => None end;
  so_visible : forall state, update_of (cs_assignment s) = Set_ state -> cv_visible state = true ->
    cs_cursor_delivery s = DeliveryHardware;
  so_hardware : cs_cursor_delivery s <> DeliverySoftware
}.

Lemma attach_contract s j target :
  contract_ok j -> sidecar_ok s -> is_Some (ow_primary (jb_owners j)) -> is_primary (jb_kind j) = true ->
  jb_reservation j = Fixed target -> ot_output_id (cs_transaction s) = jb_output_id j ->
  claimable (jb_output_epoch j) (jb_crtc_id j) target (primary_transaction_id (jb_owners j)) s = true ->
  contract_ok (attach_sidecar s j).
Proof.
  intros [H1 H2 H3 H4 H5] Hs [p Hp] Hk Hr Ho Hc. unfold claimable in Hc. tests; try done. subst.
  split; cbn; [done..|]. right. destruct H5 as [H5|H5]; [by rewrite H5 in Hp|].
  destruct H5 as [Hop Hoc Hos Hol]. rewrite Hk in Hol. unfold owner_transactions in Hos.
  rewrite Hp in Hos. apply Forall_app in Hos as [Hos _].
  split; unfold owner_transactions; cbn; rewrite ?Hp; cbn.
  - by eexists.
  - by eexists.
  - constructor; [by inversion Hos|]. constructor; [|constructor]. split_and!; try done.
    rewrite Hr. by destruct Hs.
  - rewrite Hk. unfold primary_transaction_id in *. cbn. by rewrite Hp in *.
Qed.

(** A cursor sidecar can ride along: when the worker attaches a sidecar
    it may claim to a primary commit that was validated against its
    transaction, and that either preserves the presented cursor or promotes
    one with the delivery of the sidecar, the enlarged commit, after the
    kernel has consumed its fence, still validates against the same
    transaction; its primary half is the one that was validated, its cursor
    half is the sidecar's. *)
Theorem attached_commit_validates t j s target :
  validate_against t j = Ret tt -> sidecar_ok s ->
  is_Some (ow_primary (jb_owners j)) -> is_primary (jb_kind j) = true ->
  jb_reservation j = Fixed target -> ot_output_id (cs_transaction s) = jb_output_id j ->
  claimable (jb_output_epoch j) (jb_crtc_id j) target (primary_transaction_id (jb_owners j)) s = true ->
  (forall state, jb_primary_cursor_presentation j = Promote state ->
     pcs_delivery state = cs_cursor_delivery s) ->
  let bundle := take_in_fence (attach_sidecar s j) in
  validate_submitted_against t bundle = Ret tt /\
  bi_primary_transaction_id (identity bundle) = primary_transaction_id (jb_owners j) /\
  bi_cursor_transaction_id (identity bundle) = Some (ot_id (cs_transaction s)) /\
  jb_cursor bundle = update_of (pl_cursor (ot_planes (cs_transaction s))).
Proof.
  intros Hv Hs Hp Hk Hr Ho Hc Hd. apply payload_iff in Hv as [Hct H1 H2 H3 H4 H5 H6 H7].
  pose proof (attach_contract s j target Hct Hs Hp Hk Hr Ho Hc) as Hct'.
  assert (Hfb : exists fb inf out, jb_primary j = Framebuffer fb inf out).
  { unfold primary_ok in H5. destruct (jb_kind j); [| |done]; destruct_and?; naive_solver. }
  destruct Hfb as (fb & inf & out & Hfb).
  assert (E : take_in_fence (attach_sidecar s j)
              = set_job_primary (Framebuffer fb None out) (attach_sidecar s j))
    by (unfold take_in_fence; cbn; by rewrite Hfb).
  destruct (Hs) as [Ha (epoch & state & He) Hdl Hle Hvis Hhw].
  split; [|rewrite E; cbn; by rewrite <- Ha].
  apply payload_iff. rewrite E. split; cbn; try done.
  - destruct Hct' as [? ? ? ? [Ho'|Ho']]; [done|]. split; try done. right.
    by destruct Ho' as [Hx ? ? ?].
  - unfold primary_ok in *. cbn. destruct (jb_kind j); [| |done].
    + destruct H5 as (? & ? & inf' & out' & Ef & Hpl). rewrite Hfb in Ef. injection Ef as -> -> ->.
      split_and!; try done. eexists _, _. split; [done|].
      destruct Hpl as [(slot & ? & _)|[? ?]]; [left|by right]. by exists slot.
    + destruct H5 as (fr & key & inf' & out' & ? & ? & ? & ? & Ef). rewrite Hfb in Ef.
      injection Ef as -> -> ->. by eexists _, _, _, _.
  - intros st Hst. cbn in *. destruct (H6 st Hst) as (? & ? & ? & ?). split_and!; try done.
    + by apply Hd.
    + intros Hsw. rewrite (Hd st Hst) in Hsw. done.
  - split; cbn; unfold cursor_transaction, cursor_framebuffer; cbn; rewrite <- ?Ha; try done.
    + by rewrite He.
    + by rewrite Hk.
Qed.

(** A composited frame with its commit, and a cursor sidecar for it. *)
Definition demo_transaction (id : Z) (content : OutputTransactionContent) (planes : OutputPlanePlan)
  (obligations : OutputProtocolObligations) : OutputTransaction :=
  mkOutputTransaction id 1 3 0 (Fixed demo_target) PacingPredictiveTriple PacingPredictiveTriple ModeVsync
    DrmGraphics None content planes composited_sync obligations None None.
Definition demo_frame : OutputTransaction :=
  demo_transaction 7 (Composited 1 1 1 None)
    (mkPlanes (CompositorFramebuffer 0 42) CursorUnchanged []) (obligations_composited 5).
Definition demo_visual : AtomicCursorVisualState := mkCursor true 10 20 1 1 24 24 (Some 91) 4.
Definition demo_cursor : OutputTransaction :=
  demo_transaction 8 (PlaneDelta CURSOR 6)
    (mkPlanes PrimaryUnchanged (CursorAtomic 6 (Some demo_visual)) []) obligations_plane_delta.
Definition demo_base : KmsValidationBase := Presented (snapshot_initial cursor_hidden) 1 3 8.
Definition demo_job : KmsCommitJob :=
  mkJob 70 (mkOwners (Some (mkPrimaryOwner demo_frame None)) None) 1 7 70 3 8 (CompositedPrimary 7 1 42)
    (Fixed demo_target) (TimingFixed (mkWindow None 200 100 110 150 20 30)) demo_base 5
    (Framebuffer 42 (Some 33) true) UpdateCursorUnchanged DeliveryHidden Preserve None None None None
    (from_primary TestSkip) false.
Definition demo_sidecar : CursorSidecar :=
  mkSidecar 6 demo_cursor (from_legacy_epoch 6) (CursorAtomic 6 (Some demo_visual)) (Some 91)
    (MustBundleWith 7) 0 demo_target 8 TestSkip DeliveryHardware None None demo_base.
Lemma demo_sidecar_ok : sidecar_ok demo_sidecar.
Proof. split; try done. by eexists _, _. Qed.
Lemma attached_commit_validates_witness :
  let bundle := take_in_fence (attach_sidecar demo_sidecar demo_job) in
  validate_submitted_against demo_frame bundle = Ret tt /\
  bi_primary_transaction_id (identity bundle) = Some 7 /\
  bi_cursor_transaction_id (identity bundle) = Some 8 /\ jb_cursor bundle = Set_ demo_visual.
Proof.
  apply (attached_commit_validates demo_frame demo_job demo_sidecar demo_target); try done.
  exact demo_sidecar_ok.
Defined.

(** ** The presented planes over time *)

Inductive PlaneOp : Type :=
| PBundle (identity pageflip : PlanePageflipIdentity) (primary : option PresentedPrimary)
    (cursor : option PresentedCursorState)
| PCursor (promotion : PresentedCursorPromotion) (pageflip : PlanePageflipIdentity)
| PModeset (cursor : PresentedCursorState)
| PRecovery (cursor : PresentedCursorState).
Definition plane_step (s : PresentedPlaneSnapshot) (op : PlaneOp) : PresentedPlaneSnapshot :=
  match op with
  | PBundle identity pageflip primary cursor => fst (promote_bundle identity pageflip primary cursor s)
  | PCursor promotion pageflip => fst (promote_cursor promotion pageflip s)
  | PModeset cursor => rebase_after_synchronous_modeset cursor s
  | PRecovery cursor => rebase_after_session_recovery cursor s
  end.
(** Operations that leave the presented primary alone. *)
Definition keeps_primary (op : PlaneOp) : Prop :=
  match op with
  | PBundle identity pageflip primary _ =>
      match primary with Some p => identity <> pageflip \/ pageflip_identity p <> pageflip | None => True end
  | PCursor _ _ => True
  | PModeset _ | PRecovery _ => False
  end.

Lemma identity_next_room v : 1 <= v < u64_max -> identity_next v = v + 1.
Proof.
  intros H. unfold identity_next, u64_max in *. rewrite Z.mod_small by lia.
  destruct (Z.eqb_spec (v + 1) 0); lia.
Qed.
Lemma promote_cases identity pageflip primary cursor s :
  let s' := fst (promote_bundle identity pageflip primary cursor s) in
  s' = s \/
  identity = pageflip /\ pn_revision s' = identity_next (pn_revision s) /\
  match primary with
  | Some p => pageflip_identity p = pageflip /\ pn_primary s' = Some p
  | None => pn_primary s' = pn_primary s
  end.
Proof.
  unfold promote_bundle. destruct (_ || _) eqn:E; [by left|right].
  destruct primary as [p|]; tests; done.
Qed.
Lemma plane_step_cases s op :
  let s' := plane_step s op in
  s' = s \/
  pn_revision s' = identity_next (pn_revision s) /\
  (keeps_primary op /\ pn_primary s' = pn_primary s \/
   pn_primary s' = None \/
   exists p cursor, op = PBundle (pageflip_identity p) (pageflip_identity p) (Some p) cursor /\
                    pn_primary s' = Some p).
Proof.
  destruct op as [i f primary cursor|pr f|c|c]; cbn.
  - destruct (promote_cases i f primary cursor s) as [->|(-> & Hr & Hp)]; [by left|right].
    split; [done|]. destruct primary as [p|]; [|by left]. destruct Hp as [<- Hp]. right. right.
    by eexists _, _.
  - unfold promote_cursor. destruct (promote_cases (pp_identity pr) f None (Some (pp_cursor pr)) s)
      as [->|(_ & Hr & Hp)]; [by left|right]. split; [done|]. by left.
  - right. split; [done|]. by right; left.
  - right. split; [done|]. by right; left.
Qed.
Lemma plane_run_revision ops : forall s,
  1 <= pn_revision s -> pn_revision s + zlen ops <= u64_max ->
  let s' := foldl plane_step s ops in
  pn_revision s <= pn_revision s' <= pn_revision s + zlen ops /\
  (pn_revision s' = pn_revision s -> s' = s).
Proof.
  unfold zlen. induction ops as [|op ops IH]; intros s H1 H2; cbn -[Z.of_nat] in *; [split; [lia|done]|].
  destruct (plane_step_cases s op) as [E|[E _]].
  - rewrite E. destruct (IH s) as [? ?]; [lia..|]. split; [lia|done].
  - rewrite identity_next_room in E by lia. destruct (IH (plane_step s op)) as [? ?]; [lia..|].
    split; [lia|]. intros; lia.
Qed.
Lemma plane_run_primary ops : forall s p,
  pn_primary (foldl plane_step s ops) = Some p ->
  (pn_primary s = Some p \/
   exists before cursor after, ops = before ++
     PBundle (pageflip_identity p) (pageflip_identity p) (Some p) cursor :: after).
Proof.
  induction ops as [|op ops IH]; intros s p H; [by left|]. cbn in H.
  destruct (IH _ _ H) as [Hp|(b & c & a & ->)]; [|right; by exists (op :: b), c, a].
  destruct (plane_step_cases s op) as [E|[_ [[_ E]|[E|(q & c & -> & E)]]]].
  - left. by rewrite <- E.
  - left. by rewrite <- E.
  - by rewrite E in Hp.
  - right. rewrite E in Hp. injection Hp as ->. by exists [], c, ops.
Qed.

(** The presented planes follow the page flips. Starting from an empty
    snapshot, whatever bundles and cursors are promoted and whatever modesets
    rebase it, the presented primary is always one that some page flip
    promoted under exactly its own identity, and (below 2^64 - 1 updates) the
    revision identifies the state: if it is the same at two moments, nothing
    on the planes has changed in between, so a commit validated against a
    revision was validated against that state. *)
Theorem presented_planes_follow_pageflips cursor ops later :
  zlen (ops ++ later) < u64_max ->
  let s := foldl plane_step (snapshot_initial cursor) ops in
  let s' := foldl plane_step s later in
  (forall p, pn_primary s = Some p -> exists before c after,
     ops = before ++ PBundle (pageflip_identity p) (pageflip_identity p) (Some p) c :: after) /\
  (pn_revision s' = pn_revision s <-> s' = s) /\ pn_revision s <= pn_revision s'.
Proof.
  intros Hl s s'. unfold zlen in Hl. rewrite length_app in Hl.
  destruct (plane_run_revision ops (snapshot_initial cursor)) as [Hr _]; [done|cbn; unfold zlen; lia|].
  fold s in Hr. cbn in Hr. unfold zlen in Hr.
  destruct (plane_run_revision later s) as [Hr' He]; [lia|unfold zlen; lia|]. fold s' in Hr', He.
  split_and!; [|split; [done|by intros ->]|lia].
  intros p Hp. by destruct (plane_run_primary _ _ _ Hp) as [|H].
Qed.
Lemma presented_planes_follow_pageflips_witness :
  let flip := mkFlipIdentity 1 70 70 3 8 in
  let primary := Composed 7 70 flip 0 42 1 1 in
  let ops := [PBundle flip flip (Some primary) None] in
  let s := foldl plane_step (snapshot_initial cursor_hidden) ops in
  let s' := foldl plane_step s [PCursor (mkPromotion flip cursor_hidden) (mkFlipIdentity 1 71 71 3 8)] in
  (forall p, pn_primary s = Some p -> exists before c after,
     ops = before ++ PBundle (pageflip_identity p) (pageflip_identity p) (Some p) c :: after) /\
  (pn_revision s' = pn_revision s <-> s' = s) /\ pn_revision s <= pn_revision s'.
Proof. apply presented_planes_follow_pageflips. by vm_compute. Defined.
