(* ===== verification/KmsQueue.v ===== *)
(** * KmsQueue: admission to the submit worker

    Models src/native_output/kms_worker/queue.rs and the parts of thread.rs
    and validation.rs that run under the lock of the shared state: the
    permits that reserve the one queue slot, the queue, the cursor sidecar
    mailbox, the commit in flight, the base the next commit is validated
    against, the geometry probe, the stages of shutdown and what the worker
    does to the state when it takes, freezes, submits or returns a job. Each
    operation is the body of one critical section: a function from the state
    to the new state and the result. A [try_lock] may find the lock taken, so
    the operations that use it get this as an argument. Counters that only
    feed diagnostics are left out; a [debug_assert] is not part of the model.
    The set of reserved direct keys is a list without duplicates. *)

From stdpp Require Import base list option.
From Stdlib Require Import ZArith Lia.
From S2P Require Import Prelude Buffering Deadline RenderJournal Scheduler Pipeline.
From S2P Require Import PresentationModes OutputTransaction KmsTiming AtomicCommit KmsPayload.

(** ** The shared state *)

Definition QUEUED_JOB_CAPACITY : Z := 1.
Inductive KmsWorkerLifecycle : Type :=
  Running | Quiescing | ShutdownQuiescing | ShutdownAbandoning | Stopped | Fatal.
Inductive KmsWorkerPhase : Type :=
  PhaseIdle | DequeuedWaitingPredecessor | CollectingSidecar | FrozenForValidation | TestOnly
| SubmitIoctl | KernelInFlight.
#[export] Instance KmsWorkerLifecycle_eq_dec : EqDecision KmsWorkerLifecycle.
Proof. solve_decision. Defined.
#[export] Instance KmsWorkerPhase_eq_dec : EqDecision KmsWorkerPhase.
Proof. solve_decision. Defined.
Inductive AttachablePrimaryPhase : Type :=
  AttachQueued | AttachDequeuedWaitingPredecessor | AttachCollectingSidecar.
Record AttachablePrimary : Type := mkAttachable {
  ap_transaction_id : OutputTransactionId;
  ap_bundle_identity : KmsCommitBundleIdentity;
  ap_validation_base : KmsValidationBase;
  ap_output_generation : Z;
  ap_crtc_id : Z;
  ap_target : PresentationTarget;
  ap_phase : AttachablePrimaryPhase
}.
Inductive PendingBundleSnapshot : Type :=
| MutablePreFreeze (primary_transaction_id : OutputTransactionId)
| Frozen (identity : KmsCommitBundleIdentity)
| InFlight (identity : KmsCommitBundleIdentity).
Inductive KmsWorkerAdmissionError : Type :=
  DuplicateCandidate | QueueFull | AdmissionContention | AdmQuiescing | AdmShutdownQuiescing
| AdmStopped | AdmFatal.
Inductive KmsCommitEnqueueFailure : Type :=
| Admission (e : KmsWorkerAdmissionError)
| InvalidPayload (e : KmsCommitPayloadError).
Record KmsWorkerFatalJob : Type := mkFatalJob { fj_job : KmsCommitJob; fj_uncertain_submit : bool }.
Record WorkerInFlight : Type := mkInFlight {
  if_bundle : KmsCommitBundleIdentity;
  if_token : PageFlipToken;
  if_transaction_id : OutputTransactionId;
  if_output_generation : Z;
  if_kind : AtomicCommitKind;
  if_direct_content_key : option DirectScanoutCandidateKey;
  if_submit_returned_at_ns : Z;
  if_pacing_ticket : option WorkerPacingTicket
}.
Inductive KmsWorkerQueuedCancellation : Type :=
| Cancelled (job : KmsCommitJob)
| NotQueued (phase : KmsWorkerPhase)
| IdentityMismatch.
Record KmsWorkerShutdownSnapshot : Type := mkShutdownSnapshot {
  sd_queued_job : option KmsCommitJob;
  sd_inflight : option WorkerInFlight;
  sd_pending_sidecar : option CursorSidecar
}.
Inductive KmsWorkerForcedShutdownDisposition : Type :=
  InFlightAbandoned | CompletedAfterTimeout | AlreadyAbandoned | AlreadyStopped.
Record KmsWorkerForcedShutdown : Type := mkForced {
  fs_queued_job : option KmsCommitJob;
  fs_inflight : option WorkerInFlight;
  fs_pending_sidecar : option CursorSidecar;
  fs_disposition : KmsWorkerForcedShutdownDisposition
}.
(** A probe is its number: its arguments are handed to the executor as is. *)
Abbreviation KmsPrimaryGeometryProbe := Z.
Record WorkerState : Type := mkState {
  lifecycle : KmsWorkerLifecycle;
  queued : list KmsCommitJob;
  reserved : Z;
  reserved_direct_content_keys : list DirectScanoutCandidateKey;
  executing : bool;
  executing_direct_content_key : option DirectScanoutCandidateKey;
  executing_primary_transaction_id : option OutputTransactionId;
  executing_bundle_identity : option KmsCommitBundleIdentity;
  executing_primary : option AttachablePrimary;
  inflight : option WorkerInFlight;
  phase : KmsWorkerPhase;
  cursor_sidecar : CursorSidecarMailbox;
  established_base : option EstablishedKmsBase;
  primary_geometry_probe : option KmsPrimaryGeometryProbe;
  primary_geometry_probe_executing : bool
}.

Definition set_lifecycle (l : KmsWorkerLifecycle) (s : WorkerState) : WorkerState :=
  mkState l (queued s) (reserved s) (reserved_direct_content_keys s) (executing s)
    (executing_direct_content_key s) (executing_primary_transaction_id s)
    (executing_bundle_identity s) (executing_primary s) (inflight s) (phase s) (cursor_sidecar s)
    (established_base s) (primary_geometry_probe s) (primary_geometry_probe_executing s).
Definition set_queued (q : list KmsCommitJob) (s : WorkerState) : WorkerState :=
  mkState (lifecycle s) q (reserved s) (reserved_direct_content_keys s) (executing s)
    (executing_direct_content_key s) (executing_primary_transaction_id s)
    (executing_bundle_identity s) (executing_primary s) (inflight s) (phase s) (cursor_sidecar s)
    (established_base s) (primary_geometry_probe s) (primary_geometry_probe_executing s).
Definition set_reserved (n : Z) (keys : list DirectScanoutCandidateKey)
  (s : WorkerState) : WorkerState :=
  mkState (lifecycle s) (queued s) n keys (executing s) (executing_direct_content_key s)
    (executing_primary_transaction_id s) (executing_bundle_identity s) (executing_primary s)
    (inflight s) (phase s) (cursor_sidecar s) (established_base s) (primary_geometry_probe s)
    (primary_geometry_probe_executing s).
Definition set_executing (on : bool) (key : option DirectScanoutCandidateKey) (id : option OutputTransactionId)
  (bundle : option KmsCommitBundleIdentity) (primary : option AttachablePrimary) (p : KmsWorkerPhase)
  (s : WorkerState) : WorkerState :=
  mkState (lifecycle s) (queued s) (reserved s) (reserved_direct_content_keys s) on key id bundle
    primary (inflight s) p (cursor_sidecar s) (established_base s) (primary_geometry_probe s)
    (primary_geometry_probe_executing s).
Definition set_phase (p : KmsWorkerPhase) (s : WorkerState) : WorkerState :=
  mkState (lifecycle s) (queued s) (reserved s) (reserved_direct_content_keys s) (executing s)
    (executing_direct_content_key s) (executing_primary_transaction_id s)
    (executing_bundle_identity s) (executing_primary s) (inflight s) p (cursor_sidecar s)
    (established_base s) (primary_geometry_probe s) (primary_geometry_probe_executing s).
Definition set_executing_primary (primary : option AttachablePrimary) (s : WorkerState) : WorkerState :=
  mkState (lifecycle s) (queued s) (reserved s) (reserved_direct_content_keys s) (executing s)
    (executing_direct_content_key s) (executing_primary_transaction_id s)
    (executing_bundle_identity s) primary (inflight s) (phase s) (cursor_sidecar s)
    (established_base s) (primary_geometry_probe s) (primary_geometry_probe_executing s).
Definition set_bundle_identity (bundle : option KmsCommitBundleIdentity)
  (s : WorkerState) : WorkerState :=
  mkState (lifecycle s) (queued s) (reserved s) (reserved_direct_content_keys s) (executing s)
    (executing_direct_content_key s) (executing_primary_transaction_id s) bundle
    (executing_primary s) (inflight s) (phase s) (cursor_sidecar s) (established_base s)
    (primary_geometry_probe s) (primary_geometry_probe_executing s).
Definition set_inflight (i : option WorkerInFlight) (s : WorkerState) : WorkerState :=
  mkState (lifecycle s) (queued s) (reserved s) (reserved_direct_content_keys s) (executing s)
    (executing_direct_content_key s) (executing_primary_transaction_id s)
    (executing_bundle_identity s) (executing_primary s) i (phase s) (cursor_sidecar s)
    (established_base s) (primary_geometry_probe s) (primary_geometry_probe_executing s).
Definition set_sidecar (m : CursorSidecarMailbox) (s : WorkerState) : WorkerState :=
  mkState (lifecycle s) (queued s) (reserved s) (reserved_direct_content_keys s) (executing s)
    (executing_direct_content_key s) (executing_primary_transaction_id s)
    (executing_bundle_identity s) (executing_primary s) (inflight s) (phase s) m
    (established_base s) (primary_geometry_probe s) (primary_geometry_probe_executing s).
Definition set_base (b : option EstablishedKmsBase) (s : WorkerState) : WorkerState :=
  mkState (lifecycle s) (queued s) (reserved s) (reserved_direct_content_keys s) (executing s)
    (executing_direct_content_key s) (executing_primary_transaction_id s)
    (executing_bundle_identity s) (executing_primary s) (inflight s) (phase s) (cursor_sidecar s) b
    (primary_geometry_probe s) (primary_geometry_probe_executing s).
Definition set_probe (probe : option KmsPrimaryGeometryProbe) (on : bool)
  (s : WorkerState) : WorkerState :=
    mkState (lifecycle s) (queued s) (reserved s) (reserved_direct_content_keys s) (executing s)
    (executing_direct_content_key s) (executing_primary_transaction_id s) (executing_bundle_identity
    s) (executing_primary s) (inflight s) (phase s) (cursor_sidecar s) (established_base s) probe on.

Definition state_new : WorkerState :=
  mkState Running [] 0 [] false None None None None None PhaseIdle None None None false.
(** The error that a caller gets in a lifecycle that admits nothing. *)
Definition admission_refusal (l : KmsWorkerLifecycle) : option KmsWorkerAdmissionError :=
  match l with
  | Running => None
  | Quiescing => Some AdmQuiescing
  | ShutdownQuiescing | ShutdownAbandoning => Some AdmShutdownQuiescing
  | Stopped => Some AdmStopped
  | Fatal => Some AdmFatal
  end.
Definition is_running (s : WorkerState) : bool := bool_decide (lifecycle s = Running).
(** Quiescing in any of its three stages. *)
Definition is_quiescing (s : WorkerState) : bool :=
  match lifecycle s with Quiescing | ShutdownQuiescing | ShutdownAbandoning => true | _ => false end.

(** ** Admission *)

Definition occupied (s : WorkerState) : Z :=
  zlen (queued s) + reserved s + Z.b2z (executing s) + Z.b2z (bool_decide (is_Some (inflight s))).
Definition capacity (s : WorkerState) : Z :=
  Z.b2z (executing s || bool_decide (is_Some (inflight s))) + QUEUED_JOB_CAPACITY.
Definition try_reserve (contended : bool) (s : WorkerState)
  : WorkerState * res KmsWorkerAdmissionError unit :=
  if contended then (s, Fail AdmissionContention)
  else
    match admission_refusal (lifecycle s) with
    | Some e => (s, Fail e)
    | None =>
        if capacity s <=? occupied s then (s, Fail QueueFull)
        else (set_reserved (reserved s + 1) (reserved_direct_content_keys s) s, Ret tt)
    end.
Definition job_direct_key (j : KmsCommitJob) : option DirectScanoutCandidateKey :=
  dl_key <$> jb_direct_primary_lease j.
Definition owns_direct_key (key : DirectScanoutCandidateKey) (s : WorkerState) : bool :=
  existsb (fun j => bool_decide (job_direct_key j = Some key)) (queued s)
  || bool_decide (executing_direct_content_key s = Some key)
  || bool_decide (inflight s ≫= if_direct_content_key = Some key)
  || bool_decide (key ∈ reserved_direct_content_keys s).
Definition try_reserve_direct (contended : bool) (key : DirectScanoutCandidateKey) (s : WorkerState)
  : WorkerState * res KmsWorkerAdmissionError unit :=
  if contended then (s, Fail AdmissionContention)
  else
    match admission_refusal (lifecycle s) with
    | Some e => (s, Fail e)
    | None =>
        if owns_direct_key key s then (s, Fail DuplicateCandidate)
        else if capacity s <=? occupied s then (s, Fail QueueFull)
        else (set_reserved (reserved s + 1) (key :: reserved_direct_content_keys s) s, Ret tt)
    end.
Definition admission_available (s : WorkerState) : bool :=
  is_running s && (occupied s <? capacity s).
Definition without_key (key : option DirectScanoutCandidateKey) (keys : list DirectScanoutCandidateKey)
  : list DirectScanoutCandidateKey :=
  match key with
  | Some key => List.filter (fun k => negb (bool_decide (k = key))) keys
  | None => keys
  end.
(** A permit that goes away gives its reservation back. *)
Definition release_permit (key : option DirectScanoutCandidateKey) (s : WorkerState) : WorkerState :=
  set_reserved (sat_sub (reserved s) 1) (without_key key (reserved_direct_content_keys s)) s.
Definition enqueue (key : option DirectScanoutCandidateKey) (job : KmsCommitJob) (s : WorkerState)
  : WorkerState * res KmsCommitEnqueueFailure unit :=
  match validate_executable_contract job with
  | Fail e => (release_permit key s, Fail (InvalidPayload e))
  | Panic => (s, Panic)
  | NoFuel => (s, NoFuel)
  | Ret _ =>
      let s := release_permit key s in
      match admission_refusal (lifecycle s) with
      | Some e => (s, Fail (Admission e))
      | None =>
          if QUEUED_JOB_CAPACITY <=? zlen (queued s) then (s, Fail (Admission QueueFull))
          else
            let s := match established_base s, jb_validation_base job with
                     | None, Presented snapshot output_id generation crtc_id =>
                         set_base (Some (EstablishedPresented (pn_revision snapshot) output_id
                                           generation crtc_id)) s
                     | _, _ => s
                     end in
            (set_queued (queued s ++ [job]) s, Ret tt)
      end
  end.

(** ** Requests of the compositor *)

Fixpoint remove_first (accept : KmsCommitJob -> bool) (q : list KmsCommitJob)
  : option (KmsCommitJob * list KmsCommitJob) :=
  match q with
  | [] => None
  | j :: q => if accept j then Some (j, q)
              else match remove_first accept q with Some (x, q) => Some (x, j :: q) | None => None end
  end.
Definition cancel_queued_primary (token : PageFlipToken) (transaction_id output_generation crtc_id : Z)
  (reservation : FramePresentationReservation) (frame_id : Z) (s : WorkerState)
  : WorkerState * KmsWorkerQueuedCancellation :=
  match remove_first (fun job =>
          is_primary (jb_kind job) && (jb_token job =? token) && (jb_transaction_id job =? transaction_id)
          && (jb_output_epoch job =? output_generation) && (jb_crtc_id job =? crtc_id)
          && bool_decide (jb_reservation job = reservation)
          && bool_decide (primary_frame_id job = Some frame_id)) (queued s) with
  | Some (job, q) => (set_queued q s, Cancelled job)
  | None =>
      if existsb (fun job => is_primary (jb_kind job) && bool_decide (jb_reservation job = reservation)
                             && (jb_output_epoch job =? output_generation) && (jb_crtc_id job =? crtc_id))
           (queued s)
      then (s, IdentityMismatch)
      else (s, NotQueued (phase s))
  end.
Definition is_framebuffer (u : KmsPrimaryUpdate) : bool :=
  match u with Framebuffer _ _ _ => true | UpdatePrimaryUnchanged => false end.
Definition attachable_primary (output_generation crtc_id : Z) (target : PresentationTarget)
  (s : WorkerState) : option AttachablePrimary :=
  let from_queue :=
    match queued s with
    | job :: _ =>
        if is_primary (jb_kind job) && is_framebuffer (jb_primary job)
           && (jb_output_epoch job =? output_generation) && (jb_crtc_id job =? crtc_id)
           && bool_decide (fixed_target (jb_reservation job) = Some target)
        then (fun id => mkAttachable id (identity job) (jb_validation_base job) (jb_output_epoch job)
                          (jb_crtc_id job) target AttachQueued)
             <$> primary_transaction_id (jb_owners job)
        else None
    | [] => None
    end in
  match from_queue with
  | Some p => Some p
  | None =>
      match executing_primary s with
      | Some p => if (ap_output_generation p =? output_generation) && (ap_crtc_id p =? crtc_id)
                     && bool_decide (ap_target p = target) then Some p else None
      | None => None
      end
  end.
Definition pending_bundle_snapshot (output_generation crtc_id : Z) (s : WorkerState)
  : option PendingBundleSnapshot :=
  match inflight s with
  | Some i => if (if_output_generation i =? output_generation) && (bi_crtc_id (if_bundle i) =? crtc_id)
              then Some (InFlight (if_bundle i)) else None
  | None =>
      if executing s
      then
        match executing_bundle_identity s with
        | None => None
        | Some i =>
            if negb (bi_output_generation i =? output_generation) || negb (bi_crtc_id i =? crtc_id)
            then None
            else match executing_primary s with
                 | None => Some (Frozen i)
                 | Some p => Some (MutablePreFreeze (ap_transaction_id p))
                 end
        end
      else
        match queued s with
        | [] => None
        | job :: _ =>
            if negb (jb_output_epoch job =? output_generation) || negb (jb_crtc_id job =? crtc_id)
            then None
            else if is_primary (jb_kind job) && is_framebuffer (jb_primary job)
            then match primary_transaction_id (jb_owners job) with
                 | Some id => Some (MutablePreFreeze id)
                 | None => Some (Frozen (identity job))
                 end
            else Some (Frozen (identity job))
        end
  end.
Definition set_established_presented_base_for_output (output_id revision output_generation crtc_id : Z)
  (s : WorkerState) : WorkerState :=
  match queued s with
  | [] => set_base (Some (EstablishedPresented revision output_id output_generation crtc_id)) s
  | _ => s
  end.
Definition validation_base_disposition (required : KmsValidationBase) (s : WorkerState)
  : ValidationBaseDisposition :=
  match established_base s with
  | Some established => validation_base_ready established required
  | None =>
      match required with
      | Presented _ _ _ _ => BaseReady
      | Predecessor required =>
          if bool_decide (if_bundle <$> inflight s = Some required)
             || bool_decide (is_Some (executing_primary s))
             || match queued s with
                | job :: _ => is_primary (jb_kind job) && is_framebuffer (jb_primary job)
                | [] => false
                end
          then BaseWait else BaseInvalidated
      end
  end.
Definition offer_cursor_sidecar (contended : bool) (sidecar : CursorSidecar) (s : WorkerState)
  : WorkerState * res KmsWorkerAdmissionError (option CursorSidecar) :=
  if contended then (s, Fail AdmissionContention)
  else
    match admission_refusal (lifecycle s) with
    | Some e => (s, Fail e)
    | None => let (m, replaced) := offer sidecar (cursor_sidecar s) in (set_sidecar m s, Ret replaced)
    end.
Definition direct_content_keys (s : WorkerState)
  : option DirectScanoutCandidateKey * option DirectScanoutCandidateKey * option DirectScanoutCandidateKey :=
  (head (omap job_direct_key (queued s)), executing_direct_content_key s,
   inflight s ≫= if_direct_content_key).
Definition take_due_independent_cursor_sidecar (output_generation crtc_id : Z)
  (target : PresentationTarget) (s : WorkerState) : WorkerState * option CursorSidecar :=
  let (m, r) := take_independent_due output_generation crtc_id target (cursor_sidecar s) in
  (set_sidecar m s, r).
Definition take_pending_cursor_sidecar (s : WorkerState) : WorkerState * option CursorSidecar :=
  let (m, r) := take (cursor_sidecar s) in (set_sidecar m s, r).
Definition queue_primary_geometry_test_if_idle (contended : bool) (probe : KmsPrimaryGeometryProbe)
  (s : WorkerState) : WorkerState * bool :=
  if contended then (s, false)
  else if negb (is_running s) || negb (bool_decide (queued s = [])) || negb (reserved s =? 0)
          || executing s || bool_decide (is_Some (inflight s)) || negb (bool_decide (phase s = PhaseIdle))
          || bool_decide (is_Some (cursor_sidecar s)) || bool_decide (is_Some (primary_geometry_probe s))
          || primary_geometry_probe_executing s
  then (s, false)
  else (set_probe (Some probe) (primary_geometry_probe_executing s) s, true).

(** ** Shutdown *)

Definition request_quiesce (s : WorkerState) : WorkerState :=
  if is_running s then set_lifecycle Quiescing s else s.
Definition begin_shutdown_quiesce (s : WorkerState)
  : WorkerState * res KmsWorkerAdmissionError KmsWorkerShutdownSnapshot :=
  match lifecycle s with
  | Fatal => (s, Fail AdmFatal)
  | Stopped => (s, Fail AdmStopped)
  | l =>
      let s := match l with
               | Running | Quiescing => set_lifecycle ShutdownQuiescing s | _ => s end in
      (set_sidecar None (set_queued (tail (queued s)) s),
       Ret (mkShutdownSnapshot (head (queued s)) (inflight s) (cursor_sidecar s)))
  end.
Definition force_shutdown_abandon (s : WorkerState)
  : WorkerState * res KmsWorkerAdmissionError KmsWorkerForcedShutdown :=
  let abandon disposition :=
    (set_inflight None (set_sidecar None (set_queued (tail (queued s))
       (set_lifecycle ShutdownAbandoning s))),
     Ret (mkForced (head (queued s)) (inflight s) (cursor_sidecar s) disposition)) in
  match lifecycle s with
  | Fatal => (s, Fail AdmFatal)
  | Stopped => (set_sidecar None s, Ret (mkForced None None (cursor_sidecar s) AlreadyStopped))
  | ShutdownQuiescing =>
      abandon (if bool_decide (is_Some (inflight s)) then InFlightAbandoned else CompletedAfterTimeout)
  | ShutdownAbandoning => abandon AlreadyAbandoned
  | Running | Quiescing => (s, Fail AdmQuiescing)
  end.
