(* ===== verification/KmsWorker.v ===== *)
(** * KmsWorker: the submit worker and its interleavings

    Models src/native_output/kms_worker/thread.rs and validation.rs: the loop
    of the thread that submits atomic commits, and the compositor thread that
    admits jobs to it, acknowledges page flips and shuts it down. A thread is
    a program counter; a step of a thread is one critical section or one
    interaction with the outside (an ioctl, a notification, the clock), whose
    outcome is an input of the step. The submit gate is held exactly while the
    counter is at a test, a probe or a submission; operations that take the
    gate wait for it. Notifications of condition variables are not modelled: a
    waiting step may be taken at any time and then waits again, which covers
    spurious wake-ups. Logging and the counters of metrics.rs are left out. *)

From stdpp Require Import base list option.
From Stdlib Require Import ZArith Lia.
From S2P Require Import Prelude Buffering Deadline RenderJournal Scheduler Pipeline.
From S2P Require Import PresentationModes OutputTransaction KmsTiming AtomicCommit KmsPayload KmsQueue.

(** ** Events *)

Definition PAGEFLIP_TIMEOUT_NS : Z := 1000000000.
Inductive AtomicKmsErrorKind : Type :=
  InvalidPolicy | Unsupported | MissingObject | MissingProperty | DuplicateProperty
| MalformedPropertyBlob | NoCompatiblePrimaryPlane | InvalidGeometry | DuplicateAssignment
| AlreadyPending | BlobCreation | TestOnlyRejected | InitialCommitRejected | FlipRejected | Busy
| PermissionOrSession | DeviceLost | RestoreFailed | IoError.
#[export] Instance AtomicKmsErrorKind_eq_dec : EqDecision AtomicKmsErrorKind.
Proof. solve_decision. Defined.
(** What an executor call comes back with: a value, an error, or a panic. *)
Inductive outcome (A : Type) : Type := Done (a : A) | Refused (e : AtomicKmsErrorKind) | Panicked.
Arguments Done {A} _.
Arguments Refused {A} _.
Arguments Panicked {A}.
Inductive KmsWorkerFatalReason : Type := FatalPanic | EventNotification.
Inductive ValidationBaseInvalidationReason : Type :=
  PredecessorTerminal | PresentedRevisionChanged | GenerationChanged | BundleMismatchReason.
Record KmsSubmittedOwnership : Type := mkOwnership {
  so_job : KmsCommitJob;
  so_out_fence : option Z;
  so_planned_worker_wake_at : Z;
  so_actual_worker_wait_returned_at : Z;
  so_submit_started_at : Z;
  so_submit_returned_at : Z;
  so_queue_residency_ns : Z;
  so_submit_wake_lateness_ns : option Z;
  so_pre_submit_duration_ns : Z;
  so_ioctl_duration_ns : Z;
  so_dispatch_duration_ns : Z;
  so_submission_budget_ns : option Z;
  so_dispatch_tail_observation : option KmsWorkerDispatchTailObservation
}.
Inductive KmsWorkerEvent : Type :=
| Submitted (ownership : KmsSubmittedOwnership)
| TestRejected (job : KmsCommitJob) (error : AtomicKmsErrorKind)
| SubmitRejected (job : KmsCommitJob) (error : AtomicKmsErrorKind)
| BusyDeferred (bundle : KmsCommitBundleIdentity) (transaction_id : OutputTransactionId)
    (token : PageFlipToken) (retry retry_not_before_ns : Z)
| BusyExhausted (job : KmsCommitJob) (error : AtomicKmsErrorKind)
| PageflipTimeout (bundle : KmsCommitBundleIdentity) (transaction_id : OutputTransactionId)
    (token : PageFlipToken) (detected_at : Z)
| Quiesced (returned_jobs : list KmsCommitJob) (returned_sidecar : option CursorSidecar)
| CursorSidecarReturned (sidecar : CursorSidecar) (reason : CursorSidecarReturnReason)
| ValidationBaseInvalidated (job : KmsCommitJob) (expected : KmsValidationBase)
    (established : option EstablishedKmsBase) (reason : ValidationBaseInvalidationReason)
| FatalEvent (reason : KmsWorkerFatalReason) (uncertain_submit : bool).
Inductive KmsWorkerAckError : Type :=
  NoInFlightCommit | AckOutputMismatch | TokenMismatch | TransactionMismatch | AckGenerationMismatch
| AckBundleMismatch | AckCrtcMismatch.

(** ** The worker's critical sections *)

Definition set_worker_phase (p : KmsWorkerPhase) (s : WorkerState) : WorkerState :=
  let s := set_phase p s in
  match executing_primary s with
  | None => s
  | Some a =>
      let at_phase q := mkAttachable (ap_transaction_id a) (ap_bundle_identity a) (ap_validation_base a)
                          (ap_output_generation a) (ap_crtc_id a) (ap_target a) q in
      match p with
      | DequeuedWaitingPredecessor =>
          set_executing_primary (Some (at_phase AttachDequeuedWaitingPredecessor)) s
      | CollectingSidecar => set_executing_primary (Some (at_phase AttachCollectingSidecar)) s
      | _ => set_executing_primary None s
      end
  end.
(** Returns the frozen job and the sidecar to give back; [None] when the
    worker is no longer running. *)
Definition claim_sidecar (job : KmsCommitJob) (m : CursorSidecarMailbox)
  : CursorSidecarMailbox * option CursorSidecar :=
  let primary_id := primary_transaction_id (jb_owners job) in
  let eligible_job :=
    is_framebuffer (jb_primary job)
    && (bool_decide (is_Some primary_id)
        || match jb_cursor job with UpdateCursorUnchanged => true | _ => false end) in
  match eligible_job, jb_reservation job with
  | true, Fixed target => claim_for (jb_output_epoch job) (jb_crtc_id job) target primary_id m
  | _, _ => (m, None)
  end.
Definition sidecar_fits (job : KmsCommitJob) (s : CursorSidecar) : bool :=
  bool_decide (cs_validation_base s = jb_validation_base job)
  && match ow_cursor (jb_owners job) with
     | Some owner => strictly_newer_than (cs_revision s) (uo_revision owner)
     | None => true
     end.
Definition collect_cursor_sidecar_before_freeze (job : KmsCommitJob) (s : WorkerState)
  : option (WorkerState * KmsCommitJob * option CursorSidecar) :=
  if negb (is_running s) then None
  else
    let freeze s := set_executing_primary None (set_phase FrozenForValidation s) in
    let (m, claimed) := claim_sidecar job (cursor_sidecar s) in
    let s := set_sidecar m s in
    match claimed with
    | Some sidecar =>
        if sidecar_fits job sidecar
        then let job := attach_sidecar sidecar job in
             Some (freeze (set_bundle_identity (Some (identity job)) s), job, None)
        else Some (freeze s, job, Some sidecar)
    | None =>
        match primary_transaction_id (jb_owners job) with
        | Some id => let (m, returned) := take_must_bundle_with id (cursor_sidecar s) in
                     Some (freeze (set_sidecar m s), job, returned)
        | None => Some (freeze s, job, None)
        end
    end.
Definition transfer_to_inflight (candidate : option DirectScanoutCandidateKey) (job : KmsCommitJob)
  (submit_returned_at_ns : Z) (s : WorkerState) : WorkerState :=
  let i := mkInFlight (identity job) (jb_token job) (jb_transaction_id job) (jb_output_epoch job)
             (jb_kind job) candidate submit_returned_at_ns (jb_pacing_ticket job) in
  set_executing false None None None None KernelInFlight
    (set_base (Some (Pending (identity job))) (set_inflight (Some i) s)).
(** The drop of [ExecutingDirectCandidateGuard]. *)
Definition drop_guard (candidate : option DirectScanoutCandidateKey) (transferred : bool)
  (s : WorkerState) : WorkerState :=
  set_executing false
    (if negb transferred && bool_decide (executing_direct_content_key s = candidate)
     then None else executing_direct_content_key s)
    None None None (if bool_decide (inflight s = None) then PhaseIdle else phase s) s.
Definition dequeue (job : KmsCommitJob) (s : WorkerState) : WorkerState :=
  let attachable :=
    if is_primary (jb_kind job) && is_framebuffer (jb_primary job)
    then match jb_reservation job with
         | Fixed target =>
             (fun id => mkAttachable id (identity job) (jb_validation_base job) (jb_output_epoch job)
                          (jb_crtc_id job) target AttachDequeuedWaitingPredecessor)
             <$> primary_transaction_id (jb_owners job)
         | Variable_ _ | DeferredO1 _ => None
         end
    else None in
  set_executing true (job_direct_key job) (primary_transaction_id (jb_owners job))
    (Some (identity job)) attachable DequeuedWaitingPredecessor (set_queued (tail (queued s)) s).
Definition depends_on (predecessor : KmsCommitBundleIdentity) (job : KmsCommitJob) : bool :=
  match jb_validation_base job with
  | Predecessor required => bool_decide (required = predecessor)
  | Presented _ _ _ _ => false
  end.
Definition take_dependents (predecessor : KmsCommitBundleIdentity) (s : WorkerState)
  : WorkerState * list KmsCommitJob :=
  (set_queued (List.filter (fun j => negb (depends_on predecessor j)) (queued s)) s,
   List.filter (depends_on predecessor) (queued s)).
Definition invalidation (established : option EstablishedKmsBase)
  (reason : ValidationBaseInvalidationReason) (job : KmsCommitJob) : KmsWorkerEvent :=
  ValidationBaseInvalidated job (jb_validation_base job) established reason.
(** The acknowledgement of a page flip: the error with the bundle whose
    dependents go, or the sidecar to return. *)
Inductive AckResult : Type :=
| AckDone (sidecar : option CursorSidecar)
| AckSuppressed
| AckError (e : KmsWorkerAckError)
| AckInvalidates (predecessor : KmsCommitBundleIdentity) (reason : ValidationBaseInvalidationReason)
    (e : KmsWorkerAckError).
Definition ack_pageflip_identity (i : KmsCommitBundleIdentity) (transaction_id : OutputTransactionId)
  (s : WorkerState) : WorkerState * AckResult :=
  match inflight s with
  | None =>
      match lifecycle s with
      | ShutdownQuiescing | ShutdownAbandoning | Stopped => (s, AckSuppressed)
      | _ => (s, AckError NoInFlightCommit)
      end
  | Some f =>
      let b := if_bundle f in
      if negb (bi_output_id b =? bi_output_id i) then (s, AckError AckOutputMismatch)
      else if negb (if_token f =? bi_token i) then (s, AckError TokenMismatch)
      else if negb (if_transaction_id f =? transaction_id) then (s, AckError TransactionMismatch)
      else if negb (if_output_generation f =? bi_output_generation i)
      then (s, AckInvalidates b GenerationChanged AckGenerationMismatch)
      else if negb (bi_id b =? bi_id i)
              || negb (bool_decide (bi_primary_transaction_id b = bi_primary_transaction_id i))
              || negb (bool_decide (bi_cursor_transaction_id b = bi_cursor_transaction_id i))
      then (s, AckInvalidates b BundleMismatchReason AckBundleMismatch)
      else if negb (bi_crtc_id b =? bi_crtc_id i)
      then (s, AckInvalidates b BundleMismatchReason AckCrtcMismatch)
      else
        let (m, returned) := take_must_bundle_with (if_transaction_id f) (cursor_sidecar s) in
        (set_executing_primary None (set_phase PhaseIdle (set_inflight None
           (set_base (Some (Bundle b)) (set_sidecar m s)))), AckDone returned)
  end.

(** ** Timing of an execution *)

(** The local variables of an iteration of the loop. *)
Record Exec : Type := mkExec {
  ex_job : KmsCommitJob;
  ex_candidate : option DirectScanoutCandidateKey;
  ex_dequeued_at : Z;
  ex_planned_wake : Z;
  ex_wake : Z;
  ex_armed : bool;
  ex_wait_returned : Z;
  ex_pre_completed : Z;
  ex_retries : Z
}.
Definition set_exec_job (j : KmsCommitJob) (x : Exec) : Exec :=
  mkExec j (ex_candidate x) (ex_dequeued_at x) (ex_planned_wake x) (ex_wake x) (ex_armed x)
    (ex_wait_returned x) (ex_pre_completed x) (ex_retries x).
Definition set_exec_waited (now : Z) (x : Exec) : Exec :=
  mkExec (ex_job x) (ex_candidate x) (ex_dequeued_at x) (ex_planned_wake x) (ex_wake x) (ex_armed x)
    now (ex_pre_completed x) (ex_retries x).
Definition set_exec_completed (now retries : Z) (x : Exec) : Exec :=
  mkExec (ex_job x) (ex_candidate x) (ex_dequeued_at x) (ex_planned_wake x) (ex_wake x) (ex_armed x)
    (ex_wait_returned x) now retries.

Definition rebind_models (job : KmsCommitJob) (now : Z) (ms : KmsDispatchModels) : KmsDispatchModels :=
  let class := from_kind (jb_kind job) in
  let ms :=
    if bool_decide (class = CursorPlaneDelta)
    then
      let ms := rebind_cursor_timing_domain (jb_output_epoch job)
                  (fixed_submit_window (jb_presentation_timing job) ≫= sw_mode_key) ms in
      match jb_reservation job with
      | Fixed target =>
          model_mut class (set_cursor_recovery_window (Z.min (pt_refresh_interval target) u64_max)) ms
      | _ => ms
      end
    else ms in
  model_mut class (age_tail_guard now) ms.
Definition begin_execution (late_latch : bool) (now : Z) (x : Exec) : Exec :=
  let job := ex_job x in
  let timing := jb_presentation_timing job in
  let wake := held_wake_at_with timing (from_kind (jb_kind job)) late_latch in
  let armed := match timing with
               | TimingFixed _ =>
                   match reservation_reason (jb_reservation job) with
                   | Some reason => worker_wait_is_armed reason wake now
                   | None => false
                   end
               | TimingVariable _ => negb (is_eligible_at now timing)
               end in
  mkExec job (ex_candidate x) (ex_dequeued_at x) (worker_wake_at_ns timing) wake armed now
    (ex_pre_completed x) (ex_retries x).
Definition binding_target (job : KmsCommitJob) : bool :=
  match from_kind (jb_kind job), jb_reservation job with
  | CursorPlaneDelta, Fixed _ =>
      match fixed_submit_window (jb_presentation_timing job) with
      | Some window => jb_queued_at job <=? sw_commit_complete_deadline_ns window
      | None => false
      end
  | _, Fixed target => is_binding target
  | _, _ => false
  end.
(** Trains the dispatch model with a submission and describes it; [None] is
    the panic of reading a budget from an oversized history. *)
Definition observe_submission (x : Exec) (out_fence : option Z) (started returned : Z)
  (ms : KmsDispatchModels) : option (KmsDispatchModels * KmsSubmittedOwnership) :=
  let job := take_in_fence (ex_job x) in
  let class := from_kind (jb_kind job) in
  let ioctl := sat_sub returned started in
  let queue_wait := sat_sub started (jb_queued_at job) in
  let lateness := match jb_presentation_timing job with
                  | TimingFixed _ => if ex_armed x then Some (sat_sub (ex_wait_returned x) (ex_wake x))
                                     else None
                  | TimingVariable _ => None
                  end in
  let pre_submit := sat_sub (ex_pre_completed x) (ex_wait_returned x) in
  let dispatch := sat_sub returned (ex_wait_returned x) in
  let m := model class ms in
  let m := match lateness with Some l => record_fixed_timed_wake l m | None => m end in
  let m := record_worker_service pre_submit ioctl dispatch m in
  let (m, tail) :=
    match fixed_submit_window (jb_presentation_timing job) with
    | Some window =>
        let (m, o) := observe_submission_deadline (sw_commit_complete_deadline_ns window) returned
                        (binding_target job) (ex_dequeued_at x <=? ex_planned_wake x) m in
        (m, Some o)
    | None => (m, None)
    end in
  match budget m with
  | None => None
  | Some b =>
      Some (model_mut class (fun _ => m) ms,
            mkOwnership job out_fence (ex_planned_wake x) (ex_wait_returned x) started returned queue_wait
              lateness pre_submit ioctl dispatch
              (match jb_presentation_timing job with
               | TimingFixed _ => Some (db_dispatch_budget_ns b) | TimingVariable _ => None end)
              tail)
  end.

(** ** Threads *)

Inductive Rejection : Type := RejectedByTest | RejectedBySubmit | RejectedAsBusy.
Definition rejection_event (k : Rejection) (job : KmsCommitJob) (e : AtomicKmsErrorKind) : KmsWorkerEvent :=
  match k with
  | RejectedByTest => TestRejected job e
  | RejectedBySubmit => SubmitRejected job e
  | RejectedAsBusy => BusyExhausted job e
  end.
(** Where a thread is. A counter that publishes, quiesces or gives up
    carries where it goes on. *)
Inductive Pc : Type :=
| PExit
| PTop
| PProbe (probe : KmsPrimaryGeometryProbe)
| PProbing (probe : KmsPrimaryGeometryProbe)
| PProbeDone (probe : KmsPrimaryGeometryProbe) (result : outcome unit)
| PDequeued (x : Exec)
| PSleep (x : Exec)
| PCollect (x : Exec)
| PCollecting (x : Exec)
| PFrozen (x : Exec)
| PTestGate (x : Exec)
| PTesting (x : Exec) (started : Z)
| PPreSubmit (x : Exec)
| PSubmitPhase (x : Exec)
| PSubmitGate (x : Exec)
| PSubmitting (x : Exec) (started : Z)
| PSubmitted (x : Exec) (out_fence : option Z) (started returned : Z)
| PFlipWait (candidate : option DirectScanoutCandidateKey) (id : OutputTransactionId)
    (token : PageFlipToken) (reported : bool)
| PBusy (x : Exec)
| PBusyWait (x : Exec) (deadline : Z)
| PReject (x : Exec) (k : Rejection) (e : AtomicKmsErrorKind)
| PRejectPublish (x : Exec) (k : Rejection) (e : AtomicKmsErrorKind)
| PInvalidate (predecessor : KmsCommitBundleIdentity) (reason : ValidationBaseInvalidationReason)
    (next : Pc)
| PPublishAll (events : list KmsWorkerEvent) (next : Pc)
| PPublish (event : KmsWorkerEvent) (ok failed : Pc)
| PMarkFatal (reason : KmsWorkerFatalReason) (uncertain_submit : bool) (next : Pc)
| PFatalJobs (jobs : list KmsCommitJob) (reason : KmsWorkerFatalReason) (uncertain_submit : bool) (next : Pc)
| PFatalEvent (reason : KmsWorkerFatalReason) (uncertain_submit : bool) (next : Pc)
| PRetain (job : KmsCommitJob) (uncertain_submit : bool) (next : Pc)
| PQuiesce (jobs : list KmsCommitJob) (next : Pc)
| PRelease (candidate : option DirectScanoutCandidateKey) (transferred : bool) (next : Pc).

(** What the outside decides in a step. *)
Record Input : Type := mkInput {
  in_now : Z;
  in_notified : bool;
  in_late_latch : bool;
  in_timed_out : bool;
  in_test : outcome unit;
  in_submit : outcome (option Z)
}.
Record Shared : Type := mkShared {
  st : WorkerState;
  results : list KmsWorkerEvent;
  fatal_jobs : list KmsWorkerFatalJob;
  fatal_reason : option KmsWorkerFatalReason;
  probe_replies : list (KmsPrimaryGeometryProbe * outcome unit);
  models : KmsDispatchModels
}.
Definition with_st (f : WorkerState -> WorkerState) (h : Shared) : Shared :=
  mkShared (f (st h)) (results h) (fatal_jobs h) (fatal_reason h) (probe_replies h) (models h).
Definition push_result (e : KmsWorkerEvent) (h : Shared) : Shared :=
  mkShared (st h) (results h ++ [e]) (fatal_jobs h) (fatal_reason h) (probe_replies h) (models h).
Definition push_fatal (jobs : list KmsWorkerFatalJob) (h : Shared) : Shared :=
  mkShared (st h) (results h) (fatal_jobs h ++ jobs) (fatal_reason h) (probe_replies h) (models h).
Definition set_fatal_reason (r : KmsWorkerFatalReason) (h : Shared) : Shared :=
  mkShared (st h) (results h) (fatal_jobs h) (Some r) (probe_replies h) (models h).
Definition reply (probe : KmsPrimaryGeometryProbe) (r : outcome unit) (h : Shared) : Shared :=
  mkShared (st h) (results h) (fatal_jobs h) (fatal_reason h) (probe_replies h ++ [(probe, r)]) (models h).
Definition with_models (m : KmsDispatchModels) (h : Shared) : Shared :=
  mkShared (st h) (results h) (fatal_jobs h) (fatal_reason h) (probe_replies h) m.

(** What the kernel and the shutdown see of the system, in order. *)
Inductive KernelEvent : Type :=
| KStart (token : PageFlipToken)
| KSubmitted (token : PageFlipToken)
| KFailed (token : PageFlipToken)
| KAck (token : PageFlipToken)
| KAbandon (token : option PageFlipToken)
| KStop.

(** ** Steps of a thread *)

Definition quiesced_state (s : WorkerState) : WorkerState :=
  set_lifecycle Stopped (set_sidecar None (set_queued [] s)).
Definition quiesced_event (jobs : list KmsCommitJob) (s : WorkerState) : KmsWorkerEvent :=
  Quiesced (jobs ++ queued s) (cursor_sidecar s).
Definition invalid_reason (b : KmsValidationBase) : ValidationBaseInvalidationReason :=
  match b with Presented _ _ _ _ => PresentedRevisionChanged | Predecessor _ => PredecessorTerminal end.
Definition probe_idle (s : WorkerState) : bool :=
  bool_decide (queued s = []) && (reserved s =? 0) && negb (executing s)
  && bool_decide (inflight s = None) && bool_decide (phase s = PhaseIdle)
  && bool_decide (cursor_sidecar s = None).
(** One round of [take_next_work]. *)
Definition take_next_work (now : Z) (h : Shared) : Shared * Pc :=
  let s := st h in
  if bool_decide (lifecycle s = Fatal) || bool_decide (lifecycle s = Stopped) then (h, PExit)
  else if is_quiescing s
  then (with_st (fun s => set_probe None (primary_geometry_probe_executing s) (quiesced_state s)) h,
        PPublish (quiesced_event [] s) PExit PExit)
  else
    match primary_geometry_probe s with
    | Some probe =>
        if probe_idle s
        then (with_st (fun s => set_phase TestOnly (set_probe None true s)) h, PProbe probe)
        else (reply probe (Refused Busy)
                (with_st (fun s => set_probe None (primary_geometry_probe_executing s) s) h), PTop)
    | None =>
        match inflight s, queued s with
        | None, job :: rest =>
            match validation_base_disposition (jb_validation_base job) s with
            | BaseWait => (h, PTop)
            | BaseInvalidated =>
                (with_st (set_queued rest) h,
                 PPublish (invalidation (established_base s) (invalid_reason (jb_validation_base job)) job)
                   PTop PExit)
            | BaseReady =>
                (with_st (dequeue job) h, PDequeued (mkExec job (job_direct_key job) now 0 0 false 0 0 0))
            end
        | _, _ => (h, PTop)
        end
    end.
(** One round of [wait_for_pageflip_or_quiesce]. *)
Definition flip_wait_round (i : Input) (candidate : option DirectScanoutCandidateKey)
  (id : OutputTransactionId) (token : PageFlipToken) (reported : bool) (h : Shared) : Shared * Pc :=
  let s := st h in
  let stay := PFlipWait candidate id token reported in
  let time_out :=
    match inflight s with
    | Some f =>
        if if_token f =? token
        then PPublish (PageflipTimeout (if_bundle f) id token (in_now i))
               (PFlipWait candidate id token true) (PRelease candidate true PExit)
        else stay
    | None => stay
    end in
  if in_timed_out i && negb reported then (h, time_out)
  else if bool_decide (lifecycle s = Quiescing)
          || ((bool_decide (lifecycle s = ShutdownQuiescing)
               || bool_decide (lifecycle s = ShutdownAbandoning)) && bool_decide (inflight s = None))
  then (with_st quiesced_state h,
        PPublish (quiesced_event [] s) (PRelease candidate true PExit) (PRelease candidate true PExit))
  else
    match inflight s with
    | None => (h, PRelease candidate true PTop)
    | Some f =>
        if negb reported && (if_token f =? token)
           && (sat_add u64_max (if_submit_returned_at_ns f) PAGEFLIP_TIMEOUT_NS <=? in_now i)
        then (h, time_out) else (h, stay)
    end.
Definition is_submitted (e : KmsWorkerEvent) : bool :=
  match e with Submitted _ => true | _ => false end.
(** The end of an iteration that returns its job. *)
Definition give_back (x : Exec) : Pc := PQuiesce [ex_job x] (PRelease (ex_candidate x) false PExit).
Definition release_then_give_back (x : Exec) : Pc :=
  PRelease (ex_candidate x) false (PQuiesce [ex_job x] PExit).
Definition fail_release (x : Exec) : Pc := PRelease (ex_candidate x) false PExit.

Definition thread_step (i : Input) (pc : Pc) (h : Shared) : Shared * Pc * list KernelEvent :=
  let quiet (r : Shared * Pc) := (fst r, snd r, []) in
  match pc with
  | PExit => quiet (h, PExit)
  | PTop => quiet (take_next_work (in_now i) h)
  | PProbe probe =>
      if is_running (st h) && primary_geometry_probe_executing (st h) && negb (executing (st h))
         && bool_decide (inflight (st h) = None)
      then quiet (h, PProbing probe) else quiet (h, PProbeDone probe (Refused Busy))
  | PProbing probe =>
      match in_test i with
      | Panicked => quiet (h, PMarkFatal FatalPanic true PExit)
      | r => quiet (h, PProbeDone probe r)
      end
  | PProbeDone probe r =>
      quiet (reply probe r (with_st (fun s =>
        let s := set_probe (primary_geometry_probe s) false s in
        if bool_decide (phase s = TestOnly) && negb (executing s) then set_phase PhaseIdle s else s) h),
        PTop)
  | PDequeued x =>
      let x := begin_execution (in_late_latch i) (in_now i) x in
      quiet (with_models (rebind_models (ex_job x) (in_now i) (models h)) h,
             if ex_armed x then PSleep x else PCollect x)
  | PSleep x =>
      if is_quiescing (st h) then quiet (h, release_then_give_back x)
      else if ex_wake x <=? in_now i then quiet (h, PCollect (set_exec_waited (in_now i) x))
      else quiet (h, pc)
  | PCollect x => quiet (with_st (set_worker_phase CollectingSidecar) h, PCollecting x)
  | PCollecting x =>
      match collect_cursor_sidecar_before_freeze (ex_job x) (st h) with
      | None => quiet (h, release_then_give_back x)
      | Some (s, job, returned) =>
          let x := set_exec_job job x in
          quiet (with_st (fun _ => s) h,
                 match returned with
                 | Some sidecar => PPublish (CursorSidecarReturned sidecar RequiredPrimaryPassedFreeze)
                                     (PFrozen x) (release_then_give_back x)
                 | None => PFrozen x
                 end)
      end
  | PFrozen x =>
      match effective (jb_test_policy (ex_job x)) with
      | TestRequired => quiet (with_st (set_worker_phase TestOnly) h, PTestGate x)
      | TestSkip => quiet (h, PPreSubmit x)
      end
  | PTestGate x =>
      if is_running (st h) then quiet (h, PTesting x (in_now i)) else quiet (h, give_back x)
  | PTesting x started =>
      let x := set_exec_job (set_test_duration (Some (sat_sub (in_now i) started)) (ex_job x)) x in
      match in_test i with
      | Done _ => quiet (h, PPreSubmit x)
      | Refused e => quiet (h, PReject x RejectedByTest e)
      | Panicked => quiet (h, PRetain (ex_job x) false (PMarkFatal FatalPanic false (fail_release x)))
      end
  | PPreSubmit x => quiet (h, PSubmitPhase (set_exec_completed (in_now i) 0 x))
  | PSubmitPhase x => quiet (with_st (set_worker_phase SubmitIoctl) h, PSubmitGate x)
  | PSubmitGate x =>
      if is_running (st h) then (h, PSubmitting x (in_now i), [KStart (jb_token (ex_job x))])
      else quiet (h, give_back x)
  | PSubmitting x started =>
      let token := jb_token (ex_job x) in
      match in_submit i with
      | Done fence =>
          (with_st (transfer_to_inflight (ex_candidate x) (ex_job x) (in_now i)) h,
           PSubmitted x fence started (in_now i), [KSubmitted token])
      | Refused e =>
          (h, if bool_decide (e = Busy) then PBusy x else PReject x RejectedBySubmit e, [KFailed token])
      | Panicked =>
          (h, PRetain (ex_job x) true (PMarkFatal FatalPanic true (fail_release x)), [KFailed token])
      end
  | PSubmitted x fence started returned =>
      match observe_submission x fence started returned (models h) with
      | None => quiet (h, PRelease (ex_candidate x) true (PMarkFatal FatalPanic true PExit))
      | Some (ms, ownership) =>
          quiet (with_models ms h,
                 PPublish (Submitted ownership)
                   (PFlipWait (ex_candidate x) (jb_transaction_id (ex_job x)) (jb_token (ex_job x)) false)
                   (PRelease (ex_candidate x) true PExit))
      end
  | PFlipWait candidate id token reported => quiet (flip_wait_round i candidate id token reported h)
  | PBusy x =>
      if 2 <=? ex_retries x then quiet (h, PReject x RejectedAsBusy Busy)
      else
        let retries := ex_retries x + 1 in
        let x := set_exec_completed (ex_pre_completed x) retries x in
        let deadline := sat_add u64_max (in_now i) (if retries =? 1 then 100000 else 400000) in
        let job := ex_job x in
        quiet (h, PPublish (BusyDeferred (identity job) (jb_transaction_id job) (jb_token job) retries deadline)
                    (PBusyWait x deadline) (PRetain job false (fail_release x)))
  | PBusyWait x deadline =>
      if is_quiescing (st h) then quiet (h, give_back x)
      else if deadline <=? in_now i then quiet (h, PSubmitPhase x) else quiet (h, pc)
  | PReject x k e =>
      let next := PInvalidate (identity (ex_job x)) PredecessorTerminal (PRejectPublish x k e) in
      match primary_transaction_id (jb_owners (ex_job x)) with
      | None => quiet (h, next)
      | Some id =>
          let (m, taken) := take_must_bundle_with id (cursor_sidecar (st h)) in
          quiet (with_st (set_sidecar m) h,
                 match taken with
                 | None => next
                 | Some sidecar => PPublish (CursorSidecarReturned sidecar RequiredPrimaryTerminal) next
                                     (fail_release x)
                 end)
      end
  | PRejectPublish x k e =>
      quiet (h, PPublish (rejection_event k (ex_job x) e) (PRelease (ex_candidate x) false PTop) (fail_release x))
  | PInvalidate predecessor reason next =>
      let (s, dependents) := take_dependents predecessor (st h) in
      quiet (with_st (fun _ => s) h,
             PPublishAll (map (invalidation (established_base (st h)) reason) dependents) next)
  | PPublishAll [] next => quiet (h, next)
  | PPublishAll (e :: es) next =>
      quiet (push_result e h,
             if in_notified i then PPublishAll es next else PMarkFatal EventNotification false next)
  | PPublish e ok failed =>
      quiet (push_result e h,
             if in_notified i then ok else PMarkFatal EventNotification (is_submitted e) failed)
  | PMarkFatal reason uncertain next =>
      if bool_decide (lifecycle (st h) = Fatal) then quiet (h, next)
      else
        let h' := with_st (fun s => set_lifecycle Fatal (set_probe None false (set_queued [] s))) h in
        quiet (match primary_geometry_probe (st h) with
               | Some probe => reply probe (Refused DeviceLost) h' | None => h' end,
               PFatalJobs (queued (st h)) reason uncertain next)
  | PFatalJobs jobs reason uncertain next =>
      quiet (set_fatal_reason reason (push_fatal (map (fun j => mkFatalJob j false) jobs) h),
             PFatalEvent reason uncertain next)
  | PFatalEvent reason uncertain next => quiet (push_result (FatalEvent reason uncertain) h, next)
  | PRetain job uncertain next => quiet (push_fatal [mkFatalJob job uncertain] h, next)
  | PQuiesce jobs next =>
      quiet (with_st quiesced_state h, PPublish (quiesced_event jobs (st h)) next next)
  | PRelease candidate transferred next => quiet (with_st (drop_guard candidate transferred) h, next)
  end.

(** ** The system of both threads *)

Record System : Type := mkSystem {
  sh : Shared;
  worker : Pc;
  main : Pc;
  permits : list (option DirectScanoutCandidateKey);
  accepted : list PageFlipToken;
  returned : list PageFlipToken;
  trace : list KernelEvent
}.
Definition system_new : System :=
  mkSystem (mkShared state_new [] [] None [] models_default) PTop PExit [] [] [] [].

(** The calls of the compositor thread. A permit is named by its position
    among those outstanding. *)
Inductive Call : Type :=
| CReserve (contended : bool)
| CReserveDirect (contended : bool) (key : DirectScanoutCandidateKey)
| CEnqueue (permit : nat) (job : KmsCommitJob)
| CDropPermit (permit : nat)
| CCancel (token : PageFlipToken) (id generation crtc_id : Z)
    (reservation : FramePresentationReservation) (frame_id : Z)
| COffer (contended : bool) (sidecar : CursorSidecar)
| CTakeSidecar
| CTakeDue (generation crtc_id : Z) (target : PresentationTarget)
| CSetBase (output_id revision generation crtc_id : Z)
| CInvalidateBase (predecessor : KmsCommitBundleIdentity) (reason : ValidationBaseInvalidationReason)
| CAck (identity : KmsCommitBundleIdentity) (id : OutputTransactionId)
| CProbe (contended : bool) (probe : KmsPrimaryGeometryProbe)
| CQuiesce
| CShutdown
| CForce
| CMarkFatal
| CDrain
| CTakeFatal.
Inductive SysOp : Type :=
| OWorker (i : Input)
| OMain (i : Input)
| OCall (c : Call).

Definition gate_held (pc : Pc) : bool :=
  match pc with PProbing _ | PTesting _ _ | PSubmitting _ _ => true | _ => false end.
Definition takes_gate (c : Call) : bool :=
  match c with CQuiesce | CShutdown | CForce => true | _ => false end.

(** The tokens of the jobs that something holds. *)
Definition job_tokens (jobs : list KmsCommitJob) : list PageFlipToken := map jb_token jobs.
Definition opt_tokens (job : option KmsCommitJob) : list PageFlipToken :=
  match job with Some j => [jb_token j] | None => [] end.
Definition event_tokens (e : KmsWorkerEvent) : list PageFlipToken :=
  match e with
  | Submitted o => [jb_token (so_job o)]
  | TestRejected job _ | SubmitRejected job _ | BusyExhausted job _
  | ValidationBaseInvalidated job _ _ _ => [jb_token job]
  | Quiesced jobs _ => job_tokens jobs
  | _ => []
  end.
Definition fatal_tokens (jobs : list KmsWorkerFatalJob) : list PageFlipToken :=
  map (fun j => jb_token (fj_job j)) jobs.

Definition set_sh (f : Shared -> Shared) (y : System) : System :=
  mkSystem (f (sh y)) (worker y) (main y) (permits y) (accepted y) (returned y) (trace y).
Definition on_state (f : WorkerState -> WorkerState) (y : System) : System := set_sh (with_st f) y.
Definition set_main (pc : Pc) (y : System) : System :=
  mkSystem (sh y) (worker y) pc (permits y) (accepted y) (returned y) (trace y).
Definition set_permits (p : list (option DirectScanoutCandidateKey)) (y : System) : System :=
  mkSystem (sh y) (worker y) (main y) p (accepted y) (returned y) (trace y).
Definition accept (token : PageFlipToken) (y : System) : System :=
  mkSystem (sh y) (worker y) (main y) (permits y) (accepted y ++ [token]) (returned y) (trace y).
Definition hand_back (tokens : list PageFlipToken) (y : System) : System :=
  mkSystem (sh y) (worker y) (main y) (permits y) (accepted y) (returned y ++ tokens) (trace y).
Definition log (e : list KernelEvent) (y : System) : System :=
  mkSystem (sh y) (worker y) (main y) (permits y) (accepted y) (returned y) (trace y ++ e).

Definition call_step (c : Call) (y : System) : System :=
  let s := st (sh y) in
  match c with
  | CReserve contended =>
      let (s, r) := try_reserve contended s in
      let y := on_state (fun _ => s) y in if is_Ret r then set_permits (permits y ++ [None]) y else y
  | CReserveDirect contended key =>
      let (s, r) := try_reserve_direct contended key s in
      let y := on_state (fun _ => s) y in if is_Ret r then set_permits (permits y ++ [Some key]) y else y
  | CEnqueue n job =>
      match permits y !! n with
      | None => y
      | Some key =>
          let (s, r) := enqueue key job s in
          let y := set_permits (delete n (permits y)) (on_state (fun _ => s) y) in
          if is_Ret r then accept (jb_token job) y else y
      end
  | CDropPermit n =>
      match permits y !! n with
      | None => y
      | Some key => set_permits (delete n (permits y)) (on_state (release_permit key) y)
      end
  | CCancel token id generation crtc_id reservation frame_id =>
      let (s, r) := cancel_queued_primary token id generation crtc_id reservation frame_id s in
      let y := on_state (fun _ => s) y in
      match r with Cancelled job => hand_back [jb_token job] y | _ => y end
  | COffer contended sidecar => on_state (fun s => fst (offer_cursor_sidecar contended sidecar s)) y
  | CTakeSidecar => on_state (fun s => fst (take_pending_cursor_sidecar s)) y
  | CTakeDue generation crtc_id target =>
      on_state (fun s => fst (take_due_independent_cursor_sidecar generation crtc_id target s)) y
  | CSetBase output_id revision generation crtc_id =>
      on_state (set_established_presented_base_for_output output_id revision generation crtc_id) y
  | CInvalidateBase predecessor reason => set_main (PInvalidate predecessor reason PExit) y
  | CAck i id =>
      let (s', r) := ack_pageflip_identity i id s in
      match r with
      | AckDone sidecar =>
          let y := log (match inflight s with Some f => [KAck (if_token f)] | None => [] end)
                     (on_state (fun _ => s') y) in
          match sidecar with
          | Some sidecar =>
              set_main (PPublish (CursorSidecarReturned sidecar RequiredPrimaryTerminal) PExit PExit) y
          | None => y
          end
      | AckInvalidates predecessor reason _ => set_main (PInvalidate predecessor reason PExit) y
      | AckSuppressed | AckError _ => y
      end
  | CProbe contended probe =>
      on_state (fun s => fst (queue_primary_geometry_test_if_idle (contended || gate_held (worker y)) probe s)) y
  | CQuiesce => log (if is_running s then [KStop] else []) (on_state request_quiesce y)
  | CShutdown =>
      let (s, r) := begin_shutdown_quiesce s in
      match r with
      | Ret snapshot => hand_back (opt_tokens (sd_queued_job snapshot)) (log [KStop] (on_state (fun _ => s) y))
      | _ => y
      end
  | CForce =>
      let (s', r) := force_shutdown_abandon s in
      match r with
      | Ret forced =>
          let y := on_state (fun _ => s') y in
          match fs_disposition forced with
          | AlreadyStopped => y
          | _ => hand_back (opt_tokens (fs_queued_job forced))
                   (log [KAbandon (if_token <$> fs_inflight forced)] y)
          end
      | _ => y
      end
  | CMarkFatal => set_main (PMarkFatal EventNotification false PExit) y
  | CDrain =>
      hand_back (concat (map event_tokens (results (sh y))))
        (set_sh (fun h => mkShared (st h) [] (fatal_jobs h) (fatal_reason h) (probe_replies h) (models h)) y)
  | CTakeFatal =>
      hand_back (fatal_tokens (fatal_jobs (sh y)))
        (set_sh (fun h => mkShared (st h) (results h) [] (fatal_reason h) (probe_replies h) (models h)) y)
  end.
(** A call waits while an earlier call of its thread is still publishing, and
    for the gate where it takes it. *)
Definition sys_step (y : System) (op : SysOp) : System :=
  match op with
  | OWorker i =>
      let '(h, pc, e) := thread_step i (worker y) (sh y) in
      log e (mkSystem h pc (main y) (permits y) (accepted y) (returned y) (trace y))
  | OMain i =>
      let '(h, pc, e) := thread_step i (main y) (sh y) in
      log e (mkSystem h (worker y) pc (permits y) (accepted y) (returned y) (trace y))
  | OCall c =>
      match main y with
      | PExit => if takes_gate c && gate_held (worker y) then y else call_step c y
      | _ => y
      end
  end.

(** ** What each position of a thread implies *)

(** The guard of the current job is alive: the state says it executes. *)
Fixpoint guarded (pc : Pc) : bool :=
  match pc with
  | PDequeued _ | PSleep _ | PCollect _ | PCollecting _ | PFrozen _ | PTestGate _ | PTesting _ _
  | PPreSubmit _ | PSubmitPhase _ | PSubmitGate _ | PSubmitting _ _ | PBusy _ | PBusyWait _ _
  | PReject _ _ _ | PRejectPublish _ _ _ => true
  | PRelease _ transferred _ => negb transferred
  | PPublish _ ok _ => guarded ok
  | PInvalidate _ _ next | PPublishAll _ next | PMarkFatal _ _ next | PFatalJobs _ _ _ next
  | PFatalEvent _ _ next | PRetain _ _ next | PQuiesce _ next => guarded next
  | _ => false
  end.
(** A commit of this thread may be in flight. *)
Fixpoint may_fly (pc : Pc) : bool :=
  match pc with
  | PExit | PSubmitted _ _ _ _ | PFlipWait _ _ _ _ => true
  | PPublish _ ok _ => may_fly ok
  | PInvalidate _ _ next | PPublishAll _ next | PMarkFatal _ _ next | PFatalJobs _ _ _ next
  | PFatalEvent _ _ next | PRetain _ _ next | PQuiesce _ next | PRelease _ _ next => may_fly next
  | _ => false
  end.
(** A counter of the compositor thread: it only publishes. *)
Fixpoint aux_pc (pc : Pc) : bool :=
  match pc with
  | PExit => true
  | PPublish _ ok failed => aux_pc ok && aux_pc failed
  | PInvalidate _ _ next | PPublishAll _ next | PMarkFatal _ _ next | PFatalJobs _ _ _ next
  | PFatalEvent _ _ next => aux_pc next
  | _ => false
  end.
Definition ioctl_of (pc : Pc) : option PageFlipToken :=
  match pc with PSubmitting x _ => Some (jb_token (ex_job x)) | _ => None end.
(** Both ways on from a publication agree on the guard, and no thread
    publishes in the middle of a submission. *)
Fixpoint pc_ok (pc : Pc) : Prop :=
  match pc with
  | PPublish _ ok failed =>
      guarded failed = guarded ok /\ (may_fly ok = true -> guarded ok = true \/ may_fly failed = true) /\
      ioctl_of ok = None /\ ioctl_of failed = None /\ pc_ok ok /\ pc_ok failed
  | PInvalidate _ _ next | PPublishAll _ next | PMarkFatal _ _ next | PFatalJobs _ _ _ next
  | PFatalEvent _ _ next | PRetain _ _ next | PQuiesce _ next => ioctl_of next = None /\ pc_ok next
  | PRelease _ _ next => guarded next = false /\ ioctl_of next = None /\ pc_ok next
  | _ => True
  end.

(** ** The monitor of the kernel

    The specification of what the kernel sees: one commit at a time, none
    while an earlier one is in flight, none after a stop, and a stop only
    between ioctls. *)
Record Monitor : Type := mkMonitor {
  mo_stopped : bool; mo_ioctl : option PageFlipToken; mo_flight : option PageFlipToken
}.
Inductive mon_step : Monitor -> KernelEvent -> Monitor -> Prop :=
| mon_start token : mon_step (mkMonitor false None None) (KStart token) (mkMonitor false (Some token) None)
| mon_submitted stopped token :
    mon_step (mkMonitor stopped (Some token) None) (KSubmitted token) (mkMonitor stopped None (Some token))
| mon_failed stopped token :
    mon_step (mkMonitor stopped (Some token) None) (KFailed token) (mkMonitor stopped None None)
| mon_ack stopped token :
    mon_step (mkMonitor stopped None (Some token)) (KAck token) (mkMonitor stopped None None)
| mon_abandon flight : mon_step (mkMonitor true None flight) (KAbandon flight) (mkMonitor true None None)
| mon_stop stopped flight : mon_step (mkMonitor stopped None flight) KStop (mkMonitor true None flight).
Inductive mon_run : Monitor -> list KernelEvent -> Monitor -> Prop :=
| mr_nil m : mon_run m [] m
| mr_snoc m evs m1 e m2 : mon_run m evs m1 -> mon_step m1 e m2 -> mon_run m (evs ++ [e]) m2.

(** ** Steps and positions *)

(** What a step of a thread may do to the state besides its own position. *)
Record quiet_change (s s' : WorkerState) : Prop := {
  qc_executing : executing s' = executing s;
  qc_inflight : inflight s' = inflight s;
  qc_reserved : reserved s' = reserved s;
  qc_queued : zlen (queued s') <= zlen (queued s);
  qc_lifecycle : lifecycle s' = lifecycle s \/ lifecycle s' = Stopped \/ lifecycle s' = Fatal
}.
Lemma quiet_refl s : quiet_change s s.
Proof. split; auto with lia. Qed.
#[local] Hint Resolve quiet_refl : core.

Definition mon_path (m : Monitor) (e : list KernelEvent) (m' : Monitor) : Prop :=
  e = [] /\ m' = m \/ exists k, e = [k] /\ mon_step m k m'.
(** What the worker's position and the state agree on. *)
Record placed (pc : Pc) (s : WorkerState) : Prop := {
  pl_ok : pc_ok pc;
  pl_executing : executing s = guarded pc;
  pl_guard : guarded pc = true -> inflight s = None;
  pl_fly : may_fly pc = false -> inflight s = None
}.

Lemma phase_quiet p s : quiet_change s (set_worker_phase p s).
Proof. unfold set_worker_phase. cbn. destruct (executing_primary s); [destruct p|]; by split; auto with lia. Qed.
Lemma quiesced_quiet s : quiet_change s (quiesced_state s).
Proof. split; cbn; auto. unfold zlen. cbn. lia. Qed.
Lemma filter_len {A} (f : A -> bool) l : zlen (List.filter f l) <= zlen l.
Proof. unfold zlen. pose proof (filter_length_le f l). lia. Qed.
Lemma dependents_quiet predecessor s : quiet_change s (fst (take_dependents predecessor s)).
Proof. split; cbn; auto. apply filter_len. Qed.
Lemma collect_quiet job s s' job' returned :
  collect_cursor_sidecar_before_freeze job s = Some (s', job', returned) ->
  quiet_change s s' /\ jb_token job' = jb_token job.
Proof.
  unfold collect_cursor_sidecar_before_freeze. destruct (negb _); [done|].
  destruct (claim_sidecar _ _) as [m [sc|]].
  - destruct (sidecar_fits job sc); intros [= <- <- _]; (split; [|done]); split; cbn; auto with lia.
  - destruct (primary_transaction_id _); [destruct (take_must_bundle_with _ _)|];
      intros [= <- <- _]; (split; [|done]); split; cbn; auto with lia.
Qed.
Lemma placed_quiet pc pc' s s' :
  placed pc s -> quiet_change s s' -> pc_ok pc' -> guarded pc' = guarded pc ->
  (may_fly pc' = false -> guarded pc' = true \/ may_fly pc = false) -> placed pc' s'.
Proof.
  intros [H1 H2 H3 H4] [Q1 Q2 Q3 Q4 Q5] Hok Hg Hf. split; [done|congruence| |].
  - rewrite Hg, Q2. done.
  - rewrite Q2. intros E. destruct (Hf E) as [X|X]; [apply H3; congruence|auto].
Qed.
Record step_ok (pc : Pc) (s : WorkerState) (pc' : Pc) (s' : WorkerState) (e : list KernelEvent) : Prop := {
  sk_placed : placed pc' s';
  sk_reserved : reserved s' = reserved s;
  sk_queued : zlen (queued s') <= zlen (queued s);
  sk_lifecycle : lifecycle s' = lifecycle s \/ lifecycle s' = Stopped \/ lifecycle s' = Fatal;
  sk_monitor : forall stopped, (stopped = true -> lifecycle s <> Running) ->
    mon_path (mkMonitor stopped (ioctl_of pc) (if_token <$> inflight s)) e
      (mkMonitor stopped (ioctl_of pc') (if_token <$> inflight s'))
}.
Lemma step_quiet pc s pc' s' :
  placed pc s -> quiet_change s s' -> pc_ok pc' -> guarded pc' = guarded pc ->
  (may_fly pc' = false -> guarded pc' = true \/ may_fly pc = false) -> ioctl_of pc' = ioctl_of pc ->
  step_ok pc s pc' s' [].
Proof.
  intros Hp Hq Hok Hg Hf Hi. destruct (Hq) as [Q1 Q2 Q3 Q4 Q5].
  split; [by eapply placed_quiet|done..|]. intros st _. left. rewrite Hi, Q2. done.
Qed.
Lemma tail_len {A} (l : list A) : zlen (tail l) <= zlen l.
Proof. unfold zlen. destruct l; cbn; lia. Qed.
Lemma next_work_ok now h :
  placed PTop (st h) ->
  let (h', pc') := take_next_work now h in step_ok PTop (st h) pc' (st h') [].
Proof.
  intros Hp. destruct (Hp) as [_ He _ Hf]. cbn in He. specialize (Hf eq_refl).
  unfold take_next_work. destruct (_ || _); [by apply step_quiet; auto|].
  destruct (is_quiescing (st h)).
  { apply step_quiet; cbn; auto; [|tauto]. split; cbn; auto. unfold zlen; cbn; lia. }
  destruct (primary_geometry_probe (st h)) as [probe|].
  { destruct (probe_idle (st h)); apply step_quiet; cbn; auto; split; cbn; auto with lia. }
  rewrite Hf. destruct (queued (st h)) as [|job rest] eqn:Eq; [by apply step_quiet; auto|].
  destruct (validation_base_disposition _ _).
  - split; cbn; rewrite ?Hf, ?Eq; auto; [split; cbn; auto; by rewrite Hf|unfold zlen; cbn; lia|].
    intros ? _. by left.
  - by apply step_quiet; auto.
  - apply step_quiet; cbn; auto; [|tauto]. split; cbn; auto. rewrite Eq. unfold zlen; cbn; lia.
Qed.
Lemma flip_wait_ok i c id token reported h :
  placed (PFlipWait c id token reported) (st h) ->
  let (h', pc') := flip_wait_round i c id token reported h in
  step_ok (PFlipWait c id token reported) (st h) pc' (st h') [].
Proof.
  intros Hp. unfold flip_wait_round.
  assert (Ht : forall pc', pc' = match inflight (st h) with
    | Some f => if if_token f =? token
        then PPublish (PageflipTimeout (if_bundle f) id token (in_now i)) (PFlipWait c id token true)
               (PRelease c true PExit)
        else PFlipWait c id token reported
    | None => PFlipWait c id token reported end ->
    step_ok (PFlipWait c id token reported) (st h) pc' (st h) []).
  { intros pc' ->. destruct (inflight (st h)) as [f|]; [destruct (_ =? _)|];
      apply step_quiet; cbn; auto; tauto. }
  destruct (_ && _); [by apply Ht|]. destruct (_ || _).
  { apply step_quiet; cbn; auto; [apply quiesced_quiet|tauto]. }
  destruct (inflight (st h)) as [f|] eqn:Ef.
  - destruct (_ && _); [by apply Ht|]. apply step_quiet; cbn; auto.
  - destruct Hp as [_ He _ _]. cbn in He. split; cbn; auto with lia.
    + by split.
    + intros ? _. left. by rewrite Ef.
Qed.
Lemma worker_step_ok i pc h :
  placed pc (st h) ->
  let '(h', pc', e) := thread_step i pc h in step_ok pc (st h) pc' (st h') e.
Proof.
  intros Hp. destruct (Hp) as [Hok He Hg Hf].
  destruct pc; cbn [thread_step fst snd]; cbn in Hok, He, Hg, Hf.
  - by apply step_quiet; auto.
  - pose proof (next_work_ok (in_now i) h Hp). by destruct (take_next_work _ _).
  - destruct (_ && _); apply step_quiet; cbn; auto.
  - destruct (in_test i); apply step_quiet; cbn; auto.
  - cbn. apply step_quiet; cbn; auto. destruct (_ && _); split; cbn; auto with lia.
  - destruct (ex_armed (begin_execution _ _ _)); apply step_quiet; cbn; auto.
  - destruct (is_quiescing _); [|destruct (_ <=? _)]; apply step_quiet; cbn; auto.
  - apply step_quiet; cbn; auto. apply phase_quiet.
  - destruct (collect_cursor_sidecar_before_freeze _ _) as [[[s' job'] [sc|]]|] eqn:Ec;
      [apply collect_quiet in Ec as [Ec _]..|]; apply step_quiet; cbn; auto; tauto.
  - destruct (effective _); apply step_quiet; cbn; auto. apply phase_quiet.
  - destruct (is_running _); apply step_quiet; cbn; auto.
  - cbn. destruct (in_test i); apply step_quiet; cbn; auto.
  - apply step_quiet; cbn; auto.
  - apply step_quiet; cbn; auto. apply phase_quiet.
  - destruct (is_running (st h)) eqn:Er; [|by apply step_quiet; cbn; auto].
    apply bool_decide_eq_true in Er. split; cbn; auto with lia; [by split|].
    intros stp Hs. right. eexists. split; [done|]. rewrite Hg by done.
    destruct stp; [by destruct Hs|]. apply mon_start.
  - destruct (in_submit i) as [fence|e|].
    + split; cbn; auto with lia; [by split|]. intros stp Hs. right. eexists. split; [done|].
      rewrite Hg by done. apply mon_submitted.
    + destruct (bool_decide _); (split; cbn; auto with lia; [by split|]); intros stp Hs; right;
        (eexists; split; [done|]); rewrite Hg by done; apply mon_failed.
    + split; cbn; auto with lia; [split; cbn; auto; tauto|]. intros stp Hs. right. eexists. split; [done|].
      rewrite Hg by done. apply mon_failed.
  - destruct (observe_submission _ _ _ _ _) as [[ms own]|]; apply step_quiet; cbn; auto; tauto.
  - pose proof (flip_wait_ok i candidate id token reported h Hp). by destruct (flip_wait_round _ _ _ _ _ _).
  - destruct (_ <=? _); apply step_quiet; cbn; auto; tauto.
  - destruct (is_quiescing _); [|destruct (_ <=? _)]; apply step_quiet; cbn; auto.
  - destruct (primary_transaction_id _) as [id|]; [|apply step_quiet; cbn; auto; tauto].
    destruct (take_must_bundle_with _ _) as [m [sc|]]; apply step_quiet; cbn; auto; try tauto;
      split; cbn; auto with lia.
  - apply step_quiet; cbn; auto; tauto.
  - apply step_quiet; cbn; auto; [apply dependents_quiet|tauto..].
  - destruct Hok as [Hi Hok]. destruct events as [|e es]; [by apply step_quiet; cbn; auto|].
    cbn. destruct (in_notified i); apply step_quiet; cbn; auto.
  - destruct Hok as (H1 & H2 & H3 & H4 & H5 & H6). cbn.
    destruct (in_notified i); apply step_quiet; cbn; auto.
    intros E. destruct (may_fly pc1) eqn:Ef; [|by right]. destruct H2 as [?|?]; [done| |]; left; congruence.
  - destruct (bool_decide _); [apply step_quiet; cbn; auto; tauto|].
    destruct (primary_geometry_probe (st h)); apply step_quiet; cbn; auto; try tauto;
      split; cbn; auto; unfold zlen; cbn; lia.
  - apply step_quiet; cbn; auto; tauto.
  - apply step_quiet; cbn; auto; tauto.
  - apply step_quiet; cbn; auto; tauto.
  - apply step_quiet; cbn; auto; [apply quiesced_quiet|tauto].
  - destruct Hok as (H1 & H2 & H3). split; cbn; auto with lia.
    + split; cbn; [done|done|by rewrite H1|done].
    + intros stp _. left. by rewrite H2.
Qed.

(** The compositor thread publishes and marks the worker fatal; it touches
    nothing the worker's position depends on. *)
Lemma aux_step_ok i pc h :
  aux_pc pc = true ->
  let '(h', pc', e) := thread_step i pc h in aux_pc pc' = true /\ quiet_change (st h) (st h') /\ e = [].
Proof.
  destruct pc; cbn [thread_step fst snd]; cbn; intros Ha; try discriminate Ha; try done.
  - split_and!; [done|apply dependents_quiet|done].
  - destruct events; cbn; [done|]. by destruct (in_notified i).
  - apply andb_true_iff in Ha as [? ?]. by destruct (in_notified i).
  - destruct (bool_decide _); [done|]. destruct (primary_geometry_probe (st h)); cbn; split_and!; try done;
      split; cbn; auto; unfold zlen; cbn; lia.
Qed.

(** ** The invariant of the system *)

Definition monitored (y : System) : Prop :=
  exists stopped, mon_run (mkMonitor false None None) (trace y)
      (mkMonitor stopped (ioctl_of (worker y)) (if_token <$> inflight (st (sh y)))) /\
    (stopped = true -> lifecycle (st (sh y)) <> Running) /\
    (lifecycle (st (sh y)) = ShutdownQuiescing \/ lifecycle (st (sh y)) = ShutdownAbandoning ->
     stopped = true).
Record sys_ok (y : System) : Prop := {
  si_placed : placed (worker y) (st (sh y));
  si_main : aux_pc (main y) = true;
  si_reserved : reserved (st (sh y)) = zlen (permits y);
  si_capacity : zlen (queued (st (sh y))) + zlen (permits y) <= 1;
  si_monitor : monitored y
}.

Lemma mon_path_run m evs m1 e m2 : mon_run m evs m1 -> mon_path m1 e m2 -> mon_run m (evs ++ e) m2.
Proof.
  intros H [[-> ->]|(k & -> & Hk)]; [by rewrite app_nil_r|]. by eapply mr_snoc.
Qed.
Lemma monitored_quiet y y' :
  monitored y -> trace y' = trace y -> ioctl_of (worker y') = ioctl_of (worker y) ->
  if_token <$> inflight (st (sh y')) = if_token <$> inflight (st (sh y)) ->
  (lifecycle (st (sh y')) = lifecycle (st (sh y)) \/ lifecycle (st (sh y')) = Stopped \/
   lifecycle (st (sh y')) = Fatal) -> monitored y'.
Proof.
  intros (stp & Hr & H1 & H2) Et Ei Ef Hl. exists stp. rewrite Et, Ei, Ef. split; [done|].
  destruct Hl as [->|[-> | ->]]; [done|..]; (split; [done|by intros [?|?]]).
Qed.
Lemma worker_sys_ok i y : sys_ok y -> sys_ok (sys_step y (OWorker i)).
Proof.
  intros [Hp Hm Hr Hc (stp & Hrun & H1 & H2)]. cbn.
  pose proof (worker_step_ok i (worker y) (sh y) Hp) as H.
  destruct (thread_step i (worker y) (sh y)) as [[h pc] e]. destruct H as [Kp Kr Kq Kl Km].
  split; cbn; [done|done|congruence|lia|].
  exists stp. cbn. split; [eapply mon_path_run; [exact Hrun|by apply Km]|].
  destruct Kl as [->|[-> | ->]]; [done|..]; (split; [done|by intros [?|?]]).
Qed.
Lemma main_sys_ok i y : sys_ok y -> sys_ok (sys_step y (OMain i)).
Proof.
  intros [Hp Hm Hr Hc Hmon]. cbn.
  pose proof (aux_step_ok i (main y) (sh y) Hm) as H.
  destruct (thread_step i (main y) (sh y)) as [[h pc] e]. destruct H as (Ha & Hq & ->).
  destruct (Hq) as [Q1 Q2 Q3 Q4 Q5]. split; cbn; [|done|congruence|lia|].
  - eapply placed_quiet; [done|done|by destruct Hp|done|]. intros E. by right.
  - eapply monitored_quiet; [done|cbn; by rewrite app_nil_r|done|cbn; by f_equal|done].
Qed.

(** Calls that change neither the flight nor the guard. *)
Lemma call_quiet y y' :
  sys_ok y -> worker y' = worker y -> trace y' = trace y -> aux_pc (main y') = true ->
  executing (st (sh y')) = executing (st (sh y)) -> inflight (st (sh y')) = inflight (st (sh y)) ->
  lifecycle (st (sh y')) = lifecycle (st (sh y)) ->
  reserved (st (sh y')) = zlen (permits y') -> zlen (queued (st (sh y'))) + zlen (permits y') <= 1 ->
  sys_ok y'.
Proof.
  intros [[P1 P2 P3 P4] Hm Hr Hc Hmon] Ew Et Ha Ee Ei El Hr' Hc'. split; [|done|done|done|].
  - split; rewrite ?Ew, ?Ee, ?Ei; done.
  - eapply monitored_quiet; [exact Hmon|done|by rewrite Ew|by f_equal|by left].
Qed.
(** The room a reservation finds is the one slot of the queue. *)
Lemma room_left y : sys_ok y -> (capacity (st (sh y)) <=? occupied (st (sh y))) = false ->
  zlen (queued (st (sh y))) + zlen (permits y) = 0.
Proof.
  intros [[P1 P2 P3 P4] Hm Hr Hc Hmon] Hcap. apply Z.leb_gt in Hcap.
  unfold capacity, occupied, QUEUED_JOB_CAPACITY in Hcap. rewrite Hr, P2 in Hcap.
  assert (Hx : guarded (worker y) = true -> bool_decide (is_Some (inflight (st (sh y)))) = false)
    by (intros E; rewrite (P3 E); done).
  assert (0 <= zlen (queued (st (sh y)))) by (unfold zlen; lia).
  assert (0 <= zlen (permits y)) by (unfold zlen; lia).
  destruct (guarded (worker y)); [rewrite Hx in Hcap by done|]; cbn in Hcap; [lia|].
  destruct (bool_decide _); cbn in Hcap; lia.
Qed.
Lemma zlen_snoc {A} (l : list A) x : zlen (l ++ [x]) = zlen l + 1.
Proof. unfold zlen. rewrite length_app. cbn. lia. Qed.
Lemma zlen_delete {A} (l : list A) n x : l !! n = Some x -> zlen (delete n l) = zlen l - 1.
Proof.
  intros H. unfold zlen. pose proof (lookup_lt_Some _ _ _ H). rewrite length_delete by done. lia.
Qed.
Lemma remove_first_len accept q j q' : remove_first accept q = Some (j, q') -> zlen q = zlen q' + 1.
Proof.
  revert j q'. induction q as [|x q IH]; intros j q'; cbn; [done|]. destruct (accept x).
  - intros [= <- <-]. unfold zlen. cbn. lia.
  - destruct (remove_first accept q) as [[y r]|]; [|done]. intros [= <- <-].
    specialize (IH _ _ eq_refl). unfold zlen in *. cbn. lia.
Qed.

Lemma settles_bind {E A B} (m : res E A) (k : A -> res E B) :
  settles m -> (forall a, settles (k a)) -> settles (x ← m; k x).
Proof. destruct m; cbn; auto. Qed.
Lemma settles_guard {E A} (b : bool) (e : E) (k : res E A) : settles k -> settles (if b then Fail e else k).
Proof. by destruct b. Qed.
Lemma contract_settles job : settles (validate_executable_contract job).
Proof.
  assert (Ht : settles (validate_presentation_timing_domain job))
    by (unfold validate_presentation_timing_domain; by repeat case_match).
  assert (Ho : forall t, settles (check_owner_opt t job)).
  { intros [t|]; [|done]. cbn. unfold check_owner. case_match; [done|]. case_match; [done|].
    apply settles_bind; [done|]. intros _. by case_match. }
  unfold validate_executable_contract. apply settles_bind.
  { unfold validate_pacing_ownership. by repeat case_match. }
  intros _. case_match; [done|]. apply settles_bind; [done|]. intros _. case_match; [done|].
  unfold check_owners. destruct (is_legacy_unchecked _); [done|]. apply settles_guard, settles_guard.
  apply settles_bind; [done|]. intros _. apply settles_bind; [done|]. intros _. cbn.
  clear H H0. by case_bool_decide.
Qed.
(** A permit keeps the slot free, so with it the queue is never full. *)
Lemma enqueue_effect key job s :
  reserved s = 1 -> queued s = [] ->
  let (s', r) := enqueue key job s in
  executing s' = executing s /\ inflight s' = inflight s /\ lifecycle s' = lifecycle s /\
  reserved s' = 0 /\ r <> Fail (Admission QueueFull) /\
  (r = Ret tt /\ lifecycle s = Running /\ queued s' = [job] \/ queued s' = [] /\ is_Ret r = false).
Proof.
  intros Hr Hq. pose proof (contract_settles job) as Hv. unfold enqueue.
  assert (Hz : sat_sub (reserved s) 1 = 0) by (rewrite Hr; done).
  destruct (validate_executable_contract job); try done; cbn.
  - destruct (admission_refusal (lifecycle s)) as [e|] eqn:El; cbn.
    { split_and!; try done; [by destruct (lifecycle s); simplify_eq/=|by right]. }
    assert (lifecycle s = Running) by (by destruct (lifecycle s)).
    rewrite Hq. cbn. destruct (established_base s), (jb_validation_base job); cbn;
      split_and!; try done; left; by rewrite Hq.
  - split_and!; try done. by right.
Qed.
Lemma permit_slot y n key :
  sys_ok y -> permits y !! n = Some key ->
  reserved (st (sh y)) = 1 /\ queued (st (sh y)) = [] /\ zlen (delete n (permits y)) = 0.
Proof.
  intros [_ _ Hr Hc _] Hn. pose proof (zlen_delete _ _ _ Hn) as Hd.
  assert (0 <= zlen (delete n (permits y))) by (unfold zlen; lia).
  assert (0 <= zlen (queued (st (sh y)))) by (unfold zlen; lia).
  split_and!; [lia| |lia]. destruct (queued (st (sh y))); [done|]. unfold zlen in *. cbn in *. lia.
Qed.
Lemma ack_effect i id s :
  let (s', r) := ack_pageflip_identity i id s in
  match r with
  | AckDone _ => executing s' = executing s /\ reserved s' = reserved s /\ queued s' = queued s /\
                 lifecycle s' = lifecycle s /\ inflight s' = None /\
                 exists f, inflight s = Some f
  | _ => s' = s
  end.
Proof.
  unfold ack_pageflip_identity. destruct (inflight s) as [f|] eqn:Ef; [|by destruct (lifecycle s)].
  destruct (take_must_bundle_with _ _).
  repeat match goal with |- context [if ?b then _ else _] => destruct b end; try done. cbn. by eauto 10.
Qed.

Lemma call_sys_ok c y :
  sys_ok y -> main y = PExit -> takes_gate c && gate_held (worker y) = false -> sys_ok (call_step c y).
Proof.
  intros Hy Hm Hg. destruct (Hy) as [Hp _ Hr Hc Hmon]. assert (Ha : aux_pc (main y) = true) by (by rewrite Hm).
  destruct c; cbn [call_step].
  - unfold try_reserve. destruct contended; [by apply (call_quiet y)|].
    destruct (admission_refusal _); [by apply (call_quiet y)|].
    destruct (_ <=? _) eqn:E; [by apply (call_quiet y)|].
    pose proof (room_left y Hy E). apply (call_quiet y); cbn; rewrite ?zlen_snoc; try done; lia.
  - unfold try_reserve_direct. destruct contended; [by apply (call_quiet y)|].
    destruct (admission_refusal _); [by apply (call_quiet y)|].
    destruct (owns_direct_key _ _); [by apply (call_quiet y)|].
    destruct (_ <=? _) eqn:E; [by apply (call_quiet y)|].
    pose proof (room_left y Hy E). apply (call_quiet y); cbn; rewrite ?zlen_snoc; try done; lia.
  - destruct (permits y !! permit) as [key|] eqn:En; [|done].
    destruct (permit_slot y permit key Hy En) as (H1 & H2 & H3).
    pose proof (enqueue_effect key job _ H1 H2) as He. destruct (enqueue key job _) as [s r].
    destruct He as (E1 & E2 & E3 & E4 & _ & E5).
    assert (zlen (queued s) <= 1) by (destruct E5 as [(_ & _ & ->)|[-> _]]; done).
    destruct (is_Ret r); apply (call_quiet y); cbn; rewrite ?H3; try done; lia.
  - destruct (permits y !! permit) as [key|] eqn:En; [|done].
    destruct (permit_slot y permit key Hy En) as (H1 & H2 & H3).
    apply (call_quiet y); cbn; rewrite ?H3, ?H1, ?H2; done.
  - unfold cancel_queued_primary. destruct (remove_first _ _) as [[j q]|] eqn:Eq.
    + apply remove_first_len in Eq. apply (call_quiet y); cbn; try done. lia.
    + destruct (existsb _ _); by apply (call_quiet y).
  - apply (call_quiet y); try done; cbn; unfold offer_cursor_sidecar; destruct contended; try done; destruct (admission_refusal _); done.
  - by apply (call_quiet y).
  - apply (call_quiet y); try done; cbn; unfold take_due_independent_cursor_sidecar;
      destruct (take_independent_due _ _ _ _); done.
  - apply (call_quiet y); try done; cbn; unfold set_established_presented_base_for_output;
      destruct (queued (st (sh y))) eqn:Eq; cbn; rewrite ?Eq in *; done.
  - by apply (call_quiet y).
  - pose proof (ack_effect identity id (st (sh y))) as H.
    destruct (ack_pageflip_identity _ _ _) as [s' [sidecar| | |]]; try by apply (call_quiet y).
    destruct H as (E1 & E2 & E3 & E4 & E5 & f & E6).
    assert (X : sys_ok (log [KAck (if_token f)] (on_state (fun _ => s') y))).
    { destruct Hp as [P1 P2 P3 P4]. split; cbn; try done; [|congruence|congruence|].
      - split; [done|congruence|done|done].
      - destruct Hmon as (stp & Hrun & M1 & M2). exists stp. cbn. rewrite E4, E5. split_and!; [|done|done].
        eapply mr_snoc; [exact Hrun|]. rewrite E6. cbn.
        assert (ioctl_of (worker y) = None) as ->; [|apply mon_ack].
        destruct (worker y); try done. by rewrite P3 in E6. }
    rewrite E6. destruct sidecar; [|done]. by apply (call_quiet (log [KAck (if_token f)] (on_state (fun _ => s') y)));
      destruct X.
  - apply (call_quiet y); try done; cbn; unfold queue_primary_geometry_test_if_idle;
      (destruct (contended || gate_held (worker y)); [done|]); by destruct (_ || _).
  - change (on_state request_quiesce y) with (on_state (fun _ => request_quiesce (st (sh y))) y).
    unfold request_quiesce. destruct (is_running (st (sh y))) eqn:Er.
    + split; cbn; [by destruct Hp; split|done|done|done|].
      destruct Hmon as (stp & Hrun & _). exists true. cbn. split_and!; try done.
      eapply mr_snoc; [exact Hrun|]. cbn in Hg. destruct (worker y); cbn in *; try apply mon_stop. done.
    + apply (call_quiet y); cbn; rewrite ?app_nil_r; try done; by rewrite Er.
  - unfold begin_shutdown_quiesce.
    assert (X : forall s' q, placed (worker y) s' -> reserved s' = reserved (st (sh y)) ->
      zlen (queued s') <= zlen (queued (st (sh y))) -> inflight s' = inflight (st (sh y)) ->
      lifecycle s' <> Running -> sys_ok (hand_back q (log [KStop] (on_state (fun _ => s') y)))).
    { intros s' q X1 X2 X3 X4 X5. split; cbn; [done|done|congruence|lia|].
      destruct Hmon as (stp & Hrun & _). exists true. cbn. rewrite X4. split_and!; try done.
      eapply mr_snoc; [exact Hrun|]. cbn in Hg. destruct (worker y); cbn in *; try apply mon_stop. done. }
    destruct (lifecycle (st (sh y))) eqn:El; try done; apply X; cbn; try done; try apply tail_len;
      try (by destruct Hp; split); by rewrite El.
  - unfold force_shutdown_abandon.
    assert (X : forall q, lifecycle (st (sh y)) = ShutdownQuiescing \/
        lifecycle (st (sh y)) = ShutdownAbandoning ->
      sys_ok (hand_back q (log [KAbandon (if_token <$> inflight (st (sh y)))]
        (on_state (fun _ => set_inflight None (set_sidecar None (set_queued (tail (queued (st (sh y))))
           (set_lifecycle ShutdownAbandoning (st (sh y)))))) y)))).
    { intros q Hl. pose proof (tail_len (queued (st (sh y)))). destruct Hp as [P1 P2 P3 P4].
      split; cbn; [by split|done|done|lia|].
      destruct Hmon as (stp & Hrun & _ & M2). exists true. cbn. split_and!; try done.
      eapply mr_snoc; [exact Hrun|]. rewrite (M2 Hl). cbn in Hg.
      destruct (worker y); cbn in *; try apply mon_abandon. done. }
    destruct (lifecycle (st (sh y))) eqn:El; try done; cbn; try (by apply (call_quiet y); cbn; rewrite ?El).
    + destruct (bool_decide _); cbn; apply X; auto.
    + apply X. auto.
  - by apply (call_quiet y).
  - by apply (call_quiet y).
  - by apply (call_quiet y).
Qed.
Lemma sys_step_ok y op : sys_ok y -> sys_ok (sys_step y op).
Proof.
  intros Hy. destruct op as [i|i|c]; [by apply worker_sys_ok|by apply main_sys_ok|].
  cbn. destruct (main y) eqn:Em; try done. destruct (takes_gate c && _) eqn:Eg; [done|].
  by apply call_sys_ok.
Qed.
Lemma system_new_ok : sys_ok system_new.
Proof.
  split; cbn; try done. exists false. cbn. split_and!; [apply mr_nil|done|by intros [?|?]].
Qed.
Lemma run_ok ops : sys_ok (foldl sys_step system_new ops).
Proof.
  assert (H : forall y, sys_ok y -> sys_ok (foldl sys_step y ops)).
  { induction ops as [|op ops IH]; intros y Hy; [done|]. by apply IH, sys_step_ok. }
  apply H, system_new_ok.
Qed.

(** C2: the worker submits one commit at a time. Whatever the two threads
    do, in whatever order their critical sections interleave and however the
    ioctls and notifications turn out, the kernel sees a run of the monitor:
    an ioctl starts only while none is running, no commit is in flight and no
    stop has been ordered; a commit is acknowledged or abandoned only while it
    is in flight; a stop falls between ioctls. The commit in flight is the one
    the state says, a job executes only while none is, and the queue with the
    permits outstanding never holds more than its one slot. *)
Theorem worker_submits_one_at_a_time ops :
  let y := foldl sys_step system_new ops in
  let s := st (sh y) in
  (exists m, mon_run (mkMonitor false None None) (trace y) m /\ mo_flight m = if_token <$> inflight s /\
             (mo_stopped m = true -> lifecycle s <> Running)) /\
  (executing s = true -> inflight s = None) /\
  reserved s = zlen (permits y) /\ zlen (queued s) + reserved s <= QUEUED_JOB_CAPACITY.
Proof.
  intros y s. pose proof (run_ok ops : sys_ok y) as [[P1 P2 P3 P4] _ Hr Hc (stp & Hrun & M1 & _)].
  clearbody y. split_and!; [by eexists|intros E; apply P3; by rewrite <- P2|done|subst s; rewrite Hr; done].
Qed.

(** A permit is honoured. Whenever the compositor holds a permit and the
    worker still runs, the queue accepts any job that satisfies its contract;
    with a permit the queue is never full. *)
Theorem permits_are_honoured ops n key job :
  let y := foldl sys_step system_new ops in
  permits y !! n = Some key ->
  snd (enqueue key job (st (sh y))) <> Fail (Admission QueueFull) /\
  (lifecycle (st (sh y)) = Running -> validate_executable_contract job = Ret tt ->
   snd (enqueue key job (st (sh y))) = Ret tt).
Proof.
  intros y Hn. destruct (permit_slot y n key (run_ok ops) Hn) as (H1 & H2 & _).
  pose proof (enqueue_effect key job _ H1 H2) as He. clearbody y.
  split; [by destruct (enqueue key job (st (sh y))); destruct He as (_ & _ & _ & _ & ? & _)|].
  intros Hl Hv. unfold enqueue. rewrite Hv. cbn. rewrite Hl. cbn. rewrite H2. cbn. done.
Qed.
Lemma permits_are_honoured_witness :
  let y := foldl sys_step system_new [OCall (CReserve false)] in
  snd (enqueue None demo_job (st (sh y))) <> Fail (Admission QueueFull) /\
  (lifecycle (st (sh y)) = Running -> validate_executable_contract demo_job = Ret tt ->
   snd (enqueue None demo_job (st (sh y))) = Ret tt).
Proof. apply (permits_are_honoured [OCall (CReserve false)] 0 None demo_job). reflexivity. Defined.

(** ** Every job is somewhere *)

Fixpoint pc_tokens (pc : Pc) : list PageFlipToken :=
  match pc with
  | PDequeued x | PSleep x | PCollect x | PCollecting x | PFrozen x | PTestGate x | PTesting x _
  | PPreSubmit x | PSubmitPhase x | PSubmitGate x | PSubmitting x _ | PSubmitted x _ _ _ | PBusy x
  | PBusyWait x _ | PReject x _ _ | PRejectPublish x _ _ => [jb_token (ex_job x)]
  | PPublish e ok _ => event_tokens e ++ pc_tokens ok
  | PPublishAll es next => concat (map event_tokens es) ++ pc_tokens next
  | PInvalidate _ _ next | PMarkFatal _ _ next | PFatalEvent _ _ next | PRelease _ _ next => pc_tokens next
  | PFatalJobs jobs _ _ next | PQuiesce jobs next => job_tokens jobs ++ pc_tokens next
  | PRetain job _ next => jb_token job :: pc_tokens next
  | _ => []
  end.
(** A failed notification never makes jobs appear. *)
Fixpoint pc_keeps (pc : Pc) : Prop :=
  match pc with
  | PPublish _ ok failed => pc_tokens failed ⊆+ pc_tokens ok /\ pc_keeps ok /\ pc_keeps failed
  | PInvalidate _ _ next | PPublishAll _ next | PMarkFatal _ _ next | PFatalJobs _ _ _ next
  | PFatalEvent _ _ next | PRetain _ _ next | PQuiesce _ next | PRelease _ _ next => pc_keeps next
  | _ => True
  end.
Definition held (h : Shared) : list PageFlipToken :=
  job_tokens (queued (st h)) ++ concat (map event_tokens (results h)) ++ fatal_tokens (fatal_jobs h).
Definition located (y : System) : list PageFlipToken :=
  held (sh y) ++ pc_tokens (worker y) ++ pc_tokens (main y).

(** The histories of the dispatch models fit their buffers. *)
Record samples_fit (m : KmsWorkerDispatchModel) : Prop := {
  sf_wake : zlen (dm_wake_lateness_ns m) <= SAMPLE_CAPACITY;
  sf_pre : zlen (dm_pre_submit_ns m) <= SAMPLE_CAPACITY;
  sf_ioctl : zlen (dm_ioctl_duration_ns m) <= SAMPLE_CAPACITY;
  sf_dispatch : zlen (dm_dispatch_duration_ns m) <= SAMPLE_CAPACITY;
  sf_paired : zlen (dm_wake_plus_dispatch_ns m) <= SAMPLE_CAPACITY
}.
Definition models_fit (ms : KmsDispatchModels) : Prop :=
  samples_fit (dms_primary ms) /\ samples_fit (dms_cursor ms) /\ samples_fit (dms_direct ms).
Lemma tail_fits guard streak window anchor anchor_guard m :
  samples_fit m -> samples_fit (set_tail guard streak window anchor anchor_guard m).
Proof. by intros []. Qed.
Lemma age_fits now m : samples_fit m -> samples_fit (age_tail_guard now m).
Proof.
  intros H. unfold age_tail_guard. destruct (dm_age_window_ns m); [|done]. destruct (_ || _); [done|].
  by apply tail_fits.
Qed.
Lemma window_fits refresh m : samples_fit m -> samples_fit (set_cursor_recovery_window refresh m).
Proof. intros H. unfold set_cursor_recovery_window. destruct (negb _); [done|]. by apply tail_fits. Qed.
Lemma service_fits pre ioctl dispatch m : samples_fit m -> samples_fit (record_worker_service pre ioctl dispatch m).
Proof. intros []. split; cbn; try done; try by apply dispatch_push_len. case_match; [by apply dispatch_push_len|done]. Qed.
Lemma wake_fits lateness m : samples_fit m -> samples_fit (record_fixed_timed_wake lateness m).
Proof. intros []. split; cbn; try done. by apply dispatch_push_len. Qed.
Lemma deadline_fits deadline at_ns binding dequeued m :
  samples_fit m -> samples_fit (fst (observe_submission_deadline deadline at_ns binding dequeued m)).
Proof.
  intros H. unfold observe_submission_deadline. apply age_fits with (now := at_ns) in H.
  set (m1 := age_tail_guard at_ns m) in *. clearbody m1.
  destruct (dispatch_fairness _ _); [|done]. destruct (0 <? _); [by apply tail_fits|].
  destruct (_ <=? _); [|by apply tail_fits]. cbn [fst]. apply tail_fits.
  destruct (dm_fast_clean_recovery m1); [|done]. destruct H. split; cbn; by rewrite decay_len.
Qed.
Lemma budget_fits m : samples_fit m -> is_Some (budget m).
Proof.
  intros []. unfold budget.
  assert (Hr : forall l, zlen l <= SAMPLE_CAPACITY -> exists v, dispatch_rank l 95 = Some v).
  { intros l Hl. destruct (nearest_rank_Some l 95 ltac:(lia) Hl) as (v & E & _). by exists v. }
  destruct (Hr _ sf_wake0) as [? ->], (Hr _ sf_pre0) as [? ->], (Hr _ sf_ioctl0) as [? ->],
    (Hr _ sf_dispatch0) as [? ->]. cbn.
  destruct (Hr _ sf_paired0) as [? ->]. destruct (_ <=? _); by eexists.
Qed.
Lemma model_mut_fits class f ms :
  (forall m, samples_fit m -> samples_fit (f m)) -> models_fit ms -> models_fit (model_mut class f ms).
Proof. intros Hf (H1 & H2 & H3). destruct class; split_and!; cbn; auto. Qed.
Lemma model_fits class ms : models_fit ms -> samples_fit (model class ms).
Proof. intros (H1 & H2 & H3). by destruct class. Qed.
Lemma rebind_fits job now ms : models_fit ms -> models_fit (rebind_models job now ms).
Proof.
  intros H. unfold rebind_models. apply model_mut_fits; [by apply age_fits|].
  destruct (bool_decide _); [|done].
  assert (Hr : models_fit (rebind_cursor_timing_domain (jb_output_epoch job)
                  (fixed_submit_window (jb_presentation_timing job) ≫= sw_mode_key) ms)).
  { unfold rebind_cursor_timing_domain. destruct (_ || _); [|done]. destruct H as (? & ? & ?). by split_and!. }
  destruct (jb_reservation job); try done. apply model_mut_fits; [by apply window_fits|done].
Qed.
Lemma observe_fits x fence started returned ms :
  models_fit ms ->
  exists ms' o, observe_submission x fence started returned ms = Some (ms', o) /\ models_fit ms' /\
    jb_token (so_job o) = jb_token (ex_job x).
Proof.
  intros H. unfold observe_submission.
  set (m0 := model _ ms). assert (H0 : samples_fit m0) by (by apply model_fits). clearbody m0.
  set (m1 := match match jb_presentation_timing _ with TimingFixed _ => _ | _ => _ end with
             | Some l => record_fixed_timed_wake l m0 | None => m0 end).
  assert (H1 : samples_fit m1) by (unfold m1; case_match; [by apply wake_fits|done]). clearbody m1.
  set (m2 := record_worker_service _ _ _ m1). assert (H2 : samples_fit m2) by (by apply service_fits).
  clearbody m2.
  assert (Ht : jb_token (take_in_fence (ex_job x)) = jb_token (ex_job x))
    by (unfold take_in_fence; by destruct (jb_primary (ex_job x))).
  destruct (fixed_submit_window _) as [w|].
  - pose proof (deadline_fits (sw_commit_complete_deadline_ns w) returned
      (binding_target (take_in_fence (ex_job x))) (ex_dequeued_at x <=? ex_planned_wake x) m2 H2) as H3.
    destruct (observe_submission_deadline _ _ _ _ m2) as [m3 o]. cbn in H3.
    destruct (budget_fits m3 H3) as [b ->]. eexists _, _. split_and!; [done| |done].
    by apply model_mut_fits.
  - destruct (budget_fits m2 H2) as [b ->]. eexists _, _. split_and!; [done| |done].
    by apply model_mut_fits.
Qed.

(** From [l] to [l'] nothing appears, and nothing is lost if the thread was
    able to notify. *)
Definition flows (notified : bool) (l l' : list PageFlipToken) : Prop :=
  l' ⊆+ l /\ (notified = true -> l ≡ₚ l').
Lemma flows_perm notified l l' : l ≡ₚ l' -> flows notified l l'.
Proof. intros H. split; [by rewrite H|done]. Qed.
Lemma filter_split (f : KmsCommitJob -> bool) q :
  job_tokens q ≡ₚ job_tokens (List.filter f q) ++ job_tokens (List.filter (fun j => negb (f j)) q).
Proof.
  unfold job_tokens. induction q as [|j q IH]; [done|]. cbn. destruct (f j); cbn; rewrite IH; [done|].
  by rewrite Permutation_middle.
Qed.
Lemma invalidation_tokens established reason jobs :
  concat (map event_tokens (map (invalidation established reason) jobs)) = job_tokens jobs.
Proof. unfold job_tokens. induction jobs as [|j jobs IH]; cbn; [done|]. by rewrite IH. Qed.
Lemma fatal_map jobs u : fatal_tokens (map (fun j => mkFatalJob j u) jobs) = job_tokens jobs.
Proof. unfold fatal_tokens, job_tokens. by rewrite map_map. Qed.
Lemma collect_tokens job s s' job' returned :
  collect_cursor_sidecar_before_freeze job s = Some (s', job', returned) -> queued s' = queued s.
Proof.
  unfold collect_cursor_sidecar_before_freeze. destruct (negb _); [done|].
  destruct (claim_sidecar _ _) as [m [sc|]].
  - by destruct (sidecar_fits job sc); intros [= <- <- _].
  - destruct (primary_transaction_id _); [destruct (take_must_bundle_with _ _)|]; by intros [= <- <- _].
Qed.
Lemma phase_queued p s : queued (set_worker_phase p s) = queued s.
Proof. unfold set_worker_phase. cbn. destruct (executing_primary s); [by destruct p|done]. Qed.
Lemma job_tokens_app l1 l2 : job_tokens (l1 ++ l2) = job_tokens l1 ++ job_tokens l2.
Proof. apply map_app. Qed.
Lemma fatal_tokens_app l1 l2 : fatal_tokens (l1 ++ l2) = fatal_tokens l1 ++ fatal_tokens l2.
Proof. apply map_app. Qed.
Ltac flow :=
  apply flows_perm; unfold held, quiesced_event; cbn [with_st push_result push_fatal set_fatal_reason reply with_models
    st results fatal_jobs pc_tokens queued give_back release_then_give_back fail_release event_tokens];
  rewrite ?map_app, ?concat_app, ?job_tokens_app, ?fatal_tokens_app, ?fatal_map, ?phase_queued;
  cbn; rewrite ?app_nil_r; try solve_Permutation.
Lemma next_work_flows now h notified :
  let (h', pc') := take_next_work now h in
  pc_keeps pc' /\ models h' = models h /\ flows notified (held h) (held h' ++ pc_tokens pc').
Proof.
  unfold take_next_work. destruct (_ || _); [split_and!; [done|done|flow]|].
  destruct (is_quiescing (st h)); [split_and!; [done|done|flow]|].
  destruct (primary_geometry_probe (st h)) as [probe|].
  { destruct (probe_idle (st h)); split_and!; try done; flow. }
  destruct (inflight (st h)); [split_and!; [done|done|flow]|].
  destruct (queued (st h)) as [|job rest] eqn:Eq; [split_and!; [done|done|flow]|].
  destruct (validation_base_disposition _ _); split_and!; try done; flow; rewrite Eq; cbn; solve_Permutation.
Qed.
Lemma flip_wait_flows i c id token reported h notified :
  let (h', pc') := flip_wait_round i c id token reported h in
  pc_keeps pc' /\ models h' = models h /\ flows notified (held h) (held h' ++ pc_tokens pc').
Proof.
  unfold flip_wait_round.
  destruct (_ && _); [destruct (inflight (st h)); [destruct (_ =? _)|]; split_and!; try done; flow|].
  destruct (_ || _); [split_and!; try done; flow|].
  destruct (inflight (st h)); [|split_and!; try done; flow].
  destruct (_ && _); [destruct (_ =? _)|]; split_and!; try done; flow.
Qed.
Lemma thread_flows i pc h :
  pc_keeps pc -> models_fit (models h) ->
  let '(h', pc', _) := thread_step i pc h in
  pc_keeps pc' /\ models_fit (models h') /\
  flows (in_notified i) (held h ++ pc_tokens pc) (held h' ++ pc_tokens pc').
Proof.
  intros Hk Hm. destruct pc; cbn [thread_step fst snd]; cbn [pc_keeps] in Hk.
  - split_and!; try done; flow.
  - pose proof (next_work_flows (in_now i) h (in_notified i)) as H.
    destruct (take_next_work _ _) as [h' pc']. cbn. destruct H as (? & -> & ?). by rewrite app_nil_r.
  - destruct (_ && _); split_and!; try done; flow.
  - destruct (in_test i); split_and!; try done; flow.
  - split_and!; try done. flow. destruct (_ && _); cbn; solve_Permutation.
  - split_and!; cbn [with_models models]; [by destruct (ex_armed _)|by apply rebind_fits|].
    destruct (ex_armed _); flow.
  - destruct (is_quiescing _); [|destruct (_ <=? _)]; split_and!; try done; flow.
  - split_and!; try done; flow.
  - destruct (collect_cursor_sidecar_before_freeze _ _) as [[[s' job'] r]|] eqn:Ec.
    + pose proof (collect_tokens _ _ _ _ _ Ec) as Eq. apply collect_quiet in Ec as [_ Ec].
      destruct r; split_and!; try done; flow; rewrite Ec, Eq; solve_Permutation.
    + split_and!; try done; flow.
  - destruct (effective _); split_and!; try done; flow.
  - destruct (is_running _); split_and!; try done; flow.
  - destruct (in_test i); split_and!; try done; flow.
  - split_and!; try done; flow.
  - split_and!; try done; flow.
  - destruct (is_running _); split_and!; try done; flow.
  - destruct (in_submit i) as [fence|e|]; [|destruct (bool_decide _)|]; split_and!; try done; flow.
  - destruct (observe_fits x out_fence started returned0 (models h) Hm) as (ms & o & -> & Hms & Ht).
    split_and!; try done. flow. rewrite Ht. solve_Permutation.
  - pose proof (flip_wait_flows i candidate id token reported h (in_notified i)) as H.
    destruct (flip_wait_round _ _ _ _ _ _) as [h' pc']. cbn. destruct H as (? & -> & ?). by rewrite app_nil_r.
  - destruct (_ <=? _); split_and!; try done; flow.
  - destruct (is_quiescing _); [|destruct (_ <=? _)]; split_and!; try done; flow.
  - destruct (primary_transaction_id _); [destruct (take_must_bundle_with _ _) as [m [sc|]]|];
      split_and!; try done; try flow. cbn. split_and!; try done. apply submseteq_nil_l.
  - split_and!; try done; flow; by destruct k.
  - cbn. split_and!; try done. apply flows_perm. unfold held. cbn.
    rewrite invalidation_tokens, (filter_split (depends_on predecessor) (queued (st h))). solve_Permutation.
  - destruct events as [|e es]; [split_and!; try done; flow|].
    destruct (in_notified i) eqn:En; (split_and!; [done|done|]); [flow|].
    split; [|done]. unfold held. cbn. rewrite map_app, concat_app. cbn. rewrite app_nil_r. solve_submseteq.
  - destruct Hk as (H1 & H2 & H3). destruct (in_notified i) eqn:En; (split_and!; [done|done|]); [flow|].
    split; [|done]. transitivity (held (push_result event h) ++ pc_tokens pc1); [by apply submseteq_app|].
    unfold held. cbn. rewrite map_app, concat_app. cbn. rewrite app_nil_r. solve_submseteq.
  - destruct (bool_decide _); [split_and!; try done; flow|].
    destruct (primary_geometry_probe (st h)); split_and!; try done; flow.
  - split_and!; try done; flow.
  - split_and!; try done; flow.
  - split_and!; try done; flow.
  - split_and!; try done; flow.
  - split_and!; try done; flow.
Qed.
Record call_conserves (y y' : System) (new : list PageFlipToken) : Prop := {
  cc_accepted : accepted y' = accepted y ++ new;
  cc_tokens : (returned y ++ located y) ++ new ≡ₚ returned y' ++ located y';
  cc_worker : worker y' = worker y;
  cc_main : pc_keeps (main y');
  cc_models : models (sh y') = models (sh y)
}.
Ltac settle :=
  split; cbn; rewrite ?app_nil_r; try done; unfold located, held; cbn;
  rewrite ?app_nil_r; try done; try solve_Permutation.
(** A call that only changes parts of the state that hold no job. *)
Lemma call_idle f y :
  main y = PExit -> queued (f (st (sh y))) = queued (st (sh y)) -> call_conserves y (on_state f y) [].
Proof. intros Hm Hq. settle; [by rewrite Hq|by rewrite Hm]. Qed.
Lemma remove_first_tokens accept q j q' :
  remove_first accept q = Some (j, q') -> job_tokens q ≡ₚ jb_token j :: job_tokens q'.
Proof.
  revert j q'. induction q as [|x q IH]; intros j q'; cbn; [done|]. destruct (accept x).
  - by intros [= <- <-].
  - destruct (remove_first accept q) as [[y r]|]; [|done]. intros [= <- <-].
    rewrite (IH _ _ eq_refl). cbn. apply Permutation_swap.
Qed.
Lemma enqueue_queued key job s :
  queued (fst (enqueue key job s)) = queued s ++ (if is_Ret (snd (enqueue key job s)) then [job] else []).
Proof.
  unfold enqueue. destruct (validate_executable_contract job); cbn; rewrite ?app_nil_r; try done.
  destruct (admission_refusal _); cbn; rewrite ?app_nil_r; [done|].
  destruct (_ <=? _); cbn; rewrite ?app_nil_r; [done|].
  by destruct (established_base s), (jb_validation_base job).
Qed.
Lemma head_tail_tokens q : job_tokens q = opt_tokens (head q) ++ job_tokens (tail q).
Proof. by destruct q. Qed.
Lemma call_flows c y : main y = PExit -> exists new, call_conserves y (call_step c y) new.
Proof.
  intros Hm. assert (H0 : call_conserves y y []) by (settle; by rewrite Hm).
  pose proof (call_idle (fun _ => st (sh y)) y Hm eq_refl) as H1.
  destruct c; cbn [call_step].
  - exists []. unfold try_reserve. destruct contended; [done|]. destruct (admission_refusal _); [done|].
    destruct (_ <=? _); [done|]. settle. by rewrite Hm.
  - exists []. unfold try_reserve_direct. destruct contended; [done|]. destruct (admission_refusal _); [done|].
    destruct (owns_direct_key _ _); [done|]. destruct (_ <=? _); [done|]. settle. by rewrite Hm.
  - destruct (permits y !! permit) as [key|]; [|by exists []].
    pose proof (enqueue_queued key job (st (sh y))) as E. destruct (enqueue _ _ _) as [s r]. cbn in E.
    destruct (is_Ret r); [exists [jb_token job]|exists []]; settle; try by rewrite Hm.
    + rewrite E, job_tokens_app. cbn. solve_Permutation.
    + rewrite app_nil_r in E. by rewrite E.
  - exists []. destruct (permits y !! permit) as [key|]; [|done]. settle. by rewrite Hm.
  - exists []. unfold cancel_queued_primary. destruct (remove_first _ _) as [[j q]|] eqn:Eq.
    + apply remove_first_tokens in Eq. settle; [|by rewrite Hm]. rewrite Eq. solve_Permutation.
    + by destruct (existsb _ _).
  - exists []. apply call_idle; [done|]. unfold offer_cursor_sidecar. destruct contended; [done|].
    by destruct (admission_refusal _).
  - exists []. by apply call_idle.
  - exists []. apply call_idle; [done|]. unfold take_due_independent_cursor_sidecar.
    by destruct (take_independent_due _ _ _ _).
  - exists []. apply call_idle; [done|]. unfold set_established_presented_base_for_output.
    by destruct (queued (st (sh y))) eqn:E.
  - exists []. settle. rewrite Hm. cbn. by rewrite app_nil_r.
  - exists []. pose proof (ack_effect identity id (st (sh y))) as H.
    destruct (ack_pageflip_identity _ _ _) as [s' [sidecar| | |]]; try done.
    + destruct H as (_ & _ & Eq & _). destruct sidecar; settle; rewrite ?Eq, ?Hm; cbn; rewrite ?app_nil_r; done.
    + settle. rewrite Hm. cbn. by rewrite app_nil_r.
  - exists []. apply call_idle; [done|]. unfold queue_primary_geometry_test_if_idle.
    destruct (_ || _); [done|]. by destruct (_ || _).
  - exists []. change (on_state request_quiesce y) with (on_state (fun _ => request_quiesce (st (sh y))) y).
    unfold request_quiesce. destruct (is_running (st (sh y))); settle; by rewrite Hm.
  - exists []. unfold begin_shutdown_quiesce. pose proof (head_tail_tokens (queued (st (sh y)))) as Eq.
    destruct (lifecycle (st (sh y))); try done; settle; try (by rewrite Hm); rewrite Eq; solve_Permutation.
  - exists []. unfold force_shutdown_abandon. pose proof (head_tail_tokens (queued (st (sh y)))) as Eq.
    destruct (lifecycle (st (sh y))); try done; cbn; try (settle; by rewrite Hm).
    + destruct (bool_decide _); settle; try (by rewrite Hm); rewrite Eq; solve_Permutation.
    + settle; try (by rewrite Hm); rewrite Eq; solve_Permutation.
  - exists []. settle. rewrite Hm. cbn. by rewrite app_nil_r.
  - exists []. settle. by rewrite Hm.
  - exists []. settle. by rewrite Hm.
Qed.

Definition op_notified (op : SysOp) : Prop :=
  match op with OWorker i | OMain i => in_notified i = true | OCall _ => True end.
Record sys_holds (y : System) : Prop := {
  sh_worker : pc_keeps (worker y);
  sh_main : pc_keeps (main y);
  sh_models : models_fit (models (sh y))
}.
Lemma step_holds y op :
  sys_holds y ->
  sys_holds (sys_step y op) /\
  (returned y ++ located y ⊆+ accepted y ->
   returned (sys_step y op) ++ located (sys_step y op) ⊆+ accepted (sys_step y op)) /\
  (op_notified op -> accepted y ≡ₚ returned y ++ located y ->
   accepted (sys_step y op) ≡ₚ returned (sys_step y op) ++ located (sys_step y op)).
Proof.
  intros Hy. pose proof Hy as [Hw Hm Hf]. destruct op as [i|i|c]; cbn [sys_step op_notified].
  - pose proof (thread_flows i (worker y) (sh y) Hw Hf) as H.
    destruct (thread_step i (worker y) (sh y)) as [[h pc] e]. destruct H as (H1 & H2 & H3 & H4).
    split_and!; [by constructor|..]; unfold located; cbn; rewrite !(app_assoc (held _)).
    + intros E. etrans; [|exact E]. apply submseteq_app; [done|]. by apply submseteq_app.
    + intros En E. by rewrite E, (H4 En).
  - pose proof (thread_flows i (main y) (sh y) Hm Hf) as H.
    destruct (thread_step i (main y) (sh y)) as [[h pc] e]. destruct H as (H1 & H2 & H3 & H4).
    split_and!; [by constructor|..]; unfold located; cbn;
      rewrite (Permutation_app_comm (pc_tokens (worker y)) (pc_tokens pc)),
        (Permutation_app_comm (pc_tokens (worker y)) (pc_tokens (main y))), !(app_assoc (held _)).
    + intros E. etrans; [|exact E]. apply submseteq_app; [done|]. by apply submseteq_app.
    + intros En E. by rewrite E, (H4 En).
  - destruct (main y) eqn:Em; try by split_and!. destruct (takes_gate c && _); [by split_and!|].
    destruct (call_flows c y Em) as (new & [E1 E2 E3 E4 E5]). split_and!.
    + split; [by rewrite E3|done|by rewrite E5].
    + intros H. rewrite E1, <- E2. by apply submseteq_app.
    + intros _ H. by rewrite E1, <- E2, H.
Qed.

(** C7: no job is lost or duplicated. However the threads interleave, every
    job the queue has accepted is, under its token, in at most one of the
    places it can be: queued, in the hands of a thread, in an event not yet
    drained, among the fatal jobs, or given back to the compositor; and as
    long as the notifications of the worker succeed it is in exactly one. *)
Theorem jobs_are_conserved ops :
  let y := foldl sys_step system_new ops in
  returned y ++ located y ⊆+ accepted y /\
  (Forall op_notified ops -> accepted y ≡ₚ returned y ++ located y).
Proof.
  assert (H : forall y, sys_holds y ->
    (returned y ++ located y ⊆+ accepted y ->
     returned (foldl sys_step y ops) ++ located (foldl sys_step y ops) ⊆+ accepted (foldl sys_step y ops)) /\
    (Forall op_notified ops -> accepted y ≡ₚ returned y ++ located y ->
     accepted (foldl sys_step y ops) ≡ₚ returned (foldl sys_step y ops) ++ located (foldl sys_step y ops))).
  { induction ops as [|op ops IH]; intros y Hy; [done|]. cbn.
    destruct (step_holds y op Hy) as (H1 & H2 & H3). destruct (IH _ H1) as [I1 I2].
    split; [by auto|]. intros Hn. inversion_clear Hn. auto. }
  destruct (H system_new) as [H1 H2].
  { by split. }
  split; [by apply H1|]. intros Hn. by apply H2.
Qed.

(** ** A job that a failed notification loses *)

Definition demo_input (notified : bool) (r : outcome (option Z)) : Input :=
  mkInput 1000 notified false false (Done tt) r.
Definition lossy_run : list SysOp :=
  [OCall (CReserve false); OCall (CEnqueue 0 demo_job)]
  ++ repeat (OWorker (demo_input true (Refused IoError))) 7
  ++ [OCall (COffer false demo_sidecar)]
  ++ repeat (OWorker (demo_input true (Refused IoError))) 2
  ++ repeat (OWorker (demo_input false (Refused IoError))) 7.

(** A rejected commit is lost when the sidecar bound to it cannot be
    announced. The kernel refuses a commit, a sidecar that must be bundled
    with it has arrived after the freeze, and the notification of its return
    fails: the worker stops with the job in no queue, no event and no list of
    fatal jobs, although the compositor never got it back. *)
Theorem failed_return_loses_job :
  let y := foldl sys_step system_new lossy_run in
  accepted y = [70] /\ returned y = [] /\ located y = [] /\ worker y = PExit /\
  lifecycle (st (sh y)) = Fatal.
Proof. vm_compute. split_and!; reflexivity. Qed.

(** A commit that goes through: it is submitted, its flip is acknowledged,
    and the event that carries it is waiting to be drained. *)
Example demo_commit_completes :
  let y := foldl sys_step system_new
    ([OCall (CReserve false); OCall (CEnqueue 0 demo_job)]
     ++ repeat (OWorker (demo_input true (Done (Some 5)))) 11
     ++ [OCall (CAck (identity demo_job) 7)] ++ repeat (OWorker (demo_input true (Done None))) 2) in
  trace y = [KStart 70; KSubmitted 70; KAck 70] /\ worker y = PTop /\ located y = [70] /\
  lifecycle (st (sh y)) = Running /\ inflight (st (sh y)) = None.
Proof. vm_compute. split_and!; reflexivity. Qed.
