(* ===== verification/Swapchain.v ===== *)
(** * Swapchain: the buffers of one output and who owns them

    Models src/native_output/scanout/output_swapchain.rs and the ownership of
    fence descriptors in src/egl_renderer/native_fence.rs: an output has three
    buffers (slots); one is on the screen, the others are rendered into, wait
    as READY, are queued for the submit worker, are submitted to the kernel,
    are quarantined after a failure or are held while the session is
    suspended. A file descriptor is a number; what polling it answers is a
    parameter. Of a rendered frame the fields the swapchain reads are
    modelled; scene commits, damage and telemetry travel with it unread. *)

From stdpp Require Import base list option sets sorting.
From Stdlib Require Import ZArith Lia.
From S2P Require Import Prelude Buffering Deadline Scheduler Pipeline RenderJournal.
From S2P Require Import PresentationModes OutputTransaction KmsTiming AtomicCommit KmsPayload.

(** ** Fences *)

Definition Fd : Type := Z.
Record NativeRenderFence : Type := mkFence { submission_fd : option Fd; timing_fd : option Fd }.
#[export] Instance NativeRenderFence_eq_dec : EqDecision NativeRenderFence.
Proof. solve_decision. Defined.

(** What the operations refuse, by the message they refuse it with. *)
Inductive SwapError : Type :=
| SlotIdsNotUnique | NoPresentedSlot | CurrentOutsidePool
| FenceConsumed | FenceOwned | FenceMissing | NoReadinessFd | PollFailure
| AlreadyRendering | AlreadyReady | LimitReached | NoFreeSlot
| ExternalIdMismatch | FrameIdOverflow | CancelMismatch | CompleteMismatch | FinishMismatch
| FrameIdentityMismatch | ForeignOutput | ReservationChanged | DomainMismatch
| AlreadyPending | AlreadyWorkerQueued | NoReadyFrame | WorkerFrameMismatch | WorkerAliases
| PromoteWhilePending | SuccessWithoutQueued | SuccessTokenMismatch | SuccessOldGeneration
| ReplanQuarantined | ReplanReadyOccupied | ReplanNoOwner | ReplanTokenMismatch
| ReplanIdentityMismatch | ReplanOldGeneration | ReplanOwnsCursor | ReplanNoFence | ReplanSuspended
| FailureWithoutQueued | FailureTokenMismatch | CommitInFlight | SubmittedMismatch
| AlreadyQuarantined | SlotSuspended | NoRenderingSlot | SuspendTokenMismatch
| FenceWithoutQueued | FenceTokenMismatch | SuspendCapacity | NoCompletionProof
| RebindWhileOwned | QuarantineNotRecoverable | SuspendedNotSignaled | SuspendedNotRetired
| PoisonedPageflip | StaleGeneration | NoPendingFrame | PageflipTokenMismatch | SerialOverflow
| ClaimOvertakes | ClaimViolation | DeferredNotBound | OldPresentationGeneration
| LaterVariableNotOrdered | LaterOpportunityNotOrdered | LaterClaimNotOrdered
| ClaimOtherClock | ClaimNotTarget | Quarantined | SuspendOwned | SuspendBlocked
| ReplaceNoReady | ReplaceIdentity | ReplaceNotEarlier | ReplacePhysicalChanged | ReplaceWindow
| VariableTimingInactive | VariableInactive | FixedUseOfDeferred
| DeferredStale | DeferredChanged | SuccessorOverflow | FeasibleOverflow
| DeferredNotReady | DeferredPhysicalChanged | DeferredAlreadyBound.
Abbreviation io := (res SwapError).

Definition require (b : bool) (e : SwapError) : io unit := if b then Ret tt else Fail e.
(** An operation that leaves the state alone when it fails. *)
Definition atomically {S A} (m : io (S * A)) (s : S) : S * io A :=
  match m with
  | Ret (s', a) => (s', Ret a)
  | Fail e => (s, Fail e)
  | Panic => (s, Panic)
  | NoFuel => (s, NoFuel)
  end.

Definition take_submission_fd (f : NativeRenderFence) : io (NativeRenderFence * Fd) :=
  match submission_fd f with
  | Some fd => Ret (mkFence None (timing_fd f), fd)
  | None => Fail FenceConsumed
  end.
(** The descriptor moves out of the caller's option; it stays there on error. *)
Definition restore_submission_fd (fd : option Fd) (f : NativeRenderFence) : io NativeRenderFence :=
  match submission_fd f, fd with
  | Some _, _ => Fail FenceOwned
  | None, None => Fail FenceMissing
  | None, Some fd => Ret (mkFence (Some fd) (timing_fd f))
  end.
Definition readiness_fd (f : NativeRenderFence) : option Fd :=
  match timing_fd f with Some fd => Some fd | None => submission_fd f end.
Definition take_timing_fd (f : NativeRenderFence) : NativeRenderFence * option Fd :=
  (mkFence (submission_fd f) None, timing_fd f).

(** What the kernel answers when a descriptor is polled: for completion and
    for readiness ([None] is an error). *)
Class FdPoll : Type := { poll_completion : Fd -> option bool; poll_readiness : Fd -> option bool }.
Definition poll_completion_fd `{FdPoll} (fd : Fd) : io bool := ok_or PollFailure (poll_completion fd).
Definition is_signaled_nonblocking `{FdPoll} (f : NativeRenderFence) : io bool :=
  match readiness_fd f with
  | None => Fail NoReadinessFd
  | Some fd => ok_or PollFailure (poll_readiness fd)
  end.

(** ** Slots and frames *)

Definition OutputSlotId : Type := Z.
Definition EXPLICIT_OUTPUT_SLOT_CAPACITY : Z := 3.
Definition SUSPENDED_OUTPUT_SLOT_CAPACITY : nat := 2.
Definition OutputSlotId_new (value : Z) : option OutputSlotId :=
  if value <? EXPLICIT_OUTPUT_SLOT_CAPACITY then Some value else None.
Record OutputSlotSet : Type := mkSlots { slot_a : OutputSlotId; slot_b : OutputSlotId; slot_c : OutputSlotId }.
Definition OutputSlotSet_new (a b c : OutputSlotId) : io OutputSlotSet :=
  if (a =? b) || (a =? c) || (b =? c) then Fail SlotIdsNotUnique else Ret (mkSlots a b c).
Definition set_contains (slot : OutputSlotId) (s : OutputSlotSet) : bool :=
  (slot_a s =? slot) || (slot_b s =? slot) || (slot_c s =? slot).
Definition set_iter (s : OutputSlotSet) : list OutputSlotId := [slot_a s; slot_b s; slot_c s].

Record FrozenCursorPlaneOwner : Type := mkCursorPlane {
  cp_revision : CursorRevision; cp_client_source_key : option Z; cp_capability_key : option Z;
  cp_pin : option Z
}.
(** The fields the swapchain reads or moves. *)
Record RenderedOutputFrame : Type := mkFrame {
  fr_output_id : Z;
  fr_id : Z;
  fr_transaction_id : OutputTransactionId;
  fr_slot : OutputSlotId;
  fr_framebuffer_id : Z;
  fr_render_generation : Z;
  fr_pool_generation : Z;
  fr_reservation : FramePresentationReservation;
  fr_presentation_timing : KmsPresentationTiming;
  fr_render_fence : NativeRenderFence;
  fr_protocol_batch_id : Z;
  fr_deferred_o1_binding_timing : option DeferredO1BindingTimingEvidence;
  fr_frozen_cursor_plane_owner : option FrozenCursorPlaneOwner
}.
Definition set_fence (f : NativeRenderFence) (r : RenderedOutputFrame) : RenderedOutputFrame :=
  mkFrame (fr_output_id r) (fr_id r) (fr_transaction_id r) (fr_slot r) (fr_framebuffer_id r)
    (fr_render_generation r) (fr_pool_generation r) (fr_reservation r) (fr_presentation_timing r) f
    (fr_protocol_batch_id r) (fr_deferred_o1_binding_timing r) (fr_frozen_cursor_plane_owner r).
Definition set_cursor_owner (o : option FrozenCursorPlaneOwner) (r : RenderedOutputFrame)
  : RenderedOutputFrame :=
  mkFrame (fr_output_id r) (fr_id r) (fr_transaction_id r) (fr_slot r) (fr_framebuffer_id r)
    (fr_render_generation r) (fr_pool_generation r) (fr_reservation r) (fr_presentation_timing r)
    (fr_render_fence r) (fr_protocol_batch_id r) (fr_deferred_o1_binding_timing r) o.
Definition set_target (t : PresentationTarget) (w : KmsSubmitWindow) (r : RenderedOutputFrame)
  : RenderedOutputFrame :=
  mkFrame (fr_output_id r) (fr_id r) (fr_transaction_id r) (fr_slot r) (fr_framebuffer_id r)
    (fr_render_generation r) (fr_pool_generation r) (Fixed t) (TimingFixed w)
    (fr_render_fence r) (fr_protocol_batch_id r) (fr_deferred_o1_binding_timing r)
    (fr_frozen_cursor_plane_owner r).
Definition set_binding_timing (e : DeferredO1BindingTimingEvidence) (r : RenderedOutputFrame)
  : RenderedOutputFrame :=
  mkFrame (fr_output_id r) (fr_id r) (fr_transaction_id r) (fr_slot r) (fr_framebuffer_id r)
    (fr_render_generation r) (fr_pool_generation r) (fr_reservation r) (fr_presentation_timing r)
    (fr_render_fence r) (fr_protocol_batch_id r) (Some e) (fr_frozen_cursor_plane_owner r).

Definition require_fixed_target (r : FramePresentationReservation) : io PresentationTarget :=
  match r with
  | Fixed target => Ret target
  | Variable_ _ => Fail VariableInactive
  | DeferredO1 _ => Fail FixedUseOfDeferred
  end.
Definition require_fixed_submit_window (f : RenderedOutputFrame) : io KmsSubmitWindow :=
  ok_or VariableTimingInactive (fixed_submit_window (fr_presentation_timing f)).
Definition validate_presentation_domain (f : RenderedOutputFrame) : io unit :=
  match fr_reservation f, fr_presentation_timing f with
  | Fixed _, TimingFixed _ | DeferredO1 _, TimingFixed _ | Variable_ _, TimingVariable _ => Ret tt
  | _, _ => Fail DomainMismatch
  end.

Record SubmittedOutputFrame : Type := mkSubmitted {
  sb_frame : RenderedOutputFrame;
  sb_token : PageFlipToken;
  sb_worker_queued_at : option MonotonicTimestampNs;
  sb_submit_started_at : MonotonicTimestampNs;
  sb_submit_returned_at : MonotonicTimestampNs;
  sb_out_fence : option Fd
}.
Record WorkerQueuedOutputFrame : Type := mkQueued {
  wq_frame : RenderedOutputFrame; wq_token : PageFlipToken; wq_queued_at : MonotonicTimestampNs
}.
Record OutputFrameIdentitySnapshot : Type := mkIdentity {
  of_output_id : Z; of_frame_id : Z; of_protocol_batch_id : Z; of_transaction_id : OutputTransactionId;
  of_slot : OutputSlotId; of_framebuffer_id : Z; of_render_generation : Z; of_pool_generation : Z;
  of_reservation : FramePresentationReservation
}.
#[export] Instance OutputFrameIdentitySnapshot_eq_dec : EqDecision OutputFrameIdentitySnapshot.
Proof. solve_decision. Defined.
Definition frame_identity (f : RenderedOutputFrame) : OutputFrameIdentitySnapshot :=
  mkIdentity (fr_output_id f) (fr_id f) (fr_protocol_batch_id f) (fr_transaction_id f) (fr_slot f)
    (fr_framebuffer_id f) (fr_render_generation f) (fr_pool_generation f) (fr_reservation f).
(** The identity without the reservation, which may change. *)
Record OutputFrameKey : Type := mkFrameKey {
  fk_output_id : Z; fk_frame_id : Z; fk_protocol_batch_id : Z; fk_transaction_id : OutputTransactionId;
  fk_slot : OutputSlotId; fk_framebuffer_id : Z; fk_render_generation : Z; fk_pool_generation : Z
}.
#[export] Instance OutputFrameKey_eq_dec : EqDecision OutputFrameKey.
Proof. solve_decision. Defined.
Definition key_of_identity (i : OutputFrameIdentitySnapshot) : OutputFrameKey :=
  mkFrameKey (of_output_id i) (of_frame_id i) (of_protocol_batch_id i) (of_transaction_id i) (of_slot i)
    (of_framebuffer_id i) (of_render_generation i) (of_pool_generation i).
Definition key_of_frame (f : RenderedOutputFrame) : OutputFrameKey := key_of_identity (frame_identity f).

Inductive OutputQuarantineReason : Type :=
  PostDrawRenderFailure | RenderFenceExportFailure | AtomicSubmitFailure.
Record QuarantinedOutputSlot : Type := mkQuarantined {
  qu_slot : OutputSlotId; qu_pool_generation : Z; qu_timing_fence : option Fd;
  qu_reason : OutputQuarantineReason; qu_abandoned_frame : option RenderedOutputFrame
}.
Record SuspendedOutputSlot : Type := mkSuspended {
  su_slot : OutputSlotId; su_pool_generation : Z; su_timing_fence : option Fd;
  su_abandoned_frame : option RenderedOutputFrame
}.
Record AtomicOutputSwapchain : Type := mkSwapchain {
  sc_output_id : Z;
  sc_slots : OutputSlotSet;
  sc_pool_generation : Z;
  sc_current : OutputSlotId;
  sc_worker_queued : option WorkerQueuedOutputFrame;
  sc_pending : option SubmittedOutputFrame;
  sc_ready : option RenderedOutputFrame;
  sc_rendering : option OutputSlotId;
  sc_rendering_reservation : option FramePresentationReservation;
  sc_quarantine : option QuarantinedOutputSlot;
  sc_suspended : list (option SuspendedOutputSlot);
  sc_next_frame_id : Z;
  sc_presentation_serial : Z;
  sc_current_framebuffer_id : option Z;
  sc_last_presented_primary_claim : option PrimaryRefreshClaim;
  sc_last_presented_primary_anchor : option (O1PredecessorAnchor * PrimaryRefreshClaim);
  sc_last_completed_primary_anchor : option O1PredecessorAnchor
}.

Definition set_queued_frame (q : option WorkerQueuedOutputFrame) (s : AtomicOutputSwapchain)
  : AtomicOutputSwapchain :=
  mkSwapchain (sc_output_id s) (sc_slots s) (sc_pool_generation s) (sc_current s) q (sc_pending s)
    (sc_ready s) (sc_rendering s) (sc_rendering_reservation s) (sc_quarantine s) (sc_suspended s)
    (sc_next_frame_id s) (sc_presentation_serial s) (sc_current_framebuffer_id s)
    (sc_last_presented_primary_claim s) (sc_last_presented_primary_anchor s)
    (sc_last_completed_primary_anchor s).
Definition set_pending_frame (p : option SubmittedOutputFrame) (s : AtomicOutputSwapchain)
  : AtomicOutputSwapchain :=
  mkSwapchain (sc_output_id s) (sc_slots s) (sc_pool_generation s) (sc_current s) (sc_worker_queued s) p
    (sc_ready s) (sc_rendering s) (sc_rendering_reservation s) (sc_quarantine s) (sc_suspended s)
    (sc_next_frame_id s) (sc_presentation_serial s) (sc_current_framebuffer_id s)
    (sc_last_presented_primary_claim s) (sc_last_presented_primary_anchor s)
    (sc_last_completed_primary_anchor s).
Definition set_ready_frame (r : option RenderedOutputFrame) (s : AtomicOutputSwapchain)
  : AtomicOutputSwapchain :=
  mkSwapchain (sc_output_id s) (sc_slots s) (sc_pool_generation s) (sc_current s) (sc_worker_queued s)
    (sc_pending s) r (sc_rendering s) (sc_rendering_reservation s) (sc_quarantine s) (sc_suspended s)
    (sc_next_frame_id s) (sc_presentation_serial s) (sc_current_framebuffer_id s)
    (sc_last_presented_primary_claim s) (sc_last_presented_primary_anchor s)
    (sc_last_completed_primary_anchor s).
Definition set_rendering (slot : option OutputSlotId) (r : option FramePresentationReservation)
  (s : AtomicOutputSwapchain) : AtomicOutputSwapchain :=
  mkSwapchain (sc_output_id s) (sc_slots s) (sc_pool_generation s) (sc_current s) (sc_worker_queued s)
    (sc_pending s) (sc_ready s) slot r (sc_quarantine s) (sc_suspended s)
    (sc_next_frame_id s) (sc_presentation_serial s) (sc_current_framebuffer_id s)
    (sc_last_presented_primary_claim s) (sc_last_presented_primary_anchor s)
    (sc_last_completed_primary_anchor s).
Definition set_quarantine (q : option QuarantinedOutputSlot) (s : AtomicOutputSwapchain)
  : AtomicOutputSwapchain :=
  mkSwapchain (sc_output_id s) (sc_slots s) (sc_pool_generation s) (sc_current s) (sc_worker_queued s)
    (sc_pending s) (sc_ready s) (sc_rendering s) (sc_rendering_reservation s) q (sc_suspended s)
    (sc_next_frame_id s) (sc_presentation_serial s) (sc_current_framebuffer_id s)
    (sc_last_presented_primary_claim s) (sc_last_presented_primary_anchor s)
    (sc_last_completed_primary_anchor s).
Definition set_suspended (l : list (option SuspendedOutputSlot)) (s : AtomicOutputSwapchain)
  : AtomicOutputSwapchain :=
  mkSwapchain (sc_output_id s) (sc_slots s) (sc_pool_generation s) (sc_current s) (sc_worker_queued s)
    (sc_pending s) (sc_ready s) (sc_rendering s) (sc_rendering_reservation s) (sc_quarantine s) l
    (sc_next_frame_id s) (sc_presentation_serial s) (sc_current_framebuffer_id s)
    (sc_last_presented_primary_claim s) (sc_last_presented_primary_anchor s)
    (sc_last_completed_primary_anchor s).
Definition set_next_frame_id (n : Z) (s : AtomicOutputSwapchain) : AtomicOutputSwapchain :=
  mkSwapchain (sc_output_id s) (sc_slots s) (sc_pool_generation s) (sc_current s) (sc_worker_queued s)
    (sc_pending s) (sc_ready s) (sc_rendering s) (sc_rendering_reservation s) (sc_quarantine s)
    (sc_suspended s) n (sc_presentation_serial s) (sc_current_framebuffer_id s)
    (sc_last_presented_primary_claim s) (sc_last_presented_primary_anchor s)
    (sc_last_completed_primary_anchor s).
Definition set_presented (slot : OutputSlotId) (framebuffer : option Z) (serial : Z)
  (completed : option O1PredecessorAnchor) (s : AtomicOutputSwapchain) : AtomicOutputSwapchain :=
  mkSwapchain (sc_output_id s) (sc_slots s) (sc_pool_generation s) slot (sc_worker_queued s)
    (sc_pending s) (sc_ready s) (sc_rendering s) (sc_rendering_reservation s) (sc_quarantine s)
    (sc_suspended s) (sc_next_frame_id s) serial framebuffer (sc_last_presented_primary_claim s)
    (sc_last_presented_primary_anchor s) completed.
Definition set_claims (generation : Z) (claim : option PrimaryRefreshClaim)
  (anchor : option (O1PredecessorAnchor * PrimaryRefreshClaim)) (s : AtomicOutputSwapchain)
  : AtomicOutputSwapchain :=
  mkSwapchain (sc_output_id s) (sc_slots s) generation (sc_current s) (sc_worker_queued s)
    (sc_pending s) (sc_ready s) (sc_rendering s) (sc_rendering_reservation s) (sc_quarantine s)
    (sc_suspended s) (sc_next_frame_id s) (sc_presentation_serial s) (sc_current_framebuffer_id s)
    claim anchor None.

Definition from_presented_slots_for_output (output_id : Z) (slots : OutputSlotSet)
  (current : OutputSlotId) (pool_generation : Z) : io AtomicOutputSwapchain :=
  if negb (set_contains current slots) then Fail CurrentOutsidePool
  else
    Ret (mkSwapchain output_id slots pool_generation current None None None None None None
           (replicate SUSPENDED_OUTPUT_SLOT_CAPACITY None) 1 0 None None None None).

(** ** Ownership *)

Definition pending_slot (s : AtomicOutputSwapchain) : option OutputSlotId :=
  (fun p => fr_slot (sb_frame p)) <$> sc_pending s.
Definition worker_queued_slot (s : AtomicOutputSwapchain) : option OutputSlotId :=
  (fun q => fr_slot (wq_frame q)) <$> sc_worker_queued s.
Definition ready_slot (s : AtomicOutputSwapchain) : option OutputSlotId := fr_slot <$> sc_ready s.
Definition quarantine_slot_id (s : AtomicOutputSwapchain) : option OutputSlotId :=
  qu_slot <$> sc_quarantine s.
Definition live_suspended (s : AtomicOutputSwapchain) : list SuspendedOutputSlot :=
  omap (fun o => o) (sc_suspended s).
Definition suspended_slot_id (slot : OutputSlotId) (s : AtomicOutputSwapchain) : option OutputSlotId :=
  su_slot <$> find (fun e => su_slot e =? slot) (live_suspended s).
Definition has_suspended_ownership (s : AtomicOutputSwapchain) : bool :=
  existsb (fun o => bool_decide (is_Some o)) (sc_suspended s).
Definition slot_is_free (slot : OutputSlotId) (s : AtomicOutputSwapchain) : bool :=
  negb (slot =? sc_current s)
  && negb (bool_decide (worker_queued_slot s = Some slot))
  && negb (bool_decide (pending_slot s = Some slot))
  && negb (bool_decide (ready_slot s = Some slot))
  && negb (bool_decide (sc_rendering s = Some slot))
  && negb (bool_decide (quarantine_slot_id s = Some slot))
  && bool_decide (suspended_slot_id slot s = None).
Definition free_slot_count (s : AtomicOutputSwapchain) : Z :=
  zlen (List.filter (fun slot => slot_is_free slot s) (set_iter (sc_slots s))).
Inductive OutputSlotProtection : Type := ScanoutPinned | FixedPoolReusable | SynchronizationPinned.
Definition residency_protection (slot : OutputSlotId) (s : AtomicOutputSwapchain) : OutputSlotProtection :=
  if slot =? sc_current s then ScanoutPinned
  else if slot_is_free slot s then FixedPoolReusable
  else SynchronizationPinned.
Definition ensure_operational (s : AtomicOutputSwapchain) : io unit :=
  if bool_decide (is_Some (sc_quarantine s)) then Fail Quarantined
  else if has_suspended_ownership s then Fail SuspendOwned else Ret tt.
Definition ensure_suspendable (s : AtomicOutputSwapchain) : io unit :=
  if bool_decide (is_Some (sc_quarantine s)) then Fail SuspendBlocked else Ret tt.
Fixpoint first_empty (l : list (option SuspendedOutputSlot)) : option nat :=
  match l with
  | [] => None
  | None :: _ => Some 0%nat
  | Some _ :: l => S <$> first_empty l
  end.
Definition empty_suspended_slot_index (s : AtomicOutputSwapchain) : io nat :=
  ok_or SuspendCapacity (first_empty (sc_suspended s)).

(** ** Order of claims *)

Definition is_strictly_later_opportunity (earlier later : PresentationOpportunityId) : bool :=
  (clock_generation earlier =? clock_generation later) && (sequence earlier <? sequence later).
Definition validate_strictly_later_claim (earlier later : PrimaryRefreshClaim) : io unit :=
  if negb (cl_clock_generation earlier =? cl_clock_generation later)
     || (cl_sequence later <=? cl_sequence earlier)
     || (cl_presentation_time later <=? cl_presentation_time earlier)
  then Fail LaterClaimNotOrdered else Ret tt.
Definition is_strictly_later_claim (earlier later : PrimaryRefreshClaim) : bool :=
  (cl_clock_generation earlier =? cl_clock_generation later)
  && (cl_sequence earlier <? cl_sequence later)
  && (cl_presentation_time earlier <? cl_presentation_time later).
Definition validate_claim_before_reservation (earlier : PrimaryRefreshClaim)
  (later : FramePresentationReservation) : io unit :=
  match later with
  | Fixed target => validate_strictly_later_claim earlier (pt_physical_claim target)
  | Variable_ reservation =>
      require (is_strictly_later_opportunity (claim_opportunity_id earlier)
                 (opp_id (var_opportunity reservation))) LaterVariableNotOrdered
  | DeferredO1 _ => Ret tt
  end.
Definition validate_strictly_later_reservation (earlier later : FramePresentationReservation) : io unit :=
  match earlier, later with
  | Fixed e, Fixed l => validate_strictly_later_claim (pt_physical_claim e) (pt_physical_claim l)
  | _, _ =>
      match physical_opportunity_id earlier, physical_opportunity_id later with
      | Some e, Some l => require (is_strictly_later_opportunity e l) LaterOpportunityNotOrdered
      | _, _ => Ret tt
      end
  end.
Definition validate_target_claim (target : PresentationTarget) : io unit :=
  let claim := pt_physical_claim target in
  if negb (cl_clock_generation claim =? pt_clock_generation target) then Fail ClaimOtherClock
  else if is_binding target
          && (negb (cl_sequence claim =? pt_sequence target)
              || negb (cl_presentation_time claim =? pt_presentation_time target))
  then Fail ClaimNotTarget else Ret tt.
Definition validate_later_primary_reservation (r : FramePresentationReservation)
  (s : AtomicOutputSwapchain) : io unit :=
  _ ← (match physical_opportunity_id r with
       | Some id => require (clock_generation id =? sc_pool_generation s) OldPresentationGeneration
       | None => Ret tt
       end : io unit);
  _ ← (match sc_last_presented_primary_claim s with
       | Some last => validate_claim_before_reservation last r
       | None => Ret tt
       end : io unit);
  match sc_worker_queued s, sc_pending s with
  | Some worker, _ => validate_strictly_later_reservation (fr_reservation (wq_frame worker)) r
  | None, Some pending => validate_strictly_later_reservation (fr_reservation (sb_frame pending)) r
  | None, None => Ret tt
  end.
Definition validate_later_primary_target (target : PresentationTarget) (s : AtomicOutputSwapchain)
  : io unit :=
  _ ← validate_target_claim target; validate_later_primary_reservation (Fixed target) s.
Definition validate_ready_frame_for_submission (f : RenderedOutputFrame) (s : AtomicOutputSwapchain)
  : io unit :=
  _ ← validate_presentation_domain f;
  _ ← require (negb (is_deferred_o1 (fr_reservation f))) DeferredNotBound;
  validate_later_primary_reservation (fr_reservation f) s.
Definition validate_worker_queued_frame (f : RenderedOutputFrame) (s : AtomicOutputSwapchain) : io unit :=
  let mismatch := match sc_ready s with
    | Some ready => negb (fr_slot ready =? fr_slot f) || negb (fr_id ready =? fr_id f)
        || negb (fr_transaction_id ready =? fr_transaction_id f)
        || negb (fr_pool_generation ready =? fr_pool_generation f)
        || negb (bool_decide (fr_reservation ready = fr_reservation f))
    | None => false
    end in
  _ ← require (negb mismatch) WorkerFrameMismatch;
  _ ← require (negb (negb (fr_pool_generation f =? sc_pool_generation s)
                     || (fr_slot f =? sc_current s)
                     || bool_decide (pending_slot s = Some (fr_slot f))
                     || bool_decide (quarantine_slot_id s = Some (fr_slot f))
                     || bool_decide (sc_rendering s = Some (fr_slot f)))) WorkerAliases;
  validate_ready_frame_for_submission f s.

(** ** Rendering *)

Section Operations.
Implicit Types (s : AtomicOutputSwapchain) (f : RenderedOutputFrame).

Definition acquire_render_slot_for_limit (future_primary_limit : Z) s
  : AtomicOutputSwapchain * io OutputSlotId :=
  atomically
    (_ ← ensure_operational s;
     _ ← require (bool_decide (sc_rendering s = None)) AlreadyRendering;
     _ ← require (negb (bool_decide (is_Some (sc_ready s)))) AlreadyReady;
     _ ← require (negb ((future_primary_limit <? 2)
                        && (bool_decide (is_Some (sc_pending s))
                            || bool_decide (is_Some (sc_worker_queued s))))) LimitReached;
     slot ← ok_or NoFreeSlot (find (fun slot => slot_is_free slot s) (set_iter (sc_slots s)));
     Ret (set_rendering (Some slot) (sc_rendering_reservation s) s, slot)) s.
Definition limit_of_pacing (mode : NativeOutputPacingMode) : Z :=
  match mode with PacingPredictiveTriple => 2 | PacingReactiveDouble => 1 end.
Definition acquire_render_slot_for (mode : NativeOutputPacingMode) s
  : AtomicOutputSwapchain * io OutputSlotId := acquire_render_slot_for_limit (limit_of_pacing mode) s.
Definition acquire_render_slot s : AtomicOutputSwapchain * io OutputSlotId :=
  acquire_render_slot_for PacingPredictiveTriple s.
Definition acquire_render_slot_for_reservation (future_primary_limit : Z)
  (reservation : FramePresentationReservation) s : AtomicOutputSwapchain * io OutputSlotId :=
  match acquire_render_slot_for_limit future_primary_limit s with
  | (s', Ret slot) => (set_rendering (sc_rendering s') (Some reservation) s', Ret slot)
  | r => r
  end.
Definition render_target_available_for_limit (future_primary_limit : Z) s : bool :=
  negb (bool_decide (is_Some (sc_quarantine s))) && negb (has_suspended_ownership s)
  && bool_decide (sc_rendering s = None) && negb (bool_decide (is_Some (sc_ready s)))
  && negb ((future_primary_limit <? 2)
           && (bool_decide (is_Some (sc_pending s)) || bool_decide (is_Some (sc_worker_queued s))))
  && (0 <? free_slot_count s).
Definition advance_external_frame_id (frame_id : Z) s : AtomicOutputSwapchain * io unit :=
  atomically
    (_ ← require (frame_id =? sc_next_frame_id s) ExternalIdMismatch;
     next ← ok_or FrameIdOverflow (checked_add u64_max (sc_next_frame_id s) 1);
     Ret (set_next_frame_id next s, tt)) s.
Definition cancel_render_before_gpu (slot : OutputSlotId) s : AtomicOutputSwapchain * io unit :=
  atomically
    (_ ← require (bool_decide (sc_rendering s = Some slot)) CancelMismatch;
     Ret (set_rendering None None s, tt)) s.
Definition complete_unpresented_render (slot : OutputSlotId) s : AtomicOutputSwapchain * io unit :=
  atomically
    (_ ← require (bool_decide (sc_rendering s = Some slot)) CompleteMismatch;
     Ret (set_rendering None None s, tt)) s.
Definition finish_render_owned f s : AtomicOutputSwapchain * io Z :=
  atomically
    (_ ← ensure_operational s;
     _ ← require (bool_decide (sc_rendering s = Some (fr_slot f))) FinishMismatch;
     _ ← require (negb (bool_decide (is_Some (sc_ready s)))) AlreadyReady;
     _ ← require ((fr_id f =? sc_next_frame_id s) && (fr_pool_generation f =? sc_pool_generation s))
           FrameIdentityMismatch;
     _ ← require (fr_output_id f =? sc_output_id s) ForeignOutput;
     _ ← require (match sc_rendering_reservation s with
                  | Some r => is_deferred_o1 (fr_reservation f) || bool_decide (r = fr_reservation f)
                  | None => true
                  end) ReservationChanged;
     _ ← validate_presentation_domain f;
     _ ← (if is_deferred_o1 (fr_reservation f) then Ret tt
          else validate_later_primary_reservation (fr_reservation f) s : io unit);
     next ← ok_or FrameIdOverflow (checked_add u64_max (sc_next_frame_id s) 1);
     Ret (set_ready_frame (Some f) (set_rendering None None (set_next_frame_id next s)), fr_id f)) s.

(** ** Failures *)

Definition quarantine_slot (slot : OutputSlotId) (timing_fence : option Fd)
  (reason : OutputQuarantineReason) (abandoned : option RenderedOutputFrame) s
  : AtomicOutputSwapchain * io unit :=
  atomically
    (_ ← require (negb (bool_decide (is_Some (sc_quarantine s)))) AlreadyQuarantined;
     _ ← require (bool_decide (suspended_slot_id slot s = None)) SlotSuspended;
     Ret (set_quarantine (Some (mkQuarantined slot (sc_pool_generation s) timing_fence reason abandoned)) s,
          tt)) s.
(** The frame goes back to the caller without its timing fence. *)
Definition quarantine_frame f s : AtomicOutputSwapchain * io RenderedOutputFrame :=
  let (fence, timing) := take_timing_fd (fr_render_fence f) in
  match quarantine_slot (fr_slot f) timing AtomicSubmitFailure None s with
  | (s', Ret _) => (s', Ret (set_fence fence f))
  | (s', Fail e) => (s', Fail e)
  | (s', Panic) => (s', Panic)
  | (s', NoFuel) => (s', NoFuel)
  end.
Definition submission_failed f s : AtomicOutputSwapchain * io RenderedOutputFrame :=
  if bool_decide (is_Some (sc_quarantine s)) then (s, Fail AlreadyQuarantined) else quarantine_frame f s.
Definition fail_worker_queued (token : PageFlipToken) s
  : AtomicOutputSwapchain * io RenderedOutputFrame :=
  match sc_worker_queued s with
  | None => (s, Fail FailureWithoutQueued)
  | Some queued =>
      if negb (wq_token queued =? token) then (s, Fail FailureTokenMismatch)
      else quarantine_frame (wq_frame queued) (set_queued_frame None s)
  end.
Definition atomic_submit_failed s : AtomicOutputSwapchain * io OutputSlotId :=
  if bool_decide (is_Some (sc_quarantine s)) then (s, Fail AlreadyQuarantined)
  else
    match sc_ready s with
    | None => (s, Fail NoReadyFrame)
    | Some f =>
        match quarantine_frame f (set_ready_frame None s) with
        | (s', Ret _) => (s', Ret (fr_slot f))
        | (s', Fail e) => (s', Fail e)
        | (s', Panic) => (s', Panic)
        | (s', NoFuel) => (s', NoFuel)
        end
    end.
(** The reservation of the abandoned render stays behind. *)
Definition quarantine_rendering (timing_fence : option Fd) (reason : OutputQuarantineReason) s
  : AtomicOutputSwapchain * io OutputSlotId :=
  if bool_decide (is_Some (sc_quarantine s)) then (s, Fail AlreadyQuarantined)
  else
    match sc_rendering s with
    | None => (s, Fail NoRenderingSlot)
    | Some slot =>
        match quarantine_slot slot timing_fence reason None
                (set_rendering None (sc_rendering_reservation s) s) with
        | (s', Ret _) => (s', Ret slot)
        | (s', Fail e) => (s', Fail e)
        | (s', Panic) => (s', Panic)
        | (s', NoFuel) => (s', NoFuel)
        end
    end.

(** ** Submission *)

Definition take_ready_for_submission s : AtomicOutputSwapchain * io RenderedOutputFrame :=
  atomically
    (_ ← ensure_operational s;
     _ ← require (negb (bool_decide (is_Some (sc_pending s))
                        || bool_decide (is_Some (sc_worker_queued s)))) CommitInFlight;
     f ← ok_or NoReadyFrame (sc_ready s);
     _ ← validate_ready_frame_for_submission f s;
     Ret (set_ready_frame None s, f)) s.
Definition submission_succeeded f (token : PageFlipToken) (out_fence : option Fd)
  (submit_started_at submit_returned_at : Z) s : AtomicOutputSwapchain * io unit :=
  atomically
    (_ ← ensure_operational s;
     _ ← require (negb (bool_decide (is_Some (sc_pending s))
                        || bool_decide (is_Some (sc_worker_queued s))
                        || negb (fr_pool_generation f =? sc_pool_generation s))) SubmittedMismatch;
     _ ← validate_presentation_domain f;
     _ ← validate_later_primary_reservation (fr_reservation f) s;
     Ret (set_pending_frame
            (Some (mkSubmitted f token None submit_started_at submit_returned_at out_fence)) s, tt)) s.
Definition submit_ready_timed (token : PageFlipToken) (out_fence : option Fd)
  (submit_started_at submit_returned_at : Z) s : AtomicOutputSwapchain * io unit :=
  match ensure_operational s, sc_pending s with
  | Ret _, None =>
      match take_ready_for_submission s with
      | (s', Ret f) => submission_succeeded f token out_fence submit_started_at submit_returned_at s'
      | (s', Fail e) => (s', Fail e)
      | (s', Panic) => (s', Panic)
      | (s', NoFuel) => (s', NoFuel)
      end
  | Ret _, Some _ => (s, Fail AlreadyPending)
  | Fail e, _ => (s, Fail e)
  | Panic, _ => (s, Panic)
  | NoFuel, _ => (s, NoFuel)
  end.
Definition take_ready_for_worker (token : PageFlipToken) (queued_at : MonotonicTimestampNs) s
  : AtomicOutputSwapchain * io (Fd * option FrozenCursorPlaneOwner) :=
  atomically
    (_ ← ensure_operational s;
     _ ← require (negb (bool_decide (is_Some (sc_worker_queued s)))) AlreadyWorkerQueued;
     f ← ok_or NoReadyFrame (sc_ready s);
     _ ← validate_worker_queued_frame f s;
     '(fence, fd) ← take_submission_fd (fr_render_fence f);
     let queued := mkQueued (set_cursor_owner None (set_fence fence f)) token queued_at in
     Ret (set_queued_frame (Some queued) (set_ready_frame None s),
          (fd, fr_frozen_cursor_plane_owner f))) s.
Definition store_worker_queued (queued : WorkerQueuedOutputFrame) s : AtomicOutputSwapchain * io unit :=
  atomically
    (_ ← ensure_operational s;
     _ ← require (negb (bool_decide (is_Some (sc_worker_queued s)))) AlreadyWorkerQueued;
     _ ← validate_worker_queued_frame (wq_frame queued) s;
     Ret (set_queued_frame (Some queued) s, tt)) s.
Definition promote_worker_queued (token : PageFlipToken) (out_fence : option Fd)
  (submit_started_at submit_returned_at : Z) s : AtomicOutputSwapchain * io unit :=
  atomically
    (_ ← ensure_operational s;
     _ ← require (negb (bool_decide (is_Some (sc_pending s)))) PromoteWhilePending;
     queued ← ok_or SuccessWithoutQueued (sc_worker_queued s);
     _ ← require (wq_token queued =? token) SuccessTokenMismatch;
     _ ← require (fr_pool_generation (wq_frame queued) =? sc_pool_generation s) SuccessOldGeneration;
     Ret (set_pending_frame
            (Some (mkSubmitted (wq_frame queued) token (Some (wq_queued_at queued)) submit_started_at
                     submit_returned_at out_fence)) (set_queued_frame None s), tt)) s.
Definition validate_worker_queued_for_replan (token : PageFlipToken)
  (expected : OutputFrameIdentitySnapshot) (fence_available : bool) s : io unit :=
  _ ← require (negb (bool_decide (is_Some (sc_quarantine s)))) ReplanQuarantined;
  _ ← require (negb (bool_decide (is_Some (sc_ready s)))) ReplanReadyOccupied;
  queued ← ok_or ReplanNoOwner (sc_worker_queued s);
  _ ← require (wq_token queued =? token) ReplanTokenMismatch;
  _ ← require (bool_decide (frame_identity (wq_frame queued) = expected)) ReplanIdentityMismatch;
  _ ← require (fr_pool_generation (wq_frame queued) =? sc_pool_generation s) ReplanOldGeneration;
  _ ← require (negb (bool_decide (is_Some (fr_frozen_cursor_plane_owner (wq_frame queued)))))
        ReplanOwnsCursor;
  _ ← require fence_available ReplanNoFence;
  _ ← ensure_suspendable s;
  _ ← require (bool_decide (suspended_slot_id (fr_slot (wq_frame queued)) s = None)) ReplanSuspended;
  _ ← empty_suspended_slot_index s;
  Ret tt.
Definition return_worker_queued_for_replan (token : PageFlipToken) (submission_fence : option Fd)
  (cursor_owner : option FrozenCursorPlaneOwner) s : AtomicOutputSwapchain * io bool :=
  match sc_worker_queued s with
  | None => (s, Ret false)
  | Some queued =>
      atomically
        (_ ← validate_worker_queued_for_replan token (frame_identity (wq_frame queued))
               (bool_decide (is_Some submission_fence)) s;
         fence ← restore_submission_fd submission_fence (fr_render_fence (wq_frame queued));
         Ret (set_ready_frame (Some (set_cursor_owner cursor_owner (set_fence fence (wq_frame queued))))
                (set_queued_frame None s), true)) s
  end.
Definition restore_worker_queued_submission_fence (token : PageFlipToken) (submission_fence : option Fd) s
  : AtomicOutputSwapchain * io unit :=
  atomically
    (queued ← ok_or FenceWithoutQueued (sc_worker_queued s);
     _ ← require (wq_token queued =? token) FenceTokenMismatch;
     fence ← restore_submission_fd submission_fence (fr_render_fence (wq_frame queued));
     Ret (set_queued_frame
            (Some (mkQueued (set_fence fence (wq_frame queued)) (wq_token queued) (wq_queued_at queued))) s,
          tt)) s.

(** ** Suspension and recovery *)

(** The two assertions of the code are its panics. *)
Definition suspend_owned_slot (index : nat) (slot : OutputSlotId) (timing_fence : option Fd) f s
  : io AtomicOutputSwapchain :=
  if negb (bool_decide (suspended_slot_id slot s = None)) then Panic
  else
    match sc_suspended s !! index with
    | Some None =>
        Ret (set_suspended (<[index := Some (mkSuspended slot (sc_pool_generation s) timing_fence (Some f))]>
                              (sc_suspended s)) s)
    | _ => Panic
    end.
(** The timing fence of the frame, or the completion fence the caller has. *)
Definition suspend_frame f (completion_fence : option Fd) (index : nat) s : io AtomicOutputSwapchain :=
  let (fence, timing) := take_timing_fd (fr_render_fence f) in
  suspend_owned_slot index (fr_slot f)
    (match timing with Some fd => Some fd | None => completion_fence end) (set_fence fence f) s.
Definition suspend_failed_submission f (completion_fence : option Fd) s
  : AtomicOutputSwapchain * io unit :=
  atomically
    (_ ← ensure_suspendable s;
     _ ← require (bool_decide (suspended_slot_id (fr_slot f) s = None)) SlotSuspended;
     index ← empty_suspended_slot_index s;
     s' ← suspend_frame f completion_fence index s;
     Ret (s', tt)) s.
Definition validate_suspend_abandon_ready s : io unit :=
  _ ← ensure_suspendable s;
  ready ← ok_or NoReadyFrame (sc_ready s);
  _ ← require (bool_decide (suspended_slot_id (fr_slot ready) s = None)) SlotSuspended;
  _ ← empty_suspended_slot_index s;
  Ret tt.
Definition suspend_abandon_ready s : AtomicOutputSwapchain * io bool :=
  atomically
    (_ ← ensure_suspendable s;
     match sc_ready s with
     | None => Ret (s, false)
     | Some f =>
         _ ← validate_suspend_abandon_ready s;
         index ← empty_suspended_slot_index s;
         s' ← suspend_frame f None index (set_ready_frame None s);
         Ret (s', true)
     end) s.
Definition suspend_abandon_worker_queued_with_completion_fence (token : PageFlipToken)
  (completion_fence : option Fd) s : AtomicOutputSwapchain * io bool :=
  atomically
    (_ ← ensure_suspendable s;
     match sc_worker_queued s with
     | None => Ret (s, false)
     | Some queued =>
         _ ← require (wq_token queued =? token) SuspendTokenMismatch;
         _ ← require (bool_decide (suspended_slot_id (fr_slot (wq_frame queued)) s = None)) SlotSuspended;
         index ← empty_suspended_slot_index s;
         s' ← suspend_frame (wq_frame queued) completion_fence index (set_queued_frame None s);
         Ret (s', true)
     end) s.
Definition suspend_abandon_worker_queued (token : PageFlipToken) s : AtomicOutputSwapchain * io bool :=
  suspend_abandon_worker_queued_with_completion_fence token None s.
Definition suspend_abandon_future_frames : SM AtomicOutputSwapchain SwapError unit :=
  s ← sm_get;
  _ ← sm_lift (ensure_suspendable s);
  let required := Z.b2z (bool_decide (is_Some (sc_worker_queued s)))
                  + Z.b2z (bool_decide (is_Some (sc_ready s))) in
  let available := zlen (List.filter (fun o => negb (bool_decide (is_Some o))) (sc_suspended s)) in
  _ ← sm_lift (require (required <=? available) SuspendCapacity);
  _ ← (match wq_token <$> sc_worker_queued s with
       | Some token => suspend_abandon_worker_queued token
       | None => sm_lift (Ret false)
       end : SM AtomicOutputSwapchain SwapError bool);
  s ← sm_get;
  _ ← (if bool_decide (is_Some (sc_ready s)) then suspend_abandon_ready else sm_lift (Ret false)
       : SM AtomicOutputSwapchain SwapError bool);
  sm_lift (Ret tt).

Definition suspended_slot_fence_signaled `{FdPoll} (e : SuspendedOutputSlot) : io bool :=
  match su_timing_fence e with
  | None => match su_abandoned_frame e with
            | None => Ret true
            | Some f => is_signaled_nonblocking (fr_render_fence f)
            end
  | Some fd => poll_completion_fd fd
  end.
Fixpoint all_signaled `{FdPoll} (all : bool) (l : list SuspendedOutputSlot) : io bool :=
  match l with
  | [] => Ret all
  | e :: l => signaled ← suspended_slot_fence_signaled e; all_signaled (all && signaled) l
  end.
Definition suspended_fences_signaled `{FdPoll} s : io bool := all_signaled true (live_suspended s).
Definition pending_fence_signaled `{FdPoll} s : io bool :=
  match sc_pending s with
  | None => Ret true
  | Some p =>
      match timing_fd (fr_render_fence (sb_frame p)), sb_out_fence p with
      | Some fd, _ => poll_completion_fd fd
      | None, Some fd => poll_completion_fd fd
      | None, None => Fail NoCompletionProof
      end
  end.
Definition has_suspended_frame s : bool :=
  existsb (fun e => bool_decide (is_Some (su_abandoned_frame e))) (live_suspended s).
(** The first suspended frame leaves; its entry stays. *)
Fixpoint take_first_frame (l : list (option SuspendedOutputSlot))
  : list (option SuspendedOutputSlot) * option RenderedOutputFrame :=
  match l with
  | [] => ([], None)
  | Some (mkSuspended slot generation fence (Some f)) :: l =>
      (Some (mkSuspended slot generation fence None) :: l, Some f)
  | o :: l => let (l', r) := take_first_frame l in (o :: l', r)
  end.
Definition take_suspended_frame s : AtomicOutputSwapchain * option RenderedOutputFrame :=
  let (l, r) := take_first_frame (sc_suspended s) in (set_suspended l s, r).
(** [while let Some(frame) = self.take_suspended_frame()]: one round per entry
    and one to stop. [retired] is what [retire_frame] has been called with. *)
Fixpoint retire_loop (fuel : nat) (retired : list RenderedOutputFrame) s
  : AtomicOutputSwapchain * list RenderedOutputFrame * io unit :=
  match fuel with
  | O => (s, retired, NoFuel)
  | S fuel =>
      match take_suspended_frame s with
      | (s', Some f) => retire_loop fuel (retired ++ [f]) s'
      | (s', None) => (s', retired, Ret tt)
      end
  end.
Definition recover_suspended_slot `{FdPoll} (fence_signaled : bool) s : AtomicOutputSwapchain * io unit :=
  atomically
    (_ ← require (negb (bool_decide (is_Some (sc_quarantine s)))) QuarantineNotRecoverable;
     signaled ← (if fence_signaled then suspended_fences_signaled s else Ret false : io bool);
     _ ← require signaled SuspendedNotSignaled;
     _ ← require (negb (has_suspended_frame s)) SuspendedNotRetired;
     Ret (set_suspended (replicate (length (sc_suspended s)) None) s, tt)) s.
Definition recover_suspended_frames_if_signaled `{FdPoll} s
  : AtomicOutputSwapchain * list RenderedOutputFrame * io bool :=
  match (if has_suspended_ownership s then suspended_fences_signaled s else Ret false) with
  | Ret false => (s, [], Ret false)
  | Ret true =>
      let '(s', retired, r) := retire_loop (S (length (sc_suspended s))) [] s in
      match r with
      | Ret _ =>
          match recover_suspended_slot true s' with
          | (s'', Ret _) => (s'', retired, Ret true)
          | (s'', Fail e) => (s'', retired, Fail e)
          | (s'', Panic) => (s'', retired, Panic)
          | (s'', NoFuel) => (s'', retired, NoFuel)
          end
      | Fail e => (s', retired, Fail e)
      | Panic => (s', retired, Panic)
      | NoFuel => (s', retired, NoFuel)
      end
  | Fail e => (s, [], Fail e)
  | Panic => (s, [], Panic)
  | NoFuel => (s, [], NoFuel)
  end.
Definition retire_pending_after_recovery s : AtomicOutputSwapchain * option RenderedOutputFrame :=
  (set_pending_frame None s, sb_frame <$> sc_pending s).
Definition rebind_pool_generation (generation : Z) s : AtomicOutputSwapchain * io unit :=
  atomically
    (_ ← require (negb (bool_decide (is_Some (sc_worker_queued s)) || bool_decide (is_Some (sc_pending s))
                        || bool_decide (is_Some (sc_ready s)) || bool_decide (is_Some (sc_rendering s))
                        || bool_decide (is_Some (sc_quarantine s)) || has_suspended_ownership s))
           RebindWhileOwned;
     Ret (set_claims generation None None s, tt)) s.

(** ** Presentation *)

Record CompletedOutputFrame : Type := mkCompleted {
  co_frame : RenderedOutputFrame;
  co_worker_queued_at : option MonotonicTimestampNs;
  co_submit_started_at : MonotonicTimestampNs;
  co_submit_returned_at : MonotonicTimestampNs;
  co_old_current : OutputSlotId;
  co_new_current : OutputSlotId;
  co_presentation_serial : Z
}.
(** When the serial overflows the frame has already become current. *)
Definition complete_pageflip (token : PageFlipToken) (generation : Z) s
  : AtomicOutputSwapchain * io CompletedOutputFrame :=
  if bool_decide (is_Some (sc_quarantine s)) then (s, Fail PoisonedPageflip)
  else if negb (generation =? sc_pool_generation s) then (s, Fail StaleGeneration)
  else
    match sc_pending s with
    | None => (s, Fail NoPendingFrame)
    | Some p =>
        let f := sb_frame p in
        if negb (fr_pool_generation f =? generation) || negb (sb_token p =? token)
        then (s, Fail PageflipTokenMismatch)
        else
          let anchor := mkAnchor (fr_id f) (fr_transaction_id f) (sb_token p) (fr_pool_generation f) in
          let present serial := set_presented (fr_slot f) (Some (fr_framebuffer_id f)) serial (Some anchor)
                                  (set_pending_frame None s) in
          match checked_add u64_max (sc_presentation_serial s) 1 with
          | None => (present (sc_presentation_serial s), Fail SerialOverflow)
          | Some serial =>
              (present serial,
               Ret (mkCompleted f (sb_worker_queued_at p) (sb_submit_started_at p)
                      (sb_submit_returned_at p) (sc_current s) (fr_slot f) serial))
          end
    end.
Definition set_current_framebuffer_id (framebuffer : Z) s : AtomicOutputSwapchain :=
  set_presented (sc_current s) (Some framebuffer) (sc_presentation_serial s)
    (sc_last_completed_primary_anchor s) s.
Inductive PhysicalPrimaryClaimViolation : Type :=
  ClaimGenerationMismatch | ClaimRegression | VariableReservationNotActive.
Inductive PhysicalPrimaryClaimRevalidation : Type :=
| ClaimValid
| OvertakesReady (owner : OutputFrameIdentitySnapshot)
| OvertakesWorkerQueued (owner : OutputFrameIdentitySnapshot) (token : PageFlipToken)
| ClaimFatal (v : PhysicalPrimaryClaimViolation).
(** Whether a presented claim reaches the reservation of a later frame. *)
Definition overtakes (claim : PrimaryRefreshClaim) (r : FramePresentationReservation) : bool :=
  match r with
  | Fixed target => negb (is_strictly_later_claim claim (pt_physical_claim target))
  | Variable_ reservation =>
      negb (is_strictly_later_opportunity (claim_opportunity_id claim)
              (opp_id (var_opportunity reservation)))
  | DeferredO1 _ => false
  end.
Definition revalidate_physical_primary_presentation (claim : PrimaryRefreshClaim) s
  : PhysicalPrimaryClaimRevalidation :=
  if negb (cl_clock_generation claim =? sc_pool_generation s) then ClaimFatal ClaimGenerationMismatch
  else if match sc_last_presented_primary_claim s with
          | Some last => negb (is_strictly_later_claim last claim)
          | None => false
          end then ClaimFatal ClaimRegression
  else
    let ready := match sc_ready s with
      | Some f => if overtakes claim (fr_reservation f) then OvertakesReady (frame_identity f)
                  else ClaimValid
      | None => ClaimValid
      end in
    match sc_worker_queued s with
    | Some q => if overtakes claim (fr_reservation (wq_frame q))
                then OvertakesWorkerQueued (frame_identity (wq_frame q)) (wq_token q) else ready
    | None => ready
    end.
Definition note_physical_primary_presentation (claim : PrimaryRefreshClaim) s
  : AtomicOutputSwapchain * io unit :=
  match revalidate_physical_primary_presentation claim s with
  | ClaimValid =>
      (set_claims (sc_pool_generation s) (Some claim)
         ((fun anchor => (anchor, claim)) <$> sc_last_completed_primary_anchor s) s, Ret tt)
  | OvertakesReady _ | OvertakesWorkerQueued _ _ => (s, Fail ClaimOvertakes)
  | ClaimFatal _ => (s, Fail ClaimViolation)
  end.

(** ** Targets of the READY frame *)

Definition ready_identity s : option OutputFrameIdentitySnapshot := frame_identity <$> sc_ready s.
Definition validate_ready_target_replacement (id : OutputTransactionId)
  (expected replacement : PresentationTarget) s : io unit :=
  ready ← ok_or ReplaceNoReady (sc_ready s);
  _ ← require ((fr_transaction_id ready =? id)
               && bool_decide (fr_reservation ready = Fixed expected)
               && is_binding expected && is_binding replacement) ReplaceIdentity;
  let new := pt_physical_claim replacement in
  let old := pt_physical_claim expected in
  _ ← require (negb ((cl_sequence old <=? cl_sequence new)
                     || (cl_presentation_time old <=? cl_presentation_time new))) ReplaceNotEarlier;
  validate_later_primary_target replacement s.
Record PreparedReadyTargetSwapchainReplacement : Type := mkPreparedReplacement {
  pr_expected_identity : OutputFrameIdentitySnapshot; pr_expected_target : PresentationTarget;
  pr_replacement_target : PresentationTarget; pr_submit_window : KmsSubmitWindow
}.
Definition prepare_ready_target_replacement (expected_identity : OutputFrameIdentitySnapshot)
  (expected replacement : PresentationTarget) (window : KmsSubmitWindow) s
  : io PreparedReadyTargetSwapchainReplacement :=
  _ ← require (bool_decide (ready_identity s = Some expected_identity)) ReplacePhysicalChanged;
  _ ← validate_ready_target_replacement (of_transaction_id expected_identity) expected replacement s;
  _ ← require (sw_target_presentation_ns window =? pt_presentation_time replacement) ReplaceWindow;
  Ret (mkPreparedReplacement expected_identity expected replacement window).
Definition commit_prepared_ready_target_replacement (p : PreparedReadyTargetSwapchainReplacement) s
  : io AtomicOutputSwapchain :=
  ready ← expect (sc_ready s);
  Ret (set_ready_frame (Some (set_target (pr_replacement_target p) (pr_submit_window p) ready)) s).
Definition replace_ready_target (id : OutputTransactionId) (expected replacement : PresentationTarget)
  (window : KmsSubmitWindow) s : AtomicOutputSwapchain * io unit :=
  atomically
    (identity ← ok_or ReplaceNoReady (ready_identity s);
     _ ← require (of_transaction_id identity =? id) ReplaceIdentity;
     p ← prepare_ready_target_replacement identity expected replacement window s;
     s' ← commit_prepared_ready_target_replacement p s;
     Ret (s', tt)) s.

(** ** Deferred O1 frames *)

Definition deferred_o1_predecessor s : option O1PredecessorAnchor :=
  match sc_worker_queued s, sc_pending s with
  | Some q, _ => Some (mkAnchor (fr_id (wq_frame q)) (fr_transaction_id (wq_frame q)) (wq_token q)
                         (fr_pool_generation (wq_frame q)))
  | None, Some p => Some (mkAnchor (fr_id (sb_frame p)) (fr_transaction_id (sb_frame p)) (sb_token p)
                            (fr_pool_generation (sb_frame p)))
  | None, None => None
  end.
Inductive DeferredO1BindingFailure : Type := BindIdentityMismatch | BindGenerationMismatch.
Inductive DeferredO1BindingReadiness : Type :=
| NotDeferred
| WaitingForPredecessor
| Bindable (predecessor : O1PredecessorAnchor) (actual_claim : PrimaryRefreshClaim)
| BindStale (failure : DeferredO1BindingFailure).
Definition deferred_o1_binding_readiness (output_generation : Z) s : DeferredO1BindingReadiness :=
  match sc_ready s with
  | None => NotDeferred
  | Some ready =>
      match fr_reservation ready with
      | DeferredO1 intent =>
          let waiting := if bool_decide (deferred_o1_predecessor s = Some (o1_predecessor intent))
                         then WaitingForPredecessor else BindStale BindIdentityMismatch in
          if negb (o1_output_generation intent =? output_generation)
             || negb (o1a_pool_generation (o1_predecessor intent) =? sc_pool_generation s)
             || negb (o1_clock_generation intent =? sc_pool_generation s)
          then BindStale BindGenerationMismatch
          else
            match sc_last_presented_primary_anchor s with
            | None => waiting
            | Some (predecessor, actual_claim) =>
                if negb (o1_clock_generation intent =? cl_clock_generation actual_claim)
                then BindStale BindGenerationMismatch
                else if bool_decide (o1_predecessor intent = predecessor)
                then Bindable predecessor actual_claim else waiting
            end
      | _ => NotDeferred
      end
  end.
Definition deferred_o1_binding_failure (output_generation : Z) s : option DeferredO1BindingFailure :=
  match deferred_o1_binding_readiness output_generation s with
  | BindStale failure => Some failure
  | _ => None
  end.
(** One turn of the loop over the claims after the predecessor's. *)
Definition bind_step (intent : O1PrepareIntent) (window : io KmsSubmitWindow) (earliest_submit : Z)
  (claim : PrimaryRefreshClaim) : PrimaryRefreshClaim + io (PresentationTarget * KmsSubmitWindow) :=
  let target := bind_target intent claim earliest_submit in
  match window with
  | Ret w =>
      match rebind w (pt_presentation_time target) earliest_submit with
      | Ret window => inr (Ret (target, window))
      | _ => match claim_successor (o1_refresh_interval intent) claim with
             | Some next => inl next
             | None => inr (Fail FeasibleOverflow)
             end
      end
  | Fail e => inr (Fail e)
  | Panic => inr Panic
  | NoFuel => inr NoFuel
  end.
(** A claim has one of 2^64 sequence numbers. *)
Definition bind_fuel : positive := 2 ^ 64.
Definition deferred_o1_binding_candidate_for_readiness (readiness : DeferredO1BindingReadiness)
  (bind_at : MonotonicTimestampNs) s
  : io (option (OutputTransactionId * PresentationTarget * KmsSubmitWindow * Z)) :=
  match readiness with
  | NotDeferred | WaitingForPredecessor => Ret None
  | BindStale _ => Fail DeferredStale
  | Bindable predecessor actual_claim =>
      match sc_ready s with
      | None => Ret None
      | Some f =>
          match fr_reservation f with
          | DeferredO1 intent =>
              _ ← require (bool_decide (o1_predecessor intent = predecessor)) DeferredChanged;
              let earliest := Z.max bind_at (sat_add u64_max (cl_presentation_time actual_claim) 100000) in
              claim ← ok_or SuccessorOverflow (claim_successor (o1_refresh_interval intent) actual_claim);
              r ← loop_res bind_fuel (bind_step intent (require_fixed_submit_window f) earliest) claim;
              '(target, window) ← r;
              Ret (Some (fr_transaction_id f, target, window,
                         sat_sub (sat_sub (cl_sequence (pt_physical_claim target))
                                    (cl_sequence actual_claim)) 1))
          | _ => Ret None
          end
      end
  end.
Definition deferred_o1_binding_candidate (output_generation : Z) (bind_at : MonotonicTimestampNs) s
  : io (option (OutputTransactionId * PresentationTarget * KmsSubmitWindow * Z)) :=
  deferred_o1_binding_candidate_for_readiness (deferred_o1_binding_readiness output_generation s) bind_at s.
Record PreparedDeferredO1SwapchainBinding : Type := mkPreparedBinding {
  pb_expected_identity : OutputFrameIdentitySnapshot; pb_transaction_id : OutputTransactionId;
  pb_target : PresentationTarget; pb_submit_window : KmsSubmitWindow
}.
Definition prepare_deferred_o1_binding_commit (expected : OutputFrameIdentitySnapshot)
  (id : OutputTransactionId) (target : PresentationTarget) (window : KmsSubmitWindow) s
  : io PreparedDeferredO1SwapchainBinding :=
  identity ← ok_or DeferredNotReady (ready_identity s);
  _ ← require (bool_decide (identity = expected) && (of_transaction_id identity =? id))
        DeferredPhysicalChanged;
  _ ← require (is_deferred_o1 (of_reservation identity)) DeferredAlreadyBound;
  _ ← validate_later_primary_target target s;
  Ret (mkPreparedBinding expected id target window).
Definition commit_prepared_deferred_o1_binding (p : PreparedDeferredO1SwapchainBinding) s
  : io AtomicOutputSwapchain :=
  ready ← expect (sc_ready s);
  Ret (set_ready_frame (Some (set_target (pb_target p) (pb_submit_window p) ready)) s).
Definition commit_deferred_o1_binding (id : OutputTransactionId) (target : PresentationTarget)
  (window : KmsSubmitWindow) s : AtomicOutputSwapchain * io unit :=
  atomically
    (expected ← ok_or DeferredNotReady (ready_identity s);
     p ← prepare_deferred_o1_binding_commit expected id target window s;
     s' ← commit_prepared_deferred_o1_binding p s;
     Ret (s', tt)) s.
Definition record_deferred_o1_binding_timing_evidence (expected : OutputFrameIdentitySnapshot)
  (evidence : DeferredO1BindingTimingEvidence) s : AtomicOutputSwapchain * bool :=
  match sc_ready s with
  | None => (s, false)
  | Some ready =>
      if negb (bool_decide (key_of_frame ready = key_of_identity expected))
         || negb (match fr_reservation ready with Fixed _ => true | _ => false end)
         || bool_decide (is_Some (fr_deferred_o1_binding_timing ready))
      then (s, false)
      else (set_ready_frame (Some (set_binding_timing evidence ready)) s, true)
  end.

(** ** Validation *)

Inductive OutputSwapchainRole : Type :=
  RoleCurrent | RoleWorkerQueued | RoleKernelSubmitted | RoleReady | RoleRendering | RoleQuarantined
| RoleSuspended (index : nat).
Inductive OutputSwapchainInvariantError : Type :=
| SlotOutsidePool (role : OutputSwapchainRole) (slot : OutputSlotId)
| SwapSlotAliasing (slot : OutputSlotId) (first second : OutputSwapchainRole)
| OwnershipCapacityExceeded (owner_count : Z)
| MultiplePreparedFrames (ready_slot rendering_slot : OutputSlotId)
| RenderingReservationWithoutSlot
| RenderingReservationGenerationMismatch (actual : Z)
| FuturePrimaryOwnershipExceeded
| FramePresentationDomainInvalid (role : OutputSwapchainRole) (i : OutputFrameIdentitySnapshot)
| FramePoolGenerationMismatch (role : OutputSwapchainRole) (i : OutputFrameIdentitySnapshot)
| FrameTargetClaimInvalid (role : OutputSwapchainRole) (i : OutputFrameIdentitySnapshot)
| FrameTargetGenerationMismatch (role : OutputSwapchainRole) (i : OutputFrameIdentitySnapshot)
| VariableOpportunityGenerationMismatch (role : OutputSwapchainRole) (i : OutputFrameIdentitySnapshot)
| SuspendedPoolGenerationMismatch (slot : OutputSlotId)
| SuspendedFrameOwnerMismatch (slot : OutputSlotId)
| PresentationOpportunityFrontierInvalid
| FutureClaimOrderInvalid (role : OutputSwapchainRole) (i : OutputFrameIdentitySnapshot).
Abbreviation check := (res OutputSwapchainInvariantError unit).

Definition primary_roles s : list (OutputSwapchainRole * option OutputSlotId) :=
  [(RoleCurrent, Some (sc_current s)); (RoleWorkerQueued, worker_queued_slot s);
   (RoleKernelSubmitted, pending_slot s); (RoleReady, ready_slot s); (RoleRendering, sc_rendering s);
   (RoleQuarantined, quarantine_slot_id s)].
Definition suspended_roles s : list (OutputSwapchainRole * option OutputSlotId) :=
  imap (fun i o => (RoleSuspended i, su_slot <$> o)) (sc_suspended s).
(** The two loops over the roles: each owned slot is in the pool and in none
    of the roles before. *)
Fixpoint check_aliasing (pool : OutputSlotSet) (before after : list (OutputSwapchainRole * option OutputSlotId))
  : check :=
  match after with
  | [] => Ret tt
  | (role, None) :: after => check_aliasing pool (before ++ [(role, None)]) after
  | (role, Some slot) :: after =>
      if negb (set_contains slot pool) then Fail (SlotOutsidePool role slot)
      else match find (fun p => bool_decide (snd p = Some slot)) before with
           | Some (first, _) => Fail (SwapSlotAliasing slot first role)
           | None => check_aliasing pool (before ++ [(role, Some slot)]) after
           end
  end.
Definition owner_count s : Z :=
  zlen (List.filter (fun p => bool_decide (is_Some (snd p))) (primary_roles s ++ suspended_roles s)).
Definition check_rendering s : check :=
  match sc_rendering s, sc_rendering_reservation s with
  | None, Some _ => Fail RenderingReservationWithoutSlot
  | Some _, Some r =>
      match physical_opportunity_id r with
      | Some id => if negb (clock_generation id =? sc_pool_generation s)
                   then Fail (RenderingReservationGenerationMismatch (clock_generation id)) else Ret tt
      | None => Ret tt
      end
  | _, _ => Ret tt
  end.
Definition check_frame (role : OutputSwapchainRole) f s : check :=
  let i := frame_identity f in
  _ ← map_err (fun _ => FramePresentationDomainInvalid role i) (validate_presentation_domain f);
  if negb (fr_pool_generation f =? sc_pool_generation s) then Fail (FramePoolGenerationMismatch role i)
  else
    match fr_reservation f with
    | Fixed target =>
        _ ← map_err (fun _ => FrameTargetClaimInvalid role i) (validate_target_claim target);
        if negb (pt_clock_generation target =? sc_pool_generation s)
           || negb (cl_clock_generation (pt_physical_claim target) =? sc_pool_generation s)
        then Fail (FrameTargetGenerationMismatch role i) else Ret tt
    | Variable_ reservation =>
        if negb (clock_generation (opp_id (var_opportunity reservation)) =? sc_pool_generation s)
        then Fail (VariableOpportunityGenerationMismatch role i) else Ret tt
    | DeferredO1 _ => Ret tt
    end.
Definition future_frames s : list (OutputSwapchainRole * RenderedOutputFrame) :=
  omap (fun p => (fun f => (fst p, f)) <$> snd p)
    [(RoleKernelSubmitted, sb_frame <$> sc_pending s); (RoleWorkerQueued, wq_frame <$> sc_worker_queued s);
     (RoleReady, sc_ready s)].
Fixpoint check_frames (l : list (OutputSwapchainRole * RenderedOutputFrame)) s : check :=
  match l with
  | [] => Ret tt
  | (role, f) :: l => _ ← check_frame role f s; check_frames l s
  end.
Definition check_suspended_entry (e : SuspendedOutputSlot) s : check :=
  if negb (su_pool_generation e =? sc_pool_generation s)
  then Fail (SuspendedPoolGenerationMismatch (su_slot e))
  else match su_abandoned_frame e with
       | Some f => if negb (fr_pool_generation f =? sc_pool_generation s) || negb (fr_slot f =? su_slot e)
                   then Fail (SuspendedFrameOwnerMismatch (su_slot e)) else Ret tt
       | None => Ret tt
       end.
Fixpoint check_suspended (l : list SuspendedOutputSlot) s : check :=
  match l with
  | [] => Ret tt
  | e :: l => _ ← check_suspended_entry e s; check_suspended l s
  end.
Fixpoint check_order (previous : option FramePresentationReservation)
  (l : list (OutputSwapchainRole * RenderedOutputFrame)) s : check :=
  match l with
  | [] => Ret tt
  | (role, f) :: l =>
      let r := fr_reservation f in
      if is_deferred_o1 r then check_order previous l s
      else
        let invalid (_ : SwapError) := FutureClaimOrderInvalid role (frame_identity f) in
        _ ← (match sc_last_presented_primary_claim s with
             | Some last => map_err invalid (validate_claim_before_reservation last r)
             | None => Ret tt
             end : check);
        _ ← (match previous with
             | Some earlier => map_err invalid (validate_strictly_later_reservation earlier r)
             | None => Ret tt
             end : check);
        check_order (Some r) l s
  end.
Definition validate_live_future_primary_claims_diagnostic s : check := check_order None (future_frames s) s.
Definition validate_invariants_diagnostic s : check :=
  _ ← check_aliasing (sc_slots s) [] (primary_roles s ++ suspended_roles s);
  if EXPLICIT_OUTPUT_SLOT_CAPACITY <? owner_count s then Fail (OwnershipCapacityExceeded (owner_count s))
  else
    _ ← (match ready_slot s, sc_rendering s with
         | Some r, Some g => Fail (MultiplePreparedFrames r g)
         | _, _ => Ret tt
         end : check);
    _ ← check_rendering s;
    if bool_decide (is_Some (sc_pending s)) && bool_decide (is_Some (sc_worker_queued s))
       && (bool_decide (is_Some (sc_ready s)) || bool_decide (is_Some (sc_rendering s)))
    then Fail FuturePrimaryOwnershipExceeded
    else
      _ ← check_frames (future_frames s) s;
      _ ← check_suspended (live_suspended s) s;
      _ ← map_err (fun _ => PresentationOpportunityFrontierInvalid)
            (from_claims (omap (fun p => physical_opportunity_id (fr_reservation (snd p))) (future_frames s)));
      validate_live_future_primary_claims_diagnostic s.
Definition validate_invariants s : bool := is_Ret (validate_invariants_diagnostic s).
End Operations.

(** ** What validation means *)

Definition owned_slots (s : AtomicOutputSwapchain) : list OutputSlotId :=
  sc_current s :: option_list (worker_queued_slot s) ++ option_list (pending_slot s)
  ++ option_list (ready_slot s) ++ option_list (sc_rendering s) ++ option_list (quarantine_slot_id s)
  ++ map su_slot (live_suspended s).
Definition claim_lt (a b : PrimaryRefreshClaim) : Prop :=
  cl_clock_generation a = cl_clock_generation b /\ cl_sequence a < cl_sequence b /\
  cl_presentation_time a < cl_presentation_time b.
Definition opportunity_lt (a b : PresentationOpportunityId) : Prop :=
  clock_generation a = clock_generation b /\ sequence a < sequence b.
(** One reservation comes before another, as far as both are known. *)
Definition reservation_lt (a b : FramePresentationReservation) : Prop :=
  match a, b with
  | Fixed a, Fixed b => claim_lt (pt_physical_claim a) (pt_physical_claim b)
  | _, _ => forall i j, physical_opportunity_id a = Some i -> physical_opportunity_id b = Some j ->
                        opportunity_lt i j
  end.
Definition claim_before (c : PrimaryRefreshClaim) (r : FramePresentationReservation) : Prop :=
  match r with
  | Fixed t => claim_lt c (pt_physical_claim t)
  | Variable_ v => opportunity_lt (claim_opportunity_id c) (opp_id (var_opportunity v))
  | DeferredO1 _ => True
  end.
Definition target_agrees (t : PresentationTarget) : Prop :=
  cl_clock_generation (pt_physical_claim t) = pt_clock_generation t /\
  (is_binding t = true -> cl_sequence (pt_physical_claim t) = pt_sequence t /\
                          cl_presentation_time (pt_physical_claim t) = pt_presentation_time t).
Definition same_domain (r : FramePresentationReservation) (t : KmsPresentationTiming) : Prop :=
  match r, t with
  | Fixed _, TimingFixed _ | DeferredO1 _, TimingFixed _ | Variable_ _, TimingVariable _ => True
  | _, _ => False
  end.
Record frame_valid (generation : Z) (f : RenderedOutputFrame) : Prop := {
  fv_domain : same_domain (fr_reservation f) (fr_presentation_timing f);
  fv_pool : fr_pool_generation f = generation;
  fv_target : forall t, fr_reservation f = Fixed t -> target_agrees t;
  fv_clock : forall i, physical_opportunity_id (fr_reservation f) = Some i -> clock_generation i = generation
}.
Definition suspended_valid (generation : Z) (e : SuspendedOutputSlot) : Prop :=
  su_pool_generation e = generation /\
  forall f, su_abandoned_frame e = Some f -> fr_pool_generation f = generation /\ fr_slot f = su_slot e.
Definition frames_of (s : AtomicOutputSwapchain) : list RenderedOutputFrame := map snd (future_frames s).
Definition bound_reservations (s : AtomicOutputSwapchain) : list FramePresentationReservation :=
  List.filter (fun r => negb (is_deferred_o1 r)) (map fr_reservation (frames_of s)).
Record swap_valid (s : AtomicOutputSwapchain) : Prop := {
  sv_pool : Forall (fun slot => set_contains slot (sc_slots s) = true) (owned_slots s);
  sv_distinct : base.NoDup (owned_slots s);
  sv_prepared : sc_ready s = None \/ sc_rendering s = None;
  sv_unreserved : sc_rendering s = None -> sc_rendering_reservation s = None;
  sv_reserved : forall r i, sc_rendering_reservation s = Some r -> physical_opportunity_id r = Some i ->
                            clock_generation i = sc_pool_generation s;
  sv_frames : Forall (frame_valid (sc_pool_generation s)) (frames_of s);
  sv_suspended : Forall (suspended_valid (sc_pool_generation s)) (live_suspended s);
  sv_order : Sorted reservation_lt (bound_reservations s);
  sv_presented : forall c, sc_last_presented_primary_claim s = Some c ->
                           Forall (claim_before c) (bound_reservations s)
}.

(** *** The checks, one by one *)

Lemma require_Ret b e : require b e = Ret tt <-> b = true.
Proof. by destruct b. Qed.
Lemma map_err_Ret {E F A} (g : E -> F) (m : res E A) a : map_err g m = Ret a <-> m = Ret a.
Proof. destruct m; cbn; split; intros H; inversion H; done. Qed.
Lemma bind_unit_Ret {E} (m k : res E unit) : (m ≫= fun _ => k) = Ret tt <-> m = Ret tt /\ k = Ret tt.
Proof. destruct m as [[]| | |]; cbn; naive_solver. Qed.
(** A test that guards an error. *)
Lemma refuse_Ret {E} (b : bool) (e : E) (k : res E unit) :
  (if b then Fail e else k) = Ret tt <-> b = false /\ k = Ret tt.
Proof. destruct b; naive_solver. Qed.

Lemma later_claim_iff a b : validate_strictly_later_claim a b = Ret tt <-> claim_lt a b.
Proof. unfold validate_strictly_later_claim, claim_lt. zcase; naive_solver lia. Qed.
Lemma later_claim_bool a b : is_strictly_later_claim a b = true <-> claim_lt a b.
Proof. unfold is_strictly_later_claim, claim_lt. zcase; naive_solver lia. Qed.
Lemma later_opportunity_bool a b : is_strictly_later_opportunity a b = true <-> opportunity_lt a b.
Proof. unfold is_strictly_later_opportunity, opportunity_lt. zcase; naive_solver lia. Qed.
Lemma before_reservation_iff c r : validate_claim_before_reservation c r = Ret tt <-> claim_before c r.
Proof.
  destruct r; cbn; [apply later_claim_iff| |done]. by rewrite require_Ret, later_opportunity_bool.
Qed.
Lemma later_reservation_iff a b :
  validate_strictly_later_reservation a b = Ret tt <-> reservation_lt a b.
Proof.
  destruct a, b; cbn; try (by apply later_claim_iff);
    rewrite ?require_Ret, ?later_opportunity_bool; naive_solver.
Qed.
Lemma target_claim_iff t : validate_target_claim t = Ret tt <-> target_agrees t.
Proof.
  unfold validate_target_claim, target_agrees. destruct (is_binding t); zcase; naive_solver lia.
Qed.
Lemma domain_iff f :
  validate_presentation_domain f = Ret tt <-> same_domain (fr_reservation f) (fr_presentation_timing f).
Proof.
  unfold validate_presentation_domain. by destruct (fr_reservation f), (fr_presentation_timing f).
Qed.
Lemma check_frame_iff role f s :
  check_frame role f s = Ret tt <-> frame_valid (sc_pool_generation s) f.
Proof.
  unfold check_frame. rewrite bind_unit_Ret, map_err_Ret, domain_iff, refuse_Ret, negb_false_iff, Z.eqb_eq.
  destruct (fr_reservation f) as [t|v|i] eqn:Er.
  - rewrite bind_unit_Ret, map_err_Ret, target_claim_iff, refuse_Ret, orb_false_iff, !negb_false_iff,
      !Z.eqb_eq. split.
    + intros (H1 & H2 & H3 & (H4 & H5) & _). split; rewrite ?Er; try done.
      * intros t' [= <-]. done.
      * by intros j [= <-].
    + intros [H1 H2 H3 H4]. rewrite Er in *. specialize (H3 t eq_refl). specialize (H4 _ eq_refl).
      cbn in H4. destruct H3 as [H3 H5]. split_and!; try done. congruence.
  - rewrite refuse_Ret, negb_false_iff, Z.eqb_eq. split.
    + intros (H1 & H2 & H3 & _). split; rewrite ?Er; try done. by intros j [= <-].
    + intros [H1 H2 H3 H4]. rewrite Er in *. split_and!; try done. by apply H4.
  - split; [intros (H1 & H2 & _); split; by rewrite ?Er|intros [H1 H2 _ _]; by rewrite Er in *].
Qed.
Lemma check_frames_iff l s :
  check_frames l s = Ret tt <-> Forall (frame_valid (sc_pool_generation s)) (map snd l).
Proof.
  induction l as [|[role f] l IH]; cbn; [by split|].
  rewrite bind_unit_Ret, check_frame_iff, IH, Forall_cons. done.
Qed.
Lemma check_suspended_iff l s :
  check_suspended l s = Ret tt <-> Forall (suspended_valid (sc_pool_generation s)) l.
Proof.
  induction l as [|e l IH]; cbn [check_suspended]; [by split|].
  rewrite bind_unit_Ret, IH, Forall_cons. apply and_iff_compat_r. unfold check_suspended_entry, suspended_valid.
  rewrite refuse_Ret, negb_false_iff, Z.eqb_eq. apply and_iff_compat_l.
  destruct (su_abandoned_frame e) as [f|]; [|naive_solver]. rewrite refuse_Ret, orb_false_iff, !negb_false_iff, !Z.eqb_eq.
  naive_solver.
Qed.
Lemma check_aliasing_iff pool after : forall before,
  check_aliasing pool before after = Ret tt <->
  Forall (fun slot => set_contains slot pool = true) (omap snd after) /\ base.NoDup (omap snd after) /\
  (forall slot, slot ∈ omap snd before -> slot ∈ omap snd after -> False).
Proof.
  induction after as [|[role [slot|]] after IH]; intros before; cbn [check_aliasing omap list_omap snd].
  - split; [|done]. intros _. split_and!; [constructor|constructor|]. intros slot _ []%not_elem_of_nil.
  - rewrite refuse_Ret, negb_false_iff, Forall_cons, NoDup_cons.
    destruct (find _ before) as [[first o]|] eqn:Ef.
    + split; [naive_solver|]. intros (_ & _ & Hd). exfalso.
      apply find_some in Ef as [Hin Heq%bool_decide_eq_true]. cbn in Heq. subst o.
      apply (Hd slot); [|set_solver]. apply list_elem_of_omap. exists (first, Some slot).
      split; [by apply list_elem_of_In|done].
    + rewrite IH, omap_app. cbn. split.
      * intros (H1 & H2 & H3 & H4). split_and!; try done; [by intros Hin; apply (H4 slot); set_solver|].
        intros x Hb Ha. apply elem_of_cons in Ha as [->|Ha]; [|by apply (H4 x); set_solver].
        apply list_elem_of_omap in Hb as ([r o] & Hin & Ho). cbn in Ho. subst o.
        apply list_elem_of_In in Hin. pose proof (find_none _ _ Ef _ Hin) as Hn. cbn in Hn.
        by rewrite bool_decide_eq_true_2 in Hn.
      * intros ([H1 H1'] & [H2 H2'] & H3). split_and!; try done.
        intros x [Hx|Hx]%elem_of_app Ha; [by apply (H3 x); set_solver|set_solver].
  - rewrite IH, omap_app. cbn. by rewrite app_nil_r.
Qed.
Lemma owned_slots_roles s : omap snd (primary_roles s ++ suspended_roles s) = owned_slots s.
Proof.
  rewrite omap_app. unfold owned_slots, suspended_roles, live_suspended.
  assert (H : forall (l : list (option SuspendedOutputSlot)) n,
    omap snd (imap (fun i o => (RoleSuspended (n + i), su_slot <$> o)) l)
                          = map su_slot (omap (fun o : option SuspendedOutputSlot => o) l)).
  { induction l as [|[e|] l IH]; intros n; cbn; [done|f_equal|];
      rewrite <- (IH (S n)); f_equal; apply imap_ext; intros; cbn; do 2 f_equal; lia. }
  rewrite <- (H _ 0%nat). cbn [primary_roles omap list_omap snd].
  destruct (worker_queued_slot s), (pending_slot s), (ready_slot s), (sc_rendering s),
    (quarantine_slot_id s); done.
Qed.
Lemma owner_count_slots s : owner_count s = zlen (owned_slots s).
Proof.
  unfold owner_count. rewrite <- owned_slots_roles. unfold zlen. f_equal.
  induction (primary_roles s ++ suspended_roles s) as [|[r [o|]] l IH]; cbn; lia.
Qed.
(** Distinct slots of the pool are at most three. *)
Lemma pool_bound pool l :
  Forall (fun slot => set_contains slot pool = true) l -> base.NoDup l -> (length l <= 3)%nat.
Proof.
  intros Hp Hn. change 3%nat with (length (set_iter pool)). apply submseteq_length, NoDup_submseteq; [done|].
  intros x Hx. rewrite Forall_forall in Hp. specialize (Hp x Hx).
  unfold set_contains in Hp. unfold set_iter. rewrite !orb_true_iff, !Z.eqb_eq in Hp. set_solver.
Qed.
Lemma check_order_iff l s : forall previous,
  let rs := List.filter (fun r => negb (is_deferred_o1 r)) (map fr_reservation (map snd l)) in
  check_order previous l s = Ret tt <->
  (forall c, sc_last_presented_primary_claim s = Some c -> Forall (claim_before c) rs) /\
  Sorted reservation_lt (option_list previous ++ rs).
Proof.
  induction l as [|[role f] l IH]; intros previous; cbn [check_order map snd].
  - cbn. split; [|done]. intros _. split; [constructor|]. destruct previous; cbn; repeat constructor.
  - cbn [List.filter]. destruct (is_deferred_o1 (fr_reservation f)); cbn [negb]; [apply IH|].
    rewrite !bind_unit_Ret. rewrite (IH (Some (fr_reservation f))). cbn [option_list app].
    assert (H1 : (match sc_last_presented_primary_claim s with
                  | Some last => map_err (fun _ => FutureClaimOrderInvalid role (frame_identity f))
                                   (validate_claim_before_reservation last (fr_reservation f))
                  | None => Ret tt end = Ret tt)
                 <-> forall c, sc_last_presented_primary_claim s = Some c -> claim_before c (fr_reservation f)).
    { destruct (sc_last_presented_primary_claim s); [|naive_solver].
      rewrite map_err_Ret, before_reservation_iff. naive_solver. }
    assert (H2 : (match previous with
                  | Some earlier => map_err (fun _ => FutureClaimOrderInvalid role (frame_identity f))
                                      (validate_strictly_later_reservation earlier (fr_reservation f))
                  | None => Ret tt end = Ret tt)
                 <-> forall r, previous = Some r -> reservation_lt r (fr_reservation f)).
    { destruct previous; [|naive_solver]. rewrite map_err_Ret, later_reservation_iff. naive_solver. }
    rewrite H1, H2. setoid_rewrite Forall_cons. destruct previous as [r|]; cbn.
    + split; [intros (A & B & C & D)|intros [A B]].
      * split; [naive_solver|]. constructor; [done|]. constructor. by apply B.
      * apply Sorted_inv in B as [B B']. inversion B'. naive_solver.
    + naive_solver.
Qed.

(** *** The frontier of ordered reservations *)

Lemma reservation_lt_id a b i j :
  reservation_lt a b -> physical_opportunity_id a = Some i -> physical_opportunity_id b = Some j ->
  opportunity_lt i j.
Proof.
  destruct a, b; cbn; intros H [= <-] [= <-]; try (by apply H). unfold opportunity_lt. cbn.
  destruct H as (? & ? & ?). done.
Qed.
Lemma frontier_ordered (latest : option PresentationOpportunityId) ids :
  Sorted opportunity_lt (option_list latest ++ ids) -> exists m, frontier_loop latest ids = Ret m.
Proof.
  revert latest. induction ids as [|i ids IH]; intros latest Hs; cbn; [by eexists|].
  destruct latest as [l|]; cbn in *; [|by apply (IH (Some i))].
  apply Sorted_inv in Hs as [Hs Hd]. inversion_clear Hd as [|?? [Hg Hq]].
  rewrite (proj2 (Z.eqb_eq _ _) Hg). cbn. destruct (decide (l = i)) as [->|]; [lia|]. cbn.
  apply (IH (Some (id_max l i))). cbn. replace (id_max l i) with i; [done|].
  unfold id_max, id_ltb. rewrite Hg, Z.ltb_irrefl, Z.eqb_refl. cbn.
  by rewrite (proj2 (Z.ltb_ge _ _)) by lia.
Qed.
Lemma bound_ids_sorted rs :
  Forall (fun r => is_deferred_o1 r = false) rs -> Sorted reservation_lt rs ->
  Sorted opportunity_lt (omap physical_opportunity_id rs).
Proof.
  intros Hb. induction Hb as [|r rs Hr Hb IH]; intros Hs; cbn; [constructor|].
  apply Sorted_inv in Hs as [Hs Hd]. destruct (physical_opportunity_id r) as [i|] eqn:Ei; [|by apply IH].
  constructor; [by apply IH|]. destruct rs as [|r' rs]; cbn; [constructor|].
  inversion_clear Hd as [|?? Hlt]. inversion_clear Hb as [|?? Hr' _].
  destruct (physical_opportunity_id r') as [j|] eqn:Ej; [|by destruct r'].
  constructor. by apply (reservation_lt_id r r').
Qed.
Lemma future_ids s :
  omap (fun p => physical_opportunity_id (fr_reservation (snd p))) (future_frames s)
  = omap physical_opportunity_id (bound_reservations s).
Proof.
  unfold bound_reservations, frames_of. induction (future_frames s) as [|[role f] l IH]; cbn; [done|].
  rewrite IH. by destruct (fr_reservation f) eqn:E; cbn; rewrite ?E; cbn.
Qed.
Lemma bound_not_deferred s : Forall (fun r => is_deferred_o1 r = false) (bound_reservations s).
Proof.
  apply Forall_forall. intros r. rewrite list_elem_of_In. unfold bound_reservations.
  intros [_ H]%filter_In. by apply negb_true_iff in H.
Qed.
Lemma frontier_valid s :
  Sorted reservation_lt (bound_reservations s) ->
  exists m, from_claims (omap (fun p => physical_opportunity_id (fr_reservation (snd p))) (future_frames s))
            = Ret m.
Proof.
  intros Hs. rewrite future_ids. apply frontier_ordered. cbn. by apply bound_ids_sorted; [apply bound_not_deferred|].
Qed.
Lemma check_rendering_iff s :
  check_rendering s = Ret tt <->
  (sc_rendering s = None -> sc_rendering_reservation s = None) /\
  (forall r i, sc_rendering_reservation s = Some r -> physical_opportunity_id r = Some i ->
               clock_generation i = sc_pool_generation s).
Proof.
  unfold check_rendering. destruct (sc_rendering s), (sc_rendering_reservation s) as [r|]; try naive_solver.
  destruct (physical_opportunity_id r) as [i|] eqn:E; [|naive_solver].
  rewrite refuse_Ret, negb_false_iff, Z.eqb_eq. naive_solver.
Qed.
(** More than three roles cannot all be taken. *)
Lemma at_most_three s :
  swap_valid s -> (length (owned_slots s) <= 3)%nat.
Proof. intros H. apply (pool_bound (sc_slots s)); apply H. Qed.
Lemma two_future_primaries s :
  swap_valid s -> is_Some (sc_pending s) -> is_Some (sc_worker_queued s) ->
  sc_ready s = None /\ sc_rendering s = None /\ sc_quarantine s = None /\ live_suspended s = [].
Proof.
  intros H%at_most_three [p Hp] [q Hq]. unfold owned_slots, worker_queued_slot, pending_slot, ready_slot,
    quarantine_slot_id in H. rewrite Hp, Hq in H. cbn in H.
  destruct (sc_ready s), (sc_rendering s), (sc_quarantine s), (live_suspended s); cbn in H; try lia; done.
Qed.
Lemma validate_iff s : validate_invariants_diagnostic s = Ret tt <-> swap_valid s.
Proof.
  unfold validate_invariants_diagnostic, validate_live_future_primary_claims_diagnostic.
  rewrite bind_unit_Ret, check_aliasing_iff, owned_slots_roles, refuse_Ret, !bind_unit_Ret,
    check_rendering_iff, refuse_Ret, !bind_unit_Ret, check_frames_iff, check_suspended_iff.
  split.
  - intros ((H1 & H2 & _) & _ & H3 & (H4 & H5) & _ & H6 & H7 & H8).
    apply bind_Ret in H8 as (m & _ & [H9 H10]%check_order_iff). split; try done.
    unfold ready_slot in H3. destruct (sc_ready s), (sc_rendering s); naive_solver.
  - intros Hv. pose proof Hv as [H1 H2 H3 H4 H5 H6 H7 H8 H9]. split_and!; try done.
    + intros x []%not_elem_of_nil.
    + rewrite owner_count_slots. apply Z.ltb_ge. unfold zlen. pose proof (at_most_three s Hv). unfold EXPLICIT_OUTPUT_SLOT_CAPACITY. lia.
    + unfold ready_slot. destruct (sc_ready s), (sc_rendering s); naive_solver.
    + apply not_true_iff_false. rewrite !andb_true_iff, orb_true_iff, !bool_decide_eq_true.
      intros [[Hp Hq] Hr]. destruct (two_future_primaries s Hv Hp Hq) as (E1 & E2 & _ & _).
      rewrite E1, E2 in Hr. destruct Hr as [[? [=]]|[? [=]]].
    + destruct (frontier_valid s H8) as [m ->]. cbn. by apply check_order_iff.
Qed.
