(* ===== verification/SwapchainHistory.v ===== *)
(** * SwapchainHistory: what a swapchain does over time

    The operations of Swapchain.v in any order, as the output runtime calls
    them; taking a frame for a synchronous submission and reporting what became
    of it is one step, as it is one function of the runtime. Proves that every
    slot keeps one owner and the frames pass through the swapchain in order,
    that frames are accounted for, and under which calls the code's own
    validation accepts every state reached. *)

From stdpp Require Import base list option sets sorting.
From Stdlib Require Import ZArith Lia.
From S2P Require Import Prelude Buffering Deadline Scheduler Pipeline RenderJournal.
From S2P Require Import PresentationModes OutputTransaction KmsTiming AtomicCommit KmsPayload Swapchain.

(** ** Histories *)

Implicit Types (s : AtomicOutputSwapchain) (f : RenderedOutputFrame).

(** What the kernel made of a synchronous submission: accepted, rejected, kept
    for a retry, or given up by an early return before it was asked. *)
Inductive SubmitOutcome : Type :=
| SubAccepted (token : PageFlipToken) (out_fence : option Fd) (started returned : Z)
| SubRejected
| SubRetried (completion_fence : option Fd)
| SubGivenUp.
Inductive SwapOp : Type :=
| SAcquire (limit : Z)
| SAcquireFor (limit : Z) (r : FramePresentationReservation)
| SExternal (id : Z)
| SCancel (slot : OutputSlotId)
| SUnpresented (slot : OutputSlotId)
| SFinish (f : RenderedOutputFrame)
| SSubmit (fence : NativeRenderFence) (o : SubmitOutcome)
| SWorker (token : PageFlipToken) (at_ : Z)
| SPromote (token : PageFlipToken) (out_fence : option Fd) (started returned : Z)
| SReplan (token : PageFlipToken) (fence : option Fd) (cursor : option FrozenCursorPlaneOwner)
| SRestoreFence (token : PageFlipToken) (fence : option Fd)
| SFailWorker (token : PageFlipToken)
| SQuarantineRendering (fence : option Fd) (reason : OutputQuarantineReason)
| SSuspendReady
| SSuspendWorker (token : PageFlipToken) (completion_fence : option Fd)
| SSuspendAll
| STakeSuspended
| SRecoverSlot (signaled : bool)
| SRecover
| SRetirePending
| SRebind (generation : Z)
| SFlip (token : PageFlipToken) (generation : Z)
| SFramebuffer (framebuffer : Z)
| SNote (claim : PrimaryRefreshClaim)
| SReplace (id : OutputTransactionId) (expected replacement : PresentationTarget) (w : KmsSubmitWindow)
| SBind (id : OutputTransactionId) (target : PresentationTarget) (w : KmsSubmitWindow)
| SEvidence (expected : OutputFrameIdentitySnapshot) (e : DeferredO1BindingTimingEvidence).

(** A step: the swapchain after it, the frames that left it, what it answered. *)
Definition Outcome : Type := AtomicOutputSwapchain * list RenderedOutputFrame * io unit.
Definition void {A} (r : io A) : io unit := _ ← r; Ret tt.
Definition settle {A} (out : A -> list RenderedOutputFrame) (p : AtomicOutputSwapchain * io A) : Outcome :=
  (p.1, match p.2 with Ret a => out a | _ => [] end, void p.2).
Definition none_out {A} (_ : A) : list RenderedOutputFrame := [].
(** [submit_ready_frame]: the frame is taken, its submission fence too. *)
Definition submit_ready (fence : NativeRenderFence) (o : SubmitOutcome) s : Outcome :=
  match take_ready_for_submission s with
  | (s', Ret f) =>
      let f := set_fence fence f in
      match o with
      | SubAccepted token out started returned =>
          settle none_out (submission_succeeded f token out started returned s')
      | SubRejected => settle (fun f => [f]) (submission_failed f s')
      | SubRetried fd => settle none_out (suspend_failed_submission f fd s')
      | SubGivenUp => (s', [f], Ret tt)
      end
  | (s', r) => (s', [], void r)
  end.
Definition run_op `{FdPoll} (op : SwapOp) s : Outcome :=
  match op with
  | SAcquire limit => settle none_out (acquire_render_slot_for_limit limit s)
  | SAcquireFor limit r => settle none_out (acquire_render_slot_for_reservation limit r s)
  | SExternal id => settle none_out (advance_external_frame_id id s)
  | SCancel slot => settle none_out (cancel_render_before_gpu slot s)
  | SUnpresented slot => settle none_out (complete_unpresented_render slot s)
  | SFinish f => settle none_out (finish_render_owned f s)
  | SSubmit fence o => submit_ready fence o s
  | SWorker token at_ => settle none_out (take_ready_for_worker token at_ s)
  | SPromote token out started returned =>
      settle none_out (promote_worker_queued token out started returned s)
  | SReplan token fence cursor => settle none_out (return_worker_queued_for_replan token fence cursor s)
  | SRestoreFence token fence => settle none_out (restore_worker_queued_submission_fence token fence s)
  | SFailWorker token => settle (fun f => [f]) (fail_worker_queued token s)
  | SQuarantineRendering fence reason => settle none_out (quarantine_rendering fence reason s)
  | SSuspendReady => settle none_out (suspend_abandon_ready s)
  | SSuspendWorker token fence =>
      settle none_out (suspend_abandon_worker_queued_with_completion_fence token fence s)
  | SSuspendAll => settle none_out (suspend_abandon_future_frames s)
  | STakeSuspended => let (s', o) := take_suspended_frame s in (s', option_list o, Ret tt)
  | SRecoverSlot signaled => settle none_out (recover_suspended_slot signaled s)
  | SRecover => let '(s', out, r) := recover_suspended_frames_if_signaled s in (s', out, void r)
  | SRetirePending => let (s', o) := retire_pending_after_recovery s in (s', option_list o, Ret tt)
  | SRebind generation => settle none_out (rebind_pool_generation generation s)
  | SFlip token generation => settle (fun c => [co_frame c]) (complete_pageflip token generation s)
  | SFramebuffer framebuffer => (set_current_framebuffer_id framebuffer s, [], Ret tt)
  | SNote claim => settle none_out (note_physical_primary_presentation claim s)
  | SReplace id expected replacement w => settle none_out (replace_ready_target id expected replacement w s)
  | SBind id target w => settle none_out (commit_deferred_o1_binding id target w s)
  | SEvidence expected e => ((record_deferred_o1_binding_timing_evidence expected e s).1, [], Ret tt)
  end.

(** A frame with a fixed target carries the claim of that target. *)
Definition own_claim (op : SwapOp) : bool :=
  match op with
  | SFinish f => match fr_reservation f with Fixed t => is_Ret (validate_target_claim t) | _ => true end
  | _ => true
  end.
(** What keeps a render and its reservation in order, and is not checked by
    the operations themselves: reservations are of the current clock, a queued
    frame is not returned for a new plan during a render, a render that was
    started for a reservation is not quarantined, and a presentation is not
    noted while a frame is pending. *)
Definition orderly (op : SwapOp) s : bool :=
  match op with
  | SAcquireFor _ r =>
      match physical_opportunity_id r with
      | Some i => clock_generation i =? sc_pool_generation s
      | None => true
      end
  | SReplan _ _ _ => bool_decide (sc_rendering s = None)
  | SQuarantineRendering _ _ => bool_decide (sc_rendering_reservation s = None)
  | SNote _ => bool_decide (sc_pending s = None)
  | _ => true
  end.
(** With [strict] the operations are orderly too. *)
Definition legal (strict : bool) (op : SwapOp) s : bool := own_claim op && (negb strict || orderly op s).
(** The queued frame that a worker failure drops when a slot is quarantined. *)
Definition op_lost (op : SwapOp) s : list RenderedOutputFrame :=
  match op, sc_worker_queued s, sc_quarantine s with
  | SFailWorker token, Some q, Some _ => if wq_token q =? token then [wq_frame q] else []
  | _, _, _ => []
  end.

(** *** Events, and the queue they act on *)

Inductive PipeEvent : Type := EAccept (id : Z) | EPresent (id : Z) | EWithdraw (id : Z).
Definition frame_ids s : list Z := map fr_id (frames_of s).
Definition op_events (op : SwapOp) s (p : Outcome) : list PipeEvent :=
  let '(s', out, r) := p in
  match op, r with
  | SFinish f, Ret _ => [EAccept (fr_id f)]
  | SFlip _ _, Ret _ => map (fun f => EPresent (fr_id f)) out
  | _, _ => map EWithdraw (List.filter (fun i => negb (bool_decide (i ∈ frame_ids s'))) (frame_ids s))
  end.
Definition pipe_step (q : list Z) (e : PipeEvent) : option (list Z) :=
  match e with
  | EAccept id =>
      if (zlen q <? 2) && forallb (fun i => i <? id) q then Some (q ++ [id]) else None
  | EPresent id => match q with i :: q => if i =? id then Some q else None | [] => None end
  | EWithdraw id => if bool_decide (id ∈ q) then Some (List.filter (fun i => negb (i =? id)) q) else None
  end.
Fixpoint pipe_run (q : list Z) (es : list PipeEvent) : option (list Z) :=
  match es with [] => Some q | e :: es => q' ← pipe_step q e; pipe_run q' es end.
Definition accepted (es : list PipeEvent) : list Z :=
  omap (fun e => match e with EAccept id => Some id | _ => None end) es.
Definition presented (es : list PipeEvent) : list Z :=
  omap (fun e => match e with EPresent id => Some id | _ => None end) es.

(** A history: the swapchain, the events so far, the frames that left, those
    that were lost. *)
Record SwapHistory : Type := mkHistory {
  hi_chain : AtomicOutputSwapchain; hi_events : list PipeEvent; hi_out : list RenderedOutputFrame;
  hi_lost : list RenderedOutputFrame
}.
Definition history_step `{FdPoll} (op : SwapOp) (h : SwapHistory) : SwapHistory :=
  let p := run_op op (hi_chain h) in
  mkHistory p.1.1 (hi_events h ++ op_events op (hi_chain h) p) (hi_out h ++ p.1.2) (hi_lost h ++ op_lost op (hi_chain h)).
Fixpoint history `{FdPoll} (h : SwapHistory) (ops : list SwapOp) : SwapHistory :=
  match ops with [] => h | op :: ops => history (history_step op h) ops end.
Fixpoint legal_history `{FdPoll} (strict : bool) (h : SwapHistory) (ops : list SwapOp) : bool :=
  match ops with
  | [] => true
  | op :: ops => legal strict op (hi_chain h) && legal_history strict (history_step op h) ops
  end.
Definition fresh_history s : SwapHistory := mkHistory s [] [] [].

(** ** Shrinking a valid state *)

(** What validation reads of a frame, with its number. *)
Definition frame_view (f : RenderedOutputFrame)
  : Z * OutputSlotId * Z * FramePresentationReservation * KmsPresentationTiming :=
  (fr_id f, fr_slot f, fr_pool_generation f, fr_reservation f, fr_presentation_timing f).
Definition views (s : AtomicOutputSwapchain) := map frame_view (frames_of s).

Lemma frame_valid_view g f f' : frame_view f = frame_view f' -> frame_valid g f -> frame_valid g f'.
Proof.
  intros [= E1 E2 E3 E4 E5] [H1 H2 H3 H4]. split; rewrite <- ?E3, <- ?E4, <- ?E5; done.
Qed.
Lemma frames_valid_views g fs fs' :
  map frame_view fs' `sublist_of` map frame_view fs ->
  Forall (frame_valid g) fs -> Forall (frame_valid g) fs'.
Proof.
  intros Hs Hf. apply Forall_forall. intros f' Hin.
  assert (Hv : frame_view f' ∈ map frame_view fs).
  { eapply elem_of_sublist; [|exact Hs]. by apply list_elem_of_fmap_2. }
  apply list_elem_of_fmap in Hv as (f & E & Hin'). rewrite Forall_forall in Hf.
  by apply (frame_valid_view g f f'); [|apply Hf].
Qed.
Definition view_reservation
  (v : Z * OutputSlotId * Z * FramePresentationReservation * KmsPresentationTiming) := v.1.2.
Lemma bound_of_views s :
  bound_reservations s = List.filter (fun r => negb (is_deferred_o1 r)) (map view_reservation (views s)).
Proof. unfold bound_reservations, views. f_equal. rewrite map_map. by apply map_ext. Qed.
Lemma filter_sublist {A} (p : A -> bool) (l l' : list A) :
  l' `sublist_of` l -> List.filter p l' `sublist_of` List.filter p l.
Proof.
  induction 1 as [|x l l' H IH|x l l' H IH]; cbn; [done| |]; destruct (p x); try done.
  - by apply sublist_skip.
  - by apply sublist_cons.
Qed.
Lemma map_sublist {A B} (g : A -> B) (l l' : list A) : l' `sublist_of` l -> map g l' `sublist_of` map g l.
Proof. by induction 1; cbn; constructor. Qed.
Lemma bound_sublist s s' : views s' `sublist_of` views s -> bound_reservations s' `sublist_of` bound_reservations s.
Proof. intros H. rewrite !bound_of_views. by apply filter_sublist, map_sublist. Qed.
Lemma sublist_same_length {A} (l l' : list A) : l' `sublist_of` l -> length l' = length l -> l' = l.
Proof.
  induction 1 as [|x l l' H IH|x l l' H IH]; cbn; intros E; [done|f_equal; apply IH; lia|].
  apply sublist_length in H. lia.
Qed.
Lemma nodup_submseteq {A} (l l' : list A) : l' ⊆+ l -> base.NoDup l -> base.NoDup l'.
Proof. intros [k ->]%submseteq_Permutation [H _]%NoDup_app. done. Qed.
Lemma sorted_sublist {A} (R : A -> A -> Prop) (l l' : list A) :
  (length l <= 2)%nat -> Sorted R l -> l' `sublist_of` l -> Sorted R l'.
Proof.
  intros Hl Hs Hsub. destruct (decide (length l' = length l)) as [E|E].
  - apply sublist_same_length in Hsub; [by subst|done].
  - apply sublist_length in Hsub. destruct l' as [|x [|y l']]; cbn in *; [constructor| |lia].
    repeat constructor.
Qed.
Lemma owned_frames s : map fr_slot (frames_of s) ⊆+ tail (owned_slots s).
Proof.
  unfold frames_of, future_frames, owned_slots, worker_queued_slot, pending_slot, ready_slot.
  destruct (sc_pending s), (sc_worker_queued s), (sc_ready s); cbn; solve_submseteq.
Qed.
(** Validity without the clauses on the render and the last presentation. *)
Record swap_sound s : Prop := {
  so_pool : Forall (fun slot => set_contains slot (sc_slots s) = true) (owned_slots s);
  so_distinct : base.NoDup (owned_slots s);
  so_frames : Forall (frame_valid (sc_pool_generation s)) (frames_of s);
  so_suspended : Forall (suspended_valid (sc_pool_generation s)) (live_suspended s);
  so_order : Sorted reservation_lt (bound_reservations s)
}.
(** And those clauses. *)
Record render_tidy s : Prop := {
  ti_prepared : sc_ready s = None \/ sc_rendering s = None;
  ti_unreserved : sc_rendering s = None -> sc_rendering_reservation s = None;
  ti_reserved : forall r i, sc_rendering_reservation s = Some r -> physical_opportunity_id r = Some i ->
                            clock_generation i = sc_pool_generation s;
  ti_presented : forall c, sc_last_presented_primary_claim s = Some c ->
                           Forall (claim_before c) (bound_reservations s)
}.
Lemma valid_parts s : swap_valid s <-> swap_sound s /\ render_tidy s.
Proof. split; [intros []; by split; split|intros [[] []]; by split]. Qed.
Lemma two_frames s : swap_sound s -> (length (frames_of s) <= 2)%nat.
Proof.
  intros [H1 H2 _ _ _]. pose proof (pool_bound (sc_slots s) (owned_slots s) H1 H2) as H. pose proof (submseteq_length _ _ (owned_frames s)) as Hl.
  rewrite length_map in Hl. unfold owned_slots in *. cbn in *. lia.
Qed.
Lemma bound_length s : (length (bound_reservations s) <= length (frames_of s))%nat.
Proof. unfold bound_reservations. rewrite List.filter_length_le. by rewrite length_map. Qed.
(** Owners may leave or change places as long as the frames keep their order. *)
Lemma sound_shrink s s' :
  swap_sound s ->
  sc_slots s' = sc_slots s -> sc_pool_generation s' = sc_pool_generation s ->
  owned_slots s' ⊆+ owned_slots s -> views s' `sublist_of` views s ->
  Forall (suspended_valid (sc_pool_generation s)) (live_suspended s') ->
  swap_sound s'.
Proof.
  intros Hv E1 E2 Ho Hw Hs. pose proof Hv as [H1 H2 H6 H7 H8].
  pose proof (bound_sublist s s' Hw) as Hb. split; rewrite ?E1, ?E2; try done.
  - apply Forall_forall. intros x Hx. rewrite Forall_forall in H1. apply H1. by eapply elem_of_submseteq.
  - by eapply nodup_submseteq.
  - by eapply frames_valid_views.
  - eapply sorted_sublist; [|exact H8|done]. pose proof (bound_length s). pose proof (two_frames s Hv). lia.
Qed.
Lemma tidy_shrink s s' :
  render_tidy s ->
  sc_pool_generation s' = sc_pool_generation s ->
  sc_last_presented_primary_claim s' = sc_last_presented_primary_claim s -> views s' `sublist_of` views s ->
  (sc_ready s' = None \/ sc_rendering s' = None) ->
  (sc_rendering_reservation s' = None \/
   (sc_rendering s' = sc_rendering s /\ sc_rendering_reservation s' = sc_rendering_reservation s)) ->
  render_tidy s'.
Proof.
  intros [H3 H4 H5 H9] E2 E3 Hw Hp Hr. pose proof (bound_sublist s s' Hw) as Hb. split; rewrite ?E2, ?E3; try done.
  - intros Er. destruct Hr as [?|[Hr1 Hr2]]; [done|]. rewrite Hr2. apply H4. congruence.
  - intros r i Er. destruct Hr as [?|[_ Hr2]]; [congruence|]. rewrite Hr2 in Er. by apply H5.
  - intros c Hc. rewrite Forall_forall in *. intros r Hin. specialize (H9 c Hc). rewrite Forall_forall in H9.
    apply H9. by eapply elem_of_sublist.
Qed.

(** ** Steps that do not panic *)

Definition calm {A} (m : io A) : Prop := match m with Panic | NoFuel => False | _ => True end.
Lemma calm_bind {A B} (m : io A) (k : A -> io B) :
  calm m -> (forall a, m = Ret a -> calm (k a)) -> calm (m ≫= k).
Proof. destruct m; cbn; try done. intros _ H. by apply H. Qed.
Lemma calm_require b e : calm (require b e).
Proof. by destruct b. Qed.
Lemma calm_ok_or {A} e (o : option A) : calm (ok_or e o).
Proof. by destruct o. Qed.
Lemma calm_operational s : calm (ensure_operational s).
Proof. unfold ensure_operational. by repeat case_match. Qed.
Lemma calm_suspendable s : calm (ensure_suspendable s).
Proof. unfold ensure_suspendable. by repeat case_match. Qed.
Lemma calm_domain f : calm (validate_presentation_domain f).
Proof. unfold validate_presentation_domain. by repeat case_match. Qed.
Lemma calm_before c r : calm (validate_claim_before_reservation c r).
Proof. destruct r; cbn; unfold validate_strictly_later_claim; try done; [by case_match|apply calm_require]. Qed.
Lemma calm_later a b : calm (validate_strictly_later_reservation a b).
Proof.
  destruct a, b; cbn; unfold validate_strictly_later_claim; try done; try (by case_match); apply calm_require.
Qed.
Lemma calm_index s : calm (empty_suspended_slot_index s).
Proof. apply calm_ok_or. Qed.
Create HintDb calm.
#[export] Hint Resolve calm_index calm_bind calm_require calm_ok_or calm_operational calm_suspendable calm_domain
  calm_before calm_later : calm.
#[export] Hint Extern 1 (calm (Ret _)) => exact I : calm.
Ltac calm := repeat first
  [ progress intros | exact I | apply calm_bind | solve [auto 3 with calm] | case_match ].
Lemma calm_reservation r s : calm (validate_later_primary_reservation r s).
Proof. unfold validate_later_primary_reservation. calm. Qed.
Lemma calm_claim t : calm (validate_target_claim t).
Proof. unfold validate_target_claim. calm. Qed.
Lemma calm_target t s : calm (validate_later_primary_target t s).
Proof. unfold validate_later_primary_target, validate_target_claim. calm. Qed.
#[export] Hint Resolve calm_reservation calm_claim calm_target : calm.

(** ** The invariant *)

Definition in_flight s : list RenderedOutputFrame :=
  option_list (sb_frame <$> sc_pending s) ++ option_list (wq_frame <$> sc_worker_queued s).
Definition suspended_frames s : list RenderedOutputFrame := omap su_abandoned_frame (live_suspended s).
(** The frames the swapchain answers for. *)
Definition live_ids s : list Z := frame_ids s ++ map fr_id (suspended_frames s).
Section Histories.
(** Whether the render and its reservation are kept in order too. *)
Context (strict : bool).
Record swap_ok s : Prop := {
  ok_valid : swap_sound s;
  ok_tidy : strict = true -> render_tidy s;
  ok_capacity : length (sc_suspended s) = SUSPENDED_OUTPUT_SLOT_CAPACITY;
  ok_bound : Forall (fun f => is_deferred_o1 (fr_reservation f) = false) (in_flight s);
  ok_sorted : Sorted Z.lt (frame_ids s);
  ok_below : Forall (fun i => i < sc_next_frame_id s) (frame_ids s);
  ok_serial : 0 <= sc_presentation_serial s /\
              sc_presentation_serial s + zlen (frame_ids s) < sc_next_frame_id s <= u64_max
}.
(** Owners leave or change places. *)
Record shrinks s s' : Prop := {
  sh_slots : sc_slots s' = sc_slots s;
  sh_pool : sc_pool_generation s' = sc_pool_generation s;
  sh_owned : owned_slots s' ⊆+ owned_slots s;
  sh_views : views s' `sublist_of` views s;
  sh_tidy : strict = true ->
    sc_last_presented_primary_claim s' = sc_last_presented_primary_claim s /\
    (sc_ready s' = None \/ sc_rendering s' = None) /\
    (sc_rendering_reservation s' = None \/
     (sc_rendering s' = sc_rendering s /\ sc_rendering_reservation s' = sc_rendering_reservation s));
  sh_suspended : Forall (suspended_valid (sc_pool_generation s)) (live_suspended s');
  sh_capacity : length (sc_suspended s') = length (sc_suspended s);
  sh_bound : Forall (fun f => is_deferred_o1 (fr_reservation f) = false) (in_flight s');
  sh_next : sc_next_frame_id s <= sc_next_frame_id s' <= u64_max;
  sh_serial : sc_presentation_serial s <= sc_presentation_serial s' /\
    sc_presentation_serial s' + zlen (frames_of s') <= sc_presentation_serial s + zlen (frames_of s)
}.
Definition moved s (out : list RenderedOutputFrame) s' : Prop :=
  swap_ok s' /\ frame_ids s' `sublist_of` frame_ids s /\ live_ids s ≡ₚ map fr_id out ++ live_ids s' /\
  sc_next_frame_id s <= sc_next_frame_id s'.
(** A step keeps the invariant and loses no frame; refused, it changes nothing. *)
Definition good s (p : Outcome) : Prop :=
  let '(s', out, r) := p in
  match r with
  | Ret _ => moved s out s'
  | Fail _ => s' = s /\ out = []
  | Panic | NoFuel => False
  end.

Lemma ids_of_views s : frame_ids s = map (fun v => v.1.1.1.1) (views s).
Proof. unfold frame_ids, views. rewrite map_map. by apply map_ext. Qed.
Lemma ids_sublist s s' : views s' `sublist_of` views s -> frame_ids s' `sublist_of` frame_ids s.
Proof. intros H. rewrite !ids_of_views. by apply map_sublist. Qed.
Lemma ids_length s : zlen (frame_ids s) = zlen (frames_of s).
Proof. unfold zlen, frame_ids. by rewrite length_map. Qed.
Lemma ok_shrink s s' : swap_ok s -> shrinks s s' -> swap_ok s'.
Proof.
  intros [H1 HT H2 H3 H4 H5 H6] [S1 S2 S4 S5 S6 S8 S9 S10 S11 S12].
  pose proof (ids_sublist s s' S5) as Hs. pose proof (two_frames s H1) as Ht. split.
  - by eapply sound_shrink.
  - intros Hst. destruct (S6 Hst) as (? & ? & ?). eapply tidy_shrink; eauto.
  - congruence.
  - done.
  - eapply sorted_sublist; [|exact H4|done]. unfold frame_ids. by rewrite length_map.
  - apply Forall_forall. intros i Hi. rewrite Forall_forall in H5.
    assert (i < sc_next_frame_id s) by (apply H5; by eapply elem_of_sublist). lia.
  - rewrite !ids_length in *. lia.
Qed.
Lemma moved_shrink s s' out :
  swap_ok s -> shrinks s s' -> live_ids s ≡ₚ map fr_id out ++ live_ids s' -> moved s out s'.
Proof. intros H1 H2 H3. split_and!; [by eapply ok_shrink|apply ids_sublist, H2|done|apply H2]. Qed.
Lemma moved_refl s : swap_ok s -> moved s [] s.
Proof. intros H. by split_and!. Qed.

Lemma good_atomically {A} s (out : A -> list RenderedOutputFrame) m :
  calm m -> (forall s' a, m = Ret (s', a) -> moved s (out a) s') -> good s (settle out (atomically m s)).
Proof. destruct m as [[s' a]|e| |]; cbn; try done. intros _ H. by apply H. Qed.

(** ** The operations, one by one *)

(** The tests an operation passed. *)
Ltac passed := repeat first
  [ progress inv_bind | progress simplify_eq/=
  | match goal with
    | H : require ?b _ = Ret _ |- _ =>
        let E := fresh "E" in assert (E : b = true) by (by destruct b; [|discriminate H]); clear H
    | H : negb _ = true |- _ => apply negb_true_iff in H
    | H : bool_decide _ = true |- _ => apply bool_decide_eq_true in H
    | H : bool_decide _ = false |- _ => apply bool_decide_eq_false in H
    | H : (_ || _)%bool = false |- _ => apply orb_false_iff in H as [? ?]
    | H : (_ && _)%bool = true |- _ => apply andb_true_iff in H as [? ?]
    | H : (_ =? _) = true |- _ => apply Z.eqb_eq in H
    | H : (_ =? _) = false |- _ => apply Z.eqb_neq in H
    | H : ~ is_Some _ |- _ => apply eq_None_not_Some in H
    | H : exists _, _ |- _ => destruct H as [? H]
    | H : is_Some _ |- _ => destruct H as [? H]
    | H : (match ?o with _ => _ end) = Ret _ |- _ => destruct o eqn:?; try discriminate H
    end ].
(** What one place of the swapchain contributes. *)
Ltac places := unfold live_ids, frame_ids, suspended_frames, views, in_flight, frames_of, future_frames,
  owned_slots, live_suspended, worker_queued_slot, pending_slot, ready_slot, quarantine_slot_id in *.

Ltac by_owner := repeat match goal with
  | o : option SubmittedOutputFrame |- _ => destruct o
  | o : option WorkerQueuedOutputFrame |- _ => destruct o
  | o : option RenderedOutputFrame |- _ => destruct o
  end; cbn in *;
  first [done|solve [unfold zlen; cbn; lia]|solve [eauto 6 using sublist_skip, sublist_cons, sublist_nil_l]|solve [solve_submseteq]
        |solve [decompose_Forall_hyps; repeat constructor; done]|solve_Permutation|set_solver].
Ltac shrink :=
  match goal with H : swap_ok ?s |- shrinks ?s _ =>
    let T := fresh "T" in
    destruct H as [[] T ? ? ? ? [? ?]]; destruct s; cbn in *; subst; split; places; cbn in *;
    try done; try lia; try solve [let St := fresh in intros St; specialize (T St); destruct T; cbn in *; intuition (done || congruence)];
    try solve [solve_submseteq]; try solve [by_owner]
  end.
Ltac live := match goal with |- _ ?s ≡ₚ _ => destruct s end; places; cbn in *; subst; cbn;
  first [done|solve_Permutation|by_owner].
Ltac step := apply good_atomically; [solve [calm]|]; intros ? ? ?; passed.

Lemma good_cancel slot s : swap_ok s -> good s (settle none_out (cancel_render_before_gpu slot s)).
Proof. intros H. step. apply moved_shrink; [done|shrink|done]. Qed.
Lemma good_unpresented slot s : swap_ok s -> good s (settle none_out (complete_unpresented_render slot s)).
Proof. intros H. step. apply moved_shrink; [done|shrink|done]. Qed.
Lemma good_external id s : swap_ok s -> good s (settle none_out (advance_external_frame_id id s)).
Proof.
  intros H. unfold advance_external_frame_id, checked_add. step.
  match goal with E : checked _ _ _ = Some _ |- _ => apply checked_Some in E end.
  apply moved_shrink; [done|shrink|done].
Qed.
Lemma good_promote token out a b s :
  swap_ok s -> good s (settle none_out (promote_worker_queued token out a b s)).
Proof.
  intros H. step. apply moved_shrink; [done|shrink|live].
Qed.

Lemma good_restore_fence token fd s :
  swap_ok s -> good s (settle none_out (restore_worker_queued_submission_fence token fd s)).
Proof.
  intros H. unfold restore_worker_queued_submission_fence, restore_submission_fd. step.
  apply moved_shrink; [done|shrink|live].
Qed.
Lemma good_worker token at_ s : swap_ok s -> good s (settle none_out (take_ready_for_worker token at_ s)).
Proof.
  intros H. unfold take_ready_for_worker, validate_worker_queued_frame,
    validate_ready_frame_for_submission, take_submission_fd. step.
  apply moved_shrink; [done|shrink|live].
Qed.

Lemma good_replan token fd cursor s :
  swap_ok s -> (strict = true -> sc_rendering s = None) ->
  good s (settle none_out (return_worker_queued_for_replan token fd cursor s)).
Proof.
  intros H Hr. unfold return_worker_queued_for_replan, restore_submission_fd, validate_worker_queued_for_replan.
  destruct (sc_worker_queued s) as [q|] eqn:Eq; [|by apply moved_refl].
  step. apply moved_shrink; [done|shrink|live].
Qed.
Lemma no_suspended s : has_suspended_ownership s = false -> live_suspended s = [].
Proof.
  unfold has_suspended_ownership, live_suspended. induction (sc_suspended s) as [|[e|] l IH]; cbn; done.
Qed.
Lemma good_rebind g s : swap_ok s -> good s (settle none_out (rebind_pool_generation g s)).
Proof.
  intros H. step. match goal with E : has_suspended_ownership _ = _ |- _ => apply no_suspended in E end.
  destruct H as [[] T ? ? ? ? ?], s; places; cbn in *; subst; cbn in *.
  repeat split; places; cbn; try done; try lia.
  all: match goal with E : omap _ _ = [] |- _ => rewrite E in * end; cbn; repeat constructor; try done.
  all: try (match goal with St : strict = true |- _ => destruct (T St) end; cbn in *); naive_solver.
Qed.

(** *** A frame leaves its place *)

Definition same_frame f f' : Prop :=
  fr_slot f' = fr_slot f /\ fr_id f' = fr_id f /\ fr_pool_generation f' = fr_pool_generation f.
Record leaves f s s1 : Prop := {
  lv_shrinks : shrinks s s1;
  lv_owned : owned_slots s ≡ₚ fr_slot f :: owned_slots s1;
  lv_live : live_ids s ≡ₚ fr_id f :: live_ids s1;
  lv_frame : f ∈ frames_of s;
  lv_suspended : sc_suspended s1 = sc_suspended s;
  lv_quarantine : sc_quarantine s1 = sc_quarantine s
}.
Lemma leaves_ready f s : swap_ok s -> sc_ready s = Some f -> leaves f s (set_ready_frame None s).
Proof.
  intros H E. split; [shrink|live|live|..]; destruct s; places; cbn in *; subst; by_owner.
Qed.
Lemma leaves_worker q s :
  swap_ok s -> sc_worker_queued s = Some q -> leaves (wq_frame q) s (set_queued_frame None s).
Proof.
  intros H E. split; [shrink|live|live|..]; destruct s; places; cbn in *; subst; by_owner.
Qed.
Lemma leaves_pending p s :
  swap_ok s -> sc_pending s = Some p -> leaves (sb_frame p) s (set_pending_frame None s).
Proof.
  intros H E. split; [shrink|live|live|..]; destruct s; places; cbn in *; subst; by_owner.
Qed.

Lemma first_empty_lookup l i : first_empty l = Some i -> l !! i = Some None.
Proof.
  revert i. induction l as [|[e|] l IH]; intros i; cbn; [done| |by intros [= <-]].
  destruct (first_empty l) as [j|]; [|done]. intros [= <-]. by apply IH.
Qed.
Lemma live_insert (l : list (option SuspendedOutputSlot)) i e :
  l !! i = Some None ->
  omap (fun o => o) (<[i := Some e]> l) ≡ₚ e :: omap (fun o : option SuspendedOutputSlot => o) l.
Proof.
  revert i. induction l as [|o l IH]; intros [|i]; cbn; [done|done|by intros [= ->]|].
  intros H. destruct o as [e'|]; rewrite (IH _ H); [apply Permutation_swap|done].
Qed.
Lemma not_suspended slot s : slot ∉ owned_slots s -> suspended_slot_id slot s = None.
Proof.
  intros H. unfold suspended_slot_id. destruct (find _ _) as [e|] eqn:E; [|done]. exfalso. apply H.
  apply find_some in E as [Hin Heq%Z.eqb_eq]. unfold owned_slots. rewrite !elem_of_cons, !elem_of_app.
  do 6 right. apply list_elem_of_fmap. exists e. split; [done|by apply list_elem_of_In].
Qed.
Lemma left_slot f s s1 : swap_ok s -> leaves f s s1 -> suspended_slot_id (fr_slot f) s1 = None.
Proof.
  intros H L. apply not_suspended. pose proof (so_distinct _ (ok_valid s H)) as Hd.
  rewrite (lv_owned _ _ _ L) in Hd. by apply NoDup_cons in Hd as [? _].
Qed.
Lemma left_pool f s s1 : swap_ok s -> leaves f s s1 -> fr_pool_generation f = sc_pool_generation s.
Proof.
  intros H L. pose proof (so_frames _ (ok_valid s H)) as Hf. rewrite Forall_forall in Hf.
  apply Hf, (lv_frame _ _ _ L).
Qed.
Lemma owned_suspend l s :
  owned_slots (set_suspended l s)
  ≡ₚ map su_slot (omap (fun o => o) l) ++ owned_slots (set_suspended [] s).
Proof. unfold owned_slots. destruct s. cbn. solve_Permutation. Qed.
Lemma owned_resume s : owned_slots s ≡ₚ map su_slot (live_suspended s) ++ owned_slots (set_suspended [] s).
Proof. unfold owned_slots, live_suspended. destruct s. cbn. solve_Permutation. Qed.
(** A frame that left its place is suspended. *)
Lemma leave_suspend f f' fd i s s1 :
  swap_ok s -> leaves f s s1 -> same_frame f f' -> first_empty (sc_suspended s1) = Some i ->
  exists e, let s' := set_suspended (<[i := Some e]> (sc_suspended s1)) s1 in
    suspend_frame f' fd i s1 = Ret s' /\ moved s [] s'.
Proof.
  intros H L (E1 & E2 & E3) Hi%first_empty_lookup. pose proof (left_slot _ _ _ H L) as Hs.
  pose proof (left_pool _ _ _ H L) as Hp. unfold suspend_frame, suspend_owned_slot. cbn.
  rewrite E1, Hs, Hi. cbn. eexists. split; [done|]. destruct L as [L1 L2 L3 L4 L5 L6].
  match goal with |- moved _ _ (set_suspended (<[_ := Some ?e]> _) _) => set (entry := e) end.
  pose proof (live_insert _ _ entry Hi) as Hl. destruct L1 as [S1 S2 S4 S5 S6 S8 S9 S10 S11 S12].
  apply moved_shrink; [done|split; try done|].
  - rewrite L2, owned_suspend, Hl. cbn [map]. change (su_slot entry) with (fr_slot f).
    rewrite (owned_resume s1). done.
  - unfold live_suspended. cbn [sc_suspended set_suspended]. rewrite Hl. constructor; [|done].
    split; cbn; [congruence|]. intros g [= <-]. cbn. by rewrite E1, E3.
  - cbn. by rewrite length_insert.
  - unfold live_ids, suspended_frames, live_suspended in *. cbn [sc_suspended set_suspended map app].
    rewrite L3, Hl. cbn. rewrite E2. unfold frame_ids, frames_of, future_frames. cbn. solve_Permutation.
Qed.
(** A frame that left its place is quarantined. *)
Lemma leave_quarantine f f' s s1 :
  swap_ok s -> leaves f s s1 -> same_frame f f' -> sc_quarantine s = None ->
  exists s' f'', quarantine_frame f' s1 = (s', Ret f'') /\ moved s [f''] s'.
Proof.
  intros H L (E1 & E2 & E3) Hq. pose proof (left_slot _ _ _ H L) as Hs.
  pose proof (left_pool _ _ _ H L) as Hp. destruct L as [L1 L2 L3 L4 L5 L6].
  unfold quarantine_frame, quarantine_slot, atomically, require. cbn. rewrite L6, Hq, E1, Hs. cbn.
  eexists _, _. split; [done|]. destruct L1 as [S1 S2 S4 S5 S6 S8 S9 S10 S11 S12].
  apply moved_shrink; [done|split; try done|].
  - rewrite L2. unfold owned_slots, quarantine_slot_id. destruct s1; cbn in *. subst. cbn. rewrite Hq. cbn.
    solve_submseteq.
  - cbn. rewrite E2. done.
Qed.

Lemma good_fail_worker token s :
  swap_ok s -> op_lost (SFailWorker token) s = [] -> good s (settle (fun f => [f]) (fail_worker_queued token s)).
Proof.
  intros H Hl. unfold fail_worker_queued. cbn in Hl. destruct (sc_worker_queued s) as [q|] eqn:E; [|by cbn].
  destruct (wq_token q =? token); [|by cbn]. cbn [negb]. assert (Hq : sc_quarantine s = None) by by destruct (sc_quarantine s).
  destruct (leave_quarantine _ (wq_frame q) _ _ H (leaves_worker q s H E)) as (s' & f & -> & Hm); done.
Qed.
Lemma good_quarantine_rendering fd reason s :
  swap_ok s -> (strict = true -> sc_rendering_reservation s = None) ->
  good s (settle none_out (quarantine_rendering fd reason s)).
Proof.
  intros H Hr. unfold quarantine_rendering. case_bool_decide as Hq; [by cbn|].
  apply eq_None_not_Some in Hq. destruct (sc_rendering s) as [slot|] eqn:E; [|by cbn].
  pose proof (so_distinct _ (ok_valid s H)) as Hd.
  unfold quarantine_slot, atomically, require. cbn. rewrite Hq. cbn.
  rewrite bool_decide_eq_true_2.
  - cbn. apply moved_shrink; [done|shrink|live].
  - apply (not_suspended slot (set_rendering None None s)).
    assert (Ho : owned_slots s ≡ₚ slot :: owned_slots (set_rendering None None s)) by live.
    rewrite Ho in Hd. by apply NoDup_cons in Hd as [? _].
Qed.
Lemma operational s :
  ensure_operational s = Ret tt <-> sc_quarantine s = None /\ has_suspended_ownership s = false.
Proof.
  unfold ensure_operational. case_bool_decide as E; [|apply eq_None_not_Some in E; case_match; naive_solver].
  split; [done|]. intros [E' _]. rewrite E' in E. by destruct E.
Qed.
Lemma suspendable s : ensure_suspendable s = Ret tt <-> sc_quarantine s = None.
Proof.
  unfold ensure_suspendable. case_bool_decide as E; [|apply eq_None_not_Some in E; naive_solver].
  split; [done|]. intros E'. rewrite E' in E. by destruct E.
Qed.
Lemma first_empty_free l : existsb (fun o => bool_decide (is_Some o)) l = false -> l <> [] -> first_empty l = Some 0%nat.
Proof. by destruct l as [|[e|] l]; cbn. Qed.
Lemma atomically_cases {A} (m : io (AtomicOutputSwapchain * A)) s :
  calm m -> (exists e, atomically m s = (s, Fail e)) \/
            (exists s' a, m = Ret (s', a) /\ atomically m s = (s', Ret a)).
Proof. destruct m as [[s' a]|e| |]; cbn; naive_solver. Qed.
Record taken f s : Prop := {
  tk_ready : sc_ready s = Some f;
  tk_operational : ensure_operational s = Ret tt;
  tk_pending : sc_pending s = None;
  tk_worker : sc_worker_queued s = None;
  tk_domain : validate_presentation_domain f = Ret tt;
  tk_bound : is_deferred_o1 (fr_reservation f) = false;
  tk_later : validate_later_primary_reservation (fr_reservation f) s = Ret tt
}.
Lemma take_ready_cases s :
  (exists e, take_ready_for_submission s = (s, Fail e)) \/
  (exists f, take_ready_for_submission s = (set_ready_frame None s, Ret f) /\ taken f s).
Proof.
  unfold take_ready_for_submission, validate_ready_frame_for_submission.
  match goal with |- context [atomically ?m s] =>
    destruct (atomically_cases m s) as [?|(s' & f & Hm & ->)]; [calm|by left|right] end. passed.
  exists f. split; [done|]. split; try done; repeat match goal with u : unit |- _ => destruct u end; done.
Qed.
(** Taking the READY frame for submission, then what became of it. *)
Lemma good_submit fence o s : swap_ok s -> good s (submit_ready fence o s).
Proof.
  intros H. unfold submit_ready. destruct (take_ready_cases s) as [[e ->]|(f & -> & T)]; [by cbn|].
  pose proof T as [T1 [T2 T3]%operational T4 T5 T6 T7 T8].
  pose proof (leaves_ready f s H T1) as L. destruct o as [token out a b| |fd|].
  - unfold submission_succeeded, validate_presentation_domain. cbn [fr_reservation fr_presentation_timing set_fence].
    pose proof (left_pool _ _ _ H L) as Hp.
    change (ensure_operational (set_ready_frame None s)) with (ensure_operational s).
    change (validate_later_primary_reservation (fr_reservation f) (set_ready_frame None s))
      with (validate_later_primary_reservation (fr_reservation f) s).
    rewrite (tk_operational f s T), T8. unfold validate_presentation_domain in T6. rewrite T6. cbn.
    rewrite T4, T5, Hp, Z.eqb_refl. cbn. apply moved_shrink; [done|shrink|live].
  - unfold submission_failed. rewrite bool_decide_eq_false_2 by (cbn; rewrite T2; by intros [? [=]]).
    destruct (leave_quarantine f (set_fence fence f) _ _ H L) as (s' & f' & -> & Hm); done.
  - unfold suspend_failed_submission, empty_suspended_slot_index. cbn [sc_suspended set_ready_frame].
    change (ensure_suspendable (set_ready_frame None s)) with (ensure_suspendable s).
    rewrite (proj2 (suspendable s) T2). cbn [fr_slot set_fence]. rewrite (left_slot _ _ _ H L).
    assert (Hi : first_empty (sc_suspended s) = Some 0%nat).
    { apply first_empty_free; [done|]. pose proof (ok_capacity s H) as Hc. by destruct (sc_suspended s). }
    rewrite Hi. rewrite bool_decide_eq_true_2 by done.
    destruct (leave_suspend f (set_fence fence f) fd 0 _ _ H L) as (e & Hs & Hm); [done|done|].
    unfold mbind, res_bind; cbn [ok_or require atomically]. rewrite Hs. done.
  - apply moved_shrink; [done|apply L|]. cbn. apply L.
Qed.

(** A place of the future is suspended when an entry is empty. *)
Lemma suspend_ready_done f i s :
  swap_ok s -> sc_ready s = Some f -> sc_quarantine s = None -> first_empty (sc_suspended s) = Some i ->
  exists s', suspend_abandon_ready s = (s', Ret true) /\ moved s [] s'.
Proof.
  intros H Hr Hq Hi. pose proof (leaves_ready f s H Hr) as L. pose proof (left_slot _ _ _ H L) as Hs.
  destruct (leave_suspend f f None i _ _ H L) as (e & He & Hm); [done|done|].
  unfold suspend_abandon_ready, validate_suspend_abandon_ready, empty_suspended_slot_index.
  rewrite (proj2 (suspendable s) Hq), Hr, Hi. change (suspended_slot_id (fr_slot f) s = None) in Hs.
  unfold mbind, res_bind. cbn [ok_or]. rewrite bool_decide_eq_true_2 by done. cbn [require].
  rewrite He. by eexists.
Qed.
Lemma suspend_worker_done q fd i s :
  swap_ok s -> sc_worker_queued s = Some q -> sc_quarantine s = None ->
  first_empty (sc_suspended s) = Some i ->
  exists s' e, suspend_abandon_worker_queued_with_completion_fence (wq_token q) fd s = (s', Ret true) /\
    moved s [] s' /\ sc_ready s' = sc_ready s /\ sc_quarantine s' = None /\
    sc_suspended s' = <[i := Some e]> (sc_suspended s).
Proof.
  intros H Hw Hq Hi. pose proof (leaves_worker q s H Hw) as L. pose proof (left_slot _ _ _ H L) as Hs.
  destruct (leave_suspend _ (wq_frame q) fd i _ _ H L) as (e & He & Hm); [done|done|].
  unfold suspend_abandon_worker_queued_with_completion_fence, empty_suspended_slot_index.
  rewrite (proj2 (suspendable s) Hq), Hw, Hi, Z.eqb_refl.
  change (suspended_slot_id (fr_slot (wq_frame q)) s = None) in Hs.
  unfold mbind, res_bind. cbn [ok_or require]. rewrite bool_decide_eq_true_2 by done. cbn [require].
  rewrite He. by eexists _, e.
Qed.
Lemma index_cases s :
  (exists i, first_empty (sc_suspended s) = Some i) \/ empty_suspended_slot_index s = Fail SuspendCapacity.
Proof. unfold empty_suspended_slot_index. destruct (first_empty _); [left; by eexists|by right]. Qed.
Lemma suspend_blocked s : sc_quarantine s <> None -> ensure_suspendable s = Fail SuspendBlocked.
Proof. intros H. unfold ensure_suspendable. rewrite bool_decide_eq_true_2; [done|by apply not_eq_None_Some]. Qed.
Lemma good_suspend_ready s : swap_ok s -> good s (settle none_out (suspend_abandon_ready s)).
Proof.
  intros H. destruct (decide (sc_quarantine s = None)) as [Hq|Hq];
    [|by unfold suspend_abandon_ready; rewrite suspend_blocked].
  destruct (sc_ready s) as [f|] eqn:Hr.
  - destruct (index_cases s) as [[i Hi]|Hi].
    + by destruct (suspend_ready_done f i s H Hr Hq Hi) as (s' & -> & Hm).
    + unfold suspend_abandon_ready, validate_suspend_abandon_ready.
      rewrite (proj2 (suspendable s) Hq), Hr, Hi. cbn. by case_bool_decide.
  - unfold suspend_abandon_ready. rewrite (proj2 (suspendable s) Hq), Hr. cbn. by apply moved_refl.
Qed.
Lemma good_suspend_worker token fd s :
  swap_ok s -> good s (settle none_out (suspend_abandon_worker_queued_with_completion_fence token fd s)).
Proof.
  intros H. destruct (decide (sc_quarantine s = None)) as [Hq|Hq];
    [|by unfold suspend_abandon_worker_queued_with_completion_fence; rewrite suspend_blocked].
  destruct (sc_worker_queued s) as [q|] eqn:Hw.
  - destruct (decide (wq_token q = token)) as [<-|Ht].
    + destruct (index_cases s) as [[i Hi]|Hi].
      * destruct (suspend_worker_done q fd i s H Hw Hq Hi) as (s' & e & -> & Hm & _). done.
      * unfold suspend_abandon_worker_queued_with_completion_fence.
        rewrite (proj2 (suspendable s) Hq), Hw, Hi, Z.eqb_refl. cbn. by case_bool_decide.
    + unfold suspend_abandon_worker_queued_with_completion_fence.
      rewrite (proj2 (suspendable s) Hq), Hw. cbn. by rewrite (proj2 (Z.eqb_neq _ _) Ht).
  - unfold suspend_abandon_worker_queued_with_completion_fence.
    rewrite (proj2 (suspendable s) Hq), Hw. cbn. by apply moved_refl.
Qed.
Lemma moved_trans s1 s2 s3 out1 out2 :
  moved s1 out1 s2 -> moved s2 out2 s3 -> moved s1 (out1 ++ out2) s3.
Proof.
  intros (A1 & A2 & A3 & A4) (B1 & B2 & B3 & B4). split_and!; [done|by etrans| |lia].
  rewrite A3, B3, map_app. by rewrite app_assoc.
Qed.
Definition empties (l : list (option SuspendedOutputSlot)) : Z :=
  zlen (List.filter (fun o => negb (bool_decide (is_Some o))) l).
Lemma empties_first l : 1 <= empties l -> exists i, first_empty l = Some i.
Proof.
  unfold empties, zlen. induction l as [|[e|] l IH]; cbn; intros H; [lia| |by eexists].
  destruct (IH H) as [i ->]. by eexists.
Qed.
Lemma empties_insert l i e : first_empty l = Some i -> empties (<[i := Some e]> l) = empties l - 1.
Proof.
  revert i. unfold empties, zlen. induction l as [|[o|] l IH]; intros i; cbn; [done| |intros [= <-]; cbn; lia].
  destruct (first_empty l) as [j|]; [|done]. intros [= <-]. cbn. by apply IH.
Qed.
Lemma good_suspend_all s : swap_ok s -> good s (settle none_out (suspend_abandon_future_frames s)).
Proof.
  intros H. unfold suspend_abandon_future_frames. rewrite SM_get_step.
  destruct (decide (sc_quarantine s = None)) as [Hq|Hq];
    [|by rewrite suspend_blocked].
  rewrite (proj2 (suspendable s) Hq). fold (empties (sc_suspended s)).
  destruct (Z.leb_spec (Z.b2z (bool_decide (is_Some (sc_worker_queued s)))
                  + Z.b2z (bool_decide (is_Some (sc_ready s)))) (empties (sc_suspended s))) as [Hc|Hc];
    [|done].
  assert (Hworker : exists s1, 
     (match wq_token <$> sc_worker_queued s with
       | Some token => suspend_abandon_worker_queued token
       | None => sm_lift (Ret false)
       end : SM AtomicOutputSwapchain SwapError bool) s = (s1, Ret (bool_decide (is_Some (sc_worker_queued s)))) /\
     moved s [] s1 /\ sc_quarantine s1 = None /\ 
     Z.b2z (bool_decide (is_Some (sc_ready s1))) <= empties (sc_suspended s1)).
  { destruct (sc_worker_queued s) as [q|] eqn:Hw; cbn in *; [|exists s; by split_and!; [|apply moved_refl|..]].
    destruct (empties_first (sc_suspended s)) as [i Hi]; [destruct (bool_decide _) in Hc; cbn in Hc; lia|].
    destruct (suspend_worker_done q None i s H Hw Hq Hi) as (s' & e & E1 & E2 & E3 & E4 & E5).
    exists s'. split_and!; try done. rewrite E3, E5, (empties_insert _ _ _ Hi). lia. }
  destruct Hworker as (s1 & E1 & M1 & Q1 & C1).
  unfold mbind, SM_bind. cbn [sm_lift require]. rewrite E1. cbn [sm_get].
  destruct (sc_ready s1) as [f|] eqn:Hr; [|done].
  destruct (empties_first (sc_suspended s1)) as [i Hi]; [cbn in C1; lia|].
  destruct (suspend_ready_done f i s1 (proj1 M1) Hr Q1 Hi) as (s2 & E2 & M2).
  rewrite bool_decide_eq_true_2 by by eexists. rewrite E2. cbn. by apply (moved_trans s s1 s2 [] []).
Qed.

(** *** Recovery *)

(** A property of an entry that the loss of its frame keeps. *)
Definition frameless (P : SuspendedOutputSlot -> Prop) : Prop :=
  forall slot pool fence f, P (mkSuspended slot pool fence (Some f)) -> P (mkSuspended slot pool fence None).
Lemma take_first_spec l l' r :
  take_first_frame l = (l', r) ->
  let live (l : list (option SuspendedOutputSlot)) := omap (fun o => o) l in
  length l' = length l /\ map su_slot (live l') = map su_slot (live l) /\
  omap su_abandoned_frame (live l) = option_list r ++ omap su_abandoned_frame (live l') /\
  (forall P, frameless P -> Forall P (live l) -> Forall P (live l')).
Proof.
  revert l' r. induction l as [|[[slot pool fence [f|]]|] l IH]; intros l' r; cbn.
  - intros [= <- <-]. done.
  - intros [= <- <-]. cbn. split_and!; try done. intros P HP. rewrite !Forall_cons. naive_solver.
  - destruct (take_first_frame l) as [k o]. destruct (IH _ _ eq_refl) as (H1 & H2 & H3 & H4).
    intros [= <- <-]. cbn. split_and!; [congruence|congruence|done|]. intros P HP. rewrite !Forall_cons. naive_solver.
  - destruct (take_first_frame l) as [k o]. destruct (IH _ _ eq_refl) as (H1 & H2 & H3 & H4).
    intros [= <- <-]. cbn. split_and!; [congruence|done|done|done].
Qed.
Lemma moved_suspended l out s :
  swap_ok s -> length l = length (sc_suspended s) ->
  map su_slot (omap (fun o => o) l) ⊆+ map su_slot (live_suspended s) ->
  Forall (suspended_valid (sc_pool_generation s)) (omap (fun o => o) l) ->
  map fr_id (suspended_frames s) ≡ₚ map fr_id out ++ map fr_id (omap su_abandoned_frame (omap (fun o => o) l)) ->
  moved s out (set_suspended l s).
Proof.
  intros H Hl Ho Hv Hf. pose proof H as [[H1 H2 H6 H7 H8] T O2 O3 O4 O5 O6]. apply moved_shrink; [done|split; try done|].
  - rewrite owned_suspend, (owned_resume s). by apply submseteq_skips_r.
  - intros St. destruct (T St). split_and!; [done|done|by right].
  - cbn. lia.
  - unfold live_ids. rewrite Hf. change (frame_ids (set_suspended l s)) with (frame_ids s).
    unfold suspended_frames at 1, live_suspended. cbn. solve_Permutation.
Qed.
Lemma take_suspended_spec s s' r :
  swap_ok s -> take_suspended_frame s = (s', r) ->
  moved s (option_list r) s' /\ suspended_frames s = option_list r ++ suspended_frames s' /\
  sc_quarantine s' = sc_quarantine s /\
  (forall P, frameless P -> Forall P (live_suspended s) -> Forall P (live_suspended s')).
Proof.
  intros H. unfold take_suspended_frame. destruct (take_first_frame _) as [l o] eqn:E. intros [= <- <-].
  destruct (take_first_spec _ _ _ E) as (H1 & H2 & H3 & H4).
  split_and!; [|done|done|intros P HP; by apply H4]. apply moved_suspended; [done|done| | |].
  - unfold live_suspended. by rewrite H2.
  - apply H4, (so_suspended _ (ok_valid s H)). intros slot pool fence f [Hp _]. by split.
  - unfold suspended_frames, live_suspended. by rewrite H3, map_app.
Qed.
Lemma retire_loop_done fuel retired s :
  swap_ok s -> (length (suspended_frames s) < fuel)%nat ->
  exists s', retire_loop fuel retired s = (s', retired ++ suspended_frames s, Ret tt) /\
    moved s (suspended_frames s) s' /\ suspended_frames s' = [] /\ sc_quarantine s' = sc_quarantine s /\
    (forall P, frameless P -> Forall P (live_suspended s) -> Forall P (live_suspended s')).
Proof.
  revert retired s. induction fuel as [|fuel IH]; intros retired s H Hf; [lia|]. cbn [retire_loop].
  destruct (take_suspended_frame s) as [s1 [f|]] eqn:E;
    destruct (take_suspended_spec s _ _ H E) as (M & F & Q & P1); cbn in F, M.
  - rewrite F in Hf. cbn in Hf. destruct (IH (retired ++ [f]) s1) as (s' & E' & M' & F' & Q' & P'); [apply M|lia|].
    exists s'. rewrite E', F, <- app_assoc. split_and!; [done| |done|congruence|naive_solver].
    apply (moved_trans s s1 s' [f] _ M M').
  - exists s1. rewrite F in *. destruct (take_first_frame (sc_suspended s)) as [l o] eqn:El.
    assert (suspended_frames s1 = []) as Hn.
    { clear - E. unfold take_suspended_frame, suspended_frames, live_suspended in *.
      destruct (take_first_frame (sc_suspended s)) as [l o] eqn:El. simplify_eq/=.
      revert l El. induction (sc_suspended s) as [|[[slot pool fence [f|]]|] k IH]; intros l; cbn; [by intros [= <-]|done| |];
        destruct (take_first_frame k) as [k' o]; intros [= <- ->]; cbn; by apply IH. }
    rewrite Hn, app_nil_r in *. done.
Qed.
Lemma no_frames s : has_suspended_frame s = false -> suspended_frames s = [].
Proof.
  unfold has_suspended_frame, suspended_frames. induction (live_suspended s) as [|e l IH]; cbn; [done|].
  intros [H1 H2]%orb_false_iff. apply bool_decide_eq_false, eq_None_not_Some in H1. rewrite H1. by apply IH.
Qed.
Lemma frames_some s : suspended_frames s = [] -> has_suspended_frame s = false.
Proof.
  unfold has_suspended_frame, suspended_frames. induction (live_suspended s) as [|e l IH]; cbn; [done|].
  destruct (su_abandoned_frame e); [done|]. cbn. done.
Qed.
Lemma live_replicate n : omap (fun o : option SuspendedOutputSlot => o) (replicate n None) = [].
Proof. by induction n. Qed.

Lemma omap_length_le {A B} (g : A -> option B) l : (length (omap g l) <= length l)%nat.
Proof. induction l as [|x l IH]; cbn; [done|]. destruct (g x); cbn; lia. Qed.
Lemma calm_signaled `{poll : FdPoll} all l : calm (all_signaled all l).
Proof.
  revert all. induction l as [|e l IH]; intros all; cbn; [done|]. apply calm_bind; [|intros; apply IH].
  unfold suspended_slot_fence_signaled, poll_completion_fd, is_signaled_nonblocking. calm.
Qed.
Lemma all_signaled_iff `{poll : FdPoll} all l :
  all_signaled all l = Ret true <-> all = true /\ Forall (fun e => suspended_slot_fence_signaled e = Ret true) l.
Proof.
  revert all. induction l as [|e l IH]; intros all; cbn [all_signaled].
  - rewrite Forall_nil. naive_solver.
  - rewrite Forall_cons. destruct (suspended_slot_fence_signaled e) as [b| | |]; cbn; [|naive_solver..].
    rewrite IH, andb_true_iff. naive_solver.
Qed.
Lemma signaled_frameless `{poll : FdPoll} : frameless (fun e => suspended_slot_fence_signaled e = Ret true).
Proof. intros slot pool fence f. unfold suspended_slot_fence_signaled. cbn. by destruct fence. Qed.
Lemma moved_recovered s :
  swap_ok s -> suspended_frames s = [] ->
  moved s [] (set_suspended (replicate (length (sc_suspended s)) None) s).
Proof.
  intros H Hf. apply moved_suspended; rewrite ?live_replicate; [done|by rewrite length_replicate| |done|].
  - apply submseteq_nil_l.
  - by rewrite Hf.
Qed.
Lemma good_recover_slot `{poll : FdPoll} b s : swap_ok s -> good s (settle none_out (recover_suspended_slot b s)).
Proof.
  intros H. apply good_atomically.
  - calm; apply calm_signaled.
  - intros s' a Hm. passed; apply moved_recovered; try done; by apply no_frames.
Qed.
(** Recovery succeeds unless a slot is quarantined; the frames are retired
    either way. *)
Lemma moved_recover `{poll : FdPoll} s s' out r :
  swap_ok s -> recover_suspended_frames_if_signaled s = (s', out, r) ->
  calm r /\ moved s out s' /\ (sc_quarantine s = None -> is_Ret r = false -> s' = s /\ out = []).
Proof.
  intros H. unfold recover_suspended_frames_if_signaled.
  assert (Hc : calm (if has_suspended_ownership s then suspended_fences_signaled s else Ret false))
    by (case_match; [apply calm_signaled|done]).
  destruct (if has_suspended_ownership s then _ else _) as [[]|e| |] eqn:E; try done;
    [|intros [= <- <- <-]; split_and!; [done|by apply moved_refl|done]..].
  destruct (has_suspended_ownership s); [|done]. apply all_signaled_iff in E as [_ E].
  destruct (retire_loop_done (S (length (sc_suspended s))) [] s H) as (s1 & -> & M & F & Q & P).
  { pose proof (omap_length_le su_abandoned_frame (live_suspended s)).
    pose proof (omap_length_le (fun o : option SuspendedOutputSlot => o) (sc_suspended s)).
    unfold suspended_frames, live_suspended in *. lia. }
  pose proof (P _ signaled_frameless E) as E1. cbn [app].
  unfold recover_suspended_slot, suspended_fences_signaled. rewrite (proj2 (all_signaled_iff true _)) by done.
  rewrite (frames_some s1 F). rewrite Q.
  destruct (sc_quarantine s); cbn; intros [= <- <- <-]; split_and!; try done.
  rewrite <- (app_nil_r (suspended_frames s)). apply (moved_trans s s1); [done|].
  apply moved_recovered; [apply M|done].
Qed.

(** *** A frame becomes READY *)

Lemma frames_split s : frames_of s = in_flight s ++ option_list (sc_ready s).
Proof.
  unfold frames_of, future_frames, in_flight. by destruct (sc_pending s), (sc_worker_queued s), (sc_ready s).
Qed.
Definition bound_only (l : list RenderedOutputFrame) : list FramePresentationReservation :=
  List.filter (fun r => negb (is_deferred_o1 r)) (map fr_reservation l).
Lemma bound_in_flight l :
  Forall (fun f => is_deferred_o1 (fr_reservation f) = false) l -> bound_only l = map fr_reservation l.
Proof. unfold bound_only. induction 1 as [|f l Hf Hl IH]; cbn; [done|]. rewrite Hf. cbn. by rewrite IH. Qed.
Lemma bound_split s :
  swap_ok s -> bound_reservations s = map fr_reservation (in_flight s) ++ bound_only (option_list (sc_ready s)).
Proof.
  intros H. unfold bound_reservations. rewrite frames_split, map_app, List.filter_app. f_equal.
  by apply bound_in_flight, H.
Qed.
(** What the code checks of a reservation before its frame becomes the last. *)
Lemma later_sound r s :
  swap_ok s -> validate_later_primary_reservation r s = Ret tt ->
  Sorted reservation_lt (map fr_reservation (in_flight s) ++ [r]) /\
  (forall c, sc_last_presented_primary_claim s = Some c -> claim_before c r) /\
  (forall i, physical_opportunity_id r = Some i -> clock_generation i = sc_pool_generation s).
Proof.
  intros H. unfold validate_later_primary_reservation. rewrite !bind_unit_Ret. intros (H1 & H2 & H3).
  split_and!.
  - pose proof (so_order _ (ok_valid s H)) as Hs. rewrite bound_split in Hs by done.
    unfold in_flight in *. destruct (sc_worker_queued s) as [q|], (sc_pending s) as [p|]; cbn in *.
    + apply later_reservation_iff in H3. apply Sorted_inv in Hs as [_ Hd]. inversion_clear Hd.
      repeat constructor; done.
    + apply later_reservation_iff in H3. repeat constructor; done.
    + apply later_reservation_iff in H3. repeat constructor; done.
    + repeat constructor.
  - intros c Hc. rewrite Hc in H2. by apply before_reservation_iff.
  - intros i Hi. rewrite Hi in H1. by apply require_Ret, Z.eqb_eq in H1.
Qed.
(** The frame [f] becomes READY behind the frames in flight. *)
Record readies f s s' : Prop := {
  rd_slots : sc_slots s' = sc_slots s;
  rd_pool : sc_pool_generation s' = sc_pool_generation s;
  rd_flight : in_flight s' = in_flight s;
  rd_ready : sc_ready s' = Some f;
  rd_tidy : strict = true -> sc_last_presented_primary_claim s' = sc_last_presented_primary_claim s /\
    sc_rendering s' = None /\ sc_rendering_reservation s' = None;
  rd_suspended : sc_suspended s' = sc_suspended s;
  rd_owned : owned_slots s' ≡ₚ owned_slots s
}.
Lemma ok_ready f s s' :
  swap_ok s -> readies f s s' -> frame_valid (sc_pool_generation s) f ->
  (is_deferred_o1 (fr_reservation f) = true \/
   validate_later_primary_reservation (fr_reservation f) s = Ret tt) ->
  swap_sound s' /\ (strict = true -> render_tidy s').
Proof.
  intros H [R1 R2 R4 R5 R6 R8 R9] Hf Hl. pose proof H as [[H1 H2 H6 H7 H8] T O2 O3 O4 O5 O6].
  assert (Hb : Sorted reservation_lt (bound_reservations s') /\
    forall c, sc_last_presented_primary_claim s = Some c -> Forall (claim_before c) (bound_reservations s) ->
              Forall (claim_before c) (bound_reservations s')).
  { unfold bound_reservations at 1 3. rewrite frames_split, R4, R5, map_app, List.filter_app.
    assert (Ht : (length (bound_reservations s) <= 2)%nat)
      by (pose proof (bound_length s); pose proof (two_frames s (ok_valid s H)); lia).
    rewrite (bound_split s H) in H8, Ht |- *. cbn.
    fold (bound_only (in_flight s)). rewrite (bound_in_flight _ O3).
    destruct (is_deferred_o1 (fr_reservation f)) eqn:Ed; cbn.
    - rewrite app_nil_r. split.
      + eapply sorted_sublist; [exact Ht|exact H8|by apply sublist_inserts_r].
      + intros c Hc H9. by apply Forall_app in H9 as [? _].
    - destruct Hl as [?|Hl]; [done|]. apply later_sound in Hl as (L1 & L2 & _); [|done]. split; [done|].
      intros c Hc H9. apply Forall_app. split; [by apply Forall_app in H9 as [? _]|]. constructor; [by apply L2|done]. }
  destruct Hb as [Hb1 Hb2]. split.
  - split; rewrite ?R1, ?R2; try done.
    + by rewrite R9.
    + by rewrite R9.
    + rewrite frames_split, R4, R5. apply Forall_app. rewrite frames_split in H6. apply Forall_app in H6 as [H6 _].
      split; [done|]. by constructor.
    + unfold live_suspended. by rewrite R8.
  - intros St. destruct (T St) as [_ _ _ H9]. destruct (R6 St) as (E1 & E2 & E3). split; rewrite ?E1, ?E2, ?E3; try done.
    + by right.
    + intros c Hc. by apply Hb2, H9.
Qed.

Lemma target_sound t f s :
  swap_ok s -> sc_ready s = Some f -> validate_later_primary_target t s = Ret tt -> forall w,
  moved s [] (set_ready_frame (Some (set_target t w f)) s).
Proof.
  intros H Hr Ht w. unfold validate_later_primary_target in Ht. apply bind_unit_Ret in Ht as [H1 H2].
  apply target_claim_iff in H1. pose proof (later_sound _ _ H H2) as (_ & _ & Hc).
  assert (Hf : frame_valid (sc_pool_generation s) f).
  { pose proof (so_frames _ (ok_valid s H)) as Hf. rewrite frames_split, Hr in Hf. by decompose_Forall_hyps. }
  assert (Hu : strict = true -> sc_rendering s = None /\ sc_rendering_reservation s = None).
  { intros St. destruct (ok_tidy s H St) as [[?|Hn] Hun _ _]; [congruence|]. split; [done|by apply Hun]. }
  assert (Hi : frame_ids (set_ready_frame (Some (set_target t w f)) s) = frame_ids s).
  { unfold frame_ids. rewrite !frames_split, Hr, !map_app. done. }
  split_and!; [|by rewrite Hi|unfold live_ids; rewrite Hi; cbn [map app]; reflexivity|done].
  pose proof H as [O1 OT O2 O3 O4 O5 O6].
  assert (swap_sound (set_ready_frame (Some (set_target t w f)) s) /\
          (strict = true -> render_tidy (set_ready_frame (Some (set_target t w f)) s))) as [P1 P2];
    [|split; rewrite ?Hi; done].
  apply (ok_ready (set_target t w f) s); [done| | |by right].
  - split; try done; [intros St; split; [done|by apply Hu]|]. places. destruct s; cbn in *. by subst.
  - destruct Hf as [F1 F2 F3 F4]. split; cbn; try done. by intros ? [= <-].
Qed.
Lemma good_replace id expected replacement w s :
  swap_ok s -> good s (settle none_out (replace_ready_target id expected replacement w s)).
Proof.
  intros H. unfold replace_ready_target, prepare_ready_target_replacement, validate_ready_target_replacement,
    commit_prepared_ready_target_replacement, ready_identity.
  destruct (sc_ready s) as [f|] eqn:Hr; [|by cbn].
  step. repeat match goal with u : unit |- _ => destruct u end. by apply target_sound.
Qed.
Lemma good_bind id target w s :
  swap_ok s -> good s (settle none_out (commit_deferred_o1_binding id target w s)).
Proof.
  intros H. unfold commit_deferred_o1_binding, prepare_deferred_o1_binding_commit,
    commit_prepared_deferred_o1_binding, ready_identity.
  destruct (sc_ready s) as [f|] eqn:Hr; [|by cbn].
  step. repeat match goal with u : unit |- _ => destruct u end. by apply target_sound.
Qed.
Lemma sorted_last (l : list Z) x : Sorted Z.lt l -> Forall (fun i => i < x) l -> Sorted Z.lt (l ++ [x]).
Proof.
  induction 1 as [|y l Hs IH Hd]; intros Hf; cbn; [repeat constructor|].
  apply Forall_cons in Hf as [Hy Hf]. constructor; [by apply IH|].
  destruct l as [|z l]; cbn; constructor; [done|]. by inversion Hd.
Qed.
Lemma finish_ok f next s :
  swap_ok s -> own_claim (SFinish f) = true -> sc_rendering s = Some (fr_slot f) -> sc_ready s = None ->
  fr_id f = sc_next_frame_id s -> fr_pool_generation f = sc_pool_generation s ->
  validate_presentation_domain f = Ret tt ->
  (is_deferred_o1 (fr_reservation f) = true \/
   validate_later_primary_reservation (fr_reservation f) s = Ret tt) ->
  checked 0 u64_max (sc_next_frame_id s + 1) = Some next ->
  let s' := set_ready_frame (Some f) (set_rendering None None (set_next_frame_id next s)) in
  swap_ok s' /\ frame_ids s' = frame_ids s ++ [fr_id f] /\ next = fr_id f + 1.
Proof.
  intros H Hl Hg Hr Hi Hp Hd Hv [Hn Hb]%checked_Some s'.
  assert (Hids : frame_ids s' = frame_ids s ++ [fr_id f]).
  { unfold frame_ids. rewrite !frames_split, Hr, !map_app, app_nil_r. done. }
  assert (Hnx : sc_next_frame_id s' = next) by done.
  assert (Hse : sc_presentation_serial s' = sc_presentation_serial s) by done.
  split_and!; [|done|lia]. pose proof H as [O1 OT O2 O3 O4 O5 O6].
  assert (swap_sound s' /\ (strict = true -> render_tidy s')) as [P1 P2].
  { apply (ok_ready f s); [done| | |done].
    + split; try done. places. destruct s; cbn in *. subst. cbn. solve_Permutation.
    + split; [by apply domain_iff|done| |].
      * intros t Et. cbn in Hl. rewrite Et in Hl. apply target_claim_iff.
        by destruct (validate_target_claim t) as [[]| | |].
      * intros i Ei. destruct Hv as [Hv|Hv]; [by destruct (fr_reservation f)|]. by eapply later_sound. }
  split; rewrite ?Hids, ?Hnx, ?Hse; try done.
  - apply sorted_last; [done|]. by rewrite Hi.
  - apply Forall_app. split; [|constructor; cbn; [lia|done]].
    eapply Forall_impl; [exact O5|]. cbn. intros. lia.
  - unfold zlen in *. rewrite length_app. cbn [length]. lia.
Qed.
Lemma finish_cases f s :
  swap_ok s -> own_claim (SFinish f) = true ->
  (exists e, finish_render_owned f s = (s, Fail e)) \/
  (exists s', finish_render_owned f s = (s', Ret (fr_id f)) /\ swap_ok s' /\
     frame_ids s' = frame_ids s ++ [fr_id f] /\ fr_id f = sc_next_frame_id s /\
     sc_next_frame_id s' = fr_id f + 1 /\ suspended_frames s' = suspended_frames s /\
     sc_presentation_serial s' = sc_presentation_serial s).
Proof.
  intros H Hl. unfold finish_render_owned, checked_add.
  match goal with |- context [atomically ?m s] =>
    destruct (atomically_cases m s) as [?|(s1 & a & Hm & ->)]; [calm|by left|right] end. passed.
  all: repeat match goal with u : unit |- _ => destruct u end;
    eexists; split; [done|];
    match goal with Hc : checked _ _ _ = Some ?n |- _ =>
      destruct (finish_ok f n s) as (F1 & F2 & F3); try done; auto end.
Qed.

(** *** Rendering, presenting *)

Lemma free_not_owned slot s : slot_is_free slot s = true -> slot ∉ owned_slots s.
Proof.
  unfold slot_is_free. rewrite !andb_true_iff, !negb_true_iff, !bool_decide_eq_true, Z.eqb_neq,
    !bool_decide_eq_false.
  intros ((((((H1 & H2) & H3) & H4) & H5) & H6) & H7). unfold owned_slots.
  rewrite !elem_of_cons, !elem_of_app. unfold suspended_slot_id in H7.
  intros [?|[Hi|[Hi|[Hi|[Hi|[Hi|Hi]]]]]]; [done| | | | | |].
  - destruct (worker_queued_slot s); cbn in Hi; set_solver.
  - destruct (pending_slot s); cbn in Hi; set_solver.
  - destruct (ready_slot s); cbn in Hi; set_solver.
  - destruct (sc_rendering s); cbn in Hi; set_solver.
  - destruct (quarantine_slot_id s); cbn in Hi; set_solver.
  - apply list_elem_of_fmap in Hi as (e & -> & He). apply list_elem_of_In in He.
    destruct (find _ _) eqn:E; [done|]. pose proof (find_none _ _ E _ He) as Hn. cbn in Hn.
    by rewrite Z.eqb_refl in Hn.
Qed.
Lemma moved_acquire slot r s :
  swap_ok s -> sc_rendering s = None -> sc_ready s = None -> slot ∈ set_iter (sc_slots s) ->
  slot_is_free slot s = true ->
  (strict = true -> forall x i, r = Some x -> physical_opportunity_id x = Some i ->
     clock_generation i = sc_pool_generation s) ->
  moved s [] (set_rendering (Some slot) r s).
Proof.
  intros H Hg Hr Hin Hf%free_not_owned Hc. split_and!; [|done|done|done].
  pose proof H as [[H1 H2 H6 H7 H8] T O2 O3 O4 O5 O6].
  assert (Ho : owned_slots (set_rendering (Some slot) r s) ≡ₚ slot :: owned_slots s)
    by (places; destruct s; cbn in *; subst; cbn; solve_Permutation).
  split; try done.
  - split; try done.
    + rewrite Ho. constructor; [|done]. unfold set_iter in Hin. unfold set_contains.
      rewrite !orb_true_iff, !Z.eqb_eq. set_solver.
    + rewrite Ho. by constructor.
  - intros St. destruct (T St) as [H3 H4 H5 H9]. split; try done; [by left|]. by apply Hc.
Qed.
Lemma acquire_cases limit s :
  swap_ok s ->
  (exists e, acquire_render_slot_for_limit limit s = (s, Fail e)) \/
  (exists slot, acquire_render_slot_for_limit limit s
                = (set_rendering (Some slot) (sc_rendering_reservation s) s, Ret slot) /\
     (strict = true -> sc_rendering_reservation s = None) /\
     forall r, (strict = true -> forall x i, r = Some x -> physical_opportunity_id x = Some i ->
                            clock_generation i = sc_pool_generation s) ->
               moved s [] (set_rendering (Some slot) r s)).
Proof.
  intros H. unfold acquire_render_slot_for_limit.
  match goal with |- context [atomically ?m s] =>
    destruct (atomically_cases m s) as [?|(s1 & a & Hm & ->)]; [calm|by left|right] end. passed.
  exists a. split; [done|]. split; [by intros St; apply (ok_tidy s H St)|]. intros r Hr.
  match goal with E : _ = Some a |- _ =>
    change (find (fun slot => slot_is_free slot s) (set_iter (sc_slots s)) = Some a) in E;
    apply find_some in E as [Hin Hf] end.
  apply moved_acquire; try done. by apply list_elem_of_In.
Qed.
Lemma good_acquire limit s : swap_ok s -> good s (settle none_out (acquire_render_slot_for_limit limit s)).
Proof.
  intros H. destruct (acquire_cases limit s H) as [[e ->]|(slot & -> & Hn & Hm)]; [by cbn|].
  cbn. apply Hm. intros St. by rewrite (Hn St).
Qed.
Lemma good_acquire_for limit r s :
  swap_ok s -> (strict = true -> orderly (SAcquireFor limit r) s = true) ->
  good s (settle none_out (acquire_render_slot_for_reservation limit r s)).
Proof.
  intros H Hl. unfold acquire_render_slot_for_reservation.
  destruct (acquire_cases limit s H) as [[e ->]|(slot & -> & _ & Hm)]; [by cbn|].
  cbn. apply (Hm (Some r)). intros St x i [= <-] Hi. specialize (Hl St). cbn in Hl. rewrite Hi in Hl. by apply Z.eqb_eq.
Qed.
Lemma good_retire_pending s :
  swap_ok s -> good s (set_pending_frame None s, option_list (sb_frame <$> sc_pending s), Ret tt).
Proof.
  intros H. cbn. destruct (sc_pending s) as [p|] eqn:E.
  - pose proof (leaves_pending p s H E) as L. apply moved_shrink; [done|apply L|apply L].
  - apply moved_shrink; [done|shrink|live].
Qed.
Lemma flip_cases token g s :
  swap_ok s ->
  (exists e, complete_pageflip token g s = (s, Fail e)) \/
  (exists p c s', complete_pageflip token g s = (s', Ret c) /\ sc_pending s = Some p /\
     co_frame c = sb_frame p /\ co_new_current c = sc_current s' /\ co_old_current c = sc_current s /\
     co_presentation_serial c = sc_presentation_serial s' /\
     sc_presentation_serial s' = sc_presentation_serial s + 1 /\
     frame_ids s = fr_id (sb_frame p) :: frame_ids s' /\ moved s [sb_frame p] s').
Proof.
  intros H. unfold complete_pageflip. case_bool_decide as Hq; [by left; eexists|].
  case_match; [by left; eexists|]. destruct (sc_pending s) as [p|] eqn:E; [|by left; eexists].
  case_match; [by left; eexists|]. right.
  assert (Hids : frame_ids s = fr_id (sb_frame p) :: frame_ids (set_pending_frame None s)).
  { unfold frame_ids. rewrite !frames_split. unfold in_flight. by rewrite E. }
  pose proof (ok_serial s H) as (Hs1 & Hs2). rewrite Hids in Hs2. unfold zlen in Hs2. cbn [length] in Hs2.
  unfold checked_add. destruct (checked _ _ _) as [serial|] eqn:Hc.
  2: { unfold checked in Hc. zcase. }
  apply checked_Some in Hc as [-> _]. exists p. eexists _, _. split; [done|]. split_and!; try done.
  pose proof (leaves_pending p s H E) as [L1 L2 L3 L4 L5 L6].
  apply moved_shrink; [done| |exact L3]. destruct L1 as [S1 S2 S4 S5 S6 S8 S9 S10 S11 S12].
  split; try done.
  - rewrite L2. unfold owned_slots. destruct s; cbn in *. subst. cbn. solve_submseteq.
  - split; [cbn; lia|]. pose proof (f_equal length Hids) as Hl. unfold frame_ids in Hl. cbn [length] in Hl.
    rewrite !length_map in Hl. unfold zlen.
    match goal with |- ?serial + Z.of_nat (length ?l) <= _ =>
      change serial with (sc_presentation_serial s + 1);
      change l with (frames_of (set_pending_frame None s)) end. lia.
Qed.

Lemma good_flip token g s :
  swap_ok s -> good s (settle (fun c => [co_frame c]) (complete_pageflip token g s)).
Proof.
  intros H. destruct (flip_cases token g s H) as [[e ->]|(p & c & s' & -> & _ & E & _ & _ & _ & _ & _ & Hm)];
    [by cbn|]. cbn. by rewrite E.
Qed.
Lemma good_framebuffer fb s : swap_ok s -> good s (set_current_framebuffer_id fb s, [], Ret tt).
Proof. intros H. cbn. apply moved_shrink; [done|shrink|live]. Qed.
Lemma good_evidence expected e s :
  swap_ok s -> good s ((record_deferred_o1_binding_timing_evidence expected e s).1, [], Ret tt).
Proof.
  intros H. unfold record_deferred_o1_binding_timing_evidence.
  destruct (sc_ready s) as [f|] eqn:E; [|by apply moved_refl].
  case_match; [by apply moved_refl|]. cbn. apply moved_shrink; [done|shrink|live].
Qed.
Lemma overtakes_false c r : overtakes c r = false -> claim_before c r.
Proof.
  destruct r; cbn; rewrite ?negb_false_iff; [apply later_claim_bool|apply later_opportunity_bool|done].
Qed.
Lemma good_note c s :
  swap_ok s -> (strict = true -> sc_pending s = None) -> good s (settle none_out (note_physical_primary_presentation c s)).
Proof.
  intros H Hp. unfold note_physical_primary_presentation.
  destruct (revalidate_physical_primary_presentation c s) eqn:E; try by cbn.
  cbn. split_and!; [|done|done|done]. pose proof H as [[H1 H2 H6 H7 H8] T O2 O3 O4 O5 O6].
  split; try done. intros St. destruct (T St) as [H3 H4 H5 _]. split; try done. intros c' [= <-].
  change (Forall (claim_before c) (bound_reservations s)). unfold bound_reservations.
  rewrite frames_split. unfold in_flight. rewrite (Hp St). cbn [option_list fmap option_fmap option_map app].
  unfold revalidate_physical_primary_presentation in E.
  do 2 (case_match; [done|]).
  assert (Hok : forall f, (sc_ready s = Some f \/ wq_frame <$> sc_worker_queued s = Some f) ->
                          claim_before c (fr_reservation f)).
  { intros f [Hf|Hf]; apply overtakes_false.
    - rewrite Hf in E. repeat case_match; done.
    - destruct (sc_worker_queued s); [|done]. cbn in Hf. simplify_eq. by repeat case_match. }
  apply Forall_forall. intros r Hr. apply list_elem_of_In, filter_In in Hr as [Hr _].
  apply in_map_iff in Hr as (f & <- & Hin). apply Hok.
  destruct (sc_worker_queued s), (sc_ready s); cbn in *; naive_solver.
Qed.

(** ** Any step *)

Lemma good_step `{poll : FdPoll} op s :
  swap_ok s -> legal strict op s = true -> op_lost op s = [] -> (forall f, op <> SFinish f) -> op <> SRecover ->
  good s (run_op op s).
Proof.
  intros H [_ Hl]%andb_true_iff Hlost Hf Hr. rewrite orb_true_iff, negb_true_iff in Hl.
  assert (Ho : strict = true -> orderly op s = true) by (intros St; destruct Hl; [congruence|done]). clear Hl.
  destruct op; cbn [run_op].
  - by apply good_acquire.
  - by apply good_acquire_for.
  - by apply good_external.
  - by apply good_cancel.
  - by apply good_unpresented.
  - by destruct (Hf f).
  - by apply good_submit.
  - by apply good_worker.
  - by apply good_promote.
  - apply good_replan; [done|]. intros St. by specialize (Ho St); apply bool_decide_eq_true in Ho.
  - by apply good_restore_fence.
  - by apply good_fail_worker.
  - apply good_quarantine_rendering; [done|]. intros St. by specialize (Ho St); apply bool_decide_eq_true in Ho.
  - by apply good_suspend_ready.
  - by apply good_suspend_worker.
  - by apply good_suspend_all.
  - destruct (take_suspended_frame s) as [s' o] eqn:E. by destruct (take_suspended_spec s s' o H E) as (M & _).
  - by apply good_recover_slot.
  - done.
  - by apply good_retire_pending.
  - by apply good_rebind.
  - by apply good_flip.
  - by apply good_framebuffer.
  - apply good_note; [done|]. intros St. by specialize (Ho St); apply bool_decide_eq_true in Ho.
  - by apply good_replace.
  - by apply good_bind.
  - by apply good_evidence.
Qed.
Lemma good_moved s s' out r : swap_ok s -> good s (s', out, r) -> calm r /\ moved s out s'.
Proof. intros H. destruct r; cbn; try done. intros [-> ->]. split; [done|by apply moved_refl]. Qed.
Lemma void_calm {A} (r : io A) : calm (void r) <-> calm r.
Proof. by destruct r. Qed.
(** A worker failure under a quarantine: the queued frame goes, unreported. *)
Lemma lost_step `{poll : FdPoll} op s :
  swap_ok s -> op_lost op s <> [] ->
  exists e, (run_op op s).1.2 = [] /\ (run_op op s).2 = Fail e /\ moved s (op_lost op s) (run_op op s).1.1.
Proof.
  intros H Hl. destruct op; try done. cbn in Hl |- *. destruct (sc_worker_queued s) as [q|] eqn:E; [|done].
  destruct (sc_quarantine s) as [x|] eqn:Eq; [|done]. destruct (wq_token q =? token) eqn:Et; [|done].
  unfold fail_worker_queued. rewrite E, Et. cbn [negb].
  unfold quarantine_frame, quarantine_slot, atomically, require. cbn. rewrite Eq. cbn. eexists. split_and!; [done..|].
  pose proof (leaves_worker q s H E) as L. apply moved_shrink; [done|apply L|]. cbn. apply L.
Qed.
Lemma moved_step `{poll : FdPoll} op s :
  swap_ok s -> legal strict op s = true -> (forall f, op <> SFinish f) ->
  moved s ((run_op op s).1.2 ++ op_lost op s) (run_op op s).1.1 /\ calm (run_op op s).2.
Proof.
  intros H Hl Hf. destruct (decide (op_lost op s = [])) as [E0|E0].
  2: { destruct (lost_step op s H E0) as (e & E1 & E2 & M). by rewrite E1, E2. }
  rewrite E0, app_nil_r. destruct (decide (is_Some (match op with SRecover => Some tt | _ => None end))) as [Hr|Hr].
  - destruct op; try (by destruct Hr). cbn.
    destruct (recover_suspended_frames_if_signaled s) as [[s' out] r] eqn:E.
    destruct (moved_recover s s' out r H E) as (C & M & _). split; [done|]. by apply void_calm.
  - assert (Hg : good s (run_op op s)) by (apply good_step; try done; intros ->; by apply Hr).
    destruct (run_op op s) as [[s' out] r]. by apply good_moved in Hg as [??].
Qed.

(** ** Histories and the queue *)

Lemma pipe_run_app q es es' : pipe_run q (es ++ es') = pipe_run q es ≫= fun q' => pipe_run q' es'.
Proof. revert q. induction es as [|e es IH]; intros q; cbn; [done|]. by destruct (pipe_step q e); cbn. Qed.
Lemma filter_filter_and {A} (p q : A -> bool) l :
  List.filter p (List.filter q l) = List.filter (fun x => p x && q x) l.
Proof.
  induction l as [|x l IH]; cbn; [done|]. destruct (q x); cbn; [|by rewrite andb_false_r].
  rewrite andb_true_r. by destruct (p x); rewrite IH.
Qed.
Lemma elem_of_bfilter {A} (p : A -> bool) x l : x ∈ List.filter p l <-> x ∈ l /\ p x = true.
Proof. by rewrite !list_elem_of_In, filter_In. Qed.
Lemma withdraw_run ws : forall q, base.NoDup ws -> (forall i, i ∈ ws -> i ∈ q) ->
  pipe_run q (map EWithdraw ws) = Some (List.filter (fun i => negb (bool_decide (i ∈ ws))) q).
Proof.
  induction ws as [|w ws IH]; intros q Hn Hi; cbn [map pipe_run].
  - f_equal. clear Hi. induction q as [|x q IHq]; cbn; [done|]. by f_equal.
  - apply NoDup_cons in Hn as [Hw Hn]. cbn [pipe_step]. rewrite bool_decide_eq_true_2 by (apply Hi; set_solver).
    cbn. rewrite IH; [|done|].
    + f_equal. rewrite filter_filter_and. apply List.filter_ext. intros a.
      case_bool_decide as E1; case_bool_decide as E2; destruct (Z.eqb_spec a w); cbn; set_solver.
    + intros i Hin. apply elem_of_bfilter. split; [apply Hi; set_solver|].
      apply negb_true_iff, Z.eqb_neq. set_solver.
Qed.
Lemma keep_sublist (q q' : list Z) :
  base.NoDup q -> q' `sublist_of` q -> List.filter (fun i => bool_decide (i ∈ q')) q = q'.
Proof.
  intros Hn Hs. induction Hs as [|x q' q Hs IH|x q' q Hs IH]; cbn; [done| |].
  - apply NoDup_cons in Hn as [Hx Hn]. rewrite bool_decide_eq_true_2 by set_solver. f_equal.
    etrans; [|exact (IH Hn)]. apply filter_ext_in. intros a Ha%list_elem_of_In.
    case_bool_decide as E1; case_bool_decide as E2; set_solver.
  - apply NoDup_cons in Hn as [Hx Hn]. rewrite bool_decide_eq_false_2; [by apply IH|].
    intros Hin. apply Hx. by eapply elem_of_sublist.
Qed.
(** The withdrawals of a step that keeps the order. *)
Lemma withdrawals_run (q q' : list Z) :
  base.NoDup q -> q' `sublist_of` q ->
  pipe_run q (map EWithdraw (List.filter (fun i => negb (bool_decide (i ∈ q'))) q)) = Some q'.
Proof.
  intros Hn Hs. rewrite withdraw_run.
  - f_equal. etrans; [|exact (keep_sublist q q' Hn Hs)]. apply filter_ext_in. intros a Ha%list_elem_of_In.
    apply eq_true_iff_eq. rewrite negb_true_iff, bool_decide_eq_false, bool_decide_eq_true, elem_of_bfilter,
      negb_true_iff, bool_decide_eq_false. destruct (decide (a ∈ q')); naive_solver.
  - apply NoDup_ListNoDup, List.NoDup_filter, NoDup_ListNoDup, Hn.
  - intros i Hi. by apply elem_of_bfilter in Hi as [? _].
Qed.

Lemma sorted_nodup (l : list Z) : Sorted Z.lt l -> base.NoDup l.
Proof.
  intros Hs. apply Sorted_StronglySorted in Hs; [|exact Z.lt_trans].
  induction Hs as [|x l Hs IH Hf]; constructor; [|done]. intros Hin. rewrite Forall_forall in Hf.
  specialize (Hf x Hin). lia.
Qed.
Record history_ok (h : SwapHistory) : Prop := {
  ho_chain : swap_ok (hi_chain h);
  ho_pipe : pipe_run [] (hi_events h) = Some (frame_ids (hi_chain h));
  ho_live : accepted (hi_events h) ≡ₚ map fr_id (hi_out h ++ hi_lost h) ++ live_ids (hi_chain h);
  ho_accepted : Sorted Z.lt (accepted (hi_events h));
  ho_below : Forall (fun i => i < sc_next_frame_id (hi_chain h)) (accepted (hi_events h));
  ho_presented : Sorted Z.lt (presented (hi_events h));
  ho_behind : Forall (fun i => i < sc_next_frame_id (hi_chain h) /\ Forall (Z.lt i) (frame_ids (hi_chain h)))
                (presented (hi_events h))
}.
(** A step that moves frames out, and its events. *)
Lemma history_moved h s' out lost es :
  history_ok h -> moved (hi_chain h) (out ++ lost) s' ->
  pipe_run (frame_ids (hi_chain h)) es = Some (frame_ids s') -> accepted es = [] ->
  (presented es = [] \/ exists id, presented es = [id] /\ frame_ids (hi_chain h) = id :: frame_ids s') ->
  history_ok (mkHistory s' (hi_events h ++ es) (hi_out h ++ out) (hi_lost h ++ lost)).
Proof.
  intros [H1 H2 H3 H4 H5 H6 H7] (M1 & M2 & M3 & M4) Hp Ha Hs.
  assert (Hb : Forall (fun i => i < sc_next_frame_id s' /\ Forall (Z.lt i) (frame_ids s')) (presented (hi_events h))).
  { eapply Forall_impl; [exact H7|]. intros i [Hi1 Hi2]. split; [lia|]. rewrite Forall_forall in *.
    intros j Hj. apply Hi2. by eapply elem_of_sublist. }
  assert (Hr : accepted (hi_events h ++ es) = accepted (hi_events h))
    by (unfold accepted in *; by rewrite omap_app, Ha, app_nil_r).
  split; cbn [hi_chain hi_events hi_out hi_lost]; rewrite ?Hr; try done.
  - by rewrite pipe_run_app, H2.
  - rewrite H3, M3, !map_app. solve_Permutation.
  - eapply Forall_impl; [exact H5|]. cbn. intros. lia.
  - unfold presented in *. rewrite omap_app. destruct Hs as [->|(id & -> & Hid)]; [by rewrite app_nil_r|].
    apply sorted_last; [done|]. eapply Forall_impl; [exact H7|]. intros i [_ Hi]. rewrite Hid in Hi.
    by apply Forall_cons in Hi as [? _].
  - unfold presented in *. rewrite omap_app. apply Forall_app. split; [done|].
    destruct Hs as [->|(id & -> & Hid)]; [constructor|]. constructor; [|done].
    pose proof (ok_sorted _ H1) as Hs. pose proof (ok_below _ H1) as Hw. rewrite Hid in Hs, Hw.
    apply Forall_cons in Hw as [Hw _]. split; [lia|].
    apply Sorted_StronglySorted in Hs; [|exact Z.lt_trans]. by inversion Hs.
Qed.
Lemma history_accept h f s' :
  history_ok h -> swap_ok s' -> frame_ids s' = frame_ids (hi_chain h) ++ [fr_id f] ->
  fr_id f = sc_next_frame_id (hi_chain h) -> sc_next_frame_id s' = fr_id f + 1 ->
  suspended_frames s' = suspended_frames (hi_chain h) ->
  history_ok (mkHistory s' (hi_events h ++ [EAccept (fr_id f)]) (hi_out h ++ []) (hi_lost h ++ [])).
Proof.
  intros [H1 H2 H3 H4 H5 H6 H7] O Hi Hn Hn' Hsu.
  assert (Hr : accepted (hi_events h ++ [EAccept (fr_id f)]) = accepted (hi_events h) ++ [fr_id f])
    by (unfold accepted; by rewrite omap_app).
  assert (Hp : presented (hi_events h ++ [EAccept (fr_id f)]) = presented (hi_events h))
    by (unfold presented; rewrite omap_app; cbn; by rewrite app_nil_r).
  split; cbn [hi_chain hi_events hi_out hi_lost]; rewrite ?Hr, ?Hp, ?Hi, ?Hn'; try done.
  - rewrite pipe_run_app, H2. cbn [mbind option_bind pipe_run pipe_step].
    pose proof (two_frames _ (ok_valid _ O)) as Ht. pose proof (f_equal length Hi) as Hl.
    unfold frame_ids in Hl. rewrite length_app, !length_map in Hl. cbn [length] in Hl.
    rewrite (proj2 (Z.ltb_lt (zlen _) 2)) by (rewrite ids_length; unfold zlen; lia).
    rewrite (proj2 (forallb_forall _ _)); [done|]. intros i Hin%list_elem_of_In. apply Z.ltb_lt.
    pose proof (ok_below _ H1) as Hb. rewrite Forall_forall in Hb. rewrite Hn. by apply Hb.
  - rewrite H3, !app_nil_r. unfold live_ids. rewrite Hi, Hsu. solve_Permutation.
  - apply sorted_last; [done|]. by rewrite Hn.
  - apply Forall_app. split; [|constructor; [lia|done]]. eapply Forall_impl; [exact H5|]. cbn. intros. lia.
  - eapply Forall_impl; [exact H7|]. intros i [Hi1 Hi2]. split; [lia|]. apply Forall_app.
    split; [done|]. constructor; [lia|done].
Qed.
Lemma withdraw_accepted ws : accepted (map EWithdraw ws) = [] /\ presented (map EWithdraw ws) = [].
Proof. by induction ws. Qed.
(** A step whose events are its withdrawals. *)
Lemma history_withdraw h s' out lost :
  history_ok h -> moved (hi_chain h) (out ++ lost) s' ->
  history_ok (mkHistory s' (hi_events h ++ map EWithdraw
    (List.filter (fun i => negb (bool_decide (i ∈ frame_ids s'))) (frame_ids (hi_chain h)))) (hi_out h ++ out) (hi_lost h ++ lost)).
Proof.
  intros H M. pose proof (ho_chain h H) as O. apply history_moved; [done|done| | |].
  - apply withdrawals_run; [apply sorted_nodup, O|apply M].
  - apply withdraw_accepted.
  - left. apply withdraw_accepted.
Qed.
Lemma op_events_other op s p :
  (forall f, op <> SFinish f) -> (forall token g, op <> SFlip token g) ->
  op_events op s p =
  map EWithdraw (List.filter (fun i => negb (bool_decide (i ∈ frame_ids p.1.1))) (frame_ids s)).
Proof.
  intros H1 H2. destruct p as [[s' out] r]. destruct op; cbn; try done; [by destruct (H1 f)|by destruct (H2 token generation)].
Qed.
Lemma op_kind op :
  (exists f, op = SFinish f) \/ (exists token g, op = SFlip token g) \/
  ((forall f, op <> SFinish f) /\ (forall token g, op <> SFlip token g)).
Proof. destruct op; try (by right; right); [left|right; left]; eauto. Qed.
Lemma history_step_ok `{poll : FdPoll} op h :
  history_ok h -> legal strict op (hi_chain h) = true -> history_ok (history_step op h).
Proof.
  intros H Hl. pose proof (ho_chain h H) as O. unfold history_step.
  destruct (op_kind op) as [[f ->]|[(token & g & ->)|[Hf Hg]]].
  - cbn [run_op]. destruct (finish_cases f (hi_chain h) O (proj1 (proj1 (andb_true_iff _ _) Hl))) as [[e ->]|(s' & -> & O' & F1 & F2 & F3 & F4 & _)].
    + apply history_withdraw; [done|by apply moved_refl].
    + by apply history_accept.
  - cbn [run_op]. destruct (flip_cases token g (hi_chain h) O)
      as [[e ->]|(p & c & s' & -> & Ep & Ec & _ & _ & _ & _ & Hi & Hm)].
    + apply history_withdraw; [done|by apply moved_refl].
    + unfold settle. cbn [fst snd op_events map void mbind res_bind]. rewrite Ec.
      apply history_moved; try done; [rewrite Hi; cbn; by rewrite Z.eqb_refl|]. right. by eexists.
  - rewrite op_events_other by done. apply history_withdraw; [done|]. by apply moved_step.
Qed.
Lemma history_runs_ok `{poll : FdPoll} ops : forall h,
  history_ok h -> legal_history strict h ops = true -> history_ok (history h ops).
Proof.
  induction ops as [|op ops IH]; intros h H Hl; cbn in *; [done|]. apply andb_true_iff in Hl as [Hl Hr].
  apply IH; [|done]. by apply history_step_ok.
Qed.
Lemma fresh_ok output slots current generation s :
  from_presented_slots_for_output output slots current generation = Ret s -> history_ok (fresh_history s).
Proof.
  unfold from_presented_slots_for_output. case_match eqn:E; [done|]. intros [= <-].
  apply negb_false_iff in E. split; cbn; try constructor; try done; try (by repeat constructor).
  - split; cbn; try constructor; try done; repeat constructor; try done; set_solver.
Qed.

Lemma legal_snoc `{poll : FdPoll} op ops : forall h,
  legal_history strict h (ops ++ [op]) = true ->
  legal_history strict h ops = true /\ legal strict op (hi_chain (history h ops)) = true.
Proof.
  induction ops as [|o ops IH]; intros h; cbn; rewrite !andb_true_iff; [naive_solver|].
  intros [H1 H2]. apply IH in H2. tauto.
Qed.
Lemma step_clean `{poll : FdPoll} op s :
  swap_ok s -> legal strict op s = true ->
  let '(s', out, r) := run_op op s in
  match r with
  | Ret _ => True
  | Fail _ => (s' = s /\ out = []) \/ (op = SRecover /\ is_Some (sc_quarantine s)) \/ op_lost op s <> []
  | Panic | NoFuel => False
  end.
Proof.
  intros O Hl. destruct (decide (op_lost op s = [])) as [E0|E0].
  2: { destruct (lost_step op s O E0) as (e & _ & E2 & _). destruct (run_op op s) as [[s' out] r]. cbn in E2. subst r. by right; right. }
  destruct (decide (is_Some (match op with SRecover => Some tt | _ => None end))) as [Hr|Hr].
  - destruct op; try (by destruct Hr). cbn.
    destruct (recover_suspended_frames_if_signaled s) as [[s' out] r] eqn:E.
    destruct (moved_recover s s' out r O E) as (C & _ & Hn). destruct r as [b|e| |]; cbn; try done.
    destruct (sc_quarantine s) as [q|]; [right; left; split; [done|by eexists]|left]. by apply Hn.
  - assert (Hc : (exists f, op = SFinish f) \/ forall f, op <> SFinish f)
      by (destruct (op_kind op) as [?|[(token & g & ->)|[? _]]]; [by left|by right|by right]).
    destruct Hc as [[f ->]|Hf].
    + cbn [run_op]. destruct (finish_cases f s O (proj1 (proj1 (andb_true_iff _ _) Hl))) as [[e ->]|(s' & -> & _)]; [by left|done].
    + pose proof (good_step op s O Hl E0 Hf) as Hg. destruct (run_op op s) as [[s' out] r].
      assert (op <> SRecover) as Hn by (intros ->; by apply Hr).
      specialize (Hg Hn). destruct r; cbn in Hg; try done. by left.
Qed.

End Histories.

(** ** Binding a deferred frame *)

(** The claim [k] refreshes after [c], and whether its window is feasible. *)
Definition claim_after (interval : Duration) (c : PrimaryRefreshClaim) (k : Z) : PrimaryRefreshClaim :=
  mkClaim (cl_sequence c + k) (cl_presentation_time c + k * duration_ns interval) (cl_clock_generation c).
Definition feasible (w : KmsSubmitWindow) (earliest : Z) (c : PrimaryRefreshClaim) : bool :=
  is_Ret (rebind w (cl_presentation_time c) earliest).
Definition representable (c : PrimaryRefreshClaim) : Prop :=
  cl_sequence c <= u64_max /\ cl_presentation_time c <= u64_max.
Lemma duration_ns_nonneg d : 0 <= d -> 0 <= duration_ns d.
Proof. unfold duration_ns. int_lia. Qed.
Lemma claim_successor_after interval c k c' :
  0 <= cl_sequence c -> 0 <= cl_presentation_time c -> 0 <= interval -> 0 <= k ->
  claim_successor interval (claim_after interval c k) = Some c' <->
  c' = claim_after interval c (k + 1) /\ representable c'.
Proof.
  intros H1 H2 H3%duration_ns_nonneg H4.
  unfold claim_successor, ts_checked_add, checked_add, representable, claim_after. cbn.
  rewrite bind_Some. setoid_rewrite bind_Some. setoid_rewrite checked_Some. split.
  - intros (q & (-> & Hq) & t & (-> & Ht) & [= <-]). cbn. split; [f_equal; lia|lia].
  - intros (-> & Hq & Ht). cbn in *. eexists. split; [split; [done|lia]|]. eexists. split; [split; [done|lia]|].
    do 2 f_equal; lia.
Qed.
Section Binding.
Context (intent : O1PrepareIntent) (w : KmsSubmitWindow) (earliest : Z) (c : PrimaryRefreshClaim).
Let after := claim_after (o1_refresh_interval intent) c.
Context (Hq : 0 <= cl_sequence c) (Ht : 0 <= cl_presentation_time c) (Hd : 0 <= o1_refresh_interval intent).
(** What the loop over the claims answers when it stops at the [m]-th. *)
Definition stops_at (m : Z) (r : io (PresentationTarget * KmsSubmitWindow)) : Prop :=
  representable (after m) /\ (forall j, 1 <= j < m -> feasible w earliest (after j) = false) /\
  ((exists window, rebind w (cl_presentation_time (after m)) earliest = Ret window /\
      r = Ret (bind_target intent (after m) earliest, window)) \/
   (feasible w earliest (after m) = false /\ ~ representable (after (m + 1)) /\ r = Fail FeasibleOverflow)).
Lemma bind_loop n : forall k,
  1 <= k -> representable (after k) -> (forall j, 1 <= j < k -> feasible w earliest (after j) = false) ->
  u64_max < cl_sequence c + k + Z.of_nat n ->
  exists m r, k <= m /\ loop_nat (bind_step intent (Ret w) earliest) n (after k) = inr r /\ stops_at m r.
Proof.
  induction n as [|n IH]; intros k Hk Hr Hj Hn; [destruct Hr as [Hr _]; cbn in Hr; lia|].
  cbn [loop_nat]. unfold bind_step at 1. cbn [bind_target pt_presentation_time].
  destruct (rebind w (cl_presentation_time (after k)) earliest) as [window|e| |] eqn:E.
  { exists k. eexists. split; [lia|]. split; [done|]. split_and!; [done..|]. left. by eexists. }
  all: assert (Hf : feasible w earliest (after k) = false) by (unfold feasible; by rewrite E).
  all: destruct (claim_successor (o1_refresh_interval intent) (after k)) as [c'|] eqn:Es;
    [apply claim_successor_after in Es as [-> Hr']; try lia;
     destruct (IH (k + 1)) as (m & r & Hm & Hl & Hs); [lia|done| |lia|exists m, r; split; [lia|done]];
     intros j ?; destruct (decide (j = k)) as [->|]; [done|apply Hj; lia]
    |exists k; eexists; split; [lia|]; split; [done|]; split_and!; [done..|]; right; split_and!; try done;
     intros Hr'; assert (Hc := proj2 (claim_successor_after (o1_refresh_interval intent) c k _ Hq Ht Hd ltac:(lia)) (conj eq_refl Hr'));
     unfold after in Es; congruence].
Qed.
Lemma bind_loop_stops :
  representable (after 1) ->
  exists m r, 1 <= m /\ loop_res bind_fuel (bind_step intent (Ret w) earliest) (after 1)
                        = Ret (E := SwapError) r /\ stops_at m r.
Proof.
  intros H1. assert (Hb : Z.of_nat (Pos.to_nat bind_fuel) = 2 ^ 64) by (by rewrite positive_nat_Z).
  destruct (bind_loop (Pos.to_nat bind_fuel) 1) as (m & r & Hm & Hl & Hs);
    [lia|done|intros; lia|rewrite Hb; int_lia|].
  exists m, r. split; [done|]. split; [|done]. unfold loop_res. by rewrite loop_pos_nat, Hl.
Qed.
Lemma bound_result (id : OutputTransactionId) m r search :
  search = Ret (E := SwapError) r -> stops_at m r -> 1 <= m ->
  (r ← search;
   '(target, window) ← r;
   Ret (Some (id, target, window,
              sat_sub (sat_sub (cl_sequence (pt_physical_claim target)) (cl_sequence c)) 1)))
  = ('(target, window) ← r; Ret (Some (id, target, window, m - 1))).
Proof.
  intros -> (_ & _ & [(window & _ & ->)|(_ & _ & ->)]) Hm; [|done]. cbn. do 4 f_equal. unfold sat_sub. lia.
Qed.
End Binding.

(** The search of a frame that can be bound, in terms of the loop. *)
Lemma candidate_search s f intent w actual bind_at :
  sc_ready s = Some f -> fr_reservation f = DeferredO1 intent -> fr_presentation_timing f = TimingFixed w ->
  let earliest := Z.max bind_at (sat_add u64_max (cl_presentation_time actual) 100000) in
  deferred_o1_binding_candidate_for_readiness (Bindable (o1_predecessor intent) actual) bind_at s
  = match claim_successor (o1_refresh_interval intent) actual with
    | None => Fail SuccessorOverflow
    | Some claim =>
        r ← loop_res bind_fuel (bind_step intent (Ret w) earliest) claim;
        '(target, window) ← r;
        Ret (Some (fr_transaction_id f, target, window,
                   sat_sub (sat_sub (cl_sequence (pt_physical_claim target)) (cl_sequence actual)) 1))
    end.
Proof.
  intros Hr Hi Hw earliest. unfold deferred_o1_binding_candidate_for_readiness, require_fixed_submit_window.
  rewrite Hr, Hi, Hw. rewrite bool_decide_eq_true_2 by done. cbn [fixed_submit_window ok_or]. fold earliest.
  generalize (loop_res (E := SwapError) bind_fuel (bind_step intent (Ret w) earliest)). intros search.
  by destruct (claim_successor (o1_refresh_interval intent) actual).
Qed.
Lemma first_successor interval c c' :
  0 <= cl_sequence c -> 0 <= cl_presentation_time c -> 0 <= interval ->
  claim_successor interval c = Some c' <-> c' = claim_after interval c 1 /\ representable c'.
Proof.
  intros H1 H2 H3. rewrite <- (claim_successor_after interval c 0 c' H1 H2 H3 ltac:(lia)).
  replace (claim_after interval c 0) with c; [done|]. unfold claim_after. destruct c. cbn. f_equal; lia.
Qed.

(** ** Examples *)

#[local] Instance all_signaled_poll : FdPoll :=
  {| poll_completion := fun _ => Some true; poll_readiness := fun _ => Some true |}.
Definition demo_slots : OutputSlotSet := mkSlots 0 1 2.
Definition demo_claim (n : Z) : PrimaryRefreshClaim := mkClaim n (n * 16000000) 1.
Definition demo_target (n : Z) : PresentationTarget :=
  mkTarget n (n * 16000000) 0 0 16000000 Normal 1 false false (demo_claim n) (mkEvidence n true).
Definition demo_window : KmsSubmitWindow := mkWindow None 16000000 0 0 0 1000000 500000.
Definition demo_frame (id slot : Z) : RenderedOutputFrame :=
  mkFrame 1 id (id + 100) slot (id + 200) 1 1 (Fixed (demo_target id)) (TimingFixed demo_window)
    (mkFence (Some (id + 300)) (Some (id + 400))) id None None.
Definition demo_chain : AtomicOutputSwapchain :=
  mkSwapchain 1 demo_slots 1 0 None None None None None None [None; None] 1 0 None None None None.
(** Two frames are rendered; the first is presented, the second is queued for
    the worker, taken back when the session is suspended and retired; a third
    is submitted synchronously. *)
Definition demo_ops : list SwapOp :=
  [SAcquireFor 2 (Fixed (demo_target 1)); SFinish (demo_frame 1 1); SWorker 7 0; SAcquire 2;
   SFinish (demo_frame 2 2); SPromote 7 None 1 2; SFlip 7 1; SNote (demo_claim 1); SWorker 8 3;
   SSuspendAll; SRecover; SAcquire 2; SFinish (demo_frame 3 0);
   SSubmit (mkFence None (Some 403)) (SubAccepted 9 None 4 5); SFlip 9 1].
Definition demo_history : SwapHistory := history (fresh_history demo_chain) demo_ops.
Example demo_history_events :
  hi_events demo_history = [EAccept 1; EAccept 2; EPresent 1; EWithdraw 2; EAccept 3; EPresent 3] /\
  map fr_id (hi_out demo_history) = [1; 2; 3] /\ sc_current (hi_chain demo_history) = 0.
Proof. by vm_compute. Qed.

Lemma own_claims_legal `{poll : FdPoll} h ops : forallb own_claim ops = true -> legal_history false h ops = true.
Proof.
  revert h. induction ops as [|op ops IH]; intros h; [done|]. cbn. unfold legal. cbn. rewrite andb_true_r.
  intros [-> Ho]%andb_true_iff. by apply IH.
Qed.
Lemma no_failure_no_loss `{poll : FdPoll} h ops :
  (forall token, SFailWorker token ∉ ops) -> hi_lost h = [] -> hi_lost (history h ops) = [].
Proof.
  revert h. induction ops as [|op ops IH]; intros h Hn Hl; [done|]. cbn. apply IH; [intros token; specialize (Hn token); set_solver|].
  cbn. rewrite Hl. destruct op; try done. exfalso. apply (Hn token). set_solver.
Qed.

(** ** Properties *)

(** C20: the swapchain's own validation, with its sixteen kinds of error, is
    exact: it accepts precisely the states in which every owned slot is in the
    pool and has one owner, at most one frame is being prepared, a reservation
    for rendering has a slot and the current clock, every frame of the future
    belongs to the pool, has a target that agrees with its claim and a timing
    of its own kind, suspended slots hold frames of their own slot, and the
    reservations that are bound are strictly ordered after the last claim that
    was presented. *)
Theorem swapchain_validation_exact (s : AtomicOutputSwapchain) :
  validate_invariants s = true <-> swap_valid s.
Proof.
  rewrite <- validate_iff. unfold validate_invariants.
  destruct (validate_invariants_diagnostic s) as [[]| | |]; cbn; naive_solver.
Qed.

(** C3: ownership in a swapchain is sound. In every history of an output,
    whatever is rendered, submitted, refused, returned, suspended, quarantined,
    recovered or presented and in whatever order, as long as a frame that is
    finished with a fixed target carries the claim of that target: every owned
    slot is in the pool and has one owner, every frame belongs to the pool and
    has a target and a timing that agree, suspended slots hold their own frames
    and bound reservations are strictly ordered. The whole validation of the
    code passes after every history that is also orderly: no reservation of
    another clock, no return for a new plan during a render, no quarantine of
    a render that holds a reservation, and no presentation noted while a frame
    is pending. *)
Theorem swapchain_invariant `{poll : FdPoll} (output : Z) (slots : OutputSlotSet) (current generation : Z)
  (s : AtomicOutputSwapchain) (ops : list SwapOp)
  (Hs : from_presented_slots_for_output output slots current generation = Ret s) :
  (forallb own_claim ops = true -> swap_sound (hi_chain (history (fresh_history s) ops))) /\
  (legal_history true (fresh_history s) ops = true ->
   validate_invariants (hi_chain (history (fresh_history s) ops)) = true).
Proof.
  split.
  - intros Ho. by eapply (ok_valid false), (ho_chain false), (history_runs_ok false);
      [eapply fresh_ok|apply own_claims_legal].
  - intros Hl. assert (O : swap_ok true (hi_chain (history (fresh_history s) ops)))
      by (eapply ho_chain, (history_runs_ok true); [by eapply fresh_ok|done]).
    unfold validate_invariants. rewrite (proj2 (validate_iff _)); [done|]. apply valid_parts.
    split; [apply O|by apply (ok_tidy _ _ O)].
Qed.
Lemma swapchain_invariant_witness :
  swap_sound (hi_chain demo_history) /\ validate_invariants (hi_chain demo_history) = true.
Proof.
  unfold demo_history. destruct (swapchain_invariant 1 demo_slots 0 1 demo_chain demo_ops eq_refl) as [H1 H2].
  split; [apply H1|apply H2]; vm_compute; reflexivity.
Defined.

(** C19: frames are accounted for. In every history whose finished frames carry
    the claim of their own target, the frames the swapchain accepted are those
    that left it (presented, failed, retired), those on their way to the screen,
    those held while suspended, and the queued frames that a failure of the
    worker drops because a slot is already quarantined; each once. Without such
    a failure no frame is lost. *)
Theorem frames_are_conserved `{poll : FdPoll} (output : Z) (slots : OutputSlotSet) (current generation : Z)
  (s : AtomicOutputSwapchain) (ops : list SwapOp)
  (Hs : from_presented_slots_for_output output slots current generation = Ret s)
  (Ho : forallb own_claim ops = true) :
  let h := history (fresh_history s) ops in
  accepted (hi_events h) ≡ₚ map fr_id (hi_out h ++ hi_lost h) ++ live_ids (hi_chain h) /\
  base.NoDup (map fr_id (hi_out h ++ hi_lost h) ++ live_ids (hi_chain h)) /\
  ((forall token, SFailWorker token ∉ ops) -> hi_lost h = []).
Proof.
  intros h. pose proof (history_runs_ok false ops _ (fresh_ok _ _ _ _ _ _ Hs) (own_claims_legal _ _ Ho)) as H.
  fold h in H. split_and!; [apply H| |].
  - rewrite <- (ho_live _ _ H). apply sorted_nodup, H.
  - intros Hn. by apply no_failure_no_loss.
Qed.
Lemma frames_are_conserved_witness :
  accepted (hi_events demo_history) ≡ₚ map fr_id (hi_out demo_history ++ hi_lost demo_history) ++ live_ids (hi_chain demo_history).
Proof.
  unfold demo_history.
  refine (proj1 (frames_are_conserved 1 demo_slots 0 1 demo_chain demo_ops _ _)); vm_compute; reflexivity.
Defined.

(** C9: seen from the screen the swapchain is a queue of at most two frames.
    In every history whose finished frames carry the claim of their own target,
    a frame enters at the end with a greater number than the ones before it,
    only the frame at the front is presented, a frame may be withdrawn from
    anywhere, and presentation follows the order of rendering: the numbers of
    the frames presented are strictly increasing. *)
Theorem swapchain_refines_fifo `{poll : FdPoll} (output : Z) (slots : OutputSlotSet) (current generation : Z)
  (s : AtomicOutputSwapchain) (ops : list SwapOp)
  (Hs : from_presented_slots_for_output output slots current generation = Ret s)
  (Ho : forallb own_claim ops = true) :
  let h := history (fresh_history s) ops in
  pipe_run [] (hi_events h) = Some (frame_ids (hi_chain h)) /\ Sorted Z.lt (presented (hi_events h)).
Proof.
  intros h. pose proof (history_runs_ok false ops _ (fresh_ok _ _ _ _ _ _ Hs) (own_claims_legal _ _ Ho)) as H.
  fold h in H. split; apply H.
Qed.
Lemma swapchain_refines_fifo_witness :
  pipe_run [] (hi_events demo_history) = Some (frame_ids (hi_chain demo_history)) /\
  presented (hi_events demo_history) = [1; 3].
Proof.
  split; [|vm_compute; reflexivity]. unfold demo_history.
  refine (proj1 (swapchain_refines_fifo 1 demo_slots 0 1 demo_chain demo_ops _ _)); vm_compute; reflexivity.
Defined.

(** Errors are clean. In a state a history reaches, no operation panics,
    and one that is refused leaves the swapchain as it was and takes no frame
    from it; only recovery refused because of a quarantined slot has retired
    the suspended frames before it fails, and a worker failure refused for the
    same reason has dropped its frame. *)
Theorem refused_operations_change_nothing `{poll : FdPoll} (output : Z) (slots : OutputSlotSet)
  (current generation : Z) (s : AtomicOutputSwapchain) (ops : list SwapOp) (op : SwapOp)
  (Hs : from_presented_slots_for_output output slots current generation = Ret s)
  (Ho : forallb own_claim (ops ++ [op]) = true) :
  let c := hi_chain (history (fresh_history s) ops) in
  let '(c', out, r) := run_op op c in
  match r with
  | Ret _ => True
  | Fail _ => (c' = c /\ out = []) \/ (op = SRecover /\ is_Some (sc_quarantine c)) \/ op_lost op c <> []
  | Panic | NoFuel => False
  end.
Proof.
  apply (own_claims_legal (fresh_history s)) in Ho. apply legal_snoc in Ho as [H1 H2]. intros c.
  apply (step_clean false); [|done]. apply (history_runs_ok false ops _ (fresh_ok _ _ _ _ _ _ Hs) H1).
Qed.
Lemma refused_operations_change_nothing_witness :
  let c := hi_chain demo_history in
  let '(c', out, r) := run_op (SFlip 9 1) c in
  r = Fail NoPendingFrame /\
  ((c' = c /\ out = []) \/ (SFlip 9 1 = SRecover /\ is_Some (sc_quarantine c)) \/ op_lost (SFlip 9 1) c <> []).
Proof.
  assert (Hl : forallb own_claim (demo_ops ++ [SFlip 9 1]) = true)
    by (vm_compute; reflexivity).
  pose proof (refused_operations_change_nothing 1 demo_slots 0 1 demo_chain demo_ops (SFlip 9 1)
                eq_refl Hl) as H.
  fold demo_history in H. cbv zeta in *.
  destruct (run_op (SFlip 9 1) (hi_chain demo_history)) as [[c' out] r] eqn:E.
  assert (Hr : r = Fail NoPendingFrame) by (by vm_compute in E; injection E as _ _ <-).
  rewrite Hr in *. split; [reflexivity|exact H].
Defined.

(** A deferred frame is bound to the first refresh it can make. Once the
    predecessor's presentation is known, the search over the claims after it
    ends: with the first claim whose submit window is feasible, and the number
    of refreshes passed over, or with an overflow error when the clock runs
    out before. *)
Theorem deferred_binding_first_feasible (s : AtomicOutputSwapchain) (f : RenderedOutputFrame)
  (intent : O1PrepareIntent) (w : KmsSubmitWindow) (actual : PrimaryRefreshClaim)
  (bind_at : MonotonicTimestampNs)
  (Hr : sc_ready s = Some f) (Hi : fr_reservation f = DeferredO1 intent)
  (Hw : fr_presentation_timing f = TimingFixed w)
  (Hq : 0 <= cl_sequence actual) (Ht : 0 <= cl_presentation_time actual)
  (Hd : 0 <= o1_refresh_interval intent) :
  let earliest := Z.max bind_at (sat_add u64_max (cl_presentation_time actual) 100000) in
  let result := deferred_o1_binding_candidate_for_readiness
                  (Bindable (o1_predecessor intent) actual) bind_at s in
  (result = Fail SuccessorOverflow /\
   ~ representable (claim_after (o1_refresh_interval intent) actual 1)) \/
  (exists m r, 1 <= m /\ stops_at intent w earliest actual m r /\
     result = ('(target, window) ← r; Ret (Some (fr_transaction_id f, target, window, m - 1)))).
Proof.
  intros earliest result. unfold result. rewrite (candidate_search s f intent w actual bind_at Hr Hi Hw).
  fold earliest. destruct (claim_successor (o1_refresh_interval intent) actual) as [first|] eqn:E.
  - right. apply first_successor in E as [-> Hf]; [|done..].
    destruct (bind_loop_stops intent w earliest actual Hq Ht Hd Hf) as (m & r & Hm & Hl & Hs).
    exists m, r. split; [exact Hm|]. split; [exact Hs|]. exact (bound_result _ _ _ _ _ _ _ _ Hl Hs Hm).
  - left. split; [reflexivity|]. intros Hf.
    rewrite (proj2 (first_successor _ _ _ Hq Ht Hd) (conj eq_refl Hf)) in E. discriminate E.
Qed.
Definition demo_intent : O1PrepareIntent :=
  intent_from_target (demo_target 2) 1 (mkAnchor 1 101 7 1).
Definition demo_deferred : RenderedOutputFrame :=
  mkFrame 1 2 102 2 202 1 1 (DeferredO1 demo_intent) (TimingFixed demo_window)
    (mkFence (Some 302) (Some 402)) 2 None None.
(** The frame is bound at 20 ms after the refresh of its predecessor: two
    refreshes are passed over. *)
Lemma deferred_binding_first_feasible_witness :
  let s := set_ready_frame (Some demo_deferred) demo_chain in
  exists m r, 1 <= m /\ stops_at demo_intent demo_window 50000000 (demo_claim 1) m r /\
    deferred_o1_binding_candidate_for_readiness (Bindable (mkAnchor 1 101 7 1) (demo_claim 1)) 50000000 s
    = ('(target, window) ← r; Ret (Some (102, target, window, m - 1))).
Proof.
  destruct (deferred_binding_first_feasible (set_ready_frame (Some demo_deferred) demo_chain) demo_deferred
    demo_intent demo_window (demo_claim 1) 50000000) as [[E _]|H]; try reflexivity; try (cbn; lia).
  - exfalso. revert E. vm_compute. discriminate.
  - exact H.
Defined.

(** ** Where a check is missing *)

(** Quarantining the slot of a failed render leaves its reservation
    behind: after a render that was started for a reservation, the swapchain
    no longer passes its own validation. *)
Theorem quarantine_strands_reservation (s s' : AtomicOutputSwapchain) (fence : option Fd)
  (reason : OutputQuarantineReason) (slot : OutputSlotId)
  (Hr : is_Some (sc_rendering_reservation s))
  (Hq : quarantine_rendering fence reason s = (s', Ret slot)) :
  validate_invariants s' = false.
Proof.
  apply not_true_iff_false. intros Hv. unfold validate_invariants in Hv.
  destruct (validate_invariants_diagnostic s') as [[]| | |] eqn:E; try discriminate Hv.
  apply validate_iff in E. pose proof (sv_unreserved _ E) as Hu. destruct Hr as [r Hr].
  unfold quarantine_rendering, quarantine_slot, atomically, require in Hq.
  case_bool_decide; [done|]. destruct (sc_rendering s); [|done]. cbn in Hq.
  destruct (sc_quarantine s); [done|]. cbn in Hq. case_bool_decide; [|done]. injection Hq as <- <-.
  cbn in Hu. specialize (Hu eq_refl). congruence.
Qed.
Lemma quarantine_strands_reservation_witness :
  let s := hi_chain (history (fresh_history demo_chain) [SAcquireFor 2 (Fixed (demo_target 1))]) in
  let s' := (quarantine_rendering None PostDrawRenderFailure s).1 in
  validate_invariants s = true /\ validate_invariants s' = false /\
  validate_invariants_diagnostic s' = Fail RenderingReservationWithoutSlot.
Proof.
  intros s s'. split; [vm_compute; reflexivity|]. split; [|vm_compute; reflexivity].
  refine (quarantine_strands_reservation s s' None PostDrawRenderFailure 1 _ _).
  - exists (Fixed (demo_target 1)). vm_compute. reflexivity.
  - vm_compute. reflexivity.
Defined.

(** A queued frame is returned for a new plan although another frame is
    being rendered: two frames are prepared at once, which validation refuses. *)
Theorem replan_while_rendering_invalid (s s' : AtomicOutputSwapchain) (token : PageFlipToken)
  (fence : option Fd) (cursor : option FrozenCursorPlaneOwner)
  (Hg : is_Some (sc_rendering s))
  (Hr : return_worker_queued_for_replan token fence cursor s = (s', Ret true)) :
  validate_invariants s' = false.
Proof.
  apply not_true_iff_false. intros Hv. unfold validate_invariants in Hv.
  destruct (validate_invariants_diagnostic s') as [[]| | |] eqn:E; try discriminate Hv.
  apply validate_iff in E. pose proof (sv_prepared _ E) as Hu. destruct Hg as [g Hg].
  unfold return_worker_queued_for_replan in Hr. destruct (sc_worker_queued s) as [q|]; [|done].
  destruct (validate_worker_queued_for_replan _ _ _ s) as [u| | |]; try done. cbn in Hr.
  destruct (restore_submission_fd _ _) as [fd| | |]; try done. cbn in Hr. injection Hr as <-.
  cbn in Hu. destruct Hu; congruence.
Qed.
Lemma replan_while_rendering_invalid_witness :
  let s := hi_chain (history (fresh_history demo_chain)
             [SAcquire 2; SFinish (demo_frame 1 1); SWorker 7 0; SAcquire 2]) in
  let s' := (return_worker_queued_for_replan 7 (Some 301) None s).1 in
  validate_invariants s = true /\ validate_invariants s' = false.
Proof.
  intros s s'. split; [vm_compute; reflexivity|].
  refine (replan_while_rendering_invalid s s' 7 (Some 301) None _ _).
  - exists 2. vm_compute. reflexivity.
  - vm_compute. reflexivity.
Defined.

(** When a slot is already quarantined, the report that the worker failed
    is refused after the queued frame was taken: the frame is in no place of
    the swapchain and was not returned. *)
Theorem failed_worker_drops_frame (s : AtomicOutputSwapchain) (q : WorkerQueuedOutputFrame)
  (Hw : sc_worker_queued s = Some q) (Hq : is_Some (sc_quarantine s)) :
  fail_worker_queued (wq_token q) s = (set_queued_frame None s, Fail AlreadyQuarantined) /\
  frame_ids s ≡ₚ fr_id (wq_frame q) :: frame_ids (set_queued_frame None s).
Proof.
  destruct Hq as [x Hq]. split.
  - unfold fail_worker_queued. rewrite Hw, Z.eqb_refl. cbn [negb].
    unfold quarantine_frame, quarantine_slot, atomically, require. cbn. by rewrite Hq.
  - unfold frame_ids. rewrite !frames_split. unfold in_flight. cbn [sc_pending sc_worker_queued sc_ready set_queued_frame].
    rewrite Hw. cbn. rewrite !map_app. cbn. solve_Permutation.
Qed.
Lemma failed_worker_drops_frame_witness :
  let s := hi_chain (history (fresh_history demo_chain)
             [SAcquire 2; SFinish (demo_frame 1 1); SWorker 7 0; SAcquire 2;
              SQuarantineRendering None PostDrawRenderFailure]) in
  validate_invariants s = true /\ live_ids s = [1] /\
  exists q, sc_worker_queued s = Some q /\
    fail_worker_queued (wq_token q) s = (set_queued_frame None s, Fail AlreadyQuarantined).
Proof.
  intros s. split; [vm_compute; reflexivity|]. split; [vm_compute; reflexivity|].
  destruct (sc_worker_queued s) as [q|] eqn:E; [|vm_compute in E; discriminate E].
  exists q. split; [reflexivity|]. refine (proj1 (failed_worker_drops_frame s q E _)).
  destruct (sc_quarantine s) as [x|] eqn:Eq; [by exists x|vm_compute in Eq; discriminate Eq].
Defined.
