(* ===== verification/Positioner.v ===== *)
(** * Positioner: where a popup is put

    Models src/compositor/popup.rs and the requests of xdg_positioner in
    src/compositor/protocols/xdg.rs: a client describes an anchor rectangle,
    an anchor edge, a gravity and what may be adjusted when the popup does not
    fit, and the compositor computes the rectangle of the popup inside the
    target. All coordinates are [i32]; negating the least one panics. The two
    axes of the code are the same computation on [x] and [y]. *)

From stdpp Require Import base list option.
From Stdlib Require Import ZArith Lia.
From S2P Require Import Prelude.

(** ** Rectangles and edges *)

Record PopupRect : Type := mkPopup { pu_x : Z; pu_y : Z; pu_width : Z; pu_height : Z }.
#[export] Instance PopupRect_eq_dec : EqDecision PopupRect.
Proof. solve_decision. Defined.
Definition PopupRect_new (x y width height : Z) : PopupRect :=
  mkPopup x y (Z.max width 1) (Z.max height 1).
(** How far a popup reaches out of a target on one axis, before and after. *)
Definition axis_offsets (target_at target_len at_ len : Z) : Z * Z :=
  (sat_sub_i32 target_at at_, sat_sub_i32 (sat_add_i32 at_ len) (sat_add_i32 target_at target_len)).
Definition constraint_offsets (target popup : PopupRect) : Z * Z * (Z * Z) :=
  (axis_offsets (pu_x target) (pu_width target) (pu_x popup) (pu_width popup),
   axis_offsets (pu_y target) (pu_height target) (pu_y popup) (pu_height popup)).
Record PopupAnchorRect : Type := mkAnchorRect { ar_x : Z; ar_y : Z; ar_width : Z; ar_height : Z }.

Inductive PopupHorizontal : Type := HLeft | HCenter | HRight.
Inductive PopupVertical : Type := VTop | VCenter | VBottom.
Record PopupEdges : Type := mkEdges { horizontal : PopupHorizontal; vertical : PopupVertical }.
Definition PopupEdges_CENTER : PopupEdges := mkEdges HCenter VCenter.
(** The values of the protocol's anchor and gravity. *)
Inductive XdgEdge : Type :=
  EdgeNone | EdgeTop | EdgeBottom | EdgeLeft | EdgeRight | EdgeTopLeft | EdgeBottomLeft | EdgeTopRight
| EdgeBottomRight.
Definition from_anchor (anchor : XdgEdge) : PopupEdges :=
  match anchor with
  | EdgeNone => PopupEdges_CENTER
  | EdgeTop => mkEdges HCenter VTop
  | EdgeBottom => mkEdges HCenter VBottom
  | EdgeLeft => mkEdges HLeft VCenter
  | EdgeRight => mkEdges HRight VCenter
  | EdgeTopLeft => mkEdges HLeft VTop
  | EdgeBottomLeft => mkEdges HLeft VBottom
  | EdgeTopRight => mkEdges HRight VTop
  | EdgeBottomRight => mkEdges HRight VBottom
  end.
Definition from_gravity (gravity : XdgEdge) : PopupEdges :=
  match gravity with
  | EdgeNone => PopupEdges_CENTER
  | EdgeTop => mkEdges HCenter VTop
  | EdgeBottom => mkEdges HCenter VBottom
  | EdgeLeft => mkEdges HLeft VCenter
  | EdgeRight => mkEdges HRight VCenter
  | EdgeTopLeft => mkEdges HLeft VTop
  | EdgeBottomLeft => mkEdges HLeft VBottom
  | EdgeTopRight => mkEdges HRight VTop
  | EdgeBottomRight => mkEdges HRight VBottom
  end.
Definition edges_flip_x (e : PopupEdges) : PopupEdges :=
  mkEdges (match horizontal e with HLeft => HRight | HRight => HLeft | HCenter => HCenter end) (vertical e).
Definition edges_flip_y (e : PopupEdges) : PopupEdges :=
  mkEdges (horizontal e) (match vertical e with VTop => VBottom | VBottom => VTop | VCenter => VCenter end).

Record PopupConstraintAdjustment : Type := mkAdjustment {
  flip_x : bool; flip_y : bool; slide_x : bool; slide_y : bool; resize_x : bool; resize_y : bool
}.
(** The flags of the protocol; a value is known by the flags it contains. *)
Inductive ConstraintFlag : Type := FlipX | FlipY | SlideX | SlideY | ResizeX | ResizeY.
Definition from_xdg (contains : ConstraintFlag -> bool) : PopupConstraintAdjustment :=
  mkAdjustment (contains FlipX) (contains FlipY) (contains SlideX) (contains SlideY) (contains ResizeX)
    (contains ResizeY).

Record XdgPositionerState : Type := mkPositioner {
  ps_width : Z; ps_height : Z;
  anchor_rect : PopupAnchorRect;
  anchor : PopupEdges; gravity : PopupEdges;
  offset_x : Z; offset_y : Z;
  constraint_adjustment : PopupConstraintAdjustment;
  parent_size : option (Z * Z);
  parent_configure : option Z;
  reactive : bool
}.
Definition positioner_default : XdgPositionerState :=
  mkPositioner 0 0 (mkAnchorRect 0 0 0 0) PopupEdges_CENTER PopupEdges_CENTER 0 0
    (mkAdjustment false false false false false false) None None false.
Definition is_complete (p : XdgPositionerState) : bool :=
  (0 <? ps_width p) && (0 <? ps_height p) && (0 <? ar_width (anchor_rect p)) && (0 <? ar_height (anchor_rect p)).
Definition with_edges (a g : PopupEdges) (p : XdgPositionerState) : XdgPositionerState :=
  mkPositioner (ps_width p) (ps_height p) (anchor_rect p) a g (offset_x p) (offset_y p)
    (constraint_adjustment p) (parent_size p) (parent_configure p) (reactive p).

(** ** Requests *)

(** [None] is a value the protocol library does not know. *)
Inductive PositionerRequest : Type :=
| SetSize (width height : Z)
| SetAnchorRect (x y width height : Z)
| SetOffset (x y : Z)
| SetAnchor (a : option XdgEdge)
| SetGravity (g : option XdgEdge)
| SetConstraintAdjustment (contains : option (ConstraintFlag -> bool))
| SetParentSize (width height : Z)
| SetReactive
| SetParentConfigure (serial : Z).
Inductive PositionerError : Type := InvalidInput.
Definition positioner_request (r : PositionerRequest) (p : XdgPositionerState)
  : XdgPositionerState * res PositionerError unit :=
  match r with
  | SetSize w h =>
      if (w <=? 0) || (h <=? 0) then (p, Fail InvalidInput)
      else (mkPositioner w h (anchor_rect p) (anchor p) (gravity p) (offset_x p) (offset_y p)
              (constraint_adjustment p) (parent_size p) (parent_configure p) (reactive p), Ret tt)
  | SetAnchorRect x y w h =>
      if (w <? 0) || (h <? 0) then (p, Fail InvalidInput)
      else (mkPositioner (ps_width p) (ps_height p) (mkAnchorRect x y w h) (anchor p) (gravity p) (offset_x p)
              (offset_y p) (constraint_adjustment p) (parent_size p) (parent_configure p) (reactive p), Ret tt)
  | SetOffset x y =>
      (mkPositioner (ps_width p) (ps_height p) (anchor_rect p) (anchor p) (gravity p) x y
         (constraint_adjustment p) (parent_size p) (parent_configure p) (reactive p), Ret tt)
  | SetAnchor None | SetGravity None | SetConstraintAdjustment None => (p, Fail InvalidInput)
  | SetAnchor (Some a) => (with_edges (from_anchor a) (gravity p) p, Ret tt)
  | SetGravity (Some g) => (with_edges (anchor p) (from_gravity g) p, Ret tt)
  | SetConstraintAdjustment (Some contains) =>
      (mkPositioner (ps_width p) (ps_height p) (anchor_rect p) (anchor p) (gravity p) (offset_x p) (offset_y p)
         (from_xdg contains) (parent_size p) (parent_configure p) (reactive p), Ret tt)
  | SetParentSize w h =>
      if (w <? 0) || (h <? 0) then (p, Fail InvalidInput)
      else (mkPositioner (ps_width p) (ps_height p) (anchor_rect p) (anchor p) (gravity p) (offset_x p)
              (offset_y p) (constraint_adjustment p) (Some (w, h)) (parent_configure p) (reactive p), Ret tt)
  | SetReactive =>
      (mkPositioner (ps_width p) (ps_height p) (anchor_rect p) (anchor p) (gravity p) (offset_x p) (offset_y p)
         (constraint_adjustment p) (parent_size p) (parent_configure p) true, Ret tt)
  | SetParentConfigure serial =>
      (mkPositioner (ps_width p) (ps_height p) (anchor_rect p) (anchor p) (gravity p) (offset_x p) (offset_y p)
         (constraint_adjustment p) (parent_size p) (Some serial) (reactive p), Ret tt)
  end.
Definition positioner_run (rs : list PositionerRequest) : XdgPositionerState :=
  fold_left (fun p r => (positioner_request r p).1) rs positioner_default.

(** ** Geometry *)

Abbreviation geo := (res Empty_set).
(** [-v] on [i32]. *)
Definition neg_i32 (v : Z) : geo Z := if v =? i32_min then Panic else Ret (- v).
Definition geometry_x (p : XdgPositionerState) : geo Z :=
  let r := anchor_rect p in
  let anchor_x := match horizontal (anchor p) with
    | HLeft => ar_x r
    | HCenter => sat_add_i32 (ar_x r) (Z.quot (ar_width r) 2)
    | HRight => sat_add_i32 (ar_x r) (ar_width r)
    end in
  gravity_x ← (match horizontal (gravity p) with
    | HLeft => neg_i32 (ps_width p)
    | HCenter => neg_i32 (Z.quot (ps_width p) 2)
    | HRight => Ret 0
    end : geo Z);
  Ret (sat_add_i32 (sat_add_i32 anchor_x (offset_x p)) gravity_x).
Definition geometry_y (p : XdgPositionerState) : geo Z :=
  let r := anchor_rect p in
  let anchor_y := match vertical (anchor p) with
    | VTop => ar_y r
    | VCenter => sat_add_i32 (ar_y r) (Z.quot (ar_height r) 2)
    | VBottom => sat_add_i32 (ar_y r) (ar_height r)
    end in
  gravity_y ← (match vertical (gravity p) with
    | VTop => neg_i32 (ps_height p)
    | VCenter => neg_i32 (Z.quot (ps_height p) 2)
    | VBottom => Ret 0
    end : geo Z);
  Ret (sat_add_i32 (sat_add_i32 anchor_y (offset_y p)) gravity_y).
Definition geometry (p : XdgPositionerState) : geo PopupRect :=
  x ← geometry_x p; y ← geometry_y p; Ret (PopupRect_new x y (ps_width p) (ps_height p)).

(** One axis slides: by the whole excess on the low side, else by the excess
    on the high side as far as the low side allows. *)
Definition slide_axis (lo hi at_ : Z) : geo Z :=
  if 0 <? lo then Ret (sat_add_i32 at_ lo)
  else if 0 <? hi then (room ← neg_i32 lo; Ret (sat_sub_i32 at_ (Z.min hi room)))
  else Ret at_.
Definition resize_axis (lo hi at_ len : Z) : Z * Z :=
  let (at_, len) := if (0 <? lo) && (lo <? len) then (sat_add_i32 at_ lo, Z.max (sat_sub_i32 len lo) 1)
                    else (at_, len) in
  if (0 <? hi) && (hi <? len) then (at_, Z.max (sat_sub_i32 len hi) 1) else (at_, len).
Definition outside (o : Z * Z) : bool := (0 <? o.1) || (0 <? o.2).
Definition constrained_geometry (p : XdgPositionerState) (target : PopupRect) : geo PopupRect :=
  let c := constraint_adjustment p in
  g ← geometry p;
  let '(ox, oy) := constraint_offsets target g in
  '(adjusted, g, ox) ←
    (if outside ox && flip_x c then
       let flipped := with_edges (edges_flip_x (anchor p)) (edges_flip_x (gravity p)) p in
       fg ← geometry flipped;
       let '(nx, _) := constraint_offsets target fg in
       Ret (if outside nx then (p, g, ox) else (flipped, fg, (0, 0)))
     else Ret (p, g, ox) : geo (XdgPositionerState * PopupRect * (Z * Z)));
  '(g, oy) ←
    (if outside oy && flip_y c then
       let flipped := with_edges (edges_flip_y (anchor adjusted)) (edges_flip_y (gravity adjusted)) adjusted in
       fg ← geometry flipped;
       let '(_, ny) := constraint_offsets target fg in
       Ret (if outside ny then (g, oy) else (fg, (0, 0)))
     else Ret (g, oy) : geo (PopupRect * (Z * Z)));
  '(g, ox) ←
    (if outside ox && slide_x c then
       x ← slide_axis ox.1 ox.2 (pu_x g);
       let g := mkPopup x (pu_y g) (pu_width g) (pu_height g) in
       Ret (g, (constraint_offsets target g).1)
     else Ret (g, ox) : geo (PopupRect * (Z * Z)));
  '(g, oy) ←
    (if outside oy && slide_y c then
       y ← slide_axis oy.1 oy.2 (pu_y g);
       let g := mkPopup (pu_x g) y (pu_width g) (pu_height g) in
       Ret (g, (constraint_offsets target g).2)
     else Ret (g, oy) : geo (PopupRect * (Z * Z)));
  let g := if resize_x c
           then let (x, w) := resize_axis ox.1 ox.2 (pu_x g) (pu_width g) in mkPopup x (pu_y g) w (pu_height g)
           else g in
  Ret (if resize_y c
       then let (y, h) := resize_axis oy.1 oy.2 (pu_y g) (pu_height g) in mkPopup (pu_x g) y (pu_width g) h
       else g).
(** [popup_constraint_target]: the size the positioner names, else that of the
    parent's window geometry, else the output. *)
Definition popup_constraint_target (parent_geometry : option (Z * Z)) (output_width output_height : Z)
  (p : XdgPositionerState) : PopupRect :=
  match parent_size p, parent_geometry with
  | Some (w, h), _ => PopupRect_new 0 0 w h
  | None, Some (w, h) => PopupRect_new 0 0 w h
  | None, None => PopupRect_new 0 0 output_width output_height
  end.

(** ** What the adjustments mean *)

(** Coordinates far from the ends of [i32]. *)
Definition tame (z : Z) : Prop := - 2 ^ 28 <= z <= 2 ^ 28.
#[export] Instance tame_dec z : Decision (tame z) := ltac:(unfold tame; apply _).
Record positioner_tame (p : XdgPositionerState) : Prop := {
  pt_rect_at : tame (ar_x (anchor_rect p)) /\ tame (ar_y (anchor_rect p));
  pt_rect_size : 0 <= ar_width (anchor_rect p) <= 2 ^ 28 /\ 0 <= ar_height (anchor_rect p) <= 2 ^ 28;
  pt_offset : tame (offset_x p) /\ tame (offset_y p);
  pt_size : 1 <= ps_width p <= 2 ^ 28 /\ 1 <= ps_height p <= 2 ^ 28
}.
Record target_tame (t : PopupRect) : Prop := {
  tt_at : tame (pu_x t) /\ tame (pu_y t);
  tt_size : 1 <= pu_width t <= 2 ^ 28 /\ 1 <= pu_height t <= 2 ^ 28
}.
(** The position along an axis without saturation: the anchor point of the
    rectangle, the offset, and the part of the popup the gravity moves back. *)
Inductive Side : Type := Low | Middle | High.
Definition side_x (h : PopupHorizontal) : Side := match h with HLeft => Low | HCenter => Middle | HRight => High end.
Definition side_y (v : PopupVertical) : Side := match v with VTop => Low | VCenter => Middle | VBottom => High end.
Definition opposite (s : Side) : Side := match s with Low => High | Middle => Middle | High => Low end.
Definition place (a g : Side) (rect_at rect_len offset len : Z) : Z :=
  rect_at + (match a with Low => 0 | Middle => rect_len / 2 | High => rect_len end) + offset
  - (match g with Low => len | Middle => len / 2 | High => 0 end).
Definition place_x (flipped : bool) (p : XdgPositionerState) : Z :=
  let f := if flipped then opposite else fun s => s in
  place (f (side_x (horizontal (anchor p)))) (f (side_x (horizontal (gravity p)))) (ar_x (anchor_rect p))
    (ar_width (anchor_rect p)) (offset_x p) (ps_width p).
Definition place_y (flipped : bool) (p : XdgPositionerState) : Z :=
  let f := if flipped then opposite else fun s => s in
  place (f (side_y (vertical (anchor p)))) (f (side_y (vertical (gravity p)))) (ar_y (anchor_rect p))
    (ar_height (anchor_rect p)) (offset_y p) (ps_height p).
Definition within (target_at target_len at_ len : Z) : bool :=
  (target_at <=? at_) && (at_ + len <=? target_at + target_len).
(** One axis: keep the position if it fits, else the flipped one if that fits,
    else move into the target (to its start when the popup is too long) and
    cut what is left outside, unless nothing would remain. *)
Definition adjust (flip slide resize : bool) (target_at target_len at_ flipped_at len : Z) : Z * Z :=
  if within target_at target_len at_ len then (at_, len)
  else if flip && within target_at target_len flipped_at len then (flipped_at, len)
  else
    let at1 := if slide then (if len <=? target_len then clampZ target_at (target_at + target_len - len) at_
                              else target_at) else at_ in
    let lo := Z.max at1 target_at in
    let hi := Z.min (at1 + len) (target_at + target_len) in
    if resize && (lo <? hi) then (lo, hi - lo) else (at1, len).

Ltac sat_exact := unfold sat_add_i32, sat_sub_i32, clampZ, i32_min, i32_max in *; lia.
Lemma axis_offsets_exact ta tl a l :
  tame ta -> 1 <= tl <= 2 ^ 28 -> - 2 ^ 30 <= a <= 2 ^ 30 -> 1 <= l <= 2 ^ 28 ->
  axis_offsets ta tl a l = (ta - a, a + l - (ta + tl)).
Proof. unfold tame, axis_offsets. intros. f_equal; sat_exact. Qed.
Lemma outside_within ta tl a l : outside (ta - a, a + l - (ta + tl)) = negb (within ta tl a l).
Proof. unfold outside, within. cbn. zcase. Qed.
Lemma place_bounds a g ra rl o l :
  tame ra -> 0 <= rl <= 2 ^ 28 -> tame o -> 1 <= l <= 2 ^ 28 ->
  - 2 ^ 30 <= place a g ra rl o l <= 2 ^ 30.
Proof.
  unfold tame, place. intros. pose proof (Z.div_pos rl 2). pose proof (Z.div_le_upper_bound rl 2 rl).
  pose proof (Z.div_pos l 2). pose proof (Z.div_le_upper_bound l 2 l). destruct a, g; lia.
Qed.
(** The tail of an axis: sliding with fresh offsets, then resizing. *)
Definition finish_axis (slide resize : bool) (ta tl : Z) (o : Z * Z) (a l : Z) : geo (Z * Z) :=
  '(a, o) ← (if outside o && slide then (a ← slide_axis o.1 o.2 a; Ret (a, axis_offsets ta tl a l))
             else Ret (a, o) : geo (Z * (Z * Z)));
  Ret (if resize then resize_axis o.1 o.2 a l else (a, l)).
Lemma slide_exact ta tl a l :
  tame ta -> 1 <= tl <= 2 ^ 28 -> - 2 ^ 30 <= a <= 2 ^ 30 -> 1 <= l <= 2 ^ 28 ->
  within ta tl a l = false ->
  slide_axis (ta - a) (a + l - (ta + tl)) a
  = Ret (if l <=? tl then clampZ ta (ta + tl - l) a else ta).
Proof.
  unfold tame, within, slide_axis, neg_i32. intros H1 H2 H3 H4 Hw. unfold i32_min. zcase; cbn;
    f_equal; unfold sat_add_i32, sat_sub_i32, clampZ, i32_min, i32_max; lia.
Qed.
Lemma resize_exact ta tl a l :
  tame ta -> 1 <= tl <= 2 ^ 28 -> - 2 ^ 30 <= a <= 2 ^ 30 -> 1 <= l <= 2 ^ 28 ->
  resize_axis (ta - a) (a + l - (ta + tl)) a l
  = let lo := Z.max a ta in let hi := Z.min (a + l) (ta + tl) in
    if lo <? hi then (lo, hi - lo) else (a, l).
Proof.
  unfold tame, resize_axis. intros. zcase; cbn [andb fst snd]; zcase; try (f_equal; sat_exact); sat_exact.
Qed.
Lemma finish_within slide resize ta tl o a l :
  o = (0, 0) \/ o = (ta - a, a + l - (ta + tl)) -> within ta tl a l = true ->
  finish_axis slide resize ta tl o a l = Ret (a, l).
Proof.
  intros Ho Hw. unfold finish_axis. replace (outside o) with false.
  2: { destruct Ho as [->| ->]; [done|]. by rewrite outside_within, Hw. }
  cbn. destruct resize; [|done]. f_equal. unfold within in Hw. unfold resize_axis.
  destruct Ho as [->| ->]; cbn; zcase; done.
Qed.
Lemma finish_outside slide resize ta tl a l :
  tame ta -> 1 <= tl <= 2 ^ 28 -> - 2 ^ 30 <= a <= 2 ^ 30 -> 1 <= l <= 2 ^ 28 ->
  within ta tl a l = false ->
  finish_axis slide resize ta tl (ta - a, a + l - (ta + tl)) a l
  = Ret (adjust false slide resize ta tl a a l).
Proof.
  intros H1 H2 H3 H4 Hw. unfold finish_axis, adjust. rewrite outside_within, Hw. cbn [negb andb].
  set (a1 := if l <=? tl then clampZ ta (ta + tl - l) a else ta).
  assert (Ha : - 2 ^ 30 <= a1 <= 2 ^ 30) by (unfold a1, clampZ, tame in *; zcase).
  destruct slide; cbn [fst snd].
  - rewrite slide_exact by done. fold a1. cbn [mbind res_bind]. rewrite axis_offsets_exact by done.
    cbn [mbind res_bind fst snd]. destruct resize; [|done]. by rewrite resize_exact.
  - cbn [mbind res_bind fst snd]. destruct resize; [|done]. by rewrite resize_exact.
Qed.
(** The last four adjustments are one computation per axis. *)
Lemma tail_axes (c : PopupConstraintAdjustment) target g ox oy :
  ('(g, ox) ←
    (if outside ox && slide_x c then
       x ← slide_axis ox.1 ox.2 (pu_x g);
       let g := mkPopup x (pu_y g) (pu_width g) (pu_height g) in
       Ret (g, (constraint_offsets target g).1)
     else Ret (g, ox) : geo (PopupRect * (Z * Z)));
  '(g, oy) ←
    (if outside oy && slide_y c then
       y ← slide_axis oy.1 oy.2 (pu_y g);
       let g := mkPopup (pu_x g) y (pu_width g) (pu_height g) in
       Ret (g, (constraint_offsets target g).2)
     else Ret (g, oy) : geo (PopupRect * (Z * Z)));
  let g := if resize_x c
           then let (x, w) := resize_axis ox.1 ox.2 (pu_x g) (pu_width g) in mkPopup x (pu_y g) w (pu_height g)
           else g in
  Ret (if resize_y c
       then let (y, h) := resize_axis oy.1 oy.2 (pu_y g) (pu_height g) in mkPopup (pu_x g) y (pu_width g) h
       else g))
  = ('(x, w) ← finish_axis (slide_x c) (resize_x c) (pu_x target) (pu_width target) ox (pu_x g) (pu_width g);
     '(y, h) ← finish_axis (slide_y c) (resize_y c) (pu_y target) (pu_height target) oy (pu_y g) (pu_height g);
     Ret (mkPopup x y w h)).
Proof.
  unfold finish_axis. destruct g as [gx gy gw gh].
  destruct (outside ox && slide_x c), (outside oy && slide_y c); cbn;
    try (destruct (slide_axis ox.1 ox.2 gx) as [x|[]| |]; cbn; try done);
    try (destruct (slide_axis oy.1 oy.2 gy) as [y|[]| |]; cbn; try done);
    destruct (resize_x c), (resize_y c); cbn; try done;
    try (match goal with |- context [resize_axis ?a ?b ?x gw] => destruct (resize_axis a b x gw) end; cbn);
    try (match goal with |- context [resize_axis ?a ?b ?x gh] => destruct (resize_axis a b x gh) end; cbn);
    done.
Qed.
Lemma quot_half l : 0 <= l -> Z.quot l 2 = l / 2.
Proof. intros. by apply Z.quot_div_nonneg. Qed.
Lemma geometry_exact p :
  positioner_tame p -> geometry p = Ret (mkPopup (place_x false p) (place_y false p) (ps_width p) (ps_height p)).
Proof.
  intros [[A1 A2] [B1 B2] [C1 C2] [D1 D2]]. unfold tame in *.
  assert (Hx : geometry_x p = Ret (place_x false p)).
  { unfold geometry_x, place_x, place. rewrite !quot_half by lia.
    pose proof (Z.div_pos (ar_width (anchor_rect p)) 2). pose proof (Z.div_le_upper_bound (ar_width (anchor_rect p)) 2 (2 ^ 28)).
    pose proof (Z.div_pos (ps_width p) 2). pose proof (Z.div_le_upper_bound (ps_width p) 2 (2 ^ 28)).
    unfold neg_i32, i32_min. destruct (horizontal (gravity p)); zcase; cbn; f_equal;
      destruct (horizontal (anchor p)); cbn; sat_exact. }
  assert (Hy : geometry_y p = Ret (place_y false p)).
  { unfold geometry_y, place_y, place. rewrite !quot_half by lia.
    pose proof (Z.div_pos (ar_height (anchor_rect p)) 2). pose proof (Z.div_le_upper_bound (ar_height (anchor_rect p)) 2 (2 ^ 28)).
    pose proof (Z.div_pos (ps_height p) 2). pose proof (Z.div_le_upper_bound (ps_height p) 2 (2 ^ 28)).
    unfold neg_i32, i32_min. destruct (vertical (gravity p)); zcase; cbn; f_equal;
      destruct (vertical (anchor p)); cbn; sat_exact. }
  unfold geometry. rewrite Hx, Hy. cbn. unfold PopupRect_new. do 2 f_equal; lia.
Qed.

Lemma tame_edges a g p : positioner_tame p -> positioner_tame (with_edges a g p).
Proof. by intros []. Qed.
Lemma place_flip_x p a g :
  a = edges_flip_x (anchor p) -> g = edges_flip_x (gravity p) ->
  place_x false (with_edges a g p) = place_x true p /\ place_x true (with_edges a g p) = place_x false p /\
  (forall b, place_y b (with_edges a g p) = place_y b p).
Proof.
  intros -> ->. unfold place_x, place_y. cbn.
  by destruct (horizontal (anchor p)), (horizontal (gravity p)).
Qed.
Lemma place_flip_y p a g :
  a = edges_flip_y (anchor p) -> g = edges_flip_y (gravity p) ->
  place_y false (with_edges a g p) = place_y true p /\ (forall b, place_x b (with_edges a g p) = place_x b p).
Proof.
  intros -> ->. unfold place_x, place_y. cbn. by destruct (vertical (anchor p)), (vertical (gravity p)).
Qed.
Lemma place_x_bounds b p : positioner_tame p -> - 2 ^ 30 <= place_x b p <= 2 ^ 30.
Proof. intros [[] [] [] []]. by apply place_bounds. Qed.
Lemma place_y_bounds b p : positioner_tame p -> - 2 ^ 30 <= place_y b p <= 2 ^ 30.
Proof. intros [[] [] [] []]. by apply place_bounds. Qed.
(** Where the flips leave an axis, and the offsets they hand on. *)
Definition flip_axis (flip : bool) (ta tl a fa l : Z) : Z * (Z * Z) :=
  if negb (within ta tl a l) && flip && within ta tl fa l then (fa, (0, 0))
  else (a, (ta - a, a + l - (ta + tl))).
Lemma finish_flip flip slide resize ta tl a fa l :
  tame ta -> 1 <= tl <= 2 ^ 28 -> - 2 ^ 30 <= a <= 2 ^ 30 -> 1 <= l <= 2 ^ 28 ->
  (let '(at_, o) := flip_axis flip ta tl a fa l in finish_axis slide resize ta tl o at_ l)
  = Ret (adjust flip slide resize ta tl a fa l).
Proof.
  intros H1 H2 H3 H4. unfold flip_axis, adjust. destruct (within ta tl a l) eqn:Ew; cbn [negb andb].
  - by apply finish_within; [right|].
  - destruct (flip && within ta tl fa l) eqn:Ef.
    + apply andb_true_iff in Ef as [_ Ef]. by apply finish_within; [left|].
    + rewrite finish_outside by done. unfold adjust. by rewrite Ew.
Qed.
Lemma offsets_x t g :
  target_tame t -> - 2 ^ 30 <= pu_x g <= 2 ^ 30 -> 1 <= pu_width g <= 2 ^ 28 ->
  (constraint_offsets t g).1
  = (pu_x t - pu_x g, pu_x g + pu_width g - (pu_x t + pu_width t)).
Proof. intros [[] []] ??. by apply axis_offsets_exact. Qed.
Lemma offsets_y t g :
  target_tame t -> - 2 ^ 30 <= pu_y g <= 2 ^ 30 -> 1 <= pu_height g <= 2 ^ 28 ->
  (constraint_offsets t g).2
  = (pu_y t - pu_y g, pu_y g + pu_height g - (pu_y t + pu_height t)).
Proof. intros [[] []] ??. by apply axis_offsets_exact. Qed.

(** The two flips, axis by axis. *)
Definition flipped_x (p : XdgPositionerState) : XdgPositionerState :=
  with_edges (edges_flip_x (anchor p)) (edges_flip_x (gravity p)) p.
Definition flipped_y (p : XdgPositionerState) : XdgPositionerState :=
  with_edges (edges_flip_y (anchor p)) (edges_flip_y (gravity p)) p.
Definition popup_at (p : XdgPositionerState) : PopupRect :=
  mkPopup (place_x false p) (place_y false p) (ps_width p) (ps_height p).
Lemma flip_x_step p t :
  positioner_tame p -> target_tame t ->
  let ox := (constraint_offsets t (popup_at p)).1 in
  exists q, ((if outside ox && flip_x (constraint_adjustment p) then
       fg ← geometry (flipped_x p);
       let '(nx, _) := constraint_offsets t fg in
       Ret (if outside nx then (p, popup_at p, ox) else (flipped_x p, fg, (0, 0)))
     else Ret (p, popup_at p, ox) : geo (XdgPositionerState * PopupRect * (Z * Z)))
    = Ret (q, popup_at q, (flip_axis (flip_x (constraint_adjustment p)) (pu_x t) (pu_width t) (place_x false p)
                             (place_x true p) (ps_width p)).2)) /\
    positioner_tame q /\ ps_width q = ps_width p /\ ps_height q = ps_height p /\
    place_x false q = (flip_axis (flip_x (constraint_adjustment p)) (pu_x t) (pu_width t) (place_x false p)
                        (place_x true p) (ps_width p)).1 /\
    (forall b, place_y b q = place_y b p).
Proof.
  intros Hp Ht ox. pose proof (pt_size p Hp) as [Hw Hh].
  assert (Hox : ox = (pu_x t - place_x false p, place_x false p + ps_width p - (pu_x t + pu_width t))).
  { apply offsets_x; [done|by apply place_x_bounds|done]. }
  unfold flip_axis. rewrite Hox, outside_within.
  destruct (within (pu_x t) (pu_width t) (place_x false p) (ps_width p)); cbn [negb andb]; [by exists p|].
  destruct (flip_x (constraint_adjustment p)); cbn [andb]; [|by exists p].
  destruct (place_flip_x p _ _ eq_refl eq_refl) as (F1 & F2 & F3).
  rewrite (geometry_exact (flipped_x p)) by by apply tame_edges. cbn [mbind res_bind].
  change (mkPopup _ _ _ _) with (popup_at (flipped_x p)) at 1.
  destruct (constraint_offsets t (popup_at (flipped_x p))) as [nx ny] eqn:En.
  assert (Hnx : nx = (pu_x t - place_x true p, place_x true p + ps_width p - (pu_x t + pu_width t))).
  { change nx with (nx, ny).1. rewrite <- En, offsets_x; [|done|..]; cbn.
    - unfold flipped_x. by rewrite F1.
    - by apply place_x_bounds, tame_edges.
    - done. }
  rewrite Hnx, outside_within.
  destruct (within (pu_x t) (pu_width t) (place_x true p) (ps_width p)); cbn; [|by exists p].
  exists (flipped_x p). split_and!; try done. by apply tame_edges.
Qed.
Lemma flip_y_step (flip : bool) q t :
  positioner_tame q -> target_tame t ->
  let oy := (constraint_offsets t (popup_at q)).2 in
  let r := flip_axis flip (pu_y t) (pu_height t) (place_y false q) (place_y true q) (ps_height q) in
  (if outside oy && flip then
     fg ← geometry (flipped_y q);
     let '(_, ny) := constraint_offsets t fg in
     Ret (if outside ny then (popup_at q, oy) else (fg, (0, 0)))
   else Ret (popup_at q, oy) : geo (PopupRect * (Z * Z)))
  = Ret (mkPopup (place_x false q) r.1 (ps_width q) (ps_height q), r.2).
Proof.
  intros Hq Ht oy r. pose proof (pt_size q Hq) as [Hw Hh].
  assert (Hoy : oy = (pu_y t - place_y false q, place_y false q + ps_height q - (pu_y t + pu_height t))).
  { apply offsets_y; [done|by apply place_y_bounds|done]. }
  unfold r, flip_axis. rewrite Hoy, outside_within.
  destruct (within (pu_y t) (pu_height t) (place_y false q) (ps_height q)); cbn [negb andb]; [done|].
  destruct flip; cbn [andb]; [|done].
  destruct (place_flip_y q _ _ eq_refl eq_refl) as (F1 & F2).
  rewrite (geometry_exact (flipped_y q)) by by apply tame_edges. cbn [mbind res_bind].
  change (mkPopup _ _ _ _) with (popup_at (flipped_y q)) at 1.
  destruct (constraint_offsets t (popup_at (flipped_y q))) as [nx ny] eqn:En.
  assert (Hny : ny = (pu_y t - place_y true q, place_y true q + ps_height q - (pu_y t + pu_height t))).
  { change ny with (nx, ny).2. rewrite <- En, offsets_y; [|done|..]; cbn.
    - unfold flipped_y. by rewrite F1.
    - by apply place_y_bounds, tame_edges.
    - done. }
  rewrite Hny, outside_within.
  destruct (within (pu_y t) (pu_height t) (place_y true q) (ps_height q)); cbn [negb]; [|done].
  f_equal. f_equal. unfold popup_at, flipped_y. by rewrite F1, F2.
Qed.
Lemma placement_exact p t :
  positioner_tame p -> target_tame t ->
  let c := constraint_adjustment p in
  let '(x, w) := adjust (flip_x c) (slide_x c) (resize_x c) (pu_x t) (pu_width t) (place_x false p)
                   (place_x true p) (ps_width p) in
  let '(y, h) := adjust (flip_y c) (slide_y c) (resize_y c) (pu_y t) (pu_height t) (place_y false p)
                   (place_y true p) (ps_height p) in
  constrained_geometry p t = Ret (mkPopup x y w h).
Proof.
  intros Hp Ht. cbv zeta. destruct (adjust _ _ _ (pu_x t) _ _ _ _) as [x w] eqn:Ex.
  destruct (adjust _ _ _ (pu_y t) _ _ _ _) as [y h] eqn:Ey.
  pose proof (pt_size p Hp) as [Hw Hh]. pose proof (tt_at t Ht) as [Tx Ty]. pose proof (tt_size t Ht) as [Tw Th].
  unfold constrained_geometry. cbv zeta. rewrite (geometry_exact p Hp). cbn [mbind res_bind].
  change (mkPopup (place_x false p) (place_y false p) (ps_width p) (ps_height p)) with (popup_at p). destruct (flip_x_step p t Hp Ht) as (q & Eq & Hq & Ew & Eh & Eqx & Eqy).
  destruct (constraint_offsets t (popup_at p)) as [ox oy] eqn:Eo. cbn [fst] in Eq.
  change (with_edges (edges_flip_x (anchor p)) (edges_flip_x (gravity p)) p) with (flipped_x p).
  rewrite Eq. cbn [mbind res_bind].
  change (with_edges (edges_flip_y (anchor q)) (edges_flip_y (gravity q)) q) with (flipped_y q).
  assert (Hoy : oy = (constraint_offsets t (popup_at q)).2).
  { rewrite offsets_y; cbn; [|done|by apply place_y_bounds|apply Hq]. rewrite Eqy, Eh.
    change oy with (ox, oy).2. rewrite <- Eo, offsets_y; cbn; [done|done|by apply place_y_bounds|done]. }
  rewrite Hoy, (flip_y_step (flip_y (constraint_adjustment p)) q t Hq Ht). cbn [mbind res_bind]. rewrite tail_axes.
  cbn [pu_x pu_y pu_width pu_height]. rewrite Eqx, !Eqy, Ew, Eh.
  pose proof (finish_flip (flip_x (constraint_adjustment p)) (slide_x (constraint_adjustment p)) (resize_x (constraint_adjustment p)) _ _ _ (place_x true p) _ Tx Tw (place_x_bounds false p Hp) Hw) as Fx.
  pose proof (finish_flip (flip_y (constraint_adjustment p)) (slide_y (constraint_adjustment p)) (resize_y (constraint_adjustment p)) _ _ _ (place_y true p) _ Ty Th (place_y_bounds false p Hp) Hh) as Fy.
  destruct (flip_axis (flip_x (constraint_adjustment p)) (pu_x t) _ _ _ _) as [ax aox]. cbn [fst snd] in *.
  destruct (flip_axis (flip_y (constraint_adjustment p)) (pu_y t) _ _ _ _) as [ay aoy]. cbn [fst snd] in *.
  rewrite Fx, Fy, Ex, Ey. done.
Qed.

(** *** No panic *)

Definition request_i32 (r : PositionerRequest) : Prop :=
  match r with
  | SetSize w h | SetParentSize w h => in_i32 w /\ in_i32 h
  | SetAnchorRect x y w h => in_i32 x /\ in_i32 y /\ in_i32 w /\ in_i32 h
  | SetOffset x y => in_i32 x /\ in_i32 y
  | _ => True
  end.
(** A positioner built by requests: sizes are not negative. *)
Definition positioner_ok (p : XdgPositionerState) : Prop :=
  0 <= ps_width p <= i32_max /\ 0 <= ps_height p <= i32_max /\
  (forall w h, parent_size p = Some (w, h) -> 0 <= w /\ 0 <= h).
Lemma request_ok r p : request_i32 r -> positioner_ok p -> positioner_ok (positioner_request r p).1.
Proof.
  unfold positioner_ok. intros Hr (H1 & H2 & H3). unfold request_i32, in_i32 in Hr.
  destruct r as [w h|x y w h|x y|[a|]|[g|]|[c|]|w h| |serial]; cbn; zcase; cbn; split_and!; try done; try lia.
  intros ? ? [= <- <-]. lia.
Qed.
Lemma requests_ok rs : Forall request_i32 rs -> positioner_ok (positioner_run rs).
Proof.
  unfold positioner_run. assert (H : positioner_ok positioner_default) by done. revert H.
  generalize positioner_default. induction rs as [|r rs IH]; intros p Hp Hrs; cbn; [done|].
  inv Hrs. by apply IH; [apply request_ok|].
Qed.
Lemma sat_add_in a b : in_i32 (sat_add_i32 a b).
Proof. unfold in_i32. sat_exact. Qed.
Lemma neg_quot w : 0 <= w -> neg_i32 (Z.quot w 2) = Ret (- Z.quot w 2).
Proof.
  intros H. unfold neg_i32. rewrite quot_half by done. pose proof (Z.div_pos w 2 H ltac:(lia)).
  unfold i32_min. zcase. done.
Qed.
Lemma neg_nonneg w : 0 <= w -> neg_i32 w = Ret (- w).
Proof. intros H. unfold neg_i32, i32_min. zcase. done. Qed.
Lemma geometry_returns p :
  0 <= ps_width p -> 0 <= ps_height p ->
  exists x y, in_i32 x /\ in_i32 y /\ geometry p = Ret (PopupRect_new x y (ps_width p) (ps_height p)).
Proof.
  intros H1 H2. unfold geometry, geometry_x, geometry_y.
  rewrite !neg_quot, !neg_nonneg by done.
  destruct (horizontal (gravity p)), (vertical (gravity p)); cbn;
    (eexists _, _; split; [|split; [|reflexivity]]; apply sat_add_in).
Qed.
(** The excess on the low side of a target at the origin can be negated. *)
Definition negatable (o : Z * Z) : Prop := o.1 <> i32_min.
Lemma negatable_offsets tl a l : in_i32 a -> negatable (axis_offsets 0 tl a l).
Proof. unfold in_i32, negatable, axis_offsets. cbn [fst]. intros. sat_exact. Qed.
Lemma slide_returns o a : negatable o -> exists b, slide_axis o.1 o.2 a = Ret b.
Proof.
  unfold negatable. intros H. unfold slide_axis, neg_i32. rewrite (proj2 (Z.eqb_neq _ _) H).
  repeat case_match; cbn; eauto.
Qed.
Lemma resize_len lo hi a l : 1 <= l <= i32_max -> 1 <= (resize_axis lo hi a l).2 <= l.
Proof.
  unfold resize_axis. intros H. zcase; cbn [andb fst snd]; zcase; try done; sat_exact.
Qed.
Lemma finish_returns slide resize ta tl o a l :
  negatable o -> 1 <= l <= i32_max ->
  exists b k, finish_axis slide resize ta tl o a l = Ret (b, k) /\ 1 <= k <= l.
Proof.
  intros Ho Hl. unfold finish_axis. destruct (slide_returns o a Ho) as [b Eb].
  destruct (outside o && slide); [rewrite Eb|]; cbn [mbind res_bind];
    (destruct resize; [|by eexists _, _; split; [reflexivity|lia]]);
    match goal with |- context [resize_axis ?x ?y ?z ?w] =>
      pose proof (resize_len x y z w Hl); destruct (resize_axis x y z w) end;
    by eexists _, _.
Qed.
Lemma tail_returns (c : PopupConstraintAdjustment) target g ox oy :
  negatable ox -> negatable oy -> 1 <= pu_width g <= i32_max -> 1 <= pu_height g <= i32_max ->
  exists r, ('(x, w) ← finish_axis (slide_x c) (resize_x c) (pu_x target) (pu_width target) ox (pu_x g) (pu_width g);
     '(y, h) ← finish_axis (slide_y c) (resize_y c) (pu_y target) (pu_height target) oy (pu_y g) (pu_height g);
     Ret (mkPopup x y w h)) = Ret r /\ 1 <= pu_width r <= pu_width g /\ 1 <= pu_height r <= pu_height g.
Proof.
  intros Hx Hy Hw Hh.
  destruct (finish_returns (slide_x c) (resize_x c) (pu_x target) (pu_width target) ox (pu_x g) _ Hx Hw)
    as (x & w & -> & Bw).
  destruct (finish_returns (slide_y c) (resize_y c) (pu_y target) (pu_height target) oy (pu_y g) _ Hy Hh)
    as (y & h & -> & Bh).
  by exists (mkPopup x y w h).
Qed.
Lemma constrained_returns p w h :
  0 <= ps_width p <= i32_max -> 0 <= ps_height p <= i32_max ->
  exists g, constrained_geometry p (PopupRect_new 0 0 w h) = Ret g /\
    1 <= pu_width g <= Z.max (ps_width p) 1 /\ 1 <= pu_height g <= Z.max (ps_height p) 1.
Proof.
  intros H1 H2. unfold constrained_geometry. cbv zeta.
  destruct (geometry_returns p (proj1 H1) (proj1 H2)) as (x & y & Hx & Hy & ->). cbn [mbind res_bind].
  set (g := PopupRect_new x y (ps_width p) (ps_height p)).
  destruct (constraint_offsets _ g) as [ox oy] eqn:Eo.
  assert (Nx : negatable ox) by (injection Eo as <- _; by apply negatable_offsets).
  assert (Ny : negatable oy) by (injection Eo as _ <-; by apply negatable_offsets).
  assert (N0 : negatable (0, 0)) by (unfold negatable, i32_min; cbn; lia).
  change (with_edges (edges_flip_x (anchor p)) (edges_flip_x (gravity p)) p) with (flipped_x p).
  destruct (geometry_returns (flipped_x p) (proj1 H1) (proj1 H2)) as (fx & fy & _ & _ & ->). cbn [mbind res_bind].
  assert (Hflip : exists q g' ox',
    (if outside ox && flip_x (constraint_adjustment p) then
       let '(nx, _) := constraint_offsets (PopupRect_new 0 0 w h)
                         (PopupRect_new fx fy (ps_width (flipped_x p)) (ps_height (flipped_x p))) in
       Ret (if outside nx then (p, g, ox)
            else (flipped_x p, PopupRect_new fx fy (ps_width (flipped_x p)) (ps_height (flipped_x p)), (0, 0)))
     else Ret (p, g, ox) : geo (XdgPositionerState * PopupRect * (Z * Z))) = Ret (q, g', ox') /\
    negatable ox' /\ ps_width q = ps_width p /\ ps_height q = ps_height p /\
    pu_width g' = pu_width g /\ pu_height g' = pu_height g).
  { destruct (outside ox && _); [|by eexists _, _, _]. destruct (constraint_offsets _ (PopupRect_new fx _ _ _)) as [nx ny].
    destruct (outside nx); eexists _, _, _; (split; [reflexivity|]); done. }
  destruct Hflip as (q & g' & ox' & -> & Nx' & Ew & Eh & Gw & Gh). cbn [mbind res_bind].
  assert (Htail : forall g1 o1 o2, negatable o1 -> negatable o2 ->
    pu_width g1 = pu_width g -> pu_height g1 = pu_height g ->
    exists r, ('(x, w) ← finish_axis (slide_x (constraint_adjustment p)) (resize_x (constraint_adjustment p))
        (pu_x (PopupRect_new 0 0 w h)) (pu_width (PopupRect_new 0 0 w h)) o1 (pu_x g1) (pu_width g1);
      '(y, h) ← finish_axis (slide_y (constraint_adjustment p)) (resize_y (constraint_adjustment p))
        (pu_y (PopupRect_new 0 0 w h)) (pu_height (PopupRect_new 0 0 w h)) o2 (pu_y g1) (pu_height g1);
      Ret (mkPopup x y w h)) = Ret r /\
      1 <= pu_width r <= Z.max (ps_width p) 1 /\ 1 <= pu_height r <= Z.max (ps_height p) 1).
  { intros g1 o1 o2 N1 N2 E1 E2. cbn in E1, E2. rewrite <- E1, <- E2.
    apply tail_returns; try done; rewrite ?E1, ?E2; unfold i32_max in *; lia. }
  change (with_edges (edges_flip_y (anchor q)) (edges_flip_y (gravity q)) q) with (flipped_y q).
  destruct (geometry_returns (flipped_y q)) as (gx & gy & _ & _ & ->); [cbn; lia..|]. cbn [mbind res_bind].
  destruct (outside oy && flip_y (constraint_adjustment p)); cbn [mbind res_bind];
    [destruct (constraint_offsets _ (PopupRect_new gx gy _ _)) as [nx ny]; destruct (outside ny); cbn [mbind res_bind]|];
    rewrite tail_axes; apply Htail; try done; cbn; by rewrite ?Ew, ?Eh.
Qed.

(** One axis of the reference. *)
Lemma adjust_bounds flip slide resize ta tl a fa l a' l' :
  1 <= tl -> 1 <= l -> adjust flip slide resize ta tl a fa l = (a', l') ->
  1 <= l' <= l /\ (within ta tl a l = true -> a' = a /\ l' = l) /\ (resize = false -> l' = l) /\
  (slide = true -> (l <= tl \/ resize = true) -> within ta tl a' l' = true) /\
  (flip = false -> slide = false -> resize = false -> a' = a).
Proof.
  unfold adjust, within, clampZ. intros H1 H2 E.
  destruct flip, slide, resize; cbn [andb] in E; revert E; zcase; intros [= <- <-]; split_and!; intros; try done;
    try lia; try (by destruct_or!); try (by exfalso; destruct_or!; try done; lia); zcase; done.
Qed.

(** ** Properties *)

(** C21: with coordinates far from the ends of [i32], the popup the code
    computes is, on each axis separately, the reference [adjust]: the position
    given by anchor, offset and gravity if it fits in the target, else the
    flipped one if flipping is allowed and fits, else the position moved into
    the target as far as sliding is allowed and cut as far as resizing is. *)
Theorem popup_placement_exact p t :
  positioner_tame p -> target_tame t ->
  let c := constraint_adjustment p in
  let '(x, w) := adjust (flip_x c) (slide_x c) (resize_x c) (pu_x t) (pu_width t) (place_x false p)
                   (place_x true p) (ps_width p) in
  let '(y, h) := adjust (flip_y c) (slide_y c) (resize_y c) (pu_y t) (pu_height t) (place_y false p)
                   (place_y true p) (ps_height p) in
  constrained_geometry p t = Ret (mkPopup x y w h).
Proof. apply placement_exact. Qed.

(** A popup with coordinates far from the ends of [i32] is placed; it never
    grows and keeps at least one pixel; on an axis where it already fits it is
    left alone; and where sliding is allowed, and the popup is not longer than
    the target or resizing is allowed too, it ends inside the target. *)
Theorem popup_contained p t :
  positioner_tame p -> target_tame t ->
  let c := constraint_adjustment p in
  exists g, constrained_geometry p t = Ret g /\
    1 <= pu_width g <= ps_width p /\ 1 <= pu_height g <= ps_height p /\
    (within (pu_x t) (pu_width t) (place_x false p) (ps_width p) = true ->
      pu_x g = place_x false p /\ pu_width g = ps_width p) /\
    (within (pu_y t) (pu_height t) (place_y false p) (ps_height p) = true ->
      pu_y g = place_y false p /\ pu_height g = ps_height p) /\
    (slide_x c = true -> ps_width p <= pu_width t \/ resize_x c = true ->
      within (pu_x t) (pu_width t) (pu_x g) (pu_width g) = true) /\
    (slide_y c = true -> ps_height p <= pu_height t \/ resize_y c = true ->
      within (pu_y t) (pu_height t) (pu_y g) (pu_height g) = true).
Proof.
  intros Hp Ht c. pose proof (placement_exact p t Hp Ht) as E. cbv zeta in E.
  destruct (pt_size p Hp) as [[Hw _] [Hh _]]. destruct (tt_size t Ht) as [[Tw _] [Th _]].
  destruct (adjust _ _ _ (pu_x t) _ _ _ _) as [x w] eqn:Ex. destruct (adjust _ _ _ (pu_y t) _ _ _ _) as [y h] eqn:Ey.
  apply adjust_bounds in Ex as (X1 & X2 & X3 & X4 & X5); [|done..].
  apply adjust_bounds in Ey as (Y1 & Y2 & Y3 & Y4 & Y5); [|done..].
  exists (mkPopup x y w h). repeat (split; [done|]). cbn [pu_x pu_y pu_width pu_height].
  exact Y4.
Qed.

(** Whatever requests a client makes of a positioner, in any order and with
    any values of the wire, placing the popup it describes does not panic, for
    every parent geometry and output: no [i32] negation overflows; and the
    popup has at least one pixel and is no larger than asked. *)
Theorem positioner_never_panics rs parent ow oh :
  Forall request_i32 rs ->
  let p := positioner_run rs in
  exists g, constrained_geometry p (popup_constraint_target parent ow oh p) = Ret g /\
    1 <= pu_width g <= Z.max (ps_width p) 1 /\ 1 <= pu_height g <= Z.max (ps_height p) 1.
Proof.
  intros Hrs p. destruct (requests_ok rs Hrs) as (H1 & H2 & _). unfold popup_constraint_target.
  destruct (parent_size p) as [[]|]; [by apply constrained_returns|].
  destruct parent as [[]|]; by apply constrained_returns.
Qed.

(** *** Witnesses *)

(** A menu of 300 by 200 below a button near the lower right corner: it slides
    left and flips above the button. *)
Definition demo_menu : list PositionerRequest :=
  [SetSize 300 200; SetAnchorRect 900 700 50 30; SetAnchor (Some EdgeBottomLeft); SetGravity (Some EdgeBottomRight);
   SetConstraintAdjustment (Some (fun f => match f with FlipY | SlideX => true | _ => false end))].
Definition demo_area : PopupRect := PopupRect_new 0 0 1000 800.
Lemma demo_menu_tame : positioner_tame (positioner_run demo_menu).
Proof. split; vm_compute; split_and!; discriminate. Qed.
Lemma demo_area_tame : target_tame demo_area.
Proof. split; vm_compute; split_and!; discriminate. Qed.
Example demo_menu_placed : constrained_geometry (positioner_run demo_menu) demo_area = Ret (mkPopup 700 500 300 200).
Proof. vm_compute. reflexivity. Qed.
Lemma popup_placement_exact_witness :
  adjust false true false 0 1000 900 650 300 = (700, 300) /\ adjust true false false 0 800 730 500 200 = (500, 200) /\
  constrained_geometry (positioner_run demo_menu) demo_area = Ret (mkPopup 700 500 300 200).
Proof.
  split; [vm_compute; reflexivity|split; [vm_compute; reflexivity|]].
  exact (popup_placement_exact (positioner_run demo_menu) demo_area demo_menu_tame demo_area_tame).
Defined.
Lemma popup_contained_witness :
  exists g, constrained_geometry (positioner_run demo_menu) demo_area = Ret g /\
    within 0 1000 (pu_x g) (pu_width g) = true.
Proof.
  destruct (popup_contained (positioner_run demo_menu) demo_area demo_menu_tame demo_area_tame)
    as (g & E & _ & _ & _ & _ & H & _).
  exists g. split; [exact E|]. apply H; [reflexivity|left; vm_compute; discriminate].
Defined.
(** An offset at the end of [i32]. *)
Definition demo_far : list PositionerRequest :=
  [SetSize 100 40; SetAnchorRect 0 0 1 1; SetGravity (Some EdgeBottomRight); SetOffset i32_max 0;
   SetConstraintAdjustment (Some (fun f => match f with SlideX | ResizeX => true | _ => false end))].
Lemma demo_far_i32 : Forall request_i32 demo_far.
Proof. unfold demo_far. repeat constructor; vm_compute; discriminate. Qed.
Lemma positioner_never_panics_witness :
  exists g, constrained_geometry (positioner_run demo_far)
    (popup_constraint_target None 1000 800 (positioner_run demo_far)) = Ret g.
Proof.
  destruct (positioner_never_panics demo_far None 1000 800 demo_far_i32) as (g & E & _). by exists g.
Defined.
(** The right edge of a popup saturates: an offset at the end of [i32] hides
    part of the excess, so a popup that may slide and fits in the target is
    left just outside it. *)
Lemma saturated_slide_stays_outside :
  constrained_geometry (positioner_run demo_far) demo_area = Ret (mkPopup 1000 0 100 40) /\
  within 0 1000 1000 100 = false.
Proof. vm_compute. split; reflexivity. Qed.
