(* ===== verification/PopupTree.v ===== *)
(** * PopupTree: the forest of popups and the grab on it

    Models the popup lifecycle of src/compositor/state/windows.rs (with the
    types of src/compositor/state_data.rs, the association of a popup with a
    layer surface in src/compositor/layer_shell.rs and the requests of
    xdg_popup in src/compositor/protocols/xdg.rs). A popup is a node with its
    parent, its children and the surface at the root; a popup may take a grab,
    and grabbed popups are kept on a stack. Dismissing a popup sends
    [popup_done] down its tree and leaves the nodes inert; destroying it
    removes the nodes.

    What the rest of the compositor answers is an argument: which surfaces are
    shown below a surface (and so disappear with it), which surfaces are layer
    surfaces, and whether the serial of a grab is valid. *)

From stdpp Require Import base list option gmap sorting.
From Stdlib Require Import ZArith Lia.
From S2P Require Import Prelude.

(** ** Data *)

Inductive PopupOwner : Type := Toplevel (id : Z) | LayerSurface (id : Z) | Popup (id : Z).
#[export] Instance PopupOwner_eq_dec : EqDecision PopupOwner.
Proof. solve_decision. Defined.
Definition surface_id (o : PopupOwner) : Z := match o with Toplevel i | LayerSurface i | Popup i => i end.
Inductive PopupLifecycle : Type := Alive | Inert | Destroyed.
#[export] Instance PopupLifecycle_eq_dec : EqDecision PopupLifecycle.
Proof. solve_decision. Defined.
Record PopupNode : Type := mkNode {
  owner_root_id : Z; parent : PopupOwner; children : list Z; lifecycle : PopupLifecycle;
  mapped : bool; configured : bool; popup_done_sent : bool; grab_generation : option Z
}.
Record PopupGrab : Type := mkGrab {
  owner_client : Z; grab_root_id : Z; tree_root_popup_id : Z; focused_popup_id : Z; grab_serial : Z; generation : Z
}.
(** The parts of the compositor state popups live in; [popup_surfaces] keeps
    the parent surface of the role, [done_events] the [popup_done] events sent. *)
Record Popups : Type := mkPopups {
  popup_nodes : gmap Z PopupNode; popup_surfaces : gmap Z (option Z);
  popup_grab : option PopupGrab; popup_grab_stack : list Z; next_popup_grab_generation : Z; done_events : list Z
}.
Definition popups_new : Popups := mkPopups ∅ ∅ None [] 0 [].
Definition with_nodes (m : gmap Z PopupNode) (s : Popups) : Popups :=
  mkPopups m (popup_surfaces s) (popup_grab s) (popup_grab_stack s) (next_popup_grab_generation s) (done_events s).
Definition with_surfaces (m : gmap Z (option Z)) (s : Popups) : Popups :=
  mkPopups (popup_nodes s) m (popup_grab s) (popup_grab_stack s) (next_popup_grab_generation s) (done_events s).
Definition with_grab (g : option PopupGrab) (stack : list Z) (s : Popups) : Popups :=
  mkPopups (popup_nodes s) (popup_surfaces s) g stack (next_popup_grab_generation s) (done_events s).
Definition with_children (f : list Z -> list Z) (n : PopupNode) : PopupNode :=
  mkNode (owner_root_id n) (parent n) (f (children n)) (lifecycle n) (mapped n) (configured n) (popup_done_sent n)
    (grab_generation n).
Definition with_owner (o : PopupOwner) (root : Z) (n : PopupNode) : PopupNode :=
  mkNode root o (children n) (lifecycle n) (mapped n) (configured n) (popup_done_sent n) (grab_generation n).
Definition with_mapped (b : bool) (n : PopupNode) : PopupNode :=
  mkNode (owner_root_id n) (parent n) (children n) (lifecycle n) b (configured n) (popup_done_sent n)
    (grab_generation n).
Definition with_configured (n : PopupNode) : PopupNode :=
  mkNode (owner_root_id n) (parent n) (children n) (lifecycle n) (mapped n) true (popup_done_sent n)
    (grab_generation n).
Definition with_generation (g : Z) (n : PopupNode) : PopupNode :=
  mkNode (owner_root_id n) (parent n) (children n) (lifecycle n) (mapped n) (configured n) (popup_done_sent n) (Some g).
(** A dismissed node: first inert and unmapped, then marked as told. *)
Definition inert (n : PopupNode) : PopupNode :=
  mkNode (owner_root_id n) (parent n) (children n) Inert false (configured n) (popup_done_sent n) (grab_generation n).
Definition told (n : PopupNode) : PopupNode :=
  mkNode (owner_root_id n) (parent n) (children n) (lifecycle n) (mapped n) (configured n) true (grab_generation n).

(** ** Links *)

Definition popup_owner_for_parent (is_layer : Z -> bool) (s : Popups) (parent_id : Z) : PopupOwner :=
  if decide (is_Some (popup_nodes s !! parent_id)) then Popup parent_id
  else if is_layer parent_id then LayerSurface parent_id
  else Toplevel parent_id.
Definition popup_node_is_alive (s : Popups) (id : Z) : bool :=
  match popup_nodes s !! id with
  | Some n => bool_decide (lifecycle n = Alive) && bool_decide (is_Some (popup_surfaces s !! id))
  | None => false
  end.
(** The walk to the root: as many rounds as there are nodes, and one. *)
Fixpoint tree_root_loop (rounds : nat) (m : gmap Z PopupNode) (start current : Z) : Z :=
  match rounds with
  | O => start
  | S rounds =>
      match m !! current with
      | None => current
      | Some n =>
          match parent n with
          | Popup p => if p =? current then current else tree_root_loop rounds m start p
          | _ => current
          end
      end
  end.
Definition popup_tree_root (s : Popups) (id : Z) : Z :=
  tree_root_loop (S (size (popup_nodes s))) (popup_nodes s) id id.
Fixpoint cycle_loop (rounds : nat) (m : gmap Z PopupNode) (id current : Z) : bool :=
  match rounds with
  | O => true
  | S rounds =>
      if current =? id then true
      else match m !! current with
           | None => false
           | Some n =>
               match parent n with
               | Popup p => if p =? current then false else cycle_loop rounds m id p
               | _ => false
               end
           end
  end.
Definition popup_would_create_cycle (s : Popups) (id parent_id : Z) : bool :=
  cycle_loop (S (size (popup_nodes s))) (popup_nodes s) id parent_id.
Definition link_popup_to_parent (id : Z) (o : PopupOwner) (s : Popups) : Popups :=
  match o with
  | Popup p =>
      match popup_nodes s !! p with
      | Some n => if decide (id ∈ children n) then s
                  else with_nodes (<[p := with_children (fun l => l ++ [id]) n]> (popup_nodes s)) s
      | None => s
      end
  | _ => s
  end.
Definition unlink_popup_from_parent (id : Z) (o : PopupOwner) (s : Popups) : Popups :=
  match o with
  | Popup p => with_nodes (alter (with_children (base.filter (.≠ id))) p (popup_nodes s)) s
  | _ => s
  end.
Definition attach_popup_node (id : Z) (n : PopupNode) (s : Popups) : Popups :=
  let s := match popup_nodes s !! id with
           | Some old => unlink_popup_from_parent id (parent old) s
           | None => s
           end in
  if match parent n with Popup p => popup_would_create_cycle s id p | _ => false end then s
  else link_popup_to_parent id (parent n) (with_nodes (<[id := n]> (popup_nodes s)) s).
Definition relink_popup_node (id : Z) (o : PopupOwner) (root : Z) (s : Popups) : Popups :=
  match popup_nodes s !! id with
  | None => s
  | Some n =>
      if match o with Popup p => popup_would_create_cycle s id p | _ => false end then s
      else
        let s := unlink_popup_from_parent id (parent n) s in
        let s := with_nodes (alter (with_owner o root) id (popup_nodes s)) s in
        link_popup_to_parent id o s
  end.

(** ** Grabs *)

Definition mentions (ids : list Z) (g : PopupGrab) : bool :=
  bool_decide (focused_popup_id g ∈ ids) || bool_decide (tree_root_popup_id g ∈ ids)
  || bool_decide (grab_root_id g ∈ ids).
Definition clear_popup_grab_for_surface_ids (ids : list Z) (s : Popups) : Popups :=
  with_grab (match popup_grab s with Some g => if mentions ids g then None else Some g | None => None end)
    (base.filter (.∉ ids) (popup_grab_stack s)) s.
(** The effect of [unmap_xdg_role_surfaces] on popups: the surface and the
    surfaces shown below it lose their grabs. *)
Definition unmap_xdg_role_surfaces (below : Z -> list Z) (id : Z) (s : Popups) : Popups :=
  clear_popup_grab_for_surface_ids (below id ++ [id]) s.
Definition topmost_popup_grab_surface_id (s : Popups) : option Z :=
  match popup_grab s with
  | Some g => if popup_node_is_alive s (focused_popup_id g) then Some (focused_popup_id g)
              else snd <$> list_find (fun i => popup_node_is_alive s i = true) (rev (popup_grab_stack s))
  | None => snd <$> list_find (fun i => popup_node_is_alive s i = true) (rev (popup_grab_stack s))
  end.
Definition popup_destroy_is_topmost (s : Popups) (id : Z) : bool :=
  match last (popup_grab_stack s) with
  | None => true
  | Some top => (top =? id) || bool_decide (id ∉ popup_grab_stack s)
  end.

(** ** Dismissal and destruction *)

Abbreviation run := (res Empty_set).
Fixpoint each {A} (f : Z -> A -> run A) (ids : list Z) (s : A) : run A :=
  match ids with [] => Ret s | i :: ids => s ← f i s; each f ids s end.
(** What one dismissal does besides its children; [node] is the node as it was
    when the call began. *)
Definition dismiss_node (below : Z -> list Z) (id : Z) (node : PopupNode) (s : Popups) : Popups :=
  let s := with_nodes (alter inert id (popup_nodes s)) s in
  let s := if popup_done_sent node then s
           else
             let s := if decide (is_Some (popup_surfaces s !! id))
                      then mkPopups (popup_nodes s) (popup_surfaces s) (popup_grab s) (popup_grab_stack s)
                             (next_popup_grab_generation s) (done_events s ++ [id])
                      else s in
             with_nodes (alter told id (popup_nodes s)) s in
  clear_popup_grab_for_surface_ids [id] (unmap_xdg_role_surfaces below id s).
Fixpoint dismiss_loop (fuel : nat) (below : Z -> list Z) (id : Z) (s : Popups) : run Popups :=
  match fuel with
  | O => NoFuel
  | S fuel =>
      match popup_nodes s !! id with
      | None => Ret s
      | Some node =>
          if decide (lifecycle node = Destroyed) then Ret s
          else (s ← each (dismiss_loop fuel below) (children node) s; Ret (dismiss_node below id node s))
      end
  end.
Definition dismiss_popup_surface (below : Z -> list Z) (id : Z) (s : Popups) : run Popups :=
  dismiss_loop (S (size (popup_nodes s))) below id s.
Definition detach_popup_node (id : Z) (s : Popups) : Popups :=
  match popup_nodes s !! id with
  | None => s
  | Some n =>
      let s := with_nodes (delete id (popup_nodes s)) s in
      clear_popup_grab_for_surface_ids [id] (unlink_popup_from_parent id (parent n) s)
  end.
Definition destroy_node (below : Z -> list Z) (id : Z) (s : Popups) : Popups :=
  let s := unmap_xdg_role_surfaces below id s in
  let s := clear_popup_grab_for_surface_ids [id] s in
  let s := with_grab (popup_grab s) (base.filter (.≠ id) (popup_grab_stack s)) s in
  let s := with_surfaces (delete id (popup_surfaces s)) s in
  detach_popup_node id s.
Fixpoint destroy_loop (fuel : nat) (below : Z -> list Z) (id : Z) (s : Popups) : run Popups :=
  match fuel with
  | O => NoFuel
  | S fuel =>
      let ids := match popup_nodes s !! id with Some n => children n | None => [] end in
      s ← each (destroy_loop fuel below) ids s; Ret (destroy_node below id s)
  end.
Definition destroy_popup_role (below : Z -> list Z) (id : Z) (s : Popups) : run Popups :=
  destroy_loop (S (size (popup_nodes s))) below id s.
Definition unregister_popup_surface (below : Z -> list Z) (id : Z) (s : Popups) : run Popups :=
  destroy_popup_role below id s.
Section Walks.
Context {order : HashOrder}.
Definition children_of_surface (s : Popups) (parent_id : Z) : list Z :=
    base.filter (fun i => (fun n => surface_id (parent n)) <$> popup_nodes s !! i = Some parent_id)
      (hash_keys (popup_nodes s)).
Definition dismiss_popup_children_for_parent (below : Z -> list Z) (id : Z) (s : Popups) : run Popups :=
    each (dismiss_popup_surface below) (children_of_surface s id) s.
Definition destroy_popup_children_for_parent (below : Z -> list Z) (id : Z) (s : Popups) : run Popups :=
    each (destroy_popup_role below) (children_of_surface s id) s.
End Walks.

(** ** Operations *)

Definition register_popup_surface (is_cursor : bool) (is_layer : Z -> bool) (id : Z) (parent_id : option Z)
  (s : Popups) : Popups :=
  if is_cursor then s
  else
    let owner := match parent_id with Some p => popup_owner_for_parent is_layer s p | None => Toplevel id end in
    let root := match owner with
                | Popup p => match popup_nodes s !! p with Some n => owner_root_id n | None => p end
                | LayerSurface p | Toplevel p => p
                end in
    let s := with_surfaces (<[id := parent_id]> (popup_surfaces s)) s in
    attach_popup_node id (mkNode root owner [] Alive false false false None) s.
(** [configure_popup_surface] marks a live popup, the publication of a commit
    maps it. *)
Definition configure_popup_surface (id : Z) (s : Popups) : Popups :=
  if popup_node_is_alive s id then with_nodes (alter with_configured id (popup_nodes s)) s else s.
Definition publish_popup_commit (id : Z) (s : Popups) : Popups :=
  if bool_decide (is_Some (popup_surfaces s !! id)) && popup_node_is_alive s id
  then with_nodes (alter (with_mapped true) id (popup_nodes s)) s else s.
Definition grab_popup_surface (below : Z -> list Z) (valid : bool) (client : option Z) (serial id : Z) (s : Popups)
  : run (Popups * bool) :=
  if negb (popup_node_is_alive s id) || negb valid then (s ← dismiss_popup_surface below id s; Ret (s, false))
  else
    match client, popup_nodes s !! id with
    | Some client, Some node =>
        let root := owner_root_id node in
        let tree_root := popup_tree_root s id in
        s ← (match popup_grab s with
             | Some active =>
                 if bool_decide (owner_client active <> client) || bool_decide (grab_root_id active <> root)
                 then dismiss_popup_surface below (tree_root_popup_id active) s else Ret s
             | None => Ret s
             end : run Popups);
        let generation := sat_add u64_max (next_popup_grab_generation s) 1 in
        Ret (mkPopups (alter (with_generation generation) id (popup_nodes s)) (popup_surfaces s)
               (Some (mkGrab client root tree_root id serial generation))
               (base.filter (.≠ id) (popup_grab_stack s) ++ [id]) generation (done_events s), true)
    | _, _ => s ← dismiss_popup_surface below id s; Ret (s, false)
    end.
Inductive PopupError : Type :=
  InvalidPopupParent | NotTheTopmostPopup | InvalidGrab | LayerNotMapped | NotRegistered | AlreadyHasParent.
(** [xdg_surface.get_popup] with a parent that must be a window or popup of the
    same client. *)
Definition get_popup (is_cursor : bool) (is_layer is_toplevel : Z -> bool) (client_of : Z -> option Z) (id : Z)
  (parent_id : option Z) (s : Popups) : Popups * option PopupError :=
  match parent_id with
  | Some p =>
      if negb (bool_decide (client_of id = client_of p)) || (p =? id)
         || (negb (is_toplevel p) && negb (bool_decide (is_Some (popup_surfaces s !! p))))
      then (s, Some InvalidPopupParent)
      else (register_popup_surface is_cursor is_layer id parent_id s, None)
  | None => (register_popup_surface is_cursor is_layer id None s, None)
  end.
(** The requests of [xdg_popup]; a resource whose role is gone is ignored. *)
Definition popup_destroy (below : Z -> list Z) (id : Z) (s : Popups) : run (Popups * option PopupError) :=
  if decide (is_Some (popup_surfaces s !! id)) then
    if negb (popup_destroy_is_topmost s id) then Ret (s, Some NotTheTopmostPopup)
    else (s ← unregister_popup_surface below id s; Ret (s, None))
  else Ret (s, None).
Definition popup_grab_request (below : Z -> list Z) (valid : bool) (client : option Z) (serial id : Z) (s : Popups)
  : run (Popups * option PopupError) :=
  if decide (is_Some (popup_surfaces s !! id)) then
    '(s, ok) ← grab_popup_surface below valid client serial id s;
    Ret (s, if ok : bool then None else Some InvalidGrab)
  else Ret (s, None).
Definition associate_layer_surface_popup (layer_ready : bool) (layer id : Z) (s : Popups)
  : Popups * option PopupError :=
  if negb layer_ready then (s, Some LayerNotMapped)
  else match popup_surfaces s !! id with
       | None => (s, Some NotRegistered)
       | Some (Some _) => (s, Some AlreadyHasParent)
       | Some None =>
           (relink_popup_node id (LayerSurface layer) layer
              (with_surfaces (<[id := Some layer]> (popup_surfaces s)) s), None)
       end.
(** A press: outside of the topmost grabbed popup it dismisses that popup. *)
Definition popup_grab_to_dismiss_for_pointer_target (inside : Z -> bool) (s : Popups) : option Z :=
  match topmost_popup_grab_surface_id s with
  | Some p => if inside p then None else Some p
  | None => None
  end.
Definition pointer_press (below : Z -> list Z) (inside : Z -> bool) (s : Popups) : run Popups :=
  match popup_grab_to_dismiss_for_pointer_target inside s with
  | Some p => dismiss_popup_surface below p s
  | None => Ret s
  end.
Section Teardown.
Context {order : HashOrder}.
(** A commit that takes the content of a surface away; [hidden] are the
      surfaces shown below it. A layer surface is unmapped in addition, with the
      same effect as [LayerUnmapped] below. *)
Definition unmap_surface (below : Z -> list Z) (hidden : list Z) (id : Z) (s : Popups) : run Popups :=
    s ← dismiss_popup_children_for_parent below id (with_nodes (alter (with_mapped false) id (popup_nodes s)) s);
    Ret (clear_popup_grab_for_surface_ids hidden s).
(** [unregister_toplevel_surface] unmaps the surface. *)
Definition unregister_toplevel_surface (hidden : list Z) (id : Z) (s : Popups) : Popups :=
    unmap_xdg_role_surfaces (fun _ => hidden) id s.
Definition unregister_xdg_surface_role (below : Z -> list Z) (hidden : list Z) (id : Z) (s : Popups) : run Popups :=
    s ← destroy_popup_children_for_parent below id s;
    let s := unregister_toplevel_surface hidden id s in
    s ← unregister_popup_surface below id s;
    let s := clear_popup_grab_for_surface_ids [id] s in
    Ret (with_grab (popup_grab s) (base.filter (.≠ id) (popup_grab_stack s)) s).
(** [teardown_layer_surface]: the popups of the layer surface are dismissed
      and its content goes. *)
Definition teardown_layer_surface (below : Z -> list Z) (is_layer : Z -> bool) (content : list Z) (id : Z)
    (s : Popups) : run Popups :=
    if is_layer id then (s ← dismiss_popup_children_for_parent below id s;
                         Ret (clear_popup_grab_for_surface_ids content s))
    else Ret s.
(** The end of a surface; [shown] are the surfaces placed directly on it. *)
Definition teardown_surface (below : Z -> list Z) (hidden : list Z) (is_layer : Z -> bool)
    (content shown : list Z) (id : Z) (s : Popups) : run Popups :=
    let s := unregister_toplevel_surface hidden id s in
    s ← unregister_popup_surface below id s;
    s ← teardown_layer_surface below is_layer content id s;
    let removed := id :: shown in
    let s := clear_popup_grab_for_surface_ids removed s in
    let s := with_grab (popup_grab s) (base.filter (.∉ removed) (popup_grab_stack s)) s in
    each (unregister_popup_surface below) removed s.

(** What happens to the popups, one call at a time. *)
Inductive PopupStep : Type :=
  | GetPopup (is_cursor : bool) (is_layer is_toplevel : Z -> bool) (id : Z) (parent_id : option Z)
  | Configure (id : Z)
  | PublishCommit (id : Z)
  | UnmapSurface (below : Z -> list Z) (hidden : list Z) (id : Z)
  | PopupGrabRequest (below : Z -> list Z) (valid : bool) (client : option Z) (serial id : Z)
  | PopupDestroy (below : Z -> list Z) (id : Z)
  | Associate (layer_ready : bool) (layer id : Z)
  | PointerPress (below : Z -> list Z) (inside : Z -> bool)
  | LayerUnmapped (below : Z -> list Z) (id : Z)
  | UnregisterXdg (below : Z -> list Z) (hidden : list Z) (id : Z)
  | TeardownSurface (below : Z -> list Z) (hidden : list Z) (is_layer : Z -> bool) (content shown : list Z) (id : Z)
  | ClearGrab (ids : list Z).
Definition popup_step (client_of : Z -> option Z) (e : PopupStep) (s : Popups) : run (Popups * option PopupError) :=
    match e with
    | GetPopup is_cursor is_layer is_toplevel id parent_id =>
        Ret (get_popup is_cursor is_layer is_toplevel client_of id parent_id s)
    | Configure id => Ret (configure_popup_surface id s, None)
    | PublishCommit id => Ret (publish_popup_commit id s, None)
    | UnmapSurface below hidden id => s ← unmap_surface below hidden id s; Ret (s, None)
    | PopupGrabRequest below valid client serial id => popup_grab_request below valid client serial id s
    | PopupDestroy below id => popup_destroy below id s
    | Associate ready layer id => Ret (associate_layer_surface_popup ready layer id s)
    | PointerPress below inside => s ← pointer_press below inside s; Ret (s, None)
    | LayerUnmapped below id => s ← dismiss_popup_children_for_parent below id s; Ret (s, None)
    | UnregisterXdg below hidden id => s ← unregister_xdg_surface_role below hidden id s; Ret (s, None)
    | TeardownSurface below hidden is_layer content shown id =>
        s ← teardown_surface below hidden is_layer content shown id s; Ret (s, None)
    | ClearGrab ids => Ret (clear_popup_grab_for_surface_ids ids s, None)
    end.
End Teardown.
