(* ===== verification/PopupForest.v ===== *)
(** * PopupForest: the popups form a forest, and what happens to its trees

    The theory of [PopupTree]: chains of ancestors, the subtrees that are
    dismissed or destroyed, the invariant of every history, and what each
    operation does to the nodes, the grab and the events. *)

From stdpp Require Import base list option gmap sorting.
From Stdlib Require Import ZArith Lia.
From S2P Require Import Prelude PopupTree.

(** ** Chains of ancestors *)

(** The popups above a popup, nearest first. *)
Inductive Chain (m : gmap Z PopupNode) : Z -> list Z -> Prop :=
| chain_root i n : m !! i = Some n -> (forall p, parent n <> Popup p) -> Chain m i []
| chain_step i n p l : m !! i = Some n -> parent n = Popup p -> Chain m p l -> Chain m i (p :: l).
#[export] Hint Constructors Chain : typhon.

Lemma chain_det m i l l' : Chain m i l -> Chain m i l' -> l = l'.
Proof.
  intros H. revert l'. induction H as [i n E Hn|i n p l E Ep H IH]; intros l' H'.
  - inversion H' as [|? n' p' k E' Ep' K]; simplify_eq/=; [done|]. by destruct (Hn p').
  - inversion H' as [? n' E' Hn'|? n' p' k E' Ep' K]; simplify_eq/=; [by destruct (Hn' p)|]. assert (p = p') as <- by congruence. f_equal. by apply IH.
Qed.
Lemma chain_dom m i l : Chain m i l -> forall j, j ∈ i :: l -> is_Some (m !! j).
Proof.
  induction 1 as [i n E Hn|i n p l E Ep H IH]; intros j [->|Hj]%elem_of_cons; try done; try by eexists.
  - by apply not_elem_of_nil in Hj.
  - by apply IH.
Qed.
Lemma chain_suffix m i l pre j post : Chain m i l -> i :: l = pre ++ j :: post -> Chain m j post.
Proof.
  intros H. revert pre. induction H as [i n E Hn|i n p l E Ep H IH]; intros [|x pre] Eq; injection Eq as <- Eq.
  - subst. eauto with typhon.
  - by destruct pre.
  - subst. eauto with typhon.
  - by eapply IH.
Qed.
Lemma chain_nodup m i l : Chain m i l -> base.NoDup (i :: l).
Proof.
  induction 1 as [i n E Hn|i n p l E Ep H IH]; [apply NoDup_singleton|].
  apply NoDup_cons. split; [|done]. intros Hin. apply list_elem_of_split in Hin as (l1 & l2 & Eq).
  assert (Hc : Chain m i (p :: l)) by eauto with typhon.
  assert (Hs : Chain m i l2) by (eapply (chain_suffix m p l l1); done).
  pose proof (chain_det _ _ _ _ Hc Hs) as El. apply (f_equal length) in El, Eq.
  rewrite length_app in Eq. cbn in *. lia.
Qed.
Lemma chain_length m i l : Chain m i l -> (length l < size m)%nat.
Proof.
  intros H. pose proof (chain_nodup _ _ _ H) as Hn. pose proof (chain_dom _ _ _ H) as Hd.
  assert (Hs : (length (i :: l) <= size (dom m))%nat).
  { rewrite <- (size_list_to_set (C := gset Z) (i :: l) Hn). apply subseteq_size.
    intros j Hj%elem_of_list_to_set. by apply elem_of_dom, Hd. }
  rewrite size_dom in Hs. cbn in Hs. lia.
Qed.

(** [Under m a x]: [x] is [a] or below it. *)
Definition Under (m : gmap Z PopupNode) (a x : Z) : Prop := exists l, Chain m x l /\ a ∈ x :: l.

(** ** Well-formed links *)

Record Links (m : gmap Z PopupNode) : Prop := {
  l_parent : forall i n p, m !! i = Some n -> parent n = Popup p -> exists q, m !! p = Some q /\ i ∈ children q;
  l_child : forall i n c, m !! i = Some n -> c ∈ children n -> exists k, m !! c = Some k /\ parent k = Popup i;
  l_nodup : forall i n, m !! i = Some n -> base.NoDup (children n);
  l_chain : forall i, is_Some (m !! i) -> exists l, Chain m i l
}.
(** What links a node. *)
Definition shape (n : PopupNode) : Z * PopupOwner * list Z := (owner_root_id n, parent n, children n).
Definition same_shape (m m' : gmap Z PopupNode) : Prop := forall i, shape <$> m' !! i = shape <$> m !! i.
Lemma same_shape_lookup m m' i n :
  same_shape m m' -> m !! i = Some n ->
  exists n', m' !! i = Some n' /\ owner_root_id n' = owner_root_id n /\ parent n' = parent n /\ children n' = children n.
Proof.
  intros H E. specialize (H i). rewrite E in H. cbn in H. apply fmap_Some in H as (n' & E' & [=]). eauto.
Qed.
Lemma same_shape_sym m m' : same_shape m m' -> same_shape m' m.
Proof. intros H i. by rewrite H. Qed.
Lemma same_shape_trans m m' m'' : same_shape m m' -> same_shape m' m'' -> same_shape m m''.
Proof. intros H H' i. by rewrite H', H. Qed.
Lemma same_shape_refl m : same_shape m m.
Proof. done. Qed.
#[export] Hint Resolve same_shape_refl : typhon.
Lemma same_shape_alter f i m : (forall n, shape (f n) = shape n) -> same_shape m (alter f i m).
Proof.
  intros Hf j. destruct (decide (i = j)) as [->|].
  - rewrite lookup_alter_eq. destruct (m !! j); cbn; [by rewrite Hf|done].
  - by rewrite lookup_alter_ne.
Qed.
Lemma same_shape_chain m m' i l : same_shape m m' -> Chain m i l -> Chain m' i l.
Proof.
  intros H. induction 1 as [i n E Hn|i n p l E Ep HC IH];
    destruct (same_shape_lookup _ _ _ _ H E) as (n' & E' & _ & Ep' & _).
  - econstructor; [done|]. intros p. by rewrite Ep'.
  - econstructor; [done| |done]. by rewrite Ep'.
Qed.
Lemma same_shape_links m m' : same_shape m m' -> Links m -> Links m'.
Proof.
  intros H [L1 L2 L3 L4]. pose proof (same_shape_sym _ _ H) as H'. split.
  - intros i n p E Ep. destruct (same_shape_lookup _ _ _ _ H' E) as (n0 & E0 & _ & Ep0 & _).
    rewrite <- Ep0 in Ep. destruct (L1 _ _ _ E0 Ep) as (q & Eq & Hq).
    destruct (same_shape_lookup _ _ _ _ H Eq) as (q' & Eq' & _ & _ & Ec). exists q'. by rewrite Ec.
  - intros i n c E Hc. destruct (same_shape_lookup _ _ _ _ H' E) as (n0 & E0 & _ & _ & Ec0).
    rewrite <- Ec0 in Hc. destruct (L2 _ _ _ E0 Hc) as (k & Ek & Hk).
    destruct (same_shape_lookup _ _ _ _ H Ek) as (k' & Ek' & _ & Ep & _). exists k'. by rewrite Ep.
  - intros i n E. destruct (same_shape_lookup _ _ _ _ H' E) as (n0 & E0 & _ & _ & Ec0). rewrite <- Ec0. by eapply L3.
  - intros i [n E]. destruct (same_shape_lookup _ _ _ _ H' E) as (n0 & E0 & _). destruct (L4 i) as [l Hl]; [by eexists|].
    exists l. by eapply same_shape_chain.
Qed.

(** ** Subtrees *)

(** A subtree in the order it is taken down: children first. *)
Fixpoint postorder (fuel : nat) (m : gmap Z PopupNode) (i : Z) : list Z :=
  match fuel with
  | O => []
  | S fuel => match m !! i with
              | None => []
              | Some n => concat (postorder fuel m <$> children n) ++ [i]
              end
  end.
Definition subtree (m : gmap Z PopupNode) (i : Z) : list Z := postorder (S (size m)) m i.
(** Every element hangs below the top by its chain. *)
Lemma postorder_below m fuel i l x :
  Links m -> Chain m i l -> x ∈ postorder fuel m i -> exists pre lx, Chain m x lx /\ x :: lx = pre ++ i :: l.
Proof.
  intros HL. revert i l. induction fuel as [|fuel IH]; intros i l Hc Hx; cbn in Hx; [by apply not_elem_of_nil in Hx|].
  destruct (m !! i) as [n|] eqn:E; [|by apply not_elem_of_nil in Hx].
  apply elem_of_app in Hx as [Hx|Hx%list_elem_of_singleton]; [|subst; by exists [], l].
  apply list_elem_of_In, in_concat in Hx as (k & Hk%list_elem_of_In & Hx%list_elem_of_In).
  apply list_elem_of_fmap in Hk as (c & -> & Hck).
  destruct (l_child m HL _ _ _ E Hck) as (nk & Ek & Ep).
  destruct (IH c (i :: l)) as (pre & lx & Hlx & Eq); [eauto with typhon|done|].
  exists (pre ++ [c]), lx. by rewrite <- app_assoc.
Qed.
(** With enough fuel nothing below is missed. *)
Lemma postorder_all m fuel i l x lx :
  Links m -> Chain m i l -> (size m <= fuel + length l)%nat -> Chain m x lx -> i ∈ x :: lx -> x ∈ postorder fuel m i.
Proof.
  intros HL. revert i l. induction fuel as [|fuel IH]; intros i l Hc Hf Hx Hi.
  { pose proof (chain_length _ _ _ Hc). lia. }
  destruct (chain_dom _ _ _ Hc i) as [n E]; [left|]. cbn. rewrite E. apply elem_of_app.
  apply elem_of_cons in Hi as [->|Hi]; [right; by left|]. left.
  apply list_elem_of_split in Hi as (l1 & l2 & Eq).
  destruct (exists_last (l := x :: l1)) as (pre & c & Ec); [done|].
  assert (Exl : x :: lx = pre ++ c :: i :: l2) by (rewrite Eq, app_comm_cons, Ec, <- app_assoc; done).
  pose proof (chain_suffix _ _ _ _ _ _ Hx Exl) as Hcc. inversion Hcc as [|? nc ? ? Ecn Ecp Hi']; subst.
  pose proof (chain_det _ _ _ _ Hc Hi') as <-.
  destruct (l_parent m HL _ _ _ Ecn Ecp) as (q & Eq' & Hq). rewrite E in Eq'. injection Eq' as <-.
  apply list_elem_of_In, in_concat. exists (postorder fuel m c). split.
  { apply list_elem_of_In, list_elem_of_fmap. by exists c. }
  apply list_elem_of_In. apply (IH c (i :: l)); [done|cbn; lia|done|].
  rewrite Exl. apply elem_of_app. right. by left.
Qed.
Lemma NoDup_concat_fmap {A B} (f : A -> list B) cs :
  base.NoDup cs -> (forall c, c ∈ cs -> base.NoDup (f c)) ->
  (forall c c' x, c ∈ cs -> c' ∈ cs -> x ∈ f c -> x ∈ f c' -> c = c') -> base.NoDup (concat (f <$> cs)).
Proof.
  induction cs as [|c cs IH]; cbn; intros H1 H2 H3; [apply NoDup_nil_2|].
  apply NoDup_cons in H1 as [Hc H1]. apply NoDup_app. split_and!.
  - apply H2. by left.
  - intros x Hx Hx'. apply list_elem_of_In, in_concat in Hx' as (k & Hk%list_elem_of_In & Hx'%list_elem_of_In).
    apply list_elem_of_fmap in Hk as (c' & -> & Hc'). assert (c = c') as <-; [|done].
    apply (H3 c c' x); [by left|by right|done..].
  - apply IH; [done|intros; apply H2; by right|].
    intros c1 c2 x ? ? ? ?. apply (H3 c1 c2 x); [by right..|done|done].
Qed.
Lemma postorder_nodup m fuel i l : Links m -> Chain m i l -> base.NoDup (postorder fuel m i).
Proof.
  intros HL. revert i l. induction fuel as [|fuel IH]; intros i l Hc; cbn; [apply NoDup_nil_2|].
  destruct (m !! i) as [n|] eqn:E; [|apply NoDup_nil_2].
  assert (Hch : forall c, c ∈ children n -> Chain m c (i :: l)).
  { intros c Hcn. destruct (l_child m HL _ _ _ E Hcn) as (k & Ek & Ep). eauto with typhon. }
  assert (Hin : forall x, x ∈ concat (postorder fuel m <$> children n) ->
    exists c pre lx, c ∈ children n /\ Chain m x lx /\ x :: lx = pre ++ c :: i :: l).
  { intros x Hx. apply list_elem_of_In, in_concat in Hx as (k & Hk%list_elem_of_In & Hx%list_elem_of_In).
    apply list_elem_of_fmap in Hk as (c & -> & Hk).
    destruct (postorder_below m fuel c _ x HL (Hch c Hk) Hx) as (pre & lx & ? & ?). by exists c, pre, lx. }
  apply NoDup_app. split_and!; [|intros x Hx ->%list_elem_of_singleton|apply NoDup_singleton].
  - apply NoDup_concat_fmap; [by eapply l_nodup|eauto|].
    intros c c' x Hcn Hcn' Hx Hx'.
    destruct (postorder_below m fuel c _ x HL (Hch c Hcn) Hx) as (pre & lx & Hlx & Eq).
    destruct (postorder_below m fuel c' _ x HL (Hch c' Hcn') Hx') as (pre' & lx' & Hlx' & Eq').
    pose proof (chain_det _ _ _ _ Hlx Hlx') as <-. rewrite Eq in Eq'.
    apply app_inj_2 in Eq' as [_ Eq']; [by injection Eq'|done].
  - destruct (Hin i Hx) as (c & pre & lx & _ & Hlx & Eq). pose proof (chain_det _ _ _ _ Hc Hlx) as <-.
    apply (f_equal length) in Eq. rewrite length_app in Eq. cbn in Eq. lia.
Qed.
Lemma elem_of_subtree m i x : Links m -> is_Some (m !! i) -> x ∈ subtree m i <-> Under m i x.
Proof.
  intros HL Hi. destruct (l_chain m HL i Hi) as [l Hl]. split.
  - intros Hx. destruct (postorder_below m _ i l x HL Hl Hx) as (pre & lx & Hlx & Eq).
    exists lx. split; [done|]. rewrite Eq. apply elem_of_app. right. by left.
  - intros (lx & Hlx & Hin). eapply postorder_all; try done. lia.
Qed.
Lemma subtree_nodup m i : Links m -> base.NoDup (subtree m i).
Proof.
  intros HL. destruct (m !! i) as [n|] eqn:E; [|unfold subtree; cbn; rewrite E; apply NoDup_nil_2].
  destruct (l_chain m HL i) as [l Hl]; [by eexists|]. by eapply postorder_nodup.
Qed.
Lemma subtree_empty m i : m !! i = None -> subtree m i = [].
Proof. intros E. unfold subtree. cbn. by rewrite E. Qed.

(** ** The invariant *)

(** A popup lives until it is told that it is done, and is not mapped then. *)
Definition status (n : PopupNode) : Prop :=
  (lifecycle n = Alive /\ popup_done_sent n = false) \/
  (lifecycle n = Inert /\ popup_done_sent n = true /\ mapped n = false).

Section Clients.
Context (client_of : Z -> option Z).

Record NodeInv (m : gmap Z PopupNode) (sf : gmap Z (option Z)) : Prop := {
  ni_links : Links m;
  ni_dom : forall i, is_Some (m !! i) <-> is_Some (sf !! i);
  ni_root : forall i n, m !! i = Some n ->
    (forall p q, parent n = Popup p -> m !! p = Some q -> owner_root_id q = owner_root_id n) /\
    ((forall p, parent n <> Popup p) -> owner_root_id n = surface_id (parent n));
  ni_client : forall i n, m !! i = Some n -> client_of i = client_of (owner_root_id n);
  ni_status : forall i n, m !! i = Some n -> status n;
  ni_orphan : forall i n, m !! i = Some n -> sf !! i = Some None -> parent n = Toplevel i
}.
Record GrabInv (s : Popups) : Prop := {
  gi_nodup : base.NoDup (popup_grab_stack s);
  gi_alive : forall i, i ∈ popup_grab_stack s -> popup_node_is_alive s i = true;
  gi_grab : forall g, popup_grab s = Some g ->
    last (popup_grab_stack s) = Some (focused_popup_id g) /\
    client_of (focused_popup_id g) = Some (owner_client g) /\
    exists n l, popup_nodes s !! focused_popup_id g = Some n /\ owner_root_id n = grab_root_id g /\
      Chain (popup_nodes s) (focused_popup_id g) l /\ last (focused_popup_id g :: l) = Some (tree_root_popup_id g)
}.
Definition Inv (s : Popups) : Prop := NodeInv (popup_nodes s) (popup_surfaces s) /\ GrabInv s.

Lemma last_filter_keep {A} (P : A -> Prop) `{!forall x, Decision (P x)} (l : list A) x :
  last l = Some x -> P x -> last (base.filter P l) = Some x.
Proof.
  intros Hl Hx. apply last_Some in Hl as [k ->]. rewrite filter_app, filter_cons_True, filter_nil, last_snoc by done. done.
Qed.
Lemma clear_inv ids s : Inv s -> Inv (clear_popup_grab_for_surface_ids ids s).
Proof.
  intros [Hn [G1 G2 G3]]. split; [done|]. split; cbn.
  - by apply NoDup_filter.
  - intros i [_ Hi]%list_elem_of_filter. apply (G2 i Hi).
  - intros g Hg. destruct (popup_grab s) as [g0|] eqn:Eg; [|done]. destruct (mentions ids g0) eqn:Em; [done|].
    injection Hg as <-. destruct (G3 g0 eq_refl) as (H1 & H2). split; [|done]. apply last_filter_keep; [done|].
    unfold mentions in Em. apply orb_false_iff in Em as [[Em _]%orb_false_iff _]. by apply bool_decide_eq_false in Em.
Qed.
(** Filtering the stack alone, when the grab is not concerned. *)
Lemma clear_clear_stack ids s :
  with_grab (popup_grab (clear_popup_grab_for_surface_ids ids s))
    (base.filter (.∉ ids) (popup_grab_stack (clear_popup_grab_for_surface_ids ids s)))
    (clear_popup_grab_for_surface_ids ids s) = clear_popup_grab_for_surface_ids ids s.
Proof.
  unfold clear_popup_grab_for_surface_ids, with_grab. cbn. f_equal.
  rewrite list_filter_filter. apply list_filter_iff. tauto.
Qed.
Lemma filter_ne_single id (l : list Z) : base.filter (.≠ id) l = base.filter (.∉ [id]) l.
Proof. apply list_filter_iff. intros x. by rewrite list_elem_of_singleton. Qed.

(** A change of one node that keeps its links. *)
Lemma update_inv f i gen ev s :
  Inv s -> (forall n, shape (f n) = shape n) ->
  (forall n, popup_nodes s !! i = Some n -> status n -> status (f n)) ->
  (i ∈ popup_grab_stack s -> forall n, lifecycle (f n) = lifecycle n) ->
  Inv (mkPopups (alter f i (popup_nodes s)) (popup_surfaces s) (popup_grab s) (popup_grab_stack s) gen ev).
Proof.
  intros [[L D R C S O] [G1 G2 G3]] Hf Hst Hlf. pose proof (same_shape_alter f i (popup_nodes s) Hf) as Hs.
  pose proof (same_shape_sym _ _ Hs) as Hs'. split; split; cbn.
  - by eapply same_shape_links.
  - intros j. rewrite <- D. specialize (Hs j). destruct (alter f i _ !! j), (popup_nodes s !! j); try discriminate Hs;
      split; intros H; try done; by destruct H.
  - intros j n E. destruct (same_shape_lookup _ _ _ _ Hs' E) as (n0 & E0 & Er & Ep & _).
    rewrite <- Er, <- Ep. destruct (R _ _ E0) as [R1 R2]. split; [|done]. intros p q Hp Eq.
    destruct (same_shape_lookup _ _ _ _ Hs' Eq) as (q0 & Eq0 & Erq & _). rewrite <- Erq. by eapply R1.
  - intros j n E. destruct (same_shape_lookup _ _ _ _ Hs' E) as (n0 & E0 & Er & _). rewrite <- Er. by eapply C.
  - intros j n E. destruct (decide (i = j)) as [<-|].
    + rewrite lookup_alter_eq in E. apply fmap_Some in E as (n0 & E0 & ->). eauto.
    + rewrite lookup_alter_ne in E by done. eauto.
  - intros j n E. destruct (same_shape_lookup _ _ _ _ Hs' E) as (n0 & E0 & _ & Ep & _). rewrite <- Ep. by eapply O.
  - done.
  - intros j Hj. specialize (G2 j Hj). unfold popup_node_is_alive in *. cbn. destruct (decide (i = j)) as [<-|].
    + rewrite lookup_alter_eq. destruct (popup_nodes s !! i); [|done]. cbn. by rewrite (Hlf Hj).
    + by rewrite lookup_alter_ne.
  - intros g Hg. destruct (G3 g Hg) as (H1 & H2 & n & l & E & Er & Hc & Hl). split; [done|]. split; [done|].
    destruct (same_shape_lookup _ _ _ _ Hs E) as (n' & E' & Er' & _). exists n', l. split; [done|].
    split; [congruence|]. split; [by eapply same_shape_chain|done].
Qed.

(** ** Dismissal *)

Definition marked (n : PopupNode) : PopupNode := told (inert n).
Definition tell (i : Z) (s : Popups) : list Z :=
  match popup_nodes s !! i with
  | Some n => if popup_done_sent n then [] else if decide (is_Some (popup_surfaces s !! i)) then [i] else []
  | None => []
  end.
Definition release (below : Z -> list Z) (i : Z) (s : Popups) : Popups :=
  clear_popup_grab_for_surface_ids [i] (clear_popup_grab_for_surface_ids (below i ++ [i]) s).
Lemma release_inv below i s : Inv s -> Inv (release below i s).
Proof. intros H. by apply clear_inv, clear_inv. Qed.
Lemma release_stack below i s : i ∉ popup_grab_stack (release below i s).
Proof. cbn. intros [H _]%list_elem_of_filter. apply H. by left. Qed.
Lemma dismiss_node_eq below i n s :
  popup_nodes s !! i = Some n ->
  dismiss_node below i n s
  = let r := release below i s in
    mkPopups (alter marked i (popup_nodes s)) (popup_surfaces s) (popup_grab r) (popup_grab_stack r)
      (next_popup_grab_generation s) (done_events s ++ tell i s).
Proof.
  intros E. unfold dismiss_node, tell. rewrite E. destruct (popup_done_sent n) eqn:Es.
  - unfold release, unmap_xdg_role_surfaces, clear_popup_grab_for_surface_ids, with_grab, with_nodes. cbn.
    rewrite app_nil_r. f_equal. apply alter_ext. intros x Ex. rewrite E in Ex. injection Ex as <-.
    unfold marked, told, inert. cbn. by rewrite Es.
  - unfold with_nodes. cbn. destruct (decide _);
      unfold release, unmap_xdg_role_surfaces, clear_popup_grab_for_surface_ids, with_grab; cbn;
      rewrite ?app_nil_r, alter_alter_eq; done.
Qed.
Lemma dismiss_node_inv below i n s : Inv s -> popup_nodes s !! i = Some n -> Inv (dismiss_node below i n s).
Proof.
  intros H E. rewrite (dismiss_node_eq below i n s E). cbv zeta.
  apply (update_inv marked i (next_popup_grab_generation s) (done_events s ++ tell i s) (release below i s)).
  - by apply release_inv.
  - done.
  - intros k _ _. by right.
  - intros Hin. by apply release_stack in Hin.
Qed.
(** Dismissing a list of popups one after the other. *)
Definition dismiss_one (below : Z -> list Z) (s : Popups) (i : Z) : Popups :=
  match popup_nodes s !! i with Some n => dismiss_node below i n s | None => s end.
Lemma dismiss_one_inv below s i : Inv s -> Inv (dismiss_one below s i).
Proof. intros H. unfold dismiss_one. destruct (popup_nodes s !! i) eqn:E; [by apply dismiss_node_inv|done]. Qed.
Lemma dismiss_all_inv below ids s : Inv s -> Inv (fold_left (dismiss_one below) ids s).
Proof. revert s. induction ids as [|i ids IH]; intros s H; cbn; [done|]. by apply IH, dismiss_one_inv. Qed.
Lemma dismiss_one_nodes below s i : popup_nodes (dismiss_one below s i) = alter marked i (popup_nodes s).
Proof.
  unfold dismiss_one. destruct (popup_nodes s !! i) eqn:E; [by rewrite (dismiss_node_eq below i _ s E)|].
  apply map_eq. intros j. rewrite lookup_alter. case_decide; [subst; by rewrite E|done].
Qed.
Lemma dismiss_one_rest below s i :
  popup_surfaces (dismiss_one below s i) = popup_surfaces s /\
  next_popup_grab_generation (dismiss_one below s i) = next_popup_grab_generation s /\
  done_events (dismiss_one below s i) = done_events s ++ tell i s.
Proof.
  unfold dismiss_one, tell. destruct (popup_nodes s !! i) eqn:E; [|by rewrite app_nil_r].
  rewrite (dismiss_node_eq below i _ s E). cbn. unfold tell. by rewrite E.
Qed.
Lemma dismiss_all_nodes below ids s j :
  popup_nodes (fold_left (dismiss_one below) ids s) !! j
  = if decide (j ∈ ids) then marked <$> popup_nodes s !! j else popup_nodes s !! j.
Proof.
  revert s. induction ids as [|i ids IH]; intros s; cbn [fold_left].
  { by rewrite decide_False by apply not_elem_of_nil. }
  rewrite IH, dismiss_one_nodes. destruct (decide (i = j)) as [<-|Hij].
  - rewrite lookup_alter_eq. rewrite (decide_True (P := i ∈ i :: ids)) by by left.
    case_decide; [|done]. by destruct (popup_nodes s !! i).
  - rewrite lookup_alter_ne by done. apply decide_ext. rewrite elem_of_cons. split; [by right|].
    intros [->|]; done.
Qed.
Lemma dismiss_all_rest below ids s :
  popup_surfaces (fold_left (dismiss_one below) ids s) = popup_surfaces s /\
  next_popup_grab_generation (fold_left (dismiss_one below) ids s) = next_popup_grab_generation s.
Proof.
  revert s. induction ids as [|i ids IH]; intros s; cbn; [done|]. destruct (dismiss_one_rest below s i) as (E1 & E2 & _).
  destruct (IH (dismiss_one below s i)) as [-> ->]. done.
Qed.
(** Who is told when a list of popups is dismissed. *)
Lemma dismiss_all_told below ids s :
  base.NoDup ids ->
  done_events (fold_left (dismiss_one below) ids s) = done_events s ++ concat ((fun i => tell i s) <$> ids).
Proof.
  revert s. induction ids as [|i ids IH]; intros s Hn; cbn; [by rewrite app_nil_r|].
  apply NoDup_cons in Hn as [Hi Hn]. destruct (dismiss_one_rest below s i) as (E1 & _ & E3).
  rewrite (IH _ Hn), E3, <- app_assoc. do 2 f_equal. f_equal. apply list_fmap_ext. intros k j Hk.
  unfold tell. rewrite dismiss_one_nodes, lookup_alter_ne, E1; [done|]. intros ->.
  apply Hi. by eapply list_elem_of_lookup_2.
Qed.
(** The state of a run of dismissals over the forest [m]. *)
Definition running (m : gmap Z PopupNode) (s : Popups) : Prop :=
  same_shape m (popup_nodes s) /\ forall j n, popup_nodes s !! j = Some n -> lifecycle n <> Destroyed.
Lemma running_one m below s i : running m s -> running m (dismiss_one below s i).
Proof.
  intros [H1 H2]. unfold running. rewrite dismiss_one_nodes. split.
  - eapply same_shape_trans; [done|]. by apply same_shape_alter.
  - intros j n E. destruct (decide (i = j)) as [<-|].
    + rewrite lookup_alter_eq in E. by apply fmap_Some in E as (n0 & E0 & ->).
    + rewrite lookup_alter_ne in E by done. eauto.
Qed.
Lemma running_all m below ids s : running m s -> running m (fold_left (dismiss_one below) ids s).
Proof. revert s. induction ids as [|i ids IH]; intros s H; cbn; [done|]. by apply IH, running_one. Qed.
Lemma dismiss_run m below fuel i l s :
  Links m -> running m s -> Chain m i l -> (size m <= fuel + length l)%nat ->
  dismiss_loop fuel below i s = Ret (fold_left (dismiss_one below) (postorder fuel m i) s).
Proof.
  intros HL. revert i l s. induction fuel as [|fuel IH]; intros i l s Hr Hc Hf.
  { pose proof (chain_length _ _ _ Hc). lia. }
  destruct (chain_dom _ _ _ Hc i) as [n E]; [left|].
  pose proof (postorder_nodup m (S fuel) i l HL Hc) as Hnd. cbn in Hnd |- *. rewrite E in Hnd |- *.
  destruct (same_shape_lookup _ _ _ _ (proj1 Hr) E) as (k & Ek & _ & _ & Ech). rewrite Ek.
  rewrite decide_False by (by eapply (proj2 Hr)). rewrite Ech, fold_left_app.
  assert (Hcs : forall cs t, (forall c, c ∈ cs -> c ∈ children n) -> running m t ->
    each (dismiss_loop fuel below) cs t
    = Ret (fold_left (dismiss_one below) (concat (postorder fuel m <$> cs)) t)).
  { induction cs as [|c cs IHc]; intros t Hsub Ht; cbn; [done|].
    destruct (l_child m HL _ _ c E) as (kc & Ekc & Epc); [apply Hsub; by left|].
    rewrite (IH c (i :: l) t Ht (chain_step _ _ _ _ _ Ekc Epc Hc) ltac:(cbn; lia)). cbn [mbind res_bind].
    rewrite fold_left_app. apply IHc; [intros; apply Hsub; by right|by apply running_all]. }
  rewrite (Hcs _ s) by done. cbn [mbind res_bind fold_left].
  f_equal. unfold dismiss_one at 2. rewrite dismiss_all_nodes, Ek, decide_False; [done|].
  apply NoDup_app in Hnd as (_ & Hnd & _). intros Hin. apply (Hnd i Hin). by left.
Qed.
Lemma inv_running s : Inv s -> running (popup_nodes s) s.
Proof.
  intros [[_ _ _ _ S _] _]. split; [done|]. intros j n E. by destruct (S j n E) as [[-> _]|[-> _]].
Qed.
(** Dismissing a popup dismisses its subtree, children first. *)
Lemma dismiss_subtree below i s :
  Inv s -> dismiss_popup_surface below i s = Ret (fold_left (dismiss_one below) (subtree (popup_nodes s) i) s).
Proof.
  intros H. unfold dismiss_popup_surface, subtree. destruct (popup_nodes s !! i) eqn:E.
  - destruct (l_chain (popup_nodes s) (ni_links _ _ (proj1 H)) i) as [l Hl]; [by eexists|].
    apply (dismiss_run _ _ _ _ l); [apply H|by apply inv_running|done|lia].
  - cbn. by rewrite E.
Qed.
Lemma dismiss_inv below i s : Inv s -> exists s', dismiss_popup_surface below i s = Ret s' /\ Inv s'.
Proof. intros H. eexists. split; [by apply dismiss_subtree|by apply dismiss_all_inv]. Qed.

(** ** Destruction *)

Definition remove_node (m : gmap Z PopupNode) (i : Z) : gmap Z PopupNode :=
  match m !! i with
  | None => m
  | Some n => match parent n with
              | Popup p => alter (with_children (base.filter (.≠ i))) p (delete i m)
              | _ => delete i m
              end
  end.
Definition destroy_one (below : Z -> list Z) (s : Popups) (i : Z) : Popups := destroy_node below i s.
Lemma clear_idemp ids s :
  clear_popup_grab_for_surface_ids ids (clear_popup_grab_for_surface_ids ids s) = clear_popup_grab_for_surface_ids ids s.
Proof.
  unfold clear_popup_grab_for_surface_ids, with_grab. cbn. f_equal.
  - destruct (popup_grab s) as [g|]; [|done]. destruct (mentions ids g) eqn:E; [done|]. by rewrite E.
  - rewrite list_filter_filter. apply list_filter_iff. tauto.
Qed.
Lemma destroy_one_eq below s i :
  destroy_one below s i
  = let r := release below i s in
    mkPopups (remove_node (popup_nodes s) i) (delete i (popup_surfaces s)) (popup_grab r) (popup_grab_stack r)
      (next_popup_grab_generation s) (done_events s).
Proof.
  unfold destroy_one, destroy_node, detach_popup_node, unmap_xdg_role_surfaces. cbv zeta.
  fold (release below i s). set (r := release below i s).
  assert (Hr : clear_popup_grab_for_surface_ids [i] r = r) by (unfold r, release; apply clear_idemp).
  assert (Hf : base.filter (.≠ i) (popup_grab_stack r) = popup_grab_stack r).
  { rewrite filter_ne_single. by apply (f_equal popup_grab_stack) in Hr. }
  assert (Hg : match popup_grab r with Some g => if mentions [i] g then None else Some g | None => None end = popup_grab r)
    by (by apply (f_equal popup_grab) in Hr).
  rewrite Hf. unfold remove_node. cbn [popup_nodes with_surfaces with_grab].
  change (popup_nodes r) with (popup_nodes s). destruct (popup_nodes s !! i) as [n|] eqn:E; [|done].
  unfold clear_popup_grab_for_surface_ids, with_surfaces, with_nodes, with_grab.
  destruct (parent n); cbn [unlink_popup_from_parent popup_nodes popup_surfaces popup_grab popup_grab_stack
    next_popup_grab_generation done_events with_nodes];
    rewrite Hg, <- filter_ne_single, Hf; done.
Qed.
(** The forest without the nodes of [D]. *)
Definition pruned (D : list Z) (m m' : gmap Z PopupNode) : Prop :=
  forall j, m' !! j = if decide (j ∈ D) then None else with_children (base.filter (.∉ D)) <$> m !! j.
Lemma with_children_id f n : f (children n) = children n -> with_children f n = n.
Proof. destruct n. unfold with_children. cbn. by intros ->. Qed.
Lemma filter_ext {A} (P Q : A -> Prop) `{!forall x, Decision (P x), !forall x, Decision (Q x)} (l : list A) :
  (forall x, x ∈ l -> P x <-> Q x) -> base.filter P l = base.filter Q l.
Proof.
  induction l as [|x l IH]; intros Hall; [done|]. rewrite !filter_cons, IH by (intros; apply Hall; by right).
  apply decide_ext, Hall. by left.
Qed.
Lemma filter_all_id {A} (P : A -> Prop) `{!forall x, Decision (P x)} (l : list A) :
  (forall x, x ∈ l -> P x) -> base.filter P l = l.
Proof.
  induction l as [|x l IH]; intros Hall; [done|]. rewrite filter_cons_True by (apply Hall; by left).
  f_equal. apply IH. intros. apply Hall. by right.
Qed.
Lemma pruned_nil m : pruned [] m m.
Proof.
  intros j. rewrite decide_False by apply not_elem_of_nil. destruct (m !! j) as [n|]; [|done]. cbn.
  by rewrite with_children_id by (apply filter_all_id; intros x _; apply not_elem_of_nil).
Qed.
Lemma with_children_filter2 D i n :
  with_children (base.filter (.≠ i)) (with_children (base.filter (.∉ D)) n) = with_children (base.filter (.∉ D ++ [i])) n.
Proof.
  unfold with_children. cbn. f_equal. rewrite list_filter_filter. apply list_filter_iff. intros x.
  rewrite not_elem_of_app, list_elem_of_singleton. tauto.
Qed.
Lemma with_children_filter_absent D i n :
  i ∉ children n \/ i ∈ D -> with_children (base.filter (.∉ D ++ [i])) n = with_children (base.filter (.∉ D)) n.
Proof.
  intros H. unfold with_children. f_equal. apply filter_ext. intros x Hx.
  rewrite not_elem_of_app, list_elem_of_singleton. split; [tauto|]. intros Hd. split; [done|]. intros ->.
  by destruct H.
Qed.
Lemma pruned_step m D i m' : Links m -> pruned D m m' -> pruned (D ++ [i]) m (remove_node m' i).
Proof.
  intros HL HP j. unfold remove_node.
  assert (Hdec : j <> i -> (if decide (j ∈ D ++ [i]) then None else with_children (base.filter (.∉ D ++ [i])) <$> m !! j)
    = if decide (j ∈ D) then None else with_children (base.filter (.∉ D ++ [i])) <$> m !! j).
  { intros Hj. apply decide_ext. rewrite elem_of_app, list_elem_of_singleton. tauto. }
  assert (Hkeep : j <> i -> (forall q, m !! j = Some q -> i ∉ children q \/ i ∈ D) ->
    m' !! j = if decide (j ∈ D ++ [i]) then None else with_children (base.filter (.∉ D ++ [i])) <$> m !! j).
  { intros Hj Hq. rewrite Hdec, HP by done. destruct (decide (j ∈ D)); [done|]. destruct (m !! j) as [q|]; [|done].
    cbn. by rewrite with_children_filter_absent by by apply Hq. }
  pose proof (HP i) as Hi. destruct (m' !! i) as [n'|] eqn:E'.
  - destruct (decide (i ∈ D)) as [Hd|Hd]; [done|]. symmetry in Hi. apply fmap_Some in Hi as (n & E & ->).
    cbn [parent with_children].
    assert (Hno : forall k q, m !! k = Some q -> i ∈ children q -> parent n = Popup k).
    { intros k q Ek Hk. destruct (l_child m HL _ _ _ Ek Hk) as (x & Ex & Hx). rewrite E in Ex. by injection Ex as <-. }
    destruct (decide (j = i)) as [->|Hj].
    { rewrite decide_True by (apply elem_of_app; right; by left).
      destruct (parent n) as [| |p]; rewrite ?lookup_delete_eq; try done. rewrite lookup_alter.
      destruct (decide (p = i)); subst; rewrite ?lookup_delete_eq; done. }
    destruct (parent n) as [x|x|p] eqn:Ep; [..|rewrite lookup_alter; destruct (decide (p = j)) as [->|Hpj]];
      rewrite lookup_delete_ne by done;
      try (apply Hkeep; [done|]; intros q Eq; left; intros Hq; specialize (Hno _ _ Eq Hq); congruence).
    rewrite Hdec, HP by done. destruct (decide (j ∈ D)); [done|]. destruct (m !! j) as [q|]; [|done].
    cbn. by rewrite with_children_filter2.
  - destruct (decide (j = i)) as [->|Hj].
    { rewrite E'. by rewrite decide_True by (apply elem_of_app; right; by left). }
    apply Hkeep; [done|]. intros q Eq. destruct (decide (i ∈ D)); [by right|]. left. intros Hq.
    destruct (l_child m HL _ _ _ Eq Hq) as (x & Ex & _). by rewrite Ex in Hi.
Qed.
Lemma pruned_one m D below s i :
  Links m -> pruned D m (popup_nodes s) -> pruned (D ++ [i]) m (popup_nodes (destroy_one below s i)).
Proof. intros HL HP. rewrite destroy_one_eq. by apply pruned_step. Qed.
Lemma pruned_all m D below ids s :
  Links m -> pruned D m (popup_nodes s) -> pruned (D ++ ids) m (popup_nodes (fold_left (destroy_one below) ids s)).
Proof.
  intros HL. revert D s. induction ids as [|i ids IH]; intros D s HP; cbn [fold_left]; [by rewrite app_nil_r|].
  rewrite (cons_middle i D ids), app_assoc. apply IH. by apply pruned_one.
Qed.
Lemma destroy_run m below fuel i l s D :
  Links m -> pruned D m (popup_nodes s) -> Chain m i l -> (size m <= fuel + length l)%nat ->
  (forall x, x ∈ postorder fuel m i -> x ∉ D) ->
  destroy_loop fuel below i s = Ret (fold_left (destroy_one below) (postorder fuel m i) s).
Proof.
  intros HL. revert i l s D. induction fuel as [|fuel IH]; intros i l s D HP Hc Hf HD.
  { pose proof (chain_length _ _ _ Hc). lia. }
  destruct (chain_dom _ _ _ Hc i) as [n E]; [left|].
  pose proof (postorder_nodup m (S fuel) i l HL Hc) as Hnd. cbn in Hnd, HD |- *. rewrite E in Hnd, HD |- *.
  assert (Hch : forall c, c ∈ children n -> Chain m c (i :: l)).
  { intros c Hcn. destruct (l_child m HL _ _ _ E Hcn) as (k & Ek & Ep). eauto with typhon. }
  assert (Hsub : forall c x, c ∈ children n -> x ∈ postorder fuel m c -> x ∉ D).
  { intros c x Hcn Hx. apply HD, elem_of_app. left. apply list_elem_of_In, in_concat. exists (postorder fuel m c).
    split; apply list_elem_of_In; [|done]. by apply list_elem_of_fmap_2. }
  assert (Hself : forall c, c ∈ children n -> c ∈ postorder fuel m c).
  { intros c Hcn. eapply (postorder_all _ _ _ (i :: l)); [done|by apply Hch|cbn; lia|by apply Hch|by left]. }
  assert (Ei : popup_nodes s !! i = Some (with_children (base.filter (.∉ D)) n)).
  { rewrite HP, E, decide_False; [done|]. apply HD, elem_of_app. right. by left. }
  rewrite Ei. cbn [children with_children].
  rewrite filter_all_id by (intros c Hcn; eapply Hsub; [done|by apply Hself]).
  rewrite fold_left_app. cbn [fold_left].
  assert (Hcs : forall cs D' t, (forall c, c ∈ cs -> c ∈ children n) -> pruned D' m (popup_nodes t) ->
    base.NoDup (concat (postorder fuel m <$> cs)) ->
    (forall x, x ∈ concat (postorder fuel m <$> cs) -> x ∉ D') ->
    each (destroy_loop fuel below) cs t
    = Ret (fold_left (destroy_one below) (concat (postorder fuel m <$> cs)) t)).
  { clear - client_of IH HL Hch Hf. induction cs as [|c cs IHc]; intros D' t Hsub HP' Hnd HD'; cbn; [done|].
    cbn in Hnd, HD'. apply NoDup_app in Hnd as (Hn1 & Hn2 & Hn3).
    rewrite (IH c (i :: l) t D' HP'); [|apply Hch, Hsub; by left|cbn; lia|].
    2: { intros x Hx. apply HD', elem_of_app. by left. }
    cbn [mbind res_bind]. rewrite fold_left_app. apply (IHc (D' ++ postorder fuel m c)).
    - intros c' Hc'. apply Hsub. by right.
    - by apply pruned_all.
    - done.
    - intros x Hx. apply not_elem_of_app. split; [apply HD', elem_of_app; by right|]. intros Hx'. by apply (Hn2 x). }
  rewrite (Hcs _ D s); [done|done|done|by apply NoDup_app in Hnd as (? & _)|].
  intros x Hx. apply HD, elem_of_app. by left.
Qed.
(** The subtree of a popup, or a surface without one. *)
Definition subtree_or_self (m : gmap Z PopupNode) (i : Z) : list Z :=
  match m !! i with Some _ => subtree m i | None => [i] end.
Lemma destroy_subtree below i s :
  Inv s ->
  destroy_popup_role below i s = Ret (fold_left (destroy_one below) (subtree_or_self (popup_nodes s) i) s).
Proof.
  intros [[HL _ _ _ _ _] _]. unfold destroy_popup_role, subtree_or_self.
  destruct (popup_nodes s !! i) eqn:E.
  - destruct (l_chain _ HL i) as [l Hl]; [by eexists|].
    apply (destroy_run (popup_nodes s) below _ i l s []); [done|apply pruned_nil|done|lia|].
    intros x _. apply not_elem_of_nil.
  - cbn. by rewrite E.
Qed.
(** The grab and the surfaces after a list of destructions. *)
Lemma destroy_all_rest below ids s :
  let r := fold_left (fun s i => release below i s) ids s in
  let t := fold_left (destroy_one below) ids s in
  popup_grab t = popup_grab r /\ popup_grab_stack t = popup_grab_stack r /\
  (forall j, popup_surfaces t !! j = if decide (j ∈ ids) then None else popup_surfaces s !! j) /\
  next_popup_grab_generation t = next_popup_grab_generation s /\ done_events t = done_events s.
Proof.
  cbv zeta.
  assert (Hgen : forall s r, popup_grab s = popup_grab r -> popup_grab_stack s = popup_grab_stack r ->
    popup_grab (fold_left (destroy_one below) ids s) = popup_grab (fold_left (fun s i => release below i s) ids r) /\
    popup_grab_stack (fold_left (destroy_one below) ids s)
    = popup_grab_stack (fold_left (fun s i => release below i s) ids r)).
  { induction ids as [|i ids IH]; intros s0 r Hg Hst; cbn [fold_left]; [done|].
    apply IH; rewrite destroy_one_eq; cbn; by rewrite ?Hg, ?Hst. }
  destruct (Hgen s s eq_refl eq_refl) as [-> ->]. split; [done|]. split; [done|]. clear Hgen.
  revert s. induction ids as [|i ids IH]; intros s; cbn [fold_left].
  { split; [|done]. intros j. by rewrite decide_False by apply not_elem_of_nil. }
  destruct (IH (destroy_one below s i)) as (H1 & -> & ->). rewrite destroy_one_eq in *. split; [|done].
  intros j. rewrite H1. cbn. destruct (decide (i = j)) as [->|Hij].
  - rewrite lookup_delete_eq. rewrite (decide_True (P := j ∈ j :: ids)) by by left. by destruct (decide _).
  - rewrite lookup_delete_ne by done. apply decide_ext. rewrite elem_of_cons. split; [by right|]. by intros [->|].
Qed.
Lemma release_all_inv below ids s : Inv s -> Inv (fold_left (fun s i => release below i s) ids s).
Proof. revert s. induction ids as [|i ids IH]; intros s H; cbn; [done|]. by apply IH, release_inv. Qed.
Lemma release_all_stack below ids s x :
  x ∈ popup_grab_stack (fold_left (fun s i => release below i s) ids s) -> x ∈ popup_grab_stack s /\ x ∉ ids.
Proof.
  revert s. induction ids as [|i ids IH]; intros s; cbn [fold_left]; [intros; split; [done|apply not_elem_of_nil]|].
  intros [H1 H2]%IH. assert (x <> i) by (intros ->; by apply release_stack in H1).
  cbn in H1. apply list_elem_of_filter in H1 as [_ H1]. apply list_elem_of_filter in H1 as [_ H1].
  split; [done|]. by apply not_elem_of_cons.
Qed.
Lemma release_all_nodes below ids s :
  popup_nodes (fold_left (fun s i => release below i s) ids s) = popup_nodes s /\
  popup_surfaces (fold_left (fun s i => release below i s) ids s) = popup_surfaces s.
Proof. revert s. induction ids as [|i ids IH]; intros s; cbn [fold_left]; [done|]. by destruct (IH (release below i s)) as [-> ->]. Qed.
(** [D] takes whole subtrees. *)
Definition closed (D : list Z) (m : gmap Z PopupNode) : Prop :=
  forall i n p, m !! i = Some n -> parent n = Popup p -> p ∈ D -> i ∈ D.
Lemma pruned_lookup D m m' j n' :
  pruned D m m' -> m' !! j = Some n' ->
  (j ∉ D) /\ exists n, m !! j = Some n /\ n' = with_children (base.filter (.∉ D)) n.
Proof.
  intros HP E. rewrite HP in E. destruct (decide (j ∈ D)); [done|]. split; [done|].
  apply fmap_Some in E as (x & ? & ?). eauto.
Qed.
Lemma pruned_keep D m m' j n :
  pruned D m m' -> j ∉ D -> m !! j = Some n -> m' !! j = Some (with_children (base.filter (.∉ D)) n).
Proof. intros HP Hj E. by rewrite HP, E, decide_False. Qed.
Lemma pruned_chain D m m' i l : closed D m -> pruned D m m' -> i ∉ D -> Chain m i l -> Chain m' i l.
Proof.
  intros HC HP Hi H. induction H as [i n E Hn|i n p l E Ep H IH].
  - econstructor; [by eapply pruned_keep|done].
  - econstructor; [by eapply pruned_keep|done|]. apply IH. intros Hp. by apply Hi, (HC i n p).
Qed.
Lemma pruned_links D m m' : closed D m -> pruned D m m' -> Links m -> Links m'.
Proof.
  intros HC HP HL. split.
  - intros i n' p E' Ep. destruct (pruned_lookup _ _ _ _ _ HP E') as (Hi & n & E & ->). cbn in Ep.
    destruct (l_parent m HL _ _ _ E Ep) as (q & Eq & Hq). eexists. split; [eapply pruned_keep; [done| |done]|].
    + intros Hp. by apply Hi, (HC i n p).
    + cbn. by apply list_elem_of_filter.
  - intros i n' c E' Hc. destruct (pruned_lookup _ _ _ _ _ HP E') as (Hi & n & E & ->). cbn in Hc.
    apply list_elem_of_filter in Hc as [Hcd Hc]. destruct (l_child m HL _ _ _ E Hc) as (k & Ek & Hk).
    eexists. split; [by eapply pruned_keep|done].
  - intros i n' E'. destruct (pruned_lookup _ _ _ _ _ HP E') as (Hi & n & E & ->). cbn.
    apply NoDup_filter. by eapply l_nodup.
  - intros i [n' E']. destruct (pruned_lookup _ _ _ _ _ HP E') as (Hi & n & E & ->).
    destruct (l_chain m HL i) as [l Hl]; [by eexists|]. exists l. by eapply pruned_chain.
Qed.
Lemma pruned_inv D s m' sf' gen ev :
  Inv s -> closed D (popup_nodes s) -> pruned D (popup_nodes s) m' ->
  (forall j, sf' !! j = if decide (j ∈ D) then None else popup_surfaces s !! j) ->
  (forall x, x ∈ popup_grab_stack s -> x ∉ D) ->
  Inv (mkPopups m' sf' (popup_grab s) (popup_grab_stack s) gen ev).
Proof.
  intros [[L Dm R C S O] [G1 G2 G3]] HC HP Hsf Hst. split; split; cbn.
  - by eapply pruned_links.
  - intros i. rewrite HP, Hsf. destruct (decide (i ∈ D)); [split; by intros []|]. rewrite <- Dm.
    by rewrite fmap_is_Some.
  - intros i n' E'. destruct (pruned_lookup _ _ _ _ _ HP E') as (Hi & n & E & ->). cbn.
    destruct (R i n E) as [R1 R2]. split; [|done]. intros p q' Ep Eq'.
    destruct (pruned_lookup _ _ _ _ _ HP Eq') as (Hp & q & Eq & ->). cbn. by eapply R1.
  - intros i n' E'. destruct (pruned_lookup _ _ _ _ _ HP E') as (Hi & n & E & ->). cbn. by eapply C.
  - intros i n' E'. destruct (pruned_lookup _ _ _ _ _ HP E') as (Hi & n & E & ->). by apply (S i n).
  - intros i n' E' Hs. destruct (pruned_lookup _ _ _ _ _ HP E') as (Hi & n & E & ->). cbn.
    rewrite Hsf, decide_False in Hs by done. by eapply O.
  - done.
  - intros i Hi. specialize (G2 i Hi). unfold popup_node_is_alive in *. cbn. rewrite HP, Hsf.
    rewrite !decide_False by by apply Hst. by destruct (popup_nodes s !! i).
  - intros g Hg. destruct (G3 g Hg) as (H1 & H2 & n & l & E & Er & Hc & Hl). split; [done|]. split; [done|].
    assert (Hf : focused_popup_id g ∉ D) by (apply Hst; by eapply last_Some_elem_of).
    exists (with_children (base.filter (.∉ D)) n), l. split; [by eapply pruned_keep|]. split; [done|].
    split; [by eapply pruned_chain|done].
Qed.
Lemma subtree_closed m i : Links m -> closed (subtree_or_self m i) m.
Proof.
  intros HL j n p E Ep Hp. unfold subtree_or_self in *. destruct (m !! i) as [k|] eqn:Ei.
  - apply elem_of_subtree in Hp as (lp & Hlp & Hin); [|done|by eexists]. apply elem_of_subtree; [done|by eexists|].
    exists (p :: lp). split; [eauto with typhon|]. by right.
  - apply list_elem_of_singleton in Hp as ->. destruct (l_parent m HL _ _ _ E Ep) as (q & Eq & _). by rewrite Eq in Ei.
Qed.
Lemma destroy_inv below i s : Inv s -> exists s', destroy_popup_role below i s = Ret s' /\ Inv s'.
Proof.
  intros H. eexists. split; [by apply destroy_subtree|].
  set (D := subtree_or_self (popup_nodes s) i). set (t := fold_left _ D s).
  destruct (destroy_all_rest below D s) as (Eg & Es & Hsf & _). fold t in Eg, Es, Hsf.
  set (r := fold_left (fun s i => release below i s) D s) in Eg, Es.
  pose proof (release_all_inv below D s H) as Hr. fold r in Hr.
  destruct (release_all_nodes below D s) as [En Ef]. fold r in En, Ef.
  assert (HL : Links (popup_nodes s)) by apply H.
  pose proof (pruned_all (popup_nodes s) [] below D s HL (pruned_nil _)) as HPr. cbn [app] in HPr. fold t in HPr.
  pose proof (pruned_inv D r (popup_nodes t) (popup_surfaces t) (next_popup_grab_generation t) (done_events t) Hr) as P.
  rewrite <- Eg, <- Es in P. destruct t as [tm tsf tg tst tgen tev]. apply P; cbn.
  - rewrite En. by apply subtree_closed.
  - rewrite En. apply HPr.
  - rewrite Ef. apply Hsf.
  - cbn in Es. rewrite Es. intros x Hx. by apply (release_all_stack below D s x Hx).
Qed.
(** A walk keeps what each call keeps. *)
Lemma each_inv (f : Z -> Popups -> run Popups) ids s :
  (forall i s, Inv s -> exists s', f i s = Ret s' /\ Inv s') -> Inv s -> exists s', each f ids s = Ret s' /\ Inv s'.
Proof.
  intros Hf. revert s. induction ids as [|i ids IH]; intros s H; cbn; [by exists s|].
  destruct (Hf i s H) as (s1 & -> & H1). cbn. by apply IH.
Qed.

(** ** The walks to the root *)

Lemma cycle_loop_exact m id rounds p l :
  Chain m p l -> (length l < rounds)%nat -> cycle_loop rounds m id p = bool_decide (id ∈ p :: l).
Proof.
  intros H. revert rounds. induction H as [i n E Hn|i n p l E Ep H IH]; intros [|rounds] Hr; cbn [length] in Hr; try lia;
    cbn [cycle_loop]; rewrite E; destruct (Z.eqb_spec i id) as [->|Hi];
    try (rewrite bool_decide_eq_true_2; [done|by left]).
  - rewrite bool_decide_eq_false_2; [destruct (parent n) as [| |p]; [done..|by destruct (Hn p)]|].
    intros [->|[]%not_elem_of_nil]%elem_of_cons; done.
  - rewrite Ep. destruct (Z.eqb_spec p i) as [->|Hpi].
    { pose proof (chain_nodup _ _ _ (chain_step _ _ _ _ _ E Ep H)) as Hd.
      apply NoDup_cons in Hd as [Hd _]. destruct Hd. by left. }
    rewrite IH by lia. apply bool_decide_ext. rewrite (elem_of_cons (p :: l) id i). naive_solver.
Qed.
Lemma tree_root_loop_exact m start rounds p l :
  Chain m p l -> (length l < rounds)%nat -> last (p :: l) = Some (tree_root_loop rounds m start p).
Proof.
  intros H. revert rounds. induction H as [i n E Hn|i n p l E Ep H IH]; intros [|rounds] Hr; cbn [length] in Hr; try lia;
    cbn [tree_root_loop]; rewrite E.
  - destruct (parent n) as [| |p]; [done..|by destruct (Hn p)].
  - rewrite Ep. destruct (Z.eqb_spec p i) as [->|Hpi].
    { pose proof (chain_nodup _ _ _ (chain_step _ _ _ _ _ E Ep H)) as Hd.
      apply NoDup_cons in Hd as [Hd _]. destruct Hd. by left. }
    rewrite last_cons_cons. apply IH. lia.
Qed.

(** ** New nodes *)

Lemma chain_mono m m' i l :
  (forall i n, m !! i = Some n -> exists n', m' !! i = Some n' /\ forall p, parent n' = Popup p <-> parent n = Popup p) ->
  Chain m i l -> Chain m' i l.
Proof.
  intros Hm. induction 1 as [i n E Hn|i n p l E Ep H IH]; destruct (Hm _ _ E) as (n' & E' & Hp).
  - econstructor; [done|]. intros p Hq. by apply (Hn p), Hp.
  - econstructor; [done|by apply Hp|done].
Qed.
Definition adopt (id : Z) (o : PopupOwner) (j : Z) (n : PopupNode) : PopupNode :=
  if decide (o = Popup j) then with_children (fun l => l ++ [id]) n else n.
(** [m'] is [m] with the new leaf [id]. *)
Definition grown (id : Z) (n : PopupNode) (m m' : gmap Z PopupNode) : Prop :=
  m' !! id = Some n /\ forall j, j <> id -> m' !! j = adopt id (parent n) j <$> m !! j.
Lemma adopt_same id o j n :
  parent (adopt id o j n) = parent n /\ owner_root_id (adopt id o j n) = owner_root_id n /\
  lifecycle (adopt id o j n) = lifecycle n /\ popup_done_sent (adopt id o j n) = popup_done_sent n /\
  mapped (adopt id o j n) = mapped n.
Proof. unfold adopt. by destruct (decide _). Qed.
Lemma adopt_children id o j n c : c ∈ children (adopt id o j n) <-> c ∈ children n \/ (c = id /\ o = Popup j).
Proof.
  unfold adopt. destruct (decide _) as [->|Ho]; cbn; [rewrite elem_of_app, list_elem_of_singleton|]; naive_solver.
Qed.
Lemma attach_grown id n s :
  Links (popup_nodes s) -> popup_nodes s !! id = None -> children n = [] ->
  (forall p, parent n = Popup p -> is_Some (popup_nodes s !! p)) ->
  exists m', attach_popup_node id n s = with_nodes m' s /\ grown id n (popup_nodes s) m'.
Proof.
  intros HL E Hc Hp. unfold attach_popup_node. rewrite E.
  destruct (parent n) as [x|x|p] eqn:Epar; cbn [link_popup_to_parent].
  1, 2: (eexists; split; [reflexivity|]; split; [apply lookup_insert_eq|]; intros j Hj;
    rewrite lookup_insert_ne, Epar by done; unfold adopt; by destruct (popup_nodes s !! j)).
  destruct (Hp p eq_refl) as [q Eq]. assert (Hpi : p <> id) by congruence.
  destruct (l_chain _ HL p) as [l Hl]; [by eexists|]. unfold popup_would_create_cycle.
  rewrite (cycle_loop_exact _ _ _ p l Hl) by (pose proof (chain_length _ _ _ Hl); lia).
  rewrite bool_decide_eq_false_2.
  2: { intros Hin. destruct (chain_dom _ _ _ Hl id Hin) as [y Ey]. congruence. }
  cbn [popup_nodes with_nodes]. rewrite lookup_insert_ne, Eq by done.
  assert (Hq : id ∉ children q).
  { intros Hin. destruct (l_child _ HL _ _ _ Eq Hin) as (y & Ey & _). congruence. }
  rewrite decide_False by done. eexists. split; [reflexivity|]. split.
  - by rewrite lookup_insert_ne, lookup_insert_eq.
  - intros j Hj. unfold adopt. destruct (decide (p = j)) as [->|Hpj].
    + rewrite lookup_insert_eq, Eq. cbn. by rewrite Epar, decide_True.
    + rewrite !lookup_insert_ne by done. destruct (popup_nodes s !! j); [|done]. cbn.
      rewrite decide_False; [done|]. congruence.
Qed.
Lemma grown_lookup id n m m' j k :
  grown id n m m' -> m' !! j = Some k -> (j = id /\ k = n) \/ (j <> id /\ exists k0, m !! j = Some k0 /\ k = adopt id (parent n) j k0).
Proof.
  intros [G1 G2] E. destruct (decide (j = id)) as [->|Hj].
  - left. split; [done|]. congruence.
  - right. split; [done|]. rewrite G2 in E by done. apply fmap_Some in E as (k0 & ? & ?). eauto.
Qed.
Lemma grown_keep id n m m' j k :
  grown id n m m' -> m !! id = None -> m !! j = Some k -> m' !! j = Some (adopt id (parent n) j k).
Proof. intros [_ G2] Hn E. rewrite G2, E by congruence. done. Qed.
Lemma grown_chain id n m m' j l : grown id n m m' -> m !! id = None -> Chain m j l -> Chain m' j l.
Proof.
  intros HG Hn. apply chain_mono. intros i k E. eexists. split; [by eapply grown_keep|].
  intros p. by rewrite (proj1 (adopt_same _ _ _ _)).
Qed.
Lemma grown_links id n m m' :
  grown id n m m' -> m !! id = None -> children n = [] -> (forall p, parent n = Popup p -> is_Some (m !! p)) ->
  Links m -> Links m'.
Proof.
  intros HG Hn Hch Hp HL. split.
  - intros i k p E Ep. destruct (grown_lookup _ _ _ _ _ _ HG E) as [[-> ->]|(Hi & k0 & E0 & ->)].
    + destruct (Hp p Ep) as [q Eq]. eexists. split; [by eapply grown_keep|]. apply adopt_children. by right.
    + rewrite (proj1 (adopt_same _ _ _ _)) in Ep. destruct (l_parent m HL _ _ _ E0 Ep) as (q & Eq & Hq).
      eexists. split; [by eapply grown_keep|]. apply adopt_children. by left.
  - intros i k c E Hc. destruct (grown_lookup _ _ _ _ _ _ HG E) as [[-> ->]|(Hi & k0 & E0 & ->)].
    + rewrite Hch in Hc. by apply not_elem_of_nil in Hc.
    + apply adopt_children in Hc as [Hc|[-> Ho]]; [|exists n; split; [apply HG|done]].
      destruct (l_child m HL _ _ _ E0 Hc) as (x & Ex & Hx). eexists. split; [by eapply grown_keep|].
      by rewrite (proj1 (adopt_same _ _ _ _)).
  - intros i k E. destruct (grown_lookup _ _ _ _ _ _ HG E) as [[-> ->]|(Hi & k0 & E0 & ->)].
    + rewrite Hch. apply NoDup_nil_2.
    + unfold adopt. destruct (decide _); [|by eapply l_nodup]. cbn. apply NoDup_app.
      split; [by eapply l_nodup|]. split; [|apply NoDup_singleton]. intros x Hx ->%list_elem_of_singleton.
      destruct (l_child m HL _ _ _ E0 Hx) as (y & Ey & _). congruence.
  - intros i [k E]. destruct (grown_lookup _ _ _ _ _ _ HG E) as [[-> ->]|(Hi & k0 & E0 & ->)].
    + destruct (parent n) as [x|x|p] eqn:Ep; [exists []; econstructor; [done|intros p; congruence]..|].
      destruct (Hp p eq_refl) as [q Eq]. destruct (l_chain m HL p) as [l Hl]; [by eexists|].
      exists (p :: l). econstructor; [done|done|]. by eapply grown_chain.
    + destruct (l_chain m HL i) as [l Hl]; [by eexists|]. exists l. by eapply grown_chain.
Qed.
Lemma grown_inv id n po s m' :
  Inv s -> popup_nodes s !! id = None -> grown id n (popup_nodes s) m' ->
  children n = [] -> lifecycle n = Alive -> popup_done_sent n = false ->
  (forall p, parent n = Popup p -> exists q, popup_nodes s !! p = Some q /\ owner_root_id q = owner_root_id n) ->
  ((forall p, parent n <> Popup p) -> owner_root_id n = surface_id (parent n)) ->
  client_of id = client_of (owner_root_id n) -> (po = None -> parent n = Toplevel id) ->
  Inv (with_nodes m' (with_surfaces (<[id := po]> (popup_surfaces s)) s)).
Proof.
  intros [[L Dm R C S O] [G1 G2 G3]] Hid HG Hch Hal Hds Hpar Hroot Hcl Hpo.
  assert (Hp : forall p, parent n = Popup p -> is_Some (popup_nodes s !! p)).
  { intros p Ep. destruct (Hpar p Ep) as (q & Eq & _). by eexists. }
  split; split; cbn.
  - by eapply grown_links.
  - intros i. destruct (decide (i = id)) as [->|Hi].
    + rewrite lookup_insert_eq, (proj1 HG). split; by eexists.
    + rewrite lookup_insert_ne, (proj2 HG), <- Dm by done. by rewrite fmap_is_Some.
  - intros i k E. destruct (grown_lookup _ _ _ _ _ _ HG E) as [[-> ->]|(Hi & k0 & E0 & ->)].
    + split; [|done]. intros p q' Ep Eq'. destruct (Hpar p Ep) as (q & Eq & Er).
      assert (Hpi : p <> id) by congruence. rewrite (proj2 HG), Eq in Eq' by done. injection Eq' as <-.
      by destruct (adopt_same id (parent n) p q) as (_ & -> & _).
    + destruct (adopt_same id (parent n) i k0) as (-> & -> & _). destruct (R i k0 E0) as [R1 R2]. split; [|done].
      intros p q' Ep Eq'. destruct (l_parent _ L _ _ _ E0 Ep) as (q & Eq & _).
      rewrite (proj2 HG), Eq in Eq' by congruence. injection Eq' as <-.
      destruct (adopt_same id (parent n) p q) as (_ & -> & _). by eapply R1.
  - intros i k E. destruct (grown_lookup _ _ _ _ _ _ HG E) as [[-> ->]|(Hi & k0 & E0 & ->)]; [done|].
    destruct (adopt_same id (parent n) i k0) as (_ & -> & _). by eapply C.
  - intros i k E. destruct (grown_lookup _ _ _ _ _ _ HG E) as [[-> ->]|(Hi & k0 & E0 & ->)]; [by left|].
    unfold status. destruct (adopt_same id (parent n) i k0) as (_ & _ & -> & -> & ->). by apply (S i).
  - intros i k E Hs. destruct (grown_lookup _ _ _ _ _ _ HG E) as [[-> ->]|(Hi & k0 & E0 & ->)].
    + rewrite lookup_insert_eq in Hs. injection Hs as ->. by apply Hpo.
    + rewrite lookup_insert_ne in Hs by done. destruct (adopt_same id (parent n) i k0) as (-> & _). by eapply O.
  - done.
  - intros i Hi. specialize (G2 i Hi). unfold popup_node_is_alive in *. cbn.
    destruct (popup_nodes s !! i) as [k|] eqn:Ei; [|done]. rewrite (grown_keep _ _ _ _ _ _ HG Hid Ei).
    rewrite lookup_insert_ne by congruence. by destruct (adopt_same id (parent n) i k) as (_ & _ & -> & _).
  - intros g Hg. destruct (G3 g Hg) as (H1 & H2 & k & l & E & Er & Hc & Hl). split; [done|]. split; [done|].
    eexists _, l. split; [by eapply grown_keep|].
    destruct (adopt_same id (parent n) (focused_popup_id g) k) as (_ & -> & _).
    split; [done|]. split; [by eapply grown_chain|done].
Qed.
Lemma register_inv is_cursor is_layer id po s :
  Inv s -> popup_surfaces s !! id = None -> (forall p, po = Some p -> client_of id = client_of p) ->
  Inv (register_popup_surface is_cursor is_layer id po s).
Proof.
  intros H Hid Hcl. unfold register_popup_surface. destruct is_cursor; [done|]. cbv zeta.
  pose proof H as [[L Dm R C S O] _].
  assert (Hn : popup_nodes s !! id = None).
  { apply eq_None_not_Some. rewrite Dm, Hid. by intros []. }
  set (owner := match po with Some p => popup_owner_for_parent is_layer s p | None => Toplevel id end).
  set (root := match owner with Popup p => _ | _ => _ end).
  assert (Ho : (exists p q, owner = Popup p /\ popup_nodes s !! p = Some q /\ root = owner_root_id q /\ po = Some p)
    \/ ((forall p, owner <> Popup p) /\ root = surface_id owner /\ client_of id = client_of root /\
        (po = None -> owner = Toplevel id))).
  { unfold root, owner. destruct po as [p|]; [|by right].
    unfold popup_owner_for_parent. destruct (decide _) as [[q Eq]|].
    - left. exists p, q. by rewrite Eq.
    - right. destruct (is_layer p); split_and!; try done; by apply Hcl. }
  set (n := mkNode root owner [] Alive false false false None).
  destruct (attach_grown id n (with_surfaces (<[id := po]> (popup_surfaces s)) s)) as (m' & -> & HG); try done.
  { cbn. intros p ->. destruct Ho as [(p' & q & [= ->] & E & _)|[Ho _]]; [by eexists|by destruct (Ho p)]. }
  apply (grown_inv id n po s m'); try done; cbn.
  - intros p Ep. destruct Ho as [(p' & q & Eo & E & -> & _)|[Ho _]]; [|by destruct (Ho p)].
    assert (p = p') as -> by congruence. by exists q.
  - intros Hnp. destruct Ho as [(p' & q & Eo & _)|(_ & -> & _)]; [by destruct (Hnp p')|done].
  - destruct Ho as [(p & q & _ & E & -> & Epo)|(_ & _ & Hc & _)]; [|done].
    rewrite (Hcl p Epo). by apply (C p q).
  - intros Hpo. destruct Ho as [(p & q & _ & _ & _ & Epo)|(_ & _ & _ & Hp)]; [congruence|by apply Hp].
Qed.
Lemma get_popup_inv is_cursor is_layer is_toplevel id po s :
  Inv s -> popup_surfaces s !! id = None -> Inv (get_popup is_cursor is_layer is_toplevel client_of id po s).1.
Proof.
  intros H Hid. unfold get_popup. destruct po as [p|]; [|by apply register_inv].
  destruct (_ || _) eqn:E; [done|]. apply register_inv; [done|done|]. intros ? [= <-].
  apply orb_false_iff in E as [[E _]%orb_false_iff _]. by apply negb_false_iff, bool_decide_eq_true in E.
Qed.
(** A popup without a parent, children or grab moves below a layer surface. *)
Lemma associate_inv ready layer id s :
  Inv s -> client_of id = client_of layer -> id ∉ popup_grab_stack s ->
  (forall n, popup_nodes s !! id = Some n -> children n = []) ->
  Inv (associate_layer_surface_popup ready layer id s).1.
Proof.
  intros H Hcl Hst Hch. unfold associate_layer_surface_popup. destruct ready; [|done]. cbn [negb].
  destruct (popup_surfaces s !! id) as [[q|]|] eqn:Es; [done| |done].
  pose proof H as [[L Dm R C S O] [G1 G2 G3]]. destruct (proj2 (Dm id)) as [n E]; [by eexists|].
  pose proof (O _ _ E Es) as Ep. specialize (Hch n E).
  unfold relink_popup_node. cbn [popup_nodes with_surfaces]. rewrite E, Ep. cbn.
  set (m' := alter (with_owner (LayerSurface layer) layer) id (popup_nodes s)).
  assert (Hid : m' !! id = Some (with_owner (LayerSurface layer) layer n)) by (unfold m'; by rewrite lookup_alter_eq, E).
  assert (Hne : forall j, j <> id -> m' !! j = popup_nodes s !! j) by (intros j Hj; unfold m'; by rewrite lookup_alter_ne).
  assert (Hnp : forall i k, popup_nodes s !! i = Some k -> parent k <> Popup id).
  { intros i k Ei Hp. destruct (l_parent _ L _ _ _ Ei Hp) as (x & Ex & Hx). rewrite E in Ex. injection Ex as <-.
    rewrite Hch in Hx. by apply not_elem_of_nil in Hx. }
  assert (Hchain : forall i l, Chain (popup_nodes s) i l -> Chain m' i l).
  { intros i l. apply chain_mono. intros j k Ej. destruct (decide (j = id)) as [->|Hj].
    - eexists. split; [done|]. intros p. cbn. rewrite E in Ej. injection Ej as <-. rewrite Ep. by split.
    - exists k. by rewrite Hne. }
  split; split; cbn; fold m'.
  - split.
    + intros i k p Ei Hp. destruct (decide (i = id)) as [->|Hi].
      { rewrite Hid in Ei. by injection Ei as <-. }
      rewrite Hne in Ei by done. destruct (l_parent _ L _ _ _ Ei Hp) as (x & Ex & Hx).
      exists x. split; [|done]. rewrite Hne; [done|]. intros ->. by apply (Hnp i k Ei).
    + intros i k c Ei Hc. destruct (decide (i = id)) as [->|Hi].
      { rewrite Hid in Ei. injection Ei as <-. cbn in Hc. rewrite Hch in Hc. by apply not_elem_of_nil in Hc. }
      rewrite Hne in Ei by done. destruct (l_child _ L _ _ _ Ei Hc) as (x & Ex & Hx).
      exists x. split; [|done]. rewrite Hne; [done|]. intros ->. congruence.
    + intros i k Ei. destruct (decide (i = id)) as [->|Hi].
      { rewrite Hid in Ei. injection Ei as <-. cbn. by eapply (l_nodup _ L). }
      rewrite Hne in Ei by done. by eapply (l_nodup _ L).
    + intros i Hi. destruct (l_chain _ L i) as [l Hl]; [|exists l; by apply Hchain].
      destruct (decide (i = id)) as [->|]; [by eexists|by rewrite <- Hne].
  - intros i. destruct (decide (i = id)) as [->|Hi].
    + rewrite Hid, lookup_insert_eq. split; by eexists.
    + rewrite Hne, lookup_insert_ne by done. apply Dm.
  - intros i k Ei. destruct (decide (i = id)) as [->|Hi].
    + rewrite Hid in Ei. by injection Ei as <-.
    + rewrite Hne in Ei by done. destruct (R i k Ei) as [R1 R2]. split; [|done]. intros p x Hp Ex.
      apply (R1 p x Hp). rewrite <- Hne; [done|]. intros ->. by apply (Hnp i k Ei).
  - intros i k Ei. destruct (decide (i = id)) as [->|Hi].
    + rewrite Hid in Ei. by injection Ei as <-.
    + rewrite Hne in Ei by done. by eapply C.
  - intros i k Ei. destruct (decide (i = id)) as [->|Hi].
    + rewrite Hid in Ei. injection Ei as <-. by apply (S id n).
    + rewrite Hne in Ei by done. by eapply S.
  - intros i k Ei Hs. destruct (decide (i = id)) as [->|Hi].
    + by rewrite lookup_insert_eq in Hs.
    + rewrite Hne in Ei by done. rewrite lookup_insert_ne in Hs by done. by eapply O.
  - done.
  - intros i Hi. specialize (G2 i Hi). unfold popup_node_is_alive in *. cbn. fold m'.
    assert (i <> id) by congruence. by rewrite Hne, lookup_insert_ne.
  - intros g Hg. destruct (G3 g Hg) as (H1 & H2 & k & l & Ek & Er & Hc & Hl). split; [done|]. split; [done|].
    exists k, l. split; [|by eauto]. rewrite Hne; [done|]. intros Hf. apply Hst. rewrite <- Hf. by eapply last_Some_elem_of.
Qed.

(** ** Grabs *)

Lemma chain_owner m sf i l n j k :
  NodeInv m sf -> Chain m i l -> m !! i = Some n -> j ∈ i :: l -> m !! j = Some k -> owner_root_id k = owner_root_id n.
Proof.
  intros HN H. revert n. induction H as [i n0 E Hn|i n0 p l E Ep H IH]; intros n En Hj Ek; simplify_eq.
  - apply elem_of_cons in Hj as [->|[]%not_elem_of_nil]. congruence.
  - apply elem_of_cons in Hj as [->|Hj]; [congruence|].
    destruct (chain_dom _ _ _ H p) as [q Eq]; [by left|]. rewrite (IH q Eq Hj Ek). by eapply (ni_root _ _ HN).
Qed.
Lemma alive_lookup s i : popup_node_is_alive s i = true -> exists n, popup_nodes s !! i = Some n /\ lifecycle n = Alive.
Proof.
  unfold popup_node_is_alive. destruct (popup_nodes s !! i) as [n|]; [|done].
  intros [H%bool_decide_eq_true _]%andb_true_iff. eauto.
Qed.
Lemma push_grab_inv s id n l client serial tree_root gen ev :
  Inv s -> popup_node_is_alive s id = true -> popup_nodes s !! id = Some n -> Chain (popup_nodes s) id l ->
  last (id :: l) = Some tree_root -> client_of id = Some client ->
  Inv (mkPopups (alter (with_generation gen) id (popup_nodes s)) (popup_surfaces s)
         (Some (mkGrab client (owner_root_id n) tree_root id serial gen))
         (base.filter (.≠ id) (popup_grab_stack s) ++ [id]) gen ev).
Proof.
  intros H Ha E Hc Hl Hcl.
  destruct (update_inv (with_generation gen) id gen ev s H) as [HN [G1 G2 G3]]; [done|by intros ? _ []; [left|right]|done|].
  split; [done|]. split; cbn in *.
  - apply NoDup_app. split; [by apply NoDup_filter|]. split; [|apply NoDup_singleton].
    intros x [Hx _]%list_elem_of_filter ->%list_elem_of_singleton. done.
  - intros i [[_ Hi]%list_elem_of_filter|Hi%list_elem_of_singleton]%elem_of_app; [by apply G2|]. subst i.
    unfold popup_node_is_alive in *. cbn. rewrite lookup_alter_eq. destruct (popup_nodes s !! id); [|done]. apply Ha.
  - intros g [= <-]. cbn. split; [apply last_snoc|]. split; [done|].
    exists (with_generation gen n), l. rewrite lookup_alter_eq, E. split; [done|]. split; [done|].
    split; [|done]. eapply same_shape_chain; [|done]. by apply same_shape_alter.
Qed.
(** A popup of another owner than the active grab is not below its tree. *)
Lemma other_tree_kept s id n active :
  Inv s -> popup_grab s = Some active -> popup_nodes s !! id = Some n ->
  client_of id <> Some (owner_client active) \/ grab_root_id active <> owner_root_id n ->
  id ∉ subtree (popup_nodes s) (tree_root_popup_id active).
Proof.
  intros [HN [_ _ G3]] Hg E Hne. destruct (G3 _ Hg) as (_ & Hcl & k & l & Ek & Er & Hc & Hl).
  assert (Ht : tree_root_popup_id active ∈ focused_popup_id active :: l) by by eapply last_Some_elem_of.
  destruct (chain_dom _ _ _ Hc _ Ht) as [t Et]. intros Hin. apply elem_of_subtree in Hin as (li & Hli & Hin); [|apply HN|by eexists].
  pose proof (chain_owner _ _ _ _ _ _ _ HN Hc Ek Ht Et) as E1. pose proof (chain_owner _ _ _ _ _ _ _ HN Hli E Hin Et) as E2.
  destruct Hne as [Hne|Hne]; [|congruence]. apply Hne.
  rewrite (ni_client _ _ HN _ _ E), <- E2, E1, <- (ni_client _ _ HN _ _ Ek). done.
Qed.
Lemma dismiss_other below ids s id n :
  Inv s -> popup_nodes s !! id = Some n -> id ∉ ids ->
  let t := fold_left (dismiss_one below) ids s in
  popup_nodes t !! id = Some n /\ same_shape (popup_nodes s) (popup_nodes t) /\
  (popup_node_is_alive s id = true -> popup_node_is_alive t id = true).
Proof.
  intros H E Hid t. assert (Et : popup_nodes t !! id = Some n) by (unfold t; by rewrite dismiss_all_nodes, decide_False).
  split; [done|]. split.
  - apply (running_all (popup_nodes s) below ids s (inv_running s H)).
  - unfold popup_node_is_alive. rewrite E, Et. unfold t. by destruct (dismiss_all_rest below ids s) as [-> _].
Qed.
Lemma dismissed_not_alive below id s t :
  Inv s -> dismiss_popup_surface below id s = Ret t -> popup_node_is_alive t id = false.
Proof.
  intros H E. rewrite (dismiss_subtree below id s H) in E. injection E as <-. unfold popup_node_is_alive.
  rewrite dismiss_all_nodes. destruct (popup_nodes s !! id) as [n|] eqn:En; [|by destruct (decide _)].
  rewrite decide_True; [done|]. apply elem_of_subtree; [apply H|by eexists|].
  destruct (l_chain _ (ni_links _ _ (proj1 H)) id) as [l Hl]; [by eexists|]. exists l. split; [done|by left].
Qed.
(** What a grab leaves: on success the popup is on top, otherwise it is gone. *)
Definition grab_outcome (s t : Popups) (id : Z) (valid : bool) (client : option Z) (ok : bool) : Prop :=
  (ok = true <-> popup_node_is_alive s id = true /\ valid = true /\ is_Some client) /\
  (ok = true -> popup_node_is_alive t id = true /\ last (popup_grab_stack t) = Some id /\
     exists g, popup_grab t = Some g /\ focused_popup_id g = id) /\
  (ok = false -> popup_node_is_alive t id = false).
Lemma grab_inv below valid client serial id s :
  Inv s -> client = None \/ client = client_of id ->
  exists t ok, grab_popup_surface below valid client serial id s = Ret (t, ok) /\ Inv t /\
    grab_outcome s t id valid client ok.
Proof.
  intros H Hcl. unfold grab_popup_surface.
  assert (Hdis : ~ (popup_node_is_alive s id = true /\ valid = true /\ is_Some client) ->
    exists t ok, (s ← dismiss_popup_surface below id s; Ret (s, false) : run (Popups * bool)) = Ret (t, ok) /\
    Inv t /\ grab_outcome s t id valid client ok).
  { intros Hno. destruct (dismiss_inv below id s H) as (t & Et & Ht). exists t, false. rewrite Et. split; [done|].
    split; [done|]. split; [by split|]. split; [done|]. intros _. exact (dismissed_not_alive below id s t H Et). }
  destruct (popup_node_is_alive s id) eqn:Ha; [|apply Hdis; intros (? & _); congruence].
  destruct valid; [|apply Hdis; intros (_ & ? & _); congruence]. cbn [negb orb].
  destruct (alive_lookup _ _ Ha) as (n & E & _). rewrite E.
  destruct client as [client|]; [|by apply Hdis; intros (_ & _ & [])].
  destruct Hcl as [|Hcl]; [done|]. destruct (l_chain _ (ni_links _ _ (proj1 H)) id) as [l Hl]; [by eexists|].
  assert (Hroot : last (id :: l) = Some (popup_tree_root s id)).
  { apply tree_root_loop_exact; [done|]. pose proof (chain_length _ _ _ Hl). lia. }
  assert (Hfin : forall t gen, Inv t -> popup_nodes t !! id = Some n -> same_shape (popup_nodes s) (popup_nodes t) ->
    popup_node_is_alive t id = true -> exists u ok,
    Ret (mkPopups (alter (with_generation gen) id (popup_nodes t)) (popup_surfaces t)
           (Some (mkGrab client (owner_root_id n) (popup_tree_root s id) id serial gen))
           (base.filter (.≠ id) (popup_grab_stack t) ++ [id]) gen (done_events t), true) = (Ret (u, ok) : run (Popups * bool)) /\
    Inv u /\ grab_outcome s u id true (Some client) ok).
  { intros t gen Ht Et Hs Hat. eexists _, _. split; [reflexivity|]. split.
    - eapply push_grab_inv; try done. by eapply same_shape_chain.
    - split; [by split|]. split; [|done]. intros _. split; [|split; [apply last_snoc|by eexists]].
      unfold popup_node_is_alive in *. cbn. rewrite lookup_alter_eq, Et in *. apply Hat. }
  destruct (popup_grab s) as [active|] eqn:Eg; [|cbn [mbind res_bind]; by apply Hfin].
  destruct (_ || _) eqn:Eo; cbn [mbind res_bind]; [|by apply Hfin].
  rewrite (dismiss_subtree below _ s H). cbn [mbind res_bind].
  destruct (dismiss_other below (subtree (popup_nodes s) (tree_root_popup_id active)) s id n H E) as (Et & Hs & Hat).
  { apply (other_tree_kept s id n active H Eg E). apply orb_true_iff in Eo as [Eo|Eo]; apply bool_decide_eq_true in Eo.
    - left. rewrite <- Hcl. congruence.
    - by right. }
  apply Hfin; [by apply dismiss_all_inv|done|done|by apply Hat].
Qed.

(** ** Histories *)

Context {order : HashOrder}.
(** What the rest of the compositor sees to: a role is taken once at a time; a
    popup is given to a layer surface of its own client before it has children
    or a grab; and the client of a request is the client of its surface. *)
Definition legal (s : Popups) (e : PopupStep) : Prop :=
  match e with
  | GetPopup _ _ _ id _ => popup_surfaces s !! id = None
  | Associate _ layer id =>
      client_of id = client_of layer /\ (id ∉ popup_grab_stack s) /\
      forall n, popup_nodes s !! id = Some n -> children n = []
  | PopupGrabRequest _ _ client _ id => client = None \/ client = client_of id
  | _ => True
  end.
Inductive Reachable : Popups -> Prop :=
| reach_new : Reachable popups_new
| reach_step s e t err : Reachable s -> legal s e -> popup_step client_of e s = Ret (t, err) -> Reachable t.
Lemma inv_new : Inv popups_new.
Proof.
  split; split; cbn; try done; try (by split; [intros * E; rewrite lookup_empty in E..|intros i []]);
    try (intros * E; by rewrite lookup_empty in E).
  - intros i. rewrite !lookup_empty. by split.
  - apply NoDup_nil_2.
  - by intros i ?%not_elem_of_nil.
Qed.
Lemma dismiss_children_inv below id s :
  Inv s -> exists t, dismiss_popup_children_for_parent below id s = Ret t /\ Inv t.
Proof. apply each_inv. intros i t. apply dismiss_inv. Qed.
Lemma destroy_children_inv below id s :
  Inv s -> exists t, destroy_popup_children_for_parent below id s = Ret t /\ Inv t.
Proof. apply each_inv. intros i t. apply destroy_inv. Qed.
Lemma node_step_inv f id s :
  Inv s -> (forall n, shape (f n) = shape n) -> (forall n, lifecycle (f n) = lifecycle n) ->
  (forall n, popup_nodes s !! id = Some n -> status n -> status (f n)) ->
  Inv (with_nodes (alter f id (popup_nodes s)) s).
Proof. intros. by apply update_inv. Qed.
Lemma configure_inv id s : Inv s -> Inv (configure_popup_surface id s).
Proof.
  intros H. unfold configure_popup_surface. destruct (popup_node_is_alive s id); [|done].
  by apply node_step_inv.
Qed.
Lemma publish_inv id s : Inv s -> Inv (publish_popup_commit id s).
Proof.
  intros H. unfold publish_popup_commit. destruct (bool_decide _); [|done].
  destruct (popup_node_is_alive s id) eqn:Ha; [|done]. cbn [andb]. apply node_step_inv; try done.
  intros n En. destruct (alive_lookup _ _ Ha) as (k & Ek & Hk). rewrite En in Ek. injection Ek as <-.
  intros [?|(E & _)]; [by left|congruence].
Qed.
Lemma unmap_surface_inv below hidden id s : Inv s -> exists t, unmap_surface below hidden id s = Ret t /\ Inv t.
Proof.
  intros H. unfold unmap_surface.
  destruct (dismiss_children_inv below id (with_nodes (alter (with_mapped false) id (popup_nodes s)) s)) as (t & -> & Ht).
  - apply node_step_inv; try done. intros n _ [?|(? & ? & _)]; [by left|by right].
  - eexists. split; [reflexivity|by apply clear_inv].
Qed.
Lemma clear_filter_inv ids s :
  Inv s ->
  Inv (with_grab (popup_grab (clear_popup_grab_for_surface_ids ids s))
         (base.filter (.∉ ids) (popup_grab_stack (clear_popup_grab_for_surface_ids ids s)))
         (clear_popup_grab_for_surface_ids ids s)).
Proof. intros H. rewrite clear_clear_stack. by apply clear_inv. Qed.
Lemma unregister_xdg_inv below hidden id s :
  Inv s -> exists t, unregister_xdg_surface_role below hidden id s = Ret t /\ Inv t.
Proof.
  intros H. unfold unregister_xdg_surface_role. destruct (destroy_children_inv below id s H) as (t & -> & Ht).
  cbn [mbind res_bind]. unfold unregister_popup_surface, unregister_toplevel_surface, unmap_xdg_role_surfaces.
  destruct (destroy_inv below id _ (clear_inv (hidden ++ [id]) t Ht)) as (u & -> & Hu). cbn [mbind res_bind].
  eexists. split; [reflexivity|]. rewrite filter_ne_single. by apply clear_filter_inv.
Qed.
Lemma teardown_inv below hidden is_layer content shown id s :
  Inv s -> exists t, teardown_surface below hidden is_layer content shown id s = Ret t /\ Inv t.
Proof.
  intros H. unfold teardown_surface, unregister_toplevel_surface, unmap_xdg_role_surfaces.
  destruct (destroy_inv below id _ (clear_inv (hidden ++ [id]) s H)) as (t & Et & Ht).
  unfold unregister_popup_surface. rewrite Et. cbn [mbind res_bind].
  assert (Hl : exists u, teardown_layer_surface below is_layer content id t = Ret u /\ Inv u).
  { unfold teardown_layer_surface. destruct (is_layer id); [|by exists t].
    destruct (dismiss_children_inv below id t Ht) as (u & -> & Hu). eexists. split; [reflexivity|by apply clear_inv]. }
  destruct Hl as (u & -> & Hu). cbn [mbind res_bind]. apply each_inv; [intros i v; apply destroy_inv|].
  by apply clear_filter_inv.
Qed.
(** Every call returns and keeps the invariant. *)
Lemma step_inv e s : Inv s -> legal s e -> exists t err, popup_step client_of e s = Ret (t, err) /\ Inv t.
Proof.
  intros H He. destruct e; cbn [popup_step]; cbn in He.
  - destruct (get_popup _ _ _ _ _ _ _) as [t err] eqn:E. exists t, err. split; [done|].
    change t with (t, err).1. rewrite <- E. by apply get_popup_inv.
  - eexists _, _. split; [reflexivity|by apply configure_inv].
  - eexists _, _. split; [reflexivity|by apply publish_inv].
  - destruct (unmap_surface_inv below hidden id s H) as (t & -> & Ht). by eexists _, _.
  - unfold popup_grab_request. destruct (decide _); [|by eexists _, _].
    destruct (grab_inv below valid client serial id s H He) as (t & ok & -> & Ht & _). by eexists _, _.
  - unfold popup_destroy. destruct (decide _); [|by eexists _, _]. destruct (popup_destroy_is_topmost s id); [|by eexists _, _].
    cbn [negb]. unfold unregister_popup_surface. destruct (destroy_inv below id s H) as (t & -> & Ht). by eexists _, _.
  - destruct (associate_layer_surface_popup _ _ _ _) as [t err] eqn:E. exists t, err. split; [done|].
    change t with (t, err).1. rewrite <- E. destruct He as (? & ? & ?). by apply associate_inv.
  - unfold pointer_press. destruct (popup_grab_to_dismiss_for_pointer_target _ _) as [p|]; [|by eexists _, _].
    destruct (dismiss_inv below p s H) as (t & -> & Ht). by eexists _, _.
  - destruct (dismiss_children_inv below id s H) as (t & -> & Ht). by eexists _, _.
  - destruct (unregister_xdg_inv below hidden id s H) as (t & -> & Ht). by eexists _, _.
  - destruct (teardown_inv below hidden is_layer content shown id s H) as (t & -> & Ht). by eexists _, _.
  - eexists _, _. split; [reflexivity|by apply clear_inv].
Qed.
Lemma reachable_inv s : Reachable s -> Inv s.
Proof.
  induction 1 as [|s e t err _ IH He E]; [apply inv_new|].
  destruct (step_inv e s IH He) as (t' & err' & E' & Ht). rewrite E in E'. by injection E' as -> _.
Qed.

(** Who is told, and what leaves the stack. *)
Lemma tell_cases i s : Inv s -> tell i s = if popup_node_is_alive s i then [i] else [].
Proof.
  intros [[_ D _ _ S _] _]. unfold tell, popup_node_is_alive. destruct (popup_nodes s !! i) as [n|] eqn:E; [|done].
  assert (Hs : is_Some (popup_surfaces s !! i)) by (rewrite <- D, E; by eexists).
  rewrite decide_True by done. rewrite (bool_decide_eq_true_2 _ Hs).
  destruct (S i n E) as [[-> ->]|(-> & -> & _)]; done.
Qed.
Lemma told_concat ids s :
  Inv s -> concat ((fun i => tell i s) <$> ids) = base.filter (fun i => popup_node_is_alive s i = true) ids.
Proof.
  intros H. induction ids as [|i ids IH]; [done|]. rewrite fmap_cons, filter_cons. cbn [concat]. rewrite (tell_cases i s H), IH.
  by destruct (popup_node_is_alive s i).
Qed.
Lemma told_nodup ids s : Inv s -> base.NoDup ids -> base.NoDup (concat ((fun i => tell i s) <$> ids)).
Proof. intros H Hn. rewrite told_concat by done. by apply NoDup_filter. Qed.
Lemma elem_of_told ids s j :
  Inv s -> j ∈ concat ((fun i => tell i s) <$> ids) <-> j ∈ ids /\ popup_node_is_alive s j = true.
Proof. intros H. rewrite told_concat, list_elem_of_filter by done. tauto. Qed.
Lemma dismiss_one_stack below s i x :
  x ∈ popup_grab_stack (dismiss_one below s i) -> x ∈ popup_grab_stack s /\ (is_Some (popup_nodes s !! i) -> x <> i).
Proof.
  unfold dismiss_one. destruct (popup_nodes s !! i) as [n|] eqn:E; [|by intros; split; [|intros []]].
  rewrite (dismiss_node_eq below i n s E). cbn. intros [H1 H2]%list_elem_of_filter.
  apply list_elem_of_filter in H2 as [_ H2]. split; [done|]. intros _ ->. apply H1. by left.
Qed.
Lemma dismissed_off_stack below ids s j :
  (is_Some (popup_nodes s !! j) -> j ∉ ids -> j ∉ popup_grab_stack s) -> is_Some (popup_nodes s !! j) ->
  j ∉ popup_grab_stack (fold_left (dismiss_one below) ids s).
Proof.
  revert s. induction ids as [|i ids IH]; intros s H Hj; cbn [fold_left].
  - apply H; [done|apply not_elem_of_nil].
  - apply IH; rewrite dismiss_one_nodes.
    + intros _ Hn Hx. apply dismiss_one_stack in Hx as [Hx Hi]. destruct (decide (j = i)) as [->|Hji]; [by apply Hi|].
      apply H; [done| |done]. by apply not_elem_of_cons.
    + rewrite lookup_alter. destruct (decide (i = j)); [subst; by apply fmap_is_Some|done].
Qed.

(** ** Properties *)

(** C6: after every sequence of calls in which a role is taken once at a time,
    popups are given to layer surfaces before they have children or grabs, and
    grabs come from the client of the surface, every further call returns (the
    recursions over the popups end), and: the parent and children links agree
    and are acyclic; roles and nodes go together; every popup of a tree names
    the same root surface and client; a popup is alive or was told that it is
    done; the stack of grabs holds live popups once each; and an active grab is
    the top of the stack and names the root and client of its popup. *)
Theorem popup_tree_invariant s :
  Reachable s -> Inv s /\ forall e, legal s e -> returns (popup_step client_of e s).
Proof.
  intros H. pose proof (reachable_inv s H) as Hi. split; [done|]. intros e He.
  destruct (step_inv e s Hi He) as (t & err & -> & _). by exists (t, err).
Qed.

(** C18: dismissing a popup returns; it makes exactly the popups of its subtree
    inert and unmapped and leaves every other node as it was; [popup_done] is
    sent once to every popup of the subtree that was alive and to no other; and
    none of them keeps a place on the stack of grabs. *)
Theorem dismiss_exact below id s :
  Reachable s -> is_Some (popup_nodes s !! id) ->
  exists t sent, dismiss_popup_surface below id s = Ret t /\
    (forall j n, popup_nodes s !! j = Some n ->
       (Under (popup_nodes s) id j -> popup_nodes t !! j = Some (marked n)) /\
       (~ Under (popup_nodes s) id j -> popup_nodes t !! j = Some n)) /\
    (forall j, popup_nodes s !! j = None -> popup_nodes t !! j = None) /\
    done_events t = done_events s ++ sent /\ base.NoDup sent /\
    (forall j, j ∈ sent <-> Under (popup_nodes s) id j /\ popup_node_is_alive s j = true) /\
    (forall j, Under (popup_nodes s) id j -> j ∉ popup_grab_stack t).
Proof.
  intros Hr Hid. pose proof (reachable_inv s Hr) as H. pose proof (ni_links _ _ (proj1 H)) as HL.
  pose proof (subtree_nodup (popup_nodes s) id HL) as Hnd.
  pose proof (fun x => elem_of_subtree (popup_nodes s) id x HL Hid) as Hin.
  eexists _, _. split; [by apply dismiss_subtree|]. split; [|split; [|split; [by apply dismiss_all_told|split; [|split]]]].
  - intros j n E. rewrite dismiss_all_nodes, E. destruct (decide _) as [Hj|Hj]; rewrite Hin in Hj; split; done.
  - intros j E. rewrite dismiss_all_nodes, E. by destruct (decide _).
  - by apply told_nodup.
  - intros j. by rewrite elem_of_told, Hin.
  - intros j Hj. destruct Hj as (l & Hl & Hj). apply dismissed_off_stack; [|by apply (chain_dom _ _ _ Hl); left].
    intros _ Hn. destruct Hn. apply Hin. by exists l.
Qed.

(** Destroying a popup returns; it removes exactly the popups of its
    subtree, with their roles and their grabs, and from every other node only
    takes the removed popups off its list of children; no event is sent. *)
Theorem destroy_exact below id s :
  Reachable s -> is_Some (popup_nodes s !! id) ->
  exists t, destroy_popup_role below id s = Ret t /\
    (forall j, Under (popup_nodes s) id j ->
       popup_nodes t !! j = None /\ popup_surfaces t !! j = None /\ (j ∉ popup_grab_stack t)) /\
    (forall j, ~ Under (popup_nodes s) id j ->
       popup_nodes t !! j = with_children (base.filter (.∉ subtree (popup_nodes s) id)) <$> popup_nodes s !! j /\
       popup_surfaces t !! j = popup_surfaces s !! j) /\
    done_events t = done_events s.
Proof.
  intros Hr Hid. pose proof (reachable_inv s Hr) as H. pose proof (ni_links _ _ (proj1 H)) as HL.
  pose proof (fun x => elem_of_subtree (popup_nodes s) id x HL Hid) as Hin.
  assert (ED : subtree_or_self (popup_nodes s) id = subtree (popup_nodes s) id).
  { unfold subtree_or_self. by destruct Hid as [n ->]. }
  eexists. split; [by apply destroy_subtree|]. rewrite ED. set (D := subtree (popup_nodes s) id) in *.
  pose proof (pruned_all (popup_nodes s) [] below D s HL (pruned_nil _)) as HP. cbn [app] in HP.
  destruct (destroy_all_rest below D s) as (_ & Est & Hsf & _ & Hev). split; [|split; [|done]].
  - intros j Hj%Hin. rewrite HP, Hsf, Est, !decide_True by done. split; [done|]. split; [done|].
    intros Hx. by apply (release_all_stack below D s j Hx).
  - intros j Hj. rewrite HP, Hsf, !decide_False by (by rewrite Hin). done.
Qed.

(** The check before a popup gets a parent is exact: it refuses a parent
    that is the popup itself or hangs below it, and no other. *)
Theorem cycle_check_exact id p s :
  Reachable s -> popup_would_create_cycle s id p = true <-> id = p \/ Under (popup_nodes s) id p.
Proof.
  intros Hr. pose proof (ni_links _ _ (proj1 (reachable_inv s Hr))) as HL. unfold popup_would_create_cycle.
  destruct (popup_nodes s !! p) as [n|] eqn:E.
  - destruct (l_chain _ HL p) as [l Hl]; [by eexists|].
    rewrite (cycle_loop_exact _ _ _ p l Hl) by (pose proof (chain_length _ _ _ Hl); lia). rewrite bool_decide_eq_true.
    split; [intros Hin; right; by exists l|]. intros [->|(l' & Hl' & Hin)]; [by left|].
    by rewrite (chain_det _ _ _ _ Hl Hl').
  - cbn. rewrite E. destruct (Z.eqb_spec p id) as [->|Hne]; [by split; [left|]|].
    split; [done|]. intros [->|(l & Hl & _)]; [done|]. destruct (chain_dom _ _ _ Hl p) as [k Ek]; [by left|]. congruence.
Qed.

(** A grab returns; it succeeds exactly for a live popup with a valid
    serial and a connected client, and then this popup is alive, on top of the
    stack, the one presses are sent to and the one that may be destroyed;
    otherwise the popup is dismissed. *)
Theorem grab_takes_the_top below valid client serial id s :
  Reachable s -> client = None \/ client = client_of id ->
  exists t ok, grab_popup_surface below valid client serial id s = Ret (t, ok) /\
    (ok = true <-> popup_node_is_alive s id = true /\ valid = true /\ is_Some client) /\
    (ok = true -> topmost_popup_grab_surface_id t = Some id /\ popup_destroy_is_topmost t id = true) /\
    (ok = false -> popup_node_is_alive t id = false).
Proof.
  intros Hr Hcl. destruct (grab_inv below valid client serial id s (reachable_inv s Hr) Hcl)
    as (t & ok & E & _ & Hok & Htop & Hno).
  exists t, ok. split; [done|]. split; [done|]. split; [|done]. intros Ho.
  destruct (Htop Ho) as (Ha & Hl & g & Hg & Hf). unfold topmost_popup_grab_surface_id, popup_destroy_is_topmost.
  by rewrite Hg, Hf, Ha, Hl, Z.eqb_refl.
Qed.
End Clients.

(** ** Witnesses *)

(** A menu (2) of the window 1 with a submenu (3) and a second one (4), the
    first two grabbed. *)
Definition demo_client (i : Z) : option Z := if i <? 100 then Some 7 else Some 8.
Definition demo_steps : list PopupStep :=
  [GetPopup false (fun _ => false) (fun i => i =? 1) 2 (Some 1); Configure 2; PublishCommit 2;
   PopupGrabRequest (fun _ => []) true (Some 7) 11 2;
   GetPopup false (fun _ => false) (fun i => i =? 1) 3 (Some 2); Configure 3; PublishCommit 3;
   PopupGrabRequest (fun _ => []) true (Some 7) 12 3;
   GetPopup false (fun _ => false) (fun i => i =? 1) 4 (Some 2)].
Fixpoint run_steps (es : list PopupStep) (s : Popups) : run Popups :=
  match es with
  | [] => Ret s
  | e :: es => match popup_step (order := list_order) demo_client e s with
               | Ret (t, _) => run_steps es t
               | _ => NoFuel
               end
  end.
Definition demo_popups : Popups := match run_steps demo_steps popups_new with Ret s => s | _ => popups_new end.
Fixpoint legal_steps (es : list PopupStep) (s : Popups) : Prop :=
  match es with
  | [] => True
  | e :: es => legal demo_client s e /\
      match popup_step (order := list_order) demo_client e s with Ret (t, _) => legal_steps es t | _ => False end
  end.
Lemma run_reachable es s t :
  Reachable demo_client (order := list_order) s -> legal_steps es s -> run_steps es s = Ret t ->
  Reachable demo_client (order := list_order) t.
Proof.
  revert s. induction es as [|e es IH]; cbn; intros s Hs Hl E; [by injection E as <-|].
  destruct Hl as [He Hl]. destruct (popup_step demo_client e s) as [[u err]|[]| |] eqn:Ep; try done.
  apply (IH u); [|done|done]. by eapply reach_step.
Qed.
Lemma demo_reachable : Reachable demo_client (order := list_order) demo_popups.
Proof.
  apply (run_reachable demo_steps popups_new); [apply reach_new| |vm_compute; reflexivity].
  vm_compute. split_and!; try reflexivity; try (by right); done.
Qed.
Example demo_popups_shape :
  topmost_popup_grab_surface_id demo_popups = Some 3 /\ popup_grab_stack demo_popups = [2; 3] /\
  subtree (popup_nodes demo_popups) 2 = [3; 4; 2].
Proof. vm_compute. split_and!; reflexivity. Qed.
Lemma popup_tree_invariant_witness :
  Inv demo_client demo_popups /\
  returns (popup_step (order := list_order) demo_client (PopupDestroy (fun _ => []) 3) demo_popups).
Proof.
  destruct (popup_tree_invariant demo_client (order := list_order) demo_popups demo_reachable) as [H1 H2].
  split; [exact H1|]. apply H2. exact I.
Defined.
Lemma dismiss_exact_witness :
  exists t sent, dismiss_popup_surface (fun _ => []) 2 demo_popups = Ret t /\ done_events t = done_events demo_popups ++ sent.
Proof.
  destruct (dismiss_exact demo_client (order := list_order) (fun _ => []) 2 demo_popups demo_reachable)
    as (t & sent & E & _ & _ & Es & _); [vm_compute; eexists; reflexivity|].
  exists t, sent. split; [exact E|exact Es].
Defined.
Lemma destroy_exact_witness :
  exists t, destroy_popup_role (fun _ => []) 2 demo_popups = Ret t /\ done_events t = done_events demo_popups.
Proof.
  destruct (destroy_exact demo_client (order := list_order) (fun _ => []) 2 demo_popups demo_reachable)
    as (t & E & _ & _ & Es); [vm_compute; eexists; reflexivity|].
  exists t. split; [exact E|exact Es].
Defined.
Lemma cycle_check_exact_witness :
  popup_would_create_cycle demo_popups 2 3 = true <-> 2 = 3 \/ Under (popup_nodes demo_popups) 2 3.
Proof. exact (cycle_check_exact demo_client (order := list_order) 2 3 demo_popups demo_reachable). Defined.
Lemma grab_takes_the_top_witness :
  exists t ok, grab_popup_surface (fun _ => []) true (Some 7) 13 4 demo_popups = Ret (t, ok) /\
    (ok = true -> topmost_popup_grab_surface_id t = Some 4 /\ popup_destroy_is_topmost t 4 = true).
Proof.
  destruct (grab_takes_the_top demo_client (order := list_order) (fun _ => []) true (Some 7) 13 4 demo_popups
    demo_reachable (or_intror eq_refl)) as (t & ok & E & _ & H & _).
  exists t, ok. split; [exact E|exact H].
Defined.

(** ** Where the code departs from this *)

(** A popup (2) without a parent gets a child (3) and is then given to the layer
    surface 9: its own root changes, that of its child does not. When both are
    grabbed in turn, the second grab takes the first for the grab of another
    tree, dismisses the whole tree with the popup itself, and still succeeds:
    the grab is on a popup that was told it is done. *)
Definition stale_root_steps : list PopupStep :=
  [GetPopup false (fun _ => false) (fun _ => false) 2 None; GetPopup false (fun _ => false) (fun _ => false) 3 (Some 2);
   Associate true 9 2; PopupGrabRequest (fun _ => []) true (Some 7) 11 2;
   PopupGrabRequest (fun _ => []) true (Some 7) 12 3].
Definition stale_root_popups : Popups :=
  match run_steps stale_root_steps popups_new with Ret s => s | _ => popups_new end.
Lemma stale_root_grabs_inert_popup :
  run_steps stale_root_steps popups_new = Ret stale_root_popups /\
  focused_popup_id <$> popup_grab stale_root_popups = Some 3 /\ done_events stale_root_popups = [3; 2] /\
  popup_node_is_alive stale_root_popups 3 = false /\ topmost_popup_grab_surface_id stale_root_popups = None.
Proof. vm_compute. split_and!; reflexivity. Qed.
(** *** A grab that is forgotten *)

Lemma filter_keeps (P : Z -> Prop) {dec : forall i, Decision (P i)} (l : list Z) :
  (forall i, i ∈ l -> P i) -> base.filter P l = l.
Proof.
  induction l as [|i l IH]; intros H; [done|]. rewrite filter_cons_True by (apply H; by left).
  f_equal. apply IH. intros j Hj. apply H. by right.
Qed.
(** Destroying the popup a grab is on: the grab goes, the popups below it stay
    on the stack, the other nodes and surfaces live on. *)
Lemma destroy_node_spec below p front g s :
  popup_grab s = Some g -> focused_popup_id g = p -> popup_grab_stack s = front ++ [p] ->
  (forall i, i ∈ front -> i ∉ below p ++ [p]) ->
  let s' := destroy_node below p s in
  popup_grab s' = None /\ popup_grab_stack s' = front /\
  forall i, i <> p -> popup_node_is_alive s' i = popup_node_is_alive s i.
Proof.
  intros Eg Ef Es Hf s'.
  assert (Hp : forall i, i ∈ front -> i <> p /\ i ∉ [p]) by (intros i Hi%Hf; set_solver).
  assert (E1 : base.filter (.∉ below p ++ [p]) (front ++ [p]) = front).
  { rewrite filter_app, filter_keeps by done. rewrite filter_cons_False by set_solver. by rewrite app_nil_r. }
  assert (E2 : base.filter (.∉ [p]) front = front) by (apply filter_keeps; apply Hp).
  assert (E3 : base.filter (.≠ p) front = front) by (apply filter_keeps; apply Hp).
  assert (Em : mentions (below p ++ [p]) g = true).
  { unfold mentions. rewrite bool_decide_true; [done|]. set_solver. }
  subst s'. unfold destroy_node, unmap_xdg_role_surfaces, detach_popup_node,
    clear_popup_grab_for_surface_ids, popup_node_is_alive. cbn. rewrite Eg, Es, Em. cbn. rewrite E1, E2, E3.
  destruct (popup_nodes s !! p) as [n|]; cbn.
  - assert (Hu : forall t o, popup_grab (unlink_popup_from_parent p o t) = popup_grab t /\
      popup_grab_stack (unlink_popup_from_parent p o t) = popup_grab_stack t /\
      popup_surfaces (unlink_popup_from_parent p o t) = popup_surfaces t /\
      forall i, lifecycle <$> popup_nodes (unlink_popup_from_parent p o t) !! i = lifecycle <$> popup_nodes t !! i).
    { intros t o. destruct o as [k|k|k]; cbn; split_and!; try done. intros i.
      destruct (decide (i = k)) as [->|Hk]; [|by rewrite lookup_alter_ne].
      rewrite lookup_alter_eq. by destruct (popup_nodes t !! k). }
    match goal with |- context [unlink_popup_from_parent p (parent n) ?t] =>
      destruct (Hu t (parent n)) as (U1 & U2 & U3 & U4) end.
    rewrite U1, U2, U3. cbn. rewrite E2. split_and!; [done|done|]. intros i Hi. specialize (U4 i). cbn in U4.
    rewrite lookup_delete_ne in U4 by done. rewrite (lookup_delete_ne (popup_surfaces s)) by done.
    match goal with |- match ?a with _ => _ end = _ => destruct a as [n1|], (popup_nodes s !! i) as [n2|] end;
      cbn in U4; try done. by injection U4 as ->.
  - split_and!; [done|done|]. intros i Hi. by rewrite lookup_delete_ne.
Qed.
(** With no grab recorded nothing is dismissed for a new one. *)
Lemma grab_beside below client serial q front s :
  popup_grab s = None -> popup_grab_stack s = front -> popup_node_is_alive s q = true -> q ∉ front ->
  exists s', popup_grab_request below true (Some client) serial q s = Ret (s', None) /\
    popup_grab_stack s' = front ++ [q] /\ done_events s' = done_events s /\
    popup_surfaces s' = popup_surfaces s /\
    forall i, popup_node_is_alive s' i = popup_node_is_alive s i.
Proof.
  intros Eg Es Ha Hq. unfold popup_grab_request, grab_popup_surface. rewrite Ha. cbn [negb orb].
  assert (Ha' := Ha). unfold popup_node_is_alive in Ha'.
  destruct (popup_nodes s !! q) as [n|] eqn:En; [|done]. apply andb_true_iff in Ha' as [_ Hsf%bool_decide_eq_true].
  rewrite decide_True by done. rewrite Eg. cbn. eexists. split; [done|]. cbn. split_and!; try done.
  - rewrite Es, filter_keeps; [done|]. intros i Hi ->. done.
  - intros i. unfold popup_node_is_alive. cbn. destruct (decide (i = q)) as [->|Hi].
    + by rewrite lookup_alter_eq, En.
    + by rewrite lookup_alter_ne.
Qed.

(** C34: destroying a submenu makes the compositor forget the grab of its menu.
    Whenever a grab is on a registered, childless popup that is on top of
    another live one on the stack, and nothing of the rest of the stack is
    a surface shown below it, destroying it succeeds and leaves the
    menu below on the stack but no grab recorded. From then on a grab by any
    client, of a live popup that is not on the stack yet and with a serial
    that passes, is granted without dismissing the menu; the two share the
    stack, and the first client, whose menu is alive and its topmost popup, is
    refused with a protocol error when it destroys it. *)
Theorem forgotten_grab_blocks_client below s g n rest menu p :
  popup_grab s = Some g -> focused_popup_id g = p -> popup_grab_stack s = rest ++ [menu; p] ->
  popup_nodes s !! p = Some n -> children n = [] -> is_Some (popup_surfaces s !! p) ->
  popup_node_is_alive s menu = true -> (forall i, i ∈ rest ++ [menu] -> i ∉ below p ++ [p]) ->
  exists s1, popup_destroy below p s = Ret (s1, None) /\ popup_grab s1 = None /\
    popup_grab_stack s1 = rest ++ [menu] /\ popup_node_is_alive s1 menu = true /\
    forall below' client serial q,
      popup_node_is_alive s1 q = true -> q ∉ rest ++ [menu] ->
      exists s2, popup_grab_request below' true (Some client) serial q s1 = Ret (s2, None) /\
        popup_grab_stack s2 = rest ++ [menu; q] /\ done_events s2 = done_events s1 /\
        popup_node_is_alive s2 menu = true /\
        popup_destroy below' menu s2 = Ret (s2, Some NotTheTopmostPopup).
Proof.
  intros Eg Ef Es En Ec Hs Hm Hf.
  assert (Es' : popup_grab_stack s = (rest ++ [menu]) ++ [p]) by by rewrite <- app_assoc.
  destruct (destroy_node_spec below p (rest ++ [menu]) g s Eg Ef Es' Hf) as (G1 & G2 & G3).
  set (s1 := destroy_node below p s) in *.
  assert (Hne : menu <> p) by (specialize (Hf menu); set_solver).
  assert (E1 : popup_destroy below p s = Ret (s1, None)).
  { unfold popup_destroy. rewrite decide_True by done. unfold popup_destroy_is_topmost.
    rewrite Es', last_snoc, Z.eqb_refl. cbn. rewrite En, Ec. done. }
  assert (A1 : popup_node_is_alive s1 menu = true) by by rewrite G3.
  exists s1. split_and!; try done. intros below' client serial q Hq Hnq.
  destruct (grab_beside below' client serial q _ s1 G1 G2 Hq Hnq) as (s2 & E2 & K1 & K2 & K3 & K4).
  exists s2. rewrite <- app_assoc in K1. split_and!; [done|done|done|by rewrite K4|].
  assert (A2 : popup_node_is_alive s2 menu = true) by by rewrite K4.
  unfold popup_destroy. unfold popup_node_is_alive in A2. destruct (popup_nodes s2 !! menu); [|done].
  apply andb_true_iff in A2 as [_ A2%bool_decide_eq_true]. rewrite decide_True by done.
  unfold popup_destroy_is_topmost. rewrite K1. cbn [app]. rewrite last_app. cbn [last].
  assert (q <> menu) by set_solver. destruct (Z.eqb_spec q menu); [done|]. cbn [orb].
  rewrite bool_decide_false; [done|]. set_solver.
Qed.
(** The menu 2 and its submenu 3 are grabbed; popup 102 is of another client. *)
Definition forgotten_grab_steps : list PopupStep :=
  take 8 demo_steps ++ [GetPopup false (fun _ => false) (fun i => i =? 101) 102 (Some 101)].
Definition forgotten_grab_popups : Popups :=
  match run_steps forgotten_grab_steps popups_new with Ret s => s | _ => popups_new end.
Lemma forgotten_grab_legal : legal_steps forgotten_grab_steps popups_new.
Proof. vm_compute. split_and!; try reflexivity; try (by right); done. Qed.
Lemma forgotten_grab_blocks_client_witness :
  run_steps forgotten_grab_steps popups_new = Ret forgotten_grab_popups /\
  exists s1 s2, popup_destroy (fun _ => []) 3 forgotten_grab_popups = Ret (s1, None) /\
    popup_grab s1 = None /\ popup_grab_stack s1 = [2] /\
    popup_grab_request (fun _ => []) true (Some 8) 20 102 s1 = Ret (s2, None) /\
    popup_destroy (fun _ => []) 2 s2 = Ret (s2, Some NotTheTopmostPopup).
Proof.
  split; [by vm_compute|].
  destruct (popup_grab forgotten_grab_popups) as [g|] eqn:Eg; [|vm_compute in Eg; discriminate].
  destruct (popup_nodes forgotten_grab_popups !! 3) as [n|] eqn:En; [|vm_compute in En; discriminate].
  destruct (forgotten_grab_blocks_client (fun _ => []) forgotten_grab_popups g n [] 2 3)
    as (s1 & E1 & G1 & S1 & _ & H).
  - exact Eg.
  - vm_compute in Eg. by injection Eg as <-.
  - by vm_compute.
  - exact En.
  - vm_compute in En. by injection En as <-.
  - vm_compute. by eexists.
  - by vm_compute.
  - intros i ->%list_elem_of_singleton H%list_elem_of_singleton. discriminate H.
  - destruct (H (fun _ => []) 8 20 102) as (s2 & E2 & _ & _ & _ & D2).
    + vm_compute in E1. injection E1 as <-. by vm_compute.
    + intros Hin%list_elem_of_singleton. discriminate Hin.
    + exists s1, s2. exact (conj E1 (conj G1 (conj S1 (conj E2 D2)))).
Defined.
