(* ===== verification/ConfigureTimeline.v ===== *)
(** * ConfigureTimeline: configures sent to an X11 window and their notifies

    Models src/xwayland/xwm/configure_timeline.rs and the calls that use it in
    src/xwayland/xwm/resize_runtime.rs. The window manager records every
    configure it sends to a window; the X server answers with notifies that
    carry a geometry and the low 16 bits of the last processed request. The
    timeline matches a notify with a pending configure, retires the older ones
    and decides whether the geometry of the notify is news for the compositor. *)

From stdpp Require Import base list option gmap sorting.
From Stdlib Require Import ZArith Lia.
From S2P Require Import Prelude.

(** ** Data *)

Record X11Geometry : Type := mkGeo { xg_x : Z; xg_y : Z; xg_width : Z; xg_height : Z }.
#[export] Instance X11Geometry_eq_dec : EqDecision X11Geometry.
Proof. solve_decision. Defined.
Record X11ConfigureFlags : Type := mkFlags {
  cf_x : bool; cf_y : bool; cf_width : bool; cf_height : bool; cf_border_width : bool; cf_sibling : bool;
  cf_stack_mode : bool
}.
Inductive X11PlacementPolicy : Type := CompositorManaged | ClientPositioned | ParentRelative | OverrideRedirect.
#[export] Instance X11PlacementPolicy_eq_dec : EqDecision X11PlacementPolicy.
Proof. solve_decision. Defined.
Definition CONFIGURE_HISTORY_LIMIT : nat := 32.
Inductive ConfigureSource : Type := ClientRequest | Compositor | ResizeSync.
Record ExpectedConfigure : Type := mkExpected {
  ex_epoch : Z; ex_geometry : X11Geometry; ex_fields : X11ConfigureFlags; ex_source : ConfigureSource;
  ex_cookie : option Z
}.
Record RetiredConfigure : Type := mkRetired {
  re_epoch : Z; re_geometry : X11Geometry; re_source : ConfigureSource; re_cookie : option Z
}.
Inductive ConfigureNotifyClassification : Type :=
  ExpectedCurrent | ExpectedOlder | ExpectedCoalesced | StaleRetired | ClientAuthoritativeRetiredReuse
| ExternalAuthoritative | ExternalAuthoritativeSequenceCollision | SequenceOnlyRejected | AmbiguousGeometry
| AmbiguousRetired | UnknownPreserved.
#[export] Instance ConfigureNotifyClassification_eq_dec : EqDecision ConfigureNotifyClassification.
Proof. solve_decision. Defined.
Definition forwards_to_compositor (c : ConfigureNotifyClassification) : bool :=
  match c with
  | ExternalAuthoritative | ExternalAuthoritativeSequenceCollision | ClientAuthoritativeRetiredReuse
  | UnknownPreserved => true
  | _ => false
  end.
Record ConfigureNotifyResult : Type := mkResult {
  nr_classification : ConfigureNotifyClassification; nr_epoch : option Z; nr_geometry : X11Geometry;
  nr_conflict : bool; nr_wrap : bool; nr_retired_count : Z; nr_retired_cookie : bool; nr_preserve_external : bool
}.
Inductive PendingMatch : Type :=
| Matched (index : nat) (conflict wrap : bool)
| PmSequenceOnly
| PmAmbiguous (conflict : bool)
| PmNone.

(** ** Sequence numbers *)

(** [full as u16], and [wrapping_sub] on [u16]. *)
Definition low16 (full : Z) : Z := full mod 2 ^ 16.
Definition wrapping_sub16 (a b : Z) : Z := (a - b) mod 2 ^ 16.
Definition sequence16_eq (full event : Z) : bool := low16 full =? event.
Definition sequence16_is_after (candidate reference : Z) : bool :=
  let distance := wrapping_sub16 candidate reference in
  negb (distance =? 0) && (distance <? 0x8000).
Definition sequence_progress_reaches (progress cookie : Z) : bool :=
  sequence16_eq cookie progress || sequence16_is_after progress (low16 cookie).
Definition sequence_progress_wrapped (progress cookie : Z) : bool :=
  let reference := low16 cookie in
  let distance := wrapping_sub16 progress reference in
  sequence16_is_after progress reference && (2 ^ 16 - 1 <? sat_add u32_max reference distance).
(** [option.is_some_and] on a sequence and a cookie. *)
Definition both (f : Z -> Z -> bool) (sequence cookie : option Z) : bool :=
  match sequence, cookie with Some s, Some c => f s c | _, _ => false end.
Definition eq16 (sequence cookie : Z) : bool := sequence16_eq cookie sequence.

(** ** The timeline of a window *)

Record WindowConfigureTimeline : Type := mkTimeline {
  tl_next_epoch : Z; tl_desired : X11Geometry; tl_acknowledged : option X11Geometry;
  tl_pending : list ExpectedConfigure; tl_retired : list RetiredConfigure; tl_external : option X11Geometry
}.
Definition timeline_new (initial : X11Geometry) : WindowConfigureTimeline := mkTimeline 0 initial None [] [] None.
Definition with_external (g : X11Geometry) (t : WindowConfigureTimeline) : WindowConfigureTimeline :=
  mkTimeline (tl_next_epoch t) (tl_desired t) (tl_acknowledged t) (tl_pending t) (tl_retired t) (Some g).
Definition with_queues (p : list ExpectedConfigure) (r : list RetiredConfigure) (t : WindowConfigureTimeline)
  : WindowConfigureTimeline :=
  mkTimeline (tl_next_epoch t) (tl_desired t) (tl_acknowledged t) p r (tl_external t).
(** [while len > limit { pop_front }]. *)
Fixpoint trim {A} (l : list A) : list A :=
  match l with
  | [] => []
  | _ :: rest => if (CONFIGURE_HISTORY_LIMIT <? length l)%nat then trim rest else l
  end.
Definition retire (e : ExpectedConfigure) (r : list RetiredConfigure) : list RetiredConfigure :=
  trim (r ++ [mkRetired (ex_epoch e) (ex_geometry e) (ex_source e) (ex_cookie e)]).
Fixpoint trim_pending (p : list ExpectedConfigure) (r : list RetiredConfigure)
  : list ExpectedConfigure * list RetiredConfigure :=
  match p with
  | [] => ([], r)
  | e :: rest => if (CONFIGURE_HISTORY_LIMIT <? length p)%nat then trim_pending rest (retire e r) else (p, r)
  end.
Definition record (g : X11Geometry) (fields : X11ConfigureFlags) (source : ConfigureSource) (cookie : option Z)
  (t : WindowConfigureTimeline) : WindowConfigureTimeline * ExpectedConfigure :=
  let epoch := Z.max (sat_add u64_max (tl_next_epoch t) 1) 1 in
  let expected := mkExpected epoch g fields source cookie in
  let '(p, r) := trim_pending (tl_pending t ++ [expected]) (tl_retired t) in
  (mkTimeline epoch g (tl_acknowledged t) p r None, expected).
(** The walk over the pending configures: the first and the last one with the
    geometry, and how many there are. *)
Fixpoint geometry_matches (g : X11Geometry) (index : nat) (p : list ExpectedConfigure)
  (acc : option nat * option nat * Z) : option nat * option nat * Z :=
  match p with
  | [] => acc
  | e :: rest =>
      let '(first, newest, count) := acc in
      geometry_matches g (S index) rest
        (if decide (ex_geometry e = g)
         then (match first with Some f => Some f | None => Some index end, Some index, count + 1)
         else acc)
  end.
Definition pending_match (g : X11Geometry) (sequence : option Z) (p : list ExpectedConfigure) : res Empty_set PendingMatch :=
  let '(first, newest, count) := geometry_matches g 0 p (None, None, 0) in
  let conflict := existsb (fun e => bool_decide (ex_geometry e <> g) && both eq16 sequence (ex_cookie e)) p in
  match first with
  | None => Ret (if existsb (fun e => both eq16 sequence (ex_cookie e)) p then PmSequenceOnly else PmNone)
  | Some first =>
      if count =? 1 then
        e ← expect (p !! first);
        Ret (Matched first conflict (both sequence_progress_wrapped sequence (ex_cookie e)))
      else
        newest ← expect newest;
        e ← expect (p !! newest);
        let can_prove_newest := both sequence_progress_reaches sequence (ex_cookie e) in
        let newer_different_reached :=
          existsb (fun e => bool_decide (ex_geometry e <> g) && both sequence_progress_reaches sequence (ex_cookie e))
            (drop (newest + 1) p) in
        Ret (if can_prove_newest && negb newer_different_reached
             then Matched newest conflict (both sequence_progress_wrapped sequence (ex_cookie e))
             else PmAmbiguous conflict)
  end.
(** [while front.epoch < epoch { retire }]. *)
Fixpoint retire_older (epoch : Z) (p : list ExpectedConfigure) (r : list RetiredConfigure)
  : list ExpectedConfigure * list RetiredConfigure * bool :=
  match p with
  | e :: rest =>
      if ex_epoch e <? epoch then let '(p, r, _) := retire_older epoch rest (retire e r) in (p, r, true)
      else (p, r, false)
  | [] => ([], r, false)
  end.
Definition plain_result (c : ConfigureNotifyClassification) (g : X11Geometry) : ConfigureNotifyResult :=
  mkResult c None g false false 0 false false.
(** The walk over the retired configures. *)
Definition retired_matches (g : X11Geometry) (sequence : option Z) (r : list RetiredConfigure)
  : Z * option Z * bool :=
  fold_left (fun '(count, epoch, cookie) e =>
    if decide (re_geometry e = g)
    then (count + 1, Some (re_epoch e), if both eq16 sequence (re_cookie e) then true else cookie)
    else (count, epoch, cookie)) r (0, None, false).
Definition notify (g : X11Geometry) (sequence : option Z) (authority : X11PlacementPolicy)
  (t : WindowConfigureTimeline) : res Empty_set (WindowConfigureTimeline * ConfigureNotifyResult) :=
  let client_authoritative := bool_decide (authority <> CompositorManaged) in
  m ← pending_match g sequence (tl_pending t);
  match m with
  | Matched index conflict wrap =>
      let preserve := client_authoritative && match tl_external t with Some x => bool_decide (x <> g) | None => false end in
      let was_current := bool_decide (index + 1 = length (tl_pending t))%nat in
      expected ← expect (tl_pending t !! index);
      let '(p, r, coalesced) := retire_older (ex_epoch expected) (delete index (tl_pending t)) (tl_retired t) in
      let t := mkTimeline (tl_next_epoch t) (tl_desired t) (Some (ex_geometry expected)) p r (tl_external t) in
      Ret (t, mkResult (if was_current then (if coalesced : bool then ExpectedCoalesced else ExpectedCurrent)
                        else ExpectedOlder)
                (Some (ex_epoch expected)) g conflict wrap 0 false preserve)
  | PmSequenceOnly =>
      Ret (if client_authoritative then with_external g t else t,
           plain_result (if client_authoritative then ExternalAuthoritativeSequenceCollision else SequenceOnlyRejected) g)
  | PmAmbiguous conflict => Ret (t, mkResult AmbiguousGeometry None g conflict false 0 false false)
  | PmNone =>
      let '(count, epoch, cookie) := retired_matches g sequence (tl_retired t) in
      if 0 <? count then
        Ret (if negb cookie && client_authoritative then with_external g t else t,
             mkResult (if cookie : bool then StaleRetired
                       else if client_authoritative then ClientAuthoritativeRetiredReuse else AmbiguousRetired)
               epoch g false false count cookie false)
      else
        Ret (if client_authoritative then with_external g t else t,
             plain_result (if client_authoritative then ExternalAuthoritative else UnknownPreserved) g)
  end.

(** ** The timelines of all windows and their counters *)

Record ConfigureTimelineMetrics : Type := mkMetrics {
  cm_requests_received : Z; cm_configures_issued : Z; cm_expected_current : Z; cm_expected_older : Z;
  cm_coalesced : Z; cm_stale_ignored : Z; cm_external_applied : Z; cm_unknown_preserved : Z;
  cm_rollbacks_prevented : Z; cm_sequence_geometry_conflicts : Z; cm_sequence_wrap_progress : Z;
  cm_sequence_only_rejected : Z; cm_client_retired_reuse : Z; cm_ambiguous_identical : Z;
  cm_collision_managed : Z; cm_collision_client : Z; cm_retired_multiple : Z; cm_retired_cookie : Z;
  cm_retired_reuse_external : Z; cm_retired_ambiguous : Z
}.
Definition metrics_default : ConfigureTimelineMetrics := mkMetrics 0 0 0 0 0 0 0 0 0 0 0 0 0 0 0 0 0 0 0 0.
Definition inc (z : Z) : Z := sat_add u64_max z 1.
Definition inc_if (b : bool) (z : Z) : Z := if b then inc z else z.
(** One notify in the counters: the two evidence flags, the retired matches,
    and the counters of its class. *)
Definition count_notify (n : ConfigureNotifyResult) (m : ConfigureTimelineMetrics) : ConfigureTimelineMetrics :=
  let c := nr_classification n in
  let prevented := match c with
    | ExpectedCurrent | ClientAuthoritativeRetiredReuse | ExternalAuthoritative
    | ExternalAuthoritativeSequenceCollision => false
    | _ => true
    end in
  let external := match c with
    | ClientAuthoritativeRetiredReuse | ExternalAuthoritative | ExternalAuthoritativeSequenceCollision => true
    | _ => false
    end in
  let eqc k := bool_decide (c = k) in
  mkMetrics (cm_requests_received m) (cm_configures_issued m)
    (inc_if (eqc ExpectedCurrent) (cm_expected_current m)) (inc_if (eqc ExpectedOlder) (cm_expected_older m))
    (inc_if (eqc ExpectedCoalesced) (cm_coalesced m)) (inc_if (eqc StaleRetired) (cm_stale_ignored m))
    (inc_if external (cm_external_applied m)) (inc_if (eqc UnknownPreserved) (cm_unknown_preserved m))
    (inc_if prevented (cm_rollbacks_prevented m)) (inc_if (nr_conflict n) (cm_sequence_geometry_conflicts m))
    (inc_if (nr_wrap n) (cm_sequence_wrap_progress m)) (inc_if (eqc SequenceOnlyRejected) (cm_sequence_only_rejected m))
    (inc_if (eqc ClientAuthoritativeRetiredReuse) (cm_client_retired_reuse m))
    (inc_if (eqc AmbiguousGeometry) (cm_ambiguous_identical m))
    (inc_if (eqc SequenceOnlyRejected) (cm_collision_managed m))
    (inc_if (eqc ExternalAuthoritativeSequenceCollision) (cm_collision_client m))
    (inc_if (1 <? nr_retired_count n) (cm_retired_multiple m)) (inc_if (nr_retired_cookie n) (cm_retired_cookie m))
    (inc_if (eqc ClientAuthoritativeRetiredReuse) (cm_retired_reuse_external m))
    (inc_if (eqc AmbiguousRetired) (cm_retired_ambiguous m)).
Record Timelines : Type := mkTimelines {
  configure_timelines : gmap Z WindowConfigureTimeline; configure_metrics : ConfigureTimelineMetrics
}.
Definition count_issued (m : ConfigureTimelineMetrics) : ConfigureTimelineMetrics :=
  let '(mkMetrics a b c d e f g h i j k l m' n o p q r s t) := m in mkMetrics a (inc b) c d e f g h i j k l m' n o p q r s t.
(** [initial] is the geometry the window is known with, [authority] its
    placement policy. *)
Definition note_expected_configure_with_context (handle : Z) (initial g : X11Geometry) (fields : X11ConfigureFlags)
  (source : ConfigureSource) (cookie : option Z) (s : Timelines) : Timelines :=
  let t := default (timeline_new initial) (configure_timelines s !! handle) in
  mkTimelines (<[handle := (record g fields source cookie t).1]> (configure_timelines s)) (count_issued (configure_metrics s)).
Definition note_configure_notify (handle : Z) (initial g : X11Geometry) (sequence : option Z)
  (authority : X11PlacementPolicy) (s : Timelines) : res Empty_set (Timelines * ConfigureNotifyResult) :=
  let t := default (timeline_new initial) (configure_timelines s !! handle) in
  '(t, result) ← notify g sequence authority t;
  Ret (mkTimelines (<[handle := t]> (configure_timelines s)) (count_notify result (configure_metrics s)), result).
Definition clear_configure_timeline (handle : Z) (s : Timelines) : Timelines :=
  mkTimelines (delete handle (configure_timelines s)) (configure_metrics s).

(** ** Queues *)

Lemma StronglySorted_sublist {A} (R : A -> A -> Prop) (l k : list A) :
  sublist l k -> StronglySorted R k -> StronglySorted R l.
Proof.
  induction 1 as [|x l k Hs IH|x l k Hs IH]; intros Hk; [done|..]; apply StronglySorted_cons in Hk as [Hx Hk].
  - apply StronglySorted_cons. split; [|by apply IH]. eapply Forall_forall. intros y Hy.
    eapply Forall_forall; [done|]. by eapply elem_of_sublist.
  - by apply IH.
Qed.
Lemma sublist_map {A B} (f : A -> B) l k : sublist l k -> sublist (f <$> l) (f <$> k).
Proof. induction 1; cbn; by constructor. Qed.
Lemma trim_spec {A} (l : list A) : trim l = drop (length l - CONFIGURE_HISTORY_LIMIT) l.
Proof.
  induction l as [|x l IH]; [done|]. cbn [trim]. destruct (Nat.ltb_spec CONFIGURE_HISTORY_LIMIT (length (x :: l))) as [H|H].
  - rewrite IH. cbn [length] in *. replace (S (length l) - CONFIGURE_HISTORY_LIMIT)%nat with
      (S (length l - CONFIGURE_HISTORY_LIMIT)) by lia. done.
  - replace (length (x :: l) - CONFIGURE_HISTORY_LIMIT)%nat with 0%nat by lia. done.
Qed.
Lemma trim_length {A} (l : list A) : (length (trim l) <= CONFIGURE_HISTORY_LIMIT)%nat.
Proof. rewrite trim_spec, length_drop. lia. Qed.
Lemma trim_sublist {A} (l : list A) : sublist (trim l) l.
Proof. rewrite trim_spec. apply sublist_drop. Qed.
(** The epochs of a timeline, oldest first. *)
Definition epochs (p : list ExpectedConfigure) (r : list RetiredConfigure) : list Z := (re_epoch <$> r) ++ (ex_epoch <$> p).
Lemma retire_epochs e p r : sublist (epochs p (retire e r)) (epochs (e :: p) r).
Proof.
  unfold epochs, retire. rewrite fmap_cons, (cons_middle (ex_epoch e)), app_assoc. apply sublist_app; [|done].
  change [ex_epoch e] with (re_epoch <$> [mkRetired (ex_epoch e) (ex_geometry e) (ex_source e) (ex_cookie e)]).
  rewrite <- fmap_app. apply sublist_map, trim_sublist.
Qed.
Lemma retire_length e r : (length (retire e r) <= CONFIGURE_HISTORY_LIMIT)%nat.
Proof. apply trim_length. Qed.
Definition retire_all (p : list ExpectedConfigure) (r : list RetiredConfigure) : list RetiredConfigure :=
  fold_left (fun r e => retire e r) p r.
Lemma retire_all_epochs k p r : sublist (epochs p (retire_all k r)) (epochs (k ++ p) r).
Proof.
  revert r. induction k as [|e k IH]; intros r; cbn; [done|]. etrans; [apply IH|]. apply retire_epochs.
Qed.
Lemma retire_all_length k r :
  (length r <= CONFIGURE_HISTORY_LIMIT)%nat -> (length (retire_all k r) <= CONFIGURE_HISTORY_LIMIT)%nat.
Proof. revert r. induction k as [|e k IH]; intros r H; cbn; [done|]. apply IH, retire_length. Qed.
Lemma trim_pending_spec p r :
  let k := (length p - CONFIGURE_HISTORY_LIMIT)%nat in trim_pending p r = (drop k p, retire_all (take k p) r).
Proof.
  revert r. induction p as [|e p IH]; intros r; cbv zeta; [done|]. cbn [trim_pending].
  destruct (Nat.ltb_spec CONFIGURE_HISTORY_LIMIT (length (e :: p))) as [H|H].
  - rewrite IH. cbn [length] in *. replace (S (length p) - CONFIGURE_HISTORY_LIMIT)%nat with
      (S (length p - CONFIGURE_HISTORY_LIMIT)) by lia. done.
  - replace (length (e :: p) - CONFIGURE_HISTORY_LIMIT)%nat with 0%nat by lia. done.
Qed.
(** Removing a pending configure takes the older ones with it. *)
Lemma retire_older_spec p1 e p2 r :
  StronglySorted Z.lt (ex_epoch <$> p1 ++ e :: p2) ->
  retire_older (ex_epoch e) (p1 ++ p2) r = (p2, retire_all p1 r, bool_decide (p1 <> [])).
Proof.
  rewrite fmap_app, fmap_cons. intros (H1 & _ & H2)%StronglySorted_app.
  apply StronglySorted_cons in H2 as [H2 _].
  assert (Hlt : forall x, x ∈ p1 -> ex_epoch x < ex_epoch e).
  { intros x Hx. apply H1; [by apply list_elem_of_fmap_2|by left]. }
  clear H1. revert r. induction p1 as [|x p1 IH]; intros r; cbn [app retire_older].
  - destruct p2 as [|y p2]; [done|]. cbn [retire_older]. rewrite fmap_cons in H2. apply Forall_cons in H2 as [H2 _].
    destruct (Z.ltb_spec (ex_epoch y) (ex_epoch e)); [lia|done].
  - rewrite (proj2 (Z.ltb_lt _ _)) by (apply Hlt; by left). rewrite IH by (intros; apply Hlt; by right). done.
Qed.

(** ** Matching *)

(** The places of the pending configures with a geometry. *)
Fixpoint places (g : X11Geometry) (index : nat) (p : list ExpectedConfigure) : list nat :=
  match p with
  | [] => []
  | e :: rest => if decide (ex_geometry e = g) then index :: places g (S index) rest else places g (S index) rest
  end.
Lemma geometry_matches_places g index p first newest count :
  geometry_matches g index p (first, newest, count)
  = (match first with Some f => Some f | None => head (places g index p) end,
     match last (places g index p) with Some l => Some l | None => newest end,
     count + Z.of_nat (length (places g index p))).
Proof.
  revert index first newest count. induction p as [|e p IH]; intros index first newest count; cbn.
  { rewrite Z.add_0_r. by destruct first. }
  destruct (decide (ex_geometry e = g)); rewrite IH; [|done]. f_equal; [f_equal|].
  - by destruct first.
  - change (index :: places g (S index) p) with ([index] ++ places g (S index) p). rewrite last_app.
    by destruct (last (places g (S index) p)).
  - cbn [length]. lia.
Qed.
Lemma places_spec g k p i : i ∈ places g k p <-> exists e, (k <= i)%nat /\ p !! (i - k)%nat = Some e /\ ex_geometry e = g.
Proof.
  revert k. induction p as [|e p IH]; intros k; cbn [places].
  - split; [by intros ?%not_elem_of_nil|]. by intros (x & _ & Hx & _).
  - assert (Hrec : i ∈ places g (S k) p <-> exists x, (k < i)%nat /\ (e :: p) !! (i - k)%nat = Some x /\ ex_geometry x = g).
    { rewrite IH. split; intros (x & H1 & H2 & H3); exists x.
      - replace (i - k)%nat with (S (i - S k)) by lia. by split; [lia|].
      - replace (i - k)%nat with (S (i - S k)) in H2 by lia. by split; [lia|]. }
    destruct (decide (ex_geometry e = g)) as [He|He]; [rewrite elem_of_cons|]; rewrite Hrec.
    + split; [intros [->|(x & ? & ?)]|].
      * exists e. rewrite Nat.sub_diag. by split; [lia|].
      * exists x. by split; [lia|].
      * intros (x & H1 & H2). destruct (decide (i = k)) as [->|]; [by left|right; exists x; by split; [lia|]].
    + split; intros (x & H1 & H2 & H3); exists x; [by split; [lia|]|]. split; [|done].
      destruct (decide (i = k)) as [->|]; [|lia]. rewrite Nat.sub_diag in H2. by injection H2 as ->.
Qed.
Lemma places_sorted g k p : StronglySorted lt (places g k p).
Proof.
  revert k. induction p as [|e p IH]; intros k; cbn; [constructor|]. destruct (decide _); [|done].
  apply StronglySorted_cons. split; [|done]. apply Forall_forall. intros i (x & H & _)%places_spec. lia.
Qed.
(** [hit g p i e]: the pending configure [e] at place [i] has the geometry. *)
Definition hit (g : X11Geometry) (p : list ExpectedConfigure) (i : nat) (e : ExpectedConfigure) : Prop :=
  p !! i = Some e /\ ex_geometry e = g.
(** The newest configure with the geometry is known to be processed, and no
    newer one is. *)
Definition proved (sequence : option Z) (p : list ExpectedConfigure) (i : nat) (e : ExpectedConfigure) : Prop :=
  both sequence_progress_reaches sequence (ex_cookie e) = true /\
  forall j x, (i < j)%nat -> p !! j = Some x -> both sequence_progress_reaches sequence (ex_cookie x) = false.
Definition newest_hit (g : X11Geometry) (p : list ExpectedConfigure) (i : nat) (e : ExpectedConfigure) : Prop :=
  hit g p i e /\ forall j x, hit g p j x -> (j <= i)%nat.
Definition match_spec (g : X11Geometry) (sequence : option Z) (p : list ExpectedConfigure) (m : PendingMatch) : Prop :=
  match m with
  | Matched i _ _ => exists e, newest_hit g p i e /\ ((forall j x, hit g p j x -> j = i) \/ proved sequence p i e)
  | PmAmbiguous _ => exists i e j x, newest_hit g p i e /\ hit g p j x /\ j <> i /\ ~ proved sequence p i e
  | PmSequenceOnly => (forall j x, ~ hit g p j x) /\ exists x, x ∈ p /\ both eq16 sequence (ex_cookie x) = true
  | PmNone => (forall j x, ~ hit g p j x) /\ forall x, x ∈ p -> both eq16 sequence (ex_cookie x) = false
  end.
Lemma elem_of_places g p i : i ∈ places g 0 p <-> exists e, hit g p i e.
Proof.
  rewrite places_spec. split; intros (e & H).
  - destruct H as (_ & H1 & H2). rewrite Nat.sub_0_r in H1. by exists e.
  - exists e. rewrite Nat.sub_0_r. split; [lia|]. apply H.
Qed.
Lemma existsb_elem {A} (f : A -> bool) l : existsb f l = true <-> exists x, x ∈ l /\ f x = true.
Proof. rewrite existsb_exists. by setoid_rewrite list_elem_of_In. Qed.
Lemma existsb_none {A} (f : A -> bool) l : existsb f l = false <-> forall x, x ∈ l -> f x = false.
Proof.
  rewrite <- not_true_iff_false, existsb_elem. split.
  - intros H x Hx. apply not_true_iff_false. intros Hf. apply H. by exists x.
  - intros H (x & Hx & Hf). by rewrite (H x Hx) in Hf.
Qed.
Lemma last_places_max g p i : last (places g 0 p) = Some i -> forall j x, hit g p j x -> (j <= i)%nat.
Proof.
  intros Hl j x Hx. assert (Hj : j ∈ places g 0 p) by (apply elem_of_places; by exists x).
  apply last_Some in Hl as [k Ek]. pose proof (places_sorted g 0 p) as Hs. rewrite Ek in Hs, Hj.
  apply StronglySorted_app in Hs as (Hs & _). apply elem_of_app in Hj as [Hj|Hj%list_elem_of_singleton]; [|lia].
  specialize (Hs j i Hj). assert (j < i)%nat; [|lia]. apply Hs. by left.
Qed.
(** Whether the newest configure with the geometry can be proved processed. *)
Lemma prove_newest g sequence p i e :
  newest_hit g p i e ->
  both sequence_progress_reaches sequence (ex_cookie e)
  && negb (existsb (fun e => bool_decide (ex_geometry e <> g) && both sequence_progress_reaches sequence (ex_cookie e))
             (drop (i + 1) p)) = true
  <-> proved sequence p i e.
Proof.
  intros [[Hi Hg] Hmax]. rewrite andb_true_iff, negb_true_iff, existsb_none. unfold proved.
  split; intros [H1 H2]; (split; [done|]).
  - intros j x Hj Hx. assert (Hd : x ∈ drop (i + 1) p).
    { apply (list_elem_of_lookup_2 _ (j - (i + 1))%nat). rewrite lookup_drop. by replace (i + 1 + (j - (i + 1)))%nat with j by lia. }
    specialize (H2 x Hd). apply andb_false_iff in H2 as [H2|H2]; [|done]. apply bool_decide_eq_false in H2.
    destruct (decide (ex_geometry x = g)) as [Hxg|]; [|done]. specialize (Hmax j x (conj Hx Hxg)). lia.
  - intros x Hx. apply list_elem_of_lookup_1 in Hx as [k Hk]. rewrite lookup_drop in Hk.
    rewrite (H2 (i + 1 + k)%nat x) by (done || lia). apply andb_false_r.
Qed.
Lemma pending_match_spec g sequence p : exists m, pending_match g sequence p = Ret m /\ match_spec g sequence p m.
Proof.
  unfold pending_match. rewrite geometry_matches_places. pose proof (elem_of_places g p) as Hel.
  pose proof (last_places_max g p) as Hmax. pose proof (places_sorted g 0 p) as Hso.
  destruct (places g 0 p) as [|i l] eqn:Ep; cbn [head length].
  { assert (Hno : forall j x, ~ hit g p j x).
    { intros j x Hx. apply (not_elem_of_nil j), Hel. by exists x. }
    cbn. destruct (existsb _ p) eqn:Ex; eexists; (split; [reflexivity|]); (split; [done|]).
    - apply existsb_elem in Ex. done.
    - by apply existsb_none. }
  destruct l as [|j l].
  - cbn. destruct (proj1 (Hel i)) as [e He]; [by left|]. rewrite (proj1 He). cbn.
    eexists. split; [reflexivity|]. exists e. assert (Hone : forall k x, hit g p k x -> k = i).
    { intros k x Hx. assert (Hk : k ∈ [i]) by (apply Hel; by exists x). by apply list_elem_of_singleton in Hk. }
    split; [split; [done|]|by left]. intros k x Hx. by rewrite (Hone k x Hx).
  - rewrite (proj2 (Z.eqb_neq _ _)) by (cbn [length]; lia). destruct (last (i :: j :: l)) as [n|] eqn:El.
    2: { by apply last_None in El. }
    destruct (proj1 (Hel n)) as [e He]; [by eapply last_Some_elem_of|].
    assert (Hn : newest_hit g p n e) by (split; [done|by apply Hmax]).
    cbn [expect mbind res_bind]. rewrite (proj1 He). cbn [expect mbind res_bind].
    pose proof (prove_newest g sequence p n e Hn) as Hpr.
    destruct (both _ _ _ && _); eexists; (split; [reflexivity|]).
    + exists e. split; [done|]. right. by apply Hpr.
    + assert (Hij : (i < j)%nat) by (apply StronglySorted_cons in Hso as [Hso _]; by apply Forall_cons in Hso as [? _]).
      destruct (proj1 (Hel i)) as [x Hx]; [by left|]. destruct (proj1 (Hel j)) as [y Hy]; [by right; left|].
      exists n, e, i, x. split; [done|]. split; [done|]. split.
      * pose proof (Hmax n eq_refl j y Hy). lia.
      * intros Hp. by apply Hpr in Hp.
Qed.

(** ** The invariant *)

Record TimelineInv (t : WindowConfigureTimeline) : Prop := {
  ti_epoch : 0 <= tl_next_epoch t <= u64_max;
  ti_sorted : StronglySorted Z.lt (epochs (tl_pending t) (tl_retired t));
  ti_bound : forall e, e ∈ epochs (tl_pending t) (tl_retired t) -> 1 <= e <= tl_next_epoch t;
  ti_pending : (length (tl_pending t) <= CONFIGURE_HISTORY_LIMIT)%nat;
  ti_retired : (length (tl_retired t) <= CONFIGURE_HISTORY_LIMIT)%nat;
  (** The newest configure is pending, or the window has the desired geometry. *)
  ti_newest :
    match last (tl_pending t) with
    | Some e => ex_epoch e = tl_next_epoch t /\ ex_geometry e = tl_desired t
    | None => tl_next_epoch t = 0 \/ tl_acknowledged t = Some (tl_desired t)
    end
}.
Lemma timeline_new_inv g : TimelineInv (timeline_new g).
Proof.
  split; cbn; [unfold u64_max; lia|constructor|by intros e ?%not_elem_of_nil|lia|lia|by left].
Qed.
Lemma sorted_pending t : TimelineInv t -> StronglySorted Z.lt (ex_epoch <$> tl_pending t).
Proof. intros H. by eapply StronglySorted_app_1_r, ti_sorted. Qed.
Lemma last_drop {A} k (l : list A) : (k < length l)%nat -> last (drop k l) = last l.
Proof.
  intros Hk. rewrite <- (take_drop k l) at 2. rewrite last_app. destruct (last (drop k l)) eqn:E; [done|].
  apply last_None, (f_equal length) in E. rewrite length_drop in E. cbn in E. lia.
Qed.
Lemma record_inv g fields source cookie t :
  TimelineInv t -> tl_next_epoch t < u64_max ->
  TimelineInv (record g fields source cookie t).1 /\
  ex_epoch (record g fields source cookie t).2 = tl_next_epoch t + 1 /\
  sublist (epochs (tl_pending (record g fields source cookie t).1) (tl_retired (record g fields source cookie t).1))
    (epochs (tl_pending t) (tl_retired t) ++ [tl_next_epoch t + 1]).
Proof.
  intros [[E1 E2] So B P R N] Hlt. unfold record.
  assert (Ee : Z.max (sat_add u64_max (tl_next_epoch t) 1) 1 = tl_next_epoch t + 1) by (unfold sat_add; lia).
  rewrite Ee. set (x := mkExpected (tl_next_epoch t + 1) g fields source cookie).
  rewrite trim_pending_spec. set (q := tl_pending t ++ [x]). set (k := (length q - CONFIGURE_HISTORY_LIMIT)%nat). cbn.
  assert (Hsub : sublist (epochs (drop k q) (retire_all (take k q) (tl_retired t)))
                   (epochs (tl_pending t) (tl_retired t) ++ [tl_next_epoch t + 1])).
  { etrans; [apply retire_all_epochs|]. rewrite take_drop. unfold epochs, q. rewrite fmap_app, app_assoc. done. }
  assert (Hs : StronglySorted Z.lt (epochs (tl_pending t) (tl_retired t) ++ [tl_next_epoch t + 1])).
  { apply StronglySorted_app. split; [|split; [done|repeat constructor]].
    intros y z Hy Hz. apply list_elem_of_singleton in Hz as ->. specialize (B y Hy). lia. }
  assert (Hq : (0 < CONFIGURE_HISTORY_LIMIT)%nat) by (unfold CONFIGURE_HISTORY_LIMIT; lia).
  assert (Hlq : length q = S (length (tl_pending t))) by (unfold q; rewrite length_app; cbn; lia).
  split; [|split; [done|done]]. split; cbn.
  - unfold u64_max in *. lia.
  - by eapply StronglySorted_sublist.
  - intros y Hy. assert (Hin : y ∈ epochs (tl_pending t) (tl_retired t) ++ [tl_next_epoch t + 1]) by (by eapply elem_of_sublist).
    apply elem_of_app in Hin as [Hin|Hin]; [specialize (B y Hin); lia|]. apply list_elem_of_singleton in Hin. lia.
  - rewrite length_drop. unfold k. lia.
  - by apply retire_all_length.
  - rewrite last_drop by (unfold k; lia). unfold q. by rewrite last_snoc.
Qed.
(** What an answer does: on a match the configures sent later stay pending, in
    every other case the queues stay as they are. *)
Definition acknowledges (c : ConfigureNotifyClassification) : bool :=
  match c with ExpectedCurrent | ExpectedOlder | ExpectedCoalesced => true | _ => false end.
Definition notify_spec (g : X11Geometry) (sequence : option Z) (t t' : WindowConfigureTimeline)
  (n : ConfigureNotifyResult) : Prop :=
  tl_next_epoch t' = tl_next_epoch t /\ tl_desired t' = tl_desired t /\ nr_geometry n = g /\
  if acknowledges (nr_classification n) then
    exists p1 e p2, tl_pending t = p1 ++ e :: p2 /\ newest_hit g (tl_pending t) (length p1) e /\
      ((forall j x, hit g (tl_pending t) j x -> j = length p1) \/ proved sequence (tl_pending t) (length p1) e) /\
      nr_epoch n = Some (ex_epoch e) /\ tl_acknowledged t' = Some g /\ tl_pending t' = p2 /\
      tl_retired t' = retire_all p1 (tl_retired t) /\
      nr_classification n = (if decide (p2 = []) then if decide (p1 = []) then ExpectedCurrent else ExpectedCoalesced
                             else ExpectedOlder)
  else tl_pending t' = tl_pending t /\ tl_retired t' = tl_retired t /\ tl_acknowledged t' = tl_acknowledged t.
Lemma notify_exact g sequence authority t :
  TimelineInv t -> exists t' n, notify g sequence authority t = Ret (t', n) /\ notify_spec g sequence t t' n.
Proof.
  intros H. unfold notify. destruct (pending_match_spec g sequence (tl_pending t)) as (m & -> & Hm). cbn [mbind res_bind].
  destruct m as [i conflict wrap| |conflict|].
  - destruct Hm as (e & Hn & Hor). pose proof (proj1 (proj1 Hn)) as Hi.
    destruct (list_elem_of_split_length _ _ _ Hi) as (p1 & p2 & Ep & Ei). rewrite Hi. cbn [expect mbind res_bind].
    assert (Ed : delete i (tl_pending t) = p1 ++ p2).
    { rewrite Ep, Ei. rewrite delete_middle. done. }
    rewrite Ed. pose proof (sorted_pending t H) as Hs. rewrite Ep in Hs. rewrite (retire_older_spec p1 e p2 _ Hs).
    eexists _, _. split; [reflexivity|]. split; [done|]. split; [done|]. split; [done|]. cbn [nr_classification].
    assert (Hcur : bool_decide (i + 1 = length (tl_pending t))%nat = bool_decide (p2 = [])).
    { apply bool_decide_ext. rewrite Ep, length_app, Ei. cbn. destruct p2; cbn; split; intros; try done; lia. }
    rewrite Hcur. replace (acknowledges _) with true.
    2: { repeat case_bool_decide; done. }
    exists p1, e, p2. rewrite <- Ei. split_and!; try done.
    + cbn. f_equal. apply Hn.
    + cbn. destruct p1, p2; done.
  - destruct (bool_decide _); eexists _, _; (split; [reflexivity|]); by split_and!.
  - eexists _, _. split; [reflexivity|]. by split_and!.
  - destruct (retired_matches g sequence (tl_retired t)) as [[count epoch] cookie].
    destruct (0 <? count), cookie, (bool_decide _); eexists _, _; (split; [reflexivity|]); by split_and!.
Qed.
(** It needs no invariant to be handled. *)
Lemma notify_returns g sequence authority t : returns (notify g sequence authority t).
Proof.
  unfold notify. destruct (pending_match_spec g sequence (tl_pending t)) as (m & -> & Hm). cbn [mbind res_bind].
  destruct m as [i conflict wrap| |conflict|]; try by eexists.
  - destruct Hm as (e & Hn & _). rewrite (proj1 (proj1 Hn)). cbn [expect mbind res_bind].
    destruct (retire_older _ _ _) as [[p r] coalesced]. by eexists.
  - destruct (retired_matches g sequence (tl_retired t)) as [[count epoch] cookie].
    destruct (0 <? count), cookie, (bool_decide _); by eexists.
Qed.
Lemma notify_inv g sequence t t' n : TimelineInv t -> notify_spec g sequence t t' n -> TimelineInv t'.
Proof.
  intros [E So B P R N] (Ee & Ed & Eg & H). destruct (acknowledges (nr_classification n)).
  - destruct H as (p1 & e & p2 & Ep & Hn & _ & _ & Ha & Ep' & Er & _).
    assert (Hsub : sublist (epochs (tl_pending t') (tl_retired t')) (epochs (tl_pending t) (tl_retired t))).
    { rewrite Ep', Er, Ep. etrans; [apply retire_all_epochs|]. unfold epochs. apply sublist_app; [done|].
      apply sublist_map, sublist_app; [done|]. by constructor. }
    split.
    + by rewrite Ee.
    + by eapply StronglySorted_sublist.
    + intros x Hx. rewrite Ee. apply B. by eapply elem_of_sublist.
    + rewrite Ep'. rewrite Ep, length_app in P. cbn in P. lia.
    + rewrite Er. by apply retire_all_length.
    + rewrite Ep', Ee, Ed, Ha. rewrite Ep, last_app in N. destruct p2 as [|y p2].
      * cbn in N |- *. right. f_equal. destruct N as [_ <-]. symmetry. apply Hn.
      * rewrite last_cons_cons in N. destruct (last (y :: p2)) eqn:El; [done|]. by apply last_None in El.
  - destruct H as (Ep & Er & Ea). split; rewrite ?Ep, ?Er, ?Ea, ?Ee, ?Ed; done.
Qed.

(** ** Histories *)

(** A window over time: configures are recorded while epochs last, answers come
    in any order; [acks] are the epochs that were acknowledged. *)
Inductive Timeline : WindowConfigureTimeline -> list Z -> Prop :=
| tl_start g : Timeline (timeline_new g) []
| tl_record g fields source cookie t acks :
    Timeline t acks -> tl_next_epoch t < u64_max -> Timeline (record g fields source cookie t).1 acks
| tl_notify g sequence authority t t' n acks :
    Timeline t acks -> notify g sequence authority t = Ret (t', n) ->
    Timeline t' (if acknowledges (nr_classification n) then acks ++ option_list (nr_epoch n) else acks).
Definition acks_ok (t : WindowConfigureTimeline) (acks : list Z) : Prop :=
  StronglySorted Z.lt acks /\ forall a, a ∈ acks -> a <= tl_next_epoch t /\ forall e, e ∈ tl_pending t -> a < ex_epoch e.
Lemma timeline_inv t acks : Timeline t acks -> TimelineInv t /\ acks_ok t acks.
Proof.
  induction 1 as [g|g fields source cookie t acks _ [IH [A1 A2]] Hlt|g sequence authority t t' n acks _ [IH [A1 A2]] E].
  - split; [apply timeline_new_inv|]. split; [constructor|]. by intros a ?%not_elem_of_nil.
  - destruct (record_inv g fields source cookie t IH Hlt) as (H1 & H2 & H3). split; [done|]. split; [done|].
    intros a Ha. destruct (A2 a Ha) as [A3 A4].
    assert (En : tl_next_epoch (record g fields source cookie t).1 = tl_next_epoch t + 1).
    { pose proof (ti_epoch t IH). unfold record. destruct (trim_pending _ _). cbn. unfold sat_add. lia. }
    rewrite En. split; [lia|]. intros e He.
    assert (Hin : ex_epoch e ∈ (ex_epoch <$> tl_pending t) ++ [tl_next_epoch t + 1]).
    { unfold record in He. rewrite trim_pending_spec in He. cbn in He.
      assert (He' : e ∈ tl_pending t ++ [mkExpected (Z.max (sat_add u64_max (tl_next_epoch t) 1) 1) g fields source cookie]).
      { eapply elem_of_sublist; [done|apply sublist_drop]. }
      apply elem_of_app in He' as [He'|He']; apply elem_of_app; [left; by apply list_elem_of_fmap_2|right].
      apply list_elem_of_singleton in He' as ->. cbn. pose proof (ti_epoch t IH).
      apply list_elem_of_singleton. unfold sat_add. lia. }
    apply elem_of_app in Hin as [Hin|Hin].
    + apply list_elem_of_fmap in Hin as (x & -> & Hx). by apply A4.
    + apply list_elem_of_singleton in Hin as ->. lia.
  - destruct (notify_exact g sequence authority t IH) as (t1 & n1 & E1 & Hs). rewrite E in E1. injection E1 as <- <-.
    split; [by eapply notify_inv|]. destruct Hs as (Ee & Ed & Eg & Hs). unfold acks_ok. rewrite Ee.
    destruct (acknowledges (nr_classification n)).
    + destruct Hs as (p1 & e & p2 & Ep & _ & _ & -> & _ & -> & _). cbn.
      assert (He : e ∈ tl_pending t) by (rewrite Ep; apply elem_of_app; right; by left).
      assert (Hp2 : forall x, x ∈ p2 -> ex_epoch e < ex_epoch x).
      { intros x Hx. pose proof (sorted_pending t IH) as Hs. rewrite Ep, fmap_app, fmap_cons in Hs.
        apply StronglySorted_app_1_r, StronglySorted_cons in Hs as [Hs _]. eapply Forall_forall; [done|].
        by apply list_elem_of_fmap_2. }
      split.
      * apply StronglySorted_app. split; [|split; [done|repeat constructor]].
        intros a b Ha Hb. apply list_elem_of_singleton in Hb as ->. by apply (A2 a Ha).
      * intros a Ha. apply elem_of_app in Ha as [Ha|Ha].
        -- destruct (A2 a Ha) as [A3 A4]. split; [done|]. intros x Hx. apply A4. rewrite Ep. apply elem_of_app. right. by right.
        -- apply list_elem_of_singleton in Ha as ->. split; [|done].
           apply (ti_bound t IH). apply elem_of_app. right. by apply list_elem_of_fmap_2.
    + destruct Hs as (-> & _). done.
Qed.

(** ** Sixteen bits *)

Lemma low16_range z : 0 <= low16 z < 2 ^ 16.
Proof. apply Z.mod_pos_bound. lia. Qed.
Lemma distance16 p c :
  - 2 ^ 15 < p - c < 2 ^ 15 -> wrapping_sub16 (low16 p) (low16 c) = if c <=? p then p - c else p - c + 2 ^ 16.
Proof.
  intros H. unfold wrapping_sub16, low16. rewrite <- Zminus_mod. destruct (Z.leb_spec c p).
  - apply Z.mod_small. lia.
  - rewrite <- (Z.mod_add (p - c) 1) by lia. apply Z.mod_small. lia.
Qed.

(** ** Counters *)

(** The counters of which each answer moves exactly one. *)
Definition classes (m : ConfigureTimelineMetrics) : list Z :=
  [cm_expected_current m; cm_expected_older m; cm_coalesced m; cm_stale_ignored m; cm_external_applied m;
   cm_unknown_preserved m; cm_sequence_only_rejected m; cm_ambiguous_identical m; cm_retired_ambiguous m].
Definition total (l : list Z) : Z := fold_right Z.add 0 l.
Ltac eval_classes :=
  repeat match goal with |- context [bool_decide (?a = ?b)] =>
    let v := eval vm_compute in (bool_decide (a = b)) in change (bool_decide (a = b)) with v
  end.
Lemma count_notify_classes n m k :
  0 <= k < u64_max -> Forall (fun z => 0 <= z <= k) (classes m) -> 0 <= cm_rollbacks_prevented m <= k ->
  total (classes (count_notify n m)) = total (classes m) + 1 /\
  Forall (fun z => 0 <= z <= k + 1) (classes (count_notify n m)) /\ 0 <= cm_rollbacks_prevented (count_notify n m) <= k + 1 /\
  (total (classes m) = cm_expected_current m + cm_external_applied m + cm_rollbacks_prevented m ->
   total (classes (count_notify n m)) = cm_expected_current (count_notify n m) + cm_external_applied (count_notify n m)
     + cm_rollbacks_prevented (count_notify n m)).
Proof.
  intros Hk Hf Hr. unfold classes in *. rewrite !Forall_cons in Hf. destruct Hf as (H1 & H2 & H3 & H4 & H5 & H6 & H7 & H8 & H9 & _).
  unfold count_notify. destruct (nr_classification n); cbn -[Z.add u64_max]; eval_classes;
    unfold inc_if, inc, sat_add; repeat rewrite Z.min_r by lia; (split; [lia|]; split; [repeat constructor; lia|]; split; lia).
Qed.

(** ** Properties *)

(** C22: over every sequence of configures and answers of a window, while its
    epochs last: at most 32 configures are pending and 32 are remembered as
    retired; their epochs increase, retired before pending; the newest configure
    is still pending, or the window acknowledged the desired geometry; every
    answer is handled without a panic; and the epochs that are acknowledged
    strictly increase and are older than everything still pending, so an answer
    never rolls the window back to an older configure. *)
Theorem timeline_never_rolls_back t acks :
  Timeline t acks ->
  TimelineInv t /\ StronglySorted Z.lt acks /\
  (forall a e, a ∈ acks -> e ∈ tl_pending t -> a < ex_epoch e) /\
  forall g sequence authority, returns (notify g sequence authority t).
Proof.
  intros H. destruct (timeline_inv t acks H) as [Hi [H1 H2]]. split; [done|]. split; [done|]. split.
  - intros a e Ha He. by apply (H2 a Ha).
  - intros g sequence authority. destruct (notify_exact g sequence authority t Hi) as (t' & n & -> & _).
    by exists (t', n).
Qed.

(** An answer acknowledges a pending configure only if it carries exactly
    its geometry, and that configure is the only pending one with it, or the
    newest with it of which the sequence number proves that the server has
    processed it and nothing newer; then the configures sent before are
    retired in order, those sent after stay pending, and the class says whether
    it was the newest and whether others were skipped. Every other answer
    leaves the queues and the acknowledged geometry alone. *)
Theorem notify_matches_exactly g sequence authority t acks :
  Timeline t acks -> exists t' n, notify g sequence authority t = Ret (t', n) /\ notify_spec g sequence t t' n.
Proof. intros H. by apply notify_exact, (timeline_inv t acks). Qed.

(** Comparing sequence numbers by their low 16 bits is exact while the two
    requests are less than half the ring apart: the progress reaches a request
    exactly when it is not before it, and the wrap flag tells exactly whether
    the 16-bit counter turned over in between. *)
Theorem sequence_comparison_exact p c :
  0 <= p -> 0 <= c -> - 2 ^ 15 < p - c < 2 ^ 15 ->
  sequence_progress_reaches (low16 p) c = (c <=? p) /\
  sequence_progress_wrapped (low16 p) c = (c <? p) && (c / 2 ^ 16 <? p / 2 ^ 16).
Proof.
  intros Hp Hc H. unfold sequence_progress_reaches, sequence_progress_wrapped, sequence16_is_after, sequence16_eq.
  rewrite distance16 by done. pose proof (low16_range p). pose proof (low16_range c). unfold low16 in *.
  pose proof (Z.div_mod p (2 ^ 16) ltac:(lia)). pose proof (Z.div_mod c (2 ^ 16) ltac:(lia)).
  unfold sat_add, u32_max. split.
  - destruct (Z.eqb_spec (c mod 2 ^ 16) (p mod 2 ^ 16)), (Z.leb_spec c p); zcase; done.
  - destruct (Z.leb_spec c p); zcase; done.
Qed.

(** Counters: as long as none is full, every answer moves exactly one of the
    nine class counters, so their sum is the number of answers, and each answer
    was the expected one, was applied as external, or is counted as a
    prevented rollback. *)
Theorem notifies_counted_once rs :
  Z.of_nat (length rs) <= u64_max ->
  let m := fold_left (fun m n => count_notify n m) rs metrics_default in
  total (classes m) = Z.of_nat (length rs) /\
  total (classes m) = cm_expected_current m + cm_external_applied m + cm_rollbacks_prevented m.
Proof.
  intros Hlen m. cut (total (classes m) = Z.of_nat (length rs) /\
    Forall (fun z => 0 <= z <= Z.of_nat (length rs)) (classes m) /\ 0 <= cm_rollbacks_prevented m <= Z.of_nat (length rs) /\
    total (classes m) = cm_expected_current m + cm_external_applied m + cm_rollbacks_prevented m); [tauto|].
  unfold m. clear m. induction rs as [|n rs IH] using rev_ind.
  - cbn. split; [done|]. split; [|lia]. apply Forall_forall. intros z Hz.
    assert (z ∈ [0; 0; 0; 0; 0; 0; 0; 0; 0]) as Hz0 by exact Hz. set_unfold in Hz0. lia.
  - rewrite fold_left_app, length_app in *. cbn [fold_left length] in *.
    destruct IH as (H1 & H2 & H3 & H4); [lia|].
    destruct (count_notify_classes n _ (Z.of_nat (length rs)) ltac:(lia) H2 H3) as (K1 & K2 & K3 & K4).
    rewrite K1, H1. replace (Z.of_nat (length rs + 1)) with (Z.of_nat (length rs) + 1) by lia.
    split; [done|]. split; [done|]. split; [done|]. rewrite <- H1, <- K1. by apply K4.
Qed.

(** *** Witnesses *)

Definition demo_flags : X11ConfigureFlags := mkFlags true true true true true false false.
Definition demo_geometry (w : Z) : X11Geometry := mkGeo 0 0 w 600.
(** Three resizes are sent; the answer to the second arrives, then the third. *)
Definition demo_sent : WindowConfigureTimeline :=
  (record (demo_geometry 820) demo_flags ResizeSync (Some 65537)
    (record (demo_geometry 810) demo_flags ResizeSync (Some 65535)
      (record (demo_geometry 800) demo_flags Compositor (Some 65530) (timeline_new (demo_geometry 640))).1).1).1.
Lemma demo_sent_timeline : Timeline demo_sent [].
Proof. unfold demo_sent. repeat (apply tl_record; [|vm_compute; reflexivity]). apply tl_start. Qed.
Definition demo_answered : WindowConfigureTimeline :=
  match notify (demo_geometry 810) (Some 0) CompositorManaged demo_sent with Ret (t, _) => t | _ => demo_sent end.
Lemma demo_answered_timeline : Timeline demo_answered [2].
Proof.
  apply (tl_notify (demo_geometry 810) (Some 0) CompositorManaged demo_sent demo_answered
    (mkResult ExpectedOlder (Some 2) (demo_geometry 810) false true 0 false false) [] demo_sent_timeline).
  vm_compute. reflexivity.
Qed.
Lemma timeline_never_rolls_back_witness :
  TimelineInv demo_answered /\ StronglySorted Z.lt [2] /\ ex_epoch <$> tl_pending demo_answered = [3].
Proof.
  destruct (timeline_never_rolls_back demo_answered [2] demo_answered_timeline) as (H1 & H2 & _).
  split; [exact H1|]. split; [exact H2|]. vm_compute. reflexivity.
Defined.
Lemma notify_matches_exactly_witness :
  exists t' n, notify (demo_geometry 820) (Some 1) CompositorManaged demo_answered = Ret (t', n) /\
    notify_spec (demo_geometry 820) (Some 1) demo_answered t' n.
Proof. exact (notify_matches_exactly (demo_geometry 820) (Some 1) CompositorManaged demo_answered [2] demo_answered_timeline). Defined.
Lemma sequence_comparison_exact_witness :
  sequence_progress_reaches (low16 65540) 65530 = true /\ sequence_progress_wrapped (low16 65540) 65530 = true.
Proof. apply (sequence_comparison_exact 65540 65530); vm_compute; try split; congruence. Defined.
Lemma notifies_counted_once_witness :
  total (classes (fold_left (fun m n => count_notify n m)
    [plain_result ExternalAuthoritative (demo_geometry 1); plain_result UnknownPreserved (demo_geometry 2)] metrics_default)) = 2.
Proof.
  destruct (notifies_counted_once
    [plain_result ExternalAuthoritative (demo_geometry 1); plain_result UnknownPreserved (demo_geometry 2)]) as [H _];
    [vm_compute; congruence|exact H].
Defined.
