(* ===== verification/AssociationJoin.v ===== *)
(** * AssociationJoin: pairing X11 windows with Wayland surfaces

    Models the two halves of the association of an Xwayland window with its
    surface: the registry of serials that surfaces commit
    (src/xwayland/association.rs) and the join of those with the serials that
    windows announce (src/xwayland/xwm/association.rs). Both sides name a pair
    by a serial; a window is complete when its serial has a surface.

    A handle carries its generation above the 32 bits of the window id, a
    registry key its generation above the 64 bits of the serial, so that both
    are the keys of the maps as they are in the code. *)

From stdpp Require Import base list option gmap.
From Stdlib Require Import ZArith Lia.
From S2P Require Import Prelude.

Definition handle_new (generation xid : Z) : Z := generation * 2 ^ 32 + xid.
Definition handle_generation (h : Z) : Z := h / 2 ^ 32.
Definition handle_xid (h : Z) : Z := h mod 2 ^ 32.
Definition serial_key (generation serial : Z) : Z := generation * 2 ^ 64 + serial.
Definition key_generation (k : Z) : Z := k / 2 ^ 64.

(** ** The serials surfaces commit *)

Record SurfaceAssociation : Type := mkSurfaceAssociation { sa_generation : Z; sa_serial : Z; sa_surface_id : Z }.
#[export] Instance SurfaceAssociation_eq_dec : EqDecision SurfaceAssociation.
Proof. solve_decision. Defined.
Inductive AssociationError : Type := SerialAlreadyAssociated | SurfaceAlreadyAssociated.
Inductive XwaylandAssociationEvent : Type :=
| EvCommitted (generation serial surface_id : Z)
| EvRemoved (generation serial surface_id : Z).
Record AssociationRegistry : Type := mkRegistry {
  by_serial : gmap Z SurfaceAssociation; by_surface : gmap Z Z; reg_events : list XwaylandAssociationEvent
}.
Definition registry_new : AssociationRegistry := mkRegistry ∅ ∅ [].
Definition commit_surface_serial (generation serial surface_id : Z) (r : AssociationRegistry)
  : res AssociationError AssociationRegistry :=
  if decide (is_Some (by_serial r !! serial_key generation serial)) then Fail SerialAlreadyAssociated
  else if decide (is_Some (by_surface r !! surface_id)) then Fail SurfaceAlreadyAssociated
  else Ret (mkRegistry
              (<[serial_key generation serial := mkSurfaceAssociation generation serial surface_id]> (by_serial r))
              (<[surface_id := serial_key generation serial]> (by_surface r))
              (reg_events r ++ [EvCommitted generation serial surface_id])).
Definition surface_for_serial (generation serial : Z) (r : AssociationRegistry) : option Z :=
  sa_surface_id <$> by_serial r !! serial_key generation serial.
Definition serial_for_surface (surface_id : Z) (r : AssociationRegistry) : option Z := by_surface r !! surface_id.
Definition remove_surface (surface_id : Z) (r : AssociationRegistry) : AssociationRegistry :=
  match by_surface r !! surface_id with
  | None => r
  | Some key =>
      mkRegistry (delete key (by_serial r)) (delete surface_id (by_surface r))
        (reg_events r ++ [EvRemoved (key_generation key) (key mod 2 ^ 64) surface_id])
  end.
Definition registry_clear_generation `{HashOrder} (generation : Z) (r : AssociationRegistry) : AssociationRegistry :=
  fold_left (fun r surface => remove_surface surface r)
    (omap (fun key => if key_generation key =? generation then sa_surface_id <$> by_serial r !! key else None)
       (hash_keys (by_serial r))) r.
Definition registry_take_events (r : AssociationRegistry) : list XwaylandAssociationEvent * AssociationRegistry :=
  (reg_events r, mkRegistry (by_serial r) (by_surface r) []).

(** ** The join with the serials windows announce *)

Record WaylandAssociation : Type := mkWayland { wa_generation : Z; wa_surface_id : Z }.
Record X11Association : Type := mkX11 { xa_window : Z; xa_map_serial : Z }.
Record AssociatedSurface : Type := mkAssociated {
  as_generation : Z; as_serial : Z; as_surface_id : Z; as_map_serial : Z
}.
#[export] Instance AssociatedSurface_eq_dec : EqDecision AssociatedSurface.
Proof. solve_decision. Defined.
Inductive SurfaceAssociationJoinError : Type :=
  InvalidSerial | DuplicateWaylandSerial | DuplicateWaylandSurface | DuplicateX11Serial | X11Reassociation
| GenerationMismatch.
Inductive XwmAssociationEvent : Type :=
| JoinAssociated (generation window surface_id : Z)
| JoinRemoved (generation window surface_id : Z).
Record SurfaceAssociationJoin : Type := mkJoin {
  wayland_by_serial : gmap Z WaylandAssociation; x11_by_serial : gmap Z X11Association;
  serial_by_x11 : gmap Z Z; completed : gmap Z AssociatedSurface; join_events : list XwmAssociationEvent
}.
Definition join_new : SurfaceAssociationJoin := mkJoin ∅ ∅ ∅ ∅ [].
(** An operation changes the join also when it reports an error; a failed
    debug assertion is a panic. *)
Abbreviation joined := (SurfaceAssociationJoin * option SurfaceAssociationJoinError)%type.
Definition complete_if_ready (serial : Z) (j : SurfaceAssociationJoin) : joined :=
  match wayland_by_serial j !! serial, x11_by_serial j !! serial with
  | Some wayland, Some x11 =>
      let window := xa_window x11 in
      if decide (wa_generation wayland <> handle_generation window) then
        (mkJoin (delete serial (wayland_by_serial j)) (delete serial (x11_by_serial j))
           (delete window (serial_by_x11 j)) (completed j) (join_events j), Some GenerationMismatch)
      else if decide (is_Some (completed j !! window)) then (j, None)
      else
        let a := mkAssociated (wa_generation wayland) serial (wa_surface_id wayland) (xa_map_serial x11) in
        (mkJoin (wayland_by_serial j) (x11_by_serial j) (serial_by_x11 j) (<[window := a]> (completed j))
           (join_events j ++ [JoinAssociated (as_generation a) window (as_surface_id a)]), None)
  | _, _ => (j, None)
  end.
Section Operations.
Context {order : HashOrder}.
(** The serial of a surface, in the order of the hash map. *)
Definition serial_of_surface (surface_id : Z) (j : SurfaceAssociationJoin) : option Z :=
  snd <$> list_find (fun k => wa_surface_id <$> wayland_by_serial j !! k = Some surface_id)
            (hash_keys (wayland_by_serial j)).
Definition commit_wayland (generation serial surface_id : Z) (j : SurfaceAssociationJoin) : joined :=
  if decide (is_Some (wayland_by_serial j !! serial)) then (j, Some DuplicateWaylandSerial)
  else if decide (is_Some (serial_of_surface surface_id j)) then (j, Some DuplicateWaylandSurface)
  else complete_if_ready serial
         (mkJoin (<[serial := mkWayland generation surface_id]> (wayland_by_serial j)) (x11_by_serial j)
            (serial_by_x11 j) (completed j) (join_events j)).
Definition note_x11_serial_for_map (window serial map_serial : Z) (j : SurfaceAssociationJoin) : res Empty_set joined :=
  if decide (is_Some (x11_by_serial j !! serial)) then
    Ret (if decide (serial_by_x11 j !! window = Some serial) then complete_if_ready serial j
         else (j, Some DuplicateX11Serial))
  else
    let add c := complete_if_ready serial
      (mkJoin (wayland_by_serial j) (<[serial := mkX11 window map_serial]> (x11_by_serial j))
         (<[window := serial]> (serial_by_x11 j)) c (join_events j)) in
    match serial_by_x11 j !! window with
    | Some previous =>
        if decide (is_Some (x11_by_serial j !! previous)) then Ret (add (delete window (completed j))) else Panic
    | None => Ret (add (completed j))
    end.
Definition remove_wayland_surface (surface_id : Z) (j : SurfaceAssociationJoin) : SurfaceAssociationJoin :=
  match serial_of_surface surface_id j with
  | None => j
  | Some serial =>
      let w := delete serial (wayland_by_serial j) in
      match x11_by_serial j !! serial with
      | None => mkJoin w (x11_by_serial j) (serial_by_x11 j) (completed j) (join_events j)
      | Some x11 =>
          let x := delete serial (x11_by_serial j) in
          let window := xa_window x11 in
          if decide (serial_by_x11 j !! window = Some serial) then
            let by_x11 := delete window (serial_by_x11 j) in
            match completed j !! window with
            | Some a => mkJoin w x by_x11 (delete window (completed j))
                          (join_events j ++ [JoinRemoved (as_generation a) window (as_surface_id a)])
            | None => mkJoin w x by_x11 (completed j) (join_events j)
            end
          else mkJoin w x (serial_by_x11 j) (completed j) (join_events j)
      end
  end.
(** Every serial the window announced goes, with the surface of each. *)
Definition serials_of_window (window : Z) (j : SurfaceAssociationJoin) : list Z :=
  base.filter (fun k => xa_window <$> x11_by_serial j !! k = Some window) (hash_keys (x11_by_serial j)).
Definition drop_serials (serials : list Z) (j : SurfaceAssociationJoin) : SurfaceAssociationJoin :=
  fold_left (fun j serial => mkJoin (delete serial (wayland_by_serial j)) (delete serial (x11_by_serial j))
                               (serial_by_x11 j) (completed j) (join_events j)) serials j.
Definition remove_x11_window (window : Z) (j : SurfaceAssociationJoin) : SurfaceAssociationJoin :=
  let j := mkJoin (wayland_by_serial j) (x11_by_serial j) (delete window (serial_by_x11 j)) (completed j)
             (join_events j) in
  let j := drop_serials (serials_of_window window j) j in
  match completed j !! window with
  | Some a => mkJoin (wayland_by_serial j) (x11_by_serial j) (serial_by_x11 j) (delete window (completed j))
                (join_events j ++ [JoinRemoved (as_generation a) window (as_surface_id a)])
  | None => j
  end.
Definition join_clear_generation (generation : Z) (j : SurfaceAssociationJoin) : SurfaceAssociationJoin :=
  let j := fold_left (fun j window => remove_x11_window window j)
             (base.filter (fun w => handle_generation w = generation) (hash_keys (serial_by_x11 j))) j in
  drop_serials (base.filter (fun k => wa_generation <$> wayland_by_serial j !! k = Some generation)
                  (hash_keys (wayland_by_serial j))) j.
Definition join_take_events (j : SurfaceAssociationJoin) : list XwmAssociationEvent * SurfaceAssociationJoin :=
  (join_events j, mkJoin (wayland_by_serial j) (x11_by_serial j) (serial_by_x11 j) (completed j) []).
End Operations.

(** ** Keys *)

Lemma handle_generation_new g xid : 0 <= xid < 2 ^ 32 -> handle_generation (handle_new g xid) = g.
Proof. intros H. unfold handle_generation, handle_new. rewrite Z.div_add_l by lia. rewrite Z.div_small by done. lia. Qed.
Lemma serial_key_split g s : 0 <= s < 2 ^ 64 -> key_generation (serial_key g s) = g /\ serial_key g s mod 2 ^ 64 = s.
Proof.
  intros H. unfold key_generation, serial_key. rewrite Z.div_add_l by lia. rewrite Z.div_small by done.
  rewrite (Z.add_comm _ s), Z.mod_add by lia. rewrite Z.mod_small by done. lia.
Qed.
Lemma serial_key_inj g s g' s' :
  0 <= s < 2 ^ 64 -> 0 <= s' < 2 ^ 64 -> serial_key g s = serial_key g' s' -> g = g' /\ s = s'.
Proof.
  intros H H' E. destruct (serial_key_split g s H) as [E1 E2], (serial_key_split g' s' H') as [E3 E4].
  rewrite E in E1, E2. split; congruence.
Qed.

(** ** The invariant of the join *)

Record JoinInv (j : SurfaceAssociationJoin) : Prop := {
  (** The serial of a window is one it announced. *)
  ji_current : forall w s, serial_by_x11 j !! w = Some s -> xa_window <$> x11_by_serial j !! s = Some w;
  ji_surfaces : forall s s' f, wa_surface_id <$> wayland_by_serial j !! s = Some f ->
    wa_surface_id <$> wayland_by_serial j !! s' = Some f -> s = s';
  ji_generations : forall s wl x, wayland_by_serial j !! s = Some wl -> x11_by_serial j !! s = Some x ->
    wa_generation wl = handle_generation (xa_window x)
}.
(** What the join means: the current serial of a window has a surface. *)
Definition joins (j : SurfaceAssociationJoin) (w : Z) (a : AssociatedSurface) : Prop :=
  exists s wl x, serial_by_x11 j !! w = Some s /\ wayland_by_serial j !! s = Some wl /\ x11_by_serial j !! s = Some x /\
    a = mkAssociated (wa_generation wl) s (wa_surface_id wl) (xa_map_serial x).
Definition exact_at (w : Z) (j : SurfaceAssociationJoin) : Prop := forall a, completed j !! w = Some a <-> joins j w a.
Definition Exact (j : SurfaceAssociationJoin) : Prop := forall w, exact_at w j.

Lemma join_new_inv : JoinInv join_new.
Proof. by split; cbn; intros *; rewrite ?lookup_empty. Qed.
Lemma join_new_exact : Exact join_new.
Proof. intros w a. cbn. rewrite lookup_empty. split; [done|]. intros (s & wl & x & E & _). cbn in E. by rewrite lookup_empty in E. Qed.
Lemma exact_none w j : serial_by_x11 j !! w = None -> completed j !! w = None -> exact_at w j.
Proof. intros E E' a. rewrite E'. split; [done|]. intros (s & wl & x & E0 & _). congruence. Qed.
(** Exactness of a window depends on its serial's entries alone. *)
Lemma exact_frame w j j' :
  exact_at w j -> completed j' !! w = completed j !! w -> serial_by_x11 j' !! w = serial_by_x11 j !! w ->
  (forall s, serial_by_x11 j !! w = Some s ->
     wayland_by_serial j' !! s = wayland_by_serial j !! s /\ x11_by_serial j' !! s = x11_by_serial j !! s) ->
  exact_at w j'.
Proof.
  intros H Ec Es Hs a. rewrite Ec, (H a). unfold joins. rewrite Es.
  split; intros (s & wl & x & E1 & E2 & E3 & ->); exists s, wl, x; destruct (Hs s E1) as [Ew Ex];
    [by rewrite Ew, Ex|by rewrite <- Ew, <- Ex].
Qed.

(** [complete_if_ready] on a join that is right but for the serial itself. *)
Lemma complete_inv s j :
  (forall w s', serial_by_x11 j !! w = Some s' -> xa_window <$> x11_by_serial j !! s' = Some w) ->
  (forall s1 s2 f, wa_surface_id <$> wayland_by_serial j !! s1 = Some f ->
     wa_surface_id <$> wayland_by_serial j !! s2 = Some f -> s1 = s2) ->
  (forall s' wl x, s' <> s -> wayland_by_serial j !! s' = Some wl -> x11_by_serial j !! s' = Some x ->
     wa_generation wl = handle_generation (xa_window x)) ->
  JoinInv (complete_if_ready s j).1.
Proof.
  intros H1 H2 H3. unfold complete_if_ready.
  assert (Hsame : (forall wl x, wayland_by_serial j !! s = Some wl -> x11_by_serial j !! s = Some x ->
      wa_generation wl = handle_generation (xa_window x)) -> JoinInv j).
  { intros H. split; [done|done|]. intros s' wl x E1 E2. destruct (decide (s' = s)) as [->|]; [by eapply H|by eapply H3]. }
  destruct (wayland_by_serial j !! s) as [wl|] eqn:Ew; [|apply Hsame; congruence].
  destruct (x11_by_serial j !! s) as [x|] eqn:Ex; [|apply Hsame; congruence].
  destruct (decide (wa_generation wl <> handle_generation (xa_window x))) as [Hg|Hg].
  - split; cbn.
    + intros w s' Hw. apply lookup_delete_Some in Hw as [Hne Hw]. rewrite lookup_delete_ne; [by apply H1|].
      intros <-. pose proof (H1 w s Hw) as E. rewrite Ex in E. cbn in E. congruence.
    + intros s1 s2 f E1 E2. destruct (decide (s1 = s)) as [->|]; [by rewrite lookup_delete_eq in E1|].
      destruct (decide (s2 = s)) as [->|]; [by rewrite lookup_delete_eq in E2|].
      rewrite lookup_delete_ne in E1, E2 by done. by eapply H2.
    + intros s' wl' x' E1 E2. apply lookup_delete_Some in E1 as [? E1]. apply lookup_delete_Some in E2 as [_ E2].
      by eapply H3.
  - assert (JoinInv j) as [K1 K2 K3] by (apply Hsame; intros wl' x' [= <-] [= <-]; by destruct (decide (wa_generation wl = handle_generation (xa_window x)))).
    destruct (decide _); by split.
Qed.
(** Completion of a window that is not complete yet. *)
Lemma complete_exact s x j :
  (forall w s', serial_by_x11 j !! w = Some s' -> xa_window <$> x11_by_serial j !! s' = Some w) ->
  x11_by_serial j !! s = Some x -> serial_by_x11 j !! xa_window x = Some s -> completed j !! xa_window x = None ->
  (forall w, w <> xa_window x -> exact_at w j) -> Exact (complete_if_ready s j).1.
Proof.
  intros H1 Ex Es Ec Hx w. unfold complete_if_ready. rewrite Ex.
  assert (Hcur : forall w s', w <> xa_window x -> serial_by_x11 j !! w = Some s' -> s' <> s).
  { intros w' s' Hw E ->. pose proof (H1 w' s E) as E'. rewrite Ex in E'. cbn in E'. congruence. }
  destruct (wayland_by_serial j !! s) as [wl|] eqn:Ew.
  2: { cbn. destruct (decide (w = xa_window x)) as [->|Hw]; [|by apply Hx]. intros a. rewrite Ec. split; [done|].
       intros (s' & wl & x' & E1 & E2 & _). congruence. }
  destruct (decide (wa_generation wl <> handle_generation (xa_window x))); cbn.
  - destruct (decide (w = xa_window x)) as [->|Hw]; [apply exact_none; [apply lookup_delete_eq|done]|].
    eapply exact_frame; [by apply (Hx w)|done|cbn; by rewrite lookup_delete_ne|]. intros s' E'. cbn.
    rewrite !lookup_delete_ne by (intros <-; by eapply Hcur). done.
  - rewrite Ec. rewrite decide_False by (by intros []). cbn. destruct (decide (w = xa_window x)) as [->|Hw].
    + intros a. cbn. rewrite lookup_insert_eq. split.
      * intros [= <-]. by exists s, wl, x.
      * intros (s' & wl' & x' & E1 & E2 & E3 & ->). cbn in E1, E2, E3. congruence.
    + eapply exact_frame; [by apply (Hx w)|cbn; by rewrite lookup_insert_ne|done|done].
Qed.

(** ** The operations keep it *)

Lemma drop_serials_lookup l j k :
  wayland_by_serial (drop_serials l j) !! k = (if decide (k ∈ l) then None else wayland_by_serial j !! k) /\
  x11_by_serial (drop_serials l j) !! k = (if decide (k ∈ l) then None else x11_by_serial j !! k) /\
  serial_by_x11 (drop_serials l j) = serial_by_x11 j /\ completed (drop_serials l j) = completed j /\
  join_events (drop_serials l j) = join_events j.
Proof.
  revert j. induction l as [|i l IH]; intros j.
  - cbn. rewrite !decide_False by apply not_elem_of_nil. done.
  - set (j1 := mkJoin (delete i (wayland_by_serial j)) (delete i (x11_by_serial j)) (serial_by_x11 j) (completed j)
      (join_events j)). change (drop_serials (i :: l) j) with (drop_serials l j1).
    destruct (IH j1) as (-> & -> & -> & -> & ->). unfold j1. cbn. split_and!; try done.
    + destruct (decide (k ∈ l)); [by rewrite decide_True by (by right)|]. destruct (decide (k = i)) as [->|].
      * rewrite decide_True by (by left). apply lookup_delete_eq.
      * rewrite decide_False by (by intros [|]%elem_of_cons). by rewrite lookup_delete_ne.
    + destruct (decide (k ∈ l)); [by rewrite decide_True by (by right)|]. destruct (decide (k = i)) as [->|].
      * rewrite decide_True by (by left). apply lookup_delete_eq.
      * rewrite decide_False by (by intros [|]%elem_of_cons). by rewrite lookup_delete_ne.
Qed.
(** Taking serials away that no window has as its current one. *)
Lemma shrink_inv j j' :
  JoinInv j -> (forall w s, serial_by_x11 j' !! w = Some s -> serial_by_x11 j !! w = Some s /\
     x11_by_serial j' !! s = x11_by_serial j !! s) ->
  (forall s wl, wayland_by_serial j' !! s = Some wl -> wayland_by_serial j !! s = Some wl) ->
  (forall s x, x11_by_serial j' !! s = Some x -> x11_by_serial j !! s = Some x) -> JoinInv j'.
Proof.
  intros [H1 H2 H3] Hc Hw Hx. split.
  - intros w s E. destruct (Hc w s E) as [E' ->]. by apply H1.
  - intros s s' f E1 E2. apply fmap_Some in E1 as (a & E1 & ->), E2 as (a' & E2 & Ef). apply (H2 s s' (wa_surface_id a)).
    + by rewrite (Hw s a E1).
    + rewrite (Hw s' a' E2). cbn. by f_equal.
  - intros s wl x E1 E2. by apply (H3 s); [apply Hw|apply Hx].
Qed.
Section OperationsTheory.
Context {order : HashOrder}.
Lemma serial_of_surface_Some f s j :
  serial_of_surface f j = Some s -> wa_surface_id <$> wayland_by_serial j !! s = Some f.
Proof.
  unfold serial_of_surface. intros ([i k] & (_ & E & _)%list_find_Some & ->)%fmap_Some. done.
Qed.
Lemma serial_of_surface_None f j s :
  serial_of_surface f j = None -> wa_surface_id <$> wayland_by_serial j !! s <> Some f.
Proof.
  unfold serial_of_surface. intros E%fmap_None Hs. apply list_find_None in E. rewrite Forall_forall in E.
  apply (E s); [|done]. apply elem_of_hash_keys. by destruct (wayland_by_serial j !! s).
Qed.
Lemma commit_wayland_inv g s f j : JoinInv j -> JoinInv (commit_wayland g s f j).1.
Proof.
  intros [H1 H2 H3]. unfold commit_wayland. destruct (decide _) as [|Hs]; [done|]. destruct (decide _) as [|Hf]; [done|].
  apply eq_None_not_Some in Hs. apply eq_None_not_Some in Hf. apply complete_inv; cbn; [done| |].
  - intros s1 s2 f' E1 E2.
    assert (Hnew : forall k, k <> s -> wa_surface_id <$> wayland_by_serial j !! k = Some f' -> f' <> f).
    { intros k _ E ->. by eapply serial_of_surface_None in Hf. }
    destruct (decide (s1 = s)) as [->|N1], (decide (s2 = s)) as [->|N2]; try done;
      rewrite ?lookup_insert_eq, ?lookup_insert_ne in E1 by done; rewrite ?lookup_insert_eq, ?lookup_insert_ne in E2 by done.
    + injection E1 as <-. by destruct (Hnew s2 N2 E2).
    + injection E2 as <-. by destruct (Hnew s1 N1 E1).
    + by eapply H2.
  - intros s' wl x N E1 E2. rewrite lookup_insert_ne in E1 by done. by eapply H3.
Qed.
(** A surface commits a serial that its window still has. *)
Definition commit_is_current (s : Z) (j : SurfaceAssociationJoin) : Prop :=
  forall x, x11_by_serial j !! s = Some x -> serial_by_x11 j !! xa_window x = Some s.
Lemma commit_wayland_exact g s f j :
  JoinInv j -> commit_is_current s j -> Exact j -> Exact (commit_wayland g s f j).1.
Proof.
  intros [H1 H2 H3] Hcur Hx. unfold commit_wayland. destruct (decide _) as [|Hs]; [done|]. destruct (decide _) as [|_]; [done|].
  apply eq_None_not_Some in Hs. set (j' := mkJoin _ _ _ _ _).
  assert (Hframe : forall w, (forall s', serial_by_x11 j !! w = Some s' -> s' <> s) -> exact_at w j').
  { intros w Hw. eapply exact_frame; [apply (Hx w)|done|done|]. intros s' E. cbn. rewrite lookup_insert_ne; [done|].
    intros <-. by apply (Hw s E). }
  destruct (x11_by_serial j !! s) as [x|] eqn:Ex.
  - apply (complete_exact s x j'); cbn; [done|done|by apply Hcur| |].
    + destruct (completed j !! xa_window x) as [a|] eqn:Ec; [|done]. apply Hx in Ec as (s' & wl & x' & E1 & E2 & _).
      rewrite (Hcur x Ex) in E1. congruence.
    + intros w Hw. apply Hframe. intros s' E ->. pose proof (H1 w s E) as E'. rewrite Ex in E'. cbn in E'. congruence.
  - assert (E : complete_if_ready s j' = (j', None)) by (unfold complete_if_ready; cbn; by rewrite Ex, lookup_insert_eq).
    rewrite E. intros w. apply Hframe. intros s' E' ->. pose proof (H1 w s E') as E0. by rewrite Ex in E0.
Qed.
(** The X side. *)
Lemma note_x11_cases w s m j :
  JoinInv j ->
  note_x11_serial_for_map w s m j =
    Ret (if decide (is_Some (x11_by_serial j !! s)) then
           if decide (serial_by_x11 j !! w = Some s) then complete_if_ready s j else (j, Some DuplicateX11Serial)
         else complete_if_ready s
                (mkJoin (wayland_by_serial j) (<[s := mkX11 w m]> (x11_by_serial j)) (<[w := s]> (serial_by_x11 j))
                   (match serial_by_x11 j !! w with Some _ => delete w (completed j) | None => completed j end)
                   (join_events j))).
Proof.
  intros [H1 _ _]. unfold note_x11_serial_for_map. destruct (decide _); [done|].
  destruct (serial_by_x11 j !! w) as [p|] eqn:Ep; [|done]. pose proof (H1 w p Ep) as E.
  destruct (x11_by_serial j !! p) as [x|] eqn:Ex; [|done]. by rewrite decide_True by (by eexists).
Qed.
Lemma note_x11_inv w s m j j' o :
  JoinInv j -> note_x11_serial_for_map w s m j = Ret (j', o) -> JoinInv j'.
Proof.
  intros Hj. rewrite note_x11_cases by done. intros [= E]. replace j' with (j', o).1 by done. rewrite <- E. clear E.
  destruct Hj as [H1 H2 H3]. destruct (decide (is_Some (x11_by_serial j !! s))) as [|Hs].
  - destruct (decide _); [|done]. apply complete_inv; [done|done|]. intros s' wl x _. apply H3.
  - apply eq_None_not_Some in Hs. apply complete_inv; cbn; [|done|].
    + intros w' s' E. destruct (decide (w' = w)) as [->|].
      * rewrite lookup_insert_eq in E. injection E as <-. by rewrite lookup_insert_eq.
      * rewrite lookup_insert_ne in E by done. pose proof (H1 w' s' E) as E'. rewrite lookup_insert_ne; [done|].
        intros <-. by rewrite Hs in E'.
    + intros s' wl x N E1 E2. rewrite lookup_insert_ne in E2 by done. by eapply H3.
Qed.
Lemma note_x11_exact w s m j j' o :
  JoinInv j -> Exact j -> note_x11_serial_for_map w s m j = Ret (j', o) -> Exact j'.
Proof.
  intros Hj Hx. rewrite note_x11_cases by done. intros [= E]. replace j' with (j', o).1 by done. rewrite <- E. clear E.
  destruct Hj as [H1 H2 H3]. destruct (decide (is_Some (x11_by_serial j !! s))) as [[x Ex]|Hs].
  - destruct (decide _) as [Es|]; [|done]. unfold complete_if_ready. rewrite Ex.
    destruct (wayland_by_serial j !! s) as [wl|] eqn:Ew; [|done]. pose proof (H1 w s Es) as E. rewrite Ex in E. injection E as <-.
    rewrite decide_False by (intros Hg; apply Hg; by eapply H3).
    rewrite decide_True; [done|]. eexists. apply Hx. by exists s, wl, x.
  - apply eq_None_not_Some in Hs. eapply complete_exact; cbn; [|apply lookup_insert_eq|apply lookup_insert_eq| |]; cbn.
    + intros w' s' E. destruct (decide (w' = w)) as [->|].
      * rewrite lookup_insert_eq in E. injection E as <-. by rewrite lookup_insert_eq.
      * rewrite lookup_insert_ne in E by done. pose proof (H1 w' s' E) as E'. rewrite lookup_insert_ne; [done|].
        intros <-. by rewrite Hs in E'.
    + destruct (serial_by_x11 j !! w) eqn:Ep; [apply lookup_delete_eq|].
      destruct (completed j !! w) eqn:Ec; [|done]. apply Hx in Ec as (? & ? & ? & E & _). congruence.
    + intros w' Hw. eapply exact_frame; [apply (Hx w')| | |].
      * cbn. destruct (serial_by_x11 j !! w); [by rewrite lookup_delete_ne|done].
      * cbn. by rewrite lookup_insert_ne.
      * intros s' E. cbn. split; [done|]. rewrite lookup_insert_ne; [done|]. intros <-. pose proof (H1 w' s E) as E'.
        by rewrite Hs in E'.
Qed.
(** Removals: what a removal leaves of each map. *)
Lemma remove_wayland_inv f j : JoinInv j -> JoinInv (remove_wayland_surface f j).
Proof.
  intros Hj. unfold remove_wayland_surface. destruct (serial_of_surface f j) as [s|]; [|done].
  assert (Hw : forall s0 wl, delete s (wayland_by_serial j) !! s0 = Some wl -> wayland_by_serial j !! s0 = Some wl).
  { by intros s0 wl [_ ?]%lookup_delete_Some. }
  assert (Hd : forall s0 x, delete s (x11_by_serial j) !! s0 = Some x -> x11_by_serial j !! s0 = Some x).
  { by intros s0 x [_ ?]%lookup_delete_Some. }
  destruct (x11_by_serial j !! s) as [x|] eqn:Ex; [|by apply (shrink_inv j)].
  assert (Hk : forall w s0, w <> xa_window x -> serial_by_x11 j !! w = Some s0 -> s0 <> s).
  { intros w s0 Hne E ->. pose proof (ji_current j Hj w s E) as E'. rewrite Ex in E'. cbn in E'. congruence. }
  destruct (decide _) as [Es|Es].
  - assert (Hc : forall w s0, delete (xa_window x) (serial_by_x11 j) !! w = Some s0 ->
      serial_by_x11 j !! w = Some s0 /\ delete s (x11_by_serial j) !! s0 = x11_by_serial j !! s0).
    { intros w s0 [Hne E]%lookup_delete_Some. split; [done|]. apply lookup_delete_ne. intros <-. by eapply Hk. }
    destruct (completed j !! xa_window x); by apply (shrink_inv j).
  - apply (shrink_inv j); [done| |done|done]. cbn. intros w s0 E. split; [done|]. apply lookup_delete_ne. intros <-.
    destruct (decide (w = xa_window x)) as [->|]; [done|by eapply Hk].
Qed.
Lemma remove_wayland_exact f j : JoinInv j -> Exact j -> Exact (remove_wayland_surface f j).
Proof.
  intros Hj Hx. unfold remove_wayland_surface. destruct (serial_of_surface f j) as [s|]; [|done].
  destruct (x11_by_serial j !! s) as [x|] eqn:Ex.
  2: { intros w. eapply exact_frame; [apply (Hx w)|done|done|]. intros s0 E. cbn. rewrite lookup_delete_ne; [done|].
       intros <-. pose proof (ji_current j Hj w s E) as E'. by rewrite Ex in E'. }
  assert (Hk : forall w s0, w <> xa_window x -> serial_by_x11 j !! w = Some s0 -> s <> s0).
  { intros w s0 Hne E <-. pose proof (ji_current j Hj w s E) as E'. rewrite Ex in E'. cbn in E'. congruence. }
  destruct (decide _) as [Es|Es]; intros w.
  - destruct (decide (w = xa_window x)) as [->|Hw].
    + destruct (completed j !! xa_window x) eqn:Ec; apply exact_none; cbn; by rewrite ?lookup_delete_eq.
    + destruct (completed j !! xa_window x); (eapply exact_frame; [apply (Hx w)|..]); cbn;
        rewrite ?lookup_delete_ne by done; try done; intros s0 E; rewrite !lookup_delete_ne by (by eapply Hk); done.
  - eapply exact_frame; [apply (Hx w)|done|done|]. intros s0 E. cbn.
    rewrite !lookup_delete_ne; [done| |]; (destruct (decide (w = xa_window x)) as [->|]; [congruence|by eapply Hk]).
Qed.
Lemma elem_of_serials w k j : k ∈ serials_of_window w j <-> xa_window <$> x11_by_serial j !! k = Some w.
Proof.
  unfold serials_of_window. rewrite list_elem_of_filter, elem_of_hash_keys. split; [by intros []|]. intros E. split; [done|].
  by destruct (x11_by_serial j !! k).
Qed.
Lemma remove_window_lookup w j :
  (forall k, wayland_by_serial (remove_x11_window w j) !! k =
     if decide (k ∈ serials_of_window w j) then None else wayland_by_serial j !! k) /\
  (forall k, x11_by_serial (remove_x11_window w j) !! k =
     if decide (k ∈ serials_of_window w j) then None else x11_by_serial j !! k) /\
  serial_by_x11 (remove_x11_window w j) = delete w (serial_by_x11 j) /\
  completed (remove_x11_window w j) = delete w (completed j).
Proof.
  unfold remove_x11_window. set (j0 := mkJoin _ _ (delete w (serial_by_x11 j)) _ _).
  change (serials_of_window w j0) with (serials_of_window w j).
  destruct (drop_serials_lookup (serials_of_window w j) j0 0) as (_ & _ & E3 & E4 & _).
  assert (E : forall k, _ /\ _) by (intros k; destruct (drop_serials_lookup (serials_of_window w j) j0 k) as (E1 & E2 & _); exact (conj E1 E2)).
  rewrite E4. cbn [j0 completed]. destruct (completed j !! w) eqn:Ec; cbn [wayland_by_serial x11_by_serial serial_by_x11 completed].
  - split_and!; [intros k; apply E|intros k; apply E|done|done].
  - split_and!; [intros k; apply E|intros k; apply E|done|]. rewrite E4. cbn. by rewrite delete_id.
Qed.
Lemma remove_window_inv w j : JoinInv j -> JoinInv (remove_x11_window w j).
Proof.
  intros Hj. destruct (remove_window_lookup w j) as (Ew & Ex & Es & _). apply (shrink_inv j); [done|..].
  - intros w' s. rewrite Es. intros [Hne E]%lookup_delete_Some. split; [done|]. rewrite Ex, decide_False; [done|].
    rewrite elem_of_serials, (ji_current j Hj w' s E). congruence.
  - intros s wl. rewrite Ew. by destruct (decide _).
  - intros s x. rewrite Ex. by destruct (decide _).
Qed.
Lemma remove_window_exact w j : JoinInv j -> Exact j -> Exact (remove_x11_window w j).
Proof.
  intros Hj Hx w'. destruct (remove_window_lookup w j) as (Ew & Ex & Es & Ec). destruct (decide (w' = w)) as [->|Hw].
  - apply exact_none; [rewrite Es|rewrite Ec]; apply lookup_delete_eq.
  - eapply exact_frame; [apply (Hx w')|by rewrite Ec, lookup_delete_ne|by rewrite Es, lookup_delete_ne|].
    intros s E. assert (s ∉ serials_of_window w j) by (rewrite elem_of_serials, (ji_current j Hj w' s E); congruence).
    by rewrite Ew, Ex, !decide_False.
Qed.
(** [clear_generation] in its two phases. *)
Lemma remove_windows_spec ws j :
  JoinInv j -> let j' := fold_left (fun j w => remove_x11_window w j) ws j in
  JoinInv j' /\ (Exact j -> Exact j') /\ forall w, serial_by_x11 j' !! w = if decide (w ∈ ws) then None else serial_by_x11 j !! w.
Proof.
  revert j. induction ws as [|w ws IH]; intros j Hj; cbn.
  - split_and!; [done|done|]. intros w. by rewrite decide_False by apply not_elem_of_nil.
  - destruct (IH _ (remove_window_inv w j Hj)) as (H1 & H2 & H3). split_and!; [done| |].
    + intros Hx. by apply H2, remove_window_exact.
    + intros w'. rewrite H3. destruct (remove_window_lookup w j) as (_ & _ & -> & _).
      destruct (decide (w' ∈ ws)); [by rewrite decide_True by (by right)|]. destruct (decide (w' = w)) as [->|].
      * rewrite decide_True by (by left). apply lookup_delete_eq.
      * rewrite decide_False by (by intros [|]%elem_of_cons). by rewrite lookup_delete_ne.
Qed.
Lemma clear_generation_spec g j :
  JoinInv j -> JoinInv (join_clear_generation g j) /\ (Exact j -> Exact (join_clear_generation g j)).
Proof.
  intros Hj. unfold join_clear_generation.
  pose proof (remove_windows_spec (base.filter (fun w => handle_generation w = g) (hash_keys (serial_by_x11 j))) j Hj) as Hp.
  cbv zeta in Hp. set (j1 := fold_left _ _ j) in *. destruct Hp as (H1 & H2 & H3).
  assert (Hg : forall w s, serial_by_x11 j1 !! w = Some s -> handle_generation w <> g).
  { intros w s E Eg. rewrite H3 in E. destruct (decide _) as [|Hn]; [done|]. apply Hn. apply list_elem_of_filter.
    split; [done|]. apply elem_of_hash_keys. by eexists. }
  set (l := base.filter _ (hash_keys (wayland_by_serial j1))).
  assert (Hl : forall w s, serial_by_x11 j1 !! w = Some s -> s ∉ l).
  { intros w s E Hs. apply list_elem_of_filter in Hs as [Eg _]. apply fmap_Some in Eg as (wl & Ew & ->).
    pose proof (ji_current j1 H1 w s E) as Ex. apply fmap_Some in Ex as (x & Ex & ->).
    apply (Hg (xa_window x) s E). symmetry. by eapply (ji_generations j1 H1). }
  split.
  - apply (shrink_inv j1); [done|..].
    + intros w s. destruct (drop_serials_lookup l j1 s) as (_ & E2 & E3 & _). rewrite E3. intros E. split; [done|].
      rewrite E2, decide_False; [done|by eapply Hl].
    + intros s wl. destruct (drop_serials_lookup l j1 s) as (-> & _). by destruct (decide _).
    + intros s x. destruct (drop_serials_lookup l j1 s) as (_ & -> & _). by destruct (decide _).
  - intros Hx w. destruct (drop_serials_lookup l j1 0) as (_ & _ & E3 & E4 & _).
    eapply exact_frame; [by apply (H2 Hx w)|by rewrite E4|by rewrite E3|]. intros s E.
    destruct (drop_serials_lookup l j1 s) as (-> & -> & _). by rewrite !decide_False by (by eapply Hl).
Qed.
End OperationsTheory.

(** ** Histories of the join *)

Inductive JoinStep : Type :=
| CommitWayland (generation serial surface_id : Z)
| NoteX11 (window serial map_serial : Z)
| RemoveWayland (surface_id : Z)
| RemoveX11 (window : Z)
| ClearGeneration (generation : Z)
| TakeJoinEvents.
Section Histories.
Context {order : HashOrder}.
Definition join_step (e : JoinStep) (j : SurfaceAssociationJoin) : res Empty_set joined :=
  match e with
  | CommitWayland g s f => Ret (commit_wayland g s f j)
  | NoteX11 w s m => note_x11_serial_for_map w s m j
  | RemoveWayland f => Ret (remove_wayland_surface f j, None)
  | RemoveX11 w => Ret (remove_x11_window w j, None)
  | ClearGeneration g => Ret (join_clear_generation g j, None)
  | TakeJoinEvents => Ret ((join_take_events j).2, None)
  end.
(** Histories of which every step is [allowed]. *)
Inductive JoinRuns (allowed : JoinStep -> SurfaceAssociationJoin -> Prop) : SurfaceAssociationJoin -> Prop :=
| join_start : JoinRuns allowed join_new
| join_then j e j' o : JoinRuns allowed j -> allowed e j -> join_step e j = Ret (j', o) -> JoinRuns allowed j'.
Definition any_step (e : JoinStep) (j : SurfaceAssociationJoin) : Prop := True.
(** No surface commits a serial that its window has replaced. *)
Definition in_order (e : JoinStep) (j : SurfaceAssociationJoin) : Prop :=
  match e with CommitWayland _ s _ => commit_is_current s j | _ => True end.
Lemma join_step_inv e j j' o : JoinInv j -> join_step e j = Ret (j', o) -> JoinInv j'.
Proof.
  intros Hj. destruct e; cbn.
  - intros [= E]. replace j' with (j', o).1 by done. rewrite <- E. by apply commit_wayland_inv.
  - by apply note_x11_inv.
  - intros [= <- <-]. by apply remove_wayland_inv.
  - intros [= <- <-]. by apply remove_window_inv.
  - intros [= <- <-]. by apply clear_generation_spec.
  - intros [= <- <-]. by destruct Hj.
Qed.
Lemma join_step_exact e j j' o : JoinInv j -> in_order e j -> Exact j -> join_step e j = Ret (j', o) -> Exact j'.
Proof.
  intros Hj Hc Hx. destruct e; cbn in *.
  - intros [= E]. replace j' with (j', o).1 by done. rewrite <- E. by apply commit_wayland_exact.
  - by apply note_x11_exact.
  - intros [= <- <-]. by apply remove_wayland_exact.
  - intros [= <- <-]. by apply remove_window_exact.
  - intros [= <- <-]. by apply clear_generation_spec.
  - by intros [= <- <-].
Qed.
Lemma join_runs_inv allowed j : JoinRuns allowed j -> JoinInv j.
Proof. induction 1; [apply join_new_inv|by eapply join_step_inv]. Qed.
Lemma join_runs_exact j : JoinRuns in_order j -> Exact j.
Proof. induction 1; [apply join_new_exact|]. eapply join_step_exact; [by eapply join_runs_inv|done..]. Qed.

(** Two sides of the join never disagree: over every history of it the current
    serial of a window is one it announced, no two serials have one surface, and
    a serial that both sides know has one generation; and no step fails its
    debug assertion. *)
Theorem join_consistent j :
  JoinRuns any_step j -> JoinInv j /\ forall e, returns (join_step e j).
Proof.
  intros H. apply join_runs_inv in H as Hj. split; [done|]. intros e. destruct e; cbn; try by eexists.
  rewrite note_x11_cases by done. by eexists.
Qed.

(** C27: as long as no surface commits a serial that its window has replaced,
    the completed associations are exactly the join of both sides: a window is
    complete if and only if its current serial has a surface, with that
    surface, its generation and the map serial the window announced; and no two
    windows share a surface. *)
Theorem completed_is_the_join j :
  JoinRuns in_order j ->
  (forall w a, completed j !! w = Some a <-> joins j w a) /\
  forall w w' a a', completed j !! w = Some a -> completed j !! w' = Some a' -> as_surface_id a = as_surface_id a' -> w = w'.
Proof.
  intros H. pose proof (join_runs_exact j H) as Hx. pose proof (join_runs_inv _ j H) as Hj. split; [apply Hx|].
  intros w w' a a' E E' Ef. apply Hx in E as (s & wl & x & E1 & E2 & E3 & ->), E' as (s' & wl' & x' & E1' & E2' & E3' & ->).
  cbn in Ef. assert (s = s') as <- by (eapply (ji_surfaces j Hj s s' (wa_surface_id wl)); [by rewrite E2|by rewrite E2', Ef]).
  pose proof (ji_current j Hj w s E1) as K. pose proof (ji_current j Hj w' s E1') as K'. congruence.
Qed.
End Histories.

Definition join_after (es : list JoinStep) : SurfaceAssociationJoin :=
  fold_left (fun j e => match join_step (order := list_order) e j with Ret (j', _) => j' | _ => j end) es join_new.
Definition demo_window : Z := handle_new 1 30.
Lemma demo_join_runs :
  JoinRuns (order := list_order) in_order (join_after [NoteX11 demo_window 10 1; CommitWayland 1 10 41]).
Proof.
  eapply (join_then _ _ (CommitWayland 1 10 41)); [eapply (join_then _ _ (NoteX11 demo_window 10 1)); [apply join_start|done|by vm_compute]| |].
  - intros x. vm_compute. by intros [= <-].
  - by vm_compute.
Qed.
Lemma completed_is_the_join_witness :
  completed (join_after [NoteX11 demo_window 10 1; CommitWayland 1 10 41]) !! demo_window = Some (mkAssociated 1 10 41 1) /\
  joins (join_after [NoteX11 demo_window 10 1; CommitWayland 1 10 41]) demo_window (mkAssociated 1 10 41 1).
Proof.
  split; [by vm_compute|]. apply (proj1 (completed_is_the_join (order := list_order) _ demo_join_runs)). by vm_compute.
Defined.
Lemma join_consistent_witness : JoinInv (join_after [NoteX11 demo_window 10 1]).
Proof.
  apply (proj1 (join_consistent (order := list_order) (join_after [NoteX11 demo_window 10 1])
    ltac:(eapply (join_then _ _ (NoteX11 demo_window 10 1)); [apply join_start|done|by vm_compute]))).
Defined.

(** A serial that a window has replaced still completes it when its surface
    commits late. The window then keeps that surface: removing the surface does
    not end the association, since the serial is no longer the window's, and the
    surface of the window's current serial is refused in silence, since the
    window counts as complete. *)
Theorem superseded_serial_sticks :
  let late := join_after [NoteX11 demo_window 10 1; NoteX11 demo_window 11 2; CommitWayland 1 10 41] in
  let gone := join_after [NoteX11 demo_window 10 1; NoteX11 demo_window 11 2; CommitWayland 1 10 41; RemoveWayland 41] in
  let final := join_after [NoteX11 demo_window 10 1; NoteX11 demo_window 11 2; CommitWayland 1 10 41; RemoveWayland 41;
                           CommitWayland 1 11 42] in
  completed late !! demo_window = Some (mkAssociated 1 10 41 1) /\
  completed gone !! demo_window = Some (mkAssociated 1 10 41 1) /\
  (join_step (order := list_order) (CommitWayland 1 11 42) gone) = Ret (final, None) /\
  completed final !! demo_window = Some (mkAssociated 1 10 41 1) /\
  joins final demo_window (mkAssociated 1 11 42 2) /\ ~ joins final demo_window (mkAssociated 1 10 41 1).
Proof.
  cbv zeta. split_and!; try (vm_compute; reflexivity).
  - exists 11, (mkWayland 1 42), (mkX11 demo_window 2). split_and!; vm_compute; reflexivity.
  - intros (s & wl & x & E1 & E2 & E3 & E). assert (s = 11) as -> by (vm_compute in E1; congruence). by inversion E.
Qed.
