(* ===== verification/AssociationLink.v ===== *)
(** * AssociationLink: from committed serials to the join

    The registry of committed serials reports to the window manager through a
    queue of events (src/xwayland/association.rs,
    [ingest_wayland_association] of src/xwayland/xwm/api.rs). Here both ends and
    the queue between them are one system: the order of the events is kept, so
    the join accepts every event of the generation it serves, and refuses as
    stale those of the others. *)

From stdpp Require Import base list option gmap.
From Stdlib Require Import ZArith Lia.
From S2P Require Import Prelude AssociationJoin.

(** ** What a log of events says *)

(** The surfaces with a serial after the events of a log. *)
Definition publish (m : gmap Z Z) (e : XwaylandAssociationEvent) : gmap Z Z :=
  match e with
  | EvCommitted g s f => <[f := serial_key g s]> m
  | EvRemoved g s f => delete f m
  end.
Definition published (log : list XwaylandAssociationEvent) : gmap Z Z := fold_left publish log ∅.
Definition serial_ok (s : Z) : Prop := 0 < s < 2 ^ 64.
(** A commit is of a new surface with a new serial, a removal of a surface that
    has the serial. *)
Definition event_ok (m : gmap Z Z) (e : XwaylandAssociationEvent) : Prop :=
  match e with
  | EvCommitted g s f => serial_ok s /\ m !! f = None /\ forall f', m !! f' <> Some (serial_key g s)
  | EvRemoved g s f => serial_ok s /\ m !! f = Some (serial_key g s)
  end.
Fixpoint log_ok (m : gmap Z Z) (log : list XwaylandAssociationEvent) : Prop :=
  match log with [] => True | e :: log => event_ok m e /\ log_ok (publish m e) log end.
Lemma published_snoc log e : published (log ++ [e]) = publish (published log) e.
Proof. unfold published. by rewrite fold_left_app. Qed.
Lemma log_ok_app m l l' : log_ok m (l ++ l') <-> log_ok m l /\ log_ok (fold_left publish l m) l'.
Proof. revert m. induction l as [|e l IH]; intros m; cbn; [tauto|]. rewrite IH. tauto. Qed.

(** ** The registry *)

Record RegInv (r : AssociationRegistry) (log : list XwaylandAssociationEvent) : Prop := {
  ri_published : by_surface r = published log;
  ri_log : log_ok ∅ log;
  (** The two indexes are inverse. *)
  ri_surface : forall f k, by_surface r !! f = Some k ->
    exists g s, serial_ok s /\ k = serial_key g s /\ by_serial r !! k = Some (mkSurfaceAssociation g s f);
  ri_serial : forall k a, by_serial r !! k = Some a -> by_surface r !! sa_surface_id a = Some k
}.
Lemma registry_new_inv : RegInv registry_new [].
Proof. split; cbn; try done; intros *; by rewrite lookup_empty. Qed.
Lemma serial_key_ok g s : serial_ok s -> key_generation (serial_key g s) = g /\ serial_key g s mod 2 ^ 64 = s.
Proof. intros H. apply serial_key_split. unfold serial_ok in H. lia. Qed.
Lemma commit_serial_inv g s f r r' log :
  RegInv r log -> serial_ok s -> commit_surface_serial g s f r = Ret r' ->
  RegInv r' (log ++ [EvCommitted g s f]) /\ reg_events r' = reg_events r ++ [EvCommitted g s f].
Proof.
  intros [H1 H2 H3 H4] Hs. unfold commit_surface_serial. destruct (decide _) as [|Nk]; [done|].
  destruct (decide _) as [|Nf]; [done|]. apply eq_None_not_Some in Nk, Nf. intros [= <-]. split; [|done]. split; cbn.
  - by rewrite published_snoc, <- H1.
  - apply log_ok_app. split; [done|]. cbn. fold (published log). rewrite <- H1. split; [|done]. split_and!; [done|done|].
    intros f' E. destruct (H3 f' _ E) as (g' & s' & _ & _ & E'). congruence.
  - intros f' k E. destruct (decide (f' = f)) as [->|].
    + rewrite lookup_insert_eq in E. injection E as <-. exists g, s. split; [done|]. split; [done|]. apply lookup_insert_eq.
    + rewrite lookup_insert_ne in E by done. destruct (H3 f' k E) as (g' & s' & Hs' & -> & E'). exists g', s'.
      split; [done|]. split; [done|]. rewrite lookup_insert_ne; [done|]. intros Ek. rewrite <- Ek in E'. congruence.
  - intros k a E. destruct (decide (k = serial_key g s)) as [->|].
    + rewrite lookup_insert_eq in E. injection E as <-. apply lookup_insert_eq.
    + rewrite lookup_insert_ne in E by done. pose proof (H4 k a E) as E'. rewrite lookup_insert_ne; [done|].
      intros ->. congruence.
Qed.
Lemma remove_surface_inv f r log :
  RegInv r log -> exists new, reg_events (remove_surface f r) = reg_events r ++ new /\ RegInv (remove_surface f r) (log ++ new).
Proof.
  intros Hr. pose proof Hr as [H1 H2 H3 H4]. unfold remove_surface. destruct (by_surface r !! f) as [k|] eqn:Ef.
  2: { exists []. by rewrite !app_nil_r. }
  destruct (H3 f k Ef) as (g & s & Hs & -> & Ek). destruct (serial_key_ok g s Hs) as [-> ->]. eexists. split; [done|].
  assert (Hinj : forall f' k', f' <> f -> by_surface r !! f' = Some k' -> k' <> serial_key g s).
  { intros f' k' Hne E ->. destruct (H3 f' _ E) as (g' & s' & _ & _ & E'). congruence. }
  split; cbn.
  - by rewrite published_snoc, <- H1.
  - apply log_ok_app. split; [done|]. cbn. fold (published log). by rewrite <- H1.
  - intros f' k' [Hne E]%lookup_delete_Some. destruct (H3 f' k' E) as (g' & s' & Hs' & Ek' & E'). exists g', s'.
    split; [done|]. split; [done|]. rewrite lookup_delete_ne; [done|]. intros <-. by apply (Hinj f' _ ltac:(congruence) E).
  - intros k' a [Hne E]%lookup_delete_Some. pose proof (H4 k' a E) as E'. rewrite lookup_delete_ne; [done|].
    intros ->. congruence.
Qed.
Lemma remove_surfaces_inv fs r log :
  RegInv r log -> let r' := fold_left (fun r f => remove_surface f r) fs r in
  exists new, reg_events r' = reg_events r ++ new /\ RegInv r' (log ++ new).
Proof.
  revert r log. induction fs as [|f fs IH]; intros r log Hr; cbn; [exists []; by rewrite !app_nil_r|].
  destruct (remove_surface_inv f r log Hr) as (new & E & H'). destruct (IH _ _ H') as (new' & E' & H'').
  exists (new ++ new'). by rewrite E', E, !app_assoc.
Qed.

(** ** The link *)

Record Link : Type := mkLink {
  lk_registry : AssociationRegistry; lk_queue : list XwaylandAssociationEvent; lk_join : SurfaceAssociationJoin
}.
Inductive LinkStep : Type :=
| LkCommit (generation serial surface_id : Z)
| LkRemoveSurface (surface_id : Z)
| LkClearGeneration (generation : Z)
| LkTakeEvents
| LkDeliver
| LkNoteX11 (window serial map_serial : Z)
| LkRemoveX11 (window : Z)
| LkTakeJoinEvents.
(** The errors of [XwmError] that concern the join. *)
Inductive LinkError : Type := StaleGeneration | Association (e : SurfaceAssociationJoinError).
Definition event_generation (e : XwaylandAssociationEvent) : Z :=
  match e with EvCommitted g _ _ | EvRemoved g _ _ => g end.
Section Linking.
Context {order : HashOrder} (generation : Z).
(** What [ingest_wayland_association] does to the join. *)
Definition ingest (e : XwaylandAssociationEvent) (j : SurfaceAssociationJoin)
  : SurfaceAssociationJoin * option LinkError :=
  if decide (event_generation e <> generation) then (j, Some StaleGeneration)
  else
    match e with
    | EvCommitted g s f => let '(j, o) := commit_wayland g s f j in (j, Association <$> o)
    | EvRemoved g s f => (remove_wayland_surface f j, None)
    end.
(** One step of the system, with the error it reports. A serial is a non-zero
    [u64]; a commit of any other value does not exist. *)
Definition link_step (e : LinkStep) (l : Link) : res AssociationError (Link * option LinkError) :=
  let '(mkLink r q j) := l in
  match e with
  | LkCommit g s f => if decide (serial_ok s) then (r ← commit_surface_serial g s f r; Ret (mkLink r q j, None)) else Ret (l, None)
  | LkRemoveSurface f => Ret (mkLink (remove_surface f r) q j, None)
  | LkClearGeneration g => Ret (mkLink (registry_clear_generation g r) q j, None)
  | LkTakeEvents => let '(es, r) := registry_take_events r in Ret (mkLink r (q ++ es) j, None)
  | LkDeliver => match q with [] => Ret (l, None) | e :: q => let '(j, o) := ingest e j in Ret (mkLink r q j, o) end
  | LkNoteX11 w s m =>
      if decide (handle_generation w <> generation) then Ret (l, Some StaleGeneration)
      else
        match note_x11_serial_for_map w s m j with
        | Ret (j, o) => Ret (mkLink r q j, Association <$> o)
        | _ => Panic
        end
  | LkRemoveX11 w =>
      if decide (handle_generation w <> generation) then Ret (l, Some StaleGeneration)
      else Ret (mkLink r q (remove_x11_window w j), None)
  | LkTakeJoinEvents => Ret (mkLink r q (join_take_events j).2, None)
  end.

(** ** The join mirrors the delivered events *)

Definition Mirror (m : gmap Z Z) (j : SurfaceAssociationJoin) : Prop :=
  (forall s wl, wayland_by_serial j !! s = Some wl ->
     wa_generation wl = generation /\ serial_ok s /\ m !! wa_surface_id wl = Some (serial_key generation s)) /\
  (forall s x, x11_by_serial j !! s = Some x -> handle_generation (xa_window x) = generation).
Lemma mirror_shrink m j j' :
  Mirror m j -> (forall s wl, wayland_by_serial j' !! s = Some wl -> wayland_by_serial j !! s = Some wl) ->
  (forall s x, x11_by_serial j' !! s = Some x -> x11_by_serial j !! s = Some x) -> Mirror m j'.
Proof. intros [H1 H2] Hw Hx. split; [intros s wl E; by apply H1, Hw|intros s x E; by eapply H2, Hx]. Qed.
Lemma complete_mirror m s j :
  Mirror m j -> Mirror m (complete_if_ready s j).1 /\ (complete_if_ready s j).2 = None.
Proof.
  intros [H1 H2]. unfold complete_if_ready. destruct (wayland_by_serial j !! s) as [wl|] eqn:Ew; [|done].
  destruct (x11_by_serial j !! s) as [x|] eqn:Ex; [|done]. rewrite decide_False.
  2: { intros Hg. apply Hg. by rewrite (proj1 (H1 s wl Ew)), (H2 s x Ex). }
  by destruct (decide _).
Qed.
(** A commit the registry reported is accepted. *)
Lemma deliver_commit m s f j :
  event_ok m (EvCommitted generation s f) -> Mirror m j ->
  Mirror (<[f := serial_key generation s]> m) (commit_wayland generation s f j).1 /\
  (commit_wayland generation s f j).2 = None.
Proof.
  intros (Hs & Nf & Nk) [H1 H2]. unfold commit_wayland.
  assert (Ews : wayland_by_serial j !! s = None).
  { destruct (wayland_by_serial j !! s) as [wl|] eqn:Ew; [|done]. destruct (H1 s wl Ew) as (_ & _ & E). by apply Nk in E. }
  rewrite (decide_False (P := is_Some (wayland_by_serial j !! s))) by (rewrite Ews; by intros []).
  rewrite decide_False.
  2: { intros [s' E%serial_of_surface_Some]. apply fmap_Some in E as (wl & Ew & ->).
       destruct (H1 s' wl Ew) as (_ & _ & E'). congruence. }
  apply complete_mirror. split; cbn; [|done]. intros s' wl E. destruct (decide (s' = s)) as [->|].
  - rewrite lookup_insert_eq in E. injection E as <-. cbn. by rewrite lookup_insert_eq.
  - rewrite lookup_insert_ne in E by done. destruct (H1 s' wl E) as (-> & Hs' & E'). split; [done|]. split; [done|].
    rewrite lookup_insert_ne; [done|]. intros ->. congruence.
Qed.
Lemma deliver_removal m g s f j :
  event_ok m (EvRemoved g s f) -> JoinInv j -> Mirror m j -> Mirror (delete f m) (ingest (EvRemoved g s f) j).1.
Proof.
  intros (Hs & Ef) Hj Hm. unfold ingest. cbn [event_generation].
  assert (Hkeep : forall j', (forall k wl, wayland_by_serial j' !! k = Some wl -> wayland_by_serial j !! k = Some wl) ->
    (forall k x, x11_by_serial j' !! k = Some x -> x11_by_serial j !! k = Some x) ->
    (forall k wl, wayland_by_serial j' !! k = Some wl -> wa_surface_id wl <> f) -> Mirror (delete f m) j').
  { intros j' Hw Hx Hne. destruct (mirror_shrink m j j' Hm Hw Hx) as [K1 K2]. split; [|done]. intros k wl E.
    destruct (K1 k wl E) as (? & ? & ?). split; [done|]. split; [done|]. rewrite lookup_delete_ne; [done|].
    intros Ewf. by apply (Hne k wl E). }
  destruct (decide (g <> generation)) as [Hg|Hg]; cbn [fst]; [|apply dec_stable in Hg as ->].
  2: { unfold remove_wayland_surface. destruct (serial_of_surface f j) as [k|] eqn:Ek.
    2: { apply Hkeep; [done|done|]. intros k wl E Ewf. apply (serial_of_surface_None f j k Ek). rewrite E. cbn. by rewrite Ewf. }
    apply serial_of_surface_Some in Ek.
    assert (Hd : forall k' wl, delete k (wayland_by_serial j) !! k' = Some wl -> wa_surface_id wl <> f).
    { intros k' wl [Hne E]%lookup_delete_Some Ewf. apply Hne. apply (ji_surfaces j Hj k k' f); [done|]. rewrite E. cbn. by rewrite Ewf. }
    assert (Hw : forall k' wl, delete k (wayland_by_serial j) !! k' = Some wl -> wayland_by_serial j !! k' = Some wl)
      by (by intros k' wl [_ ?]%lookup_delete_Some).
    assert (Hx : forall k' x, delete k (x11_by_serial j) !! k' = Some x -> x11_by_serial j !! k' = Some x)
      by (by intros k' x [_ ?]%lookup_delete_Some).
    destruct (x11_by_serial j !! k) as [x|]; [|by apply Hkeep]. destruct (decide _); [|by apply Hkeep].
    destruct (completed j !! xa_window x); by apply Hkeep. }
  - apply Hkeep; [done|done|]. intros k wl E Ewf. destruct Hm as [H1 _]. destruct (H1 k wl E) as (_ & Hk & E').
    rewrite Ewf, Ef in E'. injection E' as E'. apply serial_key_inj in E' as [? _]; [done|unfold serial_ok in *; lia..].
Qed.
Lemma deliver_ok m e j :
  event_ok m e -> JoinInv j -> Mirror m j ->
  JoinInv (ingest e j).1 /\ Mirror (publish m e) (ingest e j).1 /\
  (event_generation e = generation -> (ingest e j).2 = None) /\
  (event_generation e <> generation -> ingest e j = (j, Some StaleGeneration)).
Proof.
  intros He Hj Hm. unfold ingest.
  destruct (decide (event_generation e <> generation)) as [Hg|Hg]; [|apply dec_stable in Hg].
  - split_and!; [done| |done|done]. destruct e as [g s f|g s f]; cbn [publish event_generation] in *.
    + destruct He as (Hs & Nf & _), Hm as [H1 H2]. split; [|done]. intros k wl E.
      destruct (H1 k wl E) as (? & ? & E'). split; [done|]. split; [done|]. cbn. rewrite lookup_insert_ne; [done|].
      intros ->. cbn in E. congruence.
    + pose proof (deliver_removal m g s f j He Hj Hm) as H. unfold ingest in H. cbn [event_generation] in H.
      by rewrite decide_True in H.
  - destruct e as [g s f|g s f]; cbn [publish event_generation] in *; subst g.
    + destruct (deliver_commit m s f j He Hm) as [H1 H2]. pose proof (commit_wayland_inv generation s f j Hj) as H3.
      destruct (commit_wayland generation s f j) as [j' o]. cbn in *. subst o. done.
    + pose proof (deliver_removal m generation s f j He Hj Hm) as H. unfold ingest in H. cbn [event_generation] in H.
      rewrite decide_False in H by (intros N; by apply N). cbn. split_and!; [by apply remove_wayland_inv|done|done|done].
Qed.
Lemma note_x11_mirror m w s ms j j' o :
  JoinInv j -> handle_generation w = generation -> Mirror m j -> note_x11_serial_for_map w s ms j = Ret (j', o) -> Mirror m j'.
Proof.
  intros Hj Hw Hm. rewrite note_x11_cases by done. intros [= E]. replace j' with (j', o).1 by done. rewrite <- E. clear E.
  destruct (decide _).
  - destruct (decide _); [by apply complete_mirror|done].
  - apply complete_mirror. destruct Hm as [H1 H2]. split; cbn; [done|]. intros s' x E. destruct (decide (s' = s)) as [->|].
    + rewrite lookup_insert_eq in E. by injection E as <-.
    + rewrite lookup_insert_ne in E by done. by eapply H2.
Qed.
Lemma remove_x11_mirror m w j : Mirror m j -> Mirror m (remove_x11_window w j).
Proof.
  intros Hm. destruct (remove_window_lookup w j) as (Ew & Ex & _). apply (mirror_shrink m j); [done|..].
  - intros s wl. rewrite Ew. by destruct (decide _).
  - intros s x. rewrite Ex. by destruct (decide _).
Qed.

(** ** Histories *)

Definition LinkInv (l : Link) : Prop :=
  exists delivered, RegInv (lk_registry l) (delivered ++ lk_queue l ++ reg_events (lk_registry l)) /\
    JoinInv (lk_join l) /\ Mirror (published delivered) (lk_join l).
Lemma link_registry_inv delivered r q j r' new :
  RegInv r' ((delivered ++ q ++ reg_events r) ++ new) -> reg_events r' = reg_events r ++ new ->
  JoinInv j -> Mirror (published delivered) j -> LinkInv (mkLink r' q j).
Proof. intros H E Hj Hm. exists delivered. cbn. rewrite E. by rewrite !app_assoc in *. Qed.
Lemma link_step_inv e l l' o : LinkInv l -> link_step e l = Ret (l', o) -> LinkInv l'.
Proof.
  intros (d & Hr & Hj & Hm). destruct l as [r q j]. cbn [lk_registry lk_queue lk_join] in *. destruct e; cbn [link_step].
  - destruct (decide _) as [Hs|]; [|by intros [= <- _]; exists d]. rewrite bind_Ret. intros (r' & E & [= <- <-]).
    destruct (commit_serial_inv _ _ _ _ _ _ Hr Hs E). by eapply link_registry_inv.
  - intros [= <- <-]. destruct (remove_surface_inv surface_id r _ Hr) as (new & ? & ?). by eapply link_registry_inv.
  - intros [= <- <-]. destruct (remove_surfaces_inv (omap (fun key => if key_generation key =? generation0
      then sa_surface_id <$> by_serial r !! key else None) (hash_keys (by_serial r))) r _ Hr) as (new & ? & ?).
    by eapply link_registry_inv.
  - intros [= <- <-]. exists d. cbn. rewrite app_nil_r. destruct Hr. by split.
  - destruct q as [|e q]; [by intros [= <- <-]; exists d|]. destruct (ingest e j) as [j' o'] eqn:Ei. intros [= <- <-].
    exists (d ++ [e]). cbn [lk_registry lk_queue lk_join]. rewrite <- app_assoc. split; [done|].
    assert (He : event_ok (published d) e) by (destruct Hr as [_ Hl _ _]; apply log_ok_app in Hl as [_ [Hl _]]; done).
    destruct (deliver_ok (published d) e j He Hj Hm) as (K1 & K2 & _). rewrite Ei in K1, K2. by rewrite published_snoc.
  - destruct (decide _) as [|Hw]; [by intros [= <- <-]; exists d|]. apply dec_stable in Hw.
    destruct (note_x11_serial_for_map window serial map_serial j) as [[j' o']|?| |] eqn:En; try done. intros [= <- <-].
    exists d. split; [done|]. cbn. split; [by eapply note_x11_inv|by eapply note_x11_mirror].
  - destruct (decide _) as [|Hw]; [by intros [= <- <-]; exists d|]. intros [= <- <-]. exists d. split; [done|]. cbn.
    split; [by apply remove_window_inv|by apply remove_x11_mirror].
  - intros [= <- <-]. exists d. split; [done|]. cbn. split; [by destruct Hj|done].
Qed.
Inductive Linked : Link -> Prop :=
| linked_start : Linked (mkLink registry_new [] join_new)
| linked_step l e l' o : Linked l -> link_step e l = Ret (l', o) -> Linked l'.
Lemma linked_inv l : Linked l -> LinkInv l.
Proof.
  induction 1; [|by eapply link_step_inv]. exists []. cbn. split; [apply registry_new_inv|]. split; [apply join_new_inv|].
  split; cbn; intros *; by rewrite lookup_empty.
Qed.

(** C39: however commits and removals of surfaces, generations that end, serials
    and removals of windows and the delivery of events interleave, the two
    indexes of the registry stay inverse, every surface the join holds is one
    whose serial was reported last by the delivered events, and a delivered
    event of the generation the window manager serves is accepted (a commit is
    never refused as a duplicate or for a mismatch), while one of another
    generation is refused as stale and changes nothing but the queue. *)
Theorem delivered_commits_are_accepted l :
  Linked l ->
  (forall f k, by_surface (lk_registry l) !! f = Some k <->
     exists g s, serial_ok s /\ k = serial_key g s /\ by_serial (lk_registry l) !! k = Some (mkSurfaceAssociation g s f)) /\
  (exists delivered, log_ok ∅ (delivered ++ lk_queue l ++ reg_events (lk_registry l)) /\
     Mirror (published delivered) (lk_join l)) /\
  forall e q, lk_queue l = e :: q ->
    exists j' o, link_step LkDeliver l = Ret (mkLink (lk_registry l) q j', o) /\
      (event_generation e = generation -> o = None) /\
      (event_generation e <> generation -> o = Some StaleGeneration /\ j' = lk_join l).
Proof.
  intros H. destruct (linked_inv l H) as (d & Hr & Hj & Hm). split_and!.
  - intros f k. split; [apply Hr|]. intros (g & s & _ & _ & E). by apply (ri_serial _ _ Hr) in E.
  - exists d. split; [apply Hr|done].
  - intros e q Eq. destruct l as [r q' j]; cbn in *. subst q'.
    assert (He : event_ok (published d) e) by (destruct Hr as [_ Hl _ _]; apply log_ok_app in Hl as [_ [Hl _]]; done).
    destruct (deliver_ok (published d) e j He Hj Hm) as (_ & _ & K1 & K2).
    destruct (ingest e j) as [j' o]. exists j', o. split; [done|]. split; [done|].
    intros Hg. by injection (K2 Hg) as -> ->.
Qed.
End Linking.

Definition link_demo : Link :=
  mkLink (mkRegistry {[serial_key 1 10 := mkSurfaceAssociation 1 10 41]} {[41 := serial_key 1 10]} [])
    [EvCommitted 1 10 41] join_new.
Lemma link_demo_linked generation : Linked (order := list_order) generation link_demo.
Proof.
  eapply (linked_step _ _ LkTakeEvents); [eapply (linked_step _ _ (LkCommit 1 10 41)); [apply linked_start|]|];
    vm_compute; reflexivity.
Qed.
(** Served by generation 1 the commit is accepted, by generation 2 it is stale. *)
Lemma delivered_commits_are_accepted_witness :
  (exists j', link_step (order := list_order) 1 LkDeliver link_demo
              = Ret (mkLink (lk_registry link_demo) [] j', None)) /\
  link_step (order := list_order) 2 LkDeliver link_demo
  = Ret (mkLink (lk_registry link_demo) [] join_new, Some StaleGeneration).
Proof.
  split.
  - destruct (proj2 (proj2 (delivered_commits_are_accepted (order := list_order) 1 link_demo (link_demo_linked 1)))
      _ _ eq_refl) as (j' & o & E & K & _).
    exists j'. rewrite E. by rewrite (K eq_refl).
  - destruct (proj2 (proj2 (delivered_commits_are_accepted (order := list_order) 2 link_demo (link_demo_linked 2)))
      _ _ eq_refl) as (j' & o & E & _ & K).
    destruct (K ltac:(discriminate)) as [-> ->]. exact E.
Defined.
