(* ===== verification/WindowRegistry.v ===== *)
(** * WindowRegistry: the life of an X11 window

    Models the registry of X11 windows (src/xwayland/xwm/window.rs) and the
    handlers that drive it: map, unmap and destroy events
    (src/xwayland/xwm/events.rs), map and unmap commands
    (src/xwayland/xwm/commands.rs), associations and buffers
    (src/xwayland/xwm/resize_runtime.rs, src/xwayland/xwm/api.rs) and property
    replies (src/xwayland/xwm/properties.rs). A window is announced to the
    compositor once it is mapped, associated with a surface that has content and
    its properties are read; it is withdrawn when one of these goes away.

    The X connection, timers and traces are outside; the properties the registry
    copies without reading are one value of a parameter type. *)

From stdpp Require Import base list option gmap.
From Stdlib Require Import ZArith Lia.
From S2P Require Import Prelude ConfigureTimeline AssociationJoin.

Inductive X11WindowLifecycle : Type :=
  Observed | Auxiliary | MapRequested | PropertiesPending | MapCommanded | MappedAwaitingAssociation
| AssociatedAwaitingBuffer | Renderable | Iconic | Withdrawn | Destroyed.
#[export] Instance X11WindowLifecycle_eq_dec : EqDecision X11WindowLifecycle.
Proof. solve_decision. Defined.
Inductive DesktopWindowKind : Type := Managed | KindOverrideRedirect.
#[export] Instance DesktopWindowKind_eq_dec : EqDecision DesktopWindowKind.
Proof. solve_decision. Defined.
Inductive X11WindowType : Type :=
  WtNormal | WtDialog | WtUtility | WtMenu | WtPopupMenu | WtDropdownMenu | WtTooltip | WtNotification | WtCombo | WtSplash
| WtToolbar | WtDock | WtDesktop | WtDnd | WtOther (atom : Z).
#[export] Instance X11WindowType_eq_dec : EqDecision X11WindowType.
Proof. solve_decision. Defined.
Inductive X11DesktopRole : Type :=
  RoleToplevel | RoleDialog | RoleAuxiliaryPopup | RoleNotification | RoleOverrideRedirect | RoleAuxiliarySupport.
Inductive AuxiliaryReconciliation : Type := AuxUnchanged | WithdrawDesktop | ReadinessRestored.
Inductive KindReconciliation : Type := KindUnchanged | KindChanged (old new : DesktopWindowKind).
Inductive RegistryError : Type :=
  UnknownWindow | WindowDestroyed | AlreadyAssociated | AlreadyReady | NoLongerMappable | NotRequested.

(** ** Roles *)

Definition is_other (t : X11WindowType) : bool := match t with WtOther _ => true | _ => false end.
Definition preferred_supported_type (types : list X11WindowType) : option X11WindowType :=
  snd <$> list_find (fun t => is_other t = false) types.
Definition classify_x11_role (kind : DesktopWindowKind) (types : list X11WindowType)
  (transient_for override_redirect : bool) : X11DesktopRole :=
  if override_redirect || bool_decide (kind = KindOverrideRedirect) then RoleOverrideRedirect
  else match preferred_supported_type types with
       | Some (WtMenu | WtPopupMenu | WtDropdownMenu | WtTooltip | WtCombo | WtDnd) => RoleAuxiliaryPopup
       | Some WtNotification => RoleNotification
       | Some (WtDialog | WtUtility | WtSplash | WtToolbar) => RoleDialog
       | Some (WtDock | WtDesktop) => RoleAuxiliarySupport
       | Some (WtNormal | WtOther _) | None => if transient_for then RoleDialog else RoleToplevel
       end.
Definition x11_placement_policy (role : X11DesktopRole) : X11PlacementPolicy :=
  match role with
  | RoleToplevel => CompositorManaged
  | RoleDialog => ParentRelative
  | RoleAuxiliaryPopup | RoleNotification | RoleAuxiliarySupport => ClientPositioned
  | RoleOverrideRedirect => OverrideRedirect
  end.

Section Registry.
Context {D : Type}.

(** The properties the registry reads, and the rest. *)
Record X11PropertySnapshot : Type := mkProps {
  window_types : list X11WindowType; accepts_input : option bool; client_leader : option Z; transient_for : option Z;
  details : D
}.
Record X11WindowSnapshot : Type := mkSnapshot {
  sn_handle : Z; sn_surface_id : Z; sn_kind : DesktopWindowKind; sn_override_redirect : bool;
  sn_geometry : X11Geometry; sn_window_types : list X11WindowType; sn_accepts_input : option bool;
  sn_transient_for : option Z; sn_details : D
}.
Record X11WindowRecord : Type := mkRecord {
  lifecycle : X11WindowLifecycle; snapshot : option X11WindowSnapshot; kind : DesktopWindowKind;
  geometry : X11Geometry; map_requested : bool; map_authorized : bool; mapped_notified : bool;
  association : option AssociatedSurface; buffer_ready : bool; map_operation_pending : bool;
  properties : X11PropertySnapshot; properties_ready : bool; map_serial : Z; inflight_wm_unmaps : Z
}.
Definition set_lifecycle (l : X11WindowLifecycle) (r : X11WindowRecord) : X11WindowRecord :=
  mkRecord l (snapshot r) (kind r) (geometry r) (map_requested r) (map_authorized r) (mapped_notified r)
    (association r) (buffer_ready r) (map_operation_pending r) (properties r) (properties_ready r) (map_serial r)
    (inflight_wm_unmaps r).
Definition set_snapshot (s : option X11WindowSnapshot) (r : X11WindowRecord) : X11WindowRecord :=
  mkRecord (lifecycle r) s (kind r) (geometry r) (map_requested r) (map_authorized r) (mapped_notified r)
    (association r) (buffer_ready r) (map_operation_pending r) (properties r) (properties_ready r) (map_serial r)
    (inflight_wm_unmaps r).
(** The five flags of the mapping: requested, authorized, notified, buffer,
    operation pending. *)
Definition set_flags (requested authorized notified buffer pending : bool) (r : X11WindowRecord) : X11WindowRecord :=
  mkRecord (lifecycle r) (snapshot r) (kind r) (geometry r) requested authorized notified (association r) buffer
    pending (properties r) (properties_ready r) (map_serial r) (inflight_wm_unmaps r).
Definition set_buffer (b : bool) (r : X11WindowRecord) : X11WindowRecord :=
  set_flags (map_requested r) (map_authorized r) (mapped_notified r) b (map_operation_pending r) r.
Definition set_association (a : option AssociatedSurface) (r : X11WindowRecord) : X11WindowRecord :=
  mkRecord (lifecycle r) (snapshot r) (kind r) (geometry r) (map_requested r) (map_authorized r) (mapped_notified r)
    a (buffer_ready r) (map_operation_pending r) (properties r) (properties_ready r) (map_serial r)
    (inflight_wm_unmaps r).
Definition set_properties_ready (b : bool) (r : X11WindowRecord) : X11WindowRecord :=
  mkRecord (lifecycle r) (snapshot r) (kind r) (geometry r) (map_requested r) (map_authorized r) (mapped_notified r)
    (association r) (buffer_ready r) (map_operation_pending r) (properties r) b (map_serial r)
    (inflight_wm_unmaps r).
Definition set_counters (serial inflight : Z) (r : X11WindowRecord) : X11WindowRecord :=
  mkRecord (lifecycle r) (snapshot r) (kind r) (geometry r) (map_requested r) (map_authorized r) (mapped_notified r)
    (association r) (buffer_ready r) (map_operation_pending r) (properties r) (properties_ready r) serial inflight.
Definition next_serial (r : X11WindowRecord) : Z := Z.max (sat_add u64_max (map_serial r) 1) 1.
Definition bump_serial (r : X11WindowRecord) : X11WindowRecord := set_counters (next_serial r) (inflight_wm_unmaps r) r.

(** ** Operations on a record *)

Abbreviation op A := (res RegistryError A).
Definition new_record (k : DesktopWindowKind) (g : X11Geometry) (defaults : X11PropertySnapshot) : X11WindowRecord :=
  mkRecord Observed None k g false false false None false false defaults false 0 0.
Definition is_auxiliary_client_leader (handle : Z) (r : X11WindowRecord) : bool :=
  bool_decide (kind r = Managed) && (xg_width (geometry r) <=? 16) && (xg_height (geometry r) <=? 16)
  && bool_decide (client_leader (properties r) = Some handle)
  && bool_decide (window_types (properties r) = []) && bool_decide (accepts_input (properties r) = None).
Definition update_pending_lifecycle (r : X11WindowRecord) : X11WindowRecord :=
  if bool_decide (is_Some (snapshot r)) && buffer_ready r && mapped_notified r then set_lifecycle Renderable r
  else set_lifecycle
    (if map_operation_pending r then MapCommanded
     else if map_requested r && negb (properties_ready r) then PropertiesPending
     else if map_requested r && negb (mapped_notified r) then MapRequested
     else if map_requested r && bool_decide (association r = None) then MappedAwaitingAssociation
     else if map_requested r && negb (buffer_ready r) then AssociatedAwaitingBuffer
     else Observed) r.
Definition reconcile_kind (k : DesktopWindowKind) (r : X11WindowRecord) : X11WindowRecord * KindReconciliation :=
  if decide (kind r = k) then (r, KindUnchanged)
  else
    (mkRecord (lifecycle r)
       ((fun s => mkSnapshot (sn_handle s) (sn_surface_id s) k (bool_decide (k = KindOverrideRedirect)) (sn_geometry s)
                    (sn_window_types s) (sn_accepts_input s) (sn_transient_for s) (sn_details s)) <$> snapshot r)
       k (geometry r) (map_requested r) (map_authorized r) (mapped_notified r) (association r) (buffer_ready r)
       (map_operation_pending r) (properties r) (properties_ready r) (map_serial r) (inflight_wm_unmaps r),
     KindChanged (kind r) k).
Definition mark_map_requested (r : X11WindowRecord) : op X11WindowRecord :=
  if decide (lifecycle r = Destroyed) then Fail WindowDestroyed
  else if map_requested r && negb (bool_decide (lifecycle r = Withdrawn) || bool_decide (lifecycle r = Iconic)) then Ret r
  else
    let remapping_iconic := bool_decide (lifecycle r = Iconic) in
    let r := bump_serial r in
    let r := set_flags true false false (buffer_ready r) (map_operation_pending r) r in
    let r := if remapping_iconic then r
             else set_properties_ready false (set_snapshot None (set_counters (map_serial r) 0 r)) in
    let r := if remapping_iconic then set_buffer false r else r in
    Ret (update_pending_lifecycle r).
Definition mark_map_authorized (r : X11WindowRecord) : X11WindowRecord * bool :=
  if map_authorized r then (r, false)
  else (update_pending_lifecycle
          (set_flags (map_requested r) true (mapped_notified r) (buffer_ready r) (map_operation_pending r) r), true).
Definition mark_associated (a : AssociatedSurface) (r : X11WindowRecord) : op X11WindowRecord :=
  if decide (is_Some (association r)) then Fail AlreadyAssociated
  else
    let remapping := map_requested r && negb (buffer_ready r)
      && (match lifecycle r with
          | Iconic | MapCommanded | MappedAwaitingAssociation | AssociatedAwaitingBuffer => true
          | _ => false
          end) in
    if bool_decide (is_Some (snapshot r)) && negb remapping then Fail AlreadyReady
    else Ret (update_pending_lifecycle (set_association (Some a) r)).
Definition replace_associated (a : AssociatedSurface) (r : X11WindowRecord) : X11WindowRecord :=
  let r := set_buffer false (set_association (Some a) r) in
  if decide (lifecycle r = Iconic) then r else update_pending_lifecycle r.
Definition clear_association (surface : Z) (preserve : bool) (r : X11WindowRecord) : X11WindowRecord * bool :=
  match association r with
  | Some a =>
      if as_surface_id a =? surface then
        let r := set_buffer false (set_association None r) in
        let was_ready := negb preserve && bool_decide (is_Some (snapshot r)) in
        let r := if preserve then r else set_snapshot None r in
        (if negb preserve || negb (bool_decide (lifecycle r = Iconic)) then update_pending_lifecycle r else r, was_ready)
      else (r, false)
  | None => (r, false)
  end.
Definition mark_buffer_ready (r : X11WindowRecord) : op X11WindowRecord :=
  match lifecycle r with
  | Withdrawn | Destroyed => Fail NoLongerMappable
  | _ => Ret (update_pending_lifecycle (set_buffer true r))
  end.
Definition try_ready (handle : Z) (r : X11WindowRecord) : res RegistryError (X11WindowRecord * option X11WindowSnapshot) :=
  if bool_decide (is_Some (snapshot r)) || negb (map_requested r) || negb (buffer_ready r)
     || bool_decide (association r = None) || negb (mapped_notified r)
     || bool_decide (lifecycle r = Withdrawn) || bool_decide (lifecycle r = Destroyed)
  then Ret (r, None)
  else
    a ← expect (association r);
    if is_auxiliary_client_leader handle r then Ret (set_lifecycle Auxiliary r, None)
    else
      let s := mkSnapshot handle (as_surface_id a) (kind r) (bool_decide (kind r = KindOverrideRedirect)) (geometry r)
                 (window_types (properties r)) (accepts_input (properties r)) (transient_for (properties r))
                 (details (properties r)) in
      Ret (set_snapshot (Some s) (set_lifecycle Renderable r), Some s).
Definition reconcile_auxiliary (handle : Z) (r : X11WindowRecord) : X11WindowRecord * AuxiliaryReconciliation :=
  if is_auxiliary_client_leader handle r then
    (set_lifecycle Auxiliary (set_snapshot None r),
     if decide (is_Some (snapshot r)) then WithdrawDesktop else AuxUnchanged)
  else if decide (lifecycle r = Auxiliary) then (update_pending_lifecycle (set_lifecycle Observed r), ReadinessRestored)
  else (r, AuxUnchanged).
Definition mark_map_commanded (r : X11WindowRecord) : op X11WindowRecord :=
  if negb (map_requested r) then Fail NotRequested
  else
    let r := if decide (lifecycle r = Iconic)
             then set_flags (map_requested r) (map_authorized r) false false (map_operation_pending r) (bump_serial r)
             else r in
    let r := set_flags (map_requested r) true (mapped_notified r) (buffer_ready r) true r in
    Ret (if bool_decide (snapshot r = None) || negb (buffer_ready r) then set_lifecycle MapCommanded r else r).
(** The state after a map: announced windows with content are shown. *)
Definition mapped_lifecycle (r : X11WindowRecord) : X11WindowLifecycle :=
  if bool_decide (is_Some (snapshot r)) && buffer_ready r then Renderable
  else if decide (is_Some (association r)) then AssociatedAwaitingBuffer
  else MappedAwaitingAssociation.
Definition adopt_mapped (r : X11WindowRecord) : X11WindowRecord :=
  let r := if mapped_notified r then r else bump_serial r in
  let r := set_flags true true true (buffer_ready r) false r in
  set_lifecycle (if decide (is_Some (association r)) then AssociatedAwaitingBuffer else MappedAwaitingAssociation) r.
Definition map_command_is_new (r : X11WindowRecord) : bool :=
  negb (map_operation_pending r) && negb (mapped_notified r) && map_requested r.
Definition confirm_map_notify (r : X11WindowRecord) : X11WindowRecord * bool :=
  if map_operation_pending r then
    let r := set_flags (map_requested r) true true (buffer_ready r) false r in
    (set_lifecycle (mapped_lifecycle r) r, true)
  else (r, false).
Definition confirm_external_map_notify (r : X11WindowRecord) : X11WindowRecord :=
  let r := if mapped_notified r then r else bump_serial r in
  let r := set_flags true true true (buffer_ready r) false r in
  set_lifecycle (mapped_lifecycle r) r.
Definition mark_unmapped (r : X11WindowRecord) : X11WindowRecord * bool :=
  (set_properties_ready false
     (set_snapshot None (set_flags false false false false false (set_counters (map_serial r) 0 (set_lifecycle Withdrawn r)))),
   bool_decide (lifecycle r = Renderable)).
Definition mark_wm_unmap_requested (r : X11WindowRecord) : op X11WindowRecord :=
  if decide (lifecycle r = Destroyed) then Fail WindowDestroyed
  else Ret (set_flags (map_requested r) false false false false
              (set_lifecycle Iconic (set_counters (map_serial r) (sat_add u32_max (inflight_wm_unmaps r) 1) r))).
Definition consume_wm_unmap (r : X11WindowRecord) : X11WindowRecord * bool :=
  if inflight_wm_unmaps r =? 0 then (r, false)
  else
    let restore_in_progress := map_authorized r || map_operation_pending r || mapped_notified r in
    let r := set_counters (map_serial r) (inflight_wm_unmaps r - 1) r in
    (if restore_in_progress then r else set_lifecycle Iconic r, true).

(** ** The handlers *)

(** What the compositor is told of a window; requests of clients are passed on
    with their handle alone. *)
Inductive XwmEvent : Type :=
| WindowReady (s : X11WindowSnapshot)
| WindowWithdrawn (handle : Z)
| EvWindowDestroyed (handle : Z)
| WindowMapRequested (handle : Z)
| WindowAdmissionCancelled (handle : Z)
| MetadataKind (handle : Z) (k : DesktopWindowKind)
| EvConfigureRequested (handle : Z)
| EvConfigureNotify (handle : Z) (g : X11Geometry).
Record Xwm : Type := mkXwm { windows : gmap Z X11WindowRecord; outgoing : list XwmEvent }.
Definition xwm_new : Xwm := mkXwm ∅ [].
Definition put (h : Z) (r : X11WindowRecord) (x : Xwm) : Xwm := mkXwm (<[h := r]> (windows x)) (outgoing x).
Definition emit (e : XwmEvent) (x : Xwm) : Xwm := mkXwm (windows x) (outgoing x ++ [e]).
Definition geometry_default : X11Geometry := mkGeo 0 0 0 0.
(** [observe_window_with_kind]: a window seen for the first time. *)
Definition observe_window_with_kind (defaults : X11PropertySnapshot) (h : Z) (k : DesktopWindowKind) (g : X11Geometry)
  (x : Xwm) : Xwm * bool :=
  match windows x !! h with Some _ => (x, false) | None => (put h (new_record k g defaults) x, true) end.
Definition reconcile_window_kind (h : Z) (k : DesktopWindowKind) (x : Xwm) : op Xwm :=
  r ← ok_or UnknownWindow (windows x !! h);
  let '(r', c) := reconcile_kind k r in
  let x := put h r' x in
  Ret (match c with
       | KindChanged _ _ => if decide (is_Some (snapshot r')) then emit (MetadataKind h k) x else x
       | KindUnchanged => x
       end).
Definition emit_ready_if_complete (h : Z) (x : Xwm) : op Xwm :=
  match windows x !! h with
  | None => Ret x
  | Some r =>
      if properties_ready r then
        '(r, s) ← try_ready h r;
        let x := put h r x in
        Ret (match s with Some s => emit (WindowReady s) x | None => x end)
      else Ret x
  end.
Definition authorize_map_if_requested (h : Z) (x : Xwm) : Xwm :=
  match windows x !! h with
  | None => x
  | Some r =>
      if map_requested r && bool_decide (kind r = Managed) && negb (map_authorized r) then
        let '(r, ok) := mark_map_authorized r in
        let x := put h r x in
        if ok : bool then emit (WindowMapRequested h) x else x
      else x
  end.
(** [begin_refresh]: the properties of a window that is not announced are not
    ready until they are read again. *)
Definition refresh_window_properties (h : Z) (x : Xwm) : Xwm :=
  match windows x !! h with
  | None => x
  | Some r => put h (if decide (snapshot r = None) then set_properties_ready false r else r) x
  end.
(** New properties are committed, also to the announced snapshot; [shown] are
    the details the snapshot gets, [complete] when they end a refresh of all. *)
Definition publish_properties (complete : bool) (p : X11PropertySnapshot) (shown : D) (r : X11WindowRecord)
  : X11WindowRecord :=
  mkRecord (lifecycle r)
    ((fun s => mkSnapshot (sn_handle s) (sn_surface_id s) (sn_kind s) (bool_decide (kind r = KindOverrideRedirect))
                 (sn_geometry s) (window_types p) (accepts_input p) (transient_for p) shown) <$> snapshot r)
    (kind r) (geometry r) (map_requested r) (map_authorized r) (mapped_notified r) (association r) (buffer_ready r)
    (map_operation_pending r) p (complete || properties_ready r) (map_serial r) (inflight_wm_unmaps r).
Definition create_notify (defaults : X11PropertySnapshot) (h : Z) (k : DesktopWindowKind) (g : X11Geometry) (x : Xwm)
  : op Xwm :=
  let '(x, inserted) := observe_window_with_kind defaults h k g x in
  if inserted : bool then Ret x else reconcile_window_kind h k x.
Definition map_request (defaults : X11PropertySnapshot) (h : Z) (x : Xwm) : op Xwm :=
  let '(x, _) := observe_window_with_kind defaults h Managed geometry_default x in
  x ← reconcile_window_kind h Managed x;
  r ← ok_or UnknownWindow (windows x !! h);
  if map_requested r && negb (bool_decide (lifecycle r = Iconic) || bool_decide (lifecycle r = Withdrawn)) then Ret x
  else
    r ← mark_map_requested r;
    let x := authorize_map_if_requested h (put h r x) in
    emit_ready_if_complete h (refresh_window_properties h x).
Definition map_notify (defaults : X11PropertySnapshot) (k : DesktopWindowKind) (h : Z) (x : Xwm) : op Xwm :=
  let '(x, _) := observe_window_with_kind defaults h k geometry_default x in
  x ← reconcile_window_kind h k x;
  r ← ok_or UnknownWindow (windows x !! h);
  if map_operation_pending r then emit_ready_if_complete h (put h (confirm_map_notify r).1 x)
  else emit_ready_if_complete h (refresh_window_properties h (put h (confirm_external_map_notify r) x)).
Definition unmap_notify (h : Z) (x : Xwm) : Xwm :=
  match windows x !! h with
  | None => x
  | Some r =>
      let was_ready := bool_decide (is_Some (snapshot r)) || bool_decide (lifecycle r = Renderable) in
      let '(r1, consumed) := consume_wm_unmap r in
      if consumed : bool then put h r1 x
      else
        let r2 := match association r with Some a => (clear_association (as_surface_id a) false r1).1 | None => r1 end in
        let x := put h (mark_unmapped r2).1 x in
        if was_ready then emit (WindowWithdrawn h) x
        else if decide (kind r = KindOverrideRedirect) then emit (WindowAdmissionCancelled h) x else x
  end.
Definition destroy_notify (h : Z) (x : Xwm) : Xwm :=
  match windows x !! h with
  | None => x
  | Some r =>
      let was_ready := bool_decide (is_Some (snapshot r)) || bool_decide (lifecycle r = Renderable) in
      let x := mkXwm (delete h (windows x)) (outgoing x) in
      if was_ready || bool_decide (kind r <> KindOverrideRedirect) then emit (EvWindowDestroyed h) x
      else emit (WindowAdmissionCancelled h) x
  end.
(** [XwmCommand::Map] and [XwmCommand::Unmap], with the requests to the server
    answered. *)
Definition command_map (h : Z) (x : Xwm) : op Xwm :=
  x ← (match windows x !! h with
       | Some r => if decide (lifecycle r = Iconic) then (r ← mark_map_requested r; Ret (put h r x)) else Ret x
       | None => Ret x
       end : op Xwm);
  r ← ok_or UnknownWindow (windows x !! h);
  if map_command_is_new r then
    Ret (match mark_map_commanded r with Ret r => put h r x | _ => x end)
  else Ret x.
Definition command_unmap (h : Z) (x : Xwm) : op Xwm :=
  r ← ok_or UnknownWindow (windows x !! h);
  r ← mark_wm_unmap_requested r;
  Ret (put h r x).
(** A completed association of [sync_completed_associations]; [content] tells
    whether the surface already has a buffer. *)
Definition association_complete (a : AssociatedSurface) (content : bool) (h : Z) (x : Xwm) : op Xwm :=
  match windows x !! h with
  | None => Ret x
  | Some r =>
      let r := if decide (association r = Some a) then r
               else match association r with
                    | Some _ => replace_associated a r
                    | None => match mark_associated a r with Ret r' => r' | _ => r end
                    end in
      let r := if content then match mark_buffer_ready r with Ret r' => r' | _ => r end else r in
      emit_ready_if_complete h (put h r x)
  end.
Definition mark_window_buffer_ready (h : Z) (x : Xwm) : op Xwm :=
  r ← ok_or UnknownWindow (windows x !! h);
  r ← mark_buffer_ready r;
  emit_ready_if_complete h (put h r x).
(** Whether a window keeps its identity without its surface: it is iconified,
    or mapped again since it got that surface. *)
Definition preserves_identity (removed : option AssociatedSurface) (r : X11WindowRecord) : bool :=
  bool_decide (lifecycle r = Iconic)
  || match removed with Some a => as_map_serial a <? map_serial r | None => false end.
(** The Wayland surface of a window goes away; [removed] is the association
    that was completed with it. *)
Definition surface_removed (surface : Z) (removed : option AssociatedSurface) (h : Z) (x : Xwm) : op Xwm :=
  r ← ok_or UnknownWindow (windows x !! h);
  let preserve := preserves_identity removed r in
  let '(r, cleared) := clear_association surface preserve r in
  let x := put h r x in
  Ret (if cleared && negb preserve then emit (WindowWithdrawn h) x else x).
(** A property reply. *)
Definition property_reply (complete : bool) (p : X11PropertySnapshot) (shown : D) (h : Z) (x : Xwm) : op Xwm :=
  r ← ok_or UnknownWindow (windows x !! h);
  let '(r, c) := reconcile_auxiliary h (publish_properties complete p shown r) in
  let x := put h r x in
  Ret (match c with WithdrawDesktop => emit (WindowWithdrawn h) x | _ => x end).
(** The authority over the geometry of a window, from its announced role. *)
Definition geometry_authority (h : Z) (x : Xwm) : X11PlacementPolicy :=
  match windows x !! h ≫= snapshot with
  | Some s => x11_placement_policy (classify_x11_role (sn_kind s) (sn_window_types s)
                (bool_decide (is_Some (sn_transient_for s))) (sn_override_redirect s))
  | None => CompositorManaged
  end.
Definition applies_geometry (c : ConfigureNotifyClassification) : bool :=
  match c with
  | ExpectedCurrent | ExpectedCoalesced | ExternalAuthoritative | ExternalAuthoritativeSequenceCollision
  | ClientAuthoritativeRetiredReuse => true
  | _ => false
  end.
Definition set_geometry (g : X11Geometry) (r : X11WindowRecord) : X11WindowRecord :=
  mkRecord (lifecycle r)
    ((fun s => mkSnapshot (sn_handle s) (sn_surface_id s) (sn_kind s) (sn_override_redirect s) g (sn_window_types s)
                 (sn_accepts_input s) (sn_transient_for s) (sn_details s)) <$> snapshot r)
    (kind r) g (map_requested r) (map_authorized r) (mapped_notified r) (association r) (buffer_ready r)
    (map_operation_pending r) (properties r) (properties_ready r) (map_serial r) (inflight_wm_unmaps r).
Definition apply_configure_notify_record (h : Z) (g : X11Geometry) (c : ConfigureNotifyClassification) (preserve : bool)
  (x : Xwm) : Xwm :=
  if applies_geometry c && negb preserve then
    match windows x !! h with Some r => put h (set_geometry g r) x | None => x end
  else x.
(** [ConfigureNotify] with the answer of the window's timeline. *)
Definition configure_notify (k : DesktopWindowKind) (g : X11Geometry) (c : ConfigureNotifyClassification) (preserve : bool)
  (h : Z) (x : Xwm) : op Xwm :=
  match windows x !! h with
  | None => Ret x
  | Some _ =>
      x ← reconcile_window_kind h k x;
      let x := apply_configure_notify_record h g c preserve x in
      Ret (if forwards_to_compositor c then emit (EvConfigureNotify h g) x else x)
  end.
Definition configure_request (defaults : X11PropertySnapshot) (h : Z) (x : Xwm) : Xwm :=
  emit (EvConfigureRequested h) (observe_window_with_kind defaults h Managed geometry_default x).1.
(** A window that is mapped when the window manager starts. *)
Definition adopt_window (defaults : X11PropertySnapshot) (h : Z) (k : DesktopWindowKind) (g : X11Geometry) (is_mapped : bool)
  (x : Xwm) : Xwm :=
  let '(x, _) := observe_window_with_kind defaults h k g x in
  match windows x !! h with
  | Some r => if is_mapped then put h (adopt_mapped r) x else x
  | None => x
  end.
Inductive XwmStep : Type :=
| CreateNotify (defaults : X11PropertySnapshot) (h : Z) (k : DesktopWindowKind) (g : X11Geometry)
| MapRequest (defaults : X11PropertySnapshot) (h : Z)
| MapNotify (defaults : X11PropertySnapshot) (k : DesktopWindowKind) (h : Z)
| UnmapNotify (h : Z)
| DestroyNotify (h : Z)
| CommandMap (h : Z)
| CommandUnmap (h : Z)
| AssociationComplete (a : AssociatedSurface) (content : bool) (h : Z)
| BufferReady (h : Z)
| SurfaceRemoved (surface : Z) (removed : option AssociatedSurface) (h : Z)
| PropertyReply (complete : bool) (p : X11PropertySnapshot) (shown : D) (h : Z)
| EmitReady (h : Z)
| ConfigureNotify (k : DesktopWindowKind) (g : X11Geometry) (c : ConfigureNotifyClassification) (preserve : bool) (h : Z)
| ConfigureRequest (defaults : X11PropertySnapshot) (h : Z)
| Adopt (defaults : X11PropertySnapshot) (h : Z) (k : DesktopWindowKind) (g : X11Geometry) (is_mapped : bool).
(** One event or command; what is refused changes nothing. *)
Definition xwm_step (e : XwmStep) (x : Xwm) : op Xwm :=
  match e with
  | CreateNotify d h k g => create_notify d h k g x
  | MapRequest d h => map_request d h x
  | MapNotify d k h => map_notify d k h x
  | UnmapNotify h => Ret (unmap_notify h x)
  | DestroyNotify h => Ret (destroy_notify h x)
  | CommandMap h => command_map h x
  | CommandUnmap h => command_unmap h x
  | AssociationComplete a content h => association_complete a content h x
  | BufferReady h => mark_window_buffer_ready h x
  | SurfaceRemoved surface removed h => surface_removed surface removed h x
  | PropertyReply complete p shown h => property_reply complete p shown h x
  | EmitReady h => emit_ready_if_complete h x
  | ConfigureNotify k g c preserve h => configure_notify k g c preserve h x
  | ConfigureRequest d h => Ret (configure_request d h x)
  | Adopt d h k g is_mapped => Ret (adopt_window d h k g is_mapped x)
  end.
End Registry.
