(* ===== verification/WindowLifecycle.v ===== *)
(** * WindowLifecycle: what holds of X11 windows in every history

    The theory of [WindowRegistry]: the invariant of a window record, the
    announcements the compositor gets, and a state the registry can reach
    against its own rules. *)

From stdpp Require Import base list option gmap.
From Stdlib Require Import ZArith Lia.
From S2P Require Import Prelude ConfigureTimeline AssociationJoin WindowRegistry.

Section Theory.
Context {D : Type}.
Implicit Types (r : @X11WindowRecord D) (x : @Xwm D).

(** An announced snapshot agrees with its record. *)
Definition snapshot_ok (h : Z) r (s : @X11WindowSnapshot D) : Prop :=
  sn_handle s = h /\ sn_kind s = kind r /\ sn_override_redirect s = bool_decide (kind r = KindOverrideRedirect) /\
  sn_geometry s = geometry r /\ sn_window_types s = window_types (properties r) /\
  sn_accepts_input s = accepts_input (properties r) /\ sn_transient_for s = transient_for (properties r).
Record rec_ok (h : Z) r : Prop := {
  ro_alive : lifecycle r <> Destroyed;
  (** A window that is shown is announced, mapped and has content. *)
  ro_renderable : lifecycle r = Renderable -> is_Some (snapshot r) /\ buffer_ready r = true /\ mapped_notified r = true;
  ro_announced : is_Some (snapshot r) -> map_requested r = true;
  ro_snapshot : forall s, snapshot r = Some s -> snapshot_ok h r s;
  ro_pending : map_operation_pending r = true -> map_requested r = true /\ map_authorized r = true /\ mapped_notified r = false;
  ro_mapped : mapped_notified r = true -> map_requested r = true /\ map_authorized r = true;
  (** An iconified window is not being mapped, a withdrawn one is forgotten. *)
  ro_iconic : lifecycle r = Iconic -> map_authorized r = false /\ map_operation_pending r = false /\ mapped_notified r = false;
  ro_withdrawn : lifecycle r = Withdrawn ->
    map_requested r = false /\ snapshot r = None /\ buffer_ready r = false;
  ro_auxiliary : lifecycle r = Auxiliary -> snapshot r = None;
  ro_inflight : 0 <= inflight_wm_unmaps r
}.
(** The part of it that does not speak of the lifecycle. *)
Record core_ok (h : Z) r : Prop := {
  co_announced : is_Some (snapshot r) -> map_requested r = true;
  co_snapshot : forall s, snapshot r = Some s -> snapshot_ok h r s;
  co_pending : map_operation_pending r = true -> map_requested r = true /\ map_authorized r = true /\ mapped_notified r = false;
  co_mapped : mapped_notified r = true -> map_requested r = true /\ map_authorized r = true;
  co_inflight : 0 <= inflight_wm_unmaps r
}.
Lemma rec_core h r : rec_ok h r -> core_ok h r.
Proof. by intros []. Qed.
Lemma update_lifecycle_ok h r : core_ok h r -> rec_ok h (update_pending_lifecycle r).
Proof.
  intros [H2 H3 H4 H5 H6]. unfold update_pending_lifecycle.
  destruct (bool_decide (is_Some (snapshot r))) eqn:Es; cbn [andb].
  - apply bool_decide_eq_true in Es.
    destruct (buffer_ready r) eqn:Eb, (mapped_notified r) eqn:En; cbn [andb];
      (split; cbn; rewrite ?Eb, ?En; try done; repeat case_match; try done; try naive_solver).
  - split; cbn; try done; repeat case_match; try done; try naive_solver.
Qed.
Lemma update_snapshot_same r : snapshot (update_pending_lifecycle r) = snapshot r.
Proof. unfold update_pending_lifecycle. by destruct (_ && _). Qed.

(** ** The operations on a record *)

Ltac core := split; cbn; try done; try naive_solver.
Lemma new_record_ok h k g d : rec_ok h (new_record k g d : @X11WindowRecord D).
Proof. split; cbn; try done; by intros []. Qed.
Lemma reconcile_kind_ok h k r : rec_ok h r -> rec_ok h (reconcile_kind k r).1.
Proof.
  intros [H1 H2 H3 H4 H5 H6 H7 H8 H9 H10]. unfold reconcile_kind. destruct (decide (kind r = k)); [by split|]. cbn.
  split; cbn; try done.
  - intros (E1 & E2 & E3)%H2. by rewrite fmap_is_Some.
  - by rewrite fmap_is_Some.
  - intros s Hs. apply fmap_Some in Hs as (s0 & E0 & ->). by destruct (H4 s0 E0) as (? & _ & _ & ?).
  - intros (? & -> & ?)%H8. done.
  - intros ->%H9. done.
Qed.
Lemma mark_map_requested_ok h r r' :
  rec_ok h r -> mark_map_requested r = Ret r' -> rec_ok h r' /\ (is_Some (snapshot r') <-> is_Some (snapshot r)).
Proof.
  intros Hr. pose proof Hr as [H1 H2 H3 H4 H5 H6 H7 H8 H9 H10]. unfold mark_map_requested.
  rewrite decide_False by done. destruct (map_requested r && _) eqn:E; [by intros [= <-]|].
  destruct (decide (lifecycle r = Iconic)) as [Ei|Ei].
  - rewrite (bool_decide_eq_true_2 _ Ei). intros [= <-]. rewrite update_snapshot_same. split; [|done].
    destruct (H7 Ei) as (Ea & Ep & En). apply update_lifecycle_ok. split; cbn; rewrite ?Ep; try done.
  - rewrite (bool_decide_eq_false_2 _ Ei) in *. intros [= <-]. rewrite update_snapshot_same.
    assert (Hn : map_requested r = false).
    { destruct (map_requested r) eqn:Em; [|done]. cbn in E. rewrite orb_false_r in E.
      apply negb_false_iff, bool_decide_eq_true in E. destruct (H8 E) as (? & _). congruence. }
    assert (Hs : snapshot r = None).
    { destruct (snapshot r) eqn:Es; [|done]. rewrite (H3 ltac:(by eexists)) in Hn. done. }
    split; [|by rewrite Hs]. apply update_lifecycle_ok. split; cbn; try done; try by intros [].
    intros Hp. destruct (H5 Hp) as (? & _). congruence.
Qed.
Lemma mark_map_authorized_ok h r :
  rec_ok h r -> map_requested r = true ->
  rec_ok h (mark_map_authorized r).1 /\ snapshot (mark_map_authorized r).1 = snapshot r.
Proof.
  intros Hr Hq. pose proof Hr as [H1 H2 H3 H4 H5 H6 H7 H8 H9 H10]. unfold mark_map_authorized.
  destruct (map_authorized r) eqn:Ea; [done|]. cbn. rewrite update_snapshot_same. split; [|done].
  apply update_lifecycle_ok. core.
Qed.
Lemma mark_associated_ok h a r r' :
  rec_ok h r -> mark_associated a r = Ret r' -> rec_ok h r' /\ snapshot r' = snapshot r.
Proof.
  intros [H1 H2 H3 H4 H5 H6 H7 H8 H9 H10]. unfold mark_associated. destruct (decide _); [done|].
  destruct (_ && negb _); [done|]. intros [= <-]. rewrite update_snapshot_same. split; [|done].
  apply update_lifecycle_ok. core.
Qed.
Lemma replace_associated_ok h a r : rec_ok h r -> rec_ok h (replace_associated a r) /\ snapshot (replace_associated a r) = snapshot r.
Proof.
  intros [H1 H2 H3 H4 H5 H6 H7 H8 H9 H10]. unfold replace_associated. cbn. destruct (decide _) as [E|E].
  - split; [|done]. rewrite E in *. split; cbn; rewrite ?E; try done; naive_solver.
  - rewrite update_snapshot_same. split; [|done]. apply update_lifecycle_ok. core.
Qed.
Lemma clear_association_ok h surface preserve r :
  rec_ok h r ->
  let '(r', cleared) := clear_association surface preserve r in
  rec_ok h r' /\ if cleared then preserve = false /\ is_Some (snapshot r) /\ snapshot r' = None
                 else snapshot r' = snapshot r.
Proof.
  intros Hr. pose proof Hr as [H1 H2 H3 H4 H5 H6 H7 H8 H9 H10]. unfold clear_association.
  destruct (association r) as [a|]; [|done]. destruct (as_surface_id a =? surface); [|done].
  destruct preserve; cbn -[update_pending_lifecycle].
  - destruct (bool_decide (lifecycle r = Iconic)) eqn:E; cbn -[update_pending_lifecycle].
    + apply bool_decide_eq_true in E. split; [|done]. split; cbn; rewrite ?E; try done; naive_solver.
    + rewrite update_snapshot_same. split; [|done]. apply update_lifecycle_ok. core.
  - rewrite update_snapshot_same. split; [apply update_lifecycle_ok; split; cbn; try done; try by intros []|].
    destruct (snapshot r) eqn:Es; cbn; [|done]. split; [done|]. split; [by eexists|done].
Qed.
Lemma mark_buffer_ready_ok h r r' :
  rec_ok h r -> mark_buffer_ready r = Ret r' -> rec_ok h r' /\ snapshot r' = snapshot r.
Proof.
  intros [H1 H2 H3 H4 H5 H6 H7 H8 H9 H10]. unfold mark_buffer_ready.
  destruct (lifecycle r); try done; intros [= <-]; rewrite update_snapshot_same; (split; [|done]);
    apply update_lifecycle_ok; core.
Qed.
Lemma try_ready_ok h r :
  rec_ok h r ->
  exists r' o, try_ready h r = Ret (r', o) /\ rec_ok h r' /\
    match o with Some s => snapshot r = None /\ snapshot r' = Some s /\ sn_handle s = h | None => snapshot r' = snapshot r end.
Proof.
  intros Hr. pose proof Hr as [H1 H2 H3 H4 H5 H6 H7 H8 H9 H10]. unfold try_ready.
  destruct (_ || bool_decide (lifecycle r = Destroyed)) eqn:E; [by exists r, None|].
  repeat (apply orb_false_iff in E as [E ?]).
  repeat match goal with H : negb _ = false |- _ => apply negb_false_iff in H
    | H : bool_decide _ = false |- _ => apply bool_decide_eq_false in H end.
  destruct (association r) as [a|] eqn:Ea; [|done]. cbn [expect mbind res_bind].
  assert (Hs : snapshot r = None) by (destruct (snapshot r); [destruct E; by eexists|done]).
  destruct (is_auxiliary_client_leader h r).
  - eexists _, _. split; [reflexivity|]. split; [|done]. split; cbn; rewrite ?Hs; try done; by intros [].
  - eexists _, _. split; [reflexivity|]. split; [|done]. split; cbn; try done.
    intros s [= <-]. done.
Qed.
Lemma reconcile_auxiliary_ok h r :
  rec_ok h r ->
  let '(r', c) := reconcile_auxiliary h r in
  rec_ok h r' /\ match c with
                 | WithdrawDesktop => is_Some (snapshot r) /\ snapshot r' = None
                 | _ => snapshot r' = snapshot r
                 end.
Proof.
  intros Hr. pose proof Hr as [H1 H2 H3 H4 H5 H6 H7 H8 H9 H10]. unfold reconcile_auxiliary.
  destruct (is_auxiliary_client_leader h r).
  - split; [split; cbn; try done; try by intros []|]. destruct (decide _) as [Hs|Hs]; [done|]. cbn.
    by destruct (snapshot r); [destruct Hs; by eexists|].
  - destruct (decide _); [|done]. rewrite update_snapshot_same. split; [|done]. apply update_lifecycle_ok. core.
Qed.
Lemma map_command_ok h r r' :
  rec_ok h r -> map_command_is_new r = true -> mark_map_commanded r = Ret r' -> rec_ok h r' /\ snapshot r' = snapshot r.
Proof.
  intros Hr Hn. pose proof Hr as [H1 H2 H3 H4 H5 H6 H7 H8 H9 H10]. unfold map_command_is_new in Hn.
  apply andb_true_iff in Hn as [[Hp%negb_true_iff Hm%negb_true_iff]%andb_true_iff Hq].
  unfold mark_map_commanded. rewrite Hq. cbn [negb].
  destruct (decide (lifecycle r = Iconic)) as [Ei|Ei]; intros [= <-].
  - cbn. rewrite orb_true_r. split; [|done]. split; cbn; try done; try naive_solver.
  - cbn. destruct (bool_decide (snapshot r = None) || negb (buffer_ready r)) eqn:Eb; cbn; (split; [|done]).
    + split; cbn; try done; naive_solver.
    + apply orb_false_iff in Eb as [Eb1%bool_decide_eq_false Eb2%negb_false_iff].
      split; cbn; try done; try naive_solver.
Qed.
Lemma confirm_map_notify_ok h r : rec_ok h r -> rec_ok h (confirm_map_notify r).1 /\ snapshot (confirm_map_notify r).1 = snapshot r.
Proof.
  intros Hr. pose proof Hr as [H1 H2 H3 H4 H5 H6 H7 H8 H9 H10]. unfold confirm_map_notify.
  destruct (map_operation_pending r) eqn:Ep; [|done]. cbn. split; [|done]. destruct (H5 eq_refl) as (Hq & Ha & Hm).
  unfold mapped_lifecycle. cbn. destruct (bool_decide (is_Some (snapshot r)) && buffer_ready r) eqn:E.
  - apply andb_true_iff in E as [E%bool_decide_eq_true Eb]. split; cbn; try done.
  - destruct (decide _); split; cbn; try done.
Qed.
Lemma external_map_ok h r :
  rec_ok h r -> rec_ok h (confirm_external_map_notify r) /\ snapshot (confirm_external_map_notify r) = snapshot r.
Proof.
  intros Hr. pose proof Hr as [H1 H2 H3 H4 H5 H6 H7 H8 H9 H10]. unfold confirm_external_map_notify.
  set (r1 := if mapped_notified r then r else bump_serial r).
  assert (E1 : snapshot r1 = snapshot r /\ buffer_ready r1 = buffer_ready r /\ association r1 = association r /\
    kind r1 = kind r /\ geometry r1 = geometry r /\ properties r1 = properties r /\ inflight_wm_unmaps r1 = inflight_wm_unmaps r)
    by (unfold r1; by destruct (mapped_notified r)).
  destruct E1 as (Es & Eb & Ea & Ek & Eg & Ep & Ei). split; [|by cbn].
  assert (Hsn : forall s l, snapshot r1 = Some s -> snapshot_ok h (set_lifecycle l (set_flags true true true (buffer_ready r1) false r1)) s).
  { intros s l Hs. rewrite Es in Hs. unfold snapshot_ok. cbn. rewrite Ek, Eg, Ep. by apply H4. }
  unfold mapped_lifecycle. cbn. destruct (bool_decide (is_Some (snapshot r1)) && buffer_ready r1) eqn:E.
  - apply andb_true_iff in E as [E%bool_decide_eq_true Eb']. split; cbn; try done; [eauto|by rewrite Ei].
  - destruct (decide _); split; cbn; try done; eauto; by rewrite Ei.
Qed.
Lemma adopt_mapped_ok h r : rec_ok h r -> rec_ok h (adopt_mapped r) /\ snapshot (adopt_mapped r) = snapshot r.
Proof.
  intros Hr. pose proof Hr as [H1 H2 H3 H4 H5 H6 H7 H8 H9 H10]. unfold adopt_mapped.
  set (r1 := if mapped_notified r then r else bump_serial r).
  assert (E1 : snapshot r1 = snapshot r /\ kind r1 = kind r /\ geometry r1 = geometry r /\ properties r1 = properties r /\
    inflight_wm_unmaps r1 = inflight_wm_unmaps r) by (unfold r1; by destruct (mapped_notified r)).
  destruct E1 as (Es & Ek & Eg & Ep & Ei). split; [|by cbn].
  assert (Hsn : forall s l, snapshot r1 = Some s -> snapshot_ok h (set_lifecycle l (set_flags true true true (buffer_ready r1) false r1)) s).
  { intros s l Hs. rewrite Es in Hs. unfold snapshot_ok. cbn. rewrite Ek, Eg, Ep. by apply H4. }
  cbn. destruct (decide _); split; cbn; try done; eauto; by rewrite Ei.
Qed.
Lemma mark_unmapped_ok h r : rec_ok h (mark_unmapped r).1 /\ snapshot (mark_unmapped r).1 = None.
Proof. split; [|done]. split; cbn; try done; by intros []. Qed.
Lemma wm_unmap_ok h r r' :
  rec_ok h r -> mark_wm_unmap_requested r = Ret r' -> rec_ok h r' /\ snapshot r' = snapshot r.
Proof.
  intros [H1 H2 H3 H4 H5 H6 H7 H8 H9 H10]. unfold mark_wm_unmap_requested. rewrite decide_False by done.
  intros [= <-]. split; [|done]. split; cbn; try done. unfold sat_add, u32_max. lia.
Qed.
Lemma consume_wm_unmap_ok h r : rec_ok h r -> rec_ok h (consume_wm_unmap r).1 /\ snapshot (consume_wm_unmap r).1 = snapshot r.
Proof.
  intros Hr. pose proof Hr as [H1 H2 H3 H4 H5 H6 H7 H8 H9 H10]. unfold consume_wm_unmap.
  destruct (Z.eqb_spec (inflight_wm_unmaps r) 0); [done|]. cbn.
  destruct (map_authorized r || map_operation_pending r || mapped_notified r) eqn:E; (split; [|done]).
  - split; cbn; try done. lia.
  - repeat (apply orb_false_iff in E as [E ?]). split; cbn; try done. lia.
Qed.
Lemma publish_properties_ok h complete p shown r :
  rec_ok h r -> rec_ok h (publish_properties complete p shown r) /\
  (is_Some (snapshot (publish_properties complete p shown r)) <-> is_Some (snapshot r)).
Proof.
  intros [H1 H2 H3 H4 H5 H6 H7 H8 H9 H10]. split; [|cbn; apply fmap_is_Some]. split; cbn; try done.
  - intros (E1 & E2 & E3)%H2. by rewrite fmap_is_Some.
  - by rewrite fmap_is_Some.
  - intros s Hs. apply fmap_Some in Hs as (s0 & E0 & ->). by destruct (H4 s0 E0) as (? & ? & ? & ? & _).
  - intros (? & -> & ?)%H8. done.
  - intros ->%H9. done.
Qed.

Lemma set_geometry_ok h g r :
  rec_ok h r -> rec_ok h (set_geometry g r) /\ (is_Some (snapshot (set_geometry g r)) <-> is_Some (snapshot r)).
Proof.
  intros [H1 H2 H3 H4 H5 H6 H7 H8 H9 H10]. split; [|cbn; apply fmap_is_Some]. split; cbn; try done.
  - intros (E1 & E2 & E3)%H2. by rewrite fmap_is_Some.
  - by rewrite fmap_is_Some.
  - intros s Hs. apply fmap_Some in Hs as (s0 & E0 & ->). by destruct (H4 s0 E0) as (? & ? & ? & _ & ?).
  - intros (? & -> & ?)%H8. done.
  - intros ->%H9. done.
Qed.

(** ** Announcements *)

(** Whether the compositor knows a window after a list of events. *)
Definition announce (h : Z) (known : bool) (e : @XwmEvent D) : bool :=
  match e with
  | WindowReady s => if decide (sn_handle s = h) then true else known
  | WindowWithdrawn k | EvWindowDestroyed k => if decide (k = h) then false else known
  | _ => known
  end.
Definition announced (log : list (@XwmEvent D)) (h : Z) : bool := fold_left (announce h) log false.
(** Every announcement is of a window the compositor does not know, every
    withdrawal of one it knows. *)
Definition allowed (log : list (@XwmEvent D)) (e : @XwmEvent D) : Prop :=
  match e with
  | WindowReady s => announced log (sn_handle s) = false
  | WindowWithdrawn h => announced log h = true
  | _ => True
  end.
Definition alternating (log : list (@XwmEvent D)) : Prop := forall pre e post, log = pre ++ e :: post -> allowed pre e.
Lemma announced_snoc log e h : announced (log ++ [e]) h = announce h (announced log h) e.
Proof. unfold announced. by rewrite fold_left_app. Qed.
Lemma alternating_snoc log e : alternating log -> allowed log e -> alternating (log ++ [e]).
Proof.
  intros Ha He pre k post Eq. destruct post as [|y post] using rev_ind.
  - apply app_inj_tail in Eq as [<- <-]. done.
  - rewrite app_comm_cons, app_assoc in Eq. apply app_inj_tail in Eq as [-> _]. by eapply Ha.
Qed.
Definition known (x : @Xwm D) (h : Z) : Prop := exists r, windows x !! h = Some r /\ is_Some (snapshot r).
Record XInv (x : @Xwm D) : Prop := {
  xi_records : forall h r, windows x !! h = Some r -> rec_ok h r;
  xi_announced : forall h, announced (outgoing x) h = true <-> known x h;
  xi_alternating : alternating (outgoing x)
}.
Lemma known_put h r x k : known (put h r x) k <-> (k = h /\ is_Some (snapshot r)) \/ (k <> h /\ known x k).
Proof.
  unfold known. cbn. destruct (decide (k = h)) as [->|Hk].
  - rewrite lookup_insert_eq. split.
    + intros (r' & [= <-] & Hs). by left.
    + intros [[_ Hs]|[? _]]; [by exists r|done].
  - rewrite lookup_insert_ne by done. split; [by right|]. intros [[? _]|[_ ?]]; done.
Qed.
(** A change of a record that keeps whether it is announced. *)
Lemma put_inv h r x :
  XInv x -> rec_ok h r -> (is_Some (snapshot r) <-> known x h) -> XInv (put h r x).
Proof.
  intros [H1 H2 H3] Hr Hs. split; [..|done].
  - intros k r' E. cbn in E. destruct (decide (k = h)) as [->|]; [rewrite lookup_insert_eq in E; by injection E as <-|].
    rewrite lookup_insert_ne in E by done. by apply H1.
  - intros k. rewrite known_put, H2. destruct (decide (k = h)) as [->|]; naive_solver.
Qed.
Lemma known_lookup x h r : windows x !! h = Some r -> known x h <-> is_Some (snapshot r).
Proof. intros E. split; [intros (r' & E' & ?); congruence|by exists r]. Qed.
Lemma put_same_inv h r r' x :
  XInv x -> windows x !! h = Some r -> rec_ok h r' -> snapshot r' = snapshot r -> XInv (put h r' x).
Proof. intros Hx E Hr Es. apply put_inv; [done|done|]. by rewrite (known_lookup x h r E), Es. Qed.
(** Announcing and withdrawing. *)
Lemma emit_ready_inv h r r' s x :
  XInv x -> windows x !! h = Some r -> rec_ok h r' -> snapshot r = None -> snapshot r' = Some s -> sn_handle s = h ->
  XInv (emit (WindowReady s) (put h r' x)).
Proof.
  intros [H1 H2 H3] E Hr Es Es' Eh.
  assert (Hk : announced (outgoing x) h = false).
  { apply not_true_iff_false. rewrite H2, (known_lookup x h r E), Es. by intros []. }
  split.
  - intros k r0 E0. cbn in E0. destruct (decide (k = h)) as [->|]; [rewrite lookup_insert_eq in E0; by injection E0 as <-|].
    rewrite lookup_insert_ne in E0 by done. by apply H1.
  - intros k. change (known (emit (WindowReady s) (put h r' x)) k) with (known (put h r' x) k).
    rewrite known_put. cbn [emit put outgoing]. rewrite announced_snoc. cbn [announce]. rewrite Eh, Es'.
    destruct (decide (h = k)) as [<-|Hk']; [split; [left; by split|done]|].
    rewrite H2. split; [by right|]. intros [[-> _]|[_ ?]]; done.
  - apply alternating_snoc; [done|]. cbn. by rewrite Eh.
Qed.
Lemma emit_gone_inv h r r' e x :
  XInv x -> windows x !! h = Some r -> rec_ok h r' -> is_Some (snapshot r) -> snapshot r' = None ->
  e = WindowWithdrawn h -> XInv (emit e (put h r' x)).
Proof.
  intros [H1 H2 H3] E Hr Es Es' ->. split.
  - intros k r0 E0. cbn in E0. destruct (decide (k = h)) as [->|]; [rewrite lookup_insert_eq in E0; by injection E0 as <-|].
    rewrite lookup_insert_ne in E0 by done. by apply H1.
  - intros k. change (known (emit (WindowWithdrawn h) (put h r' x)) k) with (known (put h r' x) k).
    rewrite known_put. cbn [emit put outgoing]. rewrite announced_snoc. cbn [announce]. rewrite Es'.
    destruct (decide (h = k)) as [<-|Hk']; [split; [done|intros [[_ []]|[? _]]; done]|].
    rewrite H2. split; [by right|]. intros [[-> _]|[_ ?]]; done.
  - apply alternating_snoc; [done|]. cbn. by apply H2, (known_lookup x h r E).
Qed.
Definition neutral (e : @XwmEvent D) : Prop :=
  match e with WindowReady _ | WindowWithdrawn _ | EvWindowDestroyed _ => False | _ => True end.
Lemma emit_neutral_inv e x : neutral e -> XInv x -> XInv (emit e x).
Proof.
  intros He [H1 H2 H3]. split; [done|..].
  - intros h. change (known (emit e x) h) with (known x h). rewrite <- H2. cbn [emit outgoing]. rewrite announced_snoc. by destruct e.
  - apply alternating_snoc; [done|]. by destruct e.
Qed.

(** ** The handlers *)

Lemma observe_inv d h k g x : XInv x -> XInv (observe_window_with_kind d h k g x).1.
Proof.
  intros Hx. unfold observe_window_with_kind. destruct (windows x !! h) eqn:E; [done|]. cbn.
  apply put_inv; [done|apply new_record_ok|]. cbn. split; [by intros []|]. intros (r & Er & _). congruence.
Qed.
Lemma observe_known d h k g x : is_Some (windows (observe_window_with_kind d h k g x).1 !! h).
Proof.
  unfold observe_window_with_kind. destruct (windows x !! h) eqn:E; cbn; [by rewrite E|]. rewrite lookup_insert_eq. by eexists.
Qed.
Lemma reconcile_window_inv h k x x' :
  XInv x -> reconcile_window_kind h k x = Ret x' -> XInv x' /\ is_Some (windows x' !! h).
Proof.
  intros Hx. unfold reconcile_window_kind. destruct (windows x !! h) as [r|] eqn:E; [|done]. cbn [ok_or mbind res_bind].
  pose proof (reconcile_kind_ok h k r (xi_records x Hx h r E)) as Hr.
  assert (Hs : is_Some (snapshot (reconcile_kind k r).1) <-> is_Some (snapshot r)).
  { unfold reconcile_kind. destruct (decide _); [done|]. cbn. apply fmap_is_Some. }
  destruct (reconcile_kind k r) as [r' c]. cbn in Hr, Hs. intros [= <-].
  assert (Hp : XInv (put h r' x)) by (apply put_inv; [done|done|]; by rewrite Hs, (known_lookup x h r E)).
  destruct c; [|destruct (decide _)]; (split; [|cbn; rewrite lookup_insert_eq; by eexists]); try done.
  by apply emit_neutral_inv.
Qed.
Lemma emit_ready_if_complete_inv h x : XInv x -> exists x', emit_ready_if_complete h x = Ret x' /\ XInv x'.
Proof.
  intros Hx. unfold emit_ready_if_complete. destruct (windows x !! h) as [r|] eqn:E; [|by exists x].
  destruct (properties_ready r); [|by exists x].
  destruct (try_ready_ok h r (xi_records x Hx h r E)) as (r' & o & -> & Hr & Ho). cbn.
  eexists. split; [reflexivity|]. destruct o as [s|].
  - destruct Ho as (Es & Es' & Eh). by eapply emit_ready_inv.
  - by eapply put_same_inv.
Qed.
Lemma authorize_inv h x : XInv x -> XInv (authorize_map_if_requested h x).
Proof.
  intros Hx. unfold authorize_map_if_requested. destruct (windows x !! h) as [r|] eqn:E; [|done].
  destruct (map_requested r && _ && _) eqn:Eq; [|done]. apply andb_true_iff in Eq as [[Eq _]%andb_true_iff _].
  destruct (mark_map_authorized_ok h r (xi_records x Hx h r E) Eq) as [Hr Hs].
  destruct (mark_map_authorized r) as [r' ok]. cbn in Hr, Hs.
  assert (XInv (put h r' x)) by by eapply put_same_inv. destruct ok; [by apply emit_neutral_inv|done].
Qed.
Lemma refresh_inv h x : XInv x -> XInv (refresh_window_properties h x).
Proof.
  intros Hx. unfold refresh_window_properties. destruct (windows x !! h) as [r|] eqn:E; [|done].
  destruct (xi_records x Hx h r E) as [H1 H2 H3 H4 H5 H6 H7 H8 H9 H10].
  eapply put_same_inv; [done|done|destruct (decide _); by split|by destruct (decide _)].
Qed.
Lemma put_emit_ready_inv h r r' x :
  XInv x -> windows x !! h = Some r -> rec_ok h r' -> snapshot r' = snapshot r ->
  exists x', emit_ready_if_complete h (put h r' x) = Ret x' /\ XInv x'.
Proof. intros. apply emit_ready_if_complete_inv. by eapply put_same_inv. Qed.
(** [m] gives a good state or refuses. *)
Definition good (m : res RegistryError (@Xwm D)) : Prop := match m with Ret x => XInv x | Fail _ => True | _ => False end.
Lemma good_ready h x : XInv x -> good (emit_ready_if_complete h x).
Proof. intros H. by destruct (emit_ready_if_complete_inv h x H) as (x' & -> & H'). Qed.
Lemma create_notify_good d h k g x : XInv x -> good (create_notify d h k g x).
Proof.
  intros H. unfold create_notify. pose proof (observe_inv d h k g x H) as Ho.
  destruct (observe_window_with_kind d h k g x) as [x1 [|]]; [done|]. cbn in Ho.
  destruct (reconcile_window_kind h k x1) eqn:E; cbn; try done.
  - by apply (reconcile_window_inv h k x1).
  - unfold reconcile_window_kind in E. destruct (windows x1 !! h); [|done]. cbn in E. by destruct (reconcile_kind k _).
  - unfold reconcile_window_kind in E. destruct (windows x1 !! h); [|done]. cbn in E. by destruct (reconcile_kind k _).
Qed.
(** A window is observed and its kind reconciled. *)
Lemma seen_inv d h k k' g x :
  XInv x -> exists x1 r, reconcile_window_kind h k' (observe_window_with_kind d h k g x).1 = Ret x1 /\ XInv x1 /\
    windows x1 !! h = Some r.
Proof.
  intros H. pose proof (observe_inv d h k g x H) as Ho. destruct (observe_known d h k g x) as [r0 E0].
  set (x1 := (observe_window_with_kind d h k g x).1) in *.
  destruct (reconcile_window_kind h k' x1) as [x2|e| |] eqn:E.
  - destruct (reconcile_window_inv h k' x1 x2 Ho E) as [H2 [r Er]]. by exists x2, r.
  - unfold reconcile_window_kind in E. rewrite E0 in E. cbn in E. by destruct (reconcile_kind k' r0).
  - unfold reconcile_window_kind in E. rewrite E0 in E. cbn in E. by destruct (reconcile_kind k' r0).
  - unfold reconcile_window_kind in E. rewrite E0 in E. cbn in E. by destruct (reconcile_kind k' r0).
Qed.
Lemma map_request_good d h x : XInv x -> good (map_request d h x).
Proof.
  intros H. unfold map_request. destruct (seen_inv d h Managed Managed geometry_default x H) as (x1 & r & E1 & H1 & Er).
  destruct (observe_window_with_kind d h Managed geometry_default x) as [x0 b]. cbn in E1. rewrite E1.
  cbn [mbind res_bind]. rewrite Er. cbn [ok_or mbind res_bind]. destruct (map_requested r && _); [done|].
  destruct (mark_map_requested r) as [r'|e| |] eqn:Em; cbn [mbind res_bind]; try done.
  - destruct (mark_map_requested_ok h r r' (xi_records x1 H1 h r Er) Em) as [Hr Hs].
    apply good_ready, refresh_inv, authorize_inv. apply put_inv; [done|done|]. by rewrite Hs, (known_lookup x1 h r Er).
  - unfold mark_map_requested in Em. by repeat case_match.
  - unfold mark_map_requested in Em. by repeat case_match.
Qed.
Lemma map_notify_good d k h x : XInv x -> good (map_notify d k h x).
Proof.
  intros H. unfold map_notify. destruct (seen_inv d h k k geometry_default x H) as (x1 & r & E1 & H1 & Er).
  destruct (observe_window_with_kind d h k geometry_default x) as [x0 b]. cbn in E1. rewrite E1.
  cbn [mbind res_bind]. rewrite Er. cbn [ok_or mbind res_bind]. pose proof (xi_records x1 H1 h r Er) as Hr.
  destruct (map_operation_pending r).
  - apply good_ready. destruct (confirm_map_notify_ok h r Hr). by eapply put_same_inv.
  - apply good_ready, refresh_inv. destruct (external_map_ok h r Hr). by eapply put_same_inv.
Qed.
Lemma ready_is_announced h r :
  rec_ok h r -> bool_decide (is_Some (snapshot r)) || bool_decide (lifecycle r = Renderable) = bool_decide (is_Some (snapshot r)).
Proof.
  intros Hr. destruct (bool_decide (is_Some (snapshot r))) eqn:E; [done|]. cbn. apply bool_decide_eq_false in E.
  apply bool_decide_eq_false. intros Hl. by apply (ro_renderable h r Hr) in Hl as [? _].
Qed.
Lemma unmap_notify_inv h x : XInv x -> XInv (unmap_notify h x).
Proof.
  intros H. unfold unmap_notify. destruct (windows x !! h) as [r|] eqn:E; [|done].
  pose proof (xi_records x H h r E) as Hr. rewrite (ready_is_announced h r Hr).
  destruct (consume_wm_unmap_ok h r Hr) as [Hr1 Hs1]. destruct (consume_wm_unmap r) as [r1 [|]]; cbn in Hr1, Hs1.
  { by eapply put_same_inv. }
  set (r2 := match association r with Some a => _ | None => r1 end). destruct (mark_unmapped_ok h r2) as [Hr3 Hs3].
  destruct (bool_decide (is_Some (snapshot r))) eqn:Es.
  - apply bool_decide_eq_true in Es. by eapply emit_gone_inv.
  - apply bool_decide_eq_false in Es. assert (Hn : snapshot r = None) by (by apply eq_None_not_Some).
    assert (XInv (put h (mark_unmapped r2).1 x)) by (eapply put_same_inv; [done|done|done|by rewrite Hs3, Hn]).
    destruct (decide _); [by apply emit_neutral_inv|done].
Qed.
Lemma destroy_notify_inv h x : XInv x -> XInv (destroy_notify h x).
Proof.
  intros H. unfold destroy_notify. destruct (windows x !! h) as [r|] eqn:E; [|done].
  pose proof (xi_records x H h r E) as Hr. rewrite (ready_is_announced h r Hr).
  assert (Hd : forall k r0, delete h (windows x) !! k = Some r0 -> rec_ok k r0).
  { intros k r0 E0. apply lookup_delete_Some in E0 as [_ E0]. by apply H. }
  assert (Hk : forall k log, known (mkXwm (delete h (windows x)) log) k <-> k <> h /\ known x k).
  { intros k log. unfold known. cbn. destruct (decide (k = h)) as [->|Hk].
    - rewrite lookup_delete_eq. split; [by intros (? & ? & _)|]. by intros [? _].
    - rewrite lookup_delete_ne by done. tauto. }
  destruct (bool_decide (is_Some (snapshot r)) || _) eqn:Eb; (split; [done|..]).
  - intros k. unfold emit. cbn [windows outgoing]. rewrite Hk, announced_snoc. cbn [announce].
    destruct (decide (h = k)) as [<-|]; [split; [done|by intros [? _]]|]. rewrite (xi_announced x H). naive_solver.
  - apply alternating_snoc; [apply H|done].
  - apply orb_false_iff in Eb as [Eb _]. apply bool_decide_eq_false in Eb.
    intros k. unfold emit. cbn [windows outgoing]. rewrite Hk, announced_snoc. cbn [announce]. rewrite (xi_announced x H).
    split; [|naive_solver]. intros Hkn. split; [|done]. intros ->. by apply (known_lookup x h r E) in Hkn.
  - apply alternating_snoc; [apply H|done].
Qed.
Lemma command_map_good h x : XInv x -> good (command_map h x).
Proof.
  intros H. unfold command_map.
  assert (Hpre : exists x1, (match windows x !! h with
       | Some r => if decide (lifecycle r = Iconic) then (r ← mark_map_requested r; Ret (put h r x)) else Ret x
       | None => Ret x
       end : res RegistryError Xwm) = Ret x1 /\ XInv x1).
  { destruct (windows x !! h) as [r|] eqn:E; [|by exists x]. destruct (decide _) as [Ei|]; [|by exists x].
    destruct (mark_map_requested r) as [r'|e| |] eqn:Em; cbn [mbind res_bind].
    - destruct (mark_map_requested_ok h r r' (xi_records x H h r E) Em) as [Hr Hs]. eexists. split; [reflexivity|].
      apply put_inv; [done|done|]. by rewrite Hs, (known_lookup x h r E).
    - unfold mark_map_requested in Em. rewrite Ei in Em. by repeat case_match.
    - unfold mark_map_requested in Em. by repeat case_match.
    - unfold mark_map_requested in Em. by repeat case_match. }
  destruct Hpre as (x1 & -> & H1). cbn [mbind res_bind]. destruct (windows x1 !! h) as [r|] eqn:E; [|done].
  cbn [ok_or mbind res_bind]. destruct (map_command_is_new r) eqn:En; [|done].
  destruct (mark_map_commanded r) as [r'|e| |] eqn:Em; try done.
  destruct (map_command_ok h r r' (xi_records x1 H1 h r E) En Em). by eapply put_same_inv.
Qed.
Lemma command_unmap_good h x : XInv x -> good (command_unmap h x).
Proof.
  intros H. unfold command_unmap. destruct (windows x !! h) as [r|] eqn:E; [|done]. cbn [ok_or mbind res_bind].
  destruct (mark_wm_unmap_requested r) as [r'|e| |] eqn:Em; cbn [mbind res_bind]; try done;
    try (unfold mark_wm_unmap_requested in Em; by repeat case_match).
  destruct (wm_unmap_ok h r r' (xi_records x H h r E) Em). by eapply put_same_inv.
Qed.
Lemma association_good a content h x : XInv x -> good (association_complete a content h x).
Proof.
  intros H. unfold association_complete. destruct (windows x !! h) as [r|] eqn:E; [|done]. cbv zeta.
  pose proof (xi_records x H h r E) as Hr.
  set (r1 := if decide (association r = Some a) then r else _).
  assert (H1 : rec_ok h r1 /\ snapshot r1 = snapshot r).
  { unfold r1. destruct (decide _); [done|]. destruct (association r); [by apply replace_associated_ok|].
    destruct (mark_associated a r) eqn:Em; try done. by eapply mark_associated_ok. }
  destruct H1 as [Hr1 Hs1]. set (r2 := if content then _ else r1).
  assert (H2 : rec_ok h r2 /\ snapshot r2 = snapshot r).
  { unfold r2. destruct content; [|done]. destruct (mark_buffer_ready r1) as [r'|e| |] eqn:Em; try done.
    destruct (mark_buffer_ready_ok h r1 r' Hr1 Em) as [? Hs]. by rewrite Hs. }
  destruct H2 as [Hr2 Hs2]. apply good_ready. by eapply put_same_inv.
Qed.
Lemma buffer_good h x : XInv x -> good (mark_window_buffer_ready h x).
Proof.
  intros H. unfold mark_window_buffer_ready. destruct (windows x !! h) as [r|] eqn:E; [|done]. cbn [ok_or mbind res_bind].
  destruct (mark_buffer_ready r) as [r'|e| |] eqn:Em; cbn [mbind res_bind]; try done;
    try (unfold mark_buffer_ready in Em; by repeat case_match).
  apply good_ready. destruct (mark_buffer_ready_ok h r r' (xi_records x H h r E) Em). by eapply put_same_inv.
Qed.
Lemma surface_removed_good surface removed h x : XInv x -> good (surface_removed surface removed h x).
Proof.
  intros H. unfold surface_removed. destruct (windows x !! h) as [r|] eqn:E; [|done]. cbn [ok_or mbind res_bind].
  set (preserve := preserves_identity removed r).
  pose proof (clear_association_ok h surface preserve r (xi_records x H h r E)) as Hc.
  destruct (clear_association surface preserve r) as [r' [|]]; destruct Hc as [Hr Hs]; cbn.
  - destruct Hs as (-> & Hs & Hs'). cbn. by eapply emit_gone_inv.
  - by eapply put_same_inv.
Qed.
Lemma property_reply_good complete p shown h x : XInv x -> good (property_reply complete p shown h x).
Proof.
  intros H. unfold property_reply. destruct (windows x !! h) as [r|] eqn:E; [|done]. cbn [ok_or mbind res_bind].
  destruct (publish_properties_ok h complete p shown r (xi_records x H h r E)) as [Hr1 Hs1].
  set (r1 := publish_properties complete p shown r) in *.
  pose proof (reconcile_auxiliary_ok h r1 Hr1) as Hc. destruct (reconcile_auxiliary h r1) as [r' c]. destruct Hc as [Hr Hs].
  destruct c; cbn; try (apply put_inv; [done|done|]; by rewrite Hs, Hs1, (known_lookup x h r E)).
  destruct Hs as [Hs Hs']. eapply (emit_gone_inv h r r'); try done. by apply Hs1.
Qed.
Lemma adopt_window_inv d h k g m x : XInv x -> XInv (adopt_window d h k g m x).
Proof.
  intros H. unfold adopt_window. pose proof (observe_inv d h k g x H) as Ho.
  destruct (observe_window_with_kind d h k g x) as [x1 b]. cbn in Ho. destruct (windows x1 !! h) as [r|] eqn:E; [|done].
  destruct m; [|done]. destruct (adopt_mapped_ok h r (xi_records x1 Ho h r E)). by eapply put_same_inv.
Qed.
Lemma configure_notify_good k g c preserve h x : XInv x -> good (configure_notify k g c preserve h x).
Proof.
  intros H. unfold configure_notify. destruct (windows x !! h) as [r|] eqn:E; [|done].
  destruct (reconcile_window_kind h k x) as [x1|e| |] eqn:Ek; cbn [mbind res_bind]; try done;
    try (unfold reconcile_window_kind in Ek; rewrite E in Ek; cbn in Ek; by destruct (reconcile_kind k r)).
  destruct (reconcile_window_inv h k x x1 H Ek) as [H1 [r1 E1]].
  assert (H2 : XInv (apply_configure_notify_record h g c preserve x1)).
  { unfold apply_configure_notify_record. destruct (_ && _); [|done]. rewrite E1.
    destruct (set_geometry_ok h g r1 (xi_records x1 H1 h r1 E1)) as [Hr Hs].
    apply put_inv; [done|done|]. by rewrite Hs, (known_lookup x1 h r1 E1). }
  destruct (forwards_to_compositor c); [by apply emit_neutral_inv|done].
Qed.
Lemma configure_request_inv d h x : XInv x -> XInv (configure_request d h x).
Proof. intros H. apply emit_neutral_inv; [done..|]. by apply observe_inv. Qed.
Lemma step_good e x : XInv x -> good (xwm_step e x).
Proof.
  intros H. destruct e; cbn.
  - by apply create_notify_good.
  - by apply map_request_good.
  - by apply map_notify_good.
  - by apply unmap_notify_inv.
  - by apply destroy_notify_inv.
  - by apply command_map_good.
  - by apply command_unmap_good.
  - by apply association_good.
  - by apply buffer_good.
  - by apply surface_removed_good.
  - by apply property_reply_good.
  - by apply good_ready.
  - by apply configure_notify_good.
  - by apply configure_request_inv.
  - by apply adopt_window_inv.
Qed.

(** ** Histories and properties *)

Inductive Runs : @Xwm D -> Prop :=
| runs_new : Runs xwm_new
| runs_step x e x' : Runs x -> xwm_step e x = Ret x' -> Runs x'.
Lemma xwm_new_inv : XInv xwm_new.
Proof.
  split.
  - intros h r E. cbn in E. by rewrite lookup_empty in E.
  - intros h. cbn. split; [done|]. intros (r & E & _). cbn in E. by rewrite lookup_empty in E.
  - intros pre e post E. by destruct pre.
Qed.
Lemma runs_inv x : Runs x -> XInv x.
Proof. induction 1 as [|x e x' _ IH E]; [apply xwm_new_inv|]. pose proof (step_good e x IH) as Hg. by rewrite E in Hg. Qed.

(** After every sequence of X11 events, commands, associations, buffers and
    property replies, every registered window is in a consistent state: a shown
    window is announced, mapped and has content; an announced window has a map
    request and its announcement carries its current kind, geometry and properties; a map
    operation in flight is authorised and not yet confirmed; an iconified window
    is not being mapped; a withdrawn one has no request, buffer or announcement;
    and handling a further event never panics. *)
Theorem window_lifecycle_invariant x :
  Runs x -> (forall h r, windows x !! h = Some r -> rec_ok h r) /\
  forall e, match xwm_step e x with Ret _ | Fail _ => True | Panic | NoFuel => False end.
Proof.
  intros H. pose proof (runs_inv x H) as Hi. split; [apply Hi|]. intros e. pose proof (step_good e x Hi) as Hg.
  by destruct (xwm_step e x).
Qed.

(** C17: in every history the compositor is told that a window is ready only when
    it does not know it, and that it is withdrawn only when it does; and the
    windows it knows after all events are exactly the registered windows with
    an announcement. *)
Theorem announcements_alternate x :
  Runs x -> alternating (outgoing x) /\ forall h, announced (outgoing x) h = true <-> known x h.
Proof. intros H. pose proof (runs_inv x H) as [_ H2 H3]. done. Qed.
End Theory.

(** ** Concrete histories *)

Section Concrete.
Context {D : Type}.
Fixpoint replay (es : list (@XwmStep D)) (x : @Xwm D) : res RegistryError (@Xwm D) :=
  match es with [] => Ret x | e :: es => x' ← xwm_step e x; replay es x' end.
Lemma replay_runs es : forall x y, Runs x -> replay es x = Ret y -> Runs y.
Proof.
  induction es as [|e es IH]; intros x y Hx; cbn; [by intros [= <-]|].
  destruct (xwm_step e x) as [x1|?| |] eqn:E; cbn [mbind res_bind]; try done. apply IH. by eapply runs_step.
Qed.
End Concrete.

Definition plain_properties : @X11PropertySnapshot unit := mkProps [WtNormal] (Some true) None None tt.
(** Window 7 is created, mapped and gets content on surface 40. *)
Definition shown_history : list (@XwmStep unit) :=
  [ CreateNotify plain_properties 7 Managed (mkGeo 0 0 640 480); MapRequest plain_properties 7; CommandMap 7;
    MapNotify plain_properties Managed 7; AssociationComplete (mkAssociated 1 1 40 1) false 7;
    PropertyReply true plain_properties tt 7; BufferReady 7 ].
Definition state_after (es : list (@XwmStep unit)) : @Xwm unit :=
  match replay es xwm_new with Ret x => x | _ => xwm_new end.
Lemma shown_runs : Runs (state_after shown_history).
Proof. apply (replay_runs shown_history xwm_new); [constructor|by vm_compute]. Qed.
Lemma window_lifecycle_invariant_witness :
  lifecycle <$> windows (state_after shown_history) !! 7 = Some Renderable /\
  forall r, windows (state_after shown_history) !! 7 = Some r -> rec_ok 7 r.
Proof.
  split; [by vm_compute|]. intros r. apply (proj1 (window_lifecycle_invariant (state_after shown_history) shown_runs)).
Defined.
Definition withdrawn_history : list (@XwmStep unit) := shown_history ++ [UnmapNotify 7].
Lemma withdrawn_runs : Runs (state_after withdrawn_history).
Proof. apply (replay_runs withdrawn_history xwm_new); [constructor|by vm_compute]. Qed.
Lemma announcements_alternate_witness :
  announced (outgoing (state_after shown_history)) 7 = true /\
  announced (outgoing (state_after withdrawn_history)) 7 = false /\
  alternating (outgoing (state_after withdrawn_history)).
Proof.
  split; [by vm_compute|]. split; [by vm_compute|].
  apply (proj1 (announcements_alternate (state_after withdrawn_history) withdrawn_runs)).
Defined.

(** ** A buffer after iconification *)

Section LateBuffer.
Context {D : Type}.
Implicit Types (r : @X11WindowRecord D) (x : @Xwm D).

Lemma put_id h r x : windows x !! h = Some r -> put h r x = x.
Proof. intros E. unfold put. rewrite insert_id by done. by destruct x. Qed.
Lemma put_put h r r' x : put h r' (put h r x) = put h r' x.
Proof. unfold put. cbn. by rewrite insert_insert_eq. Qed.
Lemma put_at h r x : windows (put h r x) !! h = Some r.
Proof. apply lookup_insert_eq. Qed.
(** Steps that find a known, announced window change nothing by themselves. *)
Lemma seen_same d h r k g x :
  windows x !! h = Some r -> kind r = k ->
  observe_window_with_kind d h k g x = (x, false) /\ reconcile_window_kind h k x = Ret x.
Proof.
  intros E Hk. unfold observe_window_with_kind, reconcile_window_kind. rewrite E. split; [done|].
  cbn [ok_or mbind res_bind]. unfold reconcile_kind. rewrite decide_True by done. by rewrite put_id.
Qed.
Lemma ready_same h r x :
  windows x !! h = Some r -> is_Some (snapshot r) -> emit_ready_if_complete h x = Ret x.
Proof.
  intros E Hs. unfold emit_ready_if_complete. rewrite E. destruct (properties_ready r); [|done].
  unfold try_ready. rewrite bool_decide_true by done. cbn. by rewrite put_id.
Qed.
Lemma refresh_same h r x :
  windows x !! h = Some r -> is_Some (snapshot r) -> refresh_window_properties h x = x.
Proof.
  intros E [? Hs]. unfold refresh_window_properties. rewrite E, decide_False by congruence. by apply put_id.
Qed.

(** An announced window that the compositor iconified. *)
Definition iconified (h : Z) r : Prop :=
  rec_ok h r /\ lifecycle r = Iconic /\ is_Some (snapshot r) /\ kind r = Managed.
Lemma pending_lifecycle r :
  is_Some (snapshot r) -> map_requested r = true -> map_operation_pending r = false -> mapped_notified r = false ->
  update_pending_lifecycle r
  = set_lifecycle (if properties_ready r then MapRequested else PropertiesPending) r.
Proof.
  intros Hs Hq Hp Hn. unfold update_pending_lifecycle. rewrite Hq, Hp, Hn, andb_false_r. cbn.
  by destruct (properties_ready r).
Qed.
Lemma iconified_flags h r :
  iconified h r -> map_requested r = true /\ map_authorized r = false /\ map_operation_pending r = false /\
  mapped_notified r = false.
Proof.
  intros (Hr & Hi & Hs & _). destruct (ro_iconic h r Hr Hi) as (? & ? & ?).
  split; [by apply (ro_announced h r Hr)|done].
Qed.
(** A map by the compositor that the server confirms. *)
Definition mapped_again (d : @X11PropertySnapshot D) (h : Z) : list XwmStep :=
  [CommandMap h; MapNotify d Managed h].
Lemma map_confirmed d h r r1 x :
  windows x !! h = Some r -> is_Some (snapshot r) -> kind r = Managed -> lifecycle r <> Iconic ->
  map_command_is_new r = true -> mark_map_commanded r = Ret r1 -> is_Some (snapshot r1) -> kind r1 = Managed ->
  map_operation_pending r1 = true ->
  replay (mapped_again d h) x = Ret (put h (confirm_map_notify r1).1 x).
Proof.
  intros E Hs Hk Hl Hn Hm Hs1 Hk1 Hp. cbn [replay mapped_again xwm_step]. unfold command_map. rewrite E.
  rewrite decide_False by done. cbn [mbind res_bind]. rewrite E. cbn [ok_or mbind res_bind]. rewrite Hn, Hm.
  cbn [mbind res_bind]. unfold map_notify.
  destruct (seen_same d h r1 Managed geometry_default (put h r1 x) (put_at h r1 x) Hk1) as [-> E2]. rewrite E2.
  cbn [mbind res_bind]. rewrite put_at. cbn [ok_or mbind res_bind]. rewrite Hp, put_put.
  rewrite (ready_same h (confirm_map_notify r1).1); [done|apply put_at|].
  unfold confirm_map_notify. by rewrite Hp.
Qed.

(** The window as it is, and after a late buffer. *)
Section Window.
Context (d : @X11PropertySnapshot D) (h : Z) (r : @X11WindowRecord D) (x : @Xwm D).
Context (E : windows x !! h = Some r) (Hr : iconified h r).
Let requested : @X11WindowRecord D :=
  set_lifecycle (if properties_ready r then MapRequested else PropertiesPending)
    (set_flags true false false false (map_operation_pending r) (bump_serial r)).
Definition late : @X11WindowRecord D :=
  set_lifecycle (if properties_ready r then MapRequested else PropertiesPending) (set_buffer true r).

Lemma late_buffer : xwm_step (BufferReady h) x = Ret (put h late x).
Proof.
  destruct (iconified_flags h r Hr) as (Hq & Ha & Hp & Hn). destruct Hr as (_ & Hi & Hs & _).
  cbn [xwm_step]. unfold mark_window_buffer_ready. rewrite E. cbn [ok_or mbind res_bind].
  unfold mark_buffer_ready. rewrite Hi. cbn [mbind res_bind]. rewrite pending_lifecycle by done.
  fold late. by rewrite (ready_same h late) by (done || apply put_at).
Qed.
Lemma late_request : xwm_step (MapRequest d h) (put h late x) = Ret (put h late x).
Proof.
  destruct (iconified_flags h r Hr) as (Hq & _). destruct Hr as (_ & _ & _ & Hk).
  cbn [xwm_step]. unfold map_request.
  destruct (seen_same d h late Managed geometry_default _ (put_at h late x) Hk) as [-> E2]. rewrite E2.
  cbn [mbind res_bind]. rewrite put_at. cbn [ok_or mbind res_bind].
  replace (map_requested late) with true by (cbn; congruence).
  replace (lifecycle late) with (if properties_ready r then MapRequested else PropertiesPending) by done.
  by destruct (properties_ready r).
Qed.
Lemma iconic_marked : mark_map_requested r = Ret requested.
Proof.
  destruct (iconified_flags h r Hr) as (Hq & Ha & Hp & Hn). destruct Hr as (_ & Hi & Hs & Hk).
  unfold mark_map_requested. rewrite decide_False by congruence. rewrite Hi.
  rewrite (bool_decide_true (Iconic = Iconic)), orb_true_r, andb_false_r by done.
  rewrite pending_lifecycle by done. done.
Qed.
Lemma iconic_request :
  exists x1, xwm_step (MapRequest d h) x = Ret x1 /\ outgoing x1 = outgoing x ++ [WindowMapRequested h].
Proof.
  destruct (iconified_flags h r Hr) as (Hq & Ha & Hp & Hn). destruct Hr as (_ & Hi & Hs & Hk).
  cbn [xwm_step]. unfold map_request.
  destruct (seen_same d h r Managed geometry_default x E Hk) as [-> E2]. rewrite E2.
  cbn [mbind res_bind]. rewrite E. cbn [ok_or mbind res_bind]. rewrite Hi, andb_false_r.
  rewrite iconic_marked. cbn [mbind res_bind]. unfold authorize_map_if_requested. rewrite put_at.
  replace (kind requested) with Managed by done. cbn [map_requested map_authorized requested set_lifecycle set_flags].
  rewrite bool_decide_true by done. cbn [andb negb]. unfold mark_map_authorized.
  cbn [map_authorized requested set_lifecycle set_flags].
  set (r2 := update_pending_lifecycle _).
  assert (Hs2 : is_Some (snapshot r2)) by (unfold r2; by rewrite update_snapshot_same).
  rewrite put_put, (refresh_same h r2), (ready_same h r2); [|apply put_at|done|apply put_at|done].
  eexists. split; [done|]. done.
Qed.
Lemma late_map :
  exists x1 r1, replay (mapped_again d h) (put h late x) = Ret x1 /\ windows x1 !! h = Some r1 /\
    lifecycle r1 = Renderable /\ map_serial r1 = map_serial r.
Proof.
  destruct (iconified_flags h r Hr) as (Hq & Ha & Hp & Hn). destruct Hr as (_ & Hi & Hs & Hk).
  assert (Hl : lifecycle late <> Iconic) by (unfold late; cbn; by destruct (properties_ready r)).
  eexists _, _. rewrite (map_confirmed d h late
    (set_flags (map_requested late) true (mapped_notified late) (buffer_ready late) true late)).
  - split; [done|]. split; [apply put_at|]. cbn. unfold mapped_lifecycle. cbn.
    by rewrite bool_decide_true.
  - apply put_at.
  - done.
  - done.
  - done.
  - unfold map_command_is_new. cbn. by rewrite Hq, Hp, Hn.
  - unfold mark_map_commanded. rewrite (decide_False (P := lifecycle late = Iconic)) by done.
    replace (map_requested late) with true by (cbn; congruence). cbn.
    destruct Hs as [s0 Hs0]. rewrite Hs0. done.
  - done.
  - done.
  - done.
Qed.
Lemma iconic_map :
  exists x1 r1, replay (mapped_again d h) x = Ret x1 /\ windows x1 !! h = Some r1 /\
    lifecycle r1 <> Renderable /\ buffer_ready r1 = false /\ map_serial r1 = next_serial r.
Proof.
  destruct (iconified_flags h r Hr) as (Hq & Ha & Hp & Hn). destruct Hr as (_ & Hi & Hs & Hk).
  assert (Hl : lifecycle requested <> Iconic) by (unfold requested; cbn; by destruct (properties_ready r)).
  assert (Ec : replay (mapped_again d h) x = replay (mapped_again d h) (put h requested x)).
  { cbn [replay mapped_again xwm_step]. unfold command_map. rewrite E, put_at, decide_True by done.
    rewrite iconic_marked. cbn [mbind res_bind]. rewrite decide_False by done. cbn [mbind res_bind].
    by rewrite put_at. }
  rewrite Ec. eexists _, _. rewrite (map_confirmed d h requested
    (set_lifecycle MapCommanded (set_flags true true false false true requested))).
  - split; [done|]. split; [apply put_at|]. cbn. unfold mapped_lifecycle. cbn. rewrite andb_false_r.
    split; [by destruct (decide _)|done].
  - apply put_at.
  - done.
  - done.
  - done.
  - unfold map_command_is_new. cbn. by rewrite Hp.
  - unfold mark_map_commanded. rewrite (decide_False (P := lifecycle requested = Iconic)) by done. cbn.
    by rewrite orb_true_r.
  - done.
  - done.
  - done.
Qed.
End Window.

(** C35: a buffer that arrives after a window was iconified takes it out of the
    iconic state although nothing maps it. For every announced managed window
    that the compositor has iconified, in any history: the late buffer leaves
    it waiting for a map, and tells the compositor nothing; the client's next
    map request is then ignored, where without the buffer it would have been
    passed to the compositor; and a map by the compositor shows the window at
    once, with that buffer and under the old map serial, where without it the
    window would have waited for a new buffer under a new serial. *)
Theorem late_buffer_loses_iconic d h r x :
  Runs x -> windows x !! h = Some r -> lifecycle r = Iconic -> is_Some (snapshot r) -> kind r = Managed ->
  exists x1 r1, xwm_step (BufferReady h) x = Ret x1 /\ windows x1 !! h = Some r1 /\
    (lifecycle r1 = MapRequested \/ lifecycle r1 = PropertiesPending) /\ outgoing x1 = outgoing x /\
    xwm_step (MapRequest d h) x1 = Ret x1 /\
    (exists x2, xwm_step (MapRequest d h) x = Ret x2 /\ outgoing x2 = outgoing x ++ [WindowMapRequested h]) /\
    (exists x3 r3, replay (mapped_again d h) x1 = Ret x3 /\ windows x3 !! h = Some r3 /\
       lifecycle r3 = Renderable /\ map_serial r3 = map_serial r) /\
    (exists x4 r4, replay (mapped_again d h) x = Ret x4 /\ windows x4 !! h = Some r4 /\
       lifecycle r4 <> Renderable /\ buffer_ready r4 = false /\ map_serial r4 = next_serial r).
Proof.
  intros Hx E Hi Hs Hk.
  assert (Hr : iconified h r) by (split; [by apply (runs_inv x Hx)|done]).
  exists (put h (late r) x), (late r). split; [by apply late_buffer|]. split; [apply put_at|].
  split; [unfold late; cbn; destruct (properties_ready r); auto|]. split; [done|].
  split; [by apply late_request|]. split; [by apply (iconic_request d h r)|].
  split; [by apply late_map|by apply iconic_map].
Qed.
End LateBuffer.

(** The shown window is iconified by the compositor, and the server confirms it. *)
Definition iconic_history : list (@XwmStep unit) := shown_history ++ [CommandUnmap 7; UnmapNotify 7].
Lemma iconic_runs : Runs (state_after iconic_history).
Proof. apply (replay_runs iconic_history xwm_new); [constructor|by vm_compute]. Qed.
Lemma late_buffer_loses_iconic_witness :
  exists x1 r1, xwm_step (BufferReady 7) (state_after iconic_history) = Ret x1 /\
    windows x1 !! 7 = Some r1 /\ (lifecycle r1 = MapRequested \/ lifecycle r1 = PropertiesPending).
Proof.
  destruct (windows (state_after iconic_history) !! 7) as [r|] eqn:E; [|vm_compute in E; discriminate].
  assert (H1 : (fun r => (lifecycle r, kind r)) <$> windows (state_after iconic_history) !! 7
               = Some (Iconic, Managed)) by (vm_compute; reflexivity).
  assert (H2 : (fun r => bool_decide (is_Some (snapshot r))) <$> windows (state_after iconic_history) !! 7
               = Some true) by (vm_compute; reflexivity).
  rewrite E in H1, H2. injection H1 as H1 H3. injection H2 as H2%bool_decide_eq_true.
  destruct (late_buffer_loses_iconic plain_properties 7 r (state_after iconic_history) iconic_runs E H1 H2 H3)
    as (x1 & r1 & E1 & E2 & H & _).
  exists x1, r1. exact (conj E1 (conj E2 H)).
Defined.
