(* ===== verification/XwmRuntime.v ===== *)
(** * XwmRuntime: windows, associations and configures together

    Models the state the X11 window manager keeps across its parts
    ([Xwm] of src/xwayland/xwm/mod.rs): the windows of WindowRegistry.v, the
    join of AssociationJoin.v, the surfaces that have a buffer, and the
    timelines of ConfigureTimeline.v; and the entry points that move them
    together: the events of src/xwayland/xwm/events.rs, the commands of
    commands.rs, and the association and buffer calls of api.rs and mod.rs. *)

From stdpp Require Import base list option gmap.
From Stdlib Require Import ZArith Lia.
From S2P Require Import Prelude ConfigureTimeline AssociationJoin WindowRegistry WindowLifecycle.

Inductive XwmError : Type :=
| StaleGeneration
| InvalidCommand (e : RegistryError)
| Association (e : SurfaceAssociationJoinError).

Section Runtime.
Context {D : Type} {order : HashOrder} (generation : Z).
Record Runtime : Type := mkRuntime {
  rt_xwm : @Xwm D; rt_join : SurfaceAssociationJoin; rt_ready : gset Z; rt_timelines : Timelines
}.
Definition runtime_new : Runtime := mkRuntime xwm_new join_new ∅ (mkTimelines ∅ metrics_default).
(** A call changes the state also when it reports an error. *)
Abbreviation done := (Runtime * option XwmError)%type.
Abbreviation call := (res Empty_set done).
Definition with_xwm (x : Xwm) (s : Runtime) : Runtime := mkRuntime x (rt_join s) (rt_ready s) (rt_timelines s).
Definition with_join (j : SurfaceAssociationJoin) (s : Runtime) : Runtime :=
  mkRuntime (rt_xwm s) j (rt_ready s) (rt_timelines s).
Definition with_ready (b : gset Z) (s : Runtime) : Runtime := mkRuntime (rt_xwm s) (rt_join s) b (rt_timelines s).
Definition with_timelines (t : Timelines) (s : Runtime) : Runtime := mkRuntime (rt_xwm s) (rt_join s) (rt_ready s) t.
Definition forget_timeline (h : Z) (s : Runtime) : Runtime := with_timelines (clear_configure_timeline h (rt_timelines s)) s.
(** A handler of the registry, with its error reported. *)
Definition on_registry (e : XwmStep) (s : Runtime) : call :=
  match xwm_step e (rt_xwm s) with
  | Ret x => Ret (with_xwm x s, None)
  | Fail e => Ret (s, Some (InvalidCommand e))
  | Panic => Panic
  | NoFuel => NoFuel
  end.
Definition and_then (m : call) (k : Runtime -> call) : call :=
  '(s, o) ← m; match o with None => k s | Some e => Ret (s, Some e) end.
(** [clear_configure_timeline] of [reconcile_window_kind]: an announced window
    whose kind changes starts a new timeline. *)
Definition forget_on_kind_change (h : Z) (k : DesktopWindowKind) (s : Runtime) : Runtime :=
  match windows (rt_xwm s) !! h with
  | Some r => if bool_decide (kind r <> k) && bool_decide (is_Some (snapshot r)) then forget_timeline h s else s
  | None => s
  end.

(** ** Associations and buffers *)

(** One round of [sync_completed_associations]. *)
Definition sync_window (h : Z) (s : Runtime) : call :=
  match completed (rt_join s) !! h, windows (rt_xwm s) !! h with
  | Some a, Some r =>
      let s := if decide (association r = Some a) then s else forget_timeline h s in
      '(s, _) ← on_registry (AssociationComplete a (bool_decide (as_surface_id a ∈ rt_ready s)) h) s; Ret (s, None)
  | _, _ => Ret (s, None)
  end.
Fixpoint each_window (f : Z -> Runtime -> call) (hs : list Z) (s : Runtime) : call :=
  match hs with [] => Ret (s, None) | h :: hs => and_then (f h s) (each_window f hs) end.
Definition sync_completed_associations (s : Runtime) : call :=
  each_window sync_window (hash_keys (completed (rt_join s))) s.
Definition note_x11_surface_serial (h serial : Z) (s : Runtime) : call :=
  if decide (handle_generation h <> generation) then Ret (s, Some StaleGeneration)
  else if decide (serial = 0) then Ret (s, Some (Association InvalidSerial))
  else
    let serial_of_map := match windows (rt_xwm s) !! h with Some r => map_serial r | None => 0 end in
    '(j, o) ← note_x11_serial_for_map h serial serial_of_map (rt_join s);
    match o with
    | Some e => Ret (with_join j s, Some (Association e))
    | None => sync_completed_associations (with_join j s)
    end.
Definition wayland_committed (g serial surface_id : Z) (s : Runtime) : call :=
  if decide (g <> generation) then Ret (s, Some StaleGeneration)
  else
    let '(j, o) := commit_wayland g serial surface_id (rt_join s) in
    match o with
    | Some e => Ret (with_join j s, Some (Association e))
    | None => sync_completed_associations (with_join j s)
    end.
(** The window that is complete with a surface, in the order of the map. *)
Definition owner_of_surface (surface_id : Z) (j : SurfaceAssociationJoin) : option Z :=
  snd <$> list_find (fun h => as_surface_id <$> completed j !! h = Some surface_id) (hash_keys (completed j)).
Definition clear_surface_buffer_ready (surface_id : Z) (s : Runtime) : Runtime :=
  with_ready (rt_ready s ∖ {[surface_id]}) s.
Definition wayland_removed (g surface_id : Z) (s : Runtime) : call :=
  if decide (g <> generation) then Ret (s, Some StaleGeneration)
  else
    let owner := owner_of_surface surface_id (rt_join s) in
    let removed := owner ≫= fun h => completed (rt_join s) !! h in
    let s := clear_surface_buffer_ready surface_id (with_join (remove_wayland_surface surface_id (rt_join s)) s) in
    and_then
      match owner with
      | Some h =>
          let cleared := match windows (rt_xwm s) !! h with
                         | Some r => (clear_association surface_id (preserves_identity removed r) r).2
                         | None => false
                         end in
          and_then (on_registry (SurfaceRemoved surface_id removed h) s)
            (fun s => Ret (if cleared then forget_timeline h s else s, None))
      | None => Ret (s, None)
      end
      sync_completed_associations.
Definition mark_surface_buffer_ready (g surface_id : Z) (s : Runtime) : call :=
  if decide (g <> generation) then Ret (s, Some StaleGeneration)
  else
    let s := with_ready (rt_ready s ∪ {[surface_id]}) s in
    each_window (fun h s => if decide (handle_generation h <> generation) then Ret (s, Some StaleGeneration)
                            else on_registry (BufferReady h) s)
      (base.filter (fun h => as_surface_id <$> completed (rt_join s) !! h = Some surface_id)
         (hash_keys (completed (rt_join s)))) s.
Definition remove_x11_association (h : Z) (s : Runtime) : call :=
  if decide (handle_generation h <> generation) then Ret (s, Some StaleGeneration)
  else Ret (with_join (remove_x11_window h (rt_join s)) s, None).

(** ** Events and commands *)

Definition on_create (d : X11PropertySnapshot) (h : Z) (k : DesktopWindowKind) (g : X11Geometry) (s : Runtime) : call :=
  on_registry (CreateNotify d h k g) (forget_on_kind_change h k s).
Definition on_map_request (d : X11PropertySnapshot) (h : Z) (s : Runtime) : call :=
  on_registry (MapRequest d h) (forget_on_kind_change h Managed s).
Definition on_map (d : X11PropertySnapshot) (k : DesktopWindowKind) (h : Z) (s : Runtime) : call :=
  on_registry (MapNotify d k h) (forget_on_kind_change h k s).
Definition on_unmap (h : Z) (s : Runtime) : call :=
  match windows (rt_xwm s) !! h with
  | None => Ret (s, None)
  | Some r =>
      if inflight_wm_unmaps r =? 0 then
        let s := forget_timeline h s in
        let s := match association r with
                 | Some a => with_join (remove_x11_window h (rt_join s)) (clear_surface_buffer_ready (as_surface_id a) s)
                 | None => s
                 end in
        on_registry (UnmapNotify h) s
      else on_registry (UnmapNotify h) s
  end.
Definition on_destroy (h : Z) (s : Runtime) : call :=
  let s := forget_timeline h s in
  on_registry (DestroyNotify h) (with_join (remove_x11_window h (rt_join s)) s).
Definition on_configure_notify (k : DesktopWindowKind) (g : X11Geometry) (sequence : Z) (h : Z) (s : Runtime) : call :=
  match windows (rt_xwm s) !! h with
  | None => Ret (s, None)
  | Some _ =>
      let s := forget_on_kind_change h k s in
      match reconcile_window_kind h k (rt_xwm s) with
      | Ret x =>
          let initial := match windows x !! h with Some r => geometry r | None => geometry_default end in
          '(t, result) ← note_configure_notify h initial g (Some sequence) (geometry_authority h x) (rt_timelines s);
          on_registry (ConfigureNotify k g (nr_classification result) (nr_preserve_external result) h) (with_timelines t s)
      | Fail e => Ret (s, Some (InvalidCommand e))
      | Panic => Panic
      | NoFuel => NoFuel
      end
  end.
(** [normalize_command]: a command for a window that is gone is dropped. *)
Definition if_known (h : Z) (k : Runtime -> call) (s : Runtime) : call :=
  if decide (is_Some (windows (rt_xwm s) !! h)) then k s else Ret (s, None).
Definition on_command_unmap (h : Z) (s : Runtime) : call :=
  let s := match windows (rt_xwm s) !! h ≫= association with
           | Some a => clear_surface_buffer_ready (as_surface_id a) (forget_timeline h s)
           | None => forget_timeline h s
           end in
  on_registry (CommandUnmap h) s.
(** A configure that goes to the server, not to a resize in progress; [fields]
    name what it sets. *)
Definition on_command_configure (h : Z) (g : X11Geometry) (fields : X11ConfigureFlags) (source : ConfigureSource)
  (cookie : Z) (s : Runtime) : call :=
  if cf_x fields || cf_y fields || cf_width fields || cf_height fields then
    let initial := match windows (rt_xwm s) !! h with Some r => geometry r | None => geometry_default end in
    Ret (with_timelines (note_expected_configure_with_context h initial g fields source (Some cookie) (rt_timelines s)) s, None)
  else Ret (s, None).
(** A property reply; a changed counter for resize synchronisation forgets the
    timeline. *)
Definition on_property (complete : bool) (p : X11PropertySnapshot) (shown : D) (sync_changed : bool) (h : Z) (s : Runtime)
  : call :=
  on_registry (PropertyReply complete p shown h) (if sync_changed then forget_timeline h s else s).
Inductive RuntimeStep : Type :=
| RtCreate (d : @X11PropertySnapshot D) (h : Z) (k : DesktopWindowKind) (g : X11Geometry)
| RtMapRequest (d : @X11PropertySnapshot D) (h : Z)
| RtMap (d : @X11PropertySnapshot D) (k : DesktopWindowKind) (h : Z)
| RtUnmap (h : Z)
| RtDestroy (h : Z)
| RtConfigureNotify (k : DesktopWindowKind) (g : X11Geometry) (sequence : Z) (h : Z)
| RtConfigureRequest (d : @X11PropertySnapshot D) (h : Z)
| RtCommandMap (h : Z)
| RtCommandUnmap (h : Z)
| RtCommandConfigure (h : Z) (g : X11Geometry) (fields : X11ConfigureFlags) (source : ConfigureSource) (cookie : Z)
| RtProperty (complete : bool) (p : @X11PropertySnapshot D) (shown : D) (sync_changed : bool) (h : Z)
| RtEmitReady (h : Z)
| RtNoteSerial (h serial : Z)
| RtCommitted (g serial surface_id : Z)
| RtRemoved (g surface_id : Z)
| RtBufferReady (g surface_id : Z)
| RtRemoveAssociation (h : Z)
| RtAdopt (d : @X11PropertySnapshot D) (h : Z) (k : DesktopWindowKind) (g : X11Geometry) (is_mapped : bool).
Definition runtime_step (e : RuntimeStep) (s : Runtime) : call :=
  match e with
  | RtCreate d h k g => on_create d h k g s
  | RtMapRequest d h => on_map_request d h s
  | RtMap d k h => on_map d k h s
  | RtUnmap h => on_unmap h s
  | RtDestroy h => on_destroy h s
  | RtConfigureNotify k g sequence h => on_configure_notify k g sequence h s
  | RtConfigureRequest d h => on_registry (ConfigureRequest d h) s
  | RtCommandMap h => if_known h (on_registry (CommandMap h)) s
  | RtCommandUnmap h => if_known h (on_command_unmap h) s
  | RtCommandConfigure h g fields source cookie => if_known h (on_command_configure h g fields source cookie) s
  | RtProperty complete p shown sync_changed h => on_property complete p shown sync_changed h s
  | RtEmitReady h => on_registry (EmitReady h) s
  | RtNoteSerial h serial => note_x11_surface_serial h serial s
  | RtCommitted g serial f => wayland_committed g serial f s
  | RtRemoved g f => wayland_removed g f s
  | RtBufferReady g f => mark_surface_buffer_ready g f s
  | RtRemoveAssociation h => remove_x11_association h s
  | RtAdopt d h k g is_mapped => on_registry (Adopt d h k g is_mapped) s
  end.
End Runtime.

(** ** The parts *)

Section RuntimeTheory.
Context {D : Type} {order : HashOrder} (generation : Z).
Implicit Types (s : @Runtime D) (x : @Xwm D).
Definition Parts s : Prop := Runs (rt_xwm s) /\ JoinRuns any_step (rt_join s).
(** [m] returns in a state that satisfies [P], with or without an error. *)
Definition yields (P : Runtime -> Prop) (m : res Empty_set (@Runtime D * option XwmError)) : Prop :=
  exists s o, m = Ret (s, o) /\ P s.
Lemma yields_weaken P Q m : (forall s, P s -> Q s) -> yields P m -> yields Q m.
Proof. intros H (s & o & E & Hs). exists s, o. eauto. Qed.
Lemma yields_ret P s o : P s -> yields P (Ret (s, o)).
Proof. by exists s, o. Qed.
Lemma and_then_yields (P : Runtime -> Prop) m k :
  yields P m -> (forall s, P s -> yields P (k s)) -> yields P (and_then m k).
Proof. intros (s & o & -> & Hs) Hk. unfold and_then. cbn. destruct o; [by exists s, (Some x)|by apply Hk]. Qed.
Lemma each_window_yields (P : Runtime -> Prop) f hs s :
  (forall h s, P s -> yields P (f h s)) -> P s -> yields P (each_window f hs s).
Proof.
  intros Hf. revert s. induction hs as [|h hs IH]; intros s Hs; cbn; [by apply yields_ret|].
  apply and_then_yields; [by apply Hf|exact IH].
Qed.
Lemma on_registry_eq e s :
  Runs (rt_xwm s) -> exists s' o, on_registry e s = Ret (s', o) /\ rt_join s' = rt_join s /\ rt_ready s' = rt_ready s /\
    Runs (rt_xwm s') /\ (rt_xwm s' = rt_xwm s \/ xwm_step e (rt_xwm s) = Ret (rt_xwm s')).
Proof.
  intros Hr. unfold on_registry. pose proof (step_good e (rt_xwm s) (runs_inv _ Hr)) as Hg.
  destruct (xwm_step e (rt_xwm s)) as [x|err| |] eqn:E; try done.
  - exists (with_xwm x s), None. split_and!; try done; [by eapply runs_step|by right].
  - exists s, (Some (InvalidCommand err)). by split_and!; try left.
Qed.
Lemma join_parts e s j o : Parts s -> join_step e (rt_join s) = Ret (j, o) -> Parts (with_join j s).
Proof. intros [Hr Hj] E. split; [done|]. by eapply join_then. Qed.
Lemma note_configure_returns h i g q a t : exists t' n, note_configure_notify h i g q a t = Ret (t', n).
Proof.
  unfold note_configure_notify.
  destruct (notify_returns g q a (default (timeline_new i) (configure_timelines t !! h))) as [[t' n] ->]. cbn. by eexists _, _.
Qed.

(** ** Windows follow the join *)

(** Every association of the second state was there in the first. *)
Definition assoc_le x x' : Prop :=
  forall h r', windows x' !! h = Some r' -> is_Some (association r') ->
    exists r, windows x !! h = Some r /\ association r = association r'.
Lemma assoc_le_refl x : assoc_le x x.
Proof. intros h r E _. by exists r. Qed.
Lemma assoc_le_trans x y z : assoc_le x y -> assoc_le y z -> assoc_le x z.
Proof.
  intros H1 H2 h r E Hs. destruct (H2 h r E Hs) as (r1 & E1 & Ea). destruct (H1 h r1 E1) as (r2 & E2 & Ea'); [by rewrite Ea|].
  exists r2. split; [done|congruence].
Qed.
Lemma assoc_le_emit e x y : assoc_le x y -> assoc_le x (emit e y).
Proof. done. Qed.
Lemma assoc_le_put h r r' x :
  windows x !! h = Some r -> association r' = None \/ association r' = association r -> assoc_le x (put h r' x).
Proof.
  intros E Ha k r0 E0 Hs. cbn in E0. destruct (decide (k = h)) as [->|].
  - rewrite lookup_insert_eq in E0. injection E0 as <-. destruct Ha as [Ha|Ha]; [rewrite Ha in Hs; by destruct Hs|]. by exists r.
  - rewrite lookup_insert_ne in E0 by done. by exists r0.
Qed.
Lemma assoc_update r : association (update_pending_lifecycle r) = association (D := D) r.
Proof. unfold update_pending_lifecycle. by destruct (_ && _). Qed.
Lemma assoc_observe d h k g x : assoc_le x (observe_window_with_kind d h k g x).1.
Proof.
  unfold observe_window_with_kind. destruct (windows x !! h) eqn:E; [apply assoc_le_refl|]. intros i r Ei Hs. cbn in Ei.
  destruct (decide (i = h)) as [->|]; [rewrite lookup_insert_eq in Ei; injection Ei as <-; by destruct Hs|].
  rewrite lookup_insert_ne in Ei by done. by exists r.
Qed.
Lemma assoc_reconcile h k x x' : reconcile_window_kind h k x = Ret x' -> assoc_le x x'.
Proof.
  unfold reconcile_window_kind. destruct (windows x !! h) as [r|] eqn:E; [|done]. cbn [ok_or mbind res_bind].
  destruct (reconcile_kind k r) as [r' c] eqn:Ek. intros [= <-].
  assert (Hp : assoc_le x (put h r' x)).
  { eapply assoc_le_put; [done|]. right. unfold reconcile_kind in Ek. destruct (decide _); by injection Ek as <- _. }
  destruct c; [done|]. by destruct (decide _).
Qed.
Lemma assoc_try_ready h r r' o : try_ready (D := D) h r = Ret (r', o) -> association r' = association r.
Proof.
  unfold try_ready. destruct (_ || _); [by intros [= <- _]|]. destruct (association r) eqn:E; [|done]. cbn [expect mbind res_bind].
  destruct (is_auxiliary_client_leader h r); by intros [= <- _].
Qed.
Lemma assoc_ready h x x' : emit_ready_if_complete h x = Ret x' -> assoc_le x x'.
Proof.
  unfold emit_ready_if_complete. destruct (windows x !! h) as [r|] eqn:E; [|intros [= <-]; apply assoc_le_refl].
  destruct (properties_ready r); [|intros [= <-]; apply assoc_le_refl].
  destruct (try_ready h r) as [[r' o]|?| |] eqn:Et; try done. cbn [mbind res_bind]. intros [= <-].
  assert (assoc_le x (put h r' x)) by (eapply assoc_le_put; [done|right; by eapply assoc_try_ready]). by destruct o.
Qed.
Lemma assoc_map_requested r r' : mark_map_requested (D := D) r = Ret r' -> association r' = association r.
Proof.
  unfold mark_map_requested. destruct (decide _); [done|]. destruct (_ && _); [by intros [= <-]|]. intros [= <-].
  rewrite assoc_update. by destruct (bool_decide _).
Qed.
Lemma assoc_authorize h x : assoc_le x (authorize_map_if_requested h x).
Proof.
  unfold authorize_map_if_requested. destruct (windows x !! h) as [r|] eqn:E; [|apply assoc_le_refl].
  destruct (_ && _ && _); [|apply assoc_le_refl]. unfold mark_map_authorized. destruct (map_authorized r).
  - eapply assoc_le_put; [done|by right].
  - apply assoc_le_emit. eapply assoc_le_put; [done|]. right. by rewrite assoc_update.
Qed.
Lemma assoc_refresh h x : assoc_le x (refresh_window_properties h x).
Proof.
  unfold refresh_window_properties. destruct (windows x !! h) as [r|] eqn:E; [|apply assoc_le_refl].
  eapply assoc_le_put; [done|]. right. by destruct (decide _).
Qed.
Lemma assoc_cleared f p r : association (clear_association (D := D) f p r).1 = None \/
  association (clear_association (D := D) f p r).1 = association r.
Proof.
  unfold clear_association. destruct (association r) as [a|] eqn:E; [|by right]. destruct (_ =? f); [|by right]. left.
  cbv zeta. cbn [fst]. destruct (negb p || _); rewrite ?assoc_update; by destruct p.
Qed.
Lemma assoc_mapped r : association (confirm_map_notify (D := D) r).1 = association r /\
  association (confirm_external_map_notify (D := D) r) = association r /\ association (adopt_mapped (D := D) r) = association r.
Proof.
  unfold confirm_map_notify, confirm_external_map_notify, adopt_mapped.
  split_and!; [by destruct (map_operation_pending r)|by destruct (mapped_notified r)|by destruct (mapped_notified r)].
Qed.
Lemma assoc_buffer r r' : mark_buffer_ready (D := D) r = Ret r' -> association r' = association r.
Proof. unfold mark_buffer_ready. destruct (lifecycle r); try done; intros [= <-]; by rewrite assoc_update. Qed.
(** The handlers that do not complete an association. *)
Lemma step_assoc e x x' :
  (forall a c h, e <> AssociationComplete a c h) -> xwm_step e x = Ret x' -> assoc_le x x'.
Proof.
  intros Hne. destruct e; cbn [xwm_step].
  - unfold create_notify. pose proof (assoc_observe defaults h k g x) as Ho.
    destruct (observe_window_with_kind defaults h k g x) as [x1 [|]]; [by intros [= <-]|].
    intros E. eapply assoc_le_trans; [exact Ho|by eapply assoc_reconcile].
  - unfold map_request. pose proof (assoc_observe defaults h Managed geometry_default x) as Ho.
    destruct (observe_window_with_kind defaults h Managed geometry_default x) as [x1 b]. rewrite bind_Ret.
    intros (x2 & E2 & E). apply assoc_reconcile in E2. rewrite bind_Ret in E. destruct E as (r & Er & E). apply ok_or_Ret in Er.
    eapply assoc_le_trans; [exact Ho|]. eapply assoc_le_trans; [exact E2|].
    destruct (map_requested r && _); [injection E as <-; apply assoc_le_refl|]. rewrite bind_Ret in E. destruct E as (r' & Em & E).
    eapply assoc_le_trans; [|by eapply assoc_ready]. eapply assoc_le_trans; [|apply assoc_refresh].
    eapply assoc_le_trans; [|apply assoc_authorize]. eapply assoc_le_put; [done|right; by apply assoc_map_requested].
  - unfold map_notify. pose proof (assoc_observe defaults h k geometry_default x) as Ho.
    destruct (observe_window_with_kind defaults h k geometry_default x) as [x1 b]. rewrite bind_Ret.
    intros (x2 & E2 & E). apply assoc_reconcile in E2. rewrite bind_Ret in E. destruct E as (r & Er & E). apply ok_or_Ret in Er.
    eapply assoc_le_trans; [exact Ho|]. eapply assoc_le_trans; [exact E2|]. destruct (assoc_mapped r) as (M1 & M2 & _).
    destruct (map_operation_pending r); (eapply assoc_le_trans; [|by eapply assoc_ready]).
    + eapply assoc_le_put; [done|by right].
    + eapply assoc_le_trans; [|apply assoc_refresh]. eapply assoc_le_put; [done|by right].
  - intros [= <-]. unfold unmap_notify. destruct (windows x !! h) as [r|] eqn:E; [|apply assoc_le_refl]. cbv zeta.
    destruct (consume_wm_unmap r) as [r1 c] eqn:Ec.
    assert (E1 : association r1 = association r).
    { unfold consume_wm_unmap in Ec. destruct (_ =? 0); [by injection Ec as <- _|]. injection Ec as <- _. by destruct (_ || _). }
    destruct c; [eapply assoc_le_put; [done|by right]|]. set (r2 := match association r with Some a => _ | None => r1 end).
    assert (E2 : association r2 = None \/ association r2 = association r).
    { unfold r2. destruct (association r) as [a|]; [|by right]. rewrite <- E1. apply assoc_cleared. }
    assert (assoc_le x (put h (mark_unmapped r2).1 x)) by (by eapply assoc_le_put).
    destruct (_ || _); [done|]. by destruct (decide _).
  - intros [= <-]. unfold destroy_notify. destruct (windows x !! h) as [r|] eqn:E; [|apply assoc_le_refl].
    assert (assoc_le x (mkXwm (delete h (windows x)) (outgoing x))).
    { intros k r0 Ek _. cbn in Ek. apply lookup_delete_Some in Ek as [_ Ek]. by exists r0. }
    by destruct (_ || bool_decide (kind r <> KindOverrideRedirect)).
  - unfold command_map. rewrite bind_Ret. intros (x1 & E1 & E). apply (assoc_le_trans x x1).
    + destruct (windows x !! h) as [r|] eqn:Er; [|injection E1 as <-; apply assoc_le_refl].
      destruct (decide _); [|injection E1 as <-; apply assoc_le_refl]. rewrite bind_Ret in E1. destruct E1 as (r' & Em & [= <-]).
      eapply assoc_le_put; [done|right; by apply assoc_map_requested].
    + rewrite bind_Ret in E. destruct E as (r & Er & E). apply ok_or_Ret in Er.
      destruct (map_command_is_new r); [|injection E as <-; apply assoc_le_refl]. injection E as <-.
      destruct (mark_map_commanded r) as [r'|?| |] eqn:Em; try apply assoc_le_refl. eapply assoc_le_put; [done|right].
      unfold mark_map_commanded in Em. destruct (negb _); [done|]. injection Em as <-. cbv zeta.
      destruct (bool_decide (snapshot _ = None) || _); cbn; by destruct (decide _).
  - unfold command_unmap. rewrite bind_Ret. intros (r & Er & E). apply ok_or_Ret in Er. rewrite bind_Ret in E.
    destruct E as (r' & Em & [= <-]). eapply assoc_le_put; [done|right]. unfold mark_wm_unmap_requested in Em.
    destruct (decide _); [done|]. by injection Em as <-.
  - by destruct (Hne a content h).
  - unfold mark_window_buffer_ready. rewrite bind_Ret. intros (r & Er & E). apply ok_or_Ret in Er. rewrite bind_Ret in E.
    destruct E as (r' & Em & E). eapply assoc_le_trans; [|by eapply assoc_ready].
    eapply assoc_le_put; [done|right; by apply assoc_buffer].
  - unfold surface_removed. rewrite bind_Ret. intros (r & Er & E). apply ok_or_Ret in Er. cbv zeta in E.
    pose proof (assoc_cleared surface (preserves_identity removed r) r) as Hc.
    destruct (clear_association surface (preserves_identity removed r) r) as [r' c]. injection E as <-.
    assert (assoc_le x (put h r' x)) by (by eapply assoc_le_put). by destruct (c && _).
  - unfold property_reply. rewrite bind_Ret. intros (r & Er & E). apply ok_or_Ret in Er.
    destruct (reconcile_auxiliary h (publish_properties complete p shown r)) as [r' c] eqn:Ec. injection E as <-.
    assert (assoc_le x (put h r' x)).
    { eapply assoc_le_put; [done|right]. unfold reconcile_auxiliary in Ec.
      destruct (is_auxiliary_client_leader h _); [by injection Ec as <- _|].
      destruct (decide _); injection Ec as <- _; rewrite ?assoc_update; done. }
    by destruct c.
  - by apply assoc_ready.
  - unfold configure_notify. destruct (windows x !! h) as [r|] eqn:E; [|intros [= <-]; apply assoc_le_refl].
    rewrite bind_Ret. intros (x1 & E1 & [= <-]). apply assoc_reconcile in E1. eapply assoc_le_trans; [exact E1|].
    assert (H2 : assoc_le x1 (apply_configure_notify_record h g c preserve x1)).
    { unfold apply_configure_notify_record. destruct (_ && _); [|apply assoc_le_refl].
      destruct (windows x1 !! h) eqn:E2; [|apply assoc_le_refl]. eapply assoc_le_put; [done|by right]. }
    by destruct (forwards_to_compositor c).
  - intros [= <-]. apply assoc_le_emit, assoc_observe.
  - intros [= <-]. unfold adopt_window. pose proof (assoc_observe defaults h k g x) as Ho.
    destruct (observe_window_with_kind defaults h k g x) as [x1 b]. eapply assoc_le_trans; [exact Ho|].
    destruct (windows x1 !! h) as [r|] eqn:E; [|apply assoc_le_refl]. destruct is_mapped; [|apply assoc_le_refl].
    eapply assoc_le_put; [done|right; apply assoc_mapped].
Qed.
(** The one that does. *)
Lemma complete_assoc a c h x x' :
  xwm_step (AssociationComplete a c h) x = Ret x' ->
  (forall k, k <> h -> windows x' !! k = windows x !! k) /\
  forall r', windows x' !! h = Some r' -> association r' = None \/ association r' = Some a.
Proof.
  cbn [xwm_step]. unfold association_complete. destruct (windows x !! h) as [r|] eqn:E.
  2: { intros [= <-]. split; [done|]. intros r' E'. congruence. }
  cbv zeta. set (r1 := if decide (association r = Some a) then r else _).
  assert (E1 : association r1 = None \/ association r1 = Some a).
  { unfold r1. destruct (decide _); [by right|]. destruct (association r) as [b|] eqn:Ea.
    - right. unfold replace_associated. destruct (decide _); [done|by rewrite assoc_update].
    - destruct (mark_associated a r) as [r0|?| |] eqn:Em; try by left. right. unfold mark_associated in Em.
      destruct (decide _); [done|]. destruct (_ && _); [done|]. injection Em as <-. by rewrite assoc_update. }
  set (r2 := if c then _ else r1).
  assert (E2 : association r2 = association r1).
  { unfold r2. destruct c; [|done]. destruct (mark_buffer_ready r1) as [r0|?| |] eqn:Em; try done. by apply assoc_buffer. }
  unfold emit_ready_if_complete. cbn [windows put]. rewrite lookup_insert_eq. intros Er.
  assert (Hput : forall r0 y, association r0 = association r1 -> windows y = <[h := r0]> (<[h := r2]> (windows x)) ->
    (forall k, k <> h -> windows y !! k = windows x !! k) /\
    forall r', windows y !! h = Some r' -> association r' = None \/ association r' = Some a).
  { intros r0 y E0 ->. split; [intros k Hk; by rewrite !lookup_insert_ne|]. intros r'. rewrite lookup_insert_eq. intros [= <-].
    by rewrite E0. }
  destruct (properties_ready r2).
  - destruct (try_ready h r2) as [[r0 o]|?| |] eqn:Et; try done. cbn [mbind res_bind] in Er. apply assoc_try_ready in Et.
    injection Er as <-. apply (Hput r0); [congruence|]. by destruct o.
  - injection Er as <-. apply (Hput r2); [done|]. cbn. by rewrite insert_insert_eq.
Qed.

(** A window has the association it was completed with. *)
Definition follows_at (h : Z) s : Prop :=
  forall r a b, windows (rt_xwm s) !! h = Some r -> completed (rt_join s) !! h = Some a -> association r = Some b -> a = b.
Definition Follows s : Prop := forall h, follows_at h s.
Definition Good s : Prop := Parts s /\ Follows s.
Lemma follows_le s s' :
  Follows s -> assoc_le (rt_xwm s) (rt_xwm s') ->
  (forall h a, completed (rt_join s') !! h = Some a -> completed (rt_join s) !! h = Some a) -> Follows s'.
Proof.
  intros H Hx Hc h r a b Er Ea Eb. destruct (Hx h r Er) as (r0 & E0 & E0'); [by eexists|].
  apply (H h r0 a b); [done|by apply Hc|congruence].
Qed.
Lemma on_registry_good e s : (forall a c h, e <> AssociationComplete a c h) -> Good s -> yields Good (on_registry e s).
Proof.
  intros Hne [Hp Hf]. destruct (on_registry_eq e s (proj1 Hp)) as (s' & o & E & Ej & _ & Hr & Hx). exists s', o. split; [done|].
  split; [split; [done|rewrite Ej; apply Hp]|]. eapply follows_le; [exact Hf| |by rewrite Ej].
  destruct Hx as [->|Hx]; [apply assoc_le_refl|by eapply step_assoc].
Qed.
Lemma forget_kind_good h k s : Good s -> Good (forget_on_kind_change h k s).
Proof. intros H. unfold forget_on_kind_change. destruct (windows (rt_xwm s) !! h); [|done]. by destruct (_ && _). Qed.
Lemma join_good e s j o :
  Good s -> join_step e (rt_join s) = Ret (j, o) ->
  (forall h a, completed j !! h = Some a -> completed (rt_join s) !! h = Some a) -> Good (with_join j s).
Proof.
  intros [Hp Hf] E Hc. split; [by eapply join_parts|]. eapply follows_le; [exact Hf|apply assoc_le_refl|done].
Qed.
Lemma remove_x11_good h s : Good s -> Good (with_join (remove_x11_window h (rt_join s)) s).
Proof.
  intros H. eapply (join_good (RemoveX11 h)); [done|done|]. destruct (remove_window_lookup h (rt_join s)) as (_ & _ & _ & ->).
  by intros k a [_ ?]%lookup_delete_Some.
Qed.
Lemma remove_wayland_good f s : Good s -> Good (with_join (remove_wayland_surface f (rt_join s)) s).
Proof.
  intros H. eapply (join_good (RemoveWayland f)); [done|done|]. unfold remove_wayland_surface. intros k a.
  destruct (serial_of_surface f (rt_join s)); [|done]. destruct (x11_by_serial (rt_join s) !! _) as [w|]; [|done].
  destruct (decide _); [|done]. destruct (completed (rt_join s) !! xa_window w) eqn:Ec; [|done].
  cbn. by intros [_ ?]%lookup_delete_Some.
Qed.
(** A synchronisation brings every window in line. *)
Lemma complete_returns a c h x : returns (xwm_step (AssociationComplete a c h) x).
Proof.
  cbn [xwm_step]. unfold association_complete. destruct (windows x !! h) as [r|]; [|by eexists]. cbv zeta.
  set (x1 := put h _ x). unfold emit_ready_if_complete. destruct (windows x1 !! h) as [r1|]; [|by eexists].
  destruct (properties_ready r1); [|by eexists]. unfold try_ready. destruct (_ || _) eqn:E; [by eexists|].
  destruct (association r1) eqn:Ea.
  2: { repeat (apply orb_false_iff in E as [E ?]).
       by repeat match goal with H : bool_decide _ = false |- _ => apply bool_decide_eq_false in H end. }
  cbn [expect mbind res_bind]. destruct (is_auxiliary_client_leader h r1); by eexists.
Qed.
Lemma sync_one h s :
  Parts s -> exists s1, sync_window h s = Ret (s1, None) /\ Parts s1 /\ rt_join s1 = rt_join s /\
    follows_at h s1 /\ forall k, k <> h -> follows_at k s -> follows_at k s1.
Proof.
  intros Hp. unfold sync_window. destruct (completed (rt_join s) !! h) as [a|] eqn:Ea.
  2: { exists s. split_and!; try done. intros r a b _ E. congruence. }
  destruct (windows (rt_xwm s) !! h) as [r|] eqn:Er.
  2: { exists s. split_and!; try done. intros r a' b E. congruence. }
  cbv zeta. set (s1 := if decide (association r = Some a) then s else forget_timeline h s).
  assert (H1 : rt_xwm s1 = rt_xwm s /\ rt_join s1 = rt_join s) by (unfold s1; by destruct (decide _)). destruct H1 as [X1 J1].
  set (c := bool_decide (as_surface_id a ∈ rt_ready s1)). destruct (complete_returns a c h (rt_xwm s)) as [x Ex].
  assert (Eo : on_registry (AssociationComplete a c h) s1 = Ret (with_xwm x s1, None)) by (unfold on_registry; by rewrite X1, Ex).
  rewrite Eo. exists (with_xwm x s1). split; [done|]. destruct (complete_assoc _ _ _ _ _ Ex) as [K1 K2].
  split; [split; [cbn; eapply runs_step; [apply Hp|done]|cbn; rewrite J1; apply Hp]|]. split; [done|]. split.
  - intros r0 a0 b E0 Ea0 Eb. cbn in E0, Ea0. rewrite J1, Ea in Ea0. injection Ea0 as <-. destruct (K2 r0 E0); congruence.
  - intros k Hk Hf r0 a0 b E0 Ea0 Eb. cbn in E0, Ea0. rewrite K1 in E0 by done. rewrite J1 in Ea0. by eapply Hf.
Qed.
Lemma sync_windows hs s :
  Parts s -> exists s', each_window sync_window hs s = Ret (s', None) /\ Parts s' /\ rt_join s' = rt_join s /\
    (forall h, follows_at h s -> follows_at h s') /\ forall h, h ∈ hs -> follows_at h s'.
Proof.
  revert s. induction hs as [|h hs IH]; intros s Hp; cbn [each_window].
  { exists s. split_and!; try done. by intros h ?%not_elem_of_nil. }
  destruct (sync_one h s Hp) as (s1 & -> & H1 & J1 & F1 & K1). unfold and_then. cbn [mbind res_bind].
  destruct (IH s1 H1) as (s2 & -> & H2 & J2 & F2 & K2). exists s2. split; [done|]. split; [done|]. split; [congruence|]. split.
  - intros k Hk. apply F2. destruct (decide (k = h)) as [->|]; [done|by apply K1].
  - intros k [->|Hk]%elem_of_cons; [by apply F2|by apply K2].
Qed.
Lemma sync_good s : Parts s -> yields Good (sync_completed_associations s).
Proof.
  intros Hp. unfold sync_completed_associations.
  destruct (sync_windows (hash_keys (completed (rt_join s))) s Hp) as (s' & -> & H' & J' & _ & K). exists s', None.
  split; [done|]. split; [done|]. intros h r a b Er Ea Eb. eapply (K h); [|done..]. apply elem_of_hash_keys.
  rewrite <- J'. by eexists.
Qed.
Lemma complete_if_ready_error n j e : (complete_if_ready n j).2 = Some e -> completed (complete_if_ready n j).1 = completed j.
Proof.
  unfold complete_if_ready. destruct (wayland_by_serial j !! n), (x11_by_serial j !! n); try done. cbv zeta.
  destruct (decide _); [done|]. by destruct (decide _).
Qed.
Lemma note_serial_good h n s : Good s -> yields Good (note_x11_surface_serial generation h n s).
Proof.
  intros H. unfold note_x11_surface_serial. destruct (decide _); [by apply yields_ret|]. destruct (decide _); [by apply yields_ret|].
  cbv zeta. set (m := match windows (rt_xwm s) !! h with Some r => map_serial r | None => 0 end).
  pose proof (note_x11_cases h n m _ (join_runs_inv _ _ (proj2 (proj1 H)))) as Ec.
  destruct (note_x11_serial_for_map h n m (rt_join s)) as [[j o]|?| |] eqn:En; try done. cbn [mbind res_bind].
  destruct o as [e|]; [|apply sync_good; by eapply (join_parts (NoteX11 h n m)), En; apply H]. apply yields_ret.
  eapply (join_good (NoteX11 h n m)); [done|exact En|]. injection Ec as Ec. intros k a. revert Ec.
  destruct (decide _); [destruct (decide _)|]; intros Ec.
  - pose proof (complete_if_ready_error n (rt_join s) e) as K. rewrite <- Ec in K. cbn in K. by rewrite K by done.
  - by injection Ec as <- _.
  - match type of Ec with _ = complete_if_ready n ?j0 => pose proof (complete_if_ready_error n j0 e) as K end.
    rewrite <- Ec in K. cbn in K. rewrite K by done. destruct (serial_by_x11 (rt_join s) !! h); [|done].
    by intros [_ ?]%lookup_delete_Some.
Qed.
Lemma committed_good g n f s : Good s -> yields Good (wayland_committed generation g n f s).
Proof.
  intros H. unfold wayland_committed. destruct (decide _); [by apply yields_ret|].
  destruct (commit_wayland g n f (rt_join s)) as [j o] eqn:Ec.
  assert (En : join_step (CommitWayland g n f) (rt_join s) = Ret (j, o)) by (cbn; by rewrite Ec).
  destruct o as [e|]; [|apply sync_good; eapply join_parts; [apply H|exact En]]. apply yields_ret.
  eapply join_good; [done|exact En|]. intros k a. unfold commit_wayland in Ec.
  destruct (decide _); [by injection Ec as <- _|]. destruct (decide _); [by injection Ec as <- _|].
  match type of Ec with complete_if_ready n ?j0 = _ => pose proof (complete_if_ready_error n j0 e) as K end.
  rewrite Ec in K. cbn in K. by rewrite K by done.
Qed.
Lemma runtime_step_good e s : Good s -> yields Good (runtime_step generation e s).
Proof.
  intros H. destruct e; cbn [runtime_step]; try by apply on_registry_good.
  - by apply on_registry_good, forget_kind_good.
  - by apply on_registry_good, forget_kind_good.
  - by apply on_registry_good, forget_kind_good.
  - unfold on_unmap. destruct (windows (rt_xwm s) !! h) as [r|]; [|by apply yields_ret].
    destruct (_ =? 0); [|by apply on_registry_good]. apply on_registry_good; [done|]. destruct (association r); [|done].
    by apply (remove_x11_good h (clear_surface_buffer_ready _ (forget_timeline h s))).
  - unfold on_destroy. apply on_registry_good; [done|]. by apply (remove_x11_good h (forget_timeline h s)).
  - unfold on_configure_notify. destruct (windows (rt_xwm s) !! h) as [r|] eqn:E; [|by apply yields_ret].
    pose proof (forget_kind_good h k s H) as H1. set (s1 := forget_on_kind_change h k s) in *.
    assert (E1 : rt_xwm s1 = rt_xwm s) by (unfold s1, forget_on_kind_change; rewrite E; by destruct (_ && _)).
    unfold reconcile_window_kind. rewrite E1, E. cbn [ok_or mbind res_bind]. destruct (reconcile_kind k r) as [r' c].
    cbn [mbind res_bind]. edestruct note_configure_returns as (t & n & ->). cbn [mbind res_bind].
    by apply on_registry_good.
  - unfold if_known. destruct (decide _); [by apply on_registry_good|by apply yields_ret].
  - unfold if_known. destruct (decide _); [|by apply yields_ret]. apply on_registry_good; [done|].
    by destruct (windows (rt_xwm s) !! h ≫= association).
  - unfold if_known, on_command_configure. destruct (decide _); [|by apply yields_ret]. destruct (_ || _); by apply yields_ret.
  - apply on_registry_good; [done|]. by destruct sync_changed.
  - by apply note_serial_good.
  - by apply committed_good.
  - unfold wayland_removed. destruct (decide _); [by apply yields_ret|]. cbv zeta.
    set (s1 := clear_surface_buffer_ready _ _). assert (H1 : Good s1) by (by apply (remove_wayland_good surface_id s)).
    apply and_then_yields; [|intros s2 H2; apply sync_good, H2].
    destruct (owner_of_surface surface_id (rt_join s)) as [h|]; [|by apply yields_ret].
    apply and_then_yields; [by apply on_registry_good|]. intros s2 H2. apply yields_ret.
    by destruct (match windows _ !! h with Some _ => _ | None => _ end).
  - unfold mark_surface_buffer_ready. destruct (decide _); [by apply yields_ret|]. apply each_window_yields; [|done].
    intros h s1 H1. destruct (decide _); [by apply yields_ret|by apply on_registry_good].
  - unfold remove_x11_association. destruct (decide _); apply yields_ret; [done|]. by apply remove_x11_good.
Qed.
Inductive RuntimeRuns : @Runtime D -> Prop :=
| runtime_start : RuntimeRuns runtime_new
| runtime_next s e s' o : RuntimeRuns s -> runtime_step generation e s = Ret (s', o) -> RuntimeRuns s'.
Lemma runtime_good s : RuntimeRuns s -> Good s.
Proof.
  induction 1 as [|s e s' o _ IH E].
  - split; [split; constructor|]. intros h r a b _ Ea. cbn in Ea. by rewrite lookup_empty in Ea.
  - destruct (runtime_step_good e s IH) as (s1 & o1 & E1 & H1). rewrite E in E1. by injection E1 as <- <-.
Qed.

(** C8: the window manager as a whole. Whatever events, commands, associations,
    buffers, configures and property replies arrive in whatever order, every
    call returns (no assertion of a part fails); the windows are in a state
    their own histories reach, so they are consistent and announced and
    withdrawn in turn, and so is the join; and a window that has an association
    and a completed one has the completed one. *)
Theorem window_manager_consistent s :
  RuntimeRuns s ->
  (forall e, returns (runtime_step generation e s)) /\
  (forall h r, windows (rt_xwm s) !! h = Some r -> rec_ok h r) /\ alternating (outgoing (rt_xwm s)) /\
  JoinInv (rt_join s) /\
  forall h r a b, windows (rt_xwm s) !! h = Some r -> completed (rt_join s) !! h = Some a -> association r = Some b -> a = b.
Proof.
  intros H. pose proof (runtime_good s H) as [[Hr Hj] Hf]. pose proof (runs_inv _ Hr) as [X1 _ X3]. split_and!; try done.
  - intros e. destruct (runtime_step_good e s (runtime_good s H)) as (s' & o & -> & _). by eexists.
  - by eapply join_runs_inv.
Qed.
End RuntimeTheory.

(** ** Concrete histories *)

Section Concrete.
Context (generation : Z).
Fixpoint runtime_replay (es : list (@RuntimeStep unit)) (s : @Runtime unit) : @Runtime unit :=
  match es with
  | [] => s
  | e :: es => match runtime_step (order := list_order) generation e s with
               | Ret (s', _) => runtime_replay es s'
               | _ => s
               end
  end.
Lemma runtime_replay_runs es s :
  RuntimeRuns (order := list_order) generation s -> RuntimeRuns (order := list_order) generation (runtime_replay es s).
Proof.
  revert s. induction es as [|e es IH]; intros s Hs; cbn; [done|].
  destruct (runtime_step generation e s) as [[s' o]|?| |] eqn:E; try done. apply IH. by eapply runtime_next.
Qed.
End Concrete.
Definition the_window : Z := handle_new 1 30.
(** The window is created and mapped, its properties are read. *)
Definition mapped_steps : list (@RuntimeStep unit) :=
  [RtCreate plain_properties the_window Managed (mkGeo 0 0 640 480); RtMapRequest plain_properties the_window;
   RtCommandMap the_window; RtMap plain_properties Managed the_window; RtProperty true plain_properties tt false the_window].
Definition after (es : list (@RuntimeStep unit)) : @Runtime unit := runtime_replay 1 es runtime_new.
Lemma after_runs es : RuntimeRuns (order := list_order) 1 (after es).
Proof. apply runtime_replay_runs. constructor. Qed.
(** The window, its association's surface and whether the compositor knows it. *)
Definition shown (es : list (@RuntimeStep unit)) : option (option Z * bool) :=
  (fun r => (as_surface_id <$> association r, announced (outgoing (rt_xwm (after es))) the_window))
    <$> windows (rt_xwm (after es)) !! the_window.
Lemma window_manager_consistent_witness :
  shown (mapped_steps ++ [RtNoteSerial the_window 11; RtCommitted 1 11 42; RtBufferReady 1 42]) = Some (Some 42, true) /\
  forall e, returns (runtime_step (order := list_order) 1 e
    (after (mapped_steps ++ [RtNoteSerial the_window 11; RtCommitted 1 11 42; RtBufferReady 1 42]))).
Proof.
  split; [vm_compute; reflexivity|].
  exact (proj1 (window_manager_consistent (order := list_order) 1 _
    (after_runs (mapped_steps ++ [RtNoteSerial the_window 11; RtCommitted 1 11 42; RtBufferReady 1 42])))).
Defined.
(** The window is mapped again before the surface of its first map commits. *)
Definition remapped_steps : list (@RuntimeStep unit) :=
  mapped_steps ++ [RtNoteSerial the_window 10; RtUnmap the_window] ++ tail mapped_steps ++
  [RtNoteSerial the_window 11].

(** A window that is unmapped and mapped again before the surface of its
    first map commits keeps that surface when it does commit: the removal of the
    surface leaves the window associated with it, and the surface of the second
    map, committed with a buffer, never reaches the window, which is not
    announced; without the late commit the same surface is announced. *)
Example late_surface_hides_window :
  shown (remapped_steps ++ [RtCommitted 1 11 42; RtBufferReady 1 42]) = Some (Some 42, true) /\
  shown (remapped_steps ++ [RtCommitted 1 10 41; RtRemoved 1 41]) = Some (Some 41, false) /\
  shown (remapped_steps ++ [RtCommitted 1 10 41; RtRemoved 1 41; RtCommitted 1 11 42; RtBufferReady 1 42]) =
    Some (Some 41, false) /\
  wayland_by_serial (rt_join (after (remapped_steps ++ [RtCommitted 1 10 41; RtRemoved 1 41; RtCommitted 1 11 42;
    RtBufferReady 1 42]))) = {[11 := mkWayland 1 42]}.
Proof. split_and!; vm_compute; reflexivity. Qed.
