(* ===== verification/ResizeSync.v ===== *)
(** * ResizeSync: resizing X11 windows in step with their content

    Models the resize synchronisation of the X11 window manager: the tracker of
    src/xwayland/xwm/resize_sync.rs and the calls that drive it in
    commands.rs, resize_runtime.rs and mod.rs of the same directory. A resize
    blocks the commits of the window, asks the client to advance a counter,
    configures the window, and lets commits through again once the counter is
    there; a resize that comes while one is in progress waits, and only the
    newest waits. A resize that takes too long is given up.

    The requests to the X server are a log; whether the connection takes a
    request is an input of the call. The destruction of an alarm is a request
    whose failure the code ignores: it is in the log with the answer of the
    connection, which the class [Connection] leaves open. *)

From stdpp Require Import base list option gmap.
From Stdlib Require Import ZArith Lia.
From S2P Require Import Prelude ConfigureTimeline AssociationJoin.

Definition RESIZE_SYNC_TIMEOUT_NS : Z := 10000000000.
Inductive ResizeSyncState : Type :=
| Idle
| ConfigureSent (counter_value deadline_ns : Z)
| AckObserved (counter_value deadline_ns : Z)
| AckedWaitingCommit (counter_value association_serial commit_floor deadline_ns : Z)
| Presented (counter_value : Z)
| FallbackUnsynchronized.
#[export] Instance ResizeSyncState_eq_dec : EqDecision ResizeSyncState.
Proof. solve_decision. Defined.
Definition counter_value_of (s : ResizeSyncState) : option Z :=
  match s with
  | ConfigureSent c _ | AckObserved c _ | AckedWaitingCommit c _ _ _ | Presented c => Some c
  | Idle | FallbackUnsynchronized => None
  end.
Definition deadline_of (s : ResizeSyncState) : option Z :=
  match s with
  | ConfigureSent _ d | AckObserved _ d | AckedWaitingCommit _ _ _ d => Some d
  | _ => None
  end.
Inductive ResizeSyncCommit : Type := Deferred | CommitPresented | FallbackPresented | Ignored.
Record ResizeSyncDesired : Type := mkDesired { de_geometry : X11Geometry; de_final : bool; de_epoch : option Z }.
#[export] Instance ResizeSyncDesired_eq_dec : EqDecision ResizeSyncDesired.
Proof. solve_decision. Defined.
Record ResizeSyncAlarmBinding : Type := mkBinding {
  bd_alarm : Z; bd_handle : Z; bd_generation : Z; bd_transaction_id : Z; bd_counter_value : Z
}.
Record ResizeSyncTransaction : Type := mkTx { tx_id : Z; tx_geometry : X11Geometry; tx_final : bool; tx_epoch : option Z }.
Inductive ResizeSyncError : Type := InvalidCounter | AlreadyPending.
Record ResizeSyncTracker : Type := mkTracker {
  states : gmap Z ResizeSyncState; transactions : gmap Z ResizeSyncTransaction; desired : gmap Z ResizeSyncDesired;
  next_transaction_ids : gmap Z Z; sync_disabled : gset Z
}.
Definition tracker_new : ResizeSyncTracker := mkTracker ∅ ∅ ∅ ∅ ∅.
Definition state (t : ResizeSyncTracker) (h : Z) : ResizeSyncState := default Idle (states t !! h).
Definition set_state (h : Z) (s : ResizeSyncState) (t : ResizeSyncTracker) : ResizeSyncTracker :=
  mkTracker (<[h := s]> (states t)) (transactions t) (desired t) (next_transaction_ids t) (sync_disabled t).
Definition is_pending (t : ResizeSyncTracker) (h : Z) : bool := negb (bool_decide (state t h = Idle)).
Definition begin_transaction_for_epoch (h counter deadline : Z) (g : X11Geometry) (final : bool) (epoch : option Z)
  (t : ResizeSyncTracker) : res ResizeSyncError ResizeSyncTracker :=
  if counter =? 0 then Fail InvalidCounter
  else if is_pending t h then Fail AlreadyPending
  else
    let id := Z.max (sat_add u64_max (default 0 (next_transaction_ids t !! h)) 1) 1 in
    Ret (mkTracker (<[h := ConfigureSent counter deadline]> (states t)) (<[h := mkTx id g final epoch]> (transactions t))
           (desired t) (<[h := id]> (next_transaction_ids t)) (sync_disabled t)).
Definition with_desired (d : gmap Z ResizeSyncDesired) (t : ResizeSyncTracker) : ResizeSyncTracker :=
  mkTracker (states t) (transactions t) d (next_transaction_ids t) (sync_disabled t).
Definition queue_desired_for_epoch (h : Z) (g : X11Geometry) (final : bool) (epoch : option Z) (t : ResizeSyncTracker)
  : ResizeSyncTracker * bool :=
  let d := mkDesired g final epoch in
  if decide (desired t !! h = Some d) then (t, false) else (with_desired (<[h := d]> (desired t)) t, true).
Definition take_desired (h : Z) (t : ResizeSyncTracker) : ResizeSyncTracker * option ResizeSyncDesired :=
  (with_desired (delete h (desired t)) t, desired t !! h).
Definition merge_desired_position (h x y : Z) (t : ResizeSyncTracker) : ResizeSyncTracker * bool :=
  match desired t !! h with
  | None => (t, false)
  | Some d => (with_desired (<[h := mkDesired (mkGeo x y (xg_width (de_geometry d)) (xg_height (de_geometry d)))
                               (de_final d) (de_epoch d)]> (desired t)) t, true)
  end.
Definition acknowledge (h counter : Z) (t : ResizeSyncTracker) : ResizeSyncTracker * bool :=
  match states t !! h with
  | Some (ConfigureSent expected deadline) =>
      if expected =? counter then (set_state h (AckObserved counter deadline) t, true) else (t, false)
  | _ => (t, false)
  end.
Definition release_commits (h counter serial floor : Z) (t : ResizeSyncTracker) : ResizeSyncTracker * bool :=
  match states t !! h with
  | Some (AckObserved expected deadline) =>
      if expected =? counter then (set_state h (AckedWaitingCommit counter serial floor deadline) t, true) else (t, false)
  | _ => (t, false)
  end.
Definition note_commit (h serial sequence : Z) (t : ResizeSyncTracker) : ResizeSyncTracker * ResizeSyncCommit :=
  match state t h with
  | AckedWaitingCommit counter expected floor _ =>
      if (expected =? serial) && (floor <? sequence) then (set_state h (Presented counter) t, CommitPresented) else (t, Ignored)
  | FallbackUnsynchronized => (set_state h (Presented 0) t, FallbackPresented)
  | ConfigureSent _ _ | AckObserved _ _ => (t, Deferred)
  | Idle | Presented _ => (t, Ignored)
  end.
(** The end of a transaction, presented or given up. *)
Definition end_transaction (h : Z) (t : ResizeSyncTracker) : ResizeSyncTracker :=
  mkTracker (<[h := Idle]> (states t)) (delete h (transactions t)) (desired t) (next_transaction_ids t) (sync_disabled t).
Definition complete (h : Z) (t : ResizeSyncTracker) : ResizeSyncTracker * bool :=
  match state t h with Presented _ => (end_transaction h t, true) | _ => (t, false) end.
Definition finish_timeout (h : Z) (t : ResizeSyncTracker) : ResizeSyncTracker * bool :=
  match state t h with FallbackUnsynchronized => (end_transaction h t, true) | _ => (t, false) end.
Definition set_disabled (d : gset Z) (t : ResizeSyncTracker) : ResizeSyncTracker :=
  mkTracker (states t) (transactions t) (desired t) (next_transaction_ids t) d.
Definition expired (now : Z) (s : ResizeSyncState) : bool :=
  match deadline_of s with Some d => d <=? now | None => false end.
Definition timeout (h now : Z) (t : ResizeSyncTracker) : ResizeSyncTracker * option Z :=
  if expired now (state t h) then
    (set_disabled (sync_disabled t ∪ {[h]}) (set_state h FallbackUnsynchronized t), counter_value_of (state t h))
  else (t, None).
Definition next_deadline_ns (t : ResizeSyncTracker) : option Z :=
  map_fold (fun _ s acc => match deadline_of s with
                           | Some d => Some (match acc with Some a => Z.min a d | None => d end)
                           | None => acc
                           end) None (states t).
Definition expired_handles `{HashOrder} (now : Z) (t : ResizeSyncTracker) : list Z :=
  filter (fun h => expired now (state t h) = true) (hash_keys (states t)).
Definition tracker_clear (h : Z) (t : ResizeSyncTracker) : ResizeSyncTracker :=
  mkTracker (delete h (states t)) (delete h (transactions t)) (delete h (desired t)) (next_transaction_ids t)
    (sync_disabled t ∖ {[h]}).

(** ** The window manager around it *)

Inductive XRequest : Type :=
| SetCounter (counter : Z)
| CreateAlarm (alarm counter value : Z)
| DestroyAlarm (alarm : Z) (taken : bool)
| AllowCommits (handle : Z) (allowed : bool)
| SyncRequest (handle value : Z)
| ConfigureWindow (handle : Z) (g : X11Geometry) (fields : X11ConfigureFlags)
| FrameExtents (handle : Z) (extents : Z * Z * Z * Z).
(** Whether the connection takes the destruction of an alarm, after the
    requests that were sent. *)
Class Connection : Type := { destroy_taken : list XRequest -> Z -> bool }.
Definition destroyed `{Connection} (sent : list XRequest) (alarm : Z) : XRequest := DestroyAlarm alarm (destroy_taken sent alarm).
(** A connection that takes everything, and one that has failed. *)
Definition steady : Connection := {| destroy_taken := fun _ _ => true |}.
Definition failing : Connection := {| destroy_taken := fun _ _ => false |}.
Inductive ResizeEvent : Type :=
| ResizeSyncAckObserved (handle counter_value : Z)
| ResizeSyncPresented (handle transaction_id : Z) (epoch : option Z) (g : X11Geometry)
| ResizeSyncPresentedIntermediate (handle transaction_id : Z) (epoch : option Z) (g : X11Geometry)
| ResizeSyncImmediate (handle : Z) (epoch : option Z) (g : X11Geometry) (final : bool)
| ResizeSyncTimedOut (handle : Z) (fallback : option X11Geometry) (epoch : option Z) (has_followup : bool).
Record XwaylandSurfaceCommitObserved : Type := mkCommit {
  ce_generation : Z; ce_surface_id : Z; ce_serial : Z; ce_sequence : Z
}.
Definition all_fields : X11ConfigureFlags := mkFlags true true true true true false false.
Record Resizes : Type := mkResizes {
  tracker : ResizeSyncTracker; sync_alarms : gmap Z Z; sync_alarm_bindings : gmap Z ResizeSyncAlarmBinding;
  sync_handles_by_counter : gmap Z Z; sync_counter_initializations : gmap Z Z; timed_out_resize_counters : gmap Z Z;
  next_resize_counter_values : gmap Z Z; immediate_resize_windows : gset Z; fallback_resize_windows : gset Z;
  last_resize_geometries : gmap Z X11Geometry; buffer_ready_commits : list XwaylandSurfaceCommitObserved;
  resize_events : list ResizeEvent; requests : list XRequest
}.
Definition resizes_new : Resizes := mkResizes tracker_new ∅ ∅ ∅ ∅ ∅ ∅ ∅ ∅ ∅ [] [] [].
Definition with_tracker (t : ResizeSyncTracker) (s : Resizes) : Resizes :=
  mkResizes t (sync_alarms s) (sync_alarm_bindings s) (sync_handles_by_counter s) (sync_counter_initializations s)
    (timed_out_resize_counters s) (next_resize_counter_values s) (immediate_resize_windows s) (fallback_resize_windows s)
    (last_resize_geometries s) (buffer_ready_commits s) (resize_events s) (requests s).
Definition with_alarms (a : gmap Z Z) (b : gmap Z ResizeSyncAlarmBinding) (c : gmap Z Z) (s : Resizes) : Resizes :=
  mkResizes (tracker s) a b c (sync_counter_initializations s)
    (timed_out_resize_counters s) (next_resize_counter_values s) (immediate_resize_windows s) (fallback_resize_windows s)
    (last_resize_geometries s) (buffer_ready_commits s) (resize_events s) (requests s).
Definition with_counters (i o n : gmap Z Z) (s : Resizes) : Resizes :=
  mkResizes (tracker s) (sync_alarms s) (sync_alarm_bindings s) (sync_handles_by_counter s) i o n
    (immediate_resize_windows s) (fallback_resize_windows s) (last_resize_geometries s) (buffer_ready_commits s)
    (resize_events s) (requests s).
Definition with_windows (i f : gset Z) (l : gmap Z X11Geometry) (s : Resizes) : Resizes :=
  mkResizes (tracker s) (sync_alarms s) (sync_alarm_bindings s) (sync_handles_by_counter s) (sync_counter_initializations s)
    (timed_out_resize_counters s) (next_resize_counter_values s) i f l (buffer_ready_commits s) (resize_events s) (requests s).
Definition with_log (c : list XwaylandSurfaceCommitObserved) (e : list ResizeEvent) (r : list XRequest) (s : Resizes) : Resizes :=
  mkResizes (tracker s) (sync_alarms s) (sync_alarm_bindings s) (sync_handles_by_counter s) (sync_counter_initializations s)
    (timed_out_resize_counters s) (next_resize_counter_values s) (immediate_resize_windows s) (fallback_resize_windows s)
    (last_resize_geometries s) c e r.
Definition report (e : ResizeEvent) (s : Resizes) : Resizes :=
  with_log (buffer_ready_commits s) (resize_events s ++ [e]) (requests s) s.
Definition send (r : XRequest) (s : Resizes) : Resizes :=
  with_log (buffer_ready_commits s) (resize_events s) (requests s ++ [r]) s.
Definition with_last (l : gmap Z X11Geometry) (s : Resizes) : Resizes :=
  with_windows (immediate_resize_windows s) (fallback_resize_windows s) l s.

Inductive ResizeError : Type := ConnectionLost | CounterTooWide | CounterExhausted | TrackerError (e : ResizeSyncError)
| TransactionGone | NotPresented | NoSuchAck | NoSuchAssociation | ReleaseRefused | StaleGeneration.
(** A call changes the state also when it fails. *)
Abbreviation outcome := (Resizes * option ResizeError)%type.
(** What the connection answers: a fresh alarm, and which requests it takes. *)
Record Answers : Type := mkAnswers {
  an_counter : bool; an_alarm : option Z; an_create : bool; an_allow : bool; an_sync : bool; an_configure : bool;
  an_release : bool; an_flush : bool
}.

(** ** Calls *)

Section Calls.
Context {order : HashOrder} {connection : Connection} (generation : Z).
Definition alarms_of (h : Z) (s : Resizes) : list Z :=
  remove_dups (option_list (sync_alarms s !! h) ++
    filter (fun a => (bd_handle <$> sync_alarm_bindings s !! a) = Some h) (hash_keys (sync_alarm_bindings s))).
Definition clear_resize_sync_alarm (h : Z) (s : Resizes) : Resizes :=
  let dead := alarms_of h s in
  with_log (buffer_ready_commits s) (resize_events s) (requests s ++ (destroyed (requests s) <$> dead))
    (with_alarms (delete h (sync_alarms s))
       (filter (fun p => (p.1 ∉ dead) /\ bd_handle p.2 <> h) (sync_alarm_bindings s))
       (filter (fun p => p.2 <> h) (sync_handles_by_counter s)) s).
Definition clear_resize_sync (h : Z) (s : Resizes) : Resizes :=
  let s := clear_resize_sync_alarm h (with_tracker (tracker_clear h (tracker s)) s) in
  let s := with_counters (sync_counter_initializations s) (delete h (timed_out_resize_counters s))
             (next_resize_counter_values s) s in
  with_windows (immediate_resize_windows s ∖ {[h]}) (fallback_resize_windows s ∖ {[h]}) (delete h (last_resize_geometries s)) s.
Definition reset_sync_counter_initialization (h : Z) (s : Resizes) : Resizes :=
  with_counters (delete h (sync_counter_initializations s)) (timed_out_resize_counters s)
    (delete h (next_resize_counter_values s)) s.
(** A resize without synchronisation; [reported] asks for progress. *)
Definition configure_immediate (ok : bool) (h : Z) (g : X11Geometry) (final : bool) (epoch : option Z) (reported : bool)
  (s : Resizes) : outcome :=
  if decide (last_resize_geometries s !! h = Some g) then
    (if final then report (ResizeSyncImmediate h epoch g true)
                     (with_windows (immediate_resize_windows s ∖ {[h]}) (fallback_resize_windows s) (last_resize_geometries s) s)
     else s, None)
  else if negb ok then (s, Some ConnectionLost)
  else
    let s := send (ConfigureWindow h g all_fields) s in
    let s := with_windows (if final then immediate_resize_windows s ∖ {[h]} else immediate_resize_windows s ∪ {[h]})
               (fallback_resize_windows s) (last_resize_geometries s) s in
    let s := if reported || final then report (ResizeSyncImmediate h epoch g final) s else s in
    (with_last (<[h := g]> (last_resize_geometries s)) s, None).
Definition initialize_sync_counter (ok : bool) (h sync_counter : Z) (s : Resizes) : outcome :=
  if decide (sync_counter_initializations s !! h = Some sync_counter) then (s, None)
  else if negb ok then (s, Some ConnectionLost)
  else (with_counters (<[h := sync_counter]> (sync_counter_initializations s)) (timed_out_resize_counters s)
          (<[h := 0]> (next_resize_counter_values s)) (send (SetCounter sync_counter) s), None).
(** The value the client is asked for: the given one, or the next one. *)
Definition next_counter_value (h counter : Z) (s : Resizes) : Resizes * option Z :=
  if counter =? 0 then
    let n := default 0 (next_resize_counter_values s !! h) in
    if n <? u64_max then
      (with_counters (sync_counter_initializations s) (timed_out_resize_counters s)
         (<[h := n + 1]> (next_resize_counter_values s)) s, Some (n + 1))
    else (s, None)
  else (s, Some counter).
(** The requests that start a synchronised resize, in their order. *)
Definition start_requests (ans : Answers) (h value : Z) (g : X11Geometry) (s : Resizes) : Resizes * bool :=
  if negb (an_allow ans) then (s, false)
  else let s := send (AllowCommits h false) s in
    if negb (an_sync ans) then (s, false)
    else let s := send (SyncRequest h value) s in
      if negb (an_configure ans) then (s, false) else (send (ConfigureWindow h g all_fields) s, true).
(** A synchronised resize of a window that has none in progress. *)
Definition start_resize_sync (ans : Answers) (sync_counter h : Z) (g : X11Geometry) (counter deadline : Z) (final : bool)
  (epoch : option Z) (s : Resizes) : outcome :=
  if u32_max <? sync_counter then (s, Some CounterTooWide)
  else
    match initialize_sync_counter (an_counter ans) h sync_counter s with
    | (s, Some e) => (s, Some e)
    | (s, None) =>
        match an_alarm ans with
        | None => (s, Some ConnectionLost)
        | Some alarm =>
            match next_counter_value h counter s with
            | (s, None) => (s, Some CounterExhausted)
            | (s, Some value) =>
                if negb (an_create ans) then (s, Some ConnectionLost)
                else
                  let s := send (CreateAlarm alarm sync_counter value) s in
                  match begin_transaction_for_epoch h value deadline g final epoch (tracker s) with
                  | Ret t =>
                      match transactions t !! h with
                      | None => (send (destroyed (requests s) alarm) (with_tracker (tracker_clear h t) s), Some TransactionGone)
                      | Some tx =>
                          let s := with_alarms (<[h := alarm]> (sync_alarms s))
                                     (<[alarm := mkBinding alarm h (handle_generation h) (tx_id tx) value]> (sync_alarm_bindings s))
                                     (<[sync_counter := h]> (sync_handles_by_counter s)) (with_tracker t s) in
                          match start_requests ans h value g s with
                          | (s, true) => (with_last (<[h := g]> (last_resize_geometries s)) s, None)
                          | (s, false) =>
                              let s := if an_release ans then send (AllowCommits h true) s else s in
                              (clear_resize_sync h s, Some ConnectionLost)
                          end
                      end
                  | Fail e => (send (destroyed (requests s) alarm) s, Some (TrackerError e))
                  | _ => (s, Some TransactionGone)
                  end
            end
        end
    end.
(** [sync_counter] is the counter of a client that supports synchronisation,
    [capable] whether the server does. *)
Definition begin_resize_sync_for_epoch (sync_counter : option Z) (capable : bool) (ans : Answers) (h : Z) (g : X11Geometry)
  (counter deadline : Z) (final : bool) (epoch : option Z) (s : Resizes) : outcome :=
  let s := with_windows (immediate_resize_windows s) (fallback_resize_windows s ∖ {[h]}) (last_resize_geometries s) s in
  match sync_counter with
  | None => configure_immediate (an_configure ans) h g final epoch true s
  | Some sync_counter =>
      if negb capable || bool_decide (h ∈ sync_disabled (tracker s)) then
        configure_immediate (an_configure ans) h g final epoch true s
      else if is_pending (tracker s) h then
        (with_tracker (queue_desired_for_epoch h g final epoch (tracker s)).1 s, None)
      else if decide (last_resize_geometries s !! h = Some g) then
        (if final then report (ResizeSyncImmediate h epoch g true) s else s, None)
      else start_resize_sync ans sync_counter h g counter deadline final epoch s
  end.
(** A configure of the compositor: one that resizes waits for the resize in
    progress, one that only moves goes with it. *)
Definition command_configure (ok : bool) (h : Z) (g : X11Geometry) (fields : X11ConfigureFlags) (epoch : option Z) (s : Resizes)
  : outcome :=
  let sizes := cf_width fields || cf_height fields || cf_border_width fields in
  if sizes && is_pending (tracker s) h then
    (with_tracker (queue_desired_for_epoch h g true epoch (tracker s)).1 s, None)
  else
    let s := if negb sizes && is_pending (tracker s) h
             then with_tracker (merge_desired_position h (xg_x g) (xg_y g) (tracker s)).1 s else s in
    if negb ok then (s, Some ConnectionLost)
    else
      let s := send (ConfigureWindow h g fields) s in
      if bool_decide (h ∈ immediate_resize_windows s) || bool_decide (h ∈ fallback_resize_windows s) then
        (report (ResizeSyncImmediate h epoch g false)
           (with_windows (immediate_resize_windows s ∖ {[h]})
              (if decide (h ∈ immediate_resize_windows s) then fallback_resize_windows s else fallback_resize_windows s ∖ {[h]})
              (delete h (last_resize_geometries s)) s), None)
      else (s, None).
(** A configure of a window together with its frame. *)
Definition command_configure_frame (published ok : bool) (h : Z) (g : X11Geometry) (extents : Z * Z * Z * Z) (s : Resizes)
  : outcome :=
  if negb published then (s, Some ConnectionLost)
  else
    let s := send (FrameExtents h extents) s in
    if negb ok then (s, Some ConnectionLost) else (send (ConfigureWindow h g all_fields) s, None).
(** The compositor lets the commits of a window through, or holds them back. *)
Definition command_set_allow_commits (ok : bool) (h : Z) (allowed : bool) (s : Resizes) : outcome :=
  if ok then (send (AllowCommits h allowed) s, None) else (s, Some ConnectionLost).
(** A client reached a counter value. *)
Definition note_resize_sync_ack (h value : Z) (s : Resizes) : Resizes :=
  match acknowledge h value (tracker s) with
  | (t, true) => report (ResizeSyncAckObserved h value) (with_tracker t s)
  | (_, false) =>
      if bool_decide (h ∈ sync_disabled (tracker s)) && bool_decide (timed_out_resize_counters s !! h = Some value) then
        clear_resize_sync_alarm h
          (with_tracker (set_disabled (sync_disabled (tracker s) ∖ {[h]}) (tracker s))
             (with_counters (sync_counter_initializations s) (delete h (timed_out_resize_counters s))
                (next_resize_counter_values s) s))
      else s
  end.
Definition note_sync_alarm_notify (alarm value : Z) (s : Resizes) : Resizes :=
  match sync_alarm_bindings s !! alarm with
  | None => s
  | Some b =>
      let h := bd_handle b in
      let id := tx_id <$> transactions (tracker s) !! h in
      let late := bool_decide (id = None) && bool_decide (h ∈ sync_disabled (tracker s))
                  && bool_decide (timed_out_resize_counters s !! h = Some (bd_counter_value b)) in
      if (bd_alarm b =? alarm) && bool_decide (sync_alarms s !! h = Some alarm)
         && (bd_generation b =? generation) && (handle_generation h =? generation)
         && (bool_decide (id = Some (bd_transaction_id b)) || late) && (value =? bd_counter_value b)
      then note_resize_sync_ack h value s else s
  end.
Definition note_sync_counter_notify (counter value : Z) (s : Resizes) : Resizes :=
  match sync_handles_by_counter s !! counter with Some h => note_resize_sync_ack h value s | None => s end.
(** Commits of surfaces, for the windows that are complete with them. *)
Definition note_window_commit (e : XwaylandSurfaceCommitObserved) (h : Z) (acc : Resizes * bool) : Resizes * bool :=
  let '(s, retain) := acc in
  let '(t, result) := note_commit h (ce_serial e) (ce_sequence e) (tracker s) in
  let s := with_tracker t s in
  match result with
  | CommitPresented | FallbackPresented =>
      match transactions t !! h with
      | None => (s, false)
      | Some tx =>
          let final := tx_final tx && bool_decide (desired t !! h = None) in
          (report (if final then ResizeSyncPresented h (tx_id tx) (tx_epoch tx) (tx_geometry tx)
                   else ResizeSyncPresentedIntermediate h (tx_id tx) (tx_epoch tx) (tx_geometry tx)) s, false)
      end
  | Deferred => (s, true)
  | Ignored => (s, retain)
  end.
Definition process_commit (completed : gmap Z AssociatedSurface) (s : Resizes) (e : XwaylandSurfaceCommitObserved) : Resizes :=
  let handles := filter (fun h => (fun a => (as_surface_id a, as_serial a)) <$> completed !! h =
                                       Some (ce_surface_id e, ce_serial e)) (hash_keys completed) in
  let '(s, retain) := fold_left (fun acc h => note_window_commit e h acc) handles (s, bool_decide (handles = [])) in
  if retain then with_log (buffer_ready_commits s ++ [e]) (resize_events s) (requests s) s else s.
Definition process_pending_resize_commits (completed : gmap Z AssociatedSurface) (s : Resizes) : Resizes :=
  fold_left (process_commit completed) (buffer_ready_commits s) (with_log [] (resize_events s) (requests s) s).
Definition mark_surface_commit_observed (completed : gmap Z AssociatedSurface) (e : XwaylandSurfaceCommitObserved) (s : Resizes)
  : outcome :=
  if negb (ce_generation e =? generation) then (s, Some StaleGeneration)
  else (process_pending_resize_commits completed (with_log (buffer_ready_commits s ++ [e]) (resize_events s) (requests s) s), None).
Definition release_resize_commits (completed : gmap Z AssociatedSurface) (ok flushed : bool) (h counter serial floor : Z) (s : Resizes)
  : outcome :=
  match state (tracker s) h with
  | AckObserved expected _ =>
      if negb (expected =? counter) then (s, Some NoSuchAck)
      else if negb (bool_decide (as_serial <$> completed !! h = Some serial)) then (s, Some NoSuchAssociation)
      else if negb ok then (s, Some ConnectionLost)
      else
        let s := send (AllowCommits h true) s in
        if negb flushed then (s, Some ConnectionLost)
        else
        match release_commits h counter serial floor (tracker s) with
        | (t, true) => (process_pending_resize_commits completed (with_tracker t s), None)
        | (_, false) => (s, Some ReleaseRefused)
        end
  | _ => (s, Some NoSuchAck)
  end.
Definition complete_resize_sync (sync_counter : option Z) (capable : bool) (ans : Answers) (now h : Z) (s : Resizes) : outcome :=
  let presented := transactions (tracker s) !! h in
  match complete h (tracker s) with
  | (_, false) => (s, Some NotPresented)
  | (t, true) =>
      let s := clear_resize_sync_alarm h (with_tracker t s) in
      let '(t, d) := take_desired h (tracker s) in
      let s := with_tracker t s in
      match d with
      | None => (s, None)
      | Some d =>
          if decide (tx_geometry <$> presented = Some (de_geometry d)) then
            (if de_final d
             then report (ResizeSyncPresented h (default 0 (tx_id <$> presented)) (de_epoch d) (de_geometry d)) s else s, None)
          else begin_resize_sync_for_epoch sync_counter capable ans h (de_geometry d) 0
                 (sat_add u64_max now RESIZE_SYNC_TIMEOUT_NS) (de_final d) (de_epoch d) s
      end
  end.
(** One window whose resize took too long. *)
Definition time_out_window (ans : Answers) (now h : Z) (s : Resizes) : outcome :=
  match timeout h now (tracker s) with
  | (t, None) => (s, None)
  | (t, Some counter) =>
      let tx := transactions t !! h in
      let '(t, d) := take_desired h t in
      let fallback := match d with Some d => Some (de_geometry d) | None => tx_geometry <$> tx end in
      let epoch := match d ≫= de_epoch with Some e => Some e | None => tx ≫= tx_epoch end in
      let s := if an_release ans then send (AllowCommits h true) (with_tracker t s) else with_tracker t s in
      let s := with_counters (sync_counter_initializations s) (<[h := counter]> (timed_out_resize_counters s))
                 (next_resize_counter_values s) s in
      let s := with_tracker (finish_timeout h (tracker s)).1 s in
      if negb (an_release ans && an_flush ans) then (s, Some ConnectionLost)
      else
        match fallback with
        | None => (report (ResizeSyncTimedOut h fallback epoch (bool_decide (is_Some d))) s, None)
        | Some g =>
            match configure_immediate (an_configure ans) h g false epoch false s with
            | (s, Some e) => (s, Some e)
            | (s, None) => (report (ResizeSyncTimedOut h fallback epoch (bool_decide (is_Some d))) s, None)
            end
        end
  end.
Fixpoint time_out_windows (ans : Z -> Answers) (now : Z) (hs : list Z) (s : Resizes) : outcome :=
  match hs with
  | [] => (s, None)
  | h :: hs => match time_out_window (ans h) now h s with (s, None) => time_out_windows ans now hs s | (s, Some e) => (s, Some e) end
  end.
Definition handle_resize_sync_deadline (ans : Z -> Answers) (now : Z) (s : Resizes) : outcome :=
  time_out_windows ans now (expired_handles now (tracker s)) s.
Definition clear_surface_commits (surface_id : Z) (s : Resizes) : Resizes :=
  with_log (filter (fun e => ce_surface_id e <> surface_id) (buffer_ready_commits s)) (resize_events s) (requests s) s.
(** A server that went away takes its windows along. *)
Definition tracker_clear_generation (g : Z) (t : ResizeSyncTracker) : ResizeSyncTracker :=
  mkTracker (filter (fun p => handle_generation p.1 <> g) (states t))
    (filter (fun p => handle_generation p.1 <> g) (transactions t))
    (filter (fun p => handle_generation p.1 <> g) (desired t))
    (filter (fun p => handle_generation p.1 <> g) (next_transaction_ids t))
    (filter (fun h => handle_generation h <> g) (sync_disabled t)).
Definition clear_resize_sync_generation (g : Z) (s : Resizes) : Resizes :=
  let handles := remove_dups (filter (fun h => handle_generation h = g) (hash_keys (sync_alarms s)) ++
    omap (fun a => match sync_alarm_bindings s !! a with
                   | Some b => if bd_generation b =? g then Some (bd_handle b) else None
                   | None => None
                   end) (hash_keys (sync_alarm_bindings s))) in
  let s := with_tracker (tracker_clear_generation g (tracker s)) s in
  let s := with_counters (filter (fun p => handle_generation p.1 <> g) (sync_counter_initializations s))
             (filter (fun p => handle_generation p.1 <> g) (timed_out_resize_counters s))
             (filter (fun p => handle_generation p.1 <> g) (next_resize_counter_values s)) s in
  let s := with_windows (immediate_resize_windows s) (filter (fun h => handle_generation h <> g) (fallback_resize_windows s))
             (last_resize_geometries s) s in
  let s := fold_left (fun s h => clear_resize_sync_alarm h s) handles s in
  with_alarms (sync_alarms s) (filter (fun p => bd_generation p.2 <> g) (sync_alarm_bindings s)) (sync_handles_by_counter s) s.
End Calls.
