(* ===== verification/ResizeHistory.v ===== *)
(** * ResizeHistory: what resize synchronisation keeps over its histories

    The histories of ResizeSync.v and what holds after each of them: the
    alarms on the server are those of resizes in progress or given up and
    those whose destruction failed, a window's commits are held back exactly
    while it has not been released, and a window that never answers is let go
    by its deadline. A window whose resize is cleared meanwhile stays held
    back. *)

From stdpp Require Import base list option gmap fin_maps.
From Stdlib Require Import ZArith Lia.
From S2P Require Import Prelude ConfigureTimeline AssociationJoin ResizeSync.
Local Open Scope Z_scope.

(** ** Histories *)

Inductive ResizeStep : Type :=
| Begin (sync_counter : option Z) (capable : bool) (ans : Answers) (h : Z) (g : X11Geometry) (counter deadline : Z)
    (final : bool) (epoch : option Z)
| Configure (ok : bool) (h : Z) (g : X11Geometry) (fields : X11ConfigureFlags) (epoch : option Z)
| ConfigureFrame (published ok : bool) (h : Z) (g : X11Geometry) (extents : Z * Z * Z * Z)
| AlarmNotify (alarm value : Z)
| CounterNotify (counter value : Z)
| CommitObserved (completed : gmap Z AssociatedSurface) (e : XwaylandSurfaceCommitObserved)
| PendingCommits (completed : gmap Z AssociatedSurface)
| Release (completed : gmap Z AssociatedSurface) (ok flushed : bool) (h counter serial floor : Z)
| Complete (sync_counter : option Z) (capable : bool) (ans : Answers) (now h : Z)
| Deadline (ans : Z -> Answers) (now : Z)
| Clear (h : Z)
| ClearGeneration (g : Z)
| ResetCounter (h : Z)
| InitializeCounter (ok : bool) (h sync_counter : Z)
| SetAllowCommits (ok : bool) (h : Z) (allowed : bool)
| ClearSurface (surface_id : Z).

(** ** The alarms of the server *)

Definition alarm_effect (live : gset Z) (r : XRequest) : gset Z :=
  match r with CreateAlarm a _ _ => live ∪ {[a]} | DestroyAlarm a true => live ∖ {[a]} | _ => live end.
(** The alarms created and not destroyed. *)
Definition live_alarms (l : list XRequest) : gset Z := fold_left alarm_effect l ∅.
Definition refused_effect (refused : gset Z) (r : XRequest) : gset Z :=
  match r with DestroyAlarm a false => refused ∪ {[a]} | _ => refused end.
(** The alarms whose destruction the connection did not take. *)
Definition refused_alarms (l : list XRequest) : gset Z := fold_left refused_effect l ∅.
Lemma live_alarms_app l l' : live_alarms (l ++ l') = fold_left alarm_effect l' (live_alarms l).
Proof. apply fold_left_app. Qed.
Lemma live_alarms_snoc l r : live_alarms (l ++ [r]) = alarm_effect (live_alarms l) r.
Proof. by rewrite live_alarms_app. Qed.
Lemma refused_alarms_app l l' : refused_alarms (l ++ l') = fold_left refused_effect l' (refused_alarms l).
Proof. apply fold_left_app. Qed.
Lemma refused_alarms_snoc l r : refused_alarms (l ++ [r]) = refused_effect (refused_alarms l) r.
Proof. by rewrite refused_alarms_app. Qed.
Lemma fold_destroy `{Connection} l dead X :
  fold_left alarm_effect (destroyed l <$> dead) X = X ∖ list_to_set (filter (fun a => destroy_taken l a = true) dead).
Proof.
  revert X. induction dead as [|a dead IH]; intros X; [set_solver|]. rewrite filter_cons, fmap_cons. cbn [fold_left]. rewrite IH.
  unfold destroyed. destruct (destroy_taken l a); cbn [alarm_effect refused_effect]; case_decide; try done; set_solver.
Qed.
Lemma fold_refused `{Connection} l dead X :
  fold_left refused_effect (destroyed l <$> dead) X = X ∪ list_to_set (filter (fun a => destroy_taken l a = false) dead).
Proof.
  revert X. induction dead as [|a dead IH]; intros X; [set_solver|]. rewrite filter_cons, fmap_cons. cbn [fold_left]. rewrite IH.
  unfold destroyed. destruct (destroy_taken l a); cbn [alarm_effect refused_effect]; case_decide; try done; set_solver.
Qed.
(** The alarms of the server are those of [bound] and those whose destruction
    failed; no alarm is both. *)
Definition accounted (bound : gmap Z ResizeSyncAlarmBinding) (l : list XRequest) : Prop :=
  live_alarms l = dom bound ∪ refused_alarms l /\ dom bound ## refused_alarms l.

Lemma accounted_destroyed `{Connection} bound bound' l dead :
  accounted bound l -> (forall a, a ∈ dead -> a ∈ dom bound) -> dom bound' = dom bound ∖ list_to_set dead ->
  accounted bound' (l ++ (destroyed l <$> dead)).
Proof.
  intros [L1 L2] Hin Hd. unfold accounted. rewrite live_alarms_app, refused_alarms_app, fold_destroy, fold_refused, Hd, L1.
  clear L1 Hd. revert L2 Hin. generalize (dom bound) as D, (refused_alarms l) as R. intros D R L2 Hin. split.
  - apply set_eq. intros a. specialize (Hin a). specialize (L2 a).
    rewrite elem_of_difference, !elem_of_union, elem_of_difference, !elem_of_list_to_set, !list_elem_of_filter.
    destruct (decide (a ∈ dead)), (destroy_taken l a); intuition congruence.
  - intros a. specialize (L2 a). rewrite elem_of_union, elem_of_difference, !elem_of_list_to_set, !list_elem_of_filter. tauto.
Qed.

(** ** Steps *)

Section Steps.
Context {order : HashOrder} {connection : Connection} (generation : Z).
Definition resize_step (a : ResizeStep) (s : Resizes) : outcome :=
  match a with
  | Begin sc cap ans h g c d f e => begin_resize_sync_for_epoch sc cap ans h g c d f e s
  | Configure ok h g fields e => command_configure ok h g fields e s
  | ConfigureFrame published ok h g extents => command_configure_frame published ok h g extents s
  | AlarmNotify a v => (note_sync_alarm_notify generation a v s, None)
  | CounterNotify c v => (note_sync_counter_notify c v s, None)
  | CommitObserved m e => mark_surface_commit_observed generation m e s
  | PendingCommits m => (process_pending_resize_commits m s, None)
  | Release m ok fl h c se fo => release_resize_commits m ok fl h c se fo s
  | Complete sc cap ans now h => complete_resize_sync sc cap ans now h s
  | Deadline ans now => handle_resize_sync_deadline ans now s
  | Clear h => (clear_resize_sync h s, None)
  | ClearGeneration g => (clear_resize_sync_generation g s, None)
  | ResetCounter h => (reset_sync_counter_initialization h s, None)
  | InitializeCounter ok h c => initialize_sync_counter ok h c s
  | SetAllowCommits ok h allowed => command_set_allow_commits ok h allowed s
  | ClearSurface f => (clear_surface_commits f s, None)
  end.
(** The identifier of a new alarm is one no alarm of the server has. *)
Definition fresh_alarm (ans : Answers) (s : Resizes) : Prop :=
  match an_alarm ans with Some a => a ∉ live_alarms (requests s) | None => True end.
Definition step_fresh (a : ResizeStep) (s : Resizes) : Prop :=
  match a with Begin _ _ ans _ _ _ _ _ _ | Complete _ _ ans _ _ => fresh_alarm ans s | _ => True end.
Inductive resizes_reach : Resizes -> Prop :=
| resizes_start : resizes_reach resizes_new
| resizes_next a s : resizes_reach s -> step_fresh a s -> resizes_reach (resize_step a s).1.
End Steps.

Record AlarmInv (s : Resizes) : Prop := {
  ai_owned : forall h a, sync_alarms s !! h = Some a -> bd_handle <$> sync_alarm_bindings s !! a = Some h;
  ai_bound : forall a b, sync_alarm_bindings s !! a = Some b ->
    bd_alarm b = a /\ bd_generation b = handle_generation (bd_handle b) /\ sync_alarms s !! bd_handle b = Some a;
  ai_live : accounted (sync_alarm_bindings s) (requests s)
}.
(** What the resizes say of one window. *)
Record View : Type := mkView {
  v_state : ResizeSyncState; v_tx : option ResizeSyncTransaction; v_desired : option ResizeSyncDesired;
  v_disabled : bool; v_timed_out : option Z; v_alarm : option ResizeSyncAlarmBinding
}.
Definition binding_of (s : Resizes) (h : Z) : option ResizeSyncAlarmBinding := sync_alarms s !! h ≫= (sync_alarm_bindings s !!.).
Definition view (s : Resizes) (h : Z) : View :=
  mkView (state (tracker s) h) (transactions (tracker s) !! h) (desired (tracker s) !! h)
    (bool_decide (h ∈ sync_disabled (tracker s))) (timed_out_resize_counters s !! h) (binding_of s h).
(** A window at rest has at most the alarm of a resize it gave up; a window
    with a resize in progress has its transaction and the alarm of it. *)
Definition view_ok (v : View) : Prop :=
  match v_state v with
  | Idle => v_tx v = None /\ v_desired v = None /\
            (forall b, v_alarm v = Some b -> v_disabled v = true /\ v_timed_out v = Some (bd_counter_value b))
  | FallbackUnsynchronized => False
  | _ => v_disabled v = false /\ exists tx b, v_tx v = Some tx /\ v_alarm v = Some b /\
           tx_id tx = bd_transaction_id b /\ counter_value_of (v_state v) = Some (bd_counter_value b)
  end.
Definition ResizeInv (s : Resizes) : Prop := AlarmInv s /\ forall h, view_ok (view s h).

(** *** Clearing *)

Section Clearing.
Context {order : HashOrder} {connection : Connection}.
Lemma elem_of_alarms_of h s a :
  AlarmInv s -> a ∈ alarms_of h s <-> bd_handle <$> sync_alarm_bindings s !! a = Some h.
Proof.
  intros [H1 H2 _]. unfold alarms_of. rewrite elem_of_remove_dups, elem_of_app, list_elem_of_filter, elem_of_hash_keys.
  split.
  - intros [Ha|[Ha _]]; [|done]. apply H1. destruct (sync_alarms s !! h); set_solver.
  - intros Ha. right. split; [done|]. by destruct (sync_alarm_bindings s !! a).
Qed.
Lemma clear_alarm_bindings h s a b :
  AlarmInv s ->
  sync_alarm_bindings (clear_resize_sync_alarm h s) !! a = Some b <-> sync_alarm_bindings s !! a = Some b /\ bd_handle b <> h.
Proof.
  intros Hs. unfold clear_resize_sync_alarm; cbn [sync_alarm_bindings with_log with_alarms].
  rewrite map_lookup_filter_Some, elem_of_alarms_of by done. cbn. split; [tauto|]. intros [E Hn]. rewrite E. cbn.
  split_and!; [done|congruence|done].
Qed.
Lemma clear_alarm_dom h s :
  AlarmInv s -> dom (sync_alarm_bindings (clear_resize_sync_alarm h s)) = dom (sync_alarm_bindings s) ∖ list_to_set (alarms_of h s).
Proof.
  intros Hs. apply set_eq. intros a. rewrite elem_of_difference, elem_of_list_to_set, elem_of_alarms_of, !elem_of_dom by done. split.
  - intros [b [E Hn]%clear_alarm_bindings]; [|done]. rewrite E. split; [done|]. cbn. congruence.
  - intros [[b E] Hn]. exists b. apply clear_alarm_bindings; [done|]. split; [done|]. intros Eh. rewrite E in Hn. cbn in Hn. congruence.
Qed.
Lemma clear_alarm_inv h s : AlarmInv s -> AlarmInv (clear_resize_sync_alarm h s).
Proof.
  intros Hs. pose proof (clear_alarm_bindings h s) as Hb. pose proof (ai_owned s Hs) as H1.
  pose proof (ai_bound s Hs) as H2. split.
  - intros h' a [Hn E]%(lookup_delete_Some (sync_alarms s) h h' a). specialize (H1 h' a E) as (b & Eb & Eh)%fmap_Some. apply fmap_Some.
    exists b. split; [|done]. apply Hb; [done|]. split; congruence.
  - intros a b [E Hn]%Hb; [|done]. destruct (H2 a b E) as (? & ? & ?). split_and!; [done..|].
    cbn. by rewrite lookup_delete_ne by congruence.
  - eapply accounted_destroyed; [apply (ai_live s Hs)| |by apply clear_alarm_dom].
    intros a (b & E & _)%elem_of_alarms_of%fmap_Some; [|done]. by eapply elem_of_dom_2.
Qed.
Lemma clear_alarm_binding h h' s :
  AlarmInv s -> binding_of (clear_resize_sync_alarm h s) h' = if decide (h' = h) then None else binding_of s h'.
Proof.
  intros Hs. unfold binding_of. cbn [sync_alarms clear_resize_sync_alarm with_log with_alarms].
  destruct (decide (h' = h)) as [->|Hn]; [by rewrite lookup_delete_eq|]. rewrite lookup_delete_ne by done.
  destruct (sync_alarms s !! h') as [a|] eqn:E; [|done]. cbn.
  pose proof (ai_owned s Hs h' a E) as (b & Eb & Eh)%fmap_Some. rewrite Eb. apply clear_alarm_bindings; [done|].
  split; congruence.
Qed.
Lemma clear_alarm_view h h' s :
  AlarmInv s ->
  view (clear_resize_sync_alarm h s) h' =
  if decide (h' = h) then mkView (v_state (view s h')) (v_tx (view s h')) (v_desired (view s h')) (v_disabled (view s h'))
                            (v_timed_out (view s h')) None
  else view s h'.
Proof. intros Hs. unfold view at 1. rewrite clear_alarm_binding by done. by case_decide. Qed.
End Clearing.

(** ** What the calls leave alone *)

Definition blocked_effect (h : Z) (b : bool) (r : XRequest) : bool :=
  match r with AllowCommits h' allowed => if decide (h' = h) then negb allowed else b | _ => b end.
(** Whether the server holds back the commits of a window. *)
Definition commits_blocked (h : Z) (l : list XRequest) : bool := fold_left (blocked_effect h) l false.
Lemma commits_blocked_app h l l' : commits_blocked h (l ++ l') = fold_left (blocked_effect h) l' (commits_blocked h l).
Proof. apply fold_left_app. Qed.
Lemma commits_blocked_snoc h l r : commits_blocked h (l ++ [r]) = blocked_effect h (commits_blocked h l) r.
Proof. by rewrite commits_blocked_app. Qed.
Lemma blocked_destroys `{Connection} h l dead b : fold_left (blocked_effect h) (destroyed l <$> dead) b = b.
Proof. by induction dead. Qed.

(** A call that touches neither resizes, alarms nor the commits of a window. *)
Record Calm (s s' : Resizes) : Prop := {
  ca_tracker : tracker s' = tracker s;
  ca_alarms : sync_alarms s' = sync_alarms s;
  ca_bindings : sync_alarm_bindings s' = sync_alarm_bindings s;
  ca_timed_out : timed_out_resize_counters s' = timed_out_resize_counters s;
  ca_live : accounted (sync_alarm_bindings s) (requests s) -> accounted (sync_alarm_bindings s) (requests s');
  ca_blocked : forall h, commits_blocked h (requests s') = commits_blocked h (requests s)
}.
#[export] Instance Calm_preorder : PreOrder Calm.
Proof.
  split; [done|]. intros s1 s2 s3 H1 H2. split; [destruct H1, H2; congruence..| |].
  - intros Ha. rewrite <- (ca_bindings _ _ H1). apply (ca_live _ _ H2). rewrite (ca_bindings _ _ H1). by apply (ca_live _ _ H1).
  - intros h. by rewrite (ca_blocked _ _ H2), (ca_blocked _ _ H1).
Qed.
Lemma Calm_view s s' h : Calm s s' -> view s' h = view s h.
Proof. intros [E1 E2 E3 E4 _ _]. unfold view, binding_of. by rewrite E1, E2, E3, E4. Qed.
Lemma Calm_alarm_inv s s' : Calm s s' -> AlarmInv s -> AlarmInv s'.
Proof. intros [E1 E2 E3 E4 E5 _] [H1 H2 H3]. split; rewrite ?E2, ?E3; [done..|by apply E5]. Qed.
Lemma Calm_inv s s' : Calm s s' -> ResizeInv s -> ResizeInv s'.
Proof. intros Hc [H1 H2]. split; [by eapply Calm_alarm_inv|]. intros h. by rewrite (Calm_view s s'). Qed.

(** Requests and reports that are calm. *)
Definition calm_request (r : XRequest) : Prop :=
  match r with SetCounter _ | SyncRequest _ _ | ConfigureWindow _ _ _ | FrameExtents _ _ => True | _ => False end.
Lemma Calm_send r s : calm_request r -> Calm s (send r s).
Proof.
  intros Hr. split; [done..| |]; cbn [requests send with_log]; [unfold accounted|intros h];
    rewrite ?live_alarms_snoc, ?refused_alarms_snoc, ?commits_blocked_snoc; by destruct r.
Qed.
Lemma Calm_report e s : Calm s (report e s).
Proof. done. Qed.
Lemma Calm_windows i f l s : Calm s (with_windows i f l s).
Proof. done. Qed.
Lemma Calm_last l s : Calm s (with_last l s).
Proof. done. Qed.
Lemma Calm_counters i n s : Calm s (with_counters i (timed_out_resize_counters s) n s).
Proof. done. Qed.
Lemma Calm_commits c s : Calm s (with_log c (resize_events s) (requests s) s).
Proof. done. Qed.
Create HintDb resizes.
#[export] Hint Resolve Calm_send Calm_report Calm_windows Calm_last Calm_counters Calm_commits : resizes.
#[export] Hint Extern 1 (calm_request _) => exact I : resizes.
#[export] Hint Extern 4 (Calm ?s ?s) => reflexivity : resizes.
Ltac calm := repeat first [ reflexivity | solve [eauto with resizes] | etransitivity; [|solve [eauto with resizes]] ].
Lemma Calm_configure_immediate ok h g final epoch rep s : Calm s (configure_immediate ok h g final epoch rep s).1.
Proof.
  unfold configure_immediate. destruct (decide _); [destruct final; cbn; calm|]. destruct ok; cbn -[report with_last send]; [|done].
  destruct final, rep; cbn -[report with_last send with_windows]; calm.
Qed.
Lemma Calm_initialize ok h c s : Calm s (initialize_sync_counter ok h c s).1.
Proof.
  unfold initialize_sync_counter. destruct (decide _); [done|]. destruct ok; [|done]. cbn -[send].
  etransitivity; [apply (Calm_send (SetCounter c) s I)|]. apply (Calm_counters _ _ (send (SetCounter c) s)).
Qed.
Lemma Calm_next_value h c s : Calm s (next_counter_value h c s).1.
Proof. unfold next_counter_value. destruct (_ =? _); [|done]. destruct (_ <? _); [|done]. apply Calm_counters. Qed.
Lemma Calm_configure_frame pub ok h g x s : Calm s (command_configure_frame pub ok h g x s).1.
Proof.
  unfold command_configure_frame. destruct pub; [|done]. cbn [negb].
  etransitivity; [apply (Calm_send (FrameExtents h x) s I)|]. destruct ok; [|done]. by apply Calm_send.
Qed.
Lemma Calm_clear_surface f s : Calm s (clear_surface_commits f s).
Proof. apply Calm_commits. Qed.
Lemma Calm_reset h s : Calm s (reset_sync_counter_initialization h s).
Proof. apply Calm_counters. Qed.

(** ** Changing the resize of one window *)

Definition tracked (t : ResizeSyncTracker) (h : Z) : ResizeSyncState * option ResizeSyncTransaction * option ResizeSyncDesired * bool :=
  (state t h, transactions t !! h, desired t !! h, bool_decide (h ∈ sync_disabled t)).
(** [t'] differs from [t] at most at [h]. *)
Definition elsewhere (h : Z) (t t' : ResizeSyncTracker) : Prop := forall h', h' <> h -> tracked t' h' = tracked t h'.
Lemma view_tracker t s h :
  view (with_tracker t s) h =
  mkView (state t h) (transactions t !! h) (desired t !! h) (bool_decide (h ∈ sync_disabled t))
    (timed_out_resize_counters s !! h) (binding_of s h).
Proof. done. Qed.
Lemma view_tracker_eq t t' s h : tracked t' h = tracked t h -> view (with_tracker t' s) h = view (with_tracker t s) h.
Proof. intros [= E1 E2 E3 E4]. by rewrite !view_tracker, E1, E2, E3, E4. Qed.
Lemma inv_tracker h t s :
  elsewhere h (tracker s) t -> view_ok (view (with_tracker t s) h) -> ResizeInv s -> ResizeInv (with_tracker t s).
Proof.
  intros He Hv [H1 H2]. split; [by destruct H1|]. intros h'. destruct (decide (h' = h)) as [->|Hn]; [done|].
  specialize (H2 h'). by rewrite (view_tracker_eq (tracker s) t s h' (He h' Hn)).
Qed.
Lemma state_set_state h x t h' : state (set_state h x t) h' = if decide (h' = h) then x else state t h'.
Proof.
  unfold state, set_state; cbn. destruct (decide (h' = h)) as [->|]; [by rewrite lookup_insert_eq|by rewrite lookup_insert_ne].
Qed.
Lemma elsewhere_set_state h x t : elsewhere h t (set_state h x t).
Proof. intros h' Hn. unfold tracked. rewrite state_set_state. by destruct (decide (h' = h)). Qed.
Lemma elsewhere_desired h d t : (forall h', h' <> h -> d !! h' = desired t !! h') -> elsewhere h t (with_desired d t).
Proof. intros Hd h' Hn. unfold tracked. cbn. by rewrite Hd. Qed.
Lemma state_states t h x : states t !! h = Some x -> state t h = x.
Proof. intros E. unfold state. by rewrite E. Qed.
#[export] Hint Resolve Calm_configure_immediate Calm_initialize Calm_next_value Calm_clear_surface Calm_reset
  elsewhere_set_state : resizes.

(** A change of state that keeps the counter keeps the resize. *)
Definition in_progress (x : ResizeSyncState) : Prop := match x with Idle | FallbackUnsynchronized => False | _ => True end.
Lemma view_ok_progress v :
  in_progress (v_state v) ->
  view_ok v <-> v_disabled v = false /\ exists tx b, v_tx v = Some tx /\ v_alarm v = Some b /\
           tx_id tx = bd_transaction_id b /\ counter_value_of (v_state v) = Some (bd_counter_value b).
Proof. unfold view_ok. by destruct (v_state v). Qed.
Lemma inv_set_state h x s :
  in_progress (state (tracker s) h) -> in_progress x -> counter_value_of x = counter_value_of (state (tracker s) h) ->
  ResizeInv s -> ResizeInv (with_tracker (set_state h x (tracker s)) s).
Proof.
  intros H1 H2 Ec Hs. eapply (inv_tracker h); [apply elsewhere_set_state| |done]. destruct Hs as [_ Hs]. specialize (Hs h).
  apply view_ok_progress in Hs; [|done]. rewrite view_tracker, state_set_state, decide_True by done.
  apply view_ok_progress; [done|]. cbn in *. by rewrite Ec.
Qed.
Lemma inv_desired h d s :
  (forall h', h' <> h -> d !! h' = desired (tracker s) !! h') -> state (tracker s) h <> Idle ->
  ResizeInv s -> ResizeInv (with_tracker (with_desired d (tracker s)) s).
Proof.
  intros Hd Hp Hs. eapply (inv_tracker h); [by apply elsewhere_desired| |done]. destruct Hs as [_ Hs]. specialize (Hs h).
  rewrite view_tracker. change (state (with_desired d (tracker s)) h) with (state (tracker s) h). unfold view_ok in *.
  cbn in *. by destruct (state (tracker s) h).
Qed.
Lemma is_pending_spec t h : is_pending t h = true <-> state t h <> Idle.
Proof. unfold is_pending. rewrite negb_true_iff. apply bool_decide_eq_false. Qed.
Lemma with_tracker_id s : with_tracker (tracker s) s = s.
Proof. by destruct s. Qed.
Lemma inv_queue h g final epoch s :
  is_pending (tracker s) h = true -> ResizeInv s ->
  ResizeInv (with_tracker (queue_desired_for_epoch h g final epoch (tracker s)).1 s).
Proof.
  intros Hp%is_pending_spec Hs. unfold queue_desired_for_epoch. destruct (decide _); cbn; [by rewrite with_tracker_id|].
  apply (inv_desired h); [|done..]. intros h' Hn. by rewrite lookup_insert_ne.
Qed.
Lemma inv_merge h x y s :
  is_pending (tracker s) h = true -> ResizeInv s ->
  ResizeInv (with_tracker (merge_desired_position h x y (tracker s)).1 s).
Proof.
  intros Hp%is_pending_spec Hs. unfold merge_desired_position. destruct (desired _ !! h) as [d|] eqn:E; cbn;
    [|by rewrite with_tracker_id].
  apply (inv_desired h); [|done..]. intros h' Hn. by rewrite lookup_insert_ne.
Qed.
Lemma inv_acknowledge h v s t :
  acknowledge h v (tracker s) = (t, true) -> ResizeInv s -> ResizeInv (with_tracker t s).
Proof.
  unfold acknowledge. destruct (states _ !! h) as [[]|] eqn:E; try done. destruct (_ =? _) eqn:Ev; [|done].
  intros [= <-]. apply state_states in E. apply Z.eqb_eq in Ev as ->. apply inv_set_state; by rewrite ?E.
Qed.
Lemma inv_release h c serial floor s t :
  release_commits h c serial floor (tracker s) = (t, true) -> ResizeInv s -> ResizeInv (with_tracker t s).
Proof.
  unfold release_commits. destruct (states _ !! h) as [[]|] eqn:E; try done. destruct (_ =? _) eqn:Ev; [|done].
  intros [= <-]. apply state_states in E. apply Z.eqb_eq in Ev as ->. apply inv_set_state; by rewrite ?E.
Qed.
(** The alarm of a window that is at rest can go. *)
Lemma inv_clear_alarm `{HashOrder, Connection} h s :
  AlarmInv s -> (forall h', h' <> h -> view_ok (view s h')) ->
  state (tracker s) h = Idle -> transactions (tracker s) !! h = None -> desired (tracker s) !! h = None ->
  ResizeInv (clear_resize_sync_alarm h s).
Proof.
  intros Ha Hv E1 E2 E3. split; [by apply clear_alarm_inv|]. intros h'. rewrite clear_alarm_view by done.
  destruct (decide (h' = h)) as [->|Hn]; [|by apply Hv]. unfold view_ok. cbn. by rewrite E1.
Qed.
Lemma inv_ack `{HashOrder, Connection} h v s : ResizeInv s -> ResizeInv (note_resize_sync_ack h v s).
Proof.
  intros Hs. unfold note_resize_sync_ack. destruct (acknowledge _ _ _) as [t []] eqn:E.
  { eapply Calm_inv; [apply Calm_report|]. by eapply inv_acknowledge. }
  destruct (_ && _) eqn:Hd; [|done]. apply andb_true_iff in Hd as [Hd _]. destruct Hs as [Ha Hv].
  pose proof (Hv h) as Hh. unfold view_ok in Hh. cbn in Hh. rewrite Hd in Hh.
  assert (state (tracker s) h = Idle) as Ei by (destruct (state (tracker s) h); naive_solver). rewrite Ei in Hh.
  apply inv_clear_alarm; [by destruct Ha| |naive_solver..]. intros h' Hn. specialize (Hv h').
  unfold view, view_ok in *. cbn in *. rewrite lookup_delete_ne by done.
  erewrite bool_decide_ext; [exact Hv|]. set_solver.
Qed.
Lemma inv_alarm_notify `{HashOrder, Connection} g a v s : ResizeInv s -> ResizeInv (note_sync_alarm_notify g a v s).
Proof.
  intros Hs. unfold note_sync_alarm_notify. destruct (_ !! a); [|done]. destruct (_ && _); [|done]. by apply inv_ack.
Qed.
Lemma inv_counter_notify `{HashOrder, Connection} c v s : ResizeInv s -> ResizeInv (note_sync_counter_notify c v s).
Proof. intros Hs. unfold note_sync_counter_notify. destruct (_ !! c); [|done]. by apply inv_ack. Qed.

(** *** Commits *)

Lemma inv_note_commit h serial q s :
  ResizeInv s -> ResizeInv (with_tracker (note_commit h serial q (tracker s)).1 s).
Proof.
  intros Hs. unfold note_commit. pose proof (proj2 Hs h) as Hh. unfold view_ok in Hh. cbn in Hh.
  destruct (state (tracker s) h) eqn:E; cbn; rewrite ?with_tracker_id; try done.
  destruct (_ && _); cbn; [|by rewrite with_tracker_id]. apply inv_set_state; by rewrite ?E.
Qed.
Lemma inv_window_commit e h s r : ResizeInv s -> ResizeInv (note_window_commit e h (s, r)).1.
Proof.
  intros Hs. pose proof (inv_note_commit h (ce_serial e) (ce_sequence e) s Hs) as Hn. unfold note_window_commit.
  destruct (note_commit _ _ _ _) as [t res]. cbn [fst] in Hn.
  destruct res; cbn -[report]; try done; destruct (transactions t !! h); cbn -[report]; try done;
    (eapply Calm_inv; [apply Calm_report|done]).
Qed.
Lemma inv_window_commits e hs acc :
  ResizeInv acc.1 -> ResizeInv (fold_left (fun acc h => note_window_commit e h acc) hs acc).1.
Proof. revert acc. induction hs as [|h hs IH]; intros [s r] Hs; [done|]. cbn [fold_left]. by apply IH, inv_window_commit. Qed.
Lemma inv_process_commit `{HashOrder, Connection} m s e : ResizeInv s -> ResizeInv (process_commit m s e).
Proof.
  intros Hs. unfold process_commit. set (hs := filter _ _).
  pose proof (inv_window_commits e hs (s, bool_decide (hs = [])) Hs) as Hf. destruct (fold_left _ _ _) as [s' []]; [|done].
  eapply Calm_inv; [apply Calm_commits|done].
Qed.
Lemma inv_process_pending `{HashOrder, Connection} m s : ResizeInv s -> ResizeInv (process_pending_resize_commits m s).
Proof.
  intros Hs. unfold process_pending_resize_commits.
  assert (Hi : ResizeInv (with_log [] (resize_events s) (requests s) s)) by (eapply Calm_inv; [apply Calm_commits|done]).
  revert Hi. generalize (with_log [] (resize_events s) (requests s) s). generalize (buffer_ready_commits s).
  induction l as [|e l IH]; intros s' Hs'; [done|]. cbn [fold_left]. by apply IH, inv_process_commit.
Qed.

(** *** The end of a resize *)

Lemma inv_at h s s' :
  ResizeInv s -> AlarmInv s' -> (forall h', h' <> h -> view s' h' = view s h') -> view_ok (view s' h) -> ResizeInv s'.
Proof.
  intros [_ Hs] Ha Hv Hh. split; [done|]. intros h'. destruct (decide (h' = h)) as [->|Hn]; [done|]. by rewrite Hv.
Qed.
Lemma view_ok_rest v : v_state v = Idle -> v_tx v = None -> v_desired v = None -> v_alarm v = None -> view_ok v.
Proof. unfold view_ok. intros -> -> -> ->. done. Qed.
Lemma tracked_end h h' t :
  tracked (end_transaction h t) h' =
  if decide (h' = h) then (Idle, None, desired t !! h, bool_decide (h ∈ sync_disabled t)) else tracked t h'.
Proof.
  unfold tracked, state, end_transaction. cbn. destruct (decide (h' = h)) as [->|Hn].
  - by rewrite lookup_insert_eq, lookup_delete_eq.
  - by rewrite lookup_insert_ne, lookup_delete_ne.
Qed.
Lemma tracked_clear h h' t :
  tracked (tracker_clear h t) h' = if decide (h' = h) then (Idle, None, None, false) else tracked t h'.
Proof.
  unfold tracked, state, tracker_clear. cbn. destruct (decide (h' = h)) as [->|Hn].
  - rewrite !lookup_delete_eq. rewrite bool_decide_false by set_solver. done.
  - rewrite !lookup_delete_ne by done. erewrite bool_decide_ext; [done|]. set_solver.
Qed.
Lemma tracked_take h h' t :
  tracked (take_desired h t).1 h' =
  if decide (h' = h) then (state t h, transactions t !! h, None, bool_decide (h ∈ sync_disabled t)) else tracked t h'.
Proof.
  unfold tracked, take_desired. cbn. destruct (decide (h' = h)) as [->|Hn].
  - by rewrite lookup_delete_eq.
  - by rewrite lookup_delete_ne.
Qed.
Lemma view_tracked t s h :
  view (with_tracker t s) h =
  let '(x, tx, d, dis) := tracked t h in mkView x tx d dis (timed_out_resize_counters s !! h) (binding_of s h).
Proof. done. Qed.
Lemma alarm_inv_tracker t s : AlarmInv s -> AlarmInv (with_tracker t s).
Proof. by intros []. Qed.
Lemma inv_clear `{HashOrder, Connection} h s : ResizeInv s -> ResizeInv (clear_resize_sync h s).
Proof.
  intros Hs. pose proof (alarm_inv_tracker (tracker_clear h (tracker s)) s (proj1 Hs)) as Ha.
  eapply (inv_at h); [done| |intros h' Hn|].
  - destruct (clear_alarm_inv h _ Ha). by split.
  - pose proof (clear_alarm_view h h' _ Ha) as E. rewrite decide_False in E by done.
    rewrite view_tracked, tracked_clear, decide_False in E by done. unfold clear_resize_sync, view. cbn -[clear_resize_sync_alarm].
    rewrite lookup_delete_ne by done. exact E.
  - pose proof (clear_alarm_view h h _ Ha) as E. rewrite decide_True in E by done.
    rewrite view_tracked, tracked_clear, decide_True in E by done.
    apply view_ok_rest; [exact (f_equal v_state E)|exact (f_equal v_tx E)|exact (f_equal v_desired E)|exact (f_equal v_alarm E)].
Qed.
(** The window is at rest, without its alarm and without what waited. *)
Definition ended `{HashOrder, Connection} (h : Z) (s : Resizes) : Resizes :=
  let s := clear_resize_sync_alarm h (with_tracker (end_transaction h (tracker s)) s) in
  with_tracker (take_desired h (tracker s)).1 s.
Lemma inv_ended `{HashOrder, Connection} h s : ResizeInv s -> ResizeInv (ended h s).
Proof.
  intros Hs. pose proof (alarm_inv_tracker (end_transaction h (tracker s)) s (proj1 Hs)) as Ha. unfold ended.
  set (s1 := clear_resize_sync_alarm h _). assert (Ht : tracker s1 = end_transaction h (tracker s)) by done.
  eapply (inv_at h); [done| |intros h' Hn|].
  - by apply alarm_inv_tracker, clear_alarm_inv.
  - rewrite view_tracked, tracked_take, decide_False, Ht, tracked_end, decide_False by done. unfold s1.
    rewrite clear_alarm_binding, decide_False by done. done.
  - rewrite view_tracked, tracked_take, decide_True by done. unfold s1. rewrite clear_alarm_binding, decide_True by done.
    fold s1. rewrite Ht. pose proof (tracked_end h h (tracker s)) as E. rewrite decide_True in E by done.
    unfold tracked in E. simplify_eq. by apply view_ok_rest.
Qed.

(** *** Giving up *)

Lemma accounted_commits h b bound l : accounted bound l -> accounted bound (l ++ [AllowCommits h b]).
Proof. unfold accounted. by rewrite live_alarms_snoc, refused_alarms_snoc. Qed.

(** The window after its resize took too long. *)
Definition given_up (ans : Answers) (h counter : Z) (s : Resizes) : Resizes :=
  let t := (take_desired h (set_disabled (sync_disabled (tracker s) ∪ {[h]}) (set_state h FallbackUnsynchronized (tracker s)))).1 in
  let s := if an_release ans then send (AllowCommits h true) (with_tracker t s) else with_tracker t s in
  let s := with_counters (sync_counter_initializations s) (<[h := counter]> (timed_out_resize_counters s))
             (next_resize_counter_values s) s in
  with_tracker (end_transaction h (tracker s)) s.
Definition fallback_of (h : Z) (s : Resizes) : option X11Geometry :=
  match desired (tracker s) !! h with
  | Some d => Some (de_geometry d)
  | None => tx_geometry <$> transactions (tracker s) !! h
  end.
(** Whether the resize of a window has taken too long, and what follows. *)
Lemma time_out_window_cases ans now h s :
  (expired now (state (tracker s) h) = false /\ time_out_window ans now h s = (s, None)) \/
  exists counter, expired now (state (tracker s) h) = true /\ counter_value_of (state (tracker s) h) = Some counter /\
    exists epoch follow,
    time_out_window ans now h s =
      (let s' := given_up ans h counter s in
       if negb (an_release ans && an_flush ans) then (s', Some ConnectionLost)
       else match fallback_of h s with
            | None => (report (ResizeSyncTimedOut h (fallback_of h s) epoch follow) s', None)
            | Some g => match configure_immediate (an_configure ans) h g false epoch false s' with
                        | (s', Some e) => (s', Some e)
                        | (s', None) => (report (ResizeSyncTimedOut h (fallback_of h s) epoch follow) s', None)
                        end
            end).
Proof.
  unfold time_out_window, timeout. destruct (expired now (state (tracker s) h)) eqn:E; [right|by left].
  assert (exists c, counter_value_of (state (tracker s) h) = Some c) as [c Ec].
  { unfold expired in E. destruct (state (tracker s) h); naive_solver. }
  exists c. split_and!; [done..|]. rewrite Ec. unfold take_desired. cbv iota beta zeta. eexists _, _.
  change (desired (set_disabled _ _) !! h) with (desired (tracker s) !! h).
  change (transactions (set_disabled _ _) !! h) with (transactions (tracker s) !! h).
  assert (Hf : forall s', state (tracker s') h = FallbackUnsynchronized -> (finish_timeout h (tracker s')).1 = end_transaction h (tracker s')).
  { intros s' E'. unfold finish_timeout. by rewrite E'. }
  unfold given_up, take_desired. cbn [fst]. rewrite Hf; [|].
  - unfold fallback_of. reflexivity.
  - destruct (an_release ans); cbn [tracker with_counters send with_log with_tracker];
      change (state (with_desired _ (set_disabled _ ?t)) h) with (state t h); by rewrite state_set_state, decide_True.
Qed.
Lemma tracked_given_up ans h c s h' :
  tracked (tracker (given_up ans h c s)) h' = if decide (h' = h) then (Idle, None, None, true) else tracked (tracker s) h'.
Proof.
  assert (tracker (given_up ans h c s) = end_transaction h (take_desired h (set_disabled (sync_disabled (tracker s) ∪ {[h]})
    (set_state h FallbackUnsynchronized (tracker s)))).1) as -> by (unfold given_up; by destruct (an_release ans)).
  rewrite tracked_end. destruct (decide (h' = h)) as [->|Hn].
  - cbn. rewrite lookup_delete_eq. f_equal. apply bool_decide_true. set_solver.
  - rewrite tracked_take, decide_False by done. unfold tracked. change (state (set_disabled _ ?t) h') with (state t h').
    rewrite state_set_state, decide_False by done. cbn. do 2 f_equal. apply bool_decide_ext. set_solver.
Qed.
Lemma inv_given_up ans h c s :
  counter_value_of (state (tracker s) h) = Some c -> ResizeInv s -> ResizeInv (given_up ans h c s).
Proof.
  intros Ec Hs. pose proof (proj2 Hs h) as Hh.
  assert (Eb : forall h', binding_of (given_up ans h c s) h' = binding_of s h') by (intros h'; unfold given_up; by destruct (an_release ans)).
  assert (Et : timed_out_resize_counters (given_up ans h c s) = <[h := c]> (timed_out_resize_counters s))
    by (unfold given_up; by destruct (an_release ans)).
  eapply (inv_at h); [done| |intros h' Hn|].
  - destruct (proj1 Hs) as [H1 H2 H3]. unfold given_up. destruct (an_release ans); split; try done.
    by apply (accounted_commits h true).
  - rewrite <- (with_tracker_id (given_up _ _ _ _)), view_tracked, tracked_given_up, decide_False, Eb, Et, lookup_insert_ne by done. done.
  - rewrite <- (with_tracker_id (given_up _ _ _ _)), view_tracked, tracked_given_up, decide_True, Eb, Et, lookup_insert_eq by done.
    unfold view_ok. cbn. split_and!; [done..|]. intros b E. split; [done|].
    unfold view_ok in Hh. cbn in Hh. rewrite E in Hh. destruct (state (tracker s) h); naive_solver.
Qed.
Lemma inv_time_out_window ans now h s : ResizeInv s -> ResizeInv (time_out_window ans now h s).1.
Proof.
  intros Hs. destruct (time_out_window_cases ans now h s) as [[_ ->]|(c & _ & Ec & ep & fo & ->)]; [done|].
  pose proof (inv_given_up ans h c s Ec Hs) as Hg. cbv zeta. destruct (negb _); [done|].
  destruct (fallback_of h s) as [g|]; [|by eapply Calm_inv; [apply Calm_report|]].
  pose proof (Calm_configure_immediate (an_configure ans) h g false ep false (given_up ans h c s)) as Hc.
  destruct (configure_immediate _ _ _ _ _ _ _) as [s' []]; cbn -[report] in *; [by eapply Calm_inv|].
  eapply Calm_inv; [apply Calm_report|]. by eapply Calm_inv.
Qed.
Lemma inv_time_out_windows ans now hs s : ResizeInv s -> ResizeInv (time_out_windows ans now hs s).1.
Proof.
  revert s. induction hs as [|h hs IH]; intros s Hs; [done|]. cbn. pose proof (inv_time_out_window (ans h) now h s Hs) as Hg.
  destruct (time_out_window _ _ _ _) as [s' []]; [done|]. by apply IH.
Qed.

(** *** Starting a resize *)

Lemma inv_send_commits h b s : ResizeInv s -> ResizeInv (send (AllowCommits h b) s).
Proof.
  intros [[H1 H2 H3] Hv]. split; [|done]. split; try done. by apply accounted_commits.
Qed.
Lemma inv_start_requests ans h v g s : ResizeInv s -> ResizeInv (start_requests ans h v g s).1.
Proof.
  intros Hs. unfold start_requests. destruct (an_allow ans); [|done]. apply (inv_send_commits h false) in Hs.
  destruct (an_sync ans); [|done]. eapply (Calm_inv _ _ (Calm_send (SyncRequest h v) _ I)) in Hs.
  destruct (an_configure ans); [|done]. by eapply (Calm_inv _ _ (Calm_send (ConfigureWindow h g all_fields) _ I)) in Hs.
Qed.
Lemma fresh_unbound s a : AlarmInv s -> a ∉ live_alarms (requests s) -> sync_alarm_bindings s !! a = None.
Proof. intros [_ _ [L1 _]] Hf. apply not_elem_of_dom. set_solver. Qed.
Lemma Calm_alarm_undone `{Connection} alarm c v s :
  AlarmInv s -> alarm ∉ live_alarms (requests s) ->
  Calm s (let s := send (CreateAlarm alarm c v) s in send (destroyed (requests s) alarm) s).
Proof.
  intros Ha Hf. pose proof (fresh_unbound s alarm Ha Hf) as Hu%not_elem_of_dom.
  split; [done..| |]; cbn [requests send with_log]; [intros [L1 L2]|intros h'].
  - unfold accounted, destroyed. rewrite !live_alarms_snoc, !refused_alarms_snoc.
    destruct (destroy_taken _ alarm); cbn; set_solver.
  - by rewrite !commits_blocked_snoc.
Qed.
(** What a new resize records. *)
Definition begun (alarm sync_counter value h : Z) (tx : ResizeSyncTransaction) (t : ResizeSyncTracker) (s : Resizes) : Resizes :=
  with_alarms (<[h := alarm]> (sync_alarms s))
    (<[alarm := mkBinding alarm h (handle_generation h) (tx_id tx) value]> (sync_alarm_bindings s))
    (<[sync_counter := h]> (sync_handles_by_counter s)) (with_tracker t (send (CreateAlarm alarm sync_counter value) s)).
Lemma begin_spec h v dl g final epoch t t' :
  begin_transaction_for_epoch h v dl g final epoch t = Ret t' ->
  exists tx, transactions t' !! h = Some tx /\ tx_geometry tx = g /\ tx_final tx = final /\ tx_epoch tx = epoch /\
    forall h', tracked t' h' =
      if decide (h' = h) then (ConfigureSent v dl, Some tx, desired t !! h, bool_decide (h ∈ sync_disabled t)) else tracked t h'.
Proof.
  unfold begin_transaction_for_epoch. destruct (_ =? _); [done|]. destruct (is_pending t h); [done|]. intros [= <-].
  eexists. split; [cbn; apply lookup_insert_eq|]. split_and!; try done. intros h'. unfold tracked, state. cbn.
  destruct (decide (h' = h)) as [->|Hn]; [by rewrite !lookup_insert_eq|by rewrite !lookup_insert_ne].
Qed.
Lemma no_alarm s h : ResizeInv s -> state (tracker s) h = Idle -> h ∉ sync_disabled (tracker s) -> sync_alarms s !! h = None.
Proof.
  intros [Ha Hv] Ei Hd. specialize (Hv h). unfold view_ok, view, binding_of in Hv. cbn in Hv. rewrite Ei in Hv.
  destruct Hv as (_ & _ & Hv). destruct (sync_alarms s !! h) as [a|] eqn:E; [|done].
  pose proof (ai_owned s Ha h a E) as (b & Eb & _)%fmap_Some. destruct (Hv b Eb) as [Hd' _]. by apply bool_decide_eq_true in Hd'.
Qed.
Lemma inv_begun alarm c v h dl g final epoch t tx s :
  ResizeInv s -> state (tracker s) h = Idle -> h ∉ sync_disabled (tracker s) -> alarm ∉ live_alarms (requests s) ->
  begin_transaction_for_epoch h v dl g final epoch (tracker s) = Ret t -> transactions t !! h = Some tx ->
  ResizeInv (begun alarm c v h tx t s).
Proof.
  intros Hs Ei Hd Hl Eb Et. pose proof (fresh_unbound s alarm (proj1 Hs) Hl) as Hf. pose proof (no_alarm s h Hs Ei Hd) as Hno. destruct (begin_spec _ _ _ _ _ _ _ _ Eb) as (tx' & Et' & _ & _ & _ & Ht).
  assert (tx' = tx) as -> by congruence. pose proof (ai_owned s (proj1 Hs)) as H1. pose proof (ai_bound s (proj1 Hs)) as H2.
  assert (Hne : forall h' a, sync_alarms s !! h' = Some a -> h' <> h /\ a <> alarm).
  { intros h' a E. split; [congruence|]. intros ->. specialize (H1 _ _ E). by rewrite Hf in H1. }
  eapply (inv_at h); [done|split|intros h' Hn|]; cbn [sync_alarms sync_alarm_bindings requests begun with_alarms with_tracker send with_log].
  - intros h' a E. apply lookup_insert_Some in E as [[<- <-]|[Hn E]]; [by rewrite lookup_insert_eq|].
    rewrite lookup_insert_ne by (by apply not_eq_sym, (Hne h')). by apply H1.
  - intros a b E. apply lookup_insert_Some in E as [[<- <-]|[Hn E]]; [by rewrite lookup_insert_eq|].
    destruct (H2 a b E) as (? & ? & E'). split_and!; [done..|]. rewrite lookup_insert_ne; [done|]. by apply not_eq_sym, (Hne _ _ E').
  - destruct (ai_live s (proj1 Hs)) as [L1 L2]. unfold accounted. rewrite live_alarms_snoc, refused_alarms_snoc, dom_insert_L.
    cbn. set_solver.
  - specialize (Ht h'). rewrite decide_False in Ht by done. unfold tracked in Ht.
    unfold view, binding_of, begun. cbn -[state]. rewrite lookup_insert_ne by done. simplify_eq. f_equal; try congruence.
    destruct (sync_alarms s !! h') as [a|] eqn:E; [|done]. cbn. rewrite lookup_insert_ne; [done|]. by apply not_eq_sym, (Hne h').
  - specialize (Ht h). rewrite decide_True in Ht by done. unfold tracked in Ht. simplify_eq.
    unfold view, binding_of, begun. cbn -[state]. rewrite lookup_insert_eq. cbn -[state]. rewrite lookup_insert_eq.
    unfold view_ok. cbn [v_state v_disabled v_tx v_alarm]. replace (state t h) with (ConfigureSent v dl) by congruence.
    cbn. split; [|by eexists _, _]. by replace (bool_decide (h ∈ sync_disabled t)) with (bool_decide (h ∈ sync_disabled (tracker s))) by congruence;
      apply bool_decide_false.
Qed.

Definition configured_effect (h : Z) (o : option X11Geometry) (r : XRequest) : option X11Geometry :=
  match r with ConfigureWindow h' g _ => if decide (h' = h) then Some g else o | _ => o end.
(** The geometry the server was last told for a window. *)
Definition last_configured (h : Z) (l : list XRequest) : option X11Geometry := fold_left (configured_effect h) l None.
Lemma last_configured_app h l l' : last_configured h (l ++ l') = fold_left (configured_effect h) l' (last_configured h l).
Proof. apply fold_left_app. Qed.
Lemma last_configured_snoc h l r : last_configured h (l ++ [r]) = configured_effect h (last_configured h l) r.
Proof. by rewrite last_configured_app. Qed.
Lemma configured_destroys `{Connection} h l dead o : fold_left (configured_effect h) (destroyed l <$> dead) o = o.
Proof. by induction dead. Qed.
(** A call that leaves the geometry of the windows alone. *)
Definition Still (s s' : Resizes) : Prop :=
  last_resize_geometries s' = last_resize_geometries s /\
  forall h, last_configured h (requests s') = last_configured h (requests s).
#[export] Instance Still_preorder : PreOrder Still.
Proof. split; [done|]. intros s1 s2 s3 [] []. split; [congruence|]. intros h. congruence. Qed.
Lemma Still_initialize ok h c s : Still s (initialize_sync_counter ok h c s).1.
Proof.
  unfold initialize_sync_counter. destruct (decide _); [done|]. destruct ok; [|done]. split; [done|]. intros h'.
  cbn [requests with_counters send with_log negb fst]. by rewrite last_configured_snoc.
Qed.
Lemma Still_next_value h c s : Still s (next_counter_value h c s).1.
Proof. unfold next_counter_value. destruct (_ =? _); [|done]. by destruct (_ <? _). Qed.

Section Starting.
Context {order : HashOrder} {connection : Connection}.
Definition started (ans : Answers) (h : Z) (g : X11Geometry) (value : Z) (s : Resizes) : outcome :=
  match start_requests ans h value g s with
  | (s, true) => (with_last (<[h := g]> (last_resize_geometries s)) s, None)
  | (s, false) => (clear_resize_sync h (if an_release ans then send (AllowCommits h true) s else s), Some ConnectionLost)
  end.
Lemma fresh_initialize ans ok h c s : fresh_alarm ans s -> fresh_alarm ans (initialize_sync_counter ok h c s).1.
Proof.
  unfold fresh_alarm, initialize_sync_counter. destruct (an_alarm ans); [|done]. destruct (decide _); [done|]. destruct ok; [|done].
  cbn [requests with_counters send with_log fst negb]. by rewrite live_alarms_snoc.
Qed.
Lemma fresh_next_value ans h c s : fresh_alarm ans s -> fresh_alarm ans (next_counter_value h c s).1.
Proof. unfold next_counter_value. destruct (_ =? _); [|done]. by destruct (_ <? _). Qed.
Lemma start_cases ans c h g counter dl final epoch s :
  AlarmInv s -> fresh_alarm ans s ->
  (exists s' e, start_resize_sync ans c h g counter dl final epoch s = (s', Some e) /\ Calm s s' /\ Still s s') \/
  exists s0 alarm v t tx, Calm s s0 /\ Still s s0 /\ (an_alarm ans = Some alarm /\ alarm ∉ live_alarms (requests s0)) /\
    begin_transaction_for_epoch h v dl g final epoch (tracker s0) = Ret t /\ transactions t !! h = Some tx /\
    start_resize_sync ans c h g counter dl final epoch s = started ans h g v (begun alarm c v h tx t s0).
Proof.
  intros Ha Hf. unfold start_resize_sync. destruct (u32_max <? c); [left; by eexists _, _|].
  pose proof (Calm_initialize (an_counter ans) h c s) as C1. pose proof (Still_initialize (an_counter ans) h c s) as S1.
  apply (fresh_initialize ans (an_counter ans) h c) in Hf.
  destruct (initialize_sync_counter _ _ _ _) as [s1 [e|]]; cbn in C1, S1; [left; by eexists _, _|].
  destruct (an_alarm ans) as [alarm|] eqn:Ea; [|left; by eexists _, _]. cbn [fst] in Hf. apply (fresh_next_value ans h counter) in Hf.
  pose proof (Calm_next_value h counter s1) as C2. pose proof (Still_next_value h counter s1) as S2.
  destruct (next_counter_value _ _ _) as [s2 [v|]]; cbn in C2, S2; [|left; eexists _, _; split_and!; [done|by etransitivity|by etransitivity]].
  unfold fresh_alarm in Hf. rewrite Ea in Hf. cbn [fst] in Hf. assert (C : Calm s s2) by by etransitivity. assert (S : Still s s2) by by etransitivity.
  destruct (an_create ans); [|left; by eexists _, _]. cbn [negb].
  change (tracker (send _ s2)) with (tracker s2).
  destruct (begin_transaction_for_epoch _ _ _ _ _ _ _) as [t|e| |] eqn:Eb.
  - right. destruct (begin_spec _ _ _ _ _ _ _ _ Eb) as (tx & Et & _). exists s2, alarm, v, t, tx. rewrite Et. split_and!; done.
  - left. eexists _, _. split; [done|]. split; (etransitivity; [first [exact C|exact S]|]).
    + apply Calm_alarm_undone; [by eapply Calm_alarm_inv|done].
    + split; [done|]. intros h'. cbn [requests send with_log]. by rewrite !last_configured_snoc.
  - unfold begin_transaction_for_epoch in Eb. destruct (is_pending (tracker s2) h), (_ =? _); discriminate.
  - unfold begin_transaction_for_epoch in Eb. destruct (is_pending (tracker s2) h), (_ =? _); discriminate.
Qed.
Lemma inv_started ans h g v s : ResizeInv s -> ResizeInv (started ans h g v s).1.
Proof.
  intros Hs. pose proof (inv_start_requests ans h v g s Hs) as Hr. unfold started.
  destruct (start_requests _ _ _ _ _) as [s' []]; cbn -[with_last clear_resize_sync send] in *.
  - eapply Calm_inv; [apply Calm_last|done].
  - apply inv_clear. destruct (an_release ans); [by apply inv_send_commits|done].
Qed.
Lemma inv_start ans c h g counter dl final epoch s :
  fresh_alarm ans s -> state (tracker s) h = Idle -> h ∉ sync_disabled (tracker s) -> ResizeInv s ->
  ResizeInv (start_resize_sync ans c h g counter dl final epoch s).1.
Proof.
  intros Hf Ei Hd Hs. destruct (start_cases ans c h g counter dl final epoch s (proj1 Hs) Hf)
    as [(s' & e & -> & Hc & _)|(s0 & alarm & v & t & tx & Hc & _ & [_ Ef] & Eb & Et & ->)]; [by eapply Calm_inv|].
  apply inv_started.
  eapply (inv_begun alarm c v h dl g final epoch); [by eapply Calm_inv|..]; rewrite ?(ca_tracker _ _ Hc); try done.
  by rewrite (ca_tracker _ _ Hc) in Eb.
Qed.
Lemma inv_begin sc cap ans h g counter dl final epoch s :
  fresh_alarm ans s -> ResizeInv s -> ResizeInv (begin_resize_sync_for_epoch sc cap ans h g counter dl final epoch s).1.
Proof.
  intros Hf Hs. unfold begin_resize_sync_for_epoch. set (s1 := with_windows _ _ _ s).
  assert (H1 : ResizeInv s1) by (eapply Calm_inv; [apply Calm_windows|done]).
  destruct sc as [c|]; [|eapply Calm_inv; [apply Calm_configure_immediate|done]].
  destruct (negb cap || _) eqn:Ed; [eapply Calm_inv; [apply Calm_configure_immediate|done]|].
  apply orb_false_iff in Ed as [_ Ed%bool_decide_eq_false].
  destruct (is_pending _ h) eqn:Ep; [by apply inv_queue|]. destruct (decide _).
  { destruct final; [|done]. eapply Calm_inv; [apply Calm_report|done]. }
  apply inv_start; [done| |done..]. apply dec_stable. intros Hn%is_pending_spec. congruence.
Qed.
End Starting.

Section Ending.
Context {order : HashOrder} {connection : Connection}.
Lemma fresh_ended ans h s : fresh_alarm ans s -> fresh_alarm ans (ended h s).
Proof.
  unfold fresh_alarm. destruct (an_alarm ans) as [a|]; [|done]. intros Hf.
  change (requests (ended h s)) with (requests (clear_resize_sync_alarm h (with_tracker (end_transaction h (tracker s)) s))).
  cbn [requests clear_resize_sync_alarm with_log with_alarms with_tracker]. rewrite live_alarms_app, fold_destroy. set_solver.
Qed.
(** The next resize after one that was presented. *)
Definition followed (sc : option Z) (cap : bool) (ans : Answers) (now h : Z) (s : Resizes) : outcome :=
  match desired (tracker s) !! h with
  | None => (ended h s, None)
  | Some d =>
      if decide (tx_geometry <$> transactions (tracker s) !! h = Some (de_geometry d)) then
        (if de_final d
         then report (ResizeSyncPresented h (default 0 (tx_id <$> transactions (tracker s) !! h)) (de_epoch d) (de_geometry d)) (ended h s)
         else ended h s, None)
      else begin_resize_sync_for_epoch sc cap ans h (de_geometry d) 0 (sat_add u64_max now RESIZE_SYNC_TIMEOUT_NS)
             (de_final d) (de_epoch d) (ended h s)
  end.
Lemma complete_cases sc cap ans now h s :
  complete_resize_sync sc cap ans now h s = (s, Some NotPresented) \/
  (exists c, state (tracker s) h = Presented c) /\ complete_resize_sync sc cap ans now h s = followed sc cap ans now h s.
Proof.
  unfold complete_resize_sync, complete. destruct (state (tracker s) h); try (by left). right. split; [by eexists|]. done.
Qed.
Lemma inv_complete sc cap ans now h s :
  fresh_alarm ans s -> ResizeInv s -> ResizeInv (complete_resize_sync sc cap ans now h s).1.
Proof.
  intros Hf Hs. destruct (complete_cases sc cap ans now h s) as [->|[_ ->]]; [done|]. pose proof (inv_ended h s Hs) as He.
  unfold followed. destruct (desired _ !! h) as [d|]; [|done]. destruct (decide _).
  - destruct (de_final d); [|done]. eapply Calm_inv; [apply Calm_report|done].
  - apply inv_begin; [|done]. by apply fresh_ended.
Qed.
Lemma inv_release_commits m ok fl h c serial floor s :
  ResizeInv s -> ResizeInv (release_resize_commits m ok fl h c serial floor s).1.
Proof.
  intros Hs. unfold release_resize_commits. destruct (state (tracker s) h); try done. destruct (negb _); [done|].
  destruct (negb _); [done|]. destruct (negb _); [done|]. apply (inv_send_commits h true) in Hs. destruct (negb _); [done|].
  destruct (release_commits _ _ _ _ _) as [t []] eqn:E; [|done]. apply inv_process_pending. by eapply inv_release.
Qed.
(** A configure that waits, or that goes to the server now. *)
Lemma configure_cases ok h g f epoch s :
  (is_pending (tracker s) h = true /\
   command_configure ok h g f epoch s = (with_tracker (queue_desired_for_epoch h g true epoch (tracker s)).1 s, None)) \/
  (is_pending (tracker s) h = true /\
   Calm (with_tracker (merge_desired_position h (xg_x g) (xg_y g) (tracker s)).1 s) (command_configure ok h g f epoch s).1) \/
  Calm s (command_configure ok h g f epoch s).1.
Proof.
  unfold command_configure.
  assert (Hnow : forall s1, Calm s1 (if negb ok then (s1, Some ConnectionLost) else
      let s := send (ConfigureWindow h g f) s1 in
      if bool_decide (h ∈ immediate_resize_windows s) || bool_decide (h ∈ fallback_resize_windows s) then
        (report (ResizeSyncImmediate h epoch g false)
           (with_windows (immediate_resize_windows s ∖ {[h]})
              (if decide (h ∈ immediate_resize_windows s) then fallback_resize_windows s else fallback_resize_windows s ∖ {[h]})
              (delete h (last_resize_geometries s)) s), None)
      else (s, None)).1).
  { intros s1. destruct ok; [|done]. cbn [negb]. destruct (_ || _); [|by apply Calm_send]. cbn [fst].
    etransitivity; [by apply (Calm_send (ConfigureWindow h g f))|]. etransitivity; [|apply Calm_report]. apply Calm_windows. }
  destruct (_ || _); cbn [andb negb]; destruct (is_pending (tracker s) h); auto.
Qed.
Lemma inv_configure ok h g f epoch s : ResizeInv s -> ResizeInv (command_configure ok h g f epoch s).1.
Proof.
  intros Hs. destruct (configure_cases ok h g f epoch s) as [[Hp ->]|[[Hp Hc]|Hc]].
  - by apply inv_queue.
  - eapply Calm_inv; [exact Hc|]. by apply inv_merge.
  - by eapply Calm_inv.
Qed.

(** *** A server that went away *)

Lemma clear_alarms hs s :
  AlarmInv s -> let s' := fold_left (fun s h => clear_resize_sync_alarm h s) hs s in
  AlarmInv s' /\ tracker s' = tracker s /\ timed_out_resize_counters s' = timed_out_resize_counters s /\
  forall h, binding_of s' h = if decide (h ∈ hs) then None else binding_of s h.
Proof.
  revert s. induction hs as [|h hs IH]; intros s Ha; cbn [fold_left]; [done|].
  destruct (IH _ (clear_alarm_inv h s Ha)) as (H1 & H2 & H3 & H4). split_and!; [done..|]. intros h'. rewrite H4, clear_alarm_binding by done.
  destruct (decide (h' ∈ hs)), (decide (h' = h)), (decide (h' ∈ h :: hs)); set_solver.
Qed.
Lemma lookup_filter_gen {V} (m : gmap Z V) g h :
  filter (fun p => handle_generation p.1 <> g) m !! h = if decide (handle_generation h = g) then None else m !! h.
Proof.
  apply option_eq. intros v. rewrite map_lookup_filter_Some. cbn. destruct (decide _); naive_solver.
Qed.
Lemma tracked_clear_generation g t h :
  tracked (tracker_clear_generation g t) h = if decide (handle_generation h = g) then (Idle, None, None, false) else tracked t h.
Proof.
  unfold tracked, state. cbn. rewrite !lookup_filter_gen. destruct (decide _); cbn.
  - f_equal. apply bool_decide_false. set_solver.
  - f_equal. apply bool_decide_ext. set_solver.
Qed.
Lemma inv_clear_generation g s : ResizeInv s -> ResizeInv (clear_resize_sync_generation g s).
Proof.
  intros Hs. unfold clear_resize_sync_generation. set (hs := remove_dups _). set (s1 := with_windows _ _ _ _).
  assert (Ha : AlarmInv s1) by (destruct (proj1 Hs); by split).
  destruct (clear_alarms hs s1 Ha) as (H1 & H2 & H3 & H4). set (s2 := fold_left _ hs s1) in *. clearbody s2.
  assert (Hh : forall h, h ∈ hs -> handle_generation h = g).
  { intros h. unfold hs. rewrite elem_of_remove_dups, elem_of_app, list_elem_of_filter, list_elem_of_omap.
    intros [[E _]|(a & _ & E)]; [done|]. destruct (sync_alarm_bindings s !! a) as [b|] eqn:Eb; [|done].
    destruct (bd_generation b =? g) eqn:Eg; [|done]. apply Z.eqb_eq in Eg. simplify_eq. symmetry.
    by destruct (ai_bound s (proj1 Hs) a b Eb) as (_ & ? & _). }
  assert (Hin : forall h, handle_generation h = g -> is_Some (binding_of s h) -> h ∈ hs).
  { intros h E [b Eb]. unfold hs. rewrite elem_of_remove_dups, elem_of_app, list_elem_of_filter, elem_of_hash_keys. left.
    unfold binding_of in Eb. by destruct (sync_alarms s !! h). }
  assert (Hb : forall h, binding_of s2 h = if decide (handle_generation h = g) then None else binding_of s h).
  { intros h. rewrite H4. change (binding_of s1 h) with (binding_of s h). destruct (decide (h ∈ hs)), (decide _); try done.
    - exfalso. eauto.
    - destruct (binding_of s h) eqn:E; [|done]. exfalso. eauto. }
  replace (filter _ (sync_alarm_bindings s2)) with (sync_alarm_bindings s2).
  2: { symmetry. apply map_filter_id. intros a b E Eg. cbn in Eg. destruct (ai_bound s2 H1 a b E) as (_ & E1 & E2).
       specialize (Hb (bd_handle b)). rewrite decide_True in Hb by congruence. unfold binding_of in Hb. rewrite E2 in Hb. cbn in Hb.
       congruence. }
  split; [destruct H1; by split|]. intros h. unfold view. cbn [tracker timed_out_resize_counters with_alarms].
  change (binding_of (with_alarms _ _ _ s2) h) with (binding_of s2 h). rewrite Hb, H2, H3.
  pose proof (tracked_clear_generation g (tracker s) h) as Et. unfold tracked in Et. cbn [timed_out_resize_counters tracker s1 with_windows with_counters with_tracker].
  rewrite lookup_filter_gen. destruct (decide (handle_generation h = g)); simplify_eq.
  - by apply view_ok_rest.
  - pose proof (proj2 Hs h) as Hv. unfold view in Hv. congruence.
Qed.
End Ending.

Section Invariant.
Context {order : HashOrder} {connection : Connection} (generation : Z).
Lemma resizes_new_inv : ResizeInv resizes_new.
Proof. split; [split|]; [done..|split; set_solver|]. intros h. by apply view_ok_rest. Qed.
Lemma inv_step a s : step_fresh a s -> ResizeInv s -> ResizeInv (resize_step generation a s).1.
Proof.
  intros Hf Hs. destruct a; cbn [resize_step fst].
  - by apply inv_begin.
  - by apply inv_configure.
  - eapply Calm_inv; [apply Calm_configure_frame|done].
  - by apply inv_alarm_notify.
  - by apply inv_counter_notify.
  - unfold mark_surface_commit_observed. destruct (negb _); [done|]. apply inv_process_pending.
    eapply Calm_inv; [apply Calm_commits|done].
  - by apply inv_process_pending.
  - by apply inv_release_commits.
  - by apply inv_complete.
  - by apply inv_time_out_windows.
  - by apply inv_clear.
  - by apply inv_clear_generation.
  - eapply Calm_inv; [apply Calm_reset|done].
  - eapply Calm_inv; [apply Calm_initialize|done].
  - unfold command_set_allow_commits. destruct ok; [by apply inv_send_commits|done].
  - eapply Calm_inv; [apply Calm_clear_surface|done].
Qed.
Lemma reach_inv s : resizes_reach generation s -> ResizeInv s.
Proof. induction 1; [apply resizes_new_inv|by apply inv_step]. Qed.
End Invariant.

(** ** Holding commits back *)

Definition waiting (x : ResizeSyncState) : bool := match x with ConfigureSent _ _ | AckObserved _ _ => true | _ => false end.
Definition BlockInv (s : Resizes) : Prop := forall h, commits_blocked h (requests s) = waiting (state (tracker s) h).
Section Blocking.
Context {order : HashOrder} {connection : Connection}.
Lemma block_calm s s' : Calm s s' -> BlockInv s -> BlockInv s'.
Proof. intros Hc Hs h. by rewrite (ca_blocked _ _ Hc), (ca_tracker _ _ Hc). Qed.
Lemma block_tracker t s : (forall h, waiting (state t h) = waiting (state (tracker s) h)) -> BlockInv s -> BlockInv (with_tracker t s).
Proof. intros Ht Hs h. cbn [requests tracker with_tracker]. by rewrite Ht. Qed.
Lemma block_set_state h x s :
  waiting x = waiting (state (tracker s) h) -> BlockInv s -> BlockInv (with_tracker (set_state h x (tracker s)) s).
Proof.
  intros Hx. apply block_tracker. intros h'. rewrite state_set_state. by destruct (decide (h' = h)) as [->|].
Qed.
Lemma block_queue h g f e s : BlockInv s -> BlockInv (with_tracker (queue_desired_for_epoch h g f e (tracker s)).1 s).
Proof. apply block_tracker. intros h'. unfold queue_desired_for_epoch. by destruct (decide _). Qed.
Lemma block_merge h x y s : BlockInv s -> BlockInv (with_tracker (merge_desired_position h x y (tracker s)).1 s).
Proof. apply block_tracker. intros h'. unfold merge_desired_position. by destruct (desired _ !! h). Qed.
Lemma blocked_clear_alarm h h' s : commits_blocked h' (requests (clear_resize_sync_alarm h s)) = commits_blocked h' (requests s).
Proof. cbn [requests clear_resize_sync_alarm with_log with_alarms]. by rewrite commits_blocked_app, blocked_destroys. Qed.
Lemma block_clear_alarm h s : BlockInv s -> BlockInv (clear_resize_sync_alarm h s).
Proof. intros Hs h'. by rewrite blocked_clear_alarm. Qed.
Lemma block_ack h v s : BlockInv s -> BlockInv (note_resize_sync_ack h v s).
Proof.
  intros Hs. unfold note_resize_sync_ack. destruct (acknowledge _ _ _) as [t []] eqn:E.
  - eapply block_calm; [apply Calm_report|]. unfold acknowledge in E. destruct (states _ !! h) as [[]|] eqn:E'; try done.
    destruct (_ =? _); [|done]. simplify_eq. apply block_set_state; [|done]. by rewrite (state_states _ _ _ E').
  - destruct (_ && _); [|done]. apply block_clear_alarm. by apply block_tracker.
Qed.
Lemma block_note_commit h serial q s : ResizeInv s -> BlockInv s -> BlockInv (with_tracker (note_commit h serial q (tracker s)).1 s).
Proof.
  intros Hi Hs. pose proof (proj2 Hi h) as Hh. unfold view_ok in Hh. cbn in Hh. unfold note_commit.
  destruct (state (tracker s) h) eqn:E; cbn; rewrite ?with_tracker_id; try done.
  destruct (_ && _); cbn; [|by rewrite with_tracker_id]. apply block_set_state; by rewrite ?E.
Qed.
Lemma block_window_commit e h s r : ResizeInv s -> BlockInv s -> BlockInv (note_window_commit e h (s, r)).1.
Proof.
  intros Hi Hs. pose proof (block_note_commit h (ce_serial e) (ce_sequence e) s Hi Hs) as Hn. unfold note_window_commit.
  destruct (note_commit _ _ _ _) as [t res]. cbn [fst] in Hn.
  destruct res; cbn -[report]; try done; destruct (transactions t !! h); cbn -[report]; try done;
    (eapply block_calm; [apply Calm_report|done]).
Qed.
Lemma block_window_commits e hs acc :
  ResizeInv acc.1 -> BlockInv acc.1 -> BlockInv (fold_left (fun acc h => note_window_commit e h acc) hs acc).1.
Proof.
  revert acc. induction hs as [|h hs IH]; intros [s r] Hi Hs; [done|]. cbn [fold_left].
  apply IH; [by apply inv_window_commit|by apply block_window_commit].
Qed.
Lemma block_process_commit m s e : ResizeInv s -> BlockInv s -> BlockInv (process_commit m s e).
Proof.
  intros Hi Hs. unfold process_commit. set (hs := filter _ _).
  pose proof (block_window_commits e hs (s, bool_decide (hs = [])) Hi Hs) as Hf. destruct (fold_left _ _ _) as [s' []]; [|done].
  eapply block_calm; [apply Calm_commits|done].
Qed.
Lemma block_process_pending m s : ResizeInv s -> BlockInv s -> BlockInv (process_pending_resize_commits m s).
Proof.
  intros Hi Hs. unfold process_pending_resize_commits.
  assert (H0 : Calm s (with_log [] (resize_events s) (requests s) s)) by apply Calm_commits.
  apply (block_calm _ _ H0) in Hs. apply (Calm_inv _ _ H0) in Hi. clear H0.
  revert Hi Hs. generalize (with_log [] (resize_events s) (requests s) s). generalize (buffer_ready_commits s).
  induction l as [|e l IH]; intros s' Hi Hs'; [done|]. cbn [fold_left]. apply IH; [by apply inv_process_commit|by apply block_process_commit].
Qed.
(** Commits let through, with the state that says so. *)
Lemma block_release h s t :
  (forall h', h' <> h -> state t h' = state (tracker s) h') -> waiting (state t h) = false ->
  BlockInv s -> BlockInv (with_tracker t (send (AllowCommits h true) s)).
Proof.
  intros Hn Hw Hs h'. cbn [requests tracker with_tracker send with_log]. rewrite commits_blocked_snoc. cbn.
  destruct (decide (h = h')) as [<-|]; [done|]. by rewrite Hn by done.
Qed.
Lemma block_release_commits m ok h c serial floor s :
  ResizeInv s -> BlockInv s -> BlockInv (release_resize_commits m ok true h c serial floor s).1.
Proof.
  intros Hi Hs. unfold release_resize_commits. destruct (state (tracker s) h) eqn:E; try done.
  destruct (negb _) eqn:Ec; [done|]. apply negb_false_iff, Z.eqb_eq in Ec as ->.
  destruct (negb _); [done|]. destruct (negb _); [done|]. cbn [negb].
  assert (Es : states (tracker s) !! h = Some (AckObserved c deadline_ns)) 
    by (unfold state in E; destruct (states (tracker s) !! h) as [x|]; cbn in E; [by rewrite E|done]).
  unfold release_commits. change (tracker (send _ s)) with (tracker s). rewrite Es, Z.eqb_refl. cbn [fst].
  apply block_process_pending.
  - apply inv_send_commits with (h := h) (b := true) in Hi. change (tracker s) with (tracker (send (AllowCommits h true) s)).
    apply inv_set_state; [..|done]; change (tracker (send _ s)) with (tracker s); by rewrite ?E.
  - apply (block_release h); [..|done].
    + intros h' Hn. by rewrite state_set_state, decide_False.
    + by rewrite state_set_state, decide_True.
Qed.
Lemma state_tracked t h : state t h = (tracked t h).1.1.1.
Proof. done. Qed.
Lemma block_clear h s :
  (forall h', h' <> h -> commits_blocked h' (requests s) = waiting (state (tracker s) h')) -> commits_blocked h (requests s) = false ->
  BlockInv (clear_resize_sync h s).
Proof.
  intros Hs Hb h'. change (requests (clear_resize_sync h s)) with
    (requests (clear_resize_sync_alarm h (with_tracker (tracker_clear h (tracker s)) s))). rewrite blocked_clear_alarm.
  change (tracker (clear_resize_sync h s)) with (tracker_clear h (tracker s)). rewrite state_tracked, tracked_clear.
  destruct (decide (h' = h)) as [->|Hn]; [done|]. by apply Hs.
Qed.
Lemma started_spec ans h g v s :
  an_release ans = true ->
  (exists s', started ans h g v s = (with_last (<[h := g]> (last_resize_geometries s)) s', None) /\
     Calm (send (AllowCommits h false) s) s') \/
  exists s', started ans h g v s = (clear_resize_sync h (send (AllowCommits h true) s'), Some ConnectionLost) /\
     tracker s' = tracker s /\ forall h', h' <> h -> commits_blocked h' (requests s') = commits_blocked h' (requests s).
Proof.
  intros Hr. unfold started, start_requests. rewrite Hr. destruct (an_allow ans); cbn [negb]; [|right; by eexists].
  assert (Hb : forall h', h' <> h -> commits_blocked h' (requests (send (AllowCommits h false) s)) = commits_blocked h' (requests s)).
  { intros h' Hn. cbn [requests send with_log]. rewrite commits_blocked_snoc. cbn. by rewrite decide_False. }
  destruct (an_sync ans); cbn [negb]; [|right; by eexists].
  pose proof (Calm_send (SyncRequest h v) (send (AllowCommits h false) s) I) as C1.
  destruct (an_configure ans); cbn [negb].
  - left. eexists. split; [done|]. etransitivity; [exact C1|]. by apply Calm_send.
  - right. eexists. split; [done|]. split; [done|]. intros h' Hn. rewrite (ca_blocked _ _ C1). by apply Hb.
Qed.
Lemma block_start ans c h g counter dl final epoch s :
  fresh_alarm ans s -> an_release ans = true -> state (tracker s) h = Idle -> ResizeInv s -> BlockInv s ->
  BlockInv (start_resize_sync ans c h g counter dl final epoch s).1.
Proof.
  intros Hf Hr Ei Hi Hs. destruct (start_cases ans c h g counter dl final epoch s (proj1 Hi) Hf)
    as [(s' & e & -> & Hc & _)|(s0 & alarm & v & t & tx & Hc & _ & Ea & Eb & Et & ->)]; [by eapply block_calm|].
  destruct (begin_spec _ _ _ _ _ _ _ _ Eb) as (tx' & _ & _ & _ & _ & Ht). apply (block_calm _ _ Hc) in Hs.
  assert (Hq : forall h', commits_blocked h' (requests (begun alarm c v h tx t s0)) = commits_blocked h' (requests s0)).
  { intros h'. cbn [requests begun with_alarms with_tracker send with_log]. by rewrite commits_blocked_snoc. }
  assert (Hst : forall h', state t h' = if decide (h' = h) then ConfigureSent v dl else state (tracker s0) h').
  { intros h'. rewrite state_tracked, Ht. by destruct (decide _). }
  destruct (started_spec ans h g v (begun alarm c v h tx t s0) Hr) as [(s' & -> & Hc')|(s' & -> & E1 & E2)]; cbn [fst].
  - intros h'. cbn [requests tracker with_last with_windows]. rewrite (ca_blocked _ _ Hc'), (ca_tracker _ _ Hc').
    cbn [requests tracker send with_log begun with_alarms with_tracker]. rewrite commits_blocked_snoc. cbn [blocked_effect]. rewrite Hst.
    destruct (decide (h = h')) as [<-|Hn]; [by rewrite decide_True|]. rewrite decide_False by done. rewrite <- Hs. apply Hq.
  - apply block_clear.
    + intros h' Hn. cbn [requests tracker send with_log]. rewrite commits_blocked_snoc, E1. cbn [blocked_effect].
      rewrite decide_False by done. rewrite E2 by done. rewrite Hq, Hs. cbn [tracker begun with_alarms with_tracker].
      by rewrite Hst, decide_False.
    + cbn [requests send with_log]. rewrite commits_blocked_snoc. cbn. by rewrite decide_True.
Qed.
Lemma block_begin sc cap ans h g counter dl final epoch s :
  fresh_alarm ans s -> an_release ans = true -> ResizeInv s -> BlockInv s ->
  BlockInv (begin_resize_sync_for_epoch sc cap ans h g counter dl final epoch s).1.
Proof.
  intros Hf Hr Hi Hs. unfold begin_resize_sync_for_epoch. set (s1 := with_windows _ _ _ s).
  assert (C1 : Calm s s1) by apply Calm_windows. apply (Calm_inv _ _ C1) in Hi. apply (block_calm _ _ C1) in Hs.
  destruct sc as [c|]; [|eapply block_calm; [apply Calm_configure_immediate|done]].
  destruct (negb cap || _); [eapply block_calm; [apply Calm_configure_immediate|done]|].
  destruct (is_pending _ h) eqn:Ep; [by apply block_queue|]. destruct (decide _).
  { destruct final; [|done]. eapply block_calm; [apply Calm_report|done]. }
  apply block_start; [done..| |done|done]. apply dec_stable. intros Hn%is_pending_spec. congruence.
Qed.
Lemma block_ended h s : waiting (state (tracker s) h) = false -> BlockInv s -> BlockInv (ended h s).
Proof.
  intros Hw Hs h'. change (requests (ended h s)) with (requests (clear_resize_sync_alarm h (with_tracker (end_transaction h (tracker s)) s))).
  rewrite blocked_clear_alarm. change (tracker (ended h s)) with (take_desired h (end_transaction h (tracker s))).1.
  rewrite state_tracked, tracked_take. change (requests (with_tracker _ s)) with (requests s). rewrite Hs.
  pose proof (tracked_end h h' (tracker s)) as Ee. destruct (decide (h' = h)) as [->|Hn].
  - cbn [fst]. rewrite Hw, (state_tracked (end_transaction h (tracker s))), Ee. done.
  - by rewrite Ee.
Qed.
Lemma block_complete sc cap ans now h s :
  fresh_alarm ans s -> an_release ans = true -> ResizeInv s -> BlockInv s -> BlockInv (complete_resize_sync sc cap ans now h s).1.
Proof.
  intros Hf Hr Hi Hs. destruct (complete_cases sc cap ans now h s) as [->|[[c Ec] ->]]; [done|].
  assert (He : BlockInv (ended h s)) by (apply block_ended; [by rewrite Ec|done]).
  unfold followed. destruct (desired _ !! h) as [d|]; [|done]. destruct (decide _).
  - destruct (de_final d); [|done]. eapply block_calm; [apply Calm_report|done].
  - apply block_begin; [..|done]; [by apply fresh_ended|done|by apply inv_ended].
Qed.
Lemma block_given_up ans h c s : an_release ans = true -> BlockInv s -> BlockInv (given_up ans h c s).
Proof.
  intros Hr Hs. pose proof (tracked_given_up ans h c s) as Ht.
  assert (Er : requests (given_up ans h c s) = requests s ++ [AllowCommits h true]) by (unfold given_up; by rewrite Hr).
  intros h'. rewrite Er, commits_blocked_snoc, state_tracked, Ht. cbn [blocked_effect].
  destruct (decide (h = h')) as [<-|Hn]; [by rewrite decide_True|]. rewrite decide_False by done. apply Hs.
Qed.
Lemma block_time_out_window ans now h s : an_release ans = true -> BlockInv s -> BlockInv (time_out_window ans now h s).1.
Proof.
  intros Hr Hs. destruct (time_out_window_cases ans now h s) as [[_ ->]|(c & _ & Ec & ep & fo & ->)]; [done|].
  pose proof (block_given_up ans h c s Hr Hs) as Hg. cbv zeta. destruct (negb _); [done|].
  destruct (fallback_of h s) as [g|]; [|by eapply block_calm; [apply Calm_report|]].
  pose proof (Calm_configure_immediate (an_configure ans) h g false ep false (given_up ans h c s)) as Hc.
  destruct (configure_immediate _ _ _ _ _ _ _) as [s' []]; cbn -[report] in *; [by eapply block_calm|].
  eapply block_calm; [apply Calm_report|]. by eapply block_calm.
Qed.
Lemma block_time_out_windows ans now hs s : (forall h, an_release (ans h) = true) -> BlockInv s -> BlockInv (time_out_windows ans now hs s).1.
Proof.
  intros Hr. revert s. induction hs as [|h hs IH]; intros s Hs; [done|]. cbn. pose proof (block_time_out_window (ans h) now h s (Hr h) Hs) as Hg.
  destruct (time_out_window _ _ _ _) as [s' []]; [done|]. by apply IH.
Qed.
End Blocking.

(** ** Deadlines *)

(** The connection takes what giving up a resize sends. *)
Definition good (ans : Answers) : Prop := an_release ans = true /\ an_flush ans = true /\ an_configure ans = true.
Lemma immediate_succeeds h g final epoch rep s : (configure_immediate true h g final epoch rep s).2 = None.
Proof. unfold configure_immediate. by destruct (decide _). Qed.
Lemma immediate_blocked ok h' g final epoch rep s h :
  commits_blocked h (requests (configure_immediate ok h' g final epoch rep s).1) = commits_blocked h (requests s).
Proof. apply (ca_blocked _ _ (Calm_configure_immediate ok h' g final epoch rep s)). Qed.
Lemma time_out_window_other ans now h' s h :
  (h' = h -> expired now (state (tracker s) h) = false) -> let s' := (time_out_window ans now h' s).1 in
  state (tracker s') h = state (tracker s) h /\ commits_blocked h (requests s') = commits_blocked h (requests s).
Proof.
  intros Hx. destruct (time_out_window_cases ans now h' s) as [[E ->]|(c & Ex & Ec & ep & fo & ->)]; [done|].
  assert (h <> h') as Hn by (intros ->; rewrite Hx in Ex; done).
  assert (Hg : state (tracker (given_up ans h' c s)) h = state (tracker s) h /\
               commits_blocked h (requests (given_up ans h' c s)) = commits_blocked h (requests s)).
  { split; [rewrite state_tracked, tracked_given_up; by rewrite decide_False|]. unfold given_up. destruct (an_release ans); [|done].
    cbn [requests with_tracker with_counters send with_log]. rewrite commits_blocked_snoc. cbn. by rewrite decide_False. }
  cbv zeta. destruct (negb _); [done|]. destruct (fallback_of h' s) as [g|]; [|done].
  pose proof (Calm_configure_immediate (an_configure ans) h' g false ep false (given_up ans h' c s)) as Hc.
  destruct (configure_immediate _ _ _ _ _ _ _) as [s' []]; cbn [fst] in *;
    [|change (tracker (report ?e s')) with (tracker s'); change (requests (report ?e s')) with (requests s')];
    by rewrite (ca_tracker _ _ Hc), (ca_blocked _ _ Hc).
Qed.
Lemma time_out_window_good ans now h s : good ans -> (time_out_window ans now h s).2 = None.
Proof.
  intros (Hr & Hf & Hc). destruct (time_out_window_cases ans now h s) as [[_ ->]|(c & _ & _ & ep & fo & ->)]; [done|].
  rewrite Hr, Hf, Hc. cbv zeta. cbn [andb negb]. destruct (fallback_of h s) as [g|]; [|done].
  pose proof (immediate_succeeds h g false ep false (given_up ans h c s)) as Hn.
  by destruct (configure_immediate _ _ _ _ _ _ _) as [s' e]; cbn in Hn; subst e.
Qed.
Lemma time_out_windows_good ans now hs s : (forall h, h ∈ hs -> good (ans h)) -> (time_out_windows ans now hs s).2 = None.
Proof.
  revert s. induction hs as [|h hs IH]; intros s Hg; [done|]. cbn.
  pose proof (time_out_window_good (ans h) now h s (Hg h (list_elem_of_here _ _))) as E.
  destruct (time_out_window _ _ _ _) as [s' e]. cbn in E. subst e. apply IH. intros h' Hh'. apply Hg. by right.
Qed.
(** A resize that is overdue and given up without an error lets the commits
    of its window through. *)
Lemma time_out_window_releases ans now h s :
  expired now (state (tracker s) h) = true -> (time_out_window ans now h s).2 = None ->
  let s' := (time_out_window ans now h s).1 in state (tracker s') h = Idle /\ commits_blocked h (requests s') = false.
Proof.
  intros Hx. destruct (time_out_window_cases ans now h s) as [[E _]|(c & _ & _ & ep & fo & ->)]; [congruence|]. cbv zeta.
  destruct (an_release ans) eqn:Hr; [|done]. assert (Hg : state (tracker (given_up ans h c s)) h = Idle /\
    commits_blocked h (requests (given_up ans h c s)) = false).
  { split; [by rewrite state_tracked, tracked_given_up, decide_True|]. unfold given_up. rewrite Hr.
    cbn [requests with_tracker with_counters send with_log]. rewrite commits_blocked_snoc. cbn. by rewrite decide_True. }
  destruct (an_flush ans); [|done]. cbn [andb negb]. destruct (fallback_of h s) as [g|]; [|done].
  pose proof (Calm_configure_immediate (an_configure ans) h g false ep false (given_up ans h c s)) as Hq.
  destruct (configure_immediate _ _ _ _ _ _ _) as [s' []]; [done|]. intros _. cbn [fst] in *.
  change (tracker (report ?e s')) with (tracker s'). change (requests (report ?e s')) with (requests s').
  by rewrite (ca_tracker _ _ Hq), (ca_blocked _ _ Hq).
Qed.
Lemma time_out_windows_releases ans now hs s h :
  expired now (state (tracker s) h) = true /\ h ∈ hs \/ state (tracker s) h = Idle /\ commits_blocked h (requests s) = false ->
  (time_out_windows ans now hs s).2 = None -> commits_blocked h (requests (time_out_windows ans now hs s).1) = false.
Proof.
  revert s. induction hs as [|h' hs IH]; intros s Hh; cbn; [by destruct Hh as [[_ []%not_elem_of_nil]|[]]|].
  assert (Hnext : (time_out_window (ans h') now h' s).2 = None -> let s' := (time_out_window (ans h') now h' s).1 in
    expired now (state (tracker s') h) = true /\ h ∈ hs \/ state (tracker s') h = Idle /\ commits_blocked h (requests s') = false).
  { intros Ee. destruct Hh as [[Hx Hin]|[Hi Hb]].
    - destruct (decide (h' = h)) as [->|Hn]; [right; by apply time_out_window_releases|left].
      destruct (time_out_window_other (ans h') now h' s h) as [E1 _]; [done|]. rewrite E1. split; [done|].
      apply elem_of_cons in Hin as [->|]; done.
    - right. destruct (time_out_window_other (ans h') now h' s h) as [E1 E2]; [by rewrite Hi|]. by rewrite E1, E2. }
  destruct (time_out_window _ _ _ _) as [s' [e|]]; [done|]. apply IH. by apply Hnext.
Qed.
Section Deadlines.
Context {order : HashOrder}.
Lemma elem_of_expired now t h : h ∈ expired_handles now t <-> expired now (state t h) = true.
Proof.
  unfold expired_handles. rewrite list_elem_of_filter, elem_of_hash_keys. split; [by intros []|]. intros E. split; [done|].
  unfold state in E. by destruct (states t !! h).
Qed.
End Deadlines.
(** The alarm clock of the event loop rings no later than any deadline. *)
Lemma next_deadline_earliest t h d :
  deadline_of (state t h) = Some d -> exists m, next_deadline_ns t = Some m /\ m <= d.
Proof.
  unfold state. destruct (states t !! h) as [x|] eqn:E; cbn; [|done]. revert E. unfold next_deadline_ns.
  apply (map_fold_weak_ind (fun acc m => forall x, m !! h = Some x -> deadline_of x = Some d -> exists k, acc = Some k /\ k <= d));
    [by intros ?; rewrite lookup_empty|].
  clear x. intros h' x m acc _ IH y [[-> ->]|[Hn E]]%lookup_insert_Some Ed.
  - rewrite Ed. destruct acc; eexists; (split; [done|lia]).
  - destruct (IH y E Ed) as (k & -> & Hk). destruct (deadline_of x); eexists; (split; [done|lia]).
Qed.

Section Connected.
Context {order : HashOrder} {connection : Connection} (generation : Z).
(** The connection takes what lets commits through, no window whose commits
    are held back is forgotten, and the compositor does not override what the
    resize of a window says of its commits. *)
Definition step_connected (a : ResizeStep) (s : Resizes) : Prop :=
  match a with
  | Begin _ _ ans _ _ _ _ _ _ | Complete _ _ ans _ _ => an_release ans = true
  | Release _ _ flushed _ _ _ _ => flushed = true
  | Deadline ans _ => forall h, an_release (ans h) = true
  | Clear h => commits_blocked h (requests s) = false
  | ClearGeneration g => forall h, handle_generation h = g -> commits_blocked h (requests s) = false
  | SetAllowCommits ok h allowed => ok = true -> allowed = negb (waiting (state (tracker s) h))
  | _ => True
  end.
Inductive resizes_connected : Resizes -> Prop :=
| connected_start : resizes_connected resizes_new
| connected_next a s : resizes_connected s -> step_fresh a s -> step_connected a s ->
    resizes_connected (resize_step generation a s).1.
Lemma blocked_clear_alarms hs s h :
  commits_blocked h (requests (fold_left (fun s h => clear_resize_sync_alarm h s) hs s)) = commits_blocked h (requests s).
Proof. revert s. induction hs as [|h' hs IH]; intros s; [done|]. cbn [fold_left]. by rewrite IH, blocked_clear_alarm. Qed.
Lemma block_clear_generation g s :
  (forall h, handle_generation h = g -> commits_blocked h (requests s) = false) -> ResizeInv s -> BlockInv s ->
  BlockInv (clear_resize_sync_generation g s).
Proof.
  intros Hg Hi Hs h. unfold clear_resize_sync_generation. set (hs := remove_dups _). set (s1 := with_windows _ _ _ _).
  assert (Ha : AlarmInv s1) by (destruct (proj1 Hi); by split). destruct (clear_alarms hs s1 Ha) as (_ & H2 & _ & _).
  cbn [requests tracker with_alarms]. rewrite blocked_clear_alarms, H2, state_tracked. change (tracker s1) with (tracker_clear_generation g (tracker s)).
  rewrite tracked_clear_generation. destruct (decide _); [by apply Hg|apply Hs].
Qed.
Lemma block_step a s :
  step_fresh a s -> step_connected a s -> ResizeInv s -> BlockInv s -> BlockInv (resize_step generation a s).1.
Proof.
  intros Hf Hc Hi Hs. destruct a; cbn [resize_step fst step_connected step_fresh] in *.
  - by apply block_begin.
  - destruct (configure_cases ok h g fields epoch s) as [[Hp ->]|[[Hp C]|C]]; [by apply block_queue| |by eapply block_calm].
    eapply block_calm; [exact C|]. by apply block_merge.
  - eapply block_calm; [apply Calm_configure_frame|done].
  - unfold note_sync_alarm_notify. destruct (_ !! alarm); [|done]. destruct (_ && _); [|done]. by apply block_ack.
  - unfold note_sync_counter_notify. destruct (_ !! counter); [|done]. by apply block_ack.
  - unfold mark_surface_commit_observed. destruct (negb _); [done|].
    apply block_process_pending; [eapply Calm_inv; [apply Calm_commits|done]|eapply block_calm; [apply Calm_commits|done]].
  - by apply block_process_pending.
  - subst. by apply block_release_commits.
  - by apply block_complete.
  - by apply block_time_out_windows.
  - apply block_clear; [intros h' _; apply Hs|done].
  - by apply block_clear_generation.
  - eapply block_calm; [apply Calm_reset|done].
  - eapply block_calm; [apply Calm_initialize|done].
  - unfold command_set_allow_commits. destruct ok; [|done]. intros h'. cbn [requests tracker send with_log fst].
    rewrite commits_blocked_snoc. cbn [blocked_effect]. destruct (decide (h = h')) as [<-|]; [|by apply Hs].
    rewrite (Hc eq_refl). apply negb_involutive.
  - eapply block_calm; [apply Calm_clear_surface|done].
Qed.
Lemma connected_inv s : resizes_connected s -> ResizeInv s /\ BlockInv s.
Proof.
  induction 1 as [|a s Hr [Hi Hs] Hf Hc]; [split; [apply resizes_new_inv|done]|]. split; [by apply inv_step|by apply block_step].
Qed.
End Connected.

(** ** Theorems *)

(** C10: Over every history of resizes, in which the identifier of a new alarm is
    one no alarm of the server has, the alarms that exist on the server are
    exactly those the window manager has bound and, apart from these, those
    whose destruction the connection did not take, a failure the code
    ignores; so they are exactly the bound ones when every destruction was
    taken. A window has a transaction exactly while its resize is in
    progress, and an alarm then; a geometry waits only behind a resize in
    progress; and every bound alarm belongs to its window and to the resize
    in progress there, or to the one that was given up and whose late answer
    it awaits. *)
Theorem resize_sync_invariant `{HashOrder, Connection} generation s :
  resizes_reach generation s ->
  live_alarms (requests s) = dom (sync_alarm_bindings s) ∪ refused_alarms (requests s) /\
  dom (sync_alarm_bindings s) ## refused_alarms (requests s) /\
  (forall h, is_pending (tracker s) h = true <-> is_Some (transactions (tracker s) !! h)) /\
  (forall h, is_pending (tracker s) h = true -> is_Some (sync_alarms s !! h)) /\
  (forall h, is_Some (desired (tracker s) !! h) -> is_pending (tracker s) h = true) /\
  (forall a b, sync_alarm_bindings s !! a = Some b ->
     sync_alarms s !! bd_handle b = Some a /\
     (tx_id <$> transactions (tracker s) !! bd_handle b = Some (bd_transaction_id b) /\
      counter_value_of (state (tracker s) (bd_handle b)) = Some (bd_counter_value b) \/
      transactions (tracker s) !! bd_handle b = None /\ bd_handle b ∈ sync_disabled (tracker s) /\
      timed_out_resize_counters s !! bd_handle b = Some (bd_counter_value b))).
Proof.
  intros [[H1 H2 [H3 H4]] Hv]%reach_inv. split_and!; [done|done|intros h; specialize (Hv h)..|].
  - rewrite is_pending_spec. unfold view_ok in Hv. cbn in Hv. destruct (state (tracker s) h); try done.
    1: destruct Hv as (-> & _); split; [done|by intros []].
    all: destruct Hv as (_ & tx & b & -> & _); split; [by eexists|done].
  - rewrite is_pending_spec. unfold view_ok, binding_of in Hv. cbn in Hv. unfold binding_of in Hv.
    destruct (sync_alarms s !! h); [done|]. cbn in Hv. destruct (state (tracker s) h); try done.
    all: by destruct Hv as (_ & tx & b & _ & Eb & _).
  - rewrite is_pending_spec. unfold view_ok in Hv. cbn in Hv. destruct (state (tracker s) h); try done.
    destruct Hv as (_ & -> & _). by intros [].
  - intros a b Eb. destruct (H2 a b Eb) as (_ & _ & Ea). split; [done|]. specialize (Hv (bd_handle b)).
    unfold view_ok in Hv. cbn in Hv. unfold binding_of in Hv. rewrite Ea in Hv. cbn in Hv. rewrite Eb in Hv.
    destruct (state (tracker s) (bd_handle b)); try done.
    1: right; destruct Hv as (E1 & _ & E2); destruct (E2 b) as [E3%bool_decide_eq_true E4]; done.
    all: left; destruct Hv as (_ & tx & b' & E1 & [= <-] & E2 & E3); rewrite E1; split; [exact (f_equal Some E2)|exact E3].
Qed.

(** C32: In every history in which the connection takes the requests that let
    commits through when a start failed, a deadline passed or a window was
    released, no window that is held back is cleared, and no SetAllowCommits
    of the compositor that is taken contradicts the resize of its window, the
    server holds back the commits of a window exactly from the start of a
    resize until it is released. Such a window has a deadline, and the event
    loop wakes up by then. Handling the deadlines at that time or later,
    whatever the client does, lets the commits of the window through if it
    reports no error; and it reports none if the connection takes what giving
    up the overdue resizes sends. *)
Theorem held_back_until_deadline `{HashOrder, Connection} generation s :
  resizes_connected generation s ->
  (forall h, commits_blocked h (requests s) = waiting (state (tracker s) h)) /\
  forall h, commits_blocked h (requests s) = true ->
    exists d m, deadline_of (state (tracker s) h) = Some d /\ next_deadline_ns (tracker s) = Some m /\ m <= d /\
      forall ans now, d <= now ->
        let '(s', e) := handle_resize_sync_deadline ans now s in
        (e = None -> commits_blocked h (requests s') = false) /\
        ((forall h', expired now (state (tracker s) h') = true -> good (ans h')) -> e = None).
Proof.
  intros [Hi Hs]%connected_inv. split; [exact Hs|]. intros h Hb. rewrite Hs in Hb.
  assert (exists d, deadline_of (state (tracker s) h) = Some d) as [d Ed] by (destruct (state (tracker s) h); naive_solver).
  destruct (next_deadline_earliest (tracker s) h d Ed) as (m & Em & Hm). exists d, m. split_and!; [done..|]. intros ans now Hn.
  assert (Hx : expired now (state (tracker s) h) = true) by (unfold expired; rewrite Ed; lia).
  unfold handle_resize_sync_deadline. set (hs := expired_handles now (tracker s)).
  pose proof (time_out_windows_releases ans now hs s h (or_introl (conj Hx (proj2 (elem_of_expired now (tracker s) h) Hx)))) as H1.
  pose proof (time_out_windows_good ans now hs s) as H2. destruct (time_out_windows _ _ _ _) as [s' e]. split; [exact H1|].
  intros Hg. apply H2. intros h' Hh'. by apply Hg, (elem_of_expired now (tracker s)).
Qed.

(** *** A resize that is forgotten *)

Lemma time_out_windows_other ans now hs s h :
  expired now (state (tracker s) h) = false -> commits_blocked h (requests (time_out_windows ans now hs s).1) = commits_blocked h (requests s).
Proof.
  revert s. induction hs as [|h' hs IH]; intros s Hx; [done|]. cbn. destruct (time_out_window_other (ans h') now h' s h (fun _ => Hx)) as [E1 E2].
  destruct (time_out_window _ _ _ _) as [s' []]; cbn in E1, E2; [done|]. rewrite IH; [done|]. by rewrite E1.
Qed.

(** C37: A window whose resize is cleared while its commits are held back (it is
    minimised, unmapped, or its synchronisation properties change) stays
    held back: the request that lets commits through is not sent, the resize
    and its deadline are gone, and no deadline handled later changes it. *)
Theorem forgotten_resize_stays_blocked `{HashOrder, Connection} s h :
  commits_blocked h (requests s) = true ->
  let s' := clear_resize_sync h s in
  commits_blocked h (requests s') = true /\ state (tracker s') h = Idle /\
  forall ans now, commits_blocked h (requests (handle_resize_sync_deadline ans now s').1) = true.
Proof.
  intros Hb. cbv zeta. assert (Hi : state (tracker (clear_resize_sync h s)) h = Idle).
  { change (tracker (clear_resize_sync h s)) with (tracker_clear h (tracker s)). by rewrite state_tracked, tracked_clear, decide_True. }
  assert (Hr : commits_blocked h (requests (clear_resize_sync h s)) = true).
  { change (requests (clear_resize_sync h s)) with
      (requests (clear_resize_sync_alarm h (with_tracker (tracker_clear h (tracker s)) s))). by rewrite blocked_clear_alarm. }
  split_and!; [done..|]. intros ans now. unfold handle_resize_sync_deadline. rewrite time_out_windows_other; [done|]. by rewrite Hi.
Qed.

(** ** Witnesses *)

Definition demo_window : Z := handle_new 1 7.
Definition demo_answers (alarm : Z) : Answers := mkAnswers true (Some alarm) true true true true true true.
Definition demo_begin (alarm width : Z) (final : bool) : ResizeStep :=
  Begin (Some 50) true (demo_answers alarm) demo_window (mkGeo 0 0 width 600) 0 1000 final None.
(** A resize is started, another waits, and the client answers. *)
Definition demo_resizing : Resizes :=
  (resize_step 1 (order := list_order) (connection := steady) (AlarmNotify 900 1)
     (resize_step 1 (order := list_order) (connection := steady) (demo_begin 901 820 true)
        (resize_step 1 (order := list_order) (connection := steady) (demo_begin 900 810 false) resizes_new).1).1).1.
Lemma demo_resizing_connected : resizes_connected (order := list_order) (connection := steady) 1 demo_resizing.
Proof.
  unfold demo_resizing. repeat (apply connected_next; [|vm_compute; done|vm_compute; done]). apply connected_start.
Qed.
(** The resize is released and presented over a connection that has failed:
    its alarm stays on the server. *)
Definition demo_associated : gmap Z AssociatedSurface := {[demo_window := mkAssociated 1 9 3 1]}.
Definition demo_leak : list ResizeStep :=
  [demo_begin 900 810 false; AlarmNotify 900 1; Release demo_associated true true demo_window 1 9 4;
   CommitObserved demo_associated (mkCommit 1 3 9 5); Complete (Some 50) true (demo_answers 901) 2000 demo_window;
   demo_begin 902 830 true].
Definition demo_leaked : Resizes :=
  fold_left (fun s a => (resize_step (order := list_order) (connection := failing) 1 a s).1) demo_leak resizes_new.
Lemma demo_leaked_reach : resizes_reach (order := list_order) (connection := failing) 1 demo_leaked.
Proof.
  unfold demo_leaked, demo_leak. cbn [fold_left]. repeat (apply resizes_next; [|vm_compute; done]). apply resizes_start.
Qed.
Lemma resize_sync_invariant_witness :
  refused_alarms (requests demo_leaked) = {[900]} /\
  live_alarms (requests demo_leaked) = dom (sync_alarm_bindings demo_leaked) ∪ refused_alarms (requests demo_leaked).
Proof.
  split; [vm_compute; reflexivity|].
  apply (resize_sync_invariant (H := list_order) (H0 := failing) 1 demo_leaked demo_leaked_reach).
Defined.
Lemma held_back_until_deadline_witness :
  commits_blocked demo_window (requests demo_resizing) = true /\
  exists d m, deadline_of (state (tracker demo_resizing) demo_window) = Some d /\ next_deadline_ns (tracker demo_resizing) = Some m /\ m <= d /\
    forall ans now, d <= now ->
      let '(s', e) := handle_resize_sync_deadline (order := list_order) ans now demo_resizing in
      (e = None -> commits_blocked demo_window (requests s') = false) /\
      ((forall h', expired now (state (tracker demo_resizing) h') = true -> good (ans h')) -> e = None).
Proof.
  split; [vm_compute; reflexivity|].
  apply (proj2 (held_back_until_deadline (H := list_order) (H0 := steady) 1 demo_resizing demo_resizing_connected)). vm_compute; reflexivity.
Defined.
Lemma forgotten_resize_stays_blocked_witness :
  commits_blocked demo_window (requests (clear_resize_sync (order := list_order) (connection := steady) demo_window demo_resizing)) = true.
Proof. apply (forgotten_resize_stays_blocked (H := list_order) (H0 := steady) demo_resizing demo_window). vm_compute; reflexivity. Defined.
