(* ===== verification/ResizeConvergence.v ===== *)
(** * ResizeConvergence: the last geometry asked for is the one a window gets

    Resizes of ResizeSync.v are coalesced: while one is in progress only the
    newest of those that follow waits, and one that changes nothing is not
    sent. This file proves that nothing is lost by that. It follows the
    requests for one window through the histories of ResizeHistory.v and
    compares them with the geometry the server was last told. A plain
    configure between resizes is not covered, and the last theorem shows why. *)

From stdpp Require Import base list option gmap fin_maps.
From Stdlib Require Import ZArith Lia.
From S2P Require Import Prelude ConfigureTimeline AssociationJoin ResizeSync ResizeHistory.
Local Open Scope Z_scope.

(** ** What matters for the geometry of a window *)

Record Geo : Type := mkGeoView {
  gv_pending : bool; gv_tx : option ResizeSyncTransaction; gv_desired : option ResizeSyncDesired;
  gv_last : option X11Geometry; gv_configured : option X11Geometry
}.
Definition geo (s : Resizes) (h : Z) : Geo :=
  mkGeoView (is_pending (tracker s) h) (transactions (tracker s) !! h) (desired (tracker s) !! h)
    (last_resize_geometries s !! h) (last_configured h (requests s)).
Lemma geo_tracker t s h :
  geo (with_tracker t s) h =
  mkGeoView (is_pending t h) (transactions t !! h) (desired t !! h) (last_resize_geometries s !! h) (last_configured h (requests s)).
Proof. done. Qed.
Lemma is_pending_tracked t t' h : tracked t' h = tracked t h -> is_pending t' h = is_pending t h.
Proof. intros E. unfold is_pending. by rewrite !state_tracked, E. Qed.
Lemma geo_tracked t s h : tracked t h = tracked (tracker s) h -> geo (with_tracker t s) h = geo s h.
Proof. intros E. rewrite geo_tracker, (is_pending_tracked _ _ _ E). unfold tracked in E. unfold geo. congruence. Qed.
Lemma geo_still s s' h : tracker s' = tracker s -> Still s s' -> geo s' h = geo s h.
Proof. intros E [E1 E2]. unfold geo. by rewrite E, E1, E2. Qed.
Lemma geo_send r s h : configured_effect h (last_configured h (requests s)) r = last_configured h (requests s) -> geo (send r s) h = geo s h.
Proof. intros E. unfold geo. cbn [requests send with_log tracker last_resize_geometries]. by rewrite last_configured_snoc, E. Qed.
Lemma geo_set_state h' x s h :
  (h' = h -> is_pending (tracker s) h = true /\ x <> Idle) -> geo (with_tracker (set_state h' x (tracker s)) s) h = geo s h.
Proof.
  intros Hx. destruct (decide (h = h')) as [->|Hn]; [|by apply geo_tracked, elsewhere_set_state].
  destruct (Hx eq_refl) as [Hp Hi]. rewrite geo_tracker. unfold geo. rewrite Hp. f_equal. apply is_pending_spec.
  by rewrite state_set_state, decide_True.
Qed.

(** ** Calls that do not concern the window *)

Lemma geo_acknowledge h' v s t h : acknowledge h' v (tracker s) = (t, true) -> geo (with_tracker t s) h = geo s h.
Proof.
  unfold acknowledge. destruct (states _ !! h') as [[]|] eqn:E; try done. destruct (_ =? _); [|done]. intros [= <-].
  apply geo_set_state. intros <-. split; [|done]. apply is_pending_spec. by rewrite (state_states _ _ _ E).
Qed.
Lemma geo_release h' c serial floor s t h :
  release_commits h' c serial floor (tracker s) = (t, true) -> geo (with_tracker t s) h = geo s h.
Proof.
  unfold release_commits. destruct (states _ !! h') as [[]|] eqn:E; try done. destruct (_ =? _); [|done]. intros [= <-].
  apply geo_set_state. intros <-. split; [|done]. apply is_pending_spec. by rewrite (state_states _ _ _ E).
Qed.
Lemma geo_note_commit h' serial q s h : geo (with_tracker (note_commit h' serial q (tracker s)).1 s) h = geo s h.
Proof.
  unfold note_commit. destruct (state (tracker s) h') eqn:E; cbn; rewrite ?with_tracker_id; try done; [destruct (_ && _); cbn; [|by rewrite with_tracker_id]|];
    apply geo_set_state; intros <-; (split; [|done]); apply is_pending_spec; by rewrite E.
Qed.
Section Elsewhere.
Context {order : HashOrder} {connection : Connection}.
Lemma still_clear_alarm h' s : last_resize_geometries (clear_resize_sync_alarm h' s) = last_resize_geometries s /\
  forall h, last_configured h (requests (clear_resize_sync_alarm h' s)) = last_configured h (requests s).
Proof.
  split; [done|]. intros h. cbn [requests clear_resize_sync_alarm with_log with_alarms].
  by rewrite last_configured_app, configured_destroys.
Qed.
Lemma geo_clear_alarm h' s h : geo (clear_resize_sync_alarm h' s) h = geo s h.
Proof. apply geo_still; [done|]. apply still_clear_alarm. Qed.
Lemma geo_ack h' v s h : geo (note_resize_sync_ack h' v s) h = geo s h.
Proof.
  unfold note_resize_sync_ack. destruct (acknowledge _ _ _) as [t []] eqn:E; [by rewrite <- (geo_acknowledge _ _ _ _ h E)|].
  destruct (_ && _); [|done]. by rewrite geo_clear_alarm.
Qed.
Lemma geo_window_commits e hs acc h : geo (fold_left (fun acc h => note_window_commit e h acc) hs acc).1 h = geo acc.1 h.
Proof.
  revert acc. induction hs as [|h' hs IH]; intros [s r]; [done|]. cbn [fold_left]. rewrite IH. cbn [fst].
  pose proof (geo_note_commit h' (ce_serial e) (ce_sequence e) s h) as Hn. unfold note_window_commit.
  destruct (note_commit _ _ _ _) as [t res]. cbn [fst] in Hn. rewrite <- Hn.
  destruct res; cbn -[report]; try done; by destruct (transactions t !! h').
Qed.
Lemma geo_process_pending m s h : geo (process_pending_resize_commits m s) h = geo s h.
Proof.
  unfold process_pending_resize_commits.
  assert (E : geo (with_log [] (resize_events s) (requests s) s) h = geo s h) by done. rewrite <- E. clear E.
  generalize (with_log [] (resize_events s) (requests s) s). generalize (buffer_ready_commits s).
  induction l as [|e l IH]; intros s'; [done|]. cbn [fold_left]. rewrite IH. unfold process_commit. set (hs := filter _ _).
  pose proof (geo_window_commits e hs (s', bool_decide (hs = [])) h) as Hf. by destruct (fold_left _ _ _) as [s1 []].
Qed.
Lemma geo_release_commits m ok fl h' c serial floor s h : geo (release_resize_commits m ok fl h' c serial floor s).1 h = geo s h.
Proof.
  assert (E : geo (send (AllowCommits h' true) s) h = geo s h) by by apply geo_send.
  unfold release_resize_commits. destruct (state (tracker s) h'); try done. do 3 (destruct (negb _); [done|]). destruct (negb _); [done|].
  destruct (release_commits _ _ _ _ _) as [t []] eqn:Er; [|done]. cbn [fst]. rewrite geo_process_pending. rewrite <- E.
  by eapply geo_release.
Qed.
Lemma geo_immediate ok h' g final epoch rep s h : h' <> h -> geo (configure_immediate ok h' g final epoch rep s).1 h = geo s h.
Proof.
  intros Hn. unfold configure_immediate. destruct (decide _); [by destruct final|]. destruct ok; cbn [negb]; [|done].
  unfold geo. destruct final, rep; cbn -[last_configured is_pending]; rewrite last_configured_snoc, lookup_insert_ne by done; cbn [configured_effect];
    by rewrite decide_False.
Qed.
Lemma geo_queue h' g f e s h : h' <> h -> geo (with_tracker (queue_desired_for_epoch h' g f e (tracker s)).1 s) h = geo s h.
Proof.
  intros Hn. apply geo_tracked. unfold queue_desired_for_epoch. destruct (decide _); [done|]. apply (elsewhere_desired h'); [|done].
  intros h2 H2. by rewrite lookup_insert_ne.
Qed.
Lemma geo_clear h' s h : h' <> h -> geo (clear_resize_sync h' s) h = geo s h.
Proof.
  intros Hn. pose proof (geo_clear_alarm h' (with_tracker (tracker_clear h' (tracker s)) s) h) as E.
  rewrite geo_tracked in E by (rewrite tracked_clear, decide_False; done). rewrite <- E. unfold geo.
  cbn [last_resize_geometries clear_resize_sync with_windows]. by rewrite lookup_delete_ne.
Qed.
End Elsewhere.

(** ** Starting a resize *)

Section Starting.
Context {order : HashOrder} {connection : Connection}.
Lemma geo_begun alarm c v h' dl g final epoch t tx s h :
  h' <> h -> begin_transaction_for_epoch h' v dl g final epoch (tracker s) = Ret t -> geo (begun alarm c v h' tx t s) h = geo s h.
Proof.
  intros Hn (tx' & _ & _ & _ & _ & Ht)%begin_spec. specialize (Ht h). rewrite decide_False in Ht by done.
  transitivity (geo (with_tracker t s) h); [|by apply geo_tracked]. unfold geo.
  cbn [requests tracker last_resize_geometries begun with_alarms with_tracker send with_log]. by rewrite last_configured_snoc.
Qed.
(** The requests of a start that succeeded, and of one that did not. *)
Lemma started_geo ans h' g v s h :
  (exists s', started ans h' g v s = (with_last (<[h' := g]> (last_resize_geometries s)) s', None) /\
     tracker s' = tracker s /\ last_configured h (requests s') = if decide (h' = h) then Some g else last_configured h (requests s)) \/
  (exists s', started ans h' g v s = (clear_resize_sync h' s', Some ConnectionLost) /\ geo s' h = geo s h).
Proof.
  unfold started, start_requests.
  assert (Hr : forall s1, geo s1 h = geo s h -> geo (if an_release ans then send (AllowCommits h' true) s1 else s1) h = geo s h).
  { intros s1 E. destruct (an_release ans); [|done]. rewrite <- E. by apply geo_send. }
  assert (E1 : geo (send (AllowCommits h' false) s) h = geo s h) by (by apply geo_send).
  assert (E2 : geo (send (SyncRequest h' v) (send (AllowCommits h' false) s)) h = geo s h) by (rewrite <- E1; by apply geo_send).
  destruct (an_allow ans); cbn [negb]; [|right; eexists; split; [reflexivity|by apply Hr]].
  destruct (an_sync ans); cbn [negb]; [|right; eexists; split; [reflexivity|by apply Hr]].
  destruct (an_configure ans); cbn [negb]; [|right; eexists; split; [reflexivity|by apply Hr]].
  left. eexists. split; [reflexivity|]. split; [done|]. cbn [requests send with_log]. rewrite !last_configured_snoc. done.
Qed.
Lemma geo_start ans c h' g counter dl final epoch s h :
  h' <> h -> AlarmInv s -> fresh_alarm ans s -> geo (start_resize_sync ans c h' g counter dl final epoch s).1 h = geo s h.
Proof.
  intros Hn Ha Hf. destruct (start_cases ans c h' g counter dl final epoch s Ha Hf)
    as [(s' & e & -> & Hc & Hst)|(s0 & alarm & v & t & tx & Hc & Hst & _ & Eb & _ & ->)]; [by apply geo_still; [destruct Hc|]|].
  assert (E0 : geo s0 h = geo s h) by (apply geo_still; [by destruct Hc|done]).
  pose proof (geo_begun alarm c v h' dl g final epoch t tx s0 h Hn Eb) as E1. set (s1 := begun alarm c v h' tx t s0) in *.
  rewrite <- E0, <- E1. destruct (started_geo ans h' g v s1 h) as [(s' & -> & E2 & E3)|(s' & -> & E2)]; cbn [fst].
  - unfold geo. cbn [tracker requests last_resize_geometries with_last with_windows]. rewrite E2, E3, decide_False by done.
    by rewrite lookup_insert_ne.
  - by rewrite geo_clear.
Qed.
Lemma geo_begin sc cap ans h' g counter dl final epoch s h :
  h' <> h -> AlarmInv s -> fresh_alarm ans s ->
  geo (begin_resize_sync_for_epoch sc cap ans h' g counter dl final epoch s).1 h = geo s h.
Proof.
  intros Hn Ha Hf. unfold begin_resize_sync_for_epoch. set (s1 := with_windows _ _ _ s).
  assert (E1 : geo s1 h = geo s h) by done. assert (H1 : AlarmInv s1) by by destruct Ha. rewrite <- E1.
  destruct sc as [c|]; [|by apply geo_immediate]. destruct (negb cap || _); [by apply geo_immediate|].
  destruct (is_pending _ h'); [by apply geo_queue|]. destruct (decide _); [by destruct final|]. by apply geo_start.
Qed.
Lemma geo_ended h' s h :
  geo (ended h' s) h = if decide (h = h') then mkGeoView false None None (gv_last (geo s h)) (gv_configured (geo s h)) else geo s h.
Proof.
  unfold ended. set (s1 := clear_resize_sync_alarm h' _).
  assert (Ht : tracker s1 = end_transaction h' (tracker s)) by done.
  destruct (still_clear_alarm h' (with_tracker (end_transaction h' (tracker s)) s)) as [E1 E2]. fold s1 in E1, E2.
  rewrite geo_tracker, E1, E2, Ht.
  pose proof (tracked_take h' h (end_transaction h' (tracker s))) as Et. pose proof (tracked_end h' h (tracker s)) as Ee.
  destruct (decide (h = h')) as [->|Hn].
  - unfold is_pending. rewrite state_tracked, Et. cbn [fst]. rewrite (state_tracked (end_transaction _ _)), Ee. cbn [fst].
    unfold tracked in Et, Ee. cbn [gv_last gv_configured geo]. rewrite bool_decide_true by done. simplify_eq. f_equal; congruence.
  - rewrite <- geo_tracker with (t := (take_desired h' (end_transaction h' (tracker s))).1) (s := s).
    apply geo_tracked. by rewrite Et, Ee.
Qed.
Lemma geo_complete sc cap ans now h' s h :
  h' <> h -> ResizeInv s -> fresh_alarm ans s -> geo (complete_resize_sync sc cap ans now h' s).1 h = geo s h.
Proof.
  intros Hn Hi Hf. destruct (complete_cases sc cap ans now h' s) as [->|[_ ->]]; [done|].
  assert (E : geo (ended h' s) h = geo s h) by (rewrite geo_ended, decide_False; done).
  unfold followed. destruct (desired _ !! h') as [d|]; [|done]. destruct (decide _).
  - by destruct (de_final d).
  - rewrite geo_begin; [done..|by apply inv_ended|]. by apply fresh_ended.
Qed.
Lemma geo_given_up ans h' c s h :
  geo (given_up ans h' c s) h = if decide (h = h') then mkGeoView false None None (gv_last (geo s h)) (gv_configured (geo s h)) else geo s h.
Proof.
  pose proof (tracked_given_up ans h' c s h) as Et.
  assert (E1 : last_resize_geometries (given_up ans h' c s) = last_resize_geometries s) by (unfold given_up; by destruct (an_release ans)).
  assert (E2 : last_configured h (requests (given_up ans h' c s)) = last_configured h (requests s)).
  { unfold given_up. destruct (an_release ans); [|done]. cbn [requests with_tracker with_counters send with_log].
    by rewrite last_configured_snoc. }
  destruct (decide (h = h')) as [->|Hn].
  - unfold geo, is_pending. rewrite E1, E2, state_tracked, Et. cbn [fst gv_last gv_configured]. rewrite bool_decide_true by done.
    unfold tracked in Et. f_equal; congruence.
  - rewrite <- (geo_tracked (tracker (given_up ans h' c s)) s h Et), geo_tracker, <- E1, <- E2. done.
Qed.
Lemma geo_time_out_window ans now h' s h : h' <> h -> geo (time_out_window ans now h' s).1 h = geo s h.
Proof.
  intros Hn. destruct (time_out_window_cases ans now h' s) as [[_ ->]|(c & _ & _ & ep & fo & ->)]; [done|].
  assert (E : geo (given_up ans h' c s) h = geo s h) by (rewrite geo_given_up, decide_False; done).
  cbv zeta. destruct (negb _); [done|]. destruct (fallback_of h' s) as [g|]; [|done].
  pose proof (geo_immediate (an_configure ans) h' g false ep false (given_up ans h' c s) h Hn) as Hc.
  destruct (configure_immediate _ _ _ _ _ _ _) as [s' []]; cbn [fst] in *; rewrite <- E, <- Hc; done.
Qed.
End Starting.

(** ** Convergence *)

Section Convergence.
Context {order : HashOrder} {connection : Connection} (generation : Z).
(** The window that is followed. *)
Context (h : Z).

(** Errors after which a request may not have been carried out. *)
Definition fault (e : ResizeError) : bool :=
  match e with ConnectionLost | CounterTooWide | CounterExhausted | TrackerError _ | TransactionGone => true | _ => false end.
Definition failed (o : option ResizeError) : bool := match o with Some e => fault e | None => false end.
(** The window is configured by its resizes only, and the client and the
    server stay able to synchronise while a resize of it is in progress. *)
Definition step_followed (a : ResizeStep) (s : Resizes) : Prop :=
  match a with
  | Begin sc cap _ h' _ _ _ _ _ => h' = h -> is_pending (tracker s) h = true -> is_Some sc /\ cap = true
  | Configure _ h' _ _ _ | ConfigureFrame _ _ h' _ _ => h' <> h
  | _ => True
  end.
(** The geometry last asked for, unless the request failed or the resizes of
    the window were cleared since. *)
Definition asked (a : ResizeStep) (s : Resizes) (w : option X11Geometry) : option X11Geometry :=
  let ok := negb (failed (resize_step generation a s).2) in
  match a with
  | Begin _ _ _ h' g _ _ _ _ => if decide (h' = h) then if ok then Some g else None else w
  | Complete _ _ _ _ h' => if decide (h' = h) then if ok then w else None else w
  | Deadline _ _ => if ok then w else None
  | Clear h' => if decide (h' = h) then None else w
  | ClearGeneration g => if decide (handle_generation h = g) then None else w
  | _ => w
  end.
Inductive resizes_followed : Resizes -> option X11Geometry -> Prop :=
| followed_start : resizes_followed resizes_new None
| followed_next a s w : resizes_followed s w -> step_fresh a s -> step_followed a s ->
    resizes_followed (resize_step generation a s).1 (asked a s w).

(** The geometry a window has or will have. *)
Definition heading (v : Geo) : option X11Geometry :=
  match gv_desired v with Some d => Some (de_geometry d) | None => gv_last v end.
Record Conv (w : option X11Geometry) (v : Geo) : Prop := {
  cv_told : forall g, gv_last v = Some g -> gv_configured v = Some g;
  cv_tx : gv_pending v = true -> tx_geometry <$> gv_tx v = gv_last v;
  cv_heading : forall g, w = Some g -> heading v = Some g
}.
Definition Follows (w : option X11Geometry) (s : Resizes) : Prop := Conv w (geo s h).
Lemma follows_weaken w s : Follows w s -> Follows None s.
Proof. intros [H1 H2 _]. by split. Qed.
Lemma pending_not_disabled s h' : ResizeInv s -> is_pending (tracker s) h' = true -> h' ∉ sync_disabled (tracker s).
Proof.
  intros [_ Hv] Hp%is_pending_spec Hd. specialize (Hv h'). unfold view_ok in Hv. cbn in Hv.
  rewrite bool_decide_true in Hv by done. destruct (state (tracker s) h'); naive_solver.
Qed.
Lemma not_pending_desired s h' : ResizeInv s -> is_pending (tracker s) h' = false -> desired (tracker s) !! h' = None.
Proof.
  intros [_ Hv] Hp. specialize (Hv h'). unfold view_ok in Hv. cbn in Hv. unfold is_pending in Hp.
  apply negb_false_iff, bool_decide_eq_true in Hp. rewrite Hp in Hv. naive_solver.
Qed.
Lemma follows_immediate ok g final epoch rep s s' :
  is_pending (tracker s) h = false -> desired (tracker s) !! h = None -> Follows None s ->
  configure_immediate ok h g final epoch rep s = (s', None) -> Follows (Some g) s'.
Proof.
  intros Hp Hd [H2 H3 _] E. unfold Follows.
  assert (geo s' h = mkGeoView false (transactions (tracker s) !! h) None (Some g) (Some g)) as ->.
  { unfold geo in *. cbn in H2. unfold configure_immediate in E. destruct (decide _) as [El|].
    - specialize (H2 g El). destruct final; simplify_eq; cbn [tracker requests last_resize_geometries report with_log with_windows];
        by rewrite Hp, Hd, H2, El.
    - destruct ok; cbn [negb] in E; [|done]. injection E as <-.
      destruct final, rep; cbn -[last_configured is_pending]; rewrite Hp, Hd, last_configured_snoc, lookup_insert_eq; cbn;
        by rewrite decide_True. }
  split; cbn; congruence.
Qed.
Lemma follows_started ans c g counter dl final epoch s s' :
  ResizeInv s -> fresh_alarm ans s -> desired (tracker s) !! h = None ->
  start_resize_sync ans c h g counter dl final epoch s = (s', None) -> Follows (Some g) s'.
Proof.
  intros Hi Hf Hd E. destruct (start_cases ans c h g counter dl final epoch s (proj1 Hi) Hf)
    as [(s1 & e & E' & _)|(s0 & alarm & v & t & tx & C & _ & _ & Eb & Et & E')]; [congruence|]. rewrite E' in E.
  destruct (begin_spec _ _ _ _ _ _ _ _ Eb) as (tx' & Et' & Eg & _ & _ & Ht). specialize (Ht h). rewrite decide_True in Ht by done.
  destruct (started_geo ans h g v (begun alarm c v h tx t s0) h) as [(s1 & E1 & E2 & E3)|(s1 & E1 & _)]; [|congruence].
  rewrite E1 in E. injection E as <-. rewrite decide_True in E3 by done.
  assert (Hd' : desired t !! h = None) by (unfold tracked in Ht; rewrite (ca_tracker _ _ C) in Ht; congruence).
  unfold Follows, geo. cbn [tracker requests last_resize_geometries with_last with_windows]. rewrite E3, E2, lookup_insert_eq.
  cbn [tracker begun with_alarms with_tracker]. rewrite Et', Hd'. split; cbn; congruence.
Qed.
Lemma follows_begin sc cap ans g counter dl final epoch w s s' :
  ResizeInv s -> fresh_alarm ans s -> (is_pending (tracker s) h = true -> is_Some sc /\ cap = true) -> Follows w s ->
  begin_resize_sync_for_epoch sc cap ans h g counter dl final epoch s = (s', None) -> Follows (Some g) s'.
Proof.
  intros Hi Hf Hcl Hs. unfold begin_resize_sync_for_epoch. set (s1 := with_windows _ _ _ s).
  assert (H1 : ResizeInv s1) by (eapply Calm_inv; [apply Calm_windows|done]). assert (F1 : Follows w s1) by exact Hs.
  assert (Hf1 : fresh_alarm ans s1) by exact Hf. change (tracker s) with (tracker s1) in Hcl. clearbody s1.
  assert (Himm : is_pending (tracker s1) h = false -> configure_immediate (an_configure ans) h g final epoch true s1 = (s', None) ->
            Follows (Some g) s').
  { intros Hp. apply follows_immediate; [done|by apply not_pending_desired|by eapply follows_weaken]. }
  destruct (is_pending (tracker s1) h) eqn:Ep.
  - pose proof (pending_not_disabled s1 h H1 Ep) as Hd. destruct (Hcl eq_refl) as [[c ->] ->].
    rewrite bool_decide_false by done. cbn [negb orb]. intros [= <-].
    unfold Follows. rewrite geo_tracker. destruct F1 as [K2 K3 _]. unfold queue_desired_for_epoch.
    destruct (decide _) as [Ed|]; cbn -[is_pending] in *; (split; cbn -[is_pending]; [done|exact K3|]); intros g' [= <-]; unfold heading; cbn.
    + by rewrite Ed.
    + by rewrite lookup_insert_eq.
  - destruct sc as [c|]; [|by apply Himm]. destruct (negb cap || _); [by apply Himm|].
    pose proof (not_pending_desired s1 h H1 Ep) as Hd. destruct (decide _) as [El|].
    + intros [= <-]. assert (Hg : Follows (Some g) s1).
      { destruct F1 as [K2 K3 _]. split; [done..|]. intros g' [= <-]. unfold heading, geo. cbn. by rewrite Hd, El. }
      by destruct final.
    + by apply follows_started.
Qed.
(** A request that fails leaves nothing wrong behind. *)
Lemma immediate_failed ok h' g final epoch rep s s' e : configure_immediate ok h' g final epoch rep s = (s', Some e) -> s' = s.
Proof. unfold configure_immediate. destruct (decide _), ok; cbn; by intros [=]. Qed.
Lemma geo_cleared s : geo (clear_resize_sync h s) h = mkGeoView false None None None (gv_configured (geo s h)).
Proof.
  pose proof (proj2 (still_clear_alarm h (with_tracker (tracker_clear h (tracker s)) s)) h) as E.
  assert (Hp : is_pending (tracker_clear h (tracker s)) h = false)
    by (unfold is_pending; by rewrite state_tracked, tracked_clear, decide_True).
  unfold geo. change (tracker (clear_resize_sync h s)) with (tracker_clear h (tracker s)). rewrite Hp.
  cbn [last_resize_geometries clear_resize_sync with_windows with_counters requests transactions desired tracker_clear gv_configured].
  rewrite !lookup_delete_eq. f_equal. exact E.
Qed.
Lemma follows_begin_failed sc cap ans g counter dl final epoch w s s' e :
  ResizeInv s -> fresh_alarm ans s -> Follows w s ->
  begin_resize_sync_for_epoch sc cap ans h g counter dl final epoch s = (s', Some e) -> Follows None s'.
Proof.
  intros Hi Hf Hs%follows_weaken. unfold begin_resize_sync_for_epoch. set (s1 := with_windows _ _ _ s).
  assert (H1 : AlarmInv s1) by by destruct (proj1 Hi). assert (F1 : Follows None s1) by exact Hs.
  assert (Hf1 : fresh_alarm ans s1) by exact Hf. clearbody s1.
  destruct sc as [c|]; [|by intros ->%immediate_failed]. destruct (negb cap || _); [by intros ->%immediate_failed|].
  destruct (is_pending _ h); [done|]. destruct (decide _); [by destruct final|]. intros E.
  destruct (start_cases ans c h g counter dl final epoch s1 H1 Hf1)
    as [(s2 & e' & E' & C & S)|(s0 & alarm & v & t & tx & _ & _ & _ & _ & _ & E')]; rewrite E' in E.
  - injection E as -> _. unfold Follows. by rewrite (geo_still _ _ _ (ca_tracker _ _ C) S).
  - destruct (started_geo ans h g v (begun alarm c v h tx t s0) h) as [(s2 & E2 & _)|(s2 & E2 & _)]; rewrite E2 in E; [done|].
    injection E as <- _. unfold Follows. rewrite geo_cleared. by split.
Qed.
(** What makes a resize fail. *)
Lemma immediate_faults ok h' g final epoch rep s s' e :
  configure_immediate ok h' g final epoch rep s = (s', Some e) -> fault e = true.
Proof. unfold configure_immediate. destruct (decide _), ok; cbn; by intros [=]; subst. Qed.
Lemma start_faults ans c h' g counter dl final epoch s s' e :
  start_resize_sync ans c h' g counter dl final epoch s = (s', Some e) -> fault e = true.
Proof.
  unfold start_resize_sync. destruct (u32_max <? c); [by intros [= _ <-]|].
  unfold initialize_sync_counter. destruct (decide _), (an_counter ans); cbn [negb]; try (by intros [= _ <-]).
  all: destruct (an_alarm ans); [|by intros [= _ <-]]; destruct (next_counter_value _ _ _) as [s1 [v|]]; [|by intros [= _ <-]].
  all: destruct (an_create ans); cbn [negb]; [|by intros [= _ <-]].
  all: destruct (begin_transaction_for_epoch _ _ _ _ _ _ _) as [t|e'| |]; try (by intros [= _ <-]).
  all: destruct (transactions t !! h'); [|by intros [= _ <-]]; destruct (start_requests _ _ _ _ _) as [s2 []]; by intros [= _ <-].
Qed.
Lemma begin_faults sc cap ans h' g counter dl final epoch s s' e :
  begin_resize_sync_for_epoch sc cap ans h' g counter dl final epoch s = (s', Some e) -> fault e = true.
Proof.
  unfold begin_resize_sync_for_epoch. destruct sc as [c|]; [|apply immediate_faults].
  destruct (negb cap || _); [apply immediate_faults|]. destruct (is_pending _ h'); [done|]. destruct (decide _); [by destruct final|].
  apply start_faults.
Qed.
Lemma time_out_window_faults ans now h' s e : (time_out_window ans now h' s).2 = Some e -> fault e = true.
Proof.
  destruct (time_out_window_cases ans now h' s) as [[_ ->]|(c & _ & _ & ep & fo & ->)]; [done|]. cbv zeta.
  destruct (negb _); [by intros [= <-]|]. destruct (fallback_of h' s); [|done].
  destruct (configure_immediate _ _ _ _ _ _ _) as [s' [e'|]] eqn:E; [|done]. intros [= <-]. by eapply immediate_faults.
Qed.
Lemma time_out_windows_faults ans now hs s :
  failed (time_out_windows ans now hs s).2 = false -> (time_out_windows ans now hs s).2 = None.
Proof.
  revert s. induction hs as [|h' hs IH]; intros s; [done|]. cbn. pose proof (time_out_window_faults (ans h') now h' s) as Hf.
  destruct (time_out_window _ _ _ _) as [s' [e|]]; [|apply IH]. cbn. by rewrite (Hf e eq_refl).
Qed.
(** A window that came to rest keeps the geometry it was told. *)
Lemma follows_rest w v :
  Conv w v -> Conv None (mkGeoView false None None (gv_last v) (gv_configured v)).
Proof. intros [H2 _ _]. by split. Qed.
Lemma follows_complete sc cap ans now w s :
  ResizeInv s -> fresh_alarm ans s -> Follows w s ->
  let r := complete_resize_sync sc cap ans now h s in Follows (if negb (failed r.2) then w else None) r.1.
Proof.
  intros Hi Hf Hs. cbv zeta. destruct (complete_cases sc cap ans now h s) as [->|[[c Ec] ->]]; [done|].
  assert (Hp : is_pending (tracker s) h = true) by (apply is_pending_spec; by rewrite Ec).
  assert (He : geo (ended h s) h = mkGeoView false None None (gv_last (geo s h)) (gv_configured (geo s h)))
    by (by rewrite geo_ended, decide_True).
  assert (Hr : Follows None (ended h s)) by (unfold Follows; rewrite He; by eapply follows_rest).
  pose proof (cv_heading _ _ Hs) as Hh. pose proof (cv_tx _ _ Hs Hp) as Htx. unfold heading in Hh. cbn in Hh, Htx.
  assert (Hrest : forall w', (forall g, w' = Some g -> last_resize_geometries s !! h = Some g) -> Follows w' (ended h s)).
  { intros w' Hw. destruct Hr as [K2 K3 _]. split; [done..|]. intros g Eg. rewrite He. unfold heading. cbn. by apply Hw. }
  unfold followed. destruct (desired (tracker s) !! h) as [d|] eqn:Ed; [|by apply Hrest].
  destruct (decide _) as [Eg|].
  - assert (Follows w (ended h s)) by (apply Hrest; intros g ->; rewrite <- Htx, Eg; by apply Hh).
    by destruct (de_final d).
  - destruct (begin_resize_sync_for_epoch _ _ _ _ _ _ _ _ _ _) as [s' [e|]] eqn:Eb; cbn [fst snd failed negb].
    + rewrite (begin_faults _ _ _ _ _ _ _ _ _ _ _ _ Eb). eapply follows_begin_failed in Eb; [done|by apply inv_ended|by apply fresh_ended|done].
    + eapply follows_begin in Eb; [|by apply inv_ended|by apply fresh_ended| |exact Hr].
      * destruct Eb as [K2 K3 K4]. split; [done..|]. intros g ->. specialize (Hh g eq_refl). simplify_eq. by apply K4.
      * rewrite (f_equal gv_pending He : is_pending (tracker (ended h s)) h = false). done.
Qed.
Lemma follows_time_out_window ans now w s :
  ResizeInv s -> Follows w s -> let r := time_out_window ans now h s in Follows (if negb (failed r.2) then w else None) r.1.
Proof.
  intros Hi Hs. cbv zeta. destruct (time_out_window_cases ans now h s) as [[_ ->]|(c & _ & Ec & ep & fo & ->)]; [done|].
  assert (Hp : is_pending (tracker s) h = true) by (apply is_pending_spec; intros E; by rewrite E in Ec).
  assert (He : geo (given_up ans h c s) h = mkGeoView false None None (gv_last (geo s h)) (gv_configured (geo s h)))
    by (by rewrite geo_given_up, decide_True).
  assert (Hr : Follows None (given_up ans h c s)) by (unfold Follows; rewrite He; by eapply follows_rest).
  assert (Hf : fallback_of h s = heading (geo s h)).
  { unfold fallback_of, heading. cbn. destruct (desired (tracker s) !! h); [done|]. exact (cv_tx _ _ Hs Hp). }
  cbv zeta. destruct (negb (_ && _)); [exact Hr|]. pose proof (cv_heading _ _ Hs) as Hh. rewrite <- Hf in Hh.
  destruct (fallback_of h s) as [g|].
  - destruct (configure_immediate _ _ _ _ _ _ _) as [s' [e|]] eqn:Eb; cbn [fst snd failed negb].
    { rewrite (immediate_faults _ _ _ _ _ _ _ _ _ Eb). by rewrite (immediate_failed _ _ _ _ _ _ _ _ _ Eb). }
    apply follows_immediate in Eb; [|exact (f_equal gv_pending He)|exact (f_equal gv_desired He)|exact Hr].
    destruct Eb as [K2 K3 K4]. split; [done..|]. intros g' ->. specialize (Hh g' eq_refl). simplify_eq. by apply K4.
  - cbn [fst snd failed negb]. destruct Hr as [K2 K3 _]. split; [done..|]. intros g' ->. by specialize (Hh g' eq_refl).
Qed.
Lemma follows_time_out_windows ans now hs w s :
  ResizeInv s -> Follows w s -> let r := time_out_windows ans now hs s in Follows (if negb (failed r.2) then w else None) r.1.
Proof.
  cbv zeta. revert s. induction hs as [|h' hs IH]; intros s Hi Hs; [done|]. cbn.
  pose proof (inv_time_out_window (ans h') now h' s Hi) as Hi'. pose proof (time_out_window_faults (ans h') now h' s) as He.
  assert (Hg : let r := time_out_window (ans h') now h' s in Follows (if negb (failed r.2) then w else None) r.1).
  { destruct (decide (h' = h)) as [->|Hn]; [by apply follows_time_out_window|]. cbv zeta.
    assert (Follows w (time_out_window (ans h') now h' s).1) by (unfold Follows; by rewrite geo_time_out_window).
    destruct (negb _); [done|]. by eapply follows_weaken. }
  destruct (time_out_window _ _ _ _) as [s' [e|]]; [|by apply IH]. exact Hg.
Qed.
Lemma configured_clear_alarms hs s :
  last_configured h (requests (fold_left (fun s h => clear_resize_sync_alarm h s) hs s)) = last_configured h (requests s) /\
  last_resize_geometries (fold_left (fun s h => clear_resize_sync_alarm h s) hs s) = last_resize_geometries s.
Proof.
  revert s. induction hs as [|h' hs IH]; intros s; [done|]. cbn [fold_left]. destruct (IH (clear_resize_sync_alarm h' s)) as [-> ->].
  split; [|done]. by apply still_clear_alarm.
Qed.
Lemma geo_clear_generation g s :
  AlarmInv s -> geo (clear_resize_sync_generation g s) h =
    if decide (handle_generation h = g) then mkGeoView false None None (gv_last (geo s h)) (gv_configured (geo s h)) else geo s h.
Proof.
  intros Ha. unfold clear_resize_sync_generation. set (hs := remove_dups _). set (s1 := with_windows _ _ _ _).
  assert (Ha1 : AlarmInv s1) by (destruct Ha; by split). destruct (clear_alarms hs s1 Ha1) as (_ & H2 & _ & _).
  destruct (configured_clear_alarms hs s1) as [E1 E2]. set (s2 := fold_left _ hs s1) in *. clearbody s2.
  transitivity (geo (with_tracker (tracker_clear_generation g (tracker s)) s) h).
  - unfold geo. cbn [tracker requests last_resize_geometries with_alarms with_tracker]. by rewrite H2, E1, E2.
  - pose proof (tracked_clear_generation g (tracker s) h) as Et. destruct (decide _) as [|Hg]; [|by apply geo_tracked].
    rewrite geo_tracker. unfold is_pending. rewrite state_tracked, Et.
    assert (K2 : transactions (tracker_clear_generation g (tracker s)) !! h = None) by exact (f_equal (fun p => p.1.1.2) Et).
    assert (K3 : desired (tracker_clear_generation g (tracker s)) !! h = None) by exact (f_equal (fun p => p.1.2) Et).
    by rewrite K2, K3.
Qed.
Lemma geo_configure ok h' g f epoch s : h' <> h -> geo (command_configure ok h' g f epoch s).1 h = geo s h.
Proof.
  intros Hn. unfold command_configure.
  assert (Hnow : forall s1, geo s1 h = geo s h -> geo (if negb ok then (s1, Some ConnectionLost) else
      let s := send (ConfigureWindow h' g f) s1 in
      if bool_decide (h' ∈ immediate_resize_windows s) || bool_decide (h' ∈ fallback_resize_windows s) then
        (report (ResizeSyncImmediate h' epoch g false)
           (with_windows (immediate_resize_windows s ∖ {[h']})
              (if decide (h' ∈ immediate_resize_windows s) then fallback_resize_windows s else fallback_resize_windows s ∖ {[h']})
              (delete h' (last_resize_geometries s)) s), None)
      else (s, None)).1 h = geo s h).
  { intros s1 E. assert (E1 : geo (send (ConfigureWindow h' g f) s1) h = geo s h)
      by (rewrite <- E; apply geo_send; cbn; by rewrite decide_False).
    destruct ok; cbn [negb]; [|done]. cbv zeta. destruct (_ || _); [|done]. rewrite <- E1. unfold geo.
    cbn [fst tracker requests last_resize_geometries report with_log with_windows]. by rewrite lookup_delete_ne. }
  destruct (_ || _); cbn [andb negb]; destruct (is_pending (tracker s) h'); try (by apply Hnow); [by apply geo_queue|].
  apply Hnow. apply geo_tracked. unfold merge_desired_position. destruct (desired _ !! h'); [|done]. apply (elsewhere_desired h'); [|done].
  intros h2 H2. by rewrite lookup_insert_ne.
Qed.
Lemma geo_configure_frame pub ok h' g x s : h' <> h -> geo (command_configure_frame pub ok h' g x s).1 h = geo s h.
Proof.
  intros Hn. unfold command_configure_frame. destruct pub; [|done]. cbn [negb].
  assert (E1 : geo (send (FrameExtents h' x) s) h = geo s h) by (by apply geo_send).
  destruct ok; [|done]. cbn [negb fst]. rewrite geo_send; [done|]. cbn [configured_effect]. by rewrite decide_False.
Qed.
Lemma follows_resize_step a w s :
  step_fresh a s -> step_followed a s -> ResizeInv s -> Follows w s -> Follows (asked a s w) (resize_step generation a s).1.
Proof.
  intros Hf Hc Hi Hs. pose proof (proj1 Hi) as Ha. destruct a; cbn [resize_step fst asked step_fresh step_followed] in *.
  - destruct (decide (h0 = h)) as [->|Hn]; [|unfold Follows; by rewrite geo_begin].
    destruct (begin_resize_sync_for_epoch _ _ _ _ _ _ _ _ _ _) as [s' [e|]] eqn:Eb; cbn [fst snd failed].
    + rewrite (begin_faults _ _ _ _ _ _ _ _ _ _ _ _ Eb). by eapply follows_begin_failed.
    + eapply follows_begin; [done..| |done|exact Eb]. by apply Hc.
  - unfold Follows. by rewrite geo_configure.
  - unfold Follows. by rewrite geo_configure_frame.
  - unfold note_sync_alarm_notify, Follows. destruct (_ !! alarm); [|done]. destruct (_ && _); [|done]. by rewrite geo_ack.
  - unfold note_sync_counter_notify, Follows. destruct (_ !! counter); [|done]. by rewrite geo_ack.
  - unfold mark_surface_commit_observed, Follows. destruct (negb _); [done|]. cbn [fst]. by rewrite geo_process_pending.
  - unfold Follows. by rewrite geo_process_pending.
  - unfold Follows. by rewrite geo_release_commits.
  - destruct (decide (h0 = h)) as [->|Hn]; [by apply follows_complete|]. unfold Follows. by rewrite geo_complete.
  - by apply follows_time_out_windows.
  - unfold Follows. destruct (decide (h0 = h)) as [->|Hn]; [rewrite geo_cleared; by split|by rewrite geo_clear].
  - unfold Follows. rewrite geo_clear_generation by done. destruct (decide _); [by eapply follows_rest|done].
  - done.
  - unfold Follows. by rewrite (geo_still s); [|apply (ca_tracker _ _ (Calm_initialize ok h0 sync_counter s))|apply Still_initialize].
  - unfold command_set_allow_commits, Follows. destruct ok; [|done]. cbn [fst]. by rewrite geo_send.
  - done.
Qed.
Lemma followed_inv s w : resizes_followed s w -> ResizeInv s /\ Follows w s.
Proof.
  induction 1 as [|a s w Hr [Hi Hs] Hf Hc]; [split; [apply resizes_new_inv|by split]|]. split; [by apply inv_step|by apply follows_resize_step].
Qed.

(** C11: However resizes of a window are coalesced, skipped as unchanged,
    restarted after one was presented or given up at a deadline, the last
    geometry asked for by a resize is not lost: while a resize is in progress
    it is the one that waits, or else the one in progress, and once the
    window is at rest it is the geometry the server was last told. This is
    for histories in which no Configure or ConfigureFrame names the window,
    and in which its client still has a counter and the server still
    synchronises when a resize is asked for while one is in progress; and it
    counts a geometry as asked for unless the call of the window's own resize
    (or a deadline) failed, or the window or its generation was cleared,
    since. Everything else may happen in between, to this window and to
    others, failures included. *)
Theorem latest_resize_wins s g :
  resizes_followed s (Some g) ->
  (is_pending (tracker s) h = false -> last_configured h (requests s) = Some g) /\
  (is_pending (tracker s) h = true ->
     exists tx, transactions (tracker s) !! h = Some tx /\ last_configured h (requests s) = Some (tx_geometry tx) /\
       default (tx_geometry tx) (de_geometry <$> desired (tracker s) !! h) = g).
Proof.
  intros [Hi [H2 H3 H4]]%followed_inv. specialize (H4 g eq_refl). unfold heading in H4. cbn in H2, H3, H4. split.
  - intros Hp. rewrite (not_pending_desired s h Hi Hp) in H4. by apply H2.
  - intros Hp. specialize (H3 Hp). pose proof (proj2 Hi h) as Hv. apply is_pending_spec in Hp.
    assert (exists tx, transactions (tracker s) !! h = Some tx) as [tx Et].
    { unfold view_ok in Hv. cbn in Hv. destruct (state (tracker s) h); naive_solver. }
    exists tx. rewrite Et in H3. cbn in H3. split_and!; [done|by apply H2|]. destruct (desired (tracker s) !! h); cbn; congruence.
Qed.
End Convergence.

(** ** Configures between resizes *)



(** ** Witnesses *)

(** A resize that is presented while two more come in, and the next one. *)
Definition demo_history : list ResizeStep :=
  [demo_begin 900 810 false; AlarmNotify 900 1; demo_begin 901 820 false; demo_begin 901 830 true;
   Release demo_associated true true demo_window 1 9 4; CommitObserved demo_associated (mkCommit 1 3 9 5);
   Complete (Some 50) true (demo_answers 901) 2000 demo_window; AlarmNotify 901 2;
   Release demo_associated true true demo_window 2 9 5; CommitObserved demo_associated (mkCommit 1 3 9 6);
   Complete (Some 50) true (demo_answers 902) 3000 demo_window].
Definition demo_run (l : list ResizeStep) : Resizes :=
  fold_left (fun s a => (resize_step (order := list_order) (connection := steady) 1 a s).1) l resizes_new.
Section Following.
Context {order : HashOrder} {connection : Connection} (generation h : Z).
Definition follow_step (p : Resizes * option X11Geometry) (a : ResizeStep) : Resizes * option X11Geometry :=
  ((resize_step generation a p.1).1, asked generation h a p.1 p.2).
Fixpoint all_followed (l : list ResizeStep) (p : Resizes * option X11Geometry) : Prop :=
  match l with
  | [] => True
  | a :: l => step_fresh a p.1 /\ step_followed h a p.1 /\ all_followed l (follow_step p a)
  end.
Lemma followed_run l p :
  resizes_followed generation h p.1 p.2 -> all_followed l p ->
  let p' := fold_left follow_step l p in resizes_followed generation h p'.1 p'.2.
Proof. revert p. induction l as [|a l IH]; intros p Hp Hl; [done|]. destruct Hl as (H1 & H2 & H3). apply IH; [|done]. by apply followed_next. Qed.
End Following.
Definition demo_asked : Resizes * option X11Geometry :=
  fold_left (follow_step (order := list_order) (connection := steady) 1 demo_window) demo_history (resizes_new, None).
Lemma demo_followed :
  resizes_followed (order := list_order) (connection := steady) 1 demo_window demo_asked.1 demo_asked.2.
Proof.
  apply (followed_run (order := list_order) (connection := steady) 1 demo_window demo_history (resizes_new, None)); [apply followed_start|].
  vm_compute. repeat split; try done; eauto.
Qed.
Lemma latest_resize_wins_witness :
  is_pending (tracker (demo_run demo_history)) demo_window = false /\
  last_configured demo_window (requests (demo_run demo_history)) = Some (mkGeo 0 0 830 600).
Proof.
  split; [vm_compute; reflexivity|].
  assert (E1 : demo_asked.1 = demo_run demo_history) by (vm_compute; reflexivity).
  assert (E2 : demo_asked.2 = Some (mkGeo 0 0 830 600)) by (vm_compute; reflexivity).
  pose proof demo_followed as Hd. rewrite E1, E2 in Hd.
  apply (latest_resize_wins (order := list_order) (connection := steady) 1 demo_window (demo_run demo_history) _ Hd).
  vm_compute; reflexivity.
Defined.
